(* ===== verification/_CoqProject ===== *)
-Q . S2P
Prelude.v
Io.v
Util.v
Glib.v
DataProtocol.v
Tx.v
TxLog.v
AppTask.v
Schedule.v
Resolver.v
Callback.v
Auth.v
LruCache.v
NodeMap.v
Itree.v
LockMem.v
Fsm.v
Storage.v
MemPage.v
MemEnv.v
MemLock.v
MemTree.v
MemOps.v
MemDurable.v
MemCommit.v
MemSearch.v
MemDefects.v
Oids.v
Data.v
DataSession.v
DataFrame.v
DataProgress.v
Queue.v
QueueFifo.v
Socket.v
Framing.v
MetaProtocol.v
Routing.v
SessionServer.v
ChannelServer.v
GameClient.v
SessionClient.v
GameProtocol.v
GameLogin.v
Channel.v
ChannelClient.v
Relay.v
ChannelEffects.v
Session.v
DurableTask.v
DurableSchedule.v
DurableDefects.v
DataServer.v
DataServerProtocol.v
MetaServer.v
DataClient.v
MetaClient.v
CacheEnv.v
CacheLock.v
CacheRange.v
CacheTx.v
CacheCount.v
CacheFrame.v
CacheLocks.v
CacheNode.v
CacheShow.v
CacheSent.v
CacheCoherent.v
CacheServed.v
CacheDefects.v
OidsDataClient.v
DataExchange.v
MetaLogin.v
MetaRelay.v
