(* ===== verification/Prelude.v ===== *)
(** * A verification development of the gzochi server

    gzochi is a server for multiplayer games.  An application runs its callbacks
    in transactions over persistent objects; an application may run on several
    nodes, which then borrow data, locks and blocks of object ids from a meta
    server.  This library models the core of that in Rocq, from the C sources
    under src/gzochi-server/src (and src/gzochi-common/src for the integer
    coding), and proves what makes it correct.  Definitions have the names of the
    functions and types they model; file and definition names below are those of
    the library, the C files are in parentheses.

    ** The parts and how they call each other

    - [Prelude] (this file): outcomes of C code, integers at their width, bytes
      and buffers, time values, and the lemmas and tactics the files share.
    - [Io] (gzochi-common/src/io.c): integers in byte buffers, big-endian.
    - [Util] (util.c): the serializers of primitive values and containers over
      byte arrays, object id encoding, comparators, and the formatting of bytes
      for the log.  Uses [Io].
    - [Glib]: the sequences and lists of GLib that several files use, as sorted
      and plain Coq lists, with the laws they rely on.
    - [DataProtocol] (protocol-common.c, data-protocol.c): the messages between
      a node's data client and the data server of the meta server.  Uses [Io].
    - [Tx] (tx.c): the transaction coordinator of a thread.  Its participants
      have callbacks to prepare, commit and roll back.
    - [TxLog] (txlog.c): a participant that holds log messages until the commit.
    - [AppTask] (app-task.c): tasks of an application in transactions, with their
      retries, catch and cleanup tasks.  Uses [Tx].
    - [Schedule] (schedule.c): the queue of tasks in the order of their times, and the
      threads that submit, feed and execute them.
    - [Callback] (callback.c, auth.c): callbacks and identities in storage; [Auth]
      (auth.c, auth/): the authenticators of players.
    - [Fsm] (fsm.c): the state machines of the lifecycles, with entry and exit
      functions that may ask for further states.
    - [LruCache] (lrucache.c), [NodeMap] (nodemap-mem.c): a bounded cache ordered by
      use and the two-way map from sessions to nodes.
    - [Itree] (itree.c), [LockMem] (lock-mem.c): the interval tree, and the table
      of point and range locks of the data server built on it.
    - [Storage] (gzochid-storage.h): the interface of the storage engines as a
      record of operations, and the classes of what callers rely on: [EngineLaws], and
      [Isolation] of a transaction from the others.
    - The in-memory storage engine (storage-mem.c): [MemPage], the bytes of a page
      of records; [MemEnv], environments, nodes and their scratch copies; [MemLock],
      locks with a search for deadlocks; [MemTree], operations of a transaction that
      may wait, and commits and rollbacks; [MemOps], search, insertion, splitting,
      merging and the operations of the interface.  [MemDurable], [MemCommit] and
      [MemSearch] hold the theorems about these, [MemDefects] runs that go wrong.
    - [Oids] (oids.c, oids-storage.c): blocks of object ids, over [Storage].
    - [Data] (data.c): the data manager, a participant of [Tx] over [Storage] and
      [Oids], with [Util]'s coding of ids.
    - [DataSession], [DataFrame], [DataProgress]: the operations of a transaction on
      [Data] as an interface, with the laws its clients use, what it leaves alone, and
      what it keeps of the objects in memory and in storage; [Queue] (queue.c): the
      durable queue, over it, and [QueueFifo] what it answers.
    - [Socket] (socket.c): the buffers of a client's socket and their dispatch, and
      sockets to the meta server that outlive their connections.
    - [Framing]: the loop, common to all protocols, that cuts a stream into
      messages; the class [FramedProtocol] is its interface with [Socket].
    - [MetaProtocol] (meta-protocol.h): the opcodes between the nodes and the meta
      server, and the building and reading of its messages.
    - [SessionServer] (sessionserver.c, sessionserver-protocol.c) and
      [ChannelServer] (channelserver.c, channelserver-protocol.c): the parts of the
      meta server that relay between nodes, over [NodeMap] and [Socket].
    - [GameClient] (game-protocol.c, app.h): the state of a node that its protocols
      share, and its messages to game clients; [GameProtocol] (game-protocol.c): the
      messages of game clients, logging in and out; [GameLogin]: a whole login and the
      stream of a client.  [Channel] (channel.c): the members of
      channels on a node; [SessionClient] (sessionclient.c, sessionclient-protocol.c)
      and [ChannelClient] (channelclient.c, channelclient-protocol.c): a node's ends
      of the relays.
    - [Relay]: a message from one node's client through the meta server to another;
      [MetaRelay]: a notice about a channel from a node to all the others, through the
      protocols of [MetaServer] and [MetaClient].
    - [ChannelEffects] (channel.c): the scheduled operations on channels, which note
      side effects in a participant of [Tx] that its commit carries out, by [Channel]
      on the node and by [ChannelClient] on the others.
    - [Session] (session.c): the sessions of players as objects, and what transactions
      queue for them.
    - [DurableTask] (durable-task.c, task.c): tasks that outlive the server, as handles in
      storage over [Data], and the participant of [Tx] that submits them at the commit;
      [DurableSchedule] has the theorems about scheduling, [DurableDefects] runs of tasks
      and of chains of tasks over an engine.
    - [DataServer] (dataserver.c) and [DataServerProtocol] (dataserver-protocol.c): the
      meta server's data of applications, lent to nodes under the locks of [LockMem],
      over [Storage], and its requests, over [DataProtocol] and [Framing].
    - [DataClient] (dataclient.c, dataclient-protocol.c): a node's requests to the data
      server with the queues of their callbacks; [OidsDataClient] (oids-dataclient.c):
      blocks of object ids from it, a strategy of [Oids]; [DataExchange]: a request from
      a node to the data server and back, through the protocol of [MetaClient].
    - The caching storage engine of a node (storage-dataclient.c), over [DataClient] and a
      delegate engine of [Storage]: [CacheEnv], the environment, point locks with their
      requests and evictions, and the callbacks of the data client; [CacheLock], obtaining
      a point lock; [CacheRange], the same for ranges of keys, in trees of [Itree];
      [CacheTx], the operations of the interface.  [CacheNode] has the steps of a node; with
      [CacheCount], [CacheFrame] and [CacheLocks] it counts the references of locks,
      with [CacheShow], [CacheCoherent] and [CacheServed] it says what transactions read,
      with [CacheSent] what a commit sends to the meta server.
      [CacheDefects] has runs that go wrong.
    - [Routing]: the class of a component that handles its own part of the opcodes, and
      the delegation to it; [MetaServer] (metaserver-protocol.c) and [MetaClient]
      (metaclient.c, metaclient-protocol.c): the two ends of the connection of a node to
      the meta server, which log in and then delegate; [MetaLogin]: a log in from the
      one to the other, and what the loss of a node leaves.
    - [Resolver] (resolver.c): the tree of constructors by which a component gets the
      instances it needs, and the construction of these.

    ** How state and operations correspond

    A function that changes state takes the state and returns it.  Failure of an
    [assert], undefined behaviour (a read or write outside of a buffer, a null or
    a dangling pointer) and exhausted fuel are the values [Abort], [Undef] and
    [Fuel] of [outcome]; error results and [GError]s are ordinary values.  Where
    pointers are shared or compared, there is a heap, a finite map from addresses
    to records: the nodes of [Itree] with their parent pointers, the locks of
    [LockMem], which its lists and its tables of nodes share, the references,
    contexts and objects of [Data].  Thread-private data is in the state of [Tx].
    A hash table is a finite map; where the code enumerates one, the order is a
    parameter of which only is assumed that it lists each entry once.  Integers
    wrap at their width.  Functions the source gets as pointers (participants,
    destroy functions, comparators, serializers, storage engines) are parameters,
    and so are the clock and the byte order of the machine.

    ** What the theorems show

    - Locks: a key that a node may write is held by no other node in any reachable
      table, and the range locks of different nodes are disjoint; each operation
      is specified on every branch; two defects of range locks are proved.
    - Interval tree: insertions refine a finite map from intervals and keep the
      invariant; point and interval searches find exactly what they should;
      freeing ends; removing from the root of an unbalanced tree can make it
      cyclic.
    - Transactions: a transaction that ends calls commit on all its participants
      or rolls all of them back, and its result says which; logged messages
      appear exactly when it commits.
    - Data manager: a transaction that ends commits the serializations of exactly
      its new and modified objects, or nothing, and releases what it held; the ids
      of new objects are increasing and never given twice, whatever storage does;
      a name yields the object that was bound to it.
    - Coding: integers, primitive values, containers and messages round trip, and
      the readers of messages stay inside of them, with the exceptions proved.
    - Streams: however the bytes of messages are cut and spread over reads, each
      message is treated once, alone and in order; what is written to a reconnectable
      socket is given to its connections once and in order.
    - Relays: a mapped session's node is connected; what one node relays to a session
      reaches its game client on another, and notices about channels of at most 2^15 bytes
      reach every other node once, which then changes its part of the channel as sets of
      sessions change; longer ones are never dispatched, since the length is a signed short.
    - Channel operations: a side effect is carried out exactly when its transaction
      commits; messages and closings reach the members here and the meta server once;
      the joins and leaves of other nodes' sessions are lost, which is a defect.
    - Data server: a value that was lent stays the committed one while its lock is held;
      a change set is committed whole and under write locks only, or not at all; each
      request leads to one response.
    - Data client: the answers about an application go to the callbacks of the requests
      they are for, in order; a request for a value is served once, if the response has at
      most 2^15 bytes, and its lock gets a source that will release it; a block of ids is
      that of the first answer.
    - Caching engine: in every run whose answers each find the lock that asked for them, each
      lock counts the releases to come and the transactions that have it.  As long as the
      answers are current, a transaction on a node that writes no empty value and does not
      put what it has deleted is one on a map of what the meta server has: it reads that
      with its own changes, its commit sends them first, unless there are none or they are
      too long for a message, and the node is coherent with the result; a read sends one
      request and its answer is returned.  Runs in which answers cross, and other ways to
      read or hold what one should not, are in [CacheDefects].
    - Sessions and clients: the two tables are inverses in every run in which no connection
      ends during a login, nor after a request to leave that came before it; a login maps
      the session or tells the client; what a client sends leads to one task each; what a
      transaction queued for sessions is sent once at its commit, but messages to a session
      that is refused are dropped.
    - Tasks: the attempts at a task end, and its catch and cleanup tasks run as they should.
      The task queue executes each task once, whatever its threads do: a single one after
      its own time, those of a chain in order after the time of the first; its consumer
      hands on all that is due.
    - Durable tasks: scheduling names the handle, makes it an object that the commit stores
      and submits one task at the commit, or nothing; a handle reads back from its bytes.
      Chains of tasks are lost after restarts, which is a defect ([DurableDefects]).
    - Storage engine: a page is a sorted list of records; a lock for writing has one holder
      and deadlocks are found exactly; only commits change what is committed, up to bounds
      and scratch keys that the code changes in place; a commit installs what the
      transaction saw and a rollback drops it; lookups in ordered trees find the keys of
      which no proper prefix is stored.  The runs of [MemDefects] break the laws of
      [EngineLaws].
    - Nodes: a node that connects and reads the answer to its log in is connected to the
      meta server that gave it, with its end of the data client; the meta server
      answers each log in, and a node whose connection fails leaves no session, channel
      or lock behind, if it has no locks of ranges.
    - Resolver: looking for an instance ends, and gives one or names what is missing, if no
      two of the types agree on 32 bits.
    - Queue: offers, peeks and pops answer as a first in, first out list, whichever
      elements and objects are in memory and whichever still in storage.
    - Cache, node map, machine: each refines its specification, a list ordered by
      use, a finite map and a worklist of requests.

    Theorems with hypotheses are followed by a lemma that uses them at a concrete
    instance, named after them with the suffix [_witness].

    ** Fuel

    Loops over lists are structural.  Loops over the heap of [Itree] have fuel:
    the size of the heap is enough on the trees that the theorems are about, which
    is part of their statements.  The loop over the pending states of [Fsm] has
    fuel because it need not end; when requests follow an order, a bound is given.
    Waiting is bounded by what happens meanwhile: the class [Waiting] of [MemTree] has
    the steps of the other transactions and how many are waited for, and its loops the
    number [steps] of nodes on a path; the waits of [OidsDataClient], [CacheLock],
    [CacheRange] and [CacheTx] run through a list of what wakes them.  A theorem about a
    wait says what the list must hold.  The depth of the tree of [Resolver] is bounded by
    the number of classes, since a class that needs itself is refused; its theorem is that
    some fuel is enough.

    ** Limits

    Calls run one at a time: the mutexes of the code are not modelled, except that
    what they protect is changed in one step, and that waits let others act.  Memory is
    never exhausted.  In the in-memory engine, scratch pages copy the whole block, and a
    scratch header that was freed and allocated again during a wait is not told apart from
    the old one.  The caching engine is that of one application of a node;
    closing its stores is left out.  Of the threads of the task queue a step is what one does
    between two points where it gives up its mutex.  In the
    resolver references are not counted and constructors do not use the context while they
    run.  Not modelled: the persistent object of a channel (channel.c).  Left out for good: start-up, server sockets, HTTP, the Guile
    bindings, the loading of authenticators, the Berkeley DB engine and the tools. *)

From Stdlib Require Export ZArith Lia.
From stdpp Require Export base list gmap numbers option strings.

(** ** Outcomes of C code

    A call either returns ([Ret]), fails an [assert] ([Abort]), does something
    the C standard leaves undefined, such as reading outside of a buffer or
    dereferencing a dangling pointer ([Undef]), or, for a loop that is modelled
    with fuel, does not finish within its fuel ([Fuel]). *)

Inductive outcome (A : Type) : Type :=
| Ret (a : A)
| Abort
| Undef
| Fuel.

Arguments Ret {A} a.
Arguments Abort {A}.
Arguments Undef {A}.
Arguments Fuel {A}.

#[export] Instance outcome_ret : MRet outcome := fun A a => Ret a.

#[export] Instance outcome_bind : MBind outcome := fun A B k m =>
  match m with
  | Ret a => k a
  | Abort => Abort
  | Undef => Undef
  | Fuel => Fuel
  end.

#[export] Instance outcome_fmap : FMap outcome := fun A B f m =>
  match m with
  | Ret a => Ret (f a)
  | Abort => Abort
  | Undef => Undef
  | Fuel => Fuel
  end.

(** A C [assert]. *)
Definition c_assert (b : bool) : outcome unit :=
  if b then Ret tt else Abort.

(** An access that is undefined when there is nothing to access. *)
Definition deref {A} (o : option A) : outcome A :=
  match o with
  | Some a => Ret a
  | None => Undef
  end.

Declare Scope gz_scope.
Delimit Scope gz_scope with gz.

Notation "'assert!' b ; k" := (mbind (fun _ : unit => k) (c_assert b))
  (at level 20, b at level 100, k at level 200, right associativity,
   only parsing) : gz_scope.

(** ** Machine integers: the value of a Z reduced to a width. *)

Definition unsigned (w z : Z) : Z := z mod 2 ^ w.

Definition signed (w z : Z) : Z :=
  (z + 2 ^ (w - 1)) mod 2 ^ w - 2 ^ (w - 1).

Abbreviation u8 := (unsigned 8).
Abbreviation u16 := (unsigned 16).
Abbreviation u32 := (unsigned 32).
Abbreviation u64 := (unsigned 64).
Abbreviation s16 := (signed 16).
Abbreviation s32 := (signed 32).
Abbreviation s64 := (signed 64).

Definition in_unsigned (w z : Z) : Prop := (0 <= z < 2 ^ w)%Z.
Definition in_signed (w z : Z) : Prop := (- 2 ^ (w - 1) <= z < 2 ^ (w - 1))%Z.

(** ** Bytes: an [unsigned char] is a Z between 0 and 255. *)

Abbreviation byte_ok := (in_unsigned 8).
Abbreviation bytes := (list Z).
Definition bytes_ok (bs : bytes) : Prop := Forall byte_ok bs.

(** Big-endian coding of [n] bytes. *)
Fixpoint be_encode (n : nat) (z : Z) : bytes :=
  match n with
  | O => []
  | S n' => u8 (Z.shiftr z (8 * Z.of_nat n')) :: be_encode n' z
  end.

Definition be_decode (bs : bytes) : Z :=
  foldl (fun acc b => acc * 256 + b)%Z 0%Z bs.

(** ** Buffers

    [read_at] reads one cell of a buffer, [write_at] overwrites consecutive
    cells from an offset; both are undefined out of range. *)

Definition read_at (bs : bytes) (off : Z) : outcome Z :=
  if (off <? 0)%Z then Undef else deref (bs !! Z.to_nat off).

Definition write_at (bs : bytes) (off : Z) (new : bytes) : outcome bytes :=
  if ((off <? 0) || (Z.of_nat (length bs) <? off + Z.of_nat (length new)))%Z
  then Undef
  else Ret (take (Z.to_nat off) bs ++ new
            ++ drop (Z.to_nat off + length new) bs).

Arguments signed : simpl never.
Arguments unsigned : simpl never.
Arguments read_at : simpl never.
Arguments write_at : simpl never.

(** [struct timeval]; [timercmp] compares seconds, then microseconds. *)
Record timeval := Timeval { tv_sec : Z; tv_usec : Z }.

#[export] Instance timeval_eq_dec : EqDecision timeval.
Proof. solve_decision. Defined.

Definition timercmp_lt (a b : timeval) : bool :=
  if (tv_sec a =? tv_sec b)%Z then (tv_usec a <? tv_usec b)%Z
  else (tv_sec a <? tv_sec b)%Z.

Abbreviation timercmp_gt a b := (timercmp_lt b a).

(** [timersub], which normalises a negative microsecond difference. *)
Definition timersub (a b : timeval) : timeval :=
  let sec := (tv_sec a - tv_sec b)%Z in
  let usec := (tv_usec a - tv_usec b)%Z in
  if (usec <? 0)%Z then Timeval (sec - 1) (usec + 1000000)
  else Timeval sec usec.

(** The characters of a string literal, without a terminator. *)
Definition bytes_of_string (s : string) : bytes :=
  (fun c => Z.of_nat (Ascii.nat_of_ascii c)) <$> String.list_ascii_of_string s.

(** ** Lemmas on outcomes *)

Lemma bind_Ret {A B} (m : outcome A) (k : A -> outcome B) (b : B) :
  m ≫= k = Ret b <-> exists a, m = Ret a /\ k a = Ret b.
Proof.
  split.
  - destruct m; try done. by eauto.
  - by intros (a & -> & ?).
Qed.

Lemma deref_Ret {A} (o : option A) (a : A) : deref o = Ret a <-> o = Some a.
Proof. destruct o; naive_solver. Qed.

Lemma c_assert_Ret (b : bool) (u : unit) : c_assert b = Ret u <-> b = true.
Proof. destruct u, b; naive_solver. Qed.

(** [inv_ret] splits every hypothesis saying that a sequence of calls returns
    into the returns of the calls. *)
Ltac inv_ret :=
  repeat match goal with
  | H : _ ≫= _ = Ret _ |- _ =>
      apply bind_Ret in H; destruct H as (? & ? & H)
  | H : deref _ = Ret _ |- _ => apply deref_Ret in H
  | H : c_assert _ = Ret _ |- _ => apply c_assert_Ret in H
  | H : mret _ = Ret _ |- _ => injection H as H
  | H : Ret _ = Ret _ |- _ => injection H as H
  | H : Abort = Ret _ |- _ => discriminate H
  | H : Undef = Ret _ |- _ => discriminate H
  | H : Fuel = Ret _ |- _ => discriminate H
  end; simplify_eq.

(** Run a sequence of calls whose first one is known to return. *)
Ltac run := cbn [mbind outcome_bind deref].

(** What holds of the result of a call if it returns. *)
Definition if_ret {A} (m : outcome A) (Q : A -> Prop) : Prop := forall a, m = Ret a -> Q a.

Lemma if_ret_ret {A} (a : A) (Q : A -> Prop) : Q a -> if_ret (Ret a) Q.
Proof. by intros ? ? [= <-]. Qed.

Lemma if_ret_bind {A B} (m : outcome A) (k : A -> outcome B) (Q : B -> Prop) :
  if_ret m (fun a => if_ret (k a) Q) -> if_ret (m ≫= k) Q.
Proof. intros Hm b (a & Ha & Hb)%bind_Ret. by apply (Hm a). Qed.

Lemma if_ret_mono {A} (m : outcome A) (P Q : A -> Prop) :
  if_ret m P -> (forall a, P a -> Q a) -> if_ret m Q.
Proof. intros Hm HPQ a Ha. apply HPQ. by apply Hm. Qed.

Lemma if_ret_any {A} (m : outcome A) : if_ret m (fun _ => True).
Proof. done. Qed.

(** Goes through a body call by call.  [lemmas] proves what is needed of a call;
    of the others nothing is used. *)
Tactic Notation "walk" "with" tactic3(lemmas) :=
  lazymatch goal with
  | |- if_ret (_ ≫= _) _ => apply if_ret_bind
  | |- if_ret (Ret _) _ => apply if_ret_ret; cbv beta iota zeta
  | |- if_ret Abort _ => intros ? ?; discriminate
  | |- if_ret Undef _ => intros ? ?; discriminate
  | |- if_ret Fuel _ => intros ? ?; discriminate
  | |- if_ret (match ?x with _ => _ end) _ =>
      first [is_var x; destruct x | destruct x eqn:?]; cbn [fst snd] in *
  | |- if_ret _ _ =>
      first [ eapply if_ret_mono; [solve [lemmas]|let H := fresh "H" in intros ? H; cbv beta iota zeta in H |- *]
            | eapply if_ret_mono; [apply if_ret_any|intros ? _; cbv beta iota zeta] ]
  end.

(** Case analysis on every [if] and [match] scrutinee of the goal. *)
Ltac case_all :=
  repeat (case_match; simplify_eq/=; try done).

(** ** Lemmas on machine integers *)

Create HintDb gz.
Create HintDb frame.

Lemma unsigned_range (w z : Z) : (0 <= w)%Z -> in_unsigned w (unsigned w z).
Proof. intros. apply Z.mod_pos_bound. by apply Z.pow_pos_nonneg. Qed.

Lemma unsigned_small (w z : Z) : in_unsigned w z -> unsigned w z = z.
Proof. apply Z.mod_small. Qed.

Lemma u64_small (z : Z) : (0 <= z < 2 ^ 64)%Z -> u64 z = z.
Proof. apply unsigned_small. Qed.

Lemma signed_range (w z : Z) : (0 < w)%Z -> in_signed w (signed w z).
Proof.
  intros Hw. unfold signed, in_signed.
  assert (Hp : (2 ^ w = 2 * 2 ^ (w - 1))%Z).
  { rewrite <- Z.pow_succ_r by lia. f_equal. lia. }
  pose proof (Z.mod_pos_bound (z + 2 ^ (w - 1)) (2 ^ w)).
  assert (0 < 2 ^ (w - 1))%Z by (apply Z.pow_pos_nonneg; lia). lia.
Qed.

Lemma signed_small (w z : Z) : (0 < w)%Z -> in_signed w z -> signed w z = z.
Proof.
  intros Hw Hz. unfold signed, in_signed in *.
  assert (Hp : (2 ^ w = 2 * 2 ^ (w - 1))%Z).
  { rewrite <- Z.pow_succ_r by lia. f_equal. lia. }
  rewrite Z.mod_small; lia.
Qed.

Lemma signed_mod (w z : Z) : signed w (z mod 2 ^ w) = signed w z.
Proof. unfold signed. by rewrite Zplus_mod_idemp_l. Qed.

Lemma unsigned_signed (w z : Z) :
  (0 < w)%Z -> unsigned w (signed w z) = unsigned w z.
Proof.
  intros Hw. unfold signed, unsigned. rewrite Zminus_mod_idemp_l.
  f_equal. lia.
Qed.

#[export] Hint Resolve unsigned_range unsigned_small signed_small : gz.

(** ** Lemmas on the big-endian code *)

Lemma be_encode_length (n : nat) (z : Z) : length (be_encode n z) = n.
Proof. induction n; simpl; congruence. Qed.

Lemma be_encode_ok (n : nat) (z : Z) : bytes_ok (be_encode n z).
Proof. induction n; constructor; [by apply unsigned_range | done]. Qed.

Lemma be_decode_acc (bs : bytes) (acc : Z) :
  foldl (fun acc b => acc * 256 + b)%Z acc bs
  = (acc * 256 ^ Z.of_nat (length bs) + be_decode bs)%Z.
Proof.
  unfold be_decode. revert acc.
  induction bs as [|b bs IH]; intros acc; cbn [foldl length]; [lia|].
  rewrite IH, (IH (0 * 256 + b)%Z). rewrite Nat2Z.inj_succ, Z.pow_succ_r by lia. lia.
Qed.

Lemma be_decode_cons (b : Z) (bs : bytes) :
  be_decode (b :: bs) = (b * 256 ^ Z.of_nat (length bs) + be_decode bs)%Z.
Proof. unfold be_decode at 1. cbn [foldl]. rewrite be_decode_acc. lia. Qed.

Lemma be_decode_bound (bs : bytes) :
  bytes_ok bs -> (0 <= be_decode bs < 256 ^ Z.of_nat (length bs))%Z.
Proof.
  induction 1 as [|b bs Hb _ IH]; [done|].
  rewrite be_decode_cons. simpl length. rewrite Nat2Z.inj_succ, Z.pow_succ_r by lia.
  unfold in_unsigned in Hb. nia.
Qed.

(** Decoding an encoding reduces the value to the width. *)
Lemma be_decode_encode (n : nat) (z : Z) :
  be_decode (be_encode n z) = (z mod 2 ^ (8 * Z.of_nat n))%Z.
Proof.
  induction n as [|n IH]; [by rewrite Z.mod_1_r|].
  simpl be_encode. rewrite be_decode_cons, be_encode_length, IH.
  rewrite Z.shiftr_div_pow2 by lia. unfold unsigned.
  replace (8 * Z.of_nat (S n))%Z with (8 * Z.of_nat n + 8)%Z by lia.
  rewrite Z.pow_add_r by lia.
  rewrite (Z.rem_mul_r z (2 ^ (8 * Z.of_nat n)) (2 ^ 8)) by
    (try apply Z.pow_nonzero; lia).
  replace (256 ^ Z.of_nat n)%Z with (2 ^ (8 * Z.of_nat n))%Z; [lia|].
  rewrite Z.pow_mul_r by lia. done.
Qed.

Lemma be_decode_inj (bs1 bs2 : bytes) :
  bytes_ok bs1 -> bytes_ok bs2 -> length bs1 = length bs2 ->
  be_decode bs1 = be_decode bs2 -> bs1 = bs2.
Proof.
  intros H1. revert bs2.
  induction H1 as [|b1 bs1 Hb1 H1 IH]; intros [|b2 bs2] H2 Hlen Heq; try done.
  inversion_clear H2 as [|? ? Hb2 Hbs2]. simpl in Hlen. injection Hlen as Hlen.
  rewrite !be_decode_cons, Hlen in Heq.
  pose proof (be_decode_bound bs1 H1) as B1. pose proof (be_decode_bound bs2 Hbs2) as B2.
  rewrite Hlen in B1.
  assert (b1 = b2) as -> by nia. f_equal. apply IH; auto. lia.
Qed.

(** Encoding a decoding gives the bytes back. *)
Lemma be_encode_decode (n : nat) (bs : bytes) :
  bytes_ok bs -> length bs = n -> be_encode n (be_decode bs) = bs.
Proof.
  intros Hok Hlen. apply be_decode_inj; auto using be_encode_ok.
  { by rewrite be_encode_length. }
  rewrite be_decode_encode. apply Z.mod_small.
  pose proof (be_decode_bound bs Hok) as HB. rewrite Hlen in HB.
  rewrite Z.pow_mul_r by lia. done.
Qed.

Arguments be_encode : simpl never.

(** ** Lemmas on buffers *)

Lemma read_at_app (pre : bytes) (b : Z) (post : bytes) :
  read_at (pre ++ b :: post) (Z.of_nat (length pre)) = Ret b.
Proof.
  unfold read_at. destruct (Z.ltb_spec (Z.of_nat (length pre)) 0); [lia|].
  rewrite Nat2Z.id, list_lookup_middle; done.
Qed.

Lemma write_at_app (pre old post new : bytes) :
  length old = length new ->
  write_at (pre ++ old ++ post) (Z.of_nat (length pre)) new
  = Ret (pre ++ new ++ post).
Proof.
  intros Hlen. unfold write_at. rewrite !length_app.
  destruct (Z.ltb_spec (Z.of_nat (length pre)) 0); [lia|].
  destruct (Z.ltb_spec (Z.of_nat (length pre + (length old + length post)))
    (Z.of_nat (length pre) + Z.of_nat (length new))); [lia|]. simpl.
  rewrite Nat2Z.id, take_app_length.
  rewrite <- drop_drop, drop_app_length, <- Hlen, drop_app_length. done.
Qed.

Lemma bytes_ok_app (bs1 bs2 : bytes) :
  bytes_ok (bs1 ++ bs2) <-> bytes_ok bs1 /\ bytes_ok bs2.
Proof. apply Forall_app. Qed.

(** ** Lemmas on time values *)

Lemma timercmp_lt_irrefl (a : timeval) : timercmp_lt a a = false.
Proof. unfold timercmp_lt. rewrite Z.eqb_refl. apply Z.ltb_irrefl. Qed.

Lemma timercmp_lt_trans (a b c : timeval) :
  timercmp_lt a b = true -> timercmp_lt b c = true -> timercmp_lt a c = true.
Proof. unfold timercmp_lt. case_all; lia. Qed.

Lemma timercmp_lt_asym (a b : timeval) : timercmp_lt a b = true -> timercmp_lt b a = false.
Proof. unfold timercmp_lt. case_all; lia. Qed.

Lemma timercmp_ge_trans (a b c : timeval) :
  timercmp_lt a b = false -> timercmp_lt b c = false -> timercmp_lt a c = false.
Proof. unfold timercmp_lt. case_all; lia. Qed.

Lemma timercmp_lt_total (a b : timeval) :
  timercmp_lt a b = false -> timercmp_lt b a = false -> a = b.
Proof.
  destruct a as [s1 u1], b as [s2 u2]; unfold timercmp_lt; simpl.
  intros. case_all; f_equal; lia.
Qed.

(** ** Lemmas on lists *)

Lemma list_set_middle {A} (l1 l2 : list A) (x y : A) :
  <[length l1 := x]> (l1 ++ y :: l2) = l1 ++ x :: l2.
Proof. induction l1 as [|z l1 IH]; [done|]. cbn. by f_equal. Qed.
