(* ===== verification/Io.v ===== *)
(** * Big-endian integer input and output (gzochi-common/src/io.c)

    The six routines read or write an integer at an offset of a byte buffer.
    A signed left shift that overflows is given its two's complement value, as
    the compilers the project targets do; an access outside of the buffer is
    [Undef].  [BigEndian] is the interface the serialization and protocol files
    use: it says what a reader and a writer of [n] bytes promise, and one
    instance per integer width discharges it. *)

From S2P Require Import Prelude.

Local Open Scope Z_scope.

Definition gzochi_common_io_read_long (bs : bytes) (off : Z) : outcome Z :=
  b0 ← read_at bs off; b1 ← read_at bs (off + 1);
  b2 ← read_at bs (off + 2); b3 ← read_at bs (off + 3);
  b4 ← read_at bs (off + 4); b5 ← read_at bs (off + 5);
  b6 ← read_at bs (off + 6); b7 ← read_at bs (off + 7);
  Ret (s64 (Z.shiftl b0 56 + Z.shiftl b1 48 + Z.shiftl b2 40 + Z.shiftl b3 32
            + Z.shiftl b4 24 + Z.shiftl b5 16 + Z.shiftl b6 8 + b7)).

Definition gzochi_common_io_read_int (bs : bytes) (off : Z) : outcome Z :=
  b0 ← read_at bs off; b1 ← read_at bs (off + 1);
  b2 ← read_at bs (off + 2); b3 ← read_at bs (off + 3);
  Ret (s32 (Z.shiftl b0 24 + Z.shiftl b1 16 + Z.shiftl b2 8 + b3)).

Definition gzochi_common_io_read_short (bs : bytes) (off : Z) : outcome Z :=
  b0 ← read_at bs off; b1 ← read_at bs (off + 1);
  Ret (s16 (Z.shiftl b0 8 + b1)).

(** A cell is an [unsigned char], so what is stored is reduced to 8 bits. *)
Definition gzochi_common_io_write_long (val : Z) (bs : bytes) (off : Z)
  : outcome bytes :=
  write_at bs off
    [u8 (Z.shiftr val 56); u8 (Z.land (Z.shiftr val 48) 255);
     u8 (Z.land (Z.shiftr val 40) 255); u8 (Z.land (Z.shiftr val 32) 255);
     u8 (Z.land (Z.shiftr val 24) 255); u8 (Z.land (Z.shiftr val 16) 255);
     u8 (Z.land (Z.shiftr val 8) 255); u8 (Z.land val 255)].

Definition gzochi_common_io_write_int (val : Z) (bs : bytes) (off : Z)
  : outcome bytes :=
  write_at bs off
    [u8 (Z.shiftr val 24); u8 (Z.land (Z.shiftr val 16) 255);
     u8 (Z.land (Z.shiftr val 8) 255); u8 (Z.land val 255)].

Definition gzochi_common_io_write_short (val : Z) (bs : bytes) (off : Z)
  : outcome bytes :=
  write_at bs off
    [u8 (Z.land (Z.shiftr val 8) 255); u8 (Z.land val 255)].

(** ** The interface *)

Class BigEndian (n : nat) (read : bytes -> Z -> outcome Z)
    (write : Z -> bytes -> Z -> outcome bytes) : Prop := {
  be_size : (0 < n)%nat;
  be_read : forall pre enc post : bytes, length enc = n ->
    read (pre ++ enc ++ post) (Z.of_nat (length pre))
    = Ret (signed (8 * Z.of_nat n) (be_decode enc));
  be_read_short : forall (bs : bytes) (off v : Z),
    read bs off = Ret v -> 0 <= off /\ off + Z.of_nat n <= Z.of_nat (length bs);
  be_write : forall (v : Z) (bs : bytes) (off : Z),
    write v bs off = write_at bs off (be_encode n v)
}.

(** ** The implementation discharges the interface *)

Lemma land_255 (z : Z) : u8 (Z.land z 255) = u8 z.
Proof.
  unfold unsigned. change 255 with (Z.ones 8). rewrite Z.land_ones by lia.
  apply Z.mod_mod. done.
Qed.

Lemma read_at_cells (pre mid post : bytes) (k b : Z) :
  0 <= k -> mid !! Z.to_nat k = Some b ->
  read_at (pre ++ mid ++ post) (Z.of_nat (length pre) + k) = Ret b.
Proof.
  intros H0 Hk. unfold read_at.
  destruct (Z.ltb_spec (Z.of_nat (length pre) + k) 0); [lia|].
  rewrite lookup_app_r by lia.
  replace (Z.to_nat (Z.of_nat (length pre) + k) - length pre)%nat
    with (Z.to_nat k) by lia.
  rewrite lookup_app_l; [by rewrite Hk | by eapply lookup_lt_Some].
Qed.

Lemma read_at_Ret (bs : bytes) (off b : Z) :
  read_at bs off = Ret b -> 0 <= off < Z.of_nat (length bs).
Proof.
  unfold read_at. destruct (Z.ltb_spec off 0); [done|].
  intros Hd%deref_Ret%lookup_lt_Some. lia.
Qed.

Lemma read_at_cell_0 (pre : bytes) (b : Z) (mid post : bytes) :
  read_at (pre ++ (b :: mid) ++ post) (Z.of_nat (length pre)) = Ret b.
Proof. apply (read_at_app pre b (mid ++ post)). Qed.

Ltac read_cells :=
  rewrite read_at_cell_0; run;
  repeat (match goal with
  | |- context [read_at (?pre ++ ?mid ++ ?post) (Z.of_nat (length ?pre) + ?k)] =>
      erewrite (read_at_cells pre mid post k) by (lia || reflexivity)
  end; run).

(** Every list of known length is its cells. *)
Ltac cells enc Hlen :=
  repeat (destruct enc as [|? enc]; [try discriminate Hlen |
                                     cbn [length] in Hlen; try discriminate Hlen]).

Ltac codec read write :=
  split; [lia | | |];
  [ intros pre enc post Hlen; cells enc Hlen; unfold read; read_cells;
    rewrite !Z.shiftl_mul_pow2 by lia; do 2 f_equal; unfold be_decode; cbn [foldl];
    lia
  | intros bs off v Hr; unfold read in Hr; inv_ret;
    repeat match goal with
    | H : read_at _ _ = Ret _ |- _ => apply read_at_Ret in H
    end; lia
  | intros v bs off; unfold write; by rewrite !land_255 ].

#[export] Instance long_codec :
  BigEndian 8 gzochi_common_io_read_long gzochi_common_io_write_long.
Proof. codec gzochi_common_io_read_long gzochi_common_io_write_long. Qed.

#[export] Instance int_codec :
  BigEndian 4 gzochi_common_io_read_int gzochi_common_io_write_int.
Proof. codec gzochi_common_io_read_int gzochi_common_io_write_int. Qed.

#[export] Instance short_codec :
  BigEndian 2 gzochi_common_io_read_short gzochi_common_io_write_short.
Proof. codec gzochi_common_io_read_short gzochi_common_io_write_short. Qed.

(** An encoding has the low bits of the integer. *)
Lemma be_encode_signed (n : nat) (z : Z) :
  (0 < n)%nat -> be_encode n (signed (8 * Z.of_nat n) z) = be_encode n z.
Proof.
  intros Hn. apply be_decode_inj; auto using be_encode_ok; [by rewrite !be_encode_length|].
  rewrite !be_decode_encode. apply (unsigned_signed (8 * Z.of_nat n)). lia.
Qed.

Lemma be_encode_unsigned (n : nat) (z : Z) :
  be_encode n (unsigned (8 * Z.of_nat n) z) = be_encode n z.
Proof.
  apply be_decode_inj; auto using be_encode_ok; [by rewrite !be_encode_length|].
  rewrite !be_decode_encode. unfold unsigned. by rewrite Zmod_mod.
Qed.

(** ** Facts that follow from the interface *)

Section codec.

Context {n : nat} {read : bytes -> Z -> outcome Z}.
Context {write : Z -> bytes -> Z -> outcome bytes}.
Context `{Hbe : !BigEndian n read write}.

(** A buffer that has room for the integer at [off]. *)
Lemma buffer_split (bs : bytes) (off : Z) :
  0 <= off -> off + Z.of_nat n <= Z.of_nat (length bs) ->
  exists pre old post, bs = pre ++ old ++ post
    /\ Z.of_nat (length pre) = off /\ length old = n.
Proof.
  intros H0 H1. exists (take (Z.to_nat off) bs),
    (take n (drop (Z.to_nat off) bs)), (drop n (drop (Z.to_nat off) bs)).
  rewrite !take_drop, !length_take, length_drop. split_and!; [done | lia | lia].
Qed.

(** Writing at the end of a buffer grown by [n] bytes appends the encoding. *)
Lemma write_append (v : Z) (bs old : bytes) :
  length old = n ->
  write v (bs ++ old) (Z.of_nat (length bs)) = Ret (bs ++ be_encode n v).
Proof.
  intros Hold. rewrite be_write. rewrite <- (app_nil_r (bs ++ old)), <- app_assoc.
  rewrite write_at_app by (by rewrite be_encode_length).
  by rewrite app_nil_r.
Qed.

(** Reading an encoding gives the value reduced to the width. *)
Lemma read_encoded (v : Z) (pre post : bytes) :
  read (pre ++ be_encode n v ++ post) (Z.of_nat (length pre))
  = Ret (signed (8 * Z.of_nat n) v).
Proof.
  rewrite be_read by apply be_encode_length.
  by rewrite be_decode_encode, signed_mod.
Qed.

Lemma read_encoded_0 (v : Z) (post : bytes) :
  read (be_encode n v ++ post) 0 = Ret (signed (8 * Z.of_nat n) v).
Proof. apply (read_encoded v []). Qed.

Lemma read_front (enc post : bytes) :
  length enc = n ->
  read (enc ++ post) 0 = Ret (signed (8 * Z.of_nat n) (be_decode enc)).
Proof. apply (be_read []). Qed.

(** Reading after writing at the same offset, with the frame. *)
Lemma codec_roundtrip (v : Z) (bs : bytes) (off : Z) :
  0 <= off -> off + Z.of_nat n <= Z.of_nat (length bs) ->
  exists bs', write v bs off = Ret bs'
    /\ read bs' off = Ret (signed (8 * Z.of_nat n) v)
    /\ length bs' = length bs
    /\ (forall i, (i < Z.to_nat off \/ Z.to_nat off + n <= i)%nat ->
          bs' !! i = bs !! i).
Proof.
  intros H0 H1. destruct (buffer_split bs off H0 H1) as (pre & old & post & -> & <- & Hold).
  exists (pre ++ be_encode n v ++ post). split_and!.
  - rewrite be_write. apply write_at_app. by rewrite be_encode_length.
  - apply read_encoded.
  - by rewrite !length_app, be_encode_length, Hold.
  - rewrite Nat2Z.id. intros i [Hi|Hi].
    + by rewrite !lookup_app_l by lia.
    + by rewrite !lookup_app_r by (rewrite ?be_encode_length; lia);
        rewrite be_encode_length, Hold.
Qed.

End codec.

(** Writing an integer at an offset of a buffer that has room for it and
    reading it back at that offset gives the integer, for each of the three
    widths; the write changes no other byte and not the length of the buffer. *)
Theorem io_roundtrip (v off : Z) (bs : bytes) :
  0 <= off ->
  (in_signed 64 v -> off + 8 <= Z.of_nat (length bs) ->
   exists bs', gzochi_common_io_write_long v bs off = Ret bs'
     /\ gzochi_common_io_read_long bs' off = Ret v
     /\ length bs' = length bs
     /\ (forall i, (i < Z.to_nat off \/ Z.to_nat off + 8 <= i)%nat ->
           bs' !! i = bs !! i))
  /\ (in_signed 32 v -> off + 4 <= Z.of_nat (length bs) ->
   exists bs', gzochi_common_io_write_int v bs off = Ret bs'
     /\ gzochi_common_io_read_int bs' off = Ret v
     /\ length bs' = length bs
     /\ (forall i, (i < Z.to_nat off \/ Z.to_nat off + 4 <= i)%nat ->
           bs' !! i = bs !! i))
  /\ (in_signed 16 v -> off + 2 <= Z.of_nat (length bs) ->
   exists bs', gzochi_common_io_write_short v bs off = Ret bs'
     /\ gzochi_common_io_read_short bs' off = Ret v
     /\ length bs' = length bs
     /\ (forall i, (i < Z.to_nat off \/ Z.to_nat off + 2 <= i)%nat ->
           bs' !! i = bs !! i)).
Proof.
  intros H0. split_and!; intros Hv Hlen;
    [ destruct (codec_roundtrip (Hbe := long_codec) v bs off H0 Hlen)
        as (bs' & Hw & Hr & Hfr)
    | destruct (codec_roundtrip (Hbe := int_codec) v bs off H0 Hlen)
        as (bs' & Hw & Hr & Hfr)
    | destruct (codec_roundtrip (Hbe := short_codec) v bs off H0 Hlen)
        as (bs' & Hw & Hr & Hfr) ];
    exists bs'; (split; [exact Hw|]); (split; [|exact Hfr]);
    rewrite Hr; f_equal; by apply signed_small.
Qed.

Lemma io_roundtrip_witness :
  exists bs', gzochi_common_io_write_int (-2) [9; 9; 9; 9; 9; 9] 1 = Ret bs'
    /\ gzochi_common_io_read_int bs' 1 = Ret (-2)
    /\ length bs' = length [9; 9; 9; 9; 9; 9]
    /\ (forall i, (i < Z.to_nat 1 \/ Z.to_nat 1 + 4 <= i)%nat ->
          bs' !! i = [9; 9; 9; 9; 9; 9] !! i).
Proof.
  apply (io_roundtrip (-2) 1 [9; 9; 9; 9; 9; 9]); [lia | split; lia | simpl; lia].
Defined.
