(* ===== verification/Util.v ===== *)
(** * Serialization and comparison utilities (gzochi-server/src/util.c)

    A [GByteArray] is a list of bytes; a serializer takes the array it appends
    to, a deserializer takes the array it consumes a prefix of and returns what
    is left.  Reading past the end of the array is [Undef].  A [GList] or
    [GSequence] is a list, a [GHashTable] is the list of its entries in
    iteration order when it is traversed and a [gmap] when it is built.
    [Serial] is the interface between the generic container serializers and the
    element serializers they are given. *)

From S2P Require Import Prelude.
From S2P Require Import Io.

Local Open Scope Z_scope.

(** ** GByteArray and C string primitives *)

(** [g_byte_array_append (out, str, len)], reading [len] bytes at [str]. *)
Definition byte_array_append (out str : bytes) (len : Z) : outcome bytes :=
  if (0 <=? len) && (len <=? Z.of_nat (length str))
  then Ret (out ++ take (Z.to_nat len) str) else Undef.

(** [g_byte_array_remove_range (in, 0, n)]; an invalid range is refused and the
    array stays as it is. *)
Definition byte_array_remove_front (bs : bytes) (n : Z) : bytes :=
  if (0 <=? n) && (n <=? Z.of_nat (length bs)) then drop (Z.to_nat n) bs else bs.

(** [memchr (bs, 0, n)] as an index. *)
Fixpoint memchr0 (bs : bytes) (n : nat) {struct n} : outcome (option nat) :=
  match n with
  | O => Ret None
  | S n' =>
      match bs with
      | [] => Undef
      | b :: bs' =>
          if b =? 0 then Ret (Some O)
          else r ← memchr0 bs' n'; Ret (option_map S r)
      end
  end.

(** [strlen]: undefined when the memory holds no terminator. *)
Definition strlen (mem : bytes) : outcome Z :=
  r ← memchr0 mem (length mem); n ← deref r; Ret (Z.of_nat n).

(** ** Serializers *)

Definition gzochid_util_serialize_boolean (b : bool) (out : bytes)
  : outcome bytes :=
  byte_array_append out [if b then 1 else 0] 1.

Definition gzochid_util_serialize_int (n : Z) (out : bytes) : outcome bytes :=
  n_str ← gzochi_common_io_write_int n [0; 0; 0; 0] 0;
  byte_array_append out n_str 4.

Definition gzochid_util_serialize_bytes (str : bytes) (len : Z) (out : bytes)
  : outcome bytes :=
  out ← gzochid_util_serialize_int len out;
  byte_array_append out str len.

Definition gzochid_util_serialize_string (str : bytes) (out : bytes)
  : outcome bytes :=
  n ← strlen str;
  gzochid_util_serialize_bytes str (s32 (n + 1)) out.

Definition gzochid_util_serialize_uint64 (oid : Z) (out : bytes)
  : outcome bytes :=
  n_str ← gzochi_common_io_write_long (s64 oid) [0; 0; 0; 0; 0; 0; 0; 0] 0;
  byte_array_append out n_str 8.

Definition gzochid_util_serialize_oid (oid : Z) (out : bytes) : outcome bytes :=
  gzochid_util_serialize_uint64 oid out.

(** The loop over the elements of a list or of a sequence. *)
Fixpoint serialize_elements {A} (serializer : A -> bytes -> outcome bytes)
    (l : list A) (out : bytes) : outcome bytes :=
  match l with
  | [] => Ret out
  | a :: l' => out ← serializer a out; serialize_elements serializer l' out
  end.

Definition gzochid_util_serialize_list {A} (l : list A)
    (serializer : A -> bytes -> outcome bytes) (out : bytes) : outcome bytes :=
  len_str ← gzochi_common_io_write_int (s32 (Z.of_nat (length l))) [0; 0; 0; 0] 0;
  out ← byte_array_append out len_str 4;
  serialize_elements serializer l out.

Definition gzochid_util_serialize_sequence {A} (sequence : list A)
    (serializer : A -> bytes -> outcome bytes) (out : bytes) : outcome bytes :=
  len_str ← gzochi_common_io_write_int (s32 (Z.of_nat (length sequence)))
    [0; 0; 0; 0] 0;
  out ← byte_array_append out len_str 4;
  serialize_elements serializer sequence out.

Definition gzochid_util_serialize_hash_table {K V} (entries : list (K * V))
    (key_serializer : K -> bytes -> outcome bytes)
    (value_serializer : V -> bytes -> outcome bytes) (out : bytes)
  : outcome bytes :=
  len_str ← gzochi_common_io_write_int (s32 (Z.of_nat (length entries)))
    [0; 0; 0; 0] 0;
  out ← byte_array_append out len_str 4;
  serialize_elements
    (fun kv out => out ← key_serializer kv.1 out; value_serializer kv.2 out)
    entries out.

Definition gzochid_util_serialize_timeval (tv : timeval) (out : bytes)
  : outcome bytes :=
  str ← gzochi_common_io_write_int (s32 (tv_sec tv)) [0; 0; 0; 0] 0;
  out ← byte_array_append out str 4;
  str ← gzochi_common_io_write_int (s32 (tv_usec tv)) str 0;
  byte_array_append out str 4.

(** ** Deserializers *)

Definition gzochid_util_deserialize_boolean (ins : bytes)
  : outcome (bool * bytes) :=
  b ← read_at ins 0;
  Ret (b =? 1, byte_array_remove_front ins 1).

Definition gzochid_util_deserialize_int (ins : bytes) : outcome (Z * bytes) :=
  n ← gzochi_common_io_read_int ins 0;
  Ret (n, byte_array_remove_front ins 4).

(** [memcpy (dst, src, n)] as the bytes it copies. *)
Definition memcpy_from (src : bytes) (n : Z) : outcome bytes :=
  if (0 <=? n) && (n <=? Z.of_nat (length src))
  then Ret (take (Z.to_nat n) src) else Undef.

Definition gzochid_util_deserialize_bytes (ins : bytes)
  : outcome (bytes * Z * bytes) :=
  str_len ← gzochi_common_io_read_int ins 0;
  i_str ← memcpy_from (drop 4 ins) str_len;
  Ret (i_str, str_len, byte_array_remove_front ins (4 + str_len)).

Definition gzochid_util_deserialize_string (ins : bytes)
  : outcome (bytes * bytes) :=
  '(str, _, ins) ← gzochid_util_deserialize_bytes ins;
  Ret (str, ins).

Definition gzochid_util_deserialize_uint64 (ins : bytes)
  : outcome (Z * bytes) :=
  n ← gzochi_common_io_read_long ins 0;
  Ret (u64 n, byte_array_remove_front ins 8).

Definition gzochid_util_deserialize_oid (ins : bytes) : outcome (Z * bytes) :=
  gzochid_util_deserialize_uint64 ins.

(** The loop that reads [len] elements, appending each to the result. *)
Fixpoint deserialize_elements {A} (deserializer : bytes -> outcome (A * bytes))
    (len : nat) (ret : list A) (ins : bytes) : outcome (list A * bytes) :=
  match len with
  | O => Ret (ret, ins)
  | S len' =>
      '(a, ins) ← deserializer ins;
      deserialize_elements deserializer len' (ret ++ [a]) ins
  end.

Definition gzochid_util_deserialize_list {A}
    (deserializer : bytes -> outcome (A * bytes)) (ins : bytes)
  : outcome (list A * bytes) :=
  len ← gzochi_common_io_read_int ins 0;
  deserialize_elements deserializer (Z.to_nat len) []
    (byte_array_remove_front ins 4).

Definition gzochid_util_deserialize_sequence {A}
    (deserializer : bytes -> outcome (A * bytes)) (ins : bytes)
  : outcome (list A * bytes) :=
  len ← gzochi_common_io_read_int ins 0;
  deserialize_elements deserializer (Z.to_nat len) []
    (byte_array_remove_front ins 4).

Fixpoint deserialize_entries {K V} `{Countable K}
    (kd : bytes -> outcome (K * bytes)) (vd : bytes -> outcome (V * bytes))
    (len : nat) (ret : gmap K V) (ins : bytes) : outcome (gmap K V * bytes) :=
  match len with
  | O => Ret (ret, ins)
  | S len' =>
      '(key, ins) ← kd ins;
      '(value, ins) ← vd ins;
      deserialize_entries kd vd len' (<[key := value]> ret) ins
  end.

Definition gzochid_util_deserialize_hash_table {K V} `{Countable K}
    (kd : bytes -> outcome (K * bytes)) (vd : bytes -> outcome (V * bytes))
    (ins : bytes) : outcome (gmap K V * bytes) :=
  len ← gzochi_common_io_read_int ins 0;
  deserialize_entries kd vd (Z.to_nat len) ∅ (byte_array_remove_front ins 4).

Definition gzochid_util_deserialize_timeval (ins : bytes)
  : outcome (timeval * bytes) :=
  sec ← gzochi_common_io_read_int ins 0;
  let ins := byte_array_remove_front ins 4 in
  usec ← gzochi_common_io_read_int ins 0;
  let ins := byte_array_remove_front ins 4 in
  Ret (Timeval sec usec, ins).

(** ** Comparisons

    [memcmp] and [strcmp] give only the sign of their result a meaning, so the
    result is normalised to -1, 0 or 1. *)

Definition sign_compare (a b : Z) : Z :=
  if a <? b then -1 else if b <? a then 1 else 0.

(** [g_bytes_compare]: lexicographic, a proper prefix first. *)
Fixpoint bytes_compare (a b : bytes) : Z :=
  match a, b with
  | [], [] => 0
  | [], _ :: _ => -1
  | _ :: _, [] => 1
  | x :: a', y :: b' =>
      if x =? y then bytes_compare a' b' else sign_compare x y
  end.

(** [g_strcmp0] on the contents of the strings, [None] for [NULL]. *)
Definition gzochid_util_string_data_compare (a b : option bytes) : Z :=
  match a, b with
  | None, None => 0
  | None, Some _ => -1
  | Some _, None => 1
  | Some x, Some y => bytes_compare x y
  end.

Definition gzochid_util_guint64_data_compare (an bn : Z) : Z :=
  if an <? bn then -1 else if bn <? an then 1 else 0.

Definition gzochid_util_bytes_compare_null_first (o1 o2 : option bytes) : Z :=
  match o1 with
  | None => match o2 with None => 0 | Some _ => -1 end
  | Some b1 => match o2 with None => 1 | Some b2 => bytes_compare b1 b2 end
  end.

Definition gzochid_util_bytes_compare_null_last (o1 o2 : option bytes) : Z :=
  match o1 with
  | None => match o2 with None => 0 | Some _ => 1 end
  | Some b1 => match o2 with None => -1 | Some b2 => bytes_compare b1 b2 end
  end.

(** ** Object ids as storage keys

    The platform's byte order is a parameter; [native_bytes] is the memory
    image of a 64-bit value. *)

Definition swap64 (z : Z) : Z := be_decode (rev (be_encode 8 z)).

Definition native_bytes (big_endian : bool) (z : Z) : bytes :=
  if big_endian then be_encode 8 z else rev (be_encode 8 z).

Definition gzochid_util_encode_oid (big_endian : bool) (oid : Z) : Z :=
  if big_endian then oid else swap64 oid.

Definition gzochid_util_decode_oid (big_endian : bool) (oid : Z) : Z :=
  if big_endian then oid else swap64 oid.

(** ** Deep copy of a list: prepend the copies, then reverse *)

Fixpoint list_copy_loop {A B} (func : A -> B) (l : list A) (new_list : list B)
  : list B :=
  match l with
  | [] => new_list
  | a :: l' => list_copy_loop func l' (func a :: new_list)
  end.

Definition gzochid_util_list_copy_deep {A B} (l : list A) (func : A -> B)
  : list B :=
  rev (list_copy_loop func l []).

(** ** Formatting of a byte buffer for display *)

Definition nibble_to_hex_char (n : Z) : Z := if n <? 10 then n + 48 else n + 87.

(** [isgraph] in the C locale. *)
Definition isgraph (b : Z) : bool := (33 <=? b) && (b <=? 126).

Fixpoint format_loop (rest buf : bytes) (buf_offset max_offset : Z)
  : outcome (bytes * Z) :=
  match rest with
  | [] => Ret (buf, buf_offset)
  | b :: rest' =>
      if negb (buf_offset <? max_offset) then Ret (buf, buf_offset)
      else if isgraph b then
        let last := match rest' with [] => true | _ => false end in
        buf ← (if last || (buf_offset <? max_offset - 1)
               then write_at buf buf_offset [b]
               else write_at buf buf_offset [95]);
        format_loop rest' buf (buf_offset + 1) max_offset
      else if 4 <=? max_offset - buf_offset then
        buf ← write_at buf buf_offset
          [92; 120; nibble_to_hex_char (b / 16); nibble_to_hex_char (b mod 16)];
        format_loop rest' buf (buf_offset + 4) max_offset
      else
        buf ← write_at buf buf_offset [95];
        Ret (buf, buf_offset + 1)
  end.

(** The buffer [buf] has [buf_len] bytes. *)
Definition gzochid_util_format_bytes (bs buf : bytes) (buf_len : Z)
  : outcome bytes :=
  let max_offset := s32 (buf_len - 1) in
  '(buf, buf_offset) ← format_loop bs buf 0 max_offset;
  write_at buf buf_offset [0].

(** ** The interface of an element serializer

    [ser] appends an encoding that [des] reads back, whatever follows it, for
    every value that satisfies [valid]. *)
Class Serial {A} (valid : A -> Prop) (ser : A -> bytes -> outcome bytes)
    (des : bytes -> outcome (A * bytes)) : Prop :=
  serial_ok : forall v, valid v -> exists enc,
    (forall out, ser v out = Ret (out ++ enc))
    /\ (forall rest, des (enc ++ rest) = Ret (v, rest)).

(** A C string: bytes other than NUL, then the terminator. *)
Definition cstring (str : bytes) : Prop :=
  exists s, str = s ++ [0] /\ Forall (fun b => b <> 0) s.

(** ** Lemmas on the primitives *)

Lemma byte_array_append_all (out str : bytes) :
  byte_array_append out str (Z.of_nat (length str)) = Ret (out ++ str).
Proof.
  unfold byte_array_append. rewrite Nat2Z.id, firstn_all.
  destruct (Z.leb_spec 0 (Z.of_nat (length str))); [|lia].
  by rewrite Z.leb_refl.
Qed.

Lemma remove_front_app (enc rest : bytes) (n : Z) :
  n = Z.of_nat (length enc) ->
  byte_array_remove_front (enc ++ rest) n = rest.
Proof.
  intros ->. unfold byte_array_remove_front. rewrite length_app.
  destruct (Z.leb_spec 0 (Z.of_nat (length enc))); [|lia].
  destruct (Z.leb_spec (Z.of_nat (length enc)) (Z.of_nat (length enc + length rest)));
    [|lia].
  simpl. by rewrite Nat2Z.id, drop_app_length.
Qed.

Lemma memcpy_from_app (bs rest : bytes) :
  memcpy_from (bs ++ rest) (Z.of_nat (length bs)) = Ret bs.
Proof.
  unfold memcpy_from. rewrite length_app.
  destruct (Z.leb_spec 0 (Z.of_nat (length bs))); [|lia].
  destruct (Z.leb_spec (Z.of_nat (length bs)) (Z.of_nat (length bs + length rest)));
    [|lia].
  simpl. by rewrite Nat2Z.id, take_app_length.
Qed.

Lemma memchr0_found (s rest : bytes) (n : nat) :
  Forall (fun b => b <> 0) s -> (length s < n)%nat ->
  memchr0 (s ++ 0 :: rest) n = Ret (Some (length s)).
Proof.
  intros Hs. revert n. induction Hs as [|b s Hb _ IH]; intros [|n] Hn; simpl in *;
    try lia; try done.
  destruct (Z.eqb_spec b 0); [done|]. by rewrite IH by lia.
Qed.

(** With no terminator in the first [n] bytes, [memchr] finds nothing. *)
Lemma memchr0_none (s rest : bytes) (n : nat) :
  Forall (fun b => b <> 0) s -> (n <= length s)%nat ->
  memchr0 (s ++ rest) n = Ret None.
Proof.
  intros Hs. revert n. induction Hs as [|b s Hb _ IH]; intros [|n] Hn; simpl in *;
    try lia; try done.
  destruct (Z.eqb_spec b 0); [done|]. by rewrite IH by lia.
Qed.

Lemma strlen_cstring (s rest : bytes) :
  Forall (fun b => b <> 0) s -> strlen (s ++ 0 :: rest) = Ret (Z.of_nat (length s)).
Proof.
  intros Hs. unfold strlen.
  rewrite memchr0_found by (rewrite ?length_app; simpl; lia || done). done.
Qed.

Lemma write_int_4 (v : Z) (old : bytes) :
  length old = 4%nat -> gzochi_common_io_write_int v old 0 = Ret (be_encode 4 v).
Proof. apply (write_append (Hbe := int_codec) v []). Qed.

Lemma write_long_8 (v : Z) (old : bytes) :
  length old = 8%nat -> gzochi_common_io_write_long v old 0 = Ret (be_encode 8 v).
Proof. apply (write_append (Hbe := long_codec) v []). Qed.

Lemma append_be (n : nat) (v : Z) (out : bytes) :
  byte_array_append out (be_encode n v) (Z.of_nat n) = Ret (out ++ be_encode n v).
Proof.
  rewrite <- (be_encode_length n v) at 2. apply byte_array_append_all.
Qed.

Lemma serialize_int_append (n : Z) (out : bytes) :
  gzochid_util_serialize_int n out = Ret (out ++ be_encode 4 n).
Proof.
  unfold gzochid_util_serialize_int. rewrite write_int_4 by done.
  apply (append_be 4).
Qed.

Lemma read_int_front (v : Z) (rest : bytes) :
  in_signed 32 v -> gzochi_common_io_read_int (be_encode 4 v ++ rest) 0 = Ret v.
Proof.
  intros Hv. rewrite (read_encoded_0 (Hbe := int_codec)). f_equal.
  by apply signed_small.
Qed.

Lemma remove_be (n : nat) (v : Z) (rest : bytes) :
  byte_array_remove_front (be_encode n v ++ rest) (Z.of_nat n) = rest.
Proof. apply remove_front_app. by rewrite be_encode_length. Qed.

Lemma in_signed_length (n : nat) :
  Z.of_nat n < 2 ^ 31 -> in_signed 32 (Z.of_nat n) /\ s32 (Z.of_nat n) = Z.of_nat n.
Proof.
  intros Hn. assert (in_signed 32 (Z.of_nat n)) by (unfold in_signed; simpl in *; lia).
  split; [done | by apply signed_small].
Qed.

(** ** Instances of the interface *)

#[export] Instance serial_boolean : Serial (fun _ => True)
  gzochid_util_serialize_boolean gzochid_util_deserialize_boolean.
Proof.
  intros b _. exists [if b then 1 else 0]. split.
  - intros out. apply (byte_array_append_all out [_]).
  - intros rest. unfold gzochid_util_deserialize_boolean.
    change (read_at ([_] ++ rest) 0) with (Ret (if b then 1 else 0)). run.
    rewrite remove_front_app by done. by destruct b.
Qed.

#[export] Instance serial_int : Serial (in_signed 32)
  gzochid_util_serialize_int gzochid_util_deserialize_int.
Proof.
  intros n Hn. exists (be_encode 4 n). split.
  - apply serialize_int_append.
  - intros rest. unfold gzochid_util_deserialize_int.
    rewrite read_int_front by done. run.
    by rewrite (remove_be 4).
Qed.

#[export] Instance serial_uint64 : Serial (in_unsigned 64)
  gzochid_util_serialize_uint64 gzochid_util_deserialize_uint64.
Proof.
  intros n Hn. exists (be_encode 8 (s64 n)). split.
  - intros out. unfold gzochid_util_serialize_uint64.
    rewrite write_long_8 by done. apply (append_be 8).
  - intros rest. unfold gzochid_util_deserialize_uint64.
    rewrite (read_encoded_0 (Hbe := long_codec)). run.
    rewrite (remove_be 8). do 2 f_equal.
    rewrite unsigned_signed by done. change (8 * Z.of_nat 8) with 64.
    rewrite unsigned_signed by done. by apply unsigned_small.
Qed.

#[export] Instance serial_oid : Serial (in_unsigned 64)
  gzochid_util_serialize_oid gzochid_util_deserialize_oid := serial_uint64.

Lemma deserialize_bytes_enc (bs rest : bytes) :
  Z.of_nat (length bs) < 2 ^ 31 ->
  gzochid_util_deserialize_bytes
    (be_encode 4 (Z.of_nat (length bs)) ++ bs ++ rest)
  = Ret (bs, Z.of_nat (length bs), rest).
Proof.
  intros Hlen. unfold gzochid_util_deserialize_bytes.
  destruct (in_signed_length _ Hlen) as [Hs _].
  rewrite read_int_front by done. run.
  rewrite drop_app_length' by (by rewrite be_encode_length).
  rewrite memcpy_from_app. run.
  rewrite app_assoc, remove_front_app; [done|].
  rewrite length_app, be_encode_length. lia.
Qed.

(** A byte buffer with its length. *)
#[export] Instance serial_bytes :
  Serial (fun p : bytes * Z => p.2 = Z.of_nat (length p.1) /\ p.2 < 2 ^ 31)
    (fun p => gzochid_util_serialize_bytes p.1 p.2)
    gzochid_util_deserialize_bytes.
Proof.
  intros [str len] [Hl Hlen]. simpl in Hl, Hlen |- *. subst len.
  exists (be_encode 4 (Z.of_nat (length str)) ++ str). split.
  - intros out. unfold gzochid_util_serialize_bytes.
    rewrite serialize_int_append. run.
    by rewrite byte_array_append_all, app_assoc.
  - intros rest. rewrite <- app_assoc. by apply deserialize_bytes_enc.
Qed.

#[export] Instance serial_string :
  Serial (fun str => cstring str /\ Z.of_nat (length str) < 2 ^ 31)
    gzochid_util_serialize_string gzochid_util_deserialize_string.
Proof.
  intros str [(s & -> & Hs) Hlen].
  exists (be_encode 4 (Z.of_nat (length (s ++ [0]))) ++ s ++ [0]). split.
  - intros out. unfold gzochid_util_serialize_string.
    rewrite strlen_cstring by done. run.
    replace (Z.of_nat (length s) + 1) with (Z.of_nat (length (s ++ [0])))
      by (rewrite length_app; simpl; lia).
    destruct (in_signed_length _ Hlen) as [_ ->].
    unfold gzochid_util_serialize_bytes.
    rewrite serialize_int_append. run.
    by rewrite byte_array_append_all, <- app_assoc.
  - intros rest. unfold gzochid_util_deserialize_string.
    rewrite <- app_assoc. by rewrite deserialize_bytes_enc.
Qed.

#[export] Instance serial_timeval :
  Serial (fun tv => in_signed 32 (tv_sec tv) /\ in_signed 32 (tv_usec tv))
    gzochid_util_serialize_timeval gzochid_util_deserialize_timeval.
Proof.
  intros [sec usec] [Hs Hu]. simpl in *.
  exists (be_encode 4 sec ++ be_encode 4 usec). split.
  - intros out. unfold gzochid_util_serialize_timeval. cbn [tv_sec tv_usec].
    rewrite !signed_small by done. rewrite write_int_4 by done. run.
    rewrite (append_be 4). run.
    rewrite write_int_4 by apply be_encode_length. run.
    by rewrite (append_be 4), app_assoc.
  - intros rest. unfold gzochid_util_deserialize_timeval. rewrite <- app_assoc.
    rewrite read_int_front by done. run.
    rewrite (remove_be 4), read_int_front by done. run.
    by rewrite (remove_be 4).
Qed.

(** ** Container serializers, against the interface *)

Section containers.

Context {A : Type} {valid : A -> Prop}.
Context {ser : A -> bytes -> outcome bytes} {des : bytes -> outcome (A * bytes)}.
Context `{HS : !Serial valid ser des}.

Lemma elements_roundtrip (l : list A) :
  Forall valid l -> exists enc,
    (forall out, serialize_elements ser l out = Ret (out ++ enc))
    /\ (forall ret rest, deserialize_elements des (length l) ret (enc ++ rest)
                         = Ret (ret ++ l, rest)).
Proof.
  induction 1 as [|a l Ha _ IH].
  { exists []. split; intros; simpl; by rewrite app_nil_r. }
  destruct IH as (enc & Hs & Hd). destruct (serial_ok a Ha) as (e & Hse & Hde).
  exists (e ++ enc). split.
  - intros out. simpl. rewrite Hse. run.
    by rewrite Hs, app_assoc.
  - intros ret rest. simpl. rewrite <- app_assoc, Hde. run.
    by rewrite Hd, <- app_assoc.
Qed.

Lemma counted_elements_roundtrip (l : list A) :
  Forall valid l -> Z.of_nat (length l) < 2 ^ 31 -> exists enc,
    (forall out, gzochid_util_serialize_list l ser out = Ret (out ++ enc))
    /\ (forall rest, gzochid_util_deserialize_list des (enc ++ rest) = Ret (l, rest)).
Proof.
  intros Hl Hlen. destruct (elements_roundtrip l Hl) as (enc & Hs & Hd).
  destruct (in_signed_length _ Hlen) as [Hin Hsm].
  exists (be_encode 4 (Z.of_nat (length l)) ++ enc). split.
  - intros out. unfold gzochid_util_serialize_list. rewrite Hsm.
    rewrite write_int_4 by done. run.
    rewrite (append_be 4). run. by rewrite Hs, app_assoc.
  - intros rest. unfold gzochid_util_deserialize_list. rewrite <- app_assoc.
    rewrite read_int_front by done. run.
    rewrite (remove_be 4), Nat2Z.id. apply Hd.
Qed.

End containers.

Section hash_table.

Context {K V : Type} `{Countable K} {valid_k : K -> Prop} {valid_v : V -> Prop}.
Context {ks : K -> bytes -> outcome bytes} {kd : bytes -> outcome (K * bytes)}.
Context {vs : V -> bytes -> outcome bytes} {vd : bytes -> outcome (V * bytes)}.
Context `{HK : !Serial valid_k ks kd} `{HV : !Serial valid_v vs vd}.

Lemma entries_roundtrip (l : list (K * V)) :
  Forall (fun kv => valid_k kv.1 /\ valid_v kv.2) l -> NoDup l.*1 -> exists enc,
    (forall out, serialize_elements
       (fun kv out => out ← ks kv.1 out; vs kv.2 out) l out = Ret (out ++ enc))
    /\ (forall (ret : gmap K V) rest, (forall k, k ∈ l.*1 -> ret !! k = None) ->
          deserialize_entries kd vd (length l) ret (enc ++ rest)
          = Ret (list_to_map l ∪ ret, rest)).
Proof.
  induction 1 as [|[k v] l [Hk Hv] _ IH]; intros Hnd; simpl in *.
  { exists []. split; intros; simpl; [by rewrite app_nil_r|]. by rewrite map_empty_union. }
  apply NoDup_cons in Hnd as [Hnin Hnd].
  destruct (IH Hnd) as (enc & Hs & Hd).
  destruct (serial_ok (Serial := HK) k Hk) as (ek & Hsk & Hdk).
  destruct (serial_ok (Serial := HV) v Hv) as (ev & Hsv & Hdv).
  exists (ek ++ ev ++ enc). split.
  - intros out. rewrite Hsk. run. rewrite Hsv.
    run. by rewrite Hs, !app_assoc.
  - intros ret rest Hret. rewrite <- !app_assoc, Hdk. run.
    rewrite Hdv. run. rewrite Hd.
    + do 2 f_equal. rewrite <- insert_union_r; [by rewrite insert_union_l|].
      by apply not_elem_of_list_to_map.
    + intros k' Hk'. rewrite lookup_insert_ne by (by intros ->). apply Hret.
      rewrite elem_of_cons. auto.
Qed.

End hash_table.

(** ** Orders *)

Lemma sign_compare_sym (x y : Z) : sign_compare y x = - sign_compare x y.
Proof. unfold sign_compare. case_all; lia. Qed.

Lemma bytes_compare_refl (a : bytes) : bytes_compare a a = 0.
Proof. induction a as [|x a IH]; simpl; [done|]. by rewrite Z.eqb_refl. Qed.

Lemma bytes_compare_sym (a b : bytes) : bytes_compare b a = - bytes_compare a b.
Proof.
  revert b. induction a as [|x a IH]; intros [|y b]; simpl; try done.
  rewrite (Z.eqb_sym y x). case_match; [done | apply sign_compare_sym].
Qed.

Lemma bytes_compare_eq (a b : bytes) : bytes_compare a b = 0 <-> a = b.
Proof.
  split; [|intros ->; apply bytes_compare_refl].
  revert b. induction a as [|x a IH]; intros [|y b]; simpl; try done.
  destruct (Z.eqb_spec x y) as [->|]; [by intros ->%IH|].
  unfold sign_compare. case_all. intros _. lia.
Qed.

Lemma bytes_compare_le_trans (a b c : bytes) :
  bytes_compare a b <= 0 -> bytes_compare b c <= 0 -> bytes_compare a c <= 0.
Proof.
  revert b c. induction a as [|x a IH]; intros [|y b] [|z c]; simpl; try lia.
  unfold sign_compare.
  destruct (Z.eqb_spec x y), (Z.eqb_spec y z), (Z.eqb_spec x z); subst; try lia;
    eauto; case_all; lia.
Qed.

(** A comparator given as an integer-valued function is a total preorder. *)
Class Comparator {A} (cmp : A -> A -> Z) : Prop := {
  cmp_sym : forall a b, cmp b a = - cmp a b;
  cmp_trans : forall a b c, cmp a b <= 0 -> cmp b c <= 0 -> cmp a c <= 0
}.

#[export] Instance bytes_comparator : Comparator bytes_compare.
Proof. split; [apply bytes_compare_sym | apply bytes_compare_le_trans]. Qed.

#[export] Instance null_first_comparator :
  Comparator gzochid_util_bytes_compare_null_first.
Proof.
  split; [intros [a|] [b|]; simpl; auto using bytes_compare_sym|].
  intros [a|] [b|] [c|]; simpl; try lia. apply bytes_compare_le_trans.
Qed.

#[export] Instance null_last_comparator :
  Comparator gzochid_util_bytes_compare_null_last.
Proof.
  split; [intros [a|] [b|]; simpl; auto using bytes_compare_sym|].
  intros [a|] [b|] [c|]; simpl; try lia. apply bytes_compare_le_trans.
Qed.

Section comparator.

Context {A : Type} (cmp : A -> A -> Z) `{HC : !Comparator cmp}.

Lemma cmp_refl (a : A) : cmp a a = 0.
Proof. pose proof (cmp_sym a a). lia. Qed.

Lemma cmp_lt_le_trans (a b c : A) : cmp a b < 0 -> cmp b c <= 0 -> cmp a c < 0.
Proof.
  intros Hab Hbc. destruct (Z.lt_ge_cases (cmp a c) 0) as [|Hge]; [done|].
  pose proof (cmp_sym a c). pose proof (cmp_sym a b).
  assert (cmp b a <= 0) by (apply (cmp_trans b c a); lia). lia.
Qed.

Lemma cmp_le_lt_trans (a b c : A) : cmp a b <= 0 -> cmp b c < 0 -> cmp a c < 0.
Proof.
  intros Hab Hbc. destruct (Z.lt_ge_cases (cmp a c) 0) as [|Hge]; [done|].
  pose proof (cmp_sym a c). pose proof (cmp_sym b c).
  assert (cmp c b <= 0) by (apply (cmp_trans c a b); lia). lia.
Qed.

End comparator.

(** ** Object ids as keys *)

Lemma swap64_involutive (z : Z) : in_unsigned 64 z -> swap64 (swap64 z) = z.
Proof.
  intros Hz. unfold swap64.
  rewrite be_encode_decode.
  - rewrite rev_involutive, be_decode_encode. by apply Z.mod_small.
  - apply Forall_rev, be_encode_ok.
  - by rewrite length_rev, be_encode_length.
Qed.

(** On either platform the memory image of an encoded id is big-endian. *)
Lemma native_encode_oid (big_endian : bool) (oid : Z) :
  native_bytes big_endian (gzochid_util_encode_oid big_endian oid) = be_encode 8 oid.
Proof.
  destruct big_endian; [done|]. unfold native_bytes, gzochid_util_encode_oid, swap64.
  rewrite be_encode_decode.
  - apply rev_involutive.
  - apply Forall_rev, be_encode_ok.
  - by rewrite length_rev, be_encode_length.
Qed.

(** Comparing equally long byte strings compares the numbers they encode. *)
Lemma bytes_compare_decode (a b : bytes) :
  bytes_ok a -> bytes_ok b -> length a = length b ->
  bytes_compare a b = sign_compare (be_decode a) (be_decode b).
Proof.
  intros Ha. revert b. induction Ha as [|x a Hx Ha IH]; intros [|y b] Hb Hlen; try done.
  inversion_clear Hb as [|? ? Hy Hb']. injection Hlen as Hlen. simpl bytes_compare.
  rewrite !be_decode_cons, Hlen.
  pose proof (be_decode_bound a Ha) as B1. pose proof (be_decode_bound b Hb') as B2.
  rewrite Hlen in B1. unfold sign_compare in *.
  destruct (Z.eqb_spec x y) as [->|Hne]; [rewrite IH by done; case_all; nia|].
  case_all; nia.
Qed.

(** ** Formatting *)

Definition graph (bs : bytes) : Prop := Forall (fun b => isgraph b = true) bs.

Lemma write_at_end (pre post new : bytes) (off : Z) :
  off = Z.of_nat (length pre) -> (length new <= length post)%nat ->
  write_at (pre ++ post) off new = Ret ((pre ++ new) ++ drop (length new) post).
Proof.
  intros -> Hlen. rewrite <- (take_drop (length new) post) at 1.
  rewrite write_at_app by (rewrite length_take; lia). by rewrite app_assoc.
Qed.

Lemma nibble_graph (n : Z) : 0 <= n < 16 -> isgraph (nibble_to_hex_char n) = true.
Proof. unfold isgraph, nibble_to_hex_char. intros. case_all; lia. Qed.

Lemma hex_graph (b : Z) : byte_ok b ->
  graph [92; 120; nibble_to_hex_char (b / 16); nibble_to_hex_char (b mod 16)].
Proof.
  intros Hb. unfold in_unsigned in Hb. repeat constructor; apply nibble_graph.
  - split; [by apply Z.div_pos; lia | apply Z.div_lt_upper_bound; lia].
  - by apply Z.mod_pos_bound.
Qed.

(** What the loop writes from [off] on: printable characters, within bounds. *)
Lemma format_loop_spec (rest pre post : bytes) (off mx : Z) :
  bytes_ok rest -> off = Z.of_nat (length pre) -> off <= mx ->
  mx < Z.of_nat (length (pre ++ post)) ->
  exists out, format_loop rest (pre ++ post) off mx
      = Ret ((pre ++ out) ++ drop (length out) post, off + Z.of_nat (length out))
    /\ graph out /\ off + Z.of_nat (length out) <= mx.
Proof.
  intros Hok. revert pre post off.
  induction Hok as [|b rest Hb Hok IH]; intros pre post off Hoff Hle Hmx; simpl.
  { exists []. simpl. rewrite app_nil_r, drop_0, Z.add_0_r. split_and!; [done | constructor | lia]. }
  destruct (Z.ltb_spec off mx) as [Hlt|]; simpl.
  2:{ exists []. simpl. rewrite app_nil_r, drop_0, Z.add_0_r. split_and!; [done | constructor | lia]. }
  rewrite length_app in Hmx.
  assert (Hstep : forall new, graph new -> off + Z.of_nat (length new) <= mx ->
    write_at (pre ++ post) off new = Ret ((pre ++ new) ++ drop (length new) post)
    /\ exists out, format_loop rest ((pre ++ new) ++ drop (length new) post)
          (off + Z.of_nat (length new)) mx
        = Ret ((pre ++ out) ++ drop (length out) post, off + Z.of_nat (length out))
      /\ graph out /\ off + Z.of_nat (length out) <= mx).
  { intros new Hg Hn. split; [apply write_at_end; [done | lia]|].
    destruct (IH (pre ++ new) (drop (length new) post) (off + Z.of_nat (length new)))
      as (out & -> & Hgo & Ho); rewrite ?length_app, ?length_drop; try lia.
    exists (new ++ out). rewrite length_app, Nat2Z.inj_add, drop_drop, <- !app_assoc.
    split_and!; [do 2 f_equal; lia | by apply Forall_app | lia]. }
  destruct (isgraph b) eqn:Hgb.
  - case_match; (edestruct Hstep as [-> Hl];
      [by repeat constructor | simpl; lia | run; exact Hl]).
  - destruct (Z.leb_spec 4 (mx - off)).
    + edestruct Hstep as [-> Hl]; [by apply hex_graph | simpl; lia | run; exact Hl].
    + exists [95]. rewrite write_at_end by (simpl; lia).
      split_and!; [done | by repeat constructor | simpl; lia].
Qed.

(** ** Properties *)

(** Every primitive serializer of util.c appends an encoding that its
    deserializer reads back, leaving exactly what follows it: booleans, 32-bit
    integers, 64-bit unsigned integers, byte buffers with a length below 2^31,
    NUL-terminated strings and time values within 32 bits. *)
Theorem primitive_roundtrip :
  Serial (fun _ => True)
    gzochid_util_serialize_boolean gzochid_util_deserialize_boolean
  /\ Serial (in_signed 32) gzochid_util_serialize_int gzochid_util_deserialize_int
  /\ Serial (in_unsigned 64)
       gzochid_util_serialize_oid gzochid_util_deserialize_oid
  /\ Serial (fun p : bytes * Z => p.2 = Z.of_nat (length p.1) /\ p.2 < 2 ^ 31)
       (fun p => gzochid_util_serialize_bytes p.1 p.2) gzochid_util_deserialize_bytes
  /\ Serial (fun str => cstring str /\ Z.of_nat (length str) < 2 ^ 31)
       gzochid_util_serialize_string gzochid_util_deserialize_string
  /\ Serial (fun tv => in_signed 32 (tv_sec tv) /\ in_signed 32 (tv_usec tv))
       gzochid_util_serialize_timeval gzochid_util_deserialize_timeval.
Proof. split_and!; apply _. Qed.

(** The container serializers round trip whenever the element serializers
    they are given do: a list or a sequence of fewer than 2^31 elements is read
    back in order, and a hash table is read back as the same map in whatever
    order its entries were enumerated. *)
Theorem container_roundtrip {A K V : Type} `{Countable K}
    (valid : A -> Prop) (ser : A -> bytes -> outcome bytes)
    (des : bytes -> outcome (A * bytes))
    (valid_k : K -> Prop) (ks : K -> bytes -> outcome bytes)
    (kd : bytes -> outcome (K * bytes))
    (valid_v : V -> Prop) (vs : V -> bytes -> outcome bytes)
    (vd : bytes -> outcome (V * bytes))
    (HA : Serial valid ser des) (HK : Serial valid_k ks kd)
    (HV : Serial valid_v vs vd) (l : list A) (m : gmap K V)
    (entries : list (K * V)) :
  Forall valid l -> Z.of_nat (length l) < 2 ^ 31 ->
  entries ≡ₚ map_to_list m -> Z.of_nat (size m) < 2 ^ 31 ->
  map_Forall (fun k v => valid_k k /\ valid_v v) m ->
  (exists enc,
    (forall out, gzochid_util_serialize_list l ser out = Ret (out ++ enc))
    /\ (forall out, gzochid_util_serialize_sequence l ser out = Ret (out ++ enc))
    /\ (forall rest, gzochid_util_deserialize_list des (enc ++ rest) = Ret (l, rest))
    /\ (forall rest, gzochid_util_deserialize_sequence des (enc ++ rest)
                     = Ret (l, rest)))
  /\ (exists enc,
    (forall out, gzochid_util_serialize_hash_table entries ks vs out
                 = Ret (out ++ enc))
    /\ (forall rest, gzochid_util_deserialize_hash_table kd vd (enc ++ rest)
                     = Ret (m, rest))).
Proof.
  intros Hl Hlen Hperm Hsize Hm. split.
  { destruct (counted_elements_roundtrip (HS := HA) l Hl Hlen) as (enc & Hs & Hd).
    exists enc. split_and!; [exact Hs | exact Hs | exact Hd | exact Hd]. }
  assert (Hnd : NoDup entries.*1) by (rewrite Hperm; apply NoDup_fst_map_to_list).
  assert (Hlm : length entries = size m) by (by rewrite Hperm, length_map_to_list).
  assert (Hval : Forall (fun kv => valid_k kv.1 /\ valid_v kv.2) entries).
  { rewrite Hperm. apply map_Forall_to_list in Hm.
    eapply Forall_impl; [exact Hm|]. by intros [k v]. }
  destruct (entries_roundtrip (HK := HK) (HV := HV) entries Hval Hnd) as (enc & Hs & Hd).
  rewrite <- Hlm in Hsize. destruct (in_signed_length _ Hsize) as [Hin Hsm].
  exists (be_encode 4 (Z.of_nat (length entries)) ++ enc). split.
  - intros out. unfold gzochid_util_serialize_hash_table. rewrite Hsm.
    rewrite write_int_4 by done. run. rewrite (append_be 4). run.
    by rewrite Hs, app_assoc.
  - intros rest. unfold gzochid_util_deserialize_hash_table. rewrite <- app_assoc.
    rewrite read_int_front by done. run. rewrite (remove_be 4), Nat2Z.id.
    rewrite Hd by (intros ? _; apply lookup_empty).
    rewrite (list_to_map_proper entries (map_to_list m)) by done.
    by rewrite list_to_map_to_list, map_union_empty.
Qed.

Lemma container_roundtrip_witness :
  (exists enc,
    (forall out, gzochid_util_serialize_list [3; -7; 9] gzochid_util_serialize_int out
                 = Ret (out ++ enc))
    /\ (forall out, gzochid_util_serialize_sequence [3; -7; 9]
                      gzochid_util_serialize_int out = Ret (out ++ enc))
    /\ (forall rest, gzochid_util_deserialize_list gzochid_util_deserialize_int
                       (enc ++ rest) = Ret ([3; -7; 9], rest))
    /\ (forall rest, gzochid_util_deserialize_sequence gzochid_util_deserialize_int
                       (enc ++ rest) = Ret ([3; -7; 9], rest)))
  /\ (exists enc,
    (forall out, gzochid_util_serialize_hash_table [(5, true)]
       gzochid_util_serialize_int gzochid_util_serialize_boolean out = Ret (out ++ enc))
    /\ (forall rest, gzochid_util_deserialize_hash_table gzochid_util_deserialize_int
         gzochid_util_deserialize_boolean (enc ++ rest)
         = Ret ({[ 5 := true ]} : gmap Z bool, rest))).
Proof.
  apply (container_roundtrip (in_signed 32) _ _ (in_signed 32) _ _ (fun _ => True) _ _
    serial_int serial_int serial_boolean [3; -7; 9] ({[ 5 := true ]} : gmap Z bool)).
  - repeat constructor; unfold in_signed; lia.
  - simpl. lia.
  - by rewrite map_to_list_singleton.
  - rewrite map_size_singleton. lia.
  - apply map_Forall_singleton. split; [unfold in_signed; lia | done].
Defined.

(** Encoding an object id and decoding it gives it back, and the bytes of
    two encoded ids in memory compare lexicographically as the ids compare, on
    little- and on big-endian platforms: iterating a store by key visits the
    objects in the order of their ids. *)
Theorem oid_key_order (big_endian : bool) (a b : Z) :
  in_unsigned 64 a -> in_unsigned 64 b ->
  gzochid_util_decode_oid big_endian (gzochid_util_encode_oid big_endian a) = a
  /\ bytes_compare (native_bytes big_endian (gzochid_util_encode_oid big_endian a))
       (native_bytes big_endian (gzochid_util_encode_oid big_endian b))
     = gzochid_util_guint64_data_compare a b.
Proof.
  intros Ha Hb. split.
  { destruct big_endian; [done | by apply swap64_involutive]. }
  rewrite !native_encode_oid.
  rewrite bytes_compare_decode by (auto using be_encode_ok; by rewrite !be_encode_length).
  rewrite !be_decode_encode. unfold in_unsigned in *.
  change (8 * Z.of_nat 8) with 64. rewrite !Z.mod_small by done. done.
Qed.

Lemma oid_key_order_witness :
  gzochid_util_decode_oid false (gzochid_util_encode_oid false 255) = 255
  /\ bytes_compare (native_bytes false (gzochid_util_encode_oid false 255))
       (native_bytes false (gzochid_util_encode_oid false 256))
     = gzochid_util_guint64_data_compare 255 256.
Proof. apply (oid_key_order false 255 256); split; lia. Defined.

(** Formatting a buffer for display never writes outside of an output buffer
    of at least one byte, and leaves in it a NUL-terminated string of printable
    characters shorter than the buffer. *)
Theorem format_bytes_safe (bs buf : bytes) (buf_len : Z) :
  bytes_ok bs -> buf_len = Z.of_nat (length buf) -> 1 <= buf_len < 2 ^ 31 ->
  exists out post, gzochid_util_format_bytes bs buf buf_len = Ret (out ++ 0 :: post)
    /\ length (out ++ 0 :: post) = length buf /\ graph out.
Proof.
  intros Hok Hbuf Hlen. unfold gzochid_util_format_bytes.
  rewrite signed_small by (unfold in_signed; simpl in *; lia).
  destruct (format_loop_spec bs [] buf 0 (buf_len - 1)) as (out & Heq & Hg & Hle);
    [done | done | lia | simpl; lia |].
  simpl app in Heq. rewrite Heq. run. simpl in Hle.
  exists out, (drop 1 (drop (length out) buf)).
  rewrite write_at_end by (rewrite ?length_drop; simpl; lia).
  rewrite <- app_assoc. split_and!; [done | | done].
  rewrite length_app. simpl. rewrite !length_drop. lia.
Qed.

Lemma format_bytes_safe_witness :
  exists out post,
    gzochid_util_format_bytes [104; 105; 7] [0; 0; 0; 0; 0; 0; 0] 7
    = Ret (out ++ 0 :: post)
    /\ length (out ++ 0 :: post) = length [0; 0; 0; 0; 0; 0; 0] /\ graph out.
Proof.
  apply (format_bytes_safe [104; 105; 7] [0; 0; 0; 0; 0; 0; 0] 7);
    [repeat constructor; lia | done | lia].
Defined.
