(* ===== verification/Glib.v ===== *)
(** * GLib containers

    The parts of GLib the modelled sources share.  A [GSequence] is a list of
    its data; the sorted insertion puts an element behind those that compare
    equal to it, and a lookup returns the position of an element that compares
    equal to its argument.  On a sequence that is sorted by a total order this is
    what GLib documents. *)

From Stdlib Require Export Sorting.Sorted.
From S2P Require Import Prelude.
From S2P Require Import Util.

Local Open Scope Z_scope.

(** [g_sequence_insert_sorted]. *)
Fixpoint sequence_insert_sorted {A} (cmp : A -> A -> Z) (x : A) (l : list A) : list A :=
  match l with
  | [] => [x]
  | y :: l' => if cmp x y <? 0 then x :: y :: l' else y :: sequence_insert_sorted cmp x l'
  end.

(** [g_sequence_lookup], as a position. *)
Fixpoint sequence_lookup {A} (cmp : A -> A -> Z) (x : A) (l : list A) : option nat :=
  match l with
  | [] => None
  | y :: l' => if cmp x y =? 0 then Some O else S <$> sequence_lookup cmp x l'
  end.

(** [g_sequence_remove] at a position. *)
Definition sequence_remove {A} (i : nat) (l : list A) : list A := take i l ++ drop (S i) l.

(** [g_sequence_sort_changed] at a position: the element moves to its place. *)
Definition sequence_sort_changed {A} (cmp : A -> A -> Z) (i : nat) (l : list A) : list A :=
  match l !! i with
  | Some x => sequence_insert_sorted cmp x (sequence_remove i l)
  | None => l
  end.

(** ** Lemmas *)

Lemma sequence_insert_perm {A} (cmp : A -> A -> Z) (x : A) (l : list A) :
  sequence_insert_sorted cmp x l ≡ₚ x :: l.
Proof.
  induction l as [|y l IH]; simpl; [done|]. case_match; [done|]. by rewrite IH, Permutation_swap.
Qed.

(** An element that is not below any other goes to the end. *)
Lemma sequence_insert_last {A} (cmp : A -> A -> Z) (x : A) (l : list A) :
  Forall (fun y => 0 <= cmp x y) l -> sequence_insert_sorted cmp x l = l ++ [x].
Proof.
  induction 1 as [|y l Hy _ IH]; simpl; [done|].
  destruct (Z.ltb_spec (cmp x y) 0); [lia|]. by rewrite IH.
Qed.

Lemma sequence_remove_middle {A} (l1 : list A) (x : A) (l2 : list A) :
  sequence_remove (length l1) (l1 ++ x :: l2) = l1 ++ l2.
Proof.
  unfold sequence_remove. rewrite take_app_length.
  replace (S (length l1)) with (length (l1 ++ [x])) by (rewrite length_app; simpl; lia).
  rewrite (app_assoc l1 [x] l2 : l1 ++ x :: l2 = _), drop_app_length. done.
Qed.

(** The lookup stops at the first element that compares equal. *)
Lemma sequence_lookup_middle {A} (cmp : A -> A -> Z) (x y : A) (l1 l2 : list A) :
  Forall (fun z => cmp x z <> 0) l1 -> cmp x y = 0 ->
  sequence_lookup cmp x (l1 ++ y :: l2) = Some (length l1).
Proof.
  intros Hl Hy. induction Hl as [|z l Hz _ IH]; simpl.
  - by rewrite Hy.
  - destruct (Z.eqb_spec (cmp x z) 0); [done|]. by rewrite IH.
Qed.

Lemma sequence_lookup_none {A} (cmp : A -> A -> Z) (x : A) (l : list A) :
  Forall (fun z => cmp x z <> 0) l -> sequence_lookup cmp x l = None.
Proof.
  induction 1 as [|z l Hz _ IH]; simpl; [done|].
  destruct (Z.eqb_spec (cmp x z) 0); [done|]. by rewrite IH.
Qed.

(** Sorted by a comparator: no element is above a later one. *)
Definition sorted_by {A} (cmp : A -> A -> Z) : list A -> Prop :=
  StronglySorted (fun a b => cmp a b <= 0).

Lemma sequence_insert_sorted_by {A} (cmp : A -> A -> Z) `{!Comparator cmp} (x : A) l :
  sorted_by cmp l -> sorted_by cmp (sequence_insert_sorted cmp x l).
Proof.
  induction 1 as [|y l Hl IH Hy]; simpl; [by repeat constructor|].
  destruct (Z.ltb_spec (cmp x y) 0).
  - constructor; [by constructor|]. constructor; [lia|].
    eapply Forall_impl; [exact Hy|]. simpl. intros z Hz.
    apply (cmp_trans x y z); lia.
  - constructor; [done|]. rewrite sequence_insert_perm. constructor; [|done].
    pose proof (cmp_sym x y). lia.
Qed.

Lemma sequence_remove_sublist {A} (i : nat) (l : list A) : sequence_remove i l `sublist_of` l.
Proof.
  unfold sequence_remove. rewrite <- (take_drop i l) at 3.
  apply sublist_app; [done|].
  destruct (decide (i < length l)%nat) as [Hi|Hi].
  - destruct (lookup_lt_is_Some_2 l i Hi) as [x Hx].
    rewrite (drop_S l x i Hx). by apply sublist_cons.
  - rewrite !drop_ge by lia. done.
Qed.

Lemma StronglySorted_sublist {A} (R : A -> A -> Prop) (l k : list A) :
  l `sublist_of` k -> StronglySorted R k -> StronglySorted R l.
Proof.
  induction 1 as [|x l k Hs IH|x l k Hs IH]; intros Hk; [done| |].
  - apply StronglySorted_inv in Hk as [Hk Hx]. constructor; [by apply IH|].
    rewrite Forall_forall in Hx |- *. intros y Hy. apply Hx.
    by apply (sublist_subseteq _ _ Hs).
  - apply StronglySorted_inv in Hk as [Hk Hx]. by apply IH.
Qed.

Lemma StronglySorted_app_iff {A} (R : A -> A -> Prop) (l k : list A) :
  StronglySorted R (l ++ k)
  <-> StronglySorted R l /\ StronglySorted R k /\ forall x y, x ∈ l -> y ∈ k -> R x y.
Proof.
  induction l as [|a l IH]; cbn [app].
  - split; [intros Hk; split_and!; [constructor|done|]|by intros (_ & ? & _)].
    by intros x y ?%elem_of_nil.
  - split.
    + intros [Hlk Ha]%StronglySorted_inv. apply IH in Hlk as (Hl & Hk & Hx).
      apply Forall_app in Ha as [Hal Hak]. split_and!; [by constructor|done|].
      intros x y [->|Hxl]%elem_of_cons Hy; [|by apply Hx].
      rewrite Forall_forall in Hak. by apply Hak.
    + intros (Hl & Hk & Hx). apply StronglySorted_inv in Hl as [Hl Ha]. constructor.
      * apply IH. split_and!; try done. intros x y Hxl. apply Hx. apply elem_of_cons; auto.
      * apply Forall_app. split; [done|]. apply Forall_forall. intros y Hy.
        apply Hx; [apply elem_of_cons; auto|done].
Qed.
