(* ===== verification/DataProtocol.v ===== *)
(** * The data protocol (protocol-common.c, data-protocol.c)

    Messages between a gzochid node and the data server: oid block
    reservations, object responses and change sets.  A pointer into a received
    message is the memory from that address on; the [size_t] length that is
    passed with it is a separate Z, reduced modulo 2^64 where the code computes
    with it, so that a reader that runs past the end of the message is
    [Undef].  A parser returns [None] where the code returns [NULL].  C strings
    are stored with their terminator. *)

From S2P Require Import Prelude.
From S2P Require Import Io.
From S2P Require Import Util.

Local Open Scope Z_scope.

(** ** protocol-common.c *)

(** The string found at the front of the buffer, and its length with the
    terminator. *)
Definition gzochid_protocol_read_str (mem : bytes) (bytes_len : Z)
  : outcome (option (bytes * Z)) :=
  r ← memchr0 mem (Z.to_nat bytes_len);
  match r with
  | None => Ret None
  | Some e => Ret (Some (take (S e) mem, Z.of_nat e + 1))
  end.

(** The [short] prefix is converted to [size_t] by the comparison. *)
Definition gzochid_protocol_read_bytes (mem : bytes) (bytes_len : Z)
  : outcome (option bytes) :=
  if bytes_len <? 2 then Ret None
  else
    prefix ← gzochi_common_io_read_short mem 0;
    if bytes_len - 2 <? u64 prefix then Ret None
    else b ← memcpy_from (drop 2 mem) (u64 prefix); Ret (Some b).

(** ** Helpers of data-protocol.c *)

(** [g_byte_array_set_size] to a larger size: the new cells are overwritten
    before they are read. *)
Definition grow (arr : bytes) (n : nat) : bytes := arr ++ replicate n 0.

Definition write_bytes (data arr : bytes) : outcome bytes :=
  let len := Z.of_nat (length data) in
  arr' ← gzochi_common_io_write_short (s16 len) (grow arr 2) (Z.of_nat (length arr));
  byte_array_append arr' data len.

Definition read_timeval (mem : bytes) (bytes_len : Z)
  : outcome (option timeval) :=
  if bytes_len <? 8 then Ret None
  else
    sec ← gzochi_common_io_read_int mem 0;
    usec ← gzochi_common_io_read_int mem 4;
    Ret (Some (Timeval sec usec)).

Definition write_timeval (tv : timeval) (arr : bytes) : outcome bytes :=
  let len := Z.of_nat (length arr) in
  arr ← gzochi_common_io_write_int (s32 (tv_sec tv)) (grow arr 8) len;
  gzochi_common_io_write_int (s32 (tv_usec tv)) arr (len + 4).

(** [g_byte_array_append (arr, str, strlen (str) + 1)]. *)
Definition append_str (arr str : bytes) : outcome bytes :=
  n ← strlen str;
  byte_array_append arr str (n + 1).

(** ** Reservation of oid blocks *)

Record gzochid_data_reserve_oids_response := ReserveOidsResponse {
  oids_app : bytes;
  block_start : Z;
  block_size : Z
}.

Definition gzochid_data_protocol_reserve_oids_response_write
    (response : gzochid_data_reserve_oids_response) (arr : bytes)
  : outcome bytes :=
  arr ← append_str arr (oids_app response);
  arr ← gzochi_common_io_write_long (s64 (block_start response)) (grow arr 8)
    (Z.of_nat (length arr));
  gzochi_common_io_write_short (s16 (block_size response)) (grow arr 2)
    (Z.of_nat (length arr)).

(** The oid and the length it took; both 0 when the buffer is too short. *)
Definition read_oid (mem : bytes) (len : Z) : outcome (Z * Z) :=
  if len <? 8 then Ret (0, 0)
  else ret ← gzochi_common_io_read_long mem 0; Ret (u64 ret, 8).

(** The bytes of a message may be in the middle of a buffer: [data] is the memory from
    their beginning on. *)
Definition reserve_oids_response_read (data : bytes) (len : Z)
  : outcome (option gzochid_data_reserve_oids_response) :=
  r ← gzochid_protocol_read_str data len;
  match r with
  | None => Ret None
  | Some (app, str_len) =>
      if str_len =? 0 then Ret None
      else
        let len := u64 (len - str_len) in
        '(oid, oid_len) ← read_oid (drop (Z.to_nat str_len) data) len;
        if oid_len =? 0 then Ret None
        else
          (* the source subtracts str_len a second time here *)
          let len := u64 (len - str_len) in
          if (1 <? str_len) && (2 <=? len) then
            size ← gzochi_common_io_read_short
              (drop (Z.to_nat (str_len + oid_len)) data) 0;
            Ret (Some (ReserveOidsResponse app oid (u16 size)))
          else Ret None
  end.

Definition gzochid_data_protocol_reserve_oids_response_read (data : bytes)
  : outcome (option gzochid_data_reserve_oids_response) :=
  reserve_oids_response_read data (Z.of_nat (length data)).

(** ** Responses to requests

    The union is tagged by [success].  A failure starts with the null pointer of the
    other member, which covers the seconds of the timeout; the microseconds hold what
    was in memory, [unset], until the timeout is assigned. *)

Inductive response_body :=
| Success (data : option bytes)
| Failure (timeout : timeval).

Record gzochid_data_response := DataResponse {
  response_app : bytes;
  response_store : bytes;
  body : response_body
}.

Definition gzochid_data_response_new (unset : Z) (app store : bytes) (success : bool)
    (data : option bytes) : outcome gzochid_data_response :=
  match data with
  | Some d =>
      _ ← c_assert success; Ret (DataResponse app store (Success (Some d)))
  | None =>
      Ret (DataResponse app store (if success then Success None else Failure (Timeval 0 unset)))
  end.

(** The first byte in memory of a [gboolean], which is an [int]. *)
Definition gboolean_first_byte (big_endian b : bool) : Z :=
  match be_encode 4 (if b then 1 else 0) with
  | b0 :: _ :: _ :: b3 :: _ => if big_endian then b0 else b3
  | _ => 0
  end.

Definition gzochid_data_protocol_response_write (big_endian : bool)
    (response : gzochid_data_response) (arr : bytes) : outcome bytes :=
  arr ← append_str arr (response_app response);
  arr ← append_str arr (response_store response);
  match body response with
  | Success data =>
      arr ← byte_array_append arr [gboolean_first_byte big_endian true] 1;
      match data with
      | Some d => write_bytes d arr
      | None => byte_array_append arr [0; 0] 2
      end
  | Failure timeout =>
      arr ← byte_array_append arr [gboolean_first_byte big_endian false] 1;
      write_timeval timeout arr
  end.

(** What follows the two names and the success byte. *)
Definition response_read_tail (app store : bytes) (flag : Z) (rest : bytes)
    (len : Z) : outcome (option gzochid_data_response) :=
  if negb (flag =? 0) then
    o ← gzochid_protocol_read_bytes rest len;
    match o with
    | None => Ret None
    | Some obj =>
        if Z.of_nat (length obj) =? 0
        then r ← gzochid_data_response_new 0 app store true None; Ret (Some r)
        else r ← gzochid_data_response_new 0 app store true (Some obj); Ret (Some r)
    end
  else if len <? 8 then Ret None
  else
    t ← read_timeval rest len;
    match t with
    | None => Ret None
    | Some timeout =>
        r ← gzochid_data_response_new 0 app store false None;
        Ret (Some (DataResponse (response_app r) (response_store r)
                     (Failure timeout)))
    end.

Definition gzochid_data_protocol_response_read (data : bytes)
  : outcome (option gzochid_data_response) :=
  let len := Z.of_nat (length data) in
  r ← gzochid_protocol_read_str data len;
  match r with
  | None => Ret None
  | Some (app, str_len) =>
      if str_len =? 0 then Ret None
      else
        let len := u64 (len - str_len) in
        let offset := str_len in
        r ← gzochid_protocol_read_str (drop (Z.to_nat offset) data) len;
        match r with
        | None => Ret None
        | Some (store, str_len) =>
            if str_len =? 0 then Ret None
            else
              let len := u64 (len - str_len) in
              let offset := offset + str_len in
              if len <=? 0 then Ret None
              else
                let len := len - 1 in
                flag ← read_at data offset;
                response_read_tail app store flag
                  (drop (Z.to_nat (offset + 1)) data) len
        end
  end.

(** ** Change sets

    [NULL] pointers are [None]: the elements of a freshly sized, zeroed change
    array are [change_zero]. *)

Record gzochid_data_change := DataChange {
  change_store : option bytes;
  delete : bool;
  change_key : option bytes;
  change_data : option bytes
}.

Definition change_zero : gzochid_data_change := DataChange None false None None.

Record gzochid_data_changeset := DataChangeset {
  changeset_app : bytes;
  changes : list gzochid_data_change
}.

(** The change and the number of bytes it took. *)
Definition change_read (mem : bytes) (len : Z)
  : outcome (option (gzochid_data_change * Z)) :=
  r ← gzochid_protocol_read_str mem len;
  match r with
  | None => Ret None
  | Some (store, str_len) =>
      if str_len <=? 1 then Ret None
      else
        let len := u64 (len - str_len) in
        let size := str_len in
        k ← gzochid_protocol_read_bytes (drop (Z.to_nat size) mem) len;
        match k with
        | None => Ret None
        | Some key =>
            let key_size := Z.of_nat (length key) in
            if key_size =? 0 then Ret None
            else
              let size := size + (key_size + 2) in
              let len := u64 (len - (key_size + 2)) in
              d ← gzochid_protocol_read_bytes (drop (Z.to_nat size) mem) len;
              match d with
              | None => Ret None
              | Some data =>
                  let data_size := Z.of_nat (length data) in
                  let change :=
                    if data_size =? 0
                    then DataChange (Some store) true (Some key) None
                    else DataChange (Some store) false (Some key) (Some data) in
                  Ret (Some (change, size + 2 + data_size))
              end
        end
  end.

Definition change_write (change : gzochid_data_change) (arr : bytes)
  : outcome bytes :=
  store ← deref (change_store change);
  arr ← append_str arr store;
  key ← deref (change_key change);
  arr ← write_bytes key arr;
  if delete change then byte_array_append arr [0; 0] 2
  else data ← deref (change_data change); write_bytes data arr.

Fixpoint changes_write (l : list gzochid_data_change) (arr : bytes)
  : outcome bytes :=
  match l with
  | [] => Ret arr
  | c :: l' => arr ← change_write c arr; changes_write l' arr
  end.

Definition gzochid_data_protocol_changeset_write
    (changeset : gzochid_data_changeset) (arr : bytes) : outcome bytes :=
  arr ← append_str arr (changeset_app changeset);
  arr ← gzochi_common_io_write_short (s16 (Z.of_nat (length (changes changeset))))
    (grow arr 2) (Z.of_nat (length arr));
  changes_write (changes changeset) arr.

(** The loop that fills the change array: it stops early, leaving the rest of
    the array zeroed, when the buffer is used up. *)
Fixpoint changes_read (n : nat) (mem : bytes) (len : Z)
  : outcome (option (list gzochid_data_change)) :=
  match n with
  | O => Ret (Some [])
  | S n' =>
      if len <=? 0 then Ret (Some (replicate n change_zero))
      else
        r ← change_read mem len;
        match r with
        | None => Ret None
        | Some (c, size) =>
            rest ← changes_read n' (drop (Z.to_nat size) mem) (u64 (len - size));
            Ret (option_map (cons c) rest)
        end
  end.

Definition gzochid_data_protocol_changeset_read (data : bytes)
  : outcome (option gzochid_data_changeset) :=
  let len := Z.of_nat (length data) in
  r ← gzochid_protocol_read_str data len;
  match r with
  | None => Ret None
  | Some (app, offset) =>
      if offset =? 0 then Ret None
      else
        let len := u64 (len - offset) in
        if len <=? 2 then Ret None
        else
          num_changes ← gzochi_common_io_read_short data offset;
          let offset := offset + 2 in
          let len := len - 2 in
          if 0 <? num_changes then
            cs ← changes_read (Z.to_nat num_changes)
              (drop (Z.to_nat offset) data) len;
            Ret (option_map (DataChangeset app) cs)
          else Ret (Some (DataChangeset app []))
  end.

(** ** What the writers append *)

Abbreviation nonzero s := (Forall (fun b => b <> 0) s).

Lemma append_str_ok (arr s : bytes) :
  nonzero s -> append_str arr (s ++ [0]) = Ret (arr ++ s ++ [0]).
Proof.
  intros Hs. unfold append_str. rewrite strlen_cstring by done. run.
  replace (Z.of_nat (length s) + 1) with (Z.of_nat (length (s ++ [0])))
    by (rewrite length_app; simpl; lia).
  apply byte_array_append_all.
Qed.

Lemma write_short_grow (v : Z) (arr : bytes) :
  gzochi_common_io_write_short v (grow arr 2) (Z.of_nat (length arr))
  = Ret (arr ++ be_encode 2 v).
Proof. by apply (write_append (Hbe := short_codec)). Qed.

Lemma write_long_grow (v : Z) (arr : bytes) :
  gzochi_common_io_write_long v (grow arr 8) (Z.of_nat (length arr))
  = Ret (arr ++ be_encode 8 v).
Proof. by apply (write_append (Hbe := long_codec)). Qed.

Lemma write_bytes_ok (data arr : bytes) :
  write_bytes data arr
  = Ret (arr ++ be_encode 2 (s16 (Z.of_nat (length data))) ++ data).
Proof.
  unfold write_bytes. rewrite write_short_grow. run.
  by rewrite byte_array_append_all, <- app_assoc.
Qed.

Lemma write_timeval_ok (tv : timeval) (arr : bytes) :
  write_timeval tv arr
  = Ret (arr ++ be_encode 4 (s32 (tv_sec tv)) ++ be_encode 4 (s32 (tv_usec tv))).
Proof.
  unfold write_timeval. rewrite !be_write.
  change (grow arr 8) with (arr ++ [0; 0; 0; 0] ++ [0; 0; 0; 0]).
  rewrite write_at_app by done. run.
  replace (Z.of_nat (length arr) + 4)
    with (Z.of_nat (length (arr ++ be_encode 4 (s32 (tv_sec tv)))))
    by (rewrite length_app, be_encode_length; lia).
  rewrite be_write.
  replace (arr ++ be_encode 4 (s32 (tv_sec tv)) ++ [0; 0; 0; 0])
    with ((arr ++ be_encode 4 (s32 (tv_sec tv))) ++ [0; 0; 0; 0] ++ [])
    by (by rewrite <- app_assoc).
  rewrite write_at_app by done. by rewrite app_nil_r, <- app_assoc.
Qed.

(** ** What the readers read back *)

Lemma read_str_ok (s rest : bytes) (len : Z) :
  nonzero s -> Z.of_nat (length s) < len ->
  gzochid_protocol_read_str (s ++ 0 :: rest) len
  = Ret (Some (s ++ [0], Z.of_nat (length s) + 1)).
Proof.
  intros Hs Hlen. unfold gzochid_protocol_read_str.
  rewrite memchr0_found by (done || lia). run. do 4 f_equal.
  rewrite (app_assoc s [0] rest : s ++ 0 :: rest = (s ++ [0]) ++ rest).
  apply take_app_length'. rewrite length_app. simpl. lia.
Qed.

Lemma read_short_front (v : Z) (rest : bytes) :
  in_signed 16 v ->
  gzochi_common_io_read_short (be_encode 2 v ++ rest) 0 = Ret v.
Proof.
  intros Hv. rewrite (read_encoded_0 (Hbe := short_codec)). f_equal.
  by apply signed_small.
Qed.

Lemma short_length (n : nat) : Z.of_nat n < 2 ^ 15 ->
  in_signed 16 (Z.of_nat n) /\ s16 (Z.of_nat n) = Z.of_nat n
  /\ u64 (Z.of_nat n) = Z.of_nat n.
Proof.
  intros Hn. assert (in_signed 16 (Z.of_nat n)) by (unfold in_signed; simpl in *; lia).
  split_and!; [done | by apply signed_small |].
  apply unsigned_small. unfold in_unsigned; simpl in *; lia.
Qed.

Lemma read_bytes_ok (b rest : bytes) (len : Z) :
  Z.of_nat (length b) < 2 ^ 15 -> Z.of_nat (length b) + 2 <= len ->
  gzochid_protocol_read_bytes
    (be_encode 2 (s16 (Z.of_nat (length b))) ++ b ++ rest) len = Ret (Some b).
Proof.
  intros Hb Hlen. destruct (short_length _ Hb) as (Hs & -> & Hu).
  unfold gzochid_protocol_read_bytes.
  destruct (Z.ltb_spec len 2); [lia|].
  rewrite read_short_front by done. run. rewrite Hu.
  destruct (Z.ltb_spec (len - 2) (Z.of_nat (length b))); [lia|].
  rewrite drop_app_length' by (by rewrite be_encode_length).
  by rewrite memcpy_from_app.
Qed.

Lemma read_timeval_ok (tv : timeval) (rest : bytes) (len : Z) :
  in_signed 32 (tv_sec tv) -> in_signed 32 (tv_usec tv) -> 8 <= len ->
  read_timeval (be_encode 4 (s32 (tv_sec tv)) ++ be_encode 4 (s32 (tv_usec tv)) ++ rest)
    len = Ret (Some tv).
Proof.
  intros Hs Hu Hlen. unfold read_timeval. destruct (Z.ltb_spec len 8); [lia|].
  rewrite !signed_small by done. rewrite read_int_front by done. run.
  rewrite (read_encoded (Hbe := int_codec) (tv_usec tv) (be_encode 4 (tv_sec tv))). run.
  rewrite signed_small by done. by destruct tv.
Qed.

(** Skipping what was read. *)
Lemma drop_str (s rest : bytes) (k : Z) :
  k = Z.of_nat (length s) + 1 -> drop (Z.to_nat k) (s ++ 0 :: rest) = rest.
Proof.
  intros ->. rewrite (app_assoc s [0] rest : s ++ 0 :: rest = (s ++ [0]) ++ rest).
  apply drop_app_length'. rewrite length_app. simpl. lia.
Qed.

(** ** Totality of the readers

    Given the true length of the memory, the two primitive readers return, and
    what they report to have consumed was there. *)

Lemma memchr0_total (mem : bytes) (n : nat) :
  (n <= length mem)%nat ->
  exists r, memchr0 mem n = Ret r /\ (forall e, r = Some e -> (e < n)%nat).
Proof.
  revert mem. induction n as [|n IH]; intros mem Hn; simpl.
  { by exists None. }
  destruct mem as [|b mem]; simpl in Hn; [lia|].
  case_match; [exists (Some O); split; [done | intros e [= <-]; lia]|].
  destruct (IH mem) as (r & -> & Hr); [lia|]. run.
  exists (option_map S r). split; [done|]. destruct r as [e|]; simpl; [|done].
  intros ? [= <-]. specialize (Hr e eq_refl). lia.
Qed.

Lemma read_str_total (mem : bytes) :
  exists r, gzochid_protocol_read_str mem (Z.of_nat (length mem)) = Ret r
    /\ (forall s k, r = Some (s, k) -> 1 <= k <= Z.of_nat (length mem)).
Proof.
  unfold gzochid_protocol_read_str. rewrite Nat2Z.id.
  destruct (memchr0_total mem (length mem) (le_n _)) as (r & -> & Hr). run.
  destruct r as [e|]; eexists; (split; [done|]); [|done].
  intros s k [= _ <-]. specialize (Hr e eq_refl). lia.
Qed.

Lemma read_at_total (bs : bytes) (off : Z) :
  0 <= off < Z.of_nat (length bs) -> exists b, read_at bs off = Ret b.
Proof.
  intros H. unfold read_at. destruct (Z.ltb_spec off 0); [lia|].
  destruct (lookup_lt_is_Some_2 bs (Z.to_nat off)) as [b Hb]; [lia|].
  exists b. by rewrite Hb.
Qed.

Lemma codec_total {n read write} `{!BigEndian n read write} (bs : bytes) (off : Z) :
  0 <= off -> off + Z.of_nat n <= Z.of_nat (length bs) -> exists v, read bs off = Ret v.
Proof.
  intros H0 H1. destruct (buffer_split bs off H0 H1) as (pre & old & post & -> & <- & Hl).
  eexists. by apply be_read.
Qed.

Lemma read_bytes_total (mem : bytes) :
  exists r, gzochid_protocol_read_bytes mem (Z.of_nat (length mem)) = Ret r
    /\ (forall b, r = Some b -> Z.of_nat (length b) + 2 <= Z.of_nat (length mem)).
Proof.
  unfold gzochid_protocol_read_bytes. destruct (Z.ltb_spec (Z.of_nat (length mem)) 2);
    [by exists None|].
  destruct (codec_total (read := gzochi_common_io_read_short) mem 0) as [p ->];
    [lia | simpl; lia |]. run.
  pose proof (unsigned_range 64 p ltac:(lia)) as Hu. unfold in_unsigned in Hu.
  destruct (Z.ltb_spec (Z.of_nat (length mem) - 2) (u64 p)); [by exists None|].
  unfold memcpy_from. rewrite length_drop.
  destruct (Z.leb_spec 0 (u64 p)); [|lia].
  destruct (Z.leb_spec (u64 p) (Z.of_nat (length mem - 2))); [|lia]. simpl. run.
  eexists. split; [done|]. intros b [= <-]. rewrite length_take, length_drop. lia.
Qed.

Lemma change_read_total (mem : bytes) :
  Z.of_nat (length mem) < 2 ^ 64 ->
  exists r, change_read mem (Z.of_nat (length mem)) = Ret r
    /\ (forall c size, r = Some (c, size) -> 0 <= size <= Z.of_nat (length mem)).
Proof.
  intros Hmax. unfold change_read.
  destruct (read_str_total mem) as (r & -> & Hr). run.
  destruct r as [[store str_len]|]; [|by exists None].
  specialize (Hr _ _ eq_refl). destruct (Z.leb_spec str_len 1); [by exists None|].
  rewrite u64_small by lia.
  replace (Z.of_nat (length mem) - str_len)
    with (Z.of_nat (length (drop (Z.to_nat str_len) mem))) by (rewrite length_drop; lia).
  destruct (read_bytes_total (drop (Z.to_nat str_len) mem)) as (k & -> & Hk). run.
  destruct k as [key|]; [|by exists None]. specialize (Hk _ eq_refl).
  case_match; [by exists None|]. rewrite length_drop in *. rewrite u64_small by lia.
  set (size := str_len + (Z.of_nat (length key) + 2)).
  replace (Z.of_nat (length mem - Z.to_nat str_len) - (Z.of_nat (length key) + 2))
    with (Z.of_nat (length (drop (Z.to_nat size) mem))) by (rewrite length_drop; lia).
  destruct (read_bytes_total (drop (Z.to_nat size) mem)) as (d & -> & Hd). run.
  destruct d as [data|]; [|by exists None]. specialize (Hd _ eq_refl).
  rewrite length_drop in Hd. eexists. split; [done|]. intros c sz [= _ <-]. lia.
Qed.

Lemma changes_read_total (n : nat) (mem : bytes) :
  Z.of_nat (length mem) < 2 ^ 64 ->
  exists r, changes_read n mem (Z.of_nat (length mem)) = Ret r.
Proof.
  revert mem. induction n as [|n IH]; intros mem Hmax; simpl; [by eexists|].
  case_match; [by eexists|].
  destruct (change_read_total mem Hmax) as (r & -> & Hr). run.
  destruct r as [[c size]|]; [|by eexists]. specialize (Hr _ _ eq_refl).
  rewrite u64_small by lia.
  replace (Z.of_nat (length mem) - size)
    with (Z.of_nat (length (drop (Z.to_nat size) mem))) by (rewrite length_drop; lia).
  destruct (IH (drop (Z.to_nat size) mem)) as (r & ->); [rewrite length_drop; lia|].
  run. by eexists.
Qed.

Lemma response_tail_total (app store : bytes) (flag : Z) (rest : bytes) :
  exists r, response_read_tail app store flag rest (Z.of_nat (length rest)) = Ret r.
Proof.
  unfold response_read_tail. case_match.
  - destruct (read_bytes_total rest) as (o & -> & _). run.
    destruct o as [obj|]; [|by eexists]. case_match; by eexists.
  - destruct (Z.ltb_spec (Z.of_nat (length rest)) 8); [by eexists|].
    unfold read_timeval. destruct (Z.ltb_spec (Z.of_nat (length rest)) 8); [lia|].
    destruct (codec_total (read := gzochi_common_io_read_int) rest 0) as [s ->];
      [lia | simpl; lia |]. run.
    destruct (codec_total (read := gzochi_common_io_read_int) rest 4) as [u ->];
      [lia | simpl; lia |]. run. by eexists.
Qed.

Lemma response_read_total (data : bytes) :
  Z.of_nat (length data) < 2 ^ 64 ->
  exists r, gzochid_data_protocol_response_read data = Ret r.
Proof.
  intros Hmax. unfold gzochid_data_protocol_response_read.
  destruct (read_str_total data) as (r & -> & Hr). run.
  destruct r as [[app l1]|]; [|by eexists]. specialize (Hr _ _ eq_refl).
  case_match; [by eexists|]. rewrite u64_small by lia.
  replace (Z.of_nat (length data) - l1)
    with (Z.of_nat (length (drop (Z.to_nat l1) data))) by (rewrite length_drop; lia).
  destruct (read_str_total (drop (Z.to_nat l1) data)) as (r2 & -> & Hr2). run.
  destruct r2 as [[store l2]|]; [|by eexists]. specialize (Hr2 _ _ eq_refl).
  case_match; [by eexists|]. rewrite length_drop in *. rewrite u64_small by lia.
  destruct (Z.leb_spec (Z.of_nat (length data - Z.to_nat l1) - l2) 0); [by eexists|].
  destruct (read_at_total data (l1 + l2)) as [flag ->]; [lia|]. run.
  replace (Z.of_nat (length data - Z.to_nat l1) - l2 - 1)
    with (Z.of_nat (length (drop (Z.to_nat (l1 + l2 + 1)) data)))
    by (rewrite length_drop; lia).
  apply response_tail_total.
Qed.

Lemma changeset_read_total (data : bytes) :
  Z.of_nat (length data) < 2 ^ 64 ->
  exists r, gzochid_data_protocol_changeset_read data = Ret r.
Proof.
  intros Hmax. unfold gzochid_data_protocol_changeset_read.
  destruct (read_str_total data) as (r & -> & Hr). run.
  destruct r as [[app off]|]; [|by eexists]. specialize (Hr _ _ eq_refl).
  case_match; [by eexists|]. rewrite u64_small by lia.
  destruct (Z.leb_spec (Z.of_nat (length data) - off) 2); [by eexists|].
  destruct (codec_total (read := gzochi_common_io_read_short) data off) as [n ->];
    [lia | simpl; lia |]. run.
  case_match; [|by eexists].
  replace (Z.of_nat (length data) - off - 2)
    with (Z.of_nat (length (drop (Z.to_nat (off + 2)) data))) by (rewrite length_drop; lia).
  destruct (changes_read_total (Z.to_nat n) (drop (Z.to_nat (off + 2)) data))
    as (cs & ->); [rewrite length_drop; lia|].
  run. by eexists.
Qed.

(** ** Encodings of whole messages *)

(** The payloads the protocol can carry: an object is not empty and its length
    fits the signed 16-bit prefix. *)
Definition object_ok (b : bytes) : Prop := 1 <= Z.of_nat (length b) < 2 ^ 15.

Definition body_ok (b : response_body) : Prop :=
  match b with
  | Success None => True
  | Success (Some d) => object_ok d
  | Failure tv => in_signed 32 (tv_sec tv) /\ in_signed 32 (tv_usec tv)
  end.

Definition change_ok (c : gzochid_data_change) : Prop :=
  exists store key,
    change_store c = Some (store ++ [0]) /\ nonzero store /\ store <> []
    /\ change_key c = Some key /\ object_ok key
    /\ (if delete c then change_data c = None
        else exists d, change_data c = Some d /\ object_ok d).

Lemma change_roundtrip (c : gzochid_data_change) :
  change_ok c -> exists enc,
    (0 < length enc)%nat
    /\ (forall arr, change_write c arr = Ret (arr ++ enc))
    /\ (forall rest, Z.of_nat (length (enc ++ rest)) < 2 ^ 64 ->
          change_read (enc ++ rest) (Z.of_nat (length (enc ++ rest)))
          = Ret (Some (c, Z.of_nat (length enc)))).
Proof.
  intros (store & key & Hst & Hnz & Hne & Hkey & [Hk0 Hk] & Hdat).
  set (dat := if delete c then [] else default [] (change_data c)).
  assert (Hd : Z.of_nat (length dat) < 2 ^ 15
    /\ (delete c = true <-> Z.of_nat (length dat) = 0)
    /\ (delete c = false -> change_data c = Some dat)).
  { unfold dat. destruct (delete c); [naive_solver lia|].
    destruct Hdat as (d & -> & Hd0 & Hd). simpl. split_and!; [lia | split; [done | lia] | done]. }
  destruct Hd as (Hdl & Hdd & Hds). destruct (short_length _ Hdl) as (_ & Hs16 & _).
  assert (length store <> 0%nat) by (by destruct store).
  exists ((store ++ [0]) ++ (be_encode 2 (s16 (Z.of_nat (length key))) ++ key)
    ++ be_encode 2 (s16 (Z.of_nat (length dat))) ++ dat). split_and!.
  - rewrite !length_app. simpl. lia.
  - intros arr. unfold change_write. rewrite Hst, Hkey. simpl deref. run.
    rewrite append_str_ok by done. run. rewrite write_bytes_ok. run.
    destruct (delete c) eqn:Hdel.
    + rewrite (byte_array_append_all _ [0; 0]). unfold dat.
      change (be_encode 2 (s16 (Z.of_nat (length [])))) with [0; 0].
      by rewrite app_nil_r, <- !app_assoc.
    + rewrite (Hds eq_refl). simpl deref. run.
      rewrite write_bytes_ok. by rewrite <- !app_assoc.
  - intros rest Hmax. unfold change_read.
    rewrite <- !app_assoc in *. cbn [app] in *.
    rewrite read_str_ok by (rewrite ?length_app; simpl; done || lia). run.
    destruct (Z.leb_spec (Z.of_nat (length store) + 1) 1); [lia|].
    rewrite !length_app in *. cbn [length] in *. rewrite !length_app in *.
    rewrite !be_encode_length in *.
    rewrite drop_str by done. rewrite u64_small by lia.
    rewrite read_bytes_ok by lia. run.
    destruct (Z.eqb_spec (Z.of_nat (length key)) 0); [lia|].
    rewrite u64_small by lia.
    replace (Z.to_nat (Z.of_nat (length store) + 1 + (Z.of_nat (length key) + 2)))
      with (Z.to_nat (Z.of_nat (length store) + 1) + (length key + 2))%nat by lia.
    rewrite <- drop_drop, drop_str by done.
    rewrite app_assoc, drop_app_length' by (rewrite length_app, be_encode_length; lia).
    rewrite read_bytes_ok by lia. run.
    do 3 f_equal; [|lia]. destruct c as [cs [] ck cd]; simpl in *.
    + congruence.
    + destruct (Z.eqb_spec (Z.of_nat (length dat)) 0) as [Hz|]; [by apply Hdd in Hz|].
      rewrite (Hds eq_refl). congruence.
Qed.

Lemma changes_roundtrip (l : list gzochid_data_change) :
  Forall change_ok l -> exists enc,
    (l <> [] -> (0 < length enc)%nat)
    /\ (forall arr, changes_write l arr = Ret (arr ++ enc))
    /\ (Z.of_nat (length enc) < 2 ^ 64 ->
        changes_read (length l) enc (Z.of_nat (length enc)) = Ret (Some l)).
Proof.
  induction 1 as [|c l Hc _ IH].
  { exists []. split_and!; [done | intros; simpl; by rewrite app_nil_r | done]. }
  destruct IH as (enc & _ & Hw & Hr).
  destruct (change_roundtrip c Hc) as (e & He & Hcw & Hcr).
  exists (e ++ enc). split_and!.
  - intros _. rewrite length_app. lia.
  - intros arr. simpl. rewrite Hcw. run. by rewrite Hw, app_assoc.
  - intros Hmax. simpl. rewrite Hcr by done.
    rewrite length_app in *. destruct (Z.leb_spec (Z.of_nat (length e + length enc)) 0); [lia|].
    run. rewrite u64_small by lia. rewrite drop_app_length' by lia.
    replace (Z.of_nat (length e + length enc) - Z.of_nat (length e))
      with (Z.of_nat (length enc)) by lia.
    rewrite Hr by lia. done.
Qed.

Lemma append_1 (out : bytes) (b : Z) : byte_array_append out [b] 1 = Ret (out ++ [b]).
Proof. apply (byte_array_append_all out [b]). Qed.

Lemma append_00 (out : bytes) : byte_array_append out [0; 0] 2 = Ret (out ++ [0; 0]).
Proof. apply (byte_array_append_all out [0; 0]). Qed.

(** The bytes of a response message. *)
Lemma response_write_ok (be : bool) (app store : bytes) (b : response_body) (arr : bytes) :
  nonzero app -> nonzero store -> body_ok b ->
  exists flag payload, gzochid_data_protocol_response_write be
      (DataResponse (app ++ [0]) (store ++ [0]) b) arr
    = Ret (arr ++ app ++ 0 :: store ++ 0 :: flag :: payload)
    /\ flag = gboolean_first_byte be (match b with Success _ => true | _ => false end)
    /\ payload = match b with
        | Success (Some d) => be_encode 2 (s16 (Z.of_nat (length d))) ++ d
        | Failure tv =>
            be_encode 4 (s32 (tv_sec tv)) ++ be_encode 4 (s32 (tv_usec tv))
        | _ => [0; 0]
        end.
Proof.
  intros Ha Hs Hb. unfold gzochid_data_protocol_response_write.
  cbn [response_app response_store body].
  rewrite append_str_ok by done. run. rewrite append_str_ok by done. run.
  eexists _, _. split; [|by split].
  destruct b as [[d|]|tv];
    rewrite append_1; run;
    rewrite ?write_bytes_ok, ?write_timeval_ok, ?append_00;
    by rewrite <- !app_assoc.
Qed.

(** Reading past the two names of a well-formed message. *)
Lemma response_read_header (app store : bytes) (flag : Z) (payload : bytes) :
  nonzero app -> nonzero store ->
  Z.of_nat (length (app ++ 0 :: store ++ 0 :: flag :: payload)) < 2 ^ 64 ->
  gzochid_data_protocol_response_read (app ++ 0 :: store ++ 0 :: flag :: payload)
  = response_read_tail (app ++ [0]) (store ++ [0]) flag payload
      (Z.of_nat (length payload)).
Proof.
  intros Ha Hs Hmax. unfold gzochid_data_protocol_response_read.
  rewrite !length_app in *. cbn [length] in *. rewrite !length_app in *.
  cbn [length] in *.
  rewrite read_str_ok by (done || lia). run.
  destruct (Z.eqb_spec (Z.of_nat (length app) + 1) 0); [lia|].
  rewrite drop_str by done. rewrite u64_small by lia.
  rewrite read_str_ok by (done || lia). run.
  destruct (Z.eqb_spec (Z.of_nat (length store) + 1) 0); [lia|].
  rewrite u64_small by lia.
  replace (Z.of_nat (length app + S (length store + S (S (length payload))))
    - (Z.of_nat (length app) + 1) - (Z.of_nat (length store) + 1))
    with (Z.of_nat (length payload) + 1) by lia.
  destruct (Z.leb_spec (Z.of_nat (length payload) + 1) 0); [lia|].
  set (pre := app ++ [0] ++ store ++ [0]).
  replace (Z.of_nat (length app) + 1 + (Z.of_nat (length store) + 1))
    with (Z.of_nat (length pre)) by (unfold pre; rewrite !length_app; simpl; lia).
  replace (app ++ 0 :: store ++ 0 :: flag :: payload) with (pre ++ flag :: payload)
    by (unfold pre; by rewrite <- !app_assoc).
  rewrite read_at_app. run. f_equal; [|lia].
  rewrite (app_assoc pre [flag] payload : pre ++ flag :: payload = _).
  apply drop_app_length'. rewrite length_app. simpl. lia.
Qed.

(** ** Properties *)

(** C22. Reading a message received from the network is memory safe: for every
    byte string of less than 2^64 bytes the response reader and the change set
    reader return, with a value or with [NULL], and never read outside of the
    message. *)
Theorem data_protocol_readers_safe (data : bytes) :
  Z.of_nat (length data) < 2 ^ 64 ->
  (exists r, gzochid_data_protocol_response_read data = Ret r)
  /\ (exists r, gzochid_data_protocol_changeset_read data = Ret r).
Proof. intros H. split; [by apply response_read_total | by apply changeset_read_total]. Qed.

Lemma data_protocol_readers_safe_witness :
  (exists r, gzochid_data_protocol_response_read [97; 0; 98; 0; 1; 127; 255; 3] = Ret r)
  /\ (exists r, gzochid_data_protocol_changeset_read [97; 0; 98; 0; 1; 127; 255; 3]
               = Ret r).
Proof.
  apply (data_protocol_readers_safe [97; 0; 98; 0; 1; 127; 255; 3]). simpl. lia.
Defined.

(** On a little-endian platform a response that is written is read back as
    itself: a success without data, a success with an object of 1 to 32767
    bytes, and a failure with a timeout within 32 bits. *)
Theorem response_roundtrip (app store : bytes) (b : response_body) :
  nonzero app -> nonzero store -> body_ok b ->
  Z.of_nat (length app) + Z.of_nat (length store) < 2 ^ 62 ->
  exists msg,
    gzochid_data_protocol_response_write false
      (DataResponse (app ++ [0]) (store ++ [0]) b) [] = Ret msg
    /\ gzochid_data_protocol_response_read msg
       = Ret (Some (DataResponse (app ++ [0]) (store ++ [0]) b)).
Proof.
  intros Ha Hs Hb Hmax.
  destruct (response_write_ok false app store b [] Ha Hs Hb)
    as (flag & payload & Hw & Hflag & Hpay).
  exists (app ++ 0 :: store ++ 0 :: flag :: payload). split; [exact Hw|].
  assert (Hp : Z.of_nat (length payload) <= 2 ^ 15 + 8).
  { subst payload. destruct b as [[d|]|tv]; simpl in Hb |- *;
      rewrite ?length_app, ?be_encode_length; try (simpl; lia).
    destruct Hb. simpl in *. lia. }
  rewrite response_read_header; [|done..|rewrite length_app; simpl;
    rewrite length_app; simpl in *; lia].
  unfold response_read_tail.
  subst flag payload. clear Hw.
  destruct b as [[d|]|tv]; cbn [body_ok] in Hb;
    [ change (negb (gboolean_first_byte false true =? 0)) with true
    | change (negb (gboolean_first_byte false true =? 0)) with true
    | change (negb (gboolean_first_byte false false =? 0)) with false ]; cbv iota.
  - destruct Hb as [Hd0 Hd]. rewrite length_app, be_encode_length.
    rewrite <- (app_nil_r (be_encode 2 _ ++ d)), <- app_assoc.
    rewrite read_bytes_ok by lia. run.
    destruct (Z.eqb_spec (Z.of_nat (length d)) 0); [lia | done].
  - done.
  - destruct Hb as [Hsec Husec]. rewrite length_app, !be_encode_length.
    rewrite <- (app_nil_r (be_encode 4 _ ++ be_encode 4 _)), <- app_assoc.
    rewrite read_timeval_ok by (done || lia). done.
Qed.

Lemma response_roundtrip_witness :
  exists msg,
    gzochid_data_protocol_response_write false
      (DataResponse ([97] ++ [0]) ([98] ++ [0]) (Success (Some [7; 0; 9]))) [] = Ret msg
    /\ gzochid_data_protocol_response_read msg
       = Ret (Some (DataResponse ([97] ++ [0]) ([98] ++ [0]) (Success (Some [7; 0; 9])))).
Proof.
  apply (response_roundtrip [97] [98] (Success (Some [7; 0; 9])));
    [by repeat constructor | by repeat constructor | split; simpl; lia | simpl; lia].
Defined.

Lemma changeset_read_header (app : bytes) (n : Z) (payload : bytes) :
  nonzero app -> payload <> [] ->
  Z.of_nat (length (app ++ 0 :: be_encode 2 n ++ payload)) < 2 ^ 64 -> in_signed 16 n ->
  0 < n ->
  gzochid_data_protocol_changeset_read (app ++ 0 :: be_encode 2 n ++ payload)
  = (cs ← changes_read (Z.to_nat n) payload (Z.of_nat (length payload));
     Ret (option_map (DataChangeset (app ++ [0])) cs)).
Proof.
  intros Ha Hne Hmax Hn Hpos. unfold gzochid_data_protocol_changeset_read.
  assert (length payload <> O) by (by destruct payload).
  rewrite !length_app in *. cbn [length] in *. rewrite !length_app, !be_encode_length in *.
  rewrite read_str_ok by (done || lia). run.
  destruct (Z.eqb_spec (Z.of_nat (length app) + 1) 0); [lia|].
  rewrite u64_small by lia.
  destruct (Z.leb_spec (Z.of_nat (length app + S (2 + length payload))
    - (Z.of_nat (length app) + 1)) 2); [lia|].
  replace (app ++ 0 :: be_encode 2 n ++ payload)
    with ((app ++ [0]) ++ be_encode 2 n ++ payload) by (by rewrite <- app_assoc).
  replace (Z.of_nat (length app) + 1) with (Z.of_nat (length (app ++ [0])))
    by (rewrite length_app; simpl; lia).
  rewrite (read_encoded (Hbe := short_codec)). run. rewrite signed_small by done.
  destruct (Z.ltb_spec 0 n); [|lia].
  rewrite app_assoc, drop_app_length'
    by (rewrite !length_app, be_encode_length; simpl; lia).
  rewrite length_app. simpl length.
  replace (Z.of_nat (length app + S (2 + length payload)) - Z.of_nat (length app + 1) - 2)
    with (Z.of_nat (length payload)) by lia.
  done.
Qed.

(** C23. A change set of 1 to 32767 changes that is written is read back as
    itself, deletions and updates in order, when every store name and key is
    non-empty, keys and values are at most 32767 bytes, and updates are not
    empty. *)
Theorem changeset_roundtrip (app : bytes) (l : list gzochid_data_change) :
  nonzero app -> l <> [] -> Z.of_nat (length l) < 2 ^ 15 -> Forall change_ok l ->
  exists msg,
    gzochid_data_protocol_changeset_write (DataChangeset (app ++ [0]) l) [] = Ret msg
    /\ (Z.of_nat (length msg) < 2 ^ 64 ->
        gzochid_data_protocol_changeset_read msg
        = Ret (Some (DataChangeset (app ++ [0]) l))).
Proof.
  intros Ha Hne Hlen Hl. destruct (changes_roundtrip l Hl) as (enc & Henc & Hw & Hr).
  destruct (short_length _ Hlen) as (Hs & Hs16 & _). specialize (Henc Hne).
  exists (app ++ 0 :: be_encode 2 (Z.of_nat (length l)) ++ enc). split.
  - unfold gzochid_data_protocol_changeset_write. cbn [changeset_app changes].
    rewrite append_str_ok by done. run. rewrite Hs16, write_short_grow. run.
    rewrite Hw. by rewrite <- !app_assoc.
  - intros Hmax. assert (length l <> O) by (by destruct l).
    rewrite changeset_read_header; [|done| intros ->; simpl in Henc; lia | done | done | lia].
    rewrite Nat2Z.id, Hr; [done|].
    rewrite !length_app in Hmax. cbn [length] in Hmax. rewrite length_app in Hmax. lia.
Qed.

Lemma changeset_roundtrip_witness :
  exists msg,
    gzochid_data_protocol_changeset_write (DataChangeset ([97] ++ [0])
      [DataChange (Some ([111] ++ [0])) false (Some [1]) (Some [7; 7]);
       DataChange (Some ([110] ++ [0])) true (Some [2; 0]) None]) [] = Ret msg
    /\ (Z.of_nat (length msg) < 2 ^ 64 ->
        gzochid_data_protocol_changeset_read msg = Ret (Some (DataChangeset ([97] ++ [0])
      [DataChange (Some ([111] ++ [0])) false (Some [1]) (Some [7; 7]);
       DataChange (Some ([110] ++ [0])) true (Some [2; 0]) None]))).
Proof.
  apply (changeset_roundtrip [97]); [by repeat constructor | done | simpl; lia |].
  apply Forall_cons; split; [|apply Forall_singleton].
  - exists [111], [1]. split_and!; try done; [by repeat constructor|].
    by exists [7; 7].
  - exists [110], [2; 0]. split_and!; done || by repeat constructor.
Defined.

(** The writer's message for an empty change set is refused by the reader,
    whatever the application: the reader requires more than two bytes after the
    name, and the count alone takes two. *)
Theorem changeset_empty_rejected (app : bytes) :
  nonzero app -> Z.of_nat (length app) < 2 ^ 62 ->
  exists msg,
    gzochid_data_protocol_changeset_write (DataChangeset (app ++ [0]) []) [] = Ret msg
    /\ gzochid_data_protocol_changeset_read msg = Ret None.
Proof.
  intros Ha Hlen. exists (app ++ 0 :: [0; 0]). split.
  - unfold gzochid_data_protocol_changeset_write. cbn [changeset_app changes].
    rewrite append_str_ok by done. run. rewrite write_short_grow. run. simpl.
    by rewrite <- app_assoc.
  - unfold gzochid_data_protocol_changeset_read. rewrite length_app. simpl length.
    rewrite read_str_ok by (done || lia). run.
    destruct (Z.eqb_spec (Z.of_nat (length app) + 1) 0); [lia|].
    rewrite u64_small by (simpl in *; lia).
    destruct (Z.leb_spec (Z.of_nat (length app + 3) - (Z.of_nat (length app) + 1)) 2);
      [done | lia].
Qed.

Lemma changeset_empty_rejected_witness :
  exists msg,
    gzochid_data_protocol_changeset_write (DataChangeset ([97] ++ [0]) []) [] = Ret msg
    /\ gzochid_data_protocol_changeset_read msg = Ret None.
Proof. apply (changeset_empty_rejected [97]); [by repeat constructor | simpl; lia]. Defined.

(** The oid block response is read back as written for every application
    name except the empty one and those of 8 or 9 characters, which the reader
    refuses: it subtracts the length of the name twice before it checks that the
    two bytes of the block size are there. *)
Theorem reserve_oids_roundtrip (app : bytes) (start size : Z) :
  nonzero app -> Z.of_nat (length app) < 2 ^ 62 ->
  in_unsigned 64 start -> in_unsigned 16 size ->
  exists msg,
    gzochid_data_protocol_reserve_oids_response_write
      (ReserveOidsResponse (app ++ [0]) start size) [] = Ret msg
    /\ gzochid_data_protocol_reserve_oids_response_read msg
       = Ret (if decide (length app = 0 \/ length app = 8 \/ length app = 9)%nat
              then None else Some (ReserveOidsResponse (app ++ [0]) start size)).
Proof.
  intros Ha Hlen Hst Hsz.
  exists (app ++ 0 :: be_encode 8 (s64 start) ++ be_encode 2 (s16 size)). split.
  { unfold gzochid_data_protocol_reserve_oids_response_write.
    cbn [oids_app block_start block_size]. rewrite append_str_ok by done. run.
    rewrite write_long_grow. run. rewrite write_short_grow.
    by rewrite <- !app_assoc. }
  unfold gzochid_data_protocol_reserve_oids_response_read, reserve_oids_response_read, read_oid.
  rewrite !length_app. cbn [length]. rewrite !length_app, !be_encode_length.
  rewrite read_str_ok by (done || lia). run.
  destruct (Z.eqb_spec (Z.of_nat (length app) + 1) 0); [lia|].
  replace (Z.of_nat (length app + S (8 + 2)) - (Z.of_nat (length app) + 1)) with 10 by lia.
  rewrite (u64_small 10) by lia. rewrite drop_str by done.
  change (10 <? 8) with false. cbv iota.
  rewrite (read_encoded_0 (Hbe := long_codec)). run. change (8 =? 0) with false. cbv iota.
  replace (Z.to_nat (Z.of_nat (length app) + 1 + 8))
    with (Z.to_nat (Z.of_nat (length app) + 1) + 8)%nat by lia.
  rewrite <- drop_drop, drop_str by done.
  rewrite drop_app_length' by (by rewrite be_encode_length).
  rewrite <- (app_nil_r (be_encode 2 _)), (read_encoded_0 (Hbe := short_codec)). run.
  change (8 * Z.of_nat 8) with 64. change (8 * Z.of_nat 2) with 16.
  rewrite !unsigned_signed by done. rewrite !(unsigned_small _ start) by done.
  rewrite !(unsigned_small _ size) by done.
  replace (10 - (Z.of_nat (length app) + 1)) with (9 - Z.of_nat (length app)) by lia.
  assert (u64 (9 - Z.of_nat (length app)) = if (length app <=? 9)%nat
    then 9 - Z.of_nat (length app) else 9 - Z.of_nat (length app) + 2 ^ 64) as ->.
  { unfold unsigned. destruct (Nat.leb_spec (length app) 9).
    - apply Z.mod_small. lia.
    - rewrite <- (Z.mod_add _ 1) by lia. rewrite Z.mod_small; lia. }
  destruct (Z.ltb_spec 1 (Z.of_nat (length app) + 1)), (Nat.leb_spec (length app) 9);
    case_decide; simpl; try lia; try case_match; done || lia.
Qed.

Lemma reserve_oids_roundtrip_witness :
  exists msg,
    gzochid_data_protocol_reserve_oids_response_write
      (ReserveOidsResponse ([116; 101; 115; 116] ++ [0]) 500 100) [] = Ret msg
    /\ gzochid_data_protocol_reserve_oids_response_read msg
       = Ret (if decide (length [116; 101; 115; 116] = 0
                         \/ length [116; 101; 115; 116] = 8
                         \/ length [116; 101; 115; 116] = 9)%nat then None
              else Some (ReserveOidsResponse ([116; 101; 115; 116] ++ [0]) 500 100)).
Proof.
  apply (reserve_oids_roundtrip [116; 101; 115; 116] 500 100);
    [by repeat constructor | simpl; lia | split; lia | split; lia].
Defined.

(** A message that ends after the oid makes the oid block reader read two
    bytes past the end of the message, for application names of 1 to 5
    characters. *)
Theorem reserve_oids_overread (app oid : bytes) :
  nonzero app -> (1 <= length app <= 5)%nat -> length oid = 8%nat ->
  gzochid_data_protocol_reserve_oids_response_read (app ++ 0 :: oid) = Undef.
Proof.
  intros Ha Hlen Ho.
  unfold gzochid_data_protocol_reserve_oids_response_read, reserve_oids_response_read, read_oid.
  rewrite length_app. cbn [length]. rewrite Ho.
  rewrite read_str_ok by (done || lia). run.
  destruct (Z.eqb_spec (Z.of_nat (length app) + 1) 0); [lia|].
  replace (Z.of_nat (length app + 9) - (Z.of_nat (length app) + 1)) with 8 by lia.
  rewrite (u64_small 8) by lia. rewrite drop_str by done.
  change (8 <? 8) with false. cbv iota.
  rewrite <- (app_nil_r oid) at 1.
  rewrite (read_front (Hbe := long_codec)) by done. run. change (8 =? 0) with false. cbv iota.
  rewrite u64_small by lia.
  destruct (Z.ltb_spec 1 (Z.of_nat (length app) + 1)); [|lia].
  destruct (Z.leb_spec 2 (8 - (Z.of_nat (length app) + 1))); [|lia].
  simpl andb. cbv iota.
  rewrite drop_ge by (rewrite length_app; simpl; lia). done.
Qed.

Lemma reserve_oids_overread_witness :
  gzochid_data_protocol_reserve_oids_response_read
    ([97; 98] ++ 0 :: [0; 0; 0; 0; 0; 0; 1; 0]) = Undef.
Proof.
  apply (reserve_oids_overread [97; 98]); [by repeat constructor | simpl; lia | done].
Defined.
