(* ===== verification/Tx.v ===== *)
(** * Transactions (gzochi-server/src/tx.c)

    The coordinator of a thread's transaction: participants join it by name, are
    asked to prepare when it ends, and are then all committed or all rolled
    back.  The state is the two thread-local keys, the global transaction
    counter and the world the participants' callbacks act on.  A function
    pointer of a participant is an identifier, absent when it is [NULL], whose
    meaning is a parameter; so is the order in which GLib enumerates a hash
    table. *)

From S2P Require Import Prelude.

Inductive gzochid_transaction_state :=
| ACTIVE
| PREPARING
| COMMITTING
| ROLLING_BACK
| COMMITTED
| ROLLED_BACK.

#[export] Instance transaction_state_eq_dec : EqDecision gzochid_transaction_state.
Proof. solve_decision. Defined.

Inductive gzochid_transaction_result :=
| TX_PENDING
| TX_SUCCESS
| TX_FAILURE
| TX_SHOULD_RETRY.

Record gzochid_transaction_timing := TxTiming {
  start_time : timeval;
  timeout : option timeval
}.

(** [Fn] is the type of callback pointers. *)
Record gzochid_transaction_participant {Fn : Type} := TxParticipant {
  p_name : string;
  p_prepare : option Fn;
  p_commit : option Fn;
  p_rollback : option Fn
}.
Arguments gzochid_transaction_participant : clear implicits.
Arguments TxParticipant {Fn}.

Record gzochid_transaction_participant_registration {Fn D : Type} := TxRegistration {
  participant : gzochid_transaction_participant Fn;
  data : D;
  marked_rollback : bool;
  marked_retryable : bool
}.
Arguments gzochid_transaction_participant_registration : clear implicits.
Arguments TxRegistration {Fn D}.

Record gzochid_transaction {Fn D : Type} := Transaction {
  tx_id : Z;
  participants : gmap string (gzochid_transaction_participant_registration Fn D);
  tx_state : gzochid_transaction_state;
  tx_timing : option gzochid_transaction_timing
}.
Arguments gzochid_transaction : clear implicits.
Arguments Transaction {Fn D}.

(** The thread-local keys, the counter and the participants' world. *)
Record tx_thread {Fn D W : Type} := TxThread {
  thread_transaction : option (gzochid_transaction Fn D);
  thread_transaction_timing : option gzochid_transaction_timing;
  transaction_counter : Z;
  world : W
}.
Arguments tx_thread : clear implicits.
Arguments TxThread {Fn D W}.

Definition gzochid_transaction_participant_new {Fn} (name : string)
    (prepare commit rollback : option Fn) : gzochid_transaction_participant Fn :=
  (* the structure is zeroed and the rollback member is not assigned *)
  TxParticipant name prepare commit None.

Section tx.

Context {Fn D W : Type}.

Abbreviation reg := (gzochid_transaction_participant_registration Fn D).
Abbreviation tx := (gzochid_transaction Fn D).
Abbreviation st := (tx_thread Fn D W).

(** The meaning of the callbacks, and the enumeration of a hash table. *)
Context (call_prepare : Fn -> D -> st -> outcome (bool * st)).
Context (call_commit call_rollback : Fn -> D -> st -> outcome st).
Context (values : gmap string reg -> list reg).

Definition set_transaction (t : option tx) (s : st) : st :=
  TxThread t (thread_transaction_timing s) (transaction_counter s) (world s).

Definition set_timing (t : option gzochid_transaction_timing) (s : st) : st :=
  TxThread (thread_transaction s) t (transaction_counter s) (world s).

Definition set_world (w : W) (s : st) : st :=
  TxThread (thread_transaction s) (thread_transaction_timing s)
    (transaction_counter s) w.

Definition set_tx_state (x : gzochid_transaction_state) (t : tx) : tx :=
  Transaction (tx_id t) (participants t) x (tx_timing t).

Definition set_participants (ps : gmap string reg) (t : tx) : tx :=
  Transaction (tx_id t) ps (tx_state t) (tx_timing t).

Definition transaction_new (s : st) : tx * st :=
  (Transaction (transaction_counter s) ∅ ACTIVE None,
   TxThread (thread_transaction s) (thread_transaction_timing s)
     (u64 (transaction_counter s + 1)) (world s)).

Definition gzochid_transaction_join (p : gzochid_transaction_participant Fn)
    (user_data : D) (s : st) : outcome st :=
  '(t, s) ← match thread_transaction s with
    | None =>
        let '(t, s) := transaction_new s in
        let t := Transaction (tx_id t) (participants t) (tx_state t)
                   (thread_transaction_timing s) in
        Ret (t, set_transaction (Some t) s)
    | Some t =>
        _ ← c_assert (bool_decide (tx_state t = ACTIVE)); Ret (t, s)
    end;
  match participants t !! p_name p with
  | None =>
      let registration := TxRegistration p user_data false false in
      Ret (set_transaction
             (Some (set_participants
                      (<[p_name p := registration]> (participants t)) t)) s)
  | Some _ => Ret s
  end.

Definition gzochid_transaction_context (p : gzochid_transaction_participant Fn)
    (s : st) : outcome (option D) :=
  match thread_transaction s with
  | None => Abort
  | Some t => Ret (data <$> participants t !! p_name p)
  end.

(** The loop of [prepare] over the enumerated registrations. *)
Fixpoint prepare_loop (l : list reg) (s : st) : outcome (bool * st) :=
  match l with
  | [] => Ret (true, s)
  | r :: l' =>
      f ← deref (p_prepare (participant r));
      '(ok, s) ← call_prepare f (data r) s;
      if negb ok then Ret (false, s) else prepare_loop l' s
  end.

Definition set_state (x : gzochid_transaction_state) (s : st) : outcome st :=
  t ← deref (thread_transaction s);
  Ret (set_transaction (Some (set_tx_state x t)) s).

Definition prepare (s : st) : outcome (bool * st) :=
  t ← deref (thread_transaction s);
  let ps := values (participants t) in
  s ← set_state PREPARING s;
  prepare_loop ps s.

Fixpoint commit_loop (l : list reg) (s : st) : outcome st :=
  match l with
  | [] => Ret s
  | r :: l' =>
      f ← deref (p_commit (participant r));
      s ← call_commit f (data r) s;
      commit_loop l' s
  end.

Definition commit (s : st) : outcome st :=
  t ← deref (thread_transaction s);
  let ps := values (participants t) in
  s ← set_state COMMITTING s;
  s ← commit_loop ps s;
  set_state COMMITTED s.

Definition rollback_only (t : tx) : bool :=
  existsb marked_rollback (values (participants t)).

Definition retryable (t : tx) : bool :=
  forallb (fun r => negb (marked_rollback r && negb (marked_retryable r)))
    (values (participants t)).

Fixpoint rollback_loop (l : list reg) (s : st) : outcome st :=
  match l with
  | [] => Ret s
  | r :: l' =>
      f ← deref (p_rollback (participant r));
      s ← call_rollback f (data r) s;
      rollback_loop l' s
  end.

Definition rollback (s : st) : outcome st :=
  t ← deref (thread_transaction s);
  let ps := values (participants t) in
  s ← set_state ROLLING_BACK s;
  s ← rollback_loop ps s;
  set_state ROLLED_BACK s.

Definition gzochid_transaction_mark_for_rollback
    (p : gzochid_transaction_participant Fn) (retry : bool) (s : st) : outcome st :=
  t ← deref (thread_transaction s);
  match participants t !! p_name p with
  | None => Abort
  | Some r =>
      let r := TxRegistration (participant r) (data r) true retry in
      Ret (set_transaction
             (Some (set_participants (<[p_name p := r]> (participants t)) t)) s)
  end.

(** [now] is what [gettimeofday] returns. *)
Definition time_remaining (timing : gzochid_transaction_timing) (now : timeval)
  : timeval :=
  match timeout timing with
  | None => Timeval 0 0
  | Some limit =>
      let ret := timersub now (start_time timing) in
      if timercmp_gt ret limit then Timeval 0 0 else timersub limit ret
  end.

Definition gzochid_transaction_time_remaining (now : timeval) (s : st)
  : outcome timeval :=
  match thread_transaction_timing s with
  | None => Abort
  | Some timing => Ret (time_remaining timing now)
  end.

Definition gzochid_transaction_begin (limit : option timeval) (now : timeval)
    (s : st) : st :=
  set_timing (Some (TxTiming now limit)) s.

Definition time_up (remaining : timeval) : bool :=
  (tv_sec remaining <=? 0)%Z && (tv_usec remaining <=? 0)%Z.

(** [now] is the reading of the clock after the participants prepared. *)
Definition gzochid_transaction_end (now : timeval) (s : st)
  : outcome (gzochid_transaction_result * st) :=
  let timing := thread_transaction_timing s in
  let s := set_timing None s in
  match thread_transaction s with
  | None => Ret (TX_SUCCESS, s)
  | Some t =>
      '(success, should_retry, s) ←
        (if rollback_only t
         then s ← rollback s; Ret (false, false, s)
         else
           '(prepared, s) ← prepare s;
           if negb prepared
           then s ← rollback s; Ret (false, false, s)
           else
             tm ← deref timing;
             let remaining := time_remaining tm now in
             if bool_decide (is_Some (timeout tm)) && time_up remaining
             then s ← rollback s; Ret (false, true, s)
             else s ← commit s; Ret (true, false, s));
      t ← deref (thread_transaction s);
      let s := set_transaction None s in
      let should_retry :=
        if negb success then should_retry || retryable t else should_retry in
      Ret (if success then TX_SUCCESS
           else if should_retry then TX_SHOULD_RETRY else TX_FAILURE, s)
  end.

(** [func] is the body run inside of the transaction; [t0] and [t1] are the
    clock readings of the beginning and of the end. *)
Definition gzochid_transaction_execute (func : st -> outcome st)
    (t0 t1 : timeval) (s : st) : outcome (gzochid_transaction_result * st) :=
  let s := gzochid_transaction_begin None t0 s in
  s ← func s;
  gzochid_transaction_end t1 s.

Definition gzochid_transaction_execute_timed (func : st -> outcome st)
    (limit : timeval) (t0 t1 : timeval) (s : st)
  : outcome (gzochid_transaction_result * st) :=
  let s := gzochid_transaction_begin (Some limit) t0 s in
  s ← func s;
  gzochid_transaction_end t1 s.

Definition gzochid_transaction_active (s : st) : bool :=
  match thread_transaction s with
  | None => false
  | Some t => bool_decide (tx_state t = ACTIVE)
  end.

Definition gzochid_transaction_rollback_only (s : st) : outcome bool :=
  match thread_transaction s with
  | None => Abort
  | Some t => Ret (rollback_only t)
  end.

Definition gzochid_transaction_timed_out (now : timeval) (s : st) : outcome bool :=
  match thread_transaction s with
  | None => Abort
  | Some t =>
      tm ← deref (tx_timing t);
      match timeout tm with
      | None => Ret false
      | Some _ =>
          remaining ← gzochid_transaction_time_remaining now s;
          Ret (time_up remaining)
      end
  end.

Definition gzochid_transaction_timed (s : st) : outcome bool :=
  match thread_transaction_timing s with
  | None => Abort
  | Some timing => Ret (bool_decide (is_Some (timeout timing)))
  end.

End tx.

(** ** Observing the participants

    To state what the coordinator does to its participants, their callbacks are
    taken to record the calls in the world, with [vote] as the result of
    preparing. *)

Inductive tx_event {Fn D : Type} :=
| EvPrepare (f : Fn) (d : D)
| EvCommit (f : Fn) (d : D)
| EvRollback (f : Fn) (d : D).
Arguments tx_event : clear implicits.

Section recording.

Context {Fn D : Type} (vote : Fn -> D -> bool).

Abbreviation reg := (gzochid_transaction_participant_registration Fn D).
Abbreviation st := (tx_thread Fn D (list (tx_event Fn D))).

Context (values : gmap string reg -> list reg).

Definition record (e : tx_event Fn D) (s : st) : st := set_world (world s ++ [e]) s.

Definition rec_prepare (f : Fn) (d : D) (s : st) : outcome (bool * st) :=
  Ret (vote f d, record (EvPrepare f d) s).

Definition rec_commit (f : Fn) (d : D) (s : st) : outcome st :=
  Ret (record (EvCommit f d) s).

Definition rec_rollback (f : Fn) (d : D) (s : st) : outcome st :=
  Ret (record (EvRollback f d) s).

(** A registration whose three callbacks are set. *)
Definition complete (r : reg) : Prop :=
  is_Some (p_prepare (participant r)) /\ is_Some (p_commit (participant r))
  /\ is_Some (p_rollback (participant r)).

Definition votes_yes (r : reg) : bool :=
  match p_prepare (participant r) with Some f => vote f (data r) | None => false end.

Definition prepares (l : list reg) : list (tx_event Fn D) :=
  omap (fun r => (fun f => EvPrepare f (data r)) <$> p_prepare (participant r)) l.
Definition commits (l : list reg) : list (tx_event Fn D) :=
  omap (fun r => (fun f => EvCommit f (data r)) <$> p_commit (participant r)) l.
Definition rollbacks (l : list reg) : list (tx_event Fn D) :=
  omap (fun r => (fun f => EvRollback f (data r)) <$> p_rollback (participant r)) l.

(** The participants that are asked to prepare: up to the first refusal. *)
Fixpoint asked (l : list reg) : list reg :=
  match l with
  | [] => []
  | r :: l' => if votes_yes r then r :: asked l' else [r]
  end.

Lemma prepare_loop_spec (l : list reg) (s : st) :
  Forall complete l ->
  prepare_loop rec_prepare l s
  = Ret (forallb votes_yes l, set_world (world s ++ prepares (asked l)) s).
Proof.
  intros Hl. revert s. induction Hl as [|r l (Hp & _ & _) _ IH]; intros s; simpl.
  { destruct s. by rewrite app_nil_r. }
  destruct Hp as [f Hf]. unfold votes_yes at 1 3. rewrite Hf. simpl deref. run.
  destruct (vote f (data r)); simpl.
  - rewrite IH. cbn [prepares omap list_omap]. rewrite Hf. simpl.
    unfold record, set_world. simpl. by rewrite <- app_assoc.
  - cbn [prepares omap list_omap]. by rewrite Hf.
Qed.

Lemma commit_loop_spec (l : list reg) (s : st) :
  Forall complete l ->
  commit_loop rec_commit l s = Ret (set_world (world s ++ commits l) s).
Proof.
  intros Hl. revert s. induction Hl as [|r l (_ & Hc & _) _ IH]; intros s; simpl.
  { destruct s. by rewrite app_nil_r. }
  destruct Hc as [f Hf]. rewrite Hf. simpl. rewrite IH.
  unfold record, set_world. simpl. by rewrite <- app_assoc.
Qed.

Lemma rollback_loop_spec (l : list reg) (s : st) :
  Forall complete l ->
  rollback_loop rec_rollback l s = Ret (set_world (world s ++ rollbacks l) s).
Proof.
  intros Hl. revert s. induction Hl as [|r l (_ & _ & Hr) _ IH]; intros s; simpl.
  { destruct s. by rewrite app_nil_r. }
  destruct Hr as [f Hf]. rewrite Hf. simpl. rewrite IH.
  unfold record, set_world. simpl. by rewrite <- app_assoc.
Qed.

Context (t : gzochid_transaction Fn D).
Context (Hcomplete : Forall complete (values (participants t))).

Lemma rollback_spec (x : gzochid_transaction_state) (s : st) :
  thread_transaction s = Some (set_tx_state x t) ->
  rollback rec_rollback values s
  = Ret (set_world (world s ++ rollbacks (values (participants t)))
           (set_transaction (Some (set_tx_state ROLLED_BACK t)) s)).
Proof.
  intros Ht. unfold rollback, set_state. rewrite Ht. simpl.
  by rewrite rollback_loop_spec by done.
Qed.

Lemma commit_spec (x : gzochid_transaction_state) (s : st) :
  thread_transaction s = Some (set_tx_state x t) ->
  commit rec_commit values s
  = Ret (set_world (world s ++ commits (values (participants t)))
           (set_transaction (Some (set_tx_state COMMITTED t)) s)).
Proof.
  intros Ht. unfold commit, set_state. rewrite Ht. simpl.
  by rewrite commit_loop_spec by done.
Qed.

Lemma prepare_spec (s : st) :
  thread_transaction s = Some t ->
  prepare rec_prepare values s
  = Ret (forallb votes_yes (values (participants t)),
         set_world (world s ++ prepares (asked (values (participants t))))
           (set_transaction (Some (set_tx_state PREPARING t)) s)).
Proof.
  intros Ht. unfold prepare, set_state. rewrite Ht. simpl.
  by rewrite prepare_loop_spec by done.
Qed.

Lemma set_tx_state_id : t = set_tx_state (tx_state t) t.
Proof. by destruct t. Qed.

Lemma asked_all (l : list reg) : forallb votes_yes l = true -> asked l = l.
Proof.
  induction l as [|r l IH]; simpl; [done|]. intros [Hr Hl]%andb_prop.
  rewrite Hr. f_equal. auto.
Qed.

(** What ending the transaction does, in terms of the enumeration of its
    participants. *)
Lemma end_spec (now : timeval) (tm : gzochid_transaction_timing) (s : st) :
  thread_transaction s = Some t -> thread_transaction_timing s = Some tm ->
  let l := values (participants t) in
  let timed_out :=
    bool_decide (is_Some (timeout tm)) && time_up (time_remaining tm now) in
  let ready := negb (rollback_only values t) && forallb votes_yes l in
  gzochid_transaction_end rec_prepare rec_commit rec_rollback values now s
  = Ret (if ready && negb timed_out then TX_SUCCESS
         else if ready || retryable values t then TX_SHOULD_RETRY else TX_FAILURE,
         TxThread None None (transaction_counter s)
           (world s ++
            (if rollback_only values t then [] else prepares (asked l)) ++
            (if ready && negb timed_out then commits l else rollbacks l))).
Proof.
  destruct s as [ot otm c w]. intros Ht Htm l timed_out ready. simpl in Ht, Htm. subst.
  unfold gzochid_transaction_end. cbn [thread_transaction thread_transaction_timing set_timing].
  subst ready. destruct (rollback_only values t) eqn:Hro; cbn [negb andb orb].
  { rewrite (rollback_spec (tx_state t)) by (simpl; f_equal; apply set_tx_state_id).
    run. simpl. done. }
  rewrite prepare_spec by done. run. fold l.
  destruct (forallb votes_yes l) eqn:Hv; cbn [negb andb orb].
  - simpl deref. run. fold timed_out. rewrite asked_all by done.
    destruct timed_out; cbn [negb].
    + rewrite (rollback_spec PREPARING) by done. run. simpl. by rewrite <- app_assoc.
    + rewrite (commit_spec PREPARING) by done. run. simpl. by rewrite <- app_assoc.
  - rewrite (rollback_spec PREPARING) by done. run. simpl. by rewrite <- app_assoc.
Qed.

End recording.

(** ** Time values in microseconds *)

Definition usecs (t : timeval) : Z := (tv_sec t * 1000000 + tv_usec t)%Z.
Definition normalised (t : timeval) : Prop := (0 <= tv_usec t < 1000000)%Z.

Lemma timersub_usecs (a b : timeval) :
  normalised a -> normalised b ->
  usecs (timersub a b) = (usecs a - usecs b)%Z /\ normalised (timersub a b).
Proof.
  unfold normalised, usecs, timersub. intros.
  destruct (Z.ltb_spec (tv_usec a - tv_usec b) 0); simpl; lia.
Qed.

Lemma timercmp_usecs (a b : timeval) :
  normalised a -> normalised b -> timercmp_lt a b = (usecs a <? usecs b)%Z.
Proof.
  unfold normalised, usecs, timercmp_lt. intros.
  destruct (Z.eqb_spec (tv_sec a) (tv_sec b)), (Z.ltb_spec (tv_usec a) (tv_usec b)),
    (Z.ltb_spec (tv_sec a) (tv_sec b)),
    (Z.ltb_spec (tv_sec a * 1000000 + tv_usec a) (tv_sec b * 1000000 + tv_usec b)); lia.
Qed.

Section enumeration.

Context {Fn D : Type}.
Abbreviation reg := (gzochid_transaction_participant_registration Fn D).
Context (values : gmap string reg -> list reg).
Context (values_perm : forall m, values m ≡ₚ (map_to_list m).*2).

Lemma elem_of_values (m : gmap string reg) (r : reg) :
  r ∈ values m <-> exists k, m !! k = Some r.
Proof.
  rewrite values_perm, list_elem_of_fmap. split.
  - intros ([k r'] & -> & H%elem_of_map_to_list). by exists k.
  - intros [k H]. exists (k, r). by rewrite elem_of_map_to_list.
Qed.

Lemma values_Forall (P : reg -> Prop) (m : gmap string reg) :
  map_Forall (fun _ r => P r) m <-> Forall P (values m).
Proof.
  rewrite Forall_forall. split.
  - intros H r [k Hk]%elem_of_values. by apply (H k).
  - intros H k r Hk. apply H, elem_of_values. by exists k.
Qed.

Lemma rollback_only_iff (t : gzochid_transaction Fn D) :
  rollback_only values t = true
  <-> exists k r, participants t !! k = Some r /\ marked_rollback r = true.
Proof.
  unfold rollback_only. rewrite existsb_exists. setoid_rewrite <- list_elem_of_In.
  setoid_rewrite elem_of_values. naive_solver.
Qed.

Lemma forallb_negb {A} (f : A -> bool) (l : list A) :
  forallb (fun x => negb (f x)) l = negb (existsb f l).
Proof. induction l as [|x l IH]; simpl; [done|]. rewrite IH. by destruct (f x). Qed.

Lemma not_retryable_iff (t : gzochid_transaction Fn D) :
  retryable values t = false
  <-> exists k r, participants t !! k = Some r
       /\ marked_rollback r = true /\ marked_retryable r = false.
Proof.
  unfold retryable. rewrite forallb_negb, negb_false_iff, existsb_exists.
  setoid_rewrite <- list_elem_of_In. setoid_rewrite elem_of_values.
  setoid_rewrite andb_true_iff. setoid_rewrite negb_true_iff. naive_solver.
Qed.

Lemma values_one (k : string) (a : reg) : values {[k := a]} = [a].
Proof.
  apply Permutation_length_1_inv, Permutation_sym. rewrite values_perm. by rewrite map_to_list_singleton.
Qed.

Lemma values_two (k1 k2 : string) (a b : reg) :
  k1 <> k2 ->
  values (<[k2 := b]> {[k1 := a]}) = [a; b] \/ values (<[k2 := b]> {[k1 := a]}) = [b; a].
Proof.
  intros Hne. assert (Hp : values (<[k2 := b]> {[k1 := a]}) ≡ₚ [b; a]).
  { rewrite values_perm, map_to_list_insert by (by rewrite lookup_singleton_ne).
    by rewrite map_to_list_singleton. }
  destruct (Permutation_length_2_inv (Permutation_sym Hp)) as [Hl|Hl]; rewrite Hl; auto.
Qed.

End enumeration.

Lemma asked_prefix {Fn D} (vote : Fn -> D -> bool) l : asked vote l `prefix_of` l.
Proof.
  induction l as [|r l IH]; simpl; [done|].
  destruct (votes_yes vote r); [by apply prefix_cons | by exists l].
Qed.

(** ** Properties *)

(** C18. Ending a transaction is atomic for its participants.  Either the result
    is success, and every participant was prepared once, agreed, and was then
    committed once, no participant being committed before all have prepared; or
    the result is not success, and after a prefix of the participants was
    prepared every participant was rolled back once and none was committed.  In
    both cases the thread is left without a transaction, and the outcome is
    success exactly when no participant was marked for rollback, all agreed and
    the time limit, if any, was not reached. *)
Theorem transaction_end_atomic {Fn D : Type} (vote : Fn -> D -> bool)
    (values : gmap string (gzochid_transaction_participant_registration Fn D)
              -> list (gzochid_transaction_participant_registration Fn D))
    (t : gzochid_transaction Fn D) (tm : gzochid_transaction_timing) (now : timeval)
    (s : tx_thread Fn D (list (tx_event Fn D))) :
  (forall m, values m ≡ₚ (map_to_list m).*2) ->
  map_Forall (fun _ r => complete r) (participants t) ->
  thread_transaction s = Some t -> thread_transaction_timing s = Some tm ->
  exists l res w,
    l ≡ₚ (map_to_list (participants t)).*2
    /\ gzochid_transaction_end (rec_prepare vote) rec_commit rec_rollback values now s
       = Ret (res, TxThread None None (transaction_counter s) (world s ++ w))
    /\ ((res = TX_SUCCESS /\ w = prepares l ++ commits l
         /\ map_Forall (fun _ r => marked_rollback r = false
                          /\ votes_yes vote r = true) (participants t)
         /\ (is_Some (timeout tm) -> time_up (time_remaining tm now) = false))
        \/ (res <> TX_SUCCESS
           /\ exists q, q `prefix_of` l /\ w = prepares q ++ rollbacks l)).
Proof.
  intros Hperm Hc Ht Htm.
  assert (Hcomp := proj1 (values_Forall values Hperm _ _) Hc).
  rewrite (end_spec vote values t Hcomp now tm s Ht Htm).
  set (l := values (participants t)).
  eexists l, _, _. split; [apply Hperm|]. split; [reflexivity|].
  destruct (rollback_only values t) eqn:Hro; cbn [negb andb orb].
  { right. split; [by destruct (retryable values t)|].
    exists []. split; [apply prefix_nil | done]. }
  destruct (forallb (votes_yes vote) l) eqn:Hv; cbn [negb andb orb].
  2:{ right. split; [by destruct (retryable values t)|].
      exists (asked vote l). split; [apply asked_prefix | done]. }
  rewrite asked_all by done.
  destruct (bool_decide (is_Some (timeout tm)) && time_up (time_remaining tm now))
    eqn:Hto; cbn [negb].
  { right. split; [done|]. by exists l. }
  left. split_and!; [done | done | |].
  - intros k r Hk. split.
    + apply not_true_iff_false. intros Hm.
      assert (rollback_only values t = true); [|congruence].
      apply rollback_only_iff; eauto.
    + rewrite forallb_forall in Hv. apply Hv, list_elem_of_In, elem_of_values; eauto.
  - intros Hs. rewrite bool_decide_eq_true_2 in Hto by done. by apply andb_false_iff in Hto as [?|?].
Qed.

(** The transaction used by the witnesses: two participants that agree. *)
Definition sample_tx : gzochid_transaction nat nat :=
  Transaction 7 (<["data" := TxRegistration
                     (TxParticipant "data" (Some 1) (Some 2) (Some 3)) 10 false false]>
                {["log" := TxRegistration
                     (TxParticipant "log" (Some 4) (Some 5) (Some 6)) 11 false false]})%nat
    ACTIVE None.

Lemma sample_tx_complete : map_Forall (fun _ r => complete r) (participants sample_tx).
Proof.
  apply map_Forall_insert_2; [|apply map_Forall_singleton];
    split_and!; simpl; eauto.
Qed.

Lemma transaction_end_atomic_witness :
  exists l res w,
    l ≡ₚ (map_to_list (participants sample_tx)).*2
    /\ gzochid_transaction_end (rec_prepare (fun _ _ => true)) rec_commit rec_rollback
         (fun m => (map_to_list m).*2) (Timeval 5 0)
         (TxThread (Some sample_tx) (Some (TxTiming (Timeval 4 0) None)) 8 [])
       = Ret (res, TxThread None None 8 ([] ++ w))
    /\ ((res = TX_SUCCESS /\ w = prepares l ++ commits l
         /\ map_Forall (fun _ r => marked_rollback r = false
              /\ votes_yes (fun _ _ => true) r = true) (participants sample_tx)
         /\ (is_Some (timeout (TxTiming (Timeval 4 0) None)) ->
             time_up (time_remaining (TxTiming (Timeval 4 0) None) (Timeval 5 0)) = false))
        \/ (res <> TX_SUCCESS
           /\ exists q, q `prefix_of` l /\ w = prepares q ++ rollbacks l)).
Proof.
  apply (transaction_end_atomic (fun _ _ => true) (fun m => (map_to_list m).*2) sample_tx
    (TxTiming (Timeval 4 0) None) (Timeval 5 0)
    (TxThread (Some sample_tx) (Some (TxTiming (Timeval 4 0) None)) 8 []));
    [done | apply sample_tx_complete | done | done].
Defined.

(** The result of a transaction that does not succeed is to retry, unless a
    participant marked it for rollback as not retryable: in particular a
    participant that merely refuses to prepare, and a transaction that ran out
    of time, are retried.  The result is never [PENDING]. *)
Theorem transaction_end_result {Fn D : Type} (vote : Fn -> D -> bool)
    (values : gmap string (gzochid_transaction_participant_registration Fn D)
              -> list (gzochid_transaction_participant_registration Fn D))
    (t : gzochid_transaction Fn D) (tm : gzochid_transaction_timing) (now : timeval)
    (s : tx_thread Fn D (list (tx_event Fn D))) :
  (forall m, values m ≡ₚ (map_to_list m).*2) ->
  map_Forall (fun _ r => complete r) (participants t) ->
  thread_transaction s = Some t -> thread_transaction_timing s = Some tm ->
  exists res s',
    gzochid_transaction_end (rec_prepare vote) rec_commit rec_rollback values now s
    = Ret (res, s')
    /\ res <> TX_PENDING
    /\ (res = TX_FAILURE <->
        exists k r, participants t !! k = Some r
          /\ marked_rollback r = true /\ marked_retryable r = false).
Proof.
  intros Hperm Hc Ht Htm.
  assert (Hcomp := proj1 (values_Forall values Hperm _ _) Hc).
  rewrite (end_spec vote values t Hcomp now tm s Ht Htm).
  eexists _, _. split; [reflexivity|].
  rewrite <- (not_retryable_iff values Hperm).
  assert (Hro : retryable values t = false -> rollback_only values t = true).
  { rewrite not_retryable_iff, rollback_only_iff by done. naive_solver. }
  destruct (retryable values t).
  - split; [|split; [|done]]; by repeat case_match; rewrite ?orb_true_r in *.
  - rewrite Hro by done. simpl. by split.
Qed.

Lemma transaction_end_result_witness :
  exists res s',
    gzochid_transaction_end (rec_prepare (fun _ _ => false)) rec_commit rec_rollback
      (fun m => (map_to_list m).*2) (Timeval 5 0)
      (TxThread (Some sample_tx) (Some (TxTiming (Timeval 4 0) None)) 8 [])
    = Ret (res, s')
    /\ res <> TX_PENDING
    /\ (res = TX_FAILURE <->
        exists k r, participants sample_tx !! k = Some r
          /\ marked_rollback r = true /\ marked_retryable r = false).
Proof.
  apply (transaction_end_result (fun _ _ => false) (fun m => (map_to_list m).*2) sample_tx
    (TxTiming (Timeval 4 0) None) (Timeval 5 0)
    (TxThread (Some sample_tx) (Some (TxTiming (Timeval 4 0) None)) 8 []));
    [done | apply sample_tx_complete | done | done].
Defined.

(** Joining the thread's transaction registers the participant under its
    name with its data the first time, creating the transaction if there is
    none, and changes nothing the second time, so that the first data are kept;
    other participants are untouched.  Joining a transaction that is no longer
    active fails the assertion. *)
Theorem transaction_join_spec {Fn D W : Type} (p : gzochid_transaction_participant Fn)
    (d : D) (s : tx_thread Fn D W) :
  match thread_transaction s with
  | Some t =>
      (tx_state t <> ACTIVE -> gzochid_transaction_join p d s = Abort)
      /\ (tx_state t = ACTIVE -> exists s',
           gzochid_transaction_join p d s = Ret s' /\ world s' = world s
           /\ gzochid_transaction_context p s'
              = Ret (Some (default d (data <$> participants t !! p_name p)))
           /\ (forall q, p_name q <> p_name p ->
                gzochid_transaction_context q s' = gzochid_transaction_context q s))
  | None => exists s',
      gzochid_transaction_join p d s = Ret s' /\ world s' = world s
      /\ gzochid_transaction_active s' = true
      /\ gzochid_transaction_context p s' = Ret (Some d)
      /\ (forall q, p_name q <> p_name p ->
           gzochid_transaction_context q s' = Ret None)
  end.
Proof.
  unfold gzochid_transaction_join, gzochid_transaction_context, gzochid_transaction_active.
  destruct (thread_transaction s) as [t|] eqn:Ht; [split|]; simpl.
  - intros Hne. by rewrite bool_decide_eq_false_2.
  - intros Ha. rewrite bool_decide_eq_true_2 by done. run.
    destruct (participants t !! p_name p) as [r|] eqn:Hr; simpl.
    + exists s. rewrite Ht, Hr. by split_and!.
    + rewrite Hr. eexists. split_and!; [done | done | by simpl; simplify_map_eq |].
      intros q Hq. simpl. by simplify_map_eq.
  - eexists. split_and!; [done..| by simpl; simplify_map_eq |].
    intros q Hq. simpl. by simplify_map_eq.
Qed.

(** For normalised time values, the time remaining of a timed transaction is
    its limit less the time elapsed since it began, and zero once that is
    negative; it counts as up exactly when the elapsed time has reached the
    limit. *)
Theorem time_remaining_spec (start limit now : timeval) :
  normalised start -> normalised limit -> normalised now ->
  let remaining := time_remaining (TxTiming start (Some limit)) now in
  usecs remaining = Z.max 0 (usecs limit - (usecs now - usecs start))
  /\ (time_up remaining = true <-> (usecs limit <= usecs now - usecs start)%Z).
Proof.
  intros Hs Hl Hn. unfold time_remaining. cbn [timeout start_time].
  destruct (timersub_usecs now start Hn Hs) as [Hu Hnorm].
  rewrite timercmp_usecs by done.
  destruct (Z.ltb_spec (usecs limit) (usecs (timersub now start))) as [Hlt|Hge].
  - unfold usecs at 1. simpl. unfold time_up. simpl. split; [lia|]. split; [lia | done].
  - destruct (timersub_usecs limit (timersub now start) Hl Hnorm) as [Hu2 Hn2].
    split; [lia|]. unfold time_up. rewrite andb_true_iff, !Z.leb_le.
    unfold normalised, usecs in *. lia.
Qed.

Lemma time_remaining_spec_witness :
  let remaining := time_remaining (TxTiming (Timeval 10 900000) (Some (Timeval 2 0)))
                     (Timeval 12 100000) in
  usecs remaining
  = Z.max 0 (usecs (Timeval 2 0) - (usecs (Timeval 12 100000) - usecs (Timeval 10 900000)))
  /\ (time_up remaining = true
      <-> (usecs (Timeval 2 0) <= usecs (Timeval 12 100000) - usecs (Timeval 10 900000))%Z).
Proof.
  apply (time_remaining_spec (Timeval 10 900000) (Timeval 2 0) (Timeval 12 100000));
    split; simpl; lia.
Defined.
