(* ===== verification/TxLog.v ===== *)
(** * Transactional logging (gzochi-server/src/txlog.c)

    Messages logged inside of a transaction are kept in a context that belongs
    to the "log" participant of the transaction and reach the log when, and only
    when, the transaction commits.  The contexts live in a store indexed by
    their addresses, because the registration of the participant and the
    logging functions share them. *)

From S2P Require Import Prelude.
From S2P Require Import Tx.

Record gzochid_log_message := LogMessage {
  priority : Z;
  msg : string
}.

(** The callbacks of the "log" participant, and those of any other. *)
Inductive log_fn :=
| LogPrepare
| LogCommit
| LogRollback
| OtherFn (n : nat).

(** The store of message contexts, the next address and the log itself. *)
Record log_world := LogWorld {
  contexts : gmap positive (list gzochid_log_message);
  next_context : positive;
  log_output : list gzochid_log_message
}.

Abbreviation log_st := (tx_thread log_fn positive log_world).

Definition create_transaction_context (w : log_world) : positive * log_world :=
  (next_context w,
   LogWorld (<[next_context w := []]> (contexts w)) (Pos.succ (next_context w))
     (log_output w)).

Definition log_prepare (s : log_st) : outcome (bool * log_st) := Ret (true, s).

(** Freeing a context: its address is no longer valid. *)
Definition cleanup_transaction (d : positive) (w : log_world) : outcome log_world :=
  _ ← deref (contexts w !! d);
  Ret (LogWorld (base.delete d (contexts w)) (next_context w) (log_output w)).

Definition commit_message (m : gzochid_log_message) (w : log_world) : log_world :=
  LogWorld (contexts w) (next_context w) (log_output w ++ [m]).

Definition log_commit (d : positive) (s : log_st) : outcome log_st :=
  ms ← deref (contexts (world s) !! d);
  let w := foldl (fun w m => commit_message m w) (world s) ms in
  w ← cleanup_transaction d w;
  Ret (set_world w s).

Definition log_rollback (d : positive) (s : log_st) : outcome log_st :=
  w ← cleanup_transaction d (world s);
  Ret (set_world w s).

Definition log_participant : gzochid_transaction_participant log_fn :=
  TxParticipant "log" (Some LogPrepare) (Some LogCommit) (Some LogRollback).

Definition join_transaction (s : log_st) : outcome (option positive * log_st) :=
  joined ← (if gzochid_transaction_active s
            then c ← gzochid_transaction_context log_participant s;
                 Ret (bool_decide (is_Some c))
            else Ret false);
  s ← (if negb joined
       then let '(d, w) := create_transaction_context (world s) in
            gzochid_transaction_join log_participant d (set_world w s)
       else Ret s);
  c ← gzochid_transaction_context log_participant s;
  Ret (c, s).

(** [m] is the formatted message. *)
Definition gzochid_tx_vlog (p : Z) (m : string) (s : log_st) : outcome log_st :=
  '(c, s) ← join_transaction s;
  d ← deref c;
  ms ← deref (contexts (world s) !! d);
  Ret (set_world (LogWorld (<[d := ms ++ [LogMessage p m]]> (contexts (world s)))
                    (next_context (world s)) (log_output (world s))) s).

Definition gzochid_tx_log (p : Z) (m : string) (s : log_st) : outcome log_st :=
  gzochid_tx_vlog p m s.

(** GLib's log levels are single bits from 3 on. *)
Definition gzochid_tx_err (m : string) (s : log_st) := gzochid_tx_vlog 8 m s.
Definition gzochid_tx_warning (m : string) (s : log_st) := gzochid_tx_vlog 16 m s.
Definition gzochid_tx_notice (m : string) (s : log_st) := gzochid_tx_vlog 32 m s.
Definition gzochid_tx_info (m : string) (s : log_st) := gzochid_tx_vlog 64 m s.
Definition gzochid_tx_debug (m : string) (s : log_st) := gzochid_tx_vlog 128 m s.

(** The meaning of the callbacks; the other participants vote and do nothing to
    the log. *)
Section log.

Context (vote : nat -> bool).

Definition log_call_prepare (f : log_fn) (d : positive) (s : log_st)
  : outcome (bool * log_st) :=
  match f with
  | OtherFn n => Ret (vote n, s)
  | _ => log_prepare s
  end.

Definition log_call_commit (f : log_fn) (d : positive) (s : log_st) : outcome log_st :=
  match f with OtherFn _ => Ret s | _ => log_commit d s end.

Definition log_call_rollback (f : log_fn) (d : positive) (s : log_st) : outcome log_st :=
  match f with OtherFn _ => Ret s | _ => log_rollback d s end.

(** Log a sequence of messages. *)
Fixpoint log_all (ms : list gzochid_log_message) (s : log_st) : outcome log_st :=
  match ms with
  | [] => Ret s
  | m :: ms' => s ← gzochid_tx_log (priority m) (msg m) s; log_all ms' s
  end.

(** ** Lemmas *)

(** The thread is in an active transaction with at least the log participant,
    whose context [d] holds [ms]. *)
Definition logging (d : positive) (ms : list gzochid_log_message)
    (t : gzochid_transaction log_fn positive) (s : log_st) : Prop :=
  thread_transaction s = Some t /\ tx_state t = ACTIVE
  /\ participants t !! "log" = Some (TxRegistration log_participant d false false)
  /\ contexts (world s) !! d = Some ms.

Definition put_messages (d : positive) (ms : list gzochid_log_message) (s : log_st)
  : log_st :=
  set_world (LogWorld (<[d := ms]> (contexts (world s)))
               (next_context (world s)) (log_output (world s))) s.

Lemma vlog_joined (d : positive) ms t s p m :
  logging d ms t s ->
  gzochid_tx_vlog p m s = Ret (put_messages d (ms ++ [LogMessage p m]) s).
Proof.
  intros (Ht & Ha & Hp & Hc). unfold gzochid_tx_vlog, join_transaction.
  unfold gzochid_transaction_active, gzochid_transaction_context.
  rewrite Ht, bool_decide_eq_true_2 by done. simpl p_name. rewrite Hp. simpl. rewrite Ht.
  rewrite Hp. simpl. by rewrite Hc.
Qed.

Lemma logging_put d ms ms' t s : logging d ms t s -> logging d ms' t (put_messages d ms' s).
Proof. intros (? & ? & ? & ?). split_and!; simpl; try done. by simplify_map_eq. Qed.

Lemma put_put d ms ms' s : put_messages d ms' (put_messages d ms s) = put_messages d ms' s.
Proof. unfold put_messages, set_world. simpl. by rewrite insert_insert_eq. Qed.

Lemma log_all_joined (ms new : list gzochid_log_message) d t s :
  logging d ms t s -> new <> [] ->
  log_all new s = Ret (put_messages d (ms ++ new) s).
Proof.
  revert ms s. induction new as [|[p m] new IH]; intros ms s Hl Hne; [done|]. simpl.
  unfold gzochid_tx_log. rewrite (vlog_joined d ms t) by done. run.
  destruct (decide (new = [])) as [->|Hn]; [done|].
  rewrite (IH (ms ++ [LogMessage p m])) by (eauto using logging_put).
  by rewrite put_put, <- app_assoc.
Qed.

(** What [log_all] does to a thread without a transaction. *)
Definition logged (new : list gzochid_log_message) (s : log_st) : log_st :=
  let d := next_context (world s) in
  TxThread
    (Some (Transaction (transaction_counter s)
             {["log" := TxRegistration log_participant d false false]}
             ACTIVE (thread_transaction_timing s)))
    (thread_transaction_timing s) (u64 (transaction_counter s + 1))
    (LogWorld (<[d := new]> (contexts (world s))) (Pos.succ d) (log_output (world s))).

Lemma log_all_fresh (new : list gzochid_log_message) (s : log_st) :
  thread_transaction s = None -> new <> [] -> log_all new s = Ret (logged new s).
Proof.
  intros Ht Hne. destruct new as [|[p m] new]; [done|]. simpl.
  assert (Hfirst : gzochid_tx_log p m s = Ret (logged [LogMessage p m] s)).
  { destruct s as [ot tm c [ctx d out]]. simpl in Ht. subst ot.
    unfold gzochid_tx_log, gzochid_tx_vlog, join_transaction, gzochid_transaction_join.
    simpl. unfold gzochid_transaction_context. simpl. simplify_map_eq.
    unfold logged, set_world, set_transaction, set_participants. simpl.
    by rewrite insert_insert_eq, insert_empty. }
  rewrite Hfirst. run. destruct (decide (new = [])) as [->|Hn]; [done|].
  erewrite (log_all_joined [LogMessage p m] new (next_context (world s))); [|split_and!|done].
  - unfold put_messages, logged, set_world. simpl. by rewrite insert_insert_eq.
  - done.
  - done.
  - simpl. by simplify_map_eq.
  - simpl. by simplify_map_eq.
Qed.

Lemma commit_messages (ms : list gzochid_log_message) (w : log_world) :
  foldl (fun w m => commit_message m w) w ms
  = LogWorld (contexts w) (next_context w) (log_output w ++ ms).
Proof.
  revert w. induction ms as [|m ms IH]; intros w; simpl.
  { destruct w. by rewrite app_nil_r. }
  rewrite IH. simpl. by rewrite <- app_assoc.
Qed.

End log.

(** Another participant, which agrees or refuses to prepare as [vote n]. *)
Definition other_participant (n : nat) : gzochid_transaction_participant log_fn :=
  TxParticipant "other" (Some (OtherFn n)) (Some (OtherFn n)) (Some (OtherFn n)).

(** The body of a transaction that logs and that another participant joins. *)
Definition log_and_join (new : list gzochid_log_message) (n : nat) (s : log_st)
  : outcome log_st :=
  s ← log_all new s;
  gzochid_transaction_join (other_participant n) 1%positive s.

(** ** Properties *)

(** Messages logged in a transaction reach the log in order if the
    transaction commits, and none of them does if another participant refuses;
    either way the context that held them is freed and no other context is
    touched. *)
Theorem tx_log_atomic
    (values : gmap string (gzochid_transaction_participant_registration log_fn positive)
              -> list (gzochid_transaction_participant_registration log_fn positive))
    (vote : nat -> bool) (n : nat) (new : list gzochid_log_message)
    (t0 t1 : timeval) (s : log_st) :
  (forall m, values m ≡ₚ (map_to_list m).*2) ->
  thread_transaction s = None -> new <> [] ->
  contexts (world s) !! next_context (world s) = None ->
  exists res s',
    gzochid_transaction_execute (log_call_prepare vote) log_call_commit
      log_call_rollback values (log_and_join new n) t0 t1 s = Ret (res, s')
    /\ contexts (world s') = contexts (world s)
    /\ (if vote n
        then res = TX_SUCCESS /\ log_output (world s') = log_output (world s) ++ new
        else res = TX_SHOULD_RETRY /\ log_output (world s') = log_output (world s)).
Proof.
  intros Hperm Ht Hne Hfresh.
  destruct s as [ot tm c [ctx d out]]. simpl in Ht, Hfresh. subst ot.
  unfold gzochid_transaction_execute, log_and_join.
  rewrite log_all_fresh by done. run.
  unfold gzochid_transaction_join, logged. cbn [thread_transaction]. simpl c_assert. run.
  simpl. rewrite lookup_singleton_ne by done. run.
  unfold gzochid_transaction_end. cbn [set_transaction set_timing thread_transaction
    set_participants]. unfold rollback_only. cbn [participants].
  assert (Hdel : base.delete d (<[d := new]> ctx) = ctx)
    by (by apply delete_insert_id).
  set (rl := TxRegistration log_participant d false false).
  set (ro := TxRegistration (other_participant n) 1%positive false false).
  unfold prepare, rollback, commit, retryable, set_state.
  cbn [thread_transaction set_transaction deref participants set_tx_state]. simpl.
  destruct (values_two values Hperm "log" "other" rl ro ltac:(done)) as [Hv|Hv]; rewrite !Hv; simpl;
    destruct (vote n); simpl; rewrite ?Hv; simpl;
    unfold log_commit, log_rollback, cleanup_transaction; simpl;
    rewrite lookup_insert_eq; simpl; rewrite ?commit_messages; simpl;
    rewrite ?lookup_insert_eq; simpl; rewrite ?Hv; simpl;
    (eexists _, _; split_and!; [reflexivity | exact Hdel | reflexivity | reflexivity]).
Qed.

Lemma tx_log_atomic_witness :
  exists res s',
    gzochid_transaction_execute (log_call_prepare (fun _ => false)) log_call_commit
      log_call_rollback (fun m => (map_to_list m).*2)
      (log_and_join [LogMessage 16 "low disk"; LogMessage 64 "done"] 3)
      (Timeval 0 0) (Timeval 1 0)
      (TxThread None None 0 (LogWorld ∅ 1 [LogMessage 64 "up"])) = Ret (res, s')
    /\ contexts (world s') = ∅
    /\ (res = TX_SHOULD_RETRY /\ log_output (world s') = [LogMessage 64 "up"]).
Proof.
  apply (tx_log_atomic (fun m => (map_to_list m).*2) (fun _ => false) 3
    [LogMessage 16 "low disk"; LogMessage 64 "done"] (Timeval 0 0) (Timeval 1 0)
    (TxThread None None 0 (LogWorld ∅ 1 [LogMessage 64 "up"])));
    [done | done | done | apply lookup_empty].
Defined.
