(* ===== verification/AppTask.v ===== *)
(** * Application tasks (app-task.c)

    How a task of an application is attempted in transactions: up to a number of times,
    with another task to run when it fails for good, and one to clean up in the end.
    The two workers do this in place and by way of the task queue.  Reference counts
    have no counterpart here; a task is a closure. *)

From S2P Require Import Prelude.
From S2P Require Import Tx.

Local Open Scope Z_scope.

#[export] Instance transaction_result_eq_dec : EqDecision gzochid_transaction_result.
Proof. solve_decision. Defined.

(** ** Transactions of an application

    A participant dispatches the events of the transaction.  The clock is part of the
    world. *)

Inductive event_fn := EventPrepare | EventCommit | EventRollback | OtherFn (n : nat).

Inductive transaction_event :=
| TRANSACTION_START (app : bytes)
| TRANSACTION_COMMIT (app : bytes) (duration_us : Z)
| TRANSACTION_ROLLBACK (app : bytes) (duration_us : Z).

Record gzochid_event_transaction_context := EventContext { app_context : bytes; start_time : Z }.

Record event_world (Y : Type) := EventWorld {
  event_contexts : gmap positive gzochid_event_transaction_context;
  monotonic_time : Z;
  dispatched : list transaction_event;
  others : Y
}.
Arguments EventWorld {Y}.
Arguments event_contexts {Y}.
Arguments monotonic_time {Y}.
Arguments dispatched {Y}.
Arguments others {Y}.

Section events.

Context {Y : Type}.
Abbreviation st := (tx_thread event_fn positive (event_world Y)).

Definition event_dispatch (e : transaction_event) (s : st) : st :=
  set_world (EventWorld (event_contexts (world s)) (monotonic_time (world s))
               (dispatched (world s) ++ [e]) (others (world s))) s.

Definition set_event_contexts (m : gmap positive gzochid_event_transaction_context) (s : st) : st :=
  set_world (EventWorld m (monotonic_time (world s)) (dispatched (world s)) (others (world s))) s.

Definition create_transaction_context (app : bytes) (s : st) : positive * st :=
  let d := fresh (dom (event_contexts (world s))) in
  (d, set_event_contexts (<[d := EventContext app (monotonic_time (world s))]>
                            (event_contexts (world s))) s).

Definition event_prepare (s : st) : outcome (bool * st) := Ret (true, s).

(** The duration is a [guint64]. *)
Definition event_end (event : bytes -> Z -> transaction_event) (d : positive) (s : st) : outcome st :=
  c ← deref (event_contexts (world s) !! d);
  let duration_us := u64 (monotonic_time (world s) - start_time c) in
  let s := event_dispatch (event (app_context c) duration_us) s in
  Ret (set_event_contexts (delete d (event_contexts (world s))) s).

Definition event_commit : positive -> st -> outcome st := event_end TRANSACTION_COMMIT.
Definition event_rollback : positive -> st -> outcome st := event_end TRANSACTION_ROLLBACK.

Definition event_participant : gzochid_transaction_participant event_fn :=
  TxParticipant "event" (Some EventPrepare) (Some EventCommit) (Some EventRollback).

Definition join_transaction (app : bytes) (s : st) : outcome st :=
  joined ← (if gzochid_transaction_active s
            then gzochid_transaction_context event_participant s
            else Ret None);
  match joined with
  | Some _ => Ret s
  | None =>
      let '(d, s) := create_transaction_context app s in
      gzochid_transaction_join event_participant d s
  end.

Definition event_func_wrapper (app : bytes) (func : st -> outcome st) (s : st) : outcome st :=
  s ← join_transaction app s;
  func (event_dispatch (TRANSACTION_START app) s).

(** The meaning of the callbacks; what others prepare, commit and roll back is given. *)
Context (other_prepare : nat -> positive -> st -> outcome (bool * st)).
Context (other_commit other_rollback : nat -> positive -> st -> outcome st).
Context (values : gmap string (gzochid_transaction_participant_registration event_fn positive) ->
  list (gzochid_transaction_participant_registration event_fn positive)).

Definition call_prepare (f : event_fn) (d : positive) (s : st) : outcome (bool * st) :=
  match f with OtherFn n => other_prepare n d s | _ => event_prepare s end.
Definition call_commit (f : event_fn) (d : positive) (s : st) : outcome st :=
  match f with OtherFn n => other_commit n d s | _ => event_commit d s end.
Definition call_rollback (f : event_fn) (d : positive) (s : st) : outcome st :=
  match f with OtherFn n => other_rollback n d s | _ => event_rollback d s end.

Definition gzochid_application_transaction_execute (app : bytes) (func : st -> outcome st)
    (t0 t1 : timeval) (s : st) : outcome (gzochid_transaction_result * st) :=
  gzochid_transaction_execute call_prepare call_commit call_rollback values
    (event_func_wrapper app func) t0 t1 s.

Definition gzochid_application_transaction_execute_timed (app : bytes) (func : st -> outcome st)
    (timeout : timeval) (t0 t1 : timeval) (s : st) : outcome (gzochid_transaction_result * st) :=
  gzochid_transaction_execute_timed call_prepare call_commit call_rollback values
    (event_func_wrapper app func) timeout t0 t1 s.

End events.

(** ** Executions *)

Definition GZOCHID_APPLICATION_MAX_ATTEMPTS_DEFAULT : Z := 3.

Section tasks.

(** A task of type [Tk] can be run in a transaction of the application, with a limit on
    its time or not, and outside of one. *)
Context {Tk St : Type}.
Context (transaction_execute : option timeval -> Tk -> St -> outcome (gzochid_transaction_result * St)).
Context (worker : Tk -> St -> outcome St).

Record gzochid_transactional_application_task_execution := Execution {
  task : Tk;
  catch_task : option Tk;
  cleanup_task : option Tk;
  timeout : option timeval;
  attempts : Z;
  max_attempts : Z;
  result : gzochid_transaction_result
}.
Abbreviation execution := gzochid_transactional_application_task_execution.

Definition execution_new (task : Tk) (catch_task cleanup_task : option Tk) (timeout : option timeval)
  : execution :=
  Execution task catch_task cleanup_task timeout 0 GZOCHID_APPLICATION_MAX_ATTEMPTS_DEFAULT TX_PENDING.

Definition gzochid_transactional_application_task_execution_new (task : Tk)
    (catch_task cleanup_task : option Tk) : execution :=
  execution_new task catch_task cleanup_task None.

Definition gzochid_transactional_application_task_timed_execution_new (task : Tk)
    (catch_task cleanup_task : option Tk) (timeout : timeval) : execution :=
  execution_new task catch_task cleanup_task (Some timeout).

Definition set_max_attempts (n : Z) (e : execution) : execution :=
  Execution (task e) (catch_task e) (cleanup_task e) (timeout e) (attempts e) n (result e).

Definition set_result (r : gzochid_transaction_result) (e : execution) : execution :=
  Execution (task e) (catch_task e) (cleanup_task e) (timeout e) (attempts e) (max_attempts e) r.

Definition gzochid_application_transactional_task_worker (e : execution) (s : St)
  : outcome (execution * St) :=
  '(r, s) ← transaction_execute (timeout e) (task e) s;
  Ret (Execution (task e) (catch_task e) (cleanup_task e) (timeout e) (u32 (attempts e + 1))
         (max_attempts e) r, s).

Definition gzochid_application_should_retry (e : execution) : bool :=
  bool_decide (result e = TX_SHOULD_RETRY) && (attempts e <? max_attempts e).

(** The loop of the re-executing worker. *)
Fixpoint attempt_loop (fuel : nat) (e : execution) (s : St) : outcome (execution * St) :=
  match fuel with
  | O => Fuel
  | S fuel =>
      '(e, s) ← gzochid_application_transactional_task_worker e s;
      if gzochid_application_should_retry e then attempt_loop fuel e s else Ret (e, s)
  end.

Definition failed (e : execution) : bool := negb (bool_decide (result e = TX_SUCCESS)).

Definition cleanup (e : execution) (s : St) : outcome St :=
  match cleanup_task e with Some t => worker t s | None => Ret s end.

(** [depth] bounds the nesting of executions of catch tasks. *)
Fixpoint gzochid_application_reexecuting_transactional_task_worker (depth fuel : nat) (e : execution)
    (s : St) : outcome St :=
  match depth with
  | O => Fuel
  | S depth =>
      '(e, s) ← attempt_loop fuel e s;
      s ← (match catch_task e with
           | Some c =>
               if failed e then
                 let catch_execution := set_max_attempts 1 (execution_new c None None (timeout e)) in
                 gzochid_application_reexecuting_transactional_task_worker depth fuel catch_execution s
               else Ret s
           | None => Ret s
           end);
      cleanup e s
  end.

(** What the resubmitting worker puts in the task queue. *)
Inductive submitted := Resubmit (e : execution) | Run (t : Tk).

Definition gzochid_application_resubmitting_transactional_task_worker (e : execution) (s : St)
  : outcome (option submitted * St) :=
  '(e, s) ← gzochid_application_transactional_task_worker e s;
  Ret (if gzochid_application_should_retry e then Some (Resubmit (set_result TX_PENDING e))
       else match catch_task e with
       | Some c =>
           if failed e then Some (Resubmit (set_max_attempts 1
             (gzochid_transactional_application_task_execution_new c None (cleanup_task e))))
           else Run <$> cleanup_task e
       | None => Run <$> cleanup_task e
       end, s).

(** A thread of the queue that runs one task and those that follow from it. *)
Definition run_submitted (x : submitted) (s : St) : outcome (option submitted * St) :=
  match x with
  | Resubmit e => gzochid_application_resubmitting_transactional_task_worker e s
  | Run t => s ← worker t s; Ret (None, s)
  end.

Fixpoint run_queue (fuel : nat) (x : option submitted) (s : St) : outcome St :=
  match x with
  | None => Ret s
  | Some x =>
      match fuel with
      | O => Fuel
      | S fuel => '(x, s) ← run_submitted x s; run_queue fuel x s
      end
  end.

(** ** What an execution comes to

    The specification: attempts until one does not ask to be retried or they are used
    up; if the last was not a success, one attempt of the catch task; then the cleanup
    task, outside of a transaction. *)

Inductive attempted (limit : option timeval) (t : Tk) : nat -> St -> gzochid_transaction_result -> St -> Prop :=
| Attempt_last n s r s' :
    transaction_execute limit t s = Ret (r, s') -> (r = TX_SHOULD_RETRY -> n = 1%nat) -> (1 <= n)%nat ->
    attempted limit t n s r s'
| Attempt_again n s s1 r s' :
    transaction_execute limit t s = Ret (TX_SHOULD_RETRY, s1) -> attempted limit t n s1 r s' ->
    attempted limit t (S n) s r s'.

Definition executed (catch_limit : option timeval) (e : execution) (s s' : St) : Prop :=
  exists r s1 s2,
    attempted (timeout e) (task e) (Z.to_nat (max_attempts e)) s r s1
    /\ match catch_task e with
       | Some c =>
           if decide (r = TX_SUCCESS) then s2 = s1
           else exists r', transaction_execute catch_limit c s1 = Ret (r', s2)
       | None => s2 = s1
       end
    /\ match cleanup_task e with Some t => worker t s2 = Ret s' | None => s' = s2 end.

(** What every transaction and every task keeps, an execution keeps. *)
Lemma attempt_keeps (P : St -> Prop) (e e' : execution) (s s' : St) :
  (forall limit t s r s', transaction_execute limit t s = Ret (r, s') -> P s -> P s') ->
  gzochid_application_transactional_task_worker e s = Ret (e', s') -> P s -> P s'.
Proof.
  intros HP ([r s1] & Hr & [= <- <-])%bind_Ret. by eapply HP.
Qed.

Lemma reexecuting_keeps (P : St -> Prop) (depth fuel : nat) (e : execution) (s s' : St) :
  (forall limit t s r s', transaction_execute limit t s = Ret (r, s') -> P s -> P s') ->
  (forall t s s', worker t s = Ret s' -> P s -> P s') ->
  gzochid_application_reexecuting_transactional_task_worker depth fuel e s = Ret s' -> P s -> P s'.
Proof.
  intros HP HW. revert e s s'. induction depth as [|depth IH]; intros e s s' Hrun HPs; [done|].
  apply bind_Ret in Hrun as ([e1 s1] & Hl & Hrun).
  assert (HP1 : P s1).
  { clear IH Hrun. revert e s Hl HPs. induction fuel as [|fuel IHf]; intros e s Hl HPs; [done|].
    apply bind_Ret in Hl as ([e2 s2] & H1 & Hl).
    assert (P s2) by (by eapply attempt_keeps). case_match; [by eapply IHf|by injection Hl as <- <-]. }
  apply bind_Ret in Hrun as (s2 & Hcatch & Hclean).
  assert (HP2 : P s2).
  { destruct (catch_task e1) as [c|]; [destruct (failed e1)|]; [by eapply IH|by injection Hcatch as <-..]. }
  unfold cleanup in Hclean. destruct (cleanup_task e1); [by eapply HW|by injection Hclean as <-].
Qed.

(** One attempt, and how many are left, where the transaction comes to an end. *)
Lemma attempt_once_in (P : St -> Prop) (e : execution) (s : St) :
  (exists r s', transaction_execute (timeout e) (task e) s = Ret (r, s') /\ P s') ->
  0 <= attempts e < max_attempts e -> max_attempts e < 2 ^ 32 ->
  exists r s1, transaction_execute (timeout e) (task e) s = Ret (r, s1) /\ P s1
    /\ gzochid_application_transactional_task_worker e s
       = Ret (Execution (task e) (catch_task e) (cleanup_task e) (timeout e) (attempts e + 1)
                (max_attempts e) r, s1).
Proof.
  intros (r & s1 & Hr & HP) Ha Hm. exists r, s1.
  split_and!; [done|done|]. unfold gzochid_application_transactional_task_worker. rewrite Hr. run.
  by rewrite unsigned_small by (unfold in_unsigned; lia).
Qed.

Lemma attempt_loop_in (P : St -> Prop) (fuel : nat) (e : execution) (s : St) :
  (forall s, P s -> exists r s', transaction_execute (timeout e) (task e) s = Ret (r, s') /\ P s') ->
  P s -> 0 <= attempts e < max_attempts e -> max_attempts e < 2 ^ 32 ->
  max_attempts e - attempts e <= Z.of_nat fuel ->
  exists r a s', attempt_loop fuel e s
      = Ret (Execution (task e) (catch_task e) (cleanup_task e) (timeout e) a (max_attempts e) r, s')
    /\ P s' /\ attempted (timeout e) (task e) (Z.to_nat (max_attempts e - attempts e)) s r s'.
Proof.
  revert e s. induction fuel as [|fuel IH]; intros e s HP Hs Ha Hm Hf; [lia|].
  destruct (attempt_once_in P e s) as (r & s1 & Hr & Hs1 & Hrun); [by apply HP|done..|].
  cbn [attempt_loop]. rewrite Hrun. run.
  unfold gzochid_application_should_retry at 1. cbn [result attempts max_attempts].
  destruct (bool_decide_reflect (r = TX_SHOULD_RETRY)) as [->|Hne]; cbn [andb].
  - destruct (Z.ltb_spec (attempts e + 1) (max_attempts e)).
    + match goal with |- context [attempt_loop fuel ?e1 s1] =>
        destruct (IH e1 s1) as (r & a & s' & Hl & Hs' & Hatt);
          cbn [attempts max_attempts] in *; try done; try lia end.
      exists r, a, s'. split_and!; [exact Hl|done|].
      replace (Z.to_nat (max_attempts e - attempts e))
        with (S (Z.to_nat (max_attempts e - (attempts e + 1)))) by lia.
      by eapply Attempt_again.
    + eexists _, _, _. split_and!; [done|done|]. apply Attempt_last; [done|intros; lia|lia].
  - eexists _, _, _. split_and!; [done|done|]. apply Attempt_last; [done|done|lia].
Qed.

(** A transaction always comes to an end, and so does a task. *)
Context (Htx : forall limit t s, exists r s', transaction_execute limit t s = Ret (r, s')).
Context (Hworker : forall t s, exists s', worker t s = Ret s').

Definition fresh_execution (e : execution) : Prop := attempts e = 0 /\ 1 <= max_attempts e < 2 ^ 32.

Lemma attempted_det limit t n s r1 s1 r2 s2 :
  attempted limit t n s r1 s1 -> attempted limit t n s r2 s2 -> r1 = r2 /\ s1 = s2.
Proof.
  intros H1. revert r2 s2. induction H1 as [n s r s' Hr Hn Hpos|n s s1 r s' Hr H1 IH]; intros r2 s2 H2.
  - inversion H2 as [? ? ? ? Hr2 Hn2 Hpos2|n2 ? s3 ? ? Hr2 H3]; subst; rewrite Hr in Hr2; simplify_eq; [done|].
    specialize (Hn eq_refl). simplify_eq. inversion H3; lia.
  - inversion H2 as [? ? ? ? Hr2 Hn2 Hpos2|n2 ? s3 ? ? Hr2 H3]; subst; rewrite Hr in Hr2; simplify_eq; [|auto].
    specialize (Hn2 eq_refl). simplify_eq. inversion H1; lia.
Qed.

Lemma executed_det limit e s s1 s2 : executed limit e s s1 -> executed limit e s s2 -> s1 = s2.
Proof.
  intros (r1 & a1 & b1 & Ha1 & Hc1 & Hd1) (r2 & a2 & b2 & Ha2 & Hc2 & Hd2).
  destruct (attempted_det _ _ _ _ _ _ _ _ Ha1 Ha2) as [-> ->].
  assert (b1 = b2) as ->.
  { destruct (catch_task e); [|congruence]. case_decide; [congruence|].
    destruct Hc1 as [? Hc1], Hc2 as [? Hc2]. congruence. }
  destruct (cleanup_task e); congruence.
Qed.

Lemma attempt_once (e : execution) (s : St) :
  0 <= attempts e < max_attempts e -> max_attempts e < 2 ^ 32 ->
  exists r s1, transaction_execute (timeout e) (task e) s = Ret (r, s1)
    /\ gzochid_application_transactional_task_worker e s
       = Ret (Execution (task e) (catch_task e) (cleanup_task e) (timeout e) (attempts e + 1)
                (max_attempts e) r, s1).
Proof.
  intros Ha Hm. destruct (attempt_once_in (fun _ => True) e s) as (r & s1 & Hr & _ & Hrun); [|done..|eauto].
  destruct (Htx (timeout e) (task e) s) as (r & s1 & Hr). eauto.
Qed.

Lemma attempt_loop_spec (fuel : nat) (e : execution) (s : St) :
  0 <= attempts e < max_attempts e -> max_attempts e < 2 ^ 32 ->
  max_attempts e - attempts e <= Z.of_nat fuel ->
  exists r a s', attempt_loop fuel e s
      = Ret (Execution (task e) (catch_task e) (cleanup_task e) (timeout e) a (max_attempts e) r, s')
    /\ attempted (timeout e) (task e) (Z.to_nat (max_attempts e - attempts e)) s r s'.
Proof.
  intros Ha Hm Hf. destruct (attempt_loop_in (fun _ => True) fuel e s)
    as (r & a & s' & Hl & _ & Hatt); [|done..|eauto].
  intros s0 _. destruct (Htx (timeout e) (task e) s0) as (r & s1 & Hr). eauto.
Qed.

(** A single attempt, as for catch tasks. *)
Lemma attempted_one limit t s r s' :
  attempted limit t 1 s r s' -> transaction_execute limit t s = Ret (r, s').
Proof. inversion 1 as [|? ? ? ? ? ? Hno]; subst; [done|]. inversion Hno; lia. Qed.

Lemma reexecuting_executes_lemma (e : execution) (s : St) (fuel : nat) :
  fresh_execution e -> max_attempts e <= Z.of_nat fuel ->
  exists s', gzochid_application_reexecuting_transactional_task_worker 2 fuel e s = Ret s'
    /\ executed (timeout e) e s s'.
Proof.
  intros He Hfuel. destruct He as [Ha Hm].
  destruct (attempt_loop_spec fuel e s) as (r & a & s1 & Hl & Hatt); [lia..|].
  cbn [gzochid_application_reexecuting_transactional_task_worker]. rewrite Hl. run.
  cbn [catch_task]. rewrite Ha, Z.sub_0_r in Hatt.
  assert (Hend : forall s2, exists s', cleanup (Execution (task e) (catch_task e) (cleanup_task e)
      (timeout e) a (max_attempts e) r) s2 = Ret s'
    /\ match cleanup_task e with Some t => worker t s2 = Ret s' | None => s' = s2 end).
  { intros s2. unfold cleanup. cbn [cleanup_task]. destruct (cleanup_task e) as [t|]; [|by exists s2].
    destruct (Hworker t s2) as [s' ->]. by exists s'. }
  unfold failed. cbn [result].
  destruct (catch_task e) as [c|] eqn:Hc; [destruct (bool_decide_reflect (r = TX_SUCCESS)) as [Hr|Hr];
    cbn [negb]; run|run].
  - destruct (Hend s1) as (s' & -> & Hd). exists s'. split; [done|]. exists r, s1, s1.
    rewrite Hc. by rewrite decide_True by done.
  - cbn [timeout]. match goal with |- context [attempt_loop fuel ?e1 s1] =>
      destruct (attempt_loop_spec fuel e1 s1) as (r2 & a2 & s2 & Hl2 & Hatt2); cbn; [lia..|] end.
    rewrite Hl2. run. cbn [catch_task execution_new set_max_attempts cleanup cleanup_task]. run.
    destruct (Hend s2) as (s' & -> & Hd). exists s'. split; [done|]. exists r, s1, s2.
    rewrite Hc, decide_False by done. split_and!; [done| |done]. exists r2.
    by apply attempted_one in Hatt2.
  - destruct (Hend s1) as (s' & -> & Hd). exists s'. split; [done|]. exists r, s1, s1. by rewrite Hc.
Qed.

(** C38. A task is attempted in transactions as often as it asks to be retried and no more
    than the maximum; if the last attempt was not a success, the catch task is run
    once, in a transaction of its own; and the cleanup task is run once, in the end,
    in any case.  The re-executing worker always ends. *)
Theorem reexecuting_executes (e : execution) (s : St) (fuel : nat)
    (He : fresh_execution e) (Hfuel : max_attempts e <= Z.of_nat fuel) :
  exists s', gzochid_application_reexecuting_transactional_task_worker 2 fuel e s = Ret s'
    /\ executed (timeout e) e s s'.
Proof. by apply reexecuting_executes_lemma. Qed.

(** The same, by way of the queue; the catch task has no limit on its time. *)
Lemma run_queue_executes (fuel : nat) (e : execution) (s : St) :
  0 <= attempts e < max_attempts e -> max_attempts e < 2 ^ 32 ->
  max_attempts e - attempts e + 2 <= Z.of_nat fuel ->
  exists r s1 s2 s', run_queue fuel (Some (Resubmit e)) s = Ret s'
    /\ attempted (timeout e) (task e) (Z.to_nat (max_attempts e - attempts e)) s r s1
    /\ match catch_task e with
       | Some c =>
           if decide (r = TX_SUCCESS) then s2 = s1
           else exists r', transaction_execute None c s1 = Ret (r', s2)
       | None => s2 = s1
       end
    /\ match cleanup_task e with Some t => worker t s2 = Ret s' | None => s' = s2 end.
Proof.
  revert e s. induction fuel as [|fuel IH]; intros e s Ha Hm Hf; [lia|].
  destruct (attempt_once e s Ha Hm) as (r & s1 & Hr & Hrun).
  cbn [run_queue run_submitted]. unfold gzochid_application_resubmitting_transactional_task_worker.
  rewrite Hrun. run. unfold gzochid_application_should_retry. cbn [result attempts max_attempts].
  destruct (bool_decide (r = TX_SHOULD_RETRY) && (attempts e + 1 <? max_attempts e)) eqn:Hagain.
  - apply andb_true_iff in Hagain as [->%bool_decide_eq_true Hlt%Z.ltb_lt].
    match goal with |- context [run_queue fuel (Some (Resubmit ?e1)) s1] =>
      destruct (IH e1 s1) as (r & s2 & s3 & s' & Hq & Hatt & Hrest); cbn in *; try lia end.
    exists r, s2, s3, s'. split_and!; [exact Hq| |exact (proj1 Hrest)|exact (proj2 Hrest)].
    replace (Z.to_nat (max_attempts e - attempts e))
      with (S (Z.to_nat (max_attempts e - (attempts e + 1)))) by lia.
    by eapply Attempt_again.
  - assert (Hatt : attempted (timeout e) (task e) (Z.to_nat (max_attempts e - attempts e)) s r s1).
    { apply Attempt_last; [done| |lia]. intros ->. rewrite bool_decide_true in Hagain by done.
      cbn [andb] in Hagain. apply Z.ltb_ge in Hagain. lia. }
    assert (Hclean : forall n (o : option Tk) s2, (1 <= n)%nat -> exists s',
      run_queue n (Run <$> o) s2 = Ret s'
      /\ match o with Some t => worker t s2 = Ret s' | None => s' = s2 end).
    { intros n [t|] s2 Hn; [|exists s2; by destruct n]. destruct n as [|n]; [lia|]. cbn.
      destruct (Hworker t s2) as [s' Hw]. rewrite Hw. cbn. exists s'. by destruct n. }
    cbn [catch_task cleanup_task]. unfold failed. cbn [result].
    destruct (catch_task e) as [c|]; [destruct (bool_decide_reflect (r = TX_SUCCESS)) as [Hs|Hs];
      cbn [negb]|].
    + destruct (Hclean fuel (cleanup_task e) s1) as (s' & Hq & Hw); [lia|].
      exists r, s1, s1, s'. by rewrite decide_True by done.
    + destruct fuel as [|fuel]; [lia|]. cbn [run_queue run_submitted].
      unfold gzochid_application_resubmitting_transactional_task_worker.
      match goal with |- context [gzochid_application_transactional_task_worker ?e1 s1] =>
        destruct (attempt_once e1 s1) as (r2 & s2 & Hr2 & Hrun2); cbn; [lia..|] end.
      rewrite Hrun2. run. unfold gzochid_application_should_retry. cbn.
      rewrite andb_false_r. cbn.
      destruct (Hclean fuel (cleanup_task e) s2) as (s' & Hq & Hw); [lia|].
      exists r, s1, s2, s'. rewrite decide_False by done. split_and!; [exact Hq|done|by exists r2|done].
    + destruct (Hclean fuel (cleanup_task e) s1) as (s' & Hq & Hw); [lia|].
      by exists r, s1, s1, s'.
Qed.

(** Resubmitting a task through the queue comes to what re-executing it in place
    does, with the same number of attempts, the same catch and cleanup tasks and the
    same final state, unless the execution has both a limit on its time and a catch
    task: the limit is not passed on to the catch task when it is resubmitted. *)
Theorem resubmitting_is_reexecuting (e : execution) (s : St) (fuel fuel' : nat)
    (He : fresh_execution e) (Hlimit : timeout e = None \/ catch_task e = None)
    (Hfuel : max_attempts e <= Z.of_nat fuel) (Hfuel' : max_attempts e + 2 <= Z.of_nat fuel') :
  exists s', gzochid_application_reexecuting_transactional_task_worker 2 fuel e s = Ret s'
    /\ run_queue fuel' (Some (Resubmit e)) s = Ret s'.
Proof.
  destruct (reexecuting_executes_lemma e s fuel He Hfuel) as (s' & Hs' & Hex). exists s'. split; [done|].
  destruct He as [Ha Hm].
  destruct (run_queue_executes fuel' e s) as (r & s1 & s2 & s3 & -> & Hatt & Hrest); [lia..|].
  f_equal. symmetry. eapply executed_det; [exact Hex|]. exists r, s1, s2.
  rewrite Ha, Z.sub_0_r in Hatt. split; [done|]. destruct Hlimit as [->|Hno]; [done|].
  by rewrite Hno in *.
Qed.

End tasks.

(** ** The events of a transaction *)

Section event_pairs.

Context {Y : Type} (vote : nat -> bool).
Context (values : gmap string (gzochid_transaction_participant_registration event_fn positive) ->
  list (gzochid_transaction_participant_registration event_fn positive)).
Context (Hperm : forall m, values m ≡ₚ (map_to_list m).*2).

Abbreviation st := (tx_thread event_fn positive (event_world Y)).

Definition other_participant (n : nat) : gzochid_transaction_participant event_fn :=
  TxParticipant "other" (Some (OtherFn n)) (Some (OtherFn n)) (Some (OtherFn n)).

(** A body that takes some time and that another participant joins. *)
Definition join_other (n : nat) (elapsed : Z) (s : st) : outcome st :=
  let w := world s in
  gzochid_transaction_join (other_participant n) 1%positive
    (set_world (EventWorld (event_contexts w) (monotonic_time w + elapsed) (dispatched w) (others w)) s).

Definition ended_thread (elapsed : Z) (l : list transaction_event) (s : st) : st :=
  TxThread None None (u64 (transaction_counter s + 1))
    (EventWorld (event_contexts (world s)) (monotonic_time (world s) + elapsed)
       (dispatched (world s) ++ l) (others (world s))).

(** Every transaction of an application dispatches one event when it starts and one
    when it ends, which says how it ended and how long it took; the context of the
    participant is freed. *)
Theorem transaction_event_pairs (app : bytes) (n : nat) (elapsed : Z) (t0 t1 : timeval) (s : st)
    (Ht : thread_transaction s = None) (Helapsed : 0 <= elapsed < 2 ^ 64) :
  gzochid_application_transaction_execute (fun n _ s => Ret (vote n, s)) (fun _ _ s => Ret s)
    (fun _ _ s => Ret s) values app (join_other n elapsed) t0 t1 s
  = Ret (if vote n
         then (TX_SUCCESS, ended_thread elapsed [TRANSACTION_START app; TRANSACTION_COMMIT app elapsed] s)
         else (TX_SHOULD_RETRY,
               ended_thread elapsed [TRANSACTION_START app; TRANSACTION_ROLLBACK app elapsed] s)).
Proof.
  destruct s as [ot tm c [ctx now l y]]. simpl in Ht. subst ot.
  unfold gzochid_application_transaction_execute, gzochid_transaction_execute, event_func_wrapper,
    join_transaction, create_transaction_context, join_other. cbn [gzochid_transaction_active
    gzochid_transaction_begin set_timing thread_transaction world event_contexts].
  set (d := fresh (dom ctx)).
  assert (Hd : ctx !! d = None) by (apply not_elem_of_dom, is_fresh).
  run. unfold gzochid_transaction_join. simpl. rewrite lookup_empty. run. simpl.
  rewrite insert_empty, lookup_singleton_ne by done. run.
  unfold gzochid_transaction_end. cbn [set_transaction set_timing thread_transaction set_participants].
  unfold rollback_only. cbn [participants].
  set (re := TxRegistration event_participant d false false).
  set (ro := TxRegistration (other_participant n) 1%positive false false).
  unfold prepare, rollback, commit, retryable, set_state.
  cbn [thread_transaction set_transaction deref participants set_tx_state]. simpl.
  assert (Hdur : u64 (now + elapsed - now) = elapsed) by (rewrite u64_small; lia).
  destruct (values_two values Hperm "event" "other" re ro ltac:(done)) as [Hv|Hv];
    rewrite !Hv; simpl; destruct (vote n); simpl; rewrite ?Hv; simpl;
    unfold event_commit, event_rollback, event_end; simpl;
    rewrite lookup_insert_eq; simpl; rewrite Hdur, delete_insert_id by done; simpl;
    rewrite ?Hv; unfold ended_thread, set_event_contexts, event_dispatch, set_world; simpl;
    by rewrite <- app_assoc.
Qed.

End event_pairs.

(** ** Examples *)

Definition sample_tx (limit : option timeval) (t : nat) (s : list nat)
  : outcome (gzochid_transaction_result * list nat) :=
  Ret (if (t =? 1)%nat && (length s <? 2)%nat then TX_SHOULD_RETRY
       else if (t =? 1)%nat then TX_FAILURE else TX_SUCCESS, s ++ [t]).

Definition sample_worker (t : nat) (s : list nat) : outcome (list nat) := Ret (s ++ [t]).

(** Task 1 is retried twice and fails, task 2 catches, task 3 cleans up. *)
Example sample_execution :
  run_queue sample_tx sample_worker 5
    (Some (Resubmit (gzochid_transactional_application_task_execution_new 1%nat (Some 2%nat) (Some 3%nat)))) []
  = Ret [1; 1; 1; 2; 3]%nat.
Proof. vm_compute. reflexivity. Qed.

Lemma sample_tx_total limit t s : exists r s', sample_tx limit t s = Ret (r, s').
Proof. by eexists _, _. Qed.

Lemma sample_worker_total t s : exists s', sample_worker t s = Ret s'.
Proof. by eexists. Qed.

Lemma reexecuting_executes_witness :
  exists s', gzochid_application_reexecuting_transactional_task_worker sample_tx sample_worker 2 3
      (gzochid_transactional_application_task_execution_new 1%nat (Some 2%nat) (Some 3%nat)) [] = Ret s'
    /\ executed sample_tx sample_worker None
         (gzochid_transactional_application_task_execution_new 1%nat (Some 2%nat) (Some 3%nat)) [] s'.
Proof.
  apply (reexecuting_executes sample_tx sample_worker sample_tx_total sample_worker_total).
  - by repeat split.
  - done.
Defined.

Lemma resubmitting_is_reexecuting_witness :
  exists s', gzochid_application_reexecuting_transactional_task_worker sample_tx sample_worker 2 3
      (gzochid_transactional_application_task_execution_new 1%nat (Some 2%nat) (Some 3%nat)) [] = Ret s'
    /\ run_queue sample_tx sample_worker 5
      (Some (Resubmit (gzochid_transactional_application_task_execution_new 1%nat (Some 2%nat) (Some 3%nat)))) []
      = Ret s'.
Proof.
  apply (resubmitting_is_reexecuting sample_tx sample_worker sample_tx_total sample_worker_total).
  - by repeat split.
  - by left.
  - done.
  - done.
Defined.

Lemma transaction_event_pairs_witness :
  gzochid_application_transaction_execute (fun n _ s => Ret (true, s)) (fun _ _ s => Ret s)
    (fun _ _ s => Ret s) (fun m => (map_to_list m).*2) [97; 0] (join_other 4 20) (Timeval 0 0)
    (Timeval 0 5) (TxThread None None 7 (EventWorld ∅ 1000 [] tt))
  = Ret (TX_SUCCESS, ended_thread 20 [TRANSACTION_START [97; 0]; TRANSACTION_COMMIT [97; 0] 20]
                       (TxThread None None 7 (EventWorld ∅ 1000 [] tt))).
Proof. by apply (transaction_event_pairs (fun _ => true) (fun m => (map_to_list m).*2)). Defined.
