(* ===== verification/Schedule.v ===== *)
(** * The task queue (schedule.c)

    A queue of tasks in the order of the times when they are due, from which a thread feeds
    a pool of threads.  Callers, the consumer and the threads of the pool act one after the
    other, in any order: a run is a sequence of [sched_event]s, of which each does what one
    of them does between two points where it gives up its mutex.  A thread that waits for a
    condition may go on at any time, signalled or not.  The clock does not go back.

    Pending tasks are in a heap, since the queue, the pool and callers that wait share
    pointers to them; the insertion in the order of the queue is GLib's, of which only is
    used that it keeps a queue sorted.  What a task does is not modelled here: the log has
    what is executed, with the time. *)

From Stdlib Require Import Sorting.Sorted.
From S2P Require Import Prelude.

Local Open Scope Z_scope.

(** ** Tasks *)

Section tasks.

(** A worker with its data. *)
Context {K : Type}.

Inductive gzochid_task :=
| Task (work : K) (target : timeval)
| ChainTask (tasks : list gzochid_task) (target : timeval).

Definition target_execution_time (t : gzochid_task) : timeval :=
  match t with Task _ target | ChainTask _ target => target end.

(** What the execution of a task does, in order: the tasks of a chain one after the other. *)
Fixpoint gzochid_schedule_execute_task (t : gzochid_task) : list K :=
  match t with
  | Task work _ => [work]
  | ChainTask tasks _ => concat (gzochid_schedule_execute_task <$> tasks)
  end.

Definition task_chain_worker (tasks : list gzochid_task) : list K :=
  concat (gzochid_schedule_execute_task <$> tasks).

Inductive gzochid_pending_task_state :=
| GZOCHID_PENDING_TASK_STATE_PENDING
| GZOCHID_PENDING_TASK_STATE_COMPLETED.

#[export] Instance pending_state_eq_dec : EqDecision gzochid_pending_task_state.
Proof. solve_decision. Defined.

Record gzochid_pending_task := PendingTask {
  base : gzochid_task;
  state : gzochid_pending_task_state;
  destroy_on_execute : bool
}.

(** Where a consumer thread is: at the head of its loop, or waiting, for a while or not. *)
Inductive consumer := Looping | Waiting (interval : option timeval).

(** The queue, its threads and the pool, and the callers that wait for a task.  Of the
    executed tasks some are still at it. *)
Record gzochid_task_queue := TaskQueue {
  clock : timeval;
  pending : gmap positive gzochid_pending_task;
  queue : list positive;
  running : bool;
  consumer_thread : option positive;
  consumers : gmap positive consumer;
  pool : list positive;
  executing : list positive;
  waiters : list positive;
  executed : list (gzochid_task * timeval)
}.

Definition set_clock x s := TaskQueue x (pending s) (queue s) (running s) (consumer_thread s)
  (consumers s) (pool s) (executing s) (waiters s) (executed s).
Definition set_pending x s := TaskQueue (clock s) x (queue s) (running s) (consumer_thread s)
  (consumers s) (pool s) (executing s) (waiters s) (executed s).
Definition set_queue x s := TaskQueue (clock s) (pending s) x (running s) (consumer_thread s)
  (consumers s) (pool s) (executing s) (waiters s) (executed s).
Definition set_running x c s := TaskQueue (clock s) (pending s) (queue s) x c
  (consumers s) (pool s) (executing s) (waiters s) (executed s).
Definition set_consumers x s := TaskQueue (clock s) (pending s) (queue s) (running s)
  (consumer_thread s) x (pool s) (executing s) (waiters s) (executed s).
Definition set_pool x s := TaskQueue (clock s) (pending s) (queue s) (running s)
  (consumer_thread s) (consumers s) x (executing s) (waiters s) (executed s).
Definition set_executing x l s := TaskQueue (clock s) (pending s) (queue s) (running s)
  (consumer_thread s) (consumers s) (pool s) x (waiters s) l.
Definition set_waiters x s := TaskQueue (clock s) (pending s) (queue s) (running s)
  (consumer_thread s) (consumers s) (pool s) (executing s) x (executed s).

Definition gzochid_schedule_task_queue_new (now : timeval) : gzochid_task_queue :=
  TaskQueue now ∅ [] false None ∅ [] [] [] [].

Definition get_pending (p : positive) (s : gzochid_task_queue) : outcome gzochid_pending_task :=
  deref (pending s !! p).

Definition free_pending_task (p : positive) (s : gzochid_task_queue) : gzochid_task_queue :=
  set_pending (base.delete p (pending s)) s.

Definition gzochid_schedule_task_queue_free (s : gzochid_task_queue) : gzochid_task_queue :=
  set_queue [] (foldl (fun s p => free_pending_task p s) s (queue s)).

(** ** Submitting *)

Definition pending_task_compare (a b : gzochid_task) : Z :=
  let a := target_execution_time a in
  let b := target_execution_time b in
  if tv_sec a <? tv_sec b then -1
  else if tv_sec b <? tv_sec a then 1
  else s32 (tv_usec a - tv_usec b).

(** [g_queue_insert_sorted], over the elements that the comparison sees. *)
Context (queue_insert_sorted : (gzochid_task -> gzochid_task -> Z) -> (positive -> option gzochid_task) ->
  positive -> list positive -> list positive).

Definition base_of (s : gzochid_task_queue) (p : positive) : option gzochid_task := base <$> pending s !! p.

Definition gzochid_pending_task_new (task : gzochid_task) (destroy_on_execute : bool)
    (s : gzochid_task_queue) : positive * gzochid_task_queue :=
  let p := fresh (dom (pending s)) in
  (p, set_pending (<[p := PendingTask task GZOCHID_PENDING_TASK_STATE_PENDING destroy_on_execute]> (pending s)) s).

Definition wake (c : consumer) : consumer := Looping.

(** A signal reaches the threads that wait; one that is not the queue's consumer any more
    finds that out by itself. *)
Definition cond_signal (s : gzochid_task_queue) : gzochid_task_queue :=
  set_consumers (wake <$> consumers s) s.

Definition submit_task (task : gzochid_task) (destroy_on_execute : bool) (s : gzochid_task_queue)
  : positive * gzochid_task_queue :=
  let '(p, s) := gzochid_pending_task_new task destroy_on_execute s in
  (p, cond_signal (set_queue (queue_insert_sorted pending_task_compare (base_of s) p (queue s)) s)).

Definition gzochid_schedule_submit_task (task : gzochid_task) (s : gzochid_task_queue) : gzochid_task_queue :=
  (submit_task task true s).2.

Definition clone_task (t : gzochid_task) : gzochid_task := t.

(** The chain is due when its first task is. *)
Definition gzochid_schedule_submit_task_chain (tasks : list gzochid_task) (s : gzochid_task_queue)
  : outcome gzochid_task_queue :=
  let tasks_copy := clone_task <$> tasks in
  _ ← c_assert (negb (bool_decide (tasks = [])));
  t ← deref (head tasks_copy);
  Ret (gzochid_schedule_submit_task (ChainTask tasks_copy (target_execution_time t)) s).

(** A caller that waits for the task. *)
Definition gzochid_schedule_run_task (task : gzochid_task) (s : gzochid_task_queue) : gzochid_task_queue :=
  let '(p, s) := submit_task task false s in set_waiters (waiters s ++ [p]) s.

(** It returns once the task is completed. *)
Definition run_task_returns (p : positive) (s : gzochid_task_queue) : outcome gzochid_task_queue :=
  t ← get_pending p s;
  if bool_decide (state t = GZOCHID_PENDING_TASK_STATE_PENDING) then Ret s
  else Ret (set_waiters (filter (fun q => q <> p) (waiters s)) (free_pending_task p s)).

(** ** The consumer *)

(** One turn of the loop of the thread [i]. *)
Definition gzochid_schedule_task_executor (i : positive) (s : gzochid_task_queue) : outcome gzochid_task_queue :=
  if negb (running s) then Ret (set_consumers (base.delete i (consumers s)) s)
  else
    match queue s with
    | [] => Ret (set_consumers (<[i := Waiting None]> (consumers s)) s)
    | p :: rest =>
        t ← get_pending p s;
        let target := target_execution_time (base t) in
        if timercmp_gt (clock s) target then Ret (set_pool (pool s ++ [p]) (set_queue rest s))
        else Ret (set_consumers (<[i := Waiting (Some (timersub target (clock s)))]> (consumers s)) s)
    end.

Definition gzochid_schedule_task_queue_start (s : gzochid_task_queue) : gzochid_task_queue :=
  match consumer_thread s with
  | None =>
      let i := fresh (dom (consumers s)) in
      set_consumers (<[i := Looping]> (consumers s)) (set_running true (Some i) s)
  | Some _ => s
  end.

(** The caller then waits for the thread to end. *)
Definition gzochid_schedule_task_queue_stop (s : gzochid_task_queue) : gzochid_task_queue :=
  match consumer_thread s with
  | Some _ => cond_signal (set_running false None s)
  | None => s
  end.

(** ** The threads of the pool *)

(** A thread takes a task and begins to execute it. *)
Definition pending_task_executor_inner (n : nat) (s : gzochid_task_queue) : outcome gzochid_task_queue :=
  p ← deref (pool s !! n);
  t ← get_pending p s;
  Ret (set_executing (executing s ++ [p]) (executed s ++ [(base t, clock s)])
         (set_pool (base.delete n (pool s)) s)).

(** The [n]th of the executing threads is done with its task. *)
Definition pending_task_executor (n : nat) (s : gzochid_task_queue) : outcome gzochid_task_queue :=
  p ← deref (executing s !! n);
  t ← get_pending p s;
  let s := set_executing (base.delete n (executing s)) (executed s) s in
  if destroy_on_execute t then Ret (free_pending_task p s)
  else Ret (set_pending (<[p := PendingTask (base t) GZOCHID_PENDING_TASK_STATE_COMPLETED
                                  (destroy_on_execute t)]> (pending s)) s).

(** ** Runs *)

Inductive sched_event :=
| Tick (now : timeval)
| Submit (task : gzochid_task)
| SubmitChain (tasks : list gzochid_task)
| RunTask (task : gzochid_task)
| Return (p : positive)
| Consume (i : positive)
| Wake (i : positive)
| Start
| Stop
| Pick (n : nat)
| Finish (n : nat).

(** An event of somebody who is not there does nothing. *)
Definition sched_step (e : sched_event) (s : gzochid_task_queue) : outcome gzochid_task_queue :=
  match e with
  | Tick now => Ret (if timercmp_lt now (clock s) then s else set_clock now s)
  | Submit task => Ret (gzochid_schedule_submit_task task s)
  | SubmitChain tasks => gzochid_schedule_submit_task_chain tasks s
  | RunTask task => Ret (gzochid_schedule_run_task task s)
  | Return p => if bool_decide (p ∈ waiters s) then run_task_returns p s else Ret s
  | Consume i => match consumers s !! i with
                 | Some Looping => gzochid_schedule_task_executor i s
                 | _ => Ret s
                 end
  | Wake i => match consumers s !! i with
              | Some c => Ret (set_consumers (<[i := wake c]> (consumers s)) s)
              | None => Ret s
              end
  | Start => Ret (gzochid_schedule_task_queue_start s)
  | Stop => Ret (gzochid_schedule_task_queue_stop s)
  | Pick n => if (n <? length (pool s))%nat then pending_task_executor_inner n s else Ret s
  | Finish n => if (n <? length (executing s))%nat then pending_task_executor n s else Ret s
  end.

Fixpoint sched_run (evs : list sched_event) (s : gzochid_task_queue) : outcome gzochid_task_queue :=
  match evs with
  | [] => Ret s
  | e :: evs => s ← sched_step e s; sched_run evs s
  end.

End tasks.

Arguments gzochid_task K : clear implicits.
Arguments gzochid_task_queue K : clear implicits.
Arguments gzochid_pending_task K : clear implicits.
Arguments sched_event K : clear implicits.

(** ** The order of times *)

Lemma timercmp_not_lt a b c : timercmp_lt b a = false -> timercmp_lt c a = true -> timercmp_lt c b = true.
Proof. unfold timercmp_lt. case_all; lia. Qed.

Lemma timercmp_le_lt a b c : timercmp_lt b a = false -> timercmp_lt b c = true -> timercmp_lt a c = true.
Proof. unfold timercmp_lt. case_all; lia. Qed.

(** Times whose comparison does not overflow. *)
Definition time_ok (tv : timeval) : Prop := 0 <= tv_usec tv < 2 ^ 31.

Section order.

Context {K : Type}.
Implicit Types a b c : gzochid_task K.

Definition due_ok a : Prop := time_ok (target_execution_time a).
Definition no_later a b : Prop := timercmp_lt (target_execution_time b) (target_execution_time a) = false.

Lemma compare_sign a b : due_ok a -> due_ok b -> pending_task_compare a b <= 0 <-> no_later a b.
Proof.
  unfold due_ok, time_ok, no_later, pending_task_compare, timercmp_lt. intros Ha Hb.
  rewrite signed_small by (unfold in_signed; lia).
  destruct (Z.ltb_spec (tv_sec (target_execution_time a)) (tv_sec (target_execution_time b)));
    destruct (Z.eqb_spec (tv_sec (target_execution_time b)) (tv_sec (target_execution_time a)));
    destruct (Z.ltb_spec (tv_sec (target_execution_time b)) (tv_sec (target_execution_time a)));
    rewrite ?Z.ltb_ge; lia.
Qed.

Lemma compare_antisym a b : due_ok a -> due_ok b -> 0 <= pending_task_compare a b -> pending_task_compare b a <= 0.
Proof.
  unfold due_ok, time_ok, pending_task_compare. intros Ha Hb. rewrite !signed_small by (unfold in_signed; lia).
  destruct (Z.ltb_spec (tv_sec (target_execution_time a)) (tv_sec (target_execution_time b))); [lia|].
  destruct (Z.ltb_spec (tv_sec (target_execution_time b)) (tv_sec (target_execution_time a))); lia.
Qed.

Lemma no_later_trans a b c : no_later a b -> no_later b c -> no_later a c.
Proof.
  unfold no_later. intros Hab Hbc. apply not_true_iff_false. intros Hca.
  pose proof (timercmp_not_lt _ _ _ Hab Hca) as Hcb. congruence.
Qed.

End order.

(** ** Sorted insertion

    What is used of [g_queue_insert_sorted]: with a comparison that orders the elements, a
    sorted queue stays sorted. *)

Section insertion.

Context {A : Type}.
Implicit Types (cmp : A -> A -> Z) (f : positive -> option A).

Definition ordered cmp f (p q : positive) : Prop := forall a b, f p = Some a -> f q = Some b -> cmp a b <= 0.

Class SortedInsert (ins : (A -> A -> Z) -> (positive -> option A) -> positive -> list positive -> list positive)
  : Prop := {
  insert_perm : forall cmp f p l, ins cmp f p l ≡ₚ p :: l;
  insert_sorted : forall cmp (Q : A -> Prop) f p l,
    (forall a b, Q a -> Q b -> 0 <= cmp a b -> cmp b a <= 0) ->
    (forall a b c, Q a -> Q b -> Q c -> cmp a b <= 0 -> cmp b c <= 0 -> cmp a c <= 0) ->
    Forall (fun q => exists a, f q = Some a /\ Q a) (p :: l) ->
    StronglySorted (ordered cmp f) l -> StronglySorted (ordered cmp f) (ins cmp f p l)
}.

(** Before the first element that is not below. *)
Fixpoint insert_before cmp f (p : positive) (l : list positive) : list positive :=
  match l with
  | [] => [p]
  | q :: l' =>
      match f q, f p with
      | Some a, Some b => if cmp a b <? 0 then q :: insert_before cmp f p l' else p :: l
      | _, _ => p :: l
      end
  end.

Lemma insert_before_perm cmp f p l : insert_before cmp f p l ≡ₚ p :: l.
Proof.
  induction l as [|q l IH]; cbn [insert_before]; [done|].
  destruct (f q) as [a|], (f p) as [b|]; [|done..]. destruct (_ <? 0); [|done].
  by rewrite IH, Permutation_swap.
Qed.

#[export] Instance insert_before_sorted : SortedInsert insert_before.
Proof.
  split; [apply insert_before_perm|]. intros cmp Q f p l Hanti Htrans Hall Hs.
  apply Forall_cons in Hall as [(b & Hb & Qb) Hall].
  induction Hs as [|q l Hs IH Hq]; cbn [insert_before]; [by repeat constructor|].
  apply Forall_cons in Hall as [(a & Ha & Qa) Hall]. rewrite Ha, Hb.
  destruct (Z.ltb_spec (cmp a b) 0) as [Hlt|Hge].
  - constructor; [by apply IH|]. rewrite insert_before_perm. constructor; [|done].
    intros a' b' Ha' Hb'. simplify_eq. lia.
  - constructor; [by constructor|]. assert (Hba : cmp b a <= 0) by (by apply Hanti).
    constructor; [intros b' a' Hb' Ha'; by simplify_eq|].
    rewrite Forall_forall in *. intros r Hr b' c Hb' Hc. simplify_eq.
    destruct (Hall r Hr) as (c' & Hc' & Qc). simplify_eq. apply (Htrans b a c); [done..|].
    by apply (Hq r Hr).
Qed.

End insertion.

(** ** What holds in every run *)

Section runs.

Context {K : Type}.
Context (ins : (gzochid_task K -> gzochid_task K -> Z) -> (positive -> option (gzochid_task K)) ->
  positive -> list positive -> list positive) {Hins : SortedInsert ins}.
Implicit Types (s : gzochid_task_queue K) (t : gzochid_task K).

Abbreviation held s := (queue s ++ pool s ++ executing s).
Abbreviation sorted s := (StronglySorted (ordered pending_task_compare (base_of s)) (queue s)).

(** A task that is in the queue, in the pool or being executed. *)
Definition alive s (p : positive) : Prop := exists x, pending s !! p = Some x
  /\ state x = GZOCHID_PENDING_TASK_STATE_PENDING /\ due_ok (base x).

Definition tasks_of s (l : list positive) : list (gzochid_task K) := omap (base_of s) l.

Record sched_ok (submitted : list (gzochid_task K)) s : Prop := {
  so_alive : Forall (alive s) (held s);
  so_nodup : NoDup (held s);
  so_due : Forall (fun p => forall x, pending s !! p = Some x ->
             timercmp_lt (target_execution_time (base x)) (clock s) = true) (pool s);
  so_executed : Forall (fun x => timercmp_lt (target_execution_time x.1) x.2 = true) (executed s);
  so_sorted : sorted s;
  so_waiters : forall p, p ∈ waiters s -> exists x, pending s !! p = Some x /\ destroy_on_execute x = false;
  so_all : submitted ≡ₚ tasks_of s (queue s ++ pool s) ++ (executed s).*1
}.

Lemma tasks_of_perm s l l' : l ≡ₚ l' -> tasks_of s l ≡ₚ tasks_of s l'.
Proof.
  induction 1 as [|p l l' _ IH|p q l|]; [done| | |by etransitivity]; unfold tasks_of in *; cbn.
  - destruct (base_of s p); [by rewrite IH|done].
  - destruct (base_of s p), (base_of s q); try done. by rewrite Permutation_swap.
Qed.

(** The pending tasks of the list are as they were. *)
Definition agree s s' (l : list positive) : Prop := Forall (fun p => pending s' !! p = pending s !! p) l.

Lemma agree_base s s' l : agree s s' l -> Forall (fun p => base_of s' p = base_of s p) l.
Proof. intros Ha. eapply Forall_impl; [exact Ha|]. intros p Hp. unfold base_of. by rewrite Hp. Qed.

Lemma agree_tasks s s' l : agree s s' l -> tasks_of s' l = tasks_of s l.
Proof.
  unfold tasks_of. induction 1 as [|p l Hp _ IH]; cbn; [done|].
  assert (base_of s' p = base_of s p) as -> by (unfold base_of; by rewrite Hp). by rewrite IH.
Qed.

Lemma agree_alive s s' l : agree s s' l -> Forall (alive s) l -> Forall (alive s') l.
Proof.
  unfold agree. rewrite !Forall_forall. intros Ha Hl p Hp. destruct (Hl p Hp) as (x & Hx & H).
  exists x. by rewrite Ha.
Qed.

Lemma agree_sorted s s' l :
  agree s s' l -> StronglySorted (ordered pending_task_compare (base_of s)) l ->
  StronglySorted (ordered pending_task_compare (base_of s')) l.
Proof.
  intros Ha Hs. apply agree_base in Ha. induction Hs as [|p l Hs IH Hp]; [constructor|].
  apply Forall_cons in Ha as [Hb Ha]. constructor; [by apply IH|].
  rewrite Forall_forall in *. intros q Hq a b. rewrite Hb, (Ha q Hq). by apply Hp.
Qed.

Lemma alive_fresh s l : Forall (alive s) l -> fresh (dom (pending s)) ∉ l.
Proof.
  rewrite Forall_forall. intros Hl Hin. destruct (Hl _ Hin) as (x & Hx & _).
  by apply (is_fresh (dom (pending s))), (elem_of_dom_2 _ _ _ Hx).
Qed.

(** A task enters the queue. *)
Lemma submit_ok submitted t b s :
  due_ok t -> sched_ok submitted s ->
  sched_ok (submitted ++ [t]) (submit_task ins t b s).2
  /\ pending (submit_task ins t b s).2 !! (submit_task ins t b s).1
     = Some (PendingTask t GZOCHID_PENDING_TASK_STATE_PENDING b)
  /\ (submit_task ins t b s).1 ∉ waiters s.
Proof.
  intros Ht [Ha Hn Hd He Hs Hw Hall]. unfold submit_task, gzochid_pending_task_new, cond_signal.
  pose proof (alive_fresh s (held s) Ha) as Hfresh. set (p := fresh (dom (pending s))) in *.
  set (x := PendingTask t GZOCHID_PENDING_TASK_STATE_PENDING b).
  set (s1 := set_pending (<[p := x]> (pending s)) s). cbn [fst snd].
  assert (Hnone : pending s !! p = None) by apply not_elem_of_dom, is_fresh.
  assert (Hag : forall l, p ∉ l -> agree s s1 l).
  { intros l Hl. apply Forall_forall. intros q Hq. cbn. rewrite lookup_insert_ne; [done|]. by intros ->. }
  assert (Hp1 : pending s1 !! p = Some x) by apply lookup_insert_eq.
  assert (Hperm : ins pending_task_compare (base_of s1) p (queue s) ≡ₚ p :: queue s) by apply insert_perm.
  assert (Hheld : ins pending_task_compare (base_of s1) p (queue s) ++ pool s ++ executing s ≡ₚ p :: held s)
    by (rewrite Hperm; done).
  assert (Ha1 : Forall (alive s1) (p :: held s)).
  { constructor; [by exists x|]. by eapply agree_alive; [apply Hag|]. }
  split_and!; [|done|].
  - split; cbn [queue pool executing waiters executed clock set_consumers set_queue];
      change (pool s1) with (pool s); change (executing s1) with (executing s);
      change (executed s1) with (executed s); change (waiters s1) with (waiters s);
      change (queue s1) with (queue s).
    + rewrite Hheld. exact Ha1.
    + rewrite Hheld. by constructor.
    + apply Forall_forall. intros q Hq y. rewrite Forall_forall in Hd. cbn.
      rewrite lookup_insert_ne; [by apply Hd|]. intros ->. apply Hfresh. set_solver.
    + done.
    + apply (insert_sorted pending_task_compare due_ok).
      * intros a c. apply compare_antisym.
      * intros a c e Qa Qc Qe. rewrite !compare_sign by done. apply no_later_trans.
      * rewrite app_comm_cons in Ha1. apply Forall_app in Ha1 as [Ha1 _]. eapply Forall_impl; [exact Ha1|].
        intros q (y & Hy & _ & Qy). exists (base y). split; [|done]. unfold base_of. by rewrite Hy.
      * eapply agree_sorted; [apply Hag; set_solver|done].
    + intros q Hq. destruct (Hw q Hq) as (y & Hy & Hyd). exists y. split; [|done].
      cbn. rewrite lookup_insert_ne; [done|]. intros ->. congruence.
    + rewrite Hall. change (tasks_of (set_consumers _ _)) with (tasks_of s1).
      rewrite (tasks_of_perm s1 _ (p :: queue s ++ pool s)) by (by rewrite Hperm).
      unfold tasks_of at 2. cbn [omap list_omap]. unfold base_of at 1. rewrite Hp1. cbn [fmap option_fmap option_map].
      change (omap (base_of s1)) with (tasks_of s1).
      rewrite (agree_tasks s s1) by (apply Hag; set_solver). cbn [base x]. rewrite <- Permutation_cons_append. done.
  - intros Hin. destruct (Hw p Hin) as (y & Hy & _). congruence.
Qed.

(** What only concerns the consumers and the clock. *)
Lemma same_ok submitted s s' :
  sched_ok submitted s -> pending s' = pending s -> queue s' = queue s -> pool s' = pool s ->
  executing s' = executing s -> waiters s' = waiters s -> executed s' = executed s ->
  (forall tv, timercmp_lt tv (clock s) = true -> timercmp_lt tv (clock s') = true) -> sched_ok submitted s'.
Proof.
  intros [Ha Hn Hd He Hs Hw Hall] Hp Hq Hpo Hex Hwa Hed Hc.
  assert (Hag : forall l, agree s s' l) by (intros l; apply Forall_forall; intros q _; by rewrite Hp).
  split; rewrite ?Hq, ?Hpo, ?Hex, ?Hwa, ?Hed; try done.
  - by eapply agree_alive.
  - eapply Forall_impl; [exact Hd|]. cbv beta. intros p H x. rewrite Hp. intros Hx. by apply Hc, H.
  - by eapply agree_sorted.
  - by rewrite Hp.
  - by rewrite (agree_tasks s s').
Qed.

Lemma tick_ok submitted now s :
  sched_ok submitted s -> sched_ok submitted (if timercmp_lt now (clock s) then s else set_clock now s).
Proof.
  intros Hs. destruct (timercmp_lt now (clock s)) eqn:Hnow; [done|].
  eapply same_ok; [exact Hs|done..|]. intros tv Htv. cbn. by eapply timercmp_not_lt.
Qed.

Lemma run_task_ok submitted t s :
  due_ok t -> sched_ok submitted s -> sched_ok (submitted ++ [t]) (gzochid_schedule_run_task ins t s).
Proof.
  intros Ht Hs. destruct (submit_ok submitted t false s Ht Hs) as (Hs1 & Hp & _).
  unfold gzochid_schedule_run_task. destruct (submit_task ins t false s) as [p s1]. cbn [fst snd] in *.
  destruct Hs1 as [Ha Hn Hd He Hso Hw Hall]. split; try done.
  cbn. intros q [Hq| ->%list_elem_of_singleton]%elem_of_app; [by apply Hw|by eexists].
Qed.

Lemma chain_ok submitted t ts s :
  due_ok t -> sched_ok submitted s ->
  exists s', gzochid_schedule_submit_task_chain ins (t :: ts) s = Ret s'
    /\ sched_ok (submitted ++ [ChainTask (t :: ts) (target_execution_time t)]) s'.
Proof.
  intros Ht Hs. unfold gzochid_schedule_submit_task_chain. cbn [bool_decide negb c_assert].
  rewrite bool_decide_eq_false_2 by done. cbn [negb c_assert]. run. cbn [fmap list_fmap head]. run.
  eexists. split; [done|]. unfold clone_task at 1.
  assert (Hc : clone_task <$> ts = ts) by (induction ts as [|x ts IH]; cbn; [done|by f_equal]).
  unfold clone_task in Hc |- *. rewrite Hc. by apply submit_ok.
Qed.

Lemma alive_in s l p : Forall (alive s) l -> p ∈ l -> alive s p.
Proof. rewrite Forall_forall. auto. Qed.

(** One turn of a consumer: a task that is due goes to the pool. *)
Lemma consume_ok submitted i s :
  sched_ok submitted s ->
  exists s', gzochid_schedule_task_executor i s = Ret s' /\ sched_ok submitted s'.
Proof.
  intros Hok. unfold gzochid_schedule_task_executor.
  assert (Hsame : forall c, sched_ok submitted (set_consumers c s)) by (intros c; by eapply same_ok).
  destruct (running s); cbn [negb]; [|by eexists]. destruct (queue s) as [|p rest] eqn:Hq; [by eexists|].
  destruct Hok as [Ha Hn Hd He Hs Hw Hall]. rewrite Hq in *.
  destruct (alive_in s _ p Ha ltac:(by left)) as (x & Hx & Hst & Hdue). unfold get_pending. rewrite Hx. run.
  destruct (timercmp_lt _ (clock s)) eqn:Hlt; [|by eexists]. eexists. split; [done|].
  assert (Hperm : rest ++ (pool s ++ [p]) ++ executing s ≡ₚ p :: (rest ++ pool s ++ executing s)).
  { rewrite <- (app_assoc (pool s)), app_assoc, (app_assoc rest). cbn [app].
    by rewrite <- Permutation_middle. }
  split; cbn [queue pool executing waiters executed clock set_pool set_queue]; try done.
  - rewrite Hperm. exact Ha.
  - rewrite Hperm. exact Hn.
  - apply Forall_app. split; [exact Hd|]. apply Forall_singleton. intros y Hy. cbn in Hy. simplify_eq. done.
  - by inversion Hs.
  - rewrite Hall. change (tasks_of (set_pool _ _)) with (tasks_of s). f_equiv. apply tasks_of_perm.
    rewrite app_assoc. cbn [app]. by rewrite <- Permutation_cons_append.
Qed.

(** A caller that waited for its task returns when it is completed, and frees it. *)
Lemma return_ok submitted p s :
  sched_ok submitted s -> p ∈ waiters s ->
  exists s', run_task_returns p s = Ret s' /\ sched_ok submitted s'.
Proof.
  intros Hok Hin. destruct Hok as [Ha Hn Hd He Hs Hw Hall]. destruct (Hw p Hin) as (x & Hx & Hxd).
  unfold run_task_returns, get_pending. rewrite Hx. run. case_bool_decide as Hst; [by eexists|].
  eexists. split; [done|]. set (s' := set_waiters _ _).
  assert (Hp : p ∉ held s). { intros Hp. destruct (alive_in s _ p Ha Hp) as (y & Hy & ? & _). congruence. }
  assert (Hag : forall l, p ∉ l -> agree s s' l).
  { intros l Hl. apply Forall_forall. intros q Hq. cbn. rewrite lookup_delete_ne; [done|]. by intros ->. }
  split; try done.
  - by eapply agree_alive; [apply Hag|].
  - apply Forall_forall. intros q Hq y Hy. rewrite Forall_forall in Hd. apply (Hd q Hq). cbn in Hy.
    by apply lookup_delete_Some in Hy as [_ Hy].
  - eapply agree_sorted; [apply Hag; set_solver|done].
  - intros q [Hne Hq]%list_elem_of_filter. destruct (Hw q Hq) as (y & Hy & ?). exists y. cbn.
    by rewrite lookup_delete_ne.
  - rewrite Hall. change (queue s') with (queue s). change (pool s') with (pool s).
    change (executed s') with (executed s). by rewrite (agree_tasks s s') by (apply Hag; set_solver).
Qed.

Lemma delete_perm {A} (l : list A) n x : l !! n = Some x -> l ≡ₚ x :: base.delete n l.
Proof. intros Hx. by apply delete_Permutation. Qed.

(** A thread of the pool takes a task: it is logged with the time, after it was due. *)
Lemma pick_ok submitted n s :
  sched_ok submitted s -> (n < length (pool s))%nat ->
  exists s', pending_task_executor_inner n s = Ret s' /\ sched_ok submitted s'.
Proof.
  intros [Ha Hn Hd He Hs Hw Hall] Hlt. unfold pending_task_executor_inner, get_pending.
  destruct (lookup_lt_is_Some_2 _ _ Hlt) as [p Hp]. rewrite Hp. run.
  pose proof (delete_perm _ _ _ Hp) as Hperm.
  destruct (alive_in s _ p Ha) as (x & Hx & Hst & Hdue).
  { apply elem_of_app. right. apply elem_of_app. left. by eapply list_elem_of_lookup_2. }
  rewrite Hx. run. eexists. split; [done|].
  assert (Hheld : queue s ++ base.delete n (pool s) ++ executing s ++ [p] ≡ₚ held s).
  { rewrite Hperm at 2. cbn [app]. f_equiv. by rewrite (app_assoc _ _ [p]), <- Permutation_cons_append. }
  rewrite Hperm in Hd. apply Forall_cons in Hd as [Hdp Hd].
  split; cbn [queue pool executing waiters executed clock set_executing set_pool]; try done.
  - rewrite Hheld. exact Ha.
  - by rewrite Hheld.
  - apply Forall_app. split; [done|]. apply Forall_singleton. by apply Hdp.
  - rewrite Hall. change (tasks_of (set_executing _ _ _)) with (tasks_of s). rewrite fmap_app. cbn [fmap list_fmap fst].
    rewrite (tasks_of_perm s (queue s ++ pool s) (p :: queue s ++ base.delete n (pool s)))
      by (rewrite Hperm at 1; by rewrite <- Permutation_middle).
    unfold tasks_of at 1. cbn [omap list_omap]. unfold base_of at 1. rewrite Hx. cbn [fmap option_fmap option_map].
    change (omap (base_of s)) with (tasks_of s). rewrite (app_assoc _ _ [base x]), <- Permutation_cons_append. done.
Qed.

(** A thread of the pool is done: the task is freed, or left for its caller. *)
Lemma finish_ok submitted n s :
  sched_ok submitted s -> (n < length (executing s))%nat ->
  exists s', pending_task_executor n s = Ret s' /\ sched_ok submitted s'.
Proof.
  intros [Ha Hn Hd He Hs Hw Hall] Hlt. unfold pending_task_executor, get_pending.
  destruct (lookup_lt_is_Some_2 _ _ Hlt) as [p Hp]. rewrite Hp. run.
  pose proof (delete_perm _ _ _ Hp) as Hperm.
  assert (Hheld : held s ≡ₚ p :: queue s ++ pool s ++ base.delete n (executing s)).
  { rewrite Hperm at 1. rewrite (app_assoc (queue s)), <- Permutation_middle. by rewrite <- app_assoc. }
  rewrite Hheld in Ha, Hn. apply Forall_cons in Ha as [(x & Hx & Hst & Hdue) Ha].
  apply NoDup_cons in Hn as [Hnin Hn]. rewrite Hx. run.
  assert (Hgen : forall m, (forall q, q <> p -> m !! q = pending s !! q) ->
    (forall q, q ∈ waiters s -> exists y, m !! q = Some y /\ destroy_on_execute y = false) ->
    sched_ok submitted (set_pending m (set_executing (base.delete n (executing s)) (executed s) s))).
  { intros m Hm Hmw. set (s' := set_pending m _).
    assert (Hag : forall l, p ∉ l -> agree s s' l).
    { intros l Hl. apply Forall_forall. intros q Hq. apply Hm. by intros ->. }
    split; try done.
    - by eapply agree_alive; [apply Hag|].
    - apply Forall_forall. intros q Hq y Hy. rewrite Forall_forall in Hd. apply (Hd q Hq).
      rewrite <- Hm; [done|]. intros ->. apply Hnin. set_solver.
    - eapply agree_sorted; [apply Hag; set_solver|done].
    - rewrite Hall. change (queue s') with (queue s). change (pool s') with (pool s).
      change (executed s') with (executed s). by rewrite (agree_tasks s s') by (apply Hag; set_solver). }
  destruct (destroy_on_execute x) eqn:Hdx; (eexists; split; [done|]); apply Hgen.
  - intros q Hq. by rewrite lookup_delete_ne.
  - intros q Hq. destruct (Hw q Hq) as (y & Hy & Hyd). exists y. rewrite lookup_delete_ne; [done|]. intros ->. congruence.
  - intros q Hq. by rewrite lookup_insert_ne.
  - intros q Hq. destruct (Hw q Hq) as (y & Hy & Hyd). destruct (decide (p = q)) as [->|Hne].
    + rewrite lookup_insert_eq. by eexists.
    + rewrite lookup_insert_ne by done. by exists y.
Qed.

(** ** Every run *)

(** The tasks that an event submits. *)
Definition submitted_by (e : sched_event K) : list (gzochid_task K) :=
  match e with
  | Submit t | RunTask t => [t]
  | SubmitChain (t :: ts) => [ChainTask (t :: ts) (target_execution_time t)]
  | _ => []
  end.

(** A chain has tasks and the time of the first. *)
Definition chain_timed t : Prop :=
  match t with
  | Task _ _ => True
  | ChainTask ts target => exists first, head ts = Some first /\ target = target_execution_time first
  end.

(** A chain is not empty, and what is submitted has a time that can be compared. *)
Definition event_ok (e : sched_event K) : Prop :=
  match e with
  | Submit t | RunTask t => due_ok t /\ chain_timed t
  | SubmitChain ts => exists t, head ts = Some t /\ due_ok t
  | _ => True
  end.

Lemma step_ok submitted e s :
  event_ok e -> sched_ok submitted s ->
  exists s', sched_step ins e s = Ret s' /\ sched_ok (submitted ++ submitted_by e) s'.
Proof.
  intros He Hs. destruct e as [now|t|ts|t|p|i|i| | |n|n]; cbn [sched_step event_ok submitted_by] in *;
    rewrite ?app_nil_r.
  - eexists. split; [done|]. by apply tick_ok.
  - eexists. split; [done|]. by apply submit_ok; [apply He|].
  - destruct He as (t & Ht & Hd). destruct ts as [|t' ts]; [done|]. injection Ht as ->. by apply chain_ok.
  - eexists. split; [done|]. by apply run_task_ok; [apply He|].
  - case_bool_decide; [by apply return_ok|by eexists].
  - destruct (consumers s !! i) as [[|]|]; [by apply consume_ok|by eexists..].
  - destruct (consumers s !! i); (eexists; split; [done|]); [by eapply same_ok|done].
  - eexists. split; [done|]. unfold gzochid_schedule_task_queue_start.
    destruct (consumer_thread s); [done|by eapply same_ok].
  - eexists. split; [done|]. unfold gzochid_schedule_task_queue_stop.
    destruct (consumer_thread s); [by eapply same_ok|done].
  - destruct (Nat.ltb_spec n (length (pool s))); [by apply pick_ok|by eexists].
  - destruct (Nat.ltb_spec n (length (executing s))); [by apply finish_ok|by eexists].
Qed.

Lemma run_ok evs : forall submitted s,
  Forall event_ok evs -> sched_ok submitted s ->
  exists s', sched_run ins evs s = Ret s' /\ sched_ok (submitted ++ concat (submitted_by <$> evs)) s'.
Proof.
  induction evs as [|e evs IH]; intros submitted s He Hs; cbn [sched_run fmap list_fmap concat].
  - rewrite app_nil_r. by eexists.
  - apply Forall_cons in He as [He Hevs]. destruct (step_ok submitted e s He Hs) as (s1 & -> & Hs1). run.
    rewrite app_assoc. by apply IH.
Qed.

Lemma new_ok now : sched_ok [] (gzochid_schedule_task_queue_new now).
Proof.
  split; cbn; try done; try constructor. intros p Hp. by apply not_elem_of_nil in Hp.
Qed.

(** ** The consumer feeds the pool *)

Definition is_due s (t : gzochid_task K) : Prop := timercmp_lt (target_execution_time t) (clock s) = true.

#[export] Instance is_due_dec s t : Decision (is_due s t).
Proof. unfold is_due. apply _. Defined.

(** What a number of turns does. *)
Fixpoint consume_turns (n : nat) (i : positive) s : outcome (gzochid_task_queue K) :=
  match n with O => Ret s | S n => s ← sched_step ins (Consume i) s; consume_turns n i s end.

Lemma consume_all submitted i (due rest : list positive) : forall s,
  sched_ok submitted s -> queue s = due ++ rest -> running s = true -> consumers s !! i = Some Looping ->
  Forall (fun p => forall t, base_of s p = Some t -> is_due s t) due ->
  (forall p t, head rest = Some p -> base_of s p = Some t -> ~ is_due s t) ->
  exists s' c, consume_turns (S (length due)) i s = Ret s'
    /\ pool s' = pool s ++ due /\ queue s' = rest /\ consumers s' !! i = Some (Waiting c)
    /\ sched_ok submitted s'.
Proof.
  induction due as [|p due IH]; intros s Hok Hq Hr Hi Hdue Hrest; cbn [length consume_turns sched_step].
  - rewrite Hi. destruct (consume_ok submitted i s Hok) as (s1 & Hs1 & Hok1). rewrite Hs1. run.
    unfold gzochid_schedule_task_executor in Hs1. rewrite Hr, Hq in Hs1. cbn [negb app] in Hs1.
    destruct rest as [|q rest].
    + injection Hs1 as <-. eexists _, _. split; [done|].
      split_and!; [by rewrite app_nil_r|exact Hq|cbn; apply lookup_insert_eq|done].
    + unfold get_pending in Hs1. destruct (pending s !! q) as [x|] eqn:Hx; [|done].
      cbn [deref mbind outcome_bind] in Hs1.
      assert (Hn : ~ is_due s (base x)) by (apply (Hrest q); [done|]; unfold base_of; by rewrite Hx).
      unfold is_due in Hn. destruct (timercmp_lt _ (clock s)); [done|]. injection Hs1 as <-.
      eexists _, _. split; [done|]. split_and!; [by rewrite app_nil_r|exact Hq|cbn; apply lookup_insert_eq|done].
  - rewrite Hi. destruct (consume_ok submitted i s Hok) as (s1 & Hs1 & Hok1). rewrite Hs1. run.
    unfold gzochid_schedule_task_executor in Hs1. rewrite Hr, Hq in Hs1. cbn [negb app] in Hs1.
    apply Forall_cons in Hdue as [Hp Hdue]. unfold get_pending in Hs1.
    destruct (pending s !! p) as [x|] eqn:Hx; [|done]. cbn [deref mbind outcome_bind] in Hs1.
    assert (Hd : is_due s (base x)) by (apply Hp; unfold base_of; by rewrite Hx).
    unfold is_due in Hd. rewrite Hd in Hs1. injection Hs1 as <-.
    destruct (IH _ Hok1 eq_refl Hr Hi) as (s' & c & Hrun & Hpool & H); [exact Hdue|exact Hrest|].
    exists s', c. split; [exact Hrun|]. split; [|exact H]. rewrite Hpool. cbn. by rewrite <- app_assoc.
Qed.

(** In a sorted queue the due tasks come first. *)
Lemma due_first submitted s :
  sched_ok submitted s ->
  exists due rest, queue s = due ++ rest
    /\ Forall (fun p => forall t, base_of s p = Some t -> is_due s t) due
    /\ Forall (fun p => forall t, base_of s p = Some t -> ~ is_due s t) rest.
Proof.
  intros [Ha _ _ _ Hs _ _]. assert (Hq : Forall (alive s) (queue s)) by (by apply Forall_app in Ha as [? _]).
  clear Ha. induction Hs as [|p l Hs IH Hp]; [by exists [], []|].
  apply Forall_cons in Hq as [(x & Hx & _ & Qx) Hq]. destruct (decide (is_due s (base x))) as [Hd|Hd].
  - destruct (IH Hq) as (due & rest & -> & Hdue & Hrest). exists (p :: due), rest. split_and!; [done| |done].
    constructor; [|done]. intros t. unfold base_of. rewrite Hx. by intros [= <-].
  - exists [], (p :: l). split_and!; [done|constructor|]. constructor.
    + intros t. unfold base_of. rewrite Hx. by intros [= <-].
    + rewrite Forall_forall in Hp, Hq |- *. intros q Hin t Ht. destruct (Hq q Hin) as (y & Hy & _ & Qy).
      assert (base y = t) as <- by (unfold base_of in Ht; rewrite Hy in Ht; by injection Ht).
      assert (Hb : pending_task_compare (base x) (base y) <= 0).
      { apply (Hp q Hin); unfold base_of; [by rewrite Hx|by rewrite Hy]. }
      apply compare_sign in Hb; [|done..]. unfold is_due, no_later in *. intros Hy'. apply Hd.
      by apply (timercmp_le_lt _ (target_execution_time (base y))).
Qed.

(** What the time of an execution has to be after: the time of a task, and for a chain, which
    is executed as a whole, the time of the first of its tasks only. *)
Definition started_after t (at_time : timeval) : Prop :=
  match t with
  | Task _ target => timercmp_lt target at_time = true
  | ChainTask ts _ => exists first, head ts = Some first /\ timercmp_lt (target_execution_time first) at_time = true
  end.

Lemma submitted_timed evs : Forall event_ok evs -> Forall chain_timed (concat (submitted_by <$> evs)).
Proof.
  induction 1 as [|e evs He _ IH]; cbn; [constructor|]. apply Forall_app. split; [|exact IH].
  destruct e as [now|t|[|t ts]|t|p|i|i| | |n|n]; cbn in *; try constructor; try done; try apply He.
  by exists t.
Qed.

Lemma executed_after submitted s :
  Forall chain_timed submitted -> sched_ok submitted s ->
  Forall (fun x => started_after x.1 x.2) (executed s).
Proof.
  intros Ht Hs. rewrite Forall_forall in Ht. apply Forall_forall. intros [t tv] Hin.
  assert (Htimed : chain_timed t).
  { apply Ht. rewrite (so_all _ _ Hs). apply elem_of_app. right. by apply (list_elem_of_fmap_2 fst _ (t, tv)). }
  pose proof (so_executed _ _ Hs) as He. rewrite Forall_forall in He. specialize (He _ Hin).
  destruct t as [work target|ts target]; cbn in *; [done|]. destruct Htimed as (first & Hf & ->). by exists first.
Qed.

(** C37. The task queue executes everything once and not too soon, and feeds the pool with
    all that is due.  Whatever callers, consumers and the threads of the pool do, in any
    order, nothing that was freed is used; what was submitted is, each task and each chain
    once, in the queue, in the pool or executed.  A single task was executed after its time;
    a chain, whose tasks run one after the other, after the time of its first task: the times
    of the others are not waited for.  Then a consumer at the head of its loop needs one turn
    for each due task or chain in the queue, and one more, to hand all of them and no others
    to the pool, in the order of the queue, and waits. *)
Theorem task_queue_serves evs now :
  Forall event_ok evs ->
  exists s, sched_run ins evs (gzochid_schedule_task_queue_new now) = Ret s
    /\ concat (submitted_by <$> evs) ≡ₚ tasks_of s (queue s ++ pool s) ++ (executed s).*1
    /\ Forall (fun x => started_after x.1 x.2) (executed s)
    /\ (forall i, running s = true -> consumers s !! i = Some Looping ->
         exists due rest s' c, queue s = due ++ rest
           /\ Forall (is_due s) (tasks_of s due) /\ Forall (fun t => ~ is_due s t) (tasks_of s rest)
           /\ consume_turns (S (length due)) i s = Ret s'
           /\ queue s' = rest /\ pool s' = pool s ++ due /\ consumers s' !! i = Some (Waiting c)).
Proof.
  intros He. destruct (run_ok evs [] _ He (new_ok now)) as (s & Hs & Hok). exists s. split; [done|].
  split; [apply Hok|]. split; [by apply (executed_after _ _ (submitted_timed _ He))|]. intros i Hr Hi.
  destruct (due_first _ s Hok) as (due & rest & Hq & Hdue & Hrest).
  destruct (consume_all _ i due rest s Hok Hq Hr Hi Hdue) as (s' & c & Hrun & Hp & Hq' & Hc & _).
  { intros p t Hp Ht. destruct rest as [|q rest]; [done|]. injection Hp as ->.
    apply Forall_cons in Hrest as [Hn _]. by apply Hn. }
  assert (Htasks : forall (P : gzochid_task K -> Prop) l,
    Forall (fun p => forall t, base_of s p = Some t -> P t) l -> Forall P (tasks_of s l)).
  { intros P l. unfold tasks_of. induction 1 as [|p l Hl _ IH]; cbn; [constructor|].
    destruct (base_of s p); [|exact IH]. constructor; [by apply Hl|exact IH]. }
  exists due, rest, s', c. split_and!; [done|by apply Htasks|by apply (Htasks (fun t => ~ is_due s t))|done..].
Qed.

End runs.

(** *** A run of the queue *)

Definition sample_run_events : list (sched_event nat) :=
  [Start; Submit (Task 1%nat (Timeval 5 0)); RunTask (Task 2%nat (Timeval 3 0));
   SubmitChain [Task 3%nat (Timeval 9 0); Task 4%nat (Timeval 20 0)]; Consume 1; Wake 1; Tick (Timeval 10 0)].

Lemma task_queue_serves_witness :
  exists s s' c, sched_run insert_before sample_run_events (gzochid_schedule_task_queue_new (Timeval 0 0)) = Ret s
    /\ length (queue s) = 3%nat /\ consume_turns insert_before 4 1 s = Ret s' /\ queue s' = []
    /\ consumers s' !! 1%positive = Some (Waiting c).
Proof.
  destruct (task_queue_serves insert_before sample_run_events (Timeval 0 0)) as (s & Hs & _ & _ & H).
  { unfold sample_run_events. rewrite !Forall_cons, Forall_nil. cbn. unfold due_ok, time_ok. cbn.
    split_and!; try done; try lia. eexists. split; [reflexivity|]. cbn. lia. }
  assert (Hstate : running s = true /\ consumers s !! 1%positive = Some Looping /\ length (queue s) = 3%nat
    /\ forall p, p ∈ queue s -> exists t, base_of s p = Some t /\ is_due s t).
  { vm_compute in Hs. injection Hs as <-. split_and!; [reflexivity..|]. intros p Hp.
    repeat (apply elem_of_cons in Hp as [->|Hp]; [eexists; split; [reflexivity|by vm_compute]|]).
    by apply not_elem_of_nil in Hp. }
  destruct Hstate as (Hr & Hi & Hlen & Hall).
  destruct (H 1%positive Hr Hi) as (due & rest & s' & c & Hq & Hdue & Hrest & Hrun & Hq' & Hp & Hc).
  assert (rest = []) as ->.
  { destruct rest as [|p rest]; [done|]. destruct (Hall p) as (t & Ht & Hd).
    { rewrite Hq. apply elem_of_app. right. by left. }
    exfalso. unfold tasks_of in Hrest. cbn in Hrest. rewrite Ht in Hrest.
    apply Forall_cons in Hrest as [Hn _]. by apply Hn. }
  rewrite app_nil_r in Hq. rewrite Hq in Hlen. rewrite Hlen in Hrun.
  exists s, s', c. split_and!; [exact Hs|by rewrite Hq|exact Hrun|exact Hq'|exact Hc].
Defined.

(** The later tasks of a chain do not wait until they are due. *)
Example chain_ignores_times :
  match sched_run insert_before
          [Start; SubmitChain [Task 1%nat (Timeval 1 0); Task 2%nat (Timeval 1000 0)]; Tick (Timeval 2 0);
           Consume 1; Pick 0] (gzochid_schedule_task_queue_new (Timeval 0 0)) with
  | Ret s => concat ((fun x => gzochid_schedule_execute_task x.1) <$> executed s) = [1%nat; 2%nat]
             /\ clock s = Timeval 2 0
  | _ => False
  end.
Proof. by vm_compute. Qed.

(** A queue that is started while somebody stops it keeps the stopped consumer, for which the
    one who stops waits, at its work beside the new one. *)
Example stopped_consumer_stays :
  match sched_run insert_before
          [Start; Consume 1; Stop; Start; Submit (Task 1%nat (Timeval 1 0)); Tick (Timeval 2 0);
           Consume 1; Consume 1; Consume 2] (gzochid_schedule_task_queue_new (Timeval 0 0)) with
  | Ret s => consumer_thread s = Some 2%positive /\ consumers s !! 1%positive = Some (Waiting None)
             /\ length (pool s) = 1%nat
  | _ => False
  end.
Proof. by vm_compute. Qed.
