(* ===== verification/Resolver.v ===== *)
(** * Component resolution (resolver.c)

    The resolver constructs an object of a class with everything it depends on: the
    parameters of its constructor that are objects.  It builds a tree of constructors with
    a stack, in which a type that is its own ancestor is an error, and then calls the
    constructors in post-order.  Each class has one instance in a context.

    The classes with their properties are a parameter, and so is whether a constructor takes
    over the floating reference of the context.  References are not counted.  Constructors
    that use the context themselves while they run are left out.  The cache of instances
    is a hash table over [gint] keys: of a type, which is as wide as a pointer, it sees 32
    bits. *)

From S2P Require Import Prelude.

Local Open Scope Z_scope.

Abbreviation GType := Z.

(** ** Constructors *)

Record GParamSpec := ParamSpec {
  name : string;
  value_type : GType;
  writable : bool;
  construct : bool;
  construct_only : bool
}.

(** The class is given by its type. *)
Record constructor := Constructor { klass : GType; parameters : list GParamSpec }.

Inductive resolution_error :=
| GZOCHID_RESOLUTION_ERROR_CIRCULAR_DEPENDENCY
| GZOCHID_RESOLUTION_ERROR_INCOMPATIBLE_CONSTRUCTOR
| GZOCHID_RESOLUTION_ERROR_DUPLICATE_TYPE.

(** What [g_int_hash] and [g_int_equal] see of a type. *)
Definition type_key (t : GType) : Z := s32 t.

(** An object with its class and the objects it was constructed with. *)
Record gobject := GObject { type_of : GType; arguments : list (string * positive) }.

(** A context, which is an object itself, and all objects. *)
Record GzochidResolutionContext := ResolutionContext {
  self : positive;
  instances : gmap Z positive;
  forsaken_instances : list positive;
  floating : bool;
  objects : gmap positive gobject
}.

Section resolver.

(** The properties of a class, whether a type is one of objects, whether the constructor
    of a class sinks the context, and the type of contexts. *)
Context (list_properties : GType -> list GParamSpec).
Context (is_object : GType -> bool).
Context (sinks : GType -> bool).
Context (context_type : GType).

Definition gzochid_resolution_context_init (objects : gmap positive gobject) : GzochidResolutionContext :=
  let self := fresh (dom objects) in
  ResolutionContext self {[ type_key context_type := self ]} [] true
    (<[self := GObject context_type []]> objects).

Definition contains (t : GType) (ctx : GzochidResolutionContext) : bool :=
  bool_decide (is_Some (instances ctx !! type_key t)).

Definition is_injectable (pspec : GParamSpec) : bool :=
  is_object (value_type pspec) && writable pspec && (construct pspec || construct_only pspec).

(** The first pass over the properties. *)
Fixpoint has_uninjectable (properties : list GParamSpec) : bool :=
  match properties with
  | [] => false
  | pspec :: properties =>
      if is_injectable pspec then has_uninjectable properties
      else if construct_only pspec then true
      else has_uninjectable properties
  end.

Definition injectable_constructor_for_type (t : GType) : constructor + resolution_error :=
  let properties := list_properties t in
  if has_uninjectable properties then inr GZOCHID_RESOLUTION_ERROR_INCOMPATIBLE_CONSTRUCTOR
  else inl (Constructor t (base.filter (fun p => is_injectable p = true) properties)).

Definition extract_dependencies (ctor : constructor) : list GType := value_type <$> parameters ctor.

(** ** The dependency tree

    GLib's trees: nodes with pointers to their parents and children. *)

Record GNode := Node {
  data : constructor;
  parent : option positive;
  children : list positive
}.

Abbreviation nodes := (gmap positive GNode).

Definition g_node_new (ctor : constructor) (h : nodes) : positive * nodes :=
  let p := fresh (dom h) in (p, <[p := Node ctor None []]> h).

(** [g_node_insert (p, -1, q)] *)
Definition g_node_append (p q : positive) (h : nodes) : outcome nodes :=
  n ← deref (h !! q);
  let h := <[q := Node (data n) (Some p) (children n)]> h in
  n ← deref (h !! p);
  Ret (<[p := Node (data n) (parent n) (children n ++ [q])]> h).

Record tree_state := TreeState { state_node : positive; state_types : list GType }.

Fixpoint has_ancestor_loop (fuel : nat) (h : nodes) (node : option positive) (t : GType) : outcome bool :=
  match fuel with
  | O => Fuel
  | S fuel =>
      match node with
      | None => Ret false
      | Some p =>
          n ← deref (h !! p);
          if klass (data n) =? t then Ret true else has_ancestor_loop fuel h (parent n) t
      end
  end.

Definition has_ancestor_with_type (h : nodes) (node : positive) (t : GType) : outcome bool :=
  has_ancestor_loop (S (size h)) h (Some node) t.

(** The state at the top without its first type, and what to put on the stack. *)
Definition build_dependency_tree_inner (ctx : GzochidResolutionContext) (state : tree_state) (h : nodes)
  : outcome ((option tree_state + resolution_error) * tree_state * nodes) :=
  match state_types state with
  | [] => Ret (inl None, state, h)
  | t :: types =>
      let state := TreeState (state_node state) types in
      if contains t ctx then Ret (inl None, state, h)
      else
        circular ← has_ancestor_with_type h (state_node state) t;
        if circular : bool then Ret (inr GZOCHID_RESOLUTION_ERROR_CIRCULAR_DEPENDENCY, state, h)
        else
          match injectable_constructor_for_type t with
          | inr e => Ret (inr e, state, h)
          | inl ctor =>
              let '(new_node, h) := g_node_new ctor h in
              h ← g_node_append (state_node state) new_node h;
              Ret (inl (Some (TreeState new_node (extract_dependencies ctor))), state, h)
          end
  end.

Fixpoint build_loop (fuel : nat) (ctx : GzochidResolutionContext) (stack : list tree_state) (h : nodes)
  : outcome (nodes + resolution_error) :=
  match fuel with
  | O => Fuel
  | S fuel =>
      match stack with
      | [] => Ret (inl h)
      | state :: stack =>
          match state_types state with
          | [] => build_loop fuel ctx stack h
          | _ =>
              '(res, state, h) ← build_dependency_tree_inner ctx state h;
              match res with
              | inr e => Ret (inr e)
              | inl None => build_loop fuel ctx (state :: stack) h
              | inl (Some new_state) => build_loop fuel ctx (new_state :: state :: stack) h
              end
          end
      end
  end.

Definition build_dependency_tree (fuel : nat) (ctx : GzochidResolutionContext) (root_type : GType)
  : outcome ((positive * nodes) + resolution_error) :=
  match injectable_constructor_for_type root_type with
  | inr e => Ret (inr e)
  | inl ctor =>
      let '(root, h) := g_node_new ctor ∅ in
      r ← build_loop fuel ctx [TreeState root (extract_dependencies ctor)] h;
      Ret (match r with inl h => inl (root, h) | inr e => inr e end)
  end.

(** ** Construction *)

Fixpoint collect_parameters (l : list GParamSpec) (ctx : GzochidResolutionContext)
  : outcome (list (string * positive)) :=
  match l with
  | [] => Ret []
  | pspec :: l =>
      _ ← c_assert (contains (value_type pspec) ctx);
      obj ← deref (instances ctx !! type_key (value_type pspec));
      l ← collect_parameters l ctx;
      Ret ((name pspec, obj) :: l)
  end.

(** [g_object_newv] *)
Definition object_new (t : GType) (args : list (string * positive)) (ctx : GzochidResolutionContext)
  : positive * GzochidResolutionContext :=
  let inst := fresh (dom (objects ctx)) in
  (inst, ResolutionContext (self ctx) (instances ctx) (forsaken_instances ctx)
           (floating ctx && negb (sinks t))
           (<[inst := GObject t args]> (objects ctx))).

Definition add_instance (t : GType) (inst : positive) (ctx : GzochidResolutionContext) :=
  ResolutionContext (self ctx) (<[type_key t := inst]> (instances ctx)) (forsaken_instances ctx)
    (floating ctx) (objects ctx).

(** An instance that holds the context. *)
Definition forsake (inst : positive) (ctx : GzochidResolutionContext) :=
  ResolutionContext (self ctx) (instances ctx) (inst :: forsaken_instances ctx) true (objects ctx).

Definition construct_instance (ctor : constructor) (ctx : GzochidResolutionContext)
  : outcome GzochidResolutionContext :=
  let t := klass ctor in
  if contains t ctx then Ret ctx
  else
    match parameters ctor with
    | [] => let '(inst, ctx) := object_new t [] ctx in Ret (add_instance t inst ctx)
    | _ =>
        params ← collect_parameters (parameters ctor) ctx;
        let '(inst, ctx) := object_new t params ctx in
        let ctx := if floating ctx then ctx else forsake inst ctx in
        Ret (add_instance t inst ctx)
    end.

(** [g_node_traverse], in post-order. *)
Fixpoint traverse_list (f : positive -> GzochidResolutionContext -> outcome GzochidResolutionContext)
    (l : list positive) (ctx : GzochidResolutionContext) : outcome GzochidResolutionContext :=
  match l with
  | [] => Ret ctx
  | p :: l => ctx ← f p ctx; traverse_list f l ctx
  end.

Fixpoint g_node_traverse (fuel : nat) (h : nodes) (p : positive) (ctx : GzochidResolutionContext)
  : outcome GzochidResolutionContext :=
  match fuel with
  | O => Fuel
  | S fuel =>
      n ← deref (h !! p);
      ctx ← traverse_list (g_node_traverse fuel h) (children n) ctx;
      construct_instance (data n) ctx
  end.

Definition gzochid_resolver_require_full (fuel : nat) (ctx : GzochidResolutionContext) (t : GType)
  : outcome ((positive + resolution_error) * GzochidResolutionContext) :=
  if contains t ctx then
    inst ← deref (instances ctx !! type_key t); Ret (inl inst, ctx)
  else
    tree ← build_dependency_tree fuel ctx t;
    match tree with
    | inr e => Ret (inr e, ctx)
    | inl (root, h) =>
        ctx ← g_node_traverse fuel h root ctx;
        inst ← deref (instances ctx !! type_key t);
        Ret (inl inst, ctx)
    end.

Definition gzochid_resolver_require (fuel : nat) (objects : gmap positive gobject) (t : GType)
  : outcome ((positive + resolution_error) * GzochidResolutionContext) :=
  gzochid_resolver_require_full fuel (gzochid_resolution_context_init objects) t.

Definition gzochid_resolver_provide (obj : positive) (ctx : GzochidResolutionContext)
  : outcome (option resolution_error * GzochidResolutionContext) :=
  o ← deref (objects ctx !! obj);
  Ret (if contains (type_of o) ctx then (Some GZOCHID_RESOLUTION_ERROR_DUPLICATE_TYPE, ctx)
       else (None, add_instance (type_of o) obj ctx)).

(** The instances of the source but itself, over those of a new context. *)
Definition gzochid_resolver_clone (src : GzochidResolutionContext) : GzochidResolutionContext :=
  let dst := gzochid_resolution_context_init (objects src) in
  ResolutionContext (self dst)
    (base.delete (type_key context_type) (instances src) ∪ instances dst) (forsaken_instances dst)
    (floating dst) (objects dst).

(** The instances that lose a reference with the context, in the order of the table. *)
Definition gzochid_resolution_context_dispose (values : gmap Z positive -> list positive)
    (ctx : GzochidResolutionContext) : list positive :=
  base.filter (fun o => o ∉ forsaken_instances ctx)
    (values (base.delete (type_key context_type) (instances ctx))).

End resolver.

(** ** The tree as a tree

    What the loop computes, by recursion on the constructors: [path] has the type and its
    ancestors. *)

Inductive dtree := DNode (ctor : constructor) (children : list dtree).

Section specification.

Context {list_properties : GType -> list GParamSpec} {is_object : GType -> bool}.
Context {sinks : GType -> bool}.

Abbreviation ctor_for := (injectable_constructor_for_type list_properties is_object).
Abbreviation loop := (build_loop list_properties is_object).

Definition klass_of (t : dtree) : GType := match t with DNode c _ => klass c end.

Section expand.

Context (ctx : GzochidResolutionContext).

Fixpoint expand_list (f : GType -> outcome (dtree + resolution_error)) (path : list GType) (types : list GType)
  : outcome (list dtree + resolution_error) :=
  match types with
  | [] => Ret (inl [])
  | u :: types =>
      if contains u ctx then expand_list f path types
      else if bool_decide (u ∈ path) then Ret (inr GZOCHID_RESOLUTION_ERROR_CIRCULAR_DEPENDENCY)
      else
        r ← f u;
        match r with
        | inr e => Ret (inr e)
        | inl d =>
            r ← expand_list f path types;
            Ret (match r with inl l => inl (d :: l) | inr e => inr e end)
        end
  end.

Fixpoint expand (fuel : nat) (path : list GType) (t : GType) : outcome (dtree + resolution_error) :=
  match fuel with
  | O => Fuel
  | S fuel =>
      match ctor_for t with
      | inr e => Ret (inr e)
      | inl c =>
          r ← expand_list (expand fuel (t :: path)) (t :: path) (extract_dependencies c);
          Ret (match r with inl l => inl (DNode c l) | inr e => inr e end)
      end
  end.

Lemma expand_S n path t :
  expand (S n) path t
  = match ctor_for t with
    | inr e => Ret (inr e)
    | inl c =>
        r ← expand_list (expand n (t :: path)) (t :: path) (extract_dependencies c);
        Ret (match r with inl l => inl (DNode c l) | inr e => inr e end)
    end.
Proof. done. Qed.

(** ** The loop builds the tree *)

Fixpoint tree_in (h : gmap positive GNode) (fp : positive -> Prop) (par : option positive) (t : dtree) (p : positive)
  : Prop :=
  match t with
  | DNode c ts => exists cs, h !! p = Some (Node c par cs) /\ fp p
      /\ (fix go (ts : list dtree) (cs : list positive) : Prop :=
            match ts, cs with
            | [], [] => True
            | t :: ts, q :: cs => tree_in h fp (Some p) t q /\ go ts cs
            | _, _ => False
            end) ts cs
  end.

Definition trees_in h fp par (ts : list dtree) (cs : list positive) : Prop := Forall2 (tree_in h fp par) ts cs.

Lemma tree_in_node h fp par c ts p :
  tree_in h fp par (DNode c ts) p
  <-> exists cs, h !! p = Some (Node c par cs) /\ fp p /\ trees_in h fp (Some p) ts cs.
Proof.
  cbn [tree_in]. unfold trees_in.
  split; intros (cs & Hp & Hfp & Hcs); exists cs; (split; [done|]); (split; [done|]); clear -Hcs.
  - revert cs Hcs. induction ts as [|t ts IH]; intros [|q cs] H; try done. destruct H. constructor; auto.
  - induction Hcs; [done|]. by split.
Qed.

Fixpoint dtree_forall_ind (P : dtree -> Prop) (H : forall c ts, Forall P ts -> P (DNode c ts)) (t : dtree) : P t :=
  match t with
  | DNode c ts => H c ts ((fix go ts := match ts return Forall P ts with
                                        | [] => @List.Forall_nil _ P
                                        | t :: ts => @List.Forall_cons _ P t ts (dtree_forall_ind P H t) (go ts)
                                        end) ts)
  end.

Lemma trees_in_mono_strong h h' (fp fp' : positive -> Prop) par ts cs :
  Forall (fun t => forall par p, tree_in h fp par t p -> tree_in h' fp' par t p) ts ->
  trees_in h fp par ts cs -> trees_in h' fp' par ts cs.
Proof. intros HF H. induction H; [constructor|]. inversion_clear HF. constructor; [auto|by apply IHForall2]. Qed.

(** A tree stays where its nodes stay. *)
Lemma tree_in_mono h h' (fp fp' : positive -> Prop) t : forall par p,
  (forall q n, fp q -> h !! q = Some n -> h' !! q = Some n) -> (forall q, fp q -> fp' q) ->
  tree_in h fp par t p -> tree_in h' fp' par t p.
Proof.
  induction t as [c ts IH] using dtree_forall_ind. intros par p Hh Hfp.
  rewrite !tree_in_node. intros (cs & Hp & Hf & Hcs). exists cs. split; [by apply Hh|]. split; [by apply Hfp|].
  eapply trees_in_mono_strong; [|exact Hcs]. eapply Forall_impl; [exact IH|]. intros t Ht par' p'. by apply Ht.
Qed.

Lemma trees_in_mono h h' (fp fp' : positive -> Prop) par ts cs :
  (forall q n, fp q -> h !! q = Some n -> h' !! q = Some n) -> (forall q, fp q -> fp' q) ->
  trees_in h fp par ts cs -> trees_in h' fp' par ts cs.
Proof.
  intros Hh Hfp. apply trees_in_mono_strong. apply Forall_forall. intros t _ par' p. by apply tree_in_mono.
Qed.

(** The stack is a path in the tree, from its top to the root. *)
Inductive chain (h : gmap positive GNode) : list positive -> list GType -> Prop :=
| chain_nil : chain h [] []
| chain_cons p c cs stack path :
    h !! p = Some (Node c (head stack) cs) -> chain h stack path -> chain h (p :: stack) (klass c :: path).

Lemma chain_mono h h' stack path :
  (forall q c par cs, q ∈ stack -> h !! q = Some (Node c par cs) -> exists cs', h' !! q = Some (Node c par cs')) ->
  chain h stack path -> chain h' stack path.
Proof.
  intros Hh Hc. induction Hc as [|p c cs stack path Hp Hc IH]; [constructor|].
  destruct (Hh p c (head stack) cs) as [cs' Hp']; [by left|done|].
  econstructor; [exact Hp'|]. apply IH. intros q c' par' cs'' Hq. apply Hh. by right.
Qed.

Lemma ancestors_ok h stack path : forall fuel t,
  chain h stack path -> (length stack < fuel)%nat ->
  has_ancestor_loop fuel h (head stack) t = Ret (bool_decide (t ∈ path)).
Proof.
  intros fuel t Hc. revert fuel. induction Hc as [|p c cs stack path Hp Hc IH]; intros [|fuel] Hf;
    cbn [length] in Hf; try lia; cbn [has_ancestor_loop head]; [done|].
  rewrite Hp. run. cbn [data parent]. destruct (Z.eqb_spec (klass c) t) as [<-|Hne].
  - rewrite bool_decide_true; [done|by left].
  - rewrite IH by lia. f_equal. apply bool_decide_ext. rewrite elem_of_cons. naive_solver.
Qed.

Lemma chain_size h stack path : chain h stack path -> NoDup stack -> (length stack <= size h)%nat.
Proof.
  intros Hc Hnd. assert (Hsub : list_to_set stack ⊆ dom h).
  { intros q. rewrite elem_of_list_to_set. clear Hnd. induction Hc as [|p c cs stack path Hp _ IH].
    - by intros ?%not_elem_of_nil.
    - intros [->|Hq]%elem_of_cons; [by apply elem_of_dom; eexists|by apply IH]. }
  apply subseteq_size in Hsub. rewrite size_dom, size_list_to_set in Hsub by done. done.
Qed.

Lemma has_ancestor_ok h p stack path t :
  chain h (p :: stack) path -> NoDup (p :: stack) ->
  has_ancestor_with_type h p t = Ret (bool_decide (t ∈ path)).
Proof.
  intros Hc Hnd. unfold has_ancestor_with_type. change (Some p) with (head (p :: stack)).
  apply ancestors_ok; [done|]. pose proof (chain_size h _ _ Hc Hnd). lia.
Qed.

(** A new child of the node at the top. *)
Lemma append_new (h : gmap positive GNode) p c par cs cu :
  h !! p = Some (Node c par cs) ->
  let q := fresh (dom h) in
  q <> p /\ h !! q = None
  /\ (let '(q, h) := g_node_new cu h in g_node_append p q h)
     = Ret (<[p := Node c par (cs ++ [q])]> (<[q := Node cu (Some p) []]> h)).
Proof.
  intros Hp q. assert (Hq : h !! q = None) by (apply not_elem_of_dom, is_fresh).
  assert (Hne : q <> p) by (intros ->; congruence). split; [done|]. split; [done|].
  unfold g_node_new. fold q. unfold g_node_append. rewrite lookup_insert_eq. run. cbn [data children].
  rewrite insert_insert_eq, lookup_insert_ne, Hp by done. run. done.
Qed.

Lemma chain_fresh h l path q : chain h l path -> h !! q = None -> q ∉ l.
Proof.
  intros Hc Hq. induction Hc as [|x c cs l path Hx _ IH]; [by intros ?%not_elem_of_nil|].
  intros [<-|?]%elem_of_cons; [congruence|auto].
Qed.

Lemma chain_agree h h' l path p c par cs :
  chain h l path -> h !! p = Some (Node c par cs) -> (exists cs', h' !! p = Some (Node c par cs')) ->
  (forall q x, q <> p -> q ∈ l -> h !! q = Some x -> h' !! q = Some x) -> chain h' l path.
Proof.
  intros Hc Hp Hp' Hh. eapply chain_mono; [|exact Hc]. intros x c' par' cs' Hx Hlook.
  destruct (decide (x = p)) as [->|Hxp]; [|exists cs'; by apply Hh].
  rewrite Hp in Hlook. by injection Hlook as <- <- <-.
Qed.

Lemma ctor_klass t c : ctor_for t = inl c -> klass c = t.
Proof. unfold injectable_constructor_for_type. destruct (has_uninjectable _ _); [done|]. by intros [= <-]. Qed.

(** An iteration of the loop. *)
Ltac loop_step :=
  cbn [build_loop state_types]; unfold build_dependency_tree_inner; cbn [state_types state_node].

Definition to_states (stack : list (positive * list GType)) : list tree_state :=
  (fun s => TreeState s.1 s.2) <$> stack.

(** What it means that the state at the top is worked off. *)
Definition worked_off (stack : list (positive * list GType)) p c cs (types : list GType) h
    (r : list dtree + resolution_error) : Prop :=
  let states := to_states stack in
  match r with
  | inl ts => exists k h' new,
      (forall m, loop (k + m) ctx (TreeState p types :: states) h = loop m ctx states h')
      /\ h' !! p = Some (Node c (head stack.*1) (cs ++ new))
      /\ (forall q x, q <> p -> h !! q = Some x -> h' !! q = Some x)
      /\ trees_in h' (fun q => h !! q = None) (Some p) ts new
  | inr e => exists k, forall m, loop (k + m) ctx (TreeState p types :: states) h = Ret (inr e)
  end.

(** An iteration that changes only the types at the top. *)
Lemma worked_off_skip stack p c cs u us h r :
  contains u ctx = true -> worked_off stack p c cs us h r -> worked_off stack p c cs (u :: us) h r.
Proof.
  intros Hu. unfold worked_off. cbv zeta. set (states := to_states stack).
  assert (Hstep : forall m, loop (S m) ctx (TreeState p (u :: us) :: states) h
            = loop m ctx (TreeState p us :: states) h) by (intros m; loop_step; by rewrite Hu).
  destruct r as [ts|e].
  - intros (k & h' & new & Hk & H). exists (S k), h', new. split; [|done].
    intros m. cbn [Nat.add]. by rewrite Hstep.
  - intros (k & Hk). exists (S k). intros m. cbn [Nat.add]. by rewrite Hstep.
Qed.

(** One that puts a new node on the stack, which is worked off before the rest. *)
Lemma worked_off_child stack p c cs u us h path cu rc rs :
  chain h (p :: stack.*1) path -> NoDup (p :: stack.*1) -> h !! p = Some (Node c (head stack.*1) cs) ->
  contains u ctx = false -> u ∉ path -> ctor_for u = inl cu ->
  (forall h q, chain h (q :: p :: stack.*1) (u :: path) -> NoDup (q :: p :: stack.*1) ->
     h !! q = Some (Node cu (Some p) []) ->
     worked_off ((p, us) :: stack) q cu [] (extract_dependencies cu) h rc) ->
  (forall l h cs, rc = inl l -> chain h (p :: stack.*1) path -> h !! p = Some (Node c (head stack.*1) cs) ->
     worked_off stack p c cs us h rs) ->
  worked_off stack p c cs (u :: us) h
    (match rc with inr e => inr e | inl l => match rs with inl ts => inl (DNode cu l :: ts) | inr e => inr e end end).
Proof.
  intros Hc Hnd Hp Hu Hin Hctor Hchild Hrest.
  destruct (append_new h p c (head stack.*1) cs cu Hp) as (Hqp & Hq & Happ). set (q := fresh (dom h)) in *.
  set (h1 := <[p := _]> (<[q := _]> h)) in *.
  assert (Hh1 : forall x y, x <> p -> h !! x = Some y -> h1 !! x = Some y).
  { intros x y Hx Hy. unfold h1. rewrite lookup_insert_ne by done. rewrite lookup_insert_ne; [done|congruence]. }
  assert (Hh1p : h1 !! p = Some (Node c (head stack.*1) (cs ++ [q]))) by (unfold h1; apply lookup_insert_eq).
  assert (Hh1q : h1 !! q = Some (Node cu (Some p) [])) by (unfold h1; by rewrite lookup_insert_ne, lookup_insert_eq).
  assert (Hc1 : chain h1 (p :: stack.*1) path) by (eapply chain_agree; [done|done|eauto|auto]).
  assert (Hqs : q ∉ p :: stack.*1) by (by eapply (chain_fresh h)).
  specialize (Hchild h1 q). rewrite <- (ctor_klass u cu Hctor) in Hchild.
  specialize (Hchild ltac:(by econstructor) ltac:(by constructor) Hh1q).
  unfold worked_off in *. cbv zeta in *. cbn [fmap list_fmap fst snd head] in Hchild.
  change (to_states ((p, us) :: stack)) with (TreeState p us :: to_states stack) in Hchild.
  set (states := to_states stack) in *.
  assert (Hstep : forall m, loop (S m) ctx (TreeState p (u :: us) :: states) h
            = loop m ctx (TreeState q (extract_dependencies cu) :: TreeState p us :: states) h1).
  { intros m. loop_step. rewrite Hu, (has_ancestor_ok h p stack.*1 path) by done.
    rewrite bool_decide_false by done. cbn [mbind outcome_bind]. rewrite Hctor.
    unfold g_node_new in Happ |- *. fold q in Happ |- *. by rewrite Happ. }
  destruct rc as [l|e].
  2: { destruct Hchild as (k & Hk). exists (S k). intros m. cbn [Nat.add]. by rewrite Hstep. }
  destruct Hchild as (k1 & h2 & new1 & Hk1 & Hq2 & Hframe1 & Htrees1).
  specialize (Hrest l h2 (cs ++ [q]) eq_refl ltac:(eapply chain_agree; [exact Hc1|exact Hh1p|eauto|
    intros x y _ Hx Hy; apply Hframe1; [|done]; by intros ->]) ltac:(by apply Hframe1)).
  destruct rs as [ts|e].
  - destruct Hrest as (k2 & h3 & new2 & Hk2 & Hp3 & Hframe2 & Htrees2). exists (S (k1 + k2)), h3, (q :: new2).
    split_and!.
    + intros m. cbn [Nat.add]. by rewrite Hstep, <- Nat.add_assoc, Hk1, Hk2.
    + by rewrite Hp3, <- app_assoc.
    + intros x y Hx Hy. apply Hframe2; [done|]. apply Hframe1; [congruence|by apply Hh1].
    + constructor.
      * apply tree_in_node. exists new1. split; [by apply Hframe2|]. split; [done|].
        eapply trees_in_mono; [| |exact Htrees1]; cbn.
        { intros x y Hx Hy. apply Hframe2; [|done]. intros ->. congruence. }
        { intros x Hx. destruct (h !! x) as [y|] eqn:Hy; [|done].
          destruct (decide (x = p)) as [->|Hxp]; [congruence|]. by rewrite (Hh1 x y Hxp Hy) in Hx. }
      * eapply trees_in_mono; [done| |exact Htrees2]. cbn. intros x Hx.
        destruct (h !! x) as [y|] eqn:Hy; [|done]. destruct (decide (x = p)) as [->|Hxp].
        { by rewrite (Hframe1 p _ ltac:(congruence) Hh1p) in Hx. }
        { by rewrite (Hframe1 x y ltac:(congruence) (Hh1 x y Hxp Hy)) in Hx. }
  - destruct Hrest as (k2 & Hk2). exists (S (k1 + k2)). intros m. cbn [Nat.add].
    by rewrite Hstep, <- Nat.add_assoc, Hk1, Hk2.
Qed.

(** Working off the types of the state at the top. *)
Lemma loop_types (n : nat) : forall types p stack h c cs path r,
  chain h (p :: stack.*1) path -> NoDup (p :: stack.*1) -> h !! p = Some (Node c (head stack.*1) cs) ->
  expand_list (expand n path) path types = Ret r -> worked_off stack p c cs types h r.
Proof.
  induction n as [|n IHn]; intros types; induction types as [|u us IHus];
    intros p stack h c cs path r Hc Hnd Hp Hr; cbn [expand_list] in Hr.
  1, 3: injection Hr as <-; exists 1%nat, h, []; split; [done|]; rewrite app_nil_r; split; [done|];
    split; [done|constructor].
  all: destruct (contains u ctx) eqn:Hu; [eapply worked_off_skip; [done|by eapply IHus]|].
  all: pose proof (has_ancestor_ok h p stack.*1 path u Hc Hnd) as Hanc.
  all: destruct (bool_decide_reflect (u ∈ path)) as [Hin|Hin];
    [injection Hr as <-; exists 1%nat; intros m; cbn [Nat.add]; loop_step; by rewrite Hu, Hanc|].
  { done. }
  rewrite expand_S in Hr. destruct (ctor_for u) as [cu|e] eqn:Hctor.
  2: { injection Hr as <-. exists 1%nat. intros m. cbn [Nat.add]. loop_step. rewrite Hu, Hanc.
    cbn [mbind outcome_bind]. by rewrite Hctor. }
  destruct (expand_list (expand n (u :: path)) (u :: path) (extract_dependencies cu)) as [rc| | |] eqn:Hrc;
    [|done..].
  cbn [mbind outcome_bind] in Hr.
  assert (Hrest : exists rs, r = (match rc with inr e => inr e
    | inl l => match rs with inl ts => inl (DNode cu l :: ts) | inr e => inr e end end)
    /\ forall l, rc = inl l -> expand_list (expand (S n) path) path us = Ret rs).
  { destruct rc as [l|e]; [|injection Hr as <-; by exists (inr e)].
    apply bind_Ret in Hr as (rs & Hrs & [= <-]). by exists rs. }
  destruct Hrest as (rs & -> & Hrs).
  eapply worked_off_child; [done..| |].
  - intros h0 q Hcq Hndq Hq. by eapply IHn.
  - intros l h0 cs0 Hl Hc0 Hp0. eapply IHus; [done..|]. by eapply Hrs.
Qed.

Lemma build_ok (n : nat) root r :
  expand n [] root = Ret r ->
  exists k, forall m, exists p h,
    build_dependency_tree list_properties is_object (k + m) ctx root
    = Ret (match r with inl _ => inl (p, h) | inr e => inr e end)
    /\ match r with inl t => tree_in h (fun _ => True) None t p | inr _ => True end.
Proof.
  destruct n as [|n]; [done|]. rewrite expand_S. unfold build_dependency_tree.
  destruct (ctor_for root) as [c|e] eqn:Hctor.
  2: { intros [= <-]. exists 0%nat. intros m. by exists 1%positive, ∅. }
  intros (rs & Hrs & [= <-])%bind_Ret. unfold g_node_new. set (p := fresh (dom ∅)).
  set (h := <[p := Node c None []]> ∅).
  assert (Hp : h !! p = Some (Node c None [])) by apply lookup_insert_eq.
  assert (Hc : chain h [p] [root]).
  { rewrite <- (ctor_klass root c Hctor). econstructor; [exact Hp|constructor]. }
  pose proof (loop_types n (extract_dependencies c) p [] h c [] [root] rs Hc
    (NoDup_singleton p) Hp Hrs) as Hw.
  destruct rs as [ts|e].
  - destruct Hw as (k & h' & new & Hk & Hp' & _ & Htrees). exists (S k). intros m. exists p, h'.
    cbn [to_states fmap list_fmap] in Hk. replace (S k + m)%nat with (k + S m)%nat by lia. rewrite Hk. split; [done|].
    apply tree_in_node. exists new. split; [exact Hp'|]. split; [done|].
    by eapply trees_in_mono; [| |exact Htrees].
  - destruct Hw as (k & Hk). exists k. intros m. exists p, h. cbn [to_states fmap list_fmap] in Hk.
    by rewrite Hk.
Qed.

(** ** The expansion ends *)

(** Types whose dependencies are among them. *)
Definition closed (U : list GType) : Prop :=
  forall t c u, t ∈ U -> ctor_for t = inl c -> u ∈ extract_dependencies c -> u ∈ U.

Lemma expand_list_ends f path types :
  (forall u, u ∈ types -> contains u ctx = false -> u ∉ path -> exists r, f u = Ret r) ->
  exists r, expand_list f path types = Ret r.
Proof.
  induction types as [|u us IH]; intros Hf; [by eexists|]. cbn [expand_list].
  destruct IH as (rs & Hrs); [intros v Hv; apply Hf; by right|].
  destruct (contains u ctx) eqn:Hu; [by eexists|]. case_bool_decide as Hin; [by eexists|].
  destruct (Hf u) as (r & ->); [by left|done..|]. run. destruct r; [|by eexists]. rewrite Hrs. by eexists.
Qed.

(** A path without repetitions is no longer than there are types. *)
Lemma expand_ends U : closed U -> forall n path t,
  NoDup (t :: path) -> t :: path ⊆ U -> (length U < n + length (t :: path))%nat ->
  exists r, expand n path t = Ret r.
Proof.
  intros HU. induction n as [|n IH]; intros path t Hnd Hsub Hn.
  { exfalso. pose proof (NoDup_submseteq _ _ Hnd Hsub) as Hlen%submseteq_length. simpl in *. lia. }
  rewrite expand_S. destruct (ctor_for t) as [c|e] eqn:Hc; [|by eexists].
  destruct (expand_list_ends (expand n (t :: path)) (t :: path) (extract_dependencies c)) as (r & ->); [|by eexists].
  intros u Hu _ Hin. apply IH.
  - by constructor.
  - intros x [->|Hx]%elem_of_cons; [|by apply Hsub]. eapply (HU t); [apply Hsub; by left|done..].
  - cbn [length] in *. lia.
Qed.

(** ** What the expansion says *)

(** The dependencies that are to be constructed. *)
Definition depends (t u : GType) : Prop :=
  exists c, ctor_for t = inl c /\ u ∈ extract_dependencies c /\ contains u ctx = false.

Definition faulty (e : resolution_error) (root : GType) : Prop :=
  match e with
  | GZOCHID_RESOLUTION_ERROR_CIRCULAR_DEPENDENCY => exists v, rtc depends root v /\ tc depends v v
  | GZOCHID_RESOLUTION_ERROR_INCOMPATIBLE_CONSTRUCTOR =>
      exists v, rtc depends root v /\ ctor_for v = inr GZOCHID_RESOLUTION_ERROR_INCOMPATIBLE_CONSTRUCTOR
  | GZOCHID_RESOLUTION_ERROR_DUPLICATE_TYPE => False
  end.

Lemma faulty_step e t u : depends t u -> faulty e u -> faulty e t.
Proof.
  intros Hd. destruct e; cbn; try done; intros (v & Hv & H); exists v; (split; [by eapply rtc_l|done]).
Qed.

Lemma expand_list_error f path types e :
  expand_list f path types = Ret (inr e) ->
  exists u, u ∈ types /\ contains u ctx = false
    /\ (u ∈ path /\ e = GZOCHID_RESOLUTION_ERROR_CIRCULAR_DEPENDENCY \/ f u = Ret (inr e)).
Proof.
  induction types as [|u us IH]; cbn [expand_list]; [done|].
  assert (Hus : expand_list f path us = Ret (inr e) -> exists v, v ∈ u :: us /\ contains v ctx = false
    /\ (v ∈ path /\ e = GZOCHID_RESOLUTION_ERROR_CIRCULAR_DEPENDENCY \/ f v = Ret (inr e))).
  { intros H. destruct (IH H) as (v & Hv & Hrest). exists v. split; [by right|done]. }
  destruct (contains u ctx) eqn:Hu; [done|]. case_bool_decide as Hin.
  { intros [= <-]. exists u. split; [by left|]. split; [done|]. by left. }
  intros (r & Hr & H)%bind_Ret. destruct r as [d|e'].
  - apply bind_Ret in H as ([l|e'] & Hl & H); [done|]. injection H as ->. by apply Hus.
  - injection H as ->. exists u. split; [by left|]. split; [done|]. by right.
Qed.

(** An error names a fault; the path leads to the type. *)
Lemma expand_faulty n : forall path t e,
  (forall a, a ∈ path -> tc depends a t) -> expand n path t = Ret (inr e) -> faulty e t.
Proof.
  induction n as [|n IH]; intros path t e Hpath; [done|]. rewrite expand_S.
  destruct (ctor_for t) as [c|e'] eqn:Hc.
  - intros (r & Hr & H)%bind_Ret. destruct r as [l|e']; [done|]. injection H as ->.
    apply expand_list_error in Hr as (u & Hu & Hcu & Hcase).
    assert (Hd : depends t u) by (by exists c). destruct Hcase as [[Hin ->]|Hf].
    + exists u. split; [by apply rtc_once|]. apply elem_of_cons in Hin as [->|Hin]; [by apply tc_once|].
      eapply tc_r; [by apply Hpath|done].
    + eapply faulty_step; [exact Hd|]. eapply IH; [|exact Hf].
      intros a [->|Ha]%elem_of_cons; [by apply tc_once|]. eapply tc_r; [by apply Hpath|done].
  - intros [= <-]. unfold injectable_constructor_for_type in Hc.
    destruct (has_uninjectable _ _) eqn:Hun; [|done]. injection Hc as <-. exists t. split; [done|].
    unfold injectable_constructor_for_type. by rewrite Hun.
Qed.

Lemma expand_list_children f path types l :
  expand_list f path types = Ret (inl l) ->
  forall u, u ∈ types -> contains u ctx = false -> u ∉ path /\ exists d, f u = Ret (inl d).
Proof.
  revert l. induction types as [|u us IH]; intros l; cbn [expand_list]; [by intros _ v ?%not_elem_of_nil|].
  destruct (contains u ctx) eqn:Hu.
  { intros Hl v [->|Hv]%elem_of_cons Hcv; [congruence|by eapply IH]. }
  case_bool_decide as Hin; [done|]. intros (r & Hr & H)%bind_Ret. destruct r as [d|]; [|done].
  apply bind_Ret in H as ([l'|] & Hl & H); [|done].
  intros v [->|Hv]%elem_of_cons Hcv; [split; [done|by exists d]|by eapply IH].
Qed.

(** Without an error, everything that is needed can be constructed, in some order. *)
Lemma expand_good n : forall path t d,
  expand n path t = Ret (inl d) -> t ∉ path ->
  forall v, rtc depends t v -> (exists c, ctor_for v = inl c) /\ v ∉ path /\ ~ tc depends v v.
Proof.
  induction n as [|n IH]; intros path t d; [done|]. rewrite expand_S.
  destruct (ctor_for t) as [c|e] eqn:Hc; [|done]. intros (r & Hr & H)%bind_Ret Hin.
  destruct r as [l|]; [|done].
  assert (Hchild : forall u v, depends t u -> rtc depends u v ->
    (exists c, ctor_for v = inl c) /\ v ∉ t :: path /\ ~ tc depends v v).
  { intros u v (c' & Hc' & Hu & Hcu). assert (c' = c) as -> by congruence.
    destruct (expand_list_children _ _ _ _ Hr u Hu Hcu) as (Hnin & d' & Hd'). by eapply IH. }
  intros v Hv. inversion Hv as [|? u ? Hd Huv]; subst.
  - split; [by exists c|]. split; [done|]. intros Htc.
    assert (Hex : exists u, depends v u /\ rtc depends u v).
    { inversion Htc as [? ? Hd|? u ? Hd Huv]; subst; [by exists v|]. exists u. split; [done|by apply tc_rtc]. }
    destruct Hex as (u & Hd & Huv). destruct (Hchild u v Hd Huv) as (_ & Hn & _). apply Hn. by left.
  - destruct (Hchild u v Hd Huv) as (H1 & H2 & H3). split; [done|]. split; [|done].
    intros Hp. apply H2. by right.
Qed.

End expand.

(** ** Post-order *)

Fixpoint postorder (d : dtree) : list constructor :=
  match d with DNode c ts => concat (postorder <$> ts) ++ [c] end.

Fixpoint height (d : dtree) : nat :=
  match d with DNode _ ts => S (max_list (height <$> ts)) end.

Fixpoint construct_all (l : list constructor) (ctx : GzochidResolutionContext) : outcome GzochidResolutionContext :=
  match l with
  | [] => Ret ctx
  | c :: l => ctx ← construct_instance sinks c ctx; construct_all l ctx
  end.

Lemma construct_all_app l1 l2 ctx :
  construct_all (l1 ++ l2) ctx = ctx ← construct_all l1 ctx; construct_all l2 ctx.
Proof.
  revert ctx. induction l1 as [|c l1 IH]; intros ctx; [done|]. cbn.
  destruct (construct_instance sinks c ctx); [apply IH|done..].
Qed.

Lemma traverse_list_ok (f : positive -> GzochidResolutionContext -> outcome GzochidResolutionContext) ts cs :
  Forall2 (fun t p => forall ctx, f p ctx = construct_all (postorder t) ctx) ts cs ->
  forall ctx, traverse_list f cs ctx = construct_all (concat (postorder <$> ts)) ctx.
Proof.
  induction 1 as [|t p ts cs Ht _ IH]; intros ctx; [done|]. cbn [traverse_list fmap list_fmap concat].
  rewrite construct_all_app, Ht. destruct (construct_all (postorder t) ctx); [apply IH|done..].
Qed.

(** The traversal of the nodes is one of the tree. *)
Lemma traverse_ok h fp d : forall fuel par p ctx,
  tree_in h fp par d p -> (height d <= fuel)%nat ->
  g_node_traverse sinks fuel h p ctx = construct_all (postorder d) ctx.
Proof.
  induction d as [c ts IH] using dtree_forall_ind. intros fuel par p ctx Hd Hf.
  destruct fuel as [|fuel]; [cbn in Hf; lia|]. apply tree_in_node in Hd as (cs & Hp & _ & Hts).
  cbn [g_node_traverse]. rewrite Hp. cbn [deref mbind outcome_bind children data postorder].
  rewrite construct_all_app, (traverse_list_ok _ ts cs).
  - destruct (construct_all _ ctx) as [ctx'| | |]; [|done..]. cbn. by destruct (construct_instance sinks c ctx').
  - cbn [height] in Hf. apply le_S_n in Hf. clear Hp. unfold trees_in in Hts.
    induction Hts as [|t q ts cs Ht Hts IHts]; constructor.
    + intros ctx'. inversion_clear IH as [|? ? IHt _]. eapply IHt; [exact Ht|]. cbn in Hf. lia.
    + inversion_clear IH. apply IHts; [done|]. cbn in Hf. lia.
Qed.

(** ** Construction in post-order *)

Definition extends (ctx ctx' : GzochidResolutionContext) : Prop :=
  instances ctx ⊆ instances ctx' /\ objects ctx ⊆ objects ctx'.

#[export] Instance extends_preorder : PreOrder extends.
Proof. split; [by intros ctx|]. intros c1 c2 c3 [H1 H2] [H3 H4]. split; by etrans. Qed.

Lemma extends_contains ctx ctx' t : extends ctx ctx' -> contains t ctx = true -> contains t ctx' = true.
Proof.
  intros [Hi _] [o Ho]%bool_decide_eq_true. apply bool_decide_eq_true. exists o. by eapply lookup_weaken.
Qed.

(** An instance of a class that was given the instances of its parameters. *)
Definition wired (ctx : GzochidResolutionContext) (v : GType) : Prop :=
  exists o c args, instances ctx !! type_key v = Some o /\ ctor_for v = inl c
    /\ objects ctx !! o = Some (GObject v args)
    /\ Forall2 (fun ps a => a.1 = name ps /\ instances ctx !! type_key (value_type ps) = Some a.2)
         (parameters c) args.

Lemma wired_extends ctx ctx' v : extends ctx ctx' -> wired ctx v -> wired ctx' v.
Proof.
  intros [Hi Ho] (o & c & args & Hv & Hc & Hob & Hargs). exists o, c, args.
  split; [by eapply lookup_weaken|]. split; [done|]. split; [by eapply lookup_weaken|].
  eapply Forall2_impl; [exact Hargs|]. intros ps a [Hn Ha]. split; [done|]. by eapply lookup_weaken.
Qed.

Section construction.

Context (ctx0 : GzochidResolutionContext) (root : GType).

Abbreviation needed := (rtc (depends ctx0) root).

Record constructing (ctx : GzochidResolutionContext) : Prop := {
  con_extends : extends ctx0 ctx;
  con_instances : forall k o, instances ctx !! k = Some o ->
    instances ctx0 !! k = Some o \/ exists v, needed v /\ k = type_key v /\ wired ctx v;
  con_objects : forall o, is_Some (objects ctx !! o) ->
    is_Some (objects ctx0 !! o) \/ exists v, needed v /\ instances ctx !! type_key v = Some o
}.

Lemma collect_ok ctx l :
  Forall (fun ps => contains (value_type ps) ctx = true) l ->
  exists args, collect_parameters l ctx = Ret args
    /\ Forall2 (fun ps a => a.1 = name ps /\ instances ctx !! type_key (value_type ps) = Some a.2) l args.
Proof.
  induction l as [|ps l IH]; intros Hl; [by exists []|]. apply Forall_cons in Hl as [Hps Hl].
  destruct (IH Hl) as (args & Hrun & Hargs). cbn [collect_parameters]. rewrite Hps. cbn [c_assert mbind outcome_bind].
  apply bool_decide_eq_true in Hps as [o Ho]. rewrite Ho, Hrun. eexists. split; [done|]. by constructor.
Qed.

(** A new instance. *)
Lemma add_ok ctx ctx1 v c args inst :
  constructing ctx -> needed v -> contains v ctx = false -> ctor_for v = inl c ->
  Forall2 (fun ps a => a.1 = name ps /\ instances ctx !! type_key (value_type ps) = Some a.2) (parameters c) args ->
  objects ctx !! inst = None -> instances ctx1 = <[type_key v := inst]> (instances ctx) ->
  objects ctx1 = <[inst := GObject v args]> (objects ctx) ->
  constructing ctx1 /\ extends ctx ctx1 /\ contains v ctx1 = true.
Proof.
  intros [He Hi Ho] Hv Hn Hc Hargs Hinst Hi1 Ho1.
  assert (Hk : instances ctx !! type_key v = None).
  { apply bool_decide_eq_false in Hn. by apply eq_None_not_Some. }
  assert (Hext : extends ctx ctx1).
  { split; [rewrite Hi1|rewrite Ho1]; by apply insert_subseteq. }
  split; [|split; [done|]].
  - split.
    + by etrans.
    + intros k o. rewrite Hi1. rewrite lookup_insert_Some. intros [[<- <-]|[_ Hold]].
      * right. exists v. split; [done|]. split; [done|]. exists inst, c, args.
        split; [by rewrite Hi1, lookup_insert_eq|]. split; [done|]. split; [by rewrite Ho1, lookup_insert_eq|].
        eapply Forall2_impl; [exact Hargs|]. intros ps a [Hname Ha]. split; [done|].
        eapply lookup_weaken; [exact Ha|apply Hext].
      * destruct (Hi k o Hold) as [?|(w & Hw & -> & Hwired)]; [by left|right]. exists w.
        split; [done|]. split; [done|]. by eapply wired_extends.
    + intros o. rewrite Ho1, Hi1. intros [x Hx]. apply lookup_insert_Some in Hx as [[<- _]|[Hne Hx]].
      * right. exists v. by rewrite lookup_insert_eq.
      * destruct (Ho o) as [?|(w & Hw & Hwo)]; [by eexists|by left|]. right. exists w. split; [done|].
        apply lookup_insert_Some. right. split; [congruence|done].
  - apply bool_decide_eq_true. rewrite Hi1, lookup_insert_eq. by eexists.
Qed.

Lemma construct_ok ctx v c :
  constructing ctx -> needed v -> ctor_for v = inl c ->
  (forall u, u ∈ extract_dependencies c -> contains u ctx = true) ->
  exists ctx', construct_instance sinks c ctx = Ret ctx'
    /\ constructing ctx' /\ extends ctx ctx' /\ contains v ctx' = true.
Proof.
  intros Hcon Hv Hc Hdeps. unfold construct_instance. rewrite (ctor_klass v c Hc).
  destruct (contains v ctx) eqn:Hcv; [by exists ctx|].
  assert (Hfresh : objects ctx !! fresh (dom (objects ctx)) = None) by (apply not_elem_of_dom, is_fresh).
  destruct (parameters c) as [|ps l] eqn:Hps.
  { eexists. split; [done|]. eapply (add_ok ctx _ v c []); try done. by rewrite Hps. }
  rewrite <- Hps. destruct (collect_ok ctx (parameters c)) as (args & -> & Hargs).
  { apply Forall_forall. intros x Hx. apply Hdeps. unfold extract_dependencies. by apply list_elem_of_fmap_2. }
  run. cbn [object_new]. eexists. split; [done|].
  eapply (add_ok ctx _ v c args); try done; by destruct (floating ctx && negb (sinks v)).
Qed.

(** All that a type needs has an instance. *)
Definition complete (u : GType) (ctx : GzochidResolutionContext) : Prop :=
  forall v, rtc (depends ctx0) u v -> contains v ctx = true.

Lemma complete_extends u ctx ctx' : extends ctx ctx' -> complete u ctx -> complete u ctx'.
Proof. intros He Hc v Hv. eapply extends_contains; [exact He|by apply Hc]. Qed.

(** What constructing a list of instances comes to. *)
Definition constructs (l : list constructor) (types : list GType) : Prop :=
  forall ctx, constructing ctx -> exists ctx', construct_all l ctx = Ret ctx' /\ constructing ctx'
    /\ extends ctx ctx' /\ forall u, u ∈ types -> contains u ctx0 = false -> complete u ctx'.

Lemma construct_list_ok (f : GType -> outcome (dtree + resolution_error)) path types l :
  expand_list ctx0 f path types = Ret (inl l) ->
  (forall u d, u ∈ types -> contains u ctx0 = false -> f u = Ret (inl d) -> constructs (postorder d) [u]) ->
  constructs (concat (postorder <$> l)) types.
Proof.
  revert l. induction types as [|u us IH]; intros l Hl Hf ctx Hctx; cbn [expand_list] in Hl.
  { injection Hl as <-. exists ctx. split; [done|]. split; [done|]. split; [done|]. by intros v ?%not_elem_of_nil. }
  assert (Hf' : forall v d, v ∈ us -> contains v ctx0 = false -> f v = Ret (inl d) -> constructs (postorder d) [v])
    by (intros v d Hv; apply Hf; by right).
  destruct (contains u ctx0) eqn:Hu.
  { destruct (IH l Hl Hf' ctx Hctx) as (ctx' & Hrun & Hcon & Hext & Hall). exists ctx'.
    split; [done|]. split; [done|]. split; [done|]. intros v [->|Hv]%elem_of_cons Hcv; [congruence|by apply Hall]. }
  case_bool_decide as Hin; [done|]. apply bind_Ret in Hl as ([d|e] & Hd & Hl); [|done].
  apply bind_Ret in Hl as ([l'|e] & Hl' & Heq); [|done]. injection Heq as <-.
  destruct (Hf u d) with ctx as (c1 & Hrun1 & Hcon1 & Hext1 & Hu1); [by left|done..|].
  destruct (IH l' Hl' Hf' c1 Hcon1) as (c2 & Hrun2 & Hcon2 & Hext2 & Hall2). exists c2.
  cbn [fmap list_fmap concat]. rewrite construct_all_app, Hrun1. split; [done|]. split; [done|].
  split; [by etrans|]. intros v [->|Hv]%elem_of_cons Hcv; [|by apply Hall2].
  eapply complete_extends; [exact Hext2|]. apply Hu1; [by left|done].
Qed.

Lemma construct_tree_ok n : forall path t d,
  expand ctx0 n path t = Ret (inl d) -> needed t -> contains t ctx0 = false -> constructs (postorder d) [t].
Proof.
  induction n as [|n IH]; intros path t d; [done|]. rewrite expand_S.
  destruct (ctor_for t) as [c|e] eqn:Hc; [|done]. intros (r & Hr & H)%bind_Ret Ht Hct ctx Hctx.
  destruct r as [l|]; [|done]. injection H as <-.
  assert (Hdep : forall u, u ∈ extract_dependencies c -> contains u ctx0 = false -> depends ctx0 t u)
    by (intros u Hu Hcu; by exists c).
  destruct (construct_list_ok _ _ _ _ Hr) with ctx as (c1 & Hrun1 & Hcon1 & Hext1 & Hall1); [|done|].
  { intros u d' Hu Hcu Hd'. apply (IH (t :: path)); [done| |done]. eapply rtc_r; [exact Ht|by apply Hdep]. }
  destruct (construct_ok c1 t c Hcon1 Ht Hc) as (c2 & Hrun2 & Hcon2 & Hext2 & Hc2).
  { intros u Hu. destruct (contains u ctx0) eqn:Hcu.
    - eapply extends_contains; [apply Hcon1|done].
    - by apply (Hall1 u Hu Hcu). }
  exists c2. cbn [postorder]. rewrite construct_all_app, Hrun1. cbn [mbind outcome_bind construct_all].
  rewrite Hrun2. split; [done|]. split; [done|]. split; [by etrans|].
  intros u ->%list_elem_of_singleton _ v Hv. inversion Hv as [|? w ? Hd Hwv]; subst; [done|].
  eapply extends_contains; [exact Hext2|]. destruct Hd as (c' & Hc' & Hw & Hcw).
  assert (c' = c) as -> by congruence. by apply (Hall1 w Hw Hcw).
Qed.

End construction.

Lemma needed_closed ctx U t v :
  closed U -> rtc (depends ctx) t v -> t ∈ U -> contains t ctx = false -> v ∈ U /\ contains v ctx = false.
Proof.
  intros HU Hv. induction Hv as [|x y z (c & Hc & Hy & Hcy) _ IH]; intros Hx Hcx; [done|].
  apply IH; [by eapply HU|done].
Qed.

(** C36. If the types that a type leads to are finitely many and no two of them agree on 32
    bits, the resolver ends and gives an instance with everything it needs, or says why there
    is none.  (Types that agree on 32 bits share an instance: [types_collide].)  With an error the context is
    as it was, and the error names a fault: a type that needs itself, or one with a constructor
    that takes something else than objects.  Otherwise there is no such fault, and in the new
    context every type that was needed, and no other that was not there, has one instance,
    constructed with the instances of its parameters; what was there stays, and every new
    object is the instance of a type. *)
Theorem resolver_injects (U : list GType) (ctx : GzochidResolutionContext) (root : GType)
    (HU : closed U) (Hroot : root ∈ U) (Hnew : contains root ctx = false)
    (Hkeys : forall v w, v ∈ U -> w ∈ U -> type_key v = type_key w -> v = w) :
  exists k r ctx', forall m,
    gzochid_resolver_require_full list_properties is_object sinks (k + m) ctx root = Ret (r, ctx')
    /\ match r with
       | inr e => ctx' = ctx /\ faulty ctx e root
       | inl o => instances ctx' !! type_key root = Some o /\ extends ctx ctx'
           /\ (forall v, rtc (depends ctx) root v -> wired ctx' v /\ ~ tc (depends ctx) v v)
           /\ (forall key o, instances ctx' !! key = Some o -> instances ctx !! key = Some o
                \/ exists v, rtc (depends ctx) root v /\ key = type_key v)
           /\ (forall o, is_Some (objects ctx' !! o) -> is_Some (objects ctx !! o)
                \/ exists v, rtc (depends ctx) root v /\ instances ctx' !! type_key v = Some o)
       end.
Proof.
  destruct (expand_ends ctx U HU (length U) [] root) as (r & Hr).
  { apply NoDup_singleton. } { intros x ->%list_elem_of_singleton. done. } { simpl. lia. }
  destruct (build_ok ctx _ root r Hr) as (k & Hk).
  destruct r as [d|e].
  2: { exists k, (inr e), ctx. intros m. destruct (Hk m) as (p & h & Hb & _). split.
    - unfold gzochid_resolver_require_full. rewrite Hnew, Hb. done.
    - split; [done|]. eapply expand_faulty; [|exact Hr]. by intros a ?%not_elem_of_nil. }
  assert (Hcon0 : constructing ctx root ctx).
  { split; [done|by left|by left]. }
  destruct (construct_tree_ok ctx root _ [] root d Hr (rtc_refl _ _) Hnew ctx Hcon0)
    as (ctx' & Hrun & [_ Hi Ho] & Hext & Hall).
  assert (Hneed : forall v, rtc (depends ctx) root v -> v ∈ U /\ contains v ctx = false).
  { intros v Hv. by apply (needed_closed ctx U root v). }
  assert (Hwired : forall v, rtc (depends ctx) root v -> wired ctx' v).
  { intros v Hv. pose proof (Hall root ltac:(by left) Hnew v Hv) as Hcv.
    apply bool_decide_eq_true in Hcv as [o Hvo]. destruct (Hi _ _ Hvo) as [Hold|(w & Hw & Heq & Hww)].
    - destruct (Hneed v Hv) as [_ Hcv]. apply bool_decide_eq_false in Hcv. destruct Hcv. by exists o.
    - apply Hkeys in Heq as ->; [done|by apply Hneed..]. }
  pose proof (Hwired root (rtc_refl _ _)) as (o & _ & _ & Hroot' & _).
  exists (k + height d)%nat, (inl o), ctx'. intros m. split.
  - destruct (Hk (height d + m)%nat) as (p & h & Hb & Htree). unfold gzochid_resolver_require_full.
    rewrite Hnew. rewrite Nat.add_assoc in Hb. rewrite Hb. cbn [mbind outcome_bind].
    rewrite (traverse_ok h _ d _ None p ctx Htree) by lia. rewrite Hrun. run. by rewrite Hroot'.
  - split; [done|]. split; [done|]. split; [|split; [|exact Ho]].
    + intros v Hv. split; [by apply Hwired|]. apply (expand_good ctx _ [] root d Hr (not_elem_of_nil _) v Hv).
    + intros key o' Hko. destruct (Hi _ _ Hko) as [?|(v & Hv & -> & _)]; [by left|right; by exists v].
Qed.

End specification.

(** ** Classes *)

Definition object_parameter (n : string) (t : GType) : GParamSpec := ParamSpec n t true true false.

(** Class 1 takes a 2 and a 3, and 2 takes a 3; 5 and 6 take each other; 7 takes something
    that is no object; and the contexts are of class 9. *)
Definition sample_properties (t : GType) : list GParamSpec :=
  if t =? 1 then [object_parameter "two" 2; object_parameter "three" 3]
  else if t =? 2 then [object_parameter "three" 3]
  else if t =? 5 then [object_parameter "six" 6]
  else if t =? 6 then [object_parameter "five" 5]
  else if t =? 7 then [ParamSpec "count" 8 true false true]
  else if t =? 2 ^ 32 + 1 then [object_parameter "one" 1]
  else [].

Definition sample_is_object (t : GType) : bool := negb (t =? 8).

Definition sample_context : GzochidResolutionContext := gzochid_resolution_context_init 9 ∅.

Abbreviation sample_require := (gzochid_resolver_require_full sample_properties sample_is_object (fun _ => false)).

Lemma resolver_injects_witness :
  exists k ctx', forall m,
    sample_require (k + m) sample_context 1 = Ret (inl 4%positive, ctx')
    /\ objects ctx' !! 4%positive = Some (GObject 1 [("two", 3%positive); ("three", 2%positive)])
    /\ objects ctx' !! 3%positive = Some (GObject 2 [("three", 2%positive)])
    /\ wired (list_properties := sample_properties) (is_object := sample_is_object) ctx' 3.
Proof.
  destruct (resolver_injects (list_properties := sample_properties) (is_object := sample_is_object)
    (sinks := fun _ => false) [1; 2; 3] sample_context 1) as (k & r & ctx' & H).
  - intros t c u Ht Hc Hu. repeat (apply elem_of_cons in Ht as [->|Ht]; [vm_compute in Hc; injection Hc as <-;
      set_solver|]). by apply not_elem_of_nil in Ht.
  - by left.
  - reflexivity.
  - intros v w Hv Hw. repeat (apply elem_of_cons in Hv as [->|Hv]; [
      repeat (apply elem_of_cons in Hw as [->|Hw]; [by vm_compute|]); by apply not_elem_of_nil in Hw|]).
    by apply not_elem_of_nil in Hv.
  - exists k, ctx'. intros m. destruct (H 20%nat) as [Hr _]. rewrite Nat.add_comm in Hr. vm_compute in Hr.
    injection Hr as Hr Hctx. subst r ctx'. destruct (H m) as (Hrun & _ & _ & Hall & _). split; [exact Hrun|].
    split; [reflexivity|]. split; [reflexivity|]. apply Hall. apply rtc_once.
    eexists. split; [reflexivity|]. split; [by right; left|reflexivity].
Defined.

Example sample_cycle :
  sample_require 20 sample_context 5 = Ret (inr GZOCHID_RESOLUTION_ERROR_CIRCULAR_DEPENDENCY, sample_context).
Proof. vm_compute. reflexivity. Qed.

Example sample_incompatible :
  sample_require 20 sample_context 7 = Ret (inr GZOCHID_RESOLUTION_ERROR_INCOMPATIBLE_CONSTRUCTOR, sample_context).
Proof. vm_compute. reflexivity. Qed.

(** The table does not tell types apart that agree on 32 bits: asked for class 2^32 + 1, the
    resolver constructs what it takes, of class 1, and returns that. *)
Example types_collide :
  match sample_require 20 sample_context (2 ^ 32 + 1) with
  | Ret (inl o, ctx) => type_of <$> objects ctx !! o = Some 1
  | _ => False
  end.
Proof. vm_compute. reflexivity. Qed.
