(* ===== verification/Callback.v ===== *)
(** * Callbacks and identities in storage (callback.c, auth.c)

    The serializations that the persistent structures of an application share: that of
    a callback, a procedure with its module, and that of the identity of a user.  An
    identity stands for its name here; [char *] values are C strings with their
    terminators. *)

From S2P Require Import Prelude.
From S2P Require Import Io.
From S2P Require Import Util.

Local Open Scope Z_scope.

Record gzochid_application_callback := Callback {
  module : list bytes;
  procedure : bytes;
  scm_oid : Z
}.

Definition serialize_callback (callback : gzochid_application_callback) (out : bytes)
  : outcome bytes :=
  out ← gzochid_util_serialize_string (procedure callback) out;
  out ← gzochid_util_serialize_list (module callback) gzochid_util_serialize_string out;
  gzochid_util_serialize_oid (scm_oid callback) out.

Definition deserialize_callback (ins : bytes) : outcome (gzochid_application_callback * bytes) :=
  '(procedure, ins) ← gzochid_util_deserialize_string ins;
  '(module, ins) ← gzochid_util_deserialize_list gzochid_util_deserialize_string ins;
  '(scm_oid, ins) ← gzochid_util_deserialize_oid ins;
  Ret (Callback module procedure scm_oid, ins).

Definition gzochid_application_callback_new (procedure : bytes) (module : list bytes) (scm_oid : Z)
  : gzochid_application_callback := Callback module procedure scm_oid.

(** [strlen (name) + 1] bytes. *)
Definition gzochid_auth_identity_serializer (name : bytes) (out : bytes) : outcome bytes :=
  n ← strlen name;
  byte_array_append out name (n + 1).

(** [strndup] of what is in the array; the removal of more than there is does nothing. *)
Definition strndup (mem : bytes) : bytes :=
  let n := list_find (fun b => b = 0) mem in
  match n with Some (i, _) => take i mem ++ [0] | None => mem ++ [0] end.

Definition gzochid_auth_identity_deserializer (ins : bytes) : outcome (bytes * bytes) :=
  let name := strndup ins in
  n ← strlen name;
  Ret (name, if n + 1 <=? Z.of_nat (length ins) then byte_array_remove_front ins (n + 1) else ins).

(** ** Round trips *)

Definition stored_string (str : bytes) : Prop := cstring str /\ Z.of_nat (length str) < 2 ^ 31.

Definition callback_ok (callback : gzochid_application_callback) : Prop :=
  stored_string (procedure callback) /\ Forall stored_string (module callback)
  /\ Z.of_nat (length (module callback)) < 2 ^ 31 /\ in_unsigned 64 (scm_oid callback).

#[export] Instance callback_serial : Serial callback_ok serialize_callback deserialize_callback.
Proof.
  intros [m p o] (Hp & Hm & Hlen & Ho). cbn [module procedure scm_oid] in *.
  destruct (serial_ok (ser := gzochid_util_serialize_string) p Hp) as (ep & Sp & Dp).
  destruct (counted_elements_roundtrip (ser := gzochid_util_serialize_string) m Hm Hlen)
    as (em & Sm & Dm).
  destruct (serial_ok (ser := gzochid_util_serialize_oid) o Ho) as (eo & So & Do).
  exists (ep ++ em ++ eo). split.
  - intros out. unfold serialize_callback. cbn [module procedure scm_oid].
    rewrite Sp. run. rewrite Sm. run. by rewrite So, <- !app_assoc.
  - intros rest. unfold deserialize_callback. rewrite <- !app_assoc, Dp. run.
    rewrite Dm. run. by rewrite Do.
Qed.

Lemma list_find_zero (s rest : bytes) :
  Forall (fun b => b <> 0) s -> list_find (fun b => b = 0) (s ++ 0 :: rest) = Some (length s, 0).
Proof.
  intros Hs. apply list_find_Some. split_and!.
  - rewrite lookup_app_r, Nat.sub_diag by lia. done.
  - done.
  - intros j y Hj Hlt. rewrite lookup_app_l in Hj by lia.
    by apply (Forall_lookup_1 _ _ _ _ Hs Hj).
Qed.

#[export] Instance identity_serial :
  Serial cstring gzochid_auth_identity_serializer gzochid_auth_identity_deserializer.
Proof.
  intros name (s & -> & Hs). exists (s ++ [0]). split.
  - intros out. unfold gzochid_auth_identity_serializer. rewrite strlen_cstring by done. run.
    replace (Z.of_nat (length s) + 1) with (Z.of_nat (length (s ++ [0])))
      by (rewrite length_app; simpl; lia).
    apply byte_array_append_all.
  - intros rest. unfold gzochid_auth_identity_deserializer, strndup.
    rewrite <- app_assoc. cbn [app]. rewrite (list_find_zero s rest) by done. rewrite take_app_length.
    rewrite strlen_cstring by done. run. change (s ++ 0 :: rest) with (s ++ [0] ++ rest). rewrite app_assoc.
    rewrite (proj2 (Z.leb_le _ _)) by (rewrite !length_app; simpl; lia).
    rewrite remove_front_app; [done|]. rewrite length_app; simpl; lia.
Qed.
