(* ===== verification/Auth.v ===== *)
(** * Authenticators (auth.c, auth/password_file.c)

    The authenticator that takes the credentials for the name, and the one that looks
    them up in a password file.  Credentials are what the memory holds from the pointer
    on, of which [len] bytes belong to the message.  Names and passwords are C strings
    with their terminators; an identity is its name. *)

From S2P Require Import Prelude.
From S2P Require Import Util.
From S2P Require Import Callback.

Local Open Scope Z_scope.

(** ** Functions of the C library *)

Fixpoint strncmp (a b : bytes) (n : nat) {struct n} : outcome Z :=
  match n with
  | O => Ret 0
  | S n =>
      match a, b with
      | x :: a, y :: b =>
          if x =? y then if x =? 0 then Ret 0 else strncmp a b n else Ret (x - y)
      | _, _ => Undef
      end
  end.

(** [memchr] for the terminator, with a [size_t] that may exceed the memory. *)
Definition memchr_size (mem : bytes) (n : Z) : outcome (option nat) :=
  memchr0 mem (Z.to_nat (Z.min n (Z.of_nat (length mem) + 1))).

(** [g_strsplit] at the first [=], and [g_strchomp]. *)
Definition strsplit_eq (line : bytes) : option (bytes * bytes) :=
  match list_find (fun b => b = 61) line with
  | Some (i, _) => Some (take i line, drop (S i) line)
  | None => None
  end.

Definition isspace (b : Z) : bool := existsb (Z.eqb b) [9; 10; 12; 13; 32].

Fixpoint drop_spaces (s : bytes) : bytes :=
  match s with
  | b :: s' => if isspace b then drop_spaces s' else s
  | [] => []
  end.

Definition strchomp (s : bytes) : bytes := rev (drop_spaces (rev s)).

(** ** Passing names through *)

Definition gzochid_auth_function_pass_thru (cred : bytes) (cred_len : Z) : outcome (option bytes) :=
  if cred_len <=? 0 then Ret None
  else
    r ← memchr0 cred (Z.to_nat cred_len);
    Ret (Some (match r with Some e => take (S e) cred | None => take (Z.to_nat cred_len) cred ++ [0] end)).

(** ** The password file *)

(** The table of passwords from the lines of the file. *)
Fixpoint initialize (lines : list bytes) (passwords : gmap bytes bytes) : gmap bytes bytes :=
  match lines with
  | [] => passwords
  | line :: lines =>
      initialize lines
        (match strsplit_eq line with
         | Some (name, password) => <[name ++ [0] := strchomp password ++ [0]]> passwords
         | None => passwords
         end)
  end.

(** [len - (pivot - credentials)] is compared as a [size_t]. *)
Definition authenticate (credentials : bytes) (len : Z) (passwords : gmap bytes bytes)
  : outcome (option bytes) :=
  pivot ← memchr_size credentials (u64 len);
  match pivot with
  | None => Ret None
  | Some pivot =>
      let name := take (S pivot) credentials in
      match passwords !! name with
      | None => Ret None
      | Some password =>
          password_len ← strlen password;
          let cmplen := s32 (Z.min (u64 (len - Z.of_nat pivot)) password_len) in
          r ← strncmp password (drop (S pivot) credentials) (Z.to_nat (u64 cmplen));
          Ret (if r =? 0 then Some name else None)
      end
  end.

(** ** What the password file accepts *)

Lemma strncmp_prefix (pw tail mem : bytes) (n : nat) :
  Forall (fun b => b <> 0) pw -> (n <= length pw)%nat -> (n <= length mem)%nat ->
  exists r, strncmp (pw ++ tail) mem n = Ret r /\ (r = 0 <-> take n mem = take n pw).
Proof.
  revert mem n. induction pw as [|x pw IH]; intros mem n Hpw Hn Hmem.
  { destruct n; [|simpl in Hn; lia]. exists 0. split; [done|]. by split. }
  destruct n as [|n]; [exists 0; split; [done|by split]|]. destruct mem as [|y mem]; [simpl in Hmem; lia|].
  apply Forall_cons in Hpw as [Hx Hpw]. simpl in *.
  destruct (Z.eqb_spec x y) as [->|Hne].
  - destruct (Z.eqb_spec y 0); [done|]. destruct (IH mem n) as (r & Hr & Hiff); [done|lia..|].
    exists r. split; [done|]. rewrite Hiff. split; [by intros ->|by intros [= ->]].
  - exists (x - y). split; [done|]. split; [lia|]. by intros [= ->].
Qed.

(** The password file accepts exactly what agrees with the password on as many
    bytes as the password has, or, when less was sent, on what was sent and one byte
    more, the one that follows the message in memory.  So one byte is enough instead of
    a password, and what follows a password is ignored. *)
Theorem password_file_accepts (user pw guess rest : bytes) (passwords : gmap bytes bytes)
    (Huser : Forall (fun b => b <> 0) user) (Hpw : Forall (fun b => b <> 0) pw)
    (Hstored : passwords !! (user ++ [0]) = Some (pw ++ [0]))
    (Hlen : Z.of_nat (length user + 1 + length guess) < 2 ^ 15)
    (Hpwlen : Z.of_nat (length pw) < 2 ^ 31)
    (Hrest : rest <> []) :
  authenticate (user ++ [0] ++ guess ++ rest) (Z.of_nat (length user + 1 + length guess)) passwords
  = Ret (if decide (take (Nat.min (S (length guess)) (length pw)) (guess ++ rest)
                    = take (Nat.min (S (length guess)) (length pw)) pw)
         then Some (user ++ [0]) else None).
Proof.
  unfold authenticate, memchr_size.
  assert (Hn : u64 (Z.of_nat (length user + 1 + length guess)) = Z.of_nat (length user + 1 + length guess)).
  { apply u64_small. lia. }
  rewrite Hn. rewrite (memchr0_found user (guess ++ rest)); [|done|].
  2:{ rewrite !length_app. destruct rest; [done|]. simpl. lia. }
  run. change (user ++ [0] ++ guess ++ rest) with (user ++ ([0] ++ (guess ++ rest))).
  rewrite (app_assoc user [0]).
  rewrite take_app_length' by (rewrite length_app; simpl; lia).
  rewrite Hstored. rewrite strlen_cstring by done. run.
  rewrite drop_app_length' by (rewrite length_app; simpl; lia).
  rewrite (u64_small (_ - _)) by lia.
  replace (Z.of_nat (length user + 1 + length guess) - Z.of_nat (length user))
    with (Z.of_nat (S (length guess))) by lia.
  rewrite signed_small by (unfold in_signed; lia). rewrite u64_small by lia.
  replace (Z.to_nat (Z.min (Z.of_nat (S (length guess))) (Z.of_nat (length pw))))
    with (Nat.min (S (length guess)) (length pw)) by lia.
  destruct (strncmp_prefix pw [0] (guess ++ rest) (Nat.min (S (length guess)) (length pw)))
    as (r & -> & Hr); [done|lia| |].
  { rewrite length_app. destruct rest; [done|]. cbn [length]. lia. }
  run. do 2 f_equal. destruct (Z.eqb_spec r 0) as [->|Hne].
  - by rewrite decide_True by (by apply Hr).
  - by rewrite decide_False by (by rewrite <- Hr).
Qed.

(** The password of [bob] is [pass]; he is let in without it when the next message is long. *)
Definition sample_passwords : gmap bytes bytes :=
  initialize [bytes_of_string "bob=pass" ++ [10]; bytes_of_string "nonsense" ++ [10]] ∅.

Example sample_password_accepted :
  authenticate (bytes_of_string "bob" ++ [0] ++ bytes_of_string "pass" ++ [0]) 8 sample_passwords
  = Ret (Some (bytes_of_string "bob" ++ [0])).
Proof. vm_compute. reflexivity. Qed.

Example sample_password_refused :
  authenticate (bytes_of_string "bob" ++ [0] ++ bytes_of_string "pars" ++ [0]) 8 sample_passwords = Ret None.
Proof. vm_compute. reflexivity. Qed.

Lemma password_file_accepts_witness :
  authenticate (bytes_of_string "bob" ++ [0] ++ [] ++ [112; 4]) 4 sample_passwords
  = Ret (Some (bytes_of_string "bob" ++ [0])).
Proof.
  refine (eq_trans (password_file_accepts (bytes_of_string "bob") (bytes_of_string "pass") [] [112; 4]
    sample_passwords _ _ _ _ _ _) _).
  - repeat constructor; done.
  - repeat constructor; done.
  - vm_compute. reflexivity.
  - vm_compute. reflexivity.
  - vm_compute. reflexivity.
  - done.
  - vm_compute. reflexivity.
Defined.
