(* ===== verification/LruCache.v ===== *)
(** * The LRU cache (gzochi-server/src/lrucache.c)

    The hash table and the recency index share the value wrappers, which the
    lookup updates in place, so the wrappers live in a store indexed by their
    addresses.  Keys are taken up to the cache's key equality, so that a copy of
    a key made by the value generator is the key.  The generator is a parameter;
    the values passed to the eviction function are recorded. *)

From S2P Require Import Prelude.
From S2P Require Import Util.
From S2P Require Import Glib.

Local Open Scope Z_scope.

Record gzochid_lru_cache_value {K V : Type} := LruValue {
  key : K;
  value : V;
  access_counter : Z
}.
Arguments gzochid_lru_cache_value : clear implicits.
Arguments LruValue {K V}.

Record gzochid_lru_cache {K V : Type} `{Countable K} := LruCache {
  wrappers : gmap positive (gzochid_lru_cache_value K V);
  next_address : positive;
  cache : gmap K positive;
  lru_index : list positive;
  max_size : Z;
  next_access_counter : Z;
  evicted : list V
}.
Arguments gzochid_lru_cache K V {_ _}.
Arguments LruCache {K V _ _}.

Section lru.

Context {K V : Type} `{Countable K}.

(** The value generator. *)
Context (new_func : K -> V).

Definition gzochid_lru_cache_new_full (size : Z) : gzochid_lru_cache K V :=
  LruCache ∅ 1%positive ∅ [] size 0 [].

Definition counter_of (ws : gmap positive (gzochid_lru_cache_value K V)) (p : positive)
  : Z :=
  match ws !! p with Some v => access_counter v | None => 0 end.

Definition lru_cache_value_compare (ws : gmap positive (gzochid_lru_cache_value K V))
    (a b : positive) : Z :=
  if counter_of ws a <? counter_of ws b then -1
  else if counter_of ws b <? counter_of ws a then 1
  else 0.

(** A hit: bump the access counter of the wrapper and move it in the index. *)
Definition lru_hit (c : gzochid_lru_cache K V) (p : positive)
  : outcome (V * gzochid_lru_cache K V) :=
  v ← deref (wrappers c !! p);
  iter ← deref (sequence_lookup (lru_cache_value_compare (wrappers c)) p (lru_index c));
  let ws := <[p := LruValue (key v) (value v) (next_access_counter c)]> (wrappers c) in
  Ret (value v,
       LruCache ws (next_address c) (cache c)
         (sequence_sort_changed (lru_cache_value_compare ws) iter (lru_index c))
         (max_size c) (u64 (next_access_counter c + 1)) (evicted c)).

(** Evict the value at the front of the index. *)
Definition lru_evict (c : gzochid_lru_cache K V) : outcome (gzochid_lru_cache K V) :=
  first ← deref (head (lru_index c));
  old_value ← deref (wrappers c !! first);
  Ret (LruCache (delete first (wrappers c)) (next_address c)
         (delete (key old_value) (cache c)) (sequence_remove 0 (lru_index c))
         (max_size c) (next_access_counter c) (evicted c ++ [value old_value])).

(** A miss: generate a value, insert it, and evict if the cache is too large. *)
Definition lru_miss (c : gzochid_lru_cache K V) (k : K)
  : outcome (V * gzochid_lru_cache K V) :=
  let p := next_address c in
  let v := LruValue k (new_func k) (next_access_counter c) in
  let ws := <[p := v]> (wrappers c) in
  let c := LruCache ws (Pos.succ p) (<[k := p]> (cache c))
             (sequence_insert_sorted (lru_cache_value_compare ws) p (lru_index c))
             (max_size c) (u64 (next_access_counter c + 1)) (evicted c) in
  c ← (if max_size c <? Z.of_nat (size (cache c)) then lru_evict c else Ret c);
  Ret (value v, c).

Definition gzochid_lru_cache_lookup (c : gzochid_lru_cache K V) (k : K)
  : outcome (V * gzochid_lru_cache K V) :=
  match cache c !! k with
  | Some p => lru_hit c p
  | None => lru_miss c k
  end.

(** Destroying the cache evicts every value of the index, oldest first. *)
Definition gzochid_lru_cache_destroy (c : gzochid_lru_cache K V) : list V :=
  evicted c ++ omap (fun p => value <$> wrappers c !! p) (lru_index c).

(** ** Abstract specification

    A cache is the list of its entries, least recently used first. *)

Fixpoint spec_find (k : K) (l : list (K * V)) : option V :=
  match l with
  | [] => None
  | (k', v) :: l' => if decide (k = k') then Some v else spec_find k l'
  end.

Fixpoint spec_remove (k : K) (l : list (K * V)) : list (K * V) :=
  match l with
  | [] => []
  | (k', v) :: l' => if decide (k = k') then l' else (k', v) :: spec_remove k l'
  end.

Definition spec_lookup (size : Z) (k : K) (l : list (K * V)) : V * list (K * V) :=
  match spec_find k l with
  | Some v => (v, spec_remove k l ++ [(k, v)])
  | None =>
      let l := l ++ [(k, new_func k)] in
      (new_func k, if size <? Z.of_nat (length l) then tail l else l)
  end.

Definition entry (ws : gmap positive (gzochid_lru_cache_value K V)) (p : positive)
  : option (K * V) :=
  (fun v => (key v, value v)) <$> ws !! p.

(** The entries of a cache, least recently used first. *)
Definition abs (c : gzochid_lru_cache K V) : list (K * V) :=
  omap (entry (wrappers c)) (lru_index c).

(** ** Invariant *)

Record lru_ok (c : gzochid_lru_cache K V) : Prop := {
  inv_live : Forall (fun p => is_Some (wrappers c !! p)) (lru_index c);
  inv_sorted : StronglySorted
    (fun p q => counter_of (wrappers c) p < counter_of (wrappers c) q) (lru_index c);
  inv_counter : Forall (fun p => counter_of (wrappers c) p < next_access_counter c)
    (lru_index c);
  inv_fresh : Forall (fun p => p < next_address c)%positive (lru_index c);
  inv_table : forall k p, cache c !! k = Some p <->
    p ∈ lru_index c /\ exists v, wrappers c !! p = Some v /\ key v = k;
  inv_size : size (cache c) = length (lru_index c)
}.

Definition lru_inv (c : gzochid_lru_cache K V) : Prop :=
  lru_ok c /\ Z.of_nat (length (lru_index c)) <= max_size c.

(** ** Lemmas *)

Lemma value_compare_spec ws a b :
  lru_cache_value_compare ws a b = sign_compare (counter_of ws a) (counter_of ws b).
Proof. done. Qed.

Lemma new_inv (size : Z) : 0 <= size -> lru_inv (gzochid_lru_cache_new_full size).
Proof.
  clear new_func. intros Hs. split; [|simpl; lia]. split; simpl; [constructor..| |apply map_size_empty].
  intros k p. rewrite lookup_empty. set_solver.
Qed.

Lemma counter_insert_ne ws p q v : p <> q -> counter_of (<[p := v]> ws) q = counter_of ws q.
Proof. intros Hne. unfold counter_of. by rewrite lookup_insert_ne. Qed.

Lemma counter_insert_eq ws p v : counter_of (<[p := v]> ws) p = access_counter v.
Proof. unfold counter_of. by rewrite lookup_insert_eq. Qed.

Lemma entry_Some ws p v : ws !! p = Some v -> entry ws p = Some (key v, value v).
Proof. unfold entry. by intros ->. Qed.

Lemma entry_None ws p : ws !! p = None -> entry ws p = None.
Proof. unfold entry. by intros ->. Qed.

Lemma entries_ext ws ws' l :
  Forall (fun p => entry ws' p = entry ws p) l -> omap (entry ws') l = omap (entry ws) l.
Proof.
  induction 1 as [|p l Hp _ IH]; simpl; [done|].
  rewrite Hp. destruct (entry ws p); [f_equal|]; exact IH.
Qed.

Lemma omap_app' {A B} (f : A -> option B) (l1 l2 : list A) :
  omap f (l1 ++ l2) = omap f l1 ++ omap f l2.
Proof.
  induction l1 as [|x l1 IH]; simpl; [done|]. destruct (f x); simpl; [f_equal|]; exact IH.
Qed.

(** A new or bumped wrapper goes to the end of the index. *)
Lemma insert_newest ws p v l n :
  p ∉ l -> Forall (fun q => counter_of ws q < n) l -> access_counter v = n ->
  sequence_insert_sorted (lru_cache_value_compare (<[p := v]> ws)) p l = l ++ [p].
Proof.
  intros Hp Hl Hv. apply sequence_insert_last. rewrite Forall_forall in Hl |- *.
  intros q Hq. specialize (Hl q Hq). rewrite value_compare_spec, counter_insert_eq.
  rewrite counter_insert_ne by (by intros ->). unfold sign_compare. case_all; lia.
Qed.

Lemma sorted_snoc (R : positive -> positive -> Prop) l p :
  StronglySorted R l -> Forall (fun q => R q p) l -> StronglySorted R (l ++ [p]).
Proof.
  induction 1 as [|q l Hl IH Hq]; intros Hp; simpl; [by repeat constructor|].
  inversion_clear Hp. constructor; [by apply IH|]. apply Forall_app. by repeat constructor.
Qed.

Lemma sorted_counters_ext ws p v l n :
  p ∉ l -> access_counter v = n ->
  StronglySorted (fun a b => counter_of ws a < counter_of ws b) l ->
  Forall (fun q => counter_of ws q < n) l ->
  StronglySorted (fun a b => counter_of (<[p := v]> ws) a < counter_of (<[p := v]> ws) b)
    (l ++ [p]).
Proof.
  intros Hp Hv Hs Hl. apply sorted_snoc.
  - clear Hl. induction Hs as [|q l Hs IH Hq]; constructor.
    + apply IH. set_solver.
    + rewrite Forall_forall in Hq |- *. intros r Hr.
      rewrite !counter_insert_ne by set_solver. auto.
  - rewrite Forall_forall in Hl |- *. intros q Hq.
    rewrite counter_insert_eq, counter_insert_ne by (by intros ->). rewrite Hv. auto.
Qed.

Lemma sorted_middle (R : positive -> positive -> Prop) l1 p l2 :
  StronglySorted R (l1 ++ p :: l2) ->
  StronglySorted R (l1 ++ l2) /\ Forall (fun q => R q p) l1 /\ Forall (R p) l2.
Proof.
  induction l1 as [|q l1 IH]; simpl.
  - intros [Hs Hp]%StronglySorted_inv. by repeat split.
  - intros [Hs Hq]%StronglySorted_inv. destruct (IH Hs) as (H1 & H2 & H3).
    apply Forall_app in Hq as [Hq1 Hq2]. inversion_clear Hq2.
    split_and!; [|by constructor|done]. constructor; [done|]. by apply Forall_app.
Qed.

Lemma index_nodup c : lru_ok c -> NoDup (lru_index c).
Proof.
  intros Hc. destruct Hc as [_ Hs _ _ _ _].
  induction Hs as [|p l Hs IH Hp]; constructor; [|done].
  intros Hin. rewrite Forall_forall in Hp. specialize (Hp p Hin). lia.
Qed.

(** The keys of the entries are distinct, because the table maps each to one. *)
Lemma spec_find_entry c k p v l1 l2 :
  lru_ok c -> lru_index c = l1 ++ p :: l2 -> wrappers c !! p = Some v -> key v = k ->
  spec_find k (abs c) = Some (value v)
  /\ spec_remove k (abs c) = omap (entry (wrappers c)) (l1 ++ l2).
Proof.
  intros Hc Hidx Hp Hk. unfold abs.
  assert (Hne : Forall (fun q => forall w, wrappers c !! q = Some w -> key w <> k) l1).
  { rewrite Forall_forall. intros q Hq w Hw Hkw.
    assert (Hl1 : q ∈ lru_index c) by (rewrite Hidx; set_solver).
    assert (Hl2 : p ∈ lru_index c) by (rewrite Hidx; set_solver).
    assert (Hcq : cache c !! k = Some q) by (apply inv_table; eauto).
    assert (Hcp : cache c !! k = Some p) by (apply inv_table; eauto).
    simplify_eq. pose proof (index_nodup c Hc) as Hnd. rewrite Hidx in Hnd.
    apply NoDup_app in Hnd as (_ & Hnd & _). apply (Hnd p Hq). set_solver. }
  rewrite Hidx. clear Hidx. induction l1 as [|q l1 IH]; simpl.
  { rewrite (entry_Some _ p v Hp). simpl. rewrite !decide_True by done. by split. }
  inversion_clear Hne as [|? ? Hq Hl1]. destruct (IH Hl1) as [IH1 IH2].
  destruct (wrappers c !! q) as [w|] eqn:Hw.
  - rewrite (entry_Some _ q w Hw). simpl. specialize (Hq w eq_refl).
    rewrite !decide_False by (by intros ->). split; [exact IH1 | f_equal; exact IH2].
  - rewrite (entry_None _ q Hw). by split.
Qed.

Lemma spec_find_none c k :
  lru_ok c -> cache c !! k = None -> spec_find k (abs c) = None.
Proof.
  intros Hc Hk. unfold abs.
  assert (Hne : Forall (fun q => forall w, wrappers c !! q = Some w -> key w <> k)
    (lru_index c)).
  { rewrite Forall_forall. intros q Hq w Hw Hkw.
    assert (cache c !! k = Some q) by (apply inv_table; eauto). congruence. }
  induction Hne as [|q l Hq _ IH]; simpl; [done|].
  destruct (wrappers c !! q) as [w|] eqn:Hw.
  - rewrite (entry_Some _ q w Hw). simpl. specialize (Hq w eq_refl).
    rewrite decide_False by (by intros ->). exact IH.
  - rewrite (entry_None _ q Hw). exact IH.
Qed.

(** ** A hit *)

Lemma hit_spec c k p :
  lru_inv c -> next_access_counter c + 1 < 2 ^ 64 -> 0 <= next_access_counter c ->
  cache c !! k = Some p ->
  exists c', lru_hit c p = Ret (fst (spec_lookup (max_size c) k (abs c)), c')
    /\ lru_inv c' /\ abs c' = snd (spec_lookup (max_size c) k (abs c)).
Proof.
  intros [Hc Hb] Hmax Hpos Hk. pose proof (index_nodup c Hc) as Hnd.
  destruct (proj1 (inv_table c Hc k p) Hk) as (Hin & v & Hv & Hkv).
  apply list_elem_of_split in Hin as (l1 & l2 & Hidx).
  destruct (spec_find_entry c k p v l1 l2 Hc Hidx Hv Hkv) as [Hf Hr].
  destruct Hc as [Hlive Hs Hcnt Hfr Htab Hsz].
  rewrite Hidx in Hlive, Hs, Hcnt, Hfr, Hnd.
  destruct (sorted_middle _ _ _ _ Hs) as (Hs' & Hlt & Hgt).
  assert (Hp : p ∉ l1 ++ l2).
  { rewrite <- Permutation_middle in Hnd. by apply NoDup_cons in Hnd as [? _]. }
  unfold lru_hit. rewrite Hv. simpl deref. run. rewrite Hidx.
  rewrite (sequence_lookup_middle _ p p l1 l2); [simpl deref; run| |].
  2:{ eapply Forall_impl; [exact Hlt|]. intros q Hq.
      rewrite value_compare_spec. unfold sign_compare. case_all; lia. }
  2:{ rewrite value_compare_spec. unfold sign_compare. case_all; lia. }
  unfold spec_lookup. rewrite Hf. eexists. split; [reflexivity|].
  unfold sequence_sort_changed. rewrite list_lookup_middle by done.
  rewrite sequence_remove_middle.
  rewrite Forall_app, Forall_cons in Hcnt. destruct Hcnt as (Hc1 & Hcp & Hc2).
  assert (Hcl : Forall (fun q => counter_of (wrappers c) q < next_access_counter c) (l1 ++ l2))
    by (by apply Forall_app).
  rewrite (insert_newest _ _ _ _ (next_access_counter c)) by done.
  split; [split|].
  - split; cbn [wrappers lru_index next_access_counter next_address cache max_size].
    + rewrite Forall_forall in Hlive |- *. intros q Hq.
      destruct (decide (p = q)) as [->|]; [rewrite lookup_insert_eq; eauto|].
      rewrite lookup_insert_ne by done. apply Hlive. set_solver.
    + by apply sorted_counters_ext with (n := next_access_counter c).
    + rewrite u64_small by lia. rewrite Forall_app, Forall_singleton. split.
      * rewrite Forall_forall in Hcl |- *. intros q Hq.
        rewrite counter_insert_ne by (by intros ->). specialize (Hcl q Hq). lia.
      * rewrite counter_insert_eq. simpl. lia.
    + rewrite Forall_forall in Hfr |- *. intros q Hq. apply Hfr. set_solver.
    + intros k' q. rewrite Htab, Hidx. destruct (decide (p = q)) as [->|Hne].
      * rewrite lookup_insert_eq, Hv. set_solver.
      * rewrite lookup_insert_ne by done. set_solver.
    + rewrite Hsz, Hidx, !length_app. simpl. lia.
  - cbn [lru_index max_size]. rewrite Hidx, !length_app in *. simpl in *. lia.
  - cbn [snd]. rewrite Hr. unfold abs. cbn [wrappers lru_index].
    rewrite omap_app'. f_equal.
    + apply entries_ext. rewrite Forall_forall. intros q Hq.
      unfold entry. by rewrite lookup_insert_ne by (by intros ->).
    + simpl. rewrite (entry_Some _ p _ (lookup_insert_eq _ _ _)). simpl. by rewrite Hkv.
Qed.

(** ** A miss *)

Lemma evict_spec c p l v :
  lru_ok c -> lru_index c = p :: l -> wrappers c !! p = Some v ->
  exists c', lru_evict c = Ret c' /\ lru_ok c' /\ abs c' = tail (abs c)
    /\ lru_index c' = l /\ max_size c' = max_size c
    /\ evicted c' = evicted c ++ [value v].
Proof.
  intros Hc Hidx Hv. pose proof (index_nodup c Hc) as Hnd.
  destruct Hc as [Hlive Hs Hcnt Hfr Htab Hsz]. rewrite Hidx in *.
  apply NoDup_cons in Hnd as [Hnin Hnd].
  apply StronglySorted_inv in Hs as [Hs _].
  inversion_clear Hlive as [|? ? _ Hlive']. inversion_clear Hcnt as [|? ? _ Hcnt'].
  inversion_clear Hfr as [|? ? _ Hfr'].
  assert (Hkv : cache c !! key v = Some p) by (apply Htab; set_solver).
  assert (Hsame : forall q, q ∈ l -> delete p (wrappers c) !! q = wrappers c !! q)
    by (intros q Hq; apply lookup_delete_ne; by intros ->).
  assert (Hcsame : forall q, q ∈ l -> counter_of (delete p (wrappers c)) q
    = counter_of (wrappers c) q) by (intros q Hq; unfold counter_of; by rewrite Hsame).
  unfold lru_evict. rewrite Hidx. simpl. rewrite Hv. simpl.
  eexists. split; [reflexivity|]. split.
  - split; cbn [wrappers lru_index next_access_counter next_address cache max_size];
      unfold sequence_remove; simpl; rewrite ?drop_0.
    + rewrite Forall_forall in Hlive' |- *. intros q Hq. rewrite Hsame by done. auto.
    + clear -Hs Hcsame. induction Hs as [|q l Hs IH Hq]; constructor.
      * apply IH. intros r Hr. apply Hcsame. set_solver.
      * rewrite Forall_forall in Hq |- *. intros r Hr.
        rewrite !Hcsame by set_solver. auto.
    + rewrite Forall_forall in Hcnt' |- *. intros q Hq. rewrite Hcsame by done. auto.
    + done.
    + intros k q. destruct (decide (key v = k)) as [<-|Hne].
      * rewrite lookup_delete_eq. split; [done|]. intros (Hq & w & Hw & Hkw).
        rewrite Hsame in Hw by done.
        assert (cache c !! key v = Some q) by (apply Htab; set_solver).
        assert (p = q) as -> by congruence. done.
      * rewrite lookup_delete_ne by done. rewrite Htab. split.
        -- intros (Hq & w & Hw & Hkw). assert (p <> q) by (intros ->; congruence).
           split; [set_solver|]. exists w. by rewrite lookup_delete_ne.
        -- intros (Hq & w & Hw & Hkw). rewrite Hsame in Hw by done. set_solver.
    + rewrite map_size_delete_Some by eauto. rewrite Hsz. done.
  - split_and!; [|unfold sequence_remove; simpl; by rewrite drop_0 | done | done].
    unfold abs. cbn [wrappers lru_index]. unfold sequence_remove. rewrite Hidx. simpl.
    rewrite drop_0, (entry_Some _ p v Hv). simpl. apply entries_ext.
    rewrite Forall_forall. intros q Hq. unfold entry. by rewrite Hsame.
Qed.

Lemma miss_insert c k :
  lru_ok c -> next_access_counter c + 1 < 2 ^ 64 -> 0 <= next_access_counter c ->
  cache c !! k = None ->
  let p := next_address c in
  let v := LruValue k (new_func k) (next_access_counter c) in
  let ws := <[p := v]> (wrappers c) in
  let c' := LruCache ws (Pos.succ p) (<[k := p]> (cache c))
             (sequence_insert_sorted (lru_cache_value_compare ws) p (lru_index c))
             (max_size c) (u64 (next_access_counter c + 1)) (evicted c) in
  lru_ok c' /\ abs c' = abs c ++ [(k, new_func k)]
  /\ lru_index c' = lru_index c ++ [p].
Proof.
  intros Hc Hmax Hpos Hk p v ws c'. destruct Hc as [Hlive Hs Hcnt Hfr Htab Hsz].
  assert (Hp : p ∉ lru_index c).
  { intros Hin. rewrite Forall_forall in Hfr. specialize (Hfr p Hin). lia. }
  assert (Hne : forall q, q ∈ lru_index c -> p <> q) by (by intros q Hq ->).
  assert (Hidx : lru_index c' = lru_index c ++ [p])
    by (by apply insert_newest with (n := next_access_counter c)).
  split_and!; [split| |done]; rewrite ?Hidx.
  - rewrite Forall_app, Forall_singleton. split.
    + rewrite Forall_forall in Hlive |- *. intros q Hq. simpl.
      unfold ws. rewrite lookup_insert_ne by auto. auto.
    + simpl. unfold ws. rewrite lookup_insert_eq. eauto.
  - by apply sorted_counters_ext with (n := next_access_counter c).
  - simpl. rewrite u64_small by lia. rewrite Forall_app, Forall_singleton. split.
    + rewrite Forall_forall in Hcnt |- *. intros q Hq.
      unfold ws. rewrite counter_insert_ne by auto. specialize (Hcnt q Hq). lia.
    + unfold ws. rewrite counter_insert_eq. simpl. lia.
  - rewrite Forall_app, Forall_singleton. split; [|simpl; lia].
    eapply Forall_impl; [exact Hfr|]. simpl. lia.
  - intros k' q. cbn [cache wrappers c']. destruct (decide (k = k')) as [<-|Hkk].
    + rewrite lookup_insert_eq. split.
      * intros [= <-]. split; [set_solver|]. exists v. unfold ws. by rewrite lookup_insert_eq.
      * intros (Hq & w & Hw & Hkw). destruct (decide (p = q)) as [->|Hpq]; [done|].
        unfold ws in Hw. rewrite lookup_insert_ne in Hw by done.
        assert (cache c !! k = Some q) by (apply Htab; set_solver). congruence.
    + rewrite lookup_insert_ne by done. rewrite Htab. split.
      * intros (Hq & w & Hw & Hkw). split; [set_solver|]. exists w.
        unfold ws. rewrite lookup_insert_ne by auto. done.
      * intros (Hq & w & Hw & Hkw). destruct (decide (p = q)) as [->|Hpq].
        -- unfold ws in Hw. rewrite lookup_insert_eq in Hw. by simplify_eq.
        -- unfold ws in Hw. rewrite lookup_insert_ne in Hw by done. set_solver.
  - simpl. rewrite map_size_insert_None by done. rewrite Hsz, length_app. simpl. lia.
  - unfold abs. rewrite Hidx, omap_app'. f_equal.
    + apply entries_ext. rewrite Forall_forall. intros q Hq. unfold entry. simpl.
      unfold ws. by rewrite lookup_insert_ne by auto.
    + simpl. unfold ws. by rewrite (entry_Some _ p v (lookup_insert_eq _ _ _)).
Qed.

Lemma length_abs c : lru_ok c -> length (abs c) = length (lru_index c).
Proof.
  intros Hc. unfold abs. pose proof (inv_live c Hc) as Hl.
  induction Hl as [|p l [v Hv] _ IH]; simpl; [done|].
  rewrite (entry_Some _ p v Hv). simpl. f_equal. exact IH.
Qed.

Lemma miss_spec c k :
  lru_inv c -> next_access_counter c + 1 < 2 ^ 64 -> 0 <= next_access_counter c ->
  cache c !! k = None ->
  exists c', lru_miss c k = Ret (fst (spec_lookup (max_size c) k (abs c)), c')
    /\ lru_inv c' /\ abs c' = snd (spec_lookup (max_size c) k (abs c)).
Proof.
  intros [Hc Hb] Hmax Hpos Hk.
  destruct (miss_insert c k Hc Hmax Hpos Hk) as (Hok & Habs & Hidx).
  unfold lru_miss, spec_lookup. rewrite (spec_find_none c k Hc Hk). cbn [fst snd].
  match type of Hok with lru_ok ?x => set (c1 := x) in * end.
  rewrite <- Habs, (length_abs c1 Hok), (inv_size c1 Hok).
  change (max_size c1) with (max_size c).
  destruct (Z.ltb_spec (max_size c) (Z.of_nat (length (lru_index c1)))) as [Hgt|Hle].
  - destruct (lru_index c1) as [|p l] eqn:Hl; [by destruct (lru_index c)|].
    assert (exists v, wrappers c1 !! p = Some v) as [v Hv].
    { pose proof (inv_live c1 Hok) as Hlive. rewrite Hl in Hlive. by inversion_clear Hlive. }
    destruct (evict_spec c1 p l v Hok Hl Hv) as (c2 & -> & Hok2 & Habs2 & Hl2 & Hm2 & _).
    run. exists c2. split_and!; [done | | done]. split; [done|].
    rewrite Hl2, Hm2. change (max_size c1) with (max_size c).
    assert (length (p :: l) = length (lru_index c ++ [next_address c])) as Hlen by congruence.
    rewrite length_app in Hlen. simpl in *. lia.
  - run. exists c1. split_and!; [done | | done]. split; [done|].
    change (max_size c1) with (max_size c). lia.
Qed.

End lru.

(** ** Properties *)

(** C20. The cache implements an abstract least-recently-used list: from the
    empty cache on, every lookup returns what the abstract lookup returns, the
    cached value on a hit and the generated one on a miss, the entry it used
    becomes the most recent, at most the oldest entry is evicted and only when
    the capacity is exceeded, and the invariant, which bounds the number of
    entries by the capacity, is preserved. *)
Theorem lru_lookup_refines {K V : Type} `{Countable K} (new_func : K -> V)
    (c : gzochid_lru_cache K V) (k : K) :
  lru_inv c -> 0 <= next_access_counter c -> next_access_counter c + 1 < 2 ^ 64 ->
  exists c', gzochid_lru_cache_lookup new_func c k
      = Ret (fst (spec_lookup new_func (max_size c) k (abs c)), c')
    /\ lru_inv c' /\ abs c' = snd (spec_lookup new_func (max_size c) k (abs c)).
Proof.
  intros Hc Hpos Hmax. unfold gzochid_lru_cache_lookup.
  destruct (cache c !! k) as [p|] eqn:Hk; [by apply hit_spec | by apply miss_spec].
Qed.

Lemma lru_lookup_refines_witness :
  exists c', gzochid_lru_cache_lookup (fun k : nat => (2 * k)%nat)
      (gzochid_lru_cache_new_full 3) 5%nat
      = Ret (fst (spec_lookup (fun k : nat => (2 * k)%nat) 3 5%nat []), c')
    /\ lru_inv c' /\ abs c' = snd (spec_lookup (fun k : nat => (2 * k)%nat) 3 5%nat []).
Proof.
  apply (lru_lookup_refines (fun k : nat => (2 * k)%nat)
    (gzochid_lru_cache_new_full 3 : gzochid_lru_cache nat nat) 5%nat);
    [apply (new_inv 3); done | simpl; lia | simpl; lia].
Defined.
