(* ===== verification/NodeMap.v ===== *)
(** * The in-memory node map (gzochi-server/src/nodemap-mem.c)

    The meta server's mapping of sessions to the application server nodes they
    are connected to, kept with its inverse.  An application name is the bytes of
    the C string, without the terminator.  A session sequence is a list ordered
    by the source's comparison function, whose 64-bit difference is truncated to
    an [int]. *)

From S2P Require Import Prelude.
From S2P Require Import Util.
From S2P Require Import Glib.

Local Open Scope Z_scope.

Record nodemap_qualified_key := QualifiedKey {
  app : bytes;
  session_id : Z
}.

#[export] Instance qualified_key_eq_dec : EqDecision nodemap_qualified_key.
Proof. solve_decision. Defined.

#[export] Instance qualified_key_countable : Countable nodemap_qualified_key.
Proof.
  apply (inj_countable' (fun k => (app k, session_id k)) (fun p => QualifiedKey p.1 p.2)).
  by intros [].
Defined.

Record gzochi_metad_nodemap_mem := NodeMapMem {
  session_to_node : gmap nodemap_qualified_key Z;
  node_to_sessions : gmap Z (list nodemap_qualified_key)
}.

Inductive nodemap_error :=
| ALREADY_MAPPED
| NOT_MAPPED.

Definition nodemap_qualified_key_equal (k1 k2 : nodemap_qualified_key) : bool :=
  (bytes_compare (app k1) (app k2) =? 0) && (session_id k1 =? session_id k2).

Definition nodemap_qualified_key_compare_data_func (a b : nodemap_qualified_key) : Z :=
  let app_compare := bytes_compare (app a) (app b) in
  if app_compare =? 0 then s32 (u64 (session_id a - session_id b)) else app_compare.

Definition gzochi_metad_nodemap_mem_new : gzochi_metad_nodemap_mem := NodeMapMem ∅ ∅.

Definition map_session (m : gzochi_metad_nodemap_mem) (k : nodemap_qualified_key)
    (node_id : Z) : option nodemap_error * gzochi_metad_nodemap_mem :=
  match session_to_node m !! k with
  | Some _ => (Some ALREADY_MAPPED, m)
  | None =>
      let sessions := default [] (node_to_sessions m !! node_id) in
      let sessions :=
        sequence_insert_sorted nodemap_qualified_key_compare_data_func k sessions in
      (None, NodeMapMem (<[k := node_id]> (session_to_node m))
               (<[node_id := sessions]> (node_to_sessions m)))
  end.

Definition unmap_session (m : gzochi_metad_nodemap_mem) (k : nodemap_qualified_key)
  : outcome (option nodemap_error * gzochi_metad_nodemap_mem) :=
  match session_to_node m !! k with
  | Some node_id =>
      sessions ← deref (node_to_sessions m !! node_id);
      iter ← deref
        (sequence_lookup nodemap_qualified_key_compare_data_func k sessions);
      let sessions := sequence_remove iter sessions in
      let nodes := match sessions with
                   | [] => delete node_id (node_to_sessions m)
                   | _ => <[node_id := sessions]> (node_to_sessions m)
                   end in
      Ret (None, NodeMapMem (delete k (session_to_node m)) nodes)
  | None => Ret (Some NOT_MAPPED, m)
  end.

(** The node, 0 with the error. *)
Definition lookup_session (m : gzochi_metad_nodemap_mem) (k : nodemap_qualified_key)
  : Z * option nodemap_error :=
  match session_to_node m !! k with
  | Some node_id => (node_id, None)
  | None => (0, Some NOT_MAPPED)
  end.

Definition unmap_session_func (k : nodemap_qualified_key)
    (s : gmap nodemap_qualified_key Z) : gmap nodemap_qualified_key Z := delete k s.

Definition unmap_all (m : gzochi_metad_nodemap_mem) (node_id : Z)
  : gzochi_metad_nodemap_mem :=
  match node_to_sessions m !! node_id with
  | Some sessions =>
      NodeMapMem (foldl (fun s k => unmap_session_func k s) (session_to_node m) sessions)
        (delete node_id (node_to_sessions m))
  | None => m
  end.

(** ** Invariant

    The two maps are inverse to each other, and every session id is small enough
    for the comparison function to be exact. *)

Definition key_ok (k : nodemap_qualified_key) : Prop := 0 <= session_id k < 2 ^ 31.

Record nodemap_inv (m : gzochi_metad_nodemap_mem) : Prop := {
  inv_inverse : forall k n, session_to_node m !! k = Some n <->
    exists l, node_to_sessions m !! n = Some l /\ k ∈ l;
  inv_nodes : forall n l, node_to_sessions m !! n = Some l -> l <> [] /\ NoDup l;
  inv_keys : forall k n, session_to_node m !! k = Some n -> key_ok k
}.

(** ** Lemmas *)

Lemma key_compare_eq (a b : nodemap_qualified_key) :
  key_ok a -> key_ok b ->
  nodemap_qualified_key_compare_data_func a b = 0 <-> a = b.
Proof.
  intros Ha Hb. unfold nodemap_qualified_key_compare_data_func, key_ok in *.
  destruct (Z.eqb_spec (bytes_compare (app a) (app b)) 0) as [He|Hne].
  - apply bytes_compare_eq in He. destruct a as [x i], b as [y j]; simpl in *. subst y.
    unfold unsigned. rewrite (Z.mod_eq (i - j) (2 ^ 64)) by lia.
    split; [|intros [= ->]; rewrite Z.sub_diag; done].
    intros Hz. f_equal.
    assert (Hs : s32 (i - j - 2 ^ 64 * ((i - j) / 2 ^ 64)) = s32 (i - j)).
    { unfold signed. f_equal.
      replace (i - j - 2 ^ 64 * ((i - j) / 2 ^ 64) + 2 ^ (32 - 1))
        with (i - j + 2 ^ (32 - 1) + (- 2 ^ 32 * ((i - j) / 2 ^ 64)) * 2 ^ 32) by lia.
      by rewrite Z.mod_add by lia. }
    rewrite Hs, signed_small in Hz by (unfold in_signed; simpl in *; lia). lia.
  - split; [done|]. intros ->. by rewrite bytes_compare_refl in Hne.
Qed.

Lemma new_nodemap_inv : nodemap_inv gzochi_metad_nodemap_mem_new.
Proof.
  split; simpl; intros *; rewrite lookup_empty; [|done|done].
  split; [done|]. intros (l & Hl & _). by rewrite lookup_empty in Hl.
Qed.

Lemma map_session_inv m k n :
  nodemap_inv m -> key_ok k -> session_to_node m !! k = None ->
  nodemap_inv (snd (map_session m k n)).
Proof.
  intros [Hi Hn Hk] Hok Hnone. unfold map_session. rewrite Hnone. simpl.
  set (old := default [] (node_to_sessions m !! n)).
  set (new := sequence_insert_sorted nodemap_qualified_key_compare_data_func k old).
  assert (Hperm : new ≡ₚ k :: old) by apply sequence_insert_perm.
  assert (Hnew : forall k', k' ∈ new <-> k' = k \/ k' ∈ old)
    by (intros k'; rewrite Hperm; apply elem_of_cons).
  assert (Hold : forall k', k' ∈ old <-> session_to_node m !! k' = Some n).
  { intros k'. rewrite Hi. unfold old. destruct (node_to_sessions m !! n); simpl; set_solver. }
  split; simpl.
  - intros k' n'. destruct (decide (n = n')) as [<-|Hnn].
    + rewrite lookup_insert_eq. destruct (decide (k = k')) as [<-|Hkk].
      * rewrite lookup_insert_eq. split; [|done]. intros _. exists new.
        rewrite Hnew. auto.
      * rewrite lookup_insert_ne by done. rewrite <- Hold. split.
        -- intros H. exists new. rewrite Hnew. auto.
        -- intros (l & [= <-] & H). apply Hnew in H as [->|H]; done.
    + rewrite (lookup_insert_ne (node_to_sessions m)) by done. destruct (decide (k = k')) as [<-|Hkk].
      * rewrite lookup_insert_eq. split; [congruence|]. intros Hl%Hi. congruence.
      * rewrite lookup_insert_ne by done. apply Hi.
  - intros n' l. destruct (decide (n = n')) as [<-|Hnn].
    + rewrite lookup_insert_eq. intros [= <-]. split; [|rewrite Hperm].
      * intros Hnil. rewrite Hnil in Hperm. by apply Permutation_nil_cons in Hperm.
      * apply NoDup_cons. split; [rewrite Hold; congruence|].
        unfold old. destruct (node_to_sessions m !! n) eqn:E; simpl; [by eapply Hn|constructor].
    + rewrite lookup_insert_ne by done. apply Hn.
  - intros k' n'. destruct (decide (k = k')) as [<-|Hkk]; [done|].
    rewrite lookup_insert_ne by done. apply Hk.
Qed.

Lemma sequence_lookup_key (k : nodemap_qualified_key) (l : list nodemap_qualified_key) :
  key_ok k -> Forall key_ok l -> NoDup l -> k ∈ l ->
  exists l1 l2, l = l1 ++ k :: l2 /\ ~ (k ∈ l1 ++ l2)
    /\ sequence_lookup nodemap_qualified_key_compare_data_func k l = Some (length l1).
Proof.
  intros Hk Hl Hnd Hin. apply list_elem_of_split in Hin as (l1 & l2 & ->).
  exists l1, l2. rewrite <- Permutation_middle in Hnd. apply NoDup_cons in Hnd as [Hnin Hnd].
  split_and!; [done | done |]. apply sequence_lookup_middle.
  - rewrite Forall_forall in Hl |- *. intros z Hz.
    rewrite key_compare_eq by (auto; apply Hl; set_solver). set_solver.
  - by apply key_compare_eq.
Qed.

Lemma unmap_session_inv m k n :
  nodemap_inv m -> session_to_node m !! k = Some n ->
  exists nodes, unmap_session m k
      = Ret (None, NodeMapMem (delete k (session_to_node m)) nodes)
    /\ nodemap_inv (NodeMapMem (delete k (session_to_node m)) nodes).
Proof.
  intros [Hi Hn Hk] Hs. unfold unmap_session. rewrite Hs.
  destruct (proj1 (Hi k n) Hs) as (l & Hl & Hin). rewrite Hl. simpl.
  destruct (Hn n l Hl) as [_ Hnd].
  assert (Hok : Forall key_ok l).
  { rewrite Forall_forall. intros k' Hk'. apply (Hk k' n), Hi. eauto. }
  destruct (sequence_lookup_key k l (Hk k n Hs) Hok Hnd Hin) as (l1 & l2 & -> & Hnin & ->).
  simpl. rewrite sequence_remove_middle. eexists. split; [reflexivity|].
  rewrite <- Permutation_middle in Hnd. apply NoDup_cons in Hnd as [_ Hnd].
  set (nodes := match l1 ++ l2 with [] => _ | _ => _ end).
  assert (Hnodes : forall n', nodes !! n' = if decide (n' = n)
    then (match l1 ++ l2 with [] => None | l => Some l end) else node_to_sessions m !! n').
  { intros n'. unfold nodes. case_decide as Hd.
    - subst n'. destruct (l1 ++ l2); [apply lookup_delete_eq | apply lookup_insert_eq].
    - destruct (l1 ++ l2); [by rewrite lookup_delete_ne | by rewrite lookup_insert_ne]. }
  split; cbn [session_to_node node_to_sessions].
  - intros k' n'. rewrite Hnodes. destruct (decide (k = k')) as [<-|Hkk].
    + rewrite lookup_delete_eq. split; [done|]. case_decide as Hd.
      * subst n'. destruct (l1 ++ l2) eqn:E; [by intros (? & ? & ?)|].
        intros (l' & [= <-] & Hin'). done.
      * intros Hin'%Hi. congruence.
    + rewrite lookup_delete_ne by done. rewrite Hi. case_decide as Hd; [|done].
      subst n'. rewrite Hl. split.
      * intros (l' & [= <-] & Hin'). assert (Hin2 : k' ∈ l1 ++ l2) by set_solver.
        destruct (l1 ++ l2); [set_solver | eauto].
      * intros (l' & Hl' & Hin'). eexists. split; [done|].
        assert (k' ∈ l1 ++ l2) by (destruct (l1 ++ l2); congruence). set_solver.
  - intros n' l. rewrite Hnodes. case_decide as Hd; [|apply Hn].
    destruct (l1 ++ l2) eqn:E; [done|]. by intros [= <-].
  - intros k' n'. rewrite lookup_delete_Some. intros [_ H]. by apply (Hk k' n').
Qed.

Lemma foldl_delete (l : list nodemap_qualified_key) (s : gmap nodemap_qualified_key Z) k :
  foldl (fun s k => unmap_session_func k s) s l !! k
  = if decide (k ∈ l) then None else s !! k.
Proof.
  revert s. induction l as [|k' l IH]; intros s; cbn [foldl].
  { rewrite decide_False; [done | apply not_elem_of_nil]. }
  rewrite IH. unfold unmap_session_func. destruct (decide (k = k')) as [<-|Hne].
  - rewrite lookup_delete_eq, (decide_True (P := k ∈ k :: l)) by (apply elem_of_cons; auto).
    by case_decide.
  - rewrite lookup_delete_ne by done.
    destruct (decide (k ∈ l)); [rewrite decide_True by (apply elem_of_cons; auto)|
      rewrite decide_False by (rewrite elem_of_cons; naive_solver)]; done.
Qed.

Lemma unmap_all_lookup m n k :
  nodemap_inv m ->
  session_to_node (unmap_all m n) !! k
  = (if decide (session_to_node m !! k = Some n) then None else session_to_node m !! k).
Proof.
  intros [Hi _ _]. unfold unmap_all.
  destruct (node_to_sessions m !! n) as [l|] eqn:Hl; cbn [session_to_node].
  - rewrite foldl_delete. do 2 case_decide; try done; rewrite Hi in *; naive_solver.
  - case_decide as Hd; [|done]. apply Hi in Hd. naive_solver.
Qed.

Lemma unmap_all_inv m n : nodemap_inv m -> nodemap_inv (unmap_all m n).
Proof.
  intros Hm. pose proof Hm as [Hi Hn Hk].
  assert (Hnodes : forall n', node_to_sessions (unmap_all m n) !! n'
    = if decide (n' = n) then None else node_to_sessions m !! n').
  { intros n'. unfold unmap_all. destruct (node_to_sessions m !! n) as [l|] eqn:Hl; simpl;
      case_decide; subst; [by rewrite lookup_delete_eq | by rewrite lookup_delete_ne | done..]. }
  split.
  - intros k n'. rewrite unmap_all_lookup, Hnodes by done.
    do 2 case_decide; subst; try rewrite <- Hi; naive_solver.
  - intros n' l. rewrite Hnodes. case_decide; [done | apply Hn].
  - intros k n'. rewrite unmap_all_lookup by done. case_decide; [done | apply Hk].
Qed.

(** ** Properties *)

(** C21. For session ids below 2^31 the node map implements a finite map from
    sessions to nodes.  Mapping a session fails, changing nothing, exactly if it
    is mapped, and otherwise adds it; unmapping fails exactly if it is not
    mapped, and otherwise removes it; a lookup returns the node or fails; removing
    a node removes the sessions mapped to it and no others.  Each operation
    keeps the two directions of the map inverse to each other, and unmapping
    always returns. *)
Theorem nodemap_refines (m : gzochi_metad_nodemap_mem) (k : nodemap_qualified_key) (n : Z) :
  nodemap_inv m -> key_ok k ->
  (exists e m', map_session m k n = (e, m') /\ nodemap_inv m'
     /\ match session_to_node m !! k with
        | Some _ => e = Some ALREADY_MAPPED /\ m' = m
        | None => e = None /\ session_to_node m' = <[k := n]> (session_to_node m)
        end)
  /\ (exists e m', unmap_session m k = Ret (e, m') /\ nodemap_inv m'
     /\ match session_to_node m !! k with
        | Some _ => e = None /\ session_to_node m' = delete k (session_to_node m)
        | None => e = Some NOT_MAPPED /\ m' = m
        end)
  /\ lookup_session m k = (match session_to_node m !! k with
                          | Some n => (n, None)
                          | None => (0, Some NOT_MAPPED)
                          end)
  /\ nodemap_inv (unmap_all m n)
  /\ session_to_node (unmap_all m n) = filter (fun kn => kn.2 <> n) (session_to_node m).
Proof.
  intros Hm Hk. split_and!.
  - destruct (session_to_node m !! k) as [n'|] eqn:Hs.
    + exists (Some ALREADY_MAPPED), m. unfold map_session. by rewrite Hs.
    + pose proof (map_session_inv m k n Hm Hk Hs) as Hinv. revert Hinv.
      unfold map_session. rewrite Hs. simpl. intros Hinv.
      eexists _, _. by split; [reflexivity|].
  - destruct (session_to_node m !! k) as [n'|] eqn:Hs.
    + destruct (unmap_session_inv m k n' Hm Hs) as (nodes & -> & Hinv).
      eexists _, _. by split; [reflexivity|].
    + exists (Some NOT_MAPPED), m. unfold unmap_session. by rewrite Hs.
  - done.
  - by apply unmap_all_inv.
  - apply map_eq. intros k'. rewrite unmap_all_lookup by done.
    apply option_eq. intros n'. rewrite map_lookup_filter_Some. cbn [snd].
    case_decide as Hd; [rewrite Hd|]; naive_solver.
Qed.

(** The map used by the witness. *)
Definition sample_nodemap : gzochi_metad_nodemap_mem :=
  snd (map_session (snd (map_session gzochi_metad_nodemap_mem_new
    (QualifiedKey [97] 5) 1)) (QualifiedKey [97] 3) 1).

Lemma nodemap_refines_witness :
  exists e m', unmap_session sample_nodemap (QualifiedKey [97] 5) = Ret (e, m')
    /\ nodemap_inv m'
    /\ e = None
    /\ session_to_node m' = delete (QualifiedKey [97] 5) (session_to_node sample_nodemap).
Proof.
  apply (nodemap_refines sample_nodemap (QualifiedKey [97] 5) 1).
  - apply map_session_inv; [apply map_session_inv; [apply new_nodemap_inv|..]|..];
      (split; simpl; lia) || done.
  - split; simpl; lia.
Defined.
