(* ===== verification/Itree.v ===== *)
(** * The interval tree (itree.c)

    The tree the lock table keeps its range locks in: nodes in a heap, with
    pointers to their parents and children, a maximum upper bound per subtree
    that a search prunes on, and the rebalancing of the insertion and of the
    removal.  A loop of the source runs with one unit of fuel more than the heap
    has nodes, which is enough whenever the nodes form a tree ([itree_ok]). *)

From S2P Require Import Prelude.
From S2P Require Import Util.

Local Open Scope Z_scope.

(** A [gpointer] bound is of an abstract type with decidable (pointer) equality;
    the two comparison functions look at what it points to. *)

Record itree_node (P D : Type) := ItreeNode {
  node_parent : option positive;
  node_left : option positive;
  node_right : option positive;
  node_lower : P;
  node_upper : P;
  node_max_upper : P;
  node_data : D;
  balance_factor : Z
}.
Arguments ItreeNode {P D} _ _ _ _ _ _ _ _.
Arguments node_parent {P D} _.
Arguments node_left {P D} _.
Arguments node_right {P D} _.
Arguments node_lower {P D} _.
Arguments node_upper {P D} _.
Arguments node_max_upper {P D} _.
Arguments node_data {P D} _.
Arguments balance_factor {P D} _.

(** The tree and the heap its nodes are in. *)
Record gzochid_itree (P D : Type) := Itree {
  root : option positive;
  nodes : gmap positive (itree_node P D)
}.
Arguments Itree {P D} _ _.
Arguments root {P D} _.
Arguments nodes {P D} _.

Definition gzochid_itree_new {P D} : gzochid_itree P D := Itree None ∅.

Section itree.

Context {P D : Type} `{EqDecision P}.
Context (lower_comparator upper_comparator : P -> P -> Z).

Abbreviation node := (itree_node P D).
Abbreviation itree := (gzochid_itree P D).

(** ** Accesses to the heap *)

Definition set_left (x : option positive) (n : node) : node :=
  ItreeNode (node_parent n) x (node_right n) (node_lower n) (node_upper n)
    (node_max_upper n) (node_data n) (balance_factor n).

Definition set_right (x : option positive) (n : node) : node :=
  ItreeNode (node_parent n) (node_left n) x (node_lower n) (node_upper n)
    (node_max_upper n) (node_data n) (balance_factor n).

Definition set_parent (x : option positive) (n : node) : node :=
  ItreeNode x (node_left n) (node_right n) (node_lower n) (node_upper n)
    (node_max_upper n) (node_data n) (balance_factor n).

Definition set_max_upper (x : P) (n : node) : node :=
  ItreeNode (node_parent n) (node_left n) (node_right n) (node_lower n) (node_upper n)
    x (node_data n) (balance_factor n).

Definition set_data (x : D) (n : node) : node :=
  ItreeNode (node_parent n) (node_left n) (node_right n) (node_lower n) (node_upper n)
    (node_max_upper n) x (balance_factor n).

Definition set_balance (x : Z) (n : node) : node :=
  ItreeNode (node_parent n) (node_left n) (node_right n) (node_lower n) (node_upper n)
    (node_max_upper n) (node_data n) x.

(** Give a node the bounds and the data of another one. *)
Definition take_content (src n : node) : node :=
  ItreeNode (node_parent n) (node_left n) (node_right n) (node_lower src) (node_upper src)
    (node_max_upper n) (node_data src) (balance_factor n).

Definition get_node (t : itree) (p : positive) : outcome node := deref (nodes t !! p).

Definition upd_node (f : node -> node) (p : positive) (t : itree) : outcome itree :=
  n ← get_node t p; Ret (Itree (root t) (<[p := f n]> (nodes t))).

Definition set_root (r : option positive) (t : itree) : itree := Itree r (nodes t).

Definition fuel_of (t : itree) : nat := S (size (nodes t)).

(** ** The operations *)

Definition itree_node_new (lower upper : P) (data : D) : node :=
  ItreeNode None None None lower upper upper data 0.

(** The loop of [itree_location]. *)
Fixpoint location_loop (fuel : nat) (t : itree) (p : positive) (lower upper : P)
    : outcome positive :=
  match fuel with
  | O => Fuel
  | S fuel =>
      n ← get_node t p;
      let lower_comparison := lower_comparator lower (node_lower n) in
      let upper_comparison := upper_comparator upper (node_upper n) in
      if (lower_comparison =? 0) && (upper_comparison =? 0) then Ret p
      else if lower_comparison <? 0 then
        match node_left n with
        | None => Ret p
        | Some q => location_loop fuel t q lower upper
        end
      else
        match node_right n with
        | None => Ret p
        | Some q => location_loop fuel t q lower upper
        end
  end.

Definition itree_location (t : itree) (lower upper : P) : outcome (option positive) :=
  match root t with
  | None => Ret None
  | Some p => q ← location_loop (fuel_of t) t p lower upper; Ret (Some q)
  end.

(** The larger of a candidate and the maximum of a child. *)
Definition child_max (t : itree) (child : option positive) (candidate : P) : outcome P :=
  match child with
  | None => Ret candidate
  | Some q =>
      c ← get_node t q;
      Ret (if 0 <? upper_comparator (node_max_upper c) candidate
           then node_max_upper c else candidate)
  end.

Definition update_max_upper (t : itree) (p : positive) : outcome (bool * itree) :=
  n ← get_node t p;
  new_left ← child_max t (node_left n) (node_upper n);
  new_max_upper ← child_max t (node_right n) new_left;
  if decide (node_max_upper n = new_max_upper) then Ret (false, t)
  else
    t ← upd_node (set_max_upper new_max_upper) p t;
    Ret (true, t).

Definition itree_rotate (t : itree) (p : positive) (left : bool) : outcome itree :=
  n ← get_node t p;
  match node_parent n with
  | None =>
      t ← upd_node (set_left (root t)) p t;
      t ← upd_node (set_parent None) p (set_root (Some p) t);
      '(_, t) ← update_max_upper t p;
      Ret t
  | Some parent =>
      t ← (if left then
             t ← upd_node (set_right (node_left n)) parent t;
             upd_node (set_left (Some parent)) p t
           else
             t ← upd_node (set_left (node_right n)) parent t;
             upd_node (set_right (Some parent)) p t);
      '(_, t) ← update_max_upper t parent;
      '(_, t) ← update_max_upper t p;
      pn ← get_node t parent;
      t ← (match node_parent pn with
           | None => upd_node (set_parent None) p (set_root (Some p) t)
           | Some grand =>
               g ← get_node t grand;
               t ← (if decide (node_left g = Some parent)
                    then upd_node (set_left (Some p)) grand t
                    else upd_node (set_right (Some p)) grand t);
               '(_, t) ← update_max_upper t grand;
               Ret t
           end);
      upd_node (set_parent (Some p)) parent t
  end.

(** The recalculation of the maxima at the end of both retraces. *)
Fixpoint max_upper_loop (fuel : nat) (t : itree) (p : positive) : outcome itree :=
  match fuel with
  | O => Fuel
  | S fuel =>
      '(changed, t) ← update_max_upper t p;
      if negb changed then Ret t
      else
        n ← get_node t p;
        match node_parent n with
        | None => Ret t
        | Some q => max_upper_loop fuel t q
        end
  end.

(** The rotation loop of [itree_retrace_insert]. *)
Fixpoint retrace_insert_loop (fuel : nat) (t : itree) (p : positive)
    : outcome (positive * itree) :=
  match fuel with
  | O => Fuel
  | S fuel =>
      n ← get_node t p;
      match node_parent n with
      | None => Ret (p, t)
      | Some parent =>
          pn ← get_node t parent;
          let left := bool_decide (node_left pn = Some p) in
          let needs_rotation := if left then 1 else -1 in
          let can_absorb := if left then -1 else 1 in
          if balance_factor pn =? needs_rotation then
            t ← (if balance_factor n =? can_absorb then itree_rotate t p left else Ret t);
            t ← itree_rotate t parent (negb left);
            Ret (p, t)
          else if balance_factor pn =? can_absorb then
            t ← upd_node (set_balance 0) parent t;
            Ret (p, t)
          else
            t ← upd_node (set_balance needs_rotation) parent t;
            n ← get_node t p;
            q ← deref (node_parent n);
            retrace_insert_loop fuel t q
      end
  end.

Definition itree_retrace_insert (t : itree) (p : positive) : outcome itree :=
  n ← get_node t p;
  '(p, t) ← (if (balance_factor n <? -1) || (1 <? balance_factor n)
             then retrace_insert_loop (fuel_of t) t p else Ret (p, t));
  max_upper_loop (fuel_of t) t p.

Definition gzochid_itree_insert (t : itree) (lower upper : P) (data : D) : outcome itree :=
  loc ← itree_location t lower upper;
  match loc with
  | None =>
      let new_node := fresh (dom (nodes t)) in
      Ret (Itree (Some new_node) (<[new_node := itree_node_new lower upper data]> (nodes t)))
  | Some p =>
      n ← get_node t p;
      if (lower_comparator (node_lower n) lower =? 0)
         && (upper_comparator (node_upper n) upper =? 0)
      then upd_node (set_data data) p t
      else
        let new_node := fresh (dom (nodes t)) in
        let t := Itree (root t) (<[new_node :=
          set_parent (Some p) (itree_node_new lower upper data)]> (nodes t)) in
        t ← (if lower_comparator lower (node_lower n) <? 0 then
               upd_node (fun n => set_balance (balance_factor n + 1)
                                    (set_left (Some new_node) n)) p t
             else
               upd_node (fun n => set_balance (balance_factor n - 1)
                                    (set_right (Some new_node) n)) p t);
        itree_retrace_insert t p
  end.

(** The rotation loop of [itree_retrace_remove]. *)
Fixpoint retrace_remove_loop (fuel : nat) (t : itree) (p : positive)
    : outcome (positive * itree) :=
  match fuel with
  | O => Fuel
  | S fuel =>
      n ← get_node t p;
      match node_parent n with
      | None => Ret (p, t)
      | Some parent =>
          pn ← get_node t parent;
          let right := bool_decide (node_right pn = Some p) in
          let sibling := if right then node_left pn else node_right pn in
          let needs_rotation := if right then 1 else -1 in
          let can_absorb := if right then -1 else 1 in
          '(stop, t) ←
            (if balance_factor pn =? needs_rotation then
               s ← deref sibling;
               sn ← get_node t s;
               t ← (if balance_factor sn =? can_absorb then itree_rotate t s right else Ret t);
               t ← itree_rotate t parent (negb right);
               sn ← get_node t s;
               Ret (balance_factor sn =? 0, t)
             else Ret (false, t));
          if (stop : bool) then Ret (p, t)
          else
            pn ← get_node t parent;
            if balance_factor pn =? 0 then
              t ← upd_node (set_balance needs_rotation) parent t;
              Ret (p, t)
            else
              t ← upd_node (set_balance 0) parent t;
              n ← get_node t p;
              q ← deref (node_parent n);
              retrace_remove_loop fuel t q
      end
  end.

Definition itree_retrace_remove (t : itree) (p : positive) : outcome itree :=
  '(p, t) ← retrace_remove_loop (fuel_of t) t p;
  max_upper_loop (fuel_of t) t p.

(** The rightmost node below a node. *)
Fixpoint rightmost (fuel : nat) (t : itree) (p : positive) : outcome positive :=
  match fuel with
  | O => Fuel
  | S fuel =>
      n ← get_node t p;
      match node_right n with
      | None => Ret p
      | Some q => rightmost fuel t q
      end
  end.

(** The node to take out of the structure, after its content has been moved to
    the node whose interval is removed. *)
Definition remove_target (t : itree) (p : positive) : outcome (positive * itree) :=
  n ← get_node t p;
  match node_left n, node_right n with
  | Some l, Some _ =>
      target ← rightmost (fuel_of t) t l;
      tn ← get_node t target;
      t ← upd_node (take_content tn) p t;
      Ret (target, t)
  | _, _ => Ret (p, t)
  end.

(** Put another child, or none, in the place of a node. *)
Definition replace_child (t : itree) (parent : option positive) (target : positive)
    (new_child : option positive) : outcome itree :=
  match parent with
  | None => Ret (set_root new_child t)
  | Some q =>
      pn ← get_node t q;
      if decide (node_left pn = Some target) then upd_node (set_left new_child) q t
      else if decide (node_right pn = Some target) then upd_node (set_right new_child) q t
      else Ret t
  end.

Definition gzochid_itree_remove (t : itree) (lower upper : P) : outcome itree :=
  loc ← itree_location t lower upper;
  match loc with
  | None => Ret t
  | Some p =>
      n ← get_node t p;
      if (lower_comparator (node_lower n) lower =? 0)
         && (upper_comparator (node_upper n) upper =? 0)
      then
        '(target, t) ← remove_target t p;
        tn ← get_node t target;
        let parent := node_parent tn in
        let new_child := (match node_left tn with
                          | Some c => Some c
                          | None => node_right tn
                          end) in
        t ← (match new_child with
             | Some c => upd_node (set_parent parent) c t
             | None => Ret t
             end);
        t ← replace_child t parent target new_child;
        let t := Itree (root t) (delete target (nodes t)) in
        match new_child with
        | Some c => itree_retrace_remove t c
        | None => Ret t
        end
      else Ret t
  end.

(** The loop of both searches: a stack of nodes, a test for a match and one for
    a subtree that need not be expanded.  The callback threads its state and
    stops the search by returning true. *)
Definition children (n : node) : list positive :=
  option_list (node_left n) ++ option_list (node_right n).

Fixpoint search_loop {S} (matches prunes : node -> bool) (f : P -> P -> D -> S -> bool * S)
    (t : itree) (fuel : nat) (stack : list positive) (s : S) : outcome S :=
  match stack with
  | [] => Ret s
  | p :: stack =>
      match fuel with
      | O => Fuel
      | Datatypes.S fuel =>
          n ← get_node t p;
          let '(stop, s) := (if matches n
                             then f (node_lower n) (node_upper n) (node_data n) s
                             else (false, s)) in
          if stop then Ret s
          else if prunes n then search_loop matches prunes f t fuel stack s
          else search_loop matches prunes f t fuel (children n ++ stack) s
      end
  end.

Definition interval_matches (from to : P) (n : node) : bool :=
  ((0 <=? lower_comparator from (node_lower n))
   && (upper_comparator from (node_upper n) <=? 0))
  || ((0 <=? lower_comparator to (node_lower n))
      && (upper_comparator to (node_upper n) <=? 0))
  || ((lower_comparator from (node_lower n) <=? 0)
      && (0 <=? upper_comparator to (node_upper n))).

Definition interval_prunes (from to : P) (n : node) : bool :=
  (0 <? upper_comparator from (node_max_upper n))
  && (0 <? upper_comparator to (node_max_upper n)).

Definition gzochid_itree_search_interval {S} (t : itree) (from to : P)
    (f : P -> P -> D -> S -> bool * S) (s : S) : outcome S :=
  search_loop (interval_matches from to) (interval_prunes from to) f t
    (fuel_of t) (option_list (root t)) s.

Definition point_matches (point : P) (n : node) : bool :=
  (0 <=? lower_comparator point (node_lower n))
  && (upper_comparator point (node_upper n) <=? 0).

Definition point_prunes (point : P) (n : node) : bool :=
  0 <? upper_comparator point (node_max_upper n).

Definition gzochid_itree_search {S} (t : itree) (point : P)
    (f : P -> P -> D -> S -> bool * S) (s : S) : outcome S :=
  search_loop (point_matches point) (point_prunes point) f t
    (fuel_of t) (option_list (root t)) s.

(** [gzochid_itree_free] first collects the nodes and then frees them. *)
Fixpoint flatten_loop (fuel : nat) (t : itree) (src dst : list positive)
    : outcome (list positive) :=
  match src with
  | [] => Ret dst
  | p :: src =>
      match fuel with
      | O => Fuel
      | S fuel =>
          n ← get_node t p;
          flatten_loop fuel t
            (option_list (node_right n) ++ option_list (node_left n) ++ src) (p :: dst)
      end
  end.

Fixpoint free_nodes (l : list positive) (h : gmap positive node)
    : outcome (gmap positive node) :=
  match l with
  | [] => Ret h
  | p :: l =>
      _ ← deref (h !! p);
      free_nodes l (delete p h)
  end.

Definition gzochid_itree_free (t : itree) : outcome (gmap positive node) :=
  match root t with
  | None => Ret (nodes t)
  | Some p =>
      l ← flatten_loop (fuel_of t) t [p] [];
      free_nodes l (nodes t)
  end.

End itree.

(** ** The tree a heap represents

    A [tree] lists addresses and intervals; [repr] says that the pointers of the
    heap form it. *)

Inductive tree (P D : Type) :=
| Tip
| Bin (l : tree P D) (p : positive) (e : P * P * D) (r : tree P D).
Arguments Tip {P D}.
Arguments Bin {P D} l p e r.

Fixpoint addrs {P D} (tr : tree P D) : list positive :=
  match tr with
  | Tip => []
  | Bin l p _ r => p :: addrs l ++ addrs r
  end.

(** The intervals, in the order a search visits them. *)
Fixpoint elements {P D} (tr : tree P D) : list (P * P * D) :=
  match tr with
  | Tip => []
  | Bin l _ e r => e :: elements l ++ elements r
  end.

Definition elem {P D} (n : itree_node P D) : P * P * D :=
  (node_lower n, node_upper n, node_data n).

Fixpoint repr {P D} (h : gmap positive (itree_node P D)) (parent ptr : option positive)
    (tr : tree P D) : Prop :=
  match tr with
  | Tip => ptr = None
  | Bin l p e r =>
      ptr = Some p
      /\ exists n, h !! p = Some n /\ node_parent n = parent /\ elem n = e
         /\ repr h (Some p) (node_left n) l /\ repr h (Some p) (node_right n) r
  end.

(** A callback run over a list of intervals until it stops. *)
Fixpoint run_until {P D S} (f : P -> P -> D -> S -> bool * S) (l : list (P * P * D)) (s : S)
    : S :=
  match l with
  | [] => s
  | (lo, up, d) :: l =>
      let '(stop, s) := f lo up d s in
      if stop then s else run_until f l s
  end.

Section invariant.

Context {P D : Type} `{EqDecision P}.
Context (lcmp ucmp : P -> P -> Z).

(** Intervals with a smaller lower bound are to the left, the others to the
    right. *)
Fixpoint bst (tr : tree P D) : Prop :=
  match tr with
  | Tip => True
  | Bin l _ e r =>
      Forall (fun x => lcmp x.1.1 e.1.1 < 0) (elements l)
      /\ Forall (fun x => 0 <= lcmp x.1.1 e.1.1) (elements r)
      /\ bst l /\ bst r
  end.

(** The maximum at a node bounds its interval and the maxima of its children. *)
Definition maxed_at (h : gmap positive (itree_node P D)) (p : positive) : Prop :=
  forall n, h !! p = Some n ->
    ucmp (node_upper n) (node_max_upper n) <= 0
    /\ forall q c, node_left n = Some q \/ node_right n = Some q -> h !! q = Some c ->
       ucmp (node_max_upper c) (node_max_upper n) <= 0.

(** The balance factor counts the children of the node. *)
Definition balanced_at (h : gmap positive (itree_node P D)) (p : positive) : Prop :=
  forall n, h !! p = Some n ->
    balance_factor n = (if node_left n is Some _ then 1 else 0) - (if node_right n is Some _ then 1 else 0).

Record itree_ok (t : gzochid_itree P D) (tr : tree P D) : Prop := {
  ok_repr : repr (nodes t) None (root t) tr;
  ok_nodup : NoDup (addrs tr);
  ok_dom : forall p, p ∈ addrs tr <-> is_Some (nodes t !! p);
  ok_bst : bst tr;
  ok_maxed : forall p, maxed_at (nodes t) p
}.

Context `{!Comparator lcmp, !Comparator ucmp}.

Lemma repr_addrs h par ptr (tr : tree P D) p :
  repr h par ptr tr -> p ∈ addrs tr -> is_Some (h !! p).
Proof.
  revert par ptr. induction tr as [|l IHl q e r IHr]; intros par ptr; simpl; [by intros _ ?%elem_of_nil|].
  intros (_ & n & Hq & _ & _ & Hl & Hr). rewrite elem_of_cons, elem_of_app. naive_solver.
Qed.

Lemma addrs_elements_length (tr : tree P D) : length (addrs tr) = length (elements tr).
Proof. induction tr as [|l IHl q e r IHr]; simpl; [done|]. rewrite !length_app. lia. Qed.

(** The maximum at the top of a subtree bounds all of its intervals. *)
Lemma repr_maxed h par p n (tr : tree P D) :
  (forall q, maxed_at h q) -> repr h par (Some p) tr -> h !! p = Some n ->
  Forall (fun e => ucmp e.1.2 (node_max_upper n) <= 0) (elements tr).
Proof.
  intros Hm. revert par p n. induction tr as [|l IHl q e r IHr]; intros par p n; [done|].
  intros ([= <-] & m & Hp & _ & <- & Hl & Hr) Hn. simplify_eq.
  destruct (Hm p m Hp) as [Hu Hc]. simpl. constructor; [done|].
  apply Forall_app. split.
  - destruct (node_left m) as [c|] eqn:Hlc; [|by destruct l as [|????]; [constructor|destruct Hl]].
    destruct l as [|????]; [constructor|]. pose proof Hl as (Hcp & cn & Hcn & _). simplify_eq.
    eapply Forall_impl; [eapply IHl; eauto|]. simpl. intros x Hx.
    eapply cmp_trans; [exact Hx|]. eapply Hc; eauto.
  - destruct (node_right m) as [c|] eqn:Hrc; [|by destruct r as [|????]; [constructor|destruct Hr]].
    destruct r as [|????]; [constructor|]. pose proof Hr as (Hcp & cn & Hcn & _). simplify_eq.
    eapply Forall_impl; [eapply IHr; eauto|]. simpl. intros x Hx.
    eapply cmp_trans; [exact Hx|]. eapply Hc; eauto.
Qed.

(** The trees below a node, as the stack of a search holds them. *)
Lemma repr_children h p (n : itree_node P D) (l r : tree P D) :
  repr h (Some p) (node_left n) l -> repr h (Some p) (node_right n) r ->
  exists trs, Forall2 (fun q tr => exists par, repr h par (Some q) tr) (children n) trs
    /\ concat (elements <$> trs) = elements l ++ elements r
    /\ concat (addrs <$> trs) = addrs l ++ addrs r.
Proof.
  intros Hl Hr. unfold children.
  exists ((if node_left n is Some _ then [l] else []) ++ (if node_right n is Some _ then [r] else [])).
  split_and!; [apply Forall2_app| |].
  - destruct (node_left n); repeat constructor; eauto.
  - destruct (node_right n); repeat constructor; eauto.
  - destruct l as [|????]; [simpl in Hl; rewrite Hl | destruct Hl as [-> _]];
      (destruct r as [|????]; [simpl in Hr; rewrite Hr | destruct Hr as [-> _]]);
      simpl; by rewrite ?app_nil_r.
  - destruct l as [|????]; [simpl in Hl; rewrite Hl | destruct Hl as [-> _]];
      (destruct r as [|????]; [simpl in Hr; rewrite Hr | destruct Hr as [-> _]]);
      simpl; by rewrite ?app_nil_r.
Qed.

Lemma run_until_filter_false {S} (f : P -> P -> D -> S -> bool * S) (m : P * P * D -> bool) l k s :
  Forall (fun e => m e = false) l ->
  run_until f (List.filter m (l ++ k)) s = run_until f (List.filter m k) s.
Proof. induction 1 as [|e l He _ IH]; simpl; [done|]. by rewrite He. Qed.

(** A search calls back for every interval that matches, in order. *)
Lemma search_loop_spec {S} (matches prunes : itree_node P D -> bool) (m : P * P * D -> bool)
    (Q : P * P * D -> Prop) (f : P -> P -> D -> S -> bool * S) (t : gzochid_itree P D) :
  (forall p, maxed_at (nodes t) p) ->
  (forall n, matches n = m (elem n)) ->
  (forall n e, prunes n = true -> ucmp e.1.2 (node_max_upper n) <= 0 -> Q e -> m e = false) ->
  forall fuel stack trs s,
  Forall2 (fun p tr => exists par, repr (nodes t) par (Some p) tr) stack trs ->
  Forall Q (concat (elements <$> trs)) ->
  (length (concat (addrs <$> trs)) <= fuel)%nat ->
  search_loop matches prunes f t fuel stack s
  = Ret (run_until f (List.filter m (concat (elements <$> trs))) s).
Proof.
  intros Hm Hmatch Hprune. induction fuel as [|fuel IH]; intros stack trs s Hst HQ Hfuel.
  - destruct Hst as [|p tr stack trs [par Hp] _]; [done|].
    destruct tr as [|????]; [done|]. simpl in Hfuel. lia.
  - destruct Hst as [|p tr stack trs [par Hp] Hst]; [done|].
    destruct tr as [|l q e r]; [done|].
    pose proof Hp as ([= <-] & n & Hn & _ & <- & Hl & Hr).
    pose proof (repr_maxed _ _ _ _ _ Hm Hp Hn) as Hbound. apply Forall_cons_1 in Hbound as [_ Hbound].
    cbn [search_loop]. unfold get_node. rewrite Hn. cbn [deref mbind outcome_bind].
    cbn [fmap list_fmap concat elements addrs] in *.
    cbn [List.filter app]. rewrite Hmatch.
    apply Forall_app in HQ as [HQ1 HQ]. apply Forall_cons_1 in HQ1 as [_ HQ1].
    rewrite length_app in Hfuel. cbn [length] in Hfuel.
    assert (Hnext : forall s', (if prunes n then search_loop matches prunes f t fuel stack s'
        else search_loop matches prunes f t fuel (children n ++ stack) s')
      = Ret (run_until f (List.filter m ((elements l ++ elements r) ++ concat (elements <$> trs))) s')).
    { intros s'. destruct (prunes n) eqn:Hpr.
      - rewrite run_until_filter_false; [apply IH; eauto; lia|].
        rewrite !Forall_forall in *. intros x Hx. eauto.
      - destruct (repr_children _ _ _ _ _ Hl Hr) as (ctrs & Hc & He & Ha).
        rewrite (IH _ (ctrs ++ trs)).
        + by rewrite fmap_app, concat_app, He.
        + by apply Forall2_app.
        + rewrite fmap_app, concat_app, He. by apply Forall_app.
        + rewrite fmap_app, concat_app, Ha, length_app. lia. }
    destruct (m (elem n)) eqn:Hme; [|apply Hnext].
    cbn [run_until elem]. destruct (f _ _ _ s) as [[] s']; [done|]. apply Hnext.
Qed.

(** *** Heaps with the same pointers, bounds, data and balance factors *)

Definition strip (n : itree_node P D) : itree_node P D := set_max_upper (node_upper n) n.

Definition same_shape (h h' : gmap positive (itree_node P D)) : Prop :=
  forall a, strip <$> h !! a = strip <$> h' !! a.

(** The pointers of two nodes and their intervals agree. *)
Definition same_links (n n' : itree_node P D) : Prop :=
  node_parent n = node_parent n' /\ node_left n = node_left n'
  /\ node_right n = node_right n' /\ elem n = elem n'.

Lemma strip_links n n' : strip n = strip n' -> same_links n n'.
Proof. destruct n, n'. unfold strip, same_links, elem. simpl. naive_solver. Qed.

Lemma same_shape_lookup h h' a n :
  same_shape h h' -> h !! a = Some n -> exists n', h' !! a = Some n' /\ same_links n n'.
Proof.
  intros Hs Ha. specialize (Hs a). rewrite Ha in Hs.
  destruct (h' !! a) as [n'|]; [|done]. injection Hs as Hs. exists n'.
  split; [done|]. apply strip_links. unfold strip, set_max_upper. by f_equal.
Qed.

Lemma same_shape_trans h1 h2 h3 : same_shape h1 h2 -> same_shape h2 h3 -> same_shape h1 h3.
Proof. intros H1 H2 a. by rewrite H1. Qed.

Lemma repr_links h h' par ptr (tr : tree P D) :
  (forall a n, a ∈ addrs tr -> h !! a = Some n ->
     exists n', h' !! a = Some n' /\ same_links n n') ->
  repr h par ptr tr -> repr h' par ptr tr.
Proof.
  revert par ptr. induction tr as [|l IHl p e r IHr]; intros par ptr Hh; simpl; [done|].
  intros (-> & n & Hp & <- & <- & Hl & Hr).
  destruct (Hh p n) as (n' & Hp' & Hpar & Hl' & Hr' & He); [by apply elem_of_cons; left|done|].
  split; [done|]. exists n'. split_and!; try done.
  - rewrite <- Hl'. apply IHl; [|done]. intros a m Ha. apply Hh.
    apply elem_of_cons; right. apply elem_of_app. by left.
  - rewrite <- Hr'. apply IHr; [|done]. intros a m Ha. apply Hh.
    apply elem_of_cons; right. apply elem_of_app. by right.
Qed.

Lemma repr_frame h h' par ptr (tr : tree P D) :
  (forall a, a ∈ addrs tr -> h' !! a = h !! a) -> repr h par ptr tr -> repr h' par ptr tr.
Proof.
  intros Hh. apply repr_links. intros a n Ha Hn. exists n. by rewrite Hh.
Qed.

(** *** Child and parent pointers *)

Definition linked (h : gmap positive (itree_node P D)) : Prop :=
  forall p n q, h !! p = Some n -> node_left n = Some q \/ node_right n = Some q ->
    exists c, h !! q = Some c /\ node_parent c = Some p.

Lemma repr_linked h par ptr (tr : tree P D) p n q :
  repr h par ptr tr -> p ∈ addrs tr -> h !! p = Some n ->
  node_left n = Some q \/ node_right n = Some q ->
  exists c, h !! q = Some c /\ node_parent c = Some p.
Proof.
  revert par ptr. induction tr as [|l IHl x e r IHr]; intros par ptr; [by intros _ ?%elem_of_nil|].
  intros (-> & m & Hx & _ & _ & Hl & Hr) Hp Hn Hq. simpl in Hp.
  apply elem_of_cons in Hp as [->|Hp]; [|apply elem_of_app in Hp as [Hp|Hp]; eauto].
  simplify_eq. destruct Hq as [Hq|Hq]; rewrite Hq in *.
  - destruct l as [|????]; [done|]. destruct Hl as ([= <-] & c & ? & ? & _). eauto.
  - destruct r as [|????]; [done|]. destruct Hr as ([= <-] & c & ? & ? & _). eauto.
Qed.

(** The number of steps from a node to the root. *)
Inductive up (h : gmap positive (itree_node P D)) : positive -> nat -> Prop :=
| up_root p n : h !! p = Some n -> node_parent n = None -> up h p 0
| up_step p n q k : h !! p = Some n -> node_parent n = Some q -> up h q k -> up h p (S k).

Lemma up_shape h h' p k : same_shape h h' -> up h p k -> up h' p k.
Proof.
  intros Hs. induction 1 as [p n Hp Hn | p n q k Hp Hn _ IH];
    destruct (same_shape_lookup _ _ _ _ Hs Hp) as (n' & Hp' & Hl & _); rewrite Hn in Hl.
  - by eapply up_root.
  - by eapply up_step.
Qed.

Lemma repr_up h par ptr (tr : tree P D) k :
  repr h par ptr tr ->
  match par with None => k = 0%nat | Some q => exists k', k = S k' /\ up h q k' end ->
  forall p, p ∈ addrs tr -> exists k', up h p k' /\ (k' < k + length (addrs tr))%nat.
Proof.
  revert par ptr k. induction tr as [|l IHl x e r IHr]; intros par ptr k; [by intros _ _ ? ?%elem_of_nil|].
  intros (-> & n & Hx & Hpar & _ & Hl & Hr) Hk p.
  assert (Hup : up h x k).
  { destruct par as [q|]; [destruct Hk as (k' & -> & Hk)|subst k].
    - by eapply up_step.
    - by eapply up_root. }
  cbn [addrs length]. rewrite elem_of_cons, length_app. intros [->|Hp].
  { exists k. split; [done|lia]. }
  apply elem_of_app in Hp as [Hp|Hp].
  - destruct (IHl _ _ (S k) Hl (ex_intro _ k (conj eq_refl Hup)) _ Hp) as (k' & ? & ?). exists k'. split; [done|lia].
  - destruct (IHr _ _ (S k) Hr (ex_intro _ k (conj eq_refl Hup)) _ Hp) as (k' & ? & ?). exists k'. split; [done|lia].
Qed.

(** *** Recalculating the maxima *)

Lemma child_max_spec (t : gzochid_itree P D) child cand :
  (forall q, child = Some q -> is_Some (nodes t !! q)) ->
  exists m, child_max ucmp t child cand = Ret m /\ ucmp cand m <= 0
    /\ forall q c, child = Some q -> nodes t !! q = Some c -> ucmp (node_max_upper c) m <= 0.
Proof.
  intros Hc. destruct child as [q|]; simpl.
  - destruct (Hc q eq_refl) as [c Hq]. unfold get_node. rewrite Hq. cbn [deref mbind outcome_bind].
    pose proof (cmp_sym (cmp := ucmp) (node_max_upper c) cand).
    pose proof (cmp_refl ucmp (node_max_upper c)). pose proof (cmp_refl ucmp cand).
    destruct (Z.ltb_spec 0 (ucmp (node_max_upper c) cand)); eexists;
      (split; [done|]); (split; [lia|]); intros ? ? [= <-] ?; simplify_eq; lia.
  - exists cand. split; [done|]. split; [|done]. by rewrite (cmp_refl ucmp).
Qed.

Lemma update_max_upper_spec (t : gzochid_itree P D) p n :
  linked (nodes t) -> nodes t !! p = Some n ->
  exists b m, update_max_upper ucmp t p = Ret (b, Itree (root t) (<[p := set_max_upper m n]> (nodes t)))
    /\ maxed_at (<[p := set_max_upper m n]> (nodes t)) p
    /\ (b = false -> m = node_max_upper n).
Proof.
  intros Hl Hp. unfold update_max_upper, get_node. rewrite Hp. run.
  destruct (child_max_spec t (node_left n) (node_upper n)) as (m1 & -> & Hm1 & Hc1).
  { intros q Hq. destruct (Hl p n q Hp ltac:(auto)) as (c & -> & _). done. }
  run.
  destruct (child_max_spec t (node_right n) m1) as (m & -> & Hm & Hc2).
  { intros q Hq. destruct (Hl p n q Hp ltac:(auto)) as (c & -> & _). done. }
  run.
  assert (Hmax : maxed_at (<[p := set_max_upper m n]> (nodes t)) p).
  { intros n'. rewrite lookup_insert_eq. intros [= <-]. simpl.
    split; [by eapply cmp_trans|]. intros q c Hq Hc.
    destruct (decide (p = q)) as [<-|Hne].
    - rewrite lookup_insert_eq in Hc. injection Hc as <-. simpl. by rewrite (cmp_refl ucmp).
    - rewrite lookup_insert_ne in Hc by done. destruct Hq as [Hq|Hq]; [|by eauto].
      eapply cmp_trans; [by eauto|done]. }
  case_decide as Hd.
  - exists false, m. split; [|by auto].
    rewrite <- Hd. replace (set_max_upper (node_max_upper n) n) with n by (by destruct n).
    rewrite insert_id by done. by destruct t.
  - exists true, m. unfold upd_node, get_node. rewrite Hp. run. by auto.
Qed.

Lemma linked_shape h h' : same_shape h h' -> linked h -> linked h'.
Proof.
  intros Hs Hl p n q Hp Hq.
  assert (Hs' : same_shape h' h) by (intros a; by rewrite (Hs a)).
  destruct (same_shape_lookup _ _ _ _ Hs' Hp) as (n' & Hp' & Hln & Hll & Hlr & _).
  rewrite Hll, Hlr in Hq. destruct (Hl p n' q Hp' Hq) as (c & Hc & Hcp).
  destruct (same_shape_lookup _ _ _ _ Hs Hc) as (c' & Hc' & Hpar & _).
  exists c'. by rewrite <- Hpar.
Qed.

Lemma same_shape_max h p n m :
  h !! p = Some n -> same_shape h (<[p := set_max_upper m n]> h).
Proof.
  intros Hp a. destruct (decide (p = a)) as [<-|Hne].
  - by rewrite lookup_insert_eq, Hp.
  - by rewrite lookup_insert_ne.
Qed.

(** Only the parent looks at the maximum of a node. *)
Lemma maxed_insert_ne h p n m q :
  linked h -> h !! p = Some n -> q <> p -> node_parent n <> Some q ->
  maxed_at h q -> maxed_at (<[p := set_max_upper m n]> h) q.
Proof.
  intros Hl Hp Hne Hpar Hm nq. rewrite lookup_insert_ne by done. intros Hq.
  destruct (Hm nq Hq) as [Hu Hc]. split; [done|]. intros a c Ha Hac.
  destruct (Hl q nq a Hq Ha) as (c' & Hc' & Hcp).
  destruct (decide (p = a)) as [<-|?]; [naive_solver|].
  rewrite lookup_insert_ne in Hac by done. eauto.
Qed.

(** The loop ends at the root at the latest, with every maximum in place. *)
Lemma max_upper_loop_spec k : forall fuel (t : gzochid_itree P D) p,
  linked (nodes t) -> up (nodes t) p k -> (k < fuel)%nat ->
  (forall q, q <> p -> maxed_at (nodes t) q) ->
  exists t', max_upper_loop ucmp fuel t p = Ret t' /\ root t' = root t
    /\ same_shape (nodes t) (nodes t') /\ forall q, maxed_at (nodes t') q.
Proof.
  induction k as [|k IH]; intros [|fuel] t p Hl Hup Hfuel Hm; try lia;
    inversion Hup as [? n Hp Hpar|? n q ? Hp Hpar Hup']; subst; cbn [max_upper_loop];
    destruct (update_max_upper_spec t p n Hl Hp) as (b & m & -> & Hmp & Hb); run;
    set (t' := Itree (root t) (<[p:=set_max_upper m n]> (nodes t)));
    pose proof (same_shape_max _ _ _ m Hp) as Hs;
    (destruct b; cbn [negb];
     [|exists t; specialize (Hb eq_refl) as ->]).
  - unfold get_node. subst t'. cbn [nodes]. rewrite lookup_insert_eq. run.
    cbn [deref set_max_upper node_parent]. rewrite Hpar. eexists. split; [done|].
    split; [done|]. split; [done|]. intros q. destruct (decide (q = p)) as [->|Hne]; [done|].
    apply maxed_insert_ne; auto. by rewrite Hpar.
  - assert (t' = t) as ->.
    { subst t'. replace (set_max_upper (node_max_upper n) n) with n by (by destruct n).
      rewrite insert_id by done. by destruct t. }
    split_and!; try done. intros q. destruct (decide (q = p)) as [->|]; [|by auto].
    replace (set_max_upper (node_max_upper n) n) with n in Hmp by (by destruct n).
    by rewrite insert_id in Hmp.
  - unfold get_node. subst t'. cbn [nodes]. rewrite lookup_insert_eq. run.
    cbn [deref set_max_upper node_parent]. rewrite Hpar.
    destruct (IH fuel (Itree (root t) (<[p:=set_max_upper m n]> (nodes t))) q) as (t' & -> & Hr & Hs' & Hm').
    + by eapply linked_shape.
    + by eapply up_shape.
    + lia.
    + intros a Ha. cbn [nodes]. destruct (decide (a = p)) as [->|Hne]; [done|].
      apply maxed_insert_ne; auto. rewrite Hpar. naive_solver.
    + exists t'. split_and!; try done. by eapply same_shape_trans.
  - assert (t' = t) as ->.
    { subst t'. replace (set_max_upper (node_max_upper n) n) with n by (by destruct n).
      rewrite insert_id by done. by destruct t. }
    split_and!; try done. intros a. destruct (decide (a = p)) as [->|]; [|by auto].
    replace (set_max_upper (node_max_upper n) n) with n in Hmp by (by destruct n).
    by rewrite insert_id in Hmp.
Qed.

(** *** The insertion as a function on trees *)

Definition same_key (lo up : P) (e : P * P * D) : bool :=
  (lcmp lo e.1.1 =? 0) && (ucmp up e.1.2 =? 0).

Fixpoint tree_insert (q : positive) (lo up : P) (d : D) (tr : tree P D) : tree P D :=
  match tr with
  | Tip => Bin Tip q (lo, up, d) Tip
  | Bin l p e r =>
      if same_key lo up e then Bin l p (e.1, d) r
      else if lcmp lo e.1.1 <? 0 then Bin (tree_insert q lo up d l) p e r
      else Bin l p e (tree_insert q lo up d r)
  end.

(** Where the insertion goes: the node with the same bounds, or the parent of
    the new node. *)
Fixpoint tree_location (lo up : P) (tr : tree P D) : option (positive * (P * P * D)) :=
  match tr with
  | Tip => None
  | Bin l p e r =>
      if same_key lo up e then Some (p, e)
      else if lcmp lo e.1.1 <? 0 then
        match l with Tip => Some (p, e) | _ => tree_location lo up l end
      else match r with Tip => Some (p, e) | _ => tree_location lo up r end
  end.

Lemma location_loop_spec fuel (t : gzochid_itree P D) tr : forall par p lo up,
  repr (nodes t) par (Some p) tr -> (length (addrs tr) <= fuel)%nat ->
  exists q n, location_loop lcmp ucmp fuel t p lo up = Ret q
    /\ tree_location lo up tr = Some (q, elem n)
    /\ q ∈ addrs tr /\ nodes t !! q = Some n.
Proof.
  revert tr. induction fuel as [|fuel IH]; intros tr par p lo up Hrep Hfuel;
    (destruct tr as [|l x e r]; [done|]); cbn [addrs length] in Hfuel; [lia|].
  rewrite length_app in Hfuel.
  destruct Hrep as ([= <-] & n & Hp & _ & <- & Hl & Hr).
  cbn [location_loop tree_location]. unfold get_node. rewrite Hp. run.
  unfold same_key. cbn [elem fst snd].
  destruct (_ && _).
  { exists p, n. cbn [addrs]. rewrite elem_of_cons. auto. }
  destruct (_ <? 0).
  - destruct l as [|l1 y e1 l2].
    + rewrite Hl. exists p, n. cbn [addrs]. rewrite elem_of_cons. auto.
    + destruct (node_left n) as [y'|] eqn:Hnl; [|by destruct Hl].
      destruct (IH _ _ _ lo up Hl ltac:(lia)) as (q & m & -> & Hloc & Hq & Hm).
      exists q, m. split_and!; try done. change (q ∈ p :: addrs (Bin l1 y e1 l2) ++ addrs r).
      rewrite elem_of_cons, elem_of_app. auto.
  - destruct r as [|r1 y e1 r2].
    + rewrite Hr. exists p, n. cbn [addrs]. rewrite elem_of_cons. auto.
    + destruct (node_right n) as [y'|] eqn:Hnr; [|by destruct Hr].
      destruct (IH _ _ _ lo up Hr ltac:(lia)) as (q & m & -> & Hloc & Hq & Hm).
      exists q, m. split_and!; try done. change (q ∈ p :: addrs l ++ addrs (Bin r1 y e1 r2)).
      rewrite elem_of_cons, elem_of_app. auto.
Qed.

Lemma tree_location_in lo up tr q e :
  tree_location lo up tr = Some (q, e) -> q ∈ addrs tr /\ e ∈ elements tr.
Proof.
  induction tr as [|l IHl p e' r IHr]; simpl; [done|].
  rewrite !elem_of_cons, !elem_of_app. destruct (same_key lo up e'); [naive_solver|].
  destruct (_ <? 0); [destruct l | destruct r]; naive_solver.
Qed.

Lemma tree_insert_elements q lo up d tr :
  bst tr ->
  match tree_location lo up tr with
  | Some (p, e) =>
      if same_key lo up e
      then exists rest, elements tr ≡ₚ e :: rest
             /\ elements (tree_insert q lo up d tr) ≡ₚ (e.1, d) :: rest
      else Forall (fun x => same_key lo up x = false) (elements tr)
           /\ elements (tree_insert q lo up d tr) ≡ₚ (lo, up, d) :: elements tr
  | None => tr = Tip
  end.
Proof.
  induction tr as [|l IHl p e r IHr]; [done|]. intros (HL & HR & Hbl & Hbr).
  specialize (IHl Hbl). specialize (IHr Hbr). cbn [tree_location tree_insert].
  destruct (same_key lo up e) eqn:He.
  { rewrite He. exists (elements l ++ elements r). done. }
  destruct (Z.ltb_spec (lcmp lo e.1.1) 0) as [Hlt|Hge].
  - assert (Hr : Forall (fun x => same_key lo up x = false) (elements r)).
    { eapply Forall_impl; [exact HR|]. intros x Hx. unfold same_key. simpl in Hx.
      pose proof (cmp_sym (cmp := lcmp) x.1.1 e.1.1).
      pose proof (cmp_lt_le_trans lcmp lo e.1.1 x.1.1). 
      destruct (Z.eqb_spec (lcmp lo x.1.1) 0); [lia|done]. }
    destruct l as [|l1 y e1 l2].
    { rewrite He. cbn [elements tree_insert app]. split; [by constructor|]. by constructor. }
    destruct (tree_location lo up (Bin l1 y e1 l2)) as [[a x]|]; [|done].
    destruct (same_key lo up x).
    + destruct IHl as (rest & H1 & H2). exists (e :: rest ++ elements r).
      cbn [elements] in *. rewrite H2. split; [rewrite H1|]; apply Permutation_swap.
    + destruct IHl as [H1 H2]. cbn [elements] in *. rewrite H2. split.
      * constructor; [done|]. by apply Forall_app.
      * apply Permutation_swap.
  - assert (Hl : Forall (fun x => same_key lo up x = false) (elements l)).
    { eapply Forall_impl; [exact HL|]. intros x Hx. unfold same_key. simpl in Hx.
      pose proof (cmp_sym (cmp := lcmp) lo x.1.1).
      pose proof (cmp_sym (cmp := lcmp) lo e.1.1).
      destruct (Z.eqb_spec (lcmp lo x.1.1) 0) as [Hx0|]; [|done].
      pose proof (cmp_le_lt_trans lcmp lo x.1.1 e.1.1). lia. }
    destruct r as [|r1 y e1 r2].
    { rewrite He. cbn [elements tree_insert app]. rewrite app_nil_r. split; [by constructor|].
      rewrite <- Permutation_cons_append. constructor. }
    destruct (tree_location lo up (Bin r1 y e1 r2)) as [[a x]|]; [|done].
    destruct (same_key lo up x).
    + destruct IHr as (rest & H1 & H2). exists (e :: elements l ++ rest).
      cbn [elements] in *. rewrite H2.
      split; [rewrite H1|]; rewrite <- Permutation_middle; apply Permutation_swap.
    + destruct IHr as [H1 H2]. cbn [elements] in *. rewrite H2. split.
      * constructor; [done|]. by apply Forall_app.
      * rewrite <- Permutation_middle. apply Permutation_swap.
Qed.

Lemma tree_insert_bounds q lo up d tr (Q : P -> Prop) :
  Q lo -> Forall (fun x => Q x.1.1) (elements tr) ->
  Forall (fun x => Q x.1.1) (elements (tree_insert q lo up d tr)).
Proof.
  intros Hlo. induction tr as [|l IHl p e r IHr]; simpl; [by repeat constructor|].
  intros [He [Hl Hr]%Forall_app]%Forall_cons_1.
  destruct (same_key lo up e); [|destruct (_ <? 0)]; simpl;
    (constructor; [done|]); apply Forall_app; auto.
Qed.

Lemma tree_insert_bst q lo up d tr : bst tr -> bst (tree_insert q lo up d tr).
Proof.
  induction tr as [|l IHl p e r IHr]; simpl; [by repeat constructor|].
  intros (HL & HR & Hbl & Hbr).
  destruct (same_key lo up e); [done|]. destruct (Z.ltb_spec (lcmp lo e.1.1) 0); simpl.
  - split_and!; auto.
    by apply (tree_insert_bounds q lo up d l (fun x => lcmp x e.1.1 < 0)).
  - split_and!; auto.
    by apply (tree_insert_bounds q lo up d r (fun x => 0 <= lcmp x e.1.1)).
Qed.

Lemma tree_insert_addrs q lo up d tr p e :
  tree_location lo up tr = Some (p, e) ->
  if same_key lo up e then addrs (tree_insert q lo up d tr) = addrs tr
  else addrs (tree_insert q lo up d tr) ≡ₚ q :: addrs tr.
Proof.
  induction tr as [|l IHl x e' r IHr]; [done|]. cbn [tree_location tree_insert].
  destruct (same_key lo up e') eqn:He; [intros [= <- <-]; by rewrite He|].
  destruct (_ <? 0).
  - destruct l as [|l1 y e1 l2].
    + intros [= <- <-]. rewrite He. cbn [tree_insert addrs app]. apply Permutation_swap.
    + intros Hloc. specialize (IHl Hloc). destruct (same_key lo up e); cbn [addrs] in *.
      * by rewrite IHl.
      * rewrite IHl. apply Permutation_swap.
  - destruct r as [|r1 y e1 r2].
    + intros [= <- <-]. rewrite He. cbn [tree_insert addrs app]. rewrite app_nil_r.
      rewrite <- Permutation_cons_append. apply Permutation_swap.
    + intros Hloc. specialize (IHr Hloc). destruct (same_key lo up e); cbn [addrs] in *.
      * by rewrite IHr.
      * rewrite IHr, <- Permutation_middle. apply Permutation_swap.
Qed.

Lemma addrs_nodup_inv l p (e : P * P * D) r :
  NoDup (addrs (Bin l p e r)) ->
  (p ∉ addrs l) /\ (p ∉ addrs r) /\ NoDup (addrs l) /\ NoDup (addrs r)
  /\ (forall a, a ∈ addrs l -> a ∈ addrs r -> False).
Proof.
  cbn [addrs]. intros [Hp [Hl [Hd Hr]]%NoDup_app]%NoDup_cons.
  rewrite elem_of_app in Hp. naive_solver.
Qed.

(** Replacing the data of the located node. *)
Lemma repr_replace q lo up d h tr : forall par ptr p n,
  repr h par ptr tr -> NoDup (addrs tr) ->
  tree_location lo up tr = Some (p, elem n) -> h !! p = Some n ->
  same_key lo up (elem n) = true ->
  repr (<[p := set_data d n]> h) par ptr (tree_insert q lo up d tr).
Proof.
  induction tr as [|l IHl x e r IHr]; intros par ptr p n Hrep Hnd Hloc Hp Hk; [done|].
  apply addrs_nodup_inv in Hnd as (Hxl & Hxr & Hnl & Hnr & Hdisj).
  destruct Hrep as (-> & m & Hx & Hpar & <- & Hl & Hr).
  cbn [tree_location tree_insert] in *.
  destruct (same_key lo up (elem m)) eqn:He.
  { injection Hloc as <- Hm. assert (m = n) as -> by congruence. split; [done|].
    exists (set_data d n). rewrite lookup_insert_eq. split_and!; try done;
      (eapply repr_frame; [|done]); intros a Ha; rewrite lookup_insert_ne by (by intros ->); done. }
  destruct (_ <? 0).
  - destruct l as [|l1 y e1 l2]; [congruence|].
    pose proof (proj1 (tree_location_in _ _ _ _ _ Hloc)) as Hin.
    split; [done|]. exists m. rewrite lookup_insert_ne by (by intros ->).
    split_and!; try done; [by apply IHl|].
    eapply repr_frame; [|done]. intros a Ha. rewrite lookup_insert_ne; [done|].
    intros ->. eauto.
  - destruct r as [|r1 y e1 r2]; [congruence|].
    pose proof (proj1 (tree_location_in _ _ _ _ _ Hloc)) as Hin.
    split; [done|]. exists m. rewrite lookup_insert_ne by (by intros ->).
    split_and!; try done; [|by apply IHr].
    eapply repr_frame; [|done]. intros a Ha. rewrite lookup_insert_ne; [done|].
    intros ->. eauto.
Qed.

(** The located node with a new child. *)
Definition attach (lo : P) (q : positive) (n : itree_node P D) : itree_node P D :=
  if lcmp lo (node_lower n) <? 0
  then set_balance (balance_factor n + 1) (set_left (Some q) n)
  else set_balance (balance_factor n - 1) (set_right (Some q) n).

Lemma repr_attach q lo up d h tr : forall par ptr p n,
  repr h par ptr tr -> NoDup (addrs tr) -> q ∉ addrs tr ->
  tree_location lo up tr = Some (p, elem n) -> h !! p = Some n ->
  same_key lo up (elem n) = false ->
  repr (<[p := attach lo q n]> (<[q := set_parent (Some p) (itree_node_new lo up d)]> h))
    par ptr (tree_insert q lo up d tr).
Proof.
  induction tr as [|l IHl x e r IHr]; intros par ptr p n Hrep Hnd Hq Hloc Hp Hk; [done|].
  apply addrs_nodup_inv in Hnd as (Hxl & Hxr & Hnl & Hnr & Hdisj).
  destruct Hrep as (-> & m & Hx & Hpar & <- & Hl & Hr).
  cbn [addrs] in Hq. rewrite elem_of_cons, elem_of_app in Hq.
  set (h' := <[p := attach lo q n]> _).
  assert (Hframe : forall a, a <> p -> a <> q -> h' !! a = h !! a).
  { intros a Hap Haq. subst h'. by rewrite !lookup_insert_ne. }
  assert (Hnew : p <> q -> repr h' (Some p) (Some q) (Bin Tip q (lo, up, d) Tip)).
  { intros Hpq. split; [done|]. exists (set_parent (Some p) (itree_node_new lo up d)).
    subst h'. rewrite lookup_insert_ne, lookup_insert_eq by done. done. }
  cbn [tree_location tree_insert] in *.
  destruct (same_key lo up (elem m)) eqn:He; [congruence|].
  cbn [elem fst snd] in *. destruct (_ <? 0) eqn:Hdir.
  - destruct l as [|l1 y e1 l2].
    + injection Hloc as <- Hm. assert (m = n) as -> by congruence.
      split; [done|]. exists (attach lo q n).
      split; [by subst h'; rewrite lookup_insert_eq|].
      unfold attach. rewrite Hdir. split_and!; try done; [apply Hnew; naive_solver|].
      eapply repr_frame; [|exact Hr]. intros a Ha. apply Hframe; [by intros ->|naive_solver].
    + pose proof (proj1 (tree_location_in _ _ _ _ _ Hloc)) as Hin.
      split; [done|]. exists m. split; [subst h'; rewrite !lookup_insert_ne; naive_solver|].
      split_and!; try done; [apply IHl; naive_solver|].
      eapply repr_frame; [|exact Hr]. intros a Ha. apply Hframe; naive_solver.
  - destruct r as [|r1 y e1 r2].
    + injection Hloc as <- Hm. assert (m = n) as -> by congruence.
      split; [done|]. exists (attach lo q n).
      split; [by subst h'; rewrite lookup_insert_eq|].
      unfold attach. rewrite Hdir. split_and!; try done; [|apply Hnew; naive_solver].
      eapply repr_frame; [|exact Hl]. intros a Ha. apply Hframe; [by intros ->|naive_solver].
    + pose proof (proj1 (tree_location_in _ _ _ _ _ Hloc)) as Hin.
      split; [done|]. exists m. split; [subst h'; rewrite !lookup_insert_ne; naive_solver|].
      split_and!; try done; [|apply IHr; naive_solver].
      eapply repr_frame; [|exact Hl]. intros a Ha. apply Hframe; naive_solver.
Qed.

(** *** The invariant, and the insertion on the heap *)

Lemma itree_ok_size t (tr : tree P D) : itree_ok t tr -> size (nodes t) = length (addrs tr).
Proof.
  intros [_ Hnd Hd _ _]. rewrite <- size_dom.
  rewrite <- (size_list_to_set (C := gset positive) (addrs tr)) by done.
  f_equal. apply set_eq. intros p. by rewrite elem_of_dom, elem_of_list_to_set, Hd.
Qed.

(** All of the tree but the maxima. *)
Definition shape_ok (t : gzochid_itree P D) (tr : tree P D) : Prop :=
  repr (nodes t) None (root t) tr /\ NoDup (addrs tr)
  /\ (forall p, p ∈ addrs tr <-> is_Some (nodes t !! p)) /\ bst tr.

Lemma shape_ok_linked t tr : shape_ok t tr -> linked (nodes t).
Proof.
  intros (Hrep & _ & Hd & _) p n q Hp Hq. eapply repr_linked; eauto. by apply Hd; eauto.
Qed.

Lemma retrace_insert_ok t tr p n :
  shape_ok t tr -> size (nodes t) = length (addrs tr) -> nodes t !! p = Some n ->
  -1 <= balance_factor n <= 1 -> (forall q, q <> p -> maxed_at (nodes t) q) ->
  exists t', itree_retrace_insert ucmp t p = Ret t' /\ itree_ok t' tr
    /\ same_shape (nodes t) (nodes t').
Proof.
  intros Hok Hsize Hp Hbf Hm. unfold itree_retrace_insert, get_node. rewrite Hp. run.
  replace ((balance_factor n <? -1) || (1 <? balance_factor n)) with false
    by (symmetry; apply orb_false_iff; split; apply Z.ltb_ge; lia).
  run. pose proof Hok as (Hrep & Hnd & Hd & Hb).
  destruct (repr_up _ _ _ _ 0 Hrep eq_refl p) as (k & Hup & Hk); [by apply Hd; eauto|].
  destruct (max_upper_loop_spec k (fuel_of t) t p) as (t' & -> & Hroot & Hs & Hm'); auto.
  { by eapply shape_ok_linked. }
  { unfold fuel_of. lia. }
  exists t'. split; [done|]. split; [|done]. split; auto.
  - rewrite Hroot. eapply repr_links; [|done]. intros a m _ Ha. by eapply same_shape_lookup.
  - intros a. rewrite Hd. specialize (Hs a).
    destruct (nodes t !! a), (nodes t' !! a); simpl in Hs; try done; split; intros [??]; eauto.
Qed.

Lemma attach_bf lo q n : balance_factor n = (if node_left n is Some _ then 1 else 0)
    - (if node_right n is Some _ then 1 else 0) ->
  (if lcmp lo (node_lower n) <? 0 then node_left n else node_right n) = None ->
  -1 <= balance_factor (attach lo q n) <= 1
  /\ balance_factor (attach lo q n)
     = (if node_left (attach lo q n) is Some _ then 1 else 0)
       - (if node_right (attach lo q n) is Some _ then 1 else 0).
Proof.
  intros Hb Hn. unfold attach. destruct (_ <? 0); simpl; rewrite Hb, Hn;
    [destruct (node_right n) | destruct (node_left n)]; lia.
Qed.

Lemma attach_slot h par ptr lo up tr p n :
  repr h par ptr tr -> NoDup (addrs tr) ->
  tree_location lo up tr = Some (p, elem n) -> h !! p = Some n ->
  same_key lo up (elem n) = false ->
  (if lcmp lo (node_lower n) <? 0 then node_left n else node_right n) = None.
Proof.
  revert par ptr. induction tr as [|l IHl x e r IHr]; intros par ptr; [done|].
  intros (-> & m & Hx & Hpar & <- & Hl & Hr) Hnd Hloc Hp Hk.
  apply addrs_nodup_inv in Hnd as (_ & _ & Hnl & Hnr & _).
  cbn [tree_location] in Hloc.
  destruct (same_key lo up (elem m)) eqn:He; [congruence|].
  cbn [elem fst snd] in Hloc.
  destruct (lcmp lo (node_lower m) <? 0) eqn:Hdir.
  - destruct l as [|l1 y e1 l2]; [|by eapply IHl].
    injection Hloc as <- Hm. assert (m = n) as -> by congruence. by rewrite Hdir.
  - destruct r as [|r1 y e1 r2]; [|by eapply IHr].
    injection Hloc as <- Hm. assert (m = n) as -> by congruence. by rewrite Hdir.
Qed.

Lemma balanced_shape h h' :
  same_shape h h' -> (forall p, balanced_at h p) -> forall p, balanced_at h' p.
Proof.
  intros Hs Hb p n Hp. pose proof (Hs p) as Hsp. rewrite Hp in Hsp.
  destruct (h !! p) as [m|] eqn:Hm; [|done].
  assert (Hst : strip m = strip n) by (by apply (inj Some)).
  pose proof (f_equal node_left Hst) as Hl. pose proof (f_equal node_right Hst) as Hr.
  pose proof (f_equal balance_factor Hst) as Hbf. cbn in Hl, Hr, Hbf.
  rewrite <- Hl, <- Hr, <- Hbf. by apply (Hb p).
Qed.

Lemma insert_attach_ok (t : gzochid_itree P D) tr lo up d p n :
  itree_ok t tr -> (forall a, balanced_at (nodes t) a) ->
  tree_location lo up tr = Some (p, elem n) -> nodes t !! p = Some n ->
  same_key lo up (elem n) = false ->
  let q := fresh (dom (nodes t)) in
  exists t', itree_retrace_insert ucmp
      (Itree (root t) (<[p := attach lo q n]>
         (<[q := set_parent (Some p) (itree_node_new lo up d)]> (nodes t)))) p = Ret t'
    /\ itree_ok t' (tree_insert q lo up d tr) /\ (forall a, balanced_at (nodes t') a).
Proof.
  intros Hok Hbal Hloc Hp Hk q. pose proof Hok as [Hrep Hnd Hd Hb Hm].
  assert (Hqd : nodes t !! q = None).
  { apply not_elem_of_dom. apply is_fresh. }
  assert (Hq : q ∉ addrs tr) by (rewrite Hd, Hqd; by intros [??]).
  assert (Hpq : p <> q) by naive_solver.
  pose proof (attach_slot _ _ _ _ _ _ _ _ Hrep Hnd Hloc Hp Hk) as Hslot.
  destruct (attach_bf lo q n (Hbal p n Hp) Hslot) as [Hbf Hbf'].
  pose proof (tree_insert_addrs q lo up d _ _ _ Hloc) as Hadd. rewrite Hk in Hadd.
  set (h' := <[p := attach lo q n]> _).
  assert (Hcase : forall a m, h' !! a = Some m ->
    (a = p /\ m = attach lo q n) \/ (a = q /\ m = set_parent (Some p) (itree_node_new lo up d))
    \/ (a <> p /\ a <> q /\ nodes t !! a = Some m)).
  { intros a m. subst h'. destruct (decide (a = p)) as [->|]; [rewrite lookup_insert_eq; naive_solver|].
    rewrite lookup_insert_ne by done.
    destruct (decide (a = q)) as [->|]; [rewrite lookup_insert_eq; naive_solver|].
    rewrite lookup_insert_ne by done. auto. }
  destruct (retrace_insert_ok (Itree (root t) h') (tree_insert q lo up d tr) p (attach lo q n))
    as (t' & Ht' & Hok' & Hs').
  - split_and!; cbn [nodes root].
    + by apply repr_attach.
    + rewrite Hadd. by constructor.
    + intros a. rewrite Hadd, elem_of_cons, Hd. subst h'.
      destruct (decide (a = p)) as [->|]; [rewrite lookup_insert_eq; naive_solver|].
      rewrite lookup_insert_ne by done.
      destruct (decide (a = q)) as [->|]; [rewrite lookup_insert_eq; naive_solver|].
      rewrite lookup_insert_ne by done. naive_solver.
    + by apply tree_insert_bst.
  - cbn [nodes]. rewrite Hadd. subst h'. cbn [length].
    rewrite map_size_insert_Some by (rewrite lookup_insert_ne by done; eauto).
    rewrite map_size_insert_None by done. f_equal. by apply itree_ok_size.
  - cbn [nodes]. subst h'. by rewrite lookup_insert_eq.
  - done.
  - cbn [nodes]. intros a Ha m Hma. destruct (Hcase a m Hma) as [[??]|[[-> ->]|(Hap & Haq & Hta)]]; [done| |].
    + split; [by rewrite (cmp_refl ucmp)|]. intros ? ? [?|?]; done.
    + destruct (Hm a m Hta) as [Hu Hc]. split; [done|]. intros b c Hb' Hbc.
      destruct (shape_ok_linked t tr ltac:(by split_and!) a m b Hta Hb') as (c' & Hc' & Hpar).
      destruct (Hcase b c Hbc) as [[-> ->]|[[-> _]|(_ & _ & Hbt)]]; [|by simplify_eq|by eauto].
      simplify_eq. replace (node_max_upper (attach lo q n)) with (node_max_upper n)
        by (unfold attach; by destruct (_ <? 0)). by eauto.
  - exists t'. split_and!; try done. eapply balanced_shape; [exact Hs'|]. cbn [nodes].
    intros a m Hma. destruct (Hcase a m Hma) as [[-> ->]|[[-> ->]|(_ & _ & Hta)]];
      [done..|by apply (Hbal a)].
Qed.

Lemma insert_replace_ok (t : gzochid_itree P D) tr lo up d p n :
  itree_ok t tr -> (forall a, balanced_at (nodes t) a) ->
  tree_location lo up tr = Some (p, elem n) -> nodes t !! p = Some n ->
  same_key lo up (elem n) = true ->
  itree_ok (Itree (root t) (<[p := set_data d n]> (nodes t)))
    (tree_insert (fresh (dom (nodes t))) lo up d tr)
  /\ forall a, balanced_at (<[p := set_data d n]> (nodes t)) a.
Proof.
  intros [Hrep Hnd Hd Hb Hm] Hbal Hloc Hp Hk.
  pose proof (tree_insert_addrs (fresh (dom (nodes t))) lo up d _ _ _ Hloc) as Hadd.
  rewrite Hk in Hadd. split; [split; cbn [nodes root]|].
  - by apply repr_replace.
  - by rewrite Hadd.
  - intros a. rewrite Hadd, Hd. destruct (decide (p = a)) as [<-|];
      [rewrite lookup_insert_eq, Hp | rewrite lookup_insert_ne by done]; split; eauto.
  - by apply tree_insert_bst.
  - intros a m. destruct (decide (p = a)) as [<-|Hne].
    + rewrite lookup_insert_eq. intros [= <-]. destruct (Hm p n Hp) as [Hu Hc]. split; [done|].
      intros q c Hq. destruct (decide (p = q)) as [<-|?];
        [rewrite lookup_insert_eq; intros [= <-] | rewrite lookup_insert_ne by done; by eauto].
      by apply (Hc p n).
    + rewrite lookup_insert_ne by done. intros Ha. destruct (Hm a m Ha) as [Hu Hc].
      split; [done|]. intros q c Hq. destruct (decide (p = q)) as [<-|?];
        [rewrite lookup_insert_eq; intros [= <-] | rewrite lookup_insert_ne by done; by eauto].
      by apply (Hc p n).
  - intros a m. destruct (decide (p = a)) as [<-|Hne].
    + rewrite lookup_insert_eq. intros Hm'. injection Hm' as <-. apply (Hbal p n Hp).
    + rewrite lookup_insert_ne by done. by apply (Hbal a).
Qed.

(** A tree of one node. *)
Lemma singleton_ok p lo up (d : D) :
  itree_ok (Itree (Some p) {[p := itree_node_new lo up d]}) (Bin Tip p (lo, up, d) Tip)
  /\ forall a, balanced_at {[p := itree_node_new lo up d]} a.
Proof.
  split; [split; cbn [nodes root]|].
  - split; [done|]. exists (itree_node_new lo up d). rewrite lookup_singleton_eq. done.
  - apply NoDup_singleton.
  - intros a. cbn. rewrite list_elem_of_singleton, lookup_singleton_is_Some. naive_solver.
  - by repeat constructor.
  - intros a m [<- <-]%lookup_singleton_Some. split; [by rewrite (cmp_refl ucmp)|].
    intros ? ? [?|?]; done.
  - by intros a m [<- <-]%lookup_singleton_Some.
Qed.

(** *** Removing a leaf *)

Fixpoint tree_prune (p : positive) (tr : tree P D) : tree P D :=
  match tr with
  | Tip => Tip
  | Bin l x e r => if decide (x = p) then Tip else Bin (tree_prune p l) x e (tree_prune p r)
  end.

Lemma tree_prune_notin p tr : p ∉ addrs tr -> tree_prune p tr = tr.
Proof.
  induction tr as [|l IHl x e r IHr]; cbn [addrs tree_prune]; [done|].
  rewrite elem_of_cons, elem_of_app. intros Hp. rewrite decide_False by naive_solver.
  rewrite IHl, IHr; naive_solver.
Qed.

(** Below the top of a tree, the parent of a node is in the tree. *)
Lemma repr_parent_in h par ptr (tr : tree P D) p (n : itree_node P D) :
  repr h par ptr tr -> p ∈ addrs tr -> h !! p = Some n -> ptr <> Some p ->
  exists q m, node_parent n = Some q /\ (q ∈ addrs tr) /\ h !! q = Some m
    /\ (node_left m = Some p \/ node_right m = Some p).
Proof.
  revert par ptr. induction tr as [|l IHl x e r IHr]; intros par ptr; [by intros _ ?%elem_of_nil|].
  intros (-> & m & Hx & _ & _ & Hl & Hr) Hp Hn Hne. cbn [addrs] in *.
  apply elem_of_cons in Hp as [->|Hp]; [done|]. apply elem_of_app in Hp as [Hp|Hp].
  - destruct (decide (node_left m = Some p)) as [Hlp|Hlp].
    + rewrite Hlp in Hl. destruct l as [|????]; [done|]. destruct Hl as ([= <-] & c & Hc & Hpar & _).
      simplify_eq. exists x, m. rewrite elem_of_cons. auto.
    + destruct (IHl _ _ Hl Hp Hn Hlp) as (q & c & ? & ? & ?). exists q, c.
      rewrite elem_of_cons, elem_of_app. auto.
  - destruct (decide (node_right m = Some p)) as [Hrp|Hrp].
    + rewrite Hrp in Hr. destruct r as [|????]; [done|]. destruct Hr as ([= <-] & c & Hc & Hpar & _).
      simplify_eq. exists x, m. rewrite elem_of_cons. auto.
    + destruct (IHr _ _ Hr Hp Hn Hrp) as (q & c & ? & ? & ?). exists q, c.
      rewrite elem_of_cons, elem_of_app. auto.
Qed.

(** The parent of the removed node without it. *)
Definition detach (p : positive) (m : itree_node P D) : itree_node P D :=
  if decide (node_left m = Some p) then set_left None m else set_right None m.

Lemma repr_prune h p n q m tr : forall par ptr,
  repr h par ptr tr -> NoDup (addrs tr) -> p ∈ addrs tr ->
  h !! p = Some n -> node_left n = None -> node_right n = None ->
  node_parent n = Some q -> h !! q = Some m -> q <> p ->
  repr (delete p (<[q := detach p m]> h)) par (if decide (ptr = Some p) then None else ptr)
    (tree_prune p tr).
Proof.
  induction tr as [|l IHl x e r IHr]; intros par ptr Hrep Hnd Hp Hn Hnl Hnr Hpar Hm Hqp;
    [by apply elem_of_nil in Hp|].
  pose proof Hrep as Hrep'. apply addrs_nodup_inv in Hnd as (Hxl & Hxr & Hndl & Hndr & Hdisj).
  destruct Hrep as (-> & mx & Hx & Hparx & He & Hl & Hr). cbn [tree_prune].
  destruct (decide (x = p)) as [->|Hxp]; [by rewrite decide_True|].
  rewrite decide_False by naive_solver. split; [done|].
  assert (Hframe : forall tr0 : tree P D, p ∉ addrs tr0 -> q ∉ addrs tr0 -> forall a, a ∈ addrs tr0 ->
    delete p (<[q := detach p m]> h) !! a = h !! a).
  { intros tr0 H1 H2 a Ha. rewrite lookup_delete_ne, lookup_insert_ne; [done|..]; by intros ->. }
  cbn [addrs] in Hp. apply elem_of_cons in Hp as [->|Hp]; [done|].
  apply elem_of_app in Hp as [Hp|Hp].
  - assert (Hpr : p ∉ addrs r) by eauto. rewrite (tree_prune_notin p r Hpr).
    specialize (IHl _ _ Hl Hndl Hp Hn Hnl Hnr Hpar Hm Hqp).
    destruct (decide (node_left mx = Some p)) as [Hlp|Hlp].
    + assert (q = x) as ->.
      { rewrite Hlp in Hl. destruct l as [|????]; [done|].
        destruct Hl as ([= <-] & c & Hc & Hpc & _). congruence. }
      assert (mx = m) as -> by congruence.
      exists (set_left None m). rewrite lookup_delete_ne, lookup_insert_eq by done.
      unfold detach in *. rewrite decide_True in * by done. split_and!; try done.
      eapply repr_frame; [|exact Hr]. by apply Hframe.
    + destruct (repr_parent_in _ _ _ _ _ _ Hl Hp Hn Hlp) as (q' & _ & Hq' & Hql & _). simplify_eq.
      exists mx. rewrite lookup_delete_ne, lookup_insert_ne by (done || by intros ->).
      split_and!; try done. eapply repr_frame; [|exact Hr]. apply Hframe; [done|]. by eauto.
  - assert (Hpl : p ∉ addrs l) by eauto. rewrite (tree_prune_notin p l Hpl).
    specialize (IHr _ _ Hr Hndr Hp Hn Hnl Hnr Hpar Hm Hqp).
    destruct (decide (node_right mx = Some p)) as [Hrp|Hrp].
    + assert (q = x) as ->.
      { rewrite Hrp in Hr. destruct r as [|????]; [done|].
        destruct Hr as ([= <-] & c & Hc & Hpc & _). congruence. }
      assert (mx = m) as -> by congruence.
      assert (Hll : node_left m <> Some p).
      { intros Hlp. rewrite Hlp in Hl. destruct l as [|????]; [done|].
        destruct Hl as ([= <-] & _). apply Hpl. cbn [addrs]. apply elem_of_cons. auto. }
      exists (set_right None m). rewrite lookup_delete_ne, lookup_insert_eq by done.
      unfold detach in *. rewrite (decide_False (P := node_left m = Some p)) in * by done.
      split_and!; try done.
      eapply repr_frame; [|exact Hl]. by apply Hframe.
    + destruct (repr_parent_in _ _ _ _ _ _ Hr Hp Hn Hrp) as (q' & _ & Hq' & Hqr & _). simplify_eq.
      exists mx. rewrite lookup_delete_ne, lookup_insert_ne by (done || by intros ->).
      split_and!; try done. eapply repr_frame; [|exact Hl]. apply Hframe; [done|]. by eauto.
Qed.

Lemma tree_prune_sublist p tr : elements (tree_prune p tr) ⊆ elements tr.
Proof.
  induction tr as [|l IHl x e r IHr]; simpl; [done|]. case_decide; [apply list_subseteq_nil|].
  intros y. cbn [elements]. rewrite !elem_of_cons, !elem_of_app. naive_solver.
Qed.

Lemma tree_prune_bst p tr : bst tr -> bst (tree_prune p tr).
Proof.
  induction tr as [|l IHl x e r IHr]; simpl; [done|]. intros (HL & HR & Hbl & Hbr).
  case_decide; [done|]. cbn [bst]. rewrite !Forall_forall in *.
  split_and!; auto; intros y Hy; [apply HL | apply HR]; by eapply tree_prune_sublist.
Qed.

Lemma tree_prune_perm h p n tr : forall par ptr,
  repr h par ptr tr -> NoDup (addrs tr) -> p ∈ addrs tr ->
  h !! p = Some n -> node_left n = None -> node_right n = None ->
  addrs tr ≡ₚ p :: addrs (tree_prune p tr)
  /\ elements tr ≡ₚ elem n :: elements (tree_prune p tr).
Proof.
  induction tr as [|l IHl x e r IHr]; intros par ptr Hrep Hnd Hp Hn Hnl Hnr;
    [by apply elem_of_nil in Hp|].
  apply addrs_nodup_inv in Hnd as (Hxl & Hxr & Hndl & Hndr & Hdisj).
  destruct Hrep as (-> & mx & Hx & Hparx & <- & Hl & Hr). cbn [tree_prune].
  destruct (decide (x = p)) as [->|Hxp].
  - assert (mx = n) as -> by congruence. rewrite Hnl in Hl. rewrite Hnr in Hr.
    destruct l as [|????]; [|by destruct Hl]. destruct r as [|????]; [done|by destruct Hr].
  - cbn [addrs elements] in *. apply elem_of_cons in Hp as [->|Hp]; [done|].
    apply elem_of_app in Hp as [Hp|Hp].
    + rewrite (tree_prune_notin p r) by eauto.
      destruct (IHl _ _ Hl Hndl Hp Hn Hnl Hnr) as [-> ->]. split; apply Permutation_swap.
    + rewrite (tree_prune_notin p l) by eauto.
      destruct (IHr _ _ Hr Hndr Hp Hn Hnl Hnr) as [-> ->].
      split; rewrite <- Permutation_middle; apply Permutation_swap.
Qed.

(** The heap after a leaf other than the root has been removed. *)
Lemma remove_leaf_ok t tr p n q m :
  itree_ok t tr -> nodes t !! p = Some n -> node_left n = None -> node_right n = None ->
  node_parent n = Some q -> nodes t !! q = Some m ->
  itree_ok (Itree (root t) (delete p (<[q := detach p m]> (nodes t)))) (tree_prune p tr).
Proof.
  intros Hok Hp Hnl Hnr Hpar Hq. pose proof Hok as [Hrep Hnd Hd Hb Hm].
  assert (Hlink : linked (nodes t)) by (eapply shape_ok_linked; by split_and!).
  assert (Hin : p ∈ addrs tr) by (apply Hd; eauto).
  destruct (repr_up _ _ _ _ 0 Hrep eq_refl p Hin) as (k & Hup & _).
  assert (Hqp : q <> p).
  { intros ->. clear -Hup Hp Hpar. induction Hup as [|a na b k Ha Hb _ IH]; [congruence|].
    assert (a = b) as -> by congruence. auto. }
  assert (Hroot : root t <> Some p).
  { intros Hr. rewrite Hr in Hrep. destruct tr as [|????]; [done|].
    destruct Hrep as ([= <-] & c & Hc & Hcp & _). congruence. }
  destruct (tree_prune_perm _ _ _ _ _ _ Hrep Hnd Hin Hp Hnl Hnr) as [Hadd _].
  split; cbn [nodes root].
  - pose proof (repr_prune _ _ _ q m _ _ _ Hrep Hnd Hin Hp Hnl Hnr Hpar Hq Hqp) as Hrep'.
    by rewrite decide_False in Hrep'.
  - rewrite Hadd in Hnd. by apply NoDup_cons in Hnd as [_ Hnd].
  - intros a. pose proof Hnd as Hnd'. rewrite Hadd in Hnd'. apply NoDup_cons in Hnd' as [Hnp _].
    specialize (Hd a). rewrite Hadd, elem_of_cons in Hd.
    destruct (decide (a = p)) as [->|Hap]; [rewrite lookup_delete_eq; split; [done|by intros [??]]|].
    rewrite lookup_delete_ne by done. destruct (decide (a = q)) as [->|Haq];
      [rewrite lookup_insert_eq | rewrite lookup_insert_ne by done]; naive_solver.
  - by apply tree_prune_bst.
  - intros a ma Ha. destruct (decide (a = p)) as [->|Hap]; [by rewrite lookup_delete_eq in Ha|].
    rewrite lookup_delete_ne in Ha by done.
    assert (Hold : exists mo, nodes t !! a = Some mo /\ node_upper mo = node_upper ma
      /\ node_max_upper mo = node_max_upper ma
      /\ forall b, node_left ma = Some b \/ node_right ma = Some b ->
         node_left mo = Some b \/ node_right mo = Some b).
    { destruct (decide (a = q)) as [->|Haq].
      - rewrite lookup_insert_eq in Ha. injection Ha as <-. exists m.
        unfold detach. case_decide; cbn; naive_solver.
      - rewrite lookup_insert_ne in Ha by done. eauto 10. }
    destruct Hold as (mo & Hmo & Hup' & Hmax & Hch). destruct (Hm a mo Hmo) as [Hu Hc].
    rewrite <- Hmax, <- Hup'. split; [done|]. intros b c Hb' Hbc.
    destruct (decide (b = p)) as [->|Hbp]; [by rewrite lookup_delete_eq in Hbc|].
    rewrite lookup_delete_ne in Hbc by done. destruct (decide (b = q)) as [->|Hbq].
    + rewrite lookup_insert_eq in Hbc. injection Hbc as <-.
      replace (node_max_upper (detach p m)) with (node_max_upper m)
        by (unfold detach; by case_decide). eauto.
    + rewrite lookup_insert_ne in Hbc by done. eauto.
Qed.

(** *** Freeing *)

Lemma flatten_loop_spec (t : gzochid_itree P D) : forall fuel src trs dst,
  Forall2 (fun p tr => exists par, repr (nodes t) par (Some p) tr) src trs ->
  (length (concat (addrs <$> trs)) <= fuel)%nat ->
  exists l, flatten_loop fuel t src dst = Ret l /\ l ≡ₚ concat (addrs <$> trs) ++ dst.
Proof.
  induction fuel as [|fuel IH]; intros src trs dst Hst Hfuel;
    (destruct Hst as [|p tr src trs [par Hp] Hst]; [by exists dst|]);
    (destruct tr as [|l q e r]; [done|]); cbn [fmap list_fmap concat addrs app length] in *; [lia|].
  rewrite !length_app in Hfuel. destruct Hp as ([= <-] & n & Hn & _ & _ & Hl & Hr).
  cbn [flatten_loop]. unfold get_node. rewrite Hn. run.
  assert (Hopt : forall ptr (tr : tree P D), repr (nodes t) (Some p) ptr tr ->
    exists ts, Forall2 (fun p tr => exists par, repr (nodes t) par (Some p) tr) (option_list ptr) ts
      /\ concat (addrs <$> ts) = addrs tr).
  { intros [x|] tr Htr.
    - exists [tr]. split; [repeat constructor; eauto|]. cbn. by rewrite app_nil_r.
    - exists []. split; [constructor|]. destruct tr; [done|]. by destruct Htr. }
  destruct (Hopt _ _ Hl) as (tl & Htl & Hal), (Hopt _ _ Hr) as (ts & Hts & Har).
  destruct (IH (option_list (node_right n) ++ option_list (node_left n) ++ src) (ts ++ tl ++ trs) (p :: dst))
    as (k & -> & Hk).
  - by repeat apply Forall2_app.
  - rewrite !fmap_app, !concat_app, !length_app, Hal, Har. lia.
  - exists k. split; [done|]. rewrite Hk, !fmap_app, !concat_app, Hal, Har.
    rewrite <- Permutation_middle. constructor. rewrite !app_assoc.
    by rewrite (Permutation_app_comm (addrs r)).
Qed.

Lemma free_nodes_spec (l : list positive) (h : gmap positive (itree_node P D)) :
  NoDup l -> (forall p, p ∈ l <-> is_Some (h !! p)) -> free_nodes l h = Ret ∅.
Proof.
  intros Hnd. revert h. induction Hnd as [|p l Hp Hnd IH]; intros h Hh; cbn [free_nodes].
  - f_equal. apply map_eq. intros a. rewrite lookup_empty. apply eq_None_not_Some.
    rewrite <- Hh. by intros ?%elem_of_nil.
  - destruct (proj1 (Hh p)) as [n ->]; [by apply elem_of_cons; left|]. run. apply IH.
    intros a. specialize (Hh a). rewrite elem_of_cons in Hh.
    destruct (decide (p = a)) as [<-|Hne].
    + rewrite lookup_delete_eq. split; [done|by intros [??]].
    + rewrite lookup_delete_ne by done. rewrite <- Hh. naive_solver.
Qed.

(** A search does not leave a node that is its own left child. *)
Lemma search_self_loop {S} (matches prunes : itree_node P D -> bool) (f : P -> P -> D -> S -> S)
    (t : gzochid_itree P D) p n :
  nodes t !! p = Some n -> node_left n = Some p -> prunes n = false ->
  forall fuel stack s,
  search_loop matches prunes (fun lo up d s => (false, f lo up d s)) t fuel (p :: stack) s = Fuel.
Proof.
  intros Hp Hl Hpr. induction fuel as [|fuel IH]; intros stack s; [done|].
  cbn [search_loop]. unfold get_node. rewrite Hp. run. rewrite Hpr. unfold children. rewrite Hl.
  destruct (matches n); apply IH.
Qed.

End invariant.

(** ** Properties *)

(** C19. Inserting an interval into an interval tree that was only built by
    insertions succeeds without a rotation, and the result is again such a tree.
    If the tree has an interval with the same bounds its data are replaced;
    otherwise the interval is added; no other interval changes. *)
Theorem itree_insert_refines {P D : Type} `{EqDecision P} (lcmp ucmp : P -> P -> Z)
    `{!Comparator lcmp, !Comparator ucmp} (t : gzochid_itree P D) (tr : tree P D)
    (lower upper : P) (data : D) :
  itree_ok lcmp ucmp t tr -> (forall p, balanced_at (nodes t) p) ->
  exists t' tr', gzochid_itree_insert lcmp ucmp t lower upper data = Ret t'
    /\ itree_ok lcmp ucmp t' tr' /\ (forall p, balanced_at (nodes t') p)
    /\ ((exists e rest, elements tr ≡ₚ e :: rest /\ same_key lcmp ucmp lower upper e = true
           /\ elements tr' ≡ₚ (e.1, data) :: rest)
        \/ (Forall (fun e => same_key lcmp ucmp lower upper e = false) (elements tr)
            /\ elements tr' ≡ₚ (lower, upper, data) :: elements tr)).
Proof.
  intros Hok Hbal. pose proof Hok as [Hrep Hnd Hd Hb Hm].
  pose proof (tree_insert_elements lcmp ucmp (fresh (dom (nodes t))) lower upper data tr Hb) as Hel.
  unfold gzochid_itree_insert, itree_location. destruct (root t) as [p|] eqn:Hroot.
  - destruct (location_loop_spec lcmp ucmp (fuel_of t) t tr None p lower upper)
      as (q & n & -> & Hloc & Hq & Hn); [done|unfold fuel_of; rewrite (itree_ok_size _ _ _ _ Hok); lia|].
    run. unfold get_node at 1. rewrite Hn. run. rewrite Hloc in Hel.
    replace ((lcmp (node_lower n) lower =? 0) && (ucmp (node_upper n) upper =? 0))
      with (same_key lcmp ucmp lower upper (elem n)).
    2: { unfold same_key, elem. simpl. rewrite (cmp_sym (cmp := lcmp) lower), (cmp_sym (cmp := ucmp) upper).
         f_equal; lia. }
    destruct (same_key lcmp ucmp lower upper (elem n)) eqn:Hk.
    + destruct (insert_replace_ok lcmp ucmp t tr lower upper data q n) as [Hok' Hbal']; auto.
      unfold upd_node, get_node. rewrite Hn. run. eexists _, _.
      split; [done|]. split; [exact Hok'|]. split; [done|]. left.
      destruct Hel as (rest & H1 & H2). eauto.
    + destruct (insert_attach_ok lcmp ucmp t tr lower upper data q n Hok Hbal Hloc Hn Hk)
        as (t' & Ht' & Hok' & Hbal').
      exists t', (tree_insert lcmp ucmp (fresh (dom (nodes t))) lower upper data tr).
      split; [|by auto]. rewrite <- Ht'.
      assert (Hq' : q <> fresh (dom (nodes t))).
      { intros ->. apply (is_fresh (dom (nodes t))). by apply elem_of_dom. }
      unfold upd_node, get_node, attach. cbn [nodes root].
      rewrite lookup_insert_ne by done. rewrite Hn, Hroot. run. by destruct (_ <? 0).
  - run. destruct tr as [|????]; [|by destruct Hrep].
    assert (Hnil : nodes t = ∅).
    { apply map_eq. intros a. rewrite lookup_empty. apply eq_None_not_Some.
      rewrite <- Hd. by intros ?%elem_of_nil. }
    rewrite Hnil, insert_empty.
    destruct (singleton_ok lcmp ucmp (fresh (dom (∅ : gmap positive (itree_node P D)))) lower upper data).
    eexists _, _. split; [done|]. split; [done|]. split; [done|]. right. by split; [constructor|].
Qed.

(** A search by point calls back, in preorder and until the callback stops
    it, for exactly the intervals that contain the point: pruning on the maxima
    skips none of them, on any tree whose maxima are upper bounds. *)
Theorem itree_search_complete {P D S : Type} `{EqDecision P} (lcmp ucmp : P -> P -> Z)
    `{!Comparator lcmp, !Comparator ucmp} (t : gzochid_itree P D) (tr : tree P D)
    (point : P) (f : P -> P -> D -> S -> bool * S) (s : S) :
  itree_ok lcmp ucmp t tr ->
  gzochid_itree_search lcmp ucmp t point f s
  = Ret (run_until f (List.filter (fun e => (0 <=? lcmp point e.1.1) && (ucmp point e.1.2 <=? 0))
                        (elements tr)) s).
Proof.
  intros Hok. pose proof Hok as [Hrep Hnd Hd Hb Hm]. unfold gzochid_itree_search.
  destruct tr as [|l p e r].
  { simpl in Hrep. by rewrite Hrep. }
  pose proof Hrep as [Hroot _]. rewrite Hroot.
  rewrite (search_loop_spec ucmp _ _
    (fun e => (0 <=? lcmp point e.1.1) && (ucmp point e.1.2 <=? 0)) (fun _ => True)
    _ _ Hm) with (trs := [Bin l p e r]).
  - cbn [fmap list_fmap concat]. by rewrite app_nil_r.
  - done.
  - intros n x Hpr Hx _. apply andb_false_iff. right. apply Z.leb_gt.
    unfold point_prunes in Hpr. apply Z.ltb_lt in Hpr.
    pose proof (cmp_sym (cmp := ucmp) point x.1.2).
    pose proof (cmp_sym (cmp := ucmp) point (node_max_upper n)).
    destruct (Z.lt_ge_cases 0 (ucmp point x.1.2)); [done|].
    pose proof (cmp_trans point x.1.2 (node_max_upper n)). lia.
  - repeat constructor. exists None. by rewrite <- Hroot.
  - by apply Forall_true.
  - unfold fuel_of. rewrite (itree_ok_size _ _ _ _ Hok).
    cbn [fmap list_fmap concat]. rewrite app_nil_r. lia.
Qed.

(** A search by interval calls back for exactly the intervals that overlap
    the one searched for, if every stored interval that ends before the lower
    bound of the search also begins before it. *)
Theorem itree_search_interval_complete {P D S : Type} `{EqDecision P} (lcmp ucmp : P -> P -> Z)
    `{!Comparator lcmp, !Comparator ucmp} (t : gzochid_itree P D) (tr : tree P D)
    (from to : P) (f : P -> P -> D -> S -> bool * S) (s : S) :
  itree_ok lcmp ucmp t tr ->
  Forall (fun e => 0 < ucmp from e.1.2 -> 0 < lcmp from e.1.1) (elements tr) ->
  gzochid_itree_search_interval lcmp ucmp t from to f s
  = Ret (run_until f (List.filter (fun e =>
      ((0 <=? lcmp from e.1.1) && (ucmp from e.1.2 <=? 0))
      || ((0 <=? lcmp to e.1.1) && (ucmp to e.1.2 <=? 0))
      || ((lcmp from e.1.1 <=? 0) && (0 <=? ucmp to e.1.2))) (elements tr)) s).
Proof.
  intros Hok Hfrom. pose proof Hok as [Hrep Hnd Hd Hb Hm].
  unfold gzochid_itree_search_interval. destruct tr as [|l p e r].
  { simpl in Hrep. by rewrite Hrep. }
  pose proof Hrep as [Hroot _]. rewrite Hroot.
  rewrite (search_loop_spec ucmp _ _ (fun e =>
      ((0 <=? lcmp from e.1.1) && (ucmp from e.1.2 <=? 0))
      || ((0 <=? lcmp to e.1.1) && (ucmp to e.1.2 <=? 0))
      || ((lcmp from e.1.1 <=? 0) && (0 <=? ucmp to e.1.2)))
    (fun e => 0 < ucmp from e.1.2 -> 0 < lcmp from e.1.1) _ _ Hm) with (trs := [Bin l p e r]).
  - cbn [fmap list_fmap concat]. by rewrite app_nil_r.
  - done.
  - intros n x Hpr Hx HQ. unfold interval_prunes in Hpr.
    apply andb_true_iff in Hpr as [H1%Z.ltb_lt H2%Z.ltb_lt].
    assert (Hgt : forall y, 0 < ucmp y (node_max_upper n) -> 0 < ucmp y x.1.2).
    { intros y Hy. destruct (Z.lt_ge_cases 0 (ucmp y x.1.2)); [done|].
      pose proof (cmp_trans y x.1.2 (node_max_upper n)). lia. }
    pose proof (Hgt from H1) as Hf. pose proof (Hgt to H2). specialize (HQ Hf).
    apply orb_false_iff. split; [apply orb_false_iff; split|]; apply andb_false_iff;
      [right|right|left]; apply Z.leb_gt; lia.
  - repeat constructor. exists None. by rewrite <- Hroot.
  - cbn [fmap list_fmap concat]. by rewrite app_nil_r.
  - unfold fuel_of. rewrite (itree_ok_size _ _ _ _ Hok).
    cbn [fmap list_fmap concat]. rewrite app_nil_r. lia.
Qed.

(** Removing an interval that is not in the tree changes nothing.  Removing
    one whose node is a leaf removes it and no other interval; the maxima of the
    remaining nodes keep their values, so that they still bound the intervals
    below, but one of them may point to the bound that was removed. *)
Theorem itree_remove_leaf {P D : Type} `{EqDecision P} (lcmp ucmp : P -> P -> Z)
    `{!Comparator lcmp, !Comparator ucmp} (t : gzochid_itree P D) (tr : tree P D)
    (lower upper : P) :
  itree_ok lcmp ucmp t tr ->
  (Forall (fun e => same_key lcmp ucmp lower upper e = false) (elements tr) ->
   gzochid_itree_remove lcmp ucmp t lower upper = Ret t)
  /\ (forall p n, itree_location lcmp ucmp t lower upper = Ret (Some p) ->
      nodes t !! p = Some n -> same_key lcmp ucmp lower upper (elem n) = true ->
      node_left n = None -> node_right n = None ->
      exists t' tr', gzochid_itree_remove lcmp ucmp t lower upper = Ret t'
        /\ itree_ok lcmp ucmp t' tr' /\ elements tr ≡ₚ elem n :: elements tr'
        /\ forall a m', nodes t' !! a = Some m' ->
            exists m, nodes t !! a = Some m /\ node_max_upper m = node_max_upper m').
Proof.
  intros Hok. pose proof Hok as [Hrep Hnd Hd Hb Hm].
  assert (Hkey : forall n : itree_node P D,
    (lcmp (node_lower n) lower =? 0) && (ucmp (node_upper n) upper =? 0)
    = same_key lcmp ucmp lower upper (elem n)).
  { intros n. unfold same_key, elem. simpl.
    rewrite (cmp_sym (cmp := lcmp) lower), (cmp_sym (cmp := ucmp) upper). f_equal; lia. }
  unfold gzochid_itree_remove. split.
  - intros Hall. unfold itree_location. destruct (root t) as [p|] eqn:Hroot; [|done].
    destruct (location_loop_spec lcmp ucmp (fuel_of t) t tr None p lower upper)
      as (q & n & -> & Hloc & Hq & Hn); [done|unfold fuel_of; rewrite (itree_ok_size _ _ _ _ Hok); lia|].
    run. unfold get_node. rewrite Hn. run. rewrite Hkey.
    rewrite Forall_forall in Hall. rewrite Hall; [done|].
    by apply (tree_location_in lcmp ucmp lower upper tr q).
  - intros p n -> Hn Hk Hnl Hnr. run. unfold get_node. rewrite Hn. run. rewrite Hkey, Hk.
    unfold remove_target, get_node. rewrite Hn. run. rewrite Hnl. run. rewrite Hn. run.
    rewrite Hnl, Hnr. run.
    assert (Hin : p ∈ addrs tr) by (apply Hd; eauto).
    destruct (tree_prune_perm _ _ _ _ _ _ Hrep Hnd Hin Hn Hnl Hnr) as [Hadd Hel].
    destruct (decide (root t = Some p)) as [Hroot|Hroot].
    + rewrite Hroot in Hrep. destruct tr as [|l x e r]; [done|].
      destruct Hrep as ([= ->] & n' & Hx & Hpar & <- & Hl & Hr). simplify_eq.
      rewrite Hnl in Hl. rewrite Hnr in Hr.
      destruct l as [|????]; [|by destruct Hl]. destruct r as [|????]; [|by destruct Hr].
      rewrite Hpar. cbn [replace_child]. run. eexists _, Tip. split; [done|].
      split_and!; [|done|].
      * split; cbn; [done|apply NoDup_nil_2| |done|].
        -- intros a. specialize (Hd a). cbn in Hd. rewrite list_elem_of_singleton in Hd.
           destruct (decide (a = x)) as [->|]; [rewrite lookup_delete_eq|rewrite lookup_delete_ne by done].
           ++ split; [by intros ?%elem_of_nil|by intros [??]].
           ++ rewrite <- Hd. split; [by intros ?%elem_of_nil|done].
        -- intros a m Ha. apply lookup_delete_Some in Ha as [Hax Ha].
           assert (a = x) as -> by (apply list_elem_of_singleton; apply Hd; eauto). done.
      * intros a m' Ha. cbn in Ha. apply lookup_delete_Some in Ha as [_ Ha]. eauto.
    + destruct (repr_parent_in _ _ _ _ _ _ Hrep Hin Hn Hroot) as (q & m & Hpar & _ & Hq & Hch).
      exists (Itree (root t) (delete p (<[q := detach p m]> (nodes t)))), (tree_prune p tr).
      rewrite Hpar. cbn [replace_child]. unfold upd_node, get_node. rewrite Hq. run.
      assert (Hdet : forall a m', delete p (<[q := detach p m]> (nodes t)) !! a = Some m' ->
        exists m0, nodes t !! a = Some m0 /\ node_max_upper m0 = node_max_upper m').
      { intros a m' [_ Ha]%lookup_delete_Some. destruct (decide (q = a)) as [<-|?].
        - rewrite lookup_insert_eq in Ha. injection Ha as <-. exists m. split; [done|].
          unfold detach. by case_decide.
        - rewrite lookup_insert_ne in Ha by done. eauto. }
      split; [|split_and!; auto; by eapply remove_leaf_ok].
      unfold detach. destruct (decide (node_left m = Some p)); [done|].
      rewrite decide_True by (by destruct Hch). done.
Qed.

(** Freeing a tree terminates, frees every node once and leaves none. *)
Theorem itree_free_all {P D : Type} `{EqDecision P} (lcmp ucmp : P -> P -> Z)
    `{!Comparator lcmp, !Comparator ucmp} (t : gzochid_itree P D) (tr : tree P D) :
  itree_ok lcmp ucmp t tr -> gzochid_itree_free t = Ret ∅.
Proof.
  intros Hok. pose proof Hok as [Hrep Hnd Hd Hb Hm]. unfold gzochid_itree_free.
  destruct tr as [|l p e r].
  - simpl in Hrep. rewrite Hrep. f_equal. apply map_eq. intros a. rewrite lookup_empty.
    apply eq_None_not_Some. rewrite <- Hd. by intros ?%elem_of_nil.
  - pose proof Hrep as [Hroot _]. rewrite Hroot.
    destruct (flatten_loop_spec t (fuel_of t) [p] [Bin l p e r] []) as (k & -> & Hk).
    + repeat constructor. exists None. by rewrite <- Hroot.
    + unfold fuel_of. rewrite (itree_ok_size _ _ _ _ Hok).
      cbn [fmap list_fmap concat]. rewrite app_nil_r. lia.
    + run. cbn [fmap list_fmap concat] in Hk. rewrite !app_nil_r in Hk.
      apply free_nodes_spec; [by rewrite Hk|]. intros a. by rewrite Hk, Hd.
Qed.

(** ** Concrete trees *)

Definition sample_cmp (a b : Z) : Z := a - b.

#[export] Instance sample_cmp_comparator : Comparator sample_cmp.
Proof. split; unfold sample_cmp; lia. Qed.

Definition sample_insert (k : Z) (t : gzochid_itree Z Z) : outcome (gzochid_itree Z Z) :=
  gzochid_itree_insert sample_cmp sample_cmp t k k k.

Definition sample_remove (k : Z) (t : gzochid_itree Z Z) : outcome (gzochid_itree Z Z) :=
  gzochid_itree_remove sample_cmp sample_cmp t k k.

(** Insertions of 5, 3 and 8; removals and insertions that leave a balance
    factor stale; a removal that rotates the root. *)
Definition rotated_root : outcome (gzochid_itree Z Z) :=
  t ← sample_insert 5 gzochid_itree_new; t ← sample_insert 3 t; t ← sample_insert 8 t;
  t ← sample_remove 3 t; t ← sample_insert 3 t; t ← sample_insert 9 t; sample_remove 8 t.

(** The rotation of a root makes it its own left child: after seven calls
    on a new tree, a search that the callback does not stop never ends, whatever
    number of iterations it is given. *)
Theorem itree_root_rotation_cycle {S : Type} (f : Z -> Z -> Z -> S -> S) :
  exists t p, rotated_root = Ret t /\ root t = Some p
    /\ (node_left <$> nodes t !! p) = Some (Some p)
    /\ forall fuel s, search_loop (point_matches sample_cmp sample_cmp 5)
         (point_prunes sample_cmp 5) (fun lo up d s => (false, f lo up d s)) t fuel
         (option_list (root t)) s = Fuel.
Proof.
  eexists _, _. split; [vm_compute; reflexivity|]. split; [reflexivity|]. split; [reflexivity|].
  intros fuel s. eapply search_self_loop; reflexivity.
Qed.

(** ** Witnesses *)

(** The tree of the intervals from 5 to 8 and from 3 to 6, as two insertions
    build it. *)
Definition sample_shape : tree Z Z := Bin (Bin Tip 2 (3, 6, 30) Tip) 1 (5, 8, 50) Tip.

Definition sample_tree : gzochid_itree Z Z :=
  Itree (Some 1%positive)
    {[ 1%positive := ItreeNode None (Some 2%positive) None 5 8 8 50 1;
       2%positive := ItreeNode (Some 1%positive) None None 3 6 6 30 0 ]}.

Example sample_tree_built :
  (t ← gzochid_itree_insert sample_cmp sample_cmp gzochid_itree_new 5 8 50;
   gzochid_itree_insert sample_cmp sample_cmp t 3 6 30) = Ret sample_tree.
Proof. vm_compute. reflexivity. Qed.

Lemma sample_tree_lookup a n :
  nodes sample_tree !! a = Some n ->
  (a = 1%positive /\ n = ItreeNode None (Some 2%positive) None 5 8 8 50 1)
  \/ (a = 2%positive /\ n = ItreeNode (Some 1%positive) None None 3 6 6 30 0).
Proof.
  unfold sample_tree. cbn [nodes].
  rewrite lookup_insert_Some, lookup_singleton_Some. naive_solver.
Qed.

Lemma sample_tree_ok :
  itree_ok sample_cmp sample_cmp sample_tree sample_shape
  /\ forall p, balanced_at (nodes sample_tree) p.
Proof.
  split; [split|].
  - split; [done|]. eexists. split; [reflexivity|]. split; [done|]. split; [done|].
    split; [|done]. split; [done|]. eexists. by split.
  - cbn. apply NoDup_cons. split; [rewrite list_elem_of_singleton; lia|apply NoDup_singleton].
  - intros p. cbn [sample_shape addrs app]. rewrite !elem_of_cons, elem_of_nil. split.
    + intros [->|[->|[]]]; by eexists.
    + intros [n Hn]. apply sample_tree_lookup in Hn. naive_solver.
  - cbn. unfold sample_cmp. repeat constructor.
  - intros p n Hn. apply sample_tree_lookup in Hn as [[-> ->]|[-> ->]]; cbn.
    + split; [done|]. intros q c [[= <-]|?] Hc; [|done].
      apply sample_tree_lookup in Hc as [[? _]|[_ ->]]; done.
    + split; [done|]. by intros q c [?|?].
  - intros p n Hn. by apply sample_tree_lookup in Hn as [[-> ->]|[-> ->]].
Qed.

Lemma itree_insert_refines_witness :
  exists t' tr', gzochid_itree_insert sample_cmp sample_cmp sample_tree 4 9 40 = Ret t'
    /\ itree_ok sample_cmp sample_cmp t' tr' /\ (forall p, balanced_at (nodes t') p)
    /\ ((exists e rest, elements sample_shape ≡ₚ e :: rest
           /\ same_key sample_cmp sample_cmp 4 9 e = true /\ elements tr' ≡ₚ (e.1, 40) :: rest)
        \/ (Forall (fun e => same_key sample_cmp sample_cmp 4 9 e = false) (elements sample_shape)
            /\ elements tr' ≡ₚ (4, 9, 40) :: elements sample_shape)).
Proof.
  apply (itree_insert_refines sample_cmp sample_cmp sample_tree sample_shape 4 9 40);
    apply sample_tree_ok.
Defined.

Lemma itree_search_complete_witness :
  gzochid_itree_search sample_cmp sample_cmp sample_tree 6
    (fun _ _ d s => (false, s ++ [d])) [] = Ret [50; 30].
Proof.
  exact (itree_search_complete sample_cmp sample_cmp sample_tree sample_shape 6
    (fun _ _ d s => (false, s ++ [d])) [] (proj1 sample_tree_ok)).
Defined.

Lemma itree_search_interval_complete_witness :
  gzochid_itree_search_interval sample_cmp sample_cmp sample_tree 7 9
    (fun _ _ d s => (false, s ++ [d])) [] = Ret [50].
Proof.
  apply (itree_search_interval_complete sample_cmp sample_cmp sample_tree sample_shape 7 9
    (fun _ _ d s => (false, s ++ [d])) [] (proj1 sample_tree_ok)).
  repeat constructor; intros; reflexivity.
Defined.

Lemma itree_remove_leaf_witness :
  exists t' tr', gzochid_itree_remove sample_cmp sample_cmp sample_tree 3 6 = Ret t'
    /\ itree_ok sample_cmp sample_cmp t' tr'
    /\ elements sample_shape ≡ₚ (3, 6, 30) :: elements tr'
    /\ forall a m', nodes t' !! a = Some m' ->
        exists m, nodes sample_tree !! a = Some m /\ node_max_upper m = node_max_upper m'.
Proof.
  apply (proj2 (itree_remove_leaf sample_cmp sample_cmp sample_tree sample_shape 3 6
    (proj1 sample_tree_ok)) 2%positive (ItreeNode (Some 1%positive) None None 3 6 6 30 0));
    vm_compute; reflexivity.
Defined.

Lemma itree_free_all_witness : gzochid_itree_free sample_tree = Ret ∅.
Proof.
  apply (itree_free_all sample_cmp sample_cmp sample_tree sample_shape (proj1 sample_tree_ok)).
Defined.
