(* ===== verification/LockMem.v ===== *)
(** * The lock table (lock-mem.c)

    Point locks on keys and range locks on key intervals, held by nodes.  The
    locks are objects in two heaps; the table refers to them from a sequence
    sorted by key, from sequences sorted by time, from the lists of each node and
    from the interval tree. *)

From S2P Require Import Prelude.
From S2P Require Import Util.
From S2P Require Import Glib.
From S2P Require Import Itree.

Local Open Scope Z_scope.

(** A [GBytes] object: its identity, which the interval tree compares, and its
    contents, which the comparators look at. *)
Record gbytes := GBytes { gb_addr : positive; gb_data : bytes }.

#[export] Instance gbytes_eq_dec : EqDecision gbytes.
Proof. solve_decision. Defined.

(** The comparators of the interval tree, on possibly null bounds. *)
Definition range_lower_comparator (a b : option gbytes) : Z :=
  gzochid_util_bytes_compare_null_first (gb_data <$> a) (gb_data <$> b).

Definition range_upper_comparator (a b : option gbytes) : Z :=
  gzochid_util_bytes_compare_null_last (gb_data <$> a) (gb_data <$> b).

(** ** Data *)

Record gzochid_lock := Lock {
  lock_node_id : Z;
  lock_key : gbytes;
  lock_for_write : bool;
  lock_timestamp : timeval
}.

Record gzochid_range_lock := RangeLock {
  range_node_id : Z;
  range_from : option gbytes;
  range_to : option gbytes;
  range_timestamp : timeval
}.

(** The locks on one key, as pointers. *)
Record gzochid_locks := Locks {
  locks_locks : list positive;
  most_recent_timestamp : timeval
}.

Record gzochid_node_locks := NodeLocks {
  node_point_locks : list positive;
  node_range_locks : list positive
}.

(** The table and the heaps of its lock objects.  The iterator a lock keeps into
    its timestamp sequence is its own place there. *)
Record gzochid_lock_table := LockTable {
  locks : list gzochid_locks;
  locks_by_timestamp : list positive;
  range_locks : gzochid_itree (option gbytes) positive;
  range_locks_by_timestamp : list positive;
  nodes_to_locks : gmap Z gzochid_node_locks;
  lock_heap : gmap positive gzochid_lock;
  range_heap : gmap positive gzochid_range_lock
}.

Definition gzochid_lock_table_new : gzochid_lock_table :=
  LockTable [] [] gzochid_itree_new [] ∅ ∅ ∅.

Definition set_locks (x : list gzochid_locks) (t : gzochid_lock_table) : gzochid_lock_table :=
  LockTable x (locks_by_timestamp t) (range_locks t) (range_locks_by_timestamp t)
    (nodes_to_locks t) (lock_heap t) (range_heap t).

Definition set_nodes (x : gmap Z gzochid_node_locks) (t : gzochid_lock_table)
    : gzochid_lock_table :=
  LockTable (locks t) (locks_by_timestamp t) (range_locks t) (range_locks_by_timestamp t)
    x (lock_heap t) (range_heap t).

(** The result of a call: whether the lock was obtained, and the timestamp that
    is stored at the caller's pointer, if it gave one, when it was not. *)
Abbreviation lock_result := (bool * option timeval)%type.

Definition lock_success : lock_result := (true, None).

Definition lock_failure (lock_timestamp : timeval) : lock_result := (false, Some lock_timestamp).

(** [g_list_delete_link] of what [g_list_find] finds. *)
Fixpoint delete_link (p : positive) (l : list positive) : list positive :=
  match l with
  | [] => []
  | q :: l' => if decide (q = p) then l' else q :: delete_link p l'
  end.

(** ** Lookups *)

Definition ensure_node_registration (t : gzochid_lock_table) (node_id : Z)
    : gzochid_node_locks * gzochid_lock_table :=
  match nodes_to_locks t !! node_id with
  | Some nl => (nl, t)
  | None =>
      let nl := NodeLocks [] [] in
      (nl, set_nodes (<[node_id := nl]> (nodes_to_locks t)) t)
  end.

(** The key of a lock list is the key of its first lock; [compare_lock_lists]
    asserts that there is one. *)
Definition lock_list_key (h : gmap positive gzochid_lock) (ls : gzochid_locks)
    : outcome bytes :=
  match locks_locks ls with
  | [] => Abort
  | p :: _ => l ← deref (h !! p); Ret (gb_data (lock_key l))
  end.

Definition lock_keys (t : gzochid_lock_table) : outcome (list bytes) :=
  mapM (lock_list_key (lock_heap t)) (locks t).

(** The position of the locks on a key.  Comparing a null key, which
    [g_bytes_compare] does not allow, is undefined; an empty sequence compares
    nothing. *)
Definition find_locks_by_key (t : gzochid_lock_table) (key : option gbytes)
    : outcome (option nat) :=
  match locks t with
  | [] => Ret None
  | _ =>
      k ← deref key;
      keys ← lock_keys t;
      Ret (sequence_lookup bytes_compare (gb_data k) keys)
  end.

(** [g_list_find_custom] with [find_lock_with_node_id]. *)
Fixpoint find_lock_with_node_id (h : gmap positive gzochid_lock) (node_id : Z)
    (l : list positive) : outcome (option positive) :=
  match l with
  | [] => Ret None
  | p :: l' =>
      x ← deref (h !! p);
      if lock_node_id x =? node_id then Ret (Some p) else find_lock_with_node_id h node_id l'
  end.

(** The loop over the readers for the first one that is another node. *)
Fixpoint first_other_lock (h : gmap positive gzochid_lock) (node_id : Z)
    (l : list positive) : outcome gzochid_lock :=
  match l with
  | [] => Abort
  | p :: l' =>
      x ← deref (h !! p);
      if lock_node_id x =? node_id then first_other_lock h node_id l' else Ret x
  end.

(** The callback that looks for the most recent range lock of another node. *)
Definition find_most_recent_covering_range_lock (h : gmap positive gzochid_range_lock)
    (excluded_node_id : Z) (from to : option gbytes) (data : positive)
    (found : outcome (option gzochid_range_lock))
    : bool * outcome (option gzochid_range_lock) :=
  (false,
   cur ← found;
   rl ← deref (h !! data);
   if negb (range_node_id rl =? excluded_node_id)
      && (match cur with
          | None => true
          | Some c => timercmp_lt (range_timestamp c) (range_timestamp rl)
          end)
   then Ret (Some rl) else Ret cur).

Definition most_recent_covering_range_lock (t : gzochid_lock_table) (key : gbytes)
    (excluded_node_id : Z) : outcome (option gzochid_range_lock) :=
  r ← gzochid_itree_search range_lower_comparator range_upper_comparator (range_locks t)
        (Some key) (find_most_recent_covering_range_lock (range_heap t) excluded_node_id)
        (Ret None);
  r.

(** Comparing the timestamps of two locks. *)
Definition compare_timestamps (a b : timeval) : Z :=
  if timercmp_lt a b then -1 else if timercmp_gt a b then 1 else 0.

Definition timestamp_of (h : gmap positive gzochid_lock) (p : positive) : timeval :=
  match h !! p with Some l => lock_timestamp l | None => Timeval 0 0 end.

Definition compare_timestamp_data (h : gmap positive gzochid_lock) (a b : positive) : Z :=
  compare_timestamps (timestamp_of h a) (timestamp_of h b).

Definition range_timestamp_of (h : gmap positive gzochid_range_lock) (p : positive) : timeval :=
  match h !! p with Some l => range_timestamp l | None => Timeval 0 0 end.

(** ** Point locks *)

Definition gzochid_lock_check (t : gzochid_lock_table) (node_id : Z) (key : gbytes)
    (for_write : bool) : outcome bool :=
  iter ← find_locks_by_key t (Some key);
  match iter with
  | Some i =>
      ls ← deref (locks t !! i);
      _ ← c_assert (negb (bool_decide (locks_locks ls = [])));
      existing ← find_lock_with_node_id (lock_heap t) node_id (locks_locks ls);
      match existing with
      | Some p => l ← deref (lock_heap t !! p); Ret (lock_for_write l || negb for_write)
      | None => Ret false
      end
  | None => Ret false
  end.

(** Create a lock and add it to its node and to the timestamp sequence. *)
Definition register_lock (now : timeval) (t : gzochid_lock_table) (node_id : Z)
    (key : gbytes) (for_write : bool) : positive * gzochid_lock_table :=
  let '(nl, t) := ensure_node_registration t node_id in
  let lock := fresh (dom (lock_heap t)) in
  let h := <[lock := Lock node_id key for_write now]> (lock_heap t) in
  (lock,
   LockTable (locks t)
     (sequence_insert_sorted (compare_timestamp_data h) lock (locks_by_timestamp t))
     (range_locks t) (range_locks_by_timestamp t)
     (<[node_id := NodeLocks (lock :: node_point_locks nl) (node_range_locks nl)]>
        (nodes_to_locks t))
     h (range_heap t)).

(** A further reader of a key. *)
Definition share_lock (now : timeval) (t : gzochid_lock_table) (i : nat) (ls : gzochid_locks)
    (node_id : Z) (key : gbytes) (for_write : bool) : gzochid_lock_table :=
  let '(lock, t) := register_lock now t node_id key for_write in
  set_locks (<[i := Locks (lock :: locks_locks ls) now]> (locks t)) t.

(** The first lock on a key. *)
Definition new_lock (now : timeval) (t : gzochid_lock_table)
    (node_id : Z) (key : gbytes) (for_write : bool) : outcome gzochid_lock_table :=
  keys ← lock_keys t;
  let '(lock, t) := register_lock now t node_id key for_write in
  Ret (set_locks (snd <$> sequence_insert_sorted (fun a b => bytes_compare a.1 b.1)
         (gb_data key, Locks [lock] now) (zip keys (locks t))) t).

(** Turn a read lock into a write lock. *)
Definition upgrade_lock (now : timeval) (t : gzochid_lock_table) (i : nat) (ls : gzochid_locks)
    (p : positive) (l : gzochid_lock) : gzochid_lock_table :=
  let h := <[p := Lock (lock_node_id l) (lock_key l) true now]> (lock_heap t) in
  LockTable (<[i := Locks (locks_locks ls) now]> (locks t))
    (sequence_insert_sorted (compare_timestamp_data h) p (delete_link p (locks_by_timestamp t)))
    (range_locks t) (range_locks_by_timestamp t) (nodes_to_locks t) h (range_heap t).

Definition gzochid_lock_check_and_set (now : timeval) (t : gzochid_lock_table) (node_id : Z)
    (key : gbytes) (for_write : bool) : outcome (lock_result * gzochid_lock_table) :=
  iter ← find_locks_by_key t (Some key);
  match iter with
  | Some i =>
      ls ← deref (locks t !! i);
      _ ← c_assert (negb (bool_decide (locks_locks ls = [])));
      existing ← find_lock_with_node_id (lock_heap t) node_id (locks_locks ls);
      match existing with
      | Some p =>
          l ← deref (lock_heap t !! p);
          if lock_for_write l || negb for_write then Ret (lock_success, t)
          else if (1 <? length (locks_locks ls))%nat then
            other ← first_other_lock (lock_heap t) node_id (locks_locks ls);
            Ret (lock_failure (lock_timestamp other), t)
          else
            range_lock ← most_recent_covering_range_lock t key node_id;
            match range_lock with
            | Some rl => Ret (lock_failure (range_timestamp rl), t)
            | None => Ret (lock_success, upgrade_lock now t i ls p l)
            end
      | None =>
          p ← deref (head (locks_locks ls));
          l ← deref (lock_heap t !! p);
          if for_write || lock_for_write l then Ret (lock_failure (lock_timestamp l), t)
          else Ret (lock_success, share_lock now t i ls node_id key for_write)
      end
  | None =>
      range_lock ← (if for_write then most_recent_covering_range_lock t key node_id
                    else Ret None);
      match range_lock with
      | Some rl => Ret (lock_failure (range_timestamp rl), t)
      | None => t' ← new_lock now t node_id key for_write; Ret (lock_success, t')
      end
  end.

(** Take a node out of the table when it has no lock left. *)
Definition forget_node (node_id : Z) (nl : gzochid_node_locks)
    (m : gmap Z gzochid_node_locks) : gmap Z gzochid_node_locks :=
  match node_point_locks nl, node_range_locks nl with
  | [], [] => delete node_id m
  | _, _ => <[node_id := nl]> m
  end.

Definition remove_lock (t : gzochid_lock_table) (lock : positive) : outcome gzochid_lock_table :=
  l ← deref (lock_heap t !! lock);
  iter ← find_locks_by_key t (Some (lock_key l));
  match iter with
  | None => Ret t
  | Some i =>
      ls ← deref (locks t !! i);
      nl ← deref (nodes_to_locks t !! lock_node_id l);
      let rest := delete_link lock (locks_locks ls) in
      let nl := NodeLocks (delete_link lock (node_point_locks nl)) (node_range_locks nl) in
      Ret (LockTable
        (match rest with
         | [] => sequence_remove i (locks t)
         | _ => <[i := Locks rest (most_recent_timestamp ls)]> (locks t)
         end)
        (delete_link lock (locks_by_timestamp t))
        (range_locks t) (range_locks_by_timestamp t)
        (forget_node (lock_node_id l) nl (nodes_to_locks t))
        (delete lock (lock_heap t)) (range_heap t))
  end.

Definition gzochid_lock_release (t : gzochid_lock_table) (node_id : Z) (key : gbytes)
    : outcome gzochid_lock_table :=
  iter ← find_locks_by_key t (Some key);
  match iter with
  | None => Ret t
  | Some i =>
      ls ← deref (locks t !! i);
      existing ← find_lock_with_node_id (lock_heap t) node_id (locks_locks ls);
      match existing with
      | Some p => remove_lock t p
      | None => Ret t
      end
  end.

(** ** Range locks *)

(** The callback that stops at the first range lock of another node. *)
Definition find_overlapping_range_lock (h : gmap positive gzochid_range_lock)
    (excluded_node_id : Z) (from to : option gbytes) (data : positive)
    (found : outcome (option gzochid_range_lock))
    : bool * outcome (option gzochid_range_lock) :=
  match h !! data with
  | None => (true, Undef)
  | Some rl =>
      if range_node_id rl =? excluded_node_id then (false, found)
      else (true, Ret (Some rl))
  end.

(** The walk over the lock lists from the one on the lower bound. *)
Fixpoint find_write_lock (h : gmap positive gzochid_lock) (node_id : Z)
    (l : list gzochid_locks) : outcome (option gzochid_lock) :=
  match l with
  | [] => Ret None
  | ls :: l' =>
      p ← deref (head (locks_locks ls));
      x ← deref (h !! p);
      if lock_for_write x && negb (lock_node_id x =? node_id) then Ret (Some x)
      else find_write_lock h node_id l'
  end.

Definition new_range_lock (now : timeval) (t : gzochid_lock_table) (node_id : Z)
    (from to : option gbytes) : outcome gzochid_lock_table :=
  let '(nl, t) := ensure_node_registration t node_id in
  let lock := fresh (dom (range_heap t)) in
  let h := <[lock := RangeLock node_id from to now]> (range_heap t) in
  tree ← gzochid_itree_insert range_lower_comparator range_upper_comparator
           (range_locks t) from to lock;
  Ret (LockTable (locks t) (locks_by_timestamp t) tree
    (sequence_insert_sorted
       (fun a b => compare_timestamps (range_timestamp_of h a) (range_timestamp_of h b))
       lock (range_locks_by_timestamp t))
    (<[node_id := NodeLocks (node_point_locks nl) (lock :: node_range_locks nl)]>
       (nodes_to_locks t))
    (lock_heap t) h).

Definition gzochid_lock_range_check_and_set (now : timeval) (t : gzochid_lock_table)
    (node_id : Z) (from to : option gbytes) : outcome (lock_result * gzochid_lock_table) :=
  r ← gzochid_itree_search_interval range_lower_comparator range_upper_comparator
        (range_locks t) from to (find_overlapping_range_lock (range_heap t) node_id) (Ret None);
  found ← r;
  match found with
  | Some rl => Ret (lock_failure (range_timestamp rl), t)
  | None =>
      point_iter ← find_locks_by_key t from;
      conflict ← (match point_iter with
                  | Some i => find_write_lock (lock_heap t) node_id (drop i (locks t))
                  | None => Ret None
                  end);
      match conflict with
      | Some l => Ret (lock_failure (lock_timestamp l), t)
      | None => t' ← new_range_lock now t node_id from to; Ret (lock_success, t')
      end
  end.

(** The callback that stops at a range lock with the bounds and owner given. *)
Definition find_range_lock_with_owner (h : gmap positive gzochid_range_lock) (node_id : Z)
    (match_from match_to from to : option gbytes) (data : positive)
    (found : outcome (option positive)) : bool * outcome (option positive) :=
  match h !! data with
  | None => (true, Undef)
  | Some rl =>
      if (range_lower_comparator match_from from =? 0)
         && (range_upper_comparator match_to to =? 0)
         && (range_node_id rl =? node_id)
      then (true, Ret (Some data)) else (false, found)
  end.

Definition remove_range_lock (t : gzochid_lock_table) (lock : positive)
    : outcome gzochid_lock_table :=
  rl ← deref (range_heap t !! lock);
  nl ← deref (nodes_to_locks t !! range_node_id rl);
  tree ← gzochid_itree_remove range_lower_comparator range_upper_comparator
           (range_locks t) (range_from rl) (range_to rl);
  let nl := NodeLocks (node_point_locks nl) (delete_link lock (node_range_locks nl)) in
  Ret (LockTable (locks t) (locks_by_timestamp t) tree
    (delete_link lock (range_locks_by_timestamp t))
    (forget_node (range_node_id rl) nl (nodes_to_locks t))
    (lock_heap t) (delete lock (range_heap t))).

Definition gzochid_lock_release_range (t : gzochid_lock_table) (node_id : Z)
    (from to : option gbytes) : outcome gzochid_lock_table :=
  r ← gzochid_itree_search range_lower_comparator range_upper_comparator (range_locks t) from
        (find_range_lock_with_owner (range_heap t) node_id from to) (Ret None);
  found ← r;
  match found with
  | Some lock => remove_range_lock t lock
  | None => Ret t
  end.

(** ** Releasing everything a node holds *)

Fixpoint release_locks (l : list positive) (t : gzochid_lock_table)
    : outcome gzochid_lock_table :=
  match l with
  | [] => Ret t
  | p :: l => t ← remove_lock t p; release_locks l t
  end.

Fixpoint release_range_locks (l : list positive) (t : gzochid_lock_table)
    : outcome gzochid_lock_table :=
  match l with
  | [] => Ret t
  | p :: l => t ← remove_range_lock t p; release_range_locks l t
  end.

Definition gzochid_lock_release_all (t : gzochid_lock_table) (node_id : Z)
    : outcome gzochid_lock_table :=
  match nodes_to_locks t !! node_id with
  | None => Ret t
  | Some nl =>
      t ← release_locks (node_point_locks nl) t;
      match nodes_to_locks t !! node_id with
      | Some nl => release_range_locks (node_range_locks nl) t
      | None => Ret t
      end
  end.

(** ** The invariant *)

Abbreviation lock_heap_t := (gmap positive gzochid_lock).

Definition key_of (l : gzochid_lock) : bytes := gb_data (lock_key l).

(** The locks on one key. *)
Definition group_ok (h : lock_heap_t) (k : bytes) (ls : gzochid_locks) : Prop :=
  locks_locks ls <> []
  /\ Forall (fun p => exists l, h !! p = Some l /\ key_of l = k) (locks_locks ls).

Abbreviation bytes_lt := (fun a b => bytes_compare a b < 0).

Definition pointers (L : list gzochid_locks) : list positive := L ≫= locks_locks.

(** The lock sequence is strictly sorted by key and has every lock once. *)
Record groups_ok (h : lock_heap_t) (ks : list bytes) (L : list gzochid_locks) : Prop := {
  groups_key : Forall2 (group_ok h) ks L;
  groups_sorted : StronglySorted bytes_lt ks;
  groups_nodup : NoDup (pointers L);
  groups_dom : forall p, p ∈ pointers L <-> is_Some (h !! p)
}.

(** A node has at most one lock on a key, and a key that is locked for writing
    has one lock. *)
Definition excl_ok (h : lock_heap_t) : Prop :=
  forall p q lp lq, h !! p = Some lp -> h !! q = Some lq -> key_of lp = key_of lq ->
    lock_for_write lp = true \/ lock_node_id lp = lock_node_id lq -> p = q.

(** The timestamp sequence has every lock once, in order. *)
Definition time_ok (h : lock_heap_t) (T : list positive) : Prop :=
  sorted_by (compare_timestamp_data h) T /\ NoDup T /\ forall p, p ∈ T <-> is_Some (h !! p).

(** The nodes that hold a lock are registered with the locks they hold. *)
Definition nodes_ok (h : lock_heap_t) (N : gmap Z gzochid_node_locks) : Prop :=
  (forall n nl, N !! n = Some nl ->
     NoDup (node_point_locks nl)
     /\ (forall p, p ∈ node_point_locks nl <-> exists l, h !! p = Some l /\ lock_node_id l = n)
     /\ (node_point_locks nl <> [] \/ node_range_locks nl <> []))
  /\ (forall p l, h !! p = Some l -> is_Some (N !! lock_node_id l)).

Record lock_inv (t : gzochid_lock_table) : Prop := {
  inv_groups : exists ks, groups_ok (lock_heap t) ks (locks t);
  inv_excl : excl_ok (lock_heap t);
  inv_time : time_ok (lock_heap t) (locks_by_timestamp t);
  inv_nodes : nodes_ok (lock_heap t) (nodes_to_locks t)
}.

(** The interval tree is well formed and its data are range locks. *)
Definition range_inv (t : gzochid_lock_table)
    (tr : tree (option gbytes) positive) : Prop :=
  itree_ok range_lower_comparator range_upper_comparator (range_locks t) tr
  /\ Forall (fun e => is_Some (range_heap t !! e.2)) (elements tr).

(** Node [n] holds a lock on key [k], for writing or for reading. *)
Definition holds (t : gzochid_lock_table) (n : Z) (k : bytes) (w : bool) : Prop :=
  exists p l, lock_heap t !! p = Some l
    /\ lock_node_id l = n /\ key_of l = k /\ lock_for_write l = w.

#[export] Instance range_lower_comparator_ok : Comparator range_lower_comparator.
Proof.
  split; intros; unfold range_lower_comparator in *;
    [apply null_first_comparator | by eapply null_first_comparator].
Qed.

#[export] Instance range_upper_comparator_ok : Comparator range_upper_comparator.
Proof.
  split; intros; unfold range_upper_comparator in *;
    [apply null_last_comparator | by eapply null_last_comparator].
Qed.

(** ** Lookups under the invariant *)

Lemma lock_keys_ok h ks L :
  Forall2 (group_ok h) ks L -> mapM (lock_list_key h) L = Ret ks.
Proof.
  induction 1 as [|k ls ks L [Hne Hall] _ IH]; [done|]. cbn [mapM].
  assert (lock_list_key h ls = Ret k) as ->.
  { unfold lock_list_key. destruct (locks_locks ls) as [|p l']; [done|].
    apply Forall_cons_1 in Hall as [(l & -> & <-) _]. done. }
  run. by rewrite IH.
Qed.

Lemma bytes_lookup_key k ks i :
  sequence_lookup bytes_compare k ks = Some i -> ks !! i = Some k.
Proof.
  revert i. induction ks as [|k' ks IH]; intros i; simpl; [done|].
  destruct (Z.eqb_spec (bytes_compare k k') 0) as [He|_].
  - intros [= <-]. by apply bytes_compare_eq in He as ->.
  - intros (j & Hj & ->)%fmap_Some. by apply IH.
Qed.

Lemma bytes_lookup_no_key k ks :
  sequence_lookup bytes_compare k ks = None -> k ∉ ks.
Proof.
  induction ks as [|k' ks IH]; simpl; [intros _; apply not_elem_of_nil|].
  destruct (Z.eqb_spec (bytes_compare k k') 0) as [He|Hne]; [done|].
  intros Hn%fmap_None. rewrite elem_of_cons. intros [->|Hin]; [by rewrite bytes_compare_refl in Hne|].
  by apply IH.
Qed.

(** The locks on a key, in the middle of the sequence. *)
Lemma groups_split h ks L i k :
  groups_ok h ks L -> ks !! i = Some k -> exists K1 K2 L1 ls L2,
    ks = K1 ++ k :: K2 /\ L = L1 ++ ls :: L2 /\ i = length L1 /\ length K1 = length L1
    /\ group_ok h k ls /\ (forall p l, h !! p = Some l -> key_of l = k <-> p ∈ locks_locks ls).
Proof.
  intros [Hk Hs Hnd Hd] Hi.
  pose proof (list_elem_of_split_length _ _ _ Hi) as (K1 & K2 & -> & ->).
  apply Forall2_app_inv_l in Hk as (L1 & L' & HL1 & HL' & ->).
  apply Forall2_cons_inv_l in HL' as (ls & L2 & Hls & HL2 & ->).
  exists K1, K2, L1, ls, L2. split_and!; try done; try by eapply Forall2_length.
  intros p l Hp. split.
  - intros Hkey. assert (Hin : p ∈ pointers (L1 ++ ls :: L2)) by (apply Hd; eauto).
    unfold pointers in Hin. rewrite bind_app, bind_cons, !elem_of_app in Hin.
    assert (Hother : forall K M, Forall2 (group_ok h) K M -> k ∉ K -> p ∉ (M ≫= locks_locks)).
    { intros K M HKM HkK Hp'. apply list_elem_of_bind in Hp' as (ls' & Hpl & Hls').
      apply list_elem_of_lookup in Hls' as [j Hj].
      destruct (Forall2_lookup_r _ _ _ _ _ HKM Hj) as (k' & Hk' & _ & Hall).
      rewrite Forall_forall in Hall. destruct (Hall p Hpl) as (l' & Hl' & Hkl').
      apply HkK. apply list_elem_of_lookup. exists j. congruence. }
    assert (Hirr : forall x, x ∈ K1 \/ x ∈ K2 -> x <> k).
    { apply StronglySorted_app_iff in Hs as (_ & Hs2 & H12).
      apply StronglySorted_inv in Hs2 as [_ Hs2]. rewrite Forall_forall in Hs2.
      intros x [Hx|Hx] ->.
      - specialize (H12 k k Hx ltac:(apply elem_of_cons; auto)). rewrite bytes_compare_refl in H12. lia.
      - specialize (Hs2 k Hx). simpl in Hs2. rewrite bytes_compare_refl in Hs2. lia. }
    destruct Hin as [Hin|[Hin|Hin]]; [|done|].
    + exfalso. eapply Hother; [exact HL1| |exact Hin]. intros Hx. by eapply Hirr; eauto.
    + exfalso. eapply Hother; [exact HL2| |exact Hin]. intros Hx. by eapply Hirr; eauto.
  - intros Hin. destruct Hls as [_ Hall]. rewrite Forall_forall in Hall.
    destruct (Hall p Hin) as (l' & Hl' & <-). by simplify_eq.
Qed.

Lemma pointers_app L1 L2 : pointers (L1 ++ L2) = pointers L1 ++ pointers L2.
Proof. apply bind_app. Qed.

Lemma pointers_cons ls L : pointers (ls :: L) = locks_locks ls ++ pointers L.
Proof. done. Qed.

Lemma find_locks_spec t ks key :
  groups_ok (lock_heap t) ks (locks t) ->
  (exists K1 K2 L1 ls L2, ks = K1 ++ gb_data key :: K2 /\ locks t = L1 ++ ls :: L2
     /\ find_locks_by_key t (Some key) = Ret (Some (length L1)) /\ length K1 = length L1
     /\ group_ok (lock_heap t) (gb_data key) ls
     /\ (forall p l, lock_heap t !! p = Some l ->
         key_of l = gb_data key <-> p ∈ locks_locks ls))
  \/ (find_locks_by_key t (Some key) = Ret None /\ (gb_data key ∉ ks)
      /\ forall p l, lock_heap t !! p = Some l -> key_of l <> gb_data key).
Proof.
  intros Hg. pose proof Hg as [Hk Hs Hnd Hd].
  assert (Hfind : find_locks_by_key t (Some key)
    = Ret (sequence_lookup bytes_compare (gb_data key) ks)).
  { unfold find_locks_by_key, lock_keys. rewrite (lock_keys_ok _ _ _ Hk). run.
    destruct (locks t); [|done]. by apply Forall2_nil_inv_r in Hk as ->. }
  destruct (sequence_lookup bytes_compare (gb_data key) ks) as [i|] eqn:Hl.
  - left. pose proof (bytes_lookup_key _ _ _ Hl) as Hi.
    destruct (groups_split _ _ _ _ _ Hg Hi) as (K1 & K2 & L1 & ls & L2 & ? & ? & -> & ? & ? & ?).
    exists K1, K2, L1, ls, L2. auto 10.
  - right. pose proof (bytes_lookup_no_key _ _ Hl) as Hno. split_and!; try done.
    intros p l Hp Hkey. assert (Hin : p ∈ pointers (locks t)) by (apply Hd; eauto).
    apply list_elem_of_bind in Hin as (ls & Hpl & Hls). apply list_elem_of_lookup in Hls as [j Hj].
    destruct (Forall2_lookup_r _ _ _ _ _ Hk Hj) as (k' & Hk' & _ & Hall).
    rewrite Forall_forall in Hall. destruct (Hall p Hpl) as (l' & Hl' & Hkl').
    apply Hno, list_elem_of_lookup. exists j. congruence.
Qed.

(** The lock of a node among the locks of a key. *)
Lemma find_lock_spec (h : lock_heap_t) n l :
  Forall (fun p => is_Some (h !! p)) l ->
  (exists p x, find_lock_with_node_id h n l = Ret (Some p) /\ p ∈ l /\ h !! p = Some x
     /\ lock_node_id x = n)
  \/ (find_lock_with_node_id h n l = Ret None
      /\ forall p x, p ∈ l -> h !! p = Some x -> lock_node_id x <> n).
Proof.
  induction 1 as [|p l [x Hp] _ IH]; cbn [find_lock_with_node_id].
  - right. split; [done|]. by intros ? ? ?%elem_of_nil.
  - rewrite Hp. run. destruct (Z.eqb_spec (lock_node_id x) n) as [Hn|Hn].
    + left. exists p, x. rewrite elem_of_cons. auto.
    + destruct IH as [(q & y & -> & Hq & Hy & Hyn)|[-> Hno]].
      * left. exists q, y. rewrite elem_of_cons. auto.
      * right. split; [done|]. intros q y [->|Hq]%elem_of_cons Hy; [by simplify_eq|eauto].
Qed.

Lemma first_other_spec (h : lock_heap_t) n l :
  Forall (fun p => is_Some (h !! p)) l ->
  (exists p x, p ∈ l /\ h !! p = Some x /\ lock_node_id x <> n) ->
  exists p x, first_other_lock h n l = Ret x /\ p ∈ l /\ h !! p = Some x /\ lock_node_id x <> n.
Proof.
  induction 1 as [|p l [x Hp] _ IH]; cbn [first_other_lock].
  - by intros (? & ? & ?%elem_of_nil & _).
  - rewrite Hp. run. intros (q & y & Hq & Hy & Hyn).
    destruct (Z.eqb_spec (lock_node_id x) n) as [Hn|Hn].
    + apply elem_of_cons in Hq as [->|Hq]; [by simplify_eq|].
      destruct IH as (r & z & -> & Hr & Hz & Hzn); [by eauto|].
      exists r, z. rewrite elem_of_cons. auto.
    + exists p, x. rewrite elem_of_cons. auto.
Qed.

(** ** Groups under changes of the heap *)

Lemma groups_frame (h h' : lock_heap_t) ks L :
  (forall p l, p ∈ pointers L -> h !! p = Some l -> exists l', h' !! p = Some l' /\ key_of l' = key_of l) ->
  Forall2 (group_ok h) ks L -> Forall2 (group_ok h') ks L.
Proof.
  intros Hh Hg. revert Hh. induction Hg as [|k ls ks L [Hne Hall] _ IH]; intros Hh; constructor.
  - split; [done|]. rewrite Forall_forall in *. intros p Hp. destruct (Hall p Hp) as (l & Hl & <-).
    apply Hh; [|done]. rewrite pointers_cons, elem_of_app. auto.
  - apply IH. intros p l Hp. apply Hh. rewrite pointers_cons, elem_of_app. auto.
Qed.

Lemma groups_heap_fresh h ks L p l :
  groups_ok h ks L -> h !! p = None -> Forall2 (group_ok (<[p := l]> h)) ks L.
Proof.
  intros [Hk _ _ Hd] Hp. eapply groups_frame; [|exact Hk]. intros q l' Hq Hl.
  exists l'. rewrite lookup_insert_ne by naive_solver. done.
Qed.

Lemma groups_share h K1 k K2 L1 ls L2 p l ts :
  groups_ok h (K1 ++ k :: K2) (L1 ++ ls :: L2) -> length K1 = length L1 ->
  h !! p = None -> key_of l = k ->
  groups_ok (<[p := l]> h) (K1 ++ k :: K2) (L1 ++ Locks (p :: locks_locks ls) ts :: L2).
Proof.
  intros Hg Hlen Hp Hl. pose proof (groups_heap_fresh _ _ _ p l Hg Hp) as Hk'.
  destruct Hg as [_ Hs Hnd Hd].
  assert (Hperm : pointers (L1 ++ Locks (p :: locks_locks ls) ts :: L2)
    ≡ₚ p :: pointers (L1 ++ ls :: L2)).
  { rewrite !pointers_app, !pointers_cons. cbn [locks_locks app]. symmetry. apply Permutation_middle. }
  split; [|done| |].
  - apply Forall2_app_inv in Hk' as [H1 H2]; [|done].
    apply Forall2_cons_1 in H2 as [[Hne Hall] H2].
    apply Forall2_app; [done|]. constructor; [|done]. split; [done|]. constructor; [|done].
    exists l. by rewrite lookup_insert_eq.
  - rewrite Hperm. constructor; [|done]. rewrite Hd, Hp. by intros [??].
  - intros q. rewrite Hperm, elem_of_cons, Hd, lookup_insert_is_Some.
    destruct (decide (p = q)); naive_solver.
Qed.

Lemma groups_new h K1 k K2 L1 L2 p l ts :
  groups_ok h (K1 ++ K2) (L1 ++ L2) -> length K1 = length L1 ->
  StronglySorted bytes_lt (K1 ++ k :: K2) -> h !! p = None -> key_of l = k ->
  groups_ok (<[p := l]> h) (K1 ++ k :: K2) (L1 ++ Locks [p] ts :: L2).
Proof.
  intros Hg Hlen Hs' Hp Hl. pose proof (groups_heap_fresh _ _ _ p l Hg Hp) as Hk'.
  destruct Hg as [_ Hs Hnd Hd].
  assert (Hperm : pointers (L1 ++ Locks [p] ts :: L2) ≡ₚ p :: pointers (L1 ++ L2)).
  { rewrite !pointers_app, !pointers_cons. cbn [locks_locks app]. symmetry. apply Permutation_middle. }
  split; [|done| |].
  - apply Forall2_app_inv in Hk' as [H1 H2]; [|done].
    apply Forall2_app; [done|]. constructor; [|done]. split; [done|]. constructor; [|constructor].
    exists l. by rewrite lookup_insert_eq.
  - rewrite Hperm. constructor; [|done]. rewrite Hd, Hp. by intros [??].
  - intros q. rewrite Hperm, elem_of_cons, Hd, lookup_insert_is_Some.
    destruct (decide (p = q)); naive_solver.
Qed.

Lemma groups_upgrade h ks L1 ls L2 p l l' ts :
  groups_ok h ks (L1 ++ ls :: L2) -> h !! p = Some l -> key_of l' = key_of l ->
  groups_ok (<[p := l']> h) ks (L1 ++ Locks (locks_locks ls) ts :: L2).
Proof.
  intros [Hk Hs Hnd Hd] Hp Hl.
  assert (Hptr : pointers (L1 ++ Locks (locks_locks ls) ts :: L2) = pointers (L1 ++ ls :: L2))
    by (by rewrite !pointers_app).
  assert (Hk' : Forall2 (group_ok (<[p := l']> h)) ks (L1 ++ ls :: L2)).
  { eapply groups_frame; [|exact Hk]. intros q x _ Hx. destruct (decide (p = q)) as [<-|Hne].
    - exists l'. rewrite lookup_insert_eq. by simplify_eq.
    - exists x. by rewrite lookup_insert_ne. }
  split; [|done| |].
  - apply Forall2_app_inv_r in Hk' as (K1 & K' & H1 & H2 & ->).
    apply Forall2_cons_inv_r in H2 as (k & K2 & Hls & H2 & ->).
    by apply Forall2_app; [|constructor].
  - by rewrite Hptr.
  - intros q. rewrite Hptr, Hd, lookup_insert_is_Some. destruct (decide (p = q)); naive_solver.
Qed.

Lemma delete_link_perm p l : p ∈ l -> l ≡ₚ p :: delete_link p l.
Proof.
  induction l as [|q l IH]; [by intros ?%elem_of_nil|]. cbn [delete_link].
  intros Hp. case_decide as Hq; [by subst|]. apply elem_of_cons in Hp as [->|Hp]; [done|].
  rewrite (IH Hp) at 1. apply Permutation_swap.
Qed.

(** Taking a lock out of the heap and out of its place in the sequence. *)
Lemma groups_shrink h ks ks' L L' p :
  groups_ok h ks L -> Forall2 (group_ok h) ks' L' -> StronglySorted bytes_lt ks' ->
  pointers L ≡ₚ p :: pointers L' -> groups_ok (delete p h) ks' L'.
Proof.
  intros [_ _ Hnd Hd] Hk' Hs' Hperm.
  assert (Hnd' : NoDup (p :: pointers L')) by (by rewrite <- Hperm).
  apply NoDup_cons in Hnd' as [Hp Hnd']. split; try done.
  - eapply groups_frame; [|exact Hk']. intros q l Hq Hl. exists l.
    rewrite lookup_delete_ne; [done|]. by intros ->.
  - intros q. specialize (Hd q). rewrite Hperm, elem_of_cons in Hd.
    destruct (decide (p = q)) as [<-|Hne].
    + rewrite lookup_delete_eq. split; [done|by intros [??]].
    + rewrite lookup_delete_ne by done. naive_solver.
Qed.

Lemma groups_remove h K1 k K2 L1 ls L2 p ts :
  groups_ok h (K1 ++ k :: K2) (L1 ++ ls :: L2) -> length K1 = length L1 ->
  p ∈ locks_locks ls ->
  exists ks, groups_ok (delete p h) ks
    (match delete_link p (locks_locks ls) with
     | [] => L1 ++ L2
     | _ => L1 ++ Locks (delete_link p (locks_locks ls)) ts :: L2
     end).
Proof.
  intros Hg Hlen Hp. pose proof Hg as [Hk Hs _ _].
  pose proof (delete_link_perm _ _ Hp) as Hperm.
  apply Forall2_app_inv in Hk as [H1 H2]; [|done].
  apply Forall2_cons_1 in H2 as [[Hne Hall] H2].
  destruct (delete_link p (locks_locks ls)) as [|q rest] eqn:Hdel.
  - exists (K1 ++ K2). eapply groups_shrink; [exact Hg|by apply Forall2_app| |].
    + eapply StronglySorted_sublist; [|exact Hs]. apply sublist_app; [done|]. by apply sublist_cons.
    + rewrite !pointers_app, pointers_cons, Hperm. symmetry. apply Permutation_middle.
  - exists (K1 ++ k :: K2). eapply groups_shrink; [exact Hg| |done|].
    + apply Forall2_app; [done|]. constructor; [|done]. split; [done|]. cbn [locks_locks].
      rewrite Hperm in Hall. by apply Forall_cons_1 in Hall as [_ Hall].
    + rewrite !pointers_app, !pointers_cons, Hperm. cbn [locks_locks app].
      symmetry. apply (Permutation_middle (pointers L1)).
Qed.

(** ** The other components under changes of the heap *)

#[export] Instance compare_timestamps_ok : Comparator compare_timestamps.
Proof.
  split; unfold compare_timestamps, timercmp_lt.
  - intros a b. case_all; lia.
  - intros a b c. case_all; lia.
Qed.

#[export] Instance compare_timestamp_data_ok h : Comparator (compare_timestamp_data h).
Proof.
  split; unfold compare_timestamp_data; intros; [apply compare_timestamps_ok|].
  by eapply (cmp_trans (cmp := compare_timestamps)).
Qed.

Lemma sorted_by_ext (h h' : lock_heap_t) T :
  (forall p, p ∈ T -> h' !! p = h !! p) ->
  sorted_by (compare_timestamp_data h) T -> sorted_by (compare_timestamp_data h') T.
Proof.
  intros Hh Hs. induction Hs as [|p T Hs IH Hall]; constructor.
  - apply IH. intros q Hq. apply Hh, elem_of_cons; auto.
  - rewrite Forall_forall in *. intros q Hq. specialize (Hall q Hq).
    unfold compare_timestamp_data, timestamp_of in *.
    rewrite !Hh by (apply elem_of_cons; auto). done.
Qed.

Lemma time_insert h T p l :
  time_ok h T -> h !! p = None ->
  time_ok (<[p := l]> h) (sequence_insert_sorted (compare_timestamp_data (<[p := l]> h)) p T).
Proof.
  intros (Hs & Hnd & Hd) Hp.
  assert (HpT : p ∉ T) by (rewrite Hd, Hp; by intros [??]). split_and!.
  - apply sequence_insert_sorted_by; [apply _|]. eapply sorted_by_ext; [|exact Hs].
    intros q Hq. rewrite lookup_insert_ne; [done|]. by intros ->.
  - rewrite sequence_insert_perm. by constructor.
  - intros q. rewrite sequence_insert_perm, elem_of_cons, Hd, lookup_insert_is_Some.
    destruct (decide (p = q)); naive_solver.
Qed.

Lemma delete_link_sublist p l : delete_link p l `sublist_of` l.
Proof.
  induction l as [|q l IH]; cbn [delete_link]; [done|].
  case_decide; [by apply sublist_cons | by apply sublist_skip].
Qed.

Lemma time_remove h T p :
  time_ok h T -> is_Some (h !! p) -> time_ok (delete p h) (delete_link p T).
Proof.
  intros (Hs & Hnd & Hd) Hp. assert (HpT : p ∈ T) by (by apply Hd).
  pose proof (delete_link_perm _ _ HpT) as Hperm.
  assert (Hnd' : NoDup (p :: delete_link p T)) by (by rewrite <- Hperm).
  apply NoDup_cons in Hnd' as [Hno Hnd']. split_and!; [|done|].
  - eapply sorted_by_ext; [|eapply StronglySorted_sublist; [apply delete_link_sublist|exact Hs]].
    intros q Hq. rewrite lookup_delete_ne; [done|]. by intros ->.
  - intros q. specialize (Hd q). rewrite Hperm, elem_of_cons in Hd.
    destruct (decide (p = q)) as [<-|Hne].
    + rewrite lookup_delete_eq. split; [done|by intros [??]].
    + rewrite lookup_delete_ne by done. naive_solver.
Qed.

Lemma time_upgrade h T p l :
  time_ok h T -> is_Some (h !! p) ->
  time_ok (<[p := l]> h)
    (sequence_insert_sorted (compare_timestamp_data (<[p := l]> h)) p (delete_link p T)).
Proof.
  intros HT Hp. rewrite <- insert_delete_eq. apply time_insert; [by apply time_remove|].
  apply lookup_delete_eq.
Qed.

Lemma nodes_insert h N p l :
  nodes_ok h N -> h !! p = None ->
  let nl := default (NodeLocks [] []) (N !! lock_node_id l) in
  nodes_ok (<[p := l]> h)
    (<[lock_node_id l := NodeLocks (p :: node_point_locks nl) (node_range_locks nl)]> N).
Proof.
  intros [HN Hr] Hp nl.
  assert (Hother : forall q x n, h !! q = Some x /\ lock_node_id x = n -> q <> p) by naive_solver.
  assert (Hnl : NoDup (node_point_locks nl) /\ forall q, q ∈ node_point_locks nl
    <-> exists x, h !! q = Some x /\ lock_node_id x = lock_node_id l).
  { subst nl. destruct (N !! lock_node_id l) as [nl|] eqn:Hn; cbn [default].
    - by destruct (HN _ _ Hn) as (? & ? & _).
    - split; [constructor|]. intros q. split; [by intros ?%elem_of_nil|].
      intros (x & Hx & Hxn). destruct (Hr _ _ Hx) as [? HNx]. congruence. }
  destruct Hnl as [Hnd Hmem]. split.
  - intros n nl'. destruct (decide (lock_node_id l = n)) as [<-|Hne].
    + rewrite lookup_insert_eq. intros [= <-]. cbn [node_point_locks node_range_locks].
      split_and!; [constructor; [rewrite Hmem; naive_solver|done]| |by left].
      intros q. rewrite elem_of_cons, Hmem. split.
      * intros [->|(x & Hx & Hxn)]; [exists l; by rewrite lookup_insert_eq|].
        exists x. rewrite lookup_insert_ne; naive_solver.
      * intros (x & Hx & Hxn). apply lookup_insert_Some in Hx as [[<- _]|[_ Hx]]; eauto.
    + rewrite lookup_insert_ne by done. intros Hn. destruct (HN _ _ Hn) as (Hnd' & Hmem' & Hne').
      split_and!; try done. intros q. rewrite Hmem'. split.
      * intros (x & Hx & Hxn). exists x. rewrite lookup_insert_ne; naive_solver.
      * intros (x & Hx & Hxn). apply lookup_insert_Some in Hx as [[_ <-]|[_ Hx]]; [done|eauto].
  - intros q x Hx. apply lookup_insert_Some in Hx as [[_ <-]|[_ Hx]].
    + by rewrite lookup_insert_eq.
    + apply lookup_insert_is_Some. destruct (decide (lock_node_id l = lock_node_id x)); eauto.
Qed.

Lemma nodes_upgrade h N p l l' :
  nodes_ok h N -> h !! p = Some l -> lock_node_id l' = lock_node_id l ->
  nodes_ok (<[p := l']> h) N.
Proof.
  intros [HN Hr] Hp Hl. split.
  - intros n nl Hn. destruct (HN _ _ Hn) as (Hnd & Hmem & Hne). split_and!; try done.
    intros q. rewrite Hmem. destruct (decide (p = q)) as [<-|Hpq].
    + rewrite lookup_insert_eq. naive_solver.
    + by rewrite lookup_insert_ne.
  - intros q x Hx. apply lookup_insert_Some in Hx as [[<- <-]|[_ Hx]]; [rewrite Hl|]; eauto.
Qed.

Lemma nodes_remove h N p l nl :
  nodes_ok h N -> h !! p = Some l -> N !! lock_node_id l = Some nl ->
  nodes_ok (delete p h)
    (forget_node (lock_node_id l)
       (NodeLocks (delete_link p (node_point_locks nl)) (node_range_locks nl)) N).
Proof.
  intros [HN Hr] Hp Hn. destruct (HN _ _ Hn) as (Hnd & Hmem & _).
  assert (Hin : p ∈ node_point_locks nl) by (apply Hmem; eauto).
  pose proof (delete_link_perm _ _ Hin) as Hperm.
  assert (Hnd' : NoDup (p :: delete_link p (node_point_locks nl))) by (by rewrite <- Hperm).
  apply NoDup_cons in Hnd' as [Hno Hnd'].
  set (nl' := NodeLocks (delete_link p (node_point_locks nl)) (node_range_locks nl)).
  assert (Hmem' : forall q, q ∈ node_point_locks nl' <->
    exists x, delete p h !! q = Some x /\ lock_node_id x = lock_node_id l).
  { intros q. specialize (Hmem q). rewrite Hperm, elem_of_cons in Hmem. cbn [nl' node_point_locks].
    destruct (decide (p = q)) as [<-|Hpq].
    - rewrite lookup_delete_eq. split; [done|by intros (? & ? & _)].
    - rewrite lookup_delete_ne by done. naive_solver. }
  assert (Hlook : forall n, forget_node (lock_node_id l) nl' N !! n
    = if decide (n = lock_node_id l)
      then (if decide (node_point_locks nl' = [] /\ node_range_locks nl' = []) then None else Some nl')
      else N !! n).
  { intros n. unfold forget_node.
    destruct (node_point_locks nl') eqn:H1, (node_range_locks nl') eqn:H2;
      destruct (decide (n = lock_node_id l)) as [->|Hne];
      rewrite ?lookup_delete_eq, ?lookup_insert_eq, ?lookup_delete_ne, ?lookup_insert_ne by done;
      try done; case_decide; naive_solver. }
  split.
  - intros n x. rewrite Hlook. destruct (decide (n = lock_node_id l)) as [->|Hd].
    + case_decide as Hempty; [done|]. intros Hx. assert (x = nl') as -> by congruence.
      split_and!; try done.
      destruct (node_point_locks nl'); [right; naive_solver|by left].
    + intros Hx. destruct (HN _ _ Hx) as (Hnd'' & Hm & Hne). split_and!; try done.
      intros q. rewrite Hm. destruct (decide (p = q)) as [<-|Hpq].
      * rewrite lookup_delete_eq. naive_solver.
      * by rewrite lookup_delete_ne.
  - intros q x Hx. rewrite Hlook. destruct (decide (lock_node_id x = lock_node_id l)) as [Hd|Hd].
    + case_decide as Hempty; [|eauto]. exfalso. destruct Hempty as [He _].
      assert (Hq : q ∈ node_point_locks nl') by (apply Hmem'; eauto). rewrite He in Hq.
      by apply elem_of_nil in Hq.
    + apply lookup_delete_Some in Hx as [_ Hx]. eauto.
Qed.

Lemma excl_insert h p l :
  excl_ok h -> h !! p = None ->
  (forall q x, h !! q = Some x -> key_of x = key_of l ->
     lock_for_write l = false /\ lock_for_write x = false /\ lock_node_id x <> lock_node_id l) ->
  excl_ok (<[p := l]> h).
Proof.
  intros He Hp Hl q1 q2 l1 l2 H1 H2 Hk Hor.
  apply lookup_insert_Some in H1 as [[<- <-]|[Hn1 H1]];
    apply lookup_insert_Some in H2 as [[<- <-]|[Hn2 H2]]; try done.
  - destruct (Hl _ _ H2 (eq_sym Hk)) as (? & ? & ?). destruct Hor; congruence.
  - destruct (Hl _ _ H1 Hk) as (? & ? & ?). destruct Hor; congruence.
  - by eapply He.
Qed.

Lemma excl_remove h p : excl_ok h -> excl_ok (delete p h).
Proof.
  intros He q1 q2 l1 l2 [_ H1]%lookup_delete_Some [_ H2]%lookup_delete_Some. by apply He.
Qed.

(** A lock that is alone on its key may become a write lock. *)
Lemma excl_upgrade h p l l' :
  excl_ok h -> h !! p = Some l -> key_of l' = key_of l ->
  (forall q x, h !! q = Some x -> key_of x = key_of l -> q = p) ->
  excl_ok (<[p := l']> h).
Proof.
  intros He Hp Hk' Hal q1 q2 l1 l2 H1 H2 Hk Hor.
  apply lookup_insert_Some in H1 as [[<- <-]|[Hn1 H1]];
    apply lookup_insert_Some in H2 as [[<- <-]|[Hn2 H2]]; try done.
  - symmetry. apply (Hal q2 l2); congruence.
  - apply (Hal q1 l1); congruence.
  - by eapply He.
Qed.

(** ** The operations keep the invariant *)

Lemma insert_split k (x : gzochid_locks) ks : forall L,
  length ks = length L -> StronglySorted bytes_lt ks -> k ∉ ks ->
  exists K1 K2 L1 L2, ks = K1 ++ K2 /\ L = L1 ++ L2 /\ length K1 = length L1
    /\ snd <$> sequence_insert_sorted (fun a b => bytes_compare a.1 b.1) (k, x) (zip ks L)
       = L1 ++ x :: L2
    /\ StronglySorted bytes_lt (K1 ++ k :: K2).
Proof.
  induction ks as [|k' ks IH]; intros [|ls L] Hlen Hs Hk; try done.
  - exists [], [], [], []. split_and!; try done. by repeat constructor.
  - apply StronglySorted_inv in Hs as [Hs Hall]. rewrite elem_of_cons in Hk.
    pose proof (bytes_compare_sym k k') as Hsym. pose proof (proj1 (bytes_compare_eq k k')) as Heq.
    cbn [zip zip_with sequence_insert_sorted fst].
    destruct (Z.ltb_spec (bytes_compare k k') 0) as [Hlt|Hge].
    + exists [], (k' :: ks), [], (ls :: L). split_and!; try done.
      * cbn [fmap list_fmap snd app]. do 2 f_equal. clear -Hlen. injection Hlen as Hlen.
        by apply snd_zip; lia.
      * constructor; [by constructor|]. constructor; [done|].
        eapply Forall_impl; [exact Hall|]. intros z Hz. simpl in Hz.
        apply (cmp_lt_le_trans bytes_compare k k' z); lia.
    + destruct (IH L) as (K1 & K2 & L1 & L2 & -> & -> & HK & Hins & Hs'); [by injection Hlen|done|naive_solver|].
      exists (k' :: K1), K2, (ls :: L1), L2. split_and!; try done.
      * cbn [length]. by f_equal.
      * cbn [fmap list_fmap snd app]. f_equal. exact Hins.
      * cbn [app]. constructor; [done|]. apply Forall_app in Hall as [H1 H2].
        apply Forall_app. split; [done|]. constructor; [|done]. 
        assert (bytes_compare k k' <> 0) by naive_solver. lia.
Qed.

Lemma lock_heap_fresh t : lock_heap t !! (fresh (dom (lock_heap t)) : positive) = None.
Proof. apply not_elem_of_dom, is_fresh. Qed.

(** What [register_lock] does to every part of the table. *)
Lemma register_lock_eq now t n key w :
  let p := fresh (dom (lock_heap t)) in
  let l := Lock n key w now in
  let nl := default (NodeLocks [] []) (nodes_to_locks t !! n) in
  register_lock now t n key w
  = (p, LockTable (locks t)
       (sequence_insert_sorted (compare_timestamp_data (<[p := l]> (lock_heap t))) p
          (locks_by_timestamp t))
       (range_locks t) (range_locks_by_timestamp t)
       (<[n := NodeLocks (p :: node_point_locks nl) (node_range_locks nl)]> (nodes_to_locks t))
       (<[p := l]> (lock_heap t)) (range_heap t)).
Proof.
  unfold register_lock, ensure_node_registration.
  destruct (nodes_to_locks t !! n) as [nl|] eqn:Hn; cbn; [done|]. by rewrite insert_insert_eq.
Qed.

Lemma new_lock_ok now t n key w :
  lock_inv t -> (forall p l, lock_heap t !! p = Some l -> key_of l <> gb_data key) ->
  exists t', new_lock now t n key w = Ret t' /\ lock_inv t'
    /\ lock_heap t' = <[fresh (dom (lock_heap t)) := Lock n key w now]> (lock_heap t)
    /\ range_locks t' = range_locks t /\ range_heap t' = range_heap t.
Proof.
  intros [[ks Hg] He HT HN] Hno. pose proof Hg as [Hk Hs _ _].
  assert (Hks : gb_data key ∉ ks).
  { intros Hin. apply list_elem_of_lookup in Hin as [i Hi].
    destruct (Forall2_lookup_l _ _ _ _ _ Hk Hi) as (ls & _ & Hne & Hall).
    destruct (locks_locks ls) as [|p l']; [done|].
    apply Forall_cons_1 in Hall as [(l & Hl & Hlk) _]. by eapply Hno. }
  unfold new_lock, lock_keys. rewrite (lock_keys_ok _ _ _ Hk). run.
  rewrite register_lock_eq. pose proof (lock_heap_fresh t) as Hp.
  set (p := fresh (dom (lock_heap t))) in *.
  eexists. split; [done|]. split_and!; try done.
  destruct (insert_split (gb_data key) (Locks [p] now) ks (locks t))
    as (K1 & K2 & L1 & L2 & -> & HL & Hlen & Hins & Hs'); auto.
  { by eapply Forall2_length. }
  split; cbn [locks lock_heap locks_by_timestamp nodes_to_locks set_locks].
  - rewrite Hins. exists (K1 ++ gb_data key :: K2). rewrite HL in Hg.
    by apply groups_new.
  - apply excl_insert; [done..|]. intros q x Hq Hx. by destruct (Hno q x Hq).
  - by apply time_insert.
  - by apply (nodes_insert _ _ _ (Lock n key w now)).
Qed.

Lemma share_lock_ok now t n key ks L1 ls L2 :
  lock_inv t -> groups_ok (lock_heap t) ks (L1 ++ ls :: L2) -> locks t = L1 ++ ls :: L2 ->
  ks !! length L1 = Some (gb_data key) ->
  (forall p l, lock_heap t !! p = Some l -> key_of l = gb_data key ->
     lock_for_write l = false /\ lock_node_id l <> n) ->
  let t' := share_lock now t (length L1) ls n key false in
  lock_inv t'
  /\ lock_heap t' = <[fresh (dom (lock_heap t)) := Lock n key false now]> (lock_heap t)
  /\ range_locks t' = range_locks t /\ range_heap t' = range_heap t.
Proof.
  intros [_ He HT HN] Hg HL Hk Hno t'. subst t'. unfold share_lock. rewrite register_lock_eq.
  pose proof (lock_heap_fresh t) as Hp. set (p := fresh (dom (lock_heap t))) in *.
  split_and!; try done.
  split; cbn [locks lock_heap locks_by_timestamp nodes_to_locks set_locks].
  - rewrite HL, list_set_middle.
    destruct (list_elem_of_split_length _ _ _ Hk) as (K1 & K2 & -> & HK).
    exists (K1 ++ gb_data key :: K2). by apply groups_share.
  - apply excl_insert; [done..|]. intros q x Hq Hx. destruct (Hno q x Hq Hx). auto.
  - by apply time_insert.
  - by apply (nodes_insert _ _ _ (Lock n key false now)).
Qed.

Lemma upgrade_lock_ok now t ks L1 ls L2 p l :
  lock_inv t -> groups_ok (lock_heap t) ks (L1 ++ ls :: L2) -> locks t = L1 ++ ls :: L2 ->
  lock_heap t !! p = Some l ->
  (forall q x, lock_heap t !! q = Some x -> key_of x = key_of l -> q = p) ->
  let t' := upgrade_lock now t (length L1) ls p l in
  lock_inv t'
  /\ lock_heap t' = <[p := Lock (lock_node_id l) (lock_key l) true now]> (lock_heap t)
  /\ range_locks t' = range_locks t /\ range_heap t' = range_heap t.
Proof.
  intros [_ He HT HN] Hg HL Hp Hal t'. subst t'. unfold upgrade_lock. split_and!; try done.
  split; cbn [locks lock_heap locks_by_timestamp nodes_to_locks].
  - rewrite HL, list_set_middle. exists ks. by eapply groups_upgrade.
  - by eapply excl_upgrade.
  - by apply time_upgrade; eauto.
  - by eapply nodes_upgrade.
Qed.

Lemma group_in_heap h k ls : group_ok h k ls -> Forall (fun p => is_Some (h !! p)) (locks_locks ls).
Proof. intros [_ Hall]. eapply Forall_impl; [exact Hall|]. simpl. naive_solver. Qed.

Lemma group_nonempty h k ls :
  group_ok h k ls -> c_assert (negb (bool_decide (locks_locks ls = []))) = Ret tt.
Proof. intros [Hne _]. by rewrite bool_decide_eq_false_2. Qed.

Lemma remove_lock_ok t p l :
  lock_inv t -> lock_heap t !! p = Some l ->
  exists t' nl, remove_lock t p = Ret t' /\ lock_inv t' /\ lock_heap t' = delete p (lock_heap t)
    /\ range_locks t' = range_locks t /\ range_heap t' = range_heap t
    /\ nodes_to_locks t !! lock_node_id l = Some nl
    /\ nodes_to_locks t' = forget_node (lock_node_id l)
         (NodeLocks (delete_link p (node_point_locks nl)) (node_range_locks nl)) (nodes_to_locks t).
Proof.
  intros [[ks Hg] He HT HN] Hp. unfold remove_lock. rewrite Hp. run.
  destruct (find_locks_spec t ks (lock_key l) Hg)
    as [(K1 & K2 & L1 & ls & L2 & -> & HL & -> & HK & Hgr & Hmem)|(_ & _ & Hno)].
  - run. rewrite HL, list_lookup_middle by done. run.
    destruct (proj2 HN p l Hp) as [nl Hnl]. rewrite Hnl. run.
    assert (Hin : p ∈ locks_locks ls) by (by apply (Hmem p l)).
    eexists _, nl. split; [done|]. split_and!; try done.
    split; cbn [locks lock_heap locks_by_timestamp nodes_to_locks].
    + rewrite HL in Hg. destruct (groups_remove _ _ _ _ _ _ _ p (most_recent_timestamp ls) Hg HK Hin)
        as [ks' Hg']. exists ks'. destruct (delete_link p (locks_locks ls)).
      * by rewrite sequence_remove_middle.
      * by rewrite list_set_middle.
    + by apply excl_remove.
    + apply time_remove; eauto.
    + by eapply nodes_remove.
  - exfalso. by eapply Hno.
Qed.

(** The locks of other nodes on the key that stand in the way of a lock for
    writing ([w]) or for reading. *)
Definition point_conflict (t : gzochid_lock_table) (n : Z) (k : bytes) (w : bool)
    (ts : timeval) : Prop :=
  exists p l, lock_heap t !! p = Some l /\ lock_node_id l <> n /\ key_of l = k
    /\ (lock_for_write l = true \/ w = true) /\ ts = lock_timestamp l.

(** The table after a lock has been obtained: node [n] has one lock on the key,
    of the mode asked for. *)
Definition locked (t t' : gzochid_lock_table) (n : Z) (k : bytes) (w : bool) (now : timeval) : Prop :=
  lock_inv t' /\ range_locks t' = range_locks t /\ range_heap t' = range_heap t
  /\ exists p l, lock_node_id l = n /\ key_of l = k /\ lock_for_write l = w
     /\ lock_timestamp l = now /\ lock_heap t' = <[p := l]> (lock_heap t)
     /\ (lock_heap t !! p = None \/ exists l0, lock_heap t !! p = Some l0
          /\ lock_node_id l0 = n /\ key_of l0 = k /\ lock_for_write l0 = false).

(** With a lock of a node, a group of several has one of another node. *)
Lemma other_in_group h k ls n p l :
  excl_ok h -> group_ok h k ls -> NoDup (locks_locks ls) ->
  p ∈ locks_locks ls -> h !! p = Some l -> lock_node_id l = n ->
  (1 < length (locks_locks ls))%nat ->
  exists q x, q ∈ locks_locks ls /\ h !! q = Some x /\ lock_node_id x <> n.
Proof.
  intros He [_ Hall] Hnd Hp Hl Hn Hlen. rewrite Forall_forall in Hall.
  assert (Hq : exists q, q ∈ locks_locks ls /\ q <> p).
  { destruct (locks_locks ls) as [|a [|b rest]]; simpl in Hlen; [lia..|].
    apply NoDup_cons in Hnd as [Ha _].
    destruct (decide (a = p)) as [->|Hne]; [exists b|exists a];
      rewrite ?elem_of_cons in *; naive_solver. }
  destruct Hq as (q & Hq & Hqp). destruct (Hall q Hq) as (x & Hx & Hxk), (Hall p Hp) as (l' & Hl' & Hlk).
  exists q, x. split_and!; try done. intros Hxn. apply Hqp. eapply He; [done|done|congruence|].
  right. congruence.
Qed.

(** The cases of [gzochid_lock_check_and_set]. *)
Lemma check_and_set_cases now t n key w :
  lock_inv t ->
  let r := gzochid_lock_check_and_set now t n key w in
  (r = Ret (lock_success, t) /\ exists w', holds t n (gb_data key) w' /\ (w' = true \/ w = false))
  \/ (exists ts, point_conflict t n (gb_data key) w ts /\ r = Ret (lock_failure ts, t))
  \/ ((forall ts, ~ point_conflict t n (gb_data key) w ts)
      /\ exists t', locked t t' n (gb_data key) w now
      /\ r = (if w then
                range_lock ← most_recent_covering_range_lock t key n;
                match range_lock with
                | Some rl => Ret (lock_failure (range_timestamp rl), t)
                | None => Ret (lock_success, t')
                end
              else Ret (lock_success, t'))).
Proof.
  intros Hinv. pose proof Hinv as [[ks Hg] He HT HN].
  remember (gzochid_lock_check_and_set now t n key w) as r eqn:Hr.
  unfold gzochid_lock_check_and_set in Hr. cbv zeta.
  destruct (find_locks_spec t ks key Hg)
    as [(K1 & K2 & L1 & ls & L2 & -> & HL & Hf & HK & Hgr & Hmem)|(Hf & Hks & Hno)];
    rewrite Hf in Hr; cbn [mbind outcome_bind] in Hr.
  - pose proof (group_in_heap _ _ _ Hgr) as Hall. pose proof HL as HL'.
    assert (Hi : locks t !! length L1 = Some ls) by (by rewrite HL, list_lookup_middle).
    assert (Hgrp : forall q x, lock_heap t !! q = Some x -> key_of x = gb_data key -> q ∈ locks_locks ls)
      by naive_solver.
    rewrite Hi in Hr. cbn [deref mbind outcome_bind] in Hr.
    rewrite (group_nonempty _ _ _ Hgr) in Hr. cbn [mbind outcome_bind] in Hr. rewrite HL in Hg.
    destruct (find_lock_spec (lock_heap t) n (locks_locks ls) Hall)
      as [(p & l & Hfl & Hpin & Hp & Hn)|[Hfl Hother]]; rewrite Hfl in Hr; cbn [mbind outcome_bind] in Hr.
    + assert (Hkey : key_of l = gb_data key) by (by apply (Hmem p l)).
      rewrite Hp in Hr. cbn [deref mbind outcome_bind] in Hr.
      destruct (lock_for_write l) eqn:Hw; [|destruct w]; cbn [orb negb] in Hr.
      * left. split; [done|]. exists true. split; [by exists p, l|by left].
      * right. destruct (Nat.ltb_spec 1 (length (locks_locks ls))) as [Hlen|Hlen].
        -- left. destruct (first_other_spec (lock_heap t) n (locks_locks ls) Hall)
             as (q & x & Ho & Hq & Hx & Hxn).
           { eapply other_in_group; try done. destruct Hg as [_ _ Hnd _].
             rewrite pointers_app, pointers_cons in Hnd.
             apply NoDup_app in Hnd as (_ & _ & Hnd). by apply NoDup_app in Hnd as (? & _). }
           rewrite Ho in Hr. exists (lock_timestamp x). split; [|done].
           exists q, x. split_and!; try done; [by apply (Hmem q x)|by right].
        -- right. assert (Hal : forall q, q ∈ locks_locks ls -> q = p).
           { intros q Hq. destruct (locks_locks ls) as [|a [|b ?]];
               [by apply elem_of_nil in Hpin| |simpl in Hlen; lia].
             apply list_elem_of_singleton in Hpin as ->. by apply list_elem_of_singleton in Hq. }
           split.
           ++ intros ts (q & x & Hq & Hqn & Hqk & _ & _). rewrite (Hal q) in Hq by eauto. naive_solver.
           ++ destruct (upgrade_lock_ok now t _ L1 ls L2 p l Hinv Hg HL' Hp) as (Hinv' & Hh & Hr1 & Hr2).
              { intros q x Hq Hx. apply Hal, (Hgrp q x Hq). congruence. }
              exists (upgrade_lock now t (length L1) ls p l). split; [|done].
              split_and!; try done. exists p, (Lock (lock_node_id l) (lock_key l) true now).
              split_and!; try done. right. eauto 10.
      * left. split; [done|]. exists false. split; [by exists p, l|by right].
    + right. destruct Hgr as [Hne Hgr]. destruct (locks_locks ls) as [|a rest] eqn:Hls; [done|].
      apply Forall_cons_1 in Hgr as [(l & Ha & Hlk) _].
      cbn [head] in Hr. cbn [deref mbind outcome_bind] in Hr. rewrite Ha in Hr.
      cbn [deref mbind outcome_bind] in Hr.
      assert (Hain : a ∈ a :: rest) by (apply elem_of_cons; auto).
      destruct (w || lock_for_write l) eqn:Hw.
      * left. exists (lock_timestamp l). split; [|done]. exists a, l.
        split_and!; try done; [by eapply Hother|]. apply orb_true_iff in Hw as [->|Hw]; auto.
      * right. apply orb_false_iff in Hw as [-> Hw].
        assert (Hread : forall q x, lock_heap t !! q = Some x -> key_of x = gb_data key ->
          lock_for_write x = false /\ lock_node_id x <> n).
        { intros q x Hq Hx. split; [|by apply (Hother q x (Hgrp q x Hq Hx) Hq)].
          destruct (lock_for_write x) eqn:Hxw; [|done].
          assert (q = a) as -> by (eapply He; eauto; congruence). congruence. }
        split; [intros ts (q & x & Hq & _ & Hx & Hor & _); destruct (Hread q x Hq Hx), Hor; congruence|].
        destruct (share_lock_ok now t n key _ L1 ls L2 Hinv Hg HL') as (Hinv' & Hh & Hr1 & Hr2).
        { by rewrite <- HK, list_lookup_middle. }
        { done. }
        exists (share_lock now t (length L1) ls n key false). split; [|done].
        split_and!; try done. eexists _, _. split_and!; [| | | |exact Hh|]; try done.
        left. apply lock_heap_fresh.
  - right. right. split; [intros ts (q & x & Hq & _ & Hx & _); by eapply Hno|].
    destruct (new_lock_ok now t n key w Hinv Hno) as (t' & Hnew & Hinv' & Hh & Hr1 & Hr2).
    exists t'. split.
    + split_and!; try done. eexists _, _. split_and!; [| | | |exact Hh|]; try done.
      left. apply lock_heap_fresh.
    + rewrite Hr, Hnew. by destruct w.
Qed.

(** ** Range locks that cover a key *)

(** The range lock of another node than [n] behind a datum of the tree. *)
Definition foreign (h : gmap positive gzochid_range_lock) (n : Z) (d : positive)
    (rl : gzochid_range_lock) : Prop :=
  h !! d = Some rl /\ range_node_id rl <> n.

Lemma find_most_recent_spec h n (l : list (option gbytes * option gbytes * positive)) : forall cur,
  Forall (fun e => is_Some (h !! e.2)) l ->
  exists r, run_until (find_most_recent_covering_range_lock h n) l (Ret cur) = Ret r
    /\ (match r with
        | Some rl => cur = Some rl \/ exists e, e ∈ l /\ foreign h n e.2 rl
        | None => cur = None /\ forall e rl, e ∈ l -> ~ foreign h n e.2 rl
        end)
    /\ (forall rl, r = Some rl -> (forall c, cur = Some c -> timercmp_lt (range_timestamp rl) (range_timestamp c) = false)
         /\ forall e rl', e ∈ l -> foreign h n e.2 rl' ->
             timercmp_lt (range_timestamp rl) (range_timestamp rl') = false).
Proof.
  induction l as [|[[lo up] d] l IH]; intros cur Hall; cbn [run_until].
  - exists cur. split; [done|]. split.
    + destruct cur; [by left|]. split; [done|]. by intros ? ? ?%elem_of_nil.
    + intros rl ->. split; [intros c [= <-]; apply timercmp_lt_irrefl|]. by intros ? ? ?%elem_of_nil.
  - apply Forall_cons_1 in Hall as [[rl Hd] Hall]. cbn [snd] in Hd.
    cbn [find_most_recent_covering_range_lock]. run. rewrite Hd. run.
    set (take := negb (range_node_id rl =? n) && _).
    destruct (IH (if take then Some rl else cur) Hall) as (r & Hr & Hspec & Hmax).
    exists r. split; [by destruct take|].
    assert (Htake : take = true <-> range_node_id rl <> n /\ forall c, cur = Some c ->
      timercmp_lt (range_timestamp c) (range_timestamp rl) = true).
    { subst take. rewrite andb_true_iff, negb_true_iff, Z.eqb_neq.
      destruct cur; naive_solver. }
    split.
    + destruct r as [rl'|].
      * destruct Hspec as [Hs|(e & He & Hf)].
        -- destruct take; [|by left]. injection Hs as ->. right. exists (lo, up, d).
           split; [apply elem_of_cons; auto|]. split; [done|]. by apply Htake.
        -- right. exists e. split; [apply elem_of_cons; auto|done].
      * destruct Hspec as [Hs Hno]. destruct take; [done|]. split; [done|].
        intros e rl' [->|He]%elem_of_cons; [|by apply Hno]. intros [Hd' Hn]. cbn [snd] in Hd'.
        assert (rl' = rl) as -> by congruence. subst cur.
        destruct Htake as [_ Htake]. discriminate Htake. by split.
    + intros rl' ->. destruct (Hmax rl' eq_refl) as [Hcur Hl].
      assert (Hge : forall c, cur = Some c -> timercmp_lt (range_timestamp rl') (range_timestamp c) = false).
      { intros c Hc. destruct take; [|by apply Hcur].
        apply (timercmp_ge_trans _ (range_timestamp rl)); [by apply Hcur|].
        apply timercmp_lt_asym. by apply Htake. }
      split; [done|]. intros e rl2 [->|He]%elem_of_cons; [|by apply Hl]. intros [Hd' Hn].
      cbn [snd] in Hd'. assert (rl2 = rl) as -> by congruence.
      destruct take eqn:Ht; [by apply Hcur|].
      destruct cur as [c|]; [|by destruct Htake as [_ Htake]; discriminate Htake].
      apply (timercmp_ge_trans _ (range_timestamp c)); [by apply Hcur|].
      destruct (timercmp_lt (range_timestamp c) (range_timestamp rl)) eqn:Hlt; [|done].
      destruct Htake as [_ Htake]. discriminate Htake. naive_solver.
Qed.

(** The range lock that the call for a key finds. *)
Definition covering (t : gzochid_lock_table) (tr : tree (option gbytes) positive)
    (n : Z) (k : gbytes) (rl : gzochid_range_lock) : Prop :=
  exists e, e ∈ elements tr /\ foreign (range_heap t) n e.2 rl
    /\ 0 <= range_lower_comparator (Some k) e.1.1
    /\ range_upper_comparator (Some k) e.1.2 <= 0.

Lemma most_recent_spec t tr key n :
  range_inv t tr ->
  exists r, most_recent_covering_range_lock t key n = Ret r
    /\ match r with
       | Some rl => covering t tr n key rl /\ forall rl', covering t tr n key rl' ->
           timercmp_lt (range_timestamp rl) (range_timestamp rl') = false
       | None => forall rl, ~ covering t tr n key rl
       end.
Proof.
  intros [Hok Hdata]. unfold most_recent_covering_range_lock.
  rewrite (itree_search_complete _ _ _ tr) by done. run.
  set (sel := fun e : option gbytes * option gbytes * positive => _ && _).
  assert (Hsel : forall e, e ∈ List.filter sel (elements tr) <-> e ∈ elements tr
    /\ 0 <= range_lower_comparator (Some key) e.1.1 /\ range_upper_comparator (Some key) e.1.2 <= 0).
  { intros e. rewrite !list_elem_of_In, filter_In. subst sel. cbn.
    by rewrite andb_true_iff, !Z.leb_le. }
  destruct (find_most_recent_spec (range_heap t) n (List.filter sel (elements tr)) None)
    as (r & -> & Hspec & Hmax).
  { rewrite Forall_forall in *. intros e He. by apply Hdata, Hsel. }
  exists r. split; [done|]. destruct r as [rl|].
  - destruct Hspec as [?|(e & He & Hf)]; [done|]. apply Hsel in He as (He & H1 & H2).
    split; [by exists e|]. intros rl' (e' & He' & Hf' & H1' & H2').
    apply (Hmax rl eq_refl) with e'; [|done]. by apply Hsel.
  - intros rl (e & He & Hf & H1 & H2). destruct Hspec as [_ Hno]. eapply Hno; [|exact Hf]. by apply Hsel.
Qed.

(** Changing the range locks of a node. *)
Lemma nodes_set_range h N n rs :
  nodes_ok h N ->
  nodes_ok h (forget_node n
    (NodeLocks (node_point_locks (default (NodeLocks [] []) (N !! n))) rs) N).
Proof.
  intros [HN Hr]. set (ps := node_point_locks _).
  assert (Hps : NoDup ps /\ forall p, p ∈ ps <-> exists l, h !! p = Some l /\ lock_node_id l = n).
  { subst ps. destruct (N !! n) as [nl|] eqn:Hn; cbn [default].
    - by destruct (HN _ _ Hn) as (? & ? & _).
    - split; [constructor|]. intros p. split; [by intros ?%elem_of_nil|].
      intros (l & Hl & <-). destruct (Hr _ _ Hl) as [? HNl]. congruence. }
  destruct Hps as [Hnd Hmem].
  assert (Hlook : forall n', forget_node n (NodeLocks ps rs) N !! n'
    = if decide (n' = n) then (if decide (ps = [] /\ rs = []) then None else Some (NodeLocks ps rs))
      else N !! n').
  { intros n'. unfold forget_node. cbn [node_point_locks node_range_locks].
    destruct ps, rs; destruct (decide (n' = n)) as [->|Hne];
      rewrite ?lookup_delete_eq, ?lookup_insert_eq, ?lookup_delete_ne, ?lookup_insert_ne by done;
      try done; case_decide; naive_solver. }
  split.
  - intros n' nl. rewrite Hlook. destruct (decide (n' = n)) as [->|Hne]; [|by apply HN].
    case_decide as Hempty; [done|]. intros [= <-]. cbn [node_point_locks node_range_locks].
    split_and!; [done|by apply Hmem|]. destruct ps; [right; naive_solver|by left].
  - intros p l Hl. rewrite Hlook. destruct (decide (lock_node_id l = n)) as [Hd|Hd]; [|by eauto].
    case_decide as Hempty; [|by eauto]. exfalso. destruct Hempty as [He _].
    assert (Hp : p ∈ ps) by (apply Hmem; eauto). rewrite He in Hp. by apply elem_of_nil in Hp.
Qed.

Lemma forget_node_range n ps p rs N :
  forget_node n (NodeLocks ps (p :: rs)) N = <[n := NodeLocks ps (p :: rs)]> N.
Proof. unfold forget_node. by destruct ps. Qed.

Lemma new_range_lock_inv now t n from to t' :
  lock_inv t -> new_range_lock now t n from to = Ret t' ->
  lock_inv t' /\ lock_heap t' = lock_heap t.
Proof.
  intros [Hg He HT HN] Hr. unfold new_range_lock, ensure_node_registration in Hr.
  pose proof (nodes_set_range (lock_heap t) (nodes_to_locks t) n) as Hset.
  destruct (nodes_to_locks t !! n) as [nl|] eqn:Hn; cbn [default] in Hset; inv_ret;
    (split; [|done]); split; cbn [locks lock_heap locks_by_timestamp nodes_to_locks set_nodes]; try done.
  - rewrite <- forget_node_range. by apply Hset.
  - rewrite insert_insert_eq, <- forget_node_range. by apply Hset.
Qed.

Lemma range_check_and_set_inv now t n from to res t' :
  lock_inv t -> gzochid_lock_range_check_and_set now t n from to = Ret (res, t') ->
  lock_inv t' /\ lock_heap t' = lock_heap t.
Proof.
  intros Hinv Hr. unfold gzochid_lock_range_check_and_set in Hr.
  apply bind_Ret in Hr as (r & _ & Hr). apply bind_Ret in Hr as (found & _ & Hr).
  destruct found; [by inv_ret|].
  apply bind_Ret in Hr as (iter & _ & Hr). apply bind_Ret in Hr as (c & _ & Hr).
  destruct c; [by inv_ret|]. apply bind_Ret in Hr as (t1 & Hnew & Hr). inv_ret.
  by eapply new_range_lock_inv.
Qed.

Lemma remove_range_lock_inv t p t' :
  lock_inv t -> remove_range_lock t p = Ret t' ->
  lock_inv t' /\ lock_heap t' = lock_heap t.
Proof.
  intros [Hg He HT HN] Hr. unfold remove_range_lock in Hr.
  apply bind_Ret in Hr as (rl & _ & Hr). apply bind_Ret in Hr as (nl & Hnl & Hr).
  apply deref_Ret in Hnl. apply bind_Ret in Hr as (tree & _ & Hr). inv_ret. split; [|done].
  split; cbn [locks lock_heap locks_by_timestamp nodes_to_locks]; try done.
  pose proof (nodes_set_range (lock_heap t) (nodes_to_locks t) (range_node_id rl)
    (delete_link p (node_range_locks nl)) HN) as Hset. by rewrite Hnl in Hset.
Qed.

Lemma release_range_locks_inv l : forall t t',
  lock_inv t -> release_range_locks l t = Ret t' ->
  lock_inv t' /\ lock_heap t' = lock_heap t.
Proof.
  induction l as [|p l IH]; intros t t' Hinv Hr; cbn [release_range_locks] in Hr; [by inv_ret|].
  apply bind_Ret in Hr as (t1 & H1 & Hr). destruct (remove_range_lock_inv _ _ _ Hinv H1) as [Hinv1 <-].
  by apply IH.
Qed.

(** Releasing the point locks of a node one by one. *)
Lemma release_locks_ok n ps : forall t,
  lock_inv t -> NoDup ps ->
  (forall p, p ∈ ps <-> exists l, lock_heap t !! p = Some l /\ lock_node_id l = n) ->
  exists t', release_locks ps t = Ret t' /\ lock_inv t'
    /\ lock_heap t' = filter (fun pl => lock_node_id pl.2 <> n) (lock_heap t)
    /\ range_locks t' = range_locks t /\ range_heap t' = range_heap t.
Proof.
  induction ps as [|p ps IH]; intros t Hinv Hnd Hmem; cbn [release_locks].
  - exists t. split_and!; try done. symmetry. apply map_filter_id. intros p l Hl. cbn. intros Hn.
    assert (Hp : p ∈ ([] : list positive)) by (apply Hmem; eauto). by apply elem_of_nil in Hp.
  - destruct (proj1 (Hmem p)) as (l & Hl & Hn); [apply elem_of_cons; auto|].
    apply NoDup_cons in Hnd as [Hp Hnd].
    destruct (remove_lock_ok t p l Hinv Hl) as (t1 & nl & -> & Hinv1 & Hh1 & Hr1 & Hr2 & _).
    run. destruct (IH t1 Hinv1 Hnd) as (t' & -> & Hinv' & Hh & Hr1' & Hr2').
    { intros q. rewrite Hh1. specialize (Hmem q). rewrite elem_of_cons in Hmem.
      destruct (decide (p = q)) as [<-|Hne].
      - rewrite lookup_delete_eq. split; [done|by intros (? & ? & _)].
      - rewrite lookup_delete_ne by done. naive_solver. }
    exists t'. split_and!; try done; [|congruence..]. rewrite Hh, Hh1.
    apply map_eq. intros q. apply option_eq. intros x.
    rewrite !map_lookup_filter_Some, lookup_delete_Some. cbn. naive_solver.
Qed.

(** ** What the locks of a table are after a call *)

Lemma locked_holds t t' n k w now :
  locked t t' n k w now ->
  forall n' k' w', holds t' n' k' w'
    <-> if decide ((n', k') = (n, k)) then w' = w else holds t n' k' w'.
Proof.
  intros ([_ He _ _] & _ & _ & p & l & Hn & Hk & Hw & _ & Hh & Hold) n' k' w'.
  assert (Hp : lock_heap t' !! p = Some l) by (by rewrite Hh, lookup_insert_eq).
  destruct (decide ((n', k') = (n, k))) as [[= -> ->]|Hne].
  - split.
    + intros (q & x & Hq & Hxn & Hxk & <-).
      assert (q = p) as -> by (eapply He; [done|done|congruence|right; congruence]). congruence.
    + intros ->. by exists p, l.
  - assert (Hother : forall q x, lock_node_id x = n' -> key_of x = k' ->
      lock_heap t' !! q = Some x <-> lock_heap t !! q = Some x).
    { intros q x Hxn Hxk. rewrite Hh. destruct (decide (p = q)) as [<-|Hpq].
      - rewrite lookup_insert_eq. split; [intros [= <-]; congruence|].
        destruct Hold as [->|(l0 & -> & ? & ? & _)]; [done|]. intros [= <-]. congruence.
      - by rewrite lookup_insert_ne. }
    split; intros (q & x & Hq & Hxn & Hxk & Hxw); exists q, x; (split; [by apply Hother|done]).
Qed.

Lemma new_table_inv : lock_inv gzochid_lock_table_new.
Proof.
  split; cbn.
  - exists []. split; [constructor|constructor|apply NoDup_nil_2|].
    intros p. split; [by intros ?%elem_of_nil|by intros [??]].
  - by intros p q lp lq H1.
  - split_and!; [constructor|apply NoDup_nil_2|].
    intros p. split; [by intros ?%elem_of_nil|by intros [??]].
  - by split.
Qed.

Lemma check_and_set_inv now t n key w res t' :
  lock_inv t -> gzochid_lock_check_and_set now t n key w = Ret (res, t') -> lock_inv t'.
Proof.
  intros Hinv Hr. destruct (check_and_set_cases now t n key w Hinv)
    as [[H _]|[(ts & _ & H)|(_ & t1 & (Hinv1 & _) & H)]]; rewrite H in Hr; [by inv_ret..|].
  destruct w; [|by inv_ret]. apply bind_Ret in Hr as ([rl|] & _ & Hr); by inv_ret.
Qed.

Lemma release_cases t n key :
  lock_inv t ->
  (exists p l t', lock_heap t !! p = Some l /\ lock_node_id l = n /\ key_of l = gb_data key
     /\ gzochid_lock_release t n key = Ret t' /\ lock_inv t'
     /\ lock_heap t' = delete p (lock_heap t)
     /\ range_locks t' = range_locks t /\ range_heap t' = range_heap t)
  \/ (gzochid_lock_release t n key = Ret t /\ forall w, ~ holds t n (gb_data key) w).
Proof.
  intros Hinv. pose proof Hinv as [[ks Hg] _ _ _]. unfold gzochid_lock_release.
  destruct (find_locks_spec t ks key Hg)
    as [(K1 & K2 & L1 & ls & L2 & -> & HL & -> & HK & Hgr & Hmem)|(-> & _ & Hno)]; run.
  - assert (Hi : locks t !! length L1 = Some ls) by (by rewrite HL, list_lookup_middle).
    rewrite Hi. run.
    destruct (find_lock_spec (lock_heap t) n (locks_locks ls) (group_in_heap _ _ _ Hgr))
      as [(p & l & -> & Hpin & Hp & Hn)|[-> Hother]]; run.
    + left. destruct (remove_lock_ok t p l Hinv Hp) as (t' & nl & Ht' & Hinv' & Hh & Hr1 & Hr2 & _).
      exists p, l, t'. split_and!; try done. by apply (Hmem p l).
    + right. split; [done|]. intros w (q & x & Hq & Hxn & Hxk & _).
      eapply (Hother q x); [by apply (Hmem q x)|done..].
  - right. split; [done|]. intros w (q & x & Hq & _ & Hxk & _). by eapply Hno.
Qed.

Definition ranges_of (N : gmap Z gzochid_node_locks) (n : Z) : list positive :=
  node_range_locks (default (NodeLocks [] []) (N !! n)).

Lemma ranges_of_forget N n nl ps n' :
  N !! n = Some nl ->
  ranges_of (forget_node n (NodeLocks ps (node_range_locks nl)) N) n' = ranges_of N n'.
Proof.
  intros Hn. unfold ranges_of, forget_node. cbn [node_point_locks node_range_locks].
  destruct ps, (node_range_locks nl) eqn:Hnl; destruct (decide (n = n')) as [<-|Hne];
    rewrite ?lookup_delete_eq, ?lookup_insert_eq, ?lookup_delete_ne, ?lookup_insert_ne by done;
    rewrite ?Hn; cbn; congruence.
Qed.

Lemma release_locks_ranges ps : forall t t' n,
  lock_inv t -> release_locks ps t = Ret t' ->
  ranges_of (nodes_to_locks t') n = ranges_of (nodes_to_locks t) n.
Proof.
  induction ps as [|p ps IH]; intros t t' n Hinv Hr; cbn [release_locks] in Hr; [by inv_ret|].
  apply bind_Ret in Hr as (t1 & H1 & Hr).
  destruct (lock_heap t !! p) as [l|] eqn:Hl; [|by unfold remove_lock in H1; rewrite Hl in H1].
  destruct (remove_lock_ok t p l Hinv Hl) as (t2 & nl & H2 & Hinv2 & _ & _ & _ & Hnl & HN).
  assert (t2 = t1) as -> by congruence. rewrite (IH _ _ n Hinv2 Hr), HN.
  by apply ranges_of_forget.
Qed.

(** The two phases of [gzochid_lock_release_all]. *)
Lemma release_all_cases t n :
  lock_inv t ->
  exists t1, lock_inv t1
    /\ lock_heap t1 = filter (fun pl => lock_node_id pl.2 <> n) (lock_heap t)
    /\ range_locks t1 = range_locks t /\ range_heap t1 = range_heap t
    /\ ranges_of (nodes_to_locks t1) n = ranges_of (nodes_to_locks t) n
    /\ gzochid_lock_release_all t n
       = match nodes_to_locks t1 !! n with
         | Some nl => release_range_locks (node_range_locks nl) t1
         | None => Ret t1
         end.
Proof.
  intros Hinv. pose proof Hinv as [_ _ _ [HN Hr]]. unfold gzochid_lock_release_all.
  destruct (nodes_to_locks t !! n) as [nl|] eqn:Hn.
  - destruct (HN n nl Hn) as (Hnd & Hmem & _).
    destruct (release_locks_ok n (node_point_locks nl) t Hinv Hnd Hmem) as (t1 & Ht1 & Hinv1 & Hh & H1 & H2).
    exists t1. split_and!; try done; [by eapply release_locks_ranges|]. by rewrite Ht1.
  - exists t. split_and!; try done; [|by rewrite Hn]. symmetry. apply map_filter_id.
    intros p l Hl Hln. cbn in Hln. destruct (Hr p l Hl) as [? ?]. congruence.
Qed.

Lemma release_all_inv t n t' :
  lock_inv t -> gzochid_lock_release_all t n = Ret t' ->
  lock_inv t' /\ lock_heap t' = filter (fun pl => lock_node_id pl.2 <> n) (lock_heap t).
Proof.
  intros Hinv Hr. destruct (release_all_cases t n Hinv) as (t1 & Hinv1 & <- & _ & _ & _ & Heq).
  rewrite Heq in Hr. destruct (nodes_to_locks t1 !! n) as [nl|]; [|by inv_ret].
  by eapply release_range_locks_inv.
Qed.

(** ** Properties of point locks *)

(** A call of one of the operations that returns. *)
Inductive lock_step : gzochid_lock_table -> gzochid_lock_table -> Prop :=
| step_check_and_set now t n key w res t' :
    gzochid_lock_check_and_set now t n key w = Ret (res, t') -> lock_step t t'
| step_range_check_and_set now t n from to res t' :
    gzochid_lock_range_check_and_set now t n from to = Ret (res, t') -> lock_step t t'
| step_release t n key t' : gzochid_lock_release t n key = Ret t' -> lock_step t t'
| step_release_range t n from to t' :
    gzochid_lock_release_range t n from to = Ret t' -> lock_step t t'
| step_release_all t n t' : gzochid_lock_release_all t n = Ret t' -> lock_step t t'.

Lemma lock_step_inv t t' : lock_step t t' -> lock_inv t -> lock_inv t'.
Proof.
  intros Hstep Hinv.
  destruct Hstep as [now t n key w res t' H|now t n from to res t' H|t n key t' H|t n from to t' H|t n t' H].
  - by eapply check_and_set_inv.
  - by eapply range_check_and_set_inv.
  - destruct (release_cases t n key Hinv) as [(? & ? & t1 & _ & _ & _ & H' & ? & _)|[H' _]];
      rewrite H' in H; by inv_ret.
  - unfold gzochid_lock_release_range in H. apply bind_Ret in H as (r & _ & H).
    apply bind_Ret in H as ([p|] & _ & H); [|by inv_ret].
    by eapply remove_range_lock_inv.
  - by eapply release_all_inv.
Qed.

(** C1. Mutual exclusion.  In every table that any sequence of calls of the
    lock table's operations produces from a new one, by any nodes, on any keys
    and key ranges and at any times, a key that a node holds for writing is held
    by no other node, neither for writing nor for reading. *)
Theorem lock_mutual_exclusion (t : gzochid_lock_table) (k : bytes) (n1 n2 : Z) (w : bool) :
  rtc lock_step gzochid_lock_table_new t ->
  holds t n1 k true -> holds t n2 k w -> n2 = n1 /\ w = true.
Proof.
  intros Hreach H1 H2.
  assert (Hinv : lock_inv t).
  { revert Hreach. apply rtc_ind_r; [apply new_table_inv|]. intros y z _ Hs Hy.
    by eapply lock_step_inv. }
  destruct Hinv as [_ He _ _]. destruct H1 as (p & l & Hp & <- & Hk & Hw), H2 as (q & x & Hq & <- & Hxk & <-).
  assert (p = q) as <- by (eapply He; [done|done|congruence|by left]). by simplify_eq.
Qed.

(** Asking for a point lock always returns, and succeeds exactly if the node
    has it already or no other node's lock stands in its way: another node's
    lock on the key (any, for writing; a write lock, for reading) or, for writing,
    another node's range lock that covers the key.  On success the node holds the
    key in the mode asked for and no other lock changes; on failure the table is
    unchanged and the time of a lock that stands in the way is given back, which
    for range locks is the most recent one. *)
Theorem lock_check_and_set_spec (now : timeval) (t : gzochid_lock_table)
    (tr : tree (option gbytes) positive) (n : Z) (key : gbytes) (w : bool) :
  lock_inv t -> range_inv t tr ->
  exists res t', gzochid_lock_check_and_set now t n key w = Ret (res, t')
    /\ lock_inv t' /\ range_inv t' tr
    /\ if res.1
       then res.2 = None
         /\ ((t' = t /\ exists w', holds t n (gb_data key) w' /\ (w' = true \/ w = false))
             \/ ((forall ts, ~ point_conflict t n (gb_data key) w ts)
                 /\ (w = true -> forall rl, ~ covering t tr n key rl)
                 /\ forall n' k' w', holds t' n' k' w'
                    <-> if decide ((n', k') = (n, gb_data key)) then w' = w else holds t n' k' w'))
       else t' = t
         /\ exists ts, res.2 = Some ts
         /\ (point_conflict t n (gb_data key) w ts
             \/ (w = true /\ exists rl, covering t tr n key rl /\ ts = range_timestamp rl
                 /\ forall rl', covering t tr n key rl' ->
                    timercmp_lt (range_timestamp rl) (range_timestamp rl') = false)).
Proof.
  intros Hinv Hrange. destruct (check_and_set_cases now t n key w Hinv)
    as [[-> Hhold]|[(ts & Hc & ->)|(Hno & t1 & Hl & ->)]].
  - exists lock_success, t. split_and!; try done. split; [done|]. by left.
  - exists (lock_failure ts), t. split_and!; try done. split; [done|]. eauto.
  - pose proof (locked_holds _ _ _ _ _ _ Hl) as Hholds. destruct Hl as (Hinv1 & Hr1 & Hr2 & _).
    assert (Hrange1 : range_inv t1 tr) by (unfold range_inv; by rewrite Hr1, Hr2).
    destruct w.
    + destruct (most_recent_spec t tr key n Hrange) as ([rl|] & -> & Hspec); run.
      * exists (lock_failure (range_timestamp rl)), t. split_and!; try done.
        split; [done|]. eexists. split; [done|]. right. split; [done|]. exists rl. by destruct Hspec.
      * exists lock_success, t1. split_and!; try done. split; [done|]. right. by split_and!.
    + exists lock_success, t1. split_and!; try done. split; [done|]. right. by split_and!.
Qed.

(** The check for a point lock says whether the node holds the key for
    writing or, if it asks for reading, holds it at all. *)
Theorem lock_check_spec (t : gzochid_lock_table) (n : Z) (key : gbytes) (w : bool) :
  lock_inv t ->
  exists b, gzochid_lock_check t n key w = Ret b
    /\ (b = true <-> exists w', holds t n (gb_data key) w' /\ (w' = true \/ w = false)).
Proof.
  intros [[ks Hg] He _ _]. unfold gzochid_lock_check.
  destruct (find_locks_spec t ks key Hg)
    as [(K1 & K2 & L1 & ls & L2 & -> & HL & -> & HK & Hgr & Hmem)|(-> & _ & Hno)]; run.
  - assert (Hi : locks t !! length L1 = Some ls) by (by rewrite HL, list_lookup_middle).
    rewrite Hi. run. rewrite (group_nonempty _ _ _ Hgr). run.
    destruct (find_lock_spec (lock_heap t) n (locks_locks ls) (group_in_heap _ _ _ Hgr))
      as [(p & l & -> & Hpin & Hp & Hn)|[-> Hother]]; run.
    + rewrite Hp. run. eexists. split; [done|].
      assert (Hkey : key_of l = gb_data key) by (by apply (Hmem p l)).
      rewrite orb_true_iff, negb_true_iff. split.
      * intros Hor. exists (lock_for_write l). split; [by exists p, l|done].
      * intros (w' & (q & x & Hq & Hxn & Hxk & <-) & Hor).
        assert (q = p) as -> by (eapply He; [done|done|congruence|right; congruence]).
        by simplify_eq.
    + exists false. split; [done|]. split; [done|]. intros (w' & (q & x & Hq & Hxn & Hxk & _) & _).
      exfalso. eapply (Hother q x); [by apply (Hmem q x)|done..].
  - exists false. split; [done|]. split; [done|]. intros (w' & (q & x & Hq & _ & Hxk & _) & _).
    exfalso. by eapply Hno.
Qed.

(** Releasing a point lock always returns and takes the node's lock on the
    key, and no other, out of the table. *)
Theorem lock_release_spec (t : gzochid_lock_table) (n : Z) (key : gbytes) :
  lock_inv t ->
  exists t', gzochid_lock_release t n key = Ret t' /\ lock_inv t'
    /\ range_locks t' = range_locks t /\ range_heap t' = range_heap t
    /\ forall n' k' w, holds t' n' k' w <-> holds t n' k' w /\ (n', k') <> (n, gb_data key).
Proof.
  intros Hinv. pose proof Hinv as [_ He _ _].
  destruct (release_cases t n key Hinv) as [(p & l & t' & Hp & Hn & Hk & Hr & Hinv' & Hh & H1 & H2)|[Hr Hno]].
  - exists t'. split_and!; try done. intros n' k' w. unfold holds. rewrite Hh. split.
    + intros (q & x & [Hqp Hq]%lookup_delete_Some & <- & <- & Hw).
      split; [by exists q, x|]. intros [= Hxn Hxk]. apply Hqp.
      eapply He; [done|done|congruence|right; congruence].
    + intros [(q & x & Hq & <- & <- & Hw) Hne]. exists q, x. split; [|done].
      rewrite lookup_delete_ne; [done|]. intros ->. apply Hne. simplify_eq. by rewrite Hk.
  - exists t. split_and!; try done. intros n' k' w. split; [|by intros [? _]].
    intros Hh. split; [done|]. intros [= -> ->]. by eapply Hno.
Qed.

(** Releasing everything a node holds: if the call returns, no point lock of
    the node is left and every other lock is; it does return, and forgets the
    node, if the node holds no range lock. *)
Theorem lock_release_all_spec (t : gzochid_lock_table) (n : Z) :
  lock_inv t ->
  (forall t', gzochid_lock_release_all t n = Ret t' -> lock_inv t'
     /\ forall n' k w, holds t' n' k w <-> holds t n' k w /\ n' <> n)
  /\ (ranges_of (nodes_to_locks t) n = [] ->
      exists t', gzochid_lock_release_all t n = Ret t' /\ nodes_to_locks t' !! n = None
        /\ range_locks t' = range_locks t /\ range_heap t' = range_heap t).
Proof.
  intros Hinv. split.
  - intros t' Hr. destruct (release_all_inv t n t' Hinv Hr) as [Hinv' Hh]. split; [done|].
    intros n' k w. unfold holds. rewrite Hh. split.
    + intros (p & l & Hp & <- & Hk & Hw). apply map_lookup_filter_Some in Hp as [Hp Hn].
      split; [by exists p, l|done].
    + intros [(p & l & Hp & <- & Hk & Hw) Hn]. exists p, l. by rewrite map_lookup_filter_Some.
  - intros Hrs. destruct (release_all_cases t n Hinv) as (t1 & Hinv1 & Hh & H1 & H2 & H3 & Heq).
    rewrite Hrs in H3. rewrite Heq. destruct Hinv1 as [_ _ _ [HN Hr]].
    destruct (nodes_to_locks t1 !! n) as [nl|] eqn:Hn; [|by exists t1].
    exfalso. unfold ranges_of in H3. rewrite Hn in H3. cbn in H3.
    destruct (HN n nl Hn) as (_ & Hmem & [Hne|Hne]); [|done].
    destruct (node_point_locks nl) as [|p ps]; [done|].
    destruct (proj1 (Hmem p)) as (l & Hl & Hln); [apply elem_of_cons; auto|].
    rewrite Hh in Hl. by apply map_lookup_filter_Some in Hl as [_ Hl].
Qed.

(** ** Intervals of keys *)

(** The keys of an interval, whose missing bounds are unbounded. *)
Definition in_interval (lower upper : option gbytes) (k : gbytes) : Prop :=
  0 <= range_lower_comparator (Some k) lower /\ range_upper_comparator (Some k) upper <= 0.

Definition valid_interval (lower upper : option gbytes) : Prop :=
  match lower, upper with
  | Some l, Some u => bytes_compare (gb_data l) (gb_data u) <= 0
  | _, _ => True
  end.

Definition overlapping (from to : option gbytes) (e : option gbytes * option gbytes * positive)
    : bool :=
  ((0 <=? range_lower_comparator from e.1.1) && (range_upper_comparator from e.1.2 <=? 0))
  || ((0 <=? range_lower_comparator to e.1.1) && (range_upper_comparator to e.1.2 <=? 0))
  || ((range_lower_comparator from e.1.1 <=? 0) && (0 <=? range_upper_comparator to e.1.2)).

(** With a lower bound, the test of the interval tree says whether two intervals
    share a key. *)
Lemma overlapping_spec f to lo up d :
  valid_interval (Some f) to -> valid_interval lo up ->
  overlapping (Some f) to (lo, up, d) = true
  <-> exists k, in_interval (Some f) to k /\ in_interval lo up k.
Proof.
  intros Hto He. unfold overlapping, in_interval, range_lower_comparator, range_upper_comparator.
  cbn [fst snd fmap option_fmap option_map].
  rewrite !orb_true_iff, !andb_true_iff, !Z.leb_le.
  assert (Hle : forall a b, 0 <= bytes_compare a b <-> bytes_compare b a <= 0).
  { intros a b. pose proof (bytes_compare_sym a b). lia. }
  pose proof (bytes_compare_refl (gb_data f)) as Hf.
  assert (Htr : forall a b c, bytes_compare a b <= 0 -> bytes_compare b c <= 0 -> bytes_compare a c <= 0)
    by apply bytes_compare_le_trans.
  assert (Htot : forall a b, bytes_compare a b <= 0 \/ bytes_compare b a <= 0).
  { intros a b. pose proof (bytes_compare_sym a b). lia. }
  assert (Hrefl : forall a, bytes_compare a a <= 0) by (intros a; rewrite bytes_compare_refl; lia).
  assert (Hff : 0 <= bytes_compare (gb_data f) (gb_data f)
    /\ gzochid_util_bytes_compare_null_last (Some (gb_data f)) (gb_data <$> to) <= 0).
  { rewrite Hf. destruct to; cbn in *; [done|lia]. }
  split.
  - intros [[[H1 H2]|[H1 H2]]|[H1 H2]].
    + by exists f.
    + destruct to as [x|].
      * exists x. cbn in *. rewrite Hle. auto.
      * exists f. split; [done|]. destruct lo, up; cbn in *; lia.
    + destruct lo as [l|]; [|cbn in H1; lia]. exists l.
      destruct to as [x|], up as [u|]; cbn in *; rewrite ?Hle in *;
        split; split; auto; try lia. by eapply Htr.
  - intros (k & [H1 H2] & H3 & H4). cbn in H1.
    destruct (Z.le_ge_cases 0 (gzochid_util_bytes_compare_null_first (Some (gb_data f)) (gb_data <$> lo)))
      as [Hlo|Hlo].
    + left. left. split; [done|]. destruct up as [u|]; cbn in *; [|lia].
      rewrite Hle in H1. by eapply Htr.
    + destruct (Z.lt_ge_cases (gzochid_util_bytes_compare_null_last (gb_data <$> to) (gb_data <$> up)) 0)
        as [Hup|Hup]; [|by right].
      left. right. destruct to as [x|]; [|destruct up; cbn in Hup; lia]. split; [|lia].
      destruct lo as [l|]; cbn in *; [|lia]. rewrite Hle in *. by eapply Htr.
Qed.

Lemma valid_before f lo up :
  valid_interval lo up -> 0 < range_upper_comparator (Some f) up ->
  0 < range_lower_comparator (Some f) lo.
Proof.
  unfold range_upper_comparator, range_lower_comparator.
  destruct lo as [l|], up as [u|]; cbn; intros Hv Hu; try lia.
  pose proof (bytes_compare_sym (gb_data f) (gb_data l)).
  pose proof (bytes_compare_sym (gb_data f) (gb_data u)).
  pose proof (cmp_le_lt_trans bytes_compare (gb_data l) (gb_data u) (gb_data f)). lia.
Qed.

(** ** Range locks under the invariant *)

Definition share_key (a b : option gbytes * option gbytes * positive) : Prop :=
  exists k, in_interval a.1.1 a.1.2 k /\ in_interval b.1.1 b.1.2 k.

(** The range locks of different nodes have no key in common. *)
Definition disjoint_owners (h : gmap positive gzochid_range_lock)
    (l : list (option gbytes * option gbytes * positive)) : Prop :=
  forall a b ra rb, a ∈ l -> b ∈ l -> h !! a.2 = Some ra -> h !! b.2 = Some rb ->
    range_node_id ra <> range_node_id rb -> ~ share_key a b.

(** Well-formed range locks, in a tree that insertions have built. *)
Record range_ok (t : gzochid_lock_table) (tr : tree (option gbytes) positive) : Prop := {
  range_ok_inv : range_inv t tr;
  range_ok_balanced : forall p, balanced_at (nodes (range_locks t)) p;
  range_ok_valid : Forall (fun e => valid_interval e.1.1 e.1.2) (elements tr);
  range_ok_disjoint : disjoint_owners (range_heap t) (elements tr)
}.

Lemma find_overlapping_spec h n (l : list (option gbytes * option gbytes * positive)) :
  Forall (fun e => is_Some (h !! e.2)) l ->
  exists r, run_until (find_overlapping_range_lock h n) l (Ret None) = Ret r
    /\ match r with
       | Some rl => exists e, e ∈ l /\ foreign h n e.2 rl
       | None => forall e rl, e ∈ l -> ~ foreign h n e.2 rl
       end.
Proof.
  induction 1 as [|[[lo up] d] l [rl Hd] _ IH]; cbn [run_until].
  - exists None. split; [done|]. by intros ? ? ?%elem_of_nil.
  - cbn [snd] in Hd. unfold find_overlapping_range_lock at 1. rewrite Hd.
    destruct (Z.eqb_spec (range_node_id rl) n) as [Hn|Hn].
    + destruct IH as (r & -> & Hr). exists r. split; [done|]. destruct r as [rl'|].
      * destruct Hr as (e & He & Hf). exists e. split; [apply elem_of_cons; auto|done].
      * intros e rl' [->|He]%elem_of_cons; [|by apply Hr]. intros [Hd' Hn']. cbn in Hd'. congruence.
    + exists (Some rl). split; [done|]. exists (lo, up, d). split; [apply elem_of_cons; auto|done].
Qed.

Lemma search_overlapping_spec t tr n f to :
  range_ok t tr -> valid_interval (Some f) to ->
  exists r, gzochid_itree_search_interval range_lower_comparator range_upper_comparator
      (range_locks t) (Some f) to (find_overlapping_range_lock (range_heap t) n) (Ret None) = Ret (Ret r)
    /\ match r with
       | Some rl => exists e, e ∈ elements tr /\ foreign (range_heap t) n e.2 rl
           /\ share_key (Some f, to, e.2) e
       | None => forall e rl, e ∈ elements tr -> foreign (range_heap t) n e.2 rl ->
           ~ share_key (Some f, to, e.2) e
       end.
Proof.
  intros [[Hok Hdata] _ Hvalid _] Hv.
  rewrite (itree_search_interval_complete _ _ _ tr);
    [|done|eapply Forall_impl; [exact Hvalid|]; intros [[lo up] d]; apply valid_before].
  change (fun e : option gbytes * option gbytes * positive => _ || _) with (overlapping (Some f) to).
  assert (Hsel : forall e, e ∈ List.filter (overlapping (Some f) to) (elements tr)
    <-> e ∈ elements tr /\ share_key (Some f, to, e.2) e).
  { intros [[lo up] d]. rewrite !list_elem_of_In, filter_In, <- !list_elem_of_In.
    split; intros [He Ho]; (split; [done|]); rewrite Forall_forall in Hvalid;
      specialize (Hvalid _ He); by apply (overlapping_spec f to lo up d). }
  destruct (find_overlapping_spec (range_heap t) n (List.filter (overlapping (Some f) to) (elements tr)))
    as (r & -> & Hr).
  { rewrite Forall_forall in *. intros e He. by apply Hdata, Hsel. }
  exists r. split; [done|]. destruct r as [rl|].
  - destruct Hr as (e & [He Hs]%Hsel & Hf). eauto.
  - intros e rl He Hf Hs. eapply Hr; [|exact Hf]. by apply Hsel.
Qed.

Lemma find_write_lock_spec h n ks L :
  Forall2 (group_ok h) ks L -> excl_ok h ->
  exists r, find_write_lock h n L = Ret r
    /\ match r with
       | Some l => exists p, p ∈ pointers L /\ h !! p = Some l /\ lock_for_write l = true
           /\ lock_node_id l <> n
       | None => forall p l, p ∈ pointers L -> h !! p = Some l -> lock_for_write l = true ->
           lock_node_id l = n
       end.
Proof.
  intros Hg He. induction Hg as [|k ls ks L [Hne Hall] _ (r & Hr & IH)]; cbn [find_write_lock].
  - exists None. split; [done|]. by intros ? ? ?%elem_of_nil.
  - destruct (locks_locks ls) as [|a rest] eqn:Hls; [done|].
    pose proof Hall as Hall'. apply Forall_cons_1 in Hall' as [(l & Ha & Hk) _].
    cbn [head]. run. rewrite Ha. run.
    assert (Hptr : forall p, p ∈ pointers (ls :: L) <-> p ∈ a :: rest \/ p ∈ pointers L).
    { intros p. by rewrite pointers_cons, elem_of_app, Hls. }
    destruct (lock_for_write l && negb (lock_node_id l =? n)) eqn:Hw.
    + apply andb_true_iff in Hw as [Hw Hn%negb_true_iff%Z.eqb_neq].
      exists (Some l). split; [done|]. exists a. rewrite Hptr, elem_of_cons. auto.
    + exists r. split; [done|]. destruct r as [x|].
      * destruct IH as (p & Hp & Hrest). exists p. rewrite Hptr. auto.
      * intros p x [Hp|Hp]%Hptr Hx Hxw; [|by eapply IH].
        rewrite Forall_forall in Hall. destruct (Hall p Hp) as (x' & Hx' & Hxk).
        assert (p = a) as -> by (apply (He p a x l Hx Ha); [congruence|by left]).
        simplify_eq. rewrite Hxw in Hw. cbn in Hw. apply negb_false_iff in Hw. lia.
Qed.

(** A table with one more range lock, which no other node's overlaps. *)
Lemma new_range_lock_ok now t tr n f to :
  range_ok t tr -> valid_interval (Some f) to ->
  (forall e rl, e ∈ elements tr -> foreign (range_heap t) n e.2 rl ->
     ~ share_key (Some f, to, e.2) e) ->
  exists t' tr', new_range_lock now t n (Some f) to = Ret t' /\ range_ok t' tr'
    /\ exists e, e ∈ elements tr' /\ range_heap t' !! e.2 = Some (RangeLock n (Some f) to now)
       /\ same_key range_lower_comparator range_upper_comparator (Some f) to e = true.
Proof.
  intros [[Hok Hdata] Hbal Hvalid Hdisj] Hv Hno. unfold new_range_lock.
  destruct (ensure_node_registration t n) as [nl t0] eqn:Hens.
  assert (Ht0 : range_heap t0 = range_heap t /\ range_locks t0 = range_locks t).
  { unfold ensure_node_registration in Hens. by destruct (nodes_to_locks t !! n); simplify_eq. }
  destruct Ht0 as [-> ->]. set (d := fresh (dom (range_heap t))).
  assert (Hd : range_heap t !! d = None) by apply not_elem_of_dom, is_fresh.
  destruct (itree_insert_refines range_lower_comparator range_upper_comparator
    (range_locks t) tr (Some f) to d Hok Hbal) as (tree' & tr' & -> & Hok' & Hbal' & Hel).
  run. eexists _, tr'. split; [done|].
  set (rl := RangeLock n (Some f) to now).
  assert (Hnew : exists lo up rest, elements tr' ≡ₚ (lo, up, d) :: rest /\ rest ⊆ elements tr
    /\ valid_interval lo up
    /\ same_key range_lower_comparator range_upper_comparator (Some f) to (lo, up, d) = true
    /\ forall e, e ∈ elements tr -> share_key (lo, up, d) e -> share_key (Some f, to, e.2) e).
  { rewrite Forall_forall in Hvalid. destruct Hel as [(e & rest & H1 & Hk & H2)|[_ H2]].
    - destruct e as [[lo up] d0]. exists lo, up, rest.
      assert (Hin : (lo, up, d0) ∈ elements tr) by (rewrite H1; apply elem_of_cons; auto).
      split_and!; [done| |by apply (Hvalid _ Hin)|done|].
      { intros x Hx. rewrite H1. apply elem_of_cons; auto. }
      intros e He (k & Hk1 & Hk2). exists k. split; [|done]. cbn [fst snd] in *.
      unfold same_key in Hk. cbn [fst snd] in Hk.
      apply andb_true_iff in Hk as [Hl%Z.eqb_eq Hu%Z.eqb_eq]. destruct Hk1 as [H3 H4].
      pose proof (cmp_sym (cmp := range_lower_comparator) (Some k) (Some f)).
      pose proof (cmp_sym (cmp := range_lower_comparator) (Some k) lo).
      pose proof (cmp_sym (cmp := range_upper_comparator) to up). split.
      + pose proof (cmp_trans (cmp := range_lower_comparator) (Some f) lo (Some k)). lia.
      + pose proof (cmp_trans (cmp := range_upper_comparator) (Some k) up to). lia.
    - exists (Some f), to, (elements tr). split_and!; try done.
      unfold same_key. cbn [fst snd]. by rewrite !cmp_refl by apply _. }
  destruct Hnew as (lo & up & rest & Hperm & Hrest & Hval & Hkey & Hshare).
  rewrite Forall_forall in Hdata.
  assert (Hold : forall e, e ∈ rest -> e.2 <> d).
  { intros e He Hed. destruct (Hdata e (Hrest e He)) as [x Hx]. congruence. }
  split; [|exists (lo, up, d); cbn [range_heap snd]; rewrite Hperm, elem_of_cons, lookup_insert_eq; auto].
  split; cbn [range_locks range_heap]; try done.
  - split; [done|]. cbn [range_heap]. rewrite Hperm. constructor; [cbn; by rewrite lookup_insert_eq|].
    apply Forall_forall. intros e He. rewrite lookup_insert_ne by (intros Hx; by apply (Hold e He)).
    by apply Hdata, Hrest.
  - rewrite Hperm. constructor; [done|]. rewrite Forall_forall in *. intros e He. by apply Hvalid, Hrest.
  - intros a b ra rb Ha Hb Hra Hrb Hne.
    rewrite Hperm in Ha, Hb. apply elem_of_cons in Ha as [->|Ha]; apply elem_of_cons in Hb as [->|Hb];
      cbn [snd] in *; rewrite ?lookup_insert_eq in *;
      rewrite ?(lookup_insert_ne _ d) in Hra by (intros Hx; by apply (Hold a Ha));
      rewrite ?(lookup_insert_ne _ d) in Hrb by (intros Hx; by apply (Hold b Hb)).
    + by simplify_eq.
    + injection Hra as <-. intros Hs. eapply (Hno b rb); [by apply Hrest|by split|].
      by apply Hshare; [apply Hrest|].
    + injection Hrb as <-. intros (k & Hk1 & Hk2). eapply (Hno a ra); [by apply Hrest|by split|].
      apply Hshare; [by apply Hrest|]. by exists k.
    + by eapply Hdisj; eauto.
Qed.

Lemma group_key_in h ks L p l :
  Forall2 (group_ok h) ks L -> p ∈ pointers L -> h !! p = Some l -> key_of l ∈ ks.
Proof.
  intros Hk Hin Hp. apply list_elem_of_bind in Hin as (ls & Hpl & Hls).
  apply list_elem_of_lookup in Hls as [j Hj].
  destruct (Forall2_lookup_r _ _ _ _ _ Hk Hj) as (k & Hk' & _ & Hall).
  rewrite Forall_forall in Hall. destruct (Hall p Hpl) as (l' & Hl' & <-).
  apply list_elem_of_lookup. exists j. congruence.
Qed.

(** From the lock list of a key on, the locks are those on that key or a later
    one. *)
Lemma groups_from h K1 k K2 L1 ls L2 p l :
  groups_ok h (K1 ++ k :: K2) (L1 ++ ls :: L2) -> length K1 = length L1 -> h !! p = Some l ->
  p ∈ pointers (ls :: L2) <-> bytes_compare k (key_of l) <= 0.
Proof.
  intros [Hk Hs _ Hd] Hlen Hp. apply Forall2_app_inv in Hk as [H1 H2]; [|done].
  apply StronglySorted_app_iff in Hs as (_ & Hs2 & H12).
  apply StronglySorted_inv in Hs2 as [_ Hs2]. rewrite Forall_forall in Hs2. split.
  - intros Hin. pose proof (group_key_in _ _ _ _ _ H2 Hin Hp) as Hkey.
    apply elem_of_cons in Hkey as [->|Hkey]; [rewrite bytes_compare_refl; lia|].
    specialize (Hs2 _ Hkey). simpl in Hs2. lia.
  - intros Hle. assert (Hin : p ∈ pointers (L1 ++ ls :: L2)) by (apply Hd; eauto).
    rewrite pointers_app in Hin. apply elem_of_app in Hin as [Hin|Hin]; [|done].
    pose proof (group_key_in _ _ _ _ _ H1 Hin Hp) as Hkey.
    specialize (H12 _ k Hkey ltac:(apply elem_of_cons; auto)). simpl in H12.
    pose proof (bytes_compare_sym k (key_of l)). lia.
Qed.

(** Asking for a range lock with a lower bound, on range locks that only
    insertions have built.  The call returns and no point lock changes.  It
    succeeds only if no other node's range lock shares a key with the range, and,
    if there is a lock on the lower bound itself, no other node holds a write lock
    on that key or a later one; the range lock is then in the tree, and the range
    locks of different nodes are still disjoint.  On failure the table is
    unchanged and the time of the range lock or write lock in the way is given
    back. *)
Theorem lock_range_check_and_set_spec (now : timeval) (t : gzochid_lock_table)
    (tr : tree (option gbytes) positive) (n : Z) (f : gbytes) (to : option gbytes) :
  lock_inv t -> range_ok t tr -> valid_interval (Some f) to ->
  exists res t' tr', gzochid_lock_range_check_and_set now t n (Some f) to = Ret (res, t')
    /\ lock_inv t' /\ range_ok t' tr' /\ lock_heap t' = lock_heap t
    /\ if res.1
       then res.2 = None
         /\ (forall e rl, e ∈ elements tr -> foreign (range_heap t) n e.2 rl ->
             ~ share_key (Some f, to, e.2) e)
         /\ ((exists n' w, holds t n' (gb_data f) w) -> forall n' k, holds t n' k true ->
             bytes_compare (gb_data f) k <= 0 -> n' = n)
         /\ exists e, e ∈ elements tr' /\ range_heap t' !! e.2 = Some (RangeLock n (Some f) to now)
            /\ same_key range_lower_comparator range_upper_comparator (Some f) to e = true
       else t' = t /\ exists ts, res.2 = Some ts
         /\ ((exists e rl, e ∈ elements tr /\ foreign (range_heap t) n e.2 rl
                /\ share_key (Some f, to, e.2) e /\ ts = range_timestamp rl)
             \/ exists p l, lock_heap t !! p = Some l /\ lock_node_id l <> n
                /\ lock_for_write l = true /\ bytes_compare (gb_data f) (key_of l) <= 0
                /\ ts = lock_timestamp l).
Proof.
  intros Hinv Hrange Hv. pose proof Hinv as [[ks Hg] He _ _].
  destruct (search_overlapping_spec t tr n f to Hrange Hv) as (found & Hsearch & Hfound).
  pose proof (fun r t' => range_check_and_set_inv now t n (Some f) to r t' Hinv) as Hkeep.
  unfold gzochid_lock_range_check_and_set in *. rewrite Hsearch in *.
  cbn [mbind outcome_bind] in *. destruct found as [rl|].
  { exists (lock_failure (range_timestamp rl)), t, tr. split_and!; try done. split; [done|].
    destruct Hfound as (e & Hein & Hf & Hs). eexists. split; [done|]. left. eauto 10. }
  assert (Hpoint : exists iter c, find_locks_by_key t (Some f) = Ret iter
    /\ match iter with
       | Some i => find_write_lock (lock_heap t) n (drop i (locks t))
       | None => Ret None
       end = Ret c
    /\ match c with
       | Some l => exists p, lock_heap t !! p = Some l /\ lock_node_id l <> n
           /\ lock_for_write l = true /\ bytes_compare (gb_data f) (key_of l) <= 0
       | None => (exists n' w, holds t n' (gb_data f) w) -> forall n' k, holds t n' k true ->
           bytes_compare (gb_data f) k <= 0 -> n' = n
       end).
  { destruct (find_locks_spec t ks f Hg)
      as [(K1 & K2 & L1 & ls & L2 & -> & HL & Hfind & HK & Hgr & Hmem)|(Hfind & _ & Hno)].
    - rewrite HL in Hg. pose proof Hg as [Hk _ _ _].
      apply Forall2_app_inv in Hk as [_ Hk]; [|done].
      destruct (find_write_lock_spec (lock_heap t) n _ _ Hk He) as (c & Hw & Hc).
      exists (Some (length L1)), c. split; [done|]. run. rewrite HL, drop_app_length.
      split; [done|]. destruct c as [l|].
      + destruct Hc as (p & Hp & Hl & Hxw & Hn). exists p. split_and!; try done.
        by apply (groups_from _ _ _ _ _ _ _ _ _ Hg HK Hl).
      + intros _ n' k (p & l & Hp & <- & <- & Hxw) Hle. eapply Hc; [|done..].
        by apply (groups_from _ _ _ _ _ _ _ _ _ Hg HK Hp).
    - exists None, None. split_and!; try done.
      intros (n' & w & p & l & Hp & _ & Hk & _). by edestruct Hno. }
  destruct Hpoint as (iter & c & Hiter & Hc & Hspec). rewrite Hiter in *. run.
  cbn [mbind outcome_bind] in Hkeep. rewrite Hc in *. run. cbn [mbind outcome_bind] in Hkeep.
  destruct c as [l|].
  { exists (lock_failure (lock_timestamp l)), t, tr. split_and!; try done. split; [done|].
    eexists. split; [done|]. right. destruct Hspec as (p & Hp). exists p, l. by naive_solver. }
  destruct (new_range_lock_ok now t tr n f to Hrange Hv Hfound) as (t' & tr' & Hnew & Hok' & Hin).
  rewrite Hnew in *. cbn [mbind outcome_bind] in *.
  destruct (Hkeep _ _ eq_refl) as [Hinv' Hh'].
  exists lock_success, t', tr'. by split_and!.
Qed.

Lemma find_owner_none h n from u (l : list (option gbytes * option gbytes * positive)) :
  Forall (fun e => is_Some (h !! e.2) /\ e.1.2 = None) l ->
  run_until (find_range_lock_with_owner h n from (Some u)) l (Ret None) = Ret None.
Proof.
  induction 1 as [|[[lo up] d] l [[rl Hd] Hup] _ IH]; [done|]. cbn [run_until fst snd] in *.
  unfold find_range_lock_with_owner at 1. rewrite Hd, Hup.
  replace (range_upper_comparator (Some u) None =? 0) with false by done.
  by rewrite andb_false_r.
Qed.

(** A range lock that is unbounded below and bounded above is never
    released by its bounds: the release looks for it by its lower bound as a
    point, which lies beyond the upper bound of every such lock, and returns
    leaving the table as it is. *)
Theorem lock_release_range_unbounded_below (t : gzochid_lock_table)
    (tr : tree (option gbytes) positive) (n : Z) (u : gbytes) :
  range_inv t tr -> gzochid_lock_release_range t n None (Some u) = Ret t.
Proof.
  intros [Hok Hdata]. unfold gzochid_lock_release_range.
  rewrite (itree_search_complete _ _ _ tr) by done. run.
  rewrite find_owner_none; [done|]. rewrite Forall_forall in *. intros [[lo up] d].
  rewrite list_elem_of_In, filter_In, <- list_elem_of_In. intros [He Hf].
  split; [by apply (Hdata _ He)|]. cbn [fst snd] in *.
  apply andb_true_iff in Hf as [_ Hf%Z.leb_le]. by destruct up.
Qed.

(** ** Concrete tables *)

Definition key_a : gbytes := GBytes 1 [97].
Definition key_b : gbytes := GBytes 2 [98].
Definition key_c : gbytes := GBytes 3 [99].
Definition key_z : gbytes := GBytes 4 [122].

(** Node 1 holds the key "b" for writing. *)
Definition sample_table : gzochid_lock_table :=
  match gzochid_lock_check_and_set (Timeval 10 0) gzochid_lock_table_new 1 key_b true with
  | Ret (_, t) => t
  | _ => gzochid_lock_table_new
  end.

Lemma sample_table_eq :
  gzochid_lock_check_and_set (Timeval 10 0) gzochid_lock_table_new 1 key_b true
  = Ret (lock_success, sample_table).
Proof. vm_compute. reflexivity. Qed.

Lemma sample_table_inv : lock_inv sample_table.
Proof. eapply check_and_set_inv; [apply new_table_inv | apply sample_table_eq]. Qed.

Lemma sample_table_holds : holds sample_table 1 (gb_data key_b) true.
Proof.
  exists 1%positive, (Lock 1 key_b true (Timeval 10 0)). split_and!; vm_compute; reflexivity.
Qed.

Lemma new_itree_ok :
  itree_ok range_lower_comparator range_upper_comparator
    (gzochid_itree_new : gzochid_itree (option gbytes) positive) Tip.
Proof.
  split; cbn; [done|apply NoDup_nil_2| |done|by intros p n].
  intros p. split; [by intros ?%elem_of_nil|by intros [??]].
Qed.

Lemma sample_range_ok : range_ok sample_table Tip.
Proof.
  assert (Hr : range_locks sample_table = gzochid_itree_new) by (vm_compute; reflexivity).
  split; [split| | |].
  - rewrite Hr. apply new_itree_ok.
  - constructor.
  - rewrite Hr. by intros p n.
  - constructor.
  - by intros a b ra rb ?%elem_of_nil.
Qed.

(** The test for write locks inside a range only starts if there is a lock
    on the lower bound, and it does not stop at the upper bound.  So node 2
    obtains the range from "a" to "c" while node 1 holds "b" for writing; and it
    is refused it, for a lock on "z", when there is a reader on "a". *)
Theorem lock_range_write_conflicts_missed :
  (exists t, gzochid_lock_range_check_and_set (Timeval 11 0) sample_table 2
               (Some key_a) (Some key_c) = Ret (lock_success, t)
     /\ holds t 1 (gb_data key_b) true /\ in_interval (Some key_a) (Some key_c) key_b)
  /\ (exists t1 t2,
        gzochid_lock_check_and_set (Timeval 10 0) gzochid_lock_table_new 1 key_a false
          = Ret (lock_success, t1)
        /\ gzochid_lock_check_and_set (Timeval 11 0) t1 3 key_z true = Ret (lock_success, t2)
        /\ gzochid_lock_range_check_and_set (Timeval 12 0) t2 2 (Some key_a) (Some key_c)
           = Ret (lock_failure (Timeval 11 0), t2)
        /\ ~ in_interval (Some key_a) (Some key_c) key_z).
Proof.
  split.
  - eexists. split; [vm_compute; reflexivity|]. split.
    + exists 1%positive, (Lock 1 key_b true (Timeval 10 0)). split_and!; vm_compute; reflexivity.
    + split; vm_compute; intros H; discriminate H.
  - eexists _, _. split; [vm_compute; reflexivity|]. split; [vm_compute; reflexivity|].
    split; [vm_compute; reflexivity|]. intros [_ H]. vm_compute in H. by apply H.
Qed.

(** ** Witnesses *)

Lemma lock_mutual_exclusion_witness : 1 = 1 /\ true = true.
Proof.
  apply (lock_mutual_exclusion sample_table (gb_data key_b) 1 1 true).
  - eapply rtc_once, step_check_and_set, sample_table_eq.
  - apply sample_table_holds.
  - apply sample_table_holds.
Defined.

Lemma lock_check_and_set_spec_witness :
  exists res t', gzochid_lock_check_and_set (Timeval 11 0) sample_table 2 key_b false = Ret (res, t')
    /\ lock_inv t' /\ res.1 = false.
Proof.
  destruct (lock_check_and_set_spec (Timeval 11 0) sample_table Tip 2 key_b false
    sample_table_inv (range_ok_inv _ _ sample_range_ok)) as (res & t' & Hr & Hinv & _).
  exists res, t'. split; [exact Hr|]. split; [exact Hinv|].
  vm_compute in Hr. injection Hr as <- _. reflexivity.
Defined.

Lemma lock_check_spec_witness :
  exists b, gzochid_lock_check sample_table 1 key_b true = Ret b
    /\ (b = true <-> exists w', holds sample_table 1 (gb_data key_b) w' /\ (w' = true \/ true = false)).
Proof. apply lock_check_spec, sample_table_inv. Defined.

Lemma lock_release_spec_witness :
  exists t', gzochid_lock_release sample_table 1 key_b = Ret t' /\ lock_inv t'
    /\ range_locks t' = range_locks sample_table /\ range_heap t' = range_heap sample_table
    /\ forall n' k' w, holds t' n' k' w
       <-> holds sample_table n' k' w /\ (n', k') <> (1, gb_data key_b).
Proof. apply lock_release_spec, sample_table_inv. Defined.

Lemma lock_release_all_spec_witness :
  exists t', gzochid_lock_release_all sample_table 1 = Ret t' /\ nodes_to_locks t' !! 1 = None
    /\ range_locks t' = range_locks sample_table /\ range_heap t' = range_heap sample_table.
Proof.
  apply (proj2 (lock_release_all_spec sample_table 1 sample_table_inv)). vm_compute. reflexivity.
Defined.

Lemma lock_range_check_and_set_spec_witness :
  exists res t' tr', gzochid_lock_range_check_and_set (Timeval 11 0) sample_table 2
      (Some key_c) None = Ret (res, t')
    /\ lock_inv t' /\ range_ok t' tr' /\ res.1 = true.
Proof.
  destruct (lock_range_check_and_set_spec (Timeval 11 0) sample_table Tip 2 key_c None
    sample_table_inv sample_range_ok I) as (res & t' & tr' & Hr & Hinv & Hok & _).
  exists res, t', tr'. split; [exact Hr|]. split; [exact Hinv|]. split; [exact Hok|].
  vm_compute in Hr. injection Hr as <- _. reflexivity.
Defined.

(** Node 1 holds all keys up to "c". *)
Definition unbounded_table : gzochid_lock_table :=
  LockTable [] [] (Itree (Some 1%positive) {[ 1%positive := itree_node_new None (Some key_c) 1%positive ]})
    [1%positive] {[ 1 := NodeLocks [] [1%positive] ]} ∅
    {[ 1%positive := RangeLock 1 None (Some key_c) (Timeval 10 0) ]}.

Example unbounded_table_eq :
  gzochid_lock_range_check_and_set (Timeval 10 0) gzochid_lock_table_new 1 None (Some key_c)
  = Ret (lock_success, unbounded_table).
Proof. vm_compute. reflexivity. Qed.

Lemma lock_release_range_unbounded_below_witness :
  gzochid_lock_release_range unbounded_table 1 None (Some key_c) = Ret unbounded_table.
Proof.
  apply (lock_release_range_unbounded_below unbounded_table
    (Bin Tip 1%positive (None, Some key_c, 1%positive) Tip)). split.
  - apply (singleton_ok range_lower_comparator range_upper_comparator).
  - repeat constructor. cbn. by rewrite lookup_singleton_eq.
Defined.
