(* ===== verification/Fsm.v ===== *)
(** * State machines (fsm.c)

    The machine the application and the server lifecycles run on: states with
    functions to call on entry and on exit, permitted transitions, and a queue of
    pending states so that a function called during a transition may ask for
    another one. *)

From S2P Require Import Prelude.

Local Open Scope Z_scope.

(** ** Data *)

Record gzochid_fsm_state (Fn D : Type) := FsmState {
  description : string;
  enter_functions : list (Fn * D);
  exit_functions : list (Fn * D)
}.
Arguments FsmState {Fn D} _ _ _.
Arguments description {Fn D} _.
Arguments enter_functions {Fn D} _.
Arguments exit_functions {Fn D} _.

Record gzochid_fsm (Fn D : Type) := Fsm {
  fsm_name : string;
  states : gmap Z (gzochid_fsm_state Fn D);
  transitions : gmap Z (list Z);
  pending_states : list Z;
  current_state : Z;
  started : bool
}.
Arguments Fsm {Fn D} _ _ _ _ _ _.
Arguments fsm_name {Fn D} _.
Arguments states {Fn D} _.
Arguments transitions {Fn D} _.
Arguments pending_states {Fn D} _.
Arguments current_state {Fn D} _.
Arguments started {Fn D} _.

Section fsm.

Context {Fn D : Type}.
Abbreviation fsm := (gzochid_fsm Fn D).

Definition set_states (x : gmap Z (gzochid_fsm_state Fn D)) (m : fsm) : fsm :=
  Fsm (fsm_name m) x (transitions m) (pending_states m) (current_state m) (started m).

Definition set_pending (x : list Z) (m : fsm) : fsm :=
  Fsm (fsm_name m) (states m) (transitions m) x (current_state m) (started m).

Definition set_current (x : Z) (m : fsm) : fsm :=
  Fsm (fsm_name m) (states m) (transitions m) (pending_states m) x (started m).

(** ** Building a machine *)

Definition gzochid_fsm_state_new (description : string) : gzochid_fsm_state Fn D :=
  FsmState description [] [].

Definition gzochid_fsm_new (name : string) (state : Z) (description : string) : fsm :=
  Fsm name {[ state := gzochid_fsm_state_new description ]} ∅ [] state false.

(** Adding a state that exists frees the old one, which holds the key of the
    hash table entry; that is undefined. *)
Definition gzochid_fsm_add_state (m : fsm) (state : Z) (description : string) : outcome fsm :=
  _ ← c_assert (negb (started m));
  match states m !! state with
  | Some _ => Undef
  | None => Ret (set_states (<[state := gzochid_fsm_state_new description]> (states m)) m)
  end.

Definition gzochid_fsm_add_transition (m : fsm) (from_state to_state : Z) : outcome fsm :=
  _ ← c_assert (negb (started m));
  _ ← c_assert (bool_decide (is_Some (states m !! from_state)));
  _ ← c_assert (bool_decide (is_Some (states m !! to_state)));
  Ret (Fsm (fsm_name m) (states m)
    (<[from_state := default [] (transitions m !! from_state) ++ [to_state]]> (transitions m))
    (pending_states m) (current_state m) (started m)).

Definition gzochid_fsm_on_enter (m : fsm) (state : Z) (func : Fn) (data : D) : outcome fsm :=
  match states m !! state with
  | None => Abort
  | Some s => Ret (set_states (<[state := FsmState (description s)
      (enter_functions s ++ [(func, data)]) (exit_functions s)]> (states m)) m)
  end.

Definition gzochid_fsm_on_exit (m : fsm) (state : Z) (func : Fn) (data : D) : outcome fsm :=
  match states m !! state with
  | None => Abort
  | Some s => Ret (set_states (<[state := FsmState (description s)
      (enter_functions s) (exit_functions s ++ [(func, data)])]> (states m)) m)
  end.

(** ** Changing the state

    [call] is what the registered functions do, to the machine itself and to the
    world [W] around it. *)

Section changes.

Context {W : Type} (call : Fn -> Z -> Z -> D -> fsm * W -> outcome (fsm * W)).

Fixpoint call_functions (l : list (Fn * D)) (from to : Z) (s : fsm * W) : outcome (fsm * W) :=
  match l with
  | [] => Ret s
  | (f, d) :: l => s ← call f from to d s; call_functions l from to s
  end.

Definition to_state (s : fsm * W) (state : Z) : outcome (fsm * W) :=
  let from := current_state s.1 in
  _ ← c_assert (negb (from =? state));
  let old := states s.1 !! from in
  _ ← c_assert (bool_decide (is_Some (states s.1 !! state)));
  _ ← c_assert (bool_decide (state ∈ default [] (transitions s.1 !! from)));
  old_state ← deref old;
  s ← call_functions (exit_functions old_state) from state s;
  new_state ← deref (states s.1 !! state);
  s ← call_functions (enter_functions new_state) from state s;
  Ret (set_current state s.1, s.2).

(** [g_array_remove_index] at the front. *)
Definition pop_pending (s : fsm * W) : outcome (fsm * W) :=
  match pending_states s.1 with
  | [] => Undef
  | _ :: rest => Ret (set_pending rest s.1, s.2)
  end.

(** The loop over the pending states, which both callers have. *)
Fixpoint drain (fuel : nat) (s : fsm * W) : outcome (fsm * W) :=
  match pending_states s.1 with
  | [] => Ret s
  | new_state :: _ =>
      match fuel with
      | O => Fuel
      | S fuel =>
          s ← (if negb (new_state =? current_state s.1) then to_state s new_state else Ret s);
          s ← pop_pending s;
          drain fuel s
      end
  end.

(** The first pending state of a start is a placeholder, made of the first
    bytes of a pointer. *)
Definition gzochid_fsm_start (placeholder : Z) (fuel : nat) (s : fsm * W) : outcome (fsm * W) :=
  let m := s.1 in
  let cur := current_state m in
  _ ← c_assert (bool_decide (is_Some (states m !! cur)));
  _ ← c_assert (negb (started m));
  state ← deref (states m !! cur);
  s ← call_functions (enter_functions state) cur cur
        (Fsm (fsm_name m) (states m) (transitions m) (pending_states m ++ [placeholder])
           (current_state m) true, s.2);
  s ← pop_pending s;
  drain fuel s.

Definition gzochid_fsm_to_state (fuel : nat) (s : fsm * W) (state : Z) : outcome (fsm * W) :=
  let reentering := (0 <? length (pending_states s.1))%nat in
  let s := (set_pending (pending_states s.1 ++ [state]) s.1, s.2) in
  _ ← c_assert (started s.1);
  if reentering then Ret s else drain fuel s.

End changes.

(** ** Functions that ask for states

    The functions the properties are about: one leaves a trace of its call and
    asks the machine for the states its script lists, during the transition. *)

Record fsm_event := FsmEvent { ev_function : Fn; ev_data : D; ev_from : Z; ev_to : Z }.

Context (script : Fn -> D -> Z -> Z -> list Z).

Fixpoint ask (l : list Z) (s : fsm * list fsm_event) : outcome (fsm * list fsm_event) :=
  match l with
  | [] => Ret s
  | x :: l => s ← gzochid_fsm_to_state (fun _ _ _ _ _ => Undef) 0 s x; ask l s
  end.

Definition scripted (f : Fn) (from to : Z) (d : D) (s : fsm * list fsm_event)
    : outcome (fsm * list fsm_event) :=
  ask (script f d from to) (s.1, s.2 ++ [FsmEvent f d from to]).

(** ** The specification: a worklist of requests

    A request for the current state is dropped; another one must be for a known
    state the current one has a transition to.  Its calls are the exit functions
    of the state that is left, then the entry functions of the new one, each in
    order of registration; what they ask for goes to the end of the list. *)

Definition calls (l : list (Fn * D)) (from to : Z) : list fsm_event :=
  (fun fd => FsmEvent fd.1 fd.2 from to) <$> l.

Definition asked_for (l : list fsm_event) : list Z :=
  l ≫= fun e => script (ev_function e) (ev_data e) (ev_from e) (ev_to e).

Definition functions_of (sel : gzochid_fsm_state Fn D -> list (Fn * D)) (m : fsm) (x : Z)
    : list (Fn * D) :=
  match states m !! x with Some s => sel s | None => [] end.

Definition step_events (m : fsm) (from to : Z) : list fsm_event :=
  calls (functions_of exit_functions m from) from to
  ++ calls (functions_of enter_functions m to) from to.

Definition allowed (m : fsm) (from to : Z) : bool :=
  bool_decide (is_Some (states m !! to))
  && bool_decide (to ∈ default [] (transitions m !! from)).

Fixpoint spec_run (m : fsm) (fuel : nat) (cur : Z) (queue : list Z)
    : outcome (Z * list fsm_event) :=
  match queue with
  | [] => Ret (cur, [])
  | x :: queue =>
      match fuel with
      | O => Fuel
      | S fuel =>
          if x =? cur then spec_run m fuel cur queue
          else if allowed m cur x then
            let evs := step_events m cur x in
            '(final, rest) ← spec_run m fuel x (queue ++ asked_for evs);
            Ret (final, evs ++ rest)
          else Abort
      end
  end.

(** The machine a run leaves: idle, in its final state. *)
Definition finish (m : fsm) (w : list fsm_event) (r : Z * list fsm_event)
    : fsm * list fsm_event :=
  (Fsm (fsm_name m) (states m) (transitions m) [] r.1 (started m), w ++ r.2).

(** ** Lemmas *)

Lemma ask_pending l : forall (m : fsm) w,
  started m = true -> pending_states m <> [] ->
  ask l (m, w) = Ret (set_pending (pending_states m ++ l) m, w).
Proof.
  induction l as [|x l IH]; intros m w Hs Hp; cbn [ask].
  - rewrite app_nil_r. by destruct m.
  - unfold gzochid_fsm_to_state. cbn [fst snd set_pending started pending_states].
    rewrite Hs. destruct (Nat.ltb_spec 0 (length (pending_states m))) as [_|Hlen];
      [|destruct (pending_states m); simpl in Hlen; [done|lia]].
    cbn [c_assert]. run. rewrite IH; [|done|by cbn; destruct (pending_states m)].
    cbn. by rewrite <- app_assoc.
Qed.

Lemma call_functions_scripted l from to : forall (m : fsm) w,
  started m = true -> pending_states m <> [] ->
  call_functions scripted l from to (m, w)
  = Ret (set_pending (pending_states m ++ asked_for (calls l from to)) m, w ++ calls l from to).
Proof.
  induction l as [|[f d] l IH]; intros m w Hs Hp; cbn [call_functions].
  - cbn. rewrite !app_nil_r. by destruct m.
  - change (scripted f from to d (m, w)) with
      (ask (script f d from to) (m, w ++ [FsmEvent f d from to])).
    rewrite ask_pending by done. run.
    rewrite IH; [|done|by cbn; destruct (pending_states m)].
    cbn. by rewrite <- !app_assoc.
Qed.

Lemma to_state_scripted (m : fsm) w x :
  started m = true -> pending_states m <> [] -> x <> current_state m ->
  is_Some (states m !! current_state m) ->
  to_state scripted (m, w) x
  = if allowed m (current_state m) x
    then let evs := step_events m (current_state m) x in
      Ret (set_current x (set_pending (pending_states m ++ asked_for evs) m), w ++ evs)
    else Abort.
Proof.
  intros Hs Hp Hx [old Hold]. unfold to_state. cbn [fst].
  destruct (Z.eqb_spec (current_state m) x) as [|_]; [done|]. cbn [negb c_assert]. run.
  unfold allowed, step_events, functions_of. rewrite Hold.
  destruct (states m !! x) as [new|] eqn:Hnew; [|done].
  rewrite (bool_decide_eq_true_2 (is_Some (Some new))) by done. run.
  destruct (bool_decide _); [|done]. run. cbn [andb].
  rewrite call_functions_scripted by done. run. cbn [fst states set_pending]. rewrite Hnew. run.
  rewrite call_functions_scripted; [|done|by cbn; destruct (pending_states m)].
  run. cbn. unfold asked_for. by rewrite bind_app, <- !app_assoc.
Qed.

Lemma spec_run_ext (m m' : fsm) fuel : forall cur queue,
  states m' = states m -> transitions m' = transitions m ->
  spec_run m' fuel cur queue = spec_run m fuel cur queue.
Proof.
  induction fuel as [|fuel IH]; intros cur [|x queue] Hs Ht; try done. cbn [spec_run].
  unfold allowed, step_events, functions_of. rewrite Hs, Ht, !IH by done. done.
Qed.

Lemma drain_scripted fuel : forall (m : fsm) w,
  started m = true -> is_Some (states m !! current_state m) ->
  drain scripted fuel (m, w)
  = (r ← spec_run m fuel (current_state m) (pending_states m); Ret (finish m w r)).
Proof.
  induction fuel as [|fuel IH]; intros m w Hs Hcur; cbn [drain spec_run fst];
    (destruct (pending_states m) as [|x rest] eqn:Hp;
     [run; unfold finish; cbn; rewrite app_nil_r, <- Hp; by destruct m|]); [done|].
  destruct (Z.eqb_spec x (current_state m)) as [Hx|Hx]; cbn [negb].
  - run. unfold pop_pending. cbn [fst]. rewrite Hp. run. rewrite IH by done.
    cbn [current_state pending_states set_pending snd]. by rewrite (spec_run_ext m).
  - rewrite to_state_scripted by (done || by rewrite Hp).
    destruct (allowed m (current_state m) x) eqn:Hal; [|done]. run.
    unfold pop_pending. cbn [fst snd pending_states set_current set_pending]. rewrite Hp.
    cbn [app]. run. apply andb_true_iff in Hal as [Hnew%bool_decide_eq_true _].
    rewrite IH by done. cbn [current_state pending_states set_current set_pending].
    rewrite (spec_run_ext m) by done.
    destruct (spec_run m fuel x _) as [[final evs]| | |]; run; try done.
    unfold finish. cbn. by rewrite app_assoc.
Qed.

Lemma spec_run_acyclic (m : fsm) (rank : Z -> nat) :
  (forall from to, allowed m from to = true -> (rank to < rank from)%nat) ->
  forall n cur, (rank cur <= n)%nat -> forall queue,
  exists fuel, forall fuel', (fuel <= fuel')%nat -> spec_run m fuel' cur queue <> Fuel.
Proof.
  intros Hrank. induction n as [n IHn] using lt_wf_ind. intros cur Hcur queue.
  induction queue as [|x queue IHq]; [by exists 0%nat; intros [|fuel']|].
  destruct (decide (x = cur)) as [->|Hx].
  - destruct IHq as [fuel Hf]. exists (S fuel). intros [|fuel'] Hle; [lia|].
    cbn [spec_run]. rewrite Z.eqb_refl. apply Hf. lia.
  - destruct (allowed m cur x) eqn:Hal.
    + pose proof (Hrank _ _ Hal) as Hlt.
      destruct (IHn (rank x) ltac:(lia) x ltac:(lia) (queue ++ asked_for (step_events m cur x)))
        as [fuel Hf].
      exists (S fuel). intros [|fuel'] Hle; [lia|]. cbn [spec_run].
      destruct (Z.eqb_spec x cur); [done|]. rewrite Hal.
      specialize (Hf fuel' ltac:(lia)). by destruct (spec_run _ _ _ _) as [[??]| | |].
    + exists 1%nat. intros [|fuel'] Hle; [lia|]. cbn [spec_run].
      destruct (Z.eqb_spec x cur); [done|]. by rewrite Hal.
Qed.

Lemma spec_run_events (m : fsm) fuel : forall cur queue final evs,
  spec_run m fuel cur queue = Ret (final, evs) ->
  Forall (fun e => allowed m (ev_from e) (ev_to e) = true) evs.
Proof.
  induction fuel as [|fuel IH]; intros cur [|x queue] final evs Hr; cbn [spec_run] in Hr;
    try done; try (by inv_ret).
  destruct (Z.eqb_spec x cur); [by eapply IH|]. destruct (allowed m cur x) eqn:Hal; [|done].
  apply bind_Ret in Hr as ([f rest] & Hr & Heq). inv_ret. apply Forall_app. split; [|by eapply IH].
  unfold step_events, calls. apply Forall_app. split; apply Forall_fmap, Forall_true; done.
Qed.

Lemma spec_run_defined (m : fsm) fuel : forall cur queue, spec_run m fuel cur queue <> Undef.
Proof.
  induction fuel as [|fuel IH]; intros cur [|x queue]; try done. cbn [spec_run].
  destruct (x =? cur); [apply IH|]. destruct (allowed m cur x); [|done].
  pose proof (IH x (queue ++ asked_for (step_events m cur x))) as Hne.
  by destruct (spec_run _ _ _ _) as [[??]| | |].
Qed.

End fsm.

(** ** Properties *)

(** C40. Starting an idle machine, and asking an idle machine for a state, run
    the specification: requests are served first come first served, those made by
    the functions of a transition after it; each transition calls the exit
    functions of the old state and then the entry functions of the new one, in
    order of registration, before the state changes; a request that no transition
    permits fails an assertion. *)
Theorem fsm_refines {Fn D : Type} (script : Fn -> D -> Z -> Z -> list Z)
    (m : gzochid_fsm Fn D) (w : list fsm_event) (x : Z) (fuel : nat) :
  pending_states m = [] -> is_Some (states m !! current_state m) ->
  (started m = true ->
   gzochid_fsm_to_state (scripted script) fuel (m, w) x
   = (r ← spec_run script m fuel (current_state m) [x]; Ret (finish m w r)))
  /\ (started m = false ->
      let cur := current_state m in
      let evs := calls (functions_of enter_functions m cur) cur cur in
      gzochid_fsm_start (scripted script) x fuel (m, w)
      = (r ← spec_run script m fuel cur (asked_for script evs);
         Ret (finish (Fsm (fsm_name m) (states m) (transitions m) [] cur true) w (r.1, evs ++ r.2)))).
Proof.
  intros Hp Hcur. split; intros Hs.
  - unfold gzochid_fsm_to_state. cbn [fst snd started set_pending]. rewrite Hp, Hs. cbn [length Nat.ltb Nat.leb].
    cbn [c_assert]. run. rewrite drain_scripted by done.
    cbn [pending_states set_pending current_state app]. by rewrite (spec_run_ext _ m).
  - intros cur evs. subst cur. unfold gzochid_fsm_start. cbn [fst snd].
    rewrite (bool_decide_eq_true_2 _ Hcur), Hs. cbn [c_assert negb]. run.
    destruct Hcur as [s Hcur]. subst evs. unfold functions_of. rewrite Hcur. run. rewrite Hp. cbn [app].
    rewrite call_functions_scripted by done. run.
    unfold pop_pending. cbn [fst snd pending_states set_pending app]. run.
    rewrite drain_scripted; [|done|by cbn; rewrite Hcur].
    cbn [pending_states set_pending current_state]. rewrite (spec_run_ext _ m) by done.
    destruct (spec_run script m fuel _ _) as [[final rest]| | |]; run; try done.
    unfold finish. cbn. by rewrite app_assoc.
Qed.

(** If the transitions of a machine cannot go round in a circle, asking an
    idle machine for a state ends, whatever the functions ask for; and the
    functions are only called for permitted transitions. *)
Theorem fsm_acyclic_terminates {Fn D : Type} (script : Fn -> D -> Z -> Z -> list Z)
    (m : gzochid_fsm Fn D) (rank : Z -> nat) (x : Z) :
  pending_states m = [] -> is_Some (states m !! current_state m) -> started m = true ->
  (forall from to, allowed m from to = true -> (rank to < rank from)%nat) ->
  exists fuel, forall fuel', (fuel <= fuel')%nat ->
    match gzochid_fsm_to_state (scripted script) fuel' (m, []) x with
    | Ret (m', evs) => pending_states m' = []
        /\ Forall (fun e => allowed m (ev_from e) (ev_to e) = true) evs
    | Abort => True
    | _ => False
    end.
Proof.
  intros Hp Hcur Hs Hrank.
  destruct (spec_run_acyclic script m rank Hrank _ (current_state m) (le_n _) [x]) as [fuel Hf].
  exists fuel. intros fuel' Hle. specialize (Hf fuel' Hle).
  unfold gzochid_fsm_to_state. cbn [fst snd started set_pending]. rewrite Hp, Hs. cbn [length Nat.ltb Nat.leb].
  cbn [c_assert]. run. rewrite drain_scripted by done.
  cbn [pending_states set_pending current_state app]. rewrite (spec_run_ext _ m) by done.
  destruct (spec_run script m fuel' (current_state m) [x]) as [[final evs]| | |] eqn:Hr; run; try done.
  { cbn. split; [done|]. by eapply spec_run_events. }
  by apply spec_run_defined in Hr.
Qed.

(** ** Witnesses *)

(** A machine with states 0, 1 and 2 in a row; entering 1 asks for 2. *)
Definition sample_fsm : outcome (gzochid_fsm nat nat) :=
  m ← gzochid_fsm_add_state (gzochid_fsm_new "sample" 0 "initial") 1 "running";
  m ← gzochid_fsm_add_state m 2 "stopped";
  m ← gzochid_fsm_add_transition m 0 1;
  m ← gzochid_fsm_add_transition m 1 2;
  m ← gzochid_fsm_on_enter m 1 7%nat 1%nat;
  gzochid_fsm_on_exit m 1 8%nat 2%nat.

Definition sample_script (f d : nat) (from to : Z) : list Z :=
  if bool_decide (f = 7%nat) then [2; 2] else [].

(** The same machine once it has started. *)
Definition idle_fsm : gzochid_fsm nat nat :=
  match sample_fsm with
  | Ret m => Fsm (fsm_name m) (states m) (transitions m) [] (current_state m) true
  | _ => gzochid_fsm_new "none" 0 "none"
  end.

Lemma fsm_refines_witness :
  gzochid_fsm_to_state (scripted sample_script) 5 (idle_fsm, []) 1
  = Ret (set_current 2 idle_fsm, [FsmEvent 7%nat 1%nat 0 1; FsmEvent 8%nat 2%nat 1 2]).
Proof.
  rewrite (proj1 (fsm_refines sample_script idle_fsm [] 1 5 eq_refl (mk_is_Some _ _ eq_refl)) eq_refl).
  vm_compute. reflexivity.
Defined.

Lemma idle_fsm_allowed from to :
  allowed idle_fsm from to = true -> (from = 0 /\ to = 1) \/ (from = 1 /\ to = 2).
Proof.
  unfold allowed. intros [_ Hin%bool_decide_eq_true]%andb_true_iff.
  replace (transitions idle_fsm) with (<[1 := [2]]> {[0 := [1]]} : gmap Z (list Z)) in Hin
    by (vm_compute; reflexivity).
  destruct (decide (1 = from)) as [<-|H1]; [rewrite lookup_insert_eq in Hin|
    rewrite lookup_insert_ne in Hin by done; destruct (decide (0 = from)) as [<-|H0];
    [rewrite lookup_singleton_eq in Hin|rewrite lookup_singleton_ne in Hin by done]];
    cbn in Hin; try (apply list_elem_of_singleton in Hin; auto).
  by apply elem_of_nil in Hin.
Qed.

Lemma fsm_acyclic_terminates_witness :
  exists fuel, forall fuel', (fuel <= fuel')%nat ->
    match gzochid_fsm_to_state (scripted sample_script) fuel' (idle_fsm, []) 1 with
    | Ret (m', evs) => pending_states m' = []
        /\ Forall (fun e => allowed idle_fsm (ev_from e) (ev_to e) = true) evs
    | Abort => True
    | _ => False
    end.
Proof.
  apply (fsm_acyclic_terminates sample_script idle_fsm (fun s => Z.to_nat (2 - s)) 1);
    [reflexivity | by eexists | reflexivity |].
  intros from to Hal. apply idle_fsm_allowed in Hal. lia.
Defined.
