(* ===== verification/Storage.v ===== *)
(** * The storage engine interface (gzochid-storage.h)

    What the data manager and the allocation of object ids call: a record of the
    operations of an engine, over a state [E] the transactions share and handles
    [T] of transactions; and the laws they rely on, stated over the contents a
    transaction sees ([view]) and those that are committed ([durable]).  Contents
    map a store and a key to a value.  The engines themselves are other parts of
    the repository or libraries. *)

From S2P Require Import Prelude.

Local Open Scope Z_scope.

Definition GZOCHID_STORAGE_ENOTFOUND : Z := -2.
Definition GZOCHID_STORAGE_ETXFAILURE : Z := -3.

(** The stores of an application. *)
Inductive store := Meta | Oids | Names.

#[export] Instance store_eq_dec : EqDecision store.
Proof. solve_decision. Defined.

#[export] Instance store_countable : Countable store.
Proof.
  refine (inj_countable' (fun s => match s with Meta => 0%nat | Oids => 1%nat | Names => 2%nat end)
    (fun n => match n with 0%nat => Meta | 1%nat => Oids | _ => Names end) _).
  by intros [].
Defined.

Record gzochid_storage_engine_interface (E T : Type) := Engine {
  transaction_begin : E -> option T * E;
  transaction_begin_timed : timeval -> E -> option T * E;
  transaction_commit : T -> E -> E;
  transaction_rollback : T -> E -> E;
  transaction_prepare : T -> E -> E;
  transaction_get : T -> store -> bytes -> E -> option bytes * E;
  transaction_get_for_update : T -> store -> bytes -> E -> option bytes * E;
  transaction_put : T -> store -> bytes -> bytes -> E -> E;
  transaction_delete : T -> store -> bytes -> E -> Z * E;
  transaction_first_key : T -> store -> E -> option bytes * E;
  transaction_next_key : T -> store -> bytes -> E -> option bytes * E;
  (** the flags of a transaction: it must be rolled back; it may be retried *)
  tx_rollback : T -> E -> bool;
  tx_should_retry : T -> E -> bool
}.
Arguments Engine {E T}.
Arguments transaction_begin {E T}.
Arguments transaction_begin_timed {E T}.
Arguments transaction_commit {E T}.
Arguments transaction_rollback {E T}.
Arguments transaction_prepare {E T}.
Arguments transaction_get {E T}.
Arguments transaction_get_for_update {E T}.
Arguments transaction_put {E T}.
Arguments transaction_delete {E T}.
Arguments transaction_first_key {E T}.
Arguments transaction_next_key {E T}.
Arguments tx_rollback {E T}.
Arguments tx_should_retry {E T}.

Abbreviation contents := (gmap (store * bytes) bytes).

(** An operation of a transaction that did not set its rollback flag did what it
    is for; the flag stays set; whatever happens, only a commit changes what is
    committed. *)
Class EngineLaws {E T} (eng : gzochid_storage_engine_interface E T)
    (view : T -> E -> contents) (durable : E -> contents) : Prop := {
  begin_view e t e' : transaction_begin eng e = (Some t, e') -> tx_rollback eng t e' = false ->
    view t e' = durable e;
  begin_durable e o e' : transaction_begin eng e = (o, e') -> durable e' = durable e;
  get_value t s k e v e' : transaction_get eng t s k e = (v, e') -> tx_rollback eng t e' = false ->
    v = view t e !! (s, k) /\ view t e' = view t e;
  get_failed t s k e v e' : transaction_get eng t s k e = (v, e') -> tx_rollback eng t e' = true ->
    v = None;
  get_durable t s k e v e' : transaction_get eng t s k e = (v, e') -> durable e' = durable e;
  update_value t s k e v e' : transaction_get_for_update eng t s k e = (v, e') ->
    tx_rollback eng t e' = false -> v = view t e !! (s, k) /\ view t e' = view t e;
  update_durable t s k e v e' : transaction_get_for_update eng t s k e = (v, e') ->
    durable e' = durable e;
  put_view t s k v e : tx_rollback eng t (transaction_put eng t s k v e) = false ->
    view t (transaction_put eng t s k v e) = <[(s, k) := v]> (view t e);
  put_durable t s k v e : durable (transaction_put eng t s k v e) = durable e;
  delete_view t s k e r e' : transaction_delete eng t s k e = (r, e') ->
    tx_rollback eng t e' = false ->
    view t e' = delete (s, k) (view t e)
    /\ (r = GZOCHID_STORAGE_ENOTFOUND <-> view t e !! (s, k) = None)
    /\ r <> GZOCHID_STORAGE_ETXFAILURE;
  delete_durable t s k e r e' : transaction_delete eng t s k e = (r, e') -> durable e' = durable e;
  prepare_view t e : tx_rollback eng t (transaction_prepare eng t e) = false ->
    view t (transaction_prepare eng t e) = view t e;
  prepare_durable t e : durable (transaction_prepare eng t e) = durable e;
  commit_durable t e : tx_rollback eng t e = false ->
    durable (transaction_commit eng t e) = view t e;
  rollback_durable t e : durable (transaction_rollback eng t e) = durable e;
  get_sticky t s k e v e' : transaction_get eng t s k e = (v, e') ->
    tx_rollback eng t e = true -> tx_rollback eng t e' = true;
  update_sticky t s k e v e' : transaction_get_for_update eng t s k e = (v, e') ->
    tx_rollback eng t e = true -> tx_rollback eng t e' = true;
  put_sticky t s k v e :
    tx_rollback eng t e = true -> tx_rollback eng t (transaction_put eng t s k v e) = true;
  delete_sticky t s k e r e' : transaction_delete eng t s k e = (r, e') ->
    tx_rollback eng t e = true -> tx_rollback eng t e' = true;
  prepare_sticky t e :
    tx_rollback eng t e = true -> tx_rollback eng t (transaction_prepare eng t e) = true
}.

(** Looking for keys changes nothing that is committed. *)
Class ScanLaws {E T} (eng : gzochid_storage_engine_interface E T) (durable : E -> contents)
  : Prop := {
  first_durable t s e v e' : transaction_first_key eng t s e = (v, e') -> durable e' = durable e;
  next_durable t s k e v e' : transaction_next_key eng t s k e = (v, e') -> durable e' = durable e
}.

(** ** A reference engine

    One map of contents, copied by each transaction; nothing fails.  It is the
    engine of the witnesses. *)

Record map_engine_state := MapEngine {
  committed : contents;
  open_txs : gmap positive contents
}.

Definition map_view (t : positive) (e : map_engine_state) : contents :=
  default ∅ (open_txs e !! t).

Definition map_begin (e : map_engine_state) : option positive * map_engine_state :=
  let t := fresh (dom (open_txs e)) in
  (Some t, MapEngine (committed e) (<[t := committed e]> (open_txs e))).

Definition map_set (t : positive) (c : contents) (e : map_engine_state) : map_engine_state :=
  MapEngine (committed e) (<[t := c]> (open_txs e)).

Definition map_engine : gzochid_storage_engine_interface map_engine_state positive := {|
  transaction_begin := map_begin;
  transaction_begin_timed _ := map_begin;
  transaction_commit t e := MapEngine (map_view t e) (delete t (open_txs e));
  transaction_rollback t e := MapEngine (committed e) (delete t (open_txs e));
  transaction_prepare _ e := e;
  transaction_get t s k e := (map_view t e !! (s, k), e);
  transaction_get_for_update t s k e := (map_view t e !! (s, k), e);
  transaction_put t s k v e := map_set t (<[(s, k) := v]> (map_view t e)) e;
  transaction_delete t s k e :=
    (match map_view t e !! (s, k) with None => GZOCHID_STORAGE_ENOTFOUND | Some _ => 0 end,
     map_set t (delete (s, k) (map_view t e)) e);
  transaction_first_key _ _ e := (None, e);
  transaction_next_key _ _ _ e := (None, e);
  tx_rollback _ _ := false;
  tx_should_retry _ _ := false
|}.

Lemma map_view_set t c e : map_view t (map_set t c e) = c.
Proof. unfold map_view, map_set. cbn. by rewrite lookup_insert_eq. Qed.

#[export] Instance map_engine_laws : EngineLaws map_engine map_view committed.
Proof.
  split; cbn; try done; try (by intros; simplify_eq).
  - intros e t e' [= <- <-] _. unfold map_view. cbn. by rewrite lookup_insert_eq.
  - by intros e o e' [= <- <-].
  - intros t s k v e _. apply map_view_set.
  - intros t s k e r e' [= <- <-] _. rewrite map_view_set. split; [done|].
    destruct (map_view t e !! (s, k)); done.
Qed.

#[export] Instance map_engine_scan_laws : ScanLaws map_engine committed.
Proof. split; cbn; by intros; simplify_eq. Qed.

(** ** Transactions beside each other

    What a running transaction sees does not change by what another one does; by its commit
    only the keys do that the other one wrote. *)

Definition same_seen {E T} (eng : gzochid_storage_engine_interface E T) (view : T -> E -> contents)
    (t : T) (e e' : E) : Prop :=
  (tx_rollback eng t e = true -> tx_rollback eng t e' = true)
  /\ (tx_rollback eng t e' = false -> view t e' = view t e).

Class Isolation {E T} (eng : gzochid_storage_engine_interface E T) (view : T -> E -> contents)
    (durable : E -> contents) (running : T -> E -> Prop) : Prop := {
  iso_begin t e o e' : running t e -> transaction_begin eng e = (o, e') ->
    running t e' /\ same_seen eng view t e e' /\ o <> Some t;
  iso_get t t' s k e v e' : running t e -> transaction_get eng t' s k e = (v, e') ->
    running t e' /\ same_seen eng view t e e';
  iso_update t t' s k e v e' : running t e -> transaction_get_for_update eng t' s k e = (v, e') ->
    running t e' /\ same_seen eng view t e e';
  iso_put t t' s k v e : running t e -> t' <> t ->
    running t (transaction_put eng t' s k v e) /\ same_seen eng view t e (transaction_put eng t' s k v e);
  iso_prepare t t' e : running t e -> t' <> t ->
    running t (transaction_prepare eng t' e) /\ same_seen eng view t e (transaction_prepare eng t' e);
  iso_rollback t t' e : running t e -> t' <> t ->
    running t (transaction_rollback eng t' e) /\ same_seen eng view t e (transaction_rollback eng t' e);
  iso_commit t t' e : running t e -> t' <> t ->
    running t (transaction_commit eng t' e)
    /\ (tx_rollback eng t e = true -> tx_rollback eng t (transaction_commit eng t' e) = true)
    /\ (tx_rollback eng t (transaction_commit eng t' e) = false -> forall s k,
          view t' e !! (s, k) = durable e !! (s, k) ->
          view t (transaction_commit eng t' e) !! (s, k) = view t e !! (s, k));
  running_delete t s k e r e' : running t e -> transaction_delete eng t s k e = (r, e') -> running t e'
}.

Definition map_running (t : positive) (e : map_engine_state) : Prop := is_Some (open_txs e !! t).

#[export] Instance map_engine_isolation : Isolation map_engine map_view committed map_running.
Proof.
  split; cbn; unfold map_running, same_seen, map_view, map_set; cbn.
  - intros t e o e' Ht [= <- <-]. cbn.
    assert (Hne : fresh (dom (open_txs e)) <> t).
    { intros Heq. apply elem_of_dom in Ht. rewrite <- Heq in Ht. by apply is_fresh in Ht. }
    rewrite lookup_insert_ne by done. split_and!; [done..|]. intros [= Heq]. done.
  - by intros t t' s k e v e' Ht [= _ <-].
  - by intros t t' s k e v e' Ht [= _ <-].
  - intros t t' s k v e Ht Hne. by rewrite lookup_insert_ne.
  - by intros t t' e Ht _.
  - intros t t' e Ht Hne. by rewrite lookup_delete_ne.
  - intros t t' e Ht Hne. by rewrite lookup_delete_ne.
  - intros t s k e r e' Ht [= _ <-]. cbn. rewrite lookup_insert_eq. by eexists.
Qed.
