(* ===== verification/MemPage.v ===== *)
(** * The pages of the in-memory storage engine (storage-mem.c)

    A page is a block of 4096 bytes whose occupied part holds records, sorted by key:
    the length of the key, the key, the length of the value, the value.  The functions
    that search pages and shift records in them implement a sorted association list. *)

From S2P Require Import Prelude.
From S2P Require Import Io.
From S2P Require Import Util.
From S2P Require Import Glib.

Local Open Scope Z_scope.

Definition MAX_PAGE_SIZE : Z := 4096.

(** A datum is its bytes. *)
Abbreviation btree_datum := bytes.

Record btree_page := BtreePage {
  page_size : Z;
  page_data : bytes
}.

Definition new_page : btree_page := BtreePage 0 (replicate (Z.to_nat MAX_PAGE_SIZE) 0).

(** ** Comparing *)

(** The difference of the lengths that are left is taken in [size_t]. *)
Fixpoint compare_datum (a b : btree_datum) : Z :=
  match a, b with
  | x :: a', y :: b' => if x <? y then -1 else if y <? x then 1 else compare_datum a' b'
  | _, _ => s32 (u64 (Z.of_nat (length a) - Z.of_nat (length b)))
  end.

(** [memcmp] of two pieces of memory; only its sign is specified. *)
Fixpoint memcmp (a b : bytes) (n : nat) {struct n} : outcome Z :=
  match n with
  | O => Ret 0
  | S n =>
      match a, b with
      | x :: a, y :: b => if x =? y then memcmp a b n else Ret (sign_compare x y)
      | _, _ => Undef
      end
  end.

Definition read_len (page : btree_page) (offset : Z) : outcome Z :=
  len ← gzochi_common_io_read_short (page_data page) offset; Ret (u16 len).

Definition page_at (page : btree_page) (offset : Z) : bytes :=
  drop (Z.to_nat offset) (page_data page).

Definition compare_page_datum_to_key (page : btree_page) (offset : Z) (key : bytes) : outcome Z :=
  if page_size page <=? offset then Ret (-1)
  else
    len ← read_len page offset;
    let key_len := Z.of_nat (length key) in
    c ← memcmp (page_at page (offset + 2)) key (Z.to_nat (Z.min len key_len));
    Ret (if c =? 0 then (if len =? key_len then 0 else if len <? key_len then -1 else 1) else c).

(** ** Searching

    Each record takes four bytes or more. *)

Fixpoint key_offset_loop (fuel : nat) (page : btree_page) (key : bytes) (offset : Z) : outcome Z :=
  match fuel with
  | O => Fuel
  | S fuel =>
      if offset <? page_size page then
        page_key_len ← read_len page offset;
        c ← compare_page_datum_to_key page offset key;
        if 0 <=? c then Ret offset
        else
          page_value_len ← read_len page (offset + page_key_len + 2);
          key_offset_loop fuel page key (offset + (page_key_len + page_value_len + 4))
      else
        _ ← c_assert (offset =? page_size page);
        Ret offset
  end.

Definition page_key_offset (page : btree_page) (key : bytes) : outcome Z :=
  key_offset_loop (S (Z.to_nat (page_size page))) page key 0.

Fixpoint lookup_loop (fuel : nat) (page : btree_page) (key : bytes) (offset : Z)
  : outcome (option bytes) :=
  match fuel with
  | O => Fuel
  | S fuel =>
      if offset <? page_size page then
        len ← read_len page offset;
        c ← memcmp key (page_at page (offset + 2)) (Z.to_nat (Z.min len (Z.of_nat (length key))));
        let offset := offset + (len + 2) in
        if (c =? 0) && (len =? Z.of_nat (length key)) then
          value_len ← read_len page offset;
          value ← memcpy_from (page_at page (offset + 2)) value_len;
          Ret (Some value)
        else if 0 <? c then
          len ← read_len page offset;
          lookup_loop fuel page key (offset + (len + 2))
        else Ret None
      else Ret None
  end.

Definition lookup_page_value (page : btree_page) (key : bytes) : outcome (option bytes) :=
  lookup_loop (S (Z.to_nat (page_size page))) page key 0.

(** The loop of [find_key_gte]: the first key of the page from [key] on. *)
Fixpoint key_gte_loop (fuel : nat) (page : btree_page) (key : bytes) (offset : Z)
  : outcome (option bytes) :=
  match fuel with
  | O => Fuel
  | S fuel =>
      if offset <? page_size page then
        len ← read_len page offset;
        let key_len := Z.of_nat (length key) in
        c ← memcmp key (page_at page (offset + 2)) (Z.to_nat (Z.min len key_len));
        if (c <? 0) || ((c =? 0) && (key_len <=? len)) then
          found ← memcpy_from (page_at page (offset + 2)) len;
          Ret (Some found)
        else
          let offset := offset + (len + 2) in
          len ← read_len page offset;
          key_gte_loop fuel page key (offset + (len + 2))
      else Ret None
  end.

Definition page_key_gte (page : btree_page) (key : bytes) : outcome (option bytes) :=
  key_gte_loop (S (Z.to_nat (page_size page))) page key 0.

(** ** Shifting records

    What [insert_page_record] and [remove_page_record] do to the page. *)

Definition memmove (data : bytes) (dest src : Z) (n : Z) : outcome bytes :=
  moved ← memcpy_from (drop (Z.to_nat src) data) n;
  write_at data dest moved.

Definition page_insert (page : btree_page) (offset : Z) (key value : bytes) : outcome btree_page :=
  let key_len := Z.of_nat (length key) in
  let value_len := Z.of_nat (length value) in
  let total_len := key_len + value_len + 4 in
  _ ← c_assert (page_size page + total_len <=? MAX_PAGE_SIZE);
  data ← (if offset <? page_size page
          then memmove (page_data page) (offset + total_len) offset (page_size page - offset)
          else Ret (page_data page));
  data ← gzochi_common_io_write_short (s16 key_len) data offset;
  data ← write_at data (offset + 2) key;
  data ← gzochi_common_io_write_short (s16 value_len) data (offset + key_len + 2);
  data ← write_at data (offset + key_len + 4) value;
  Ret (BtreePage (page_size page + total_len) data).

Definition page_remove (page : btree_page) (offset : Z) : outcome btree_page :=
  key_len ← read_len page offset;
  value_len ← read_len page (offset + key_len + 2);
  let record_len := key_len + value_len + 4 in
  let next_record_offset := offset + record_len in
  data ← (if next_record_offset <? page_size page
          then memmove (page_data page) offset next_record_offset (page_size page - next_record_offset)
          else Ret (page_data page));
  Ret (BtreePage (page_size page - record_len) data).

(** The record at an offset, as [put_internal] reads it to move it elsewhere. *)
Definition page_record (page : btree_page) (offset : Z) : outcome (bytes * bytes) :=
  next_key_len ← read_len page offset;
  next_value_len ← read_len page (offset + next_key_len + 2);
  key ← memcpy_from (page_at page (offset + 2)) next_key_len;
  value ← memcpy_from (page_at page (offset + next_key_len + 4)) next_value_len;
  Ret (key, value).

Definition key_after (key : bytes) : bytes := key ++ [0].

(** ** Pages as lists of records *)

Definition encode_record (r : bytes * bytes) : bytes :=
  be_encode 2 (Z.of_nat (length r.1)) ++ r.1 ++ be_encode 2 (Z.of_nat (length r.2)) ++ r.2.

Definition encode_records (rs : list (bytes * bytes)) : bytes := concat (encode_record <$> rs).

Definition key_lt (a b : bytes) : Prop := bytes_compare a b < 0.

Record page_holds (page : btree_page) (rs : list (bytes * bytes)) : Prop := {
  holds_data : exists rest, page_data page = encode_records rs ++ rest;
  holds_size : page_size page = Z.of_nat (length (encode_records rs));
  holds_block : Z.of_nat (length (page_data page)) = MAX_PAGE_SIZE
}.

Definition keys_sorted (rs : list (bytes * bytes)) : Prop :=
  StronglySorted (fun a b => key_lt a.1 b.1) rs.

(** The specification: lookup, insertion and removal in a sorted list, and the first
    key from a key on. *)

Fixpoint records_lookup (k : bytes) (rs : list (bytes * bytes)) : option bytes :=
  match rs with
  | [] => None
  | (k', v) :: rs => if decide (k = k') then Some v else records_lookup k rs
  end.

Definition records_before (k : bytes) (rs : list (bytes * bytes)) : list (bytes * bytes) :=
  filter (fun r => bytes_compare r.1 k < 0) rs.

Definition records_from (k : bytes) (rs : list (bytes * bytes)) : list (bytes * bytes) :=
  filter (fun r => ~ bytes_compare r.1 k < 0) rs.

(** ** Reading records *)

Arguments encode_record : simpl never.
Arguments encode_records : simpl never.

Ltac sizes := repeat (rewrite ?length_app, ?be_encode_length; cbn [length fst snd]); lia.

Abbreviation size_of rs := (Z.of_nat (length (encode_records rs))).

Lemma encode_record_length (r : bytes * bytes) :
  length (encode_record r) = (length r.1 + length r.2 + 4)%nat.
Proof. unfold encode_record. sizes. Qed.

Lemma encode_records_cons r rs : encode_records (r :: rs) = encode_record r ++ encode_records rs.
Proof. done. Qed.

Lemma encode_records_app rs1 rs2 : encode_records (rs1 ++ rs2) = encode_records rs1 ++ encode_records rs2.
Proof. unfold encode_records. by rewrite fmap_app, concat_app. Qed.

Lemma size_of_cons r rs : size_of (r :: rs) = Z.of_nat (length r.1 + length r.2 + 4) + size_of rs.
Proof. rewrite encode_records_cons, length_app, encode_record_length. lia. Qed.

Lemma size_of_app rs1 rs2 : size_of (rs1 ++ rs2) = size_of rs1 + size_of rs2.
Proof. rewrite encode_records_app, length_app. lia. Qed.

Lemma size_of_snoc rs k v :
  size_of (rs ++ [(k, v)]) = size_of rs + (Z.of_nat (length k) + Z.of_nat (length v) + 4).
Proof. rewrite size_of_app, size_of_cons. cbn [fst snd]. change (size_of []) with 0. lia. Qed.

Lemma read_len_at (page : btree_page) (pre post : bytes) (n : Z) (off : Z) :
  page_data page = pre ++ be_encode 2 n ++ post -> off = Z.of_nat (length pre) -> 0 <= n < 2 ^ 16 ->
  read_len page off = Ret n.
Proof.
  intros Hdata -> Hn. unfold read_len. rewrite Hdata, (read_encoded (Hbe := short_codec)). run.
  rewrite unsigned_signed by lia. by rewrite unsigned_small.
Qed.

Lemma page_at_app (page : btree_page) (pre post : bytes) (off : Z) :
  page_data page = pre ++ post -> off = Z.of_nat (length pre) -> page_at page off = post.
Proof. intros Hdata ->. unfold page_at. by rewrite Hdata, Nat2Z.id, drop_app_length. Qed.

Section record.

(** A record of a page, at its offset. *)
Context (page : btree_page) (rs1 rs2 : list (bytes * bytes)) (k v : bytes).
Context (Hpage : page_holds page (rs1 ++ (k, v) :: rs2)).

Lemma record_layout : exists rest, page_data page
  = encode_records rs1 ++ be_encode 2 (Z.of_nat (length k)) ++ k
    ++ be_encode 2 (Z.of_nat (length v)) ++ v ++ encode_records rs2 ++ rest.
Proof.
  destruct Hpage as [[rest Hdata] _ _]. exists rest. rewrite Hdata, encode_records_app, encode_records_cons.
  unfold encode_record. cbn [fst snd]. by rewrite <- !app_assoc.
Qed.

Lemma record_small : Z.of_nat (length k + length v + 4) <= MAX_PAGE_SIZE.
Proof.
  destruct record_layout as [rest Hdata]. destruct Hpage as [_ _ Hblock]. rewrite <- Hblock, Hdata. sizes.
Qed.

Lemma record_fits : size_of rs1 + Z.of_nat (length k + length v + 4) <= page_size page.
Proof.
  destruct Hpage as [_ -> _]. rewrite size_of_app, size_of_cons. cbn [fst snd]. lia.
Qed.

Lemma record_inside : (size_of rs1 <? page_size page) = true.
Proof. apply Z.ltb_lt. pose proof record_fits. lia. Qed.

Lemma record_key_len : read_len page (size_of rs1) = Ret (Z.of_nat (length k)).
Proof.
  destruct record_layout as [rest Hdata]. eapply read_len_at; [exact Hdata|done|].
  pose proof record_small. unfold MAX_PAGE_SIZE in *. lia.
Qed.

Lemma record_key : exists post, page_at page (size_of rs1 + 2) = k ++ post.
Proof.
  destruct record_layout as [rest Hdata]. eexists. eapply page_at_app;
    [rewrite Hdata, (app_assoc (encode_records rs1)); reflexivity|sizes].
Qed.

Lemma record_value_len : read_len page (size_of rs1 + Z.of_nat (length k) + 2) = Ret (Z.of_nat (length v)).
Proof.
  destruct record_layout as [rest Hdata].
  eapply (read_len_at _ (encode_records rs1 ++ be_encode 2 (Z.of_nat (length k)) ++ k));
    [rewrite Hdata, <- !app_assoc; reflexivity|sizes|].
  pose proof record_small. unfold MAX_PAGE_SIZE in *. lia.
Qed.

Lemma record_value : exists post, page_at page (size_of rs1 + Z.of_nat (length k) + 4) = v ++ post.
Proof.
  destruct record_layout as [rest Hdata]. eexists.
  eapply (page_at_app _ (encode_records rs1 ++ be_encode 2 (Z.of_nat (length k)) ++ k
    ++ be_encode 2 (Z.of_nat (length v)))); [rewrite Hdata, <- !app_assoc; reflexivity|sizes].
Qed.

End record.

(** ** Comparing *)

Ltac sign := unfold sign_compare; repeat match goal with |- context [?a <? ?b] => destruct (Z.ltb_spec a b) | |- context [?a =? ?b] => destruct (Z.eqb_spec a b) end; lia.

Lemma memcmp_compare (a b x y : bytes) :
  exists c, memcmp (a ++ x) (b ++ y) (Z.to_nat (Z.min (Z.of_nat (length a)) (Z.of_nat (length b)))) = Ret c
    /\ bytes_compare a b
       = if c =? 0 then sign_compare (Z.of_nat (length a)) (Z.of_nat (length b)) else c.
Proof.
  replace (Z.to_nat (Z.min (Z.of_nat (length a)) (Z.of_nat (length b))))
    with (Nat.min (length a) (length b)) by lia.
  revert b. induction a as [|p a IH]; intros b.
  { exists 0. split; [done|]. destruct b; [done|]. cbn [bytes_compare length]. sign. }
  destruct b as [|q b].
  { exists 0. split; [done|]. cbn [bytes_compare length]. sign. }
  cbn [memcmp length Nat.min app bytes_compare]. destruct (Z.eqb_spec p q) as [->|Hne].
  - destruct (IH b) as (c & -> & ->). exists c. split; [done|]. destruct (c =? 0); [|done].
    sign.
  - exists (sign_compare p q). split; [done|]. sign.
Qed.

Lemma memcmp_swap (a b : bytes) (n : nat) (c : Z) :
  memcmp a b n = Ret c -> memcmp b a n = Ret (- c).
Proof.
  revert a b. induction n as [|n IH]; intros [|x a] [|y b]; cbn [memcmp]; try done; try (by intros [= <-]).
  rewrite (Z.eqb_sym y x). destruct (x =? y); [apply IH|]. intros [= <-]. by rewrite sign_compare_sym.
Qed.

Lemma compare_at (page : btree_page) rs1 rs2 k v key :
  page_holds page (rs1 ++ (k, v) :: rs2) ->
  compare_page_datum_to_key page (size_of rs1) key = Ret (bytes_compare k key).
Proof.
  intros Hpage. unfold compare_page_datum_to_key.
  pose proof (record_inside _ _ _ _ _ Hpage) as Hin. apply Z.ltb_lt in Hin.
  rewrite (proj2 (Z.leb_gt _ _)) by done. rewrite (record_key_len _ _ _ _ _ Hpage). run.
  destruct (record_key _ _ _ _ _ Hpage) as [post ->].
  destruct (memcmp_compare k key post []) as (c & Hc & Hcmp). rewrite app_nil_r in Hc. rewrite Hc, Hcmp. run.
  f_equal. destruct (c =? 0); [|done]. sign.
Qed.

Lemma compare_at_end (page : btree_page) rs key :
  page_holds page rs -> compare_page_datum_to_key page (size_of rs) key = Ret (-1).
Proof.
  intros [_ Hsize _]. unfold compare_page_datum_to_key. rewrite Hsize. by rewrite Z.leb_refl.
Qed.

Lemma compare_key (page : btree_page) rs1 rs2 k v key :
  page_holds page (rs1 ++ (k, v) :: rs2) ->
  exists c, memcmp key (page_at page (size_of rs1 + 2))
      (Z.to_nat (Z.min (Z.of_nat (length k)) (Z.of_nat (length key)))) = Ret c
    /\ bytes_compare key k = (if c =? 0 then sign_compare (Z.of_nat (length key)) (Z.of_nat (length k)) else c).
Proof.
  intros Hpage. destruct (record_key _ _ _ _ _ Hpage) as [post ->].
  destruct (memcmp_compare key k [] post) as (c & Hc & Hcmp). rewrite app_nil_r in Hc.
  exists c. split; [|done]. by rewrite Z.min_comm.
Qed.

(** ** Sorted records *)

Lemma key_lt_trans a b c : key_lt a b -> key_lt b c -> key_lt a c.
Proof.
  unfold key_lt. intros H1 H2. pose proof (bytes_compare_le_trans a b c ltac:(lia) ltac:(lia)).
  destruct (decide (bytes_compare a c = 0)) as [He|]; [|lia].
  apply bytes_compare_eq in He as ->. rewrite bytes_compare_sym in H2. lia.
Qed.

Lemma filter_none {A} (P : A -> Prop) `{forall x, Decision (P x)} (l : list A) :
  Forall (fun x => ~ P x) l -> filter P l = [].
Proof. induction 1 as [|x l Hx _ IH]; [done|]. by rewrite filter_cons, decide_False. Qed.

Lemma filter_all {A} (P : A -> Prop) `{forall x, Decision (P x)} (l : list A) :
  Forall P l -> filter P l = l.
Proof. induction 1 as [|x l Hx _ IH]; [done|]. rewrite filter_cons, decide_True by done. by f_equal. Qed.

Lemma sorted_split k rs : keys_sorted rs -> rs = records_before k rs ++ records_from k rs.
Proof.
  unfold records_before, records_from. induction 1 as [|r rs Hsorted IH Hall]; [done|].
  rewrite !filter_cons. destruct (decide (bytes_compare r.1 k < 0)) as [Hlt|Hge].
  - rewrite decide_False by tauto. cbn [app]. f_equal. exact IH.
  - rewrite decide_True by done.
    assert (filter (fun r => bytes_compare r.1 k < 0) rs = []) as Hnil.
    { apply filter_none. eapply Forall_impl; [exact Hall|]. intros r' Hr' Hlt. apply Hge.
      exact (key_lt_trans _ _ _ Hr' Hlt). }
    rewrite Hnil in *. cbn [app]. f_equal. exact IH.
Qed.

Lemma before_forall k rs : Forall (fun r => bytes_compare r.1 k < 0) (records_before k rs).
Proof. apply Forall_forall. by intros r [Hr _]%list_elem_of_filter. Qed.

Lemma from_head k rs r rs' : records_from k rs = r :: rs' -> 0 <= bytes_compare r.1 k.
Proof.
  intros Heq. assert (Hin : r ∈ records_from k rs) by (rewrite Heq; by left).
  apply list_elem_of_filter in Hin as [Hr _]. lia.
Qed.

(** ** Searching a sorted page *)

Section search.

Context (page : btree_page) (key : bytes).

(** Enough fuel for the records that are left. *)
Lemma fuel_enough rs1 rs2 : page_holds page (rs1 ++ rs2) -> (length rs2 <= Z.to_nat (page_size page))%nat.
Proof.
  intros [_ -> _]. rewrite size_of_app.
  assert (Z.of_nat (length rs2) <= size_of rs2).
  { clear. induction rs2 as [|r rs2 IH]; [done|]. rewrite size_of_cons. cbn [length]. lia. }
  lia.
Qed.

Lemma key_offset_spec rs2 : forall fuel rs1,
  page_holds page (rs1 ++ rs2) -> keys_sorted rs2 -> (length rs2 < fuel)%nat ->
  key_offset_loop fuel page key (size_of rs1) = Ret (size_of (rs1 ++ records_before key rs2)).
Proof.
  induction rs2 as [|[k v] rs2 IH]; intros [|fuel] rs1 Hpage Hsorted Hfuel; cbn [length] in Hfuel; [lia| |lia|].
  - rewrite app_nil_r in Hpage. destruct Hpage as [_ Hsize _]. cbn [key_offset_loop]. rewrite Hsize.
    rewrite Z.ltb_irrefl, Z.eqb_refl. run. unfold records_before. by rewrite filter_nil, app_nil_r.
  - cbn [key_offset_loop]. rewrite (record_inside _ _ _ _ _ Hpage), (record_key_len _ _ _ _ _ Hpage). run.
    rewrite (compare_at _ _ _ _ _ _ Hpage). run.
    unfold records_before. rewrite filter_cons. cbn [fst].
    apply StronglySorted_inv in Hsorted as [Hsorted Hall].
    destruct (Z.leb_spec 0 (bytes_compare k key)).
    + rewrite decide_False by lia. rewrite filter_none; [by rewrite app_nil_r|].
      eapply Forall_impl; [exact Hall|]. intros r Hr Hlt. cbn in Hr.
      pose proof (key_lt_trans _ _ _ Hr Hlt) as Hk. unfold key_lt in Hk. lia.
    + rewrite decide_True by lia. rewrite (record_value_len _ _ _ _ _ Hpage). run.
      replace (size_of rs1 + (Z.of_nat (length k) + Z.of_nat (length v) + 4))
        with (size_of (rs1 ++ [(k, v)])) by (rewrite size_of_snoc; lia).
      rewrite IH; [by rewrite <- app_assoc|by rewrite <- app_assoc|done|lia].
Qed.

Lemma page_key_offset_spec rs :
  page_holds page rs -> keys_sorted rs ->
  page_key_offset page key = Ret (size_of (records_before key rs)).
Proof.
  intros Hpage Hsorted. unfold page_key_offset. change 0 with (size_of []) at 1.
  rewrite (key_offset_spec rs _ []); [done|done|done|]. pose proof (fuel_enough [] rs Hpage). lia.
Qed.

Lemma key_gte_spec rs2 : forall fuel rs1,
  page_holds page (rs1 ++ rs2) -> keys_sorted rs2 -> (length rs2 < fuel)%nat ->
  key_gte_loop fuel page key (size_of rs1) = Ret (fst <$> head (records_from key rs2)).
Proof.
  induction rs2 as [|[k v] rs2 IH]; intros [|fuel] rs1 Hpage Hsorted Hfuel; cbn [length] in Hfuel; [lia| |lia|].
  - rewrite app_nil_r in Hpage. destruct Hpage as [_ Hsize _]. cbn [key_gte_loop]. rewrite Hsize.
    by rewrite Z.ltb_irrefl.
  - cbn [key_gte_loop]. rewrite (record_inside _ _ _ _ _ Hpage), (record_key_len _ _ _ _ _ Hpage). run.
    destruct (compare_key _ _ _ _ _ key Hpage) as (c & -> & Hcmp). run.
    unfold records_from. rewrite filter_cons. cbn [fst].
    apply StronglySorted_inv in Hsorted as [Hsorted _].
    assert (Hdir : ((c <? 0) || ((c =? 0) && (Z.of_nat (length key) <=? Z.of_nat (length k))))
      = bool_decide (~ bytes_compare k key < 0)).
    { rewrite bytes_compare_sym, Hcmp.
      destruct (Z.ltb_spec c 0), (Z.eqb_spec c 0); cbn [andb orb]; try lia.
      - symmetry. apply bool_decide_eq_true. lia.
      - destruct (Z.leb_spec (Z.of_nat (length key)) (Z.of_nat (length k))); symmetry;
          [apply bool_decide_eq_true|apply bool_decide_eq_false]; sign.
      - symmetry. apply bool_decide_eq_false. lia. }
    rewrite Hdir. destruct (bool_decide_reflect (~ bytes_compare k key < 0)).
    + rewrite decide_True by done. destruct (record_key _ _ _ _ _ Hpage) as [post ->].
      unfold memcpy_from. rewrite (proj2 (Z.leb_le _ _)) by lia. cbn [andb].
      rewrite (proj2 (Z.leb_le _ _)) by sizes. by rewrite Nat2Z.id, take_app_length.
    + rewrite decide_False by done.
      replace (size_of rs1 + (Z.of_nat (length k) + 2)) with (size_of rs1 + Z.of_nat (length k) + 2) by lia.
      rewrite (record_value_len _ _ _ _ _ Hpage). run.
      replace (size_of rs1 + Z.of_nat (length k) + 2 + (Z.of_nat (length v) + 2))
        with (size_of (rs1 ++ [(k, v)])) by (rewrite size_of_snoc; lia).
      rewrite IH; [done|by rewrite <- app_assoc|done|lia].
Qed.

Lemma page_key_gte_spec rs :
  page_holds page rs -> keys_sorted rs ->
  page_key_gte page key = Ret (fst <$> head (records_from key rs)).
Proof.
  intros Hpage Hsorted. unfold page_key_gte. change 0 with (size_of []) at 1.
  rewrite (key_gte_spec rs _ []); [done|done|done|]. pose proof (fuel_enough [] rs Hpage). lia.
Qed.

(** A record whose key is a proper prefix of [key] stops the search. *)
Definition hides (r : bytes * bytes) : Prop := r.1 `prefix_of` key /\ r.1 <> key.

Lemma prefix_compare (k post pre' : bytes) c :
  memcmp key (k ++ post) (Z.to_nat (Z.min (Z.of_nat (length k)) (Z.of_nat (length key)))) = Ret c ->
  bytes_compare k key < 0 -> (c = 0 <-> k `prefix_of` key).
Proof.
  intros Hc Hlt. replace (Z.to_nat (Z.min (Z.of_nat (length k)) (Z.of_nat (length key))))
    with (Nat.min (length k) (length key)) in Hc by lia.
  clear pre'. revert k Hc Hlt. induction key as [|y key' IH]; intros [|x k] Hc Hlt; cbn in Hc, Hlt; try done.
  - injection Hc as <-. split; [|done]. intros _. apply prefix_nil.
  - rewrite (Z.eqb_sym y x) in Hc. destruct (Z.eqb_spec x y) as [->|Hne].
    + rewrite (IH k Hc Hlt). split; [intros Hp; by apply prefix_cons|apply prefix_cons_inv_2].
    + injection Hc as <-. split; [|intros Hp; by apply prefix_cons_inv_1 in Hp].
      unfold sign_compare. repeat case_match; lia.
Qed.

Lemma lookup_spec rs2 : forall fuel rs1,
  page_holds page (rs1 ++ rs2) -> keys_sorted rs2 -> (length rs2 < fuel)%nat ->
  lookup_loop fuel page key (size_of rs1)
  = Ret (if decide (Exists hides rs2) then None else records_lookup key rs2).
Proof.
  induction rs2 as [|[k v] rs2 IH]; intros [|fuel] rs1 Hpage Hsorted Hfuel; cbn [length] in Hfuel; [lia| |lia|].
  - rewrite app_nil_r in Hpage. destruct Hpage as [_ Hsize _]. cbn [lookup_loop]. rewrite Hsize.
    rewrite Z.ltb_irrefl. by case_decide.
  - cbn [lookup_loop]. rewrite (record_inside _ _ _ _ _ Hpage), (record_key_len _ _ _ _ _ Hpage). run.
    destruct (compare_key _ _ _ _ _ key Hpage) as (c & Hc & Hcmp). rewrite Hc. run.
    destruct (record_key _ _ _ _ _ Hpage) as [post Hkey]. rewrite Hkey in Hc.
    apply StronglySorted_inv in Hsorted as [Hsorted Hall].
    replace (size_of rs1 + (Z.of_nat (length k) + 2)) with (size_of rs1 + Z.of_nat (length k) + 2) by lia.
    assert (Hlater : 0 <= bytes_compare k key -> ~ Exists hides rs2 /\ (k <> key -> records_lookup key rs2 = None)).
    { intros Hge. assert (Hgt : Forall (fun r => 0 < bytes_compare r.1 key) rs2).
      { eapply Forall_impl; [exact Hall|]. intros r Hr. cbn in Hr.
        destruct (decide (0 < bytes_compare r.1 key)); [done|].
        pose proof (bytes_compare_le_trans k r.1 key). unfold key_lt in Hr.
        assert (bytes_compare k key = 0) as He by lia. apply bytes_compare_eq in He as ->.
        rewrite bytes_compare_sym in Hr. lia. }
      split.
      - intros (r & Hin & [[tail Htail] Hne])%Exists_exists. rewrite Forall_forall in Hgt.
        specialize (Hgt r Hin). rewrite Htail in Hgt. clear -Hgt.
        induction r.1 as [|x l IH]; cbn in Hgt; [by destruct tail|]. rewrite Z.eqb_refl in Hgt. auto.
      - intros Hne. clear -Hgt. induction Hgt as [|[k' v'] rs Hr _ IH]; [done|]. cbn in *.
        rewrite decide_False; [done|]. intros ->. rewrite bytes_compare_refl in Hr. lia. }
    destruct (decide (k = key)) as [->|Hne].
    { rewrite bytes_compare_refl in Hcmp, Hlater. rewrite Z.eqb_refl, andb_true_r.
      destruct (Z.eqb_spec c 0) as [->|]; [|lia].
      rewrite (record_value_len _ _ _ _ _ Hpage). run.
      replace (size_of rs1 + Z.of_nat (length key) + 2 + 2) with (size_of rs1 + Z.of_nat (length key) + 4) by lia.
      destruct (record_value _ _ _ _ _ Hpage) as [post' ->].
      unfold memcpy_from. rewrite (proj2 (Z.leb_le _ _)) by lia. cbn [andb].
      rewrite (proj2 (Z.leb_le _ _)) by sizes. rewrite Nat2Z.id, take_app_length. run.
      destruct (Hlater ltac:(lia)) as [Hno _]. rewrite decide_False; [cbn; by rewrite decide_True|].
      intros [[_ Hd]|Ht]%Exists_cons; done. }
    assert (Heq0 : ((c =? 0) && (Z.of_nat (length k) =? Z.of_nat (length key))) = false).
    { destruct (Z.eqb_spec c 0) as [->|]; [|done]. destruct (Z.eqb_spec (Z.of_nat (length k)) (Z.of_nat (length key)));
        [|done]. exfalso. apply Hne. symmetry. apply bytes_compare_eq. rewrite Hcmp. cbn. sign. }
    rewrite Heq0. cbn [records_lookup]. rewrite (decide_False (P := key = k)) by congruence.
    destruct (Z.ltb_spec 0 c) as [Hpos|Hneg].
    + rewrite (record_value_len _ _ _ _ _ Hpage). run.
      replace (size_of rs1 + Z.of_nat (length k) + 2 + (Z.of_nat (length v) + 2))
        with (size_of (rs1 ++ [(k, v)])) by (rewrite size_of_snoc; lia).
      rewrite IH; [|by rewrite <- app_assoc|done|lia]. f_equal. apply decide_ext. rewrite Exists_cons.
      split; [by right|]. intros [[Hp _]|He]; [|done]. exfalso.
      assert (bytes_compare k key < 0) as Hlt.
      { rewrite bytes_compare_sym, Hcmp. destruct (Z.eqb_spec c 0); lia. }
      apply (prefix_compare k post [] c Hc Hlt) in Hp. lia.
    + f_equal. destruct (decide (bytes_compare k key < 0)) as [Hlt|Hge].
      * assert (c = 0) as ->.
        { rewrite bytes_compare_sym, Hcmp in Hlt. destruct (Z.eqb_spec c 0); lia. }
        rewrite decide_True; [done|]. left. split; [|done]. by apply (prefix_compare k post [] 0 Hc Hlt).
      * destruct (Hlater ltac:(lia)) as [_ Hnone]. rewrite Hnone by done. by destruct (decide (Exists hides ((k, v) :: rs2))).
Qed.

Lemma lookup_page_value_spec rs :
  page_holds page rs -> keys_sorted rs ->
  lookup_page_value page key = Ret (if decide (Exists hides rs) then None else records_lookup key rs).
Proof.
  intros Hpage Hsorted. unfold lookup_page_value. change 0 with (size_of []) at 1.
  rewrite (lookup_spec rs _ []); [done|done|done|]. pose proof (fuel_enough [] rs Hpage). lia.
Qed.

End search.

(** ** Shifting records *)

Lemma list_split {A} (old : list A) (a b c d : nat) :
  length old = (a + b + c + d)%nat ->
  exists o1 o2 o3 o4, old = o1 ++ o2 ++ o3 ++ o4
    /\ length o1 = a /\ length o2 = b /\ length o3 = c /\ length o4 = d.
Proof.
  intros Hlen. exists (take a old), (take b (drop a old)), (take c (drop b (drop a old))),
    (drop c (drop b (drop a old))). rewrite !take_drop. split_and!; [done|..];
    rewrite ?length_take, ?length_drop; lia.
Qed.

Lemma write_at_fill (pre old post new : bytes) (off : Z) :
  off = Z.of_nat (length pre) -> length old = length new ->
  write_at (pre ++ old ++ post) off new = Ret (pre ++ new ++ post).
Proof. intros -> Hlen. by apply write_at_app. Qed.

Lemma write_short_fill (pre old post : bytes) (off n : Z) :
  off = Z.of_nat (length pre) -> length old = 2%nat ->
  gzochi_common_io_write_short (s16 n) (pre ++ old ++ post) off = Ret (pre ++ be_encode 2 n ++ post).
Proof.
  intros -> Hlen. rewrite (be_write (BigEndian := short_codec)), (be_encode_signed 2) by lia.
  apply write_at_app. by rewrite be_encode_length.
Qed.

(** Writing the parts of a record one after the other over what was there. *)
Lemma write_record (pre old post k v : bytes) :
  length old = (length k + length v + 4)%nat ->
  (data ← gzochi_common_io_write_short (s16 (Z.of_nat (length k))) (pre ++ old ++ post) (Z.of_nat (length pre));
   data ← write_at data (Z.of_nat (length pre) + 2) k;
   data ← gzochi_common_io_write_short (s16 (Z.of_nat (length v))) data
     (Z.of_nat (length pre) + Z.of_nat (length k) + 2);
   write_at data (Z.of_nat (length pre) + Z.of_nat (length k) + 4) v)
  = Ret (pre ++ encode_record (k, v) ++ post).
Proof.
  intros Hlen.
  destruct (list_split old 2 (length k) 2 (length v)) as (o1 & o2 & o3 & o4 & -> & L1 & L2 & L3 & L4); [lia|].
  rewrite <- !app_assoc. rewrite write_short_fill by done. run.
  rewrite (app_assoc pre). rewrite write_at_fill by sizes. run.
  rewrite (app_assoc (pre ++ _)). rewrite write_short_fill by (done || sizes). run.
  rewrite (app_assoc ((pre ++ _) ++ _)). rewrite write_at_fill by sizes.
  unfold encode_record. cbn [fst snd]. by rewrite <- !app_assoc.
Qed.

Section shift.

Context (page : btree_page) (rs1 rs2 : list (bytes * bytes)).

(** Inserting a record between others for which there is room. *)
Lemma page_insert_spec (k v : bytes) :
  page_holds page (rs1 ++ rs2) ->
  page_size page + Z.of_nat (length k + length v + 4) <= MAX_PAGE_SIZE ->
  exists page', page_insert page (size_of rs1) k v = Ret page'
    /\ page_holds page' (rs1 ++ (k, v) :: rs2).
Proof.
  intros [[rest Hdata] Hsize Hblock] Hroom. rewrite encode_records_app in Hdata, Hsize.
  set (e1 := encode_records rs1) in *. set (e2 := encode_records rs2) in *.
  set (n := (length k + length v + 4)%nat).
  assert (Hrest : (n <= length rest)%nat).
  { rewrite Hdata in Hblock. rewrite !length_app in *. unfold MAX_PAGE_SIZE in *. lia. }
  unfold page_insert. rewrite (proj2 (Z.leb_le _ _)) by lia. run.
  assert (Hmove : exists old, length old = n /\
    (if Z.of_nat (length e1) <? page_size page
     then memmove (page_data page) (Z.of_nat (length e1) + (Z.of_nat (length k) + Z.of_nat (length v) + 4))
            (Z.of_nat (length e1)) (page_size page - Z.of_nat (length e1))
     else Ret (page_data page)) = Ret (e1 ++ old ++ e2 ++ drop n rest)).
  { destruct (Z.ltb_spec (Z.of_nat (length e1)) (page_size page)).
    - exists (take n (e2 ++ rest)). split; [rewrite length_take, length_app; lia|].
      unfold memmove, memcpy_from. rewrite Hdata, Nat2Z.id, <- app_assoc, drop_app_length.
      rewrite (proj2 (Z.leb_le _ _)) by lia. cbn [andb].
      rewrite (proj2 (Z.leb_le _ _)) by (rewrite Hsize; sizes). run.
      replace (Z.to_nat (page_size page - Z.of_nat (length e1))) with (length e2) by (rewrite length_app in Hsize; lia).
      rewrite take_app_length. rewrite <- (take_drop n (e2 ++ rest)) at 1.
      rewrite (app_assoc e1).
      replace (drop n (e2 ++ rest)) with (take (length e2) (drop n (e2 ++ rest)) ++ drop n rest).
      2:{ rewrite <- (take_drop (length e2) (drop n (e2 ++ rest))) at 2. f_equal.
          rewrite drop_drop, (Nat.add_comm n), <- drop_drop, drop_app_length. done. }
      rewrite write_at_fill; [by rewrite <- app_assoc| |].
      + rewrite length_app, length_take, length_app. unfold n. lia.
      + rewrite length_take, length_drop, length_app. lia.
    - exists (take n rest). split; [rewrite length_take; lia|]. rewrite Hdata.
      assert (e2 = []) as ->. { apply length_zero_iff_nil. rewrite length_app in Hsize. lia. }
      rewrite app_nil_r. by rewrite app_nil_l, take_drop. }
  destruct Hmove as (old & Hold & ->). run.
  pose proof (write_record e1 old (e2 ++ drop n rest) k v Hold) as Hw.
  apply bind_Ret in Hw as (d1 & -> & Hw). run. apply bind_Ret in Hw as (d2 & -> & Hw). run.
  apply bind_Ret in Hw as (d3 & -> & Hw). run. rewrite Hw. run.
  eexists. split; [done|]. split; cbn [page_size page_data].
  - exists (drop n rest). rewrite encode_records_app, encode_records_cons. by rewrite <- !app_assoc.
  - rewrite encode_records_app, encode_records_cons, !length_app, encode_record_length. cbn [fst snd].
    fold e1 e2. rewrite Hsize, length_app. lia.
  - rewrite <- Hblock, Hdata. rewrite !length_app, encode_record_length, length_drop. cbn [fst snd].
    unfold n in *. lia.
Qed.

(** Removing a record moves what follows to its place. *)
Lemma page_remove_spec (k v : bytes) :
  page_holds page (rs1 ++ (k, v) :: rs2) ->
  exists page', page_remove page (size_of rs1) = Ret page' /\ page_holds page' (rs1 ++ rs2).
Proof.
  intros Hpage. unfold page_remove.
  rewrite (record_key_len _ _ _ _ _ Hpage). run. rewrite (record_value_len _ _ _ _ _ Hpage). run.
  destruct Hpage as [[rest Hdata] Hsize Hblock].
  rewrite size_of_app, size_of_cons in Hsize. cbn [fst snd] in Hsize.
  rewrite encode_records_app, encode_records_cons in Hdata.
  pose proof (encode_record_length (k, v)) as Hr. cbn [fst snd] in Hr.
  set (e1 := encode_records rs1) in *. set (e2 := encode_records rs2) in *. set (e := encode_record (k, v)) in *.
  assert (Hmove : exists rest',
    (if Z.of_nat (length e1) + (Z.of_nat (length k) + Z.of_nat (length v) + 4) <? page_size page
     then memmove (page_data page) (Z.of_nat (length e1))
            (Z.of_nat (length e1) + (Z.of_nat (length k) + Z.of_nat (length v) + 4))
            (page_size page - (Z.of_nat (length e1) + (Z.of_nat (length k) + Z.of_nat (length v) + 4)))
     else Ret (page_data page)) = Ret (e1 ++ e2 ++ rest') /\ length rest' = (length e + length rest)%nat).
  { destruct (Z.ltb_spec (Z.of_nat (length e1) + (Z.of_nat (length k) + Z.of_nat (length v) + 4)) (page_size page)).
    - exists (drop (length e2) (e ++ e2 ++ rest)). split; [|rewrite length_drop, !length_app; lia].
      unfold memmove, memcpy_from. rewrite Hdata.
      replace (Z.to_nat (Z.of_nat (length e1) + (Z.of_nat (length k) + Z.of_nat (length v) + 4)))
        with (length (e1 ++ e)) by (rewrite length_app; lia).
      replace ((e1 ++ e ++ e2) ++ rest) with ((e1 ++ e) ++ e2 ++ rest) by (by rewrite <- !app_assoc).
      rewrite drop_app_length. rewrite (proj2 (Z.leb_le _ _)) by lia. cbn [andb].
      rewrite (proj2 (Z.leb_le _ _)) by (rewrite Hsize; sizes). run.
      replace (Z.to_nat (page_size page - _)) with (length e2) by lia.
      rewrite take_app_length, <- app_assoc.
      rewrite <- (take_drop (length e2) (e ++ e2 ++ rest)) at 1.
      rewrite write_at_fill; [done|done|]. rewrite length_take, !length_app. lia.
    - exists (e ++ rest). split; [|rewrite length_app; lia].
      assert (e2 = []) as ->. { apply length_zero_iff_nil. lia. }
      rewrite Hdata. by rewrite app_nil_r, <- app_assoc. }
  destruct Hmove as (rest' & -> & Hrest'). run. eexists. split; [done|]. split; cbn [page_size page_data].
  - exists rest'. rewrite encode_records_app. by rewrite <- app_assoc.
  - rewrite size_of_app. fold e1 e2. lia.
  - rewrite <- Hblock, Hdata. rewrite !length_app. lia.
Qed.

End shift.

(** ** A page is a sorted association list *)

Definition records_after (k : bytes) (rs : list (bytes * bytes)) : list (bytes * bytes) :=
  filter (fun r => 0 < bytes_compare r.1 k) rs.

Definition records_insert (k v : bytes) (rs : list (bytes * bytes)) : list (bytes * bytes) :=
  records_before k rs ++ (k, v) :: records_after k rs.

Definition records_delete (k : bytes) (rs : list (bytes * bytes)) : list (bytes * bytes) :=
  records_before k rs ++ records_after k rs.

Lemma lookup_app_none k rs1 rs2 :
  Forall (fun r => r.1 <> k) rs1 -> records_lookup k (rs1 ++ rs2) = records_lookup k rs2.
Proof.
  induction 1 as [|[k' v'] rs1 Hne _ IH]; [done|]. cbn in *. by rewrite decide_False.
Qed.

Lemma before_other k rs : Forall (fun r => r.1 <> k) (records_before k rs).
Proof.
  eapply Forall_impl; [apply before_forall|]. intros r Hr He. cbn in Hr. rewrite He, bytes_compare_refl in Hr. lia.
Qed.

(** What is from a key on is its record, if there is one, and what is after it. *)
Lemma records_from_cases k rs :
  keys_sorted rs ->
  (exists v, records_lookup k rs = Some v /\ records_from k rs = (k, v) :: records_after k rs)
  \/ (records_lookup k rs = None /\ records_from k rs = records_after k rs).
Proof.
  unfold records_from, records_after. induction 1 as [|[k' v'] rs Hsorted IH Hall]; [by right|].
  rewrite !filter_cons. cbn [fst records_lookup].
  destruct (decide (bytes_compare k' k < 0)) as [Hlt|Hge].
  - rewrite (decide_False (P := ~ _)) by tauto. rewrite (decide_False (P := 0 < _)) by lia.
    rewrite (decide_False (P := k = k')); [exact IH|]. intros ->. rewrite bytes_compare_refl in Hlt. lia.
  - rewrite (decide_True (P := ~ _)) by done.
    assert (Hgt : Forall (fun r => 0 < bytes_compare r.1 k) rs).
    { eapply Forall_impl; [exact Hall|]. intros r Hr. cbn in Hr.
      destruct (decide (0 < bytes_compare r.1 k)); [done|].
      pose proof (bytes_compare_le_trans k' r.1 k). unfold key_lt in Hr.
      assert (bytes_compare k' k = 0) as He by lia. apply bytes_compare_eq in He as ->.
      rewrite bytes_compare_sym in Hr. lia. }
    assert (Hnot : Forall (fun r => ~ bytes_compare r.1 k < 0) rs).
    { eapply Forall_impl; [exact Hgt|]. intros r Hr. cbn in Hr. lia. }
    rewrite (filter_all _ rs Hgt), (filter_all _ rs Hnot).
    destruct (decide (k = k')) as [<-|Hne].
    + left. exists v'. rewrite (decide_False (P := 0 < _)); [done|]. rewrite bytes_compare_refl. lia.
    + right. rewrite (decide_True (P := 0 < _)).
      2:{ destruct (decide (bytes_compare k' k = 0)) as [He|]; [|lia].
          apply bytes_compare_eq in He. congruence. }
      split; [|done]. clear -Hgt. induction Hgt as [|[k1 v1] rs Hr _ IH]; [done|]. cbn in *.
      rewrite decide_False; [done|]. intros ->. rewrite bytes_compare_refl in Hr. lia.
Qed.

Lemma sorted_app rs1 rs2 :
  keys_sorted rs1 -> keys_sorted rs2 -> (forall a b, a ∈ rs1 -> b ∈ rs2 -> key_lt a.1 b.1) ->
  keys_sorted (rs1 ++ rs2).
Proof.
  intros H1 H2 H. induction H1 as [|r rs1 H1 IH Hall]; [done|]. cbn. constructor.
  - apply IH. intros a b Ha Hb. apply H; [by right|done].
  - apply Forall_app. split; [done|]. apply Forall_forall. intros b Hb. apply H; [by left|done].
Qed.

Lemma filter_keys_sorted (P : bytes * bytes -> Prop) `{forall x, Decision (P x)} rs :
  keys_sorted rs -> keys_sorted (filter P rs).
Proof.
  induction 1 as [|r rs Hsorted IH Hall]; [constructor|]. rewrite filter_cons. case_decide; [|done].
  constructor; [done|]. apply Forall_forall. intros b [_ Hb]%list_elem_of_filter.
  rewrite Forall_forall in Hall. by apply Hall.
Qed.

Lemma insert_sorted k v rs : keys_sorted rs -> keys_sorted (records_insert k v rs).
Proof.
  intros Hsorted. unfold records_insert. apply sorted_app; [by apply filter_keys_sorted| |].
  - constructor; [by apply filter_keys_sorted|]. apply Forall_forall.
    intros b [Hb _]%list_elem_of_filter. cbn. unfold key_lt. rewrite bytes_compare_sym. cbn in Hb. lia.
  - intros a b [Ha _]%list_elem_of_filter [->|Hb]%elem_of_cons; [done|].
    apply list_elem_of_filter in Hb as [Hb _]. apply (key_lt_trans _ k); [done|].
    unfold key_lt. rewrite bytes_compare_sym. lia.
Qed.

Lemma delete_sorted k rs : keys_sorted rs -> keys_sorted (records_delete k rs).
Proof.
  intros Hsorted. unfold records_delete. apply sorted_app; [by apply filter_keys_sorted..|].
  intros a b [Ha _]%list_elem_of_filter [Hb _]%list_elem_of_filter. apply (key_lt_trans _ k); [done|].
  unfold key_lt. rewrite bytes_compare_sym. lia.
Qed.

(** C16. A page of sorted records behaves as a sorted association list, but for looking a
    value up when another key of the page is a prefix of its key.  The offset of a
    key is that of the first record that is not before it, which has the key exactly if
    the page does; removing that record and inserting one there, when there is room,
    give the page with the list without the key and with it; the first key from a key on
    is found.  A value is found by its key if no other key of the page is a prefix of the
    key; if there is one, nothing is found, whether the key is there or not
    ([MemDefects.put_is_not_found]). *)
Theorem page_refines (page : btree_page) (rs : list (bytes * bytes)) (k v : bytes)
    (Hpage : page_holds page rs) (Hsorted : keys_sorted rs) :
  exists offset, page_key_offset page k = Ret offset
    /\ page_key_gte page k = Ret (fst <$> head (records_from k rs))
    /\ lookup_page_value page k
       = Ret (if decide (Exists (fun r => r.1 `prefix_of` k /\ r.1 <> k) rs) then None else records_lookup k rs)
    /\ match records_lookup k rs with
       | Some _ =>
           compare_page_datum_to_key page offset k = Ret 0
           /\ exists page', page_remove page offset = Ret page'
                /\ page_holds page' (records_delete k rs) /\ keys_sorted (records_delete k rs)
       | None =>
           compare_page_datum_to_key page offset k <> Ret 0
           /\ (page_size page + Z.of_nat (length k + length v + 4) <= MAX_PAGE_SIZE ->
               exists page', page_insert page offset k v = Ret page'
                 /\ page_holds page' (records_insert k v rs) /\ keys_sorted (records_insert k v rs))
       end.
Proof.
  exists (size_of (records_before k rs)).
  pose proof (sorted_split k rs Hsorted) as Hsplit.
  split_and!; [by apply page_key_offset_spec|by apply page_key_gte_spec|by apply lookup_page_value_spec|].
  destruct (records_from_cases k rs Hsorted) as [(v' & -> & Hfrom)|[-> Hfrom]]; rewrite Hfrom in Hsplit.
  - rewrite Hsplit in Hpage. split.
    + rewrite (compare_at _ _ _ _ _ k Hpage). by rewrite bytes_compare_refl.
    + destruct (page_remove_spec page _ _ k v' Hpage) as (page' & Hrem & Hp').
      exists page'. split_and!; [done|done|by apply delete_sorted].
  - rewrite Hsplit in Hpage. split.
    + destruct (records_after k rs) as [|[k' v'] rs'] eqn:Hafter.
      * rewrite app_nil_r in Hpage. by rewrite (compare_at_end _ _ k Hpage).
      * rewrite (compare_at _ _ _ _ _ k Hpage). intros [= He].
        assert (Hin : (k', v') ∈ records_after k rs) by (rewrite Hafter; by left).
        apply list_elem_of_filter in Hin as [Hin _]. cbn in Hin. lia.
    + intros Hroom. destruct (page_insert_spec page _ _ k v Hpage Hroom) as (page' & Hins & Hp').
      exists page'. split_and!; [done|done|by apply insert_sorted].
Qed.

(** ** Examples *)

Definition sample_page : outcome btree_page :=
  page ← page_insert new_page 0 [97] [1];
  offset ← page_key_offset page [98; 98];
  page_insert page offset [98; 98] [2; 2].

Definition sample_records : list (bytes * bytes) := [([97], [1]); ([98; 98], [2; 2])].

(** A key that begins with another key of the page is not found. *)
Example prefix_hides :
  (page ← sample_page;
   offset ← page_key_offset page [97; 97];
   page ← page_insert page offset [97; 97] [3];
   lookup_page_value page [97; 97]) = Ret None.
Proof. vm_compute. reflexivity. Qed.

Lemma page_refines_witness :
  exists page offset, sample_page = Ret page /\ page_key_offset page [98; 98] = Ret offset
    /\ lookup_page_value page [98; 98] = Ret (Some [2; 2])
    /\ exists page', page_remove page offset = Ret page' /\ page_holds page' [([97], [1])].
Proof.
  destruct sample_page as [page| | |] eqn:Hpage; [|vm_compute in Hpage; discriminate..].
  assert (Hholds : page_holds page sample_records).
  { vm_compute in Hpage. injection Hpage as <-. split; [|done|done].
    eexists (replicate (Z.to_nat 4082) 0). vm_compute. reflexivity. }
  destruct (page_refines page sample_records [98; 98] [] Hholds) as (offset & Hoff & _ & Hlook & _ & Hrem).
  - repeat constructor.
  - exists page, offset. split; [done|]. split; [done|]. split; [|].
    + rewrite Hlook. vm_compute. reflexivity.
    + destruct Hrem as (page' & H1 & H2 & _). exists page'. split; [done|exact H2].
Defined.
