(* ===== verification/MemEnv.v ===== *)
(** * The state of the in-memory storage engine (storage-mem.c)

    The heap of an environment: the nodes of its B+trees with their scratch copies, the
    locks and the table from nodes to locks, the transactions and the trees.  Addresses
    are positives; a null pointer is [None].  The transactions in the list of an
    environment exist. *)

From S2P Require Import Prelude.
From S2P Require Import MemPage.

Local Open Scope Z_scope.

Definition BRANCHING_FACTOR : Z := 8.
Definition MIN_INTERNAL_CHILDREN : Z := 4.
Definition MAX_INTERNAL_CHILDREN : Z := 8.
Definition MIN_LEAF_CHILDREN : Z := 4.
Definition MAX_LEAF_CHILDREN : Z := 7.

Record btree_lock := BtreeLock {
  writer : option positive;
  readers : list positive;
  ref_count : Z
}.

Record btree_transaction := BtreeTransaction {
  end_time : Z;
  waiting_to_read : option positive;
  waiting_to_write : option positive;
  modifications : list positive;
  write_locks : list positive;
  read_locks : list positive
}.

Record btree_node_header := BtreeNodeHeader {
  parent : option positive;
  next : option positive;
  prev : option positive;
  first_child : option positive
}.

Definition FLAG_NEW : Z := 1.
Definition FLAG_TOMBSTONE : Z := 2.

Record btree_node := BtreeNode {
  header : btree_node_header;
  new_header : option btree_node_header;
  min_children : Z;
  max_children : Z;
  flags : Z;
  key : option btree_datum;
  new_key : option btree_datum;
  page : option btree_page;
  new_page : option btree_page
}.

Record btree := Btree {
  root : positive;
  new_root : option positive;
  tree_lock : positive
}.

Record btree_environment := BtreeEnvironment {
  btrees : list positive;
  trees : gmap positive btree;
  transactions : list positive;
  txs : gmap positive btree_transaction;
  nodes : gmap positive btree_node;
  locks : gmap positive btree_lock;
  lock_table : gmap positive positive;
  monotonic_time : Z
}.
Abbreviation env := btree_environment.

Definition create_btree_environment (now : Z) : env := BtreeEnvironment [] ∅ [] ∅ ∅ ∅ ∅ now.

(** Freeing an environment needs that nothing is open. *)
Definition close_btree_environment (e : env) : outcome unit :=
  _ ← c_assert (bool_decide (btrees e = []));
  c_assert (bool_decide (transactions e = [])).

(** ** Updating the parts *)

Definition set_nodes (m : gmap positive btree_node) (e : env) : env :=
  BtreeEnvironment (btrees e) (trees e) (transactions e) (txs e) m (locks e) (lock_table e) (monotonic_time e).
Definition put_node (n : positive) (x : btree_node) (e : env) : env := set_nodes (<[n := x]> (nodes e)) e.
Definition set_locks (m : gmap positive btree_lock) (e : env) : env :=
  BtreeEnvironment (btrees e) (trees e) (transactions e) (txs e) (nodes e) m (lock_table e) (monotonic_time e).
Definition put_lock (l : positive) (x : btree_lock) (e : env) : env := set_locks (<[l := x]> (locks e)) e.
Definition set_lock_table (m : gmap positive positive) (e : env) : env :=
  BtreeEnvironment (btrees e) (trees e) (transactions e) (txs e) (nodes e) (locks e) m (monotonic_time e).
Definition set_txs (l : list positive) (m : gmap positive btree_transaction) (e : env) : env :=
  BtreeEnvironment (btrees e) (trees e) l m (nodes e) (locks e) (lock_table e) (monotonic_time e).
Definition put_tx (t : positive) (x : btree_transaction) (e : env) : env :=
  set_txs (transactions e) (<[t := x]> (txs e)) e.
Definition set_trees (l : list positive) (m : gmap positive btree) (e : env) : env :=
  BtreeEnvironment l m (transactions e) (txs e) (nodes e) (locks e) (lock_table e) (monotonic_time e).
Definition put_tree (b : positive) (x : btree) (e : env) : env := set_trees (btrees e) (<[b := x]> (trees e)) e.

Definition with_waiting (r w : option positive) (x : btree_transaction) : btree_transaction :=
  BtreeTransaction (end_time x) r w (modifications x) (write_locks x) (read_locks x).
Definition with_held (w r : list positive) (x : btree_transaction) : btree_transaction :=
  BtreeTransaction (end_time x) (waiting_to_read x) (waiting_to_write x) (modifications x) w r.
Definition with_modifications (m : list positive) (x : btree_transaction) : btree_transaction :=
  BtreeTransaction (end_time x) (waiting_to_read x) (waiting_to_write x) m (write_locks x) (read_locks x).

Definition empty_header : btree_node_header := BtreeNodeHeader None None None None.

Definition with_headers (h : btree_node_header) (nh : option btree_node_header) (x : btree_node) : btree_node :=
  BtreeNode h nh (min_children x) (max_children x) (flags x) (key x) (new_key x) (page x) (new_page x).
Definition with_keys (k nk : option btree_datum) (x : btree_node) : btree_node :=
  BtreeNode (header x) (new_header x) (min_children x) (max_children x) (flags x) k nk (page x) (new_page x).
Definition with_pages (p np : option btree_page) (x : btree_node) : btree_node :=
  BtreeNode (header x) (new_header x) (min_children x) (max_children x) (flags x) (key x) (new_key x) p np.
Definition with_flags (f : Z) (x : btree_node) : btree_node :=
  BtreeNode (header x) (new_header x) (min_children x) (max_children x) f (key x) (new_key x) (page x) (new_page x).
Definition with_bounds (lo hi : Z) (x : btree_node) : btree_node :=
  BtreeNode (header x) (new_header x) lo hi (flags x) (key x) (new_key x) (page x) (new_page x).

(** [g_list_remove] and [g_list_delete_link] of the link that was found. *)
Fixpoint list_delete (x : positive) (l : list positive) : list positive :=
  match l with
  | [] => []
  | y :: l => if decide (x = y) then l else y :: list_delete x l
  end.

(** ** Flags *)

Definition is_new (x : btree_node) : bool := negb (Z.land (flags x) FLAG_NEW =? 0).
Definition is_deleted (x : btree_node) : bool := negb (Z.land (flags x) FLAG_TOMBSTONE =? 0).
Definition clear_flags (x : btree_node) : btree_node := with_flags 0 x.
Definition mark_deleted (x : btree_node) : btree_node := with_flags (Z.lor (flags x) FLAG_TOMBSTONE) x.

Definition create_btree_node (parent : option positive) (lo hi : Z) (key : option btree_datum) : btree_node :=
  BtreeNode (BtreeNodeHeader parent None None None) None lo hi FLAG_NEW key None None None.

(** ** Transactions *)

Definition no_transaction : btree_transaction := BtreeTransaction 0 None None [] [] [].

Definition tx_of (e : env) (t : positive) : btree_transaction := default no_transaction (txs e !! t).

Definition create_transaction (finish : Z) (e : env) : positive * env :=
  let t := fresh (dom (txs e)) in
  (t, set_txs (t :: transactions e) (<[t := BtreeTransaction finish None None [] [] []]> (txs e)) e).

Definition cleanup_transaction (t : positive) (e : env) : outcome env :=
  _ ← c_assert (bool_decide (t ∈ transactions e));
  Ret (set_txs (list_delete t (transactions e)) (base.delete t (txs e)) e).

(** True while there is time left. *)
Definition check_tx_timeout (t : positive) (e : env) : bool := monotonic_time e <? end_time (tx_of e t).

(** ** Lists with an element removed *)

Lemma list_delete_elem (x y : positive) (l : list positive) :
  NoDup l -> y ∈ list_delete x l <-> y ∈ l /\ y <> x.
Proof.
  induction 1 as [|z l Hz Hl IH]; cbn; [set_solver|].
  destruct (decide (x = z)) as [<-|Hne]; [set_solver|]. rewrite !elem_of_cons, IH.
  split; [intros [->|[? ?]]; split; auto|intros [[->|?] ?]; auto].
Qed.

Lemma list_delete_nodup (x : positive) (l : list positive) : NoDup l -> NoDup (list_delete x l).
Proof.
  intros Hl. induction Hl as [|z l Hz Hl IH]; cbn; [constructor|].
  destruct (decide (x = z)); [done|]. constructor; [|done]. rewrite list_delete_elem by done. tauto.
Qed.

Lemma list_delete_id (x : positive) (l : list positive) : x ∉ l -> list_delete x l = l.
Proof.
  induction l as [|z l IH]; [done|]. intros Hx. cbn. rewrite decide_False by set_solver.
  f_equal. apply IH. set_solver.
Qed.

Lemma list_delete_perm (x : positive) (l : list positive) : x ∈ l -> l ≡ₚ x :: list_delete x l.
Proof.
  induction l as [|z l IH]; [by intros ?%not_elem_of_nil|]. intros Hx. cbn.
  destruct (decide (x = z)) as [<-|Hne]; [done|]. rewrite IH at 1 by set_solver. constructor.
Qed.
