(* ===== verification/MemLock.v ===== *)
(** * The locks of the in-memory storage engine (storage-mem.c)

    Transactions read and write nodes under locks that they wait for.  A transaction
    declares what it waits for, and looks for a deadlock before it waits: for a cycle of
    transactions each of which waits for the next.  What others do while it waits is a
    parameter, [wait]. *)

From Stdlib Require Import Relations.
From S2P Require Import Prelude.
From S2P Require Import MemPage.
From S2P Require Import MemEnv.

Local Open Scope Z_scope.

(** ** Locks *)

Definition lock_new : btree_lock := BtreeLock None [] 0.

Definition lock_free (l : positive) (e : env) : outcome env :=
  lk ← deref (locks e !! l);
  _ ← c_assert (bool_decide (writer lk = None));
  _ ← c_assert (bool_decide (readers lk = []));
  Ret (set_locks (base.delete l (locks e)) e).

Definition with_count (n : Z) (lk : btree_lock) : btree_lock := BtreeLock (writer lk) (readers lk) n.

Definition lock_attach (n : positive) (e : env) : env :=
  let l := fresh (dom (locks e)) in
  set_lock_table (<[n := l]> (lock_table e)) (put_lock l (with_count 1 lock_new) e).

Definition create_lockable_btree_node (parent : option positive) (lo hi : Z) (key : option btree_datum)
    (e : env) : positive * env :=
  let n := fresh (dom (nodes e)) in
  (n, lock_attach n (put_node n (create_btree_node parent lo hi key) e)).

(** ** Deadlocks *)

Definition waits_to_write (e : env) (t l : positive) : bool := bool_decide (waiting_to_write (tx_of e t) = Some l).
Definition waits_to_read (e : env) (t l : positive) : bool := bool_decide (waiting_to_read (tx_of e t) = Some l).

Definition competing_w_lock (e : env) (self : positive) (ancestors : list positive) (l : positive) : bool :=
  existsb (fun t => negb (t =? self)%positive && waits_to_write e t l) ancestors.

Definition competing_rw_lock (e : env) (ancestors : list positive) (l : positive) : bool :=
  existsb (fun t => waits_to_write e t l || waits_to_read e t l) ancestors.

(** Another transaction of the list waits for a lock of this one. *)
Definition competing (e : env) (ts : list positive) (t : positive) : bool :=
  existsb (competing_w_lock e t ts) (read_locks (tx_of e t))
  || existsb (competing_rw_lock e ts) (write_locks (tx_of e t)).

(** The inner loop begins again when it has removed a transaction. *)
Fixpoint detect_pass (fuel : nat) (e : env) (q l ptr : list positive) (continue : bool)
  : outcome (list positive * list positive * bool) :=
  match fuel with
  | O => Fuel
  | S fuel =>
      match ptr with
      | [] => Ret (q, l, continue)
      | t :: ptr =>
          if competing e l t then detect_pass fuel e q l ptr continue
          else let l := list_delete t l in detect_pass fuel e (t :: q) l l true
      end
  end.

Fixpoint detect_loop (fuel : nat) (e : env) (q l : list positive) : outcome (list positive) :=
  match fuel with
  | O => Fuel
  | S fuel =>
      if bool_decide (l = []) then Ret q
      else
        '(q, l, continue) ← detect_pass (S (length l * length l + length l + length l)) e q l l false;
        if continue : bool then detect_loop fuel e q l else Ret q
  end.

Definition lock_detect (e : env) : outcome bool :=
  q ← detect_loop (S (S (length (transactions e)))) e [] (transactions e);
  Ret (negb (length q =? length (transactions e))%nat).

(** ** Acquiring *)

(** The intent of a transaction; a read lock that is to become a write lock is given up
    for the time being.  The result is whether there is anything to wait for. *)
Definition lock_declare (l t : positive) (write : bool) (e : env) : outcome (bool * env) :=
  lk ← deref (locks e !! l);
  let tx := tx_of e t in
  _ ← c_assert (bool_decide (waiting_to_write tx = None));
  _ ← c_assert (bool_decide (waiting_to_read tx = None));
  if write then
    if bool_decide (writer lk = Some t) then Ret (false, e)
    else
      if bool_decide (l ∈ read_locks tx) then
        _ ← c_assert (bool_decide (t ∈ readers lk));
        let e := put_tx t (with_held (write_locks tx) (list_delete l (read_locks tx))
                   (with_waiting (waiting_to_read tx) (Some l) tx)) e in
        Ret (true, put_lock l (BtreeLock (writer lk) (list_delete t (readers lk)) (ref_count lk)) e)
      else Ret (true, put_tx t (with_waiting (waiting_to_read tx) (Some l) tx) e)
  else if bool_decide (writer lk = Some t) || bool_decide (l ∈ read_locks tx) then Ret (false, e)
  else Ret (true, put_tx t (with_waiting (Some l) (waiting_to_write tx) tx) e).

(** One attempt: the result is whether the lock is still needed. *)
Definition lock_attempt (l t : positive) (write : bool) (e : env) : outcome (bool * env) :=
  lk ← deref (locks e !! l);
  let tx := tx_of e t in
  if write then
    if bool_decide (writer lk = None) && bool_decide (readers lk = []) then
      Ret (false, put_tx t (with_held (l :: write_locks tx) (read_locks tx) tx)
                    (put_lock l (BtreeLock (Some t) (readers lk) (ref_count lk)) e))
    else Ret (true, e)
  else if bool_decide (writer lk = None) then
    Ret (false, put_tx t (with_held (write_locks tx) (l :: read_locks tx) tx)
                  (put_lock l (BtreeLock (writer lk) (t :: readers lk) (ref_count lk)) e))
  else Ret (true, e).

Definition lock_end (t : positive) (write : bool) (e : env) : env :=
  let tx := tx_of e t in
  put_tx t (if write then with_waiting (waiting_to_read tx) None tx
            else with_waiting None (waiting_to_write tx) tx) e.

Section waiting.

(** The world when the wait of a transaction for a lock ends, and a bound on how often
    it waits. *)
Context (wait : positive -> positive -> env -> env) (patience : nat).

Fixpoint lock_loop (fuel : nat) (l t : positive) (write : bool) (e : env) : outcome (bool * env) :=
  match fuel with
  | O => Fuel
  | S fuel =>
      if negb (check_tx_timeout t e) then Ret (true, e)
      else
        '(needs_lock, e) ← lock_attempt l t write e;
        if needs_lock : bool then
          deadlock ← lock_detect e;
          if deadlock : bool then Ret (true, e)
          else lock_loop fuel l t write (wait l t e)
        else Ret (false, e)
  end.

(** True when the transaction holds the lock as it wants to; otherwise the error is set. *)
Definition tx_lock (l t : positive) (write : bool) (e : env) : outcome (bool * env) :=
  '(needs_lock, e) ← lock_declare l t write e;
  '(needs_lock, e) ← (if needs_lock : bool then lock_loop patience l t write e else Ret (false, e));
  Ret (negb needs_lock, lock_end t write e).

Inductive btree_lock_node_response := SUCCESS | FAILURE | DELETED.

#[export] Instance response_eq_dec : EqDecision btree_lock_node_response.
Proof. solve_decision. Defined.

Definition lock_ref (n : positive) (e : env) : outcome (option positive * env) :=
  match lock_table e !! n with
  | None => Ret (None, e)
  | Some l => lk ← deref (locks e !! l); Ret (Some l, put_lock l (with_count (ref_count lk + 1) lk) e)
  end.

Definition lock_unref (l : positive) (e : env) : outcome env :=
  lk ← deref (locks e !! l);
  let e := put_lock l (with_count (ref_count lk - 1) lk) e in
  if ref_count lk =? 1 then lock_free l e else Ret e.

(** The response, and whether the error is set. *)
Definition tx_lock_node (n t : positive) (write : bool) (e : env)
  : outcome (btree_lock_node_response * bool * env) :=
  '(l, e) ← lock_ref n e;
  match l with
  | None => Ret (DELETED, false, e)
  | Some l =>
      '(locked, e) ← tx_lock l t write e;
      e ← lock_unref l e;
      let ret := match lock_table e !! n with
                 | None => DELETED
                 | Some _ => if locked : bool then SUCCESS else FAILURE
                 end in
      Ret (ret, negb locked, e)
  end.

End waiting.

(** ** Releasing *)

Definition tx_unlock (l t : positive) (e : env) : outcome env :=
  lk ← deref (locks e !! l);
  let tx := tx_of e t in
  if bool_decide (writer lk = Some t) then
    _ ← c_assert (bool_decide (l ∈ write_locks tx));
    Ret (put_lock l (BtreeLock None (readers lk) (ref_count lk))
           (put_tx t (with_held (list_delete l (write_locks tx)) (read_locks tx) tx) e))
  else
    _ ← c_assert (bool_decide (l ∈ read_locks tx));
    _ ← c_assert (bool_decide (t ∈ readers lk));
    Ret (put_lock l (BtreeLock (writer lk) (list_delete t (readers lk)) (ref_count lk))
           (put_tx t (with_held (write_locks tx) (list_delete l (read_locks tx)) tx) e)).

Definition tx_unlock_node (n t : positive) (e : env) : outcome env :=
  match lock_table e !! n with
  | Some l => tx_unlock l t e
  | None => Abort
  end.

Definition lock_detach (n t : positive) (e : env) : outcome env :=
  match lock_table e !! n with
  | None => Abort
  | Some l =>
      lk ← deref (locks e !! l);
      _ ← c_assert (bool_decide (writer lk = Some t));
      e ← tx_unlock l t (set_lock_table (base.delete n (lock_table e)) e);
      lock_unref l e
  end.

Definition locked_for_write (n t : positive) (e : env) : bool :=
  match lock_table e !! n with
  | Some l => match locks e !! l with Some lk => bool_decide (writer lk = Some t) | None => false end
  | None => false
  end.

(** ** The detection finds the cycles *)

Section deadlock.

Context (e : env).

(** [u] waits for a lock that [t] holds. *)
Definition waits_for (u t : positive) : Prop :=
  (exists l, l ∈ read_locks (tx_of e t) /\ u <> t /\ waiting_to_write (tx_of e u) = Some l)
  \/ (exists l, l ∈ write_locks (tx_of e t)
      /\ (waiting_to_write (tx_of e u) = Some l \/ waiting_to_read (tx_of e u) = Some l)).

Lemma competing_spec (ts : list positive) (t : positive) :
  competing e ts t = true <-> exists u, u ∈ ts /\ waits_for u t.
Proof.
  unfold competing, competing_w_lock, competing_rw_lock, waits_to_write, waits_to_read, waits_for.
  rewrite orb_true_iff, !existsb_exists. setoid_rewrite existsb_exists.
  setoid_rewrite <- list_elem_of_In. setoid_rewrite andb_true_iff. setoid_rewrite orb_true_iff.
  setoid_rewrite negb_true_iff. setoid_rewrite Pos.eqb_neq. setoid_rewrite bool_decide_eq_true.
  naive_solver.
Qed.

(** Everyone in the list is waited for by someone in the list. *)
Definition waited_for (l : list positive) : Prop := forall t, t ∈ l -> exists u, u ∈ l /\ waits_for u t.

Lemma detect_pass_spec (fuel : nat) : forall q l pre ptr c,
  NoDup l -> l = pre ++ ptr -> Forall (fun t => competing e l t = true) pre ->
  (length l * length l + length l + length ptr < fuel)%nat ->
  exists q' l' c', detect_pass fuel e q l ptr c = Ret (q', l', c')
    /\ q' ++ l' ≡ₚ q ++ l /\ NoDup l' /\ waited_for l'
    /\ (forall S, (forall t, S t -> exists u, S u /\ waits_for u t) ->
          (forall t, S t -> t ∈ l) -> forall t, S t -> t ∈ l')
    /\ (c' = true -> c = true \/ (length l' < length l)%nat) /\ (length l' <= length l)%nat.
Proof.
  induction fuel as [|fuel IH]; intros q l pre ptr c Hnodup Hl Hpre Hfuel; [lia|].
  destruct ptr as [|t ptr]; cbn [detect_pass].
  - exists q, l, c. rewrite app_nil_r in Hl. subst pre. split_and!; [done|done|done| |done|by left|done].
    intros t Ht. apply competing_spec. rewrite Forall_forall in Hpre. by apply Hpre.
  - destruct (competing e l t) eqn:Hcomp.
    + destruct (IH q l (pre ++ [t]) ptr c) as (q' & l' & c' & Hrun & Hrest).
      * done.
      * by rewrite <- app_assoc.
      * apply Forall_app. split; [done|]. by apply Forall_singleton.
      * cbn [length] in Hfuel. lia.
      * exists q', l', c'. by split.
    + assert (Ht : t ∈ l) by (rewrite Hl; set_solver).
      assert (Hlen : length l = S (length (list_delete t l))).
      { by rewrite (list_delete_perm t l Ht) at 1. }
      destruct (IH (t :: q) (list_delete t l) [] (list_delete t l) true)
        as (q' & l' & c' & Hrun & Hperm & Hnd & Hw & HS & Hc & Hle).
      * by apply list_delete_nodup.
      * done.
      * constructor.
      * cbn [length] in Hfuel. nia.
      * exists q', l', c'. split_and!; [done| |done|done| |right; lia|lia].
        -- rewrite Hperm. rewrite (list_delete_perm t l Ht) at 2. cbn. apply Permutation_middle.
        -- intros S HSc HSl. apply HS; [done|]. intros s Hs. rewrite list_delete_elem by done.
           split; [by apply HSl|]. intros ->. destruct (HSc t Hs) as (u & Hu & Huw).
           assert (competing e l t = true) by (apply competing_spec; eauto). congruence.
Qed.

Lemma detect_loop_spec (fuel : nat) : forall q l,
  NoDup l -> (length l < fuel)%nat ->
  exists q' l', detect_loop fuel e q l = Ret q' /\ q' ++ l' ≡ₚ q ++ l /\ waited_for l'
    /\ (forall S, (forall t, S t -> exists u, S u /\ waits_for u t) ->
          (forall t, S t -> t ∈ l) -> forall t, S t -> t ∈ l').
Proof.
  induction fuel as [|fuel IH]; intros q l Hnodup Hfuel; [lia|]. cbn [detect_loop].
  destruct (bool_decide_reflect (l = [])) as [->|Hne].
  { exists q, []. split_and!; [done|done| |done]. by intros t ?%not_elem_of_nil. }
  destruct (detect_pass_spec (S (length l * length l + length l + length l)) q l [] l false)
    as (q1 & l1 & c & -> & Hperm & Hnd & Hw & HS & Hc & Hle); [done|done|constructor|lia|]. run.
  destruct c.
  - destruct (Hc eq_refl) as [?|Hlt]; [done|].
    destruct (IH q1 l1) as (q2 & l2 & Hrun & Hperm2 & Hw2 & HS2); [done|lia|].
    exists q2, l2. split_and!; [done|by rewrite Hperm2|done|]. intros S HSc HSl. apply HS2; [done|].
    by apply HS.
  - exists q1, l1. by split_and!.
Qed.

Lemma detect_residue :
  NoDup (transactions e) ->
  exists l, (exists b, lock_detect e = Ret b /\ (b = true <-> l <> [])) /\ waited_for l
    /\ (forall t, t ∈ l -> t ∈ transactions e)
    /\ (forall S, (forall t, S t -> exists u, S u /\ waits_for u t) ->
          (forall t, S t -> t ∈ transactions e) -> forall t, S t -> t ∈ l).
Proof.
  intros Hnodup. unfold lock_detect.
  destruct (detect_loop_spec (S (S (length (transactions e)))) [] (transactions e))
    as (q & l & -> & Hperm & Hw & HS); [done|lia|].
  exists l. run. split_and!; [|done| |done].
  - eexists. split; [done|]. pose proof (Permutation_length Hperm) as Hlen.
    rewrite length_app in Hlen. cbn [app length] in Hlen.
    rewrite negb_true_iff, Nat.eqb_neq. destruct l; cbn [length] in Hlen; split; intros H; try done; lia.
  - intros t Ht. cbn in Hperm. rewrite <- Hperm. set_solver.
Qed.

(** *** Chains in a finite set come back *)

Fixpoint chain (R : positive -> positive -> Prop) (p : list positive) : Prop :=
  match p with
  | [] => True
  | x :: p => match p with y :: _ => R y x | [] => True end /\ chain R p
  end.

Lemma chain_exists (R : positive -> positive -> Prop) (l : list positive) (n : nat) :
  (forall t, t ∈ l -> exists u, u ∈ l /\ R u t) -> forall t, t ∈ l ->
  exists p, length p = S n /\ head p = Some t /\ (forall x, x ∈ p -> x ∈ l) /\ chain R p.
Proof.
  intros Hl. induction n as [|n IH]; intros t Ht.
  - exists [t]. by split_and!; [|done|set_solver|].
  - destruct (Hl t Ht) as (u & Hu & HR). destruct (IH u Hu) as (p & Hlen & Hhd & Hin & Hch).
    exists (t :: p). split_and!; [cbn; lia|done|set_solver|].
    destruct p as [|y p]; [done|]. cbn in Hhd. injection Hhd as ->. by split.
Qed.

Lemma chain_reaches (R : positive -> positive -> Prop) (p : list positive) (x y : positive) :
  chain R (x :: p) -> y ∈ p -> clos_trans _ R y x.
Proof.
  revert x. induction p as [|z p IH]; intros x [HR Hch] Hy; [by apply not_elem_of_nil in Hy|].
  apply elem_of_cons in Hy as [->|Hy]; [by apply t_step|].
  eapply t_trans; [by apply IH|by apply t_step].
Qed.

Lemma chain_repeats (R : positive -> positive -> Prop) (p : list positive) :
  chain R p -> ~ NoDup p -> exists x, x ∈ p /\ clos_trans _ R x x.
Proof.
  induction p as [|x p IH]; intros Hch Hdup; [exfalso; apply Hdup; constructor|].
  destruct (decide (x ∈ p)) as [Hx|Hx].
  - exists x. split; [by left|]. by apply (chain_reaches R p).
  - destruct IH as (y & Hy & Hcyc); [apply Hch| |].
    + intros Hnd. apply Hdup. by constructor.
    + exists y. split; [by right|done].
Qed.

Lemma waited_for_cycle (R : positive -> positive -> Prop) (l : list positive) :
  l <> [] -> (forall t, t ∈ l -> exists u, u ∈ l /\ R u t) ->
  exists t, t ∈ l /\ clos_trans _ R t t.
Proof.
  intros Hne Hl. destruct l as [|t0 l']; [done|]. set (l := t0 :: l') in *.
  destruct (chain_exists R l (length l) Hl t0) as (p & Hlen & _ & Hin & Hch); [by left|].
  destruct (chain_repeats R p Hch) as (x & Hx & Hcyc).
  - intros Hnd. assert (Hsub : p ⊆+ l) by (apply NoDup_submseteq; [done|exact Hin]).
    apply submseteq_length in Hsub. lia.
  - exists x. split; [by apply Hin|done].
Qed.

Definition blocked (u t : positive) : Prop :=
  u ∈ transactions e /\ t ∈ transactions e /\ waits_for u t.

(** C17. The search for a deadlock always ends, and it finds one exactly if there is a
    cycle of active transactions each of which waits for a lock that the next holds. *)
Theorem lock_detect_finds_cycles (Hnodup : NoDup (transactions e)) :
  exists b, lock_detect e = Ret b /\ (b = true <-> exists t, clos_trans _ blocked t t).
Proof.
  destruct (detect_residue Hnodup) as (l & (b & Hrun & Hb) & Hw & Hin & HS).
  exists b. split; [done|]. rewrite Hb. split.
  - intros Hne. destruct (waited_for_cycle blocked l Hne) as (t & _ & Ht); [|by exists t].
    intros t Ht. destruct (Hw t Ht) as (u & Hu & Huw). exists u. unfold blocked. auto.
  - intros (t & Ht) ->. apply (not_elem_of_nil t).
    apply (HS (fun x => clos_trans _ blocked t x /\ clos_trans _ blocked x t)); [| |done].
    + intros x [Htx Hxt]. apply clos_trans_tn1 in Htx. inversion Htx as [? Hstep|u ? Hstep Hrest]; subst.
      * exists t. split; [done|apply Hstep].
      * exists u. split; [|apply Hstep]. apply clos_tn1_trans in Hrest.
        split; [done|]. eapply t_trans; [by apply t_step|done].
    + intros x [Htx _]. clear -Htx. induction Htx as [x y (_ & Hy & _)|x y z _ _ _ IH]; done.
Qed.

End deadlock.

(** A transaction that reads one lock and waits to write another, and a second one the
    other way around, are a deadlock. *)
Definition crossed : env :=
  put_lock 2 (BtreeLock None [2%positive] 1) (put_lock 1 (BtreeLock None [1%positive] 1)
    (set_txs [1; 2]%positive
      {[1%positive := BtreeTransaction 9 None (Some 2%positive) [] [] [1%positive];
        2%positive := BtreeTransaction 9 None (Some 1%positive) [] [] [2%positive]]}
      (create_btree_environment 0))).

Lemma lock_detect_finds_cycles_witness :
  lock_detect crossed = Ret true /\ exists t, clos_trans _ (blocked crossed) t t.
Proof.
  destruct (lock_detect_finds_cycles crossed) as (b & Hb & Hcyc); [vm_compute; repeat constructor; set_solver|].
  split; [reflexivity|]. apply Hcyc. vm_compute in Hb. by injection Hb as <-.
Defined.

(** ** Safety of the locks under interleaving *)

Definition waits (l t : positive) (write : bool) (e : env) : Prop :=
  if write then waiting_to_write (tx_of e t) = Some l else waiting_to_read (tx_of e t) = Some l.

Definition idle (x : btree_transaction) : Prop :=
  waiting_to_read x = None /\ waiting_to_write x = None /\ read_locks x = [] /\ write_locks x = [].

(** What transactions do to locks between two waits. *)
Inductive lock_step : env -> env -> Prop :=
| step_begin finish e : lock_step e (snd (create_transaction finish e))
| step_cleanup t e e' : idle (tx_of e t) -> cleanup_transaction t e = Ret e' -> lock_step e e'
| step_attach n e : lock_step e (lock_attach n e)
| step_ref n l e e' : lock_ref n e = Ret (l, e') -> lock_step e e'
| step_unref l e e' : lock_unref l e = Ret e' -> lock_step e e'
| step_declare l t write b e e' :
    t ∈ transactions e -> lock_declare l t write e = Ret (b, e') -> lock_step e e'
| step_grant l t write e e' :
    t ∈ transactions e -> waits l t write e -> lock_attempt l t write e = Ret (false, e') ->
    lock_step e (lock_end t write e')
| step_give_up t write e : t ∈ transactions e -> lock_step e (lock_end t write e)
| step_unlock l t e e' :
    t ∈ transactions e -> waiting_to_read (tx_of e t) = None -> waiting_to_write (tx_of e t) = None ->
    tx_unlock l t e = Ret e' -> lock_step e e'.

(** Locks and transactions agree on who holds what; nobody waits for what it holds. *)
Record lock_inv (e : env) : Prop := {
  li_alive : forall t, t ∈ transactions e <-> is_Some (txs e !! t);
  li_nodup : NoDup (transactions e);
  li_read : forall l t, l ∈ read_locks (tx_of e t) <-> exists lk, locks e !! l = Some lk /\ t ∈ readers lk;
  li_write : forall l t, l ∈ write_locks (tx_of e t) <-> exists lk, locks e !! l = Some lk /\ writer lk = Some t;
  li_exclusive : forall l lk t, locks e !! l = Some lk -> writer lk = Some t -> readers lk = [];
  li_readers : forall l lk, locks e !! l = Some lk -> NoDup (readers lk);
  li_held : forall t, NoDup (read_locks (tx_of e t)) /\ NoDup (write_locks (tx_of e t));
  li_waiting : forall l t write, waits l t write e -> (l ∉ read_locks (tx_of e t)) /\ (l ∉ write_locks (tx_of e t));
  li_once : forall t, waiting_to_read (tx_of e t) = None \/ waiting_to_write (tx_of e t) = None
}.

Lemma tx_of_put (t u : positive) (x : btree_transaction) (e : env) :
  tx_of (put_tx t x e) u = if decide (t = u) then x else tx_of e u.
Proof. unfold tx_of. cbn. destruct (decide (t = u)) as [<-|Hne]; [by rewrite lookup_insert_eq|by rewrite lookup_insert_ne]. Qed.

Lemma tx_of_put_eq (t : positive) (x : btree_transaction) (e : env) : tx_of (put_tx t x e) t = x.
Proof. by rewrite tx_of_put, decide_True. Qed.

(** Only who holds a lock matters, and who waits. *)
Lemma lock_inv_count (e : env) (l : positive) (lk : btree_lock) (n : Z) :
  locks e !! l = Some lk -> lock_inv e -> lock_inv (put_lock l (with_count n lk) e).
Proof.
  intros Hlk [].
  assert (Hget : forall l', exists f : btree_lock -> Z,
    locks (put_lock l (with_count n lk) e) !! l' = (fun x => with_count (f x) x) <$> locks e !! l').
  { intros l'. cbn. destruct (decide (l = l')) as [<-|Hne].
    - exists (fun _ => n). by rewrite lookup_insert_eq, Hlk.
    - exists ref_count. rewrite lookup_insert_ne by done. destruct (locks e !! l') as [[]|]; reflexivity. }
  split; try done.
  - intros l' t. change (tx_of (put_lock l (with_count n lk) e) t) with (tx_of e t). rewrite li_read0.
    destruct (Hget l') as [f ->]. destruct (locks e !! l') as [x|]; cbn; naive_solver.
  - intros l' t. change (tx_of (put_lock l (with_count n lk) e) t) with (tx_of e t). rewrite li_write0.
    destruct (Hget l') as [f ->]. destruct (locks e !! l') as [x|]; cbn; naive_solver.
  - intros l' x t. destruct (Hget l') as [f ->]. intros (y & Hy & ->)%fmap_Some. cbn. eauto.
  - intros l' x. destruct (Hget l') as [f ->]. intros (y & Hy & ->)%fmap_Some. cbn. eauto.
Qed.

(** A transaction whose waiting alone changes. *)
Lemma lock_inv_waiting (e : env) (t : positive) (r w : option positive) :
  lock_inv e -> t ∈ transactions e ->
  (forall l, r = Some l \/ w = Some l -> (l ∉ read_locks (tx_of e t)) /\ (l ∉ write_locks (tx_of e t))) ->
  r = None \/ w = None ->
  lock_inv (put_tx t (with_waiting r w (tx_of e t)) e).
Proof.
  intros [] Ht Hfree Honce.
  assert (Hr : forall u, read_locks (tx_of (put_tx t (with_waiting r w (tx_of e t)) e) u) = read_locks (tx_of e u)).
  { intros u. rewrite tx_of_put. by destruct (decide (t = u)) as [<-|]. }
  assert (Hw : forall u, write_locks (tx_of (put_tx t (with_waiting r w (tx_of e t)) e) u) = write_locks (tx_of e u)).
  { intros u. rewrite tx_of_put. by destruct (decide (t = u)) as [<-|]. }
  split; try done.
  - intros u. cbn. rewrite li_alive0. destruct (decide (t = u)) as [<-|Hne].
    + rewrite lookup_insert_eq. split; [eauto|]. intros _. by apply li_alive0.
    + by rewrite lookup_insert_ne.
  - intros l u. rewrite Hr. apply li_read0.
  - intros l u. rewrite Hw. apply li_write0.
  - intros u. rewrite Hr, Hw. apply li_held0.
  - intros l u write. rewrite Hr, Hw. unfold waits. rewrite tx_of_put.
    destruct (decide (t = u)) as [<-|Hne]; [|by apply (li_waiting0 l u write)].
    destruct write; cbn; auto.
  - intros u. rewrite tx_of_put. destruct (decide (t = u)) as [<-|Hne]; [done|apply li_once0].
Qed.

(** A transaction and a lock change together. *)
Lemma lock_inv_update (e : env) (t l : positive) (lk lk' : btree_lock) (x : btree_transaction) :
  lock_inv e -> t ∈ transactions e -> locks e !! l = Some lk ->
  (forall u, u <> t -> u ∈ readers lk' <-> u ∈ readers lk) ->
  (forall u, u <> t -> writer lk' = Some u <-> writer lk = Some u) ->
  (t ∈ readers lk' <-> l ∈ read_locks x) -> (writer lk' = Some t <-> l ∈ write_locks x) ->
  (forall l', l' <> l -> l' ∈ read_locks x <-> l' ∈ read_locks (tx_of e t)) ->
  (forall l', l' <> l -> l' ∈ write_locks x <-> l' ∈ write_locks (tx_of e t)) ->
  (forall u, writer lk' = Some u -> readers lk' = []) ->
  NoDup (readers lk') -> NoDup (read_locks x) -> NoDup (write_locks x) ->
  (forall l', waiting_to_read x = Some l' \/ waiting_to_write x = Some l' ->
     (l' ∉ read_locks x) /\ (l' ∉ write_locks x)) ->
  waiting_to_read x = None \/ waiting_to_write x = None ->
  lock_inv (put_tx t x (put_lock l lk' e)).
Proof.
  intros [] Ht Hlk Hreaders Hwriter Hrt Hwt Hrl Hwl Hexcl Hnd Hndr Hndw Hwait Honce.
  set (e' := put_tx t x (put_lock l lk' e)).
  assert (Htx : forall u, tx_of e' u = if decide (t = u) then x else tx_of e u).
  { intros u. unfold e'. by rewrite tx_of_put. }
  assert (Hget : forall l', locks e' !! l' = if decide (l = l') then Some lk' else locks e !! l').
  { intros l'. cbn. destruct (decide (l = l')) as [<-|Hne]; [by rewrite lookup_insert_eq|by rewrite lookup_insert_ne]. }
  split.
  - intros u. unfold e'. cbn. rewrite li_alive0. destruct (decide (t = u)) as [<-|Hne].
    + rewrite lookup_insert_eq. split; [eauto|]. intros _. by apply li_alive0.
    + by rewrite lookup_insert_ne.
  - done.
  - intros l' u. rewrite Htx, Hget. destruct (decide (t = u)) as [<-|Htu], (decide (l = l')) as [<-|Hll].
    + naive_solver.
    + rewrite Hrl by done. apply li_read0.
    + rewrite li_read0, Hlk. naive_solver.
    + apply li_read0.
  - intros l' u. rewrite Htx, Hget. destruct (decide (t = u)) as [<-|Htu], (decide (l = l')) as [<-|Hll].
    + naive_solver.
    + rewrite Hwl by done. apply li_write0.
    + rewrite li_write0, Hlk. naive_solver.
    + apply li_write0.
  - intros l' k u. rewrite Hget. destruct (decide (l = l')) as [<-|Hll]; [intros [= <-]; apply Hexcl|apply li_exclusive0].
  - intros l' k. rewrite Hget. destruct (decide (l = l')) as [<-|Hll]; [by intros [= <-]|apply li_readers0].
  - intros u. rewrite Htx. destruct (decide (t = u)) as [<-|Htu]; [done|apply li_held0].
  - intros l' u write. unfold waits. rewrite Htx. destruct (decide (t = u)) as [<-|Htu];
      [|by apply (li_waiting0 l' u write)]. destruct write; auto.
  - intros u. rewrite Htx. destruct (decide (t = u)) as [<-|Htu]; [done|apply li_once0].
Qed.

Lemma lock_inv_initial (now : Z) : lock_inv (create_btree_environment now).
Proof.
  split; unfold tx_of; cbn; intros; rewrite ?lookup_empty in *; cbn in *; try done; try naive_solver; try set_solver.
  - constructor.
  - split; constructor.
Qed.

Lemma unheld_waiting (e : env) (t l : positive) :
  lock_inv e -> waiting_to_read (tx_of e t) = Some l \/ waiting_to_write (tx_of e t) = Some l ->
  (l ∉ read_locks (tx_of e t)) /\ (l ∉ write_locks (tx_of e t)).
Proof. intros [] [H|H]; [by apply (li_waiting0 l t false)|by apply (li_waiting0 l t true)]. Qed.

Lemma lock_end_inv (t : positive) (write : bool) (e : env) :
  lock_inv e -> t ∈ transactions e -> lock_inv (lock_end t write e).
Proof.
  intros Hinv Ht. pose proof (fun l => unheld_waiting e t l Hinv) as Hun.
  unfold lock_end. destruct write; apply lock_inv_waiting; try done; naive_solver.
Qed.

Lemma lock_declare_inv (l t : positive) (write b : bool) (e e' : env) :
  lock_inv e -> t ∈ transactions e -> lock_declare l t write e = Ret (b, e') -> lock_inv e'.
Proof.
  intros Hinv Ht. unfold lock_declare. destruct (locks e !! l) as [lk|] eqn:Hlk; [|done]. run.
  destruct (bool_decide_reflect (waiting_to_write (tx_of e t) = None)) as [Hww|]; [|done]. run.
  destruct (bool_decide_reflect (waiting_to_read (tx_of e t) = None)) as [Hwr|]; [|done]. run.
  destruct write.
  - destruct (bool_decide_reflect (writer lk = Some t)) as [Hown|Hnown]; [by intros [= <- <-]|].
    assert (Hnw : l ∉ write_locks (tx_of e t)) by (rewrite (li_write _ Hinv), Hlk; naive_solver).
    destruct (bool_decide_reflect (l ∈ read_locks (tx_of e t))) as [Hr|Hr].
    + destruct (bool_decide_reflect (t ∈ readers lk)) as [Hrt|]; [|done]. run. intros [= <- <-].
      destruct (li_held _ Hinv t) as [Hndr Hndw]. pose proof (li_readers _ Hinv l lk Hlk) as Hnd.
      apply (lock_inv_update e t l lk); try done; cbn.
      * intros u Hu. rewrite list_delete_elem by done. naive_solver.
      * rewrite !list_delete_elem by done. naive_solver.
      * intros l' Hl'. rewrite list_delete_elem by done. naive_solver.
      * intros u Hu. by rewrite (li_exclusive _ Hinv l lk u).
      * by apply list_delete_nodup.
      * by apply list_delete_nodup.
      * rewrite Hwr. intros l' [[=]|[= <-]]. split; [|done]. rewrite list_delete_elem by done. naive_solver.
      * rewrite Hwr. by left.
    + intros [= <- <-]. apply lock_inv_waiting; try done; rewrite Hwr; naive_solver.
  - destruct (bool_decide_reflect (writer lk = Some t)) as [Hown|Hnown]; [by intros [= <- <-]|].
    destruct (bool_decide_reflect (l ∈ read_locks (tx_of e t))) as [Hr|Hr]; [by intros [= <- <-]|].
    intros [= <- <-]. assert (Hnw : l ∉ write_locks (tx_of e t)) by (rewrite (li_write _ Hinv), Hlk; naive_solver).
    apply lock_inv_waiting; try done; rewrite Hww; naive_solver.
Qed.

Lemma lock_grant_inv (l t : positive) (write : bool) (e e' : env) :
  lock_inv e -> t ∈ transactions e -> waits l t write e -> lock_attempt l t write e = Ret (false, e') ->
  lock_inv (lock_end t write e').
Proof.
  intros Hinv Ht Hwait. destruct (li_waiting _ Hinv l t write Hwait) as [Hr Hw].
  destruct (li_held _ Hinv t) as [Hndr Hndw]. unfold lock_attempt.
  destruct (locks e !! l) as [lk|] eqn:Hlk; [|done]. run. pose proof (li_readers _ Hinv l lk Hlk) as Hnd.
  assert (Hrt : t ∉ readers lk) by (intros H; apply Hr, (li_read _ Hinv); eauto).
  destruct (li_once _ Hinv t) as [Hr0|Hw0]; destruct write; cbn in Hwait; try congruence.
  - destruct (bool_decide_reflect (writer lk = None)) as [Hwn|]; [|done].
    destruct (bool_decide_reflect (readers lk = [])) as [Hrn|]; [|done]. cbn [andb]. intros [= <-].
    unfold lock_end. rewrite tx_of_put_eq.
    match goal with |- lock_inv (put_tx t ?x (put_tx t _ (put_lock l ?k e))) =>
      replace (put_tx t x (put_tx t _ (put_lock l k e))) with (put_tx t x (put_lock l k e)) end.
    2: { unfold put_tx, set_txs. cbn. by rewrite insert_insert_eq. }
    apply (lock_inv_update e t l lk); cbn; rewrite ?Hrn, ?Hwn; try done; try (rewrite ?Hr0; naive_solver).
    + set_solver.
    + set_solver.
    + set_solver.
    + constructor.
    + by constructor.
  - destruct (bool_decide_reflect (writer lk = None)) as [Hwn|]; [|done]. intros [= <-].
    unfold lock_end. rewrite tx_of_put_eq.
    match goal with |- lock_inv (put_tx t ?x (put_tx t _ (put_lock l ?k e))) =>
      replace (put_tx t x (put_tx t _ (put_lock l k e))) with (put_tx t x (put_lock l k e)) end.
    2: { unfold put_tx, set_txs. cbn. by rewrite insert_insert_eq. }
    apply (lock_inv_update e t l lk); cbn; rewrite ?Hwn; try done; try (rewrite ?Hw0; naive_solver).
    + set_solver.
    + set_solver.
    + set_solver.
    + by constructor.
    + by constructor.
Qed.

Lemma unlock_inv (l t : positive) (e e' : env) :
  lock_inv e -> t ∈ transactions e -> waiting_to_read (tx_of e t) = None -> waiting_to_write (tx_of e t) = None ->
  tx_unlock l t e = Ret e' -> lock_inv e'.
Proof.
  intros Hinv Ht Hr0 Hw0. unfold tx_unlock. destruct (locks e !! l) as [lk|] eqn:Hlk; [|done]. run.
  destruct (li_held _ Hinv t) as [Hndr Hndw]. pose proof (li_readers _ Hinv l lk Hlk) as Hnd.
  destruct (bool_decide_reflect (writer lk = Some t)) as [Hown|Hown].
  - destruct (bool_decide_reflect (l ∈ write_locks (tx_of e t))) as [Hin|]; [|done]. run. intros [= <-].
    pose proof (li_exclusive _ Hinv l lk t Hlk Hown) as Hempty.
    assert (Hnr : l ∉ read_locks (tx_of e t)).
    { rewrite (li_read _ Hinv), Hlk. intros (? & [= <-] & H). rewrite Hempty in H. by apply not_elem_of_nil in H. }
    apply (lock_inv_update e t l lk); cbn; rewrite ?Hempty, ?Hr0, ?Hw0; try done; try naive_solver.
    + split; [by intros ?%not_elem_of_nil|done].
    + rewrite list_delete_elem by done. naive_solver.
    + intros l' Hl'. rewrite list_delete_elem by done. naive_solver.
    + constructor.
    + by apply list_delete_nodup.
  - destruct (bool_decide_reflect (l ∈ read_locks (tx_of e t))) as [Hin|]; [|done]. run.
    destruct (bool_decide_reflect (t ∈ readers lk)) as [Hrt|]; [|done]. run. intros [= <-].
    assert (Hnw : l ∉ write_locks (tx_of e t)) by (rewrite (li_write _ Hinv), Hlk; naive_solver).
    apply (lock_inv_update e t l lk); cbn; rewrite ?Hr0, ?Hw0; try done; try naive_solver.
    + intros u Hu. rewrite list_delete_elem by done. naive_solver.
    + rewrite !list_delete_elem by done. naive_solver.
    + intros l' Hl'. rewrite list_delete_elem by done. naive_solver.
    + intros u Hu. by rewrite (li_exclusive _ Hinv l lk u).
    + by apply list_delete_nodup.
    + by apply list_delete_nodup.
Qed.

(** Locks that nobody holds come and go. *)
Lemma lock_inv_locks (e e' : env) :
  transactions e' = transactions e -> txs e' = txs e ->
  (forall l lk, writer lk <> None \/ readers lk <> [] -> locks e' !! l = Some lk <-> locks e !! l = Some lk) ->
  lock_inv e -> lock_inv e'.
Proof.
  intros Hts Htxs Hget []. assert (Htx : forall t, tx_of e' t = tx_of e t) by (intros t; unfold tx_of; by rewrite Htxs).
  split; unfold waits; intros *; rewrite ?Hts, ?Htxs, ?Htx; auto.
  - rewrite li_read0. split; intros (lk & Hlk & Ht); exists lk; (split; [apply Hget|done]);
      try done; right; intros H; rewrite H in Ht; by apply not_elem_of_nil in Ht.
  - rewrite li_write0. split; intros (lk & Hlk & Ht); exists lk; (split; [apply Hget|done]); try done;
      left; congruence.
  - intros Hlk Hw. apply (li_exclusive0 l lk t); [|done]. apply Hget; [left; congruence|done].
  - intros Hlk. destruct (decide (readers lk = [])) as [->|Hne]; [constructor|].
    apply (li_readers0 l). apply Hget; [by right|done].
  - apply (li_waiting0 l t write).
Qed.

Lemma lock_free_inv (l : positive) (e e' : env) : lock_inv e -> lock_free l e = Ret e' -> lock_inv e'.
Proof.
  intros Hinv. unfold lock_free. destruct (locks e !! l) as [lk|] eqn:Hlk; [|done]. run.
  destruct (bool_decide_reflect (writer lk = None)) as [Hw|]; [|done]. run.
  destruct (bool_decide_reflect (readers lk = [])) as [Hr|]; [|done]. run. intros [= <-].
  apply (lock_inv_locks e); try done. intros l' lk' Hheld. cbn.
  destruct (decide (l = l')) as [<-|Hne]; [|by rewrite lookup_delete_ne].
  rewrite lookup_delete_eq, Hlk. split; [done|]. intros [= <-]. tauto.
Qed.

(** Transactions that hold nothing and wait for nothing come and go. *)
Lemma lock_inv_idle (ts : list positive) (m : gmap positive btree_transaction) (e : env) :
  lock_inv e -> NoDup ts -> (forall u, u ∈ ts <-> is_Some (m !! u)) ->
  (forall u, default no_transaction (m !! u) = tx_of e u
     \/ idle (default no_transaction (m !! u)) /\ idle (tx_of e u)) ->
  lock_inv (set_txs ts m e).
Proof.
  intros [] Hnd Halive Htx. set (e' := set_txs ts m e).
  assert (Heq : forall u, tx_of e' u = tx_of e u \/ idle (tx_of e' u) /\ idle (tx_of e u)) by exact Htx.
  assert (Hr : forall u, read_locks (tx_of e' u) = read_locks (tx_of e u)).
  { intros u. destruct (Heq u) as [->|[(_ & _ & -> & _) (_ & _ & -> & _)]]; done. }
  assert (Hw : forall u, write_locks (tx_of e' u) = write_locks (tx_of e u)).
  { intros u. destruct (Heq u) as [->|[(_ & _ & _ & ->) (_ & _ & _ & ->)]]; done. }
  assert (Hwr : forall u, waiting_to_read (tx_of e' u) = waiting_to_read (tx_of e u)).
  { intros u. destruct (Heq u) as [->|[(-> & _) (-> & _)]]; done. }
  assert (Hww : forall u, waiting_to_write (tx_of e' u) = waiting_to_write (tx_of e u)).
  { intros u. destruct (Heq u) as [->|[(_ & -> & _) (_ & -> & _)]]; done. }
  split; unfold waits; intros *; rewrite ?Hr, ?Hw, ?Hwr, ?Hww; try done; auto;
    [by apply li_exclusive0|by apply (li_readers0 l)|by apply (li_waiting0 l t write)].
Qed.

Lemma wait_step_inv (e e' : env) : lock_step e e' -> lock_inv e -> lock_inv e'.
Proof.
  destruct 1 as [finish e|t e e' Hidle Hrun|n e|n l e e' Hrun|l e e' Hrun|l t write b e e' Ht Hrun
    |l t write e e' Ht Hw Hrun|t write e Ht|l t e e' Ht Hr Hw Hrun]; intros Hinv.
  - assert (Ht : txs e !! fresh (dom (txs e)) = None) by (apply not_elem_of_dom, is_fresh).
    apply lock_inv_idle; [done| | |].
    + constructor; [|apply Hinv]. rewrite (li_alive _ Hinv), Ht. by intros [].
    + intros u. rewrite elem_of_cons, (li_alive _ Hinv).
      destruct (decide (fresh (dom (txs e)) = u)) as [<-|Hne];
        [rewrite lookup_insert_eq|rewrite lookup_insert_ne by done]; naive_solver.
    + intros u. destruct (decide (fresh (dom (txs e)) = u)) as [<-|Hne];
        [|left; by rewrite lookup_insert_ne].
      right. unfold tx_of. by rewrite lookup_insert_eq, Ht.
  - revert Hrun. unfold cleanup_transaction. destruct (bool_decide_reflect (t ∈ transactions e)) as [Ht|]; [|done].
    run. intros [= <-]. apply lock_inv_idle; [done|apply list_delete_nodup, Hinv| |].
    + intros u. rewrite list_delete_elem by apply Hinv. rewrite (li_alive _ Hinv).
      destruct (decide (t = u)) as [<-|Hne]; [rewrite lookup_delete_eq|rewrite lookup_delete_ne by done]; [|naive_solver].
      split; [naive_solver|by intros []].
    + intros u. destruct (decide (t = u)) as [<-|Hne]; [|left; by rewrite lookup_delete_ne].
      right. by rewrite lookup_delete_eq.
  - apply (lock_inv_locks e); try done. intros l lk Hheld. cbn.
    destruct (decide (fresh (dom (locks e)) = l)) as [<-|Hne]; [|by rewrite lookup_insert_ne].
    rewrite lookup_insert_eq. assert (Hn : locks e !! fresh (dom (locks e)) = None) by (apply not_elem_of_dom, is_fresh).
    rewrite Hn. split; [|done]. intros [= <-]. cbn in Hheld. tauto.
  - revert Hrun. unfold lock_ref. destruct (lock_table e !! n) as [l'|]; [|by intros [= _ <-]].
    destruct (locks e !! l') as [lk|] eqn:Hlk; [|done]. run. intros [= _ <-]. by apply lock_inv_count.
  - revert Hrun. unfold lock_unref. destruct (locks e !! l) as [lk|] eqn:Hlk; [|done]. run.
    pose proof (lock_inv_count e l lk (ref_count lk - 1) Hlk Hinv) as Hinv'.
    destruct (ref_count lk =? 1); [by apply lock_free_inv|by intros [= <-]].
  - by eapply lock_declare_inv.
  - by eapply lock_grant_inv.
  - by apply lock_end_inv.
  - by eapply unlock_inv.
Qed.

Lemma lock_inv_reachable (now : Z) (e : env) : rtc lock_step (create_btree_environment now) e -> lock_inv e.
Proof.
  intros Hsteps. assert (Hgen : forall a b, rtc lock_step a b -> lock_inv a -> lock_inv b).
  { induction 1; eauto using wait_step_inv. }
  eapply Hgen; [done|apply lock_inv_initial].
Qed.

(** C12. However transactions interleave their waits, acquisitions and releases: who may
    write a node is alone with it, a transaction's record of its locks is the locks'
    record of it, and what it holds it can release. *)
Theorem locks_exclusive (now : Z) (e : env) (l t : positive) (lk : btree_lock) :
  rtc lock_step (create_btree_environment now) e -> locks e !! l = Some lk ->
  (writer lk = Some t -> readers lk = [] /\ forall u, l ∈ write_locks (tx_of e u) -> u = t)
  /\ (l ∈ write_locks (tx_of e t) <-> writer lk = Some t)
  /\ (l ∈ read_locks (tx_of e t) <-> t ∈ readers lk)
  /\ (l ∈ write_locks (tx_of e t) \/ l ∈ read_locks (tx_of e t) -> exists e', tx_unlock l t e = Ret e').
Proof.
  intros Hinv%lock_inv_reachable Hlk.
  assert (Hw : forall u, l ∈ write_locks (tx_of e u) <-> writer lk = Some u)
    by (intros u; rewrite (li_write _ Hinv), Hlk; naive_solver).
  assert (Hr : l ∈ read_locks (tx_of e t) <-> t ∈ readers lk) by (rewrite (li_read _ Hinv), Hlk; naive_solver).
  split_and!; [|done|done|].
  - intros Hown. split; [by apply (li_exclusive _ Hinv l lk t)|]. intros u. rewrite Hw. congruence.
  - intros Hheld. unfold tx_unlock. rewrite Hlk. run.
    destruct (bool_decide_reflect (writer lk = Some t)) as [Hown|Hown].
    + rewrite bool_decide_eq_true_2 by by apply Hw. run. eauto.
    + rewrite !bool_decide_eq_true_2 by naive_solver. run. eauto.
Qed.

(** A transaction takes the lock of a node and then writes it. *)
Definition one_writer : env :=
  lock_end 1 true (put_tx 1 (with_held [1%positive] [] (with_waiting None (Some 1%positive) (BtreeTransaction 9 None None [] [] [])))
    (put_lock 1 (BtreeLock (Some 1%positive) [] 1)
      (put_tx 1 (with_waiting None (Some 1%positive) (BtreeTransaction 9 None None [] [] []))
        (lock_attach 1 (snd (create_transaction 9 (create_btree_environment 0))))))).

Lemma locks_exclusive_witness :
  exists e lk, locks e !! 1%positive = Some lk /\ writer lk = Some 1%positive /\ readers lk = []
    /\ exists e', tx_unlock 1 1 e = Ret e'.
Proof.
  exists one_writer, (BtreeLock (Some 1%positive) [] 1). split; [reflexivity|]. split; [reflexivity|].
  destruct (locks_exclusive 0 one_writer 1 1 (BtreeLock (Some 1%positive) [] 1)) as (Hx & Hw & _ & Hu).
  - eapply rtc_l; [apply (step_begin 9)|]. eapply rtc_l; [apply (step_attach 1)|].
    eapply rtc_l; [eapply (step_declare 1 1 true); [vm_compute; repeat constructor|reflexivity]|].
    eapply rtc_l; [eapply (step_grant 1 1 true); [vm_compute; repeat constructor|reflexivity|reflexivity]|].
    apply rtc_refl.
  - reflexivity.
  - split; [by apply Hx|]. apply Hu. left. by apply Hw.
Defined.

(** *** Deciding the invariant of a given environment *)

Definition lock_agrees (e : env) (l : positive) (lk : btree_lock) : Prop :=
  NoDup (readers lk) /\ (writer lk = None \/ readers lk = [])
  /\ Forall (fun t => l ∈ read_locks (tx_of e t)) (readers lk)
  /\ match writer lk with Some t => l ∈ write_locks (tx_of e t) | None => True end.

Definition reads_lock (e : env) (t l : positive) : Prop :=
  match locks e !! l with Some lk => t ∈ readers lk | None => False end.
Definition writes_lock (e : env) (t l : positive) : Prop :=
  match locks e !! l with Some lk => writer lk = Some t | None => False end.
Definition unheld (x : btree_transaction) (w : option positive) : Prop :=
  match w with Some l => (l ∉ read_locks x) /\ (l ∉ write_locks x) | None => True end.

Definition tx_agrees (e : env) (t : positive) (x : btree_transaction) : Prop :=
  t ∈ transactions e /\ NoDup (read_locks x) /\ NoDup (write_locks x)
  /\ Forall (reads_lock e t) (read_locks x) /\ Forall (writes_lock e t) (write_locks x)
  /\ unheld x (waiting_to_read x) /\ unheld x (waiting_to_write x)
  /\ (waiting_to_read x = None \/ waiting_to_write x = None).

#[export] Instance lock_agrees_dec e l lk : Decision (lock_agrees e l lk).
Proof. unfold lock_agrees. destruct (writer lk); apply _. Defined.
#[export] Instance reads_lock_dec e t l : Decision (reads_lock e t l).
Proof. unfold reads_lock. destruct (locks e !! l); apply _. Defined.
#[export] Instance writes_lock_dec e t l : Decision (writes_lock e t l).
Proof. unfold writes_lock. destruct (locks e !! l); apply _. Defined.
#[export] Instance unheld_dec x w : Decision (unheld x w).
Proof. unfold unheld. destruct w; apply _. Defined.
#[export] Instance tx_agrees_dec e t x : Decision (tx_agrees e t x).
Proof. unfold tx_agrees. apply _. Defined.

Definition lock_check (e : env) : bool :=
  bool_decide (NoDup (transactions e)) && bool_decide (Forall (fun t => is_Some (txs e !! t)) (transactions e))
  && bool_decide (map_Forall (lock_agrees e) (locks e)) && bool_decide (map_Forall (tx_agrees e) (txs e)).

Lemma lock_check_inv (e : env) : lock_check e = true -> lock_inv e.
Proof.
  unfold lock_check. rewrite !andb_true_iff, !bool_decide_eq_true. intros [[[Hnd Halive] Hlocks] Htxs].
  rewrite Forall_forall in Halive.
  assert (Hcase : forall t, tx_of e t = no_transaction \/ tx_agrees e t (tx_of e t)).
  { intros t. unfold tx_of. destruct (txs e !! t) as [x|] eqn:Hx; [right|by left]. by apply (Htxs t x). }
  split.
  - intros t. split; [apply Halive|]. intros [x Hx]. by apply (Htxs t x).
  - done.
  - intros l t. split.
    + intros Hl. destruct (Hcase t) as [Ht|(_ & _ & _ & Hr & _)]; [rewrite Ht in Hl; by apply not_elem_of_nil in Hl|].
      rewrite Forall_forall in Hr. specialize (Hr l Hl). unfold reads_lock in Hr.
      destruct (locks e !! l) as [lk|]; [by exists lk|done].
    + intros (lk & Hlk & Ht). destruct (Hlocks l lk Hlk) as (_ & _ & Hr & _). rewrite Forall_forall in Hr. by apply Hr.
  - intros l t. split.
    + intros Hl. destruct (Hcase t) as [Ht|(_ & _ & _ & _ & Hw & _)]; [rewrite Ht in Hl; by apply not_elem_of_nil in Hl|].
      rewrite Forall_forall in Hw. specialize (Hw l Hl). unfold writes_lock in Hw.
      destruct (locks e !! l) as [lk|]; [by exists lk|done].
    + intros (lk & Hlk & Ht). destruct (Hlocks l lk Hlk) as (_ & _ & _ & Hw). by rewrite Ht in Hw.
  - intros l lk t Hlk Hown. destruct (Hlocks l lk Hlk) as (_ & [?|?] & _); [congruence|done].
  - intros l lk Hlk. by apply (Hlocks l lk Hlk).
  - intros t. destruct (Hcase t) as [->|(_ & Hr & Hw & _)]; [split; constructor|done].
  - intros l t write Hwait. destruct (Hcase t) as [Ht|(_ & _ & _ & _ & _ & Hr & Hw & _)].
    + unfold waits in Hwait. rewrite Ht in Hwait. by destruct write.
    + unfold waits in Hwait. destruct write; rewrite Hwait in *; done.
  - intros t. destruct (Hcase t) as [->|(_ & _ & _ & _ & _ & _ & _ & Honce)]; [by left|done].
Qed.

(** ** Acquiring a lock *)

Section acquire.

Context (wait : positive -> positive -> env -> env) (patience : nat).

(** What the others do while a transaction waits keeps the locks as they should be, and
    leaves this transaction alone. *)
Context (wait_inv : forall l t e, lock_inv e -> lock_inv (wait l t e))
  (wait_alive : forall l t e, transactions e = transactions (wait l t e))
  (wait_own : forall l t e, tx_of (wait l t e) t = tx_of e t)
  (wait_lock : forall l t e, is_Some (locks e !! l) -> is_Some (locks (wait l t e) !! l)).

Definition holds (l t : positive) (write : bool) (e : env) : Prop :=
  l ∈ write_locks (tx_of e t) \/ write = false /\ l ∈ read_locks (tx_of e t).

(** Nothing is waited for, or this lock is. *)
Definition ready (l t : positive) (write : bool) (e : env) : Prop :=
  lock_inv e /\ t ∈ transactions e /\ is_Some (locks e !! l)
  /\ (if write then waiting_to_read (tx_of e t) else waiting_to_write (tx_of e t)) = None.

Lemma lock_declare_ready (l t : positive) (write : bool) (e : env) :
  lock_inv e -> t ∈ transactions e -> is_Some (locks e !! l) ->
  waiting_to_read (tx_of e t) = None -> waiting_to_write (tx_of e t) = None ->
  exists b e', lock_declare l t write e = Ret (b, e') /\ ready l t write e'
    /\ (if b then waits l t write e' else holds l t write e').
Proof.
  intros Hinv Ht [lk Hlk] Hr0 Hw0.
  enough (exists b e', lock_declare l t write e = Ret (b, e') /\ transactions e' = transactions e
    /\ is_Some (locks e' !! l) /\ (if write then waiting_to_read (tx_of e' t) else waiting_to_write (tx_of e' t)) = None
    /\ if b then waits l t write e' else holds l t write e') as (b & e' & Hrun & Hts & Hrest).
  { exists b, e'. pose proof (lock_declare_inv l t write b e e' Hinv Ht Hrun).
    unfold ready. rewrite Hts. tauto. }
  unfold lock_declare, holds, waits. rewrite Hlk, Hr0, Hw0, (bool_decide_eq_true_2 (@None positive = None)) by done.
  run. cbn [c_assert]. run.
  assert (Hw : writer lk = Some t -> l ∈ write_locks (tx_of e t)) by (rewrite (li_write _ Hinv); eauto).
  destruct write, (bool_decide_reflect (writer lk = Some t)) as [Hown|Hown]; cbn [orb].
  - exists false, e. rewrite Hlk. eauto 10.
  - destruct (bool_decide_reflect (l ∈ read_locks (tx_of e t))) as [Hr|Hr].
    + rewrite bool_decide_eq_true_2 by (apply (li_read _ Hinv) in Hr as (? & ? & ?); naive_solver).
      cbn [c_assert]. run. eexists true, _. split; [done|].
      change (tx_of (put_lock ?l ?k ?e) t) with (tx_of e t).
      cbn [put_lock set_locks transactions locks put_tx set_txs]. rewrite lookup_insert_eq. split_and!; [done|eauto| |].
      * change (waiting_to_read (tx_of (put_tx t (with_held (write_locks (tx_of e t))
          (list_delete l (read_locks (tx_of e t))) (with_waiting None (Some l) (tx_of e t))) e) t) = None).
        by rewrite tx_of_put_eq.
      * change (waiting_to_write (tx_of (put_tx t (with_held (write_locks (tx_of e t))
          (list_delete l (read_locks (tx_of e t))) (with_waiting None (Some l) (tx_of e t))) e) t) = Some l).
        by rewrite tx_of_put_eq.
    + eexists true, _. split; [done|]. rewrite !tx_of_put_eq. cbn. eauto.
  - exists false, e. rewrite Hlk. eauto 10.
  - destruct (bool_decide_reflect (l ∈ read_locks (tx_of e t))) as [Hr|Hr].
    + exists false, e. rewrite Hlk. eauto 10.
    + eexists true, _. split; [done|]. rewrite !tx_of_put_eq. cbn. eauto.
Qed.

Lemma lock_attempt_ready (l t : positive) (write : bool) (e : env) :
  ready l t write e -> waits l t write e ->
  lock_attempt l t write e = Ret (true, e)
  \/ exists e', lock_attempt l t write e = Ret (false, e') /\ lock_inv (lock_end t write e')
     /\ holds l t write (lock_end t write e').
Proof.
  intros (Hinv & Ht & [lk Hlk] & Hnone) Hwait.
  destruct (lock_attempt l t write e) as [[[] e']| | |] eqn:Hrun.
  - left. revert Hrun. unfold lock_attempt. rewrite Hlk. run. by repeat case_match.
  - right. exists e'. split; [done|]. split; [by eapply lock_grant_inv|].
    revert Hrun. unfold lock_attempt, holds. rewrite Hlk. run.
    repeat case_match; try done; intros [= <-]; unfold lock_end; rewrite !tx_of_put_eq; cbn; set_solver.
  - exfalso. revert Hrun. unfold lock_attempt. rewrite Hlk. run. by repeat case_match.
  - exfalso. revert Hrun. unfold lock_attempt. rewrite Hlk. run. by repeat case_match.
  - exfalso. revert Hrun. unfold lock_attempt. rewrite Hlk. run. by repeat case_match.
Qed.

Lemma lock_loop_ready (l t : positive) (write : bool) (fuel : nat) : forall e,
  ready l t write e -> waits l t write e ->
  lock_loop wait fuel l t write e = Fuel
  \/ exists b e', lock_loop wait fuel l t write e = Ret (b, e') /\ lock_inv (lock_end t write e')
     /\ (b = false -> holds l t write (lock_end t write e')).
Proof.
  induction fuel as [|fuel IH]; intros e Hready Hwait; [by left|]. cbn [lock_loop].
  destruct (check_tx_timeout t e); cbn [negb].
  2: { right. exists true, e. split_and!; [done| |done]. by apply lock_end_inv; apply Hready. }
  destruct (lock_attempt_ready l t write e Hready Hwait) as [->|(e' & -> & Hinv & Hholds)]; run.
  2: { right. exists false, e'. auto. }
  destruct Hready as (Hinv & Ht & Hlk & Hnone).
  destruct (detect_residue e (li_nodup _ Hinv)) as (_ & ([] & -> & _) & _); run.
  - right. exists true, e. split_and!; [done| |done]. by apply lock_end_inv.
  - apply IH; unfold ready, waits in *; rewrite wait_own; [|done].
    split_and!; [by apply wait_inv|by rewrite <- wait_alive|by apply wait_lock|done].
Qed.

(** A transaction that asks for a lock and waits for nothing else gets an answer, or
    waits on; a positive answer means that it holds the lock, for writing if it asked for
    that, and whatever the answer the records of locks and transactions agree. *)
Theorem tx_lock_holds (l t : positive) (write : bool) (e : env) :
  lock_inv e -> t ∈ transactions e -> is_Some (locks e !! l) ->
  waiting_to_read (tx_of e t) = None -> waiting_to_write (tx_of e t) = None ->
  tx_lock wait patience l t write e = Fuel
  \/ exists b e', tx_lock wait patience l t write e = Ret (b, e') /\ lock_inv e'
     /\ (b = true -> l ∈ write_locks (tx_of e' t) \/ write = false /\ l ∈ read_locks (tx_of e' t)).
Proof.
  intros Hinv Ht Hlk Hr0 Hw0. unfold tx_lock.
  destruct (lock_declare_ready l t write e) as ([] & e1 & -> & Hready & H1); [done..| |]; run.
  - destruct (lock_loop_ready l t write patience e1 Hready H1) as [->|(b & e2 & -> & Hinv2 & Hh)]; run; [by left|].
    right. exists (negb b), (lock_end t write e2). split_and!; [done|done|]. rewrite negb_true_iff. apply Hh.
  - right. exists true, (lock_end t write e1). destruct Hready as (Hinv1 & Ht1 & _). split_and!; [done| |].
    + by apply lock_end_inv.
    + intros _. revert H1. unfold holds, lock_end. rewrite tx_of_put_eq. by destruct write.
Qed.

End acquire.

(** Two transactions, of which the second reads the one lock. *)
Definition read_once : env :=
  let e := snd (create_transaction 9 (create_btree_environment 0)) in
  let e := lock_attach 1 (snd (create_transaction 9 e)) in
  match tx_lock (fun _ _ e => e) 2 1 2 false e with Ret (_, e) => e | _ => e end.

Lemma read_once_reachable : rtc lock_step (create_btree_environment 0) read_once.
Proof.
  eapply rtc_l; [apply (step_begin 9)|]. eapply rtc_l; [apply (step_begin 9)|].
  eapply rtc_l; [apply (step_attach 1)|].
  eapply rtc_l; [eapply (step_declare 1 2 false); [vm_compute; repeat constructor|reflexivity]|].
  eapply rtc_l; [eapply (step_grant 1 2 false); [vm_compute; repeat constructor|reflexivity|reflexivity]|].
  apply rtc_refl.
Qed.

Lemma tx_lock_holds_witness :
  exists e', tx_lock (fun _ _ e => e) 2 1 2 true read_once = Ret (true, e')
    /\ 1%positive ∈ write_locks (tx_of e' 2).
Proof.
  destruct (tx_lock_holds (fun _ _ e => e) 2) with (l := 1%positive) (t := 2%positive) (write := true)
    (e := read_once) as [Hf|(b & e' & Hrun & _ & Hb)]; try done.
  - apply (lock_inv_reachable 0), read_once_reachable.
  - vm_compute. repeat constructor.
  - exists e'. vm_compute in Hrun. injection Hrun as <- <-. split; [vm_compute; reflexivity|].
    by destruct (Hb eq_refl) as [|[]].
Defined.

(** A second reader, whose attempt to write fails since it is out of time: it ends up
    without the read lock that it had. *)
Definition read_twice : env :=
  let e := snd (create_transaction 9 (create_btree_environment 0)) in
  let e := lock_attach 1 (snd (create_transaction 9 e)) in
  let e := match tx_lock (fun _ _ e => e) 2 1 2 false e with Ret (_, e) => e | _ => e end in
  match tx_lock (fun _ _ e => e) 2 1 1 false e with Ret (_, e) => e | _ => e end.

Definition later (e : env) : env :=
  BtreeEnvironment (btrees e) (trees e) (transactions e) (txs e) (nodes e) (locks e) (lock_table e) 10.

Example failed_upgrade_drops_read_lock :
  read_locks (tx_of read_twice 1) = [1%positive]
  /\ exists e', tx_lock (fun _ _ e => later e) 2 1 1 true read_twice = Ret (false, e')
       /\ read_locks (tx_of e' 1) = [] /\ write_locks (tx_of e' 1) = [].
Proof. split; [reflexivity|]. eexists. split; [vm_compute; reflexivity|]. split; reflexivity. Qed.
