(* ===== verification/MemTree.v ===== *)
(** * The nodes of the in-memory storage engine under transactions (storage-mem.c)

    A transaction works on scratch copies of the headers, keys and pages of the nodes it
    changes; the copies become the nodes at a commit and vanish at a rollback.  Here are
    the ways through a tree, the changes of its links, deletion, commit and rollback, and
    the creation and closing of trees. *)

From S2P Require Import Prelude.
From S2P Require Import MemPage.
From S2P Require Import MemEnv.
From S2P Require Import MemLock.

Local Open Scope Z_scope.

(** ** Operations on an environment *)

Definition tree_op (A : Type) : Type := env -> outcome (A * env).

#[export] Instance tree_op_ret : MRet tree_op := fun A x e => Ret (x, e).
#[export] Instance tree_op_bind : MBind tree_op := fun A B k m e => '(x, e) ← m e; k x e.

Definition lift {A} (o : outcome A) : tree_op A := fun e => x ← o; Ret (x, e).
Definition look {A} (f : env -> outcome A) : tree_op A := fun e => x ← f e; Ret (x, e).
Definition change (f : env -> outcome env) : tree_op unit := fun e => e ← f e; Ret (tt, e).

Definition get_node (n : positive) : tree_op btree_node := look (fun e => deref (nodes e !! n)).
Definition set_node (n : positive) (x : btree_node) : tree_op unit := change (fun e => Ret (put_node n x e)).
Definition get_tree (b : positive) : tree_op btree := look (fun e => deref (trees e !! b)).
Definition set_tree (b : positive) (x : btree) : tree_op unit := change (fun e => Ret (put_tree b x e)).
Definition get_tx (t : positive) : tree_op btree_transaction := look (fun e => Ret (tx_of e t)).
Definition set_tx (t : positive) (x : btree_transaction) : tree_op unit := change (fun e => Ret (put_tx t x e)).

Fixpoint for_each (f : positive -> tree_op unit) (l : list positive) : tree_op unit :=
  match l with
  | [] => mret tt
  | x :: l => _ ← f x; for_each f l
  end.

(** A pointer that is dereferenced. *)
Definition pointer (p : option positive) : tree_op positive := lift (deref p).

(** ** Effective headers, keys and pages

    Each is in the node or in its scratch copy; a pointer to a scratch copy dangles once
    the copy has been committed or dropped. *)

Inductive header_ptr := HeaderOf (n : positive) | NewHeaderOf (n : positive).
Inductive datum_ptr := KeyOf (n : positive) | NewKeyOf (n : positive).
Inductive page_ptr := PageOf (n : positive) | NewPageOf (n : positive).

Definition read_header (p : header_ptr) : tree_op btree_node_header :=
  match p with
  | HeaderOf n => x ← get_node n; mret (header x)
  | NewHeaderOf n => x ← get_node n; lift (deref (new_header x))
  end.

Definition write_header (p : header_ptr) (h : btree_node_header) : tree_op unit :=
  match p with
  | HeaderOf n => x ← get_node n; set_node n (with_headers h (new_header x) x)
  | NewHeaderOf n => x ← get_node n; _ ← lift (deref (new_header x)); set_node n (with_headers (header x) (Some h) x)
  end.

Definition effective_header (n : positive) (write : bool) : tree_op header_ptr :=
  x ← get_node n;
  if write then
    if is_new x then mret (HeaderOf n)
    else
      _ ← match new_header x with
          | Some _ => mret tt
          | None => set_node n (with_headers (header x) (Some (header x)) x)
          end;
      mret (NewHeaderOf n)
  else mret (match new_header x with Some _ => NewHeaderOf n | None => HeaderOf n end).

Definition read_datum (p : datum_ptr) : tree_op (option btree_datum) :=
  match p with
  | KeyOf n => x ← get_node n; mret (key x)
  | NewKeyOf n => x ← get_node n; mret (new_key x)
  end.

Definition write_datum (p : datum_ptr) (k : option btree_datum) : tree_op unit :=
  match p with
  | KeyOf n => x ← get_node n; set_node n (with_keys k (new_key x) x)
  | NewKeyOf n => x ← get_node n; set_node n (with_keys (key x) k x)
  end.

Definition effective_key (n : positive) (write : bool) : tree_op datum_ptr :=
  x ← get_node n;
  mret (if write then (if is_new x then KeyOf n else NewKeyOf n)
        else match new_key x with Some _ => NewKeyOf n | None => KeyOf n end).

Definition read_page (p : page_ptr) : tree_op btree_page :=
  match p with
  | PageOf n => x ← get_node n; lift (deref (page x))
  | NewPageOf n => x ← get_node n; lift (deref (new_page x))
  end.

Definition write_page (p : page_ptr) (pg : btree_page) : tree_op unit :=
  match p with
  | PageOf n => x ← get_node n; _ ← lift (deref (page x)); set_node n (with_pages (Some pg) (new_page x) x)
  | NewPageOf n => x ← get_node n; _ ← lift (deref (new_page x)); set_node n (with_pages (page x) (Some pg) x)
  end.

(** The scratch page has what the page has in its occupied part. *)
Definition effective_page (n : positive) (write : bool) : tree_op (option page_ptr) :=
  x ← get_node n;
  if write then
    if is_new x then mret (match page x with Some _ => Some (PageOf n) | None => None end)
    else
      match page x, new_page x with
      | Some pg, None => _ ← set_node n (with_pages (page x) (Some pg) x); mret (Some (NewPageOf n))
      | _, Some _ => mret (Some (NewPageOf n))
      | None, None => mret None
      end
  else mret (match new_page x, page x with
             | Some _, _ => Some (NewPageOf n)
             | None, Some _ => Some (PageOf n)
             | None, None => None
             end).

(** ** Modifications of a transaction *)

Definition mark_modification (n t : positive) : tree_op unit :=
  tx ← get_tx t;
  if bool_decide (n ∈ modifications tx) then mret tt
  else set_tx t (with_modifications (n :: modifications tx) tx).

Definition unmark_modification (n t : positive) : tree_op unit :=
  tx ← get_tx t;
  _ ← lift (c_assert (bool_decide (n ∈ modifications tx)));
  set_tx t (with_modifications (list_delete n (modifications tx)) tx).

(** What others do while a transaction waits, how often it waits at most, and how many
    nodes a loop visits at most. *)
Class Waiting := { others : positive -> positive -> env -> env; patience : nat; steps : nat }.

Section tree.

Context {W : Waiting}.

Definition lock_node (n t : positive) (write : bool) : tree_op (btree_lock_node_response * bool) :=
  fun e => '(r, err, e) ← tx_lock_node others patience n t write e; Ret ((r, err), e).
Definition lock (l t : positive) (write : bool) : tree_op bool :=
  fun e => tx_lock others patience l t write e.

(** Whether a node is locked now, for callers that do not look at the error. *)
Definition locks_node (n t : positive) (write : bool) : tree_op bool :=
  '(r, _) ← lock_node n t write; mret (bool_decide (r = SUCCESS)).

(** ** Ways through a tree

    Each gives the node, if there is one and it could be locked, and whether the error
    was set. *)

Definition locked_link (p : option positive) (t : positive) : tree_op (option positive * bool) :=
  match p with
  | None => mret (None, false)
  | Some n => '(r, err) ← lock_node n t false; mret (if bool_decide (r = SUCCESS) then Some n else None, err)
  end.

Definition tx_first_child (n t : positive) : tree_op (option positive * bool) :=
  p ← effective_header n false; h ← read_header p; locked_link (first_child h) t.
Definition tx_parent (n t : positive) : tree_op (option positive * bool) :=
  p ← effective_header n false; h ← read_header p; locked_link (parent h) t.
Definition tx_next_sibling (n t : positive) : tree_op (option positive * bool) :=
  p ← effective_header n false; h ← read_header p; locked_link (next h) t.
Definition tx_prev_sibling (n t : positive) : tree_op (option positive * bool) :=
  p ← effective_header n false; h ← read_header p; locked_link (prev h) t.

Fixpoint last_child_loop (fuel : nat) (child t : positive) : tree_op (option positive * bool) :=
  match fuel with
  | O => lift Fuel
  | S fuel =>
      '(next, err) ← tx_next_sibling child t;
      if err : bool then mret (None, true)
      else match next with
           | None => mret (Some child, false)
           | Some child => last_child_loop fuel child t
           end
  end.

Definition tx_last_child (n t : positive) : tree_op (option positive * bool) :=
  '(child, err) ← tx_first_child n t;
  match child with
  | None => mret (None, err)
  | Some child => last_child_loop steps child t
  end.

Definition tx_root (b t : positive) : tree_op (option positive) :=
  bt ← get_tree b;
  locked ← lock (tree_lock bt) t false;
  if negb locked then mret None
  else
    bt ← get_tree b;
    ours ← look (fun e => Ret match new_root bt with
                              | Some r => if locked_for_write r t e then Some r else None
                              | None => None
                              end);
    match ours with
    | Some r => mret (Some r)
    | None =>
        locked ← locks_node (root bt) t false;
        if locked : bool then bt ← get_tree b; mret (Some (root bt)) else mret None
    end.

Fixpoint count_loop (fuel : nat) (child : option positive) (err : bool) (num_children : Z) (t : positive)
  : tree_op (Z * bool) :=
  match fuel with
  | O => lift Fuel
  | S fuel =>
      match child with
      | None => mret (if err then (0, true) else (num_children, false))
      | Some c => '(child, err) ← tx_next_sibling c t; count_loop fuel child err (num_children + 1) t
      end
  end.

Definition count_children (t n : positive) : tree_op (Z * bool) :=
  '(child, err) ← tx_first_child n t; count_loop steps child err 0 t.

(** ** Changes of links

    The header is chosen before the lock is there. *)

Definition tx_set_header (f : btree_node_header -> btree_node_header) (n t : positive) : tree_op bool :=
  p ← effective_header n true;
  locked ← locks_node n t true;
  if negb locked then mret false
  else h ← read_header p; _ ← write_header p (f h); _ ← mark_modification n t; mret true.

Definition tx_set_first_child (n t : positive) (x : option positive) : tree_op bool :=
  tx_set_header (fun h => BtreeNodeHeader (parent h) (next h) (prev h) x) n t.
Definition tx_set_next_sibling (n t : positive) (x : option positive) : tree_op bool :=
  tx_set_header (fun h => BtreeNodeHeader (parent h) x (prev h) (first_child h)) n t.
Definition tx_set_prev_sibling (n t : positive) (x : option positive) : tree_op bool :=
  tx_set_header (fun h => BtreeNodeHeader (parent h) (next h) x (first_child h)) n t.
Definition tx_set_parent (n t : positive) (x : option positive) : tree_op bool :=
  tx_set_header (fun h => BtreeNodeHeader x (next h) (prev h) (first_child h)) n t.

Definition tx_set_root (b t : positive) (r : option positive) : tree_op bool :=
  bt ← get_tree b;
  locked ← lock (tree_lock bt) t true;
  if negb locked then mret false
  else bt ← get_tree b; _ ← set_tree b (Btree (root bt) r (tree_lock bt)); mret true.

End tree.

(** Two steps of which the second is done if the first was. *)
Definition both (m k : tree_op bool) : tree_op bool := ok ← m; if ok : bool then k else mret false.

(** A step that is only done under a condition. *)
Definition when (b : bool) (m : tree_op bool) : tree_op bool := if b then m else mret true.

Definition present (p : option positive) : bool := match p with Some _ => true | None => false end.

Section removal.

Context {W : Waiting}.

(** ** Deletion *)

(** The branch for children is dead: nothing sets the variable it tests. *)
Definition unlink_node (n t : positive) : tree_op bool :=
  '(next, err) ← tx_next_sibling n t;
  if err : bool then mret false
  else
    '(prev, err) ← tx_prev_sibling n t;
    if err : bool then mret false
    else
      '(ok, err) ← match prev with
                   | Some _ => mret (true, false)
                   | None =>
                       '(parent, err) ← tx_parent n t;
                       p ← pointer parent;
                       '(parent_first_child, err') ← tx_first_child p t;
                       if negb (err || err') && bool_decide (Some n = parent_first_child) then
                         ok ← tx_set_first_child p t next; mret (ok, false)
                       else mret (true, err || err')
                   end;
      if negb ok then mret false
      else if err : bool then mret false
      else both (match next with Some x => tx_set_prev_sibling x t prev | None => mret true end)
                (match prev with Some x => tx_set_next_sibling x t next | None => mret true end).

Definition free_btree_node (n : positive) (e : env) : outcome env :=
  _ ← deref (nodes e !! n); Ret (set_nodes (base.delete n (nodes e)) e).

Definition delete_node (n t : positive) : tree_op unit :=
  x ← get_node n;
  _ ← lift (c_assert (bool_decide (new_key x = None)));
  _ ← lift (c_assert (bool_decide (new_page x = None)));
  _ ← change (lock_detach n t);
  change (free_btree_node n).

Definition mark_node_deleted (t n : positive) : tree_op bool :=
  locked ← locks_node n t true;
  if negb locked then mret false
  else
    x ← get_node n;
    if is_new x then
      _ ← unmark_modification n t;
      unlinked ← unlink_node n t;
      if negb unlinked then mret false else _ ← delete_node n t; mret true
    else
      unlinked ← unlink_node n t;
      if negb unlinked then mret false
      else
        x ← get_node n;
        _ ← set_node n (mark_deleted x);
        _ ← mark_modification n t;
        x ← get_node n;
        _ ← set_node n (with_keys (key x) None (with_pages (page x) None x));
        mret true.

End removal.

(** ** Commit *)

(** The parts of a node that are committed, from what its transaction sees. *)
Definition install (x : btree_node) : btree_node :=
  let x := match new_key x with Some k => with_keys (Some k) None x | None => x end in
  let x := match new_page x with Some p => with_pages (Some p) None x | None => x end in
  match new_header x with Some h => with_headers h None x | None => x end.

Definition apply_modification (t n : positive) : tree_op unit :=
  x ← get_node n;
  _ ← (if is_new x then mret tt
       else locked ← look (fun e => Ret (locked_for_write n t e)); lift (c_assert locked));
  if is_deleted x then delete_node n t
  else _ ← set_node n (clear_flags (install x)); change (tx_unlock_node n t).

Definition apply_root_modification (t b : positive) : tree_op unit :=
  bt ← get_tree b;
  match new_root bt with
  | Some r =>
      lk ← look (fun e => deref (locks e !! tree_lock bt));
      if bool_decide (writer lk = Some t) then set_tree b (Btree r None (tree_lock bt)) else mret tt
  | None => mret tt
  end.

(** The end of commit and rollback: the locks that are left, then the transaction. *)
Definition release_locks (t : positive) : tree_op unit :=
  tx ← get_tx t;
  _ ← for_each (fun l => change (tx_unlock l t)) (write_locks tx);
  tx ← get_tx t;
  _ ← for_each (fun l => change (tx_unlock l t)) (read_locks tx);
  change (cleanup_transaction t).

Definition commit (t : positive) : tree_op unit :=
  bs ← look (fun e => Ret (btrees e));
  _ ← for_each (apply_root_modification t) bs;
  tx ← get_tx t;
  _ ← for_each (apply_modification t) (modifications tx);
  release_locks t.

(** ** Rollback *)

Definition discard (x : btree_node) : btree_node :=
  with_keys (key x) None (with_pages (page x) None (with_headers (header x) None x)).

Definition rollback_modification (t n : positive) : tree_op unit :=
  x ← get_node n;
  locked ← look (fun e => Ret (locked_for_write n t e));
  _ ← lift (c_assert locked);
  if is_new x then delete_node n t
  else _ ← set_node n (clear_flags (discard x)); change (tx_unlock_node n t).

Definition rollback_root_modification (t b : positive) : tree_op unit :=
  bt ← get_tree b;
  match new_root bt with
  | Some _ =>
      lk ← look (fun e => deref (locks e !! tree_lock bt));
      if bool_decide (writer lk = Some t) then set_tree b (Btree (root bt) None (tree_lock bt)) else mret tt
  | None => mret tt
  end.

Definition rollback (t : positive) : tree_op unit :=
  bs ← look (fun e => Ret (btrees e));
  _ ← for_each (rollback_root_modification t) bs;
  tx ← get_tx t;
  _ ← for_each (rollback_modification t) (modifications tx);
  release_locks t.

(** ** Creating and closing trees *)

Definition INT64_MAX : Z := 2 ^ 63 - 1.

Definition create_btree : tree_op positive :=
  t ← (fun e => Ret (create_transaction INT64_MAX e));
  l ← (fun e => let l := fresh (dom (locks e)) in Ret (l, put_lock l lock_new e));
  r ← (fun e => Ret (create_lockable_btree_node None 1 (BRANCHING_FACTOR - 1) None e));
  x ← get_node r;
  _ ← set_node r (clear_flags x);
  b ← (fun e => let b := fresh (dom (trees e)) in
                Ret (b, set_trees (b :: btrees e) (<[b := Btree r None l]> (trees e)) e));
  _ ← commit t;
  mret b.

(** A child is visited before a sibling. *)
Fixpoint walk_btree (fuel : nat) (func : positive -> tree_op unit) (to_visit : list positive) : tree_op unit :=
  match fuel with
  | O => lift Fuel
  | S fuel =>
      match to_visit with
      | [] => mret tt
      | n :: to_visit =>
          p ← effective_header n false;
          h ← read_header p;
          let to_visit := match next h with Some x => x :: to_visit | None => to_visit end in
          let to_visit := match first_child h with Some x => x :: to_visit | None => to_visit end in
          _ ← func n;
          walk_btree fuel func to_visit
      end
  end.

Definition force_lock_detach (n : positive) : tree_op unit :=
  change (fun e => match lock_table e !! n with
                   | None => Abort
                   | Some l => lock_free l (set_lock_table (base.delete n (lock_table e)) e)
                   end).

(** Each node of the heap is in at most one place of a tree, so that one step more than
    there are nodes is enough. *)
Definition close_btree (b : positive) : tree_op unit :=
  t ← (fun e => Ret (create_transaction INT64_MAX e));
  bs ← look (fun e => Ret (btrees e));
  _ ← lift (c_assert (bool_decide (b ∈ bs)));
  _ ← change (fun e => Ret (set_trees (list_delete b bs) (trees e) e));
  bt ← get_tree b;
  fuel ← look (fun e => Ret (S (size (nodes e))));
  _ ← walk_btree fuel force_lock_detach [root bt];
  _ ← commit t;
  _ ← change (lock_free (tree_lock bt));
  _ ← walk_btree fuel (fun n => change (free_btree_node n)) [root bt];
  change (fun e => Ret (set_trees (btrees e) (base.delete b (trees e)) e)).

(** ** Running operations *)

Lemma bind_op {A B} (m : tree_op A) (k : A -> tree_op B) (e : env) : (m ≫= k) e = ('(x, e) ← m e; k x e).
Proof. done. Qed.

Lemma look_run {A} (f : env -> outcome A) (e : env) : look f e = (x ← f e; Ret (x, e)).
Proof. done. Qed.

Lemma change_run (f : env -> outcome env) (e : env) : change f e = (e ← f e; Ret (tt, e)).
Proof. done. Qed.

Lemma get_node_some (n : positive) (x : btree_node) (e : env) : nodes e !! n = Some x -> get_node n e = Ret (x, e).
Proof. intros Hx. unfold get_node, look. by rewrite Hx. Qed.

Lemma get_node_none (n : positive) (e : env) : nodes e !! n = None -> get_node n e = Undef.
Proof. intros Hx. unfold get_node, look. by rewrite Hx. Qed.

Lemma assert_run (b : bool) (e : env) : b = true -> lift (c_assert b) e = Ret (tt, e).
Proof. by intros ->. Qed.

(** Nobody else is there. *)
Definition alone : Waiting := {| others := fun _ _ e => e; patience := 3; steps := 200 |}.
