(* ===== verification/MemOps.v ===== *)
(** * The operations of the in-memory storage engine (storage-mem.c)

    Search in a B+ tree, insertion and removal of records, the merging and splitting of
    nodes that follow, and the operations of the storage interface. *)

From S2P Require Import Prelude.
From S2P Require Import Io.
From S2P Require Import Util.
From S2P Require Import Glib.
From S2P Require Import Storage.
From S2P Require Import MemPage.
From S2P Require Import MemEnv.
From S2P Require Import MemLock.
From S2P Require Import MemTree.

Local Open Scope Z_scope.

(** ** Steps that end the function they are in when they fail *)

Definition trial (A : Type) : Type := env -> outcome (option A * env).

#[export] Instance trial_ret : MRet trial := fun A x e => Ret (Some x, e).
#[export] Instance trial_bind : MBind trial := fun A B k m e =>
  '(x, e) ← m e;
  match x with Some a => k a e | None => Ret (None, e) end.

Definition sure {A} (m : tree_op A) : trial A := fun e => '(a, e) ← m e; Ret (Some a, e).
(** The error is looked at, and not whether there is a node. *)
Definition link {A} (m : tree_op (A * bool)) : trial A :=
  fun e => '((a, err), e) ← m e; Ret (if err : bool then None else Some a, e).
Definition must (m : tree_op bool) : trial unit :=
  fun e => '(ok, e) ← m e; Ret (if ok : bool then Some tt else None, e).
Definition fail {A} : trial A := fun e => Ret (None, e).
Definition succeeds (m : trial unit) : tree_op bool := fun e => '(x, e) ← m e; Ret (bool_decide (x = Some tt), e).
Definition result {A} (m : trial A) : tree_op (option A) := m.
Definition deref_sure (p : option positive) : trial positive := sure (pointer p).

Section operations.

Context {W : Waiting}.

(** ** Search *)

Inductive scanned :=
| ScanFailed
| ScanLeaf (n : positive)
| ScanChild (n : positive)
| ScanEnd (last : option positive) (leaf_parent : bool).

(** The children of a node, up to the one that is looked for. *)
Fixpoint scan (fuel : nat) (key : bytes) (child prev : option positive) (leaf_parent : bool) (t : positive)
  : tree_op scanned :=
  match fuel with
  | O => lift Fuel
  | S fuel =>
      match child with
      | None => mret (ScanEnd prev leaf_parent)
      | Some c =>
          let advance leaf_parent :=
            '(child, err) ← tx_next_sibling c t;
            if err : bool then mret ScanFailed else scan fuel key child (Some c) leaf_parent t in
          page ← effective_page c false;
          match page with
          | Some p =>
              pg ← read_page p;
              cmp ← lift (compare_page_datum_to_key pg 0 key);
              if 0 <? cmp then mret (ScanLeaf (match prev with Some n => n | None => c end))
              else advance true
          | None =>
              p ← effective_key c false;
              k ← read_datum p;
              if compare_datum key (default [] k) <? 0 then mret (ScanChild c) else advance leaf_parent
          end
      end
  end.

Fixpoint search_loop (fuel : nat) (key : bytes) (node : option positive) (is_root : bool) (t : positive)
  : tree_op (option positive) :=
  match fuel with
  | O => lift Fuel
  | S fuel =>
      match node with
      | None => mret None
      | Some n =>
          '(child, err) ← tx_first_child n t;
          if err : bool then mret None
          else
            r ← scan steps key child None false t;
            match r with
            | ScanFailed => mret None
            | ScanLeaf n => mret (Some n)
            | ScanChild c => search_loop fuel key (Some c) false t
            | ScanEnd prev leaf_parent =>
                if leaf_parent : bool then mret prev
                else if is_root then mret (Some n)
                else search_loop fuel key prev false t
            end
      end
  end.

Definition search (t b : positive) (key : bytes) : tree_op (option positive) :=
  node ← tx_root b t; search_loop steps key node true t.

(** ** Keys of nodes *)

Definition set_node_key_to_key_after (n : positive) (key : option btree_datum) : tree_op unit :=
  p ← effective_key n true;
  write_datum p (Some (key_after (default [] key))).

(** When the parent cannot be had, the node is taken once more. *)
Fixpoint update_key_loop (fuel : nat) (n t : positive) (new_key : btree_datum) (err : bool) : tree_op bool :=
  match fuel with
  | O => lift Fuel
  | S fuel =>
      header ← effective_header n false;
      '(r, err') ← lock_node n t true;
      if negb (bool_decide (r = SUCCESS)) then mret (err || err')
      else
        _ ← set_node_key_to_key_after n (Some new_key);
        h ← read_header header;
        match next h with
        | Some _ => mret err
        | None =>
            '(p, err') ← tx_parent n t;
            match p with
            | Some p =>
                header ← effective_header p false;
                h ← read_header header;
                if present (parent h) then update_key_loop fuel p t new_key (err || err') else mret (err || err')
            | None => update_key_loop fuel n t new_key (err || err')
            end
        end
  end.

Definition page_pointer (p : option page_ptr) : tree_op page_ptr := lift (deref p).

Definition update_key (n t : positive) (offset : Z) : tree_op bool :=
  p ← effective_page n false;
  p ← page_pointer p;
  pg ← read_page p;
  new_key ← lift (key_len ← read_len pg offset; memcpy_from (page_at pg (offset + 2)) key_len);
  update_key_loop steps n t new_key false.

(** ** Records

    The result is whether the error was set. *)

Definition insert_page_record (t leaf : positive) (offset : Z) (key value : bytes) : tree_op bool :=
  let total_len := Z.of_nat (length key) + Z.of_nat (length value) + 4 in
  '(r, err) ← lock_node leaf t true;
  if negb (bool_decide (r = SUCCESS)) then mret err
  else
    p ← effective_page leaf true;
    match p with
    | None => lift Abort
    | Some p =>
        pg ← read_page p;
        pg ← lift (page_insert pg offset key value);
        _ ← write_page p pg;
        _ ← mark_modification leaf t;
        if offset + total_len =? page_size pg then update_key leaf t offset else mret false
    end.

Definition remove_page_record (t leaf : positive) (offset : Z) : tree_op bool :=
  '(r, err) ← lock_node leaf t true;
  if negb (bool_decide (r = SUCCESS)) then mret err
  else
    p ← effective_page leaf true;
    p ← page_pointer p;
    pg ← read_page p;
    pg ← lift (page_remove pg offset);
    _ ← write_page p pg;
    _ ← mark_modification leaf t;
    if (offset =? page_size pg) && (0 <? page_size pg) then update_key leaf t offset else mret false.

(** ** Merging *)

Definition node_key (n : positive) : tree_op (option btree_datum) := p ← effective_key n false; read_datum p.

Definition min_of (n : positive) : tree_op Z := x ← get_node n; mret (min_children x).

Fixpoint borrow_prev (fuel : nat) (node t : positive) (last_prev : option positive) (spare num : Z)
  : trial (option positive * Z * Z) :=
  match fuel with
  | O => sure (lift Fuel)
  | S fuel =>
      lo ← sure (min_of node);
      if (0 <? spare) && (num <? lo) then
        c ← deref_sure last_prev;
        before ← link (tx_prev_sibling c t);
        _ ← must (tx_set_parent c t (Some node));
        borrow_prev fuel node t before (u32 (spare - 1)) (u32 (num + 1))
      else mret (last_prev, spare, num)
  end.

Fixpoint borrow_next (fuel : nat) (node t : positive) (first_next : option positive) (spare num : Z)
  : trial (option positive) :=
  match fuel with
  | O => sure (lift Fuel)
  | S fuel =>
      lo ← sure (min_of node);
      if (0 <? spare) && (num <? lo) then
        c ← deref_sure first_next;
        after ← link (tx_next_sibling c t);
        _ ← must (tx_set_parent c t (Some node));
        borrow_next fuel node t after (u32 (spare - 1)) (u32 (num + 1))
      else mret first_next
  end.

Definition merge_borrow (prev : option positive) (node : positive) (next : option positive) (t : positive)
    (spare_prev num_children spare_next : Z) : tree_op bool :=
  succeeds (
    first_child ← link (tx_first_child node t);
    last_child ← link (tx_last_child node t);
    first_next ← (if 0 <? spare_next then nx ← deref_sure next; link (tx_first_child nx t) else mret None);
    last_prev ← (if 0 <? spare_prev then pv ← deref_sure prev; link (tx_last_child pv t) else mret None);
    let borrowed_prev := 0 <? spare_prev in
    _ ← (if borrowed_prev then
           lp ← deref_sure last_prev;
           _ ← must (tx_set_next_sibling lp t first_child);
           match first_child with
           | Some c => must (tx_set_prev_sibling c t last_prev)
           | None => mret tt
           end
         else mret tt);
    '(last_prev, spare_prev, num_children) ← borrow_prev steps node t last_prev spare_prev num_children;
    _ ← (if borrowed_prev then
           lp ← deref_sure last_prev;
           prev_next ← link (tx_next_sibling lp t);
           _ ← must (tx_set_first_child node t prev_next);
           _ ← must (tx_set_next_sibling lp t None);
           pn ← deref_sure prev_next;
           _ ← must (tx_set_prev_sibling pn t None);
           k ← sure (node_key lp);
           pv ← deref_sure prev;
           sure (set_node_key_to_key_after pv k)
         else mret tt);
    lo ← sure (min_of node);
    let borrowed_next := (0 <? spare_next) && (num_children <? lo) in
    _ ← (if borrowed_next then
           _ ← match last_child with
               | Some c => must (tx_set_next_sibling c t first_next)
               | None => mret tt
               end;
           fn ← deref_sure first_next;
           must (tx_set_prev_sibling fn t last_child)
         else mret tt);
    first_next ← borrow_next steps node t first_next spare_next num_children;
    if borrowed_next then
      fn ← deref_sure first_next;
      next_prev ← link (tx_prev_sibling fn t);
      nx ← deref_sure next;
      _ ← must (tx_set_first_child nx t first_next);
      np ← deref_sure next_prev;
      _ ← must (tx_set_next_sibling np t None);
      _ ← must (tx_set_prev_sibling fn t None);
      k ← sure (node_key np);
      sure (set_node_key_to_key_after node k)
    else mret tt).

Fixpoint distribute_prev (fuel : nat) (prev : option positive) (t : positive) (last_prev child : option positive)
    (slots num : Z) : trial (option positive * option positive * Z) :=
  match fuel with
  | O => sure (lift Fuel)
  | S fuel =>
      if (0 <? slots) && (0 <? num) then
        c ← deref_sure child;
        after ← link (tx_next_sibling c t);
        lp ← deref_sure last_prev;
        _ ← must (tx_set_next_sibling lp t child);
        _ ← must (tx_set_next_sibling c t None);
        _ ← must (tx_set_parent c t prev);
        _ ← must (tx_set_prev_sibling c t last_prev);
        _ ← match after with Some a => must (tx_set_prev_sibling a t None) | None => mret tt end;
        distribute_prev fuel prev t child after (u32 (slots - 1)) (u32 (num - 1))
      else mret (last_prev, child, num)
  end.

Fixpoint distribute_next (fuel : nat) (next : option positive) (t : positive) (first_next child : option positive)
    (slots num : Z) : trial unit :=
  match fuel with
  | O => sure (lift Fuel)
  | S fuel =>
      if (0 <? slots) && (0 <? num) then
        c ← deref_sure child;
        after ← link (tx_next_sibling c t);
        _ ← must (tx_set_parent c t next);
        _ ← match after with
            | None =>
                _ ← must (tx_set_next_sibling c t first_next);
                fn ← deref_sure first_next;
                must (tx_set_prev_sibling fn t child)
            | Some _ => mret tt
            end;
        distribute_next fuel next t first_next after (u32 (slots - 1)) (u32 (num - 1))
      else mret tt
  end.

Definition merge_distribute (prev : option positive) (node : positive) (next : option positive) (t : positive)
    (prev_slots num_children next_slots : Z) : tree_op bool :=
  succeeds (
    child ← link (tx_first_child node t);
    last_prev ← (if 0 <? prev_slots then pv ← deref_sure prev; link (tx_last_child pv t) else mret None);
    first_next ← (if 0 <? next_slots then nx ← deref_sure next; link (tx_first_child nx t) else mret None);
    '(last_prev, child, num_children) ← distribute_prev steps prev t last_prev child prev_slots num_children;
    _ ← match last_prev with
        | Some lp => k ← sure (node_key lp); pv ← deref_sure prev; sure (set_node_key_to_key_after pv k)
        | None => mret tt
        end;
    _ ← (if 0 <? num_children then nx ← deref_sure next; must (tx_set_first_child nx t child) else mret tt);
    _ ← distribute_next steps next t first_next child next_slots num_children;
    must (mark_node_deleted t node)).

Fixpoint reparent_loop (fuel : nat) (t : positive) (parent child_ptr : option positive) (err : bool)
  : tree_op (option positive * bool) :=
  match fuel with
  | O => lift Fuel
  | S fuel =>
      match child_ptr, err with
      | Some c, false =>
          _ ← tx_set_parent c t parent;
          '(child_ptr, err) ← tx_next_sibling c t;
          reparent_loop fuel t parent child_ptr err
      | _, _ => mret (child_ptr, err)
      end
  end.

(** An only child of its parent gives its children to it. *)
Definition merge_only_child (node p t : positive) : tree_op bool :=
  '(child, err) ← tx_first_child node t;
  deleted ← mark_node_deleted t node;
  if deleted : bool then
    '(child_ptr, err) ← reparent_loop steps t (Some p) child err;
    if negb err then tx_set_first_child p t child_ptr else mret false
  else mret false.

Definition count_of (n : option positive) (t : positive) : trial Z :=
  match n with Some n => link (count_children t n) | None => mret 0 end.

(** What a sibling has more than it needs, and what it has room for. *)
Definition spare_of (n : option positive) (num : Z) : tree_op (Z * Z) :=
  match n with
  | Some n => x ← get_node n; mret (u32 (num - min_children x), u32 (max_children x - num))
  | None => mret (0, 0)
  end.

Definition merge (node : positive) (num_children : Z) (t : positive) : tree_op bool :=
  x ← get_node node;
  let required_children := u32 (min_children x - num_children) in
  succeeds (
    p ← link (tx_parent node t);
    next ← link (tx_next_sibling node t);
    num_next ← count_of next t;
    prev ← link (tx_prev_sibling node t);
    num_prev ← count_of prev t;
    match next, prev, p with
    | None, None, Some p => must (merge_only_child node p t)
    | _, _, _ =>
        '(spare_next, next_slots) ← sure (spare_of next num_next);
        '(spare_prev, prev_slots) ← sure (spare_of prev num_prev);
        if required_children <=? u32 (spare_next + spare_prev) then
          must (merge_borrow prev node next t spare_prev num_children spare_next)
        else if num_children <=? u32 (next_slots + prev_slots) then
          must (merge_distribute prev node next t prev_slots num_children next_slots)
        else sure (lift Abort)
    end).

Fixpoint merge_loop (fuel : nat) (t node : positive) (num_children : Z) : trial unit :=
  match fuel with
  | O => sure (lift Fuel)
  | S fuel =>
      lo ← sure (min_of node);
      if num_children <? lo then
        p ← link (tx_parent node t);
        match p with
        | None => mret tt
        | Some p =>
            _ ← must (merge node num_children t);
            num_children ← link (count_children t p);
            merge_loop fuel t p num_children
        end
      else mret tt
  end.

Definition maybe_merge (t node : positive) : tree_op bool :=
  succeeds (num_children ← link (count_children t node); merge_loop steps t node num_children).

(** ** Splitting *)

Fixpoint split_loop (fuel : nat) (t : positive) (position limit : Z) (before point : option positive)
  : trial (option positive * option positive) :=
  match fuel with
  | O => sure (lift Fuel)
  | S fuel =>
      if position <=? limit then
        c ← deref_sure point;
        after ← link (tx_next_sibling c t);
        split_loop fuel t (position + 1) limit point after
      else mret (before, point)
  end.

(** The children from the point of the split on, with the last of them. *)
Fixpoint split_parents (fuel : nat) (t new_node : positive) (before point : option positive)
  : trial (option positive) :=
  match fuel with
  | O => sure (lift Fuel)
  | S fuel =>
      match point with
      | None => mret before
      | Some c =>
          _ ← must (tx_set_parent c t (Some new_node));
          after ← link (tx_next_sibling c t);
          split_parents fuel t new_node point after
      end
  end.

Definition create_sibling (leaf_parent : bool) : tree_op positive :=
  fun e => Ret (if leaf_parent then create_lockable_btree_node None MIN_LEAF_CHILDREN MAX_LEAF_CHILDREN None e
                else create_lockable_btree_node None MIN_INTERNAL_CHILDREN MAX_INTERNAL_CHILDREN None e).

Definition split (node t : positive) (leaf_parent : bool) : trial positive :=
  new_node ← sure (create_sibling leaf_parent);
  _ ← must (locks_node new_node t true);
  next ← link (tx_next_sibling node t);
  p ← link (tx_parent node t);
  split_point ← link (tx_first_child node t);
  x ← sure (get_node node);
  '(pre_split_point, split_point) ← split_loop steps t 1 (max_children x / 2) None split_point;
  pre ← deref_sure pre_split_point;
  k ← sure (node_key pre);
  _ ← sure (set_node_key_to_key_after node k);
  _ ← must (tx_set_next_sibling pre t None);
  sp ← deref_sure split_point;
  _ ← must (tx_set_prev_sibling sp t None);
  _ ← must (tx_set_first_child new_node t split_point);
  _ ← must (tx_set_next_sibling new_node t next);
  _ ← must (tx_set_next_sibling node t (Some new_node));
  _ ← must (tx_set_parent new_node t p);
  _ ← must (tx_set_prev_sibling new_node t (Some node));
  _ ← match next with Some n => must (tx_set_prev_sibling n t (Some new_node)) | None => mret tt end;
  last ← split_parents steps t new_node pre_split_point split_point;
  last ← deref_sure last;
  k ← sure (node_key last);
  _ ← sure (set_node_key_to_key_after new_node k);
  mret new_node.

(** The root was split in two. *)
Definition grow_root (b t node new_node : positive) : trial unit :=
  p ← sure (fun e => Ret (create_lockable_btree_node None 1 (BRANCHING_FACTOR - 1) None e));
  _ ← must (locks_node p t true);
  x ← sure (get_node node);
  _ ← sure (set_node node (with_bounds MIN_INTERNAL_CHILDREN MAX_INTERNAL_CHILDREN x));
  _ ← must (tx_set_first_child p t (Some node));
  _ ← must (tx_set_parent node t (Some p));
  _ ← must (tx_set_parent new_node t (Some p));
  _ ← must (tx_set_root b t (Some p));
  must (maybe_merge t node).

Fixpoint maybe_split_loop (fuel : nat) (t b node : positive) (leaf_parent : bool) (num_children : Z) : trial unit :=
  match fuel with
  | O => sure (lift Fuel)
  | S fuel =>
      x ← sure (get_node node);
      if max_children x <? num_children then
        p ← link (tx_parent node t);
        new_node ← split node t leaf_parent;
        match p with
        | None => grow_root b t node new_node
        | Some p =>
            num_children ← link (count_children t p);
            maybe_split_loop fuel t b p false num_children
        end
      else mret tt
  end.

Definition maybe_split (t b node : positive) : tree_op bool :=
  succeeds (num_children ← link (count_children t node); maybe_split_loop steps t b node true num_children).

(** ** Insertion *)

(** The first child of a node that has no last child. *)
Definition insert_first (new_child t : positive) (p : option positive) : trial unit :=
  pn ← deref_sure p;
  first_child ← link (tx_first_child pn t);
  _ ← match first_child with
      | Some _ =>
          _ ← must (tx_set_next_sibling new_child t None);
          null ← deref_sure None;
          must (tx_set_prev_sibling null t (Some new_child))
      | None => mret tt
      end;
  must (tx_set_first_child pn t (Some new_child)).

(** A leaf beside an internal node is put under a node of its own. *)
Definition make_interstitial (new_child t : positive) (p : option positive) : trial positive :=
  interstitial ← sure (fun e => Ret (create_lockable_btree_node p MIN_INTERNAL_CHILDREN MAX_INTERNAL_CHILDREN None e));
  _ ← must (locks_node interstitial t true);
  _ ← sure (tx_set_first_child interstitial t (Some new_child));
  _ ← sure (tx_set_parent new_child t (Some interstitial));
  mret interstitial.

Definition insert_after (new_child prev t : positive) (p : option positive) : trial unit :=
  '(next, err) ← sure (tx_next_sibling prev t);
  page ← sure (effective_page prev false);
  let needs_merge := match page with None => 1 <? MIN_INTERNAL_CHILDREN | Some _ => false end in
  new_sibling ← match page with None => make_interstitial new_child t p | Some _ => mret new_child end;
  _ ← match next with
      | Some n =>
          _ ← must (tx_set_next_sibling new_sibling t next);
          must (tx_set_prev_sibling n t (Some new_sibling))
      | None => if err : bool then fail else mret tt
      end;
  _ ← must (tx_set_next_sibling prev t (Some new_sibling));
  _ ← must (tx_set_prev_sibling new_sibling t (Some prev));
  if needs_merge then
    _ ← must (merge new_sibling 1 t);
    pn ← deref_sure p;
    must (maybe_merge t pn)
  else mret tt.

Definition insert_leaf_with_record (t b : positive) (p after : option positive) (key value : bytes)
  : tree_op (option positive) :=
  result (
    new_child ← sure (fun e => Ret (create_lockable_btree_node p 0 0 None e));
    _ ← must (locks_node new_child t true);
    prev ← match after with
           | Some a => mret (Some a)
           | None => pn ← deref_sure p; link (tx_last_child pn t)
           end;
    _ ← match prev with
        | None => insert_first new_child t p
        | Some prev => insert_after new_child prev t p
        end;
    _ ← sure (mark_modification new_child t);
    x ← sure (get_node new_child);
    _ ← sure (set_node new_child (with_pages (Some MemPage.new_page) (MemEnv.new_page x) x));
    err ← sure (insert_page_record t new_child 0 key value);
    if err : bool then fail
    else
      pn ← deref_sure p;
      _ ← must (maybe_split t b pn);
      mret new_child).

(** Whether the error was set. *)
Fixpoint transfer_loop (fuel : nat) (t node new_leaf : positive) (pg new_pg : page_ptr) (offset : Z)
  : tree_op bool :=
  match fuel with
  | O => lift Fuel
  | S fuel =>
      page ← read_page pg;
      if offset <? page_size page then
        '(key, value) ← lift (page_record page offset);
        target ← read_page new_pg;
        err ← insert_page_record t new_leaf (page_size target) key value;
        if err : bool then mret true
        else
          err ← remove_page_record t node offset;
          if err : bool then mret true else transfer_loop fuel t node new_leaf pg new_pg offset
      else mret false
  end.

(** What follows the offset goes to a page of its own. *)
Definition split_page (t b node : positive) (pg : page_ptr) (offset : Z) (p : option positive) : tree_op bool :=
  page ← read_page pg;
  '(key, value) ← lift (page_record page offset);
  new_leaf ← insert_leaf_with_record t b p (Some node) key value;
  match new_leaf with
  | None => mret true
  | Some new_leaf =>
      err ← remove_page_record t node offset;
      if err : bool then mret true
      else
        new_pg ← effective_page new_leaf true;
        page ← read_page pg;
        if offset <? page_size page then
          new_pg ← page_pointer new_pg;
          transfer_loop (S (Z.to_nat (page_size page))) t node new_leaf pg new_pg offset
        else mret false
  end.

Definition put_internal (t b node : positive) (key value : bytes) : tree_op bool :=
  let required_size := Z.of_nat (length key) + Z.of_nat (length value) + 4 in
  p ← effective_page node true;
  pg ← page_pointer p;
  page ← read_page pg;
  offset ← lift (page_key_offset page key);
  same ← (if offset + 2 <? page_size page
          then c ← lift (compare_page_datum_to_key page offset key); mret (c =? 0)
          else mret false);
  err ← (if same : bool then remove_page_record t node offset else mret false);
  if err : bool then mret true
  else
    page ← read_page pg;
    if page_size page + required_size <=? MAX_PAGE_SIZE then insert_page_record t node offset key value
    else
      '(new_parent, err) ← tx_parent node t;
      if err : bool then mret true
      else
        '(done, err) ← (if offset <? page_size page then
                          err ← split_page t b node pg offset new_parent;
                          if err : bool then mret (true, true)
                          else
                            page ← read_page pg;
                            if page_size page + required_size <=? MAX_PAGE_SIZE then
                              err ← insert_page_record t node offset key value; mret (true, err)
                            else mret (false, false)
                        else mret (false, false));
        if done : bool then mret err
        else
          '(new_parent, err) ← tx_parent node t;
          if err : bool then mret true
          else
            new_leaf ← insert_leaf_with_record t b new_parent (Some node) key value;
            mret (negb (present new_leaf)).

(** ** The storage interface *)

Record storage_transaction := StorageTransaction { txn : positive; tx_doomed : bool; tx_retry : bool }.

Definition mark_for_rollback (should_retry : bool) (tx : storage_transaction) : storage_transaction :=
  StorageTransaction (txn tx) true should_retry.

Definition transaction_begin : tree_op storage_transaction :=
  fun e => let '(t, e) := create_transaction INT64_MAX e in Ret (StorageTransaction t false false, e).

Definition transaction_begin_timed (timeout : timeval) : tree_op storage_transaction :=
  fun e =>
    let duration_usec := s64 (tv_sec timeout * 1000000 + tv_usec timeout) in
    let '(t, e) := create_transaction (s64 (monotonic_time e + duration_usec)) e in
    Ret (StorageTransaction t false false, e).

Definition check_tx (tx : storage_transaction) : tree_op (bool * storage_transaction) :=
  if tx_doomed tx then mret (false, tx)
  else
    alive ← look (fun e => Ret (check_tx_timeout (txn tx) e));
    if negb alive then mret (false, StorageTransaction (txn tx) true true) else mret (true, tx).

Definition get_internal (tx : storage_transaction) (b : positive) (key : bytes) (update : bool)
  : tree_op (option bytes * storage_transaction) :=
  node ← search (txn tx) b key;
  match node with
  | None => mret (None, mark_for_rollback true tx)
  | Some n =>
      locked ← (if update then locks_node n (txn tx) true else mret true);
      if negb locked then mret (None, mark_for_rollback true tx)
      else
        p ← effective_page n false;
        match p with
        | None => mret (None, tx)
        | Some p => pg ← read_page p; value ← lift (lookup_page_value pg key); mret (value, tx)
        end
  end.

Definition transaction_get (tx : storage_transaction) (b : positive) (key : bytes)
  : tree_op (option bytes * storage_transaction) :=
  '(alive, tx) ← check_tx tx;
  if negb alive then mret (None, tx) else get_internal tx b key false.

Definition transaction_get_for_update (tx : storage_transaction) (b : positive) (key : bytes)
  : tree_op (option bytes * storage_transaction) :=
  '(alive, tx) ← check_tx tx;
  if negb alive then mret (None, tx) else get_internal tx b key true.

Definition transaction_commit (tx : storage_transaction) : tree_op unit :=
  _ ← lift (c_assert (negb (tx_doomed tx)));
  commit (txn tx).

Definition transaction_rollback (tx : storage_transaction) : tree_op unit := rollback (txn tx).

Definition transaction_put (tx : storage_transaction) (b : positive) (key value : bytes)
  : tree_op storage_transaction :=
  let t := txn tx in
  '(alive, tx) ← check_tx tx;
  if negb alive then mret tx
  else
    node ← search t b key;
    failed ← match node with
             | None => mret true
             | Some n =>
                 locked ← locks_node n t true;
                 if negb locked then mret true
                 else
                   p ← effective_page n false;
                   match p with
                   | Some _ => put_internal t b n key value
                   | None =>
                       new_leaf ← insert_leaf_with_record t b (Some n) None key value;
                       mret (negb (present new_leaf))
                   end
             end;
    mret (if failed : bool then mark_for_rollback true tx else tx).

(** A leaf without records leaves the tree. *)
Definition remove_leaf (t n : positive) : tree_op Z :=
  '(p, err) ← tx_parent n t;
  if err : bool then mret GZOCHID_STORAGE_ETXFAILURE
  else
    deleted ← mark_node_deleted t n;
    if negb deleted then mret GZOCHID_STORAGE_ETXFAILURE
    else
      pn ← pointer p;
      merged ← maybe_merge t pn;
      mret (if negb merged then GZOCHID_STORAGE_ETXFAILURE else 0).

Definition delete_from_leaf (t n : positive) (key : bytes) : tree_op Z :=
  p ← effective_page n true;
  match p with
  | None => mret GZOCHID_STORAGE_ENOTFOUND
  | Some pg =>
      page ← read_page pg;
      offset ← lift (page_key_offset page key);
      c ← lift (compare_page_datum_to_key page offset key);
      if negb (c =? 0) then mret GZOCHID_STORAGE_ENOTFOUND
      else
        err ← remove_page_record t n offset;
        if err : bool then mret GZOCHID_STORAGE_ETXFAILURE
        else
          page ← read_page pg;
          if page_size page =? 0 then remove_leaf t n else mret 0
  end.

Definition transaction_delete (tx : storage_transaction) (b : positive) (key : bytes)
  : tree_op (Z * storage_transaction) :=
  let t := txn tx in
  '(alive, tx) ← check_tx tx;
  if negb alive then mret (GZOCHID_STORAGE_ETXFAILURE, tx)
  else
    node ← search t b key;
    ret ← match node with
          | None => mret GZOCHID_STORAGE_ETXFAILURE
          | Some n =>
              locked ← locks_node n t true;
              if negb locked then mret GZOCHID_STORAGE_ETXFAILURE else delete_from_leaf t n key
          end;
    mret (ret, if ret =? GZOCHID_STORAGE_ETXFAILURE then mark_for_rollback true tx else tx).

(** The error is never set. *)
Definition find_key_gte (t b : positive) (key : bytes) : tree_op (option bytes) :=
  node ← search t b key;
  match node with
  | None => mret None
  | Some n =>
      p ← effective_page n false;
      match p with
      | None => mret None
      | Some p => pg ← read_page p; lift (page_key_gte pg key)
      end
  end.

Definition transaction_first_key (tx : storage_transaction) (b : positive)
  : tree_op (option bytes * storage_transaction) :=
  '(alive, tx) ← check_tx tx;
  if negb alive then mret (None, tx)
  else found ← find_key_gte (txn tx) b [0]; mret (found, tx).

Definition transaction_next_key (tx : storage_transaction) (b : positive) (key : bytes)
  : tree_op (option bytes * storage_transaction) :=
  '(alive, tx) ← check_tx tx;
  if negb alive then mret (None, tx)
  else found ← find_key_gte (txn tx) b (key_after key); mret (found, tx).

End operations.
