(* ===== verification/MemDurable.v ===== *)
(** * What commits and rollbacks change in the in-memory storage engine (storage-mem.c)

    The committed part of an environment: the headers, keys and pages of the nodes that
    are not new, and the roots of the trees.  Everything a transaction does before its end
    leaves this part alone, and so does its rollback; its commit puts the scratch copies
    in place. *)

From S2P Require Import Prelude.
From S2P Require Import Glib.
From S2P Require Import Storage.
From S2P Require Import MemPage.
From S2P Require Import MemEnv.
From S2P Require Import MemLock.
From S2P Require Import MemTree.
From S2P Require Import MemOps.

Local Open Scope Z_scope.

Definition node_contents : Type := btree_node_header * option btree_datum * option btree_page.

Definition committed_node (x : btree_node) : option node_contents :=
  if is_new x then None else Some (header x, key x, page x).

Definition committed_part (e : env) : gmap positive node_contents * gmap positive positive :=
  (omap committed_node (nodes e), root <$> trees e).

(** A node that is new, if it is there at all. *)
Definition uncommitted (e : env) (n : positive) : Prop := forall x, nodes e !! n = Some x -> is_new x = true.

Create HintDb keeps.

Section keeping.

(** While a transaction waits, others do not commit either. *)
Context {W : Waiting}.

Definition keeps (e e' : env) : Prop := committed_part e' = committed_part e.

Context (others_keep : forall l t e, keeps e (others l t e)).

#[export] Instance keeps_preorder : PreOrder keeps.
Proof. split; [done|]. intros e1 e2 e3 H1 H2. unfold keeps in *. congruence. Qed.

Lemma uncommitted_spec (e : env) (n : positive) : uncommitted e n <-> (nodes e !! n ≫= committed_node) = None.
Proof.
  unfold uncommitted, committed_node. destruct (nodes e !! n) as [x|]; cbn; [|by split].
  destruct (is_new x) eqn:Hx; split; try done.
  - intros _ y [= <-]. done.
  - intros H. specialize (H x eq_refl). congruence.
Qed.

Lemma keeps_uncommitted (e e' : env) (n : positive) : keeps e e' -> uncommitted e n -> uncommitted e' n.
Proof.
  unfold keeps, committed_part. intros [= Hk _] Hn. rewrite uncommitted_spec in *.
  by rewrite <- lookup_omap, Hk, lookup_omap.
Qed.

Lemma keeps_same (e e' : env) : nodes e' = nodes e -> trees e' = trees e -> keeps e e'.
Proof. intros Hn Ht. unfold keeps, committed_part. by rewrite Hn, Ht. Qed.

Lemma keeps_nodes (e : env) (m : gmap positive btree_node) :
  (forall n, (m !! n ≫= committed_node) = (nodes e !! n ≫= committed_node)) -> keeps e (set_nodes m e).
Proof.
  intros Hm. unfold keeps, committed_part. cbn. f_equal. apply map_eq. intros n. by rewrite !lookup_omap, Hm.
Qed.

(** A node changes, but not in its committed part. *)
Lemma keeps_node (e : env) (n : positive) (x x' : btree_node) :
  nodes e !! n = Some x -> committed_node x' = committed_node x -> keeps e (put_node n x' e).
Proof.
  intros Hx Hc.
  assert (Hall : forall m, (<[n := x']> (nodes e) !! m ≫= committed_node) = (nodes e !! m ≫= committed_node)).
  { intros m. destruct (decide (n = m)) as [<-|Hne]; [|by rewrite lookup_insert_ne].
    rewrite lookup_insert_eq, Hx. done. }
  by apply keeps_nodes.
Qed.

(** A node that is new, or not there, changes. *)
Lemma keeps_new_node (e : env) (n : positive) (x' : btree_node) :
  uncommitted e n -> is_new x' = true -> keeps e (put_node n x' e).
Proof.
  intros Hn Hnew.
  assert (Hall : forall m, (<[n := x']> (nodes e) !! m ≫= committed_node) = (nodes e !! m ≫= committed_node)).
  { intros m. destruct (decide (n = m)) as [<-|Hne]; [|by rewrite lookup_insert_ne].
    rewrite lookup_insert_eq. apply uncommitted_spec in Hn. rewrite Hn. cbn. unfold committed_node. by rewrite Hnew. }
  by apply keeps_nodes.
Qed.

Lemma keeps_removed (e : env) (n : positive) :
  uncommitted e n -> keeps e (set_nodes (base.delete n (nodes e)) e).
Proof.
  intros Hn.
  assert (Hall : forall m, (base.delete n (nodes e) !! m ≫= committed_node) = (nodes e !! m ≫= committed_node)).
  { intros m. destruct (decide (n = m)) as [<-|Hne]; [|by rewrite lookup_delete_ne].
    rewrite lookup_delete_eq. by apply uncommitted_spec in Hn. }
  by apply keeps_nodes.
Qed.

(** ** Operations that keep the committed part

    Given that some nodes are not committed; of others it is shown on the way. *)

Definition op_keeps {A} (U : list positive) (m : env -> outcome (A * env)) (news : A -> list positive) : Prop :=
  forall e a e', (forall n, n ∈ U -> uncommitted e n) -> m e = Ret (a, e') ->
    keeps e e' /\ forall n, n ∈ news a -> uncommitted e' n.

Definition nothing {A} (_ : A) : list positive := [].
Definition of_option {A} (f : A -> list positive) (o : option A) : list positive :=
  match o with Some a => f a | None => [] end.

Lemma op_keeps_ret {A} (U : list positive) (a : A) : op_keeps U (mret a : tree_op A) nothing.
Proof. intros e ? ? _ [= <- <-]. split; [done|]. by intros n ?%not_elem_of_nil. Qed.

Lemma op_keeps_bind {A B} (U : list positive) (m : tree_op A) (k : A -> tree_op B) f g :
  op_keeps U m f -> (forall a, op_keeps (f a ++ U) (k a) g) -> op_keeps U (m ≫= k) g.
Proof.
  intros Hm Hk e b e' HU. unfold mbind, tree_op_bind. destruct (m e) as [[a e1]| | |] eqn:H1; try done. run.
  intros H2. destruct (Hm e a e1 HU H1) as [Hk1 Hf]. destruct (Hk a e1 b e') as [Hk2 Hg]; [|done|].
  - intros n [Hn|Hn]%elem_of_app; [by apply Hf|by apply (keeps_uncommitted e), HU].
  - split; [by etrans|done].
Qed.

Lemma op_keeps_plain {A B} (U : list positive) (m : tree_op A) (k : A -> tree_op B) g :
  op_keeps U m nothing -> (forall a, op_keeps U (k a) g) -> op_keeps U (m ≫= k) g.
Proof. intros Hm Hk. by apply (op_keeps_bind U m k nothing). Qed.

Lemma op_keeps_lift {A} (U : list positive) (o : outcome A) : op_keeps U (lift o) nothing.
Proof. intros e a e' _. unfold lift. destruct o; try done. run. intros [= _ <-]. split; [done|]. by intros n ?%not_elem_of_nil. Qed.

Lemma op_keeps_look {A} (U : list positive) (f : env -> outcome A) : op_keeps U (look f) nothing.
Proof. intros e a e' _. unfold look. destruct (f e); try done. run. intros [= _ <-]. split; [done|]. by intros n ?%not_elem_of_nil. Qed.

(** What changes neither nodes nor trees. *)
Lemma op_keeps_change (U : list positive) (f : env -> outcome env) :
  (forall e e', f e = Ret e' -> nodes e' = nodes e /\ trees e' = trees e) -> op_keeps U (change f) nothing.
Proof.
  intros Hf e a e' _. unfold change. destruct (f e) as [e1| | |] eqn:H1; try done. run. intros [= _ <-].
  destruct (Hf e e1 H1). split; [by apply keeps_same|]. by intros n ?%not_elem_of_nil.
Qed.

Lemma op_keeps_intro {A} (U : list positive) (m : env -> outcome (A * env)) :
  (forall e a e', (forall n, n ∈ U -> uncommitted e n) -> m e = Ret (a, e') -> keeps e e') -> op_keeps U m nothing.
Proof. intros H e a e' HU Hrun. split; [by eapply H|]. by intros n ?%not_elem_of_nil. Qed.

Lemma op_keeps_set_tx (U : list positive) (t : positive) (x : btree_transaction) : op_keeps U (set_tx t x) nothing.
Proof. apply op_keeps_change. by intros e e' [= <-]. Qed.

Lemma op_keeps_get_tx (U : list positive) (t : positive) : op_keeps U (get_tx t) nothing.
Proof. apply op_keeps_look. Qed.

Lemma op_keeps_get_tree (U : list positive) (b : positive) : op_keeps U (get_tree b) nothing.
Proof. apply op_keeps_look. Qed.

Lemma op_keeps_pointer (U : list positive) (p : option positive) : op_keeps U (pointer p) nothing.
Proof. apply op_keeps_lift. Qed.

(** A node that is seen to be new. *)
Lemma op_keeps_get_node (U : list positive) (n : positive) :
  op_keeps U (get_node n) (fun x => if is_new x then [n] else []).
Proof.
  intros e x e' _. unfold get_node, look. destruct (nodes e !! n) as [y|] eqn:Hy; [|done]. run.
  intros [= <- <-]. split; [done|]. destruct (is_new y) eqn:Hnew; [|by intros m ?%not_elem_of_nil].
  intros m ->%list_elem_of_singleton z. rewrite Hy. by intros [= <-].
Qed.

(** A node is read and changed. *)
Lemma op_keeps_update {B} (U : list positive) (n : positive) (f : btree_node -> btree_node)
    (k : btree_node -> tree_op B) g :
  (forall x, is_new (f x) = is_new x) ->
  (n ∈ U \/ forall x, committed_node (f x) = committed_node x) ->
  (forall x, op_keeps U (k x) g) ->
  op_keeps U (x ← get_node n; _ ← set_node n (f x); k x) g.
Proof.
  intros Hnew Hf Hk e b e' HU. unfold mbind, tree_op_bind, get_node, look, set_node, change.
  destruct (nodes e !! n) as [x|] eqn:Hx; [|done]. run. intros Hrun.
  assert (Hkeep : keeps e (put_node n (f x) e)).
  { destruct Hf as [Hin|Hf]; [|by apply keeps_node with x].
    apply keeps_new_node; [by apply HU|]. rewrite Hnew. by apply (HU n). }
  destruct (Hk x (put_node n (f x) e) b e') as [H1 H2]; [|done|].
  - intros m Hm. by apply (keeps_uncommitted e), HU.
  - split; [by etrans|done].
Qed.

Lemma op_keeps_update_last (U : list positive) (n : positive) (f : btree_node -> btree_node) :
  (forall x, is_new (f x) = is_new x) ->
  (n ∈ U \/ forall x, committed_node (f x) = committed_node x) ->
  op_keeps U (x ← get_node n; set_node n (f x)) nothing.
Proof.
  intros Hnew Hf e b e' HU Hrun.
  apply (op_keeps_update U n f (fun _ => mret tt) nothing Hnew Hf) with (a := b); [intros; apply op_keeps_ret|done|].
  revert Hrun. unfold mbind, tree_op_bind, get_node, look, set_node, change.
  destruct (nodes e !! n); run; [|done]. by intros [= <- <-].
Qed.

(** *** Locks *)

Lemma lock_end_same (t : positive) (write : bool) (e : env) :
  nodes (lock_end t write e) = nodes e /\ trees (lock_end t write e) = trees e.
Proof. by destruct write. Qed.

Lemma lock_declare_same (l t : positive) (write b : bool) (e e' : env) :
  lock_declare l t write e = Ret (b, e') -> nodes e' = nodes e /\ trees e' = trees e.
Proof.
  unfold lock_declare. intros H. repeat (inv_ret; case_match); inv_ret; done.
Qed.

Lemma lock_attempt_same (l t : positive) (write b : bool) (e e' : env) :
  lock_attempt l t write e = Ret (b, e') -> nodes e' = nodes e /\ trees e' = trees e.
Proof. unfold lock_attempt. intros H. repeat (inv_ret; case_match); inv_ret; done. Qed.

Lemma lock_loop_keeps (l t : positive) (write : bool) (fuel : nat) : forall e b e',
  lock_loop others fuel l t write e = Ret (b, e') -> keeps e e'.
Proof.
  induction fuel as [|fuel IH]; intros e b e'; [done|]. cbn [lock_loop].
  destruct (negb (check_tx_timeout t e)); [by intros [= _ <-]|].
  destruct (lock_attempt l t write e) as [[needs e1]| | |] eqn:H1; try done. run.
  assert (keeps e e1) by (apply lock_attempt_same in H1 as []; by apply keeps_same).
  destruct needs; [|by intros [= _ <-]].
  destruct (lock_detect e1) as [[]| | |]; try done; run; [by intros [= _ <-]|].
  intros H2%IH. etrans; [done|]. etrans; [apply others_keep|done].
Qed.

Lemma op_keeps_lock (U : list positive) (l t : positive) (write : bool) : op_keeps U (lock l t write) nothing.
Proof.
  apply op_keeps_intro. intros e b e' _. unfold lock, tx_lock.
  destruct (lock_declare l t write e) as [[needs e1]| | |] eqn:H1; try done. run.
  assert (keeps e e1) by (apply lock_declare_same in H1 as []; by apply keeps_same).
  destruct needs; run.
  - destruct (lock_loop others patience l t write e1) as [[needs2 e2]| | |] eqn:H2; try done. run.
    intros [= _ <-]. apply lock_loop_keeps in H2. etrans; [done|]. etrans; [done|].
    apply keeps_same; apply lock_end_same.
  - intros [= _ <-]. etrans; [done|]. apply keeps_same; apply lock_end_same.
Qed.

Lemma lock_unref_same (l : positive) (e e' : env) :
  lock_unref l e = Ret e' -> nodes e' = nodes e /\ trees e' = trees e.
Proof.
  unfold lock_unref, lock_free. intros H. repeat (inv_ret; try case_match); inv_ret; done.
Qed.

Lemma tx_unlock_same (l t : positive) (e e' : env) :
  tx_unlock l t e = Ret e' -> nodes e' = nodes e /\ trees e' = trees e.
Proof. unfold tx_unlock. intros H. repeat (inv_ret; try case_match); inv_ret; done. Qed.

Lemma op_keeps_lock_node (U : list positive) (n t : positive) (write : bool) :
  op_keeps U (lock_node n t write) nothing.
Proof.
  apply op_keeps_intro. intros e [r err] e' _. unfold lock_node, tx_lock_node, lock_ref.
  destruct (lock_table e !! n) as [l|]; run; [|by intros [= _ _ <-]].
  destruct (locks e !! l) as [lk|]; run; [|done].
  destruct (tx_lock others patience l t write _) as [[b e1]| | |] eqn:H1; try done. run.
  destruct (lock_unref l e1) as [e2| | |] eqn:H2; try done. run. intros [= _ _ <-].
  apply (op_keeps_lock [] l t write) in H1 as [H1 _]; [|by intros m ?%not_elem_of_nil].
  apply lock_unref_same in H2 as [? ?].
  etrans; [|etrans; [exact H1|by apply keeps_same]]. by apply keeps_same.
Qed.

(** The new nodes that parts are in. *)
Definition header_new (p : header_ptr) : list positive := match p with HeaderOf n => [n] | NewHeaderOf _ => [] end.
Definition datum_new (p : datum_ptr) : list positive := match p with KeyOf n => [n] | NewKeyOf _ => [] end.
Definition page_new (p : page_ptr) : list positive := match p with PageOf n => [n] | NewPageOf _ => [] end.

Lemma op_keeps_page_pointer U o : op_keeps (of_option page_new o ++ U) (page_pointer o) page_new.
Proof.
  intros e p e' HU. unfold page_pointer, lift. destruct o as [q|]; run; [|done]. intros [= <- <-].
  split; [done|]. intros n Hn. apply HU, elem_of_app. by left.
Qed.

#[local] Hint Resolve op_keeps_ret op_keeps_lift op_keeps_look op_keeps_set_tx op_keeps_get_tx op_keeps_get_tree
  op_keeps_pointer op_keeps_lock op_keeps_lock_node op_keeps_get_node : keeps.

Lemma keeps_tree (e : env) (b : positive) (bt bt' : btree) :
  trees e !! b = Some bt -> root bt' = root bt -> keeps e (put_tree b bt' e).
Proof.
  intros Hb Hr. unfold keeps, committed_part. cbn. f_equal. rewrite fmap_insert. apply map_eq. intros c.
  destruct (decide (b = c)) as [<-|Hne]; [|by rewrite lookup_insert_ne].
  rewrite lookup_insert_eq, lookup_fmap, Hb. cbn. by rewrite Hr.
Qed.

(** A tree is read, and changed but for its root. *)
Lemma op_keeps_update_tree {B} (U : list positive) (b : positive) (f : btree -> btree) (k : btree -> tree_op B) g :
  (forall x, root (f x) = root x) -> (forall x, op_keeps U (k x) g) ->
  op_keeps U (x ← get_tree b; _ ← set_tree b (f x); k x) g.
Proof.
  intros Hf Hk e a e' HU. unfold mbind, tree_op_bind, get_tree, look, set_tree, change.
  destruct (trees e !! b) as [x|] eqn:Hx; [|done]. run. intros Hrun.
  assert (Hkeep : keeps e (put_tree b (f x) e)) by by apply (keeps_tree e b x).
  destruct (Hk x (put_tree b (f x) e) a e') as [H1 H2]; [|done|].
  - intros m Hm. by apply (keeps_uncommitted e), HU.
  - split; [by etrans|done].
Qed.

Lemma is_new_mark_deleted x : is_new (mark_deleted x) = is_new x.
Proof.
  unfold is_new, mark_deleted, with_flags. cbn. f_equal. f_equal. unfold FLAG_NEW, FLAG_TOMBSTONE.
  apply Z.bits_inj'. intros i Hi. rewrite !Z.land_spec, Z.lor_spec.
  destruct (decide (i = 0)) as [->|]; [by rewrite orb_false_r|].
  rewrite (Z.bits_above_log2 1 i) by (cbn; lia). by rewrite !andb_false_r.
Qed.

Lemma committed_mark_deleted x : committed_node (mark_deleted x) = committed_node x.
Proof. unfold committed_node. by rewrite is_new_mark_deleted. Qed.
#[local] Hint Resolve is_new_mark_deleted committed_mark_deleted : keeps.

(** Through a body, one call at a time. *)
Ltac keep_step :=
  lazymatch goal with
  | |- op_keeps _ (mbind _ (get_node _)) _ =>
      first [ apply op_keeps_update_last; [done|by right]
            | apply op_keeps_update;
                [first [done|solve [auto with keeps]]
                |first [left; set_solver|by right|right; solve [auto with keeps]]|intros ?]
            | eapply op_keeps_bind; [apply op_keeps_get_node|intros ?] ]
  | |- op_keeps _ (mbind _ (get_tree _)) _ =>
      first [ apply op_keeps_update_tree; [done|intros ?]
            | apply op_keeps_plain; [apply op_keeps_get_tree|intros ?] ]
  | |- op_keeps _ (mbind _ (page_pointer _)) _ =>
      eapply op_keeps_bind; [first [apply op_keeps_page_pointer|apply op_keeps_lift]|intros ?; cbn [nothing app]]
  | |- op_keeps _ (mbind _ _) _ =>
      first [ eapply op_keeps_bind; [solve [eauto 2 with keeps]|intros ?; cbn [nothing app]]
            | apply op_keeps_plain; [|intros ?] ]
  | |- op_keeps _ (match ?x with _ => _ end) _ => destruct x eqn:?;
      repeat match goal with H : ?b = true |- context [if ?b then _ else _] => rewrite H end; cbn [app] in *
  | |- op_keeps _ (let _ := _ in _) _ => cbv zeta
  | |- op_keeps _ _ nothing => solve [eauto 2 with keeps]
  end.
Ltac keep := repeat keep_step.

(** *** Pointers to parts of nodes *)


Lemma op_keeps_read_header U p : op_keeps U (read_header p) nothing.
Proof. destruct p; unfold read_header; keep. Qed.

Lemma op_keeps_read_datum U p : op_keeps U (read_datum p) nothing.
Proof. destruct p; unfold read_datum; keep. Qed.

Lemma op_keeps_read_page U p : op_keeps U (read_page p) nothing.
Proof. destruct p; unfold read_page; keep. Qed.

Lemma op_keeps_effective_header U n : op_keeps U (effective_header n false) nothing.
Proof. unfold effective_header. keep. Qed.

Lemma op_keeps_effective_key U n : op_keeps U (effective_key n false) nothing.
Proof. unfold effective_key. keep. Qed.

Lemma op_keeps_effective_page U n : op_keeps U (effective_page n false) nothing.
Proof. unfold effective_page. keep. Qed.

(** For writing: in the node itself only if it is new. *)
Lemma op_keeps_header_for_write U n : op_keeps U (effective_header n true) header_new.
Proof.
  intros e p e' _. unfold effective_header, mbind, tree_op_bind, get_node, look.
  destruct (nodes e !! n) as [x|] eqn:Hx; [|done]. run.
  destruct (is_new x) eqn:Hnew.
  - intros [= <- <-]. split; [done|]. intros m ->%list_elem_of_singleton y. rewrite Hx. by intros [= <-].
  - destruct (new_header x); intros [= <- <-]; (split; [|by intros m ?%not_elem_of_nil]); [done|].
    by apply keeps_node with x.
Qed.

Lemma op_keeps_key_for_write U n : op_keeps U (effective_key n true) datum_new.
Proof.
  intros e p e' _. unfold effective_key, mbind, tree_op_bind, get_node, look.
  destruct (nodes e !! n) as [x|] eqn:Hx; [|done]. run.
  destruct (is_new x) eqn:Hnew; intros [= <- <-]; (split; [done|]); [|by intros m ?%not_elem_of_nil].
  intros m ->%list_elem_of_singleton y. rewrite Hx. by intros [= <-].
Qed.

Lemma op_keeps_page_for_write U n : op_keeps U (effective_page n true) (of_option page_new).
Proof.
  intros e p e' _. unfold effective_page, mbind, tree_op_bind, get_node, look.
  destruct (nodes e !! n) as [x|] eqn:Hx; [|done]. run.
  destruct (is_new x) eqn:Hnew.
  - intros [= <- <-]. split; [done|]. destruct (page x); [|by intros m ?%not_elem_of_nil].
    intros m ->%list_elem_of_singleton y. rewrite Hx. by intros [= <-].
  - destruct (page x) as [pg|] eqn:Hpg, (MemEnv.new_page x); intros [= <- <-];
      (split; [|by intros m ?%not_elem_of_nil]); try done.
    apply keeps_node with x; [done|]. unfold committed_node, is_new, with_pages. cbn. by rewrite Hpg.
Qed.

Lemma op_keeps_write_header U p h : (forall n, n ∈ header_new p -> n ∈ U) -> op_keeps U (write_header p h) nothing.
Proof.
  destruct p as [n|n]; cbn [header_new]; intros Hp; unfold write_header.
  - apply op_keeps_update_last; [done|]. left. apply Hp. by left.
  - intros e u e' HU Hrun. split; [|by intros m ?%not_elem_of_nil]. revert Hrun.
    unfold mbind, tree_op_bind, get_node, look, lift, set_node, change.
    destruct (nodes e !! n) as [x|] eqn:Hx; [|done]. run. destruct (new_header x); [|done]. run.
    intros [= _ <-]. by apply keeps_node with x.
Qed.

Lemma op_keeps_write_datum U p k : (forall n, n ∈ datum_new p -> n ∈ U) -> op_keeps U (write_datum p k) nothing.
Proof.
  destruct p as [n|n]; cbn [datum_new]; intros Hp; unfold write_datum; apply op_keeps_update_last; try done.
  - left. apply Hp. by left.
  - by right.
Qed.

Lemma op_keeps_write_page U p pg : (forall n, n ∈ page_new p -> n ∈ U) -> op_keeps U (write_page p pg) nothing.
Proof.
  destruct p as [n|n]; cbn [page_new]; intros Hp e u e' HU Hrun; (split; [|by intros m ?%not_elem_of_nil]); revert Hrun;
    unfold write_page, mbind, tree_op_bind, get_node, look, lift, set_node, change;
    (destruct (nodes e !! n) as [x|] eqn:Hx; [|done]); run.
  - destruct (page x); [|done]. run. intros [= _ <-]. assert (Hn : uncommitted e n) by (apply HU, Hp; by left).
    apply keeps_new_node; [done|]. by apply (Hn x).
  - destruct (MemEnv.new_page x); [|done]. run. intros [= _ <-]. by apply keeps_node with x.
Qed.

#[local] Hint Resolve op_keeps_read_header op_keeps_read_datum op_keeps_read_page op_keeps_effective_header
  op_keeps_effective_key op_keeps_effective_page op_keeps_header_for_write op_keeps_key_for_write
  op_keeps_page_for_write : keeps.
#[local] Hint Extern 3 (op_keeps _ (write_header _ _) _) => apply op_keeps_write_header; set_solver : keeps.
#[local] Hint Extern 3 (op_keeps _ (write_datum _ _) _) => apply op_keeps_write_datum; set_solver : keeps.
#[local] Hint Extern 3 (op_keeps _ (write_page _ _) _) => apply op_keeps_write_page; set_solver : keeps.

(** *** The ways and changes of a tree *)

Lemma op_keeps_mark U n t : op_keeps U (mark_modification n t) nothing.
Proof. unfold mark_modification. keep. Qed.

Lemma op_keeps_unmark U n t : op_keeps U (unmark_modification n t) nothing.
Proof. unfold unmark_modification. keep. Qed.

Lemma op_keeps_locks_node U n t w : op_keeps U (locks_node n t w) nothing.
Proof. unfold locks_node. keep. Qed.

Lemma op_keeps_locked_link U p t : op_keeps U (locked_link p t) nothing.
Proof. unfold locked_link. keep. Qed.
#[local] Hint Resolve op_keeps_mark op_keeps_unmark op_keeps_locks_node op_keeps_locked_link : keeps.

Lemma op_keeps_first_child U n t : op_keeps U (tx_first_child n t) nothing.
Proof. unfold tx_first_child. keep. Qed.
Lemma op_keeps_parent U n t : op_keeps U (tx_parent n t) nothing.
Proof. unfold tx_parent. keep. Qed.
Lemma op_keeps_next U n t : op_keeps U (tx_next_sibling n t) nothing.
Proof. unfold tx_next_sibling. keep. Qed.
Lemma op_keeps_prev U n t : op_keeps U (tx_prev_sibling n t) nothing.
Proof. unfold tx_prev_sibling. keep. Qed.
#[local] Hint Resolve op_keeps_first_child op_keeps_parent op_keeps_next op_keeps_prev : keeps.

Lemma op_keeps_last_loop fuel : forall U c t, op_keeps U (last_child_loop fuel c t) nothing.
Proof. induction fuel as [|fuel IH]; intros U c t; cbn [last_child_loop]; keep; apply IH. Qed.

Lemma op_keeps_count_loop fuel : forall U c err k t, op_keeps U (count_loop fuel c err k t) nothing.
Proof. induction fuel as [|fuel IH]; intros U c err k t; cbn [count_loop]; keep; apply IH. Qed.
#[local] Hint Resolve op_keeps_last_loop op_keeps_count_loop : keeps.

Lemma op_keeps_last_child U n t : op_keeps U (tx_last_child n t) nothing.
Proof. unfold tx_last_child. keep. Qed.
Lemma op_keeps_root U b t : op_keeps U (tx_root b t) nothing.
Proof. unfold tx_root. keep. Qed.
Lemma op_keeps_count U t n : op_keeps U (count_children t n) nothing.
Proof. unfold count_children. keep. Qed.

Lemma op_keeps_set_header U f n t : op_keeps U (tx_set_header f n t) nothing.
Proof. unfold tx_set_header. keep. Qed.
#[local] Hint Resolve op_keeps_last_child op_keeps_root op_keeps_count op_keeps_set_header : keeps.

Lemma op_keeps_set_first_child U n t x : op_keeps U (tx_set_first_child n t x) nothing.
Proof. apply op_keeps_set_header. Qed.
Lemma op_keeps_set_next U n t x : op_keeps U (tx_set_next_sibling n t x) nothing.
Proof. apply op_keeps_set_header. Qed.
Lemma op_keeps_set_prev U n t x : op_keeps U (tx_set_prev_sibling n t x) nothing.
Proof. apply op_keeps_set_header. Qed.
Lemma op_keeps_set_parent U n t x : op_keeps U (tx_set_parent n t x) nothing.
Proof. apply op_keeps_set_header. Qed.
#[local] Hint Resolve op_keeps_set_first_child op_keeps_set_next op_keeps_set_prev op_keeps_set_parent : keeps.

(** The root of a tree is changed aside. *)
Lemma op_keeps_set_root U b t r : op_keeps U (tx_set_root b t r) nothing.
Proof.
  unfold tx_set_root. keep.
Qed.

Lemma op_keeps_both U m k : op_keeps U m nothing -> op_keeps U k nothing -> op_keeps U (both m k) nothing.
Proof. intros Hm Hk. unfold both. apply op_keeps_plain; [done|]. intros []; [done|]. keep. Qed.

Lemma op_keeps_unlink U n t : op_keeps U (unlink_node n t) nothing.
Proof. unfold unlink_node. keep; apply op_keeps_both; keep. Qed.
#[local] Hint Resolve op_keeps_set_root op_keeps_unlink : keeps.

Lemma lock_detach_same (n t : positive) (e e' : env) :
  lock_detach n t e = Ret e' -> nodes e' = nodes e /\ trees e' = trees e.
Proof.
  unfold lock_detach. destruct (lock_table e !! n) as [l|]; [|done]. intros H. inv_ret.
  apply lock_unref_same in H as [-> ->]. by apply tx_unlock_same in H2 as [-> ->].
Qed.

(** Deletion is for nodes that are new. *)
Lemma op_keeps_delete_node U n t : n ∈ U -> op_keeps U (delete_node n t) nothing.
Proof.
  intros Hn. unfold delete_node. keep; [apply op_keeps_change, lock_detach_same|].
  intros e u e' HU Hrun. split; [|by intros m ?%not_elem_of_nil]. revert Hrun.
  unfold change, free_btree_node. destruct (nodes e !! n); [|done]. run. intros [= _ <-].
  apply keeps_removed, HU. set_solver.
Qed.

Lemma op_keeps_mark_deleted U t n : op_keeps U (mark_node_deleted t n) nothing.
Proof.
  unfold mark_node_deleted. keep. apply op_keeps_delete_node. by left.
Qed.
#[local] Hint Resolve op_keeps_mark_deleted : keeps.

(** *** Trials *)

Definition trial_keeps {A} (U : list positive) (m : trial A) (news : A -> list positive) : Prop :=
  op_keeps U m (of_option news).

Lemma trial_keeps_bind {A B} (U : list positive) (m : trial A) (k : A -> trial B) f g :
  trial_keeps U m f -> (forall a, trial_keeps (f a ++ U) (k a) g) -> trial_keeps U (m ≫= k) g.
Proof.
  intros Hm Hk e b e' HU. unfold mbind, trial_bind. destruct (m e) as [[[a|] e1]| | |] eqn:H1; try done; run.
  - intros H2. destruct (Hm e (Some a) e1 HU H1) as [Hk1 Hf]. destruct (Hk a e1 b e') as [Hk2 Hg]; [|done|].
    + intros n [Hn|Hn]%elem_of_app; [by apply Hf|by apply (keeps_uncommitted e), HU].
    + split; [by etrans|done].
  - intros [= <- <-]. destruct (Hm e None e1 HU H1) as [Hk1 _]. split; [done|]. by intros n ?%not_elem_of_nil.
Qed.

Lemma trial_keeps_plain {A B} (U : list positive) (m : trial A) (k : A -> trial B) g :
  trial_keeps U m nothing -> (forall a, trial_keeps U (k a) g) -> trial_keeps U (m ≫= k) g.
Proof. intros Hm Hk. by apply (trial_keeps_bind U m k nothing). Qed.

Lemma trial_keeps_ret {A} (U : list positive) (a : A) : trial_keeps U (mret a) nothing.
Proof. intros e ? ? _ [= <- <-]. split; [done|]. by intros n ?%not_elem_of_nil. Qed.

Lemma trial_keeps_fail {A} (U : list positive) : trial_keeps U (fail : trial A) nothing.
Proof. intros e ? ? _ [= <- <-]. split; [done|]. by intros n ?%not_elem_of_nil. Qed.

Lemma trial_keeps_sure {A} (U : list positive) (m : tree_op A) f : op_keeps U m f -> trial_keeps U (sure m) f.
Proof.
  intros Hm e o e' HU. unfold sure. destruct (m e) as [[a e1]| | |] eqn:H1; try done. run. intros [= <- <-].
  by apply (Hm e a e1 HU).
Qed.

Lemma trial_keeps_link {A} (U : list positive) (m : tree_op (A * bool)) :
  op_keeps U m nothing -> trial_keeps U (link m) nothing.
Proof.
  intros Hm e o e' HU. unfold link. destruct (m e) as [[[a err] e1]| | |] eqn:H1; try done. run. intros [= <- <-].
  destruct (Hm e (a, err) e1 HU H1) as [Hk _]. split; [done|]. destruct err; by intros n ?%not_elem_of_nil.
Qed.

Lemma trial_keeps_must (U : list positive) (m : tree_op bool) :
  op_keeps U m nothing -> trial_keeps U (must m) nothing.
Proof.
  intros Hm e o e' HU. unfold must. destruct (m e) as [[ok e1]| | |] eqn:H1; try done. run. intros [= <- <-].
  destruct (Hm e ok e1 HU H1) as [Hk _]. split; [done|]. destruct ok; by intros n ?%not_elem_of_nil.
Qed.

Lemma op_keeps_succeeds (U : list positive) (m : trial unit) :
  trial_keeps U m nothing -> op_keeps U (succeeds m) nothing.
Proof.
  intros Hm e b e' HU. unfold succeeds. destruct (m e) as [[o e1]| | |] eqn:H1; try done. run. intros [= <- <-].
  split; [by apply (Hm e o e1 HU)|]. by intros n ?%not_elem_of_nil.
Qed.

Lemma op_keeps_result {A} (U : list positive) (m : trial A) :
  trial_keeps U m nothing -> op_keeps U (result m) nothing.
Proof. intros Hm. apply op_keeps_intro. intros e a e' HU Hrun. by apply (Hm e a e' HU). Qed.

Lemma trial_keeps_deref (U : list positive) (p : option positive) : trial_keeps U (deref_sure p) nothing.
Proof. apply trial_keeps_sure, op_keeps_pointer. Qed.

(** A node that was made for a transaction is new. *)
Lemma op_keeps_create (U : list positive) (p : option positive) (lo hi : Z) :
  op_keeps U (fun e => Ret (create_lockable_btree_node p lo hi None e)) (fun n => [n]).
Proof.
  intros e n e' HU [= <- <-]. set (n := fresh (dom (nodes e))).
  assert (Hn : nodes e !! n = None) by (apply not_elem_of_dom, is_fresh).
  assert (Hun : uncommitted e n) by (intros x; by rewrite Hn). split.
  - etrans; [apply (keeps_new_node e n (create_btree_node p lo hi None) Hun); done|]. by apply keeps_same.
  - intros m ->%list_elem_of_singleton x. cbn. rewrite lookup_insert_eq. by intros [= <-].
Qed.

Lemma trial_keeps_create (U : list positive) (p : option positive) (lo hi : Z) :
  trial_keeps U (sure (fun e => Ret (create_lockable_btree_node p lo hi None e))) (fun n => [n]).
Proof. apply trial_keeps_sure, op_keeps_create. Qed.

Lemma trial_keeps_sibling (U : list positive) (leaf_parent : bool) :
  trial_keeps U (sure (create_sibling leaf_parent)) (fun n => [n]).
Proof. apply trial_keeps_sure. unfold create_sibling. destruct leaf_parent; apply op_keeps_create. Qed.

Lemma trial_keeps_update {B} (U : list positive) (n : positive) (f : btree_node -> btree_node)
    (k : btree_node -> trial B) g :
  (forall x, is_new (f x) = is_new x) ->
  (n ∈ U \/ forall x, committed_node (f x) = committed_node x) ->
  (forall x, trial_keeps U (k x) g) ->
  trial_keeps U (x ← sure (get_node n); _ ← sure (set_node n (f x)); k x) g.
Proof.
  intros Hnew Hf Hk e o e' HU Hrun.
  apply (op_keeps_update U n f k (of_option g) Hnew Hf Hk e o e' HU).
  revert Hrun. unfold mbind, trial_bind, tree_op_bind, sure, get_node, look, set_node, change.
  by destruct (nodes e !! n).
Qed.
#[local] Hint Resolve trial_keeps_ret trial_keeps_fail trial_keeps_deref trial_keeps_create trial_keeps_sibling
  op_keeps_create : keeps.
#[local] Hint Extern 2 (trial_keeps _ (sure _) _) => apply trial_keeps_sure : keeps.
#[local] Hint Extern 2 (trial_keeps _ (link _) _) => apply trial_keeps_link : keeps.
#[local] Hint Extern 2 (trial_keeps _ (must _) _) => apply trial_keeps_must : keeps.
#[local] Hint Extern 2 (op_keeps _ (succeeds _) _) => apply op_keeps_succeeds : keeps.

Ltac trial_step :=
  lazymatch goal with
  | |- trial_keeps _ (mbind _ (sure (get_node _))) _ =>
      first [ apply trial_keeps_update; [done|first [left; set_solver|by right]|intros ?]
            | apply trial_keeps_plain; [apply trial_keeps_sure; eapply op_keeps_intro; intros ? ? ? ? ?; by eapply op_keeps_get_node|intros ?] ]
  | |- trial_keeps _ (mbind _ _) _ =>
      first [ eapply trial_keeps_bind; [solve [eauto 4 with keeps]|intros ?; cbn [nothing app]]
            | apply trial_keeps_plain; [|intros ?] ]
  | |- trial_keeps _ (match ?x with _ => _ end) _ => destruct x eqn:?
  | |- trial_keeps _ (let _ := _ in _) _ => cbv zeta
  | |- trial_keeps _ _ nothing => solve [eauto 4 with keeps]
  end.
Ltac try_keep := repeat trial_step.

(** *** The operations of the tree *)

Lemma op_keeps_scan fuel : forall U key c p b t, op_keeps U (scan fuel key c p b t) nothing.
Proof. induction fuel as [|fuel IH]; intros U key c p b t; cbn [scan]; keep; apply IH. Qed.
#[local] Hint Resolve op_keeps_scan : keeps.

Lemma op_keeps_search_loop fuel : forall U key n r t, op_keeps U (search_loop fuel key n r t) nothing.
Proof. induction fuel as [|fuel IH]; intros U key n r t; cbn [search_loop]; keep; apply IH. Qed.
#[local] Hint Resolve op_keeps_search_loop : keeps.

Lemma op_keeps_search U t b key : op_keeps U (search t b key) nothing.
Proof. unfold search. keep. Qed.

Lemma op_keeps_set_key U n k : op_keeps U (set_node_key_to_key_after n k) nothing.
Proof. unfold set_node_key_to_key_after. keep. Qed.
#[local] Hint Resolve op_keeps_search op_keeps_set_key : keeps.

Lemma op_keeps_update_key_loop fuel : forall U n t k err, op_keeps U (update_key_loop fuel n t k err) nothing.
Proof. induction fuel as [|fuel IH]; intros U n t k err; cbn [update_key_loop]; keep; apply IH. Qed.
#[local] Hint Resolve op_keeps_update_key_loop : keeps.

Lemma op_keeps_update_key U n t off : op_keeps U (update_key n t off) nothing.
Proof. unfold update_key. keep. Qed.
#[local] Hint Resolve op_keeps_update_key : keeps.

Lemma op_keeps_insert_record U t n off k v : op_keeps U (insert_page_record t n off k v) nothing.
Proof. unfold insert_page_record. keep. Qed.

Lemma op_keeps_remove_record U t n off : op_keeps U (remove_page_record t n off) nothing.
Proof. unfold remove_page_record. keep. Qed.

Lemma op_keeps_node_key U n : op_keeps U (node_key n) nothing.
Proof. unfold node_key. keep. Qed.

Lemma op_keeps_min_of U n : op_keeps U (min_of n) nothing.
Proof. unfold min_of. keep. Qed.
#[local] Hint Resolve op_keeps_insert_record op_keeps_remove_record op_keeps_node_key op_keeps_min_of : keeps.

Lemma trial_keeps_borrow_prev fuel : forall U n t p s k, trial_keeps U (borrow_prev fuel n t p s k) nothing.
Proof. induction fuel as [|fuel IH]; intros U n t p s k; cbn [borrow_prev]; try_keep; apply IH. Qed.

Lemma trial_keeps_borrow_next fuel : forall U n t p s k, trial_keeps U (borrow_next fuel n t p s k) nothing.
Proof. induction fuel as [|fuel IH]; intros U n t p s k; cbn [borrow_next]; try_keep; apply IH. Qed.

Lemma trial_keeps_distribute_prev fuel : forall U p t lp c s k, trial_keeps U (distribute_prev fuel p t lp c s k) nothing.
Proof. induction fuel as [|fuel IH]; intros U p t lp c s k; cbn [distribute_prev]; try_keep; apply IH. Qed.

Lemma trial_keeps_distribute_next fuel : forall U p t lp c s k, trial_keeps U (distribute_next fuel p t lp c s k) nothing.
Proof. induction fuel as [|fuel IH]; intros U p t lp c s k; cbn [distribute_next]; try_keep; apply IH. Qed.
#[local] Hint Resolve trial_keeps_borrow_prev trial_keeps_borrow_next trial_keeps_distribute_prev
  trial_keeps_distribute_next : keeps.

Lemma op_keeps_merge_borrow U p n x t a b c : op_keeps U (merge_borrow p n x t a b c) nothing.
Proof. unfold merge_borrow. apply op_keeps_succeeds. try_keep. Qed.

Lemma op_keeps_merge_distribute U p n x t a b c : op_keeps U (merge_distribute p n x t a b c) nothing.
Proof. unfold merge_distribute. apply op_keeps_succeeds. try_keep. Qed.

Lemma op_keeps_reparent fuel : forall U t p c err, op_keeps U (reparent_loop fuel t p c err) nothing.
Proof. induction fuel as [|fuel IH]; intros U t p c err; cbn [reparent_loop]; keep; apply IH. Qed.
#[local] Hint Resolve op_keeps_merge_borrow op_keeps_merge_distribute op_keeps_reparent : keeps.

Lemma op_keeps_only_child U n p t : op_keeps U (merge_only_child n p t) nothing.
Proof. unfold merge_only_child. keep. Qed.

Lemma trial_keeps_count_of U n t : trial_keeps U (count_of n t) nothing.
Proof. unfold count_of. try_keep. Qed.

Lemma op_keeps_spare_of U n k : op_keeps U (spare_of n k) nothing.
Proof. unfold spare_of. keep. Qed.
#[local] Hint Resolve op_keeps_only_child trial_keeps_count_of op_keeps_spare_of : keeps.

Lemma op_keeps_merge U n k t : op_keeps U (merge n k t) nothing.
Proof. unfold merge. keep. apply op_keeps_succeeds. try_keep. Qed.
#[local] Hint Resolve op_keeps_merge : keeps.

Lemma trial_keeps_merge_loop fuel : forall U t n k, trial_keeps U (merge_loop fuel t n k) nothing.
Proof. induction fuel as [|fuel IH]; intros U t n k; cbn [merge_loop]; try_keep; apply IH. Qed.
#[local] Hint Resolve trial_keeps_merge_loop : keeps.

Lemma op_keeps_maybe_merge U t n : op_keeps U (maybe_merge t n) nothing.
Proof. unfold maybe_merge. apply op_keeps_succeeds. try_keep. Qed.
#[local] Hint Resolve op_keeps_maybe_merge : keeps.

Lemma trial_keeps_split_loop fuel : forall U t a b x y, trial_keeps U (split_loop fuel t a b x y) nothing.
Proof. induction fuel as [|fuel IH]; intros U t a b x y; cbn [split_loop]; try_keep; apply IH. Qed.

Lemma trial_keeps_split_parents fuel : forall U t n x y, trial_keeps U (split_parents fuel t n x y) nothing.
Proof. induction fuel as [|fuel IH]; intros U t n x y; cbn [split_parents]; try_keep; apply IH. Qed.
#[local] Hint Resolve trial_keeps_split_loop trial_keeps_split_parents : keeps.

Lemma trial_keeps_split U n t b : trial_keeps U (split n t b) nothing.
Proof. unfold split. try_keep. Qed.

Lemma trial_keeps_grow_root U b t n m : trial_keeps U (grow_root b t n m) nothing.
Proof. unfold grow_root. try_keep. Qed.
#[local] Hint Resolve trial_keeps_split trial_keeps_grow_root : keeps.

Lemma trial_keeps_split_top fuel : forall U t b n l k, trial_keeps U (maybe_split_loop fuel t b n l k) nothing.
Proof. induction fuel as [|fuel IH]; intros U t b n l k; cbn [maybe_split_loop]; try_keep; apply IH. Qed.
#[local] Hint Resolve trial_keeps_split_top : keeps.

Lemma op_keeps_maybe_split U t b n : op_keeps U (maybe_split t b n) nothing.
Proof. unfold maybe_split. apply op_keeps_succeeds. try_keep. Qed.
#[local] Hint Resolve op_keeps_maybe_split : keeps.

Lemma trial_keeps_insert_first U c t p : trial_keeps U (insert_first c t p) nothing.
Proof. unfold insert_first. try_keep. Qed.

Lemma trial_keeps_interstitial U c t p : trial_keeps U (make_interstitial c t p) nothing.
Proof. unfold make_interstitial. try_keep. Qed.
#[local] Hint Resolve trial_keeps_insert_first trial_keeps_interstitial : keeps.

Lemma trial_keeps_insert_after U c q t p : trial_keeps U (insert_after c q t p) nothing.
Proof. unfold insert_after. try_keep. Qed.
#[local] Hint Resolve trial_keeps_insert_after : keeps.

Lemma op_keeps_insert_leaf U t b p a k v : op_keeps U (insert_leaf_with_record t b p a k v) nothing.
Proof. unfold insert_leaf_with_record. apply op_keeps_result. try_keep. Qed.
#[local] Hint Resolve op_keeps_insert_leaf : keeps.

Lemma op_keeps_transfer fuel : forall U t n l p q off, op_keeps U (transfer_loop fuel t n l p q off) nothing.
Proof. induction fuel as [|fuel IH]; intros U t n l p q off; cbn [transfer_loop]; keep; apply IH. Qed.
#[local] Hint Resolve op_keeps_transfer : keeps.

Lemma op_keeps_split_page U t b n p off q : op_keeps U (split_page t b n p off q) nothing.
Proof. unfold split_page. keep. Qed.
#[local] Hint Resolve op_keeps_split_page : keeps.

Lemma op_keeps_put_internal U t b n k v : op_keeps U (put_internal t b n k v) nothing.
Proof. unfold put_internal. keep. Qed.

Lemma op_keeps_check_tx U tx : op_keeps U (check_tx tx) nothing.
Proof. unfold check_tx. keep. Qed.
#[local] Hint Resolve op_keeps_put_internal op_keeps_check_tx : keeps.

Lemma op_keeps_get_internal U tx b k u : op_keeps U (get_internal tx b k u) nothing.
Proof. unfold get_internal. keep. Qed.

Lemma op_keeps_remove_leaf U t n : op_keeps U (remove_leaf t n) nothing.
Proof. unfold remove_leaf. keep. Qed.
#[local] Hint Resolve op_keeps_get_internal op_keeps_remove_leaf : keeps.

Lemma op_keeps_delete_from_leaf U t n k : op_keeps U (delete_from_leaf t n k) nothing.
Proof. unfold delete_from_leaf. keep. Qed.

Lemma op_keeps_find_key_gte U t b k : op_keeps U (find_key_gte t b k) nothing.
Proof. unfold find_key_gte. keep. Qed.
#[local] Hint Resolve op_keeps_delete_from_leaf op_keeps_find_key_gte : keeps.

Lemma op_keeps_put U tx b k v : op_keeps U (transaction_put tx b k v) nothing.
Proof. unfold transaction_put. keep. Qed.

Lemma op_keeps_delete U tx b k : op_keeps U (transaction_delete tx b k) nothing.
Proof. unfold transaction_delete. keep. Qed.

Lemma op_keeps_get U tx b k : op_keeps U (transaction_get tx b k) nothing.
Proof. unfold transaction_get. keep. Qed.

Lemma op_keeps_get_for_update U tx b k : op_keeps U (transaction_get_for_update tx b k) nothing.
Proof. unfold transaction_get_for_update. keep. Qed.

Lemma op_keeps_first_key U tx b : op_keeps U (transaction_first_key tx b) nothing.
Proof. unfold transaction_first_key. keep. Qed.

Lemma op_keeps_next_key U tx b k : op_keeps U (transaction_next_key tx b k) nothing.
Proof. unfold transaction_next_key. keep. Qed.

Lemma op_keeps_begin U : op_keeps U transaction_begin nothing.
Proof. apply op_keeps_intro. intros e a e' _ [= <- <-]. by apply keeps_same. Qed.

Lemma op_keeps_begin_timed U tv : op_keeps U (transaction_begin_timed tv) nothing.
Proof. apply op_keeps_intro. intros e a e' _ [= <- <-]. by apply keeps_same. Qed.

(** *** Rollback *)

Lemma op_keeps_for_each (U : list positive) (f : positive -> tree_op unit) (l : list positive) :
  (forall x, op_keeps U (f x) nothing) -> op_keeps U (for_each f l) nothing.
Proof.
  intros Hf. induction l as [|x l IH]; cbn [for_each]; [apply op_keeps_ret|].
  apply op_keeps_plain; [apply Hf|]. by intros [].
Qed.

Lemma op_keeps_rollback_root U t b : op_keeps U (rollback_root_modification t b) nothing.
Proof.
  apply op_keeps_intro. intros e u e' _. unfold rollback_root_modification, mbind, tree_op_bind, get_tree, look, set_tree, change.
  destruct (trees e !! b) as [bt|] eqn:Hb; run; [|done]. destruct (new_root bt); [|by intros [= _ <-]].
  destruct (locks e !! tree_lock bt) as [lk|]; run; [|done].
  case_bool_decide; intros [= _ <-]; [by apply (keeps_tree e b bt)|done].
Qed.

Lemma tx_unlock_node_same (n t : positive) (e e' : env) :
  tx_unlock_node n t e = Ret e' -> nodes e' = nodes e /\ trees e' = trees e.
Proof. unfold tx_unlock_node. destruct (lock_table e !! n); [|done]. apply tx_unlock_same. Qed.

Lemma op_keeps_rollback_modification U t n : op_keeps U (rollback_modification t n) nothing.
Proof.
  apply op_keeps_intro. intros e u e' HU. unfold rollback_modification.
  rewrite bind_op. destruct (nodes e !! n) as [x|] eqn:Hx; [|by rewrite get_node_none].
  rewrite (get_node_some n x e Hx). run. rewrite bind_op, look_run. run. rewrite bind_op.
  destruct (locked_for_write n t e); [|done]. unfold lift. run.
  destruct (is_new x) eqn:Hnew.
  - intros Hrun. apply (op_keeps_delete_node [n] n t) in Hrun as [Hk _]; [done|by left|].
    intros m ->%list_elem_of_singleton y. rewrite Hx. by intros [= <-].
  - unfold mbind, tree_op_bind, set_node, change. cbn [outcome_bind c_assert]. run.
    match goal with |- context [tx_unlock_node n t ?e1] =>
      destruct (tx_unlock_node n t e1) as [e2| | |] eqn:H2; run; try done end. intros [= _ <-].
    apply tx_unlock_node_same in H2 as [? ?]. etrans; [apply (keeps_node e n x (clear_flags (discard x)) Hx)|by apply keeps_same].
    unfold committed_node. by rewrite Hnew.
Qed.

Lemma op_keeps_release U t : op_keeps U (release_locks t) nothing.
Proof.
  unfold release_locks. keep; try (apply op_keeps_for_each; intros l; apply op_keeps_change, tx_unlock_same).
  apply op_keeps_change. unfold cleanup_transaction. intros e e' H. inv_ret. done.
Qed.

Lemma op_keeps_rollback U t : op_keeps U (rollback t) nothing.
Proof.
  unfold rollback. keep; [apply op_keeps_for_each; intros b; apply op_keeps_rollback_root| |apply op_keeps_release].
  apply op_keeps_for_each. intros n. apply op_keeps_rollback_modification.
Qed.

(** The calls of a transaction before its commit. *)
Inductive storage_call :=
| CallBegin
| CallBeginTimed (timeout : timeval)
| CallGet (tx : storage_transaction) (b : positive) (key : bytes)
| CallGetForUpdate (tx : storage_transaction) (b : positive) (key : bytes)
| CallPut (tx : storage_transaction) (b : positive) (key value : bytes)
| CallDelete (tx : storage_transaction) (b : positive) (key : bytes)
| CallFirstKey (tx : storage_transaction) (b : positive)
| CallNextKey (tx : storage_transaction) (b : positive) (key : bytes)
| CallRollback (tx : storage_transaction).

Definition run_call (c : storage_call) (e : env) : outcome env :=
  match c with
  | CallBegin => snd <$> transaction_begin e
  | CallBeginTimed tv => snd <$> transaction_begin_timed tv e
  | CallGet tx b k => snd <$> transaction_get tx b k e
  | CallGetForUpdate tx b k => snd <$> transaction_get_for_update tx b k e
  | CallPut tx b k v => snd <$> transaction_put tx b k v e
  | CallDelete tx b k => snd <$> transaction_delete tx b k e
  | CallFirstKey tx b => snd <$> transaction_first_key tx b e
  | CallNextKey tx b k => snd <$> transaction_next_key tx b k e
  | CallRollback tx => snd <$> transaction_rollback tx e
  end.

Fixpoint run_calls (cs : list storage_call) (e : env) : outcome env :=
  match cs with
  | [] => Ret e
  | c :: cs => e ← run_call c e; run_calls cs e
  end.

Lemma op_keeps_snd {A} (m : tree_op A) (e e' : env) : op_keeps [] m nothing -> snd <$> m e = Ret e' -> keeps e e'.
Proof.
  intros Hm. destruct (m e) as [[a e1]| | |] eqn:H1; try done. cbn. intros [= <-].
  apply (Hm e a e1); [by intros n ?%not_elem_of_nil|done].
Qed.

Lemma run_calls_keep (cs : list storage_call) : forall e e', run_calls cs e = Ret e' -> keeps e e'.
Proof.
  induction cs as [|c cs IH]; intros e e'; cbn [run_calls]; [by intros [= <-]|].
  destruct (run_call c e) as [e1| | |] eqn:H1; run; try done. intros H2%IH. etrans; [|exact H2].
  destruct c; cbn [run_call] in H1; eapply op_keeps_snd; try exact H1.
  - apply op_keeps_begin.
  - apply op_keeps_begin_timed.
  - apply op_keeps_get.
  - apply op_keeps_get_for_update.
  - apply op_keeps_put.
  - apply op_keeps_delete.
  - apply op_keeps_first_key.
  - apply op_keeps_next_key.
  - apply op_keeps_rollback.
Qed.

(** C13. Whatever transactions get, put, delete and look for, and also when they roll
    back: the roots of the trees, and for every node that is not new its committed links to
    other nodes, its committed key and its committed page stay the same.  This leaves out two things of a node that are not committed apart and that the
    code changes in place, and that a rollback therefore does not restore: the bounds on the
    number of children of a root that is split, and the scratch keys that are left over in
    inner nodes ([MemDefects.rollback_keeps_keys]). *)
Theorem only_commits_change (cs : list storage_call) (e e' : env) :
  run_calls cs e = Ret e' ->
  omap committed_node (nodes e') = omap committed_node (nodes e) /\ root <$> trees e' = root <$> trees e.
Proof. intros H%run_calls_keep. by injection H as -> ->. Qed.

End keeping.

(** ** An example *)

Definition one_store : env :=
  match (b ← create_btree; tx ← transaction_begin; mret (b, tx)) (create_btree_environment 0) with
  | Ret (_, e) => e
  | _ => create_btree_environment 0
  end.

Definition sample_calls : list storage_call :=
  let tx := StorageTransaction 1 false false in
  [CallPut tx 1 [97] [1]; CallGet tx 1 [97]; CallRollback tx].

Lemma only_commits_change_witness :
  exists e', run_calls (W := alone) sample_calls one_store = Ret e'
    /\ omap committed_node (nodes e') = omap committed_node (nodes one_store).
Proof.
  eexists. split; [vm_compute; reflexivity|].
  eapply (only_commits_change (W := alone)) with (cs := sample_calls) (e := one_store); [reflexivity|].
  vm_compute. reflexivity.
Defined.
