(* ===== verification/MemCommit.v ===== *)
(** * The end of a transaction of the in-memory storage engine (storage-mem.c)

    A transaction that has its locks can always end: the commit puts the scratch copies of
    its nodes in place and removes those it deleted, the rollback drops the copies and
    removes those it made; either releases every lock and is the end of the transaction. *)

From S2P Require Import Prelude.
From S2P Require Import MemPage.
From S2P Require Import MemEnv.
From S2P Require Import MemLock.
From S2P Require Import MemTree.

Local Open Scope Z_scope.

(** ** Releasing what is held *)

(** A transaction that is there and waits for nothing. *)
Definition active (t : positive) (e : env) : Prop :=
  lock_inv e /\ t ∈ transactions e /\ waiting_to_read (tx_of e t) = None /\ waiting_to_write (tx_of e t) = None.

Definition same_trees (e e' : env) : Prop :=
  nodes e' = nodes e /\ trees e' = trees e /\ btrees e' = btrees e /\ lock_table e' = lock_table e.

#[export] Instance same_trees_preorder : PreOrder same_trees.
Proof. split; [done|]. intros a b c (?&?&?&?) (?&?&?&?). unfold same_trees. by split_and!; etrans. Qed.

Lemma unlock_write (l t : positive) (e : env) :
  active t e -> l ∈ write_locks (tx_of e t) ->
  exists e', tx_unlock l t e = Ret e' /\ active t e' /\ same_trees e e'
    /\ write_locks (tx_of e' t) = list_delete l (write_locks (tx_of e t))
    /\ read_locks (tx_of e' t) = read_locks (tx_of e t)
    /\ (exists lk, locks e' !! l = Some lk /\ writer lk = None /\ readers lk = []).
Proof.
  intros (Hinv & Ht & Hr & Hw) Hl. pose proof Hl as (lk & Hlk & Hown)%(li_write _ Hinv).
  assert (Hrun : exists e', tx_unlock l t e = Ret e' /\ same_trees e e' /\ transactions e' = transactions e
    /\ tx_of e' t = with_held (list_delete l (write_locks (tx_of e t))) (read_locks (tx_of e t)) (tx_of e t)
    /\ locks e' !! l = Some (BtreeLock None (readers lk) (ref_count lk))).
  { unfold tx_unlock. rewrite Hlk. run. rewrite !bool_decide_eq_true_2 by done. cbn [c_assert]. run.
    eexists. split_and!; [done|done|done| |].
    - change (tx_of (put_tx t (with_held (list_delete l (write_locks (tx_of e t))) (read_locks (tx_of e t)) (tx_of e t)) e) t
        = with_held (list_delete l (write_locks (tx_of e t))) (read_locks (tx_of e t)) (tx_of e t)). apply tx_of_put_eq.
    - cbn. apply lookup_insert_eq. }
  destruct Hrun as (e' & Hrun & Hsame & Hts & Htx & Hl').
  exists e'. split; [done|]. split; [|split; [done|]].
  - split; [by eapply unlock_inv|]. rewrite Hts, Htx. done.
  - rewrite Htx. split_and!; [done|done|]. eexists. split_and!; [done|done|].
    cbn. by apply (li_exclusive _ Hinv l lk t).
Qed.

Lemma unlock_read (l t : positive) (e : env) :
  active t e -> l ∈ read_locks (tx_of e t) ->
  exists e', tx_unlock l t e = Ret e' /\ active t e' /\ same_trees e e'
    /\ write_locks (tx_of e' t) = write_locks (tx_of e t)
    /\ read_locks (tx_of e' t) = list_delete l (read_locks (tx_of e t)).
Proof.
  intros (Hinv & Ht & Hr & Hw) Hl. pose proof Hl as (lk & Hlk & Hin)%(li_read _ Hinv).
  assert (Hown : writer lk <> Some t).
  { intros H. rewrite (li_exclusive _ Hinv l lk t Hlk H) in Hin. by apply not_elem_of_nil in Hin. }
  assert (Hrun : exists e', tx_unlock l t e = Ret e' /\ same_trees e e' /\ transactions e' = transactions e
    /\ tx_of e' t = with_held (write_locks (tx_of e t)) (list_delete l (read_locks (tx_of e t))) (tx_of e t)).
  { unfold tx_unlock. rewrite Hlk. run. rewrite bool_decide_eq_false_2 by done.
    rewrite !bool_decide_eq_true_2 by done. cbn [c_assert]. run.
    eexists. split_and!; [done|done|done|].
    change (tx_of (put_tx t (with_held (write_locks (tx_of e t)) (list_delete l (read_locks (tx_of e t))) (tx_of e t)) e) t
        = with_held (write_locks (tx_of e t)) (list_delete l (read_locks (tx_of e t))) (tx_of e t)). apply tx_of_put_eq. }
  destruct Hrun as (e' & Hrun & Hsame & Hts & Htx).
  exists e'. split; [done|]. split; [|split; [done|]].
  - split; [by eapply unlock_inv|]. rewrite Hts, Htx. done.
  - by rewrite Htx.
Qed.

Lemma list_delete_head (x : positive) (l : list positive) : list_delete x (x :: l) = l.
Proof. cbn. by rewrite decide_True. Qed.

Lemma release_write (t : positive) (ws : list positive) : forall e,
  active t e -> write_locks (tx_of e t) = ws ->
  exists e', for_each (fun l => change (tx_unlock l t)) ws e = Ret (tt, e') /\ active t e' /\ same_trees e e'
    /\ write_locks (tx_of e' t) = [] /\ read_locks (tx_of e' t) = read_locks (tx_of e t).
Proof.
  induction ws as [|l ws IH]; intros e Hact Hws; cbn [for_each]; [by exists e|].
  destruct (unlock_write l t e Hact) as (e1 & H1 & Hact1 & Hs1 & Hw1 & Hr1 & _); [rewrite Hws; by left|].
  rewrite bind_op, change_run, H1. run.
  destruct (IH e1 Hact1) as (e2 & H2 & Hact2 & Hs2 & Hw2 & Hr2); [by rewrite Hw1, Hws, list_delete_head|].
  exists e2. split_and!; [done|done|by etrans|done|congruence].
Qed.

Lemma release_read (t : positive) (rs : list positive) : forall e,
  active t e -> read_locks (tx_of e t) = rs ->
  exists e', for_each (fun l => change (tx_unlock l t)) rs e = Ret (tt, e') /\ active t e' /\ same_trees e e'
    /\ write_locks (tx_of e' t) = write_locks (tx_of e t) /\ read_locks (tx_of e' t) = [].
Proof.
  induction rs as [|l rs IH]; intros e Hact Hrs; cbn [for_each]; [by exists e|].
  destruct (unlock_read l t e Hact) as (e1 & H1 & Hact1 & Hs1 & Hw1 & Hr1); [rewrite Hrs; by left|].
  rewrite bind_op, change_run, H1. run.
  destruct (IH e1 Hact1) as (e2 & H2 & Hact2 & Hs2 & Hw2 & Hr2); [by rewrite Hr1, Hrs, list_delete_head|].
  exists e2. split_and!; [done|done|by etrans|congruence|done].
Qed.

Lemma release_locks_run (t : positive) (e : env) :
  active t e -> exists e', release_locks t e = Ret (tt, e') /\ lock_inv e' /\ (t ∉ transactions e') /\ same_trees e e'.
Proof.
  intros Hact. unfold release_locks, get_tx. rewrite bind_op, look_run. run. rewrite bind_op.
  destruct (release_write t _ e Hact eq_refl) as (e1 & -> & Hact1 & Hs1 & Hw1 & _). run.
  rewrite bind_op, look_run. run. rewrite bind_op.
  destruct (release_read t _ e1 Hact1 eq_refl) as (e2 & -> & Hact2 & Hs2 & Hw2 & Hr2). run. rewrite change_run.
  destruct Hact2 as (Hinv & Ht & Hr & Hw).
  assert (Hrun : cleanup_transaction t e2 = Ret (set_txs (list_delete t (transactions e2)) (base.delete t (txs e2)) e2)).
  { unfold cleanup_transaction. by rewrite bool_decide_eq_true_2. }
  rewrite Hrun. run. eexists. split_and!; [done| | |].
  - eapply wait_step_inv; [eapply (step_cleanup t); [|exact Hrun]|done]. unfold idle. rewrite Hw2. auto.
  - cbn. rewrite list_delete_elem by apply Hinv. naive_solver.
  - etrans; [exact Hs1|]. etrans; [exact Hs2|]. done.
Qed.

(** ** One modified node *)

(** A node that a transaction changed: locked for writing, by a lock of its own. *)
Definition changed (t : positive) (e : env) (n : positive) : Prop :=
  exists x l, nodes e !! n = Some x /\ lock_table e !! n = Some l /\ l ∈ write_locks (tx_of e t)
    /\ (is_deleted x = true \/ is_new x = true -> new_key x = None /\ new_page x = None).

Definition own_locks (e : env) (ns : list positive) : Prop :=
  forall n m l, n ∈ ns -> m ∈ ns -> lock_table e !! n = Some l -> lock_table e !! m = Some l -> n = m.

(** The node goes, if [dead] says so, or becomes what [final] says. *)
Definition settled (dead : btree_node -> bool) (final : btree_node -> btree_node) (n : positive)
    (m : gmap positive btree_node) : gmap positive btree_node :=
  match m !! n with
  | Some x => if dead x then base.delete n m else <[n := final x]> m
  | None => m
  end.

Definition settle (dead : btree_node -> bool) (final : btree_node -> btree_node) (t n : positive) : tree_op unit :=
  x ← get_node n;
  if dead x then delete_node n t else _ ← set_node n (final x); change (tx_unlock_node n t).

Lemma active_nodes (t : positive) (m : gmap positive btree_node) (e : env) : active t e -> active t (set_nodes m e).
Proof. intros (Hinv & Hrest). split; [|done]. by apply (lock_inv_locks e). Qed.

Lemma active_table (t : positive) (m : gmap positive positive) (e : env) : active t e -> active t (set_lock_table m e).
Proof. intros (Hinv & Hrest). split; [|done]. by apply (lock_inv_locks e). Qed.

Lemma unref_run (t l : positive) (e : env) (lk : btree_lock) :
  active t e -> locks e !! l = Some lk -> writer lk = None -> readers lk = [] ->
  exists e', lock_unref l e = Ret e' /\ active t e' /\ same_trees e e' /\ tx_of e' t = tx_of e t.
Proof.
  intros (Hinv & Ht & Hr & Hw) Hlk Hown Hreaders.
  assert (Hrun : exists e', lock_unref l e = Ret e' /\ same_trees e e' /\ transactions e' = transactions e
    /\ txs e' = txs e).
  { unfold lock_unref. rewrite Hlk. run. destruct (ref_count lk =? 1); [|by eexists].
    unfold lock_free. cbn [put_lock set_locks locks]. rewrite lookup_insert_eq. run.
    cbn [with_count writer readers]. rewrite !bool_decide_eq_true_2 by done. cbn [c_assert]. run. by eexists. }
  destruct Hrun as (e' & Hrun & Hsame & Hts & Htxs). exists e'.
  assert (Htx : tx_of e' t = tx_of e t) by (unfold tx_of; by rewrite Htxs).
  split_and!; [done| |done|done]. split; [by eapply wait_step_inv; [eapply step_unref|]|]. by rewrite Hts, Htx.
Qed.

(** What settling a node does not touch. *)
Definition untouched (t n : positive) (e e' : env) : Prop :=
  trees e' = trees e /\ btrees e' = btrees e
  /\ (forall m, m <> n -> lock_table e' !! m = lock_table e !! m)
  /\ (forall l, lock_table e !! n <> Some l -> l ∈ write_locks (tx_of e t) -> l ∈ write_locks (tx_of e' t)).

Lemma kept_locks (t l l' : positive) (e : env) :
  active t e -> l' <> l -> l' ∈ write_locks (tx_of e t) -> l' ∈ list_delete l (write_locks (tx_of e t)).
Proof. intros (Hinv & _) Hne Hin. apply list_delete_elem; [apply (li_held _ Hinv)|done]. Qed.

Lemma delete_node_run (t n : positive) (e : env) (x : btree_node) :
  active t e -> changed t e n -> nodes e !! n = Some x -> is_deleted x = true \/ is_new x = true ->
  exists e', delete_node n t e = Ret (tt, e') /\ active t e'
    /\ nodes e' = base.delete n (nodes e) /\ untouched t n e e'.
Proof.
  intros Hact (y & l & Hy & Htab & Hl & Hclean) Hx Hdead. rewrite Hx in Hy. injection Hy as <-.
  destruct (Hclean Hdead) as [Hk Hp]. unfold delete_node.
  rewrite bind_op, (get_node_some n x e Hx). run.
  rewrite bind_op, (assert_run (bool_decide (new_key x = None))) by by apply bool_decide_eq_true_2. run.
  rewrite bind_op, assert_run by by apply bool_decide_eq_true_2. run. rewrite bind_op, change_run.
  pose proof Hact as (Hinv & _). pose proof Hl as (lk & Hlk & Hown)%(li_write _ Hinv).
  unfold lock_detach. rewrite Htab, Hlk. run. rewrite bool_decide_eq_true_2 by done. cbn [c_assert]. run.
  destruct (unlock_write l t (set_lock_table (base.delete n (lock_table e)) e))
    as (e1 & -> & Hact1 & Hs1 & Hw1 & _ & lk1 & Hlk1 & Hwn & Hrn); [by apply active_table|done|]. run.
  destruct (unref_run t l e1 lk1 Hact1 Hlk1 Hwn Hrn) as (e2 & -> & Hact2 & Hs2 & Htx2). run.
  destruct Hs1 as (Hn1 & Ht1 & Hb1 & Hl1). destruct Hs2 as (Hn2 & Ht2 & Hb2 & Hl2).
  rewrite change_run. unfold free_btree_node. rewrite Hn2, Hn1. cbn [set_lock_table nodes]. rewrite Hx. run.
  eexists. split; [done|]. split; [by apply active_nodes|]. split; [done|].
  unfold untouched. cbn [set_nodes trees btrees lock_table]. rewrite Ht2, Ht1, Hb2, Hb1, Hl2, Hl1.
  split_and!; [done|done| |].
  - intros m Hm. cbn. by rewrite lookup_delete_ne.
  - intros l' Hne Hin. change (l' ∈ write_locks (tx_of e2 t)). rewrite Htx2, Hw1. cbn.
    apply (kept_locks t l l' e Hact); [|done]. intros ->. by rewrite Htab in Hne.
Qed.

Lemma settle_run (dead : btree_node -> bool) (final : btree_node -> btree_node) (t n : positive) (e : env) :
  (forall x, dead x = true -> is_deleted x = true \/ is_new x = true) ->
  active t e -> changed t e n ->
  exists e', settle dead final t n e = Ret (tt, e') /\ active t e'
    /\ nodes e' = settled dead final n (nodes e) /\ untouched t n e e'.
Proof.
  intros Hdead Hact Hch. pose proof Hch as (x & l & Hx & Htab & Hl & _). unfold settle, settled.
  rewrite bind_op, (get_node_some n x e Hx), Hx. run. destruct (dead x) eqn:Hdx.
  - apply delete_node_run with x; auto.
  - rewrite bind_op. unfold set_node at 1. rewrite change_run. run. rewrite change_run.
    unfold tx_unlock_node. cbn [put_node set_nodes lock_table]. rewrite Htab.
    destruct (unlock_write l t (put_node n (final x) e))
      as (e1 & -> & Hact1 & (Hn1 & Ht1 & Hb1 & Hl1) & Hw1 & _); [by apply active_nodes|done|]. run.
    exists e1. split; [done|]. split; [done|]. split; [done|].
    unfold untouched. rewrite Ht1, Hb1, Hl1. split_and!; [done|done|done|].
    intros l' Hne Hin. rewrite Hw1. cbn. apply (kept_locks t l l' e Hact); [|done]. intros ->. by rewrite Htab in Hne.
Qed.

(** The nodes one after the other. *)
Lemma settle_all (f : positive -> tree_op unit) (dead : btree_node -> bool) (final : btree_node -> btree_node)
    (t : positive) (ns : list positive) :
  (forall n e, active t e -> changed t e n -> f n e = settle dead final t n e) ->
  (forall x, dead x = true -> is_deleted x = true \/ is_new x = true) -> NoDup ns -> forall e,
  active t e -> (forall n, n ∈ ns -> changed t e n) -> own_locks e ns ->
  exists e', for_each f ns e = Ret (tt, e') /\ active t e'
    /\ (forall n, nodes e' !! n = if decide (n ∈ ns)
                                  then x ← nodes e !! n; if dead x then None else Some (final x)
                                  else nodes e !! n)
    /\ trees e' = trees e /\ btrees e' = btrees e.
Proof.
  intros Hf Hdead. induction 1 as [|n ns Hn Hnd IH]; intros e Hact Hch Hown; cbn [for_each].
  { exists e. split_and!; [done|done| |done|done]. intros n. by rewrite decide_False by apply not_elem_of_nil. }
  destruct (settle_run dead final t n e Hdead Hact) as (e1 & H1 & Hact1 & Hn1 & Ht1 & Hb1 & Htab1 & Hl1); [apply Hch; by left|].
  rewrite bind_op, (Hf n e), H1 by (try apply Hch; try done; by left). run.
  pose proof (Hch n ltac:(by left)) as (x & l & Hx & Htab & _).
  assert (Hother : forall m, m <> n -> nodes e1 !! m = nodes e !! m).
  { intros m Hm. rewrite Hn1. unfold settled. rewrite Hx. destruct (dead x); [by rewrite lookup_delete_ne|by rewrite lookup_insert_ne]. }
  destruct (IH e1 Hact1) as (e2 & H2 & Hact2 & Hn2 & Ht2 & Hb2).
  - intros m Hm. destruct (decide (m = n)) as [->|Hne]; [done|].
    destruct (Hch m ltac:(by right)) as (y & k & Hy & Htaby & Hk & Hclean).
    exists y, k. rewrite Hother, Htab1 by done. split_and!; [done|done| |done]. apply Hl1; [|done].
    rewrite Htab. intros [= ->]. apply Hne, (Hown m n k); [by right|by left|done|done].
  - intros m1 m2 k Hm1 Hm2. destruct (decide (m1 = n)) as [->|Hne1]; [done|].
    destruct (decide (m2 = n)) as [->|Hne2]; [done|]. rewrite !Htab1 by done. apply Hown; by right.
  - exists e2. split_and!; [done|done| |congruence|congruence]. intros m. rewrite Hn2.
    destruct (decide (m = n)) as [->|Hne].
    + rewrite decide_False by done. rewrite decide_True by by left. rewrite Hn1. unfold settled. rewrite Hx. cbn.
      destruct (dead x); [apply lookup_delete_eq|apply lookup_insert_eq].
    + rewrite Hother by done. destruct (decide (m ∈ ns)) as [Hin|Hin].
      * by rewrite decide_True by by right.
      * rewrite decide_False; [done|]. by intros [?|?]%elem_of_cons.
Qed.

(** ** Roots *)

Definition writes_root (t : positive) (e : env) (bt : btree) : bool :=
  match locks e !! tree_lock bt with Some lk => bool_decide (writer lk = Some t) | None => false end.

Definition new_tree (final : btree -> btree) (t : positive) (e : env) (bt : btree) : btree :=
  if writes_root t e bt then final bt else bt.

Definition trees_whole (e : env) : Prop :=
  NoDup (btrees e)
  /\ forall b, b ∈ btrees e -> exists bt, trees e !! b = Some bt /\ is_Some (locks e !! tree_lock bt).

Lemma roots_all (f : positive -> tree_op unit) (final : btree -> btree) (t : positive) (bs : list positive) :
  (forall b bt e, trees e !! b = Some bt -> is_Some (locks e !! tree_lock bt) ->
     f b e = Ret (tt, put_tree b (new_tree final t e bt) e)) ->
  NoDup bs -> forall e,
  (forall b, b ∈ bs -> exists bt, trees e !! b = Some bt /\ is_Some (locks e !! tree_lock bt)) ->
  exists m, for_each f bs e = Ret (tt, set_trees (btrees e) m e)
    /\ forall b, m !! b = if decide (b ∈ bs) then new_tree final t e <$> trees e !! b else trees e !! b.
Proof.
  intros Hf. induction 1 as [|b bs Hb Hnd IH]; intros e Hbs; cbn [for_each].
  { exists (trees e). split; [by destruct e|]. intros b. by rewrite decide_False by apply not_elem_of_nil. }
  destruct (Hbs b ltac:(by left)) as (bt & Hbt & Hlk). rewrite bind_op, (Hf b bt e Hbt Hlk). run.
  destruct (IH (put_tree b (new_tree final t e bt) e)) as (m & Hrun & Hm).
  - intros c Hc. destruct (Hbs c ltac:(by right)) as (bt' & Hbt' & Hlk'). exists bt'. cbn.
    rewrite lookup_insert_ne by (intros ->; done). done.
  - exists m. split; [exact Hrun|]. intros c. rewrite Hm. cbn [put_tree set_trees trees].
    destruct (decide (c = b)) as [->|Hne].
    + rewrite decide_False by done. rewrite decide_True by by left. by rewrite lookup_insert_eq, Hbt.
    + rewrite lookup_insert_ne by done. destruct (decide (c ∈ bs)) as [Hin|Hin].
      * by rewrite decide_True by by right.
      * rewrite decide_False; [done|]. by intros [?|?]%elem_of_cons.
Qed.

(** ** Commit and rollback *)

(** What the changes of links, keys and pages of a transaction establish: each node it
    modified is listed once and locked for writing by a lock of its own, and those that
    it deleted or made have no scratch keys and pages. *)
Record ready_to_end (t : positive) (e : env) : Prop := {
  end_active : active t e;
  end_once : NoDup (modifications (tx_of e t));
  end_changed : forall n, n ∈ modifications (tx_of e t) -> changed t e n;
  end_locks : own_locks e (modifications (tx_of e t));
  end_trees : trees_whole e
}.

Lemma end_transaction (fr fm : positive -> tree_op unit) (final_root : btree -> btree)
    (dead : btree_node -> bool) (final : btree_node -> btree_node) (t : positive) (e : env) :
  (forall b bt e, trees e !! b = Some bt -> is_Some (locks e !! tree_lock bt) ->
     fr b e = Ret (tt, put_tree b (new_tree final_root t e bt) e)) ->
  (forall n e, active t e -> changed t e n -> fm n e = settle dead final t n e) ->
  (forall x, dead x = true -> is_deleted x = true \/ is_new x = true) ->
  ready_to_end t e ->
  exists e', (bs ← look (fun e => Ret (btrees e));
              _ ← for_each fr bs;
              tx ← get_tx t;
              _ ← for_each fm (modifications tx);
              release_locks t) e = Ret (tt, e')
    /\ lock_inv e' /\ (t ∉ transactions e')
    /\ (forall n, nodes e' !! n = if decide (n ∈ modifications (tx_of e t))
                                  then x ← nodes e !! n; if dead x then None else Some (final x)
                                  else nodes e !! n)
    /\ (forall b, b ∈ btrees e -> trees e' !! b = new_tree final_root t e <$> trees e !! b).
Proof.
  intros Hfr Hfm Hdead [Hact Honce Hch Hown [Hnd Htrees]]. rewrite bind_op, look_run. run. rewrite bind_op.
  destruct (roots_all fr final_root t (btrees e) Hfr Hnd e Htrees) as (m & -> & Hm). run.
  unfold get_tx. rewrite bind_op, look_run. run. rewrite bind_op.
  set (e1 := set_trees (btrees e) m e).
  assert (Hact1 : active t e1) by (destruct Hact as [Hinv ?]; split; [by apply (lock_inv_locks e)|done]).
  destruct (settle_all fm dead final t (modifications (tx_of e t)) Hfm Hdead Honce e1 Hact1 Hch Hown)
    as (e2 & H2 & Hact2 & Hn2 & Ht2 & Hb2).
  change (modifications (tx_of e1 t)) with (modifications (tx_of e t)). rewrite H2. run.
  destruct (release_locks_run t e2 Hact2) as (e3 & -> & Hinv3 & Hgone & (Hn3 & Ht3 & _)).
  exists e3. split_and!; [done|done|done| |].
  - intros n. rewrite Hn3. apply Hn2.
  - intros b Hb. rewrite Ht3, Ht2. change (trees e1 !! b) with (m !! b). by rewrite Hm, decide_True.
Qed.

Lemma changed_locked (t n : positive) (e : env) : active t e -> changed t e n -> locked_for_write n t e = true.
Proof.
  intros (Hinv & _) (x & l & _ & Htab & (lk & Hlk & Hown)%(li_write _ Hinv) & _). unfold locked_for_write.
  rewrite Htab, Hlk. by apply bool_decide_eq_true_2.
Qed.

Lemma put_tree_same (b : positive) (bt : btree) (e : env) : trees e !! b = Some bt -> put_tree b bt e = e.
Proof. intros Hb. unfold put_tree, set_trees. rewrite insert_id by done. by destruct e. Qed.

Definition install_root (bt : btree) : btree := Btree (default (root bt) (new_root bt)) None (tree_lock bt).
Definition discard_root (bt : btree) : btree := Btree (root bt) None (tree_lock bt).

Lemma apply_root_run (t b : positive) (bt : btree) (e : env) :
  trees e !! b = Some bt -> is_Some (locks e !! tree_lock bt) ->
  apply_root_modification t b e = Ret (tt, put_tree b (new_tree install_root t e bt) e).
Proof.
  intros Hb [lk Hlk]. unfold apply_root_modification, new_tree, writes_root, install_root, get_tree, set_tree.
  rewrite bind_op, look_run, Hb, Hlk. run. destruct bt as [r [nr|] l]; cbn [new_root root tree_lock default] in *.
  - rewrite bind_op, look_run, Hlk. run. case_bool_decide; [done|]. by rewrite put_tree_same.
  - case_bool_decide; by rewrite put_tree_same.
Qed.

Lemma rollback_root_run (t b : positive) (bt : btree) (e : env) :
  trees e !! b = Some bt -> is_Some (locks e !! tree_lock bt) ->
  rollback_root_modification t b e = Ret (tt, put_tree b (new_tree discard_root t e bt) e).
Proof.
  intros Hb [lk Hlk]. unfold rollback_root_modification, new_tree, writes_root, discard_root, get_tree, set_tree.
  rewrite bind_op, look_run, Hb, Hlk. run. destruct bt as [r [nr|] l]; cbn [new_root root tree_lock] in *.
  - rewrite bind_op, look_run, Hlk. run. case_bool_decide; [done|]. by rewrite put_tree_same.
  - case_bool_decide; by rewrite put_tree_same.
Qed.

Lemma apply_run (t n : positive) (e : env) :
  active t e -> changed t e n ->
  apply_modification t n e = settle is_deleted (fun x => clear_flags (install x)) t n e.
Proof.
  intros Hact Hch. pose proof Hch as (x & _ & Hx & _). unfold apply_modification, settle.
  rewrite !bind_op, (get_node_some n x e Hx). run. rewrite bind_op.
  destruct (is_new x); [done|]. rewrite bind_op, look_run. run. rewrite changed_locked by done. done.
Qed.

Lemma rollback_run (t n : positive) (e : env) :
  active t e -> changed t e n ->
  rollback_modification t n e = settle is_new (fun x => clear_flags (discard x)) t n e.
Proof.
  intros Hact Hch. pose proof Hch as (x & _ & Hx & _). unfold rollback_modification, settle.
  rewrite !bind_op, (get_node_some n x e Hx). run. rewrite bind_op, look_run. run.
  rewrite bind_op, assert_run by by apply changed_locked. done.
Qed.

(** C14. A commit ends: the nodes that the transaction modified are gone if it deleted
    them, and otherwise what it saw of them is committed; other nodes stay as they are; a
    new root of a tree becomes its root; and the transaction has left with its locks. *)
Theorem commit_installs (t : positive) (e : env) (Hready : ready_to_end t e) :
  exists e', commit t e = Ret (tt, e') /\ lock_inv e' /\ (t ∉ transactions e')
    /\ (forall n x, nodes e !! n = Some x ->
          nodes e' !! n =
            if decide (n ∈ modifications (tx_of e t)) then
              if is_deleted x then None
              else Some (BtreeNode (default (header x) (new_header x)) None (min_children x) (max_children x) 0
                           (match new_key x with Some k => Some k | None => key x end) None
                           (match new_page x with Some p => Some p | None => page x end) None)
            else Some x)
    /\ (forall b bt, b ∈ btrees e -> trees e !! b = Some bt ->
          trees e' !! b = Some (match locks e !! tree_lock bt with
                                | Some lk => if decide (writer lk = Some t)
                                             then Btree (default (root bt) (new_root bt)) None (tree_lock bt) else bt
                                | None => bt
                                end)).
Proof.
  destruct (end_transaction (apply_root_modification t) (apply_modification t) install_root is_deleted
    (fun x => clear_flags (install x)) t e) as (e' & Hrun & Hinv & Hgone & Hn & Ht); auto using apply_root_run, apply_run.
  exists e'. split_and!; [exact Hrun|done|done| |].
  - intros n x Hx. rewrite Hn, Hx. destruct (decide _); [|done]. cbn. destruct (is_deleted x); [done|].
    by destruct x as [h [nh|] lo hi f k [nk|] p [np|]].
  - intros b bt Hb Hbt. rewrite Ht, Hbt by done. cbn. unfold new_tree, writes_root.
    destruct (locks e !! tree_lock bt) as [lk|]; [|done]. case_bool_decide; by case_decide.
Qed.

(** A rollback ends: the nodes that the transaction made are gone; those that it
    modified have what was committed, and no scratch copies; other nodes stay as they are,
    and so do the roots; and the transaction has left with its locks. *)
Theorem rollback_discards (t : positive) (e : env) (Hready : ready_to_end t e) :
  exists e', rollback t e = Ret (tt, e') /\ lock_inv e' /\ (t ∉ transactions e')
    /\ (forall n x, nodes e !! n = Some x ->
          nodes e' !! n =
            if decide (n ∈ modifications (tx_of e t)) then
              if is_new x then None
              else Some (BtreeNode (header x) None (min_children x) (max_children x) 0 (key x) None (page x) None)
            else Some x)
    /\ (forall b bt, b ∈ btrees e -> trees e !! b = Some bt -> root <$> trees e' !! b = Some (root bt)).
Proof.
  destruct (end_transaction (rollback_root_modification t) (rollback_modification t) discard_root is_new
    (fun x => clear_flags (discard x)) t e) as (e' & Hrun & Hinv & Hgone & Hn & Ht); auto using rollback_root_run, rollback_run.
  exists e'. split_and!; [exact Hrun|done|done| |].
  - intros n x Hx. rewrite Hn, Hx. destruct (decide _); [|done]. cbn. by destruct (is_new x).
  - intros b bt Hb Hbt. rewrite Ht, Hbt by done. cbn. unfold new_tree. by destruct (writes_root t e bt).
Qed.

(** ** An example: a transaction puts a node under the root of a new tree *)

Definition changed_root : env :=
  match (b ← create_btree;
         t ← (fun e => Ret (create_transaction 9 e));
         n ← (fun e => Ret (create_lockable_btree_node (Some 1%positive) 0 0 (Some [7]) e));
         _ ← @tx_set_parent alone n t (Some 1%positive);
         _ ← @tx_set_first_child alone 1 t (Some n);
         mret (b, t, n)) (create_btree_environment 0) with
  | Ret (_, e) => e
  | _ => create_btree_environment 0
  end.

Lemma changed_root_modified : modifications (tx_of changed_root 1) = [1; 2]%positive.
Proof. by vm_compute. Qed.

Lemma changed_root_ready : ready_to_end 1 changed_root.
Proof.
  pose proof changed_root_modified as Hmods. split.
  - split; [apply lock_check_inv; by vm_compute|]. split; [vm_compute; repeat constructor|]. split; vm_compute; reflexivity.
  - rewrite Hmods. apply (bool_decide_unpack _). by vm_compute.
  - rewrite Hmods. intros n Hn. rewrite !elem_of_cons in Hn. destruct Hn as [->|[->|[]%not_elem_of_nil]].
    + eexists _, _. split; [vm_compute; reflexivity|]. split; [vm_compute; reflexivity|].
      split; [apply (bool_decide_unpack _); by vm_compute|]. by intros [?|?].
    + eexists _, _. split; [vm_compute; reflexivity|]. split; [vm_compute; reflexivity|].
      split; [apply (bool_decide_unpack _); by vm_compute|]. intros _. split; vm_compute; reflexivity.
  - rewrite Hmods. intros n m l Hn Hm. rewrite !elem_of_cons in Hn, Hm.
    destruct Hn as [->|[->|[]%not_elem_of_nil]], Hm as [->|[->|[]%not_elem_of_nil]]; try reflexivity;
      intros H1 H2; exfalso; vm_compute in H1; vm_compute in H2; congruence.
  - split; [apply (bool_decide_unpack _); by vm_compute|].
    intros b Hb. assert (b = 1%positive) as ->.
    { change (b ∈ [1%positive]) in Hb. by apply list_elem_of_singleton in Hb. }
    eexists. split; [vm_compute; reflexivity|]. eexists. vm_compute. reflexivity.
Qed.

Lemma changed_root_modifies (n : positive) : n ∈ [1; 2]%positive -> n ∈ modifications (tx_of changed_root 1).
Proof. by rewrite changed_root_modified. Qed.

Definition node_1 : btree_node := default (create_btree_node None 0 0 None) (nodes changed_root !! 1%positive).
Definition node_2 : btree_node := default (create_btree_node None 0 0 None) (nodes changed_root !! 2%positive).

Lemma changed_root_nodes : nodes changed_root !! 1%positive = Some node_1 /\ nodes changed_root !! 2%positive = Some node_2.
Proof. split; vm_compute; reflexivity. Qed.

Lemma commit_installs_witness :
  exists e' x, commit 1 changed_root = Ret (tt, e') /\ (1%positive ∉ transactions e')
    /\ nodes e' !! 1%positive = Some x /\ first_child (header x) = Some 2%positive /\ new_header x = None.
Proof.
  destruct (commit_installs 1 changed_root changed_root_ready) as (e' & Hrun & _ & Hgone & Hn & _).
  pose proof (Hn 1%positive node_1 (proj1 changed_root_nodes)) as H1.
  rewrite (decide_True _ _ (changed_root_modifies 1 (list_elem_of_here _ _))) in H1.
  eexists e', _. split; [exact Hrun|]. split; [exact Hgone|]. split; [|split].
  - rewrite H1. vm_compute. reflexivity.
  - reflexivity.
  - reflexivity.
Defined.

Lemma rollback_discards_witness :
  exists e' x, rollback 1 changed_root = Ret (tt, e') /\ nodes e' !! 2%positive = None
    /\ nodes e' !! 1%positive = Some x /\ first_child (header x) = None /\ new_header x = None.
Proof.
  destruct (rollback_discards 1 changed_root changed_root_ready) as (e' & Hrun & _ & _ & Hn & _).
  pose proof (Hn 1%positive node_1 (proj1 changed_root_nodes)) as H1.
  rewrite (decide_True _ _ (changed_root_modifies 1 (list_elem_of_here _ _))) in H1.
  pose proof (Hn 2%positive node_2 (proj2 changed_root_nodes)) as H2.
  rewrite (decide_True _ _ (changed_root_modifies 2 (list_elem_of_further _ _ _ (list_elem_of_here _ _)))) in H2.
  eexists e', _. split; [exact Hrun|]. split; [|split; [|split]].
  - rewrite H2. vm_compute. reflexivity.
  - rewrite H1. vm_compute. reflexivity.
  - reflexivity.
  - reflexivity.
Defined.
