(* ===== verification/MemSearch.v ===== *)
(** * Looking keys up in the in-memory storage engine (storage-mem.c)

    In a tree whose pages are sorted and whose inner nodes have keys between those of their
    children, and which no other transaction is writing, the search for a key comes to the
    leaf that has it, if a leaf has it, and [transaction_get] gives its value. *)

From S2P Require Import Prelude.
From S2P Require Import Io.
From S2P Require Import Util.
From S2P Require Import Glib.
From S2P Require Import MemPage.
From S2P Require Import MemEnv.
From S2P Require Import MemLock.
From S2P Require Import MemTree.
From S2P Require Import MemOps.
From S2P Require Import MemCommit.

Local Open Scope Z_scope.

(** ** Locks for reading *)

(** The transaction has time, and nobody else writes. *)
Record quiet (t : positive) (e : env) : Prop := {
  quiet_active : active t e;
  quiet_time : check_tx_timeout t e = true;
  quiet_writers : forall l lk, locks e !! l = Some lk -> writer lk = None \/ writer lk = Some t;
  quiet_counts : forall n l, lock_table e !! n = Some l -> exists lk, locks e !! l = Some lk /\ 1 <= ref_count lk
}.

Definition lock_face (lk : btree_lock) : option positive * Z := (writer lk, ref_count lk).

(** What reading changes: who reads. *)
Definition read_frame (t : positive) (e e' : env) : Prop :=
  same_trees e e' /\ (forall l, lock_face <$> locks e' !! l = lock_face <$> locks e !! l)
  /\ monotonic_time e' = monotonic_time e /\ end_time (tx_of e' t) = end_time (tx_of e t).

#[export] Instance read_frame_preorder t : PreOrder (read_frame t).
Proof.
  split; [done|]. intros a b c (H1&H2&H3&H4) (K1&K2&K3&K4). unfold read_frame.
  split_and!; [by etrans| |congruence|congruence]. intros l. by rewrite K2.
Qed.

Lemma quiet_frame (t : positive) (e e' : env) : quiet t e -> read_frame t e e' -> active t e' -> quiet t e'.
Proof.
  intros [Hact Htime Hw Hc] (Hsame & Hface & Hmono & Hend) Hact'. split; [done| | |].
  - unfold check_tx_timeout. by rewrite Hmono, Hend.
  - intros l lk Hlk. specialize (Hface l). rewrite Hlk in Hface. cbn in Hface. symmetry in Hface.
    apply fmap_Some in Hface as (lk0 & Hlk0 & [= -> _]). by apply (Hw l).
  - intros n l. destruct Hsame as (_ & _ & _ & ->). intros (lk & Hlk & Hcount)%Hc. specialize (Hface l).
    rewrite Hlk in Hface. cbn in Hface. apply fmap_Some in Hface as (lk' & Hlk' & [= _ Heq]). exists lk'. split; [done|]. lia.
Qed.

Section reading.

Context {W : Waiting} (Hpatience : (0 < patience)%nat).

Lemma tx_lock_read (l t : positive) (e : env) :
  quiet t e -> is_Some (locks e !! l) ->
  exists e', tx_lock others patience l t false e = Ret (true, e') /\ quiet t e' /\ read_frame t e e'.
Proof.
  intros Hq [lk Hlk]. pose proof Hq as [(Hinv & Ht & Hr & Hw) Htime Hwriters _].
  enough (exists e', tx_lock others patience l t false e = Ret (true, e') /\ active t e' /\ read_frame t e e')
    as (e' & Hrun & Hact & Hframe) by (exists e'; split_and!; [done|by eapply quiet_frame|done]).
  destruct (lock_declare l t false e) as [[needs e1]| | |] eqn:Hdecl.
  2-4: exfalso; revert Hdecl; unfold lock_declare; rewrite Hlk, Hr, Hw, (bool_decide_eq_true_2 (@None positive = None)) by done;
    run; cbn [c_assert]; run; by destruct (_ || _).
  pose proof (lock_declare_inv _ _ _ _ _ _ Hinv Ht Hdecl) as Hinv1.
  revert Hdecl. unfold tx_lock. unfold lock_declare. rewrite Hlk, Hr, Hw, (bool_decide_eq_true_2 (@None positive = None)) by done.
  run. cbn [c_assert]. run.
  destruct (bool_decide_reflect (writer lk = Some t)) as [Hown|Hown]; cbn [orb].
  { intros _. run. eexists. split; [done|]. split.
    - split; [by apply lock_end_inv|]. unfold lock_end. rewrite tx_of_put_eq. done.
    - unfold read_frame, lock_end. by rewrite tx_of_put_eq. }
  destruct (bool_decide_reflect (l ∈ read_locks (tx_of e t))) as [Hread|Hread].
  { intros _. run. eexists. split; [done|]. split.
    - split; [by apply lock_end_inv|]. unfold lock_end. rewrite tx_of_put_eq. done.
    - unfold read_frame, lock_end. by rewrite tx_of_put_eq. }
  intros [= <- He1]. subst e1. run. destruct patience as [|p]; [lia|]. cbn [lock_loop].
  assert (Htime1 : check_tx_timeout t (put_tx t (with_waiting (Some l) None (tx_of e t)) e) = true).
  { unfold check_tx_timeout. rewrite tx_of_put_eq. exact Htime. }
  rewrite Htime1. cbn [negb].
  assert (Hnone : writer lk = None) by (destruct (Hwriters l lk Hlk); congruence).
  assert (Hatt : exists e2, lock_attempt l t false (put_tx t (with_waiting (Some l) None (tx_of e t)) e) = Ret (false, e2)
    /\ same_trees e e2 /\ transactions e2 = transactions e /\ monotonic_time e2 = monotonic_time e
    /\ tx_of e2 t = with_held (write_locks (tx_of e t)) (l :: read_locks (tx_of e t)) (with_waiting (Some l) None (tx_of e t))
    /\ locks e2 = <[l := BtreeLock (writer lk) (t :: readers lk) (ref_count lk)]> (locks e)).
  { unfold lock_attempt. cbn [put_tx set_txs locks]. rewrite Hlk. run. rewrite Hnone, bool_decide_eq_true_2 by done.
    eexists. split; [done|]. split; [done|]. split; [done|]. split; [done|]. split; [|done].
    change (tx_of (put_tx t ?x ?e0) t) with (tx_of (put_tx t x e0) t). rewrite tx_of_put_eq. by rewrite tx_of_put_eq. }
  destruct Hatt as (e2 & Hatt & Hsame & Hts & Hmono & Htx & Hlocks). rewrite Hatt. run.
  eexists. split; [done|]. split.
  - split.
    + eapply lock_grant_inv; [exact Hinv1|exact Ht| |exact Hatt].
      unfold waits. by rewrite tx_of_put_eq.
    + unfold lock_end. rewrite tx_of_put_eq, Htx. cbn. by rewrite Hts.
  - unfold read_frame, lock_end. rewrite tx_of_put_eq, Htx. split_and!; [exact Hsame| |exact Hmono|done].
    intros l'. cbn. rewrite Hlocks. destruct (decide (l = l')) as [<-|Hne].
    + by rewrite lookup_insert_eq, Hlk.
    + by rewrite lookup_insert_ne.
Qed.

Lemma lock_node_read (n t : positive) (e : env) :
  quiet t e -> is_Some (lock_table e !! n) ->
  exists e', lock_node n t false e = Ret ((SUCCESS, false), e') /\ quiet t e' /\ read_frame t e e'.
Proof.
  intros Hq [l Hl]. destruct (quiet_counts _ _ Hq n l Hl) as (lk & Hlk & Hcount).
  unfold lock_node, tx_lock_node, lock_ref. rewrite Hl. run. rewrite Hlk. run.
  set (e1 := put_lock l (with_count (ref_count lk + 1) lk) e).
  assert (Hq1 : quiet t e1).
  { destruct Hq as [(Hinv & Hrest) Htime Hwr Hco]. split.
    - split; [by apply lock_inv_count|done].
    - done.
    - intros l' lk'. cbn. destruct (decide (l = l')) as [<-|Hne]; [rewrite lookup_insert_eq|rewrite lookup_insert_ne by done; apply Hwr].
      intros [= <-]. exact (Hwr l lk Hlk).
    - intros m l' Hm. cbn. destruct (decide (l = l')) as [<-|Hne]; [|rewrite lookup_insert_ne by done; by apply (Hco m)].
      rewrite lookup_insert_eq. eexists. split; [done|]. cbn. lia. }
  destruct (tx_lock_read l t e1 Hq1) as (e2 & -> & Hq2 & (Hs2 & Hface2 & Hmono2 & Hend2)); [cbn; rewrite lookup_insert_eq; eauto|].
  run. pose proof (Hface2 l) as Hl2. cbn in Hl2. rewrite lookup_insert_eq in Hl2. cbn in Hl2.
  apply fmap_Some in Hl2 as (lk2 & Hlk2 & [= Hw2 Hc2]). unfold lock_unref. rewrite Hlk2. run.
  rewrite (proj2 (Z.eqb_neq _ _)) by lia. run. cbn [lock_table put_lock set_locks].
  destruct Hs2 as (Hn2 & Ht2 & Hb2 & Htab2). rewrite Htab2. cbn [e1 put_lock set_locks lock_table]. rewrite Hl. run.
  eexists. split; [done|].
  assert (Hframe : read_frame t e (put_lock l (with_count (ref_count lk2 - 1) lk2) e2)).
  { split; [done|]. split; [|done]. intros l'. cbn. destruct (decide (l = l')) as [<-|Hne].
    - rewrite lookup_insert_eq, Hlk. cbn. unfold lock_face. cbn. rewrite <- Hw2. cbn. f_equal. f_equal. lia.
    - rewrite lookup_insert_ne by done. rewrite Hface2. cbn. by rewrite lookup_insert_ne. }
  split; [|done]. eapply quiet_frame; [exact Hq|exact Hframe|].
  destruct (quiet_active _ _ Hq2) as [Hinv2 Hrest]. split; [by apply lock_inv_count|done].
Qed.

End reading.

(** ** Trees as a transaction sees them *)

(** A leaf with its records, or a node with its children. *)
Inductive shape :=
| SLeaf (n : positive) (rs : list (bytes * bytes))
| SNode (n : positive) (cs : list shape).

Definition node_id (s : shape) : positive := match s with SLeaf n _ | SNode n _ => n end.

Fixpoint records_of (s : shape) : list (bytes * bytes) :=
  match s with
  | SLeaf _ rs => rs
  | SNode _ cs => flat_map records_of cs
  end.

Definition seen_header (x : btree_node) : btree_node_header := default (header x) (new_header x).
Definition seen_page (x : btree_node) : option btree_page :=
  match MemEnv.new_page x with Some p => Some p | None => page x end.
Definition seen_key (x : btree_node) : btree_datum :=
  match new_key x with Some k => k | None => default [] (key x) end.

Definition first_id (cs : list shape) : option positive := node_id <$> head cs.

(** A node that has a lock, the sibling and the children that it should have, and no key
    that is too long to compare. *)
Definition linked (e : env) (n : positive) (nxt : option positive) (x : btree_node) : Prop :=
  nodes e !! n = Some x /\ is_Some (lock_table e !! n) /\ next (seen_header x) = nxt
  /\ Z.of_nat (length (seen_key x)) < 2 ^ 31.

Fixpoint shown (e : env) (s : shape) (nxt : option positive) : Prop :=
  match s with
  | SLeaf n rs => exists x pg, linked e n nxt x /\ seen_page x = Some pg /\ page_holds pg rs
  | SNode n cs =>
      (exists x, linked e n nxt x /\ seen_page x = None /\ first_child (seen_header x) = first_id cs)
      /\ (fix siblings cs :=
            match cs with
            | [] => True
            | c :: cs => shown e c (first_id cs) /\ siblings cs
            end) cs
  end.

Fixpoint siblings (e : env) (cs : list shape) : Prop :=
  match cs with
  | [] => True
  | c :: cs => shown e c (first_id cs) /\ siblings e cs
  end.

Lemma shown_node (e : env) (n : positive) (cs : list shape) (nxt : option positive) :
  shown e (SNode n cs) nxt <->
  (exists x, linked e n nxt x /\ seen_page x = None /\ first_child (seen_header x) = first_id cs) /\ siblings e cs.
Proof.
  cbn [shown]. enough (forall l, (fix siblings cs := match cs with [] => True
    | c :: cs => shown e c (first_id cs) /\ siblings cs end) l <-> siblings e l) as -> by done.
  induction l as [|c l IH]; cbn; [done|]. by rewrite IH.
Qed.

Definition key_at (e : env) (s : shape) : btree_datum := default [] (seen_key <$> nodes e !! node_id s).

Definition is_leaf (s : shape) : bool := match s with SLeaf _ _ => true | SNode _ _ => false end.

(** The key of each child is above its records, and not above those of the next ones. *)
Fixpoint separated (e : env) (cs : list shape) : Prop :=
  match cs with
  | [] => True
  | c :: cs =>
      Forall (fun r => key_lt r.1 (key_at e c)) (records_of c)
      /\ Forall (fun r => ~ key_lt r.1 (key_at e c)) (flat_map records_of cs)
      /\ separated e cs
  end.

Fixpoint ordered (e : env) (s : shape) : Prop :=
  match s with
  | SLeaf _ _ => True
  | SNode _ cs =>
      keys_sorted (flat_map records_of cs)
      /\ (if forallb is_leaf cs then True else forallb (fun c => negb (is_leaf c)) cs = true /\ separated e cs)
      /\ (fix all cs := match cs with
                        | [] => True
                        | c :: cs => (ordered e c /\ records_of c <> []) /\ all cs
                        end) cs
  end.

Fixpoint height (s : shape) : nat :=
  match s with
  | SLeaf _ _ => 0
  | SNode _ cs => S (foldr (fun c m => Nat.max (height c) m) 0%nat cs)
  end.

Fixpoint widest (s : shape) : nat :=
  match s with
  | SLeaf _ _ => 0
  | SNode _ cs => Nat.max (length cs) (foldr (fun c m => Nat.max (widest c) m) 0%nat cs)
  end.

Definition has_key (k : bytes) (rs : list (bytes * bytes)) : Prop := Exists (fun r => r.1 = k) rs.

Lemma ordered_node (e : env) (n : positive) (cs : list shape) :
  ordered e (SNode n cs) ->
  keys_sorted (flat_map records_of cs)
  /\ (if forallb is_leaf cs then True else forallb (fun c => negb (is_leaf c)) cs = true /\ separated e cs)
  /\ forall c, In c cs -> ordered e c /\ records_of c <> [].
Proof.
  cbn [ordered]. intros (Hs & Hkind & Hall). split_and!; [done|done|].
  clear Hs Hkind. induction cs as [|c' cs IH]; [done|]. destruct Hall as [Hc Hall]. intros c [->|Hin]; [done|].
  by apply IH.
Qed.

Lemma siblings_child (e : env) (cs : list shape) (c : shape) : siblings e cs -> In c cs -> exists nxt, shown e c nxt.
Proof.
  induction cs as [|c' cs IH]; [done|]. cbn. intros [Hc Hcs] [->|Hin]; [by eexists|by apply IH].
Qed.

Lemma height_child (n : positive) (cs : list shape) (c : shape) : In c cs -> (height c < height (SNode n cs))%nat.
Proof.
  cbn [height]. induction cs as [|c' cs IH]; [done|]. cbn. intros [->|Hin]; [lia|]. specialize (IH Hin). lia.
Qed.

Lemma widest_child (n : positive) (cs : list shape) (c : shape) : In c cs -> (widest c <= widest (SNode n cs))%nat.
Proof.
  intros Hin. cbn [widest]. enough (widest c <= foldr (fun c m => Nat.max (widest c) m) 0%nat cs)%nat by lia. revert Hin.
  induction cs as [|c' cs IH]; [done|]. cbn. intros [->|Hin]; [lia|]. specialize (IH Hin). lia.
Qed.

(** *** Reading changes nothing of this *)

Lemma linked_same (e e' : env) n nxt x : same_trees e e' -> linked e n nxt x -> linked e' n nxt x.
Proof. intros (Hn & _ & _ & Hl). unfold linked. by rewrite Hn, Hl. Qed.

Lemma shown_same (e e' : env) (Hsame : same_trees e e') : forall s nxt, shown e s nxt -> shown e' s nxt.
Proof.
  fix IH 1. intros [n rs|n cs] nxt.
  - cbn [shown]. intros (x & pg & Hx & Hrest). exists x, pg. split; [by apply (linked_same e)|done].
  - rewrite !shown_node. intros [Hx Hcs]. split.
    + destruct Hx as (x & Hx & Hrest). exists x. split; [by apply (linked_same e)|done].
    + clear Hx. revert Hcs. induction cs as [|c cs IHcs]; [done|]. cbn. intros [Hc Hcs]. split; [by apply IH|by apply IHcs].
Qed.

Lemma siblings_same (e e' : env) cs : same_trees e e' -> siblings e cs -> siblings e' cs.
Proof.
  intros Hsame. induction cs as [|c cs IH]; [done|]. cbn. intros [Hc Hcs]. split; [by apply (shown_same e)|by apply IH].
Qed.

Lemma key_at_same (e e' : env) s : same_trees e e' -> key_at e' s = key_at e s.
Proof. intros (Hn & _). unfold key_at. by rewrite Hn. Qed.

Lemma separated_same (e e' : env) cs : same_trees e e' -> separated e cs -> separated e' cs.
Proof.
  intros Hsame. induction cs as [|c cs IH]; [done|]. cbn. rewrite (key_at_same e e' c Hsame). tauto.
Qed.

Lemma ordered_same (e e' : env) (Hsame : same_trees e e') : forall s, ordered e s -> ordered e' s.
Proof.
  fix IH 1. intros [n rs|n cs]; [done|]. cbn [ordered]. intros (Hs & Hkind & Hall). split_and!; [done| |].
  - destruct (forallb is_leaf cs); [done|]. destruct Hkind as [? ?]. split; [done|]. by apply (separated_same e).
  - clear Hs Hkind. induction cs as [|c cs IHcs]; [done|]. destruct Hall as [[Hc Hne] Hall]. split; [|by apply IHcs].
    split; [by apply IH|done].
Qed.

(** *** Single steps *)

Section steps.

Context {W : Waiting} (Hpatience : (0 < patience)%nat).

Lemma page_step (n : positive) (x : btree_node) (e : env) :
  nodes e !! n = Some x ->
  match seen_page x with
  | Some pg => exists p, effective_page n false e = Ret (Some p, e) /\ read_page p e = Ret (pg, e)
  | None => effective_page n false e = Ret (None, e)
  end.
Proof.
  intros Hx. unfold effective_page, seen_page. rewrite bind_op, (get_node_some n x e Hx). run.
  destruct (MemEnv.new_page x) as [pg|] eqn:Hp; [|destruct (page x) as [pg|] eqn:Hq; [|done]]; (eexists; split; [done|]);
    unfold read_page; rewrite bind_op, (get_node_some n x e Hx); run; unfold lift; by rewrite ?Hp, ?Hq.
Qed.

Lemma key_step (n : positive) (x : btree_node) (e : env) :
  nodes e !! n = Some x ->
  exists p k, effective_key n false e = Ret (p, e) /\ read_datum p e = Ret (k, e) /\ default [] k = seen_key x.
Proof.
  intros Hx. unfold effective_key, seen_key. rewrite bind_op, (get_node_some n x e Hx). run.
  destruct (new_key x) as [k|] eqn:Hk; eexists _, _; (split; [done|]); unfold read_datum;
    rewrite bind_op, (get_node_some n x e Hx); run; by rewrite ?Hk.
Qed.

Lemma header_step {A} (n : positive) (x : btree_node) (e : env) (k : btree_node_header -> tree_op A) :
  nodes e !! n = Some x -> (p ← effective_header n false; h ← read_header p; k h) e = k (seen_header x) e.
Proof.
  intros Hx. unfold effective_header, seen_header. rewrite !bind_op, (get_node_some n x e Hx). run.
  unfold mret, tree_op_ret. destruct (new_header x) as [h|] eqn:Hh; run; rewrite bind_op; unfold read_header;
    rewrite bind_op, (get_node_some n x e Hx); run; unfold lift; rewrite ?Hh; done.
Qed.

Lemma link_step (p : option positive) (t : positive) (e : env) :
  quiet t e -> (forall n, p = Some n -> is_Some (lock_table e !! n)) ->
  exists e', locked_link p t e = Ret ((p, false), e') /\ quiet t e' /\ read_frame t e e'.
Proof.
  intros Hq Hp. unfold locked_link. destruct p as [n|]; [|by exists e].
  destruct (lock_node_read Hpatience n t e Hq (Hp n eq_refl)) as (e' & Hrun & Hq' & Hf).
  exists e'. rewrite bind_op, Hrun. run. done.
Qed.

Lemma first_id_locked (e : env) (cs : list shape) n : siblings e cs -> first_id cs = Some n -> is_Some (lock_table e !! n).
Proof.
  destruct cs as [|c cs]; [done|]. cbn. intros [Hc _] [= <-]. destruct c as [m rs|m ds].
  - destruct Hc as (x & pg & (_ & Hl & _) & _). exact Hl.
  - apply shown_node in Hc as [(x & (_ & Hl & _) & _) _]. exact Hl.
Qed.

(** From a child to the next one. *)
Lemma next_step (c : shape) (cs : list shape) (t : positive) (e : env) :
  quiet t e -> siblings e (c :: cs) ->
  exists e', tx_next_sibling (node_id c) t e = Ret ((first_id cs, false), e') /\ quiet t e' /\ read_frame t e e'.
Proof.
  intros Hq [Hc Hcs]. assert (Hx : exists x, linked e (node_id c) (first_id cs) x).
  { destruct c as [n rs|n ds]; [by destruct Hc as (x & pg & Hx & _); exists x|].
    apply shown_node in Hc as [(x & Hx & _) _]. by exists x. }
  destruct Hx as (x & Hx & Hl & Hnext & _). unfold tx_next_sibling. rewrite (header_step _ x e _ Hx), Hnext.
  apply link_step; [done|]. intros n. by apply first_id_locked.
Qed.

Lemma first_step (n : positive) (cs : list shape) (nxt : option positive) (t : positive) (e : env) :
  quiet t e -> shown e (SNode n cs) nxt ->
  exists e', tx_first_child n t e = Ret ((first_id cs, false), e') /\ quiet t e' /\ read_frame t e e'.
Proof.
  intros Hq [(x & (Hx & _) & _ & Hfirst) Hcs]%shown_node. unfold tx_first_child.
  rewrite (header_step _ x e _ Hx), Hfirst. apply link_step; [done|]. intros m. by apply first_id_locked.
Qed.

End steps.

(** *** Comparing keys *)

Lemma s32_u64 (d : Z) : - 2 ^ 31 <= d < 2 ^ 31 -> s32 (u64 d) = d.
Proof. intros Hd. unfold signed, unsigned. Z.div_mod_to_equations. lia. Qed.

Lemma compare_datum_sign (a b : btree_datum) :
  Z.of_nat (length a) < 2 ^ 31 -> Z.of_nat (length b) < 2 ^ 31 ->
  (compare_datum a b <? 0) = (bytes_compare a b <? 0).
Proof.
  revert b. induction a as [|x a IH]; intros [|y b] Ha Hb; cbn [compare_datum bytes_compare].
  - done.
  - rewrite s32_u64 by (cbn [length] in *; lia). cbn [length]. apply Z.ltb_lt. lia.
  - rewrite s32_u64 by (cbn [length] in *; lia). cbn [length]. apply Z.ltb_ge. lia.
  - cbn [length] in *. unfold sign_compare. destruct (Z.ltb_spec x y), (Z.ltb_spec y x), (Z.eqb_spec x y); try lia; try done.
    apply IH; lia.
Qed.

Lemma key_lt_irrefl k : ~ key_lt k k.
Proof. unfold key_lt. rewrite bytes_compare_refl. lia. Qed.

Lemma key_lt_le_trans a b c : key_lt a b -> ~ key_lt c b -> key_lt a c.
Proof.
  unfold key_lt. intros H1 H2. assert (H3 : bytes_compare b c <= 0) by (rewrite bytes_compare_sym; lia).
  pose proof (bytes_compare_le_trans a b c ltac:(lia) H3).
  destruct (decide (bytes_compare a c = 0)) as [He|]; [|lia]. apply bytes_compare_eq in He as ->. lia.
Qed.

(** *** The choice among leaves *)

Definition first_key (rs : list (bytes * bytes)) : bytes := match rs with (k, _) :: _ => k | [] => [] end.

Fixpoint pick_leaf (k : bytes) (before : shape) (cs : list shape) : shape :=
  match cs with
  | [] => before
  | c :: cs => if 0 <? bytes_compare (first_key (records_of c)) k then before else pick_leaf k c cs
  end.

Lemma has_key_app k rs1 rs2 : has_key k (rs1 ++ rs2) <-> has_key k rs1 \/ has_key k rs2.
Proof. apply Exists_app. Qed.

Lemma sorted_app_inv rs1 rs2 :
  keys_sorted (rs1 ++ rs2) ->
  keys_sorted rs1 /\ keys_sorted rs2 /\ forall a b, a ∈ rs1 -> b ∈ rs2 -> key_lt a.1 b.1.
Proof.
  induction rs1 as [|r rs1 IH]; cbn [app]; intros Hs.
  - split; [constructor|]. split; [done|]. by intros a b ?%not_elem_of_nil.
  - apply StronglySorted_inv in Hs as [Hs Hall]. destruct (IH Hs) as (H1 & H2 & H12).
    rewrite Forall_forall in Hall. split_and!; [|done|].
    + constructor; [done|]. apply Forall_forall. intros a Ha. apply Hall, elem_of_app. by left.
    + intros a b [->|Ha]%elem_of_cons Hb; [apply Hall, elem_of_app; by right|by apply H12].
Qed.

Lemma sorted_head_least rs1 rs2 r :
  keys_sorted (rs1 ++ rs2) -> rs1 <> [] -> r ∈ rs1 ++ rs2 -> ~ key_lt r.1 (first_key rs1).
Proof.
  intros Hs Hne Hr. destruct rs1 as [|[k v] rs1]; [done|]. cbn [first_key].
  apply elem_of_cons in Hr as [->|Hr]; [apply key_lt_irrefl|]. apply StronglySorted_inv in Hs as [_ Hall].
  rewrite Forall_forall in Hall. specialize (Hall r Hr). cbn in Hall. intros Hlt.
  by apply (key_lt_irrefl k), (key_lt_trans k r.1 k).
Qed.

(** If any of the leaves has the key, the one that is picked has it. *)
Lemma pick_leaf_spec (k : bytes) (cs : list shape) : forall before,
  keys_sorted (records_of before ++ flat_map records_of cs) ->
  (forall c, In c cs -> records_of c <> []) ->
  (pick_leaf k before cs = before \/ In (pick_leaf k before cs) cs)
  /\ (has_key k (records_of before ++ flat_map records_of cs) -> has_key k (records_of (pick_leaf k before cs))).
Proof.
  induction cs as [|c cs IH]; intros before Hs Hne; cbn [pick_leaf flat_map].
  { split; [by left|]. cbn. by rewrite app_nil_r. }
  cbn [flat_map] in Hs. destruct (sorted_app_inv _ _ Hs) as (_ & Hs2 & H12).
  pose proof (Hne c ltac:(by left)) as Hc.
  destruct (Z.ltb_spec 0 (bytes_compare (first_key (records_of c)) k)) as [Hgt|Hle].
  - split; [by left|]. intros [H|H]%has_key_app; [done|]. exfalso.
    apply Exists_exists in H as (r & Hr & <-). apply (sorted_head_least _ _ r Hs2 Hc Hr).
    unfold key_lt. rewrite bytes_compare_sym. lia.
  - destruct (IH c Hs2) as [Hin Hhas]; [intros d Hd; apply Hne; by right|]. split.
    + right. destruct Hin as [->|?]; [by left|by right].
    + intros [H|H]%has_key_app; [|by apply Hhas]. exfalso. apply Exists_exists in H as (r & Hr & <-).
      destruct (records_of c) as [|[k' v'] rs] eqn:Hrc; [done|]. cbn [first_key] in Hle.
      specialize (H12 r (k', v') Hr). cbn in H12. rewrite bytes_compare_sym in Hle.
      assert (key_lt r.1 k') by (apply H12; left). unfold key_lt in *. lia.
Qed.

(** *** The choice among nodes *)

Fixpoint pick_child (e : env) (k : bytes) (cs : list shape) : option shape :=
  match cs with
  | [] => None
  | c :: cs => if bytes_compare k (key_at e c) <? 0 then Some c else pick_child e k cs
  end.

Lemma pick_child_some (e : env) (k : bytes) (cs : list shape) (c : shape) :
  separated e cs -> pick_child e k cs = Some c ->
  In c cs /\ (has_key k (flat_map records_of cs) -> has_key k (records_of c)).
Proof.
  induction cs as [|d cs IH]; [done|]. cbn [pick_child separated flat_map]. intros (Hlo & Hhi & Hsep).
  destruct (Z.ltb_spec (bytes_compare k (key_at e d)) 0) as [Hlt|Hge].
  - intros [= <-]. split; [by left|]. intros [H|H]%has_key_app; [done|]. exfalso.
    apply Exists_exists in H as (r & Hr & <-). rewrite Forall_forall in Hhi. by apply (Hhi r Hr).
  - intros Hpick. destruct (IH Hsep Hpick) as [Hin Hhas]. split; [by right|].
    intros [H|H]%has_key_app; [|by apply Hhas]. exfalso. apply Exists_exists in H as (r & Hr & <-).
    rewrite Forall_forall in Hlo. specialize (Hlo r Hr). unfold key_lt in Hlo. lia.
Qed.

Lemma pick_child_none (e : env) (k : bytes) (cs : list shape) :
  separated e cs -> pick_child e k cs = None -> ~ has_key k (flat_map records_of cs).
Proof.
  induction cs as [|d cs IH]; cbn [pick_child separated flat_map].
  - intros _ _ H. by apply Exists_nil in H.
  - intros (Hlo & _ & Hsep). destruct (Z.ltb_spec (bytes_compare k (key_at e d)) 0) as [Hlt|Hge]; [done|].
    intros Hpick [H|H]%has_key_app; [|by apply (IH Hsep Hpick)]. apply Exists_exists in H as (r & Hr & <-).
    rewrite Forall_forall in Hlo. specialize (Hlo r Hr). unfold key_lt in Hlo. lia.
Qed.

(** ** The search *)

Section search.

Context {W : Waiting} (Hpatience : (0 < patience)%nat) (t : positive) (k : bytes).
Context (Hlong : Z.of_nat (length k) < 2 ^ 31).

(** One leaf of a scan. *)
Lemma scan_leaf_step (fuel : nat) (n : positive) (rs : list (bytes * bytes)) (cs : list shape) prev b e :
  quiet t e -> siblings e (SLeaf n rs :: cs) -> rs <> [] ->
  if 0 <? bytes_compare (first_key rs) k
  then scan (S fuel) k (Some n) prev b t e = Ret (ScanLeaf (default n prev), e)
  else exists e', scan (S fuel) k (Some n) prev b t e = scan fuel k (first_id cs) (Some n) true t e'
         /\ quiet t e' /\ read_frame t e e'.
Proof.
  intros Hq Hsib Hne. destruct (next_step Hpatience (SLeaf n rs) cs t e Hq Hsib) as (e' & Hnext & Hq' & Hf).
  destruct Hsib as [(x & pg & (Hx & _) & Hpg & Hholds) _]. pose proof (page_step n x e Hx) as Hp. rewrite Hpg in Hp.
  destruct Hp as (p & Hp & Hread). cbn [scan]. rewrite bind_op, Hp. run. rewrite bind_op, Hread. run. rewrite bind_op.
  destruct rs as [|[k0 v0] rs]; [done|]. cbn [first_key].
  pose proof (compare_at pg [] rs k0 v0 k Hholds) as Hcmp. change (size_of []) with 0 in Hcmp. rewrite Hcmp.
  unfold lift. run. destruct (0 <? bytes_compare k0 k); [by destruct prev|].
  exists e'. split; [|done]. cbn [node_id] in Hnext. rewrite bind_op, Hnext. run. done.
Qed.

Lemma scan_leaves (cs : list shape) : forall fuel before e,
  (length cs < fuel)%nat -> quiet t e -> siblings e cs -> forallb is_leaf cs = true ->
  (forall c, In c cs -> records_of c <> []) ->
  exists r e', scan fuel k (first_id cs) (Some (node_id before)) true t e = Ret (r, e') /\ quiet t e' /\ read_frame t e e'
    /\ (r = ScanLeaf (node_id (pick_leaf k before cs)) \/ r = ScanEnd (Some (node_id (pick_leaf k before cs))) true).
Proof.
  induction cs as [|c cs IH]; intros fuel before e Hfuel Hq Hsib Hleaf Hne; (destruct fuel as [|fuel]; [cbn in Hfuel; lia|]).
  { eexists _, e. split; [done|]. split; [done|]. split; [done|]. by right. }
  cbn [forallb] in Hleaf. apply andb_true_iff in Hleaf as [Hc Hleaf]. destruct c as [n rs|]; [|done].
  pose proof (scan_leaf_step fuel n rs cs (Some (node_id before)) true e Hq Hsib (Hne _ ltac:(by left))) as Hstep.
  cbn [first_id head fmap option_fmap option_map node_id pick_leaf records_of].
  destruct (0 <? bytes_compare (first_key rs) k).
  - eexists _, e. split; [exact Hstep|]. split; [done|]. split; [done|]. by left.
  - destruct Hstep as (e1 & Hrun & Hq1 & Hf1).
    destruct (IH fuel (SLeaf n rs) e1) as (r & e2 & Hrun2 & Hq2 & Hf2 & Hr).
    + cbn in Hfuel. lia.
    + done.
    + apply (siblings_same e); [apply Hf1|apply Hsib].
    + done.
    + intros d Hd. apply Hne. by right.
    + exists r, e2. split; [etrans; [exact Hrun|exact Hrun2]|]. split; [done|]. split; [by etrans|done].
Qed.

(** From the first leaf on. *)
Lemma scan_leaves_all (c : shape) (cs : list shape) (fuel : nat) (e : env) :
  (length (c :: cs) < fuel)%nat -> quiet t e -> siblings e (c :: cs) -> forallb is_leaf (c :: cs) = true ->
  keys_sorted (flat_map records_of (c :: cs)) -> (forall d, In d (c :: cs) -> records_of d <> []) ->
  exists r e' d, scan fuel k (first_id (c :: cs)) None false t e = Ret (r, e') /\ quiet t e' /\ read_frame t e e'
    /\ (r = ScanLeaf (node_id d) \/ r = ScanEnd (Some (node_id d)) true) /\ In d (c :: cs)
    /\ (has_key k (flat_map records_of (c :: cs)) -> has_key k (records_of d)).
Proof.
  intros Hfuel Hq Hsib Hleaf Hsorted Hne. destruct fuel as [|fuel]; [cbn in Hfuel; lia|].
  pose proof Hleaf as [Hc Hleaf']%andb_true_iff. destruct c as [n rs|]; [|done].
  pose proof (Hne _ ltac:(by left)) as Hrs.
  pose proof (scan_leaf_step fuel n rs cs None false e Hq Hsib Hrs) as Hstep.
  cbn [first_id head fmap option_fmap option_map node_id].
  destruct (Z.ltb_spec 0 (bytes_compare (first_key rs) k)) as [Hgt|Hle].
  - eexists _, e, (SLeaf n rs). split; [exact Hstep|]. split; [done|]. split; [done|]. split; [by left|].
    split; [by left|]. intros H. exfalso. apply Exists_exists in H as (r & Hr & <-).
    apply (sorted_head_least rs (flat_map records_of cs) r Hsorted Hrs Hr). unfold key_lt. rewrite bytes_compare_sym. lia.
  - destruct Hstep as (e1 & Hrun & Hq1 & Hf1).
    destruct (scan_leaves cs fuel (SLeaf n rs) e1) as (r & e2 & Hrun2 & Hq2 & Hf2 & Hr).
    + cbn in Hfuel. lia.
    + done.
    + apply (siblings_same e); [apply Hf1|apply Hsib].
    + done.
    + intros d Hd. apply Hne. by right.
    + destruct (pick_leaf_spec k cs (SLeaf n rs) Hsorted) as [Hin Hhas]; [intros d Hd; apply Hne; by right|].
      exists r, e2, (pick_leaf k (SLeaf n rs) cs). split; [etrans; [exact Hrun|exact Hrun2]|].
      split; [done|]. split; [by etrans|]. split; [done|]. split; [|exact Hhas].
      destruct Hin as [->|?]; [by left|by right].
Qed.

(** The children of a node that are nodes. *)
Lemma scan_children (cs : list shape) : forall fuel prev b e,
  (length cs < fuel)%nat -> quiet t e -> siblings e cs -> forallb (fun c => negb (is_leaf c)) cs = true ->
  exists e', scan fuel k (first_id cs) prev b t e
      = Ret (match pick_child e k cs with
             | Some c => ScanChild (node_id c)
             | None => ScanEnd (match last cs with Some d => Some (node_id d) | None => prev end) b
             end, e')
    /\ quiet t e' /\ read_frame t e e'.
Proof.
  induction cs as [|c cs IH]; intros fuel prev b e Hfuel Hq Hsib Hnode; (destruct fuel as [|fuel]; [cbn in Hfuel; lia|]).
  { by exists e. }
  apply andb_true_iff in Hnode as [Hc Hnode]. destruct c as [|n ds]; [done|].
  destruct (next_step Hpatience (SNode n ds) cs t e Hq Hsib) as (e1 & Hnext & Hq1 & Hf1).
  pose proof Hsib as [[(x & (Hx & _ & _ & Hshort) & Hpg & _) _]%shown_node Hcs].
  pose proof (page_step n x e Hx) as Hp. rewrite Hpg in Hp.
  destruct (key_step n x e Hx) as (p & key & Hkp & Hread & Hkey).
  assert (Hat : key_at e (SNode n ds) = seen_key x) by (unfold key_at; cbn [node_id]; by rewrite Hx).
  cbn [scan first_id head fmap option_fmap option_map node_id pick_child]. rewrite bind_op, Hp. run.
  rewrite bind_op, Hkp. run. rewrite bind_op, Hread. run. rewrite Hkey, Hat, compare_datum_sign by done.
  destruct (bytes_compare k (seen_key x) <? 0); [by exists e|]. cbn [node_id] in Hnext. rewrite bind_op, Hnext. run.
  destruct (IH fuel (Some n) b e1) as (e2 & Hrun & Hq2 & Hf2).
  - cbn in Hfuel. lia.
  - done.
  - apply (siblings_same e); [apply Hf1|apply Hsib].
  - done.
  - exists e2. rewrite Hrun. split; [|split; [done|by etrans]]. f_equal. f_equal.
    assert (Hpick : pick_child e1 k cs = pick_child e k cs).
    { clear -Hf1. induction cs as [|d cs IH]; [done|]. cbn [pick_child]. rewrite (key_at_same e e1 d) by apply Hf1. by rewrite IH. }
    rewrite Hpick. destruct (pick_child e k cs); [done|]. rewrite last_cons. by destruct (last cs).
Qed.

Lemma child_records (cs : list shape) (c : shape) r : In c cs -> r ∈ records_of c -> r ∈ flat_map records_of cs.
Proof.
  induction cs as [|d cs IH]; [done|]. cbn [flat_map]. intros [->|Hin] Hr; apply elem_of_app; [by left|right; by apply IH].
Qed.

Lemma child_sorted (cs : list shape) (c : shape) :
  keys_sorted (flat_map records_of cs) -> In c cs -> keys_sorted (records_of c).
Proof.
  induction cs as [|d cs IH]; [done|]. cbn [flat_map]. intros (H1 & H2 & _)%sorted_app_inv [->|Hin]; [done|by apply IH].
Qed.

Lemma children_nodes (cs : list shape) : forallb is_leaf cs = false ->
  forallb (fun c => negb (is_leaf c)) cs = true -> forall c, In c cs -> exists n ds, c = SNode n ds.
Proof.
  intros _ Hall c Hin. rewrite forallb_forall in Hall. specialize (Hall c Hin). destruct c; [done|eauto].
Qed.

(** The search ends in a leaf that has the key if any has, or in the root if none has. *)
Lemma search_descent_spec (fuel : nat) : forall n cs nxt is_root e,
  (height (SNode n cs) <= fuel)%nat -> (widest (SNode n cs) < steps)%nat ->
  quiet t e -> shown e (SNode n cs) nxt -> ordered e (SNode n cs) -> is_root = true \/ cs <> [] ->
  exists m e', search_loop fuel k (Some n) is_root t e = Ret (Some m, e') /\ quiet t e' /\ read_frame t e e'
    /\ ((exists rs nxt', shown e (SLeaf m rs) nxt' /\ keys_sorted rs
           /\ (has_key k (flat_map records_of cs) -> has_key k rs) /\ (forall r, r ∈ rs -> r ∈ flat_map records_of cs))
        \/ is_root = true /\ m = n /\ ~ has_key k (flat_map records_of cs)).
Proof.
  induction fuel as [|fuel IH]; intros n cs nxt is_root e Hheight Hwide Hq Hshown Hord Hroot.
  { cbn in Hheight. lia. }
  destruct (ordered_node _ _ _ Hord) as (Hsorted & Hkind & Hchild).
  pose proof Hshown as [_ Hsib]%shown_node.
  destruct (first_step Hpatience n cs nxt t e Hq Hshown) as (e1 & Hfirst & Hq1 & Hf1).
  assert (Hsib1 : siblings e1 cs) by (apply (siblings_same e); [apply Hf1|done]).
  assert (Hlen : (length cs < steps)%nat) by (cbn [widest] in Hwide; lia).
  cbn [search_loop]. rewrite bind_op, Hfirst. run. rewrite bind_op.
  destruct cs as [|c cs'].
  { destruct Hroot as [->|?]; [|done]. destruct steps as [|st] eqn:Hst; [lia|]. cbn [scan first_id head fmap option_fmap option_map]. run.
    exists n, e1. split; [done|]. split; [done|]. split; [done|]. right. split_and!; [done|done|]. intros H. by apply Exists_nil in H. }
  destruct (forallb is_leaf (c :: cs')) eqn:Hleaf.
  - destruct (scan_leaves_all c cs' steps e1 Hlen Hq1 Hsib1 Hleaf Hsorted) as (r & e2 & d & Hrun & Hq2 & Hf2 & Hr & Hin & Hhas).
    { intros d Hd. by apply Hchild. }
    rewrite Hrun. run. exists (node_id d), e2.
    split; [by destruct Hr as [-> | ->]|]. split; [done|]. split; [by etrans|]. left.
    rewrite forallb_forall in Hleaf. pose proof (Hleaf d Hin) as Hd. destruct d as [m rs|]; [|done].
    destruct (siblings_child e _ _ Hsib Hin) as [nxt' Hs]. exists rs, nxt'. split; [done|].
    split; [by apply (child_sorted _ _ Hsorted Hin)|]. split; [done|]. intros r0 Hr0. by apply (child_records _ _ _ Hin).
  - destruct Hkind as [Hnodes Hsep].
    assert (Hdown : forall d e2, In d (c :: cs') -> quiet t e2 -> read_frame t e e2 ->
      exists m e', search_loop fuel k (Some (node_id d)) false t e2 = Ret (Some m, e') /\ quiet t e' /\ read_frame t e e'
        /\ exists rs nxt', shown e (SLeaf m rs) nxt' /\ keys_sorted rs
             /\ (has_key k (records_of d) -> has_key k rs)
             /\ (forall r, r ∈ rs -> r ∈ flat_map records_of (c :: cs'))).
    { intros d e2 Hin Hq2 Hf2. destruct (children_nodes _ Hleaf Hnodes d Hin) as (p & ds & ->).
      destruct (siblings_child e _ _ Hsib Hin) as [nxt' Hs]. destruct (Hchild _ Hin) as [Ho Hne].
      pose proof (height_child n _ _ Hin). pose proof (widest_child n _ _ Hin).
      destruct (IH p ds nxt' false e2) as (m & e3 & Hrun & Hq3 & Hf3 & Hres).
      - lia.
      - lia.
      - done.
      - apply (shown_same e); [apply Hf2|done].
      - apply (ordered_same e); [apply Hf2|done].
      - right. by intros ->.
      - exists m, e3. split; [done|]. split; [done|]. split; [by etrans|].
        destruct Hres as [(rs & nxt'' & Hsh & Hsrt & Hhas & Hsub)|[? _]]; [|done].
        exists rs, nxt''. split.
        + apply (shown_same e2); [|done]. destruct Hf2 as [(?&?&?&?) _]. by repeat split.
        + split; [done|]. split; [done|]. intros r Hr. apply (child_records _ _ _ Hin), Hsub, Hr. }
    destruct (scan_children (c :: cs') steps None false e1 Hlen Hq1 Hsib1 Hnodes) as (e2 & Hrun & Hq2 & Hf2).
    assert (Hsep1 : separated e1 (c :: cs')) by (apply (separated_same e); [apply Hf1|done]).
    rewrite Hrun. run. destruct (pick_child e1 k (c :: cs')) as [d|] eqn:Hpick.
    + destruct (pick_child_some e1 k _ d Hsep1 Hpick) as [Hin Hhas].
      destruct (Hdown d e2 Hin Hq2) as (m & e3 & Hrun3 & Hq3 & Hf3 & rs & nxt' & Hsh & Hsrt & Hk & Hsub); [by etrans|].
      exists m, e3. split; [done|]. split; [done|]. split; [done|]. left. exists rs, nxt'. split_and!; [done|done|by intros ?%Hhas%Hk|done].
    + pose proof (pick_child_none e1 k _ Hsep1 Hpick) as Hno.
      destruct is_root.
      { exists n, e2. split; [done|]. split; [done|]. split; [by etrans|]. right. done. }
      destruct (last (c :: cs')) as [d|] eqn:Hlast; [|by apply last_None in Hlast].
      apply last_Some_elem_of in Hlast as Hin. apply list_elem_of_In in Hin.
      destruct (Hdown d e2 Hin Hq2) as (m & e3 & Hrun3 & Hq3 & Hf3 & rs & nxt' & Hsh & Hsrt & Hk & Hsub); [by etrans|].
      exists m, e3. split; [done|]. split; [done|]. split; [done|]. left. exists rs, nxt'. split_and!; [done|done|tauto|done].
Qed.

Lemma lookup_in rs v : keys_sorted rs -> records_lookup k rs = Some v <-> (k, v) ∈ rs.
Proof.
  induction 1 as [|[k' v'] rs Hs IH Hall]; [split; [done|by intros ?%not_elem_of_nil]|]. cbn [records_lookup].
  rewrite elem_of_cons. destruct (decide (k = k')) as [<-|Hne].
  - split; [intros [= ->]; by left|]. intros [[= ->]|Hin]; [done|]. exfalso. rewrite Forall_forall in Hall.
    by apply (key_lt_irrefl k), (Hall (k, v) Hin).
  - rewrite IH. split; [by right|]. by intros [[= ? ?]|?].
Qed.

Lemma has_key_in rs : has_key k rs <-> exists v, (k, v) ∈ rs.
Proof.
  unfold has_key. rewrite Exists_exists. split; [|intros [v Hv]; by exists (k, v)].
  intros ([k' v] & Hin & Hk). cbn in Hk. subst. by exists v.
Qed.

(** The records of the leaf answer as all records do. *)
Lemma lookup_leaf rs all :
  keys_sorted rs -> keys_sorted all -> (has_key k all -> has_key k rs) -> (forall r, r ∈ rs -> r ∈ all) ->
  records_lookup k rs = records_lookup k all.
Proof.
  intros H1 H2 Hhas Hsub. destruct (records_lookup k all) as [v|] eqn:Hall.
  - apply lookup_in in Hall as Hin; [|done]. destruct (proj1 (has_key_in rs)) as [v' Hv'].
    { apply Hhas, has_key_in. by exists v. }
    pose proof (proj2 (lookup_in all v' H2) (Hsub _ Hv')) as Heq. rewrite Hall in Heq. injection Heq as ->.
    by apply lookup_in.
  - destruct (records_lookup k rs) as [v|] eqn:Hrs; [|done]. apply lookup_in in Hrs; [|done].
    apply Hsub, lookup_in in Hrs; [|done]. congruence.
Qed.

(** The root of a tree as the transaction sees it. *)
Definition root_is (e : env) (b n : positive) : Prop :=
  exists bt, trees e !! b = Some bt /\ is_Some (locks e !! tree_lock bt)
    /\ match new_root bt with
       | Some r => if locked_for_write r t e then r else root bt
       | None => root bt
       end = n.

Lemma locked_for_write_face (e e' : env) n : read_frame t e e' -> locked_for_write n t e' = locked_for_write n t e.
Proof.
  intros ((_ & _ & _ & Htab) & Hface & _). unfold locked_for_write. rewrite Htab. destruct (lock_table e !! n) as [l|]; [|done].
  specialize (Hface l). destruct (locks e !! l) as [lk|], (locks e' !! l) as [lk'|]; try done.
  cbn in Hface. injection Hface as Hw _. by rewrite Hw.
Qed.

Lemma tx_root_run (b n : positive) (e : env) :
  quiet t e -> root_is e b n -> is_Some (lock_table e !! n) ->
  exists e', tx_root b t e = Ret (Some n, e') /\ quiet t e' /\ read_frame t e e'.
Proof.
  intros Hq (bt & Hbt & Hlk & Hroot) Hl. unfold tx_root, get_tree, lock. rewrite bind_op, look_run, Hbt. run. rewrite bind_op.
  destruct (tx_lock_read Hpatience (tree_lock bt) t e Hq Hlk) as (e1 & -> & Hq1 & Hf1). run. cbn [negb].
  pose proof Hf1 as ((_ & Ht1 & _ & Htab1) & _). rewrite bind_op, look_run, Ht1, Hbt. run. rewrite bind_op, look_run. run.
  assert (Hread : root bt = n -> exists e', (locked ← locks_node (root bt) t false;
      if locked : bool then bt ← look (fun e => deref (trees e !! b)); mret (Some (root bt)) else mret None) e1
      = Ret (Some n, e') /\ quiet t e' /\ read_frame t e e').
  { intros Hn. rewrite Hn. destruct (lock_node_read Hpatience n t e1 Hq1) as (e2 & Hrun & Hq2 & Hf2); [by rewrite Htab1|].
    pose proof Hf2 as ((_ & Ht2 & _) & _). exists e2. rewrite bind_op. unfold locks_node. rewrite bind_op, Hrun. run.
    unfold mret, tree_op_ret. run. rewrite bool_decide_eq_true_2 by done. rewrite bind_op, look_run, Ht2, Ht1, Hbt. run.
    rewrite Hn. split; [done|]. split; [done|by etrans]. }
  destruct (new_root bt) as [r|].
  - rewrite (locked_for_write_face e e1 r Hf1). destruct (locked_for_write r t e); [|by apply Hread].
    subst r. by exists e1.
  - by apply Hread.
Qed.

Lemma check_tx_run (tx : storage_transaction) (e : env) :
  txn tx = t -> tx_doomed tx = false -> check_tx_timeout t e = true -> check_tx tx e = Ret ((true, tx), e).
Proof. intros Htx Hd Htime. unfold check_tx. by rewrite Hd, bind_op, look_run, Htx, Htime. Qed.

(** C15. In a tree that nobody else writes, whose records are in order and whose inner
    nodes have keys between those of their children, a transaction that has time gets the
    value of a key of which no proper prefix is a key of the tree, or nothing if no record
    has it.  With a stored proper prefix it may find nothing for a key that is there
    ([MemDefects.put_is_not_found]). *)
Theorem get_finds (tx : storage_transaction) (b n : positive) (cs : list shape) (nxt : option positive) (e : env) :
  txn tx = t -> tx_doomed tx = false -> quiet t e -> root_is e b n ->
  shown e (SNode n cs) nxt -> ordered e (SNode n cs) ->
  (height (SNode n cs) <= steps)%nat -> (widest (SNode n cs) < steps)%nat ->
  Forall (fun r => ~ (r.1 `prefix_of` k /\ r.1 <> k)) (flat_map records_of cs) ->
  exists e', transaction_get tx b k e = Ret ((records_lookup k (flat_map records_of cs), tx), e')
    /\ quiet t e' /\ nodes e' = nodes e /\ trees e' = trees e.
Proof.
  intros Htx Hdoomed Hq Hroot Hshown Hord Hheight Hwide Hprefix.
  pose proof Hshown as [(x & (Hx & Hl & _) & Hpage & _) _]%shown_node.
  destruct (ordered_node _ _ _ Hord) as (Hsorted & _).
  destruct (tx_root_run b n e Hq Hroot Hl) as (e1 & Hrun1 & Hq1 & Hf1).
  destruct (search_descent_spec steps n cs nxt true e1 Hheight Hwide Hq1) as (m & e2 & Hrun2 & Hq2 & Hf2 & Hres).
  { apply (shown_same e); [apply Hf1|done]. }
  { apply (ordered_same e); [apply Hf1|done]. }
  { by left. }
  assert (Hf : read_frame t e e2) by by etrans. pose proof Hf as ((Hn & Ht & _ & _) & _).
  exists e2. enough (transaction_get tx b k e = Ret ((records_lookup k (flat_map records_of cs), tx), e2)) by done.
  unfold transaction_get. rewrite bind_op, (check_tx_run tx e Htx Hdoomed (quiet_time _ _ Hq)). run. cbn [negb].
  unfold get_internal, search. rewrite Htx, bind_op, bind_op, Hrun1. run. rewrite Hrun2. run. rewrite bind_op.
  change ((mret true : tree_op bool) e2) with (Ret (true, e2)). run. cbn [negb].
  rewrite bind_op. destruct Hres as [(rs & nxt' & (y & pg & (Hy & _) & Hpg & Hholds) & Hrs & Hhas & Hsub)|(_ & -> & Hno)].
  - rewrite <- (lookup_leaf rs (flat_map records_of cs)) by done.
    assert (Hy2 : nodes e2 !! m = Some y).
    { rewrite Hn. destruct Hf1 as ((Hn1 & _) & _). by rewrite <- Hn1. }
    pose proof (page_step m y e2 Hy2) as Hp. rewrite Hpg in Hp. destruct Hp as (p & -> & Hread). run.
    rewrite bind_op, Hread. run. rewrite bind_op. rewrite (lookup_page_value_spec pg k rs Hholds Hrs).
    unfold lift. run. rewrite decide_False; [done|]. intros (r & Hr & Hpre)%Exists_exists.
    rewrite Forall_forall in Hprefix. by apply (Hprefix r); [apply Hsub|].
  - assert (Hx2 : nodes e2 !! n = Some x) by by rewrite Hn.
    pose proof (page_step n x e2 Hx2) as Hp. rewrite Hpage in Hp. rewrite Hp. run.
    destruct (records_lookup k (flat_map records_of cs)) as [v|] eqn:Hv; [|done].
    apply lookup_in in Hv; [|done]. exfalso. apply Hno, has_key_in. by exists v.
Qed.

End search.

(** ** An example: a root with two leaves *)

Definition sample_store : env :=
  match (b ← create_btree; tx ← transaction_begin;
         tx ← @transaction_put alone tx b [1] (replicate 3000 7);
         tx ← @transaction_put alone tx b [2] (replicate 2000 8);
         tx ← @transaction_put alone tx b [3] [9];
         _ ← transaction_commit tx; transaction_begin) (create_btree_environment 0) with
  | Ret (_, e) => e
  | _ => create_btree_environment 0
  end.

Definition quiet_check (t : positive) (e : env) : bool :=
  lock_check e && bool_decide (t ∈ transactions e) && bool_decide (waiting_to_read (tx_of e t) = None)
  && bool_decide (waiting_to_write (tx_of e t) = None) && check_tx_timeout t e
  && bool_decide (map_Forall (fun _ lk => writer lk = None \/ writer lk = Some t) (locks e))
  && bool_decide (map_Forall (fun _ l => 1 <= default 0 (ref_count <$> locks e !! l)) (lock_table e)).

Lemma quiet_check_spec (t : positive) (e : env) : quiet_check t e = true -> quiet t e.
Proof.
  unfold quiet_check. rewrite !andb_true_iff, !bool_decide_eq_true. intros [[[[[[H1 H2] H3] H4] H5] H6] H7].
  split; [split; [by apply lock_check_inv|done]|done|exact H6|].
  intros n l Hl. specialize (H7 n l Hl). cbn in H7. destruct (locks e !! l) as [lk|]; cbn in H7; [|lia]. by exists lk.
Qed.

Definition page_check (pg : btree_page) (rs : list (bytes * bytes)) : bool :=
  bool_decide (page_data pg = encode_records rs ++ drop (length (encode_records rs)) (page_data pg))
  && (page_size pg =? size_of rs) && (Z.of_nat (length (page_data pg)) =? MAX_PAGE_SIZE).

Lemma page_check_spec (pg : btree_page) (rs : list (bytes * bytes)) : page_check pg rs = true -> page_holds pg rs.
Proof.
  unfold page_check. rewrite !andb_true_iff, bool_decide_eq_true, !Z.eqb_eq. intros [[H1 H2] H3].
  split; [by eexists|done|done].
Qed.

Definition leaf_check (e : env) (n : positive) (rs : list (bytes * bytes)) (nxt : option positive) : bool :=
  match nodes e !! n with
  | Some x =>
      bool_decide (is_Some (lock_table e !! n)) && bool_decide (next (seen_header x) = nxt)
      && (Z.of_nat (length (seen_key x)) <? 2 ^ 31)
      && match seen_page x with Some pg => page_check pg rs | None => false end
  | None => false
  end.

Lemma leaf_check_spec e n rs nxt : leaf_check e n rs nxt = true -> shown e (SLeaf n rs) nxt.
Proof.
  unfold leaf_check. destruct (nodes e !! n) as [x|] eqn:Hx; [|done].
  rewrite !andb_true_iff, !bool_decide_eq_true, Z.ltb_lt. intros [[[H1 H2] H3] H4].
  destruct (seen_page x) as [pg|] eqn:Hpg; [|done]. exists x, pg. split; [by split|]. split; [done|]. by apply page_check_spec.
Qed.

Lemma get_finds_witness :
  exists tx e', transaction_get (W := alone) tx 1 [3] sample_store = Ret ((Some [9], tx), e') /\ nodes e' = nodes sample_store.
Proof.
  destruct (get_finds (W := alone) ltac:(cbn; lia) 1 [3] ltac:(cbn; lia) (StorageTransaction 1 false false) 1 1
    [SLeaf 2 [([1], replicate 3000 7)]; SLeaf 3 [([2], replicate 2000 8); ([3], [9])]] None sample_store)
    as (e' & Hrun & _ & Hn & _).
  - reflexivity.
  - reflexivity.
  - apply quiet_check_spec. vm_compute. reflexivity.
  - eexists. split; [vm_compute; reflexivity|]. split; [eexists; vm_compute; reflexivity|vm_compute; reflexivity].
  - apply shown_node. split.
    + eexists. split; [split; [vm_compute; reflexivity|]; split; [eexists; vm_compute; reflexivity|];
        split; [vm_compute; reflexivity|vm_compute; reflexivity]|]. split; vm_compute; reflexivity.
    + split; [apply leaf_check_spec; vm_compute; reflexivity|].
      split; [apply leaf_check_spec; vm_compute; reflexivity|exact I].
  - split; [repeat constructor|]. split; [exact I|]. repeat split; discriminate.
  - apply (bool_decide_unpack _). vm_compute. exact I.
  - apply (bool_decide_unpack _). vm_compute. exact I.
  - apply Forall_forall. intros r Hr [Hpre Hne]. cbn [flat_map records_of app] in Hr. rewrite !elem_of_cons in Hr.
    destruct Hr as [->|[->|[->|[]%not_elem_of_nil]]]; cbn [fst] in *; [| |by apply Hne];
      destruct Hpre as [suf Hs]; discriminate.
  - exists (StorageTransaction 1 false false), e'. split; [exact Hrun|exact Hn].
Defined.
