(* ===== verification/MemDefects.v ===== *)
(** * Runs of the in-memory storage engine that go wrong (storage-mem.c)

    Programs over the storage interface, run by one transaction after the other, on which
    the engine does not keep the laws that its callers rely on. *)

From S2P Require Import Prelude.
From S2P Require Import Storage.
From S2P Require Import MemPage.
From S2P Require Import MemEnv.
From S2P Require Import MemLock.
From S2P Require Import MemTree.
From S2P Require Import MemOps.
From S2P Require Import MemDurable.

Local Open Scope Z_scope.

(** ** Programs *)

#[local] Existing Instance alone.

Definition numbered (i : Z) : bytes := [Z.shiftr i 8; Z.land i 255].

(** Two records of this size fill a page. *)
Definition large : bytes := replicate 1500 7.

Fixpoint put_all (n : nat) (i : Z) (tx : storage_transaction) (b : positive) : tree_op storage_transaction :=
  match n with
  | O => mret tx
  | S n => tx ← transaction_put tx b (numbered i) large; put_all n (i + 1) tx b
  end.

Fixpoint delete_all (n : nat) (i : Z) (tx : storage_transaction) (b : positive) : tree_op (list Z) :=
  match n with
  | O => mret []
  | S n => '(r, tx) ← transaction_delete tx b (numbered i); rs ← delete_all n (i + 1) tx b; mret (r :: rs)
  end.

(** Which keys have a value. *)
Fixpoint found_all (n : nat) (i : Z) (tx : storage_transaction) (b : positive) : tree_op (list bool) :=
  match n with
  | O => mret []
  | S n =>
      '(v, tx) ← transaction_get tx b (numbered i);
      rs ← found_all n (i + 1) tx b;
      mret (match v with Some _ => true | None => false end :: rs)
  end.

Fixpoint keys_after (n : nat) (key : bytes) (tx : storage_transaction) (b : positive) : tree_op (list bytes) :=
  match n with
  | O => mret []
  | S n =>
      '(k, tx) ← transaction_next_key tx b key;
      match k with
      | None => mret []
      | Some k => ks ← keys_after n k tx b; mret (k :: ks)
      end
  end.

Definition result_of {A} (m : tree_op A) : outcome A := fst <$> m (create_btree_environment 0).

(** ** Keys that are lost *)

(** Twenty records are found, and are still found when half of them have been deleted. *)
Example records_found :
  result_of (b ← create_btree; tx ← transaction_begin; tx ← put_all 20 256 tx b;
             rs ← delete_all 10 256 tx b; found_all 20 256 tx b)
  = Ret (replicate 10 false ++ replicate 10 true).
Proof. vm_compute. reflexivity. Qed.

(** When the node under the root that is left is merged into the root, the root loses its
    children: three records that nobody deleted are gone. *)
Example merge_loses_records :
  result_of (b ← create_btree; tx ← transaction_begin; tx ← put_all 20 256 tx b;
             rs ← delete_all 17 256 tx b; found ← found_all 20 256 tx b; mret (rs, found, tx_doomed tx))
  = Ret (replicate 17 0, replicate 20 false, false).
Proof. vm_compute. reflexivity. Qed.

(** A value that was put is not found if another key is a prefix of its key. *)
Example put_is_not_found :
  result_of (b ← create_btree; tx ← transaction_begin; tx ← transaction_put tx b [97] [1];
             tx ← transaction_put tx b [97; 98] [2]; '(v, tx) ← transaction_get tx b [97; 98]; mret (v, tx_doomed tx))
  = Ret (None, false).
Proof. vm_compute. reflexivity. Qed.

(** ** Keys that are passed over *)

(** Going from key to key ends at the end of the first page. *)
Example next_key_ends_early :
  result_of (b ← create_btree; tx ← transaction_begin; tx ← put_all 7 256 tx b;
             '(first, tx) ← transaction_first_key tx b; ks ← keys_after 7 (numbered 256) tx b;
             found ← found_all 7 256 tx b; mret (first, ks, found))
  = Ret (Some (numbered 256), [numbered 257], replicate 7 true).
Proof. vm_compute. reflexivity. Qed.

(** A transaction that cannot have its locks is told that there is no next key, and is
    not marked for rollback. *)
Definition expiring : Waiting := {| others := fun _ _ e => later e; patience := 3; steps := 200 |}.

Example next_key_hides_failure :
  result_of (b ← create_btree; tx ← transaction_begin; tx ← put_all 2 256 tx b; _ ← transaction_commit tx;
             tx1 ← transaction_begin; tx1 ← put_all 2 256 tx1 b;
             tx2 ← transaction_begin_timed (Timeval 0 9);
             '(k, tx2) ← @transaction_next_key expiring tx2 b (numbered 256); mret (k, tx_doomed tx2))
  = Ret (None, false).
Proof. vm_compute. reflexivity. Qed.

(** ** What a rollback leaves behind *)

Definition scratch_keys (e : env) : nat :=
  length (filter (fun p : positive * btree_node => new_key (snd p) <> None) (map_to_list (nodes e))).

(** The keys of inner nodes are changed without a note, and stay changed. *)
Example rollback_keeps_keys :
  result_of (b ← create_btree; tx ← transaction_begin; tx ← put_all 20 256 tx b; _ ← transaction_commit tx;
             before ← look (fun e => Ret (scratch_keys e));
             tx ← transaction_begin; tx ← transaction_put tx b (numbered 275) [1]; _ ← transaction_rollback tx;
             after ← look (fun e => Ret (scratch_keys e)); mret (before, after))
  = Ret (0%nat, 1%nat).
Proof. vm_compute. reflexivity. Qed.
