(* ===== verification/Oids.v ===== *)
(** * Allocation of object ids (oids.c, oids-storage.c)

    Object ids are given out in blocks.  A strategy is a function and its data;
    the storage strategy keeps the start of the next block under a one-byte key
    of a store and moves it on in a transaction of its own. *)

From S2P Require Import Prelude.
From S2P Require Import Util.
From S2P Require Import Storage.

Local Open Scope Z_scope.

(** ** Strategies *)

Record gzochid_data_oids_block := OidsBlock { block_start : Z; block_size : Z }.

Inductive oids_error := OIDS_ERROR_TRANSACTION | OIDS_ERROR_FAILED.

(** [W] is what the allocation functions act on, [U] the data of a strategy. *)
Record gzochid_oid_allocation_strategy (W U : Type) := OidStrategy {
  allocation_function : U -> W -> outcome ((gzochid_data_oids_block + oids_error) * W);
  user_data : U
}.
Arguments OidStrategy {W U}.
Arguments allocation_function {W U}.
Arguments user_data {W U}.

Definition gzochid_oids_reserve_block {W U} (strategy : gzochid_oid_allocation_strategy W U)
    (w : W) : outcome ((gzochid_data_oids_block + oids_error) * W) :=
  allocation_function strategy (user_data strategy) w.

(** ** The storage strategy *)

Definition ALLOCATION_BLOCK_SIZE : Z := 100.
Definition NEXT_OID_KEY : Z := 0.

(** The number in the bytes of an integer in memory. *)
Definition native_value (big_endian : bool) (bs : bytes) : Z :=
  be_decode (if big_endian then bs else rev bs).

Section storage.

Context {E T : Type} (engine : gzochid_storage_engine_interface E T) (big_endian : bool).

Definition next_oid_of (v : option bytes) : outcome Z :=
  match v with
  | Some bs =>
      _ ← c_assert (length bs =? 8)%nat;
      Ret (gzochid_util_decode_oid big_endian (native_value big_endian bs))
  | None => Ret 0
  end.

Definition oid_bytes (oid : Z) : bytes :=
  native_bytes big_endian (gzochid_util_encode_oid big_endian oid).

Definition allocate (sto : store) (e : E)
    : outcome ((gzochid_data_oids_block + oids_error) * E) :=
  match transaction_begin engine e with
  | (None, e) => Ret (inr OIDS_ERROR_TRANSACTION, e)
  | (Some t, e) =>
      let '(v, e) := transaction_get_for_update engine t sto [NEXT_OID_KEY] e in
      if tx_rollback engine t e
      then Ret (inr OIDS_ERROR_TRANSACTION, transaction_rollback engine t e)
      else
        start ← next_oid_of v;
        let next_block := u64 (start + ALLOCATION_BLOCK_SIZE) in
        let e := transaction_put engine t sto [NEXT_OID_KEY] (oid_bytes next_block) e in
        let e := if negb (tx_rollback engine t e) then transaction_prepare engine t e else e in
        if tx_rollback engine t e
        then Ret (inr OIDS_ERROR_TRANSACTION, transaction_rollback engine t e)
        else Ret (inl (OidsBlock start ALLOCATION_BLOCK_SIZE), transaction_commit engine t e)
  end.

Definition gzochid_storage_oid_strategy_new (sto : store)
    : gzochid_oid_allocation_strategy E store :=
  OidStrategy allocate sto.

(** Several reservations in a row: the blocks that were obtained. *)
Fixpoint reserve_blocks (n : nat) (sto : store) (e : E)
    : outcome (list gzochid_data_oids_block * E) :=
  match n with
  | O => Ret ([], e)
  | S n =>
      '(r, e) ← gzochid_oids_reserve_block (gzochid_storage_oid_strategy_new sto) e;
      '(bs, e) ← reserve_blocks n sto e;
      Ret (match r with inl b => b :: bs | inr _ => bs end, e)
  end.

End storage.

(** The ids of a block. *)
Definition block_ids (b : gzochid_data_oids_block) : list Z :=
  seqZ (block_start b) (block_size b).

(** ** Lemmas *)

Lemma native_value_bytes be z : in_unsigned 64 z -> native_value be (native_bytes be z) = z.
Proof.
  intros Hz. unfold native_value, native_bytes.
  destruct be; rewrite ?rev_involutive, be_decode_encode; by apply Z.mod_small.
Qed.

Lemma decode_oid_bytes be oid :
  in_unsigned 64 oid -> next_oid_of be (Some (oid_bytes be oid)) = Ret oid.
Proof.
  intros Hoid. unfold next_oid_of, oid_bytes.
  assert (Hlen : length (native_bytes be (gzochid_util_encode_oid be oid)) = 8%nat)
    by (rewrite native_encode_oid; apply be_encode_length).
  rewrite Hlen. cbn [Nat.eqb c_assert]. run. f_equal.
  rewrite native_value_bytes.
  - unfold gzochid_util_decode_oid, gzochid_util_encode_oid.
    destruct be; [done|]. by apply swap64_involutive.
  - unfold gzochid_util_encode_oid. destruct be; [done|]. unfold swap64, in_unsigned.
    assert (Hb : bytes_ok (rev (be_encode 8 oid))) by apply Forall_rev, be_encode_ok.
    pose proof (be_decode_bound _ Hb) as Hbound. rewrite length_rev, be_encode_length in Hbound.
    by change (256 ^ Z.of_nat 8) with (2 ^ 64) in Hbound.
Qed.

Section laws.

Context {E T : Type} {eng : gzochid_storage_engine_interface E T}.
Context {view : T -> E -> contents} {durable : E -> contents}.
Context `{HL : !EngineLaws eng view durable} (be : bool) (sto : store).

Abbreviation counter e := (next_oid_of be (durable e !! (sto, [NEXT_OID_KEY]))).

(** One reservation either takes the next block and moves the counter, or
    changes nothing that is committed. *)
Lemma allocate_spec e c :
  counter e = Ret c -> 0 <= c < 2 ^ 64 - ALLOCATION_BLOCK_SIZE ->
  exists r e', allocate eng be sto e = Ret (r, e')
    /\ match r with
       | inl b => b = OidsBlock c ALLOCATION_BLOCK_SIZE
           /\ counter e' = Ret (c + ALLOCATION_BLOCK_SIZE)
           /\ delete (sto, [NEXT_OID_KEY]) (durable e') = delete (sto, [NEXT_OID_KEY]) (durable e)
       | inr err => err = OIDS_ERROR_TRANSACTION /\ durable e' = durable e
       end.
Proof.
  intros Hc Hrange. unfold allocate.
  destruct (transaction_begin eng e) as [[t|] e1] eqn:Hbegin.
  2: { eexists _, _. split; [done|]. cbn. split; [done|]. by eapply begin_durable. }
  destruct (transaction_get_for_update eng t sto [NEXT_OID_KEY] e1) as [v e2] eqn:Hget.
  pose proof (begin_durable _ _ _ Hbegin) as Hd1. pose proof (update_durable _ _ _ _ _ _ Hget) as Hd2.
  destruct (tx_rollback eng t e2) eqn:Hr2.
  { eexists _, _. split; [done|]. cbn. split; [done|]. rewrite rollback_durable. congruence. }
  assert (Hr1 : tx_rollback eng t e1 = false).
  { destruct (tx_rollback eng t e1) eqn:Hr1; [|done].
    by rewrite (update_sticky _ _ _ _ _ _ Hget Hr1) in Hr2. }
  pose proof (begin_view _ _ _ Hbegin Hr1) as Hv1.
  destruct (update_value _ _ _ _ _ _ Hget Hr2) as [-> Hv2].
  rewrite Hv1, Hc. run. set (next := u64 (c + ALLOCATION_BLOCK_SIZE)).
  set (e3 := transaction_put eng t sto [NEXT_OID_KEY] (oid_bytes be next) e2).
  assert (Hd3 : durable e3 = durable e) by (subst e3; rewrite put_durable; congruence).
  destruct (tx_rollback eng t e3) eqn:Hr3; cbn [negb].
  { rewrite Hr3. eexists _, _. split; [done|]. cbn. split; [done|]. by rewrite rollback_durable. }
  set (e4 := transaction_prepare eng t e3).
  destruct (tx_rollback eng t e4) eqn:Hr4.
  { eexists _, _. split; [done|]. cbn. split; [done|].
    subst e4. by rewrite rollback_durable, prepare_durable. }
  eexists _, _. split; [done|]. cbn. split; [done|].
  rewrite commit_durable by done. subst e4. rewrite (prepare_view _ _ Hr4).
  subst e3. rewrite (put_view _ _ _ _ _ Hr3), Hv2, Hv1. unfold ALLOCATION_BLOCK_SIZE in *.
  assert (Hnext : next = c + 100) by (subst next; apply u64_small; lia).
  split.
  - rewrite lookup_insert_eq, Hnext. apply decode_oid_bytes. unfold in_unsigned. lia.
  - by rewrite delete_insert_eq.
Qed.

End laws.

(** ** Properties *)

(** Reserving blocks of object ids from storage, any number of times and
    with any failures of the storage in between: the blocks obtained are
    consecutive, so no id is given out twice or skipped; the next block starts
    where the last one ended, also for whoever reads the store later; and nothing
    else that is committed changes. *)
Theorem oids_blocks_consecutive {E T : Type} (eng : gzochid_storage_engine_interface E T)
    (view : T -> E -> contents) (durable : E -> contents) `{!EngineLaws eng view durable}
    (be : bool) (sto : store) (n : nat) (e : E) (c : Z) :
  next_oid_of be (durable e !! (sto, [NEXT_OID_KEY])) = Ret c ->
  0 <= c -> c + ALLOCATION_BLOCK_SIZE * (Z.of_nat n + 1) <= 2 ^ 64 ->
  exists bs e', reserve_blocks eng be n sto e = Ret (bs, e')
    /\ concat (block_ids <$> bs) = seqZ c (ALLOCATION_BLOCK_SIZE * Z.of_nat (length bs))
    /\ next_oid_of be (durable e' !! (sto, [NEXT_OID_KEY]))
       = Ret (c + ALLOCATION_BLOCK_SIZE * Z.of_nat (length bs))
    /\ delete (sto, [NEXT_OID_KEY]) (durable e') = delete (sto, [NEXT_OID_KEY]) (durable e).
Proof.
  revert e c. induction n as [|n IH]; intros e c Hc H0 Hmax.
  { exists [], e. split_and!; try done. rewrite Hc. f_equal. cbn. lia. }
  unfold ALLOCATION_BLOCK_SIZE in *.
  destruct (allocate_spec (HL := EngineLaws0) be sto e c Hc) as (r & e1 & Hr & Hspec);
    [unfold ALLOCATION_BLOCK_SIZE; lia|].
  cbn [reserve_blocks]. unfold gzochid_oids_reserve_block, gzochid_storage_oid_strategy_new.
  cbn [allocation_function user_data]. rewrite Hr. run. destruct r as [b|err].
  - destruct Hspec as (-> & Hc1 & Hd1). unfold ALLOCATION_BLOCK_SIZE in *.
    destruct (IH e1 (c + 100) Hc1) as (bs & e' & -> & Hids & Hcount & Hd); [lia..|].
    run. eexists _, e'. split; [done|]. split_and!.
    + rewrite fmap_cons. cbn [concat length]. unfold block_ids at 1. cbn [block_start block_size].
      rewrite Hids. rewrite Nat2Z.inj_succ.
      replace (100 * Z.succ (Z.of_nat (length bs))) with (100 + 100 * Z.of_nat (length bs)) by lia.
      rewrite seqZ_app by lia. done.
    + rewrite Hcount. f_equal. cbn [length]. lia.
    + congruence.
  - destruct Hspec as (_ & Hd1). rewrite <- Hd1 in Hc.
    destruct (IH e1 c Hc) as (bs & e' & -> & Hids & Hcount & Hd); [lia..|].
    run. eexists _, e'. split; [done|]. split_and!; try done. congruence.
Qed.

Lemma oids_blocks_consecutive_witness :
  exists bs e', reserve_blocks map_engine false 3 Meta (MapEngine ∅ ∅) = Ret (bs, e')
    /\ concat (block_ids <$> bs) = seqZ 0 (100 * Z.of_nat (length bs))
    /\ next_oid_of false (committed e' !! (Meta, [NEXT_OID_KEY]))
       = Ret (0 + 100 * Z.of_nat (length bs))
    /\ delete (Meta, [NEXT_OID_KEY]) (committed e') = delete (Meta, [NEXT_OID_KEY]) ∅.
Proof.
  apply (oids_blocks_consecutive map_engine map_view committed false Meta 3 (MapEngine ∅ ∅) 0);
    [reflexivity | lia | unfold ALLOCATION_BLOCK_SIZE; simpl; lia].
Defined.
