(* ===== verification/Data.v ===== *)
(** * The data manager (data.c)

    Persistent objects of an application inside of a transaction: named bindings
    to object ids, and managed references that fetch, cache, create, modify and
    remove objects and are flushed to storage when the transaction prepares.  The
    data manager is the participant "data" of the transaction ([Tx]), over a
    storage engine ([Storage]) and a strategy for reserving object ids ([Oids]).

    References, transaction contexts and the objects of the application are in
    heaps, since they are shared: an object is known both by its id and by its
    address.  The serializers belong to the application; they may call back. *)

From S2P Require Import Prelude.
From S2P Require Import Util.
From S2P Require Import Tx.
From S2P Require Import Storage.
From S2P Require Import Oids.
From Stdlib Require Import Sorted.

Local Open Scope Z_scope.

(** ** Data *)

Inductive data_error := ERROR_NOT_FOUND | ERROR_TRANSACTION | ERROR_FAILED.

#[export] Instance data_error_eq_dec : EqDecision data_error.
Proof. solve_decision. Defined.

Inductive gzochid_data_managed_reference_state :=
| STATE_NEW
| STATE_EMPTY
| STATE_NOT_MODIFIED
| STATE_MAYBE_MODIFIED
| STATE_MODIFIED
| STATE_FLUSHED
| STATE_REMOVED_EMPTY
| STATE_REMOVED_FETCHED.

#[export] Instance reference_state_eq_dec : EqDecision gzochid_data_managed_reference_state.
Proof. solve_decision. Defined.

Record gzochid_data_managed_reference (Ser : Type) := Reference {
  ref_state : gzochid_data_managed_reference_state;
  ref_serialization : Ser;
  ref_oid : Z;
  ref_obj : option positive
}.
Arguments Reference {Ser}.
Arguments ref_state {Ser}.
Arguments ref_serialization {Ser}.
Arguments ref_oid {Ser}.
Arguments ref_obj {Ser}.

Record gzochid_data_oid_block_state := BlockState {
  blk_first : Z;
  blk_next : Z;
  blk_last : Z
}.

Record gzochid_data_transaction_context (T : Type) := DataContext {
  free_oids : option gzochid_data_oid_block_state;
  used_oid_blocks : list gzochid_data_oid_block_state;
  ctx_transaction : option T;
  oids_to_references : gmap Z positive;
  ptrs_to_references : gmap (option positive) positive
}.
Arguments DataContext {T}.
Arguments free_oids {T}.
Arguments used_oid_blocks {T}.
Arguments ctx_transaction {T}.
Arguments oids_to_references {T}.
Arguments ptrs_to_references {T}.

Inductive data_event := BYTES_READ (n : Z) | BYTES_WRITTEN (n : Z).

(** The callbacks of the participant "data", and those of any other. *)
Inductive data_fn := DataPrepare | DataCommit | DataRollback | OtherFn (n : nat).

(** What the participants share: the heaps, the application's blocks of free
    object ids, the storage engine's state, the events dispatched, and the state of
    the other components, which the data manager does not touch. *)
Record data_world (E T Obj Ser X : Type) := DataWorld {
  data_contexts : gmap positive (gzochid_data_transaction_context T);
  references : gmap positive (gzochid_data_managed_reference Ser);
  objects : gmap positive Obj;
  free_oid_blocks : list gzochid_data_oid_block_state;
  storage : E;
  events : list data_event;
  components : X
}.
Arguments DataWorld {E T Obj Ser X}.
Arguments data_contexts {E T Obj Ser X}.
Arguments references {E T Obj Ser X}.
Arguments objects {E T Obj Ser X}.
Arguments free_oid_blocks {E T Obj Ser X}.
Arguments storage {E T Obj Ser X}.
Arguments events {E T Obj Ser X}.
Arguments components {E T Obj Ser X}.

Abbreviation data_st E T Obj Ser X := (tx_thread data_fn (option positive) (data_world E T Obj Ser X)).

(** A [gzochid_io_serialization]: the functions of a serialization.  An error of
    the serializer is [None]; the deserializer returns a pointer and whether it
    set an error. *)
Record serializations (E T Obj Ser X : Type) := Serializations {
  serializer : Ser -> option positive -> data_st E T Obj Ser X ->
    outcome (option bytes * data_st E T Obj Ser X);
  deserializer : Ser -> bytes -> data_st E T Obj Ser X ->
    outcome (option positive * bool * data_st E T Obj Ser X);
  finalizer : Ser -> positive -> data_st E T Obj Ser X -> outcome (data_st E T Obj Ser X)
}.
Arguments Serializations {E T Obj Ser X}.
Arguments serializer {E T Obj Ser X}.
Arguments deserializer {E T Obj Ser X}.
Arguments finalizer {E T Obj Ser X}.

Definition data_participant : gzochid_transaction_participant data_fn :=
  TxParticipant "data" (Some DataPrepare) (Some DataCommit) (Some DataRollback).

Section data.

Context {E T U Obj Ser X : Type}.
Context (engine : gzochid_storage_engine_interface E T).
Context (oid_strategy : gzochid_oid_allocation_strategy E U).
Context (ser : serializations E T Obj Ser X) (big_endian : bool).
(** The order in which GLib enumerates the values of the two hash tables. *)
Context (tx_values : gmap string
  (gzochid_transaction_participant_registration data_fn (option positive)) ->
  list (gzochid_transaction_participant_registration data_fn (option positive))).
Context (ref_values : gmap Z positive -> list positive).

Abbreviation st := (data_st E T Obj Ser X).
Abbreviation ctx := (gzochid_data_transaction_context T).
Abbreviation ref := (gzochid_data_managed_reference Ser).

(** ** Access to the state *)

Definition with_world (f : data_world E T Obj Ser X -> data_world E T Obj Ser X) (s : st) : st :=
  set_world (f (world s)) s.

Definition set_contexts x (w : data_world E T Obj Ser X) : data_world E T Obj Ser X :=
  DataWorld x (references w) (objects w) (free_oid_blocks w) (storage w) (events w) (components w).
Definition set_references x (w : data_world E T Obj Ser X) : data_world E T Obj Ser X :=
  DataWorld (data_contexts w) x (objects w) (free_oid_blocks w) (storage w) (events w) (components w).
Definition set_free_blocks x (w : data_world E T Obj Ser X) : data_world E T Obj Ser X :=
  DataWorld (data_contexts w) (references w) (objects w) x (storage w) (events w) (components w).
Definition set_storage x (w : data_world E T Obj Ser X) : data_world E T Obj Ser X :=
  DataWorld (data_contexts w) (references w) (objects w) (free_oid_blocks w) x (events w)
    (components w).
Definition set_objects x (w : data_world E T Obj Ser X) : data_world E T Obj Ser X :=
  DataWorld (data_contexts w) (references w) x (free_oid_blocks w) (storage w) (events w)
    (components w).
Definition set_components x (w : data_world E T Obj Ser X) : data_world E T Obj Ser X :=
  DataWorld (data_contexts w) (references w) (objects w) (free_oid_blocks w) (storage w)
    (events w) x.
Definition add_event x (w : data_world E T Obj Ser X) : data_world E T Obj Ser X :=
  DataWorld (data_contexts w) (references w) (objects w) (free_oid_blocks w) (storage w)
    (events w ++ [x]) (components w).

Definition get_ctx (d : positive) (s : st) : outcome ctx := deref (data_contexts (world s) !! d).
Definition put_ctx (d : positive) (c : ctx) : st -> st :=
  with_world (fun w => set_contexts (<[d := c]> (data_contexts w)) w).

Definition get_ref (r : positive) (s : st) : outcome ref := deref (references (world s) !! r).
Definition put_ref (r : positive) (x : ref) : st -> st :=
  with_world (fun w => set_references (<[r := x]> (references w)) w).

Definition set_ref_state (x : gzochid_data_managed_reference_state) (r : ref) : ref :=
  Reference x (ref_serialization r) (ref_oid r) (ref_obj r).

Definition set_ref_obj (o : option positive) (r : ref) : ref :=
  Reference (ref_state r) (ref_serialization r) (ref_oid r) o.

Definition alloc_ref (x : ref) (s : st) : positive * st :=
  let r := fresh (dom (references (world s))) in (r, put_ref r x s).

Definition put_object (p : positive) (o : Obj) : st -> st :=
  with_world (fun w => set_objects (<[p := o]> (objects w)) w).

(** [calloc] of an object, and [free]. *)
Definition alloc_object (o : Obj) (s : st) : positive * st :=
  let p := fresh (dom (objects (world s))) in (p, put_object p o s).

Definition free_object (p : positive) (s : st) : outcome st :=
  _ ← deref (objects (world s) !! p);
  Ret (with_world (fun w => set_objects (delete p (objects w)) w) s).

Definition put_storage (e : E) : st -> st := with_world (set_storage e).

(** The storage transaction of a context. *)
Definition get_txn (d : positive) (s : st) : outcome T :=
  c ← get_ctx d s; deref (ctx_transaction c).

Definition txn_rollback (t : T) (s : st) : bool := tx_rollback engine t (storage (world s)).

(** [gzochid_transaction_mark_for_rollback (&data_participant, should_retry)]. *)
Definition mark_rollback (t : T) (s : st) : outcome st :=
  gzochid_transaction_mark_for_rollback data_participant
    (tx_should_retry engine t (storage (world s))) s.

(** The data of a registration, a null pointer where there is none. *)
Definition or_null (o : option (option positive)) : option positive := default None o.

(** The context of the participant, which callers dereference. *)
Definition current_ctx (s : st) : outcome positive :=
  o ← gzochid_transaction_context data_participant s;
  deref (or_null o).

(** A string in memory, up to its terminating zero. *)
Fixpoint c_string (bs : bytes) : outcome bytes :=
  match bs with
  | [] => Undef
  | b :: bs => if b =? 0 then Ret [] else rest ← c_string bs; Ret (b :: rest)
  end.

Definition name_key (name : bytes) : bytes := name ++ [0].

(** ** Contexts *)

Definition create_transaction_context (timeout : option timeval) (s : st)
    : positive * st :=
  let '(t, e) := (match timeout with
                  | Some limit => transaction_begin_timed engine limit (storage (world s))
                  | None => transaction_begin engine (storage (world s))
                  end) in
  let s := put_storage e s in
  let d := fresh (dom (data_contexts (world s))) in
  (d, put_ctx d (DataContext None [] t ∅ ∅) s).

Definition create_oid_block_state (block : gzochid_data_oids_block)
    : gzochid_data_oid_block_state :=
  BlockState (block_start block) (block_start block)
    (u64 (block_start block + block_size block - 1)).

Definition transaction_context_free (d : positive) (s : st) : outcome st :=
  _ ← get_ctx d s;
  Ret (with_world (fun w => set_contexts (delete d (data_contexts w)) w) s).

(** ** The callbacks of the participant *)

Definition flush_reference (r : positive) (d : positive) (s : st) : outcome (bool * st) :=
  x ← get_ref r s;
  match ref_state x with
  | STATE_EMPTY | STATE_REMOVED_EMPTY => Ret (true, s)
  | STATE_NEW | STATE_MODIFIED =>
      _ ← c_assert (bool_decide (is_Some (ref_obj x)));
      '(out, s) ← serializer ser (ref_serialization x) (ref_obj x) s;
      match out with
      | None => Ret (false, s)
      | Some bs =>
          only ← gzochid_transaction_rollback_only tx_values s;
          if (only : bool) then Ret (false, s)
          else
            t ← get_txn d s;
            let s := put_storage (transaction_put engine t Oids
                       (oid_bytes big_endian (ref_oid x)) bs (storage (world s))) s in
            let s := with_world (add_event (BYTES_WRITTEN (Z.of_nat (length bs)))) s in
            Ret (negb (txn_rollback t s), s)
      end
  | STATE_REMOVED_FETCHED | STATE_NOT_MODIFIED => Ret (true, s)
  | _ => Abort
  end.

Fixpoint flush_references (l : list positive) (d : positive) (s : st) : outcome (bool * st) :=
  match l with
  | [] => Ret (true, s)
  | r :: l =>
      '(ok, s) ← flush_reference r d s;
      if negb ok then Ret (false, s) else flush_references l d s
  end.

Definition data_prepare (data : option positive) (s : st) : outcome (bool * st) :=
  d ← deref data;
  c ← get_ctx d s;
  '(ok, s) ← flush_references (ref_values (oids_to_references c)) d s;
  if negb ok then Ret (false, s)
  else
    t ← get_txn d s;
    let s := put_storage (transaction_prepare engine t (storage (world s))) s in
    Ret (negb (txn_rollback t s), s).

Fixpoint finalize_loop (l : list positive) (s : st) : outcome st :=
  match l with
  | [] => Ret s
  | r :: l =>
      x ← get_ref r s;
      s ← (match ref_obj x with
           | Some o =>
               s ← finalizer ser (ref_serialization x) o s;
               x ← get_ref r s;
               Ret (put_ref r (set_ref_obj None x) s)
           | None => Ret s
           end);
      finalize_loop l s
  end.

Definition finalize_references (d : positive) (s : st) : outcome st :=
  c ← get_ctx d s;
  let l := ref_values (oids_to_references c) in
  s ← finalize_loop l s;
  Ret (with_world (fun w => set_references (foldr delete (references w) l) w) s).

Definition data_commit (data : option positive) (s : st) : outcome st :=
  d ← deref data;
  t ← get_txn d s;
  let s := put_storage (transaction_commit engine t (storage (world s))) s in
  s ← finalize_references d s;
  transaction_context_free d s.

Definition data_rollback (data : option positive) (s : st) : outcome st :=
  match data with
  | None => Ret s
  | Some d =>
      t ← get_txn d s;
      let s := put_storage (transaction_rollback engine t (storage (world s))) s in
      s ← finalize_references d s;
      transaction_context_free d s
  end.

(** ** Object ids *)

Definition reserve_oids (s : st) : outcome (option gzochid_data_oid_block_state * st) :=
  match free_oid_blocks (world s) with
  | b :: rest => Ret (Some b, with_world (set_free_blocks rest) s)
  | [] =>
      '(r, e) ← gzochid_oids_reserve_block oid_strategy (storage (world s));
      let s := put_storage e s in
      match r with
      | inl block => Ret (Some (create_oid_block_state block), s)
      | inr err =>
          s ← gzochid_transaction_mark_for_rollback data_participant
                (match err with OIDS_ERROR_TRANSACTION => true | _ => false end) s;
          Ret (None, s)
      end
  end.

Definition set_free_oids (x : option gzochid_data_oid_block_state) (c : ctx) : ctx :=
  DataContext x (used_oid_blocks c) (ctx_transaction c) (oids_to_references c)
    (ptrs_to_references c).

(** Taking the next id of the block [b], and another block if that was its last. *)
Definition take_object_id (d : positive) (c : ctx) (b : gzochid_data_oid_block_state) (s : st)
    : outcome ((Z + data_error) * st) :=
  let oid := blk_next b in
  let b := BlockState (blk_first b) (u64 (blk_next b + 1)) (blk_last b) in
  if blk_last b <? blk_next b then
    '(fresh_block, s) ← reserve_oids s;
    let s := put_ctx d (DataContext fresh_block (used_oid_blocks c ++ [b]) (ctx_transaction c)
                          (oids_to_references c) (ptrs_to_references c)) s in
    Ret (match fresh_block with Some _ => inl oid | None => inr ERROR_TRANSACTION end, s)
  else Ret (inl oid, put_ctx d (set_free_oids (Some b) c) s).

Definition next_object_id (d : positive) (s : st) : outcome ((Z + data_error) * st) :=
  c ← get_ctx d s;
  '(block, s) ← (match free_oids c with
                 | Some b => Ret (Some b, s)
                 | None =>
                     '(b, s) ← reserve_oids s;
                     Ret (b, put_ctx d (set_free_oids b c) s)
                 end);
  match block with
  | None => Ret (inr ERROR_TRANSACTION, s)
  | Some b => take_object_id d c b s
  end.

(** ** Bindings *)

Definition get_binding (d : positive) (name : bytes) (s : st)
    : outcome ((Z + data_error) * st) :=
  t ← get_txn d s;
  let '(v, e) := transaction_get engine t Names (name_key name) (storage (world s)) in
  let s := put_storage e s in
  _ ← c_assert (match v with Some bs => (length bs =? 8)%nat | None => true end);
  if txn_rollback t s then
    s ← mark_rollback t s; Ret (inr ERROR_TRANSACTION, s)
  else
    match v with
    | Some bs => Ret (inl (gzochid_util_decode_oid big_endian (native_value big_endian bs)), s)
    | None => Ret (inr ERROR_NOT_FOUND, s)
    end.

Definition set_binding (d : positive) (name : bytes) (oid : Z) (s : st)
    : outcome (option data_error * st) :=
  t ← get_txn d s;
  let s := put_storage (transaction_put engine t Names (name_key name)
             (oid_bytes big_endian oid) (storage (world s))) s in
  if txn_rollback t s then s ← mark_rollback t s; Ret (Some ERROR_TRANSACTION, s)
  else Ret (None, s).

(** ** References *)

Definition create_empty_reference (oid : Z) (serialization : Ser) (s : st) : positive * st :=
  alloc_ref (Reference STATE_EMPTY serialization oid None) s.

Definition create_new_reference (ptr : option positive) (serialization : Ser) (s : st)
    : outcome ((positive + data_error) * st) :=
  d ← current_ctx s;
  '(r, s) ← next_object_id d s;
  match r with
  | inr err => Ret (inr err, s)
  | inl oid =>
      t ← get_txn d s;
      if txn_rollback t s then Ret (inr ERROR_TRANSACTION, s)
      else
        let '(_, e) := transaction_get_for_update engine t Oids (oid_bytes big_endian oid)
                         (storage (world s)) in
        let s := put_storage e s in
        if txn_rollback t s then s ← mark_rollback t s; Ret (inr ERROR_TRANSACTION, s)
        else
          let '(p, s) := alloc_ref (Reference STATE_NEW serialization oid ptr) s in
          Ret (inl p, s)
  end.

Definition add_oid_reference (oid : Z) (r : positive) (c : ctx) : ctx :=
  DataContext (free_oids c) (used_oid_blocks c) (ctx_transaction c)
    (<[oid := r]> (oids_to_references c)) (ptrs_to_references c).

Definition add_ptr_reference (ptr : option positive) (r : positive) (c : ctx) : ctx :=
  DataContext (free_oids c) (used_oid_blocks c) (ctx_transaction c)
    (oids_to_references c) (<[ptr := r]> (ptrs_to_references c)).

Definition get_reference_by_oid (oid : Z) (serialization : Ser) (s : st)
    : outcome (positive * st) :=
  d ← current_ctx s;
  c ← get_ctx d s;
  match oids_to_references c !! oid with
  | Some r => Ret (r, s)
  | None =>
      let '(r, s) := create_empty_reference oid serialization s in
      Ret (r, put_ctx d (add_oid_reference oid r c) s)
  end.

Definition get_reference_by_ptr (ptr : option positive) (serialization : Ser) (s : st)
    : outcome ((positive + data_error) * st) :=
  d ← current_ctx s;
  c ← get_ctx d s;
  match ptrs_to_references c !! ptr with
  | Some r => Ret (inl r, s)
  | None =>
      '(res, s) ← create_new_reference ptr serialization s;
      match res with
      | inr err => Ret (inr err, s)
      | inl r =>
          x ← get_ref r s;
          c ← get_ctx d s;
          Ret (inl r, put_ctx d (add_ptr_reference ptr r (add_oid_reference (ref_oid x) r c)) s)
      end
  end.

(** ** Joining the transaction; [now] is what the clock reads *)

Definition joined_ctx (s : st) : outcome (option positive) :=
  if gzochid_transaction_active s
  then o ← gzochid_transaction_context data_participant s; Ret (or_null o)
  else Ret None.

Definition join_transaction (now : timeval) (s : st) : outcome ((positive + data_error) * st) :=
  cur ← joined_ctx s;
  match cur with
  | Some d => Ret (inl d, s)
  | None =>
      timed ← gzochid_transaction_timed s;
      '(c, s) ← (if (timed : bool) then
                   remaining ← gzochid_transaction_time_remaining now s;
                   if (0 <? tv_sec remaining) || (0 <? tv_usec remaining)
                   then let '(d, s) := create_transaction_context (Some remaining) s in
                        Ret (Some d, s)
                   else Ret (None, s)
                 else let '(d, s) := create_transaction_context None s in Ret (Some d, s));
      s ← gzochid_transaction_join data_participant c s;
      match c with
      | Some d => Ret (inl d, s)
      | None =>
          s ← gzochid_transaction_mark_for_rollback data_participant true s;
          Ret (inr ERROR_TRANSACTION, s)
      end
  end.

Definition gzochid_data_mark (now : timeval) (serialization : Ser) (ptr : option positive) (s : st)
    : outcome (option data_error * st) :=
  '(j, s) ← join_transaction now s;
  match j with
  | inr err => Ret (Some err, s)
  | inl d =>
      '(res, s) ← get_reference_by_ptr ptr serialization s;
      match res with
      | inr err => Ret (Some err, s)
      | inl r =>
          x ← get_ref r s;
          if bool_decide (ref_state x = STATE_NEW) || bool_decide (ref_state x = STATE_MODIFIED)
          then Ret (None, s)
          else
            let s := put_ref r (set_ref_state STATE_MODIFIED x) s in
            t ← get_txn d s;
            let '(_, e) := transaction_get_for_update engine t Oids
                             (oid_bytes big_endian (ref_oid x)) (storage (world s)) in
            let s := put_storage e s in
            if txn_rollback t s then s ← mark_rollback t s; Ret (Some ERROR_TRANSACTION, s)
            else Ret (None, s)
      end
  end.

Definition dereference (now : timeval) (d r : positive) (for_update : bool) (s : st)
    : outcome (option data_error * st) :=
  x ← get_ref r s;
  if bool_decide (is_Some (ref_obj x)) || bool_decide (ref_state x = STATE_REMOVED_EMPTY) then
    if for_update && bool_decide (ref_state x = STATE_NOT_MODIFIED)
    then gzochid_data_mark now (ref_serialization x) (ref_obj x) s
    else Ret (None, s)
  else
    t ← get_txn d s;
    let key := oid_bytes big_endian (ref_oid x) in
    let '(v, e) := (if for_update
                    then transaction_get_for_update engine t Oids key (storage (world s))
                    else transaction_get engine t Oids key (storage (world s))) in
    let s := put_storage e s in
    if txn_rollback t s then s ← mark_rollback t s; Ret (Some ERROR_TRANSACTION, s)
    else
      match v with
      | None => Ret (Some ERROR_NOT_FOUND, s)
      | Some bs =>
          let s := with_world (add_event (BYTES_READ (Z.of_nat (length bs)))) s in
          '(o, failed, s) ← deserializer ser (ref_serialization x) bs s;
          x ← get_ref r s;
          let state := if (failed : bool) then ref_state x
                       else if for_update then STATE_MODIFIED else STATE_NOT_MODIFIED in
          let s := put_ref r (Reference state (ref_serialization x) (ref_oid x) o) s in
          c ← get_ctx d s;
          Ret (if failed then Some ERROR_FAILED else None,
               put_ctx d (add_ptr_reference o r (add_oid_reference (ref_oid x) r c)) s)
      end.

(** ** Removal *)

Definition remove_object (d : positive) (oid : Z) (s : st) : outcome (option data_error * st) :=
  tx_context ← gzochid_transaction_context data_participant s;
  t ← get_txn d s;
  let '(ret, e) := transaction_delete engine t Oids (oid_bytes big_endian oid)
                     (storage (world s)) in
  let s := put_storage e s in
  if ret =? GZOCHID_STORAGE_ENOTFOUND then Ret (Some ERROR_NOT_FOUND, s)
  else if ret =? GZOCHID_STORAGE_ETXFAILURE then
    current ← deref (or_null tx_context);
    t ← get_txn current s;
    s ← mark_rollback t s;
    Ret (Some ERROR_TRANSACTION, s)
  else Ret (None, s).

Definition remove_reference (d r : positive) (s : st) : outcome (option data_error * st) :=
  x ← get_ref r s;
  match ref_state x with
  | STATE_EMPTY =>
      '(err, s) ← remove_object d (ref_oid x) s;
      Ret (err, put_ref r (set_ref_state STATE_REMOVED_EMPTY x) s)
  | STATE_NOT_MODIFIED | STATE_MODIFIED =>
      '(err, s) ← remove_object d (ref_oid x) s;
      Ret (err, put_ref r (set_ref_state STATE_REMOVED_FETCHED x) s)
  | STATE_NEW => Ret (None, put_ref r (set_ref_state STATE_REMOVED_FETCHED x) s)
  | _ => Ret (None, s)
  end.

(** ** The interface *)

(** The object of a reference after a dereference. *)
Definition deref_obj (now : timeval) (d r : positive) (for_update : bool) (s : st)
    : outcome (option positive * option data_error * st) :=
  '(err, s) ← dereference now d r for_update s;
  x ← get_ref r s;
  Ret (ref_obj x, err, s).

Definition gzochid_data_get_binding (now : timeval) (name : bytes) (serialization : Ser) (s : st)
    : outcome (option positive * option data_error * st) :=
  '(j, s) ← join_transaction now s;
  match j with
  | inr err => Ret (None, Some err, s)
  | inl d =>
      '(b, s) ← get_binding d name s;
      match b with
      | inr err => Ret (None, Some err, s)
      | inl oid =>
          '(r, s) ← get_reference_by_oid oid serialization s;
          deref_obj now d r false s
      end
  end.

Definition gzochid_data_set_binding_to_oid (now : timeval) (name : bytes) (oid : Z) (s : st)
    : outcome (option data_error * st) :=
  '(j, s) ← join_transaction now s;
  match j with
  | inr err => Ret (Some err, s)
  | inl d => set_binding d name oid s
  end.

(** The name and the object id of the next binding; names are stored with a
    terminating zero. *)
Definition gzochid_data_next_binding_oid (now : timeval) (key : bytes) (s : st)
    : outcome (option (bytes * Z) * option data_error * st) :=
  '(j, s) ← join_transaction now s;
  match j with
  | inr err => Ret (None, Some err, s)
  | inl d =>
      t ← get_txn d s;
      let '(next_key, e) := transaction_next_key engine t Names (name_key key)
                              (storage (world s)) in
      let s := put_storage e s in
      s ← (if txn_rollback t s then mark_rollback t s else Ret s);
      match next_key with
      | None => Ret (None, None, s)
      | Some k =>
          name ← c_string k;
          '(b, s) ← get_binding d name s;
          match b with
          | inr err => Ret (None, Some err, s)
          | inl oid => Ret (Some (name, oid), None, s)
          end
      end
  end.

Definition gzochid_data_set_binding (now : timeval) (name : bytes) (serialization : Ser)
    (data : option positive) (s : st) : outcome (option data_error * st) :=
  '(j, s) ← join_transaction now s;
  match j with
  | inr err => Ret (Some err, s)
  | inl d =>
      '(res, s) ← get_reference_by_ptr data serialization s;
      match res with
      | inr err => Ret (Some err, s)
      | inl r => x ← get_ref r s; set_binding d name (ref_oid x) s
      end
  end.

Definition gzochid_data_remove_binding (now : timeval) (name : bytes) (s : st)
    : outcome (option data_error * st) :=
  '(j, s) ← join_transaction now s;
  match j with
  | inr err => Ret (Some err, s)
  | inl d =>
      t ← get_txn d s;
      let '(ret, e) := transaction_delete engine t Names (name_key name) (storage (world s)) in
      let s := put_storage e s in
      if ret =? GZOCHID_STORAGE_ENOTFOUND then Ret (Some ERROR_NOT_FOUND, s)
      else if ret =? GZOCHID_STORAGE_ETXFAILURE then
        s ← mark_rollback t s; Ret (Some ERROR_TRANSACTION, s)
      else Ret (None, s)
  end.

Definition gzochid_data_binding_exists (now : timeval) (name : bytes) (s : st)
    : outcome (bool * option data_error * st) :=
  '(j, s) ← join_transaction now s;
  match j with
  | inr err => Ret (false, Some err, s)
  | inl d =>
      '(b, s) ← get_binding d name s;
      Ret (match b with
           | inl _ => (true, None)
           | inr ERROR_NOT_FOUND => (false, None)
           | inr err => (false, Some err)
           end, s)
  end.

Definition gzochid_data_create_reference (now : timeval) (serialization : Ser)
    (ptr : option positive) (s : st) : outcome ((positive + data_error) * st) :=
  '(j, s) ← join_transaction now s;
  match j with
  | inr err => Ret (inr err, s)
  | inl _ => get_reference_by_ptr ptr serialization s
  end.

Definition gzochid_data_create_reference_to_oid (now : timeval) (serialization : Ser) (oid : Z)
    (s : st) : outcome (positive * st) :=
  '(j, s) ← join_transaction now s;
  match j with
  | inr _ => Ret (create_empty_reference oid serialization s)
  | inl _ => get_reference_by_oid oid serialization s
  end.

Definition deref_joined (now : timeval) (r : positive) (for_update : bool) (s : st)
    : outcome (option positive * option data_error * st) :=
  '(j, s) ← join_transaction now s;
  match j with
  | inr err => x ← get_ref r s; Ret (ref_obj x, Some err, s)
  | inl d => deref_obj now d r for_update s
  end.

Definition gzochid_data_dereference (now : timeval) (r : positive) (s : st) :=
  deref_joined now r false s.

Definition gzochid_data_dereference_for_update (now : timeval) (r : positive) (s : st) :=
  deref_joined now r true s.

Definition gzochid_data_remove_object (now : timeval) (r : positive) (s : st)
    : outcome (option data_error * st) :=
  '(j, s) ← join_transaction now s;
  match j with
  | inr err => Ret (Some err, s)
  | inl d => remove_reference d r s
  end.

End data.

(** ** What is flushed *)

Definition flushed {Ser} (x : gzochid_data_managed_reference Ser) : bool :=
  bool_decide (ref_state x = STATE_NEW) || bool_decide (ref_state x = STATE_MODIFIED).

(** A reference that a preparing transaction can meet. *)
Record ref_ok {Ser} (oid : Z) (x : gzochid_data_managed_reference Ser) : Prop := {
  ok_oid : ref_oid x = oid;
  ok_range : in_unsigned 64 oid;
  ok_state : ref_state x <> STATE_MAYBE_MODIFIED /\ ref_state x <> STATE_FLUSHED;
  ok_obj : flushed x = true -> is_Some (ref_obj x)
}.

(** The references of a context are those its table says. *)
Definition table_ok {E T Obj Ser X} (c : gzochid_data_transaction_context T)
    (w : data_world E T Obj Ser X) : Prop :=
  forall oid r, oids_to_references c !! oid = Some r ->
    exists x, references w !! r = Some x /\ ref_ok oid x.

Lemma oid_bytes_inj be o1 o2 :
  in_unsigned 64 o1 -> in_unsigned 64 o2 -> oid_bytes be o1 = oid_bytes be o2 -> o1 = o2.
Proof.
  intros H1 H2 Heq. pose proof (decode_oid_bytes be o1 H1) as D1.
  rewrite Heq, (decode_oid_bytes be o2 H2) in D1. by simplify_eq.
Qed.

Section flushing.

Context {E T Obj Ser X : Type} {eng : gzochid_storage_engine_interface E T}.
Context {view : T -> E -> contents} {durable : E -> contents}.
Context `{HL : !EngineLaws eng view durable}.
Context (ser : serializations E T Obj Ser X) (be : bool).
Context (tx_values : gmap string
  (gzochid_transaction_participant_registration data_fn (option positive)) ->
  list (gzochid_transaction_participant_registration data_fn (option positive))).
Context (ref_values : gmap Z positive -> list positive).
Context (values_perm : forall m, ref_values m ≡ₚ (map_to_list m).*2).

Abbreviation st := (data_st E T Obj Ser X).
Abbreviation ref := (gzochid_data_managed_reference Ser).

(** The application's serializers only look at the object. *)
Context (encode : Ser -> option Obj -> option bytes).
Context (Hser : forall z o (s : st),
  serializer ser z (Some o) s = Ret (encode z (objects (world s) !! o), s)).

Definition encoding (w : data_world E T Obj Ser X) (x : ref) : option bytes :=
  o ← ref_obj x; encode (ref_serialization x) (objects w !! o).

(** What is not the storage or an event is as it was. *)
Definition same_but_storage (s s' : st) : Prop :=
  thread_transaction s' = thread_transaction s
  /\ thread_transaction_timing s' = thread_transaction_timing s
  /\ data_contexts (world s') = data_contexts (world s)
  /\ references (world s') = references (world s)
  /\ objects (world s') = objects (world s)
  /\ free_oid_blocks (world s') = free_oid_blocks (world s).

Lemma same_refl s : same_but_storage s s.
Proof. by split_and!. Qed.

Lemma same_trans s1 s2 s3 :
  same_but_storage s1 s2 -> same_but_storage s2 s3 -> same_but_storage s1 s3.
Proof. unfold same_but_storage. intros. destruct_and!. split_and!; congruence. Qed.

Lemma same_put_storage e s : same_but_storage s (put_storage e s).
Proof. by split_and!. Qed.

(** The contents after flushing some references. *)
Definition flush_one (w : data_world E T Obj Ser X) (m : contents) (r : positive) : contents :=
  match references w !! r with
  | Some x => match encoding w x with
              | Some bs => if flushed x then <[(Oids, oid_bytes be (ref_oid x)) := bs]> m else m
              | None => m
              end
  | None => m
  end.

(** Why a flush stops. *)
Definition flush_failure (d : positive) (t : T) (l : list positive) (s s' : st) : Prop :=
  (exists r x, r ∈ l /\ references (world s) !! r = Some x /\ flushed x = true
     /\ encoding (world s) x = None)
  \/ gzochid_transaction_rollback_only tx_values s = Ret true
  \/ tx_rollback eng t (storage (world s')) = true.

Lemma flush_reference_spec d t r x oid (s : st) :
  get_txn d s = Ret t -> references (world s) !! r = Some x -> ref_ok oid x ->
  is_Some (thread_transaction s) ->
  exists ok s', flush_reference eng ser be tx_values r d s = Ret (ok, s')
    /\ same_but_storage s s'
    /\ durable (storage (world s')) = durable (storage (world s))
    /\ (ok = true -> view t (storage (world s'))
                     = flush_one (world s) (view t (storage (world s))) r
                     /\ (flushed x = true -> is_Some (encoding (world s) x)))
    /\ (ok = false -> flush_failure d t [r] s s').
Proof.
  intros Ht Hx Hok [tx Htx]. unfold flush_reference, get_ref, flush_one, flush_failure.
  rewrite Hx. run. pose proof (ok_obj _ _ Hok) as Hobj. pose proof (ok_state _ _ Hok) as [Hs1 Hs2].
  destruct (flushed x) eqn:Hf.
  - destruct (Hobj eq_refl) as [o Ho].
    assert (Henc : encoding (world s) x = encode (ref_serialization x) (objects (world s) !! o))
      by (unfold encoding; by rewrite Ho).
    assert (Hstate : ref_state x = STATE_NEW \/ ref_state x = STATE_MODIFIED)
      by (unfold flushed in Hf; apply orb_true_iff in Hf as [?%bool_decide_eq_true|?%bool_decide_eq_true]; auto).
    assert (Hrun : flush_reference eng ser be tx_values r d s
      = match encoding (world s) x with
        | None => Ret (false, s)
        | Some bs =>
            if rollback_only tx_values tx then Ret (false, s)
            else
              let s' := with_world (add_event (BYTES_WRITTEN (Z.of_nat (length bs))))
                (put_storage (transaction_put eng t Oids (oid_bytes be (ref_oid x)) bs
                   (storage (world s))) s) in
              Ret (negb (txn_rollback eng t s'), s')
        end).
    { unfold flush_reference, get_ref. rewrite Hx, Henc. run. rewrite Ho, Hser. cbn [c_assert].
      rewrite bool_decide_eq_true_2 by done. unfold gzochid_transaction_rollback_only.
      destruct Hstate as [-> | ->]; cbn; rewrite Htx; cbn;
        (destruct (encode _ _); [|done]); rewrite Ht; by destruct (rollback_only tx_values tx). }
    unfold flush_reference, get_ref in Hrun. rewrite Hx in Hrun. cbn [mbind outcome_bind deref] in Hrun.
    rewrite Hrun. destruct (encoding (world s) x) as [bs|] eqn:Hbs.
    2: { exists false, s. split_and!; try done. intros _. left. exists r, x.
         split_and!; try done. set_solver. }
    destruct (rollback_only tx_values tx) eqn:Honly.
    { exists false, s. split_and!; try done. intros _. right; left.
      unfold gzochid_transaction_rollback_only. by rewrite Htx, Honly. }
    eexists _, _. split; [done|]. unfold txn_rollback. cbn. split_and!; try done.
    + apply put_durable.
    + intros Hroll%negb_true_iff. split; [by apply put_view | by eexists].
    + intros Hroll%negb_false_iff. by right; right.
  - exists true, s. split_and!; try done.
    + unfold flushed in Hf. destruct (ref_state x) eqn:Hs; done.
    + intros _. split; [|done]. by destruct (encoding (world s) x).
Qed.

Lemma encoding_same s s' x :
  same_but_storage s s' -> encoding (world s') x = encoding (world s) x.
Proof. unfold same_but_storage, encoding. intros. destruct_and!. by destruct (ref_obj x); cbn; congruence. Qed.

Lemma flush_one_same s s' m r :
  same_but_storage s s' -> flush_one (world s') m r = flush_one (world s) m r.
Proof.
  intros Hs. unfold flush_one. destruct (Hs) as (_ & _ & _ & -> & _).
  destruct (references (world s) !! r) as [x|]; [|done]. by rewrite (encoding_same _ _ _ Hs).
Qed.

Lemma get_txn_same d s s' : same_but_storage s s' -> get_txn d s' = get_txn d s.
Proof. intros (_ & _ & Hc & _). unfold get_txn, get_ctx. by rewrite Hc. Qed.

Lemma foldl_flush_same s s' l m :
  same_but_storage s s' -> foldl (flush_one (world s')) m l = foldl (flush_one (world s)) m l.
Proof.
  intros Hs. revert m. induction l as [|r l IH]; intros m; [done|]. cbn.
  by rewrite (flush_one_same _ _ _ _ Hs), IH.
Qed.

Lemma flush_references_spec d t l (s : st) :
  get_txn d s = Ret t -> is_Some (thread_transaction s) ->
  Forall (fun r => exists oid x, references (world s) !! r = Some x /\ ref_ok oid x) l ->
  exists ok s', flush_references eng ser be tx_values l d s = Ret (ok, s')
    /\ same_but_storage s s'
    /\ durable (storage (world s')) = durable (storage (world s))
    /\ (ok = true -> view t (storage (world s'))
                     = foldl (flush_one (world s)) (view t (storage (world s))) l
          /\ forall r x, r ∈ l -> references (world s) !! r = Some x -> flushed x = true ->
               is_Some (encoding (world s) x))
    /\ (ok = false -> flush_failure d t l s s').
Proof.
  revert s. induction l as [|r l IH]; intros s Ht Htx Hall.
  { exists true, s. split_and!; try done. intros _. split; [done|]. intros; set_solver. }
  apply Forall_cons in Hall as [(oid & x & Hx & Hok) Hall].
  destruct (flush_reference_spec d t r x oid s Ht Hx Hok Htx)
    as (ok & s1 & Hr & Hs1 & Hd1 & Htrue & Hfalse).
  cbn [flush_references]. rewrite Hr. run. destruct ok; cbn [negb].
  2: { exists false, s1. split_and!; try done. intros _.
       destruct (Hfalse eq_refl) as [(r' & x' & Hin & ?)|?]; [left | by right].
       exists r', x'. split; [|done]. set_solver. }
  destruct (Htrue eq_refl) as [Hv1 He1].
  destruct (IH s1) as (ok & s2 & -> & Hs2 & Hd2 & Htrue2 & Hfalse2).
  - by rewrite (get_txn_same d _ _ Hs1).
  - by destruct (Hs1) as (-> & _).
  - destruct (Hs1) as (_ & _ & _ & -> & _). done.
  - exists ok, s2. split_and!; [done|by eapply same_trans|congruence| |].
    + intros ->. destruct (Htrue2 eq_refl) as [Hv2 He2]. split.
      * by rewrite Hv2, (foldl_flush_same _ _ _ _ Hs1), Hv1.
      * intros r' x' [->|Hin]%elem_of_cons Hx' Hf; [simplify_eq; auto|].
        rewrite <- (encoding_same _ _ _ Hs1). apply (He2 r' x'); [done| |done].
        by destruct (Hs1) as (_ & _ & _ & -> & _).
    + intros ->. destruct (Hfalse2 eq_refl) as [(r' & x' & Hin & Hr' & Hf & He)|[H|H]].
      * left. exists r', x'. rewrite (encoding_same _ _ _ Hs1) in He.
        destruct (Hs1) as (_ & _ & _ & Hrefs & _). rewrite Hrefs in Hr'.
        split_and!; try done. set_solver.
      * right; left. unfold gzochid_transaction_rollback_only in *.
        by destruct (Hs1) as (<- & _).
      * by right; right.
Qed.

(** The contents after a list of references with different ids is flushed. *)
Lemma foldl_flush_spec (w : data_world E T Obj Ser X) (c : gmap Z positive) l m :
  NoDup l.*1 ->
  (forall oid r, (oid, r) ∈ l -> exists x, references w !! r = Some x /\ ref_ok oid x) ->
  (forall r oid x, (oid, r) ∈ l -> references w !! r = Some x -> flushed x = true ->
     is_Some (encoding w x)) ->
  (forall oid r x, (oid, r) ∈ l -> references w !! r = Some x -> flushed x = true ->
     foldl (flush_one w) m l.*2 !! (Oids, oid_bytes be oid) = encoding w x)
  /\ (forall k, (forall oid r x, (oid, r) ∈ l -> references w !! r = Some x -> flushed x = true ->
        k <> (Oids, oid_bytes be oid)) -> foldl (flush_one w) m l.*2 !! k = m !! k).
Proof.
  revert m. induction l as [|[oid r] l IH]; intros m Hnd Hok Henc; cbn.
  { split; [intros; set_solver | done]. }
  cbn in Hnd. apply NoDup_cons in Hnd as [Hnotin Hnd].
  destruct (Hok oid r) as (x & Hx & [Hoid Hrange _ _]); [set_solver|].
  destruct (IH (flush_one w m r) Hnd) as [IHin IHout]; [set_solver..|].
  split.
  - intros oid' r' x' [[= -> ->]|Hin]%elem_of_cons Hx' Hf; [|by apply (IHin oid' r')].
    assert (x' = x) as -> by congruence.
    destruct (Henc r oid x) as [bs Hbs]; [set_solver|done..|]. rewrite IHout.
    + unfold flush_one. rewrite Hx, Hbs, Hf, Hoid. by rewrite lookup_insert_eq.
    + intros oid2 r2 x2 Hin2 Hx2 _ [= Heq].
      destruct (Hok oid2 r2) as (x3 & ? & Hok3); [set_solver|].
      apply oid_bytes_inj in Heq as <-; [|done|by apply ok_range in Hok3].
      apply Hnotin, list_elem_of_fmap. by exists (oid, r2).
  - intros k Hk. rewrite IHout by (intros; eapply Hk; [by right|done..]).
    unfold flush_one. rewrite Hx. destruct (encoding w x) as [bs|]; [|done].
    destruct (flushed x) eqn:Hf; [|done]. apply lookup_insert_ne. rewrite Hoid.
    intros Heq. by apply (Hk oid r x); [left|..].
Qed.

(** [m'] is [m] with the new and the modified objects of the references [c]
    under their ids, and is [m] elsewhere. *)
Definition written (c : gmap Z positive) (w : data_world E T Obj Ser X) (m m' : contents) : Prop :=
  (forall oid r x, c !! oid = Some r -> references w !! r = Some x -> flushed x = true ->
     exists bs, encoding w x = Some bs /\ m' !! (Oids, oid_bytes be oid) = Some bs)
  /\ (forall k, (forall oid r x, c !! oid = Some r -> references w !! r = Some x ->
        flushed x = true -> k <> (Oids, oid_bytes be oid)) -> m' !! k = m !! k).

Lemma values_pairs (m : gmap Z positive) :
  exists l, ref_values m = l.*2 /\ NoDup l.*1
    /\ forall oid r, (oid, r) ∈ l <-> m !! oid = Some r.
Proof.
  destruct (Permutation_map_inv _ _ (values_perm m)) as (l & Hl & Hperm).
  exists l. split_and!.
  - done.
  - rewrite <- Hperm. apply NoDup_fst_map_to_list.
  - intros oid r. by rewrite <- Hperm, elem_of_map_to_list.
Qed.

(** Why the participant does not agree to commit. *)
Definition prepare_failure (c : gmap Z positive) (t : T) (s s' : st) : Prop :=
  (exists oid r x, c !! oid = Some r /\ references (world s) !! r = Some x /\ flushed x = true
     /\ encoding (world s) x = None)
  \/ gzochid_transaction_rollback_only tx_values s = Ret true
  \/ tx_rollback eng t (storage (world s')) = true.

Lemma data_prepare_spec d c t (s : st) :
  data_contexts (world s) !! d = Some c -> ctx_transaction c = Some t ->
  table_ok c (world s) -> is_Some (thread_transaction s) ->
  exists ok s', data_prepare eng ser be tx_values ref_values (Some d) s = Ret (ok, s')
    /\ same_but_storage s s'
    /\ durable (storage (world s')) = durable (storage (world s))
    /\ (ok = true -> tx_rollback eng t (storage (world s')) = false
          /\ written (oids_to_references c) (world s) (view t (storage (world s)))
               (view t (storage (world s'))))
    /\ (ok = false -> prepare_failure (oids_to_references c) t s s').
Proof.
  intros Hc Ht Hok Htx. unfold data_prepare, get_ctx. run. rewrite Hc. run.
  destruct (values_pairs (oids_to_references c)) as (l & Hl & Hnd & Hin). rewrite Hl.
  assert (Hgt : get_txn d s = Ret t) by (unfold get_txn, get_ctx; rewrite Hc; run; by rewrite Ht).
  destruct (flush_references_spec d t l.*2 s) as (ok & s1 & -> & Hs1 & Hd1 & Htrue & Hfalse);
    [done..| |].
  { apply Forall_forall. intros r ([oid r'] & -> & Hor%Hin)%list_elem_of_fmap. cbn.
    destruct (Hok _ _ Hor) as (x & ? & ?). eauto. }
  run. destruct ok; cbn [negb].
  2: { exists false, s1. split_and!; try done. intros _.
       destruct (Hfalse eq_refl) as [(r & x & Hr & ?)|?]; [left | by right].
       apply list_elem_of_fmap in Hr as ([oid r'] & -> & Hor%Hin). by exists oid, r', x. }
  destruct (Htrue eq_refl) as [Hv1 He1].
  rewrite (get_txn_same d _ _ Hs1), Hgt. run. eexists _, _. split; [done|].
  unfold txn_rollback. cbn. split_and!.
  - eapply same_trans; [done|]. apply same_put_storage.
  - by rewrite prepare_durable.
  - intros Hroll%negb_true_iff. split; [done|]. rewrite prepare_view, Hv1 by done.
    destruct (foldl_flush_spec (world s) (oids_to_references c) l (view t (storage (world s))))
      as [Hin' Hout'].
    + done.
    + intros oid r Hor%Hin. by apply Hok.
    + intros r oid x Hor Hx Hf. apply (He1 r x); try done.
      apply list_elem_of_fmap. by exists (oid, r).
    + split.
      * intros oid r x Hor Hx Hf. rewrite (Hin' oid r x) by (by rewrite ?Hin).
        destruct (He1 r x) as [bs Hbs]; [|done..|by exists bs].
        apply list_elem_of_fmap. exists (oid, r). by rewrite Hin.
      * intros k Hk. apply Hout'. intros oid r x Hor%Hin. by apply Hk.
  - intros Hroll%negb_false_iff. by right; right.
Qed.

(** The finalizers of the application only act on its objects. *)
Context (fin : Ser -> positive -> gmap positive Obj -> gmap positive Obj).
Context (Hfin : forall z o (s : st), finalizer ser z o s
  = Ret (set_world (DataWorld (data_contexts (world s)) (references (world s))
      (fin z o (objects (world s))) (free_oid_blocks (world s)) (storage (world s))
      (events (world s)) (components (world s))) s)).

Definition finalize_one (refs : gmap positive ref) (objs : gmap positive Obj) (r : positive)
    : gmap positive Obj :=
  match refs !! r with
  | Some x => match ref_obj x with Some o => fin (ref_serialization x) o objs | None => objs end
  | None => objs
  end.

Lemma finalize_loop_spec refs l (s : st) :
  NoDup l ->
  (forall r, r ∈ l -> references (world s) !! r = refs !! r /\ is_Some (refs !! r)) ->
  exists s', finalize_loop ser l s = Ret s'
    /\ thread_transaction s' = thread_transaction s
    /\ thread_transaction_timing s' = thread_transaction_timing s
    /\ data_contexts (world s') = data_contexts (world s)
    /\ storage (world s') = storage (world s)
    /\ objects (world s') = foldl (finalize_one refs) (objects (world s)) l
    /\ (forall r, r ∉ l -> references (world s') !! r = references (world s) !! r).
Proof.
  revert s. induction l as [|r l IH]; intros s Hnd Hrefs; [by exists s|].
  apply NoDup_cons in Hnd as [Hr Hnd]. cbn [finalize_loop foldl]. unfold get_ref.
  destruct (Hrefs r) as [Hsame [x Hx]]; [set_solver|]. rewrite Hsame. unfold finalize_one at 2.
  rewrite Hx. run. destruct (ref_obj x) as [o|] eqn:Ho.
  - rewrite Hfin. run. cbn [world set_world references]. rewrite Hsame, Hx. run.
    match goal with |- context [finalize_loop ser l ?s1] =>
      destruct (IH s1 Hnd) as (s' & -> & Hs') end.
    { intros r' Hr'. cbn. rewrite lookup_insert_ne by set_solver. apply Hrefs. set_solver. }
    exists s'. cbn in Hs'. destruct_and!. split_and!; try done.
    intros r' [Hne Hnot]%not_elem_of_cons.
    match goal with H : forall r, r ∉ l -> _ |- _ => rewrite H by done end.
    by rewrite lookup_insert_ne.
  - run. destruct (IH s Hnd) as (s' & -> & Hs').
    { intros r' Hr'. apply Hrefs. set_solver. }
    exists s'. destruct_and!. split_and!; try done. set_solver.
Qed.

Lemma lookup_foldr_delete {A} (m : gmap positive A) l k :
  foldr delete m l !! k = if bool_decide (k ∈ l) then None else m !! k.
Proof.
  induction l as [|x l IH]; cbn; [done|].
  destruct (decide (x = k)) as [->|Hne].
  - rewrite lookup_delete_eq. rewrite bool_decide_eq_true_2; [done | by left].
  - rewrite lookup_delete_ne, IH by done. repeat case_bool_decide; set_solver.
Qed.

(** The context is gone, its references are freed and their objects finalized. *)
Definition released (d : positive) (c : gmap Z positive) (w w' : data_world E T Obj Ser X) : Prop :=
  data_contexts w' = delete d (data_contexts w)
  /\ (forall oid r, c !! oid = Some r -> references w' !! r = None)
  /\ (forall r, (forall oid, c !! oid <> Some r) -> references w' !! r = references w !! r)
  /\ objects w' = foldl (finalize_one (references w)) (objects w) (ref_values c).

Lemma released_same d c (s1 s2 s' : st) :
  same_but_storage s1 s2 -> released d c (world s2) (world s') ->
  released d c (world s1) (world s').
Proof. unfold released. intros (_ & _ & -> & -> & -> & _). done. Qed.

Lemma finalize_references_spec d c (s : st) :
  data_contexts (world s) !! d = Some c -> table_ok c (world s) ->
  exists s', (s ← finalize_references ser ref_values d s; transaction_context_free d s) = Ret s'
    /\ thread_transaction s' = thread_transaction s
    /\ released d (oids_to_references c) (world s) (world s') /\ storage (world s') = storage (world s).
Proof.
  intros Hc Hok. destruct (values_pairs (oids_to_references c)) as (l & Hl & Hnd & Hin).
  assert (Hval : forall r, r ∈ l.*2 <-> exists oid, oids_to_references c !! oid = Some r).
  { intros r. rewrite list_elem_of_fmap. split.
    - intros ([oid r'] & -> & Hor%Hin). by exists oid.
    - intros [oid Hor%Hin]. by exists (oid, r). }
  unfold finalize_references, get_ctx. rewrite Hc. run. rewrite Hl.
  destruct (finalize_loop_spec (references (world s)) l.*2 s)
    as (s1 & -> & Htx & Htm & Hctx & Hsto & Hobj & Hrefs).
  - apply NoDup_fmap_2_strong, (NoDup_fmap_1 fst); [|done].
    intros [o1 r1] [o2 r2] H1%Hin H2%Hin Heq. cbn in Heq. subst.
    destruct (Hok _ _ H1) as (x1 & Hx1 & [<- _ _ _]), (Hok _ _ H2) as (x2 & Hx2 & [<- _ _ _]).
    congruence.
  - intros r Hr%Hval. destruct Hr as [oid Hor]. destruct (Hok _ _ Hor) as (x & Hx & _).
    split; [done|]. by exists x.
  - run. unfold transaction_context_free, get_ctx. cbn. rewrite Hctx, Hc. run.
    eexists. split; [done|]. unfold released. cbn. rewrite Hl. split_and!; try done.
    + congruence.
    + intros oid r Hor. rewrite lookup_foldr_delete.
      rewrite bool_decide_eq_true_2; [done|]. apply Hval. by exists oid.
    + intros r Hr. assert (Hnot : r ∉ l.*2) by (intros [oid Hor]%Hval; by apply (Hr oid)).
      rewrite lookup_foldr_delete, bool_decide_eq_false_2 by done. by apply Hrefs.
Qed.

Lemma data_commit_spec d c t (s : st) :
  data_contexts (world s) !! d = Some c -> ctx_transaction c = Some t ->
  table_ok c (world s) ->
  exists s', data_commit eng ser ref_values (Some d) s = Ret s'
    /\ thread_transaction s' = thread_transaction s
    /\ released d (oids_to_references c) (world s) (world s')
    /\ storage (world s') = transaction_commit eng t (storage (world s)).
Proof.
  intros Hc Ht Hok. unfold data_commit, get_txn, get_ctx. run. rewrite Hc. run. rewrite Ht. run.
  match goal with |- context [finalize_references _ _ _ ?s1] =>
    destruct (finalize_references_spec d c s1 Hc Hok) as (s' & Hs' & Htx' & Hrel & Hsto) end.
  exists s'. by split_and!.
Qed.

Lemma data_rollback_spec d c t (s : st) :
  data_contexts (world s) !! d = Some c -> ctx_transaction c = Some t ->
  table_ok c (world s) ->
  exists s', data_rollback eng ser ref_values (Some d) s = Ret s'
    /\ thread_transaction s' = thread_transaction s
    /\ released d (oids_to_references c) (world s) (world s')
    /\ storage (world s') = Storage.transaction_rollback eng t (storage (world s)).
Proof.
  intros Hc Ht Hok. unfold data_rollback, get_txn, get_ctx. run. rewrite Hc. run. rewrite Ht. run.
  match goal with |- context [finalize_references _ _ _ ?s1] =>
    destruct (finalize_references_spec d c s1 Hc Hok) as (s' & Hs' & Htx' & Hrel & Hsto) end.
  exists s'. by split_and!.
Qed.

(** ** The participant in its transaction *)

Context (tx_values_perm : forall m, tx_values m ≡ₚ (map_to_list m).*2).

(** The callbacks of a transaction whose only participant is "data". *)
Definition call_prepare (f : data_fn) : option positive -> st -> outcome (bool * st) :=
  match f with
  | DataPrepare => data_prepare eng ser be tx_values ref_values
  | _ => fun _ _ => Undef
  end.

Definition call_commit (f : data_fn) : option positive -> st -> outcome st :=
  match f with DataCommit => data_commit eng ser ref_values | _ => fun _ _ => Undef end.

Definition call_rollback (f : data_fn) : option positive -> st -> outcome st :=
  match f with DataRollback => data_rollback eng ser ref_values | _ => fun _ _ => Undef end.

Abbreviation only_data d mr mt :=
  ({["data"%string := TxRegistration data_participant (Some d) mr mt]}).

Lemma values_only d mr mt :
  tx_values (only_data d mr mt) = [TxRegistration data_participant (Some d) mr mt].
Proof.
  apply Permutation_singleton_r. rewrite tx_values_perm. by rewrite map_to_list_singleton.
Qed.

Lemma only_rollback d c t mr mt tx (s : st) :
  thread_transaction s = Some tx -> participants tx = only_data d mr mt ->
  data_contexts (world s) !! d = Some c -> ctx_transaction c = Some t -> table_ok c (world s) ->
  exists s', rollback call_rollback tx_values s = Ret s'
    /\ thread_transaction s' = Some (set_tx_state ROLLED_BACK tx)
    /\ released d (oids_to_references c) (world s) (world s')
    /\ durable (storage (world s')) = durable (storage (world s)).
Proof.
  intros Htx Hps Hc Ht Hok. unfold rollback, set_state. rewrite Htx. run. cbn.
  rewrite Hps, values_only.
  cbn [rollback_loop participant data p_rollback data_participant call_rollback deref mbind outcome_bind].
  match goal with |- context [data_rollback _ _ _ _ ?s1] =>
    destruct (data_rollback_spec d c t s1 Hc Ht Hok) as (s' & Hs' & Htx' & Hrel & Hsto) end.
  rewrite Hs'. run.
  rewrite Htx'. cbn. eexists. split_and!; [done|done|done|].
  cbn. by rewrite Hsto, rollback_durable.
Qed.

Lemma only_commit d c t mr mt tx (s : st) :
  thread_transaction s = Some tx -> participants tx = only_data d mr mt ->
  data_contexts (world s) !! d = Some c -> ctx_transaction c = Some t -> table_ok c (world s) ->
  exists s', commit call_commit tx_values s = Ret s'
    /\ thread_transaction s' = Some (set_tx_state COMMITTED tx)
    /\ released d (oids_to_references c) (world s) (world s')
    /\ storage (world s') = transaction_commit eng t (storage (world s)).
Proof.
  intros Htx Hps Hc Ht Hok. unfold commit, set_state. rewrite Htx. run. cbn.
  rewrite Hps, values_only.
  cbn [commit_loop participant data p_commit data_participant call_commit deref mbind outcome_bind].
  match goal with |- context [data_commit _ _ _ _ ?s1] =>
    destruct (data_commit_spec d c t s1 Hc Ht Hok) as (s' & Hs' & Htx' & Hrel & Hsto) end.
  rewrite Hs'. run.
  rewrite Htx'. cbn. eexists. by split_and!.
Qed.

Lemma table_ok_same c (s1 s2 : st) :
  same_but_storage s1 s2 -> table_ok c (world s1) -> table_ok c (world s2).
Proof. unfold table_ok. by intros (_ & _ & _ & -> & _). Qed.

(** ** Properties *)

(** C24. Ending a transaction in which the data manager is the participant
    returns.  If the result is success, what the storage has committed is what
    the storage transaction saw before, with each new or modified object, and no
    other, as its serialization under its id.  If the result is not success,
    nothing that is committed changed.  Either way the context of the transaction
    is gone, its references are freed and their objects finalized.  When nothing
    marked the transaction for rollback, all objects can be serialized, there is
    no time limit and the storage does not fail, the result is success. *)
Theorem transaction_end_durable (now : timeval) (s : st) d c t mr mt tx tm :
  thread_transaction s = Some tx -> participants tx = only_data d mr mt ->
  thread_transaction_timing s = Some tm ->
  data_contexts (world s) !! d = Some c -> ctx_transaction c = Some t -> table_ok c (world s) ->
  exists res s',
    gzochid_transaction_end call_prepare call_commit call_rollback tx_values now s = Ret (res, s')
    /\ thread_transaction s' = None
    /\ released d (oids_to_references c) (world s) (world s')
    /\ match res with
       | TX_SUCCESS => written (oids_to_references c) (world s) (view t (storage (world s)))
                         (durable (storage (world s')))
       | _ => durable (storage (world s')) = durable (storage (world s))
       end
    /\ (mr = false -> timeout tm = None -> (forall e, tx_rollback eng t e = false) ->
        (forall oid r x, oids_to_references c !! oid = Some r -> references (world s) !! r = Some x ->
           flushed x = true -> is_Some (encoding (world s) x)) ->
        res = TX_SUCCESS).
Proof.
  intros Htx Hps Htm Hc Ht Hok. unfold gzochid_transaction_end.
  set (s0 := set_timing None s). rewrite Htm.
  assert (Htx0 : thread_transaction s0 = Some tx) by done. rewrite Htx0.
  assert (Honly : rollback_only tx_values tx = mr)
    by (unfold rollback_only; rewrite Hps, values_only; cbn; by rewrite orb_false_r).
  rewrite Honly. destruct mr.
  { destruct (only_rollback d c t true mt tx s0 Htx0 Hps Hc Ht Hok)
      as (s1 & -> & Htx1 & Hrel & Hdur).
    run. rewrite Htx1. run. eexists _, _. split; [done|]. split_and!; try done.
    cbn. by destruct (retryable tx_values _). }
  unfold prepare. rewrite Htx0. run. unfold set_state at 1. rewrite Htx0. run.
  set (tx1 := set_tx_state PREPARING tx). set (s1 := set_transaction (Some tx1) s0).
  rewrite Hps, values_only.
  cbn [prepare_loop participant data p_prepare data_participant call_prepare deref mbind outcome_bind].
  destruct (data_prepare_spec d c t s1 Hc Ht Hok) as (ok & s2 & -> & Hs2 & Hd2 & Htrue & Hfalse);
    [by exists tx1|].
  assert (Htx2 : thread_transaction s2 = Some tx1) by (by destruct (Hs2) as (-> & _)).
  assert (Hc2 : data_contexts (world s2) !! d = Some c) by (by destruct (Hs2) as (_ & _ & -> & _)).
  pose proof (table_ok_same c _ _ Hs2 Hok) as Hok2. run.
  assert (Hback : exists s', rollback call_rollback tx_values s2 = Ret s'
    /\ thread_transaction s' = Some (set_tx_state ROLLED_BACK tx1)
    /\ released d (oids_to_references c) (world s) (world s')
    /\ durable (storage (world s')) = durable (storage (world s))).
  { destruct (only_rollback d c t false mt tx1 s2 Htx2 Hps Hc2 Ht Hok2)
      as (s3 & ? & ? & Hrel & Hdur).
    exists s3. split_and!; try done; [|by rewrite Hdur, Hd2].
    by apply (released_same d _ s1 s2). }
  destruct ok; cbn [negb mbind outcome_bind].
  2: { destruct Hback as (s3 & -> & Htx3 & Hrel & Hdur). run. rewrite Htx3. run.
       eexists _, _. split; [done|]. split_and!; try done.
       - cbn. by destruct (retryable tx_values _).
       - intros _ _ Heng Henc.
         destruct (Hfalse eq_refl) as [(oid & r & x & H1 & H2 & H3 & H4)|[H|H]].
         + destruct (Henc oid r x H1 H2 H3) as [bs Hbs].
           unfold encoding in *. cbn in H4. by rewrite Hbs in H4.
         + unfold gzochid_transaction_rollback_only in H. cbn in H.
           unfold rollback_only in H. cbn in H. rewrite Hps, values_only in H. done.
         + by rewrite Heng in H. }
  run. destruct (bool_decide (is_Some (timeout tm)) && time_up (time_remaining tm now)) eqn:Hup.
  { destruct Hback as (s3 & -> & Htx3 & Hrel & Hdur). run. rewrite Htx3. run.
    eexists _, _. split; [done|]. split_and!; try done.
    intros _ Hnone. rewrite Hnone in Hup. done. }
  destruct (only_commit d c t false mt tx1 s2 Htx2 Hps Hc2 Ht Hok2)
    as (s3 & -> & Htx3 & Hrel & Hsto).
  run. rewrite Htx3. run. eexists _, _. split; [done|]. destruct (Htrue eq_refl) as [Hroll Hw].
  split_and!; try done.
  - by apply (released_same d _ s1 s2).
  - cbn. by rewrite Hsto, commit_durable.
Qed.

End flushing.

(** ** Object ids given out *)

Section ids.

Context {E T Obj Ser X : Type} {eng : gzochid_storage_engine_interface E T}.
Context {view : T -> E -> contents} {durable : E -> contents}.
Context `{HL : !EngineLaws eng view durable} (be : bool).

Abbreviation st := (data_st E T Obj Ser X).
Abbreviation strategy := (gzochid_storage_oid_strategy_new eng be Meta).
Abbreviation counter s := (next_oid_of be (durable (storage (world s)) !! (Meta, [NEXT_OID_KEY]))).

(** Several new objects in a transaction: the ids that were obtained. *)
Fixpoint next_ids (n : nat) (d : positive) (s : st) : outcome (list Z * st) :=
  match n with
  | O => Ret ([], s)
  | S n =>
      '(r, s) ← next_object_id strategy d s;
      '(ids, s) ← next_ids n d s;
      Ret (match r with inl oid => oid :: ids | inr _ => ids end, s)
  end.

(** The participant is registered with the transaction of the thread. *)
Definition registered (s : st) : Prop :=
  exists tx r, thread_transaction s = Some tx /\ participants tx !! "data"%string = Some r.

(** The ids of the block of a context that are still free are in [lo, k). *)
Definition block_in (lo k : Z) (b : option gzochid_data_oid_block_state) : Prop :=
  match b with
  | Some b => lo <= blk_next b <= blk_last b /\ blk_last b < k
  | None => lo <= k
  end.

Record ids_ok (d : positive) (lo k : Z) (s : st) : Prop := {
  ids_registered : registered s;
  ids_none : free_oid_blocks (world s) = [];
  ids_counter : counter s = Ret k;
  ids_block : exists c, data_contexts (world s) !! d = Some c /\ block_in lo k (free_oids c)
}.

Lemma mark_registered (retry : bool) (s : st) :
  registered s ->
  exists s', gzochid_transaction_mark_for_rollback data_participant retry s = Ret s'
    /\ world s' = world s /\ registered s'.
Proof.
  intros (tx & r & Htx & Hr). unfold gzochid_transaction_mark_for_rollback.
  rewrite Htx. run. cbn [p_name data_participant]. rewrite Hr. eexists. split_and!; [done|done|].
  eexists _, _. cbn. split; [done|]. cbn. apply lookup_insert_eq.
Qed.

Lemma reserve_oids_spec lo k (s : st) :
  registered s -> free_oid_blocks (world s) = [] -> counter s = Ret k ->
  0 <= k < 2 ^ 64 - ALLOCATION_BLOCK_SIZE ->
  exists b s' k', reserve_oids strategy s = Ret (b, s')
    /\ registered s' /\ free_oid_blocks (world s') = [] /\ counter s' = Ret k'
    /\ data_contexts (world s') = data_contexts (world s)
    /\ k <= k' <= k + ALLOCATION_BLOCK_SIZE
    /\ (lo <= k -> block_in lo k' b).
Proof.
  intros Hreg Hnone Hk Hrange. unfold reserve_oids. rewrite Hnone.
  unfold gzochid_oids_reserve_block, gzochid_storage_oid_strategy_new.
  cbn [allocation_function user_data].
  destruct (allocate_spec (HL := HL) be Meta (storage (world s)) k Hk Hrange)
    as (r & e & -> & Hr).
  run. unfold ALLOCATION_BLOCK_SIZE in *. destruct r as [b|err].
  - destruct Hr as (-> & Hk' & _). eexists _, _, _. split; [done|]. split_and!; [done..|exact Hk'|done|lia|lia|].
    intros Hlo. cbn. rewrite u64_small by lia. lia.
  - destruct Hr as (_ & Hd). destruct (mark_registered
      (match err with OIDS_ERROR_TRANSACTION => true | _ => false end) (put_storage e s))
      as (s' & -> & Hw & Hreg').
    { done. }
    run. exists None, s', k. rewrite Hw. cbn. rewrite Hd. split_and!; try done; lia.
Qed.

(** The id taken from a block [b] of the context, after which another block may
    have to be reserved. *)
Lemma take_id_spec lo k d c b (s : st) :
  registered s -> free_oid_blocks (world s) = [] -> counter s = Ret k ->
  0 <= lo -> block_in lo k (Some b) ->
  k < 2 ^ 64 - ALLOCATION_BLOCK_SIZE ->
  exists r s' k',
    take_object_id strategy d c b s = Ret (r, s')
    /\ k <= k' <= k + ALLOCATION_BLOCK_SIZE
    /\ match r with
       | inl oid => lo <= oid < k' /\ ids_ok d (oid + 1) k' s'
       | inr _ => ids_ok d lo k' s'
       end.
Proof.
  unfold ALLOCATION_BLOCK_SIZE. intros Hreg Hnone Hk H0 [Hlo Hhi] Hmax.
  unfold take_object_id. cbn [blk_last blk_next]. rewrite u64_small by lia.
  destruct (Z.ltb_spec (blk_last b) (blk_next b + 1)) as [Hend|Hmore].
  - destruct (reserve_oids_spec (blk_next b + 1) k s Hreg Hnone Hk)
      as (b2 & s2 & k2 & -> & Hreg2 & Hnone2 & Hk2 & Hc2 & Hle & Hb2);
      [unfold ALLOCATION_BLOCK_SIZE; lia|].
    run. unfold ALLOCATION_BLOCK_SIZE in *. eexists _, _, k2. split; [done|]. split; [done|].
    specialize (Hb2 ltac:(lia)).
    assert (Hok : forall lo', block_in lo' k2 b2 -> ids_ok d lo' k2
      (put_ctx d (DataContext b2 (used_oid_blocks c ++
         [BlockState (blk_first b) (blk_next b + 1) (blk_last b)]) (ctx_transaction c)
         (oids_to_references c) (ptrs_to_references c)) s2)).
    { intros lo' Hb. split; [done..|]. eexists. cbn. rewrite lookup_insert_eq. split; [done|].
      exact Hb. }
    destruct b2 as [b2|]; [|apply Hok; cbn; lia].
    split; [lia|]. by apply Hok.
  - eexists _, _, k. split; [done|]. split; [lia|]. split; [lia|].
    split; [done..|]. eexists. cbn. rewrite lookup_insert_eq. split; [done|]. cbn. lia.
Qed.

Lemma next_object_id_spec lo k d (s : st) :
  ids_ok d lo k s -> 0 <= lo -> k < 2 ^ 64 - 2 * ALLOCATION_BLOCK_SIZE ->
  exists r s' k', next_object_id strategy d s = Ret (r, s')
    /\ k <= k' <= k + 2 * ALLOCATION_BLOCK_SIZE
    /\ match r with
       | inl oid => lo <= oid < k' /\ ids_ok d (oid + 1) k' s'
       | inr _ => ids_ok d lo k' s'
       end.
Proof.
  unfold ALLOCATION_BLOCK_SIZE. intros [Hreg Hnone Hk (c & Hc & Hb)] H0 Hmax.
  assert (Hlok : lo <= k) by (destruct (free_oids c); cbn in Hb; lia).
  unfold next_object_id, get_ctx. rewrite Hc. run. destruct (free_oids c) as [b|] eqn:Hfree.
  - run. destruct (take_id_spec lo k d c b s Hreg Hnone Hk H0 Hb)
      as (r & s' & k' & Hrun & Hle & Hr); [unfold ALLOCATION_BLOCK_SIZE; lia|].
    unfold ALLOCATION_BLOCK_SIZE in *. exists r, s', k'. split_and!; [done|lia..|done].
  - destruct (reserve_oids_spec lo k s Hreg Hnone Hk)
      as (b & s1 & k1 & -> & Hreg1 & Hnone1 & Hk1 & Hc1 & Hle1 & Hb1);
      [unfold ALLOCATION_BLOCK_SIZE; lia|].
    unfold ALLOCATION_BLOCK_SIZE in *. specialize (Hb1 Hlok). run. destruct b as [b|].
    + destruct (take_id_spec lo k1 d c b (put_ctx d (set_free_oids (Some b) c) s1))
        as (r & s' & k' & Hrun & Hle & Hr); try done; [unfold ALLOCATION_BLOCK_SIZE; lia|].
      unfold ALLOCATION_BLOCK_SIZE in *. exists r, s', k'. split_and!; [done|lia..|done].
    + eexists _, _, k1. split_and!; [done|lia..|]. split; [done..|].
      eexists. cbn. rewrite lookup_insert_eq. split; [done|]. cbn. lia.
Qed.

Lemma next_ids_spec n lo k d (s : st) :
  ids_ok d lo k s -> 0 <= lo -> k + 2 * ALLOCATION_BLOCK_SIZE * Z.of_nat n < 2 ^ 64 ->
  exists ids s' k', next_ids n d s = Ret (ids, s')
    /\ StronglySorted Z.lt ids /\ Forall (fun oid => lo <= oid < k') ids
    /\ counter s' = Ret k' /\ k <= k'.
Proof.
  unfold ALLOCATION_BLOCK_SIZE. revert lo k s. induction n as [|n IH]; intros lo k s Hok H0 Hmax.
  { exists [], s, k. split_and!; try constructor; [|lia]. by destruct Hok. }
  destruct (next_object_id_spec lo k d s Hok H0) as (r & s1 & k1 & Hr & Hle & Hmatch);
    [unfold ALLOCATION_BLOCK_SIZE; lia|].
  unfold ALLOCATION_BLOCK_SIZE in *. cbn [next_ids]. rewrite Hr. run. destruct r as [oid|err].
  - destruct Hmatch as [Hoid Hok1].
    destruct (IH (oid + 1) k1 s1 Hok1) as (ids & s' & k' & -> & Hsort & Hall & Hk' & Hle'); [lia..|].
    run. eexists _, s', k'. split; [done|]. split_and!; [|constructor|done|lia].
    + constructor; [done|]. eapply Forall_impl; [exact Hall|]. intros i Hi. cbn in Hi. lia.
    + lia.
    + eapply Forall_impl; [exact Hall|]. intros i Hi. cbn in Hi. lia.
  - destruct (IH lo k1 s1 Hmatch) as (ids & s' & k' & -> & Hsort & Hall & Hk' & Hle'); [lia..|].
    run. eexists _, s', k'. split_and!; try done. lia.
Qed.

(** C25. New objects of a transaction get fresh ids, whatever the storage does
    when blocks of ids are reserved: asking any number of times returns, the ids
    obtained are increasing, none is below the counter that was committed when the
    transaction had no block yet, and all are below the counter that is committed
    afterwards, which is where any other transaction or a restarted server
    continues.  So an id is never given to two objects. *)
Theorem object_ids_unique (n : nat) (d : positive) c k (s : st) :
  registered s -> free_oid_blocks (world s) = [] ->
  data_contexts (world s) !! d = Some c -> free_oids c = None ->
  counter s = Ret k -> 0 <= k -> k + 2 * ALLOCATION_BLOCK_SIZE * Z.of_nat n < 2 ^ 64 ->
  exists ids s' k', next_ids n d s = Ret (ids, s')
    /\ StronglySorted Z.lt ids /\ Forall (fun oid => k <= oid < k') ids
    /\ counter s' = Ret k' /\ k <= k'.
Proof.
  intros Hreg Hnone Hc Hfree Hk H0 Hmax. apply (next_ids_spec n k k); [|done..].
  split; [done..|]. exists c. split; [done|]. rewrite Hfree. cbn. lia.
Qed.

End ids.

(** ** Bindings *)

Section bindings.

Context {E T U Obj Ser X : Type} {eng : gzochid_storage_engine_interface E T}.
Context {view : T -> E -> contents} {durable : E -> contents}.
Context `{HL : !EngineLaws eng view durable}.
Context (oid_strategy : gzochid_oid_allocation_strategy E U).
Context (ser : serializations E T Obj Ser X) (be : bool).

Abbreviation st := (data_st E T Obj Ser X).
Abbreviation ctx := (gzochid_data_transaction_context T).

(** The ids of a block are ids. *)
Definition block_ok (b : gzochid_data_oid_block_state) : Prop := in_unsigned 64 (blk_next b).

(** The transaction of the thread is active and the data manager has joined it
    with the context [d], whose storage transaction is [t]. *)
Record attached (d : positive) (t : T) (s : st) : Prop := {
  attached_tx : exists tx r, thread_transaction s = Some tx /\ tx_state tx = ACTIVE
    /\ participants tx !! "data"%string = Some r /\ data r = Some d;
  attached_ctx : exists c, data_contexts (world s) !! d = Some c /\ ctx_transaction c = Some t
}.

(** Moreover, the references found by the address of an object are those of that
    object, and are found by their ids. *)
Record joined (d : positive) (t : T) (s : st) : Prop := {
  joined_attached : attached d t s;
  joined_tables : exists c, data_contexts (world s) !! d = Some c
    /\ (forall b, free_oids c = Some b -> block_ok b)
    /\ (forall p r, ptrs_to_references c !! Some p = Some r ->
          exists x, references (world s) !! r = Some x /\ ref_obj x = Some p
            /\ oids_to_references c !! ref_oid x = Some r /\ in_unsigned 64 (ref_oid x));
  joined_free : Forall block_ok (free_oid_blocks (world s))
}.

(** The strategy gives out ids. *)
Context (Hstrategy : forall e b e', gzochid_oids_reserve_block oid_strategy e = Ret (inl b, e') ->
  in_unsigned 64 (block_start b)).

Lemma join_attached now d t (s : st) : attached d t s -> join_transaction eng now s = Ret (inl d, s).
Proof.
  intros [(tx & r & Htx & Hact & Hr & Hd) _]. unfold join_transaction, joined_ctx.
  unfold gzochid_transaction_active, gzochid_transaction_context. rewrite Htx, Hact.
  cbn [p_name data_participant bool_decide decide_rel]. rewrite Hr. run. cbn. by rewrite Hd.
Qed.

Lemma current_attached d t (s : st) : attached d t s -> current_ctx s = Ret d.
Proof.
  intros [(tx & r & Htx & Hact & Hr & Hd) _]. unfold current_ctx, gzochid_transaction_context.
  rewrite Htx. cbn [p_name data_participant]. rewrite Hr. cbn. by rewrite Hd.
Qed.

Lemma txn_attached d t (s : st) : attached d t s -> get_txn d s = Ret t.
Proof. intros [_ (c & Hc & Ht)]. unfold get_txn, get_ctx. rewrite Hc. run. by rewrite Ht. Qed.

(** The participant "data" has been marked for rollback. *)
Definition marked (s : st) : Prop :=
  exists tx r, thread_transaction s = Some tx /\ participants tx !! "data"%string = Some r
    /\ marked_rollback r = true.

Lemma mark_attached d t retry (s : st) :
  attached d t s ->
  exists s', gzochid_transaction_mark_for_rollback data_participant retry s = Ret s'
    /\ world s' = world s /\ marked s'.
Proof.
  intros [(tx & r & Htx & Hact & Hr & Hd) _]. unfold gzochid_transaction_mark_for_rollback.
  rewrite Htx. run. cbn [p_name data_participant]. rewrite Hr. eexists. split_and!; [done|done|].
  eexists _, _. split; [done|]. cbn. by rewrite lookup_insert_eq.
Qed.

Lemma attached_storage d t e (s : st) : attached d t s -> attached d t (put_storage e s).
Proof. by intros [? ?]. Qed.

Lemma attached_put_ctx d t c (s : st) :
  attached d t s -> ctx_transaction c = Some t -> attached d t (put_ctx d c s).
Proof.
  intros [Htx _] Ht. split; [done|]. exists c. cbn. by rewrite lookup_insert_eq.
Qed.

Lemma joined_storage d t e (s : st) : joined d t s -> joined d t (put_storage e s).
Proof. intros [? ? ?]. split; [by apply attached_storage|done..]. Qed.

Lemma joined_free_oids d t c fb b used (s : st) :
  joined d t s -> data_contexts (world s) !! d = Some (set_free_oids fb c) ->
  (forall b', b = Some b' -> block_ok b') ->
  joined d t (put_ctx d (DataContext b used (ctx_transaction c) (oids_to_references c)
    (ptrs_to_references c)) s).
Proof.
  intros [Hatt (c' & Hc' & Hb & Hp) Hf] Hc Hb'. split; [| |done].
  - apply attached_put_ctx; [done|]. destruct Hatt as [_ (c1 & Hc1 & Ht)]. by simplify_eq.
  - simplify_eq. eexists. cbn. rewrite lookup_insert_eq. split; [done|]. by split_and!.
Qed.

Lemma reserve_oids_joined d t (s s' : st) b :
  joined d t s -> reserve_oids oid_strategy s = Ret (Some b, s') ->
  joined d t s' /\ block_ok b /\ data_contexts (world s') = data_contexts (world s).
Proof.
  intros Hj Hr. unfold reserve_oids in Hr.
  destruct (free_oid_blocks (world s)) as [|b0 rest] eqn:Hfree.
  - apply bind_Ret in Hr as ([res e] & Hres & Hr). destruct res as [block|err].
    + simplify_eq. split_and!; [by apply joined_storage| |done].
      unfold block_ok, create_oid_block_state. cbn. by eapply Hstrategy.
    + apply bind_Ret in Hr as (s1 & _ & Hr). simplify_eq.
  - simplify_eq. destruct Hj as [[Htx Hc] Hp Hf]. rewrite Hfree in Hf.
    apply Forall_cons in Hf as [Hb Hrest]. split_and!; [by repeat split|done|done].
Qed.

Lemma block_ok_next b : block_ok (BlockState (blk_first b) (u64 (blk_next b + 1)) (blk_last b)).
Proof. apply unsigned_range. lia. Qed.

Lemma take_object_id_joined d t c fb b oid (s s' : st) :
  joined d t s -> data_contexts (world s) !! d = Some (set_free_oids fb c) -> block_ok b ->
  take_object_id oid_strategy d c b s = Ret (inl oid, s') ->
  joined d t s' /\ in_unsigned 64 oid.
Proof.
  intros Hj Hc Hb Hr. unfold take_object_id in Hr. case_match.
  - apply bind_Ret in Hr as ([nb s1] & Hres & Hr). destruct nb as [nb|]; simplify_eq.
    destruct (reserve_oids_joined _ _ _ _ _ Hj Hres) as (Hj1 & Hnb & Hc1).
    split; [|exact Hb]. eapply joined_free_oids; [done|by rewrite Hc1|]. by intros b' [= <-].
  - simplify_eq. split; [|exact Hb]. unfold set_free_oids. eapply joined_free_oids; [done..|].
    intros b' [= <-]. apply block_ok_next.
Qed.

Lemma next_object_id_joined d t oid (s s' : st) :
  joined d t s -> next_object_id oid_strategy d s = Ret (inl oid, s') ->
  joined d t s' /\ in_unsigned 64 oid.
Proof.
  intros Hj Hr. pose proof Hj as [_ (c & Hc & Hfb & _) _].
  unfold next_object_id, get_ctx in Hr. rewrite Hc in Hr.
  cbn [mbind outcome_bind deref] in Hr. destruct (free_oids c) as [b|] eqn:Hfree.
  - cbn [mbind outcome_bind] in Hr.
    apply (take_object_id_joined d t c (free_oids c) b oid s s'); [done| | |done].
    + rewrite Hc. by destruct c.
    + by apply Hfb.
  - apply bind_Ret in Hr as ([b s1] & Hres & Hr).
    apply bind_Ret in Hres as ([b2 s2] & Hres & Heq). destruct b as [b|]; [|simplify_eq].
    simplify_eq. destruct (reserve_oids_joined _ _ _ _ _ Hj Hres) as (Hj2 & Hb & Hc2).
    apply (take_object_id_joined d t c (Some b) b oid (put_ctx d (set_free_oids (Some b) c) s2) s');
      [|cbn; by rewrite lookup_insert_eq|done..].
    unfold set_free_oids. apply (joined_free_oids d t c (free_oids c)); [done| |].
    + rewrite Hc2, Hc. by destruct c.
    + by intros b' [= <-].
Qed.

(** The reference [r] of an object [p] is known under its id. *)
Definition known (d : positive) (t : T) (p r : positive) (s : st) : Prop :=
  attached d t s /\ exists c x, data_contexts (world s) !! d = Some c
    /\ references (world s) !! r = Some x /\ ref_obj x = Some p
    /\ oids_to_references c !! ref_oid x = Some r /\ in_unsigned 64 (ref_oid x).

Lemma create_new_reference_joined d t p z r (s s' : st) :
  joined d t s -> create_new_reference eng oid_strategy be (Some p) z s = Ret (inl r, s') ->
  attached d t s' /\ exists x, references (world s') !! r = Some x /\ ref_obj x = Some p
    /\ in_unsigned 64 (ref_oid x).
Proof.
  intros Hj Hr. unfold create_new_reference in Hr.
  rewrite (current_attached d t s (joined_attached _ _ _ Hj)) in Hr. cbn [mbind outcome_bind] in Hr.
  apply bind_Ret in Hr as ([[oid|err] s1] & Hoid & Hr); [|simplify_eq].
  destruct (next_object_id_joined _ _ _ _ _ Hj Hoid) as [[Hatt1 _ _] Hrange].
  rewrite (txn_attached d t s1 Hatt1) in Hr. cbn [mbind outcome_bind] in Hr.
  case_match; [simplify_eq|].
  destruct (transaction_get_for_update eng t Oids (oid_bytes be oid) (storage (world s1)))
    as [v e] eqn:Hget.
  case_match; [apply bind_Ret in Hr as (? & _ & ?); simplify_eq|].
  unfold alloc_ref in Hr. simplify_eq. split.
  - destruct Hatt1 as [? ?]. by split.
  - eexists. cbn. rewrite lookup_insert_eq. by split_and!.
Qed.

Lemma get_reference_by_ptr_known d t p z r (s s' : st) :
  joined d t s -> get_reference_by_ptr eng oid_strategy be (Some p) z s = Ret (inl r, s') ->
  known d t p r s'.
Proof.
  intros Hj Hr. unfold get_reference_by_ptr in Hr. pose proof Hj as [Hatt (c & Hc & _ & Hp) _].
  rewrite (current_attached d t s Hatt) in Hr. unfold get_ctx, get_ref in Hr.
  cbn [mbind outcome_bind] in Hr. rewrite Hc in Hr. cbn [mbind outcome_bind deref] in Hr.
  destruct (ptrs_to_references c !! Some p) as [r0|] eqn:Hptr.
  - simplify_eq. destruct (Hp _ _ Hptr) as (x & Hx & Ho & Htab & Hrange).
    split; [done|]. exists c, x. by split_and!.
  - apply bind_Ret in Hr as ([[r0|err] s1] & Hnew & Hr); [|simplify_eq].
    destruct (create_new_reference_joined _ _ _ _ _ _ _ Hj Hnew)
      as (Hatt1 & x & Hx & Ho & Hrange).
    rewrite Hx in Hr. cbn [mbind outcome_bind deref] in Hr.
    pose proof Hatt1 as [_ (c1 & Hc1 & Ht1)]. rewrite Hc1 in Hr.
    cbn [mbind outcome_bind deref] in Hr. simplify_eq. split.
    + by apply attached_put_ctx.
    + eexists _, x. cbn. rewrite lookup_insert_eq. split_and!; try done. cbn.
      apply lookup_insert_eq.
Qed.

Lemma set_binding_known d t p r x name (s s1 : st) :
  known d t p r s -> references (world s) !! r = Some x ->
  set_binding eng be d name (ref_oid x) s = Ret (None, s1) ->
  known d t p r s1 /\ references (world s1) = references (world s)
  /\ view t (storage (world s1)) !! (Names, name_key name) = Some (oid_bytes be (ref_oid x)).
Proof.
  intros [Hatt Hk] Hx Hset. unfold set_binding in Hset.
  rewrite (txn_attached d t s Hatt) in Hset. cbn [mbind outcome_bind] in Hset.
  case_match eqn:Hroll; [apply bind_Ret in Hset as (? & _ & ?); simplify_eq|]. simplify_eq.
  split_and!; [|done|].
  - split; [by apply attached_storage|exact Hk].
  - cbn. rewrite put_view by exact Hroll. apply lookup_insert_eq.
Qed.

Lemma get_binding_known d t p r x name z now (s : st) :
  known d t p r s -> references (world s) !! r = Some x ->
  view t (storage (world s)) !! (Names, name_key name) = Some (oid_bytes be (ref_oid x)) ->
  exists res err s', gzochid_data_get_binding eng oid_strategy ser be now name z s
      = Ret (res, err, s')
    /\ (res = Some p /\ err = None
        \/ res = None /\ err = Some ERROR_TRANSACTION /\ marked s'
           /\ tx_rollback eng t (storage (world s')) = true).
Proof.
  intros [Hatt (c & x' & Hc & Hx' & Ho & Htab & Hrange)] Hx Hname.
  assert (x' = x) as -> by congruence. clear Hx'.
  unfold gzochid_data_get_binding. rewrite (join_attached now d t s Hatt). run.
  unfold get_binding. rewrite (txn_attached d t s Hatt). run.
  destruct (transaction_get eng t Names (name_key name) (storage (world s))) as [v e] eqn:Hget.
  set (s1 := put_storage e s). unfold txn_rollback. change (storage (world s1)) with e.
  destruct (tx_rollback eng t e) eqn:Hroll.
  - rewrite (get_failed _ _ _ _ _ _ Hget Hroll). cbn [c_assert]. run. unfold mark_rollback.
    destruct (mark_attached d t (tx_should_retry eng t (storage (world s1))) s1)
      as (s2 & -> & Hw & Hmark); [by apply attached_storage|].
    run. eexists _, _, s2. split; [done|]. right. rewrite Hw. by split_and!.
  - destruct (get_value _ _ _ _ _ _ Hget Hroll) as [-> Hv]. rewrite Hname.
    pose proof (decode_oid_bytes be (ref_oid x) Hrange) as Hdec.
    unfold next_oid_of in Hdec. apply bind_Ret in Hdec as ([] & -> & Hdec). run.
    injection Hdec as ->. unfold get_reference_by_oid.
    rewrite (current_attached d t s1) by (by apply attached_storage). run.
    unfold get_ctx. change (data_contexts (world s1)) with (data_contexts (world s)).
    rewrite Hc. run. rewrite Htab. run. unfold deref_obj, dereference, get_ref.
    change (references (world s1)) with (references (world s)). rewrite Hx. run. rewrite Ho.
    rewrite bool_decide_eq_true_2 by done. cbn [orb andb]. run.
    change (references (world s1)) with (references (world s)). rewrite Hx. run.
    eexists _, _, _. split; [done|]. left. by rewrite Ho.
Qed.

(** C26. An object bound to a name is what the name yields.  After binding an
    object to a name, in the same transaction, looking up the name returns the
    same object, at the same address, whether or not the object was known to the
    data manager before; or the storage transaction has failed in the meantime,
    and then the lookup reports a transaction error and the transaction is marked
    for rollback. *)
Theorem binding_yields_object (d p : positive) (t : T) (name : bytes) (z z' : Ser)
    (now now' : timeval) (s s1 : st) :
  joined d t s ->
  gzochid_data_set_binding eng oid_strategy be now name z (Some p) s = Ret (None, s1) ->
  exists res err s2, gzochid_data_get_binding eng oid_strategy ser be now' name z' s1
      = Ret (res, err, s2)
    /\ (res = Some p /\ err = None
        \/ res = None /\ err = Some ERROR_TRANSACTION /\ marked s2
           /\ tx_rollback eng t (storage (world s2)) = true).
Proof.
  intros Hj Hset. unfold gzochid_data_set_binding in Hset.
  rewrite (join_attached now d t s) in Hset by apply Hj. cbn [mbind outcome_bind] in Hset.
  apply bind_Ret in Hset as ([[r|err] s0] & Hr & Hset); [|simplify_eq].
  pose proof (get_reference_by_ptr_known _ _ _ _ _ _ _ Hj Hr) as Hknown.
  pose proof Hknown as [_ (c & x & _ & Hx & _)]. unfold get_ref in Hset. rewrite Hx in Hset.
  cbn [mbind outcome_bind deref] in Hset.
  destruct (set_binding_known _ _ _ _ _ _ _ _ Hknown Hx Hset) as (Hknown1 & Hrefs & Hname).
  apply (get_binding_known d t p r x); [done|by rewrite Hrefs|done].
Qed.

End bindings.

(** ** Instances at which the properties are used *)

Abbreviation sample_st := (data_st map_engine_state positive bytes unit unit).

(** Objects are bytes and their own serializations. *)
Definition sample_set_objects (o : gmap positive bytes) (s : sample_st) : sample_st :=
  set_world (DataWorld (data_contexts (world s)) (references (world s)) o
    (free_oid_blocks (world s)) (storage (world s)) (events (world s)) (components (world s))) s.

Definition sample_ser : serializations map_engine_state positive bytes unit unit := {|
  serializer _ p s := Ret (p ≫= (fun o => objects (world s) !! o), s);
  deserializer _ bs s :=
    let o := fresh (dom (objects (world s))) in
    Ret (Some o, false, sample_set_objects (<[o := bs]> (objects (world s))) s);
  finalizer _ o s := Ret (sample_set_objects (delete o (objects (world s))) s)
|}.

Definition sample_tx_values (m : gmap string
  (gzochid_transaction_participant_registration data_fn (option positive))) := (map_to_list m).*2.
Definition sample_ref_values (m : gmap Z positive) := (map_to_list m).*2.

Definition sample_transaction : gzochid_transaction data_fn (option positive) :=
  Transaction 1 {["data"%string := TxRegistration data_participant (Some 1%positive) false false]}
    ACTIVE None.

(** A new object 1 with id 7 and an object 2 that was read, with id 8. *)
Definition sample_ctx : gzochid_data_transaction_context positive :=
  DataContext None [] (Some 1%positive) {[7 := 1%positive; 8 := 2%positive]}
    {[Some 1%positive := 1%positive; Some 2%positive := 2%positive]}.

Definition sample_state : sample_st :=
  TxThread (Some sample_transaction) (Some (TxTiming (Timeval 0 0) None)) 2
    (DataWorld {[1%positive := sample_ctx]}
       {[1%positive := Reference STATE_NEW tt 7 (Some 1%positive);
         2%positive := Reference STATE_NOT_MODIFIED tt 8 (Some 2%positive)]}
       {[1%positive := [1; 2; 3]; 2%positive := [4]]} []
       (MapEngine ∅ {[1%positive := ∅]}) [] tt).

Lemma sample_table_ok : table_ok sample_ctx (world sample_state).
Proof.
  intros oid r Hr. cbn in Hr.
  apply lookup_insert_Some in Hr as [[<- <-]|[_ [<- <-]%lookup_singleton_Some]].
  - eexists. split; [reflexivity|]. split; [done|done|done|by eexists].
  - eexists. split; [reflexivity|]. split; [done|done|done|by eexists].
Qed.

Lemma transaction_end_durable_witness :
  exists res s',
    gzochid_transaction_end
      (call_prepare (eng := map_engine) sample_ser false sample_tx_values sample_ref_values)
      (call_commit (eng := map_engine) sample_ser sample_ref_values)
      (call_rollback (eng := map_engine) sample_ser sample_ref_values) sample_tx_values
      (Timeval 5 0) sample_state = Ret (res, s')
    /\ res = TX_SUCCESS
    /\ committed (storage (world s')) !! (Oids, oid_bytes false 7) = Some [1; 2; 3].
Proof.
  destruct (transaction_end_durable (eng := map_engine) (view := map_view) (durable := committed)
    sample_ser false sample_tx_values sample_ref_values (fun m => reflexivity _)
    (fun _ ob => ob) ltac:(reflexivity) (fun _ o objs => delete o objs) ltac:(reflexivity)
    (fun m => reflexivity _) (Timeval 5 0) sample_state 1%positive sample_ctx 1%positive
    false false sample_transaction (TxTiming (Timeval 0 0) None) eq_refl eq_refl eq_refl
    eq_refl eq_refl sample_table_ok)
    as (res & s' & Hrun & _ & _ & Hres & Hsuccess).
  assert (Hyes : res = TX_SUCCESS).
  { apply Hsuccess; [done..|]. intros oid r x Hr Hx Hf. cbn in Hr, Hx.
    apply lookup_insert_Some in Hr as [[<- <-]|[_ [<- <-]%lookup_singleton_Some]];
      vm_compute in Hx; injection Hx as <-; [by eexists | done]. }
  exists res, s'. split; [exact Hrun|]. split; [exact Hyes|]. rewrite Hyes in Hres.
  destruct Hres as [Hin _].
  destruct (Hin 7 1%positive (Reference STATE_NEW tt 7 (Some 1%positive)))
    as (bs & Hbs & Hlook); [reflexivity..|].
  vm_compute in Hbs. injection Hbs as <-. exact Hlook.
Defined.

Lemma object_ids_unique_witness :
  exists ids s' k', next_ids (eng := map_engine) false 150 1 sample_state = Ret (ids, s')
    /\ StronglySorted Z.lt ids /\ Forall (fun oid => 0 <= oid < k') ids
    /\ next_oid_of false (committed (storage (world s')) !! (Meta, [NEXT_OID_KEY])) = Ret k'
    /\ 0 <= k'.
Proof.
  apply (object_ids_unique (eng := map_engine) (view := map_view) (durable := committed)
    false 150 1%positive sample_ctx 0 sample_state); try reflexivity.
  - by eexists _, _.
Defined.

Definition sample_strategy : gzochid_oid_allocation_strategy map_engine_state Z :=
  OidStrategy (fun first e => Ret (inl (OidsBlock first 100), e)) 500.

Definition sample_bound : sample_st :=
  match gzochid_data_set_binding map_engine sample_strategy false (Timeval 1 0) [111] tt
          (Some 3%positive) sample_state with
  | Ret (_, s) => s
  | _ => sample_state
  end.

Lemma binding_yields_object_witness :
  exists res err s2, gzochid_data_get_binding map_engine sample_strategy sample_ser false
      (Timeval 2 0) [111] tt sample_bound = Ret (res, err, s2)
    /\ res = Some 3%positive.
Proof.
  destruct (binding_yields_object (eng := map_engine) (view := map_view) (durable := committed)
    sample_strategy sample_ser false
    (fun e b e' H => ltac:(injection H as <- <-; split; cbn; lia))
    1%positive 3%positive 1%positive [111] tt tt (Timeval 1 0) (Timeval 2 0)
    sample_state sample_bound) as (res & err & s2 & Hrun & [[Hres _]|(_ & _ & _ & Hroll)]).
  - split.
    + split; [by eexists _, _ | by eexists].
    + exists sample_ctx. split; [done|]. split; [done|]. intros p r Hr. cbn in Hr.
      apply lookup_insert_Some in Hr as [[[= <-] <-]|[_ [[= <-] <-]%lookup_singleton_Some]];
        (eexists; split; [reflexivity|]; split_and!; done).
    + constructor.
  - reflexivity.
  - exists res, err, s2. split; [exact Hrun | exact Hres].
  - discriminate.
Defined.
