(* ===== verification/DataSession.v ===== *)
(** * Sessions of the data manager

    What components that keep persistent objects rely on, beyond the single
    operations of [Data]: while a transaction goes on, references are found under
    their ids and under the addresses of their objects, new ids do not collide with
    those in use, and a call about one object leaves the others alone. *)

From S2P Require Import Prelude.
From S2P Require Import Tx.
From S2P Require Import Storage.
From S2P Require Import Oids.
From S2P Require Import Data.

Local Open Scope Z_scope.

(** ** What the operations of the data manager keep *)

Section session.

Context {E T Obj Ser X : Type} {eng : gzochid_storage_engine_interface E T}.
Context {view : T -> E -> contents} {durable : E -> contents}.
Context `{HL : !EngineLaws eng view durable} (be : bool) (now : timeval).

Abbreviation st := (data_st E T Obj Ser X).
Abbreviation strategy := (gzochid_storage_oid_strategy_new eng be Meta).

(** A reference that was not removed and whose object is in memory. *)
Definition live (x : gzochid_data_managed_reference Ser) : Prop :=
  ref_state x = STATE_NEW \/ ref_state x = STATE_MODIFIED \/ ref_state x = STATE_NOT_MODIFIED.

Definition oid_ref (d : positive) (s : st) (oid : Z) : option positive :=
  c ← data_contexts (world s) !! d; oids_to_references c !! oid.

Definition ptr_ref (d : positive) (s : st) (p : positive) : option positive :=
  c ← data_contexts (world s) !! d; ptrs_to_references c !! Some p.

(** The transaction is attached, the ids of its references were given out, and
    what the tables find is right. *)
Record session (d : positive) (t : T) (lo k : Z) (s : st) : Prop := {
  ses_attached : attached d t s;
  ses_ids : ids_ok (durable := durable) be d lo k s;
  ses_lo : 0 <= lo;
  ses_oids : forall oid r, oid_ref d s oid = Some r ->
    exists x, references (world s) !! r = Some x /\ ref_oid x = oid /\ 0 <= oid < lo;
  ses_ptrs : forall p r, ptr_ref d s p = Some r ->
    exists x, references (world s) !! r = Some x /\ ref_obj x = Some p
      /\ oid_ref d s (ref_oid x) = Some r /\ is_Some (objects (world s) !! p)
}.

(** References are found as before, and have the same ids and objects; those with an
    object may be marked to be flushed, and nothing else happens to any but [dead] ones. *)
Record grows (d : positive) (dead : positive -> Prop) (s s' : st) : Prop := {
  gr_oids : forall oid r, oid_ref d s oid = Some r -> oid_ref d s' oid = Some r;
  gr_ptrs : forall p r, ptr_ref d s p = Some r -> ptr_ref d s' p = Some r;
  gr_refs : forall r x, references (world s) !! r = Some x ->
    exists x', references (world s') !! r = Some x' /\ ref_oid x' = ref_oid x
      /\ ref_obj x' = ref_obj x
      /\ (~ dead r -> x' = x \/ is_Some (ref_obj x) /\ flushed x' = true)
}.

Abbreviation none := (fun _ : positive => False).

Lemma flushed_live x : flushed x = true -> live x.
Proof. unfold flushed, live. intros [H|H]%orb_true_iff; apply bool_decide_eq_true in H; auto. Qed.

Lemma grows_refl d dead s : grows d dead s s.
Proof. split; [done..|]. intros r x Hx. exists x. split_and!; auto. Qed.

Lemma grows_trans d dead s1 s2 s3 : grows d dead s1 s2 -> grows d dead s2 s3 -> grows d dead s1 s3.
Proof.
  intros [Ho1 Hp1 Hr1] [Ho2 Hp2 Hr2]. split; [by auto..|]. intros r x Hx.
  destruct (Hr1 r x Hx) as (x1 & Hx1 & ? & ? & ?), (Hr2 r x1 Hx1) as (x2 & Hx2 & ? & ? & ?).
  exists x2. split_and!; [done|congruence..|]. intros Hd.
  repeat match goal with H : _ -> _ = _ \/ _ |- _ => specialize (H Hd) end.
  destruct_or!; destruct_and?; subst; auto; right; split; congruence || done.
Qed.

(** Only the storage, the participant's marks and the free ids differ. *)
Record framed (d : positive) (s s' : st) : Prop := {
  fr_attached : forall t, attached d t s -> attached d t s';
  fr_oids : forall oid, oid_ref d s' oid = oid_ref d s oid;
  fr_ptrs : forall p, ptr_ref d s' p = ptr_ref d s p;
  fr_refs : references (world s') = references (world s);
  fr_objects : objects (world s') = objects (world s)
}.

Lemma framed_refl d s : framed d s s.
Proof. by split. Qed.

Lemma framed_trans d s1 s2 s3 : framed d s1 s2 -> framed d s2 s3 -> framed d s1 s3.
Proof. intros [] []. split; [by auto|intros; congruence..]. Qed.

Lemma framed_grows d dead s s' : framed d s s' -> grows d dead s s'.
Proof.
  intros [_ Ho Hp Hr _]. split; [intros; congruence..|]. intros r x Hx. exists x.
  rewrite Hr. split_and!; auto.
Qed.

Lemma framed_session d t lo lo' k k' s s' :
  session d t lo k s -> framed d s s' -> lo <= lo' ->
  ids_ok (durable := durable) be d lo' k' s' -> session d t lo' k' s'.
Proof.
  intros [Ha Hi Hlo Ho Hp] [Fa Fo Fp Fr Fb] Hle Hi'. split; [by auto|done|lia| |].
  - intros oid r Hr. rewrite Fo in Hr. rewrite Fr. destruct (Ho oid r Hr) as (x & ? & ? & ?).
    exists x. split_and!; done || lia.
  - intros p r Hr. rewrite Fp in Hr. rewrite Fr, Fb. destruct (Hp p r Hr) as (x & Hx & Hobj & Hoid & ?).
    exists x. rewrite Fo. by split_and!.
Qed.

Lemma framed_storage d e (s : st) : framed d s (put_storage e s).
Proof. split; try done. intros t. apply attached_storage. Qed.

Lemma ids_ok_storage d lo k e (s : st) :
  ids_ok (durable := durable) be d lo k s ->
  durable e = durable (storage (world s)) ->
  ids_ok (durable := durable) be d lo k (put_storage e s).
Proof. intros [? ? Hk ?] He. split; try done. cbn. by rewrite He. Qed.

Lemma mark_framed d retry (s s' : st) :
  gzochid_transaction_mark_for_rollback data_participant retry s = Ret s' -> framed d s s'.
Proof.
  intros Hs. unfold gzochid_transaction_mark_for_rollback in Hs.
  destruct (thread_transaction s) as [tx|] eqn:Htx; [|done]. cbn in Hs.
  destruct (participants tx !! "data"%string) as [r|] eqn:Hr; [|done]. simplify_eq.
  split; try done. intros t [(tx' & r' & Htx' & Hact & Hr' & Hd) Hc]. simplify_eq.
  split; [|done]. eexists _, _. split; [done|]. split; [done|]. cbn.
  rewrite lookup_insert_eq. by split.
Qed.

Lemma mark_session d t lo k retry (s : st) :
  session d t lo k s ->
  exists s', gzochid_transaction_mark_for_rollback data_participant retry s = Ret s'
    /\ framed d s s' /\ session d t lo k s'.
Proof.
  intros Hs. destruct (mark_registered (T := T) retry s) as (s' & Hm & Hw & Hreg).
  { by destruct Hs as [_ [? _ _ _] _ _ _]. }
  exists s'. pose proof (mark_framed d _ _ _ Hm) as Hf. split_and!; [done..|].
  apply (framed_session d t lo lo k k s); [done..|lia|]. destruct Hs as [_ [H1 H2 H3 H4] _ _ _].
  split; [done|by rewrite Hw..].
Qed.

Lemma put_ctx_framed d c0 c (s : st) :
  data_contexts (world s) !! d = Some c0 -> ctx_transaction c = ctx_transaction c0 ->
  oids_to_references c = oids_to_references c0 -> ptrs_to_references c = ptrs_to_references c0 ->
  framed d s (put_ctx d c s).
Proof.
  intros Hc Ht Ho Hp. split; [| | |done|done].
  - intros t Ha. apply attached_put_ctx; [done|]. destruct Ha as [_ (c' & Hc' & Ht')]. congruence.
  - intros oid. unfold oid_ref. cbn. rewrite lookup_insert_eq, Hc. cbn. by rewrite Ho.
  - intros p. unfold ptr_ref. cbn. rewrite lookup_insert_eq, Hc. cbn. by rewrite Hp.
Qed.

Lemma reserve_oids_framed d b (s s' : st) :
  reserve_oids strategy s = Ret (b, s') ->
  framed d s s' /\ data_contexts (world s') = data_contexts (world s).
Proof.
  intros Hr. unfold reserve_oids in Hr. destruct (free_oid_blocks (world s)) as [|b0 rest].
  - apply bind_Ret in Hr as ([[block|err] e] & _ & Hr).
    + simplify_eq. split; [apply framed_storage|done].
    + apply bind_Ret in Hr as (s1 & Hm & Hr). simplify_eq. split.
      * eapply framed_trans; [apply framed_storage | by eapply mark_framed].
      * unfold gzochid_transaction_mark_for_rollback in Hm.
        apply bind_Ret in Hm as (tx & _ & Hm). by case_match; simplify_eq.
  - simplify_eq. split; [|done]. split; try done. by intros t [].
Qed.

Lemma next_object_id_framed d c res (s s' : st) :
  data_contexts (world s) !! d = Some c -> next_object_id strategy d s = Ret (res, s') ->
  framed d s s'.
Proof.
  intros Hc Hr. unfold next_object_id, get_ctx in Hr. rewrite Hc in Hr.
  cbn [mbind outcome_bind deref] in Hr. apply bind_Ret in Hr as ([b s1] & Hb & Hr).
  assert (Hs1 : framed d s s1 /\ exists fb, data_contexts (world s1) !! d = Some (set_free_oids fb c)).
  { destruct (free_oids c) as [b0|].
    - simplify_eq. split; [apply framed_refl|]. exists (free_oids c). rewrite Hc. by destruct c.
    - apply bind_Ret in Hb as ([b2 s2] & Hb & Heq). simplify_eq.
      destruct (reserve_oids_framed d _ _ _ Hb) as [Hf Hctx]. split.
      + eapply framed_trans; [exact Hf|]. by apply (put_ctx_framed d c); [rewrite Hctx|..].
      + exists b. cbn. by rewrite lookup_insert_eq. }
  destruct Hs1 as [Hf1 (fb & Hc1)]. destruct b as [b|]; [|by simplify_eq].
  eapply framed_trans; [exact Hf1|]. unfold take_object_id in Hr. case_match.
  - apply bind_Ret in Hr as ([nb s2] & Hb2 & Hr). simplify_eq.
    destruct (reserve_oids_framed d _ _ _ Hb2) as [Hf2 Hctx].
    eapply framed_trans; [exact Hf2|].
    by apply (put_ctx_framed d (set_free_oids fb c)); [rewrite Hctx|..].
  - simplify_eq. by apply (put_ctx_framed d (set_free_oids fb c)).
Qed.

(** What a call of the data manager leaves: a session that has grown, whose counter of ids
    moved by at most two blocks, with no other new ids than from [lo] on. *)
Definition after (d : positive) (t : T) (dead : positive -> Prop) (lo k : Z) (s s' : st) : Prop :=
  (exists lo' k', session d t lo' k' s' /\ k' <= k + 2 * ALLOCATION_BLOCK_SIZE /\ lo <= lo')
  /\ grows d dead s s' /\ objects (world s') = objects (world s)
  /\ forall oid r, oid_ref d s' oid = Some r -> oid_ref d s oid = Some r \/ lo <= oid.

Lemma framed_after d t lo k k' dead (s s' : st) :
  framed d s s' -> session d t lo k' s' -> k' <= k + 2 * ALLOCATION_BLOCK_SIZE ->
  after d t dead lo k s s'.
Proof.
  intros Hf Hs' Hle. split; [exists lo, k'; split_and!; done || lia|]. split; [by apply framed_grows|].
  split; [apply Hf|]. intros oid r Hr. left. by rewrite <- (fr_oids _ _ _ Hf).
Qed.

Lemma storage_session d t lo k e (s : st) :
  session d t lo k s -> durable e = durable (storage (world s)) ->
  session d t lo k (put_storage e s).
Proof.
  intros Hs He. apply (framed_session d t lo lo k k s); [done|apply framed_storage|lia|].
  apply ids_ok_storage; [by destruct Hs|done].
Qed.

Abbreviation new_ref z oid p := (Reference STATE_NEW z oid (Some p)).

(** A new reference enters the tables. *)
Lemma add_reference_session d t lo k oid p z r c (s : st) :
  session d t (oid + 1) k s -> session d t lo k s -> lo <= oid -> ptr_ref d s p = None ->
  is_Some (objects (world s) !! p) -> data_contexts (world s) !! d = Some c ->
  references (world s) !! r = None ->
  let s' := put_ctx d (add_ptr_reference (Some p) r (add_oid_reference oid r c))
              (put_ref r (new_ref z oid p) s) in
  session d t (oid + 1) k s' /\ grows d none s s' /\ objects (world s') = objects (world s)
  /\ ptr_ref d s' p = Some r /\ references (world s') !! r = Some (new_ref z oid p)
  /\ oid_ref d s' oid = Some r
  /\ forall o r', oid_ref d s' o = Some r' -> oid_ref d s o = Some r' \/ lo <= o.
Proof.
  intros [Ha Hi Hlo _ _] [_ _ Hlo0 Ho Hp] Hle Hnew Hobj Hc Hr s'.
  assert (Ho' : forall o, oid_ref d s' o = if decide (o = oid) then Some r else oid_ref d s o).
  { intros o. unfold oid_ref. subst s'. cbn. rewrite lookup_insert_eq, Hc. cbn.
    case_decide; [subst; apply lookup_insert_eq | by apply lookup_insert_ne]. }
  assert (Hp' : forall q, ptr_ref d s' q = if decide (q = p) then Some r else ptr_ref d s q).
  { intros q. unfold ptr_ref. subst s'. cbn. rewrite lookup_insert_eq, Hc. cbn.
    case_decide; [subst; apply lookup_insert_eq | apply lookup_insert_ne; congruence]. }
  assert (Hold : forall r' x, references (world s) !! r' = Some x ->
    references (world s') !! r' = Some x).
  { intros r' x Hx. subst s'. cbn. rewrite lookup_insert_ne; [done|]. intros ->. congruence. }
  assert (Hx : references (world s') !! r = Some (new_ref z oid p))
    by (subst s'; cbn; apply lookup_insert_eq).
  split_and!; [| |done|rewrite Hp'; by case_decide|done|rewrite Ho'; by case_decide|].
  3: { intros o r'. rewrite Ho'. case_decide as He; [right; lia|by left]. }
  - split; [| |done| |].
    + apply attached_put_ctx; [by destruct Ha|]. destruct Ha as [_ (c' & ? & ?)]. cbn. congruence.
    + destruct Hi as [H1 H2 H3 (c' & Hc' & Hb)]. split; [done..|]. simplify_eq.
      eexists. subst s'. cbn. rewrite lookup_insert_eq. split; [done|exact Hb].
    + intros o r'. rewrite Ho'. case_decide as He.
      * intros [= <-]. eexists. split; [exact Hx|]. cbn. split_and!; done || lia.
      * intros Hr'. destruct (Ho o r' Hr') as (x & Hx' & ? & ?). exists x.
        split_and!; [by apply Hold|done|lia..].
    + intros q r'. rewrite Hp'. case_decide as He.
      * intros [= <-]. eexists. split; [exact Hx|]. cbn. rewrite Ho', He. by case_decide.
      * intros Hr'. destruct (Hp q r' Hr') as (x & Hx' & Hq & Hoid & Hin). exists x.
        split_and!; [by apply Hold|done| |done]. rewrite Ho'. case_decide as Hcoll; [|done].
        destruct (Ho _ _ Hoid) as (x2 & ? & ? & ?). lia.
  - split.
    + intros o r' Hr'. rewrite Ho'. case_decide; [|done]. subst.
      destruct (Ho _ _ Hr') as (x2 & ? & ? & ?). lia.
    + intros q r' Hr'. rewrite Hp'. case_decide; [|done]. subst. congruence.
    + intros r' x Hr'. exists x. split_and!; auto.
Qed.

Lemma session_joined d t lo k (s : st) :
  session d t lo k s -> join_transaction eng now s = Ret (inl d, s) /\ current_ctx s = Ret d
    /\ get_txn d s = Ret t /\ exists c, data_contexts (world s) !! d = Some c.
Proof.
  intros [Ha _ _ _ _]. split_and!; [by eapply join_attached|by eapply current_attached|
    by eapply txn_attached|]. destruct Ha as [_ (c & Hc & _)]. by exists c.
Qed.

(** The id of a new reference is above those in the tables. *)
Lemma next_object_id_session d t lo k (s : st) :
  session d t lo k s -> k < 2 ^ 64 - 2 * ALLOCATION_BLOCK_SIZE ->
  exists res s' k', next_object_id strategy d s = Ret (res, s') /\ framed d s s'
    /\ session d t lo k' s' /\ k' <= k + 2 * ALLOCATION_BLOCK_SIZE
    /\ forall oid, res = inl oid -> lo <= oid /\ session d t (oid + 1) k' s'.
Proof.
  intros Hs Hk. destruct (session_joined _ _ _ _ _ Hs) as (_ & _ & _ & c & Hc).
  destruct (next_object_id_spec (HL := HL) be lo k d s) as (res & s' & k' & Hn & Hle & Hres);
    [by destruct Hs|by destruct Hs|lia|].
  pose proof (next_object_id_framed d c res s s' Hc Hn) as Hf.
  exists res, s', k'. split; [done|]. split; [done|]. destruct res as [oid|err].
  - destruct Hres as [[Hlo Hhi] Hids]. split_and!.
    + apply (framed_session d t lo lo k k' s); [done..|lia|]. destruct Hids as [? ? ? (c' & ? & Hb)].
      split; [done..|]. exists c'. split; [done|]. unfold block_in in *. case_match; lia.
    + lia.
    + intros ? [= <-]. split; [lia|].
      apply (framed_session d t lo (oid + 1) k k' s); [done..|lia|done].
  - split_and!; [|lia|done]. by apply (framed_session d t lo lo k k' s).
Qed.

Lemma create_new_reference_session d t lo k p z (s : st) :
  session d t lo k s -> k < 2 ^ 64 - 2 * ALLOCATION_BLOCK_SIZE ->
  exists res s' k', create_new_reference eng strategy be (Some p) z s = Ret (res, s')
    /\ k' <= k + 2 * ALLOCATION_BLOCK_SIZE
    /\ match res with
       | inl r => exists oid s1, framed d s s1 /\ session d t lo k' s1
           /\ session d t (oid + 1) k' s1 /\ lo <= oid
           /\ r = fresh (dom (references (world s1))) /\ s' = put_ref r (new_ref z oid p) s1
       | inr _ => framed d s s' /\ session d t lo k' s'
       end.
Proof.
  intros Hs Hk. destruct (session_joined _ _ _ _ _ Hs) as (_ & Hcur & _ & _).
  destruct (next_object_id_session d t lo k s Hs Hk) as (res & s1 & k' & Hn & Hf1 & Hs1 & Hle & Hoid).
  unfold create_new_reference. rewrite Hcur. run. rewrite Hn. run.
  destruct res as [oid|err]; [|exists (inr err), s1, k'; by split_and!].
  destruct (Hoid oid eq_refl) as [Hlo Hs2].
  destruct (session_joined _ _ _ _ _ Hs1) as (_ & _ & -> & _). run.
  case_match; [exists (inr ERROR_TRANSACTION), s1, k'; by split_and!|].
  destruct (transaction_get_for_update eng t Oids (oid_bytes be oid) (storage (world s1)))
    as [v e] eqn:Hget.
  pose proof (update_durable _ _ _ _ _ _ Hget) as Hd.
  case_match.
  - unfold mark_rollback.
    destruct (mark_session d t lo k' (tx_should_retry eng t (storage (world (put_storage e s1))))
      (put_storage e s1)) as (s3 & -> & Hf3 & Hs3); [by apply storage_session|].
    run. exists (inr ERROR_TRANSACTION), s3, k'. split_and!; [done|done| |done].
    eapply framed_trans; [done|]. eapply framed_trans; [apply framed_storage|done].
  - eexists _, _, k'. split; [done|]. split; [done|]. exists oid, (put_storage e s1).
    split_and!; try done; [eapply framed_trans; [done|apply framed_storage]|
      by apply storage_session|by apply storage_session].
Qed.

(** Looking an object up by its address: its reference is in the tables after,
    new if it was not before. *)
Lemma get_reference_by_ptr_session d t lo k p z (s : st) :
  session d t lo k s -> k < 2 ^ 64 - 2 * ALLOCATION_BLOCK_SIZE -> is_Some (objects (world s) !! p) ->
  exists res s', get_reference_by_ptr eng strategy be (Some p) z s = Ret (res, s')
    /\ after d t none lo k s s'
    /\ match res with
       | inl r => ptr_ref d s' p = Some r /\ (ptr_ref d s p = None ->
           exists oid, references (world s') !! r = Some (new_ref z oid p))
       | inr _ => True
       end.
Proof.
  intros Hs Hk Hobj. destruct (session_joined _ _ _ _ _ Hs) as (_ & Hcur & _ & c & Hc).
  unfold get_reference_by_ptr, get_ctx, get_ref. rewrite Hcur. run. rewrite Hc. run.
  destruct (ptrs_to_references c !! Some p) as [r|] eqn:Hptr.
  - eexists _, s. split; [done|]. assert (Hpr : ptr_ref d s p = Some r).
    { unfold ptr_ref. by rewrite Hc. }
    split; [|by rewrite Hpr]. apply (framed_after d t lo k k); [apply framed_refl|done|].
    unfold ALLOCATION_BLOCK_SIZE. lia.
  - assert (Hpr : ptr_ref d s p = None) by (unfold ptr_ref; by rewrite Hc).
    destruct (create_new_reference_session d t lo k p z s Hs Hk)
      as (res & s' & k' & Hn & Hle & Hres).
    rewrite Hn. run. destruct res as [r|err].
    + destruct Hres as (oid & s1 & Hf1 & Hs1 & Hs1' & Hlo & Hr & ->).
      destruct (session_joined _ _ _ _ _ Hs1) as (_ & _ & _ & c1 & Hc1).
      cbn [world put_ref with_world set_world references set_references data_contexts].
      rewrite lookup_insert_eq. run. rewrite Hc1. run.
      destruct (add_reference_session d t lo k' oid p z r c1 s1 Hs1' Hs1 Hlo)
        as (Hs3 & Hg & Ho & Hp3 & Hr3 & Ho3 & Hnew).
      * by rewrite (fr_ptrs _ _ _ Hf1).
      * by rewrite (fr_objects _ _ _ Hf1).
      * done.
      * subst r. apply not_elem_of_dom, is_fresh.
      * eexists _, _. split; [done|]. split_and!; [|done|by exists oid].
        split; [exists (oid + 1), k'; split_and!; done || lia|]. split; [|split].
        -- eapply grows_trans; [by apply framed_grows|done].
        -- etransitivity; [exact Ho|]. apply Hf1.
        -- intros o r' Hr'. rewrite <- (fr_oids _ _ _ Hf1). by apply Hnew.
    + destruct Hres as [Hf' Hs']. eexists _, s'. split; [done|]. split; [|done].
      by apply (framed_after d t lo k k').
Qed.

Lemma create_reference_session d t lo k p z (s : st) :
  session d t lo k s -> k < 2 ^ 64 - 2 * ALLOCATION_BLOCK_SIZE -> is_Some (objects (world s) !! p) ->
  exists res s', gzochid_data_create_reference eng strategy be now z (Some p) s = Ret (res, s')
    /\ after d t none lo k s s'
    /\ match res with
       | inl r => ptr_ref d s' p = Some r /\ (ptr_ref d s p = None ->
           exists oid, references (world s') !! r = Some (new_ref z oid p))
       | inr _ => True
       end.
Proof.
  intros Hs Hk Hobj. unfold gzochid_data_create_reference.
  destruct (session_joined _ _ _ _ _ Hs) as (-> & _). run.
  by apply (get_reference_by_ptr_session d t lo).
Qed.

(** A reference that has an object is marked to be flushed, or one dies. *)
Lemma set_ref_state_after d t lo k dead r x y (s : st) :
  session d t lo k s -> references (world s) !! r = Some x ->
  (~ dead r -> is_Some (ref_obj x) /\ flushed (set_ref_state y x) = true) ->
  after d t dead lo k s (put_ref r (set_ref_state y x) s)
  /\ session d t lo k (put_ref r (set_ref_state y x) s).
Proof.
  intros [Ha Hi Hlo Ho Hp] Hx Hlive. set (s' := put_ref r (set_ref_state y x) s).
  assert (Hrefs : forall r' x', references (world s) !! r' = Some x' ->
    exists x2, references (world s') !! r' = Some x2 /\ ref_oid x2 = ref_oid x'
      /\ ref_obj x2 = ref_obj x'
      /\ (~ dead r' -> x2 = x' \/ is_Some (ref_obj x') /\ flushed x2 = true)).
  { intros r' x' Hx'. subst s'. cbn. destruct (decide (r' = r)) as [->|].
    - rewrite lookup_insert_eq. simplify_eq. eexists. split_and!; auto.
    - rewrite lookup_insert_ne by done. exists x'. split_and!; auto. }
  assert (Hs' : session d t lo k s').
  { split; [by destruct Ha|by destruct Hi|done| |].
    - intros oid r' Hr'. destruct (Ho oid r' Hr') as (x' & Hx' & Heq & ?).
      destruct (Hrefs _ _ Hx') as (x2 & ? & ? & _). exists x2. split_and!; first [done|congruence|lia].
    - intros p r' Hr'. destruct (Hp p r' Hr') as (x' & Hx' & ? & ? & ?).
      destruct (Hrefs _ _ Hx') as (x2 & ? & Heq & ? & _). exists x2.
      rewrite Heq. split_and!; [done|congruence|done..]. }
  split; [|done]. split; [exists lo, k; split_and!; [done|unfold ALLOCATION_BLOCK_SIZE; lia..]|].
  split; [by split|]. split; [done|]. intros oid r' Hr'. by left.
Qed.

Lemma after_trans d t dead lo k k' s1 s2 s3 :
  framed d s1 s2 -> after d t dead lo k s2 s3 -> k <= k' -> after d t dead lo k' s1 s3.
Proof.
  intros Hf ((lo' & k3 & Hs & Hle) & Hg' & Ho' & Hn) Hk. split; [|split; [|split]].
  - exists lo', k3. split; [done|lia].
  - eapply grows_trans; [by apply framed_grows|done].
  - rewrite Ho'. apply Hf.
  - intros oid r Hr. rewrite <- (fr_oids _ _ _ Hf). by apply Hn.
Qed.

(** Storage took a lock or failed; the participant is marked in the second case. *)
Lemma locked_session d t lo k e (s : st) :
  session d t lo k s -> durable e = durable (storage (world s)) ->
  exists err s', (if txn_rollback eng t (put_storage e s)
       then s ← mark_rollback eng t (put_storage e s); Ret (Some ERROR_TRANSACTION, s)
       else Ret (None, put_storage e s)) = Ret (err, s')
    /\ framed d s s' /\ session d t lo k s'.
Proof.
  intros Hs He. pose proof (storage_session d t lo k e s Hs He) as Hs1. case_match.
  - unfold mark_rollback. destruct (mark_session d t lo k
      (tx_should_retry eng t (storage (world (put_storage e s)))) (put_storage e s) Hs1)
      as (s2 & -> & Hf & Hs2). run. eexists _, s2. split_and!; [done| |done].
    eapply framed_trans; [apply framed_storage|done].
  - eexists _, _. split_and!; [done|apply framed_storage|done].
Qed.

Lemma mark_after d t lo k p z (s : st) :
  session d t lo k s -> k < 2 ^ 64 - 2 * ALLOCATION_BLOCK_SIZE -> is_Some (objects (world s) !! p) ->
  exists err s', gzochid_data_mark eng strategy be now z (Some p) s = Ret (err, s')
    /\ after d t none lo k s s'.
Proof.
  intros Hs Hk Hobj. unfold gzochid_data_mark.
  destruct (session_joined _ _ _ _ _ Hs) as (-> & _). run.
  destruct (get_reference_by_ptr_session d t lo k p z s Hs Hk Hobj)
    as (res & s1 & -> & Hafter & Hres). run.
  destruct res as [r|err]; [|eexists _, s1; by split].
  destruct Hres as [Hr _]. destruct Hafter as ((lo1 & k1 & Hs1 & Hle & Hlo) & Hg1 & Ho1 & Hn1).
  destruct (ses_ptrs _ _ _ _ _ Hs1 _ _ Hr) as (x & Hx & Hxo & _). unfold get_ref. rewrite Hx. run.
  case_match eqn:Hst.
  { eexists _, s1. split; [done|]. split; [by exists lo1, k1|]. split_and!; [apply Hg1|done|done]. }
  destruct (set_ref_state_after d t lo1 k1 none r x STATE_MODIFIED s1 Hs1 Hx)
    as [(_ & Hg2 & Ho2 & Hn2) Hs2].
  { intros _. split; [by rewrite Hxo|]. by cbn. }
  destruct (session_joined _ _ _ _ _ Hs2) as (_ & _ & -> & _). run.
  match goal with |- context [transaction_get_for_update ?a ?b ?c ?d ?e] =>
    destruct (transaction_get_for_update a b c d e) as [v e'] eqn:Hget end.
  destruct (locked_session d t lo1 k1 e' (put_ref r (set_ref_state STATE_MODIFIED x) s1) Hs2)
    as (err & s3 & -> & Hf3 & Hs3).
  { by eapply update_durable. }
  eexists _, s3. split; [done|]. split; [by exists lo1, k1|]. split; [|split].
  - eapply grows_trans; [done|]. eapply grows_trans; [done|]. by apply framed_grows.
  - rewrite (fr_objects _ _ _ Hf3). congruence.
  - intros oid r' Hr'. rewrite (fr_oids _ _ _ Hf3) in Hr'. destruct (Hn2 _ _ Hr'); [by auto|right; lia].
Qed.

(** A reference to an object in memory gives the object; for update, a storage
    lock is taken if the object was only read so far. *)
Lemma deref_resident ser d t lo k r x p (upd : bool) (s : st) :
  session d t lo k s -> k < 2 ^ 64 - 2 * ALLOCATION_BLOCK_SIZE ->
  references (world s) !! r = Some x -> ref_obj x = Some p -> is_Some (objects (world s) !! p) ->
  exists err s', deref_joined eng strategy ser be now r upd s = Ret (Some p, err, s')
    /\ after d t none lo k s s' /\ (upd = false -> err = None).
Proof.
  intros Hs Hk Hx Hp Hobj. unfold deref_joined.
  destruct (session_joined _ _ _ _ _ Hs) as (-> & _). run.
  unfold deref_obj, dereference, get_ref. rewrite Hx. run. rewrite Hp.
  rewrite bool_decide_eq_true_2 by done. cbn [orb].
  assert (Hstay : after d t none lo k s s).
  { apply (framed_after d t lo k k); [apply framed_refl|done|unfold ALLOCATION_BLOCK_SIZE; lia]. }
  destruct (upd && bool_decide (ref_state x = STATE_NOT_MODIFIED)) eqn:Hupd.
  - destruct (mark_after d t lo k p (ref_serialization x) s Hs Hk Hobj) as (err & s1 & -> & Ha).
    run. destruct (gr_refs _ _ _ _ (proj1 (proj2 Ha)) r x Hx) as (x' & -> & _ & Hp' & _). run.
    eexists _, s1. rewrite Hp', Hp. split_and!; [done..|]. intros ->. done.
  - run. rewrite Hx. run. eexists _, s. rewrite Hp. by split_and!.
Qed.

(** A reference to a known id is the one that is known. *)
Lemma create_reference_to_oid_known d t lo k z oid r (s : st) :
  session d t lo k s -> oid_ref d s oid = Some r ->
  gzochid_data_create_reference_to_oid eng now z oid s = Ret (r, s).
Proof.
  intros Hs Hr. unfold gzochid_data_create_reference_to_oid, get_reference_by_oid, get_ctx.
  destruct (session_joined _ _ _ _ _ Hs) as (-> & Hcur & _ & c & Hc). run.
  rewrite Hcur. run. rewrite Hc. run.
  unfold oid_ref in Hr. rewrite Hc in Hr. cbn in Hr. by rewrite Hr.
Qed.

(** Removing an object: only its reference is dead after. *)
Lemma remove_object_after d t lo k r x (s : st) :
  session d t lo k s -> references (world s) !! r = Some x ->
  exists err s', gzochid_data_remove_object eng be now r s = Ret (err, s')
    /\ after d t (eq r) lo k s s'.
Proof.
  intros Hs Hx. unfold gzochid_data_remove_object.
  destruct (session_joined _ _ _ _ _ Hs) as (-> & _). run.
  unfold remove_reference, get_ref. rewrite Hx. run.
  assert (Hdel : exists err s', remove_object eng be d (ref_oid x) s = Ret (err, s')
    /\ framed d s s' /\ session d t lo k s').
  { unfold remove_object, gzochid_transaction_context.
    destruct (ses_attached _ _ _ _ _ Hs) as [(tx & reg & Htx & _ & Hreg & Hd) _].
    rewrite Htx. run. destruct (session_joined _ _ _ _ _ Hs) as (_ & _ & -> & _). run.
    destruct (transaction_delete eng t Oids (oid_bytes be (ref_oid x)) (storage (world s)))
      as [ret e] eqn:Hdel.
    pose proof (storage_session d t lo k e s Hs (delete_durable _ _ _ _ _ _ Hdel)) as Hs1.
    case_match; [eexists _, _; split_and!; [done|apply framed_storage|done]|].
    case_match; [|eexists _, _; split_and!; [done|apply framed_storage|done]].
    cbn [p_name data_participant]. rewrite Hreg. cbn [fmap option_fmap option_map]. rewrite Hd.
    change (deref (or_null (Some (Some d)))) with (Ret d). run.
    destruct (session_joined _ _ _ _ _ Hs1) as (_ & _ & -> & _). run. unfold mark_rollback.
    destruct (mark_session d t lo k (tx_should_retry eng t (storage (world (put_storage e s))))
      (put_storage e s) Hs1) as (s2 & -> & Hf & Hs2). run. eexists _, s2. split_and!; [done| |done].
    eapply framed_trans; [apply framed_storage|done]. }
  assert (Hdone : forall (err : option data_error) s1 y, framed d s s1 -> session d t lo k s1 ->
    exists err' s', Ret (err, put_ref r (set_ref_state y x) s1) = Ret (err', s')
      /\ after d t (eq r) lo k s s').
  { intros err s1 y Hf Hs1. eexists _, _. split; [done|].
    eapply after_trans; [done| |reflexivity].
    apply (set_ref_state_after d t lo k (eq r) r x y s1 Hs1); [by rewrite (fr_refs _ _ _ Hf)|].
    intros Hne. by destruct Hne. }
  destruct Hdel as (err & s1 & Hdel & Hf & Hs1).
  destruct (ref_state x); rewrite ?Hdel; run;
    try (apply Hdone; [done..]); try (apply Hdone; [apply framed_refl|done]);
    (eexists _, s; split; [done|]; apply (framed_after d t lo k k);
       [apply framed_refl|done|unfold ALLOCATION_BLOCK_SIZE; lia]).
Qed.

End session.
