(* ===== verification/DataFrame.v ===== *)
(** * What the data manager leaves alone

    Components that share a transaction with the data manager have a participant of
    their own.  The operations of [Data] do not touch it, nor the state of other
    components, nor the objects in memory, and an active transaction stays active. *)

From S2P Require Import Prelude.
From S2P Require Import Tx.
From S2P Require Import Storage.
From S2P Require Import Oids.
From S2P Require Import Data.

Local Open Scope Z_scope.

Section frame.

Context {E T U Obj Ser X : Type}.
Context (engine : gzochid_storage_engine_interface E T).
Context (oid_strategy : gzochid_oid_allocation_strategy E U).
Context (ser : serializations E T Obj Ser X) (be : bool).

Abbreviation st := (data_st E T Obj Ser X).

Definition registration (n : string) (s : st) :=
  t ← thread_transaction s; participants t !! n.

Record untouched (s0 s : st) : Prop := {
  un_components : components (world s) = components (world s0);
  un_registration : forall n, n <> "data"%string -> registration n s = registration n s0;
  un_active : gzochid_transaction_active s0 = true -> gzochid_transaction_active s = true;
  un_objects : forall p o, objects (world s0) !! p = Some o -> objects (world s) !! p = Some o
}.



(** Deserializers put new objects in memory. *)
Context (Hdes : forall z bs s0 s, untouched s0 s ->
  if_ret (deserializer ser z bs s) (fun r => untouched s0 r.2)).

Lemma untouched_refl (s : st) : untouched s s.
Proof. by split. Qed.

Lemma untouched_trans (s1 s2 s3 : st) : untouched s1 s2 -> untouched s2 s3 -> untouched s1 s3.
Proof.
  intros [C1 R1 A1 O1] [C2 R2 A2 O2]. split; [congruence|..|by auto|by auto].
  intros n Hn. rewrite R2; auto.
Qed.

Lemma untouched_world f (s0 s : st) :
  untouched s0 s -> components (f (world s)) = components (world s) ->
  objects (f (world s)) = objects (world s) -> untouched s0 (with_world f s).
Proof. intros [C R A O] Hc Ho. split; [by rewrite <- C|done|done|]. simpl. by rewrite Ho. Qed.

Ltac same := first [eassumption | apply untouched_world; [same|reflexivity|reflexivity]].

(** What the coordinator does with the registration of "data" only. *)
Lemma set_data_untouched r t (s0 s : st) :
  untouched s0 s -> thread_transaction s = Some t ->
  untouched s0 (set_transaction (Some (set_participants (<["data"%string := r]> (participants t)) t)) s).
Proof.
  intros [C R A O] Ht. split; [done| | |done].
  - intros n Hn. rewrite <- (R n Hn). unfold registration. rewrite Ht. simpl.
    by rewrite lookup_insert_ne.
  - intros Ha. specialize (A Ha). unfold gzochid_transaction_active in *. by rewrite Ht in A.
Qed.

Lemma mark_untouched retry (s0 s : st) :
  untouched s0 s ->
  if_ret (gzochid_transaction_mark_for_rollback data_participant retry s) (untouched s0).
Proof.
  intros Hs s' Hm. unfold gzochid_transaction_mark_for_rollback in Hm. inv_ret.
  case_match; [|done]. inv_ret. by apply set_data_untouched.
Qed.

Lemma join_untouched d (s0 s : st) :
  untouched s0 s -> if_ret (gzochid_transaction_join data_participant d s) (untouched s0).
Proof.
  intros Hs s' Hj. unfold gzochid_transaction_join in Hj.
  destruct (thread_transaction s) as [tx|] eqn:Ht.
  - destruct (c_assert _) in Hj; [|done..]. cbn in Hj.
    case_match; inv_ret; [done|]. by apply set_data_untouched.
  - cbn in Hj. rewrite lookup_empty in Hj. inv_ret.
    destruct Hs as [C R A O]. split; [done| | |done].
    + intros n Hn. rewrite <- (R n Hn). unfold registration. rewrite Ht. simpl.
      rewrite lookup_insert_ne by done. apply lookup_empty.
    + intros Ha. specialize (A Ha). unfold gzochid_transaction_active in A. by rewrite Ht in A.
Qed.

Lemma mark_rollback_untouched t (s0 s : st) :
  untouched s0 s -> if_ret (mark_rollback engine t s) (untouched s0).
Proof. apply mark_untouched. Qed.

Lemma context_untouched timeout d (s0 s s' : st) :
  create_transaction_context engine timeout s = (d, s') -> untouched s0 s -> untouched s0 s'.
Proof.
  unfold create_transaction_context. case_match; simplify_eq. intros [= _ <-] ?. same.
Qed.

Ltac same ::=
  cbn [snd]; first [eassumption | apply untouched_world; [same|reflexivity|reflexivity]
    | eapply context_untouched; [eassumption|same]].

Ltac known :=
  first [ apply mark_untouched | apply mark_rollback_untouched | apply join_untouched | apply Hdes
        | solve [eauto 3 with frame] ]; same.

Hint Extern 1 (untouched _ _) => same : frame.

Ltac frame := intros; cbv beta iota zeta; repeat first [same | walk with known].

Lemma join_transaction_untouched now (s0 s : st) :
  untouched s0 s -> if_ret (join_transaction engine now s) (fun r => untouched s0 r.2).
Proof. unfold join_transaction. frame. Qed.

Lemma reserve_oids_untouched (s0 s : st) :
  untouched s0 s -> if_ret (reserve_oids oid_strategy s) (fun r => untouched s0 r.2).
Proof. unfold reserve_oids. frame. Qed.

Hint Resolve join_transaction_untouched reserve_oids_untouched : frame.

Lemma next_object_id_untouched d (s0 s : st) :
  untouched s0 s -> if_ret (next_object_id oid_strategy d s) (fun r => untouched s0 r.2).
Proof. unfold next_object_id, take_object_id. frame. Qed.

Lemma get_binding_untouched d name (s0 s : st) :
  untouched s0 s -> if_ret (get_binding engine be d name s) (fun r => untouched s0 r.2).
Proof. unfold get_binding. frame. Qed.

Lemma set_binding_untouched d name oid (s0 s : st) :
  untouched s0 s -> if_ret (set_binding engine be d name oid s) (fun r => untouched s0 r.2).
Proof. unfold set_binding. frame. Qed.

Lemma get_reference_by_oid_untouched oid z (s0 s : st) :
  untouched s0 s -> if_ret (get_reference_by_oid oid z s) (fun r => untouched s0 r.2).
Proof. unfold get_reference_by_oid, create_empty_reference, alloc_ref. frame. Qed.

Hint Resolve next_object_id_untouched get_binding_untouched set_binding_untouched
  get_reference_by_oid_untouched : frame.

Lemma create_new_reference_untouched p z (s0 s : st) :
  untouched s0 s -> if_ret (create_new_reference engine oid_strategy be p z s) (fun r => untouched s0 r.2).
Proof. unfold create_new_reference, alloc_ref. frame. Qed.

Hint Resolve create_new_reference_untouched : frame.

Lemma get_reference_by_ptr_untouched p z (s0 s : st) :
  untouched s0 s -> if_ret (get_reference_by_ptr engine oid_strategy be p z s) (fun r => untouched s0 r.2).
Proof. unfold get_reference_by_ptr. frame. Qed.

Lemma remove_object_untouched d oid (s0 s : st) :
  untouched s0 s -> if_ret (remove_object engine be d oid s) (fun r => untouched s0 r.2).
Proof. unfold remove_object. frame. Qed.

Hint Resolve get_reference_by_ptr_untouched remove_object_untouched : frame.

Lemma mark_object_untouched now z p (s0 s : st) :
  untouched s0 s -> if_ret (gzochid_data_mark engine oid_strategy be now z p s) (fun r => untouched s0 r.2).
Proof. unfold gzochid_data_mark. frame. Qed.

Lemma remove_reference_untouched d r (s0 s : st) :
  untouched s0 s -> if_ret (remove_reference engine be d r s) (fun r => untouched s0 r.2).
Proof. unfold remove_reference. frame. Qed.

Hint Resolve mark_object_untouched remove_reference_untouched : frame.

Lemma dereference_untouched now d r for_update (s0 s : st) :
  untouched s0 s ->
  if_ret (dereference engine oid_strategy ser be now d r for_update s) (fun r => untouched s0 r.2).
Proof. unfold dereference. frame. Qed.

Hint Resolve dereference_untouched : frame.

(** ** The interface *)

Lemma deref_joined_untouched now r for_update (s0 s : st) :
  untouched s0 s ->
  if_ret (deref_joined engine oid_strategy ser be now r for_update s) (fun r => untouched s0 r.2).
Proof. unfold deref_joined, deref_obj. frame. Qed.

Lemma data_create_reference_untouched now z p (s0 s : st) :
  untouched s0 s ->
  if_ret (gzochid_data_create_reference engine oid_strategy be now z p s) (fun r => untouched s0 r.2).
Proof. unfold gzochid_data_create_reference. frame. Qed.

Lemma data_create_reference_to_oid_untouched now z oid (s0 s : st) :
  untouched s0 s ->
  if_ret (gzochid_data_create_reference_to_oid engine now z oid s) (fun r => untouched s0 r.2).
Proof. unfold gzochid_data_create_reference_to_oid, create_empty_reference, alloc_ref. frame. Qed.

Lemma data_remove_object_untouched now r (s0 s : st) :
  untouched s0 s -> if_ret (gzochid_data_remove_object engine be now r s) (fun r => untouched s0 r.2).
Proof. unfold gzochid_data_remove_object. frame. Qed.

Lemma data_remove_binding_untouched now name (s0 s : st) :
  untouched s0 s ->
  if_ret (gzochid_data_remove_binding engine now name s) (fun r => untouched s0 r.2).
Proof. unfold gzochid_data_remove_binding. frame. Qed.

Lemma data_set_binding_to_oid_untouched now name oid (s0 s : st) :
  untouched s0 s ->
  if_ret (gzochid_data_set_binding_to_oid engine be now name oid s) (fun r => untouched s0 r.2).
Proof. unfold gzochid_data_set_binding_to_oid. frame. Qed.

Lemma data_next_binding_oid_untouched now key (s0 s : st) :
  untouched s0 s ->
  if_ret (gzochid_data_next_binding_oid engine be now key s) (fun r => untouched s0 r.2).
Proof. unfold gzochid_data_next_binding_oid. frame. Qed.

Lemma data_binding_exists_untouched now name (s0 s : st) :
  untouched s0 s ->
  if_ret (gzochid_data_binding_exists engine be now name s) (fun r => untouched s0 r.2).
Proof. unfold gzochid_data_binding_exists. frame. Qed.

Lemma data_get_binding_untouched now name z (s0 s : st) :
  untouched s0 s ->
  if_ret (gzochid_data_get_binding engine oid_strategy ser be now name z s) (fun r => untouched s0 r.2).
Proof. unfold gzochid_data_get_binding, deref_obj. frame. Qed.

End frame.

#[export] Hint Resolve deref_joined_untouched data_create_reference_untouched
  data_create_reference_to_oid_untouched data_remove_object_untouched data_remove_binding_untouched
  data_set_binding_to_oid_untouched data_next_binding_oid_untouched data_binding_exists_untouched
  data_get_binding_untouched mark_object_untouched : frame.

(** Goes through a body that calls the interface of the data manager. *)
Ltac untouched := cbn [snd]; first [eassumption | apply untouched_world; [untouched|reflexivity|reflexivity]].
#[export] Hint Extern 1 (untouched _ _) => untouched : frame.

Ltac frame_calls :=
  intros; cbv beta iota zeta; repeat first [untouched | walk with (solve [eauto 4 with frame])].
