(* ===== verification/DataProgress.v ===== *)
(** * What transactions on the data manager carry on

    Clients of the data manager ([Queue]) run sequences of its operations on objects of
    which some are in memory and some still in storage.  [carries] is what such a sequence
    keeps of the state before it: the session goes on, references are found as before and
    keep their objects, objects that were not written stay, and what is in storage only
    ([cold]) stays so and is seen as before. *)

From S2P Require Import Prelude.
From S2P Require Import Util.
From S2P Require Import Tx.
From S2P Require Import Storage.
From S2P Require Import Oids.
From S2P Require Import Data.
From S2P Require Import DataSession.

Local Open Scope Z_scope.

Section progress.

Context {E T Obj Ser X : Type} {eng : gzochid_storage_engine_interface E T}.
Context {view : T -> E -> contents} {durable : E -> contents} {running : T -> E -> Prop}.
Context `{HL : !EngineLaws eng view durable} `{HI : !Isolation eng view durable running}.
Context (be : bool) (now : timeval).

Abbreviation st := (data_st E T Obj Ser X).
Abbreviation strategy := (gzochid_storage_oid_strategy_new eng be Meta).
Abbreviation session := (session (durable := durable) be).
Abbreviation none := (fun _ => False).
Abbreviation step := (2 * ALLOCATION_BLOCK_SIZE).
Implicit Types (s : st) (e : E).

(** ** What a transaction sees in the store of objects *)

(** Unless it has failed, the transaction sees the object. *)
Definition has (t : T) e (oid : Z) (bs : bytes) : Prop :=
  tx_rollback eng t e = true \/ view t e !! (Oids, oid_bytes be oid) = Some bs.

(** It sees what it saw. *)
Definition storage_kept (e e' : E) : Prop :=
  forall t, running t e -> running t e' /\ forall oid bs, has t e oid bs -> has t e' oid bs.

Lemma storage_kept_refl e : storage_kept e e.
Proof. by intros t. Qed.

Lemma storage_kept_trans e1 e2 e3 : storage_kept e1 e2 -> storage_kept e2 e3 -> storage_kept e1 e3.
Proof. intros H1 H2 t Ht. destruct (H1 t Ht) as [Hr1 K1], (H2 t Hr1) as [Hr2 K2]. auto. Qed.

Lemma same_seen_has t e e' oid bs : same_seen eng view t e e' -> has t e oid bs -> has t e' oid bs.
Proof.
  intros [Hs Hv] [Hr|Hb]; [left; auto|]. unfold has. destruct (tx_rollback eng t e'); [by left|right].
  by rewrite Hv.
Qed.

Lemma update_kept t sto k e v e' : transaction_get_for_update eng t sto k e = (v, e') -> storage_kept e e'.
Proof.
  intros Hu t' Ht. destruct (iso_update _ _ _ _ _ _ _ Ht Hu) as [Hr Hs]. split; [done|].
  intros oid bs. by apply same_seen_has.
Qed.

Lemma get_kept t sto k e v e' : transaction_get eng t sto k e = (v, e') -> storage_kept e e'.
Proof.
  intros Hu t' Ht. destruct (iso_get _ _ _ _ _ _ _ Ht Hu) as [Hr Hs]. split; [done|].
  intros oid bs. by apply same_seen_has.
Qed.

(** A block of ids is reserved in a transaction of its own, which writes another store. *)
Lemma allocate_kept e : if_ret (allocate eng be Meta e) (fun r => storage_kept e r.2).
Proof.
  intros [r e'] Ha t Ht. cbn [snd]. unfold allocate in Ha.
  destruct (transaction_begin eng e) as [o e1] eqn:Hb. destruct (iso_begin t e o e1 Ht Hb) as (R1 & S1 & Hne).
  destruct o as [t'|]; [|injection Ha as <- <-; split; [done|intros oid bs; by apply same_seen_has]].
  assert (Hn : t' <> t) by congruence. clear Hne.
  destruct (transaction_get_for_update eng t' Meta [NEXT_OID_KEY] e1) as [v e2] eqn:Hu.
  destruct (iso_update t t' _ _ _ _ _ R1 Hu) as [R2 S2].
  assert (K2 : forall oid bs, has t e oid bs -> has t e2 oid bs).
  { intros oid bs Hb'. eapply same_seen_has; [exact S2|]. by eapply same_seen_has. }
  destruct (tx_rollback eng t' e2) eqn:F2.
  { injection Ha as <- <-. destruct (iso_rollback t t' e2 R2 Hn) as [R3 S3]. split; [done|].
    intros oid bs Hb'. eapply same_seen_has; [exact S3|]. by apply K2. }
  apply bind_Ret in Ha as (start & _ & Ha).
  set (e3 := transaction_put eng t' Meta [NEXT_OID_KEY] _ e2) in Ha.
  destruct (iso_put t t' Meta [NEXT_OID_KEY] (oid_bytes be (u64 (start + ALLOCATION_BLOCK_SIZE))) e2 R2 Hn) as [R3 S3].
  fold e3 in R3, S3. destruct (tx_rollback eng t' e3) eqn:F3; cbn [negb] in Ha.
  { rewrite F3 in Ha. injection Ha as <- <-. destruct (iso_rollback t t' e3 R3 Hn) as [R4 S4]. split; [done|].
    intros oid bs Hb'. eapply same_seen_has; [exact S4|]. eapply same_seen_has; [exact S3|]. by apply K2. }
  set (e4 := transaction_prepare eng t' e3) in Ha. destruct (iso_prepare t t' e3 R3 Hn) as [R4 S4]. fold e4 in R4, S4.
  assert (K4 : forall oid bs, has t e oid bs -> has t e4 oid bs).
  { intros oid bs Hb'. eapply same_seen_has; [exact S4|]. eapply same_seen_has; [exact S3|]. by apply K2. }
  destruct (tx_rollback eng t' e4) eqn:F4.
  { injection Ha as <- <-. destruct (iso_rollback t t' e4 R4 Hn) as [R5 S5]. split; [done|].
    intros oid bs Hb'. eapply same_seen_has; [exact S5|]. by apply K4. }
  injection Ha as <- <-. destruct (iso_commit t t' e4 R4 Hn) as (R5 & St & V5). split; [done|].
  intros oid bs [Hr|Hv]%K4; [left; auto|]. unfold has.
  destruct (tx_rollback eng t (transaction_commit eng t' e4)); [by left|right]. rewrite V5; [done..|].
  assert (Hview : view t' e4 = <[(Meta, [NEXT_OID_KEY]) := oid_bytes be (u64 (start + ALLOCATION_BLOCK_SIZE))]> (durable e)).
  { unfold e4. rewrite prepare_view by done. unfold e3. rewrite put_view by done. f_equal.
    destruct (update_value _ _ _ _ _ _ Hu F2) as [_ ->]. apply (begin_view _ _ _ Hb).
    destruct (tx_rollback eng t' e1) eqn:F1; [|done]. by rewrite (update_sticky _ _ _ _ _ _ Hu F1) in F2. }
  rewrite Hview, lookup_insert_ne by done. unfold e4, e3.
  symmetry. rewrite (prepare_durable (durable := durable)), (put_durable (durable := durable)).
  by rewrite (update_durable (durable := durable) _ _ _ _ _ _ Hu), (begin_durable (durable := durable) _ _ _ Hb).
Qed.

Abbreviation kept s s' := (storage_kept (storage (world s)) (storage (world s'))).

Lemma mark_kept retry s : if_ret (gzochid_transaction_mark_for_rollback data_participant retry s) (fun s' => kept s s').
Proof.
  intros s' Hm. unfold gzochid_transaction_mark_for_rollback in Hm.
  apply bind_Ret in Hm as (tx & _ & Hm). case_match; simplify_eq. apply storage_kept_refl.
Qed.

Lemma reserve_oids_kept s : if_ret (reserve_oids strategy s) (fun r => kept s r.2).
Proof.
  unfold reserve_oids. destruct (free_oid_blocks (world s)); [|apply if_ret_ret, storage_kept_refl].
  apply if_ret_bind. eapply if_ret_mono; [apply allocate_kept|]. intros [[block|err] e] He; cbn [snd] in He.
  - by apply if_ret_ret.
  - apply if_ret_bind. eapply if_ret_mono; [apply mark_kept|]. intros s' Hs'. apply if_ret_ret.
    by eapply storage_kept_trans.
Qed.

Lemma next_object_id_kept d s : if_ret (next_object_id strategy d s) (fun r => kept s r.2).
Proof.
  unfold next_object_id. apply if_ret_bind. intros c _. apply if_ret_bind.
  apply (if_ret_mono _ (fun r => kept s r.2)).
  { destruct (free_oids c); [apply if_ret_ret, storage_kept_refl|]. apply if_ret_bind.
    eapply if_ret_mono; [apply reserve_oids_kept|]. intros [b s1] H1. by apply if_ret_ret. }
  intros [[b|] s1] H1; [|by apply if_ret_ret]. unfold take_object_id. case_match; [|by apply if_ret_ret].
  apply if_ret_bind. eapply if_ret_mono; [apply reserve_oids_kept|]. intros [nb s2] H2. apply if_ret_ret.
  by eapply storage_kept_trans.
Qed.

(** Storage took a lock or failed. *)
Lemma locked_kept t oid {A} (a b : A) s :
  if_ret (let '(_, e) := transaction_get_for_update eng t Oids (oid_bytes be oid) (storage (world s)) in
          let s := put_storage e s in
          if txn_rollback eng t s then s ← mark_rollback eng t s; Ret (a, s) else Ret (b, s)) (fun r => kept s r.2).
Proof.
  destruct (transaction_get_for_update _ _ _ _ _) as [v e] eqn:Hu. cbv zeta.
  pose proof (update_kept _ _ _ _ _ _ Hu) as He. case_match; [|by apply if_ret_ret].
  apply if_ret_bind. eapply if_ret_mono; [apply mark_kept|]. intros s' Hs'. apply if_ret_ret.
  by eapply storage_kept_trans.
Qed.

Lemma create_new_reference_kept p z s :
  if_ret (create_new_reference eng strategy be p z s) (fun r => kept s r.2).
Proof.
  unfold create_new_reference. apply if_ret_bind. intros d _. apply if_ret_bind.
  eapply if_ret_mono; [apply next_object_id_kept|]. intros [[oid|err] s1] H1; [|by apply if_ret_ret].
  apply if_ret_bind. intros t _. case_match; [by apply if_ret_ret|].
  destruct (transaction_get_for_update _ _ _ _ _) as [v e] eqn:Hu. cbv zeta. cbn [snd] in H1.
  pose proof (storage_kept_trans _ _ _ H1 (update_kept _ _ _ _ _ _ Hu)) as He. case_match.
  - apply if_ret_bind. eapply if_ret_mono; [apply mark_kept|]. intros s' Hs'. apply if_ret_ret.
    by eapply storage_kept_trans.
  - by apply if_ret_ret.
Qed.

Lemma get_reference_by_ptr_kept p z s :
  if_ret (get_reference_by_ptr eng strategy be p z s) (fun r => kept s r.2).
Proof.
  unfold get_reference_by_ptr. apply if_ret_bind. intros d _. apply if_ret_bind. intros c _.
  destruct (_ !! p); [apply if_ret_ret, storage_kept_refl|]. apply if_ret_bind.
  eapply if_ret_mono; [apply create_new_reference_kept|]. intros [[r|err] s1] H1; [|by apply if_ret_ret].
  do 2 (apply if_ret_bind; intros ? _). by apply if_ret_ret.
Qed.

Lemma mark_object_kept d t lo k z p s :
  session d t lo k s -> if_ret (gzochid_data_mark eng strategy be now z p s) (fun r => kept s r.2).
Proof.
  intros Hs. unfold gzochid_data_mark. destruct (session_joined (eng := eng) be now d t lo k s Hs) as (-> & _).
  run. apply if_ret_bind. eapply if_ret_mono; [apply get_reference_by_ptr_kept|].
  intros [[r|err] s1] H1; [|by apply if_ret_ret]. cbn [snd] in H1. apply if_ret_bind. intros x _.
  case_match; [by apply if_ret_ret|]. cbv zeta. apply if_ret_bind. intros t' _.
  eapply if_ret_mono; [apply (locked_kept t' (ref_oid x))|]. intros r' Hr'. by eapply storage_kept_trans.
Qed.

Lemma create_reference_kept d t lo k z p s :
  session d t lo k s -> if_ret (gzochid_data_create_reference eng strategy be now z p s) (fun r => kept s r.2).
Proof.
  intros Hs. unfold gzochid_data_create_reference.
  destruct (session_joined (eng := eng) be now d t lo k s Hs) as (-> & _). run.
  apply get_reference_by_ptr_kept.
Qed.

(** ** Carrying on *)

(** Objects of which the reference or the id is known have ids below [F]; [kind] says
    which serializations the references to an id that is in storage only may have. *)
Context (F : Z) (kind : Z -> Ser -> Prop).

(** Nothing of the object is in memory. *)
Definition cold (d : positive) s (i : Z) : Prop :=
  in_unsigned 64 i /\ i < F /\
  match oid_ref d s i with
  | None => True
  | Some r => exists z, references (world s) !! r = Some (Reference STATE_EMPTY z i None) /\ kind i z
  end.

(** From [s] to [s'], where the counter of ids is at most [k], only objects of [w] were
    written, and only those of the ids [hot] were loaded or removed. *)
Record carries (d : positive) (t : T) (k : Z) (hot : Z -> Prop) (w : positive -> Prop) s s' : Prop := {
  ca_session : exists lo k', F <= lo /\ session d t lo k' s' /\ k' <= k;
  ca_running : running t (storage (world s'));
  ca_oids : forall i r, oid_ref d s i = Some r -> oid_ref d s' i = Some r;
  ca_ptrs : forall p r, ptr_ref d s p = Some r -> ptr_ref d s' p = Some r;
  ca_refs : forall r x p, references (world s) !! r = Some x -> ref_obj x = Some p ->
    exists x', references (world s') !! r = Some x' /\ ref_oid x' = ref_oid x /\ ref_obj x' = Some p
      /\ (~ hot (ref_oid x) -> x' = x \/ flushed x' = true);
  ca_dom : forall p, is_Some (objects (world s) !! p) -> is_Some (objects (world s') !! p);
  ca_kept : forall p o, ~ w p -> objects (world s) !! p = Some o -> objects (world s') !! p = Some o;
  ca_has : forall i bs, ~ hot i -> in_unsigned 64 i ->
    has t (storage (world s)) i bs -> has t (storage (world s')) i bs;
  ca_cold : forall i, ~ hot i -> cold d s i -> cold d s' i
}.

(** A state that can be carried on. *)
Record going (d : positive) (t : T) (k : Z) s : Prop := {
  go_session : exists lo k', F <= lo /\ session d t lo k' s /\ k' <= k;
  go_running : running t (storage (world s))
}.

Lemma carries_going d t k hot w s s' : carries d t k hot w s s' -> going d t k s'.
Proof. by intros []. Qed.

Lemma carries_refl d t k hot w s : going d t k s -> carries d t k hot w s s.
Proof. intros [Hs Hr]. split; try done. intros r x p Hx Hp. exists x. split_and!; auto. Qed.

Lemma carries_trans d t k1 k2 hot w s1 s2 s3 :
  carries d t k1 hot w s1 s2 -> carries d t k2 hot w s2 s3 -> carries d t k2 hot w s1 s3.
Proof.
  intros [_ _ O1 P1 R1 D1 K1 H1 C1] [S2 G2 O2 P2 R2 D2 K2 H2 C2]. split; try done; auto.
  intros r x p Hx Hp. destruct (R1 r x p Hx Hp) as (x1 & Hx1 & Ho1 & Hp1 & F1).
  destruct (R2 r x1 p Hx1 Hp1) as (x2 & Hx2 & Ho2 & Hp2 & F2). exists x2. split_and!; [done|congruence|done|].
  intros Hh. destruct (F2 ltac:(by rewrite Ho1)) as [->|?]; [by apply F1|by right].
Qed.

Lemma carries_weaken d t k k' (hot hot' : Z -> Prop) (w w' : positive -> Prop) s s' :
  carries d t k hot w s s' -> k <= k' -> (forall i, hot i -> hot' i) ->
  (forall p, is_Some (objects (world s) !! p) -> w p -> w' p) -> carries d t k' hot' w' s s'.
Proof.
  intros [(lo & k1 & Hlo & Hs & Hk) G O P R D K H C] Hle Hhot Hw. split; try done; auto.
  - exists lo, k1. split_and!; done || lia.
  - intros r x p Hx Hp. destruct (R r x p Hx Hp) as (x' & ? & ? & ? & Hf). exists x'. split_and!; auto.
Qed.

(** A call of the data manager that finds and adds references, or removes an object. *)
Lemma after_carries d t lo k (dead : positive -> Prop) (hot : Z -> Prop) s s' :
  F <= lo -> running t (storage (world s')) -> after (durable := durable) be d t dead lo k s s' ->
  (forall i bs, ~ hot i -> in_unsigned 64 i ->
     has t (storage (world s)) i bs -> has t (storage (world s')) i bs) ->
  (forall r x, references (world s) !! r = Some x -> dead r -> hot (ref_oid x)) ->
  carries d t (k + step) hot none s s'.
Proof.
  intros HF Hr ((lo' & k' & Hs & Hk & Hlo) & [Go Gp Gr] & Ho & Hn) Hhas Hdead. split; try done.
  - exists lo', k'. split_and!; done || lia.
  - intros r x p Hx Hp. destruct (Gr r x Hx) as (x' & Hx' & Hoid & Hobj & Hst). exists x'.
    split_and!; [done|done|congruence|]. intros Hh.
    destruct (Hst ltac:(intros Hd; by apply Hh, (Hdead r x))) as [->|[_ ?]]; auto.
  - intros p. by rewrite Ho.
  - intros p o _. by rewrite Ho.
  - intros i Hh (Hi & HiF & Hc). split_and!; [done|done|]. destruct (oid_ref d s i) as [r|] eqn:Hir.
    + rewrite (Go _ _ Hir). destruct Hc as (z & Hx & Hz). destruct (Gr r _ Hx) as (x' & Hx' & _ & _ & Hst).
      exists z. split; [|done].
      destruct (Hst ltac:(intros Hd; by apply Hh, (Hdead r _ Hx))) as [->|[[p Hp] _]]; [done|discriminate].
    + destruct (oid_ref d s' i) as [r|] eqn:Hir'; [|done]. destruct (Hn _ _ Hir'); [congruence|lia].
Qed.

Lemma after_kept_carries d t lo k s s' :
  F <= lo -> running t (storage (world s)) ->
  after (durable := durable) be d t none lo k s s' -> kept s s' -> carries d t (k + step) none none s s'.
Proof. intros HF Hr Ha Hk. destruct (Hk t Hr). by apply (after_carries d t lo k none); auto. Qed.

(** An object is written, or a new one is there. *)
Lemma put_object_carries d t k p o s : going d t k s -> carries d t k none (eq p) s (put_object p o s).
Proof.
  intros [(lo & k' & HF & [Ha Hi Hl Ho Hp] & Hk) Hr].
  assert (Hdom : forall q, is_Some (objects (world s) !! q) -> is_Some (objects (world (put_object p o s)) !! q)).
  { intros q Hq. cbn. destruct (decide (p = q)) as [->|]; [rewrite lookup_insert_eq; by eexists|].
    by rewrite lookup_insert_ne. }
  split; try done.
  - exists lo, k'. split_and!; [done| |done]. split; [by destruct Ha|by destruct Hi|done|done|].
    intros q r Hq. destruct (Hp q r Hq) as (x & ? & ? & ? & ?). exists x. split_and!; [done..|]. by apply Hdom.
  - intros r x q Hx Hq. exists x. split_and!; auto.
  - intros q y Hq Hy. cbn. by rewrite lookup_insert_ne.
Qed.

Lemma alloc_object_carries d t k o s :
  going d t k s ->
  exists p, alloc_object o s = (p, put_object p o s) /\ carries d t k none none s (put_object p o s)
    /\ objects (world s) !! p = None.
Proof.
  intros Hs. unfold alloc_object. eexists. split; [done|]. set (p := fresh _).
  assert (Hp : objects (world s) !! p = None) by apply not_elem_of_dom, is_fresh.
  split; [|done]. apply (carries_weaken d t k k none none (eq p)); [by apply put_object_carries|lia|done|].
  intros q [x Hx] <-. congruence.
Qed.

(** An object without a place in memory has no reference. *)
Lemma going_fresh d t k s p : going d t k s -> objects (world s) !! p = None -> ptr_ref d s p = None.
Proof.
  intros [(lo & k' & _ & Hs & _) _] Hp. destruct (ptr_ref d s p) as [r|] eqn:Hr; [|done].
  destruct (ses_ptrs _ _ _ _ _ _ Hs _ _ Hr) as (x & _ & _ & _ & [o Ho]). congruence.
Qed.

(** ** The operations *)

(** Referring to an object: the reference it has, or a new one. *)
Lemma reference_carries d t k p (z : Ser) s :
  going d t k s -> k < 2 ^ 64 - step -> is_Some (objects (world s) !! p) ->
  exists res s', gzochid_data_create_reference eng strategy be now z (Some p) s = Ret (res, s')
    /\ carries d t (k + step) none none s s' /\ objects (world s') = objects (world s)
    /\ forall r, res = inl r -> ptr_ref d s' p = Some r
         /\ exists x, references (world s') !! r = Some x /\ ref_obj x = Some p /\ oid_ref d s' (ref_oid x) = Some r
            /\ in_unsigned 64 (ref_oid x) /\ (ptr_ref d s p = None -> flushed x = true).
Proof.
  intros [(lo & k' & HF & Hs & Hk') Hr] Hk Hp.
  destruct (create_reference_session (HL := HL) be now d t lo k' p z s Hs) as (res & s' & Hc & Ha & Hres); [lia|done|].
  exists res, s'. split; [done|]. pose proof (create_reference_kept d t lo k' z (Some p) s Hs _ Hc) as Hkept.
  split; [|split; [apply Ha|]].
  { apply (carries_weaken d t (k' + step) _ none none none); [by eapply after_kept_carries|lia|done..]. }
  intros r ->. destruct Hres as [Hptr Hnew]. split; [done|].
  destruct Ha as ((lo1 & k1 & Hs1 & Hk1 & Hlo1) & _). destruct (ses_ptrs _ _ _ _ _ _ Hs1 _ _ Hptr) as (x & Hx & Hxo & Hxi & _).
  exists x. split_and!; [done..| |].
  - destruct (ses_oids _ _ _ _ _ _ Hs1 _ _ Hxi) as (_ & _ & _ & Hlt).
    destruct (ses_ids _ _ _ _ _ _ Hs1) as [_ _ _ (c & _ & Hb)].
    unfold block_in, in_unsigned in *. destruct (free_oids c); lia.
  - intros Hn. destruct (Hnew Hn) as (oid & Hx'). rewrite Hx in Hx'. injection Hx' as ->. done.
Qed.

(** What is marked is flushed at the end. *)
Lemma mark_flushes d t lo k p (z : Ser) s :
  session d t lo k s -> k < 2 ^ 64 - step -> is_Some (objects (world s) !! p) ->
  if_ret (gzochid_data_mark eng strategy be now z (Some p) s) (fun r => r.1 = None ->
    exists r' x, ptr_ref d r.2 p = Some r' /\ references (world r.2) !! r' = Some x /\ flushed x = true).
Proof.
  intros Hs Hk Hp. unfold gzochid_data_mark.
  destruct (session_joined (eng := eng) be now d t lo k s Hs) as (-> & _). run.
  destruct (get_reference_by_ptr_session (HL := HL) be now d t lo k p z s Hs Hk Hp) as (res & s1 & -> & Ha & Hres). run.
  destruct res as [r|err]; [|by apply if_ret_ret]. destruct Hres as [Hr _].
  destruct Ha as ((lo1 & k1 & Hs1 & _) & _). destruct (ses_ptrs _ _ _ _ _ _ Hs1 _ _ Hr) as (x & Hx & _).
  unfold get_ref. rewrite Hx. run. case_match eqn:Hst; [apply if_ret_ret; intros _; by exists r, x|].
  destruct (set_ref_state_after (durable := durable) be d t lo1 k1 (eq r) r x STATE_MODIFIED s1 Hs1 Hx) as [_ Hs2];
    [by intros []|].
  destruct (session_joined (eng := eng) be now _ _ _ _ _ Hs2) as (_ & _ & -> & _). run.
  destruct (transaction_get_for_update _ _ _ _ _) as [v e] eqn:Hu. cbv zeta.
  assert (Hgoal : forall s3, framed d (put_ref r (set_ref_state STATE_MODIFIED x) s1) s3 ->
    exists r' y, ptr_ref d s3 p = Some r' /\ references (world s3) !! r' = Some y /\ flushed y = true).
  { intros s3 [_ _ Fp Fr _]. exists r, (set_ref_state STATE_MODIFIED x). rewrite Fp, Fr. split_and!; [done| |done].
    apply lookup_insert_eq. }
  case_match.
  - apply if_ret_bind. intros s3 Hs3. by apply if_ret_ret.
  - apply if_ret_ret. intros _. apply Hgoal, framed_storage.
Qed.

Lemma data_mark_carries d t k p (z : Ser) s :
  going d t k s -> k < 2 ^ 64 - step -> is_Some (objects (world s) !! p) ->
  exists err s', gzochid_data_mark eng strategy be now z (Some p) s = Ret (err, s')
    /\ carries d t (k + step) none none s s' /\ objects (world s') = objects (world s)
    /\ (err = None -> exists r x, ptr_ref d s' p = Some r /\ references (world s') !! r = Some x /\ flushed x = true).
Proof.
  intros [(lo & k' & HF & Hs & Hk') Hr] Hk Hp.
  destruct (mark_after (HL := HL) be now d t lo k' p z s Hs) as (err & s' & Hm & Ha); [lia|done|].
  exists err, s'. split; [done|]. pose proof (mark_object_kept d t lo k' z (Some p) s Hs _ Hm) as Hkept.
  split; [|split; [apply Ha|exact (mark_flushes d t lo k' p z s Hs ltac:(lia) Hp _ Hm)]].
  apply (carries_weaken d t (k' + step) _ none none none); [by eapply after_kept_carries|lia|done..].
Qed.

(** Referring to an object by its id. *)
Lemma to_oid_carries d t k (z : Ser) i s :
  going d t k s -> is_Some (oid_ref d s i) \/ in_unsigned 64 i /\ i < F /\ kind i z ->
  exists r s', gzochid_data_create_reference_to_oid eng now z i s = Ret (r, s')
    /\ carries d t k none none s s' /\ oid_ref d s' i = Some r
    /\ objects (world s') = objects (world s) /\ forall p, ptr_ref d s' p = ptr_ref d s p.
Proof.
  intros Hg Hi. pose proof Hg as [(lo & k' & HF & Hs & Hk') Hr].
  destruct (session_joined (eng := eng) be now d t lo k' s Hs) as (Hj & Hcur & _ & c & Hc).
  unfold gzochid_data_create_reference_to_oid, get_reference_by_oid, get_ctx. rewrite Hj. run. rewrite Hcur. run.
  rewrite Hc. run. destruct (oids_to_references c !! i) as [r|] eqn:Hir.
  { exists r, s. split_and!; [done|by apply carries_refl| |done|done]. unfold oid_ref. by rewrite Hc. }
  assert (Hnone : oid_ref d s i = None) by (unfold oid_ref; by rewrite Hc).
  destruct Hi as [[r Hi]|(Hi & HiF & Hkind)]; [congruence|]. unfold create_empty_reference, alloc_ref.
  set (r := fresh (dom (references (world s)))). set (s' := put_ctx d _ _).
  assert (Hr0 : references (world s) !! r = None) by apply not_elem_of_dom, is_fresh.
  assert (Hrefs : forall q x, references (world s) !! q = Some x -> references (world s') !! q = Some x).
  { intros q x Hq. subst s'. cbn. rewrite lookup_insert_ne; [done|]. intros <-. congruence. }
  assert (Ho' : forall j, oid_ref d s' j = if decide (j = i) then Some r else oid_ref d s j).
  { intros j. unfold oid_ref. subst s'. cbn. rewrite lookup_insert_eq, Hc. cbn.
    case_decide; [subst; apply lookup_insert_eq|by apply lookup_insert_ne]. }
  assert (Hp' : forall p, ptr_ref d s' p = ptr_ref d s p).
  { intros p. unfold ptr_ref. subst s'. cbn. by rewrite lookup_insert_eq, Hc. }
  assert (Hx : references (world s') !! r = Some (Reference STATE_EMPTY z i None)) by apply lookup_insert_eq.
  assert (Hoids : forall j q, oid_ref d s j = Some q -> oid_ref d s' j = Some q).
  { intros j q Hj'. rewrite Ho'. case_decide; [congruence|done]. }
  exists r, s'. split_and!; [done| |rewrite Ho'; by case_decide|done|done]. split; try done.
  - exists lo, k'. split_and!; [done| |done]. destruct Hs as [Ha Hids Hlo So Sp]. split; [| |done| |].
    + apply attached_put_ctx; [by destruct Ha|]. destruct Ha as [_ (c' & ? & ?)]. cbn. congruence.
    + destruct Hids as [H1 H2 H3 (c' & Hc' & Hb)]. split; [done..|]. simplify_eq.
      eexists. subst s'. cbn. rewrite lookup_insert_eq. split; [done|exact Hb].
    + intros j q. rewrite Ho'. case_decide as Hji.
      * intros [= <-]. eexists. split; [exact Hx|]. unfold in_unsigned in Hi. cbn. split_and!; done || lia.
      * intros Hq. destruct (So j q Hq) as (x & ? & ?). exists x. split; [by apply Hrefs|done].
    + intros p q. rewrite Hp'. intros Hq. destruct (Sp p q Hq) as (x & ? & ? & ? & ?). exists x.
      split_and!; [by apply Hrefs|done|by apply Hoids|done].
  - intros p q. by rewrite Hp'.
  - intros q x p Hq Hp. exists x. split_and!; auto.
  - intros j _ (Hj1 & Hj2 & Hj3). split_and!; [done|done|]. rewrite Ho'. case_decide as Hji.
    + subst j. by exists z.
    + destruct (oid_ref d s j) as [q|]; [|done]. destruct Hj3 as (y & Hq & Hy). exists y. split; [by apply Hrefs|done].
Qed.

(** The object of a reference that is in memory; for update, it is marked if it was only
    read so far. *)
Lemma resident_carries ser d t k r x p (upd : bool) s :
  going d t k s -> k < 2 ^ 64 - step ->
  references (world s) !! r = Some x -> ref_obj x = Some p -> is_Some (objects (world s) !! p) ->
  exists err s', deref_joined eng strategy ser be now r upd s = Ret (Some p, err, s')
    /\ carries d t (k + step) none none s s' /\ objects (world s') = objects (world s).
Proof.
  intros Hg Hk Hx Hp Ho. pose proof Hg as [(lo & k' & HF & Hs & Hk') Hr].
  unfold deref_joined. destruct (session_joined (eng := eng) be now d t lo k' s Hs) as (-> & _). run.
  unfold deref_obj, dereference, get_ref. rewrite Hx. run. rewrite Hp. rewrite bool_decide_eq_true_2 by done. cbn [orb].
  destruct (upd && bool_decide (ref_state x = STATE_NOT_MODIFIED)).
  - destruct (data_mark_carries d t k p (ref_serialization x) s Hg Hk Ho) as (err & s1 & -> & Ha & Hob & _).
    run. destruct (ca_refs _ _ _ _ _ _ _ Ha r x p Hx Hp) as (x' & -> & _ & Hp' & _). run.
    rewrite Hp'. by exists err, s1.
  - run. rewrite Hx. run. rewrite Hp. exists None, s. split_and!; [done| |done].
    apply (carries_weaken d t k _ none none none); [by apply carries_refl|unfold ALLOCATION_BLOCK_SIZE; lia|done..].
Qed.

(** Removing an object. *)
Lemma remove_carries d t k r x s :
  going d t k s -> references (world s) !! r = Some x -> in_unsigned 64 (ref_oid x) ->
  exists err s', gzochid_data_remove_object eng be now r s = Ret (err, s')
    /\ carries d t (k + step) (eq (ref_oid x)) none s s' /\ objects (world s') = objects (world s).
Proof.
  intros [(lo & k' & HF & Hs & Hk') Hr] Hx Hi.
  destruct (remove_object_after (HL := HL) be now d t lo k' r x s Hs Hx) as (err & s' & Hrem & Ha).
  exists err, s'. split; [done|]. split; [|apply Ha].
  assert (Hstore : running t (storage (world s')) /\ forall j bs, ref_oid x <> j -> in_unsigned 64 j ->
    has t (storage (world s)) j bs -> has t (storage (world s')) j bs).
  { unfold gzochid_data_remove_object in Hrem.
    destruct (session_joined (eng := eng) be now d t lo k' s Hs) as (Hj & _ & Htxn & _). rewrite Hj in Hrem.
    cbn [mbind outcome_bind] in Hrem. unfold remove_reference, get_ref in Hrem. rewrite Hx in Hrem.
    cbn [mbind outcome_bind deref] in Hrem.
    assert (Hdel : if_ret (remove_object eng be d (ref_oid x) s) (fun r => running t (storage (world r.2))
      /\ forall j bs, ref_oid x <> j -> in_unsigned 64 j ->
        has t (storage (world s)) j bs -> has t (storage (world r.2)) j bs)).
    { unfold remove_object. apply if_ret_bind. intros tc _. rewrite Htxn. run.
      destruct (transaction_delete eng t Oids (oid_bytes be (ref_oid x)) (storage (world s))) as [ret e] eqn:Hd.
      pose proof (running_delete _ _ _ _ _ _ Hr Hd) as Hr1.
      assert (Hk1 : forall j bs, ref_oid x <> j -> in_unsigned 64 j -> has t (storage (world s)) j bs -> has t e j bs).
      { intros j bs Hne Hj' Hb. unfold has. destruct (tx_rollback eng t e) eqn:Hf; [by left|right].
        destruct Hb as [Hb|Hb]; [by rewrite (delete_sticky _ _ _ _ _ _ Hd Hb) in Hf|].
        destruct (delete_view _ _ _ _ _ _ Hd Hf) as [-> _]. rewrite lookup_delete_ne; [done|].
        intros [= Heq]. by apply Hne, (oid_bytes_inj be). }
      destruct (ret =? GZOCHID_STORAGE_ENOTFOUND); [by apply if_ret_ret|].
      destruct (ret =? GZOCHID_STORAGE_ETXFAILURE); [|by apply if_ret_ret].
      do 2 (apply if_ret_bind; intros ? _). apply if_ret_bind. eapply if_ret_mono; [apply mark_kept|].
      intros s1 H1. apply if_ret_ret. destruct (H1 t Hr1) as [H2 H3]. split; [done|]. intros j bs Hne Hj' Hb. by apply H3, Hk1. }
    assert (Hsame : running t (storage (world s)) /\ forall j bs, ref_oid x <> j -> in_unsigned 64 j ->
      has t (storage (world s)) j bs -> has t (storage (world s)) j bs) by by split.
    destruct (ref_state x); try (by simplify_eq); apply bind_Ret in Hrem as ([e1 s1] & Hrun & [= <- <-]);
      exact (Hdel _ Hrun). }
  destruct Hstore as [Hr' Hhas].
  apply (carries_weaken d t (k' + step) _ (eq (ref_oid x)) (eq (ref_oid x)) none); [|lia|done..].
  apply (after_carries d t lo k' (eq r)); [done..|]. intros r' y Hy <-. congruence.
Qed.

(** *** Loading *)

(** What the transaction reads, unless it fails. *)
Lemma read_carries d t k i bs (upd : bool) s :
  going d t k s -> has t (storage (world s)) i bs ->
  let '(v, e) := (if upd then transaction_get_for_update eng t Oids (oid_bytes be i) (storage (world s))
                  else transaction_get eng t Oids (oid_bytes be i) (storage (world s))) in
  carries d t (k + step) none none s (put_storage e s)
  /\ (tx_rollback eng t e = false -> v = Some bs).
Proof.
  intros [(lo & k' & HF & Hs & Hk') Hr] Hh.
  destruct (if upd then _ else _) as [v e] eqn:Hget.
  assert (Hkept : storage_kept (storage (world s)) e) by (destruct upd; [by eapply update_kept|by eapply get_kept]).
  assert (Hdur : durable e = durable (storage (world s))).
  { destruct upd; [exact (update_durable _ _ _ _ _ _ Hget)|exact (get_durable _ _ _ _ _ _ Hget)]. }
  split.
  - apply (carries_weaken d t (k' + step) _ none none none); [|lia|done..].
    apply (after_kept_carries d t lo k'); [done..| |exact Hkept].
    apply (framed_after (durable := durable) be d t lo k' k'); [apply framed_storage|by apply storage_session|].
    unfold ALLOCATION_BLOCK_SIZE. lia.
  - intros Hf. destruct upd.
    + destruct (update_value _ _ _ _ _ _ Hget Hf) as [-> _]. destruct Hh as [Hh|Hh]; [|done].
      by rewrite (update_sticky _ _ _ _ _ _ Hget Hh) in Hf.
    + destruct (get_value _ _ _ _ _ _ Hget Hf) as [-> _]. destruct Hh as [Hh|Hh]; [|done].
      by rewrite (get_sticky _ _ _ _ _ _ Hget Hh) in Hf.
Qed.

Lemma add_event_carries d t k v s : going d t k s -> carries d t k none none s (with_world (add_event v) s).
Proof.
  intros [(lo & k' & HF & [[H1 H2] [H3 H4 H5 H6] Hl Ho Hp] & Hk) Hr]. split; try done.
  - exists lo, k'. split_and!; done.
  - intros r x p Hx Hpx. exists x. split_and!; auto.
Qed.

(** What was loaded enters the tables. *)
Lemma loaded_carries d t k i r z p st c s :
  going d t k s -> cold d s i -> oid_ref d s i = Some r ->
  references (world s) !! r = Some (Reference STATE_EMPTY z i None) ->
  is_Some (objects (world s) !! p) -> ptr_ref d s p = None -> data_contexts (world s) !! d = Some c ->
  let s' := put_ctx d (add_ptr_reference (Some p) r (add_oid_reference i r c)) (put_ref r (Reference st z i (Some p)) s) in
  carries d t k (eq i) none s s' /\ oid_ref d s' i = Some r /\ ptr_ref d s' p = Some r
  /\ references (world s') !! r = Some (Reference st z i (Some p)) /\ objects (world s') = objects (world s).
Proof.
  intros [(lo & k' & HF & Hs & Hk') Hr] Hcold Hir Hx Hp Hpn Hc s'. destruct Hs as [Ha Hids Hlo So Sp].
  assert (Ho' : forall j, oid_ref d s' j = oid_ref d s j).
  { intros j. unfold oid_ref in *. subst s'. cbn. rewrite lookup_insert_eq, Hc in *. cbn in *.
    destruct (decide (j = i)) as [->|]; [by rewrite lookup_insert_eq, Hir|by apply lookup_insert_ne]. }
  assert (Hp' : forall q, ptr_ref d s' q = if decide (q = p) then Some r else ptr_ref d s q).
  { intros q. unfold ptr_ref. subst s'. cbn. rewrite lookup_insert_eq, Hc. cbn.
    case_decide; [subst; apply lookup_insert_eq|apply lookup_insert_ne; congruence]. }
  assert (Hr' : references (world s') !! r = Some (Reference st z i (Some p))) by apply lookup_insert_eq.
  assert (Hrefs : forall q x, q <> r -> references (world s) !! q = Some x -> references (world s') !! q = Some x).
  { intros q x Hne Hq. subst s'. cbn. by rewrite lookup_insert_ne. }
  split_and!; [|by rewrite Ho'|rewrite Hp'; by case_decide|done|done]. split; try done.
  - exists lo, k'. split_and!; [done| |done]. split; [| |done| |].
    + apply attached_put_ctx; [by destruct Ha|]. destruct Ha as [_ (c' & ? & ?)]. cbn. congruence.
    + destruct Hids as [H1 H2 H3 (c' & Hc' & Hb)]. split; [done..|]. simplify_eq.
      eexists. subst s'. cbn. rewrite lookup_insert_eq. split; [done|exact Hb].
    + intros j q. rewrite Ho'. intros Hq. destruct (So j q Hq) as (x & Hqx & Hj & Hlt).
      destruct (decide (q = r)) as [->|]; [|exists x; split; [by apply Hrefs|done]].
      eexists. split; [exact Hr'|]. rewrite Hx in Hqx. injection Hqx as <-. done.
    + intros q r'. rewrite Hp'. case_decide as Hqp.
      * intros [= <-]. subst q. eexists. split; [exact Hr'|]. cbn. by rewrite Ho'.
      * intros Hq. destruct (Sp q r' Hq) as (x & Hqx & Hqo & Hqi & Hqd). exists x. rewrite Ho'.
        split_and!; [|done..]. apply Hrefs; [|done]. intros ->. rewrite Hx in Hqx. by injection Hqx as <-.
  - intros j q. by rewrite Ho'.
  - intros q r' Hq. rewrite Hp'. case_decide; [congruence|done].
  - intros q x y Hq Hy. exists x. split_and!; [|done|done|auto]. apply Hrefs; [|done]. intros ->.
    rewrite Hx in Hq. by injection Hq as <-.
  - intros j Hj (H1 & H2 & H3). split_and!; [done|done|]. rewrite Ho'. destruct (oid_ref d s j) as [q|]; [|done].
    destruct H3 as (y & Hq & Hy). exists y. split; [|done]. apply Hrefs; [|done]. intros ->.
    rewrite Hx in Hq. injection Hq as _ Hij. by apply Hj.
Qed.

(** Dereferencing an object that is in storage: it is read and deserialized, and the
    reference has it from then on. *)
Lemma cold_carries ser d t k i r bs (upd : bool) (Q : st -> positive -> Prop) s :
  going d t k s -> cold d s i -> oid_ref d s i = Some r -> has t (storage (world s)) i bs ->
  (forall z s1, kind i z -> carries d t (k + step) none none s s1 ->
     exists o failed s2, deserializer ser z bs s1 = Ret (o, failed, s2)
       /\ carries d t (k + step) none none s1 s2
       /\ (failed = false -> exists p, o = Some p /\ is_Some (objects (world s2) !! p)
             /\ ptr_ref d s2 p = None /\ Q s2 p)) ->
  exists o err s', deref_joined eng strategy ser be now r upd s = Ret (o, err, s')
    /\ (err = None -> exists p s2, o = Some p /\ Q s2 p
          /\ carries d t (k + step) (eq i) none s2 s' /\ carries d t (k + step) (eq i) none s s'
          /\ objects (world s') = objects (world s2) /\ ptr_ref d s' p = Some r
          /\ exists x, references (world s') !! r = Some x /\ ref_oid x = i /\ ref_obj x = Some p /\ live x
               /\ (flushed x = true \/ has t (storage (world s')) i bs)).
Proof.
  intros Hg Hcold Hir Hh Hdes. pose proof Hcold as (Hi & HiF & Hcold'). rewrite Hir in Hcold'.
  destruct Hcold' as (z & Hx & Hz). pose proof Hg as [(lo & k' & HF & Hs & Hk') Hr].
  unfold deref_joined. destruct (session_joined (eng := eng) be now d t lo k' s Hs) as (-> & _ & Htxn & _). run.
  unfold deref_obj, dereference, get_ref. rewrite Hx. run. cbn [ref_obj ref_state ref_oid ref_serialization].
  rewrite !bool_decide_eq_false_2 by (first [done|by intros []]). cbn [orb]. rewrite Htxn. run.
  pose proof (read_carries d t k i bs upd s Hg Hh) as Hread.
  destruct (if upd then _ else _) as [v e]. destruct Hread as [Hc1 Hv].
  unfold txn_rollback at 1. cbn [world put_storage with_world set_world storage set_storage].
  destruct (tx_rollback eng t e) eqn:Hf.
  { pose proof (ca_session _ _ _ _ _ _ _ Hc1) as (lo1 & k1 & _ & Hs1 & _). unfold mark_rollback.
    destruct (mark_session (durable := durable) be d t lo1 k1 (tx_should_retry eng t (storage (world (put_storage e s))))
      (put_storage e s) Hs1) as (s2 & -> & Hf2 & _). run. rewrite (fr_refs _ _ _ Hf2).
    cbn [world put_storage with_world set_world references set_storage]. rewrite Hx. run. by eexists _, _, _. }
  rewrite (Hv eq_refl). cbv zeta. set (s1 := with_world (add_event _) _).
  assert (Hc : carries d t (k + step) none none s s1).
  { eapply carries_trans; [exact Hc1|]. by apply add_event_carries, (carries_going _ _ _ _ _ _ _ Hc1). }
  destruct (Hdes z s1 Hz Hc) as (o & failed & s2 & -> & Hc2 & Hres). run.
  pose proof (carries_trans _ _ _ _ _ _ _ _ _ Hc Hc2) as Hc02.
  assert (Hcold2 : cold d s2 i) by (apply (ca_cold _ _ _ _ _ _ _ Hc02); [by intros []|done]).
  assert (Hir2 : oid_ref d s2 i = Some r) by by apply (ca_oids _ _ _ _ _ _ _ Hc02).
  pose proof Hcold2 as (_ & _ & Hx2). rewrite Hir2 in Hx2. destruct Hx2 as (z2 & Hx2 & Hz2). rewrite Hx2. run.
  destruct (ca_session _ _ _ _ _ _ _ Hc2) as (lo2 & k2 & _ & Hs2 & _).
  destruct (session_joined (eng := eng) be now d t lo2 k2 s2 Hs2) as (_ & _ & _ & c & Hctx).
  cbn [ref_state ref_serialization ref_oid].
  unfold get_ctx. cbn [world put_ref with_world set_world data_contexts set_references]. rewrite Hctx. run.
  cbn [world put_ctx put_ref with_world set_world references set_references set_contexts]. rewrite lookup_insert_eq. run.
  eexists _, _, _. split; [done|]. intros He. destruct failed; [done|].
  destruct (Hres eq_refl) as (p & -> & Hp & Hpn & HQ).
  destruct (loaded_carries d t (k + step) i r z2 p (if upd then STATE_MODIFIED else STATE_NOT_MODIFIED) c s2 (carries_going _ _ _ _ _ _ _ Hc2) Hcold2 Hir2 Hx2 Hp Hpn Hctx)
    as (Hc3 & Ho3 & Hp3 & Hx3 & Hob3).
  set (s3 := put_ctx d _ _) in *. exists p, s2.
  assert (Hhas : has t (storage (world s3)) i bs).
  { change (has t (storage (world s2)) i bs). apply (ca_has _ _ _ _ _ _ _ Hc02); auto. }
  split_and!; [done|done|exact Hc3| |exact Hob3|exact Hp3|].
  - eapply carries_trans; [|exact Hc3]. by eapply carries_weaken; [exact Hc02| |by intros ? []|].
  - eexists. split; [exact Hx3|]. split_and!; [done|done| |by right]. unfold live. destruct upd; auto.
Qed.

End progress.
