(* ===== verification/Queue.v ===== *)
(** * The durable queue (queue.c)

    A queue of persistent objects, which is itself persistent: a linked list of
    elements with the ids of the queued objects, and references to its first and
    last elements.  Elements and queues are objects of the data manager ([Data]),
    and so are the queued objects, whose serializations belong to the
    application. *)

From S2P Require Import Prelude.
From S2P Require Import Util.
From S2P Require Import Tx.
From S2P Require Import Storage.
From S2P Require Import Oids.
From S2P Require Import Data.
From S2P Require Import DataSession.

Local Open Scope Z_scope.

(** ** Data *)

Record gzochid_durable_queue_element := Element {
  elt_oid : Z;
  next : option positive
}.

Record gzochid_durable_queue := DurableQueue {
  head : option positive;
  tail : option positive
}.

(** What an address holds: an element, a queue, or an object of the application. *)
Inductive object (O : Type) :=
| ElementObject (e : gzochid_durable_queue_element)
| QueueObject (q : gzochid_durable_queue)
| AppObject (o : O).
Arguments ElementObject {O}.
Arguments QueueObject {O}.
Arguments AppObject {O}.

(** A pointer to a serialization: those of this file, or one of the application. *)
Inductive serialization (Z' : Type) :=
| gzochid_durable_queue_element_serialization
| gzochid_durable_queue_serialization
| AppSerialization (z : Z').
Arguments gzochid_durable_queue_element_serialization {Z'}.
Arguments gzochid_durable_queue_serialization {Z'}.
Arguments AppSerialization {Z'}.

Section queue.

Context {E T U O Z' X : Type}.
Context (engine : gzochid_storage_engine_interface E T).
Context (oid_strategy : gzochid_oid_allocation_strategy E U).
Context (big_endian : bool).

Abbreviation st := (data_st E T (object O) (serialization Z') X).

(** The functions of the application's serializations. *)
Context (app_serializer : Z' -> option positive -> st -> outcome (option bytes * st)).
Context (app_deserializer : Z' -> bytes -> st -> outcome (option positive * bool * st)).
Context (app_finalizer : Z' -> positive -> st -> outcome st).

(** ** Objects in memory *)

Definition get_element (p : positive) (s : st) : outcome gzochid_durable_queue_element :=
  match objects (world s) !! p with Some (ElementObject e) => Ret e | _ => Undef end.

Definition get_queue (p : positive) (s : st) : outcome gzochid_durable_queue :=
  match objects (world s) !! p with Some (QueueObject q) => Ret q | _ => Undef end.

Definition gzochid_durable_queue_element_new : st -> positive * st :=
  alloc_object (ElementObject (Element 0 None)).
Definition gzochid_durable_queue_element_free : positive -> st -> outcome st := free_object.
Definition gzochid_durable_queue_new : st -> positive * st :=
  alloc_object (QueueObject (DurableQueue None None)).
Definition gzochid_durable_queue_free : positive -> st -> outcome st := free_object.

(** ** Serializations *)

Definition serialize_element (data : option positive) (s : st) : outcome (option bytes * st) :=
  p ← deref data;
  elt ← get_element p s;
  out ← gzochid_util_serialize_oid (elt_oid elt) [];
  out ← (match next elt with
         | Some r =>
             x ← get_ref r s;
             out ← gzochid_util_serialize_boolean true out;
             gzochid_util_serialize_oid (ref_oid x) out
         | None => gzochid_util_serialize_boolean false out
         end);
  Ret (Some out, s).

Definition deserialize_element (now : timeval) (ins : bytes) (s : st)
    : outcome (option positive * bool * st) :=
  let '(elt, s) := gzochid_durable_queue_element_new s in
  '(oid, ins) ← gzochid_util_deserialize_oid ins;
  let s := put_object elt (ElementObject (Element oid None)) s in
  '(more, ins) ← gzochid_util_deserialize_boolean ins;
  if more : bool then
    '(next_oid, _) ← gzochid_util_deserialize_oid ins;
    '(r, s) ← gzochid_data_create_reference_to_oid engine now
                gzochid_durable_queue_element_serialization next_oid s;
    Ret (Some elt, false, put_object elt (ElementObject (Element oid (Some r))) s)
  else Ret (Some elt, false, s).

Definition finalize_element (data : positive) (s : st) : outcome st :=
  gzochid_durable_queue_element_free data s.

Definition serialize_queue (data : option positive) (s : st) : outcome (option bytes * st) :=
  p ← deref data;
  queue ← get_queue p s;
  match head queue with
  | Some h =>
      out ← gzochid_util_serialize_boolean true [];
      x ← get_ref h s;
      out ← gzochid_util_serialize_oid (ref_oid x) out;
      t ← deref (tail queue);
      y ← get_ref t s;
      out ← gzochid_util_serialize_oid (ref_oid y) out;
      Ret (Some out, s)
  | None => out ← gzochid_util_serialize_boolean false []; Ret (Some out, s)
  end.

Definition deserialize_queue (now : timeval) (ins : bytes) (s : st)
    : outcome (option positive * bool * st) :=
  let '(queue, s) := gzochid_durable_queue_new s in
  '(more, ins) ← gzochid_util_deserialize_boolean ins;
  if more : bool then
    '(oid, ins) ← gzochid_util_deserialize_oid ins;
    '(h, s) ← gzochid_data_create_reference_to_oid engine now
                gzochid_durable_queue_element_serialization oid s;
    let s := put_object queue (QueueObject (DurableQueue (Some h) None)) s in
    '(oid, _) ← gzochid_util_deserialize_oid ins;
    '(t, s) ← gzochid_data_create_reference_to_oid engine now
                gzochid_durable_queue_element_serialization oid s;
    Ret (Some queue, false, put_object queue (QueueObject (DurableQueue (Some h) (Some t))) s)
  else Ret (Some queue, false, s).

Definition finalize_queue (data : positive) (s : st) : outcome st :=
  gzochid_durable_queue_free data s.

(** All serializations the data manager meets; [now] is what the clock reads. *)
Definition queue_serializations (now : timeval)
    : serializations E T (object O) (serialization Z') X := {|
  serializer z := match z with
    | gzochid_durable_queue_element_serialization => serialize_element
    | gzochid_durable_queue_serialization => serialize_queue
    | AppSerialization z => app_serializer z
    end;
  deserializer z := match z with
    | gzochid_durable_queue_element_serialization => deserialize_element now
    | gzochid_durable_queue_serialization => deserialize_queue now
    | AppSerialization z => app_deserializer z
    end;
  finalizer z := match z with
    | gzochid_durable_queue_element_serialization => finalize_element
    | gzochid_durable_queue_serialization => finalize_queue
    | AppSerialization z => app_finalizer z
    end
|}.

(** ** The operations

    The first call of the data manager in an operation joins the transaction or
    fails, so that one reading of the clock is all that matters. *)

Definition gzochid_durable_queue_offer (now : timeval) (queue : positive)
    (z : serialization Z') (data : option positive) (s : st)
    : outcome (option data_error * st) :=
  let '(elt, s) := gzochid_durable_queue_element_new s in
  '(res, s) ← gzochid_data_create_reference engine oid_strategy big_endian now
                gzochid_durable_queue_element_serialization (Some elt) s;
  match res with
  | inr err => s ← gzochid_durable_queue_element_free elt s; Ret (Some err, s)
  | inl elt_ref =>
      '(res, s) ← gzochid_data_create_reference engine oid_strategy big_endian now z data s;
      match res with
      | inr err => Ret (Some err, s)
      | inl data_ref =>
          x ← get_ref data_ref s;
          let s := put_object elt (ElementObject (Element (ref_oid x) None)) s in
          q ← get_queue queue s;
          '(err, s) ←
            (match head q with
             | None => Ret (None, put_object queue
                         (QueueObject (DurableQueue (Some elt_ref) (Some elt_ref))) s)
             | Some _ =>
                 t ← deref (tail q);
                 '(_, err, s) ← gzochid_data_dereference engine oid_strategy
                                  (queue_serializations now) big_endian now t s;
                 match err with
                 | Some err => Ret (Some err, s)
                 | None =>
                     y ← get_ref t s;
                     tail_elt ← deref (ref_obj y);
                     te ← get_element tail_elt s;
                     let s := put_object tail_elt
                                (ElementObject (Element (elt_oid te) (Some elt_ref))) s in
                     q ← get_queue queue s;
                     let s := put_object queue
                                (QueueObject (DurableQueue (head q) (Some elt_ref))) s in
                     gzochid_data_mark engine oid_strategy big_endian now
                       gzochid_durable_queue_element_serialization (Some tail_elt) s
                 end
             end);
          match err with
          | Some err => Ret (Some err, s)
          | None => gzochid_data_mark engine oid_strategy big_endian now
                      gzochid_durable_queue_serialization (Some queue) s
          end
      end
  end.

Definition gzochid_durable_queue_peek (now : timeval) (queue : positive)
    (z : serialization Z') (s : st) : outcome (option positive * option data_error * st) :=
  q ← get_queue queue s;
  match head q with
  | Some head_ref =>
      '(p, err, s) ← gzochid_data_dereference engine oid_strategy
                       (queue_serializations now) big_endian now head_ref s;
      match err with
      | None =>
          p ← deref p;
          elt ← get_element p s;
          '(data_ref, s) ← gzochid_data_create_reference_to_oid engine now z (elt_oid elt) s;
          gzochid_data_dereference engine oid_strategy (queue_serializations now) big_endian
            now data_ref s
      | Some err => Ret (None, Some err, s)
      end
  | None => Ret (None, None, s)
  end.

Definition gzochid_durable_queue_pop (now : timeval) (queue : positive)
    (z : serialization Z') (s : st) : outcome (option positive * option data_error * st) :=
  q ← get_queue queue s;
  match head q with
  | Some head_ref =>
      '(p, err, s) ← gzochid_data_dereference_for_update engine oid_strategy
                       (queue_serializations now) big_endian now head_ref s;
      match err with
      | Some err => Ret (None, Some err, s)
      | None =>
          p ← deref p;
          elt ← get_element p s;
          q ← get_queue queue s;
          let s := put_object queue (QueueObject (DurableQueue (next elt)
                     (match next elt with None => None | Some _ => tail q end))) s in
          '(data_ref, s) ← gzochid_data_create_reference_to_oid engine now z (elt_oid elt) s;
          '(data, err, s) ← gzochid_data_dereference engine oid_strategy
                              (queue_serializations now) big_endian now data_ref s;
          match err with
          | Some err => Ret (None, Some err, s)
          | None =>
              '(err, s) ← gzochid_data_remove_object engine big_endian now head_ref s;
              '(err, s) ← (match err with
                           | Some err => Ret (Some err, s)
                           | None => gzochid_data_mark engine oid_strategy big_endian now
                                       gzochid_durable_queue_serialization (Some queue) s
                           end);
              match err with
              | None => Ret (data, None, s)
              | Some err => Ret (None, Some err, s)
              end
          end
      end
  | None => Ret (None, None, s)
  end.

End queue.

(** ** Storing and loading *)

Section roundtrip.

Context {E T O Z' X : Type} {eng : gzochid_storage_engine_interface E T} (now : timeval).

Abbreviation st := (data_st E T (object O) (serialization Z') X).

(** What an element and a queue say by ids, which is what outlives a transaction. *)
Definition ref_id (s : st) (r : positive) : option Z := ref_oid <$> references (world s) !! r.

Definition element_ids (s : st) (p : positive) : option (Z * option Z) :=
  match objects (world s) !! p with
  | Some (ElementObject e) =>
      match next e with
      | None => Some (elt_oid e, None)
      | Some r => n ← ref_id s r; Some (elt_oid e, Some n)
      end
  | _ => None
  end.

Definition queue_ids (s : st) (p : positive) : option (option (Z * Z)) :=
  match objects (world s) !! p with
  | Some (QueueObject q) =>
      match head q with
      | None => Some None
      | Some h => t ← tail q; ho ← ref_id s h; to ← ref_id s t; Some (Some (ho, to))
      end
  | _ => None
  end.

(** A transaction in which references are found under their ids. *)
Record loading (d : positive) (t : T) (s : st) : Prop := {
  ld_attached : attached d t s;
  ld_oids : forall oid r, oid_ref d s oid = Some r -> ref_id s r = Some oid
}.

Lemma reference_to_oid_loading d t z oid (s : st) :
  loading d t s ->
  exists r s', gzochid_data_create_reference_to_oid eng now z oid s = Ret (r, s')
    /\ loading d t s' /\ ref_id s' r = Some oid /\ objects (world s') = objects (world s)
    /\ forall r' i, ref_id s r' = Some i -> ref_id s' r' = Some i.
Proof.
  intros [Ha Ho]. unfold gzochid_data_create_reference_to_oid.
  rewrite (join_attached (eng := eng) now d t s Ha). run. unfold get_reference_by_oid.
  rewrite (current_attached d t s Ha). run. unfold get_ctx.
  pose proof Ha as [_ (c & Hc & Ht)]. rewrite Hc. run.
  destruct (oids_to_references c !! oid) as [r|] eqn:Hr.
  - assert (Hid : ref_id s r = Some oid) by (apply Ho; unfold oid_ref; by rewrite Hc).
    exists r, s. by split_and!.
  - unfold create_empty_reference, alloc_ref. set (r := fresh (dom (references (world s)))).
    assert (Hold : forall r' i x, ref_id s r' = Some i ->
      ref_oid <$> <[r := x]> (references (world s)) !! r' = Some i).
    { intros r' i x Hi. rewrite lookup_insert_ne; [done|]. intros <-.
      assert (Hnone : references (world s) !! r = None) by apply not_elem_of_dom, is_fresh.
      unfold ref_id in Hi. by rewrite Hnone in Hi. }
    eexists r, _. split; [done|]. split; [|split; [|split; [done|]]].
    + split; [by apply attached_put_ctx; [destruct Ha|]|].
      intros o r'. unfold oid_ref. cbn. rewrite lookup_insert_eq. cbn.
      destruct (decide (oid = o)) as [->|Hne].
      * rewrite lookup_insert_eq. intros [= <-]. unfold ref_id. cbn. by rewrite lookup_insert_eq.
      * rewrite lookup_insert_ne by done. intros Hr'. unfold ref_id. cbn. apply Hold, Ho.
        unfold oid_ref. by rewrite Hc.
    + unfold ref_id. cbn. by rewrite lookup_insert_eq.
    + intros r' i Hi. unfold ref_id. cbn. by apply Hold.
Qed.

Lemma loading_put_object d t p o (s : st) : loading d t s -> loading d t (put_object p o s).
Proof. by intros [[? ?] ?]. Qed.

Lemma get_ref_id (s : st) r i : ref_id s r = Some i -> exists x, get_ref r s = Ret x /\ ref_oid x = i.
Proof.
  unfold ref_id, get_ref. intros (x & -> & ->)%fmap_Some. by exists x.
Qed.

Lemma element_stored d t p v (s s2 : st) :
  element_ids s p = Some v -> in_unsigned 64 v.1 -> default True (in_unsigned 64 <$> v.2) ->
  loading d t s2 ->
  exists bs, serialize_element (Some p) s = Ret (Some bs, s)
    /\ exists p' s', deserialize_element eng now bs s2 = Ret (Some p', false, s')
         /\ element_ids s' p' = Some v /\ loading d t s'.
Proof.
  intros Hv H1 H2 Hload. unfold element_ids in Hv.
  destruct (objects (world s) !! p) as [[[o nx]|q|a]|] eqn:Hp; try done. cbn [next elt_oid] in Hv.
  unfold serialize_element, get_element. run. rewrite Hp. run. cbn [elt_oid next].
  destruct nx as [r|].
  - apply bind_Some in Hv as (i & Hi & [= <-]). cbn in H1, H2.
    destruct (get_ref_id s r i Hi) as (x & -> & <-). run.
    destruct (serial_ok (ser := gzochid_util_serialize_oid) o H1) as (e1 & W1 & R1).
    destruct (serial_ok (ser := gzochid_util_serialize_boolean) true I) as (e2 & W2 & R2).
    destruct (serial_ok (ser := gzochid_util_serialize_oid) (ref_oid x) H2) as (e3 & W3 & R3).
    rewrite W1. run. rewrite W2. run. rewrite W3. run. eexists. split; [done|].
    unfold deserialize_element, gzochid_durable_queue_element_new, alloc_object.
    rewrite <- !app_assoc. cbn [app]. rewrite R1. run. rewrite R2. run.
    rewrite <- (app_nil_r e3), R3. run.
    match goal with |- context [gzochid_data_create_reference_to_oid _ _ _ _ ?s0] =>
      destruct (reference_to_oid_loading d t gzochid_durable_queue_element_serialization
        (ref_oid x) s0) as (r' & s3 & -> & Hl3 & Hid & _ & _) end.
    { by do 2 apply loading_put_object. }
    run. eexists _, _. split; [done|]. split; [|by apply loading_put_object].
    unfold element_ids. cbn [world put_object with_world set_world objects set_objects].
    rewrite lookup_insert_eq. cbn [next elt_oid]. unfold ref_id in *. cbn. by rewrite Hid.
  - injection Hv as <-. cbn in H1.
    destruct (serial_ok (ser := gzochid_util_serialize_oid) o H1) as (e1 & W1 & R1).
    destruct (serial_ok (ser := gzochid_util_serialize_boolean) false I) as (e2 & W2 & R2).
    rewrite W1. run. rewrite W2. run. eexists. split; [done|].
    unfold deserialize_element, gzochid_durable_queue_element_new, alloc_object.
    rewrite <- !app_assoc. cbn [app]. rewrite R1. run. rewrite <- (app_nil_r e2), R2. run.
    eexists _, _. split; [done|]. split; [|by do 2 apply loading_put_object].
    unfold element_ids. cbn. by rewrite lookup_insert_eq.
Qed.

Lemma queue_stored d t p v (s s2 : st) :
  queue_ids s p = Some v ->
  (forall h t', v = Some (h, t') -> in_unsigned 64 h /\ in_unsigned 64 t') ->
  loading d t s2 ->
  exists bs, serialize_queue (Some p) s = Ret (Some bs, s)
    /\ exists p' s', deserialize_queue eng now bs s2 = Ret (Some p', false, s')
         /\ queue_ids s' p' = Some v /\ loading d t s'.
Proof.
  intros Hv Hr Hload. unfold queue_ids in Hv.
  destruct (objects (world s) !! p) as [[e|[hd tl]|a]|] eqn:Hp; try done. cbn [head tail] in Hv.
  unfold serialize_queue, get_queue. run. rewrite Hp. run. cbn [head tail].
  destruct hd as [h|].
  - apply bind_Some in Hv as (tr & -> & Hv). apply bind_Some in Hv as (ho & Hh & Hv).
    apply bind_Some in Hv as (to & Ht & [= <-]). destruct (Hr _ _ eq_refl) as [H1 H2].
    destruct (get_ref_id s h ho Hh) as (x & Hx & <-), (get_ref_id s tr to Ht) as (y & Hy & <-).
    destruct (serial_ok (ser := gzochid_util_serialize_boolean) true I) as (e1 & W1 & R1).
    destruct (serial_ok (ser := gzochid_util_serialize_oid) (ref_oid x) H1) as (e2 & W2 & R2).
    destruct (serial_ok (ser := gzochid_util_serialize_oid) (ref_oid y) H2) as (e3 & W3 & R3).
    rewrite W1. run. rewrite Hx. run. rewrite W2. run. rewrite Hy. run. rewrite W3. run.
    eexists. split; [done|].
    unfold deserialize_queue, gzochid_durable_queue_new, alloc_object.
    rewrite <- !app_assoc. cbn [app]. rewrite R1. run. rewrite R2. run.
    match goal with |- context [gzochid_data_create_reference_to_oid _ _ _ _ ?s0] =>
      destruct (reference_to_oid_loading d t gzochid_durable_queue_element_serialization
        (ref_oid x) s0) as (r1 & s3 & -> & Hl3 & Hid1 & _ & _) end.
    { by apply loading_put_object. }
    run. rewrite <- (app_nil_r e3), R3. run.
    match goal with |- context [gzochid_data_create_reference_to_oid _ _ _ _ ?s0] =>
      destruct (reference_to_oid_loading d t gzochid_durable_queue_element_serialization
        (ref_oid y) s0) as (r2 & s4 & -> & Hl4 & Hid2 & _ & Hkeep) end.
    { by apply loading_put_object. }
    run. eexists _, _. split; [done|]. split; [|by apply loading_put_object].
    pose proof (Hkeep r1 (ref_oid x) Hid1) as Hid1'. unfold queue_ids.
    cbn [world put_object with_world set_world objects set_objects]. rewrite lookup_insert_eq.
    cbn [head tail]. unfold ref_id in *. cbn. by rewrite Hid1', Hid2.
  - injection Hv as <-.
    destruct (serial_ok (ser := gzochid_util_serialize_boolean) false I) as (e1 & W1 & R1).
    rewrite W1. run. eexists. split; [done|].
    unfold deserialize_queue, gzochid_durable_queue_new, alloc_object.
    cbn [app]. rewrite <- (app_nil_r e1), R1. run. eexists _, _. split; [done|].
    split; [|by apply loading_put_object]. unfold queue_ids. cbn. by rewrite lookup_insert_eq.
Qed.

(** Queues and their elements survive being stored.  What an element or a
    queue says by ids, which is the id of its object and of the next element, or
    of the first and the last element, or that there is none, is what its
    serialization, loaded in another transaction, says again; and the references
    of the loading transaction stay consistent. *)
Theorem queue_storage_roundtrip d t p (s s2 : st) :
  loading d t s2 ->
  (forall v, element_ids s p = Some v -> in_unsigned 64 v.1 ->
     default True (in_unsigned 64 <$> v.2) ->
     exists bs, serialize_element (Some p) s = Ret (Some bs, s)
       /\ exists p' s', deserialize_element eng now bs s2 = Ret (Some p', false, s')
            /\ element_ids s' p' = Some v /\ loading d t s')
  /\ (forall v, queue_ids s p = Some v ->
     (forall h t', v = Some (h, t') -> in_unsigned 64 h /\ in_unsigned 64 t') ->
     exists bs, serialize_queue (Some p) s = Ret (Some bs, s)
       /\ exists p' s', deserialize_queue eng now bs s2 = Ret (Some p', false, s')
            /\ queue_ids s' p' = Some v /\ loading d t s').
Proof.
  intros Hload. split; intros v Hv H1.
  - intros H2. by apply (element_stored d t p v s s2).
  - by apply (queue_stored d t p v s s2).
Qed.

End roundtrip.

(** ** Instances at which the properties are used *)

Abbreviation sample_qst := (data_st map_engine_state positive (object nat) (serialization unit) unit).

(** A transaction that has an empty queue at address 1. *)
Definition sample_queue_state : sample_qst :=
  TxThread (Some sample_transaction) (Some (TxTiming (Timeval 0 0) None)) 2
    (DataWorld {[1%positive := DataContext None [] (Some 1%positive) ∅ ∅]} ∅
       {[1%positive := QueueObject (DurableQueue None None); 2%positive := AppObject 7%nat;
         3%positive := AppObject 8%nat]} []
       (MapEngine ∅ {[1%positive := ∅]}) [] tt).

Definition sample_stored : sample_qst :=
  TxThread None None 3
    (DataWorld ∅ {[1%positive := Reference STATE_NEW gzochid_durable_queue_element_serialization 9 None;
                   4%positive := Reference STATE_NEW gzochid_durable_queue_element_serialization 8 None]}
       {[1%positive := QueueObject (DurableQueue (Some 4%positive) (Some 1%positive));
         2%positive := ElementObject (Element 5 (Some 1%positive))]} []
       (MapEngine ∅ ∅) [] tt).

Lemma queue_storage_roundtrip_witness :
  (exists bs, serialize_element (Some 2%positive) sample_stored = Ret (Some bs, sample_stored)
    /\ exists p' s', deserialize_element map_engine (Timeval 1 0) bs sample_queue_state
         = Ret (Some p', false, s') /\ element_ids s' p' = Some (5, Some 9))
  /\ exists bs, serialize_queue (Some 1%positive) sample_stored = Ret (Some bs, sample_stored)
    /\ exists p' s', deserialize_queue map_engine (Timeval 1 0) bs sample_queue_state
         = Ret (Some p', false, s') /\ queue_ids s' p' = Some (Some (8, 9)).
Proof.
  assert (Hload : loading (O := nat) 1 1%positive sample_queue_state).
  { split; [split; [by eexists _, _|by eexists]|]. intros oid r Hr. discriminate Hr. }
  destruct (queue_storage_roundtrip (eng := map_engine) (Timeval 1 0) 1%positive 1%positive
    2%positive sample_stored sample_queue_state Hload) as [He _].
  destruct (queue_storage_roundtrip (eng := map_engine) (Timeval 1 0) 1%positive 1%positive
    1%positive sample_stored sample_queue_state Hload) as [_ Hq].
  split.
  - destruct (He (5, Some 9) eq_refl) as (bs & Hs & p' & s' & Hd & Hi & _).
    + split; [discriminate|reflexivity].
    + split; [discriminate|reflexivity].
    + exists bs. split; [exact Hs|]. exists p', s'. split; [exact Hd|exact Hi].
  - destruct (Hq (Some (8, 9)) eq_refl) as (bs & Hs & p' & s' & Hd & Hi & _).
    + intros h t' [= <- <-]. split; (split; [discriminate|reflexivity]).
    + exists bs. split; [exact Hs|]. exists p', s'. split; [exact Hd|exact Hi].
Defined.
