(* ===== verification/QueueFifo.v ===== *)
(** * The durable queue: first in, first out

    A queue holds a list of ids: those of its elements, and in each the id of an object.
    Any element and any object may be in memory or still in storage, from where the
    operations load what they need; [holds] also says that what is in memory will be
    flushed if it is not what is stored. *)

From S2P Require Import Prelude.
From S2P Require Import Util.
From S2P Require Import Tx.
From S2P Require Import Storage.
From S2P Require Import Oids.
From S2P Require Import Data.
From S2P Require Import DataSession.
From S2P Require Import DataProgress.
From S2P Require Import Queue.

Local Open Scope Z_scope.

(** ** What is stored for an element and for a queue *)

Definition element_bytes (v : Z * option Z) : outcome bytes :=
  out ← gzochid_util_serialize_oid v.1 [];
  match v.2 with
  | Some n => out ← gzochid_util_serialize_boolean true out; gzochid_util_serialize_oid n out
  | None => gzochid_util_serialize_boolean false out
  end.

Definition queue_bytes (v : option (Z * Z)) : outcome bytes :=
  match v with
  | Some (h, t) =>
      out ← gzochid_util_serialize_boolean true [];
      out ← gzochid_util_serialize_oid h out;
      gzochid_util_serialize_oid t out
  | None => gzochid_util_serialize_boolean false []
  end.

Section fifo.

Context {E T O Z' X : Type} {eng : gzochid_storage_engine_interface E T}.
Context {view : T -> E -> contents} {durable : E -> contents} {running : T -> E -> Prop}.
Context `{HL : !EngineLaws eng view durable} `{HI : !Isolation eng view durable running}.
Context (be : bool) (now : timeval).

(** The ids of stored objects are below [F]; those of stored elements are [element]. *)
Context (F : Z) (element : Z -> Prop).

Abbreviation st := (data_st E T (object O) (serialization Z') X).
Abbreviation strategy := (gzochid_storage_oid_strategy_new eng be Meta).
Abbreviation none := (fun _ => False).
Abbreviation step := (2 * ALLOCATION_BLOCK_SIZE).
Implicit Types (s : st).

(** References to what is in storage only are made with its own serialization. *)
Definition kind (i : Z) (z : serialization Z') : Prop :=
  match z with
  | gzochid_durable_queue_element_serialization => element i
  | gzochid_durable_queue_serialization => False
  | AppSerialization _ => ~ element i
  end.

Abbreviation going := (going (durable := durable) (running := running) be F).
Abbreviation carries := (carries (eng := eng) (view := view) (durable := durable) (running := running) be F kind).
Abbreviation cold := (cold F kind).
Abbreviation has t s := (has (eng := eng) (view := view) be t (storage (world s))).

(** ** The contents of a queue *)

(** The reference is that to the id, if there is one. *)
Definition link (d : positive) s (r : option positive) (i : option Z) : Prop :=
  match r, i with
  | None, None => True
  | Some r, Some i => oid_ref d s i = Some r
  | _, _ => False
  end.

(** The element [i] is in memory at [p]: its object has the id [v.1], the next has [v.2].
    It will be flushed, or is what is stored. *)
Definition element_loaded (d : positive) (t : T) s (i : Z) (v : Z * option Z) (r p : positive)
    (nr : option positive) : Prop :=
  exists x, oid_ref d s i = Some r /\ references (world s) !! r = Some x /\ ref_oid x = i
    /\ ref_obj x = Some p /\ ptr_ref d s p = Some r /\ live x
    /\ objects (world s) !! p = Some (ElementObject (Element v.1 nr)) /\ link d s nr v.2
    /\ (flushed x = true \/ exists bs, element_bytes v = Ret bs /\ has t s i bs).

Definition says (d : positive) (t : T) s (i : Z) (v : Z * option Z) : Prop :=
  in_unsigned 64 i
  /\ ((exists r p nr, element_loaded d t s i v r p nr)
      \/ (element i /\ cold d s i /\ exists bs, element_bytes v = Ret bs /\ has t s i bs)).

(** The object with the id is in memory at [p]. *)
Definition object_of (d : positive) s (o : Z) (p : positive) : Prop :=
  exists r x, oid_ref d s o = Some r /\ references (world s) !! r = Some x /\ ref_obj x = Some p.

Definition is_app s (p : positive) : Prop := exists a, objects (world s) !! p = Some (AppObject a).

Definition has_object (d : positive) (t : T) s (o : Z) : Prop :=
  in_unsigned 64 o
  /\ ((exists p, object_of d s o p /\ is_app s p)
      \/ (~ element o /\ cold d s o /\ exists bs, has t s o bs)).

Definition next_id (l : list (Z * Z)) (fin : option Z) : option Z :=
  match l with [] => fin | (i, _) :: _ => Some i end.

(** Elements with their objects, of which the last says [fin] about what is next. *)
Fixpoint chain (d : positive) (t : T) s (l : list (Z * Z)) (fin : option Z) : Prop :=
  match l with
  | [] => True
  | (i, o) :: l => says d t s i (o, next_id l fin) /\ chain d t s l fin
  end.

Definition queue_ends (l : list (Z * Z)) : option (Z * Z) :=
  match l, last l with
  | (h, _) :: _, Some (t, _) => Some (h, t)
  | _, _ => None
  end.

(** The queue itself will be flushed, or is what is stored; only a new one that is empty may
    not have been referred to. *)
Definition queue_saved (d : positive) (t : T) s (q : positive) (l : list (Z * Z)) : Prop :=
  (l = [] /\ ptr_ref d s q = None)
  \/ exists r x, ptr_ref d s q = Some r /\ references (world s) !! r = Some x
       /\ (flushed x = true \/ exists bs, queue_bytes (queue_ends l) = Ret bs /\ has t s (ref_oid x) bs).

(** The queue at the address [q] has the elements and objects [l], from head to tail. *)
Definition holds (d : positive) (t : T) s (q : positive) (l : list (Z * Z)) : Prop :=
  (exists hd tl, objects (world s) !! q = Some (QueueObject (DurableQueue hd tl))
     /\ link d s hd (next_id l None) /\ link d s tl (fst <$> last l))
  /\ chain d t s l None /\ NoDup l.*1 /\ Forall (has_object d t s) l.*2 /\ queue_saved d t s q l.

(** ** What is kept *)

Lemma link_carries d t k hot w s s' r i : carries d t k hot w s s' -> link d s r i -> link d s' r i.
Proof. intros H. destruct r, i; cbn; [apply (ca_oids _ _ _ _ _ _ _ _ _ _ H)|done..]. Qed.

Lemma object_of_carries d t k hot w s s' o p :
  carries d t k hot w s s' -> object_of d s o p -> object_of d s' o p.
Proof.
  intros H (r & x & Hr & Hx & Hp). destruct (ca_refs _ _ _ _ _ _ _ _ _ _ H r x p Hx Hp) as (x' & Hx' & _ & Hp' & _).
  exists r, x'. split_and!; [by apply (ca_oids _ _ _ _ _ _ _ _ _ _ H)|done|done].
Qed.

Lemma element_loaded_carries d t k hot w s s' i v r p nr :
  carries d t k hot w s s' -> ~ hot i -> in_unsigned 64 i -> ~ w p ->
  element_loaded d t s i v r p nr -> element_loaded d t s' i v r p nr.
Proof.
  intros H Hh Hi Hw (x & Hr & Hx & Hxi & Hp & Hptr & Hlive & Ho & Hl & Hs).
  destruct (ca_refs _ _ _ _ _ _ _ _ _ _ H r x p Hx Hp) as (x' & Hx' & Hxi' & Hp' & Hf). specialize (Hf ltac:(by rewrite Hxi)).
  exists x'. split_and!; [by apply (ca_oids _ _ _ _ _ _ _ _ _ _ H)|done|congruence|done
    |by apply (ca_ptrs _ _ _ _ _ _ _ _ _ _ H)| |by apply (ca_kept _ _ _ _ _ _ _ _ _ _ H)|by eapply link_carries|].
  - destruct Hf as [->|Hf]; [done|by apply flushed_live].
  - destruct Hf as [->|Hf]; [|by left]. destruct Hs as [Hs|(bs & Hb & Hs)]; [by left|right]. exists bs.
    split; [done|]. by apply (ca_has _ _ _ _ _ _ _ _ _ _ H).
Qed.

Lemma says_carries d t k hot w s s' i v :
  carries d t k hot w s s' -> ~ hot i -> (forall p, object_of d s i p -> ~ w p) ->
  says d t s i v -> says d t s' i v.
Proof.
  intros H Hh Hw [Hi [(r & p & nr & Hl)|(He & Hc & bs & Hb & Hs)]]; (split; [done|]).
  - left. exists r, p, nr. eapply element_loaded_carries; [exact H|done|done| |done]. apply Hw.
    destruct Hl as (x & ? & ? & _ & ? & _). by exists r, x.
  - right. split; [done|]. split; [by apply (ca_cold _ _ _ _ _ _ _ _ _ _ H)|]. exists bs. split; [done|].
    by apply (ca_has _ _ _ _ _ _ _ _ _ _ H).
Qed.

Lemma chain_carries d t k hot w s s' l fin :
  carries d t k hot w s s' ->
  Forall (fun i => ~ hot i /\ forall p, object_of d s i p -> ~ w p) l.*1 ->
  chain d t s l fin -> chain d t s' l fin.
Proof.
  intros H. induction l as [|[i o] l IH]; cbn; [done|]. intros [[Hh Hw] Hall]%Forall_cons [Hs Hl].
  split; [by eapply says_carries|by apply IH].
Qed.

Lemma is_app_carries d t k hot w s s' p : carries d t k hot w s s' -> ~ w p -> is_app s p -> is_app s' p.
Proof. intros H Hw [a Ha]. exists a. by apply (ca_kept _ _ _ _ _ _ _ _ _ _ H). Qed.

Lemma has_object_carries d t k hot w s s' o :
  carries d t k hot w s s' -> ~ hot o -> (forall p, is_app s p -> ~ w p) ->
  has_object d t s o -> has_object d t s' o.
Proof.
  intros H Hh Hw [Ho [(p & Hp & Ha)|(He & Hc & bs & Hb)]]; (split; [done|]).
  - left. exists p. split; [by eapply object_of_carries|]. eapply is_app_carries; [exact H|by apply Hw|done].
  - right. split; [done|]. split; [by apply (ca_cold _ _ _ _ _ _ _ _ _ _ H)|]. exists bs.
    by apply (ca_has _ _ _ _ _ _ _ _ _ _ H).
Qed.

(** ** What is apart *)

Lemma cold_no_object d s i p : cold d s i -> object_of d s i p -> False.
Proof.
  intros (_ & _ & Hc) (r & x & Hr & Hx & Hp). rewrite Hr in Hc. destruct Hc as (z & Hz & _). by simplify_eq.
Qed.

Lemma object_of_unique d s i p p' : object_of d s i p -> object_of d s i p' -> p = p'.
Proof. intros (r & x & ? & ? & ?) (r' & x' & ? & ? & ?). congruence. Qed.

Lemma loaded_object d t s i v r p nr : element_loaded d t s i v r p nr -> object_of d s i p.
Proof. intros (x & ? & ? & _ & ? & _). by exists r, x. Qed.

Lemma says_apart d t s i v o : says d t s i v -> has_object d t s o -> i <> o.
Proof.
  intros [_ [(r & p & nr & Hl)|(He & Hc & _)]] [_ [(p' & Hp' & a & Ha)|(He' & Hc' & _)]] ->.
  - pose proof (object_of_unique _ _ _ _ _ (loaded_object _ _ _ _ _ _ _ _ Hl) Hp') as <-.
    destruct Hl as (x & _ & _ & _ & _ & _ & _ & Ho & _). congruence.
  - by eapply cold_no_object, loaded_object.
  - by eapply cold_no_object.
  - done.
Qed.

(** The id of the queue is none of those. *)
Lemma queue_apart d t k s q Q r x :
  going d t k s -> objects (world s) !! q = Some (QueueObject Q) ->
  ptr_ref d s q = Some r -> references (world s) !! r = Some x ->
  object_of d s (ref_oid x) q /\ (forall v, ~ says d t s (ref_oid x) v) /\ ~ has_object d t s (ref_oid x).
Proof.
  intros [(lo & k' & _ & Hs & _) _] Hq Hr Hx.
  destruct (ses_ptrs _ _ _ _ _ _ Hs _ _ Hr) as (x' & Hx' & Hxo & Hxi & _). simplify_eq.
  assert (Hob : object_of d s (ref_oid x) q) by by exists r, x. split_and!; [done| |].
  - intros v [_ [(r' & p & nr & Hl)|(_ & Hc & _)]]; [|by eapply cold_no_object].
    pose proof (object_of_unique _ _ _ _ _ (loaded_object _ _ _ _ _ _ _ _ Hl) Hob) as ->.
    destruct Hl as (y & _ & _ & _ & _ & _ & _ & Ho & _). congruence.
  - intros [_ [(p & Hp & a & Ha)|(_ & Hc & _)]]; [|by eapply cold_no_object].
    pose proof (object_of_unique _ _ _ _ _ Hp Hob) as ->. congruence.
Qed.

(** ** Ids *)

Lemma going_range d t k s i r : going d t k s -> k < 2 ^ 64 -> oid_ref d s i = Some r -> in_unsigned 64 i.
Proof.
  intros [(lo & k' & _ & Hs & Hk') _] Hk Hi. destruct (ses_oids _ _ _ _ _ _ Hs _ _ Hi) as (x & _ & _ & Hlt).
  destruct (ses_ids _ _ _ _ _ _ Hs) as [_ _ _ (c & _ & Hb)]. unfold block_in, in_unsigned in *.
  destruct (free_oids c); lia.
Qed.

(** The references found by address and by id agree. *)
Lemma ptr_object d t k s p r : going d t k s -> ptr_ref d s p = Some r ->
  exists x, references (world s) !! r = Some x /\ object_of d s (ref_oid x) p.
Proof.
  intros [(lo & k' & _ & Hs & _) _] Hr. destruct (ses_ptrs _ _ _ _ _ _ Hs _ _ Hr) as (x & Hx & Hp & Hi & _).
  exists x. split; [done|]. by exists r, x.
Qed.

(** ** Loading *)

Context (app_serializer : Z' -> option positive -> st -> outcome (option bytes * st)).
Context (app_deserializer : Z' -> bytes -> st -> outcome (option positive * bool * st)).
Context (app_finalizer : Z' -> positive -> st -> outcome st).

Abbreviation ser := (queue_serializations eng app_serializer app_deserializer app_finalizer now).

(** The deserializers of the application may fail, put a new object of the application in
    memory, and refer to other objects; they do not write or load queues and elements. *)
Hypothesis app_deserializer_ok : forall d t k z bs s,
  going d t k s ->
  exists o failed s', app_deserializer z bs s = Ret (o, failed, s')
    /\ carries d t k none none s s'
    /\ (failed = false -> exists p a, o = Some p /\ objects (world s') !! p = Some (AppObject a)
          /\ ptr_ref d s' p = None).

(** There is a reference to the id, or it may be made. *)
Definition reachable (d : positive) s (i : Z) : Prop :=
  is_Some (oid_ref d s i) \/ in_unsigned 64 i /\ i < F /\ element i.

Lemma says_reachable d t s i v : says d t s i v -> in_unsigned 64 i /\ reachable d s i.
Proof.
  intros [Hi [(r & p & nr & x & Hr & _)|(He & (_ & HF & _) & _)]]; (split; [done|]); [left; by eexists|by right].
Qed.

Lemma deserialize_element_carries d t k v bs s :
  going d t k s -> in_unsigned 64 v.1 ->
  (forall n, v.2 = Some n -> in_unsigned 64 n /\ reachable d s n) -> element_bytes v = Ret bs ->
  exists p nr s', deserialize_element eng now bs s = Ret (Some p, false, s')
    /\ carries d t k none none s s' /\ ptr_ref d s' p = None
    /\ objects (world s') !! p = Some (ElementObject (Element v.1 nr)) /\ link d s' nr v.2.
Proof.
  intros Hg H1 H2 Hb. unfold deserialize_element, gzochid_durable_queue_element_new.
  destruct (alloc_object_carries (eng := eng) (view := view) (durable := durable) (running := running) be F kind d t k
    (ElementObject (Element 0 None)) s Hg) as (p & -> & Hc1 & Hp0).
  pose proof (carries_going _ _ _ _ _ _ _ _ _ _ Hc1) as Hg1. set (s1 := put_object p _ s) in *.
  assert (Hput : forall s2 o, carries d t k none none s s2 -> carries d t k none none s (put_object p o s2)).
  { intros s2 o H. apply (carries_weaken be F kind d t k k none none (eq p)); [|lia|done|].
    - eapply carries_trans; [by eapply carries_weaken; [exact H| |done|]|].
      by apply put_object_carries, (carries_going _ _ _ _ _ _ _ _ _ _ H).
    - intros y [o' Hy] <-. congruence. }
  unfold element_bytes in Hb.
  destruct (serial_ok (ser := gzochid_util_serialize_oid) v.1 H1) as (e1 & W1 & R1).
  rewrite W1 in Hb. cbn [mbind outcome_bind app] in Hb. destruct v as [o [n|]]; cbn [fst snd] in *.
  - destruct (H2 n eq_refl) as [Hn Hreach].
    destruct (serial_ok (ser := gzochid_util_serialize_boolean) true I) as (e2 & W2 & R2).
    destruct (serial_ok (ser := gzochid_util_serialize_oid) n Hn) as (e3 & W3 & R3).
    rewrite W2 in Hb. cbn [mbind outcome_bind] in Hb. rewrite W3 in Hb. injection Hb as <-.
    rewrite <- !app_assoc, R1. run. rewrite R2. run. rewrite <- (app_nil_r e3), R3. run.
    set (s2 := put_object p (ElementObject (Element o None)) s1).
    pose proof (Hput s1 (ElementObject (Element o None)) Hc1) as Hc2. fold s2 in Hc2.
    destruct (to_oid_carries (eng := eng) (view := view) (durable := durable) (running := running) be now F kind d t k
      gzochid_durable_queue_element_serialization n s2 (carries_going _ _ _ _ _ _ _ _ _ _ Hc2))
      as (r & s3 & -> & Hc3 & Hr & Ho3 & Hp3).
    { destruct Hreach as [[r Hr]|Hreach]; [left|right; exact Hreach]. exists r. by apply (ca_oids _ _ _ _ _ _ _ _ _ _ Hc2). }
    run. eexists p, (Some r), _. split; [done|].
    split; [apply Hput; by eapply carries_trans|]. split; [|split; [cbn; apply lookup_insert_eq|exact Hr]].
    change (ptr_ref d s3 p = None). rewrite Hp3. change (ptr_ref d s p = None). by eapply going_fresh.
  - destruct (serial_ok (ser := gzochid_util_serialize_boolean) false I) as (e2 & W2 & R2).
    rewrite W2 in Hb. injection Hb as <-. rewrite R1. run. rewrite <- (app_nil_r e2), R2. run.
    eexists p, None, _. split; [done|]. split; [by apply Hput|].
    split; [|split; [cbn; apply lookup_insert_eq|done]]. change (ptr_ref d s p = None). by eapply going_fresh.
Qed.

(** Dereferencing an element, wherever it is. *)
Lemma load_element d t k i v r (upd : bool) s :
  going d t k s -> k < 2 ^ 64 - step -> says d t s i v -> oid_ref d s i = Some r -> in_unsigned 64 v.1 ->
  (forall n, v.2 = Some n -> in_unsigned 64 n /\ reachable d s n) ->
  exists o err s', deref_joined eng strategy ser be now r upd s = Ret (o, err, s')
    /\ (err = None -> exists p nr, o = Some p /\ carries d t (k + step) (eq i) none s s'
          /\ element_loaded d t s' i v r p nr).
Proof.
  intros Hg Hk [Hi [(r' & p & nr & Hl)|(He & Hc & bs & Hb & Hh)]] Hr H1 H2.
  - pose proof Hl as (x & Hr' & Hx & Hxi & Hp & _ & _ & Ho & _). assert (r' = r) as -> by congruence.
    destruct (resident_carries (HL := HL) (HI := HI) be now F kind ser d t k r x p upd s Hg Hk Hx Hp) as (err & s' & Hd & Hc & _); [by eexists|].
    exists (Some p), err, s'. split; [done|]. intros _. exists p, nr. split; [done|]. split.
    + by eapply carries_weaken; [exact Hc| |intros ? []|].
    + by eapply element_loaded_carries; [exact Hc|intros []| |intros []|].
  - destruct (cold_carries (HL := HL) (HI := HI) be now F kind ser d t k i r bs upd
      (fun s2 p => exists nr, objects (world s2) !! p = Some (ElementObject (Element v.1 nr)) /\ link d s2 nr v.2)
      s Hg Hc Hr Hh) as (o & err & s' & Hd & Hres).
    { intros z s1 Hz Hc1. assert (z = gzochid_durable_queue_element_serialization) as -> by (by destruct z).
      destruct (deserialize_element_carries d t (k + step) v bs s1) as (p & nr & s2 & Hdes & Hc2 & Hp & Ho & Hl).
      - by eapply carries_going.
      - done.
      - intros n Hn. destruct (H2 n Hn) as [Hn1 [[y Hy]|Hreach]]; (split; [done|]); [left|right; exact Hreach].
        exists y. by apply (ca_oids _ _ _ _ _ _ _ _ _ _ Hc1).
      - done.
      - exists (Some p), false, s2. split; [exact Hdes|]. split; [done|]. intros _. exists p.
        split_and!; [done|by eexists|done|by exists nr]. }
    exists o, err, s'. split; [done|]. intros Herr.
    destruct (Hres Herr) as (p & s2 & -> & (nr & Ho & Hl) & Hc2 & Hc3 & Hob & Hptr & x & Hx & Hxi & Hxo & Hlive & Hfl).
    exists p, nr. split; [done|]. split; [done|]. exists x.
    split_and!; [by apply (ca_oids _ _ _ _ _ _ _ _ _ _ Hc3)|done..|by rewrite Hob|by eapply link_carries; [exact Hc2|]|].
    destruct Hfl as [Hfl|Hfl]; [by left|right]. by exists bs.
Qed.

(** Dereferencing an object, wherever it is. *)
Lemma load_object d t k o r s :
  going d t k s -> k < 2 ^ 64 - step -> has_object d t s o -> oid_ref d s o = Some r ->
  exists res err s', gzochid_data_dereference eng strategy ser be now r s = Ret (res, err, s')
    /\ (err = None -> exists p, res = Some p /\ carries d t (k + step) (eq o) none s s'
          /\ object_of d s' o p /\ is_app s' p).
Proof.
  intros Hg Hk [Ho [(p & (r' & x & Hr' & Hx & Hp) & a & Ha)|(He & Hc & bs & Hh)]] Hr.
  - assert (r' = r) as -> by congruence.
    destruct (resident_carries (HL := HL) (HI := HI) be now F kind ser d t k r x p false s Hg Hk Hx Hp)
      as (err & s' & Hd & Hc & Hob); [by eexists|].
    exists (Some p), err, s'. split; [done|]. intros _. exists p. split; [done|].
    split_and!; [by eapply carries_weaken; [exact Hc| |intros ? []|]| |].
    + eapply object_of_carries; [exact Hc|]. by exists r, x.
    + exists a. by rewrite Hob.
  - destruct (cold_carries (HL := HL) (HI := HI) be now F kind ser d t k o r bs false
      (fun s2 p => is_app s2 p) s Hg Hc Hr Hh) as (res & err & s' & Hd & Hres).
    { intros z s1 Hz Hc1. destruct z as [| |z]; [done..|].
      destruct (app_deserializer_ok d t (k + step) z bs s1 (carries_going _ _ _ _ _ _ _ _ _ _ Hc1))
        as (res & failed & s2 & Hdes & Hc2 & Hok).
      exists res, failed, s2. split; [exact Hdes|]. split; [done|]. intros Hf.
      destruct (Hok Hf) as (p & a & -> & Ha & Hp). exists p. split_and!; [done|by eexists|done|by exists a]. }
    exists res, err, s'. split; [done|]. intros Herr.
    destruct (Hres Herr) as (p & s2 & -> & [a Ha] & _ & Hc3 & Hob & _ & x & Hx & _ & Hxo & _).
    exists p. split; [done|]. split; [done|]. split; [|exists a; by rewrite Hob].
    exists r, x. split_and!; [by apply (ca_oids _ _ _ _ _ _ _ _ _ _ Hc3)|done..].
Qed.

(** The reference to an object of the queue by its id. *)
Lemma object_reference d t k o z s :
  going d t k s -> has_object d t s o ->
  exists r s', gzochid_data_create_reference_to_oid eng now (AppSerialization z) o s = Ret (r, s')
    /\ carries d t k none none s s' /\ oid_ref d s' o = Some r /\ objects (world s') = objects (world s).
Proof.
  intros Hg [Ho Hob].
  destruct (to_oid_carries (eng := eng) (view := view) (durable := durable) (running := running) be now F kind d t k
    (AppSerialization z) o s Hg) as (r & s' & Hr & Hc & Hor & Hobj & _); [|by exists r, s'].
  destruct Hob as [(p & (r & x & Hr & _) & _)|(He & (_ & HF & _) & _)]; [left; by eexists|by right].
Qed.

(** ** The operations *)

Abbreviation offer := (gzochid_durable_queue_offer eng strategy be app_serializer
  app_deserializer app_finalizer now).
Abbreviation peek := (gzochid_durable_queue_peek eng strategy be app_serializer
  app_deserializer app_finalizer now).
Abbreviation pop := (gzochid_durable_queue_pop eng strategy be app_serializer
  app_deserializer app_finalizer now).

(** Only queues are written. *)
Definition queues_only s (w : positive -> Prop) : Prop :=
  forall p, w p -> exists Q, objects (world s) !! p = Some (QueueObject Q).

Lemma queues_none s : queues_only s none.
Proof. by intros p []. Qed.

Lemma chain_kept d t k hot w s s' l fin :
  carries d t k hot w s s' -> queues_only s w -> (forall i, i ∈ l.*1 -> ~ hot i) ->
  chain d t s l fin -> chain d t s' l fin.
Proof.
  intros H Hw. induction l as [|[i o] l IH]; cbn [chain fmap list_fmap]; [done|]. intros Hh [Hs Hl]. split.
  - eapply says_carries; [exact H|apply Hh; left| |done]. intros p Hp [Q HQ]%Hw.
    destruct Hs as [_ [(r & p' & nr & Hl')|(_ & Hc & _)]]; [|by eapply cold_no_object].
    pose proof (object_of_unique _ _ _ _ _ (loaded_object _ _ _ _ _ _ _ _ Hl') Hp) as ->.
    destruct Hl' as (x & _ & _ & _ & _ & _ & _ & Ho & _). congruence.
  - apply IH; [|done]. intros j Hj. apply Hh. by right.
Qed.

Lemma objects_kept_but d t k hot w s s' os :
  carries d t k hot w s s' -> (forall p, is_app s p -> ~ w p) ->
  (forall o, o ∈ os -> ~ hot o \/ exists p, object_of d s' o p /\ is_app s' p) ->
  Forall (has_object d t s) os -> Forall (has_object d t s') os.
Proof.
  intros H Hw Hh Hall. rewrite Forall_forall in Hall |- *. intros o Ho.
  destruct (Hh o Ho) as [Hn|Hp]; [|split; [by apply Hall|by left]].
  eapply has_object_carries; [exact H|done|done|by apply Hall].
Qed.

Lemma objects_kept d t k hot w s s' os :
  carries d t k hot w s s' -> queues_only s w ->
  (forall o, o ∈ os -> ~ hot o \/ exists p, object_of d s' o p /\ is_app s' p) ->
  Forall (has_object d t s) os -> Forall (has_object d t s') os.
Proof.
  intros H Hw. eapply objects_kept_but; [exact H|]. intros p [a Ha] [Q HQ]%Hw. congruence.
Qed.

(** The queue stays when some of its elements and objects are loaded. *)
Lemma holds_loaded d t k0 k hot s s' q l :
  going d t k0 s -> k0 < 2 ^ 64 -> carries d t k hot none s s' -> l <> [] ->
  (forall i, hot i -> (exists v, says d t s i v) \/ has_object d t s i) ->
  holds d t s q l -> chain d t s' l None -> Forall (has_object d t s') l.*2 -> holds d t s' q l.
Proof.
  intros Hg Hk H Hne Hh ((hd & tl & Hq & Hhd & Htl) & _ & Hnd & _ & Hsaved) Hl Hos.
  split; [|split_and!; [done..|]].
  - exists hd, tl. split_and!; [by apply (ca_kept _ _ _ _ _ _ _ _ _ _ H); [intros []|]|by eapply link_carries..].
  - right. destruct Hsaved as [[-> _]|(r & x & Hr & Hx & Hs)]; [done|].
    destruct (queue_apart d t k0 s q _ r x Hg Hq Hr Hx) as ((y & z & Hy & Hz & Hzo) & Hn1 & Hn2).
    assert (Hcool : ~ hot (ref_oid x)) by (intros Hhot; destruct (Hh _ Hhot) as [[v Hv]|Hv]; [by apply (Hn1 v)|done]).
    assert (Hxo : ref_obj x = Some q).
    { destruct Hg as [(lo & k' & _ & Hse & _) _]. destruct (ses_ptrs _ _ _ _ _ _ Hse _ _ Hr) as (? & ? & ? & _). congruence. }
    destruct (ca_refs _ _ _ _ _ _ _ _ _ _ H r x q Hx Hxo) as (x' & Hx' & Hxi & _ & Hf).
    exists r, x'. split_and!; [by apply (ca_ptrs _ _ _ _ _ _ _ _ _ _ H)|done|].
    destruct (Hf Hcool) as [->|?]; [|by left]. destruct Hs as [Hs|(bs & Hb & Hs)]; [by left|right]. exists bs.
    split; [done|]. apply (ca_has _ _ _ _ _ _ _ _ _ _ H); [done|by eapply going_range|done].
Qed.

(** Loading the first element. *)
Lemma load_head d t k q i o l (upd : bool) s :
  going d t k s -> k < 2 ^ 64 - 1000 -> holds d t s q ((i, o) :: l) ->
  exists h tl res err s',
    objects (world s) !! q = Some (QueueObject (DurableQueue (Some h) tl))
    /\ link d s tl (fst <$> last ((i, o) :: l))
    /\ deref_joined eng strategy ser be now h upd s = Ret (res, err, s')
    /\ (err = None -> exists p nr, res = Some p /\ carries d t (k + step) (eq i) none s s'
          /\ element_loaded d t s' i (o, next_id l None) h p nr
          /\ chain d t s' ((i, o) :: l) None /\ Forall (has_object d t s') ((i, o) :: l).*2).
Proof.
  intros Hg Hk ((hd & tl & Hq & Hhd & Htl) & Hl & Hnd & Hos & _). destruct hd as [h|]; [|done].
  pose proof Hl as [Hs Hl']. pose proof (proj1 (Forall_cons _ _ _) Hos) as [Ho _].
  destruct (load_element d t k i (o, next_id l None) h upd s Hg) as (res & err & s' & Hd & Hres);
    [unfold ALLOCATION_BLOCK_SIZE; lia|done|exact Hhd|apply Ho| |].
  { intros n Hn. destruct l as [|[j oj] l]; [done|]. injection Hn as <-. eapply says_reachable. apply Hl'. }
  exists h, tl, res, err, s'. split_and!; [done..|]. intros Herr.
  destruct (Hres Herr) as (p & nr & -> & Hc & Hld). exists p, nr. split_and!; [done..| |].
  - split; [split; [apply Hs|left; by eauto]|]. eapply chain_kept; [exact Hc|apply queues_none| |done].
    intros j Hj <-. apply NoDup_cons in Hnd as [Hn _]. done.
  - eapply objects_kept; [exact Hc|apply queues_none| |done]. intros oj Hoj. left. intros <-.
    rewrite Forall_forall in Hos. by apply (says_apart d t s i _ i Hs (Hos _ Hoj)).
Qed.

(** A peek finds the first object and keeps the queue. *)
Lemma peek_spec d t k q l z s :
  going d t k s -> k < 2 ^ 64 - 1000 -> holds d t s q l ->
  exists res err s', peek q (AppSerialization z) s = Ret (res, err, s')
    /\ (err = None -> (exists hot, carries d t (k + 1000) hot none s s') /\ holds d t s' q l
          /\ match l with
             | [] => res = None
             | (_, o) :: _ => exists p, res = Some p /\ object_of d s' o p
             end).
Proof.
  intros Hg Hk Hq. unfold gzochid_durable_queue_peek, get_queue.
  destruct l as [|[i o] l].
  { pose proof Hq as ((hd & tl & -> & Hhd & _) & _). run. cbn [head]. destruct hd; [done|].
    eexists _, _, _. split; [done|]. intros _. split; [|done]. exists none.
    apply (carries_weaken be F kind d t k _ none none none none); [by apply carries_refl|lia|done..]. }
  destruct (load_head d t k q i o l false s Hg Hk Hq) as (h & tl & res & err & s1 & Hqo & _ & Hd & Hres).
  rewrite Hqo. run. cbn [head]. change (gzochid_data_dereference eng strategy ser be now h s = Ret (res, err, s1)) in Hd. rewrite Hd. run.
  destruct err as [err|]; [by eexists _, _, _|].
  destruct (Hres eq_refl) as (p & nr & -> & Hc1 & (x & _ & _ & _ & _ & _ & _ & Hpo & _) & Hl1 & Hos1).
  run. unfold get_element. rewrite Hpo. run. cbn [elt_oid fst]. pose proof (carries_going _ _ _ _ _ _ _ _ _ _ Hc1) as Hg1.
  pose proof (proj1 (Forall_cons _ _ _) Hos1) as [Ho1 _].
  destruct (object_reference d t (k + step) o z s1 Hg1 Ho1) as (r & s2 & -> & Hc2 & Hr & _). run.
  pose proof (carries_going _ _ _ _ _ _ _ _ _ _ Hc2) as Hg2.
  assert (Hos2 : Forall (has_object d t s2) ((i, o) :: l).*2).
  { eapply objects_kept; [exact Hc2|apply queues_none|by left; intros []|done]. }
  pose proof (proj1 (Forall_cons _ _ _) Hos2) as [Ho2 _].
  assert (Hl2 : chain d t s2 ((i, o) :: l) None) by (eapply chain_kept; [exact Hc2|apply queues_none|by intros ? _ []|done]).
  destruct (load_object d t (k + step) o r s2 Hg2) as (res & err & s3 & -> & Hres3);
    [unfold ALLOCATION_BLOCK_SIZE; lia|done|done|].
  eexists _, _, _. split; [done|]. intros Herr. destruct (Hres3 Herr) as (p' & -> & Hc3 & Hob3 & Happ3).
  assert (Hc : carries d t (k + 1000) (fun j => j = i \/ j = o) none s s3).
  { eapply carries_trans; [by eapply carries_weaken; [exact Hc1|reflexivity|intros ? ->; by left|]|].
    eapply carries_trans; [by eapply carries_weaken; [exact Hc2|reflexivity|intros ? []|]|].
    eapply carries_weaken; [exact Hc3|unfold ALLOCATION_BLOCK_SIZE; lia|intros ? ->; by right|done]. }
  split; [by eexists|]. split; [|by exists p'].
  assert (Hsays : forall j v, says d t s2 j v -> j <> o) by (intros j v Hj; by eapply says_apart).
  eapply (holds_loaded d t k); [done|lia|exact Hc|done| |done| |].
  - destruct Hq as (_ & [Hs _] & _ & Hos & _). intros j [-> | ->]; [left; by eexists|right].
    by apply Forall_cons in Hos as [? _].
  - assert (Hall : Forall (fun j => j <> o) ((i, o) :: l).*1).
    { clear -Hl2 Hsays. revert Hl2. generalize ((i, o) :: l). intros m. induction m as [|[j oj] m IH]; cbn; [constructor|].
      intros [Hj Hm]. constructor; [by eapply Hsays|by apply IH]. }
    eapply chain_kept; [exact Hc3|apply queues_none| |done]. rewrite Forall_forall in Hall. intros j Hj <-. by apply (Hall o Hj).
  - eapply objects_kept; [exact Hc3|apply queues_none| |done]. intros oj _.
    destruct (decide (o = oj)) as [<-|]; [right; by exists p'|by left].
Qed.

Lemma chain_apart d t s l fin o : chain d t s l fin -> has_object d t s o -> o ∉ l.*1.
Proof.
  intros Hl Ho. induction l as [|[i oi] l IH]; cbn; [apply not_elem_of_nil|]. destruct Hl as [Hs Hl].
  apply not_elem_of_cons. split; [|by apply IH]. intros ->. by apply (says_apart d t s i _ i Hs Ho).
Qed.

(** The queue was written and marked. *)
Lemma marked_saved d t s q l r x :
  ptr_ref d s q = Some r -> references (world s) !! r = Some x -> flushed x = true -> queue_saved d t s q l.
Proof. intros. right. exists r, x. auto. Qed.

(** The queue object is written. *)
Lemma put_queue_carries d t k q Q s :
  going d t k s -> is_Some (objects (world s) !! q) -> carries d t k none (eq q) s (put_object q (QueueObject Q) s).
Proof. intros Hg _. by apply put_object_carries. Qed.

(** A pop takes the first object out. *)
Lemma pop_spec d t k q l z s :
  going d t k s -> k < 2 ^ 64 - 1000 -> holds d t s q l ->
  exists res err s', pop q (AppSerialization z) s = Ret (res, err, s')
    /\ (err = None -> (exists hot, carries d t (k + 1000) hot (eq q) s s') /\ holds d t s' q (List.tl l)
          /\ match l with
             | [] => res = None
             | (_, o) :: _ => exists p, res = Some p /\ object_of d s' o p
             end).
Proof.
  intros Hg Hk Hq. unfold gzochid_durable_queue_pop, get_queue.
  destruct l as [|[i o] l].
  { pose proof Hq as ((hd & tl & -> & Hhd & _) & _). run. cbn [head]. destruct hd; [done|].
    eexists _, _, _. split; [done|]. intros _. split; [|done]. exists none.
    apply (carries_weaken be F kind d t k _ none none (eq q)); [by apply carries_refl|lia|done..]. }
  destruct (load_head d t k q i o l true s Hg Hk Hq) as (h & tl & res & err & s1 & Hqo & Htl & Hd & Hres).
  rewrite Hqo. run. cbn [head].
  change (gzochid_data_dereference_for_update eng strategy ser be now h s = Ret (res, err, s1)) in Hd. rewrite Hd. run.
  destruct err as [err|]; [by eexists _, _, _|].
  destruct (Hres eq_refl) as (p & nr & -> & Hc1 & Hld & [_ Hl1] & Hos1).
  pose proof Hld as (x & Hh & Hx & Hxi & Hxo & _ & _ & Hpo & Hnr & _).
  run. unfold get_element. rewrite Hpo. run. cbn [elt_oid next fst].
  pose proof (ca_kept _ _ _ _ _ _ _ _ _ _ Hc1 q _ ltac:(intros []) Hqo) as Hq1. rewrite Hq1. run. cbn [tail].
  set (Q := DurableQueue nr _). pose proof (carries_going _ _ _ _ _ _ _ _ _ _ Hc1) as Hg1.
  pose proof (put_queue_carries d t (k + step) q Q s1 Hg1 ltac:(by eexists)) as Hc2. set (s2 := put_object q _ s1) in *.
  assert (Hw : queues_only s1 (eq q)) by (intros y <-; by eexists).
  assert (Hos2 : Forall (has_object d t s2) ((i, o) :: l).*2).
  { eapply objects_kept; [exact Hc2|exact Hw|by left; intros []|done]. }
  assert (Hl2 : chain d t s2 l None) by (eapply chain_kept; [exact Hc2|exact Hw|by intros ? _ []|done]).
  pose proof (carries_going _ _ _ _ _ _ _ _ _ _ Hc2) as Hg2. pose proof (proj1 (Forall_cons _ _ _) Hos2) as [Ho2 _].
  destruct (object_reference d t (k + step) o z s2 Hg2 Ho2) as (r & s3 & -> & Hc3 & Hr & _). run.
  pose proof (carries_going _ _ _ _ _ _ _ _ _ _ Hc3) as Hg3.
  assert (Hos3 : Forall (has_object d t s3) ((i, o) :: l).*2).
  { eapply objects_kept; [exact Hc3|apply queues_none|by left; intros []|done]. }
  assert (Hl3 : chain d t s3 l None) by (eapply chain_kept; [exact Hc3|apply queues_none|by intros ? _ []|done]).
  pose proof (proj1 (Forall_cons _ _ _) Hos3) as [Ho3 _].
  destruct (load_object d t (k + step) o r s3 Hg3) as (res & err & s4 & -> & Hres4);
    [unfold ALLOCATION_BLOCK_SIZE; lia|done|done|]. run.
  destruct err as [err|]; [by eexists _, _, _|]. destruct (Hres4 eq_refl) as (p' & -> & Hc4 & Hob4 & Happ4).
  assert (Hos4 : Forall (has_object d t s4) ((i, o) :: l).*2).
  { eapply objects_kept; [exact Hc4|apply queues_none| |done]. intros oj _.
    destruct (decide (o = oj)) as [<-|]; [right; by exists p'|by left]. }
  assert (Hl4 : chain d t s4 l None).
  { eapply chain_kept; [exact Hc4|apply queues_none| |done]. intros j Hj <-. by apply (chain_apart d t s3 l None o). }
  pose proof (carries_going _ _ _ _ _ _ _ _ _ _ Hc4) as Hg4.
  assert (Hc14 : carries d t (k + step + step) (eq o) (eq q) s1 s4).
  { eapply carries_trans; [eapply carries_weaken; [exact Hc2|reflexivity|by intros ? []|done]|].
    eapply carries_trans; [eapply carries_weaken; [exact Hc3|reflexivity|by intros ? []|by intros ? ? []]|].
    eapply carries_weaken; [exact Hc4|reflexivity|done|by intros ? ? []]. }
  destruct (ca_refs _ _ _ _ _ _ _ _ _ _ Hc14 h x p Hx Hxo) as (x4 & Hx4 & Hxi4 & _).
  assert (Hirange : in_unsigned 64 i) by (destruct Hq as (_ & [[? _] _] & _); done).
  destruct (remove_carries (HL := HL) be now F kind d t (k + step + step) h x4 s4 Hg4 Hx4)
    as (err & s5 & -> & Hc5 & Ho5); [congruence|]. run. rewrite Hxi4, Hxi in Hc5.
  destruct err as [err|]; [run; by eexists _, _, _|]. pose proof (carries_going _ _ _ _ _ _ _ _ _ _ Hc5) as Hg5.
  assert (Hq5 : objects (world s5) !! q = Some (QueueObject Q)).
  { rewrite Ho5. apply (ca_kept _ _ _ _ _ _ _ _ _ _ Hc4); [by intros []|].
    apply (ca_kept _ _ _ _ _ _ _ _ _ _ Hc3); [by intros []|]. apply lookup_insert_eq. }
  destruct (data_mark_carries (HL := HL) (HI := HI) be now F kind d t (k + step + step + step) q
    gzochid_durable_queue_serialization s5 Hg5) as (err & s6 & -> & Hc6 & Ho6 & Hm6);
    [unfold ALLOCATION_BLOCK_SIZE; lia|by eexists|]. run.
  destruct err as [err|]; [by eexists _, _, _|]. eexists _, _, _. split; [done|]. intros _.
  destruct (Hm6 eq_refl) as (rq & xq & Hrq & Hxq & Hfq).
  assert (Hc46 : carries d t (k + 1000) (eq i) none s4 s6).
  { eapply carries_trans; [exact Hc5|]. eapply carries_weaken; [exact Hc6|unfold ALLOCATION_BLOCK_SIZE; lia|by intros ? []|done]. }
  assert (Hall : carries d t (k + 1000) (fun j => j = i \/ j = o) (eq q) s s6).
  { eapply carries_trans; [eapply carries_weaken; [exact Hc1|reflexivity|intros ? ->; by left|by intros ? ? []]|].
    eapply carries_trans; [eapply carries_weaken; [exact Hc14|reflexivity|intros ? ->; by right|done]|].
    eapply carries_weaken; [exact Hc46|reflexivity|intros ? ->; by left|by intros ? ? []]. }
  split; [by eexists|]. split; [|exists p'; split; [done|eapply object_of_carries; [exact Hc46|done]]]. cbn [List.tl].
  destruct Hq as (_ & [Hsi _] & Hnd & Hos & _). apply NoDup_cons in Hnd as [Hni Hnd].
  assert (Hni' : i ∉ l.*2).
  { intros Hi. rewrite Forall_forall in Hos. apply (says_apart d t s i _ i Hsi); [|done]. apply Hos. by right. }
  assert (Hos6 : Forall (has_object d t s6) l.*2).
  { apply Forall_cons in Hos4 as [_ Hos4]. eapply objects_kept; [exact Hc46|apply queues_none| |done].
    intros j Hj. left. by intros <-. }
  split; [|split_and!; [|done|done|by eapply marked_saved]].
  - exists nr, (match nr with None => None | Some _ => tl end).
    split_and!; [by rewrite Ho6| |].
    + cbn [snd] in Hnr. eapply link_carries; [exact Hc46|]. eapply link_carries; [exact Hc14|done].
    + cbn [snd] in Hnr. destruct nr as [r'|]; [|by destruct l as [|[j oj] l]]. destruct l as [|[j oj] l]; [done|].
      eapply link_carries; [exact Hall|]. by rewrite last_cons_cons in Htl.
  - eapply chain_kept; [exact Hc46|apply queues_none| |done]. intros j Hj <-. done.
Qed.

(** The part of an offer that makes the link: references to a new element and to the object,
    and the id of the object in the element. *)
Lemma new_link d t k p (z : serialization Z') s :
  going d t k s -> k < 2 ^ 64 - 1000 -> is_app s p ->
  let '(elt, s1) := gzochid_durable_queue_element_new s in
  objects (world s) !! elt = None /\
  exists res1 s2,
    gzochid_data_create_reference eng strategy be now gzochid_durable_queue_element_serialization (Some elt) s1
      = Ret (res1, s2)
    /\ is_Some (objects (world s2) !! elt)
    /\ forall r, res1 = inl r -> exists res2 s3,
         gzochid_data_create_reference eng strategy be now z (Some p) s2 = Ret (res2, s3)
         /\ forall dr, res2 = inl dr -> exists x i, references (world s3) !! dr = Some x
              /\ let s4 := put_object elt (ElementObject (Element (ref_oid x) None)) s3 in
                 carries d t (k + 2 * step) none none s s4
                 /\ in_unsigned 64 i /\ element_loaded d t s4 i (ref_oid x, None) r elt None
                 /\ in_unsigned 64 (ref_oid x) /\ object_of d s4 (ref_oid x) p /\ is_app s4 p.
Proof.
  intros Hg Hk Hp. unfold gzochid_durable_queue_element_new.
  destruct (alloc_object_carries (eng := eng) (view := view) (durable := durable) (running := running) be F kind d t k
    (ElementObject (Element 0 None)) s Hg) as (elt & -> & Hc1 & Hfresh). split; [done|].
  set (s1 := put_object elt _ s) in *. pose proof (carries_going _ _ _ _ _ _ _ _ _ _ Hc1) as Hg1.
  assert (Hptr1 : ptr_ref d s1 elt = None) by (change (ptr_ref d s elt = None); by eapply going_fresh).
  destruct (reference_carries (HL := HL) (HI := HI) be now F kind d t k elt gzochid_durable_queue_element_serialization s1 Hg1)
    as (res1 & s2 & -> & Hc2 & Ho2 & Hres1); [unfold ALLOCATION_BLOCK_SIZE; lia|cbn; rewrite lookup_insert_eq; by eexists|].
  exists res1, s2. split; [done|]. split; [rewrite Ho2; cbn; rewrite lookup_insert_eq; by eexists|]. intros r ->.
  destruct (Hres1 r eq_refl) as (Hptr2 & x2 & Hx2 & Hxo2 & Hxi2 & Hrange2 & Hfl2). specialize (Hfl2 Hptr1).
  pose proof (carries_going _ _ _ _ _ _ _ _ _ _ Hc2) as Hg2.
  assert (Hp2 : is_app s2 p).
  { eapply is_app_carries; [exact Hc2|by intros []|]. eapply is_app_carries; [exact Hc1|by intros []|done]. }
  destruct (reference_carries (HL := HL) (HI := HI) be now F kind d t (k + step) p z s2 Hg2)
    as (res2 & s3 & -> & Hc3 & Ho3 & Hres2); [unfold ALLOCATION_BLOCK_SIZE; lia|destruct Hp2; by eexists|].
  exists res2, s3. split; [done|]. intros dr ->.
  destruct (Hres2 dr eq_refl) as (Hptr3 & x & Hx & Hxo & Hxi & Hrange & _). exists x, (ref_oid x2). split; [done|].
  set (s4 := put_object elt _ s3). pose proof (carries_going _ _ _ _ _ _ _ _ _ _ Hc3) as Hg3.
  assert (Hne : elt <> p).
  { intros ->. destruct Hp as [a Ha]. congruence. }
  assert (Hc : carries d t (k + 2 * step) none none s s4).
  { apply (carries_weaken be F kind d t (k + 2 * step) _ none none (eq elt)); [|lia|done|intros y [o Hy] <-; congruence].
    eapply carries_trans; [eapply carries_weaken; [exact Hc1|reflexivity|done|by intros ? ? []]|].
    eapply carries_trans; [eapply carries_weaken; [exact Hc2|reflexivity|done|by intros ? ? []]|].
    eapply carries_trans; [eapply carries_weaken; [exact Hc3|reflexivity|done|by intros ? ? []]|].
    eapply carries_weaken; [by apply (put_object_carries be F kind d t _ elt)|lia|done..]. }
  split_and!; [done|done| |done| |].
  - destruct (ca_refs _ _ _ _ _ _ _ _ _ _ Hc3 r x2 elt Hx2 Hxo2) as (x3 & Hx3 & Hxi3 & Hxo3 & Hf3).
    assert (Hfl3 : flushed x3 = true) by (destruct (Hf3 ltac:(tauto)) as [->|]; done).
    exists x3. split_and!; [|done|done|done| | | |done|by left].
    + by apply (ca_oids _ _ _ _ _ _ _ _ _ _ Hc3).
    + by apply (ca_ptrs _ _ _ _ _ _ _ _ _ _ Hc3).
    + by apply flushed_live.
    + cbn. apply lookup_insert_eq.
  - by exists dr, x.
  - destruct Hp2 as [a Ha]. exists a. cbn. rewrite lookup_insert_ne by done. by rewrite Ho3.
Qed.

Lemma chain_app d t s l1 l2 fin :
  chain d t s (l1 ++ l2) fin <-> chain d t s l1 (next_id l2 fin) /\ chain d t s l2 fin.
Proof.
  induction l1 as [|[i o] l1 IH]; cbn [chain app]; [tauto|]. rewrite IH.
  assert (next_id (l1 ++ l2) fin = next_id l1 (next_id l2 fin)) as -> by by destruct l1 as [|[j oj] l1]. tauto.
Qed.

Lemma chain_elements d t s l fin :
  chain d t s l fin -> Forall (fun i => exists v, says d t s i v) l.*1.
Proof.
  induction l as [|[i o] l IH]; cbn; [constructor|]. intros [Hs Hl]. constructor; [by eexists|by apply IH].
Qed.

(** Only the queue and one element are written. *)
Lemma chain_but_one d t k s s' l fin j v tr m nr q Q :
  carries d t k none (fun y => y = m \/ y = q) s s' -> element_loaded d t s j v tr m nr -> j ∉ l.*1 ->
  objects (world s) !! q = Some (QueueObject Q) -> chain d t s l fin -> chain d t s' l fin.
Proof.
  intros H Hm Hj Hq. induction l as [|[i o] l IH]; cbn [chain fmap list_fmap] in *; [done|]. intros [Hs Hl].
  apply not_elem_of_cons in Hj as [Hji Hj]. cbn in Hji. split; [|by apply IH].
  eapply says_carries; [exact H|by intros []| |done]. intros p Hp [-> | ->].
  - destruct Hs as [_ [(r & p & nr' & Hld)|(_ & Hc & _)]]; [|by eapply cold_no_object].
    pose proof (object_of_unique _ _ _ _ _ (loaded_object _ _ _ _ _ _ _ _ Hld) Hp) as ->.
    destruct Hld as (x & _ & Hx & Hxi & _ & Hptr & _), Hm as (y & _ & Hy & Hyi & _ & Hptr' & _). congruence.
  - destruct Hs as [_ [(r & p & nr' & Hld)|(_ & Hc & _)]]; [|by eapply cold_no_object].
    pose proof (object_of_unique _ _ _ _ _ (loaded_object _ _ _ _ _ _ _ _ Hld) Hp) as ->.
    destruct Hld as (x & _ & _ & _ & _ & _ & _ & Ho & _). congruence.
Qed.

(** The id of a new element is none of the queue. *)
Lemma new_apart d t k s s' l fin i v r elt :
  carries d t k none none s s' -> chain d t s l fin -> objects (world s) !! elt = None ->
  element_loaded d t s' i v r elt None -> i ∉ l.*1.
Proof.
  intros H Hl Hn Hld. induction l as [|[j o] l IH]; cbn [fmap list_fmap]; [apply not_elem_of_nil|]. destruct Hl as [Hs Hl].
  apply not_elem_of_cons. split; [|by apply IH]. intros ->.
  destruct Hs as [_ [(r' & p & nr' & Hold)|(_ & Hc & _)]].
  - pose proof (object_of_carries _ _ _ _ _ _ _ _ _ H (loaded_object _ _ _ _ _ _ _ _ Hold)) as Hob.
    pose proof (object_of_unique _ _ _ _ _ Hob (loaded_object _ _ _ _ _ _ _ _ Hld)) as ->.
    destruct Hold as (x & _ & _ & _ & _ & _ & _ & Ho & _). congruence.
  - eapply cold_no_object; [|by eapply loaded_object]. apply (ca_cold _ _ _ _ _ _ _ _ _ _ H); [by intros []|done].
Qed.

(** An offer to an empty queue, once the link is there. *)
Lemma offer_first d t k q i o r elt p s :
  going d t k s -> k < 2 ^ 64 - step -> objects (world s) !! q = Some (QueueObject (DurableQueue None None)) ->
  in_unsigned 64 i -> element_loaded d t s i (o, None) r elt None ->
  in_unsigned 64 o -> object_of d s o p -> is_app s p ->
  exists err s', gzochid_data_mark eng strategy be now gzochid_durable_queue_serialization (Some q)
      (put_object q (QueueObject (DurableQueue (Some r) (Some r))) s) = Ret (err, s')
    /\ (err = None -> carries d t (k + step) none (eq q) s s' /\ holds d t s' q [(i, o)] /\ object_of d s' o p).
Proof.
  intros Hg Hk Hq Hi Hld Ho Hob Happ.
  pose proof (put_queue_carries d t k q (DurableQueue (Some r) (Some r)) s Hg ltac:(by eexists)) as Hc1.
  set (s1 := put_object q _ s) in *.
  destruct (data_mark_carries (HL := HL) (HI := HI) be now F kind d t k q gzochid_durable_queue_serialization s1
    (carries_going _ _ _ _ _ _ _ _ _ _ Hc1)) as (err & s2 & -> & Hc2 & Ho2 & Hm);
    [done|cbn; rewrite lookup_insert_eq; by eexists|].
  eexists _, _. split; [done|]. intros ->. destruct (Hm eq_refl) as (rq & xq & Hrq & Hxq & Hfq).
  assert (Hc : carries d t (k + step) none (eq q) s s2).
  { eapply carries_trans; [exact Hc1|]. eapply carries_weaken; [exact Hc2|lia|done|by intros ? ? []]. }
  assert (Hne : elt <> q) by (intros ->; destruct Hld as (x & _ & _ & _ & _ & _ & _ & He & _); congruence).
  assert (Hld2 : element_loaded d t s2 i (o, None) r elt None).
  { eapply element_loaded_carries; [exact Hc|by intros []|done|congruence|done]. }
  assert (Happ2 : is_app s2 p).
  { eapply is_app_carries; [exact Hc| |done]. intros <-. destruct Happ as [a Ha]. congruence. }
  assert (Hob2 : object_of d s2 o p) by (eapply object_of_carries; [exact Hc|done]).
  split; [done|]. split; [|done]. split; [|split_and!].
  - exists (Some r), (Some r). rewrite Ho2. cbn. rewrite lookup_insert_eq. split; [done|].
    destruct Hld2 as (x & Hr & _). done.
  - split; [|done]. split; [done|]. left. by exists r, elt, None.
  - apply NoDup_singleton.
  - apply Forall_singleton. split; [done|]. left. by exists p.
  - by eapply marked_saved.
Qed.

(** An offer to a queue with elements, once the last is loaded. *)
Lemma offer_last d t k q hd tr l j oj i o r elt m p s :
  going d t k s -> k < 2 ^ 64 - 2 * step ->
  objects (world s) !! q = Some (QueueObject (DurableQueue hd (Some tr))) ->
  link d s hd (next_id (l ++ [(j, oj)]) None) -> chain d t s l (Some j) -> in_unsigned 64 j ->
  element_loaded d t s j (oj, None) tr m None -> NoDup (l ++ [(j, oj)]).*1 -> i ∉ (l ++ [(j, oj)]).*1 ->
  Forall (has_object d t s) (l ++ [(j, oj)]).*2 ->
  in_unsigned 64 i -> element_loaded d t s i (o, None) r elt None ->
  in_unsigned 64 o -> object_of d s o p -> is_app s p ->
  let s1 := put_object q (QueueObject (DurableQueue hd (Some r)))
              (put_object m (ElementObject (Element oj (Some r))) s) in
  exists err s2, gzochid_data_mark eng strategy be now gzochid_durable_queue_element_serialization (Some m) s1 = Ret (err, s2)
    /\ (err = None -> exists err s3,
          gzochid_data_mark eng strategy be now gzochid_durable_queue_serialization (Some q) s2 = Ret (err, s3)
          /\ (err = None -> carries d t (k + 2 * step) none (fun y => y = m \/ y = q) s s3
                /\ holds d t s3 q ((l ++ [(j, oj)]) ++ [(i, o)]) /\ object_of d s3 o p)).
Proof.
  intros Hg Hk Hq Hhd Hl Hj Hm Hnd Hni Hos Hi Hld Ho Hob Happ s1.
  assert (Hstep : 0 < step) by done.
  pose proof Hm as (xm & Hjr & Hxm & Hxmi & Hxmo & Hptrm & _ & Hmo & _).
  pose proof Hld as (xe & Hir & Hxe & Hxei & Hxeo & Hptre & _ & Heo & _).
  assert (Hqm : q <> m) by (intros ->; congruence).
  assert (Hc1 : carries d t k none (fun y => y = m \/ y = q) s s1).
  { pose proof (put_object_carries (eng := eng) (view := view) (durable := durable) (running := running) be F kind d t k m
      (ElementObject (Element oj (Some r))) s Hg) as Ha.
    eapply carries_trans; [eapply carries_weaken; [exact Ha|reflexivity|done|intros ? _ <-; by left]|].
    eapply carries_weaken; [apply (put_object_carries be F kind d t k q)|reflexivity|done|intros ? _ <-; by right].
    by apply (carries_going _ _ _ _ _ _ _ _ _ _ Ha). }
  assert (Hm1 : objects (world s1) !! m = Some (ElementObject (Element oj (Some r)))).
  { cbn. rewrite lookup_insert_ne by done. apply lookup_insert_eq. }
  assert (Hq1 : objects (world s1) !! q = Some (QueueObject (DurableQueue hd (Some r)))) by apply lookup_insert_eq.
  destruct (data_mark_carries (HL := HL) (HI := HI) be now F kind d t k m gzochid_durable_queue_element_serialization s1
    (carries_going _ _ _ _ _ _ _ _ _ _ Hc1)) as (err & s2 & -> & Hc2 & Ho2 & Hmark2); [lia|by eexists|].
  eexists _, _. split; [done|]. intros ->. destruct (Hmark2 eq_refl) as (r2 & x2 & Hr2 & Hx2 & Hf2).
  destruct (data_mark_carries (HL := HL) (HI := HI) be now F kind d t (k + step) q gzochid_durable_queue_serialization s2
    (carries_going _ _ _ _ _ _ _ _ _ _ Hc2)) as (err & s3 & -> & Hc3 & Ho3 & Hmark3); [lia|rewrite Ho2; by eexists|].
  eexists _, _. split; [done|]. intros ->. destruct (Hmark3 eq_refl) as (rq & xq & Hrq & Hxq & Hfq).
  assert (Hc13 : carries d t (k + 2 * step) none none s1 s3).
  { eapply carries_trans; [exact Hc2|]. eapply carries_weaken; [exact Hc3|lia|done|done]. }
  assert (Hc : carries d t (k + 2 * step) none (fun y => y = m \/ y = q) s s3).
  { eapply carries_trans; [exact Hc1|]. eapply carries_weaken; [exact Hc13|lia|done|by intros ? ? []]. }
  assert (Hij : i <> j) by (intros ->; apply Hni; rewrite fmap_app; apply elem_of_app; right; by left).
  assert (Hem : elt <> m) by (intros ->; congruence).
  assert (Heq : elt <> q) by (intros ->; congruence).
  assert (Hld3 : element_loaded d t s3 i (o, None) r elt None).
  { eapply element_loaded_carries; [exact Hc|by intros []|done|by intros [|]|done]. }
  assert (Hobjs : objects (world s3) = objects (world s1)) by congruence.
  assert (Hm3 : element_loaded d t s3 j (oj, Some i) tr m (Some r)).
  { destruct (ca_refs _ _ _ _ _ _ _ _ _ _ Hc tr xm m Hxm Hxmo) as (x3 & Hx3 & Hx3i & Hx3o & _).
    pose proof (ca_ptrs _ _ _ _ _ _ _ _ _ _ Hc2 m tr Hptrm) as Hr2'. assert (r2 = tr) as -> by congruence.
    assert (Hx2o : ref_obj x2 = Some m).
    { destruct (ca_refs _ _ _ _ _ _ _ _ _ _ Hc2 tr xm m Hxm Hxmo) as (? & ? & _ & ? & _). congruence. }
    destruct (ca_refs _ _ _ _ _ _ _ _ _ _ Hc3 tr x2 m Hx2 Hx2o) as (x3' & Hx3' & _ & _ & Hf).
    assert (x3' = x3) as -> by congruence. assert (Hf3 : flushed x3 = true) by (destruct (Hf ltac:(tauto)) as [->|]; done).
    exists x3. split_and!; [by apply (ca_oids _ _ _ _ _ _ _ _ _ _ Hc)|done|congruence|done
      |by apply (ca_ptrs _ _ _ _ _ _ _ _ _ _ Hc)|by apply flushed_live|by rewrite Hobjs| |by left].
    cbn. by destruct Hld3 as (? & ? & _). }
  assert (Hnapp : forall y, is_app s y -> ~ (y = m \/ y = q)) by (intros y [a Ha] [-> | ->]; congruence).
  assert (Happ3 : is_app s3 p) by (eapply is_app_carries; [exact Hc|by apply Hnapp|done]).
  assert (Hob3 : object_of d s3 o p) by (eapply object_of_carries; [exact Hc|done]).
  split; [done|]. split; [|done]. split; [|split_and!].
  - exists hd, (Some r). rewrite Hobjs. split; [done|]. split.
    + assert (next_id ((l ++ [(j, oj)]) ++ [(i, o)]) None = next_id (l ++ [(j, oj)]) None) as -> by by destruct l as [|[]].
      eapply link_carries; [exact Hc|done].
    + rewrite last_snoc. cbn. by destruct Hld3 as (? & ? & _).
  - rewrite <- app_assoc. apply chain_app. split.
    + eapply (chain_but_one d t _ s s3 l (Some j)); [exact Hc|exact Hm| |exact Hq|exact Hl].
      rewrite fmap_app in Hnd. apply NoDup_app in Hnd as (_ & Hdis & _). intros Hin. apply (Hdis j Hin). by left.
    + split; [split; [done|left; by eexists _, _, _]|]. split; [|done]. split; [done|]. left. by eexists _, _, _.
  - rewrite fmap_app. apply NoDup_app. split; [done|]. split; [|apply NoDup_singleton].
    intros y Hy ->%list_elem_of_singleton. done.
  - rewrite fmap_app. apply Forall_app. split.
    + eapply objects_kept_but; [exact Hc|done|by left; intros []|done].
    + apply Forall_singleton. split; [done|]. left. by exists p.
  - by eapply marked_saved.
Qed.

(** What an operation leaves behind. *)
Definition went_on (d : positive) (t : T) (k : Z) s s' : Prop :=
  exists hot w, carries d t k hot w s s' /\ forall p, is_app s p -> ~ w p.

(** An offer puts the object behind the others. *)
Lemma offer_spec d t k q l p z s :
  going d t k s -> k < 2 ^ 64 - 1000 -> holds d t s q l -> is_app s p ->
  exists err s', offer q z (Some p) s = Ret (err, s')
    /\ (err = None -> went_on d t (k + 1000) s s'
          /\ exists i o, holds d t s' q (l ++ [(i, o)]) /\ object_of d s' o p).
Proof.
  intros Hg Hk Hq Hp. pose proof (new_link d t k p z s Hg Hk Hp) as Hnew. unfold gzochid_durable_queue_offer.
  destruct (gzochid_durable_queue_element_new s) as [elt s1].
  destruct Hnew as (Hfresh & res1 & s2 & -> & [ob Hob2] & Hres1). run.
  destruct res1 as [r|err].
  2: { unfold gzochid_durable_queue_element_free, free_object. rewrite Hob2. run. by eexists _, _. }
  destruct (Hres1 r eq_refl) as (res2 & s3 & -> & Hres2). run. destruct res2 as [dr|err]; [|by eexists _, _].
  destruct (Hres2 dr eq_refl) as (x & i & Hx & Hc4 & Hi & Hld & Ho & Hob & Happ). clear Hres1 Hres2.
  unfold get_ref. rewrite Hx. run. set (s4 := put_object elt _ s3) in *.
  pose proof Hq as ((hd & tl & Hqo & Hhd & Htl) & Hl & Hnd & Hos & _).
  assert (Hqo4 : objects (world s4) !! q = Some (QueueObject (DurableQueue hd tl)))
    by (apply (ca_kept _ _ _ _ _ _ _ _ _ _ Hc4); [by intros []|done]).
  pose proof (carries_going _ _ _ _ _ _ _ _ _ _ Hc4) as Hg4. assert (Hstep : 0 < step /\ 5 * step = 1000) by done.
  assert (Hget : get_queue q s4 = Ret (DurableQueue hd tl)) by (unfold get_queue; by rewrite Hqo4).
  rewrite Hget. run. cbn [head tail].
  destruct l as [|e l _] using rev_ind.
  { destruct hd; [done|]. destruct tl; [done|]. run.
    destruct (offer_first d t (k + 2 * step) q i (ref_oid x) r elt p s4 Hg4) as (err & s5 & -> & Hres); [lia|done..|].
    eexists _, _. split; [done|]. intros ->. destruct (Hres eq_refl) as (Hc5 & Hq5 & Hob5). split; [|by exists i, (ref_oid x)].
    exists none, (eq q). split; [|intros y [a Ha] <-; congruence].
    eapply carries_trans; [eapply carries_weaken; [exact Hc4|reflexivity|done|by intros ? ? []]|].
    eapply carries_weaken; [exact Hc5|lia|done|done]. }
  destruct e as [j oj]. rewrite last_snoc in Htl. destruct tl as [tr|]; [|done]. cbn in Htl.
  destruct hd as [h|]; [|by destruct l as [|[]]]. run.
  assert (Hl4 : chain d t s4 (l ++ [(j, oj)]) None) by (eapply chain_kept; [exact Hc4|apply queues_none|by intros ? _ []|done]).
  assert (Hos4 : Forall (has_object d t s4) (l ++ [(j, oj)]).*2).
  { eapply objects_kept; [exact Hc4|apply queues_none|by left; intros []|done]. }
  assert (Hni : i ∉ (l ++ [(j, oj)]).*1) by (eapply new_apart; [exact Hc4|exact Hl|done|exact Hld]).
  pose proof (proj1 (chain_app _ _ _ _ _ _) Hl4) as [Hl0 [Hsj _]]. pose proof (proj1 Hsj) as Hj.
  rewrite fmap_app in Hos4. pose proof (proj1 (Forall_app _ _ _) Hos4) as [_ [Hoj _]%Forall_cons].
  destruct (load_element d t (k + 2 * step) j (oj, None) tr false s4 Hg4) as (res & err & s5 & Hd & Hres);
    [lia|done|by apply (ca_oids _ _ _ _ _ _ _ _ _ _ Hc4)|apply Hoj|done|].
  change (gzochid_data_dereference eng strategy ser be now tr s4 = Ret (res, err, s5)) in Hd. rewrite Hd. run.
  destruct err as [err|]; [run; by eexists _, _|].
  destruct (Hres eq_refl) as (m & nr & -> & Hc5 & Hm). clear Hres Hd.
  pose proof Hm as (xm & _ & Hxm & _ & Hxmo & _ & _ & Hmo & Hnr & _). assert (nr = None) as -> by by destruct nr.
  rewrite Hxm. run. rewrite Hxmo. run. unfold get_element. rewrite Hmo. run. cbn [elt_oid fst].
  pose proof (carries_going _ _ _ _ _ _ _ _ _ _ Hc5) as Hg5.
  assert (Hqo5 : objects (world s5) !! q = Some (QueueObject (DurableQueue (Some h) (Some tr))))
    by (apply (ca_kept _ _ _ _ _ _ _ _ _ _ Hc5); [by intros []|done]).
  assert (Hqm : q <> m) by (intros ->; congruence). unfold get_queue.
  cbn [world put_object with_world set_world objects set_objects]. rewrite lookup_insert_ne, Hqo5 by done. run. cbn [head].
  assert (Hij : i <> j) by (intros ->; apply Hni; rewrite fmap_app; apply elem_of_app; right; by left).
  rewrite fmap_app in Hnd. pose proof (proj1 (NoDup_app _ _) Hnd) as (_ & Hdis & _).
  destruct (offer_last d t (k + 3 * step) q (Some h) tr l j oj i (ref_oid x) r elt m p s5)
    as (err & s6 & Hmark & Hres); try done.
  - by eapply carries_going; eapply carries_weaken; [exact Hc5|lia|..].
  - lia.
  - eapply link_carries; [exact Hc5|]. by eapply link_carries; [exact Hc4|].
  - eapply chain_kept; [exact Hc5|apply queues_none| |exact Hl0]. intros y Hy <-. apply (Hdis j Hy). by left.
  - by rewrite fmap_app.
  - rewrite fmap_app. eapply objects_kept; [exact Hc5|apply queues_none| |exact Hos4]. intros y Hy. left. intros <-.
    rewrite Forall_forall in Hos4. by apply (says_apart d t s4 j _ j Hsj (Hos4 _ Hy)).
  - eapply element_loaded_carries; [exact Hc5|by intros <-|done|by intros []|exact Hld].
  - eapply object_of_carries; [exact Hc5|done].
  - eapply is_app_carries; [exact Hc5|by intros []|done].
  - rewrite Hmark. run. destruct err as [err|]; [by eexists _, _|].
    destruct (Hres eq_refl) as (err & s7 & -> & Hres7). eexists _, _. split; [done|]. intros ->.
    destruct (Hres7 eq_refl) as (Hc7 & Hq7 & Hob7). split; [|by exists i, (ref_oid x)].
    exists (eq j), (fun y => y = m \/ y = q). split.
    + eapply carries_trans; [eapply carries_weaken; [exact Hc4|reflexivity|by intros ? []|by intros ? ? []]|].
      eapply carries_trans; [eapply carries_weaken; [exact Hc5|reflexivity|done|by intros ? ? []]|].
      eapply carries_weaken; [exact Hc7|lia|by intros ? []|done].
    + intros y [a Ha] [-> | ->]; [|congruence].
      pose proof (ca_kept _ _ _ _ _ _ _ _ _ _ Hc4 _ _ ltac:(intros []) Ha) as Ha4.
      pose proof (ca_kept _ _ _ _ _ _ _ _ _ _ Hc5 _ _ ltac:(intros []) Ha4) as Ha5. congruence.
Qed.

(** ** Sequences of operations *)

Inductive queue_op := Offer (z : serialization Z') (p : positive) | Peek (z : Z') | Pop (z : Z').

Definition run_op (op : queue_op) (q : positive) s : outcome (option positive * option data_error * st) :=
  match op with
  | Offer z p => '(err, s) ← offer q z (Some p) s; Ret (None, err, s)
  | Peek z => peek q (AppSerialization z) s
  | Pop z => pop q (AppSerialization z) s
  end.

(** The results of some operations, each with the state then, up to the first error. *)
Fixpoint run_ops (ops : list queue_op) (q : positive) s : outcome (list (option positive * st) * option data_error * st) :=
  match ops with
  | [] => Ret ([], None, s)
  | op :: ops =>
      '(res, err, s) ← run_op op q s;
      match err with
      | Some err => Ret ([], Some err, s)
      | None => '(rs, err, s') ← run_ops ops q s; Ret ((res, s) :: rs, err, s')
      end
  end.

(** What is in a queue: the object at an address, which was offered, or the object with an id. *)
Abbreviation item := (positive + Z)%type.

(** A queue is a list that grows at one end and shrinks at the other. *)
Definition spec_op (op : queue_op) (its : list item) : option item * list item :=
  match op with
  | Offer _ p => (None, its ++ [inl p])
  | Peek _ => (List.hd_error its, its)
  | Pop _ => (List.hd_error its, List.tl its)
  end.

Fixpoint spec_ops (ops : list queue_op) (its : list item) : list (option item) * list item :=
  match ops with
  | [] => ([], its)
  | op :: ops =>
      let '(r, its) := spec_op op its in
      let '(rs, its) := spec_ops ops its in
      (r :: rs, its)
  end.

(** The address that an operation returned is that of the item. *)
Definition answers (d : positive) (r : option positive * st) (it : option item) : Prop :=
  match r.1, it with
  | None, None => True
  | Some p, Some (inl p') => p = p'
  | Some p, Some (inr o) => object_of d r.2 o p
  | _, _ => False
  end.

(** The id is that of the item. *)
Definition names (d : positive) s (it : item) (o : Z) : Prop :=
  match it with inl p => object_of d s o p | inr o' => o = o' end.

Definition op_ok s (op : queue_op) : Prop := match op with Offer _ p => is_app s p | _ => True end.

Lemma went_on_names d t k s s' its os :
  went_on d t k s s' -> Forall2 (names d s) its os -> Forall2 (names d s') its os.
Proof.
  intros (hot & w & Hc & _) H. eapply Forall2_impl; [exact H|]. intros [p|o'] o; cbn; [|done].
  intros Ho. eapply object_of_carries; [exact Hc|done].
Qed.

Lemma went_on_apps d t k s s' ops : went_on d t k s s' -> Forall (op_ok s) ops -> Forall (op_ok s') ops.
Proof.
  intros (hot & w & Hc & Hw) H. eapply Forall_impl; [exact H|]. intros [z p|z|z]; cbn; [|done..].
  intros Hp. eapply is_app_carries; [exact Hc|by apply Hw|done].
Qed.

Lemma head_answers d s its (l : list (Z * Z)) res :
  Forall2 (names d s) its l.*2 ->
  match l with [] => res = None | (_, o) :: _ => exists p, res = Some p /\ object_of d s o p end ->
  answers d (res, s) (List.hd_error its).
Proof.
  intros H. destruct l as [|[i o] l].
  - apply Forall2_nil_inv_r in H as ->. by intros ->.
  - apply Forall2_cons_inv_r in H as (it & its' & Hn & _ & ->). intros (p & -> & Hp). cbn.
    destruct it as [p'|o']; cbn in *; [by eapply object_of_unique|by subst].
Qed.

Lemma op_spec d t k q l its op s :
  going d t k s -> k < 2 ^ 64 - 1000 -> holds d t s q l -> Forall2 (names d s) its l.*2 -> op_ok s op ->
  exists res err s', run_op op q s = Ret (res, err, s')
    /\ (err = None -> went_on d t (k + 1000) s s' /\ answers d (res, s') (spec_op op its).1
          /\ exists l', holds d t s' q l' /\ Forall2 (names d s') (spec_op op its).2 l'.*2).
Proof.
  intros Hg Hk Hq Hits Hop. destruct op as [z p|z|z]; cbn [run_op spec_op fst snd].
  - destruct (offer_spec d t k q l p z s Hg Hk Hq Hop) as (err & s' & -> & H). run. eexists _, err, s'. split; [done|].
    intros He. destruct (H He) as (Hw & i & o & Hq' & Ho). split_and!; [done|done|]. exists (l ++ [(i, o)]).
    split; [done|]. rewrite fmap_app. apply Forall2_app; [by eapply went_on_names|]. by repeat constructor.
  - destruct (peek_spec d t k q l z s Hg Hk Hq) as (res & err & s' & -> & H). eexists _, err, s'. split; [done|].
    intros He. destruct (H He) as ((hot & Hc) & Hq' & Hres).
    assert (Hw : went_on d t (k + 1000) s s') by (exists hot, none; split; [done|by intros ? _ []]).
    pose proof (went_on_names _ _ _ _ _ _ _ Hw Hits) as Hits'. split_and!; [done|by eapply head_answers|by exists l].
  - destruct (pop_spec d t k q l z s Hg Hk Hq) as (res & err & s' & -> & H). eexists _, err, s'. split; [done|].
    intros He. destruct (H He) as ((hot & Hc) & Hq' & Hres).
    assert (Hw : went_on d t (k + 1000) s s').
    { exists hot, (eq q). split; [done|]. intros y [a Ha] <-. destruct Hq as ((hd & tl & Hqo & _) & _). congruence. }
    pose proof (went_on_names _ _ _ _ _ _ _ Hw Hits) as Hits'. split_and!; [done|by eapply head_answers|].
    exists (List.tl l). split; [done|]. destruct l as [|[i o] l]; [by apply Forall2_nil_inv_r in Hits' as ->|].
    by apply Forall2_cons_inv_r in Hits' as (it & its' & _ & Hrest & ->).
Qed.

(** C39. A durable queue is first in, first out.  Any sequence of offers, peeks and pops on a
    queue that holds some objects, of which elements and objects may be in memory or still in
    storage, returns, without undefined behaviour, the objects that the same sequence has on
    a list that grows at one end and shrinks at the other, up to the first error that the
    data manager reports; and if there is none, the queue holds the objects of that list, in
    memory or in storage, and what is in memory will be flushed where it is not what is
    stored.  The deserializers of the application put new objects in memory and leave the
    elements alone; other transactions do not change what this one sees. *)
Theorem queue_fifo d t k q l ops s :
  going d t k s -> holds d t s q l -> Forall (op_ok s) ops -> k + 1000 * Z.of_nat (length ops) < 2 ^ 64 ->
  exists rs err s', run_ops ops q s = Ret (rs, err, s')
    /\ Forall2 (answers d) rs (take (length rs) (spec_ops ops (inr <$> l.*2)).1)
    /\ (err = None -> length rs = length ops
          /\ exists l', holds d t s' q l' /\ Forall2 (names d s') (spec_ops ops (inr <$> l.*2)).2 l'.*2).
Proof.
  assert (Hits : Forall2 (names d s) (inr <$> l.*2) l.*2) by (induction l.*2; by constructor).
  revert Hits. generalize (inr <$> l.*2 : list item). intros its Hits. revert k l its s Hits.
  induction ops as [|op ops IH]; intros k l its s Hits Hg Hq Hops Hk; cbn [run_ops spec_ops].
  { exists [], None, s. split_and!; [done|constructor|]. intros _. split; [done|]. by exists l. }
  apply Forall_cons in Hops as [Hop Hops]. cbn [length] in Hk.
  destruct (op_spec d t k q l its op s Hg ltac:(lia) Hq Hits Hop) as (res & err & s1 & -> & Hres). run.
  destruct (spec_op op its) as [r its1] eqn:Hspec. cbn [fst snd] in Hres. destruct (spec_ops ops its1) as [rs' its'] eqn:Hrest.
  destruct err as [err|]; [exists [], (Some err), s1; split_and!; [done|constructor|done]|].
  destruct (Hres eq_refl) as (Hw & Hr & l1 & Hq1 & Hits1).
  destruct (IH (k + 1000) l1 its1 s1 Hits1) as (rs & err & s2 & -> & Hall & Hend); [|done|by eapply went_on_apps|lia|].
  { destruct Hw as (hot & w & Hc & _). by eapply carries_going. }
  rewrite Hrest in Hall, Hend. run. eexists _, _, _. split; [done|]. cbn [length take fst snd]. split; [by constructor|].
  intros He. destruct (Hend He) as [Hlen Hl']. split; [lia|done].
Qed.

End fifo.

(** *** A queue that is in storage *)

Abbreviation sample_qst := (data_st map_engine_state positive (object nat) (serialization unit) unit).

Definition stored_bytes (o : outcome bytes) : bytes := match o with Ret bs => bs | _ => [] end.

(** The queue 9 with the elements 10 and 11, of the objects 20 and 21. *)
Definition sample_contents : contents :=
  {[ (Meta, [NEXT_OID_KEY]) := oid_bytes false 100;
     (Oids, oid_bytes false 9) := stored_bytes (queue_bytes (Some (10, 11)));
     (Oids, oid_bytes false 10) := stored_bytes (element_bytes (20, Some 11));
     (Oids, oid_bytes false 11) := stored_bytes (element_bytes (21, None));
     (Oids, oid_bytes false 20) := [7]; (Oids, oid_bytes false 21) := [8; 8] ]}.

(** Only the queue is in memory, at address 1, and an object to be offered at 2. *)
Definition sample_stored_queue : sample_qst :=
  TxThread (Some sample_transaction) (Some (TxTiming (Timeval 0 0) None)) 2
    (DataWorld {[1%positive := DataContext None [] (Some 1%positive)
                                 {[9 := 3%positive; 10 := 1%positive; 11 := 2%positive]}
                                 {[Some 1%positive := 3%positive]}]}
       {[1%positive := Reference STATE_EMPTY gzochid_durable_queue_element_serialization 10 None;
         2%positive := Reference STATE_EMPTY gzochid_durable_queue_element_serialization 11 None;
         3%positive := Reference STATE_NOT_MODIFIED gzochid_durable_queue_serialization 9 (Some 1%positive)]}
       {[1%positive := QueueObject (DurableQueue (Some 1%positive) (Some 2%positive)); 2%positive := AppObject 7%nat]} []
       (MapEngine sample_contents {[1%positive := sample_contents]}) [] tt).

Definition sample_element (i : Z) : Prop := i = 10 \/ i = 11.

(** Objects of the application are deserialized to the number of their bytes. *)
Definition sample_deserializer (z : unit) (bs : bytes) (s : sample_qst) : outcome (option positive * bool * sample_qst) :=
  let '(p, s) := alloc_object (AppObject (length bs)) s in Ret (Some p, false, s).

Abbreviation sample_going := (going (durable := committed) (running := map_running) false 100).
Abbreviation sample_run := (run_ops (eng := map_engine) false (Timeval 1 0)
  (fun _ _ s => Ret (None, s)) sample_deserializer (fun _ _ s => Ret s)).

Lemma sample_deserializer_ok d (t : positive) k z bs (s : sample_qst) :
  sample_going d t k s ->
  exists o failed s', sample_deserializer z bs s = Ret (o, failed, s')
    /\ carries (eng := map_engine) (view := map_view) (durable := committed) (running := map_running) false 100
         (kind sample_element) d t k (fun _ => False) (fun _ => False) s s'
    /\ (failed = false -> exists p a, o = Some p /\ objects (world s') !! p = Some (AppObject a)
          /\ ptr_ref d s' p = None).
Proof.
  intros Hg. unfold sample_deserializer.
  destruct (alloc_object_carries (eng := map_engine) (view := map_view) (durable := committed) (running := map_running)
    false 100 (kind sample_element) d t k (AppObject (length bs)) s Hg) as (p & -> & Hc & Hp).
  exists (Some p), false, (put_object p (AppObject (length bs)) s). split; [done|]. split; [exact Hc|]. intros _.
  exists p, (length bs). split; [done|]. split; [apply lookup_insert_eq|].
  change (ptr_ref d s p = None). by eapply going_fresh.
Qed.

Lemma sample_started : sample_going 1 1%positive 100 sample_stored_queue.
Proof.
  split; [|by eexists]. exists 100, 100. split; [lia|]. split; [|lia]. split; [| |lia| |].
  - split; [by eexists _, _|by eexists].
  - split; [by eexists _, _|done|by vm_compute|]. eexists. split; [reflexivity|]. cbn. lia.
  - intros oid r Hr.
    change (({[9 := 3%positive; 10 := 1%positive; 11 := 2%positive]} : gmap Z positive) !! oid = Some r) in Hr.
    apply lookup_insert_Some in Hr as [[<- <-]|[_ Hr]]; [eexists; split; [reflexivity|]; cbn; lia|].
    apply lookup_insert_Some in Hr as [[<- <-]|[_ Hr]]; [eexists; split; [reflexivity|]; cbn; lia|].
    apply lookup_singleton_Some in Hr as [<- <-]. eexists. split; [reflexivity|]. cbn. lia.
  - intros p r Hr.
    change (({[Some 1%positive := 3%positive]} : gmap (option positive) positive) !! Some p = Some r) in Hr.
    apply lookup_singleton_Some in Hr as [[= <-] <-].
    eexists. split; [reflexivity|]. split_and!; [done|reflexivity|by eexists].
Qed.

Lemma sample_holds :
  holds (eng := map_engine) (view := map_view) false 100 sample_element 1 1%positive sample_stored_queue 1
    [(10, 20); (11, 21)].
Proof.
  assert (Hcold : forall i r, oid_ref 1 sample_stored_queue i = Some r ->
    references (world sample_stored_queue) !! r
      = Some (Reference STATE_EMPTY gzochid_durable_queue_element_serialization i None) ->
    sample_element i -> 0 <= i < 100 -> cold 100 (kind sample_element) 1 sample_stored_queue i).
  { intros i r Hr Hx He Hi. split; [unfold in_unsigned; lia|]. split; [lia|]. rewrite Hr.
    by exists gzochid_durable_queue_element_serialization. }
  split; [|split_and!].
  - eexists _, _. split; [reflexivity|]. by split.
  - split; [|split; [|done]].
    + split; [unfold in_unsigned; lia|]. right. split; [by left|].
      split; [apply (Hcold 10 1%positive); [done..|by left|lia]|]. eexists. split; [reflexivity|]. by right.
    + split; [unfold in_unsigned; lia|]. right. split; [by right|].
      split; [apply (Hcold 11 2%positive); [done..|by right|lia]|]. eexists. split; [reflexivity|]. by right.
  - apply NoDup_cons. split; [set_solver|apply NoDup_singleton].
  - cbn. apply Forall_cons. split; [|apply Forall_cons; split; [|done]].
    all: split; [unfold in_unsigned; lia|]; right; (split; [unfold sample_element; lia|]).
    all: (split; [split; [unfold in_unsigned; lia|by split]|]); eexists; by right.
  - right. eexists _, _. split; [reflexivity|]. split; [reflexivity|]. right. eexists. split; [reflexivity|]. by right.
Qed.

Definition sample_ops : list (queue_op (Z' := unit)) :=
  [Peek tt; Offer (AppSerialization tt) 2; Pop tt; Pop tt; Pop tt; Pop tt].

Lemma queue_fifo_witness :
  exists rs err s', sample_run sample_ops 1%positive sample_stored_queue = Ret (rs, err, s')
    /\ Forall2 (answers 1) rs
         (take (length rs) [Some (inr 20); None; Some (inr 20); Some (inr 21); Some (inl 2%positive); None])
    /\ (err = None -> length rs = 6%nat /\ exists l',
          holds (eng := map_engine) (view := map_view) false 100 sample_element 1 1%positive s' 1 l'
          /\ Forall2 (names 1 s') [] l'.*2).
Proof.
  apply (queue_fifo (eng := map_engine) (view := map_view) (durable := committed) (running := map_running) false
    (Timeval 1 0) 100 sample_element (fun _ _ s => Ret (None, s)) sample_deserializer (fun _ _ s => Ret s)
    sample_deserializer_ok 1 1%positive 100 1 [(10, 20); (11, 21)] sample_ops sample_stored_queue).
  - exact sample_started.
  - exact sample_holds.
  - repeat constructor; by eexists.
  - vm_compute. reflexivity.
Defined.

(** The sample operations do not fail: the objects that were stored are loaded at addresses
    4 and 7. *)
Example sample_run_succeeds :
  match sample_run sample_ops 1%positive sample_stored_queue with
  | Ret (rs, None, s') =>
      rs.*1 = [Some 4; None; Some 4; Some 7; Some 2; None]%positive
      /\ objects (world s') !! 4%positive = Some (AppObject 1%nat)
      /\ objects (world s') !! 7%positive = Some (AppObject 2%nat)
  | _ => False
  end.
Proof. vm_compute. by split_and!. Qed.
