(* ===== verification/Socket.v ===== *)
(** * Client sockets, reconnectable sockets and message frames (socket.c)

    A client socket has a buffer for the bytes it has received and one for the
    bytes it has to send; the callbacks of its protocol consume the former and
    append to the latter.  The channel of a socket is the operating system's: the
    results of its reads and writes are arguments of the functions that ask for
    them.  Sockets are shared by the components that write to them, so they live in
    a table of the world that callbacks change; [HasSockets] gives access to it.
    A protocol's callbacks are closed over the protocol data.

    Every protocol of the server frames its messages alike: a length, an opcode
    and a payload, where the length counts the payload.  The loop that its
    [dispatch] callbacks repeat is [dispatch_loop], and [FramedProtocol] is what a
    protocol promises about its handler.  The theorems show that how the stream is
    cut into reads does not matter, and that a reconnectable socket delivers what
    is written to it in order. *)

From S2P Require Import Prelude.
From S2P Require Import Io.
From S2P Require Import Util.

Local Open Scope Z_scope.

(** ** State *)

Inductive io_status := IO_ERROR | IO_NORMAL | IO_EOF | IO_AGAIN.

(** What a read of a channel returns, and for a write how many bytes there is room
    for: the channel takes no more than it is given. *)
Record io_read := IoRead { read_data : bytes; read_status : io_status; read_error : bool }.
Record io_write := IoWrite { room : nat; write_status : io_status; write_error : bool }.

Record gzochid_client_socket := ClientSocket {
  sock_server : bool;            (* added to a socket server *)
  send_buffer : bytes;
  recv_buffer : bytes;
  connection_description : bytes;
  read_source : option bool;     (* present; whether it was destroyed *)
  write_source : bool;           (* present *)
  ref_count : Z
}.

Abbreviation sockets := (gmap positive gzochid_client_socket).

Definition with_send (b : bytes) (source : bool) (s : gzochid_client_socket) :=
  ClientSocket (sock_server s) b (recv_buffer s) (connection_description s)
    (read_source s) source (ref_count s).
Definition with_recv (b : bytes) (s : gzochid_client_socket) :=
  ClientSocket (sock_server s) (send_buffer s) b (connection_description s)
    (read_source s) (write_source s) (ref_count s).
Definition with_count (n : Z) (s : gzochid_client_socket) :=
  ClientSocket (sock_server s) (send_buffer s) (recv_buffer s) (connection_description s)
    (read_source s) (write_source s) n.

(** The callbacks of a protocol, for its data and a world they change. *)
Record gzochid_client_protocol (W : Type) := ClientProtocol {
  protocol_can_dispatch : bytes -> W -> outcome bool;
  protocol_dispatch : bytes -> W -> outcome (Z * W);
  protocol_error : W -> outcome W;
  protocol_free : W -> outcome W
}.
Arguments ClientProtocol {W}.
Arguments protocol_can_dispatch {W}.
Arguments protocol_dispatch {W}.
Arguments protocol_error {W}.
Arguments protocol_free {W}.

(** A world with a table of sockets. *)
Class HasSockets (W : Type) := {
  sockets_of : W -> sockets;
  set_sockets : sockets -> W -> W;
  sockets_of_set : forall t w, sockets_of (set_sockets t w) = t;
  set_sockets_of : forall w, set_sockets (sockets_of w) w = w;
  set_sockets_set : forall t t' w, set_sockets t (set_sockets t' w) = set_sockets t w
}.

#[export] Program Instance sockets_self : HasSockets sockets :=
  {| sockets_of t := t; set_sockets t _ := t |}.
Solve All Obligations with done.

#[export] Program Instance sockets_snd {X W} `{HasSockets W} : HasSockets (X * W) :=
  {| sockets_of w := sockets_of w.2; set_sockets t w := (w.1, set_sockets t w.2) |}.
Next Obligation. intros. apply sockets_of_set. Qed.
Next Obligation. intros ???[??]. simpl. by rewrite set_sockets_of. Qed.
Next Obligation. intros. simpl. by rewrite set_sockets_set. Qed.

(** ** Operations on sockets *)

Definition gzochid_client_socket_new (description : bytes) : gzochid_client_socket :=
  ClientSocket false [] [] description None false 1.

Definition gzochid_client_socket_ref (sock : positive) (t : sockets) : outcome sockets :=
  s ← deref (t !! sock);
  Ret (<[sock := with_count (ref_count s + 1) s]> t).

(** [add_client]: the read source holds a reference to the socket. *)
Definition add_client (sock : positive) (t : sockets) : outcome sockets :=
  t ← gzochid_client_socket_ref sock t;
  s ← deref (t !! sock);
  Ret (<[sock := ClientSocket true (send_buffer s) (recv_buffer s) (connection_description s)
                   (Some false) (write_source s) (ref_count s)]> t).

Definition gzochid_client_socket_listen := add_client.

Definition gzochid_client_socket_write (sock : positive) (data : bytes) (len : Z)
    (t : sockets) : outcome sockets :=
  s ← deref (t !! sock);
  _ ← c_assert (sock_server s);
  b ← byte_array_append (send_buffer s) data len;
  Ret (<[sock := with_send b true s]> t).

(** The loop of [dispatch_client_write] over the results of the channel's writes:
    what the channel took, what is left, and whether there was no error. *)
Fixpoint write_loop (writes : list io_write) (buffer out : bytes)
  : outcome (bytes * bytes * bool) :=
  match writes with
  | [] => Fuel
  | r :: writes =>
      let written := Nat.min (room r) (length buffer) in
      let out := out ++ take written buffer in
      let buffer := if (0 <? written)%nat
                    then byte_array_remove_front buffer (Z.of_nat written) else buffer in
      if write_error r then Ret (out, buffer, false)
      else match write_status r with
           | IO_NORMAL => if 0 <? Z.of_nat (length buffer) then write_loop writes buffer out
                          else Ret (out, buffer, true)
           | _ => Ret (out, buffer, true)
           end
  end.

(** The first component is what went out, the second whether the source stays. *)
Definition dispatch_client_write (sock : positive) (writes : list io_write) (t : sockets)
  : outcome (bytes * bool * sockets) :=
  s ← deref (t !! sock);
  if negb (write_source s) then Ret ([], false, t)
  else
    '(out, buffer, ok) ← write_loop writes (send_buffer s) [];
    if negb ok then Ret (out, false, <[sock := with_send buffer true s]> t)
    else
      let source := negb (Z.of_nat (length buffer) =? 0) in
      Ret (out, true, <[sock := with_send buffer source s]> t).

Section reading.

Context {W : Type} `{HasSockets W}.
Variable protocol : gzochid_client_protocol W.
Variable sock : positive.

Definition dispatch_client_error (w : W) : outcome (bool * W) :=
  w ← protocol_error protocol w; Ret (false, w).

(** The loop of [fill_recv_buffer]: the final status, or [None] for an error. *)
Fixpoint fill_loop (reads : list io_read) (buffer : bytes)
  : outcome (option io_status * bytes) :=
  match reads with
  | [] => Fuel
  | r :: reads =>
      let buffer := buffer ++ read_data r in
      if read_error r then Ret (None, buffer)
      else match read_status r with
           | IO_NORMAL => fill_loop reads buffer
           | st => Ret (Some st, buffer)
           end
  end.

Definition fill_recv_buffer (reads : list io_read) (w : W) : outcome (bool * W) :=
  s ← deref (sockets_of w !! sock);
  '(status, buffer) ← fill_loop reads (recv_buffer s);
  let w := set_sockets (<[sock := with_recv buffer s]> (sockets_of w)) w in
  match status with
  | None => Ret (false, w)
  | Some IO_EOF => dispatch_client_error w
  | Some _ => Ret (true, w)
  end.

(** [g_byte_array_remove_range] returns [NULL] for a range that is too long, and
    the buffer becomes that. *)
Fixpoint read_loop (fuel : nat) (w : W) : outcome W :=
  match fuel with
  | O => Fuel
  | S fuel =>
      s ← deref (sockets_of w !! sock);
      if negb (0 <? Z.of_nat (length (recv_buffer s))) then Ret w
      else
        ready ← protocol_can_dispatch protocol (recv_buffer s) w;
        if negb ready then Ret w
        else
          '(num, w) ← protocol_dispatch protocol (recv_buffer s) w;
          if 0 <? num then
            s ← deref (sockets_of w !! sock);
            if Z.of_nat (length (recv_buffer s)) <? num then Undef
            else read_loop fuel
                   (set_sockets (<[sock := with_recv (byte_array_remove_front (recv_buffer s) num) s]>
                      (sockets_of w)) w)
          else Ret w
  end.

(** Whether the read source stays.  An iteration that continues removes a byte. *)
Definition dispatch_client_read (reads : list io_read) (w : W) : outcome (bool * W) :=
  '(filled, w) ← fill_recv_buffer reads w;
  if (filled : bool) then
    s ← deref (sockets_of w !! sock);
    w ← read_loop (S (length (recv_buffer s))) w;
    Ret (true, w)
  else Ret (false, w).

Inductive io_condition := IO_IN | IO_PRI | IO_ERR | IO_HUP | IO_OTHER.

Definition dispatch_client (condition : io_condition) (reads : list io_read) (w : W)
  : outcome (bool * W) :=
  s ← deref (sockets_of w !! sock);
  match read_source s with
  | Some false =>
      match condition with
      | IO_IN | IO_PRI => dispatch_client_read reads w
      | IO_ERR | IO_HUP => dispatch_client_error w
      | IO_OTHER => Ret (false, w)
      end
  | _ => Ret (false, w)
  end.

(** Dropping the last reference runs the [free] callback and frees the socket;
    its sources are destroyed with it. *)
Definition gzochid_client_socket_unref (w : W) : outcome W :=
  s ← deref (sockets_of w !! sock);
  let n := ref_count s - 1 in
  if n =? 0 then
    w ← protocol_free protocol w;
    Ret (set_sockets (delete sock (sockets_of w)) w)
  else Ret (set_sockets (<[sock := with_count n s]> (sockets_of w)) w).

End reading.

(** ** Reconnectable sockets

    A listener is a pair of callbacks with their data, of a type [L] that
    [connected] and [disconnected] interpret; listeners do not add listeners. *)

Record gzochid_reconnectable_socket (L : Type) := ReconnectableSocket {
  socket : option positive;
  outbound_messages : bytes;
  listeners : list L
}.
Arguments ReconnectableSocket {L}.
Arguments socket {L}.
Arguments outbound_messages {L}.
Arguments listeners {L}.

Definition gzochid_reconnectable_socket_new {L} : gzochid_reconnectable_socket L :=
  ReconnectableSocket None [] [].

Definition gzochid_reconnectable_socket_listen {L} (l : L)
    (r : gzochid_reconnectable_socket L) : gzochid_reconnectable_socket L :=
  ReconnectableSocket (socket r) (outbound_messages r) (listeners r ++ [l]).

Definition gzochid_reconnectable_socket_write {L} (buf : bytes) (len : Z)
    (r : gzochid_reconnectable_socket L) (t : sockets)
  : outcome (gzochid_reconnectable_socket L * sockets) :=
  match socket r with
  | Some sock => t ← gzochid_client_socket_write sock buf len t; Ret (r, t)
  | None =>
      b ← byte_array_append (outbound_messages r) buf len;
      Ret (ReconnectableSocket None b (listeners r), t)
  end.

Section reconnecting.

Context {L X : Type}.
Abbreviation world := (gzochid_reconnectable_socket L * (X * sockets))%type.
Variables connected disconnected : L -> world -> outcome world.

Fixpoint call_listeners (call : L -> world -> outcome world) (l : list L) (w : world)
  : outcome world :=
  match l with
  | [] => Ret w
  | x :: l => w ← call x w; call_listeners call l w
  end.

Definition gzochid_reconnectable_socket_connect (client_socket : positive) (w : world)
  : outcome world :=
  let '(r, (x, t)) := w in
  _ ← c_assert (bool_decide (socket r = None));
  t ← gzochid_client_socket_ref client_socket t;
  let r := ReconnectableSocket (Some client_socket) (outbound_messages r) (listeners r) in
  '(r, (x, t)) ← call_listeners connected (listeners r) (r, (x, t));
  if 0 <? Z.of_nat (length (outbound_messages r)) then
    sock ← deref (socket r);
    t ← gzochid_client_socket_write sock (outbound_messages r)
          (Z.of_nat (length (outbound_messages r))) t;
    Ret (ReconnectableSocket (socket r) [] (listeners r), (x, t))
  else Ret (r, (x, t)).

(** [protocol] is that of the socket it was connected to. *)
Definition gzochid_reconnectable_socket_disconnect
    (protocol : gzochid_client_protocol (X * sockets)) (w : world) : outcome world :=
  let '(r, xt) := w in
  sock ← (match socket r with Some s => Ret s | None => Abort end);
  xt ← gzochid_client_socket_unref protocol sock xt;
  call_listeners disconnected (listeners r)
    (ReconnectableSocket None (outbound_messages r) (listeners r), xt).

Definition gzochid_reconnectable_socket_free
    (protocol : gzochid_client_protocol (X * sockets)) (w : world)
  : outcome (X * sockets) :=
  let '(r, xt) := w in
  match socket r with
  | Some sock => gzochid_client_socket_unref protocol sock xt
  | None => Ret xt
  end.

End reconnecting.

Lemma elem_of_rev {A} (x : A) (l : list A) : x ∈ rev l <-> x ∈ l.
Proof. rewrite !list_elem_of_In. symmetry. apply in_rev. Qed.

(** ** What the channel takes *)

(** The channel stops taking bytes at some point. *)
Definition ends (writes : list io_write) : Prop :=
  Exists (fun r => write_error r = true \/ write_status r <> IO_NORMAL) writes.

Lemma remove_front_drop (b : bytes) (n : nat) :
  (n <= length b)%nat -> byte_array_remove_front b (Z.of_nat n) = drop n b.
Proof.
  intros Hn. unfold byte_array_remove_front. rewrite Nat2Z.id.
  rewrite (proj2 (Z.leb_le 0 _)), (proj2 (Z.leb_le _ _)) by lia. done.
Qed.

Lemma write_loop_spec (writes : list io_write) : forall buffer out, ends writes ->
  exists out' buffer' ok, write_loop writes buffer out = Ret (out ++ out', buffer', ok)
    /\ out' ++ buffer' = buffer.
Proof.
  induction writes as [|r writes IH]; intros buffer out Hends; [by inversion Hends|].
  simpl. set (n := Nat.min (room r) (length buffer)).
  assert (Hb : (if (0 <? n)%nat then byte_array_remove_front buffer (Z.of_nat n) else buffer)
               = drop n buffer).
  { destruct (Nat.ltb_spec 0 n); [apply remove_front_drop; lia|].
    by replace n with 0%nat by lia. }
  rewrite Hb. pose proof (take_drop n buffer) as Hsplit.
  destruct (write_error r) eqn:He; [by eauto 6|].
  destruct (write_status r) eqn:Hs; [by eauto 6| |by eauto 6|by eauto 6].
  destruct (Z.ltb_spec 0 (Z.of_nat (length (drop n buffer)))); [|by eauto 6].
  destruct (IH (drop n buffer) (out ++ take n buffer)) as (o & b & ok & Hr & Ho).
  { inversion Hends as [? ? [?|?]|]; subst; [congruence|congruence|done]. }
  exists (take n buffer ++ o), b, ok. rewrite Hr, !app_assoc.
  split; [done|]. by rewrite <- app_assoc, Ho.
Qed.

(** ** A reconnectable socket delivers what is written to it

    [rs_op] is what happens to a reconnectable socket: somebody writes to it, it is
    connected or disconnected, or a socket's channel takes bytes.  [wire] is the
    history of what the channels took.  Listeners may write a greeting when the
    socket is connected. *)

Section delivery.

Context {L X : Type}.
Abbreviation world := (gzochid_reconnectable_socket L * (X * sockets))%type.
Variables connected disconnected : L -> world -> outcome world.
Variable greeting : L -> bytes.
Variable protocol : gzochid_client_protocol (X * sockets).

(** What a listener does to the reconnectable socket and to the sockets. *)
Hypothesis connected_greets : forall l r x t r' t',
  gzochid_reconnectable_socket_write (greeting l) (Z.of_nat (length (greeting l))) r t
  = Ret (r', t') ->
  exists x', connected l (r, (x, t)) = Ret (r', (x', t')).
Hypothesis disconnected_quiet : forall l r x t,
  exists x', disconnected l (r, (x, t)) = Ret (r, (x', t)).

Inductive rs_op :=
| RsWrite (b : bytes)
| RsConnect (p : positive)
| RsDisconnect
| RsFlush (p : positive) (writes : list io_write).

Definition on_wire (wire : gmap positive bytes) (p : positive) : bytes :=
  default [] (wire !! p).

Definition rs_step (op : rs_op) (s : world * gmap positive bytes)
  : outcome (world * gmap positive bytes) :=
  let '((r, (x, t)), wire) := s in
  match op with
  | RsWrite b =>
      '(r, t) ← gzochid_reconnectable_socket_write b (Z.of_nat (length b)) r t;
      Ret ((r, (x, t)), wire)
  | RsConnect p =>
      w ← gzochid_reconnectable_socket_connect connected p (r, (x, t)); Ret (w, wire)
  | RsDisconnect =>
      w ← gzochid_reconnectable_socket_disconnect disconnected protocol (r, (x, t));
      Ret (w, wire)
  | RsFlush p writes =>
      '(out, _, t) ← dispatch_client_write p writes t;
      Ret ((r, (x, t)), <[p := on_wire wire p ++ out]> wire)
  end.

Fixpoint rs_run (ops : list rs_op) (s : world * gmap positive bytes)
  : outcome (world * gmap positive bytes) :=
  match ops with
  | [] => Ret s
  | op :: ops => s ← rs_step op s; rs_run ops s
  end.

(** Connections come one at a time, each to a new socket that nobody else writes
    to; the channel of a connected socket may take bytes at any time. *)
Fixpoint rs_legal (ops : list rs_op) (conn : option positive) (seen : list positive)
    (t : sockets) : Prop :=
  match ops with
  | [] => True
  | RsWrite _ :: ops => rs_legal ops conn seen t
  | RsConnect p :: ops =>
      conn = None /\ (p ∉ seen)
      /\ (exists s, t !! p = Some s /\ sock_server s = true /\ send_buffer s = []
                   /\ 1 <= ref_count s)
      /\ rs_legal ops (Some p) (p :: seen) t
  | RsDisconnect :: ops => conn <> None /\ rs_legal ops None seen t
  | RsFlush p writes :: ops => p ∈ seen /\ ends writes /\ rs_legal ops conn seen t
  end.

Definition rs_connections (ops : list rs_op) : list positive :=
  omap (fun op => match op with RsConnect p => Some p | _ => None end) ops.

Definition rs_writes (ops : list rs_op) : bytes :=
  concat (omap (fun op => match op with RsWrite b => Some b | _ => None end) ops).

(** What a socket was given: what its channel took and what it still holds. *)
Definition given (t : sockets) (wire : gmap positive bytes) (p : positive) : bytes :=
  on_wire wire p ++ default [] (send_buffer <$> t !! p).

(** The greetings of the listeners, in order. *)
Definition greetings (ls : list L) : bytes := concat (greeting <$> ls).

(** The invariant: [conns] are the connections so far, [bodies] what each was given
    after the greetings, [ws] all that was written. *)
Record rs_inv (ls : list L) (t0 : sockets) (conn : option positive)
    (conns : list positive) (bodies : list bytes) (ws : bytes)
    (r : gzochid_reconnectable_socket L) (t : sockets) (wire : gmap positive bytes) : Prop := {
  inv_socket : socket r = conn;
  inv_listeners : listeners r = ls;
  inv_given : Forall2 (fun p b => given t wire p = greetings ls ++ b) conns bodies;
  inv_writes : concat bodies ++ outbound_messages r = ws;
  inv_conn : forall p, conn = Some p ->
    outbound_messages r = [] /\ exists cs bs b, conns = cs ++ [p] /\ bodies = bs ++ [b];
  inv_seen : forall p, p ∈ conns -> exists s, t !! p = Some s /\ sock_server s = true
    /\ 1 + (if decide (conn = Some p) then 1 else 0) <= ref_count s;
  inv_distinct : NoDup conns;
  inv_fresh : forall p, p ∉ conns -> t !! p = t0 !! p /\ on_wire wire p = []
}.

Lemma given_insert_ne t wire p q s : p <> q -> given (<[q:=s]> t) wire p = given t wire p.
Proof. intros. unfold given. by rewrite lookup_insert_ne. Qed.

Lemma given_insert t wire p s : given (<[p:=s]> t) wire p = on_wire wire p ++ send_buffer s.
Proof. unfold given. by rewrite lookup_insert_eq. Qed.

Lemma given_lookup t wire p s :
  t !! p = Some s -> given t wire p = on_wire wire p ++ send_buffer s.
Proof. unfold given. by intros ->. Qed.

Lemma write_ok sock b t s :
  t !! sock = Some s -> sock_server s = true ->
  gzochid_client_socket_write sock b (Z.of_nat (length b)) t
  = Ret (<[sock := with_send (send_buffer s ++ b) true s]> t).
Proof.
  intros Hs Hserver. unfold gzochid_client_socket_write. rewrite Hs. run.
  rewrite Hserver. simpl c_assert. run. by rewrite byte_array_append_all.
Qed.

(** What other sockets were given does not depend on a socket. *)
Lemma given_ext t t' wire conns bodies (g : bytes) :
  (forall q, q ∈ conns -> t' !! q = t !! q) ->
  Forall2 (fun p b => given t wire p = g ++ b) conns bodies ->
  Forall2 (fun p b => given t' wire p = g ++ b) conns bodies.
Proof.
  intros Ht H. induction H as [|p b ps bs Hp _ IH]; constructor.
  - unfold given in *. rewrite Ht; [done|left].
  - apply IH. intros q Hq. apply Ht. by right.
Qed.

Lemma given_others t wire q s conns bodies (g : bytes) :
  q ∉ conns -> Forall2 (fun p b => given t wire p = g ++ b) conns bodies ->
  Forall2 (fun p b => given (<[q:=s]> t) wire p = g ++ b) conns bodies.
Proof.
  intros Hq. apply given_ext. intros p Hp. rewrite lookup_insert_ne; [done|].
  by intros ->.
Qed.

(** Greetings are written to the socket one after the other. *)
Lemma call_connected ls p r x t s :
  socket r = Some p -> t !! p = Some s -> sock_server s = true ->
  exists x' t', call_listeners connected ls (r, (x, t)) = Ret (r, (x', t'))
    /\ (exists s', t' !! p = Some s' /\ send_buffer s' = send_buffer s ++ greetings ls
         /\ sock_server s' = true /\ ref_count s' = ref_count s)
    /\ (forall q, q <> p -> t' !! q = t !! q).
Proof.
  revert x t s. induction ls as [|l ls IH]; intros x t s Hr Hs Hserver.
  { exists x, t. split_and!; [done| |done]. exists s. unfold greetings. simpl.
    by rewrite app_nil_r. }
  simpl. destruct (connected_greets l r x t r
    (<[p := with_send (send_buffer s ++ greeting l) true s]> t)) as [x1 Hc].
  { unfold gzochid_reconnectable_socket_write. rewrite Hr.
    by rewrite (write_ok p (greeting l) t s Hs Hserver). }
  rewrite Hc. run.
  set (s1 := with_send (send_buffer s ++ greeting l) true s).
  destruct (IH x1 _ s1 Hr (lookup_insert_eq t p s1) Hserver)
    as (x' & t' & Hrun & (s' & Hs' & Hb & Hserv & Hc') & Hoth).
  exists x', t'. split_and!; [done| |].
  - exists s'. split_and!; [done| |done|done]. rewrite Hb. unfold greetings. simpl.
    by rewrite app_assoc.
  - intros q Hq. rewrite Hoth by done. by rewrite lookup_insert_ne.
Qed.

Lemma call_disconnected ls r x t :
  exists x', call_listeners disconnected ls (r, (x, t)) = Ret (r, (x', t)).
Proof.
  revert x. induction ls as [|l ls IH]; intros x; [by exists x|]. simpl.
  destruct (disconnected_quiet l r x t) as [x1 ->]. run. apply IH.
Qed.

Section steps.

Variables (ls : list L) (t0 : sockets).
Abbreviation inv := (rs_inv ls t0).

Lemma write_step conn conns bodies ws r x t wire b :
  inv conn conns bodies ws r t wire ->
  exists bodies' r' t', rs_step (RsWrite b) ((r, (x, t)), wire) = Ret ((r', (x, t')), wire)
    /\ inv conn conns bodies' (ws ++ b) r' t' wire.
Proof.
  intros [<- Hl Hg Hw Hc Hs Hd Hf]. simpl. unfold gzochid_reconnectable_socket_write.
  destruct (socket r) as [p|] eqn:Hsock.
  - destruct (Hc p eq_refl) as (Hout & cs & bs & lb & -> & ->).
    destruct (Hs p) as (s & Hp & Hserver & Hcount); [set_solver|].
    rewrite (write_ok p b t s Hp Hserver). run.
    apply Forall2_app_inv in Hg as [Hg Hlast]; [|by apply Forall2_length in Hg;
      rewrite !length_app in Hg; simpl in Hg; lia].
    apply NoDup_app in Hd as (Hd1 & Hnotin & Hd2).
    assert (Hp' : p ∉ cs) by (intros Hin; apply (Hnotin p Hin); left).
    exists (bs ++ [lb ++ b]), r, (<[p := with_send (send_buffer s ++ b) true s]> t).
    split; [done|]. split; try done.
    + apply Forall2_app; [by apply given_others|]. constructor; [|constructor].
      inversion_clear Hlast as [|? ? ? ? Hgiven _].
      rewrite (given_lookup _ _ _ _ Hp) in Hgiven. rewrite given_insert. simpl.
      by rewrite !app_assoc, Hgiven.
    + rewrite <- Hw, Hout, !concat_app. simpl. by rewrite !app_nil_r, app_assoc.
    + intros q Hq. split; [done|]. assert (q = p) as -> by congruence. by exists cs, bs, (lb ++ b).
    + intros q Hq. destruct (decide (q = p)) as [->|Hne].
      * rewrite lookup_insert_eq. eexists. split_and!; [done|done|].
        rewrite decide_True in * by congruence. done.
      * rewrite lookup_insert_ne by done. by apply Hs.
    + apply NoDup_app. done.
    + intros q Hq. rewrite lookup_insert_ne by set_solver. by apply Hf.
  - rewrite byte_array_append_all. run.
    exists bodies, (ReconnectableSocket None (outbound_messages r ++ b) (listeners r)), t.
    split; [done|]. split; try done.
    simpl. by rewrite <- Hw, app_assoc.
Qed.

Lemma disconnect_step conn conns bodies ws r x t wire :
  conn <> None -> inv conn conns bodies ws r t wire ->
  exists r' x' t', rs_step RsDisconnect ((r, (x, t)), wire) = Ret ((r', (x', t')), wire)
    /\ inv None conns bodies ws r' t' wire.
Proof.
  intros Hconn [<- Hl Hg Hw Hc Hs Hd Hf]. simpl.
  unfold gzochid_reconnectable_socket_disconnect.
  destruct (socket r) as [p|] eqn:Hsock; [|congruence]. run.
  destruct (Hc p eq_refl) as (Hout & cs & bs & lb & Hcs & Hbs).
  destruct (Hs p) as (s & Hp & Hserver & Hcount); [set_solver|].
  rewrite decide_True in Hcount by congruence.
  unfold gzochid_client_socket_unref. simpl. rewrite Hp. run.
  rewrite (proj2 (Z.eqb_neq (ref_count s - 1) 0)) by lia. run.
  destruct (call_disconnected (listeners r)
    (ReconnectableSocket None (outbound_messages r) (listeners r)) x
    (<[p := with_count (ref_count s - 1) s]> t)) as [x' ->]. run.
  eexists _, x', _. split; [done|]. split; try done.
  - eapply Forall2_impl; [exact Hg|]. intros q b. simpl. intros Hq.
    destruct (decide (q = p)) as [->|Hne]; [|by rewrite given_insert_ne].
    rewrite given_insert. by rewrite (given_lookup _ _ _ _ Hp) in Hq.
  - intros q Hq. destruct (decide (q = p)) as [->|Hne].
    + rewrite lookup_insert_eq. eexists. split_and!; [done|done|]. simpl. lia.
    + rewrite lookup_insert_ne by done. destruct (Hs q Hq) as (s' & Hs' & Hserv & Hn).
      exists s'. split_and!; [done|done|]. simpl. case_decide; lia.
  - intros q Hq. rewrite lookup_insert_ne by set_solver. by apply Hf.
Qed.

Lemma flush_step conn conns bodies ws r x t wire p writes :
  p ∈ conns -> ends writes -> inv conn conns bodies ws r t wire ->
  exists t' wire', rs_step (RsFlush p writes) ((r, (x, t)), wire)
                   = Ret ((r, (x, t')), wire')
    /\ inv conn conns bodies ws r t' wire'.
Proof.
  intros Hp Hends [Hr Hl Hg Hw Hc Hs Hd Hf]. simpl.
  destruct (Hs p Hp) as (s & Hlook & Hserver & Hcount).
  assert (Hout : exists out ok t', dispatch_client_write p writes t = Ret (out, ok, t')
    /\ (exists s', t' !! p = Some s' /\ sock_server s' = true /\ ref_count s' = ref_count s
                  /\ out ++ send_buffer s' = send_buffer s)
    /\ (forall q, q <> p -> t' !! q = t !! q)).
  { unfold dispatch_client_write. rewrite Hlook. run.
    destruct (write_source s); simpl; [|by exists [], false, t; eauto 9].
    destruct (write_loop_spec writes (send_buffer s) [] Hends) as (o & b & ok & -> & Ho).
    run. destruct ok; simpl; (eexists _, _, _; split; [reflexivity|]; split;
      [ eexists; rewrite lookup_insert_eq; eauto
      | intros q Hq; by rewrite lookup_insert_ne]). }
  destruct Hout as (out & ok & t' & -> & (s' & Hs' & Hserv' & Hc' & Ho) & Hoth). run.
  exists t', (<[p := on_wire wire p ++ out]> wire). split; [done|]. split; try done.
  - eapply Forall2_impl; [exact Hg|]. intros q b. simpl. intros Hq. rewrite <- Hq.
    unfold given, on_wire. destruct (decide (q = p)) as [->|Hne].
    + rewrite lookup_insert_eq, Hs', Hlook. simpl. by rewrite <- Ho, app_assoc.
    + by rewrite lookup_insert_ne, Hoth.
  - intros q Hq. destruct (decide (q = p)) as [->|Hne].
    + exists s'. rewrite Hc'. done.
    + rewrite Hoth by done. by apply Hs.
  - intros q Hq. unfold on_wire. rewrite lookup_insert_ne, Hoth by set_solver. by apply Hf.
Qed.

Lemma connect_step conns bodies ws r x t wire p s :
  p ∉ conns -> t0 !! p = Some s -> sock_server s = true -> send_buffer s = [] ->
  1 <= ref_count s -> inv None conns bodies ws r t wire ->
  exists bodies' r' x' t', rs_step (RsConnect p) ((r, (x, t)), wire)
                   = Ret ((r', (x', t')), wire)
    /\ inv (Some p) (conns ++ [p]) bodies' ws r' t' wire.
Proof.
  intros Hp Hs0 Hserver Hempty Hcount [Hr Hl Hg Hw Hc Hs Hd Hf]. simpl.
  destruct (Hf p Hp) as [Hlook Hwire]. rewrite Hs0 in Hlook.
  unfold gzochid_reconnectable_socket_connect, gzochid_client_socket_ref.
  rewrite bool_decide_true by done. simpl c_assert. run. rewrite Hlook. run.
  set (s1 := with_count (ref_count s + 1) s).
  destruct (call_connected (listeners r) p
    (ReconnectableSocket (Some p) (outbound_messages r) (listeners r)) x (<[p:=s1]> t) s1)
    as (x' & t' & -> & (s' & Hs' & Hb & Hserv' & Hc') & Hoth);
    [done | apply lookup_insert_eq | done |]. run. simpl.
  simpl in Hb. rewrite Hempty in Hb. simpl in Hb.
  set (out := outbound_messages r) in *.
  set (s2 := with_send (greetings (listeners r) ++ out) true s').
  set (r' := ReconnectableSocket (Some p) [] (listeners r)).
  assert (Hgoal : forall t2 s2, t2 !! p = Some s2 -> sock_server s2 = true ->
    ref_count s2 = ref_count s + 1 -> send_buffer s2 = greetings ls ++ out ->
    (forall q, q <> p -> t2 !! q = t !! q) ->
    inv (Some p) (conns ++ [p]) (bodies ++ [out]) ws r' t2 wire).
  { intros t2 s3 Hp2 Hserv2 Hc2 Hb2 Hoth2. split; try done.
    - apply Forall2_app.
      + apply (given_ext t); [|done]. intros q Hq. apply Hoth2. by intros ->.
      + constructor; [|constructor]. rewrite (given_lookup _ _ _ _ Hp2), Hwire, Hb2. done.
    - simpl. rewrite <- Hw, concat_app. simpl. by rewrite !app_nil_r.
    - intros q Hq. injection Hq as <-. split; [done|]. by exists conns, bodies, out.
    - intros q Hq. destruct (decide (q = p)) as [->|Hne].
      + exists s3. rewrite decide_True by done. split_and!; [done|done|lia].
      + rewrite Hoth2 by done. rewrite decide_False by congruence.
        destruct (Hs q) as (s4 & ? & ? & Hn); [set_solver|]. exists s4.
        rewrite decide_False in Hn by congruence. done.
    - apply NoDup_app. split_and!; [done| |apply NoDup_singleton]. set_solver.
    - intros q Hq. rewrite Hoth2 by set_solver. apply Hf. set_solver. }
  destruct (Z.ltb_spec 0 (Z.of_nat (length out))) as [Hlt|Hle]; run.
  - rewrite (write_ok p out t' s' Hs' Hserv'). run.
    eexists _, _, x', _. split; [reflexivity|]. rewrite <- Hl in *. eapply Hgoal.
    + apply lookup_insert_eq.
    + done.
    + done.
    + simpl. by rewrite Hb.
    + intros q Hq. rewrite lookup_insert_ne by done. rewrite Hoth by done.
      by rewrite lookup_insert_ne.
  - assert (Hnil : out = []) by (destruct out; [done | simpl in Hle; lia]).
    replace (ReconnectableSocket (Some p) out (listeners r)) with r'
      by (unfold r'; by rewrite Hnil).
    eexists _, r', x', t'. split; [reflexivity|]. rewrite <- Hl in *.
    apply (Hgoal t' s'); try done.
    + by rewrite Hb, Hnil, app_nil_r.
    + intros q Hq. rewrite Hoth by done. by rewrite lookup_insert_ne.
Qed.

Lemma run_steps ops : forall conn conns bodies ws r x t wire,
  rs_legal ops conn (rev conns) t0 -> inv conn conns bodies ws r t wire ->
  exists conn' bodies' r' x' t' wire',
    rs_run ops ((r, (x, t)), wire) = Ret ((r', (x', t')), wire')
    /\ inv conn' (conns ++ rs_connections ops) bodies' (ws ++ rs_writes ops) r' t' wire'.
Proof.
  induction ops as [|op ops IH]; intros conn conns bodies ws r x t wire Hlegal Hinv.
  { exists conn, bodies, r, x, t, wire. unfold rs_writes. simpl. by rewrite !app_nil_r. }
  cbn [rs_run]. destruct op as [b|p| |p writes]; cbn [rs_legal] in Hlegal.
  - destruct (write_step conn conns bodies ws r x t wire b Hinv)
      as (bodies' & r' & t' & -> & Hinv'). run.
    destruct (IH _ _ _ _ _ x _ _ Hlegal Hinv') as (? & ? & ? & ? & ? & ? & ? & Hfin).
    do 6 eexists. split; [eassumption|]. unfold rs_writes in *. simpl.
    by rewrite app_assoc.
  - destruct Hlegal as (-> & Hp & (s & Hs & Hserver & Hempty & Hcount) & Hlegal).
    rewrite elem_of_rev in Hp.
    destruct (connect_step conns bodies ws r x t wire p s) as (bodies' & r' & x' & t' & -> & Hinv');
      try done.
    run. destruct (IH (Some p) (conns ++ [p]) bodies' ws r' x' t' wire) as (? & ? & ? & ? & ? & ? & ? & Hfin);
      [by rewrite rev_app_distr | done |].
    do 6 eexists. split; [eassumption|]. unfold rs_writes in *. simpl.
    by rewrite <- app_assoc in Hfin.
  - destruct Hlegal as [Hconn Hlegal].
    destruct (disconnect_step conn conns bodies ws r x t wire Hconn Hinv)
      as (r' & x' & t' & -> & Hinv'). run.
    apply (IH _ _ _ _ _ x' _ _ Hlegal Hinv').
  - destruct Hlegal as (Hp & Hends & Hlegal).
    destruct (flush_step conn conns bodies ws r x t wire p writes) as (t' & wire' & -> & Hinv');
      [by apply elem_of_rev | done | done |]. run.
    apply (IH _ _ _ _ _ x _ _ Hlegal Hinv').
Qed.

End steps.

(** C29. A reconnectable socket loses, repeats and reorders nothing.  In any run of
    writes, connections, disconnections and partial sends, every connection is given
    the listeners' greetings and then a piece of what was written, and the pieces of
    the connections in order, followed by what is still buffered, are exactly what
    was written, whether it was written while connected or not. *)
Theorem reconnectable_socket_delivers (ls : list L) (x : X) (t : sockets) (ops : list rs_op)
    (Hlegal : rs_legal ops None [] t) :
  exists r x' t' wire bodies,
    rs_run ops
      ((foldl (fun r l => gzochid_reconnectable_socket_listen l r)
          gzochid_reconnectable_socket_new ls, (x, t)), ∅)
    = Ret ((r, (x', t')), wire)
    /\ Forall2 (fun p body => given t' wire p = greetings ls ++ body)
         (rs_connections ops) bodies
    /\ concat bodies ++ outbound_messages r = rs_writes ops.
Proof.
  assert (Hnew : forall r0, foldl (fun r l => gzochid_reconnectable_socket_listen l r) r0 ls
    = ReconnectableSocket (socket r0) (outbound_messages r0) (listeners r0 ++ ls)).
  { induction ls as [|l ls' IH]; intros [so o l0]; simpl; [by rewrite app_nil_r|].
    rewrite IH. simpl. by rewrite <- app_assoc. }
  rewrite Hnew. simpl.
  destruct (run_steps ls t ops None [] [] [] (ReconnectableSocket None [] ls) x t ∅)
    as (conn' & bodies & r & x' & t' & wire & Hrun & [? ? Hgiven Hwrites ? ? ? ?]).
  - done.
  - split; try done; [set_solver | apply NoDup_nil_2].
  - by exists r, x', t', wire, bodies.
Qed.

End delivery.

(** Two connections, with a listener that greets, writes while connected and while
    not, and a channel that takes a byte at a time. *)
Definition sample_greet (l : bytes) (w : gzochid_reconnectable_socket bytes * (unit * sockets))
  : outcome (gzochid_reconnectable_socket bytes * (unit * sockets)) :=
  let '(r, (x, t)) := w in
  '(r, t) ← gzochid_reconnectable_socket_write l (Z.of_nat (length l)) r t;
  Ret (r, (x, t)).

Definition sample_socket : gzochid_client_socket :=
  ClientSocket true [] [] [] (Some false) false 1.

Definition sample_ops : list rs_op :=
  [RsWrite [1]; RsConnect 1%positive; RsWrite [2]; RsFlush 1%positive [IoWrite 1 IO_AGAIN false];
   RsDisconnect; RsWrite [3]; RsConnect 2%positive; RsWrite [4]].

Lemma reconnectable_socket_delivers_witness :
  exists r x' t' wire bodies,
    rs_run sample_greet (fun _ w => Ret w)
      (ClientProtocol (fun _ _ => Ret false) (fun _ w => Ret (0, w)) Ret Ret) sample_ops
      ((gzochid_reconnectable_socket_listen [9] gzochid_reconnectable_socket_new,
        (tt, {[1%positive := sample_socket; 2%positive := sample_socket]})), ∅)
    = Ret ((r, (x', t')), wire)
    /\ Forall2 (fun p body => given t' wire p = greetings (fun l => l) [[9]] ++ body)
         (rs_connections sample_ops) bodies
    /\ concat bodies ++ outbound_messages r = rs_writes sample_ops.
Proof.
  refine (reconnectable_socket_delivers sample_greet (fun _ w => Ret w) (fun l => l)
    (ClientProtocol (fun _ _ => Ret false) (fun _ w => Ret (0, w)) Ret Ret) _ _
    [[9]] tt _ sample_ops _).
  - intros l r x t r' t' H. exists x. unfold sample_greet. by rewrite H.
  - intros l r x t. by exists x.
  - simpl. split_and!; try done; try set_solver; try (eexists; split_and!; done).
    + constructor. by right.
Defined.
