(* ===== verification/Framing.v ===== *)
(** * Frames on a byte stream

    The protocols of the server's connections (dataserver-protocol.c,
    sessionserver-protocol.c, channelserver-protocol.c, metaserver-protocol.c,
    sessionclient-protocol.c, channelclient-protocol.c, dataclient-protocol.c,
    metaclient-protocol.c and game-protocol.c) repeat the same two functions: one
    that says whether a whole message has arrived, [frame_ready] (the one of
    metaclient-protocol.c takes the length as signed), and the loop that dispatches the messages of a buffer, [dispatch_loop], here with the treatment of
    a message as a parameter.  A message is an opcode and its payload; on the wire it
    follows the length of its payload ([frame]).

    [FramedProtocol] is the interface between the sockets of [Socket] and a protocol:
    a message that is in a buffer is treated as the message alone, and no treatment
    touches what sockets have received.  A client's theorems about streams follow for
    every protocol that implements it. *)

From S2P Require Import Prelude.
From S2P Require Import Io.
From S2P Require Import Util.
From S2P Require Import DataProtocol.
From S2P Require Import Socket.

Local Open Scope Z_scope.

(** ** The shared functions *)

Definition frame_ready (buffer : bytes) : outcome bool :=
  let len := Z.of_nat (length buffer) in
  if 3 <=? len then
    payload_len ← gzochi_common_io_read_short buffer 0;
    Ret (u16 payload_len + 3 <=? len)
  else Ret false.

Section loop.

Context {W : Type}.
(** The treatment of the message of [len] bytes at an offset of the buffer. *)
Variable handle : bytes -> Z -> Z -> W -> outcome W.

Fixpoint dispatch_loop (fuel : nat) (buffer : bytes) (offset remaining total : Z) (w : W)
  : outcome (Z * W) :=
  match fuel with
  | O => Fuel
  | S fuel =>
      if 3 <=? remaining then
        prefix ← gzochi_common_io_read_short buffer offset;
        let len := u16 (u16 prefix + 1) in
        if remaining - 2 <? len then Ret (total, w)
        else
          let offset := offset + 2 in
          w ← handle buffer offset len w;
          dispatch_loop fuel buffer (offset + len) (remaining - (len + 2)) (total + (len + 2)) w
      else Ret (total, w)
  end.

(** An iteration takes two bytes at least. *)
Definition dispatch_frames (buffer : bytes) (w : W) : outcome (Z * W) :=
  dispatch_loop (S (length buffer)) buffer 0 (s32 (Z.of_nat (length buffer))) 0 w.

End loop.

(** ** Messages *)

Definition message_ok (m : bytes) : Prop :=
  bytes_ok m /\ (1 <= length m)%nat /\ Z.of_nat (length m) < 2 ^ 16.

Definition frame (m : bytes) : bytes := be_encode 2 (Z.of_nat (length m) - 1) ++ m.

Definition stream (ms : list bytes) : bytes := concat (frame <$> ms).

(** The beginning of a message of which something is missing. *)
Definition partial (rest : bytes) : Prop :=
  exists m tail, message_ok m /\ frame m = rest ++ tail /\ tail <> [].

Section messages.

Context {W : Type} (on_message : bytes -> W -> outcome W).

Fixpoint messages (ms : list bytes) (w : W) : outcome W :=
  match ms with
  | [] => Ret w
  | m :: ms => w ← on_message m w; messages ms w
  end.

End messages.

Arguments frame : simpl never.
Arguments stream : simpl never.

(** What a socket has received. *)
Definition set_recv {W} `{HasSockets W} (p : positive) (b : bytes) (w : W) : W :=
  set_sockets (alter (with_recv b) p (sockets_of w)) w.

Definition received {W} `{HasSockets W} (p : positive) (b : bytes) (w : W) : Prop :=
  exists s, sockets_of w !! p = Some s /\ recv_buffer s = b.

(** ** The interface

    [handle_message] relates the treatment inside of a buffer to [on_message];
    [readable] are the messages for which it is, since some treatments read past the
    end of others, and which are found when they have arrived. *)

Class FramedProtocol {W : Type} `{HasSockets W} (P : gzochid_client_protocol W)
    (handle : bytes -> Z -> Z -> W -> outcome W) (on_message : bytes -> W -> outcome W)
    (readable : bytes -> Prop) : Prop := {
  framed_decides : forall b w, exists ready, protocol_can_dispatch P b w = Ret ready;
  framed_ready : forall m ms rest w, message_ok m -> readable m ->
    protocol_can_dispatch P (stream (m :: ms) ++ rest) w = Ret true;
  framed_dispatch : forall b w, protocol_dispatch P b w = dispatch_frames handle b w;
  handle_message : forall pre m post w, message_ok m -> readable m ->
    handle (pre ++ frame m ++ post) (Z.of_nat (length pre) + 2) (Z.of_nat (length m)) w
    = on_message m w;
  message_recv : forall p b m w,
    on_message m (set_recv p b w) = set_recv p b <$> on_message m w;
  message_keeps : forall p b m w w',
    on_message m w = Ret w' -> received p b w -> received p b w'
}.

(** ** Treatments that do not touch what sockets have received

    [blind] is what the interface asks of [on_message], [blind_with] the same of
    operations that return something.  Both are closed under what treatments are
    made of; the database [blind] has the rules. *)

Section blind.

Context {W : Type} `{HasSockets W}.

Definition blind (f : W -> outcome W) : Prop :=
  (forall p b w, f (set_recv p b w) = set_recv p b <$> f w)
  /\ (forall p b w w', f w = Ret w' -> received p b w -> received p b w').

Definition blind_with {A} (f : W -> outcome (A * W)) : Prop :=
  (forall p b w, f (set_recv p b w) = (fun r => (r.1, set_recv p b r.2)) <$> f w)
  /\ (forall p b w a w', f w = Ret (a, w') -> received p b w -> received p b w').

Lemma blind_ret : blind (fun w => Ret w).
Proof. split; [done|]. by intros p b w w' [= <-]. Qed.

Lemma blind_bind {A} (m : outcome A) (f : A -> W -> outcome W) :
  (forall a, blind (f a)) -> blind (fun w => a ← m; f a w).
Proof.
  intros Hf. split.
  - intros p b w. destruct m as [a| | |]; [apply (Hf a)|done..].
  - intros p b w w'. destruct m as [a| | |]; [apply (Hf a)|done..].
Qed.

Lemma blind_after {A} (op : W -> outcome (A * W)) (f : A -> W -> outcome W) :
  blind_with op -> (forall a, blind (f a)) -> blind (fun w => '(a, w) ← op w; f a w).
Proof.
  intros [Hop1 Hop2] Hf. split.
  - intros p b w. rewrite Hop1. destruct (op w) as [[a w']| | |]; [|done..]. apply (Hf a).
  - intros p b w w' ([a w1] & H1 & H2)%bind_Ret Hw. destruct (Hf a) as [_ Hk].
    eapply Hk; [exact H2|]. by eapply Hop2.
Qed.

Lemma blind_drop {A} (op : W -> outcome (A * W)) :
  blind_with op -> blind (fun w => '(_, w) ← op w; Ret w).
Proof. intros Hop. by apply (blind_after op (fun _ w => Ret w)); [|intros _; apply blind_ret]. Qed.

Lemma blind_with_ret {A} (a : A) : blind_with (fun w => Ret (a, w)).
Proof. split; [done|]. by intros p b w a' w' [= _ <-]. Qed.

Lemma blind_with_bind {A B} (m : outcome A) (f : A -> W -> outcome (B * W)) :
  (forall a, blind_with (f a)) -> blind_with (fun w => a ← m; f a w).
Proof.
  intros Hf. split.
  - intros p b w. destruct m as [a| | |]; [apply (Hf a)|done..].
  - intros p b w a' w'. destruct m as [a| | |]; [apply (Hf a)|done..].
Qed.

Lemma blind_with_after {B} (op : W -> outcome W) (f : W -> outcome (B * W)) :
  blind op -> blind_with f -> blind_with (fun w => w ← op w; f w).
Proof.
  intros [Hop1 Hop2] [Hf1 Hf2]. split.
  - intros p b w. rewrite Hop1. destruct (op w) as [w'| | |]; [|done..]. apply Hf1.
  - intros p b w a w' (w1 & H1 & H2)%bind_Ret Hw. eapply Hf2; [exact H2|]. by eapply Hop2.
Qed.

End blind.

(** Writing to a socket appends to what it has to send. *)
Lemma blind_write (sock : positive) (data : bytes) (len : Z) :
  blind (gzochid_client_socket_write sock data len).
Proof.
  split.
  - intros p b t. unfold gzochid_client_socket_write, set_recv. simpl.
    destruct (decide (sock = p)) as [->|Hne].
    + rewrite lookup_alter_eq. destruct (t !! p) as [s|] eqn:Hs; [|done]. simpl.
      destruct (sock_server s); [|done]. simpl.
      destruct (byte_array_append (send_buffer s) data len); [|done..]. simpl. f_equal.
      apply map_eq. intros q. destruct (decide (q = p)) as [->|Hq].
      * by rewrite lookup_insert_eq, lookup_alter_eq, lookup_insert_eq.
      * by rewrite lookup_insert_ne, !lookup_alter_ne, lookup_insert_ne.
    + rewrite lookup_alter_ne by done. destruct (t !! sock) as [s|]; [|done]. simpl.
      destruct (sock_server s); [|done]. simpl.
      destruct (byte_array_append (send_buffer s) data len); [|done..]. simpl. f_equal.
      by rewrite alter_insert_ne.
  - intros p b t t' Ht (s & Hs & Hb). unfold gzochid_client_socket_write in Ht.
    inv_ret. unfold received. simpl in *.
    destruct (decide (sock = p)) as [->|Hne].
    + rewrite lookup_insert_eq. eexists. split; [done|]. simpl. congruence.
    + rewrite lookup_insert_ne by done. by exists s.
Qed.

(** In a world with another component, each operation changes its own part. *)
Lemma blind_fst {X A} (op : X -> outcome (A * X)) :
  blind (W := X * sockets) (fun w => '(_, x) ← op w.1; Ret (x, w.2)).
Proof.
  split.
  - intros p b [x t]. simpl. by destruct (op x) as [[a x']| | |].
  - intros p b [x t] w' ([a x'] & Hop & Hw)%bind_Ret. simpl in *.
    injection Hw as <-. done.
Qed.

Lemma blind_snd {X A} (op : X -> sockets -> outcome (A * sockets)) :
  (forall x, blind_with (op x)) ->
  blind (W := X * sockets) (fun w => '(_, t) ← op w.1 w.2; Ret (w.1, t)).
Proof.
  intros Hop. split.
  - intros p b [x t]. destruct (Hop x) as [Hop1 _]. unfold set_recv. simpl.
    unfold set_recv in Hop1. simpl in Hop1. rewrite Hop1. by destruct (op x t) as [[a t']| | |].
  - intros p b [x t] w' ([a t'] & Hr & Hw)%bind_Ret Hrecv. simpl in *.
    injection Hw as <-. destruct (Hop x) as [_ Hop2]. exact (Hop2 p b t a t' Hr Hrecv).
Qed.

Lemma blind_part {X} (op : X -> sockets -> outcome sockets) :
  (forall x, blind (op x)) ->
  blind (W := X * sockets) (fun w => t ← op w.1 w.2; Ret (w.1, t)).
Proof.
  intros Hop. split.
  - intros p b [x t]. destruct (Hop x) as [Hop1 _]. unfold set_recv. simpl.
    unfold set_recv in Hop1. simpl in Hop1. rewrite Hop1. by destruct (op x t).
  - intros p b [x t] w' (t' & Hr & Hw)%bind_Ret Hrecv. simpl in *.
    injection Hw as <-. destruct (Hop x) as [_ Hop2]. exact (Hop2 p b t t' Hr Hrecv).
Qed.

Lemma blind_seq {W} `{HasSockets W} (f g : W -> outcome W) :
  blind f -> blind g -> blind (fun w => w ← f w; g w).
Proof.
  intros [Hf1 Hf2] [Hg1 Hg2]. split.
  - intros p b w. rewrite Hf1. destruct (f w); [|done..]. apply Hg1.
  - intros p b w w' (w1 & H1 & H2)%bind_Ret Hw. eapply Hg2; [exact H2|]. by eapply Hf2.
Qed.

Create HintDb blind.
#[export] Hint Resolve blind_ret blind_bind blind_with_ret blind_with_bind blind_with_after
  blind_write blind_fst blind_snd blind_part blind_seq : blind.

(** ** Lemmas on frames *)

Lemma frame_length (m : bytes) : length (frame m) = (2 + length m)%nat.
Proof. unfold frame. by rewrite length_app, be_encode_length. Qed.

Lemma stream_cons (m : bytes) (ms : list bytes) : stream (m :: ms) = frame m ++ stream ms.
Proof. done. Qed.

Lemma message_prefix (m : bytes) :
  message_ok m -> u16 (signed 16 (be_decode (be_encode 2 (Z.of_nat (length m) - 1))))
                  = Z.of_nat (length m) - 1.
Proof.
  intros (_ & H1 & H2). rewrite unsigned_signed by lia. rewrite be_decode_encode.
  unfold unsigned. rewrite Zmod_mod. apply Z.mod_small. simpl in *. lia.
Qed.

Lemma read_frame (pre m post : bytes) :
  message_ok m ->
  exists v, gzochi_common_io_read_short (pre ++ frame m ++ post) (Z.of_nat (length pre)) = Ret v
    /\ u16 v = Z.of_nat (length m) - 1.
Proof.
  intros Hm. unfold frame. rewrite <- app_assoc.
  eexists. split; [apply (be_read (BigEndian := short_codec)); by rewrite be_encode_length|].
  by apply message_prefix.
Qed.

(** A partial message of three bytes or more has its whole prefix. *)
Lemma partial_cases (rest : bytes) :
  partial rest ->
  (length rest < 3)%nat \/
  exists m cut, message_ok m /\ rest = be_encode 2 (Z.of_nat (length m) - 1) ++ cut
    /\ (length cut < length m)%nat.
Proof.
  intros (m & tail & Hm & Hframe & Htail).
  destruct (decide (length rest < 3)%nat); [by left|]. right.
  unfold frame in Hframe. exists m, (drop 2 rest).
  assert (Hcut : rest = be_encode 2 (Z.of_nat (length m) - 1) ++ drop 2 rest).
  { rewrite <- (take_drop 2 rest) at 1. f_equal.
    apply (f_equal (take 2)) in Hframe.
    rewrite take_app_length' in Hframe by (by rewrite be_encode_length).
    rewrite Hframe, take_app_le by lia. done. }
  split_and!; [done|done|].
  apply (f_equal length) in Hframe. rewrite !length_app, be_encode_length in Hframe.
  rewrite length_drop. destruct tail; [done|]. simpl in Hframe. lia.
Qed.

Lemma partial_length (rest : bytes) : partial rest -> Z.of_nat (length rest) < 2 ^ 17.
Proof.
  intros [H|(m & cut & (_ & _ & Hm) & -> & Hc)]%partial_cases; [lia|].
  rewrite length_app, be_encode_length. lia.
Qed.

Lemma partial_nil : partial [].
Proof.
  exists [0], (frame [0]). split_and!; [|done|done].
  split; [repeat constructor; done|]. simpl. lia.
Qed.

Lemma partial_not_ready (rest : bytes) : partial rest -> frame_ready rest = Ret false.
Proof.
  intros [Hlen|(m & cut & Hm & -> & Hcut)]%partial_cases; unfold frame_ready.
  { destruct (Z.leb_spec 3 (Z.of_nat (length rest))); [lia|done]. }
  rewrite length_app, be_encode_length.
  destruct (Z.leb_spec 3 (Z.of_nat (2 + length cut))); [|done].
  rewrite (read_encoded_0 (Hbe := short_codec)). run. f_equal.
  change (8 * Z.of_nat 2) with 16.
  pose proof (message_prefix m Hm) as Hp. rewrite be_decode_encode in Hp.
  change (8 * Z.of_nat 2) with 16 in Hp. rewrite signed_mod in Hp. rewrite Hp.
  apply Z.leb_gt. lia.
Qed.

Lemma stream_ready (m : bytes) (ms : list bytes) (rest : bytes) :
  message_ok m -> frame_ready (stream (m :: ms) ++ rest) = Ret true.
Proof.
  intros Hm. unfold frame_ready. rewrite stream_cons, <- app_assoc.
  destruct (read_frame [] m (stream ms ++ rest) Hm) as (v & Hv & Hu).
  rewrite app_nil_l in Hv. change (Z.of_nat (length [])) with 0 in Hv.
  rewrite length_app, frame_length.
  destruct (Z.leb_spec 3 (Z.of_nat (2 + length m + length (stream ms ++ rest)))).
  - rewrite Hv. run. rewrite Hu. f_equal. apply Z.leb_le. lia.
  - destruct Hm as (_ & ? & _). lia.
Qed.

(** A beginning of a stream is a number of messages and a partial one. *)
Lemma stream_split (ms : list bytes) : forall rest a b,
  Forall message_ok ms -> partial rest -> stream ms ++ rest = a ++ b ->
  exists k rest', a = stream (take k ms) ++ rest' /\ partial rest'
    /\ rest' ++ b = stream (drop k ms) ++ rest.
Proof.
  induction ms as [|m ms IH]; intros rest a b Hms Hrest Heq.
  { exists 0%nat, a. split_and!; [done| |done]. destruct Hrest as (m & tail & Hm & Hf & Ht).
    simpl in Heq. exists m, (b ++ tail). split_and!; [done| |].
    - by rewrite Hf, Heq, <- app_assoc.
    - by destruct b. }
  inversion_clear Hms as [|? ? Hm Hms'].
  rewrite stream_cons, <- app_assoc in Heq.
  destruct (decide (length (frame m) <= length a)%nat) as [Hle|Hlt].
  - assert (Ha : a = frame m ++ drop (length (frame m)) a).
    { rewrite <- (take_drop (length (frame m)) a) at 1. f_equal.
      apply (f_equal (take (length (frame m)))) in Heq.
      rewrite take_app_length, take_app_le in Heq by done. done. }
    rewrite Ha in Heq. rewrite <- app_assoc in Heq. apply app_inv_head in Heq.
    destruct (IH rest _ _ Hms' Hrest Heq) as (k & rest' & Hk & Hp & Hb).
    exists (S k), rest'. split_and!; [|done|done].
    cbn [take]. rewrite stream_cons, <- app_assoc, <- Hk. exact Ha.
  - exists 0%nat, a. split_and!; [done| |cbn [drop]; by rewrite stream_cons, <- app_assoc].
    exists m, (drop (length a) (frame m)).
    assert (Ha : a = take (length a) (frame m)).
    { apply (f_equal (take (length a))) in Heq.
      rewrite take_app_length, take_app_le in Heq by lia. done. }
    split_and!; [done| |].
    + rewrite Ha at 1. by rewrite take_drop.
    + intros Hnil%(f_equal length). rewrite length_drop in Hnil. cbn [length] in Hnil. lia.
Qed.

Lemma frame_ready_decides (b : bytes) : exists ready, frame_ready b = Ret ready.
Proof.
  unfold frame_ready. destruct (Z.leb_spec 3 (Z.of_nat (length b))) as [H|H]; [|by eexists].
  destruct b as [|x [|y b]]; cbn [length] in H; [lia..|]. by eexists.
Qed.

Section protocol.

Context {W : Type} {HS : HasSockets W} {P : gzochid_client_protocol W}.
Context {handle : bytes -> Z -> Z -> W -> outcome W}.
Context {on_message : bytes -> W -> outcome W} {readable : bytes -> Prop}.
Context {FP : FramedProtocol P handle on_message readable}.

Abbreviation ok := (fun m => message_ok m /\ readable m).

(** The loop treats the messages of its buffer in order and leaves the rest. *)
Lemma dispatch_loop_stream (ms : list bytes) : forall fuel pre rest total w,
  Forall ok ms -> partial rest -> (length ms < fuel)%nat ->
  dispatch_loop handle fuel (pre ++ stream ms ++ rest) (Z.of_nat (length pre))
    (Z.of_nat (length (stream ms ++ rest))) total w
  = (fun w => (total + Z.of_nat (length (stream ms)), w)) <$> messages on_message ms w.
Proof.
  induction ms as [|m ms IH]; intros fuel pre rest total w Hms Hrest Hfuel.
  all: destruct fuel as [|fuel]; [simpl in Hfuel; lia|].
  - change (stream []) with (@nil Z). rewrite app_nil_l. cbn [dispatch_loop messages length].
    destruct (partial_cases rest Hrest) as [Hlen|(m & cut & Hm & -> & Hcut)].
    { destruct (Z.leb_spec 3 (Z.of_nat (length rest))); [lia|]. simpl. f_equal. f_equal. lia. }
    rewrite length_app, be_encode_length.
    destruct (Z.leb_spec 3 (Z.of_nat (2 + length cut))); [|simpl; do 2 f_equal; lia].
    rewrite (be_read (BigEndian := short_codec)) by (by rewrite be_encode_length). run.
    rewrite message_prefix by done.
    rewrite (unsigned_small 16 (Z.of_nat (length m) - 1 + 1)).
    2: { destruct Hm as (_ & ? & ?). unfold in_unsigned. simpl in *. lia. }
    destruct (Z.ltb_spec (Z.of_nat (2 + length cut) - 2) (Z.of_nat (length m) - 1 + 1)); [|lia].
    simpl. do 2 f_equal. lia.
  - inversion_clear Hms as [|? ? [Hm Hr] Hms']. cbn [dispatch_loop messages].
    rewrite stream_cons, <- (app_assoc (frame m)).
    destruct (read_frame pre m (stream ms ++ rest) Hm) as (v & -> & Hu). run.
    rewrite Hu. pose proof Hm as (_ & Hm1 & Hm2).
    rewrite (unsigned_small 16) by (unfold in_unsigned; simpl in *; lia).
    rewrite !length_app, frame_length.
    destruct (Z.leb_spec 3 (Z.of_nat (2 + length m + (length (stream ms) + length rest)))); [|lia].
    destruct (Z.ltb_spec (Z.of_nat (2 + length m + (length (stream ms) + length rest)) - 2)
      (Z.of_nat (length m) - 1 + 1)); [lia|].
    replace (Z.of_nat (length m) - 1 + 1) with (Z.of_nat (length m)) by lia.
    rewrite (handle_message pre m (stream ms ++ rest) w) by done.
    destruct (on_message m w) as [w'| | |]; [|done..].
    cbn [mbind outcome_bind fmap outcome_fmap].
    specialize (IH fuel (pre ++ frame m) rest (total + (Z.of_nat (length m) + 2)) w' Hms' Hrest).
    rewrite <- !app_assoc, !length_app, frame_length in IH.
    replace (Z.of_nat (length pre) + 2 + Z.of_nat (length m))
      with (Z.of_nat (length pre + (2 + length m))) by lia.
    replace (Z.of_nat (2 + length m + (length (stream ms) + length rest)) - (Z.of_nat (length m) + 2))
      with (Z.of_nat (length (stream ms) + length rest)) by lia.
    rewrite IH by (simpl in Hfuel; lia).
    destruct (messages on_message ms w'); [|done..].
    cbn [mbind outcome_bind fmap outcome_fmap]. do 2 f_equal. lia.
Qed.

Lemma messages_recv (p : positive) (b : bytes) (ms : list bytes) (w : W) :
  messages on_message ms (set_recv p b w) = set_recv p b <$> messages on_message ms w.
Proof.
  revert w. induction ms as [|m ms IH]; intros w; [done|]. simpl.
  rewrite message_recv. destruct (on_message m w) as [w'| | |]; simpl; [apply IH|done..].
Qed.

Lemma messages_keeps (p : positive) (b : bytes) (ms : list bytes) (w w' : W) :
  messages on_message ms w = Ret w' -> received p b w -> received p b w'.
Proof.
  revert w. induction ms as [|m ms IH]; intros w; simpl; [by intros [= ->]|].
  intros (w1 & H1 & H2)%bind_Ret Hw. eapply IH; [exact H2|]. by eapply message_keeps.
Qed.

Lemma messages_app (ms1 ms2 : list bytes) (w : W) :
  messages on_message (ms1 ++ ms2) w
  = messages on_message ms1 w ≫= messages on_message ms2.
Proof.
  revert w. induction ms1 as [|m ms1 IH]; intros w; [done|]. simpl.
  destruct (on_message m w); simpl; [apply IH|done..].
Qed.

(** *** The socket that reads *)

Lemma set_recv_insert (p : positive) (b : bytes) (w : W) (s : gzochid_client_socket) :
  sockets_of w !! p = Some s ->
  set_sockets (<[p := with_recv b s]> (sockets_of w)) w = set_recv p b w.
Proof.
  intros Hs. unfold set_recv. f_equal. apply map_eq. intros q.
  destruct (decide (q = p)) as [->|Hne].
  - by rewrite lookup_insert_eq, lookup_alter_eq, Hs.
  - by rewrite lookup_insert_ne, lookup_alter_ne.
Qed.

Lemma set_recv_set_recv (p : positive) (b b' : bytes) (w : W) :
  set_recv p b (set_recv p b' w) = set_recv p b w.
Proof.
  unfold set_recv. rewrite sockets_of_set, set_sockets_set. f_equal. apply map_eq. intros q.
  destruct (decide (q = p)) as [->|Hne].
  - rewrite !lookup_alter_eq. by destruct (sockets_of w !! p).
  - by rewrite !lookup_alter_ne.
Qed.

Lemma set_recv_received (p : positive) (b b' : bytes) (w : W) :
  received p b w -> received p b' (set_recv p b' w).
Proof.
  intros (s & Hs & _). exists (with_recv b' s). unfold set_recv.
  by rewrite sockets_of_set, lookup_alter_eq, Hs.
Qed.

Lemma set_recv_same (p : positive) (b : bytes) (w : W) : received p b w -> set_recv p b w = w.
Proof.
  intros (s & Hs & Hb). rewrite <- (set_recv_insert p b w s Hs).
  rewrite insert_id; [apply set_sockets_of|]. rewrite Hs. f_equal.
  destruct s. simpl in *. by subst.
Qed.

(** What one readiness of the channel brings, in pieces. *)
Definition reads_of (chunks : list bytes) : list io_read :=
  ((fun c => IoRead c IO_NORMAL false) <$> chunks) ++ [IoRead [] IO_AGAIN false].

Lemma fill_reads (p : positive) (cs : list bytes) (b : bytes) (w : W) :
  received p b w ->
  fill_recv_buffer P p (reads_of cs) w = Ret (true, set_recv p (b ++ concat cs) w).
Proof.
  intros (s & Hs & Hb). unfold fill_recv_buffer. rewrite Hs. run. rewrite Hb.
  assert (Hloop : forall b, fill_loop (reads_of cs) b = Ret (Some IO_AGAIN, b ++ concat cs)).
  { unfold reads_of. induction cs as [|c cs IH]; intros b0; simpl; [done|].
    rewrite IH. by rewrite <- app_assoc. }
  rewrite Hloop. run. by rewrite (set_recv_insert p _ w s Hs).
Qed.

(** Even if the beginning of a message is taken for a whole one, the loop leaves it. *)
Lemma read_loop_partial (p : positive) (fuel : nat) (rest : bytes) (w : W) :
  received p rest w -> partial rest -> read_loop P p (S fuel) w = Ret w.
Proof.
  intros (s & Hs & Hb) Hrest. cbn [read_loop]. rewrite Hs. run. rewrite Hb.
  destruct (0 <? Z.of_nat (length rest)); [|done]. cbn [negb].
  destruct (framed_decides rest w) as ([] & ->); [|done]. cbn [mbind outcome_bind negb].
  rewrite framed_dispatch. unfold dispatch_frames. rewrite signed_small by
    (done || (unfold in_signed; pose proof (partial_length rest Hrest); change (32 - 1) with 31; lia)).
  pose proof (dispatch_loop_stream [] (S (length rest)) [] rest 0 w (Forall_nil_2 _) Hrest) as Hd.
  cbn [app length] in Hd. change (stream []) with (@nil Z) in Hd. rewrite app_nil_l in Hd.
  change (Z.of_nat 0) with 0 in Hd. by rewrite Hd by lia.
Qed.

Lemma stream_length (ms : list bytes) : (3 * length ms <= length (stream ms))%nat \/ ~ Forall message_ok ms.
Proof.
  induction ms as [|m ms IH]; [left; simpl; lia|].
  destruct (decide (1 <= length m)%nat) as [Hm|Hm].
  - destruct IH as [IH|IH].
    + left. rewrite stream_cons, length_app, frame_length. simpl. lia.
    + right. intros H. by inversion H.
  - right. intros H. inversion_clear H as [|? ? (_ & ? & _)]. lia.
Qed.

Lemma read_loop_stream (p : positive) (fuel : nat) (ms : list bytes) (rest : bytes) (w : W) :
  received p (stream ms ++ rest) w -> Forall ok ms -> partial rest ->
  Z.of_nat (length (stream ms ++ rest)) < 2 ^ 31 ->
  (length (stream ms ++ rest) < fuel)%nat ->
  read_loop P p fuel w = set_recv p rest <$> messages on_message ms w.
Proof.
  intros Hrecv Hms Hrest Hlen Hfuel. destruct fuel as [|fuel]; [lia|].
  destruct ms as [|m ms].
  { rewrite (read_loop_partial p fuel rest w Hrecv Hrest). cbn. by rewrite set_recv_same. }
  assert (Hsl : (3 * length (m :: ms) <= length (stream (m :: ms)))%nat).
  { destruct (stream_length (m :: ms)) as [?|Hno]; [done|]. destruct Hno.
    eapply Forall_impl; [exact Hms|]. intros m0 [Hm0 _]. exact Hm0. }
  pose proof (Forall_inv Hms) as [Hm _].
  pose proof Hrecv as (s & Hs & Hb). cbn [read_loop]. rewrite Hs.
  cbn [mbind outcome_bind deref]. rewrite Hb.
  rewrite length_app in *.
  destruct (Z.ltb_spec 0 (Z.of_nat (length (stream (m :: ms)) + length rest))); [|cbn [length] in Hsl; lia].
  cbn [negb]. rewrite (framed_ready m ms rest) by (done || by apply (Forall_inv Hms)).
  cbn [mbind outcome_bind negb]. rewrite framed_dispatch. unfold dispatch_frames.
  rewrite signed_small by
    (done || (unfold in_signed; rewrite length_app; change (32 - 1) with 31; lia)).
  pose proof (dispatch_loop_stream (m :: ms) (S (length (stream (m :: ms) ++ rest))) [] rest 0 w
    Hms Hrest) as Hd. cbn [app length] in Hd. change (Z.of_nat 0) with 0 in Hd.
  rewrite Hd by (rewrite length_app; cbn [length] in *; lia).
  destruct (messages on_message (m :: ms) w) as [w'| | |] eqn:Hrun; [|done..].
  cbn [mbind outcome_bind fmap outcome_fmap]. rewrite Z.add_0_l.
  destruct (Z.ltb_spec 0 (Z.of_nat (length (stream (m :: ms))))); [|cbn [length] in *; lia].
  pose proof (messages_keeps p _ _ _ _ Hrun Hrecv) as (s' & Hs' & Hb'). rewrite Hs'.
  cbn [mbind outcome_bind deref]. rewrite Hb', length_app.
  destruct (Z.ltb_spec (Z.of_nat (length (stream (m :: ms)) + length rest))
    (Z.of_nat (length (stream (m :: ms))))); [lia|].
  rewrite remove_front_drop by (rewrite length_app; lia).
  rewrite drop_app_length, set_recv_insert by done.
  destruct fuel as [|fuel]; [cbn [length] in *; lia|].
  apply (read_loop_partial p fuel rest); [|done].
  eapply set_recv_received. by exists s'.
Qed.

(** One readiness of the channel: the whole messages that have arrived are treated. *)
Lemma dispatch_client_read_stream (p : positive) (cs : list bytes) (b : bytes)
    (ms : list bytes) (rest : bytes) (w : W) :
  received p b w -> b ++ concat cs = stream ms ++ rest -> Forall ok ms -> partial rest ->
  Z.of_nat (length (stream ms ++ rest)) < 2 ^ 31 ->
  dispatch_client_read P p (reads_of cs) w
  = (fun w => (true, set_recv p rest w)) <$> messages on_message ms w.
Proof.
  intros Hrecv Heq Hms Hrest Hlen. unfold dispatch_client_read.
  rewrite (fill_reads p cs b w Hrecv), Heq. cbn [mbind outcome_bind].
  pose proof (set_recv_received p b (stream ms ++ rest) w Hrecv) as Hr.
  pose proof Hr as (s & Hs & Hb). rewrite Hs. cbn [mbind outcome_bind deref]. rewrite Hb.
  rewrite (read_loop_stream p _ ms rest _ Hr Hms Hrest Hlen) by lia.
  rewrite messages_recv. destruct (messages on_message ms w); [|done..].
  cbn [mbind outcome_bind fmap outcome_fmap]. by rewrite set_recv_set_recv.
Qed.

Lemma partial_stream (ms : list bytes) (rest : bytes) :
  Forall message_ok ms -> partial (stream ms ++ rest) -> ms = [].
Proof.
  intros Hms Hp. destruct ms as [|m ms]; [done|]. inversion_clear Hms as [|? ? Hm _].
  apply partial_not_ready in Hp. by rewrite stream_ready in Hp.
Qed.

(** The channel becomes ready any number of times. *)
Fixpoint feed (p : positive) (fills : list (list bytes)) (w : W) : outcome W :=
  match fills with
  | [] => Ret w
  | cs :: fills => '(_, w) ← dispatch_client_read P p (reads_of cs) w; feed p fills w
  end.

Lemma feed_stream (p : positive) (fills : list (list bytes)) : forall b ms rest w,
  received p b w -> partial b -> b ++ concat (concat fills) = stream ms ++ rest ->
  Forall ok ms -> partial rest -> Z.of_nat (length (stream ms ++ rest)) < 2 ^ 31 ->
  feed p fills w = set_recv p rest <$> messages on_message ms w.
Proof.
  assert (Hoks : forall l, Forall ok l -> Forall message_ok l).
  { intros l H. eapply Forall_impl; [exact H|]. intros m [Hm _]. exact Hm. }
  induction fills as [|cs fills IH]; intros b ms rest w Hrecv Hb Heq Hms Hrest Hlen.
  { cbn [concat] in Heq. rewrite app_nil_r in Heq. subst b.
    assert (ms = []) as -> by (eapply partial_stream; [by apply Hoks | exact Hb]).
    cbn [messages fmap outcome_fmap]. f_equal. symmetry. by apply set_recv_same. }
  cbn [feed]. cbn [concat] in Heq. rewrite concat_app, app_assoc in Heq.
  destruct (stream_split ms rest (b ++ concat cs) (concat (concat fills)))
    as (k & rest' & Hk & Hrest' & Htail); [auto|done|done|].
  rewrite (dispatch_client_read_stream p cs b (take k ms) rest' w); try done.
  2: { by apply Forall_take. }
  2: { rewrite <- Heq in Hlen. rewrite <- Hk. rewrite !length_app in *. lia. }
  rewrite <- (take_drop k ms) at 2. rewrite messages_app.
  destruct (messages on_message (take k ms) w) as [w1| | |] eqn:Hrun; [|done..].
  cbn [mbind outcome_bind fmap outcome_fmap].
  pose proof (messages_keeps p _ _ _ _ Hrun Hrecv) as Hrecv1.
  rewrite (IH rest' (drop k ms) rest); try done.
  - rewrite messages_recv. destruct (messages on_message (drop k ms) w1); [|done..].
    cbn [mbind outcome_bind fmap outcome_fmap]. by rewrite set_recv_set_recv.
  - by eapply set_recv_received.
  - by apply Forall_drop.
  - rewrite <- Htail. rewrite <- Heq, Hk in Hlen. rewrite !length_app in *. lia.
Qed.

(** Whole messages, in pieces. *)
Lemma feed_messages (p : positive) (fills : list (list bytes)) (ms : list bytes) (w : W) :
  received p [] w -> Forall ok ms -> concat (concat fills) = stream ms ->
  Z.of_nat (length (stream ms)) < 2 ^ 31 ->
  feed p fills w = messages on_message ms w.
Proof.
  intros Hrecv Hms Hbytes Hlen.
  rewrite (feed_stream p fills [] ms []); try done.
  - destruct (messages on_message ms w) as [w'| | |] eqn:Hw; [|done..].
    cbn [fmap outcome_fmap]. f_equal. apply set_recv_same. by eapply messages_keeps.
  - apply partial_nil.
  - by rewrite app_nil_l, app_nil_r.
  - apply partial_nil.
  - by rewrite app_nil_r.
Qed.

Lemma feed_one (p : positive) (fills : list (list bytes)) (m : bytes) (w : W) :
  received p [] w -> message_ok m -> readable m -> concat (concat fills) = frame m ->
  feed p fills w = on_message m w.
Proof.
  intros Hrecv Hm Hr Hbytes.
  assert (Hs : stream [m] = frame m) by (unfold stream; cbn; by rewrite app_nil_r).
  rewrite (feed_messages p fills [m]); try done.
  - cbn [messages]. by destruct (on_message m w).
  - by apply Forall_singleton.
  - by rewrite Hs.
  - rewrite Hs, frame_length. destruct Hm as (_ & _ & ?). lia.
Qed.

(** C4. How a stream is cut does not matter.  Whatever pieces the bytes of a
    sequence of messages arrive in, and however the pieces are spread over the times
    the channel is ready, the effect is that of treating each message once, alone and
    in order; the beginning of a message that is not complete stays in the buffer. *)
Theorem chunking_irrelevant (p : positive) (fills : list (list bytes)) (ms : list bytes)
    (rest : bytes) (w : W)
    (Hempty : received p [] w)
    (Hbytes : concat (concat fills) = stream ms ++ rest)
    (Hms : Forall ok ms) (Hrest : partial rest)
    (Hlen : Z.of_nat (length (stream ms ++ rest)) < 2 ^ 31) :
  feed p fills w = set_recv p rest <$> messages on_message ms w.
Proof. by apply (feed_stream p fills []); [|apply partial_nil|..]. Qed.

End protocol.

(** A protocol that notes the messages it gets. *)
Definition note_message (buffer : bytes) (offset len : Z) (w : list bytes * sockets)
  : outcome (list bytes * sockets) :=
  Ret (w.1 ++ [take (Z.to_nat len) (drop (Z.to_nat offset) buffer)], w.2).

Definition note_protocol : gzochid_client_protocol (list bytes * sockets) :=
  ClientProtocol (fun b _ => frame_ready b) (dispatch_frames note_message) Ret Ret.

#[export] Instance note_framed :
  FramedProtocol note_protocol note_message (fun m w => Ret (w.1 ++ [m], w.2)) (fun _ => True).
Proof.
  split; try done.
  - intros b w. apply frame_ready_decides.
  - intros m ms rest w Hm _. by apply stream_ready.
  - intros pre m post w _ _. unfold note_message. do 4 f_equal. unfold frame.
    replace (Z.to_nat (Z.of_nat (length pre) + 2)) with (length pre + 2)%nat by lia.
    rewrite <- drop_drop, drop_app_length, <- app_assoc.
    rewrite drop_app_length' by (by rewrite be_encode_length).
    by rewrite Nat2Z.id, take_app_length.
  - intros p b m w w' [= <-] Hw. exact Hw.
Qed.

Lemma chunking_irrelevant_witness :
  feed (P := note_protocol) 1%positive [[[0; 1]; []]; []; [[7; 5; 0; 0]; [8; 0]]]
    ([], {[1%positive := ClientSocket true [] [] [] (Some false) false 1]})
  = set_recv 1%positive [0]
    <$> messages (fun m w => Ret (w.1 ++ [m], w.2)) [[7; 5]; [8]]
          ([], {[1%positive := ClientSocket true [] [] [] (Some false) false 1]}).
Proof.
  apply chunking_irrelevant.
  - eexists. split; reflexivity.
  - reflexivity.
  - repeat constructor; try done; simpl; lia.
  - exists [0], [0; 0]. split_and!; [|reflexivity|done]. repeat constructor; try done; simpl; lia.
  - reflexivity.
Defined.
