(* ===== verification/MetaProtocol.v ===== *)
(** * The meta protocol (meta-protocol.h)

    The opcodes of the messages between the application nodes and the meta server,
    and what the relays' protocol files share: building a message that names an
    application and one or two objects, reading its fields, and dispatching on the
    opcode.  Lemmas say that the readers give back what the builders wrote and that
    they stay inside of the message, from which [FramedProtocol] follows for each
    protocol. *)

From S2P Require Import Prelude.
From S2P Require Import Io.
From S2P Require Import Util.
From S2P Require Import DataProtocol.
From S2P Require Import Socket.
From S2P Require Import Framing.

Local Open Scope Z_scope.

(** ** Opcodes *)

Definition GZOCHID_META_PROTOCOL_LOGIN := 16.
Definition GZOCHID_META_PROTOCOL_LOGIN_RESPONSE := 17.
Definition GZOCHID_DATA_PROTOCOL_REQUEST_OIDS := 32.
Definition GZOCHID_DATA_PROTOCOL_REQUEST_VALUE := 33.
Definition GZOCHID_DATA_PROTOCOL_REQUEST_NEXT_KEY := 34.
Definition GZOCHID_DATA_PROTOCOL_SUBMIT_CHANGESET := 48.
Definition GZOCHID_DATA_PROTOCOL_RELEASE_KEY := 64.
Definition GZOCHID_DATA_PROTOCOL_RELEASE_KEY_RANGE := 66.
Definition GZOCHID_DATA_PROTOCOL_OIDS_RESPONSE := 80.
Definition GZOCHID_DATA_PROTOCOL_VALUE_RESPONSE := 81.
Definition GZOCHID_DATA_PROTOCOL_NEXT_KEY_RESPONSE := 82.
Definition GZOCHID_SESSION_PROTOCOL_SESSION_CONNECTED := 96.
Definition GZOCHID_SESSION_PROTOCOL_SESSION_DISCONNECTED := 97.
Definition GZOCHID_SESSION_PROTOCOL_RELAY_DISCONNECT_FROM := 98.
Definition GZOCHID_SESSION_PROTOCOL_RELAY_DISCONNECT_TO := 99.
Definition GZOCHID_SESSION_PROTOCOL_RELAY_MESSAGE_FROM := 100.
Definition GZOCHID_SESSION_PROTOCOL_RELAY_MESSAGE_TO := 101.
Definition GZOCHID_CHANNEL_PROTOCOL_RELAY_JOIN_FROM := 112.
Definition GZOCHID_CHANNEL_PROTOCOL_RELAY_JOIN_TO := 113.
Definition GZOCHID_CHANNEL_PROTOCOL_RELAY_LEAVE_FROM := 114.
Definition GZOCHID_CHANNEL_PROTOCOL_RELAY_LEAVE_TO := 115.
Definition GZOCHID_CHANNEL_PROTOCOL_RELAY_MESSAGE_FROM := 116.
Definition GZOCHID_CHANNEL_PROTOCOL_RELAY_MESSAGE_TO := 117.
Definition GZOCHID_CHANNEL_PROTOCOL_RELAY_CLOSE_FROM := 118.
Definition GZOCHID_CHANNEL_PROTOCOL_RELAY_CLOSE_TO := 119.

(** ** Building messages in a buffer of known length

    [malloc]ed memory is zeroed here; every byte of it is overwritten. *)

Definition malloc (n : Z) : bytes := replicate (Z.to_nat n) 0.

(** [memcpy (buf + off, src, n)]. *)
Definition memcpy_to (buf : bytes) (off : Z) (src : bytes) (n : Z) : outcome bytes :=
  b ← memcpy_from src n; write_at buf off b.

(** The length prefix, the opcode and the name of the application with its
    terminator. *)
Definition message_header (total_len : Z) (opcode : Z) (app : bytes) (app_len : Z)
  : outcome bytes :=
  buf ← gzochi_common_io_write_short (s16 (total_len - 3)) (malloc total_len) 0;
  buf ← write_at buf 2 [opcode];
  memcpy_to buf 3 app (app_len + 1).

(** A message about one object. *)
Definition oid_message (opcode : Z) (app : bytes) (oid : Z) : outcome bytes :=
  app_len ← strlen app;
  let total_len := app_len + 12 in
  buf ← message_header total_len opcode app app_len;
  gzochi_common_io_write_long (s64 oid) buf (app_len + 4).

(** A message about two objects. *)
Definition oids_message (opcode : Z) (app : bytes) (oid1 oid2 : Z) : outcome bytes :=
  app_len ← strlen app;
  let total_len := app_len + 20 in
  buf ← message_header total_len opcode app app_len;
  buf ← gzochi_common_io_write_long (s64 oid1) buf (app_len + 4);
  gzochi_common_io_write_long (s64 oid2) buf (app_len + 12).

(** A message about an object, with a payload. *)
Definition payload_message (opcode : Z) (app : bytes) (oid : Z) (msg : bytes) : outcome bytes :=
  app_len ← strlen app;
  let msg_len := Z.of_nat (length msg) in
  let total_len := app_len + msg_len + 14 in
  buf ← message_header total_len opcode app app_len;
  buf ← gzochi_common_io_write_long (s64 oid) buf (app_len + 4);
  buf ← gzochi_common_io_write_short (s16 msg_len) buf (app_len + 12);
  memcpy_to buf (app_len + 14) msg msg_len.

(** ** Reading messages

    The application, the length of its name with the terminator and, if they are
    there, [n] bytes of object ids after it. *)
Definition read_app (message : bytes) (len : Z) (n : Z) : outcome (option (bytes * Z)) :=
  r ← gzochid_protocol_read_str message len;
  match r with
  | None => Ret None
  | Some (app, str_len) =>
      if (str_len <=? 1) || (u64 (len - str_len) <? n) then Ret None
      else Ret (Some (app, str_len))
  end.

(** An object id at an offset of the message. *)
Definition read_oid_at (message : bytes) (off : Z) : outcome Z :=
  oid ← gzochi_common_io_read_long message off; Ret (u64 oid).

(** A message that starts at the front of the memory: the opcode, then the payload,
    whose length is an [unsigned short]. *)
Definition dispatch_opcode {W} (f : Z -> bytes -> Z -> W -> outcome W)
    (message : bytes) (len : Z) (w : W) : outcome W :=
  opcode ← read_at message 0;
  f opcode (drop 1 message) (u16 (len - 1)) w.

(** ** Lemmas on builders *)

(** Arithmetic on the lengths of buffers. *)
Ltac len :=
  repeat (rewrite ?length_app, ?be_encode_length, ?length_replicate; cbn [length]); lia.

Lemma write_at_mid (pre old post new : bytes) (off : Z) :
  off = Z.of_nat (length pre) -> length old = length new ->
  write_at (pre ++ old ++ post) off new = Ret (pre ++ new ++ post).
Proof. intros -> Hlen. by apply write_at_app. Qed.

(** Buffers are written from the front: the part that is not yet written is zero. *)
Lemma fill_next (pre new : bytes) (n : nat) (off : Z) :
  off = Z.of_nat (length pre) -> (length new <= n)%nat ->
  write_at (pre ++ replicate n 0) off new = Ret ((pre ++ new) ++ replicate (n - length new) 0).
Proof.
  intros Hoff Hn. replace n with (length new + (n - length new))%nat at 1 by lia.
  rewrite replicate_add, (write_at_mid pre _ _ new) by (done || by rewrite length_replicate).
  by rewrite app_assoc.
Qed.

Lemma memcpy_from_all (bs : bytes) : memcpy_from bs (Z.of_nat (length bs)) = Ret bs.
Proof. rewrite <- (app_nil_r bs) at 1. apply memcpy_from_app. Qed.

Lemma message_header_ok (total : Z) (opcode : Z) (s : bytes) :
  nonzero s -> Z.of_nat (length s) + 4 <= total ->
  message_header total opcode (s ++ [0]) (Z.of_nat (length s))
  = Ret ((be_encode 2 (total - 3) ++ opcode :: s ++ [0])
         ++ replicate (Z.to_nat total - (length s + 4)) 0).
Proof.
  intros Hs Htotal. unfold message_header, malloc.
  rewrite (be_write (BigEndian := short_codec)).
  rewrite (be_encode_signed 2) by lia.
  rewrite <- (app_nil_l (replicate _ _)).
  rewrite (fill_next []) by len. run.
  rewrite be_encode_length. rewrite (fill_next _ [opcode])
    by len. run.
  unfold memcpy_to.
  replace (Z.of_nat (length s) + 1) with (Z.of_nat (length (s ++ [0])))
    by len.
  rewrite memcpy_from_all. run.
  rewrite fill_next by len.
  rewrite app_nil_l. do 3 f_equal. len.
Qed.

(** The end of a buffer is written. *)
Lemma fill_last (pre new : bytes) (n : nat) (off : Z) :
  off = Z.of_nat (length pre) -> length new = n ->
  write_at (pre ++ replicate n 0) off new = Ret (pre ++ new).
Proof.
  intros Hoff <-. rewrite fill_next by (done || lia).
  by rewrite Nat.sub_diag, app_nil_r.
Qed.

Lemma frame_prefix (z : Z) (m : bytes) :
  z = Z.of_nat (length m) - 1 -> be_encode 2 z ++ m = frame m.
Proof. by intros ->. Qed.

Ltac build_rest :=
  repeat (first
    [ rewrite (be_write (BigEndian := long_codec)), (be_encode_signed 8) by lia
    | rewrite (be_write (BigEndian := short_codec)), (be_encode_signed 2) by lia
    | progress unfold memcpy_to; rewrite memcpy_from_all];
    run; first [rewrite fill_last by len | rewrite fill_next by len; run]).

Lemma oid_message_ok (opcode : Z) (s : bytes) (oid : Z) :
  nonzero s ->
  oid_message opcode (s ++ [0]) oid = Ret (frame (opcode :: s ++ [0] ++ be_encode 8 oid)).
Proof.
  intros Hs. unfold oid_message. rewrite strlen_cstring by done. run.
  rewrite message_header_ok by (done || lia). run. build_rest.
  rewrite <- (frame_prefix (Z.of_nat (length s) + 12 - 3)) by len.
  f_equal. rewrite <- app_assoc. f_equal. cbn [app]. f_equal. by rewrite <- app_assoc.
Qed.

Lemma oids_message_ok (opcode : Z) (s : bytes) (oid1 oid2 : Z) :
  nonzero s ->
  oids_message opcode (s ++ [0]) oid1 oid2
  = Ret (frame (opcode :: s ++ [0] ++ be_encode 8 oid1 ++ be_encode 8 oid2)).
Proof.
  intros Hs. unfold oids_message. rewrite strlen_cstring by done. run.
  rewrite message_header_ok by (done || lia). run. build_rest.
  rewrite <- (frame_prefix (Z.of_nat (length s) + 20 - 3)) by len.
  f_equal. rewrite <- !app_assoc. f_equal. cbn [app]. f_equal. by rewrite <- !app_assoc.
Qed.

Lemma payload_message_ok (opcode : Z) (s : bytes) (oid : Z) (msg : bytes) :
  nonzero s ->
  payload_message opcode (s ++ [0]) oid msg
  = Ret (frame (opcode :: s ++ [0] ++ be_encode 8 oid
                 ++ be_encode 2 (Z.of_nat (length msg)) ++ msg)).
Proof.
  intros Hs. unfold payload_message. rewrite strlen_cstring by done. run.
  rewrite message_header_ok by (done || lia). run. build_rest.
  rewrite <- (frame_prefix (Z.of_nat (length s) + Z.of_nat (length msg) + 14 - 3)) by len.
  f_equal. rewrite <- !app_assoc. f_equal. cbn [app]. f_equal. by rewrite <- !app_assoc.
Qed.

(** ** Lemmas on readers *)

Lemma read_app_ok (s rest : bytes) (len n : Z) :
  nonzero s -> s <> [] -> 0 <= n -> Z.of_nat (length s) + 1 + n <= len < 2 ^ 64 ->
  read_app (s ++ [0] ++ rest) len n = Ret (Some (s ++ [0], Z.of_nat (length s) + 1)).
Proof.
  intros Hs Hne Hn Hlen. unfold read_app. cbn [app]. rewrite read_str_ok by (done || lia). run.
  destruct (Z.leb_spec (Z.of_nat (length s) + 1) 1) as [Hle|_]; [destruct s; simpl in Hle; [done|lia]|].
  rewrite u64_small by lia.
  destruct (Z.ltb_spec (len - (Z.of_nat (length s) + 1)) n); [lia|done].
Qed.

Lemma read_oid_ok (pre rest : bytes) (oid : Z) (off : Z) :
  off = Z.of_nat (length pre) -> in_unsigned 64 oid ->
  read_oid_at (pre ++ be_encode 8 oid ++ rest) off = Ret oid.
Proof.
  intros -> Hoid. unfold read_oid_at.
  rewrite (be_read (BigEndian := long_codec)) by apply be_encode_length. run. f_equal.
  rewrite unsigned_signed by lia. rewrite be_decode_encode.
  unfold unsigned. rewrite Zmod_mod. by apply unsigned_small.
Qed.

(** A reader that is given a length reads no further. *)
Lemma memchr0_local (m post : bytes) (n : nat) :
  (n <= length m)%nat -> memchr0 (m ++ post) n = memchr0 m n.
Proof.
  revert n. induction m as [|b m IH]; intros [|n] Hn; simpl in *; try done; [lia|].
  destruct (b =? 0); [done|]. by rewrite IH by lia.
Qed.

Lemma memchr0_bound (m : bytes) (n e : nat) : memchr0 m n = Ret (Some e) -> (e < n)%nat.
Proof.
  revert n e. induction m as [|b m IH]; intros [|n] e; simpl; try done.
  destruct (b =? 0); [intros [= <-]; lia|].
  destruct (memchr0 m n) as [[e'|]| | |] eqn:He; simpl; try done.
  intros [= <-]. apply IH in He. lia.
Qed.

Lemma read_str_local (m post : bytes) (len : Z) :
  len <= Z.of_nat (length m) ->
  gzochid_protocol_read_str (m ++ post) len = gzochid_protocol_read_str m len.
Proof.
  intros Hlen. unfold gzochid_protocol_read_str. rewrite memchr0_local by lia.
  destruct (memchr0 m (Z.to_nat len)) as [[e|]| | |] eqn:He; try done. simpl.
  apply memchr0_bound in He. by rewrite take_app_le by lia.
Qed.

Lemma read_str_bound (m : bytes) (len : Z) (s : bytes) (n : Z) :
  gzochid_protocol_read_str m len = Ret (Some (s, n)) -> 1 <= n <= len.
Proof.
  unfold gzochid_protocol_read_str. intros (r & Hr & H)%bind_Ret.
  destruct r as [e|]; [|done]. injection H as <- <-. apply memchr0_bound in Hr. lia.
Qed.

Lemma read_at_local (m post : bytes) (off : Z) :
  off < Z.of_nat (length m) -> read_at (m ++ post) off = read_at m off.
Proof.
  intros Hoff. unfold read_at. destruct (Z.ltb_spec off 0); [done|].
  by rewrite lookup_app_l by lia.
Qed.

Lemma read_long_local (m post : bytes) (off : Z) :
  off + 8 <= Z.of_nat (length m) ->
  gzochi_common_io_read_long (m ++ post) off = gzochi_common_io_read_long m off.
Proof. intros Hoff. unfold gzochi_common_io_read_long. by rewrite !read_at_local by lia. Qed.

Lemma read_short_local (m post : bytes) (off : Z) :
  off + 2 <= Z.of_nat (length m) ->
  gzochi_common_io_read_short (m ++ post) off = gzochi_common_io_read_short m off.
Proof. intros Hoff. unfold gzochi_common_io_read_short. by rewrite !read_at_local by lia. Qed.

Lemma memcpy_from_local (m post : bytes) (n : Z) :
  n <= Z.of_nat (length m) -> memcpy_from (m ++ post) n = memcpy_from m n.
Proof.
  intros Hn. unfold memcpy_from. rewrite length_app.
  rewrite (proj2 (Z.leb_le n (Z.of_nat (length m)))), (proj2 (Z.leb_le n _)) by lia.
  destruct (Z.leb_spec 0 n); [|done]. simpl. by rewrite take_app_le by lia.
Qed.

Lemma read_bytes_local (m post : bytes) (len : Z) :
  len <= Z.of_nat (length m) ->
  gzochid_protocol_read_bytes (m ++ post) len = gzochid_protocol_read_bytes m len.
Proof.
  intros Hlen. unfold gzochid_protocol_read_bytes.
  destruct (Z.ltb_spec len 2); [done|]. rewrite read_short_local by lia.
  destruct (gzochi_common_io_read_short m 0) as [prefix| | |]; try done. simpl.
  destruct (Z.ltb_spec (len - 2) (u64 prefix)); [done|].
  rewrite drop_app_le by lia. rewrite memcpy_from_local; [done|]. rewrite length_drop. lia.
Qed.

Lemma read_app_local (m post : bytes) (len n : Z) :
  len <= Z.of_nat (length m) -> read_app (m ++ post) len n = read_app m len n.
Proof. intros Hlen. unfold read_app. by rewrite read_str_local. Qed.

(** There is room for the ids after the name. *)
Lemma read_app_bound (m : bytes) (len n : Z) (app : bytes) (k : Z) :
  len < 2 ^ 64 -> read_app m len n = Ret (Some (app, k)) -> 1 < k /\ k + n <= len.
Proof.
  intros Hlen (r & Hr & H)%bind_Ret. destruct r as [[app' k']|]; [|done].
  pose proof (read_str_bound _ _ _ _ Hr) as Hk.
  destruct ((k' <=? 1) || (u64 (len - k') <? n)) eqn:Hc; [done|].
  injection H as <- <-. apply orb_false_iff in Hc as [H1%Z.leb_gt H2%Z.ltb_ge].
  rewrite u64_small in H2 by lia. lia.
Qed.

Lemma read_oid_at_local (m post : bytes) (off : Z) :
  off + 8 <= Z.of_nat (length m) -> read_oid_at (m ++ post) off = read_oid_at m off.
Proof. intros Hoff. unfold read_oid_at. by rewrite read_long_local. Qed.

(** ** Protocols that dispatch on the opcode

    A treatment of payloads that is the same whatever follows the payload makes a
    treatment of messages for [FramedProtocol]. *)

Definition local_payload {W} (f : Z -> bytes -> Z -> W -> outcome W)
    (readable : bytes -> Prop) : Prop :=
  forall opcode payload post w,
    readable (opcode :: payload) -> Z.of_nat (length payload) < 2 ^ 16 - 1 ->
    f opcode (payload ++ post) (Z.of_nat (length payload)) w
    = f opcode payload (Z.of_nat (length payload)) w.

Lemma dispatch_opcode_cons {W} (f : Z -> bytes -> Z -> W -> outcome W) opcode payload w :
  Z.of_nat (length payload) < 2 ^ 16 - 1 ->
  dispatch_opcode f (opcode :: payload) (Z.of_nat (length (opcode :: payload))) w
  = f opcode payload (Z.of_nat (length payload)) w.
Proof.
  intros Hlen. unfold dispatch_opcode.
  change (read_at (opcode :: payload) 0) with (Ret opcode). run.
  cbn [drop]. f_equal. rewrite unsigned_small; cbn [length]; [lia|]. unfold in_unsigned. lia.
Qed.

Lemma dispatch_opcode_local {W} (f : Z -> bytes -> Z -> W -> outcome W) readable pre m post w :
  local_payload f readable -> message_ok m -> readable m ->
  dispatch_opcode f (drop (Z.to_nat (Z.of_nat (length pre) + 2)) (pre ++ frame m ++ post))
    (Z.of_nat (length m)) w
  = dispatch_opcode f m (Z.of_nat (length m)) w.
Proof.
  intros Hlocal (Hok & H1 & H2) Hr.
  replace (Z.to_nat (Z.of_nat (length pre) + 2)) with (length pre + 2)%nat by lia.
  rewrite <- drop_drop, drop_app_length. unfold frame. rewrite <- app_assoc.
  rewrite drop_app_length' by (by rewrite be_encode_length).
  destruct m as [|opcode payload]; [simpl in H1; lia|].
  rewrite dispatch_opcode_cons by (cbn [length] in H2; lia).
  unfold dispatch_opcode. cbn [app]. change (read_at (opcode :: payload ++ post) 0) with (Ret opcode).
  run. cbn [drop]. rewrite unsigned_small by (unfold in_unsigned; cbn [length] in *; lia).
  replace (Z.of_nat (length (opcode :: payload)) - 1) with (Z.of_nat (length payload))
    by (cbn [length]; lia).
  apply Hlocal; [done|]. cbn [length] in H2. lia.
Qed.

Lemma dispatch_opcode_blind {W} `{HasSockets W} (f : Z -> bytes -> Z -> W -> outcome W) m len :
  (forall opcode payload len, blind (f opcode payload len)) -> blind (dispatch_opcode f m len).
Proof.
  intros Hf. unfold dispatch_opcode. by apply (blind_bind (read_at m 0) (fun opcode w =>
    f opcode (drop 1 m) (u16 (len - 1)) w)).
Qed.

(** A protocol that treats payloads locally and blindly implements the interface. *)
Lemma framed_by_opcode {W} `{HasSockets W} (P : gzochid_client_protocol W)
    (f : Z -> bytes -> Z -> W -> outcome W) (readable : bytes -> Prop) :
  (forall b w, protocol_can_dispatch P b w = frame_ready b) ->
  (forall b w, protocol_dispatch P b w
    = dispatch_frames (fun buffer offset => dispatch_opcode f (drop (Z.to_nat offset) buffer)) b w) ->
  local_payload f readable ->
  (forall opcode payload len, blind (f opcode payload len)) ->
  FramedProtocol P (fun buffer offset => dispatch_opcode f (drop (Z.to_nat offset) buffer))
    (fun m => dispatch_opcode f m (Z.of_nat (length m))) readable.
Proof.
  intros Hready Hdispatch Hlocal Hblind. split; [| |done| | |].
  - intros b w. rewrite Hready. apply frame_ready_decides.
  - intros m ms rest w Hm _. rewrite Hready. by apply stream_ready.
  - intros pre m post w Hm Hr. by eapply dispatch_opcode_local.
  - intros p b m w. by apply dispatch_opcode_blind.
  - intros p b m w w'. by apply dispatch_opcode_blind.
Qed.

(** The branch of an opcode. *)
Ltac choose_branch := repeat match goal with
  |- context [if ?a =? ?b then _ else _] =>
    let r := eval vm_compute in (a =? b) in change (a =? b) with r; cbv iota end.

(** ** Reading what was built

    The payloads of the three kinds of messages. *)

Definition oid_payload (a : bytes) (oid : Z) : bytes := a ++ [0] ++ be_encode 8 oid.
Definition oids_payload (a : bytes) (oid1 oid2 : Z) : bytes :=
  a ++ [0] ++ be_encode 8 oid1 ++ be_encode 8 oid2.
Definition bytes_payload (a : bytes) (oid : Z) (msg : bytes) : bytes :=
  a ++ [0] ++ be_encode 8 oid ++ be_encode 2 (Z.of_nat (length msg)) ++ msg.

(** Names of applications, and sizes that fit a frame. *)
Record sendable (a : bytes) (payload : bytes) : Prop := {
  sendable_name : nonzero a /\ bytes_ok a /\ a <> [];
  sendable_bytes : bytes_ok payload;
  sendable_size : Z.of_nat (length payload) < 2 ^ 16 - 1
}.

Lemma sendable_message (opcode : Z) (a payload : bytes) :
  byte_ok opcode -> sendable a payload -> message_ok (opcode :: payload).
Proof.
  intros Hop [_ Hb Hsize]. split; [by constructor|]. cbn [length]. lia.
Qed.

Section read_payload.

Variables (a : bytes) (oid : Z).
Hypothesis Hname : nonzero a /\ bytes_ok a /\ a <> [].
Hypothesis Hoid : in_unsigned 64 oid.

Lemma read_name (n : Z) (rest : bytes) :
  0 <= n -> n <= Z.of_nat (length rest) ->
  Z.of_nat (length (a ++ [0] ++ rest)) < 2 ^ 16 ->
  read_app (a ++ [0] ++ rest) (Z.of_nat (length (a ++ [0] ++ rest))) n
  = Ret (Some (a ++ [0], Z.of_nat (length a) + 1)).
Proof.
  destruct Hname as (Hnz & _ & Hne). intros Hn Hrest Hlen.
  apply read_app_ok; [done|done|done|]. rewrite !length_app in *. cbn [length] in *. lia.
Qed.

Lemma read_first_oid (rest : bytes) :
  read_oid_at (a ++ [0] ++ be_encode 8 oid ++ rest) (Z.of_nat (length a) + 1) = Ret oid.
Proof.
  rewrite (app_assoc a [0]). apply read_oid_ok; [|done]. rewrite length_app. cbn [length]. lia.
Qed.

Lemma read_only_oid : read_oid_at (oid_payload a oid) (Z.of_nat (length a) + 1) = Ret oid.
Proof. rewrite <- (read_first_oid []), app_nil_r. done. Qed.

Lemma read_oids_oid (oid2 : Z) :
  read_oid_at (oids_payload a oid oid2) (Z.of_nat (length a) + 1) = Ret oid.
Proof. apply read_first_oid. Qed.

Lemma read_bytes_oid (msg : bytes) :
  read_oid_at (bytes_payload a oid msg) (Z.of_nat (length a) + 1) = Ret oid.
Proof. apply read_first_oid. Qed.

Lemma read_second_oid (oid1 : Z) :
  read_oid_at (oids_payload a oid1 oid) (Z.of_nat (length a) + 1 + 8) = Ret oid.
Proof.
  unfold oids_payload. rewrite <- (app_nil_r (be_encode 8 oid)), !app_assoc, <- app_assoc.
  apply read_oid_ok; [|done]. len.
Qed.

Lemma read_msg (msg : bytes) :
  Z.of_nat (length msg) < 2 ^ 15 -> Z.of_nat (length (bytes_payload a oid msg)) < 2 ^ 16 ->
  gzochid_protocol_read_bytes
    (drop (Z.to_nat (Z.of_nat (length a) + 1 + 8)) (bytes_payload a oid msg))
    (u64 (Z.of_nat (length (bytes_payload a oid msg)) - (Z.of_nat (length a) + 1) - 8))
  = Ret (Some msg).
Proof.
  intros Hmsg Hlen.
  assert (Hsize : Z.of_nat (length (bytes_payload a oid msg))
    = Z.of_nat (length a) + 1 + 8 + 2 + Z.of_nat (length msg)) by (unfold bytes_payload; len).
  rewrite u64_small by lia. unfold bytes_payload at 1.
  rewrite (app_assoc a [0]), (app_assoc (a ++ [0])).
  rewrite drop_app_length' by len.
  pose proof (read_bytes_ok msg [] (Z.of_nat (length (bytes_payload a oid msg))
    - (Z.of_nat (length a) + 1) - 8) Hmsg) as H.
  rewrite app_nil_r, (be_encode_signed 2) in H by lia. apply H. lia.
Qed.

End read_payload.

(** The bytes of a payload are bytes. *)
Ltac payload_bytes := unfold bytes_ok in *; rewrite !Forall_app; split_and!;
  solve [done | apply be_encode_ok | repeat constructor; done].

Lemma oid_payload_ok (a : bytes) (oid : Z) :
  nonzero a -> bytes_ok a -> a <> [] -> Z.of_nat (length a) < 2 ^ 15 ->
  sendable a (oid_payload a oid).
Proof.
  intros Ha Hb Hne Hlen. unfold oid_payload. split; [done|payload_bytes|].
  rewrite !length_app, be_encode_length. cbn [length]. lia.
Qed.

Lemma oids_payload_ok (a : bytes) (oid1 oid2 : Z) :
  nonzero a -> bytes_ok a -> a <> [] -> Z.of_nat (length a) < 2 ^ 15 ->
  sendable a (oids_payload a oid1 oid2).
Proof.
  intros Ha Hb Hne Hlen. unfold oids_payload. split; [done|payload_bytes|].
  rewrite !length_app, !be_encode_length. cbn [length]. lia.
Qed.

Lemma bytes_payload_ok (a : bytes) (oid : Z) (msg : bytes) :
  nonzero a -> bytes_ok a -> a <> [] -> bytes_ok msg ->
  Z.of_nat (length a) + Z.of_nat (length msg) < 2 ^ 15 ->
  sendable a (bytes_payload a oid msg).
Proof.
  intros Ha Hb Hne Hm Hlen. unfold bytes_payload. split; [done|payload_bytes|].
  rewrite !length_app, !be_encode_length. cbn [length]. lia.
Qed.

Lemma sendable_length (a payload : bytes) :
  sendable a payload -> Z.of_nat (length payload) < 2 ^ 16.
Proof. intros [_ _ H]. lia. Qed.
