(* ===== verification/Routing.v ===== *)
(** * Routing to component protocols (metaserver-protocol.c, metaclient-protocol.c)

    The protocols at the two ends of the connection between a node and the meta server
    are routers: they treat log ins themselves and give every other message to the
    protocol of the component that it belongs to.  [Component] is the interface of a part
    of a larger state that a protocol works on; [delegate] is the branch that both routers
    repeat.  The lemmas lift what [FramedProtocol] says of the protocol of a component to
    the router. *)

From S2P Require Import Prelude.
From S2P Require Import Io.
From S2P Require Import Util.
From S2P Require Import DataProtocol.
From S2P Require Import Socket.
From S2P Require Import Framing.
From S2P Require Import MetaProtocol.

Local Open Scope Z_scope.

(** ** Parts of a state

    A part has the sockets of the whole and something of its own. *)

Class Component (W V : Type) `{HasSockets W} `{HasSockets V} := {
  part : W -> V;
  set_part : V -> W -> W;
  part_set : forall v w, part (set_part v w) = v;
  part_sockets : forall t w, part (set_sockets t w) = set_sockets t (part w);
  set_part_sockets : forall v t w, set_part v (set_sockets t w) = set_part v w;
  set_sockets_part : forall t v w, set_sockets t (set_part v w) = set_part (set_sockets t v) w;
  sockets_of_part : forall w, sockets_of (part w) = sockets_of w
}.

Section component.

Context {W V : Type} {HW : HasSockets W} {HV : HasSockets V} {C : Component W V}.

(** What a component does to its part. *)
Definition on_part (f : V -> outcome V) (w : W) : outcome W :=
  v ← f (part w); Ret (set_part v w).

Lemma sockets_of_set_part (v : V) (w : W) : sockets_of (set_part v w) = sockets_of v.
Proof. by rewrite <- sockets_of_part, part_set. Qed.

Lemma part_recv p b (w : W) : part (set_recv p b w) = set_recv p b (part w).
Proof. unfold set_recv. by rewrite part_sockets, sockets_of_part. Qed.

Lemma set_part_recv p b (v : V) (w : W) :
  set_part (set_recv p b v) (set_recv p b w) = set_recv p b (set_part v w).
Proof. unfold set_recv. by rewrite set_part_sockets, set_sockets_part, sockets_of_set_part. Qed.

Lemma blind_on_part (f : V -> outcome V) : blind f -> blind (on_part f).
Proof.
  intros [Hf1 Hf2]. split.
  - intros p b w. unfold on_part. rewrite part_recv, Hf1.
    destruct (f (part w)); [|done..]. cbn. by rewrite set_part_recv.
  - intros p b w w' (v & Hv & [= <-])%bind_Ret Hw. unfold received in *.
    rewrite sockets_of_set_part. apply (Hf2 p b _ _ Hv). unfold received.
    by rewrite sockets_of_part.
Qed.

(** ** Delegation

    A message is copied with its length to a buffer of its own, which is dispatched. *)

Definition delegate (dispatch : bytes -> V -> outcome (Z * V)) (buffer : bytes) (offset len : Z)
  (w : W) : outcome W :=
  delegate_buffer ← byte_array_append [] (drop (Z.to_nat (offset - 2)) buffer) (len + 2);
  on_part (fun v => '(_, v) ← dispatch delegate_buffer v; Ret v) w.

Context {P : gzochid_client_protocol V} {handle : bytes -> Z -> Z -> V -> outcome V}.
Context {on_message : bytes -> V -> outcome V} {readable : bytes -> Prop}.
Context {FP : FramedProtocol P handle on_message readable}.

Lemma dispatch_frame (m : bytes) (v : V) :
  message_ok m -> readable m ->
  (r ← protocol_dispatch P (frame m) v; let '(_, v) := r in Ret v) = on_message m v.
Proof.
  intros Hm Hr. rewrite framed_dispatch. unfold dispatch_frames.
  pose proof Hm as (_ & _ & Hlen).
  rewrite signed_small by
    (done || (unfold in_signed; rewrite frame_length; change (32 - 1) with 31; lia)).
  pose proof (dispatch_loop_stream [m] (S (length (frame m))) [] [] 0 v) as Hd.
  assert (Hs : stream [m] ++ [] = frame m) by (unfold stream; cbn; by rewrite !app_nil_r).
  rewrite Hs in Hd. cbn [app length] in Hd. change (Z.of_nat 0) with 0 in Hd. rewrite Hd.
  - cbn [messages]. by destruct (on_message m v).
  - by apply Forall_singleton.
  - apply partial_nil.
  - rewrite frame_length. lia.
Qed.

(** In a buffer, delegating a message is what the component does with it alone. *)
Lemma delegate_message (pre m post : bytes) (w : W) :
  message_ok m -> readable m ->
  delegate (protocol_dispatch P) (pre ++ frame m ++ post) (Z.of_nat (length pre) + 2)
    (Z.of_nat (length m)) w
  = on_part (on_message m) w.
Proof.
  intros Hm Hr. unfold delegate.
  replace (Z.to_nat (Z.of_nat (length pre) + 2 - 2)) with (length pre) by lia.
  rewrite drop_app_length. unfold byte_array_append.
  replace (Z.of_nat (length m) + 2) with (Z.of_nat (length (frame m))) by (rewrite frame_length; lia).
  rewrite length_app, (proj2 (Z.leb_le 0 _)), (proj2 (Z.leb_le (Z.of_nat (length (frame m))) _)) by lia.
  cbn [andb app mbind outcome_bind]. rewrite Nat2Z.id, take_app_length. unfold on_part.
  by rewrite dispatch_frame.
Qed.

Lemma blind_message (m : bytes) : blind (on_message m).
Proof. split; [intros; apply message_recv|intros; by eapply message_keeps]. Qed.

Lemma blind_delegated (m : bytes) : blind (on_part (on_message m)).
Proof. apply blind_on_part, blind_message. Qed.

End component.

(** ** The opcode in a buffer *)

Lemma read_opcode (pre post payload : bytes) (opcode : Z) :
  read_at (pre ++ frame (opcode :: payload) ++ post) (Z.of_nat (length pre) + 2) = Ret opcode.
Proof.
  unfold frame. rewrite <- (app_assoc (be_encode 2 _)), (app_assoc pre).
  replace (Z.of_nat (length pre) + 2)
    with (Z.of_nat (length (pre ++ be_encode 2 (Z.of_nat (length (opcode :: payload)) - 1))))
    by (rewrite length_app, be_encode_length; lia).
  unfold read_at. rewrite (proj2 (Z.ltb_ge _ 0)) by lia. rewrite Nat2Z.id, lookup_app_r by lia.
  by rewrite Nat.sub_diag.
Qed.

Lemma drop_opcode (pre post payload : bytes) (opcode : Z) :
  drop (Z.to_nat (Z.of_nat (length pre) + 2 + 1)) (pre ++ frame (opcode :: payload) ++ post)
  = payload ++ post.
Proof.
  replace (Z.to_nat (Z.of_nat (length pre) + 2 + 1)) with (length pre + (2 + 1))%nat by lia.
  rewrite <- drop_drop, drop_app_length. unfold frame. rewrite <- app_assoc.
  by rewrite <- drop_drop, drop_app_length' by (by rewrite be_encode_length).
Qed.
