(* ===== verification/SessionServer.v ===== *)
(** * The session server of the meta server (sessionserver.c, sessionserver-protocol.c)

    The session server knows which application node each session is connected to, and
    relays messages and disconnections to sessions of other nodes.  Its state is the
    node map and the table of the connected nodes' sockets; events that it dispatches
    are appended to a list.  A C string is its bytes with the terminator.  The
    protocol's client is the node's id. *)

From S2P Require Import Prelude.
From S2P Require Import Io.
From S2P Require Import Util.
From S2P Require Import DataProtocol.
From S2P Require Import NodeMap.
From S2P Require Import Socket.
From S2P Require Import Framing.
From S2P Require Import MetaProtocol.

Local Open Scope Z_scope.

(** ** State *)

Inductive session_event :=
| SESSION_CONNECTED (node_id : Z) (app : bytes)
| SESSION_DISCONNECTED (node_id : Z) (app : bytes).

Record GzochiMetadSessionServer := SessionServer {
  nodemap : gzochi_metad_nodemap_mem;
  connected_servers : gmap Z positive;
  event_source : list session_event
}.

Inductive sessionserver_error := ALREADY_CONNECTED | NOT_CONNECTED.

Definition gzochi_metad_session_server_init : GzochiMetadSessionServer :=
  SessionServer gzochi_metad_nodemap_mem_new ∅ [].

Definition with_nodemap (m : gzochi_metad_nodemap_mem) (s : GzochiMetadSessionServer) :=
  SessionServer m (connected_servers s) (event_source s).
Definition with_servers (c : gmap Z positive) (s : GzochiMetadSessionServer) :=
  SessionServer (nodemap s) c (event_source s).
Definition dispatch_event (e : session_event) (s : GzochiMetadSessionServer) :=
  SessionServer (nodemap s) (connected_servers s) (event_source s ++ [e]).

(** The key of the node map, whose names have no terminator. *)
Definition session_key (app : bytes) (session_id : Z) : outcome nodemap_qualified_key :=
  n ← strlen app; Ret (QualifiedKey (take (Z.to_nat n) app) session_id).

(** ** Operations *)

Definition gzochi_metad_sessionserver_server_connected (node_id : Z) (sock : positive)
    (s : GzochiMetadSessionServer) : option sessionserver_error * GzochiMetadSessionServer :=
  match connected_servers s !! node_id with
  | Some _ => (Some ALREADY_CONNECTED, s)
  | None => (None, with_servers (<[node_id := sock]> (connected_servers s)) s)
  end.

Definition gzochi_metad_sessionserver_server_disconnected (node_id : Z)
    (s : GzochiMetadSessionServer) : option sessionserver_error * GzochiMetadSessionServer :=
  match connected_servers s !! node_id with
  | Some _ =>
      let s := with_nodemap (unmap_all (nodemap s) node_id) s in
      (None, with_servers (base.delete node_id (connected_servers s)) s)
  | None => (Some NOT_CONNECTED, s)
  end.

Definition propagate_nodemap_error (nodemap_err : nodemap_error) : sessionserver_error :=
  match nodemap_err with
  | ALREADY_MAPPED => ALREADY_CONNECTED
  | NOT_MAPPED => NOT_CONNECTED
  end.

Definition gzochi_metad_sessionserver_session_connected (node_id : Z) (app : bytes)
    (session_id : Z) (s : GzochiMetadSessionServer)
  : outcome (option sessionserver_error * GzochiMetadSessionServer) :=
  match connected_servers s !! node_id with
  | Some _ =>
      k ← session_key app session_id;
      let '(tmp_err, m) := map_session (nodemap s) k node_id in
      let s := with_nodemap m s in
      match tmp_err with
      | Some e => Ret (Some (propagate_nodemap_error e), s)
      | None => Ret (None, dispatch_event (SESSION_CONNECTED node_id app) s)
      end
  | None => Ret (Some NOT_CONNECTED, s)
  end.

Definition gzochi_metad_sessionserver_session_disconnected (app : bytes) (session_id : Z)
    (s : GzochiMetadSessionServer)
  : outcome (option sessionserver_error * GzochiMetadSessionServer) :=
  k ← session_key app session_id;
  match lookup_session (nodemap s) k with
  | (node_id, None) =>
      '(tmp_err, m) ← unmap_session (nodemap s) k;
      let s := with_nodemap m s in
      match tmp_err with
      | Some e => Ret (Some (propagate_nodemap_error e), s)
      | None => Ret (None, dispatch_event (SESSION_DISCONNECTED node_id app) s)
      end
  | (_, Some e) => Ret (Some (propagate_nodemap_error e), s)
  end.

(** Sessions are found by the node map, their nodes' sockets by the table. *)
Definition gzochi_metad_sessionserver_relay_disconnect (app : bytes) (session_id : Z)
    (s : GzochiMetadSessionServer) (t : sockets)
  : outcome (option sessionserver_error * sockets) :=
  k ← session_key app session_id;
  match lookup_session (nodemap s) k with
  | (node_id, None) =>
      match connected_servers s !! node_id with
      | Some sock =>
          buf ← oid_message GZOCHID_SESSION_PROTOCOL_RELAY_DISCONNECT_TO app session_id;
          t ← gzochid_client_socket_write sock buf (Z.of_nat (length buf)) t;
          Ret (None, t)
      | None => Ret (Some NOT_CONNECTED, t)
      end
  | (_, Some e) => Ret (Some (propagate_nodemap_error e), t)
  end.

Definition gzochi_metad_sessionserver_relay_message (app : bytes) (session_id : Z)
    (msg : bytes) (s : GzochiMetadSessionServer) (t : sockets)
  : outcome (option sessionserver_error * sockets) :=
  k ← session_key app session_id;
  match lookup_session (nodemap s) k with
  | (node_id, None) =>
      match connected_servers s !! node_id with
      | Some sock =>
          buf ← payload_message GZOCHID_SESSION_PROTOCOL_RELAY_MESSAGE_TO app session_id msg;
          t ← gzochid_client_socket_write sock buf (Z.of_nat (length buf)) t;
          Ret (None, t)
      | None => Ret (Some NOT_CONNECTED, t)
      end
  | (_, Some e) => Ret (Some (propagate_nodemap_error e), t)
  end.

(** ** The protocol

    Errors of the operations are only logged.  The node id is an unsigned field that
    is passed as an [int]. *)

Abbreviation world := (GzochiMetadSessionServer * sockets)%type.

Definition dispatch_session_connected (client : Z) (message : bytes) (len : Z) (w : world)
  : outcome world :=
  r ← read_app message len 8;
  match r with
  | None => Ret w
  | Some (app, str_len) =>
      session_id ← read_oid_at message str_len;
      '(_, s) ← gzochi_metad_sessionserver_session_connected (s32 client) app session_id w.1;
      Ret (s, w.2)
  end.

Definition dispatch_session_disconnected (message : bytes) (len : Z) (w : world)
  : outcome world :=
  r ← read_app message len 8;
  match r with
  | None => Ret w
  | Some (app, str_len) =>
      session_id ← read_oid_at message str_len;
      '(_, s) ← gzochi_metad_sessionserver_session_disconnected app session_id w.1;
      Ret (s, w.2)
  end.

Definition dispatch_relay_disconnect (message : bytes) (len : Z) (w : world) : outcome world :=
  r ← read_app message len 8;
  match r with
  | None => Ret w
  | Some (app, str_len) =>
      session_id ← read_oid_at message str_len;
      '(_, t) ← gzochi_metad_sessionserver_relay_disconnect app session_id w.1 w.2;
      Ret (w.1, t)
  end.

Definition dispatch_relay_message (message : bytes) (len : Z) (w : world) : outcome world :=
  r ← read_app message len 8;
  match r with
  | None => Ret w
  | Some (app, str_len) =>
      session_id ← read_oid_at message str_len;
      msg ← gzochid_protocol_read_bytes (drop (Z.to_nat (str_len + 8)) message)
              (u64 (len - str_len - 8));
      match msg with
      | None => Ret w
      | Some msg =>
          '(_, t) ← gzochi_metad_sessionserver_relay_message app session_id msg w.1 w.2;
          Ret (w.1, t)
      end
  end.

Definition dispatch_payload (client : Z) (opcode : Z) (payload : bytes) (len : Z) (w : world)
  : outcome world :=
  if opcode =? GZOCHID_SESSION_PROTOCOL_SESSION_CONNECTED
  then dispatch_session_connected client payload len w
  else if opcode =? GZOCHID_SESSION_PROTOCOL_SESSION_DISCONNECTED
  then dispatch_session_disconnected payload len w
  else if opcode =? GZOCHID_SESSION_PROTOCOL_RELAY_DISCONNECT_FROM
  then dispatch_relay_disconnect payload len w
  else if opcode =? GZOCHID_SESSION_PROTOCOL_RELAY_MESSAGE_FROM
  then dispatch_relay_message payload len w
  else Ret w.

Definition dispatch_message (client : Z) : bytes -> Z -> world -> outcome world :=
  dispatch_opcode (dispatch_payload client).

Definition can_dispatch (buffer : bytes) (w : world) : outcome bool := frame_ready buffer.

Definition client_dispatch (client : Z) (buffer : bytes) (w : world) : outcome (Z * world) :=
  dispatch_frames (fun buffer offset => dispatch_message client (drop (Z.to_nat offset) buffer))
    buffer w.

Definition client_error (client : Z) (w : world) : outcome world :=
  let '(_, s) := gzochi_metad_sessionserver_server_disconnected (s32 client) w.1 in
  Ret (s, w.2).

Definition gzochi_metad_sessionserver_client_protocol (client : Z)
  : gzochid_client_protocol world :=
  ClientProtocol can_dispatch (client_dispatch client) (client_error client) Ret.

(** ** The protocol keeps to its messages *)

Lemma relay_disconnect_blind (app : bytes) (id : Z) (s : GzochiMetadSessionServer) :
  blind_with (gzochi_metad_sessionserver_relay_disconnect app id s).
Proof.
  unfold gzochi_metad_sessionserver_relay_disconnect.
  apply blind_with_bind. intros k.
  destruct (lookup_session (nodemap s) k) as [n [e|]]; [auto with blind|].
  destruct (connected_servers s !! n); auto with blind.
Qed.

Lemma relay_message_blind (app : bytes) (id : Z) (msg : bytes) (s : GzochiMetadSessionServer) :
  blind_with (gzochi_metad_sessionserver_relay_message app id msg s).
Proof.
  unfold gzochi_metad_sessionserver_relay_message.
  apply blind_with_bind. intros k.
  destruct (lookup_session (nodemap s) k) as [n [e|]]; [auto with blind|].
  destruct (connected_servers s !! n); auto with blind.
Qed.

#[local] Hint Resolve relay_disconnect_blind relay_message_blind : blind.

Lemma sessionserver_dispatch_blind (client opcode : Z) (payload : bytes) (len : Z) :
  blind (dispatch_payload client opcode payload len).
Proof.
  unfold dispatch_payload.
  destruct (opcode =? _); [|destruct (opcode =? _); [|destruct (opcode =? _);
    [|destruct (opcode =? _); [|apply blind_ret]]]];
    (apply blind_bind; intros [[app str_len]|]; [|apply blind_ret]);
    apply blind_bind; intros id.
  - apply (blind_fst (gzochi_metad_sessionserver_session_connected (s32 client) app id)).
  - apply (blind_fst (gzochi_metad_sessionserver_session_disconnected app id)).
  - apply (blind_snd (gzochi_metad_sessionserver_relay_disconnect app id)). auto with blind.
  - apply blind_bind. intros [msg|]; [|apply blind_ret].
    apply (blind_snd (gzochi_metad_sessionserver_relay_message app id msg)). auto with blind.
Qed.

Lemma sessionserver_dispatch_local (client : Z) : local_payload (dispatch_payload client) (fun _ => True).
Proof.
  intros opcode payload post w _ Hlen. unfold dispatch_payload,
    dispatch_session_connected, dispatch_session_disconnected, dispatch_relay_disconnect,
    dispatch_relay_message.
  rewrite read_app_local by lia.
  destruct (read_app payload (Z.of_nat (length payload)) 8) as [[[app k]|]| | |] eqn:Hr;
    [|done..].
  apply read_app_bound in Hr as [Hk1 Hk2]; [|lia].
  cbn [mbind outcome_bind]. rewrite read_oid_at_local by lia.
  rewrite drop_app_le by lia. rewrite read_bytes_local; [done|].
  rewrite length_drop, u64_small by lia. lia.
Qed.

#[export] Instance sessionserver_framed (client : Z) :
  FramedProtocol (gzochi_metad_sessionserver_client_protocol client)
    (fun buffer offset => dispatch_message client (drop (Z.to_nat offset) buffer))
    (fun m => dispatch_message client m (Z.of_nat (length m))) (fun _ => True).
Proof. apply framed_by_opcode; [done|done|apply sessionserver_dispatch_local|apply sessionserver_dispatch_blind]. Qed.

(** ** The sessions' nodes are connected *)

(** What may happen to the session server. *)
Inductive session_step : GzochiMetadSessionServer -> GzochiMetadSessionServer -> Prop :=
| StepServerConnected s node_id sock e s' :
    gzochi_metad_sessionserver_server_connected node_id sock s = (e, s') -> session_step s s'
| StepServerDisconnected s node_id e s' :
    gzochi_metad_sessionserver_server_disconnected node_id s = (e, s') -> session_step s s'
| StepSessionConnected s node_id app id e s' :
    0 <= id < 2 ^ 31 ->
    gzochi_metad_sessionserver_session_connected node_id app id s = Ret (e, s') ->
    session_step s s'
| StepSessionDisconnected s app id e s' :
    0 <= id < 2 ^ 31 ->
    gzochi_metad_sessionserver_session_disconnected app id s = Ret (e, s') ->
    session_step s s'.

Definition session_reachable (s : GzochiMetadSessionServer) : Prop :=
  rtc session_step gzochi_metad_session_server_init s.

Record session_inv (s : GzochiMetadSessionServer) : Prop := {
  inv_nodemap : nodemap_inv (nodemap s);
  inv_connected : forall k n,
    session_to_node (nodemap s) !! k = Some n -> is_Some (connected_servers s !! n)
}.

Lemma session_key_id (app : bytes) (id : Z) (k : nodemap_qualified_key) :
  session_key app id = Ret k -> session_id k = id.
Proof. intros (n & _ & [= <-])%bind_Ret. done. Qed.

Lemma session_step_inv (s s' : GzochiMetadSessionServer) :
  session_step s s' -> session_inv s -> session_inv s'.
Proof.
  intros Hstep [Hm Hc]. destruct Hstep as [s n sock e s' H|s n e s' H|s n app id e s' Hid H|s app id e s' Hid H].
  - unfold gzochi_metad_sessionserver_server_connected in H.
    case_match; simplify_eq; [done|]. split; [done|]. simpl. intros k n' Hk.
    destruct (decide (n = n')) as [->|]; [by rewrite lookup_insert_eq|].
    rewrite lookup_insert_ne by done. by eapply Hc.
  - unfold gzochi_metad_sessionserver_server_disconnected in H.
    case_match; simplify_eq; [|done]. split; simpl; [by apply unmap_all_inv|]. intros k n' Hk.
    rewrite unmap_all_lookup in Hk by done. case_decide; [done|].
    rewrite lookup_delete_ne by congruence. by eapply Hc.
  - unfold gzochi_metad_sessionserver_session_connected in H.
    destruct (connected_servers s !! n) as [sock|] eqn:Hn; [|by inv_ret].
    apply bind_Ret in H as (k & Hk & H). apply session_key_id in Hk.
    destruct (map_session (nodemap s) k n) as [tmp m] eqn:Hmap.
    unfold map_session in Hmap.
    destruct (session_to_node (nodemap s) !! k) as [n'|] eqn:Hs; simplify_eq/=; [by split|].
    pose proof (map_session_inv (nodemap s) k n Hm) as Hinv.
    unfold map_session in Hinv. rewrite Hs in Hinv. split; simpl.
    + apply Hinv; [split; lia|done].
    + intros k' n'. rewrite lookup_insert_Some. intros [[_ <-]|[_ Hk']]; [by eexists|].
      by eapply Hc.
  - unfold gzochi_metad_sessionserver_session_disconnected in H.
    apply bind_Ret in H as (k & Hk & H). apply session_key_id in Hk.
    unfold lookup_session in H.
    destruct (session_to_node (nodemap s) !! k) as [n|] eqn:Hs; [|by inv_ret].
    destruct (unmap_session_inv (nodemap s) k n Hm Hs) as (nodes & Hun & Hinv).
    rewrite Hun in H. simplify_eq/=. split; simpl; [done|].
    intros k' n' [_ Hk']%lookup_delete_Some. by eapply Hc.
Qed.

Lemma session_reachable_inv (s : GzochiMetadSessionServer) :
  session_reachable s -> session_inv s.
Proof.
  unfold session_reachable. intros Hs.
  assert (Hinit : session_inv gzochi_metad_session_server_init).
  { split; [apply new_nodemap_inv|]. intros k n. simpl. by rewrite lookup_empty. }
  induction Hs as [|s0 s1 s2 Hstep _ IH]; [done|]. apply IH. by eapply session_step_inv.
Qed.

(** ** Relaying *)

Lemma session_key_ok (a : bytes) (id : Z) :
  nonzero a -> session_key (a ++ [0]) id = Ret (QualifiedKey a id).
Proof.
  intros Ha. unfold session_key. rewrite strlen_cstring by done. run.
  by rewrite Nat2Z.id, take_app_length.
Qed.

(** The messages to the node of a session. *)
Definition relayed_disconnect (a : bytes) (id : Z) : bytes :=
  GZOCHID_SESSION_PROTOCOL_RELAY_DISCONNECT_TO :: a ++ [0] ++ be_encode 8 id.
Definition relayed_message (a : bytes) (id : Z) (msg : bytes) : bytes :=
  GZOCHID_SESSION_PROTOCOL_RELAY_MESSAGE_TO :: a ++ [0] ++ be_encode 8 id
    ++ be_encode 2 (Z.of_nat (length msg)) ++ msg.

Lemma relay_disconnect_ok a id s t n sock sk :
  nonzero a -> session_to_node (nodemap s) !! QualifiedKey a id = Some n ->
  connected_servers s !! n = Some sock -> t !! sock = Some sk -> sock_server sk = true ->
  gzochi_metad_sessionserver_relay_disconnect (a ++ [0]) id s t
  = Ret (None, <[sock := with_send (send_buffer sk ++ frame (relayed_disconnect a id)) true sk]> t).
Proof.
  intros Ha Hk Hn Hsk Hserver. unfold gzochi_metad_sessionserver_relay_disconnect.
  rewrite session_key_ok by done. run. unfold lookup_session. rewrite Hk, Hn.
  rewrite oid_message_ok by done. run. by rewrite (write_ok sock _ t sk).
Qed.

Lemma relay_message_ok a id msg s t n sock sk :
  nonzero a -> session_to_node (nodemap s) !! QualifiedKey a id = Some n ->
  connected_servers s !! n = Some sock -> t !! sock = Some sk -> sock_server sk = true ->
  gzochi_metad_sessionserver_relay_message (a ++ [0]) id msg s t
  = Ret (None, <[sock := with_send (send_buffer sk ++ frame (relayed_message a id msg)) true sk]> t).
Proof.
  intros Ha Hk Hn Hsk Hserver. unfold gzochi_metad_sessionserver_relay_message.
  rewrite session_key_ok by done. run. unfold lookup_session. rewrite Hk, Hn.
  rewrite payload_message_ok by done. run. by rewrite (write_ok sock _ t sk).
Qed.

(** C30. In every state the session server can reach, with session ids below 2^31, the
    node of each mapped session is connected.  So relaying a message or a
    disconnection to a session fails exactly if the session is not mapped, and then
    writes nothing; otherwise it adds one whole message, which names the session and
    holds the payload, to what the socket of the session's node has to send, and
    touches no other socket. *)
Theorem relay_reaches_node (s : GzochiMetadSessionServer) (a : bytes) (id : Z) (msg : bytes)
    (t : sockets) (Hs : session_reachable s) (Ha : nonzero a) :
  match session_to_node (nodemap s) !! QualifiedKey a id with
  | None =>
      gzochi_metad_sessionserver_relay_message (a ++ [0]) id msg s t
      = Ret (Some NOT_CONNECTED, t)
      /\ gzochi_metad_sessionserver_relay_disconnect (a ++ [0]) id s t
         = Ret (Some NOT_CONNECTED, t)
  | Some n => exists sock,
      connected_servers s !! n = Some sock
      /\ forall sk, t !! sock = Some sk -> sock_server sk = true ->
           gzochi_metad_sessionserver_relay_message (a ++ [0]) id msg s t
           = Ret (None, <[sock := with_send (send_buffer sk ++ frame (relayed_message a id msg))
                                    true sk]> t)
           /\ gzochi_metad_sessionserver_relay_disconnect (a ++ [0]) id s t
              = Ret (None, <[sock := with_send (send_buffer sk ++ frame (relayed_disconnect a id))
                                       true sk]> t)
  end.
Proof.
  pose proof (session_reachable_inv s Hs) as [_ Hc].
  destruct (session_to_node (nodemap s) !! QualifiedKey a id) as [n|] eqn:Hk.
  - destruct (Hc _ _ Hk) as [sock Hsock]. exists sock. split; [done|].
    intros sk Hsk Hserver.
    split; [by eapply relay_message_ok | by eapply relay_disconnect_ok].
  - unfold gzochi_metad_sessionserver_relay_message,
      gzochi_metad_sessionserver_relay_disconnect.
    rewrite session_key_ok by done. run. unfold lookup_session. by rewrite Hk.
Qed.

(** A server with one node and one session on it. *)
Definition sample_server : GzochiMetadSessionServer :=
  match gzochi_metad_sessionserver_session_connected 7 [97; 0] 5
          (snd (gzochi_metad_sessionserver_server_connected 7 1%positive
                  gzochi_metad_session_server_init)) with
  | Ret (_, s) => s
  | _ => gzochi_metad_session_server_init
  end.

Lemma sample_server_reachable : session_reachable sample_server.
Proof.
  eapply rtc_l; [by eapply (StepServerConnected _ 7 1%positive)|].
  eapply rtc_l; [|reflexivity].
  eapply (StepSessionConnected _ 7 [97; 0] 5); [lia|]. reflexivity.
Qed.

Lemma relay_reaches_node_witness :
  exists sock, connected_servers sample_server !! 7 = Some sock
    /\ forall sk, ({[1%positive := sample_socket]} : sockets) !! sock = Some sk ->
       sock_server sk = true ->
       gzochi_metad_sessionserver_relay_message ([97] ++ [0]) 5 [1; 2] sample_server
         {[1%positive := sample_socket]}
       = Ret (None, <[sock := with_send (send_buffer sk ++ frame (relayed_message [97] 5 [1; 2]))
                                true sk]> {[1%positive := sample_socket]})
       /\ gzochi_metad_sessionserver_relay_disconnect ([97] ++ [0]) 5 sample_server
            {[1%positive := sample_socket]}
          = Ret (None, <[sock := with_send (send_buffer sk ++ frame (relayed_disconnect [97] 5))
                                   true sk]> {[1%positive := sample_socket]}).
Proof.
  apply (relay_reaches_node sample_server [97] 5 [1; 2] {[1%positive := sample_socket]}
    sample_server_reachable).
  by repeat constructor.
Defined.
