(* ===== verification/ChannelServer.v ===== *)
(** * The channel server of the meta server (channelserver.c, channelserver-protocol.c)

    The channel server tells every other application node what happens to a channel
    on one of them.  Its state is the table of the connected nodes' sockets; the
    order in which a hash table is enumerated is a parameter.  The protocol's client
    is the node's id.  The byte order of the machine is a parameter, since the oids
    of a message are copied from memory. *)

From S2P Require Import Prelude.
From S2P Require Import Io.
From S2P Require Import Util.
From S2P Require Import DataProtocol.
From S2P Require Import Socket.
From S2P Require Import Framing.
From S2P Require Import MetaProtocol.

Local Open Scope Z_scope.

Record GzochiMetadChannelServer := ChannelServer {
  connected_servers : gmap Z positive
}.

Inductive channelserver_error := ALREADY_CONNECTED | NOT_CONNECTED.

Definition gzochi_metad_channel_server_init : GzochiMetadChannelServer := ChannelServer ∅.

Definition gzochi_metad_channelserver_server_connected (node_id : Z) (sock : positive)
    (s : GzochiMetadChannelServer) : option channelserver_error * GzochiMetadChannelServer :=
  match connected_servers s !! node_id with
  | Some _ => (Some ALREADY_CONNECTED, s)
  | None => (None, ChannelServer (<[node_id := sock]> (connected_servers s)))
  end.

Definition gzochi_metad_channelserver_server_disconnected (node_id : Z)
    (s : GzochiMetadChannelServer) : option channelserver_error * GzochiMetadChannelServer :=
  match connected_servers s !! node_id with
  | Some _ => (None, ChannelServer (base.delete node_id (connected_servers s)))
  | None => (Some NOT_CONNECTED, s)
  end.

Section channelserver.

Variable big_endian : bool.
(** The order in which a table of nodes is enumerated. *)
Variable enumerate : gmap Z positive -> list (Z * positive).

(** [relay_message] for one entry of the table. *)
Definition relay_message (to_node_id : Z) (sock : positive) (from_node_id : Z) (msg : bytes)
    (t : sockets) : outcome sockets :=
  if negb (to_node_id =? from_node_id)
  then gzochid_client_socket_write sock msg (Z.of_nat (length msg)) t
  else Ret t.

(** [g_hash_table_foreach]. *)
Fixpoint relay_loop (entries : list (Z * positive)) (from_node_id : Z) (msg : bytes)
    (t : sockets) : outcome sockets :=
  match entries with
  | [] => Ret t
  | (n, sock) :: entries =>
      t ← relay_message n sock from_node_id msg t; relay_loop entries from_node_id msg t
  end.

(** A byte array with room for the length, the opcode and the application. *)
Definition start_message (opcode : Z) (app : bytes) : outcome bytes :=
  arr ← byte_array_append [] [0; 0] 2;
  arr ← byte_array_append arr [opcode] 1;
  append_str arr app.

Definition append_oid (arr : bytes) (oid : Z) : outcome bytes :=
  byte_array_append arr (native_bytes big_endian (gzochid_util_encode_oid big_endian oid)) 8.

(** The length is filled in and the message sent to every other node. *)
Definition finish_message (arr : bytes) (from_node_id : Z) (s : GzochiMetadChannelServer)
    (t : sockets) : outcome sockets :=
  msg ← gzochi_common_io_write_short (s16 (Z.of_nat (length arr) - 3)) arr 0;
  relay_loop (enumerate (connected_servers s)) from_node_id msg t.

Definition gzochi_metad_channelserver_relay_join (from_node_id : Z) (app : bytes)
    (channel_oid session_oid : Z) (s : GzochiMetadChannelServer) (t : sockets)
  : outcome sockets :=
  arr ← start_message GZOCHID_CHANNEL_PROTOCOL_RELAY_JOIN_TO app;
  arr ← append_oid arr channel_oid;
  arr ← append_oid arr session_oid;
  finish_message arr from_node_id s t.

Definition gzochi_metad_channelserver_relay_leave (from_node_id : Z) (app : bytes)
    (channel_oid session_oid : Z) (s : GzochiMetadChannelServer) (t : sockets)
  : outcome sockets :=
  arr ← start_message GZOCHID_CHANNEL_PROTOCOL_RELAY_LEAVE_TO app;
  arr ← append_oid arr channel_oid;
  arr ← append_oid arr session_oid;
  finish_message arr from_node_id s t.

Definition gzochi_metad_channelserver_relay_close (from_node_id : Z) (app : bytes)
    (channel_oid : Z) (s : GzochiMetadChannelServer) (t : sockets) : outcome sockets :=
  arr ← start_message GZOCHID_CHANNEL_PROTOCOL_RELAY_CLOSE_TO app;
  arr ← append_oid arr channel_oid;
  finish_message arr from_node_id s t.

Definition gzochi_metad_channelserver_relay_message (from_node_id : Z) (app : bytes)
    (channel_oid : Z) (payload : bytes) (s : GzochiMetadChannelServer) (t : sockets)
  : outcome sockets :=
  arr ← start_message GZOCHID_CHANNEL_PROTOCOL_RELAY_MESSAGE_TO app;
  arr ← append_oid arr channel_oid;
  arr ← byte_array_append arr [0; 0] 2;
  arr ← gzochi_common_io_write_short (s16 (Z.of_nat (length payload))) arr
          (Z.of_nat (length arr) - 2);
  arr ← byte_array_append arr payload (Z.of_nat (length payload));
  finish_message arr from_node_id s t.

(** ** The protocol *)

Abbreviation world := (GzochiMetadChannelServer * sockets)%type.

Definition dispatch_relay_join (client : Z) (message : bytes) (len : Z) (w : world)
  : outcome world :=
  r ← read_app message len 16;
  match r with
  | None => Ret w
  | Some (app, str_len) =>
      channel_oid ← read_oid_at message str_len;
      session_oid ← read_oid_at message (str_len + 8);
      t ← gzochi_metad_channelserver_relay_join (s32 client) app channel_oid session_oid w.1 w.2;
      Ret (w.1, t)
  end.

Definition dispatch_relay_leave (client : Z) (message : bytes) (len : Z) (w : world)
  : outcome world :=
  r ← read_app message len 16;
  match r with
  | None => Ret w
  | Some (app, str_len) =>
      channel_oid ← read_oid_at message str_len;
      session_oid ← read_oid_at message (str_len + 8);
      t ← gzochi_metad_channelserver_relay_leave (s32 client) app channel_oid session_oid w.1 w.2;
      Ret (w.1, t)
  end.

Definition dispatch_relay_close (client : Z) (message : bytes) (len : Z) (w : world)
  : outcome world :=
  r ← read_app message len 8;
  match r with
  | None => Ret w
  | Some (app, str_len) =>
      channel_oid ← read_oid_at message str_len;
      t ← gzochi_metad_channelserver_relay_close (s32 client) app channel_oid w.1 w.2;
      Ret (w.1, t)
  end.

Definition dispatch_relay_message (client : Z) (message : bytes) (len : Z) (w : world)
  : outcome world :=
  r ← read_app message len 8;
  match r with
  | None => Ret w
  | Some (app, str_len) =>
      channel_oid ← read_oid_at message str_len;
      msg ← gzochid_protocol_read_bytes (drop (Z.to_nat (str_len + 8)) message)
              (u64 (len - str_len - 8));
      match msg with
      | None => Ret w
      | Some msg =>
          t ← gzochi_metad_channelserver_relay_message (s32 client) app channel_oid msg w.1 w.2;
          Ret (w.1, t)
      end
  end.

Definition dispatch_payload (client : Z) (opcode : Z) (payload : bytes) (len : Z) (w : world)
  : outcome world :=
  if opcode =? GZOCHID_CHANNEL_PROTOCOL_RELAY_JOIN_FROM
  then dispatch_relay_join client payload len w
  else if opcode =? GZOCHID_CHANNEL_PROTOCOL_RELAY_LEAVE_FROM
  then dispatch_relay_leave client payload len w
  else if opcode =? GZOCHID_CHANNEL_PROTOCOL_RELAY_CLOSE_FROM
  then dispatch_relay_close client payload len w
  else if opcode =? GZOCHID_CHANNEL_PROTOCOL_RELAY_MESSAGE_FROM
  then dispatch_relay_message client payload len w
  else Ret w.

Definition dispatch_message (client : Z) : bytes -> Z -> world -> outcome world :=
  dispatch_opcode (dispatch_payload client).

Definition can_dispatch (buffer : bytes) (w : world) : outcome bool := frame_ready buffer.

Definition client_dispatch (client : Z) (buffer : bytes) (w : world) : outcome (Z * world) :=
  dispatch_frames (fun buffer offset => dispatch_message client (drop (Z.to_nat offset) buffer))
    buffer w.

Definition client_error (client : Z) (w : world) : outcome world :=
  let '(_, s) := gzochi_metad_channelserver_server_disconnected (s32 client) w.1 in
  Ret (s, w.2).

Definition gzochi_metad_channelserver_client_protocol (client : Z)
  : gzochid_client_protocol world :=
  ClientProtocol can_dispatch (client_dispatch client) (client_error client) Ret.

End channelserver.

(** ** The protocol keeps to its messages *)

Section lemmas.

Context {big_endian : bool} {enumerate : gmap Z positive -> list (Z * positive)}.

Lemma relay_loop_blind entries from msg : blind (relay_loop entries from msg).
Proof.
  induction entries as [|[n sock] entries IH]; [apply blind_ret|].
  apply blind_seq; [|exact IH]. unfold relay_message.
  destruct (negb (n =? from)); auto with blind.
Qed.

Lemma finish_blind arr from s : blind (finish_message enumerate arr from s).
Proof. apply blind_bind. intros msg. apply relay_loop_blind. Qed.

#[local] Hint Resolve finish_blind : blind.
#[local] Hint Extern 2 (blind _) => unfold gzochi_metad_channelserver_relay_join,
  gzochi_metad_channelserver_relay_leave, gzochi_metad_channelserver_relay_close,
  gzochi_metad_channelserver_relay_message : blind.

Lemma channelserver_dispatch_blind (client opcode : Z) (payload : bytes) (len : Z) :
  blind (dispatch_payload big_endian enumerate client opcode payload len).
Proof.
  unfold dispatch_payload.
  destruct (opcode =? _); [|destruct (opcode =? _); [|destruct (opcode =? _);
    [|destruct (opcode =? _); [|apply blind_ret]]]];
    (apply blind_bind; intros [[app str_len]|]; [|apply blind_ret]);
    apply blind_bind; intros id.
  - apply blind_bind. intros id2. apply (blind_part
      (gzochi_metad_channelserver_relay_join big_endian enumerate (s32 client) app id id2)).
    auto with blind.
  - apply blind_bind. intros id2. apply (blind_part
      (gzochi_metad_channelserver_relay_leave big_endian enumerate (s32 client) app id id2)).
    auto with blind.
  - apply (blind_part
      (gzochi_metad_channelserver_relay_close big_endian enumerate (s32 client) app id)).
    auto with blind.
  - apply blind_bind. intros [msg|]; [|apply blind_ret]. apply (blind_part
      (gzochi_metad_channelserver_relay_message big_endian enumerate (s32 client) app id msg)).
    auto 8 with blind.
Qed.

Lemma channelserver_dispatch_local (client : Z) :
  local_payload (dispatch_payload big_endian enumerate client) (fun _ => True).
Proof.
  intros opcode payload post w _ Hlen. unfold dispatch_payload,
    dispatch_relay_join, dispatch_relay_leave, dispatch_relay_close, dispatch_relay_message.
  rewrite !read_app_local by lia.
  destruct (opcode =? _); [|destruct (opcode =? _); [|destruct (opcode =? _);
    [|destruct (opcode =? _); [|done]]]];
    match goal with |- context [read_app payload ?n ?k] =>
      destruct (read_app payload n k) as [[[app l]|]| | |] eqn:Hr; [|done..] end;
    (apply read_app_bound in Hr as [Hk1 Hk2]; [|lia]);
    cbn [mbind outcome_bind]; rewrite !read_oid_at_local by lia; try done.
  rewrite drop_app_le by lia. rewrite read_bytes_local; [done|].
  rewrite length_drop, u64_small by lia. lia.
Qed.

#[export] Instance channelserver_framed (client : Z) :
  FramedProtocol (gzochi_metad_channelserver_client_protocol big_endian enumerate client)
    (fun buffer offset =>
       dispatch_message big_endian enumerate client (drop (Z.to_nat offset) buffer))
    (fun m => dispatch_message big_endian enumerate client m (Z.of_nat (length m)))
    (fun _ => True).
Proof. apply framed_by_opcode; [done|done|apply channelserver_dispatch_local|apply channelserver_dispatch_blind]. Qed.

(** ** Broadcasting *)

Lemma start_message_ok (opcode : Z) (a : bytes) :
  nonzero a -> start_message opcode (a ++ [0]) = Ret ([0; 0] ++ opcode :: a ++ [0]).
Proof.
  intros Ha. unfold start_message.
  change (byte_array_append [] [0; 0] 2) with (Ret [0; 0] : outcome bytes). run.
  change (byte_array_append [0; 0] [opcode] 1) with (Ret [0; 0; opcode] : outcome bytes). run.
  by rewrite append_str_ok.
Qed.

Lemma append_oid_ok (arr : bytes) (oid : Z) :
  append_oid big_endian arr oid = Ret (arr ++ be_encode 8 oid).
Proof.
  unfold append_oid. rewrite native_encode_oid.
  pose proof (byte_array_append_all arr (be_encode 8 oid)) as H.
  by rewrite be_encode_length in H.
Qed.

Lemma finish_message_ok (m : bytes) (from : Z) s t :
  finish_message enumerate ([0; 0] ++ m) from s t
  = relay_loop (enumerate (connected_servers s)) from (frame m) t.
Proof.
  unfold finish_message. rewrite (be_write (BigEndian := short_codec)), (be_encode_signed 2) by lia.
  pose proof (write_at_app [] [0; 0] m (be_encode 2 (Z.of_nat (length ([0; 0] ++ m)) - 3))) as H.
  rewrite be_encode_length in H. change (Z.of_nat (length [])) with 0 in H.
  rewrite !app_nil_l in H. rewrite H by done. run.
  rewrite (frame_prefix (Z.of_nat (length ([0; 0] ++ m)) - 3)); [done|]. len.
Qed.

End lemmas.

(** What nodes are told about a channel. *)
Inductive notice :=
| Join (channel session : Z)
| Leave (channel session : Z)
| Close (channel : Z)
| Message (channel : Z) (payload : bytes).

(** The message about it to the other nodes. *)
Definition notice_to (a : bytes) (x : notice) : bytes :=
  match x with
  | Join c s => GZOCHID_CHANNEL_PROTOCOL_RELAY_JOIN_TO
                  :: a ++ [0] ++ be_encode 8 c ++ be_encode 8 s
  | Leave c s => GZOCHID_CHANNEL_PROTOCOL_RELAY_LEAVE_TO
                   :: a ++ [0] ++ be_encode 8 c ++ be_encode 8 s
  | Close c => GZOCHID_CHANNEL_PROTOCOL_RELAY_CLOSE_TO :: a ++ [0] ++ be_encode 8 c
  | Message c p => GZOCHID_CHANNEL_PROTOCOL_RELAY_MESSAGE_TO
                     :: a ++ [0] ++ be_encode 8 c ++ be_encode 2 (Z.of_nat (length p)) ++ p
  end.

Definition relay_notice (big_endian : bool) (enumerate : gmap Z positive -> list (Z * positive))
    (from : Z) (app : bytes) (x : notice) (s : GzochiMetadChannelServer) (t : sockets)
  : outcome sockets :=
  match x with
  | Join c i => gzochi_metad_channelserver_relay_join big_endian enumerate from app c i s t
  | Leave c i => gzochi_metad_channelserver_relay_leave big_endian enumerate from app c i s t
  | Close c => gzochi_metad_channelserver_relay_close big_endian enumerate from app c s t
  | Message c p => gzochi_metad_channelserver_relay_message big_endian enumerate from app c p s t
  end.

Section broadcast.

Context {big_endian : bool} {enumerate : gmap Z positive -> list (Z * positive)}.

Lemma relay_notice_loop (from : Z) (a : bytes) (x : notice) s t :
  nonzero a ->
  relay_notice big_endian enumerate from (a ++ [0]) x s t
  = relay_loop (enumerate (connected_servers s)) from (frame (notice_to a x)) t.
Proof.
  intros Ha. destruct x as [c i|c i|c|c p]; cbn [relay_notice];
    unfold gzochi_metad_channelserver_relay_join, gzochi_metad_channelserver_relay_leave,
      gzochi_metad_channelserver_relay_close, gzochi_metad_channelserver_relay_message;
    rewrite start_message_ok by done; cbn [mbind outcome_bind]; rewrite append_oid_ok;
    cbn [mbind outcome_bind]; try (rewrite append_oid_ok; cbn [mbind outcome_bind]).
  1-3: rewrite <- !app_assoc, finish_message_ok; f_equal; unfold notice_to; f_equal;
       cbn [app]; by rewrite <- !app_assoc.
  set (arr := (([0; 0] ++ _) ++ _)).
  rewrite (byte_array_append_all arr [0; 0] : byte_array_append arr [0; 0] 2 = _).
  cbn [mbind outcome_bind].
  rewrite (be_write (BigEndian := short_codec)), (be_encode_signed 2) by lia.
  replace (Z.of_nat (length (arr ++ [0; 0])) - 2) with (Z.of_nat (length arr)) by len.
  pose proof (write_at_app arr [0; 0] [] (be_encode 2 (Z.of_nat (length p)))) as H.
  rewrite !app_nil_r in H. rewrite H by (by rewrite be_encode_length).
  cbn [mbind outcome_bind]. rewrite byte_array_append_all. cbn [mbind outcome_bind].
  unfold arr. rewrite <- !app_assoc, finish_message_ok. f_equal. unfold notice_to. f_equal.
  cbn [app]. by rewrite <- !app_assoc.
Qed.

(** Whether the socket is that of another node of the list. *)
Definition told (entries : list (Z * positive)) (from : Z) (p : positive) : bool :=
  bool_decide (Exists (fun e => e.2 = p /\ e.1 <> from) entries).

Lemma relay_loop_ok (entries : list (Z * positive)) (from : Z) (msg : bytes) : forall t,
  NoDup entries.*2 ->
  Forall (fun e => exists sk, t !! e.2 = Some sk /\ sock_server sk = true) entries ->
  exists t', relay_loop entries from msg t = Ret t'
    /\ forall p, t' !! p = (fun sk => if told entries from p
                              then with_send (send_buffer sk ++ msg) true sk else sk) <$> t !! p.
Proof.
  induction entries as [|[n sock] entries IH]; intros t Hd Hall.
  { exists t. split; [done|]. intros p. by destruct (t !! p). }
  cbn [fmap list_fmap snd] in Hd. apply NoDup_cons in Hd as [Hsock Hd].
  inversion_clear Hall as [|? ? (sk & Hsk & Hserver) Hrest]. cbn [relay_loop snd] in *.
  assert (Hnot : told entries from sock = false).
  { apply bool_decide_false. intros ([n' p'] & Hin & Hp & _)%Exists_exists. simpl in Hp.
    subst p'. apply Hsock. apply list_elem_of_fmap. by exists (n', sock). }
  assert (Hcons : forall p, told ((n, sock) :: entries) from p
    = (bool_decide (sock = p /\ n <> from) || told entries from p)).
  { intros p. unfold told. apply eq_bool_prop_intro. rewrite orb_True, !bool_decide_spec.
    by rewrite Exists_cons. }
  unfold relay_message. destruct (Z.eqb_spec n from) as [->|Hne]; simpl.
  - destruct (IH t Hd Hrest) as (t' & Hrun & Ht'). exists t'. split; [done|].
    intros p. rewrite Ht', Hcons. by rewrite bool_decide_false by naive_solver.
  - rewrite (write_ok sock msg t sk Hsk Hserver). cbn [mbind outcome_bind].
    destruct (IH (<[sock := with_send (send_buffer sk ++ msg) true sk]> t) Hd)
      as (t' & Hrun & Ht').
    { apply Forall_forall. intros [n' p'] Hin. simpl.
      rewrite Forall_forall in Hrest. destruct (Hrest _ Hin) as (sk' & Hsk' & Hs'). simpl in Hsk'.
      rewrite lookup_insert_ne; [by exists sk'|]. intros ->. apply Hsock.
      apply list_elem_of_fmap. by exists (n', p'). }
    exists t'. split; [done|]. intros p. rewrite Ht', Hcons.
    destruct (decide (sock = p)) as [<-|Hp].
    + rewrite lookup_insert_eq, Hsk, Hnot, bool_decide_true by done. done.
    + rewrite lookup_insert_ne, bool_decide_false by naive_solver. done.
Qed.

(** A notice about a channel reaches every other node once.  When the connected
    nodes have sockets of their own, each node but the one it comes from is sent one
    whole message that says what happened to which channel; nothing is written to
    the sender or to any other socket, whatever the order of the table. *)
Lemma channel_broadcast (s : GzochiMetadChannelServer) (from : Z) (a : bytes) (x : notice)
    (t : sockets)
    (Henum : forall m, enumerate m ≡ₚ map_to_list m)
    (Hown : forall n1 n2 p, connected_servers s !! n1 = Some p ->
              connected_servers s !! n2 = Some p -> n1 = n2)
    (Hsock : forall n p, connected_servers s !! n = Some p ->
              exists sk, t !! p = Some sk /\ sock_server sk = true)
    (Ha : nonzero a) :
  exists t', relay_notice big_endian enumerate from (a ++ [0]) x s t = Ret t'
    /\ (forall n p sk, connected_servers s !! n = Some p -> n <> from -> t !! p = Some sk ->
          t' !! p = Some (with_send (send_buffer sk ++ frame (notice_to a x)) true sk))
    /\ (forall p, (forall n, connected_servers s !! n = Some p -> n = from) -> t' !! p = t !! p).
Proof.
  rewrite relay_notice_loop by done. set (entries := enumerate (connected_servers s)).
  assert (Hin : forall n p, (n, p) ∈ entries <-> connected_servers s !! n = Some p).
  { intros n p. unfold entries. rewrite Henum. apply elem_of_map_to_list. }
  destruct (relay_loop_ok entries from (frame (notice_to a x)) t) as (t' & Hrun & Ht').
  - apply (NoDup_fmap_2_strong snd).
    + intros [n1 p1] [n2 p2] H1%Hin H2%Hin Heq. simpl in Heq. subst p2.
      by rewrite (Hown n1 n2 p1).
    + unfold entries. rewrite Henum. apply NoDup_map_to_list.
  - apply Forall_forall. intros [n p] H%Hin. by eapply Hsock.
  - exists t'. split; [done|]. split.
    + intros n p sk Hn Hne Hsk. rewrite Ht', Hsk. cbn [fmap option_fmap option_map].
      unfold told. rewrite bool_decide_true; [done|].
      apply Exists_exists. exists (n, p). by rewrite Hin.
    + intros p Hp. rewrite Ht'. unfold told. rewrite bool_decide_false.
      * by destruct (t !! p).
      * intros ([n p'] & Hmem%Hin & Heq & Hne)%Exists_exists. simpl in *. subst p'.
        by apply Hne, Hp.
Qed.

End broadcast.

Lemma channel_broadcast_witness :
  exists t', relay_notice false map_to_list 1 ([97] ++ [0]) (Message 5 [1; 2])
      (ChannelServer {[1 := 1%positive; 2 := 2%positive]})
      {[1%positive := sample_socket; 2%positive := sample_socket]} = Ret t'
    /\ (forall n p sk, connected_servers (ChannelServer {[1 := 1%positive; 2 := 2%positive]})
            !! n = Some p -> n <> 1 ->
          ({[1%positive := sample_socket; 2%positive := sample_socket]} : sockets) !! p = Some sk ->
          t' !! p = Some (with_send (send_buffer sk
                       ++ frame (notice_to [97] (Message 5 [1; 2]))) true sk))
    /\ (forall p, (forall n, connected_servers (ChannelServer {[1 := 1%positive; 2 := 2%positive]})
            !! n = Some p -> n = 1) ->
          t' !! p = ({[1%positive := sample_socket; 2%positive := sample_socket]} : sockets) !! p).
Proof.
  apply (channel_broadcast (ChannelServer {[1 := 1%positive; 2 := 2%positive]}) 1 [97]
    (Message 5 [1; 2])).
  - done.
  - intros n1 n2 p. simpl. rewrite !lookup_insert_Some, !lookup_singleton_Some. naive_solver.
  - intros n p. simpl. rewrite !lookup_insert_Some, !lookup_singleton_Some. intros H.
    exists sample_socket. split; [|done]. naive_solver.
  - by repeat constructor.
Defined.
