(* ===== verification/GameClient.v ===== *)
(** * Game clients of an application node (game-protocol.c, app.c)

    The state of a node that its game protocol and its relays share: the
    applications with the tables between sessions and clients and the local members of channels, the game clients, the
    tasks that were submitted, the reconnectable socket to the meta server and the
    sockets; and the messages that a node sends to a game client.  An application
    context is identified by the application's name, a C string with its terminator.
    [I] are the identities of authenticated players, [L] the listeners of the
    reconnectable socket. *)

From S2P Require Import Prelude.
From S2P Require Import Io.
From S2P Require Import Util.
From S2P Require Import DataProtocol.
From S2P Require Import Socket.
From S2P Require Import Framing.
From S2P Require Import MetaProtocol.

Local Open Scope Z_scope.

(** ** Opcodes of the game protocol (gzochi-common/src/protocol.h) *)

Definition GZOCHI_COMMON_PROTOCOL_LOGIN_REQUEST := 16.
Definition GZOCHI_COMMON_PROTOCOL_LOGIN_SUCCESS := 17.
Definition GZOCHI_COMMON_PROTOCOL_LOGIN_FAILURE := 18.
Definition GZOCHI_COMMON_PROTOCOL_LOGOUT_REQUEST := 32.
Definition GZOCHI_COMMON_PROTOCOL_SESSION_DISCONNECTED := 48.
Definition GZOCHI_COMMON_PROTOCOL_SESSION_MESSAGE := 49.

(** ** State *)

Inductive app_event := MESSAGE_RECEIVED | MESSAGE_SENT.

Record gzochid_application_context := ApplicationContext {
  oids_to_clients : gmap Z positive;
  clients_to_oids : gmap positive Z;
  channel_oids_to_local_session_oids : gmap Z (list Z);
  metaclient : bool;            (* the node is connected to a meta server *)
  app_events : list app_event
}.

Definition set_channels (m : gmap Z (list Z)) (x : gzochid_application_context)
  : gzochid_application_context :=
  ApplicationContext (oids_to_clients x) (clients_to_oids x) m (metaclient x) (app_events x).
Definition set_mapping (o : gmap Z positive) (c : gmap positive Z)
    (x : gzochid_application_context) : gzochid_application_context :=
  ApplicationContext o c (channel_oids_to_local_session_oids x) (metaclient x) (app_events x).
Definition app_event_dispatch (e : app_event) (x : gzochid_application_context)
  : gzochid_application_context :=
  ApplicationContext (oids_to_clients x) (clients_to_oids x)
    (channel_oids_to_local_session_oids x) (metaclient x) (app_events x ++ [e]).

Section node.

Context {I L : Type}.

Record gzochid_game_client := GameClient {
  client_app : option bytes;
  identity : option I;
  disconnected : bool;
  client_sock : positive
}.

(** The tasks that the protocol submits. *)
Inductive game_task :=
| LoggedIn (app : bytes) (who : option I) (client : positive)
| Disconnected (app : bytes) (who : option I) (session_oid : Z)
| ReceivedMessage (app : bytes) (who : option I) (session_oid : Z) (msg : bytes).

Record node := Node {
  applications : gmap bytes gzochid_application_context;
  game_clients : gmap positive gzochid_game_client;
  task_queue : list game_task;
  uplink : gzochid_reconnectable_socket L;
  node_sockets : sockets
}.

#[export] Program Instance node_has_sockets : HasSockets node :=
  {| sockets_of := node_sockets;
     set_sockets t w := Node (applications w) (game_clients w) (task_queue w) (uplink w) t |}.
Solve All Obligations with (by intros; try done; by destruct w).

Definition set_applications (a : gmap bytes gzochid_application_context) (w : node) : node :=
  Node a (game_clients w) (task_queue w) (uplink w) (node_sockets w).
Definition set_clients (c : gmap positive gzochid_game_client) (w : node) : node :=
  Node (applications w) c (task_queue w) (uplink w) (node_sockets w).
Definition submit_task (x : game_task) (w : node) : node :=
  Node (applications w) (game_clients w) (task_queue w ++ [x]) (uplink w) (node_sockets w).

(** [gzochid_game_server_lookup_application] *)
Definition lookup_application (app : bytes) (w : node) : option gzochid_application_context :=
  applications w !! app.

Definition set_application (app : bytes) (x : gzochid_application_context) (w : node) : node :=
  set_applications (<[app := x]> (applications w)) w.

(** Changing an application that is known to exist. *)
Definition update_application (app : bytes)
    (f : gzochid_application_context -> gzochid_application_context) (w : node) : node :=
  set_applications (alter f app (applications w)) w.

(** Writing to the socket of a client, and to the meta server. *)
Definition write_client (client : positive) (buf : bytes) (len : Z) (w : node) : outcome node :=
  c ← deref (game_clients w !! client);
  t ← gzochid_client_socket_write (client_sock c) buf len (node_sockets w);
  Ret (set_sockets t w).

Definition write_uplink (buf : bytes) (w : node) : outcome node :=
  '(r, t) ← gzochid_reconnectable_socket_write buf (Z.of_nat (length buf)) (uplink w)
              (node_sockets w);
  Ret (Node (applications w) (game_clients w) (task_queue w) r t).

(** ** Messages to a game client *)

Definition gzochid_game_client_disconnect (client : positive) (w : node) : outcome node :=
  write_client client [0; 0; GZOCHI_COMMON_PROTOCOL_SESSION_DISCONNECTED] 3 w.

Definition gzochid_game_client_login_success (client : positive) (w : node) : outcome node :=
  write_client client [0; 0; GZOCHI_COMMON_PROTOCOL_LOGIN_SUCCESS] 3 w.

Definition gzochid_game_client_login_failure (client : positive) (w : node) : outcome node :=
  write_client client [0; 0; GZOCHI_COMMON_PROTOCOL_LOGIN_FAILURE] 3 w.

(** The length is an [unsigned short]. *)
Definition gzochid_game_client_send (client : positive) (msg : bytes) (len : Z) (w : node)
  : outcome node :=
  let len := u16 len in
  buf ← gzochi_common_io_write_short (s16 len) (malloc (len + 3)) 0;
  buf ← write_at buf 2 [GZOCHI_COMMON_PROTOCOL_SESSION_MESSAGE];
  buf ← memcpy_to buf 3 msg len;
  write_client client buf (len + 3) w.

(** ** Lemmas *)

Lemma write_client_blind (client : positive) (buf : bytes) (len : Z) :
  blind (write_client client buf len).
Proof.
  split.
  - intros p b w. unfold write_client. simpl.
    destruct (game_clients w !! client) as [c|]; [|done]. simpl.
    destruct (blind_write (client_sock c) buf len) as [H1 _].
    specialize (H1 p b (node_sockets w)). unfold set_recv in H1. simpl in H1.
    rewrite H1. by destruct (gzochid_client_socket_write _ _ _ (node_sockets w)).
  - intros p b w w' Hw Hrecv. unfold write_client in Hw. inv_ret.
    match goal with H : gzochid_client_socket_write (client_sock ?c) _ _ _ = Ret ?t |- _ =>
      destruct (blind_write (client_sock c) buf len) as [_ H2]; exact (H2 p b _ _ H Hrecv) end.
Qed.

Lemma write_uplink_blind (buf : bytes) : blind (write_uplink buf).
Proof.
  split.
  - intros p b w. unfold write_uplink, gzochid_reconnectable_socket_write. simpl.
    destruct (socket (uplink w)) as [sock|].
    + destruct (blind_write sock buf (Z.of_nat (length buf))) as [H1 _].
      specialize (H1 p b (node_sockets w)). unfold set_recv in H1. simpl in H1.
      rewrite H1. by destruct (gzochid_client_socket_write _ _ _ (node_sockets w)).
    + by rewrite byte_array_append_all.
  - intros p b w w' Hw Hrecv. unfold write_uplink, gzochid_reconnectable_socket_write in Hw.
    destruct (socket (uplink w)) as [sock|].
    + inv_ret. match goal with H : gzochid_client_socket_write _ _ _ _ = Ret ?t |- _ =>
        destruct (blind_write sock buf (Z.of_nat (length buf))) as [_ H2];
        exact (H2 p b _ _ H Hrecv) end.
    + rewrite byte_array_append_all in Hw. simpl in Hw. by injection Hw as <-.
Qed.

(** A message of a session, as the client gets it. *)
Lemma game_client_send_frame (client : positive) (msg : bytes) (w : node) :
  Z.of_nat (length msg) < 2 ^ 16 ->
  gzochid_game_client_send client msg (Z.of_nat (length msg)) w
  = write_client client (frame (GZOCHI_COMMON_PROTOCOL_SESSION_MESSAGE :: msg))
      (Z.of_nat (length (frame (GZOCHI_COMMON_PROTOCOL_SESSION_MESSAGE :: msg)))) w.
Proof.
  intros Hlen. unfold gzochid_game_client_send.
  rewrite unsigned_small by (unfold in_unsigned; lia).
  rewrite (be_write (BigEndian := short_codec)), (be_encode_signed 2) by lia.
  unfold malloc. rewrite <- (app_nil_l (replicate _ _)).
  rewrite (fill_next []) by len. run. rewrite (fill_next _ [_]) by len. run. build_rest. run.
  set (buf := ((([] ++ _) ++ _) ++ msg)).
  assert (Hbuf : buf = frame (GZOCHI_COMMON_PROTOCOL_SESSION_MESSAGE :: msg)).
  { rewrite <- (frame_prefix (Z.of_nat (length msg))) by len.
    unfold buf. by rewrite app_nil_l, <- app_assoc. }
  rewrite <- Hbuf. f_equal. unfold buf; len.
Qed.

Lemma game_client_send_ok (client : positive) (msg : bytes) (w : node) c sk :
  Z.of_nat (length msg) < 2 ^ 16 -> game_clients w !! client = Some c ->
  node_sockets w !! client_sock c = Some sk -> sock_server sk = true ->
  gzochid_game_client_send client msg (Z.of_nat (length msg)) w
  = Ret (set_sockets (<[client_sock c :=
           with_send (send_buffer sk ++ frame (GZOCHI_COMMON_PROTOCOL_SESSION_MESSAGE :: msg)) true sk]>
           (node_sockets w)) w).
Proof.
  intros Hlen Hc Hsk Hserver. rewrite game_client_send_frame by done.
  unfold write_client. rewrite Hc. run. by rewrite (write_ok _ _ _ sk Hsk Hserver).
Qed.

End node.

Arguments gzochid_game_client I : clear implicits.
Arguments game_task I : clear implicits.
Arguments node I L : clear implicits.

#[export] Hint Resolve write_client_blind write_uplink_blind : blind.
