(* ===== verification/SessionClient.v ===== *)
(** * The session client of an application node (sessionclient.c, sessionclient-protocol.c)

    The node's side of the session relay: it tells the meta server which sessions
    connect and disconnect here and asks it to relay to sessions elsewhere, and it
    hands what is relayed to it to the game client of the session.  Errors are only
    logged by the protocol. *)

From S2P Require Import Prelude.
From S2P Require Import Io.
From S2P Require Import Util.
From S2P Require Import DataProtocol.
From S2P Require Import Socket.
From S2P Require Import Framing.
From S2P Require Import MetaProtocol.
From S2P Require Import GameClient.

Local Open Scope Z_scope.

Inductive sessionclient_error := NOT_MAPPED.

Section sessionclient.

Context {I L : Type}.
Abbreviation world := (node I L).

(** ** To the meta server *)

Definition gzochid_sessionclient_session_connected (app : bytes) (session_id : Z) (w : world)
  : outcome world :=
  relay_msg ← oid_message GZOCHID_SESSION_PROTOCOL_SESSION_CONNECTED app session_id;
  write_uplink relay_msg w.

Definition gzochid_sessionclient_session_disconnected (app : bytes) (session_id : Z) (w : world)
  : outcome world :=
  relay_msg ← oid_message GZOCHID_SESSION_PROTOCOL_SESSION_DISCONNECTED app session_id;
  write_uplink relay_msg w.

Definition gzochid_sessionclient_relay_disconnect_from (app : bytes) (session_id : Z) (w : world)
  : outcome world :=
  relay_msg ← oid_message GZOCHID_SESSION_PROTOCOL_RELAY_DISCONNECT_FROM app session_id;
  write_uplink relay_msg w.

Definition gzochid_sessionclient_relay_message_from (app : bytes) (session_id : Z)
    (msg : bytes) (w : world) : outcome world :=
  relay_msg ← payload_message GZOCHID_SESSION_PROTOCOL_RELAY_MESSAGE_FROM app session_id msg;
  write_uplink relay_msg w.

(** ** From the meta server *)

Definition gzochid_sessionclient_relay_disconnect_to (app : bytes) (session_id : Z) (w : world)
  : outcome (option sessionclient_error * world) :=
  match lookup_application app w with
  | Some app_context =>
      match oids_to_clients app_context !! session_id with
      | Some client => w ← gzochid_game_client_disconnect client w; Ret (None, w)
      | None => Ret (Some NOT_MAPPED, w)
      end
  | None => Ret (Some NOT_MAPPED, w)
  end.

Definition gzochid_sessionclient_relay_message_to (app : bytes) (session_id : Z)
    (msg : bytes) (w : world) : outcome (option sessionclient_error * world) :=
  match lookup_application app w with
  | Some app_context =>
      match oids_to_clients app_context !! session_id with
      | Some game_client =>
          w ← gzochid_game_client_send game_client msg (Z.of_nat (length msg)) w;
          Ret (None, w)
      | None => Ret (Some NOT_MAPPED, w)
      end
  | None => Ret (Some NOT_MAPPED, w)
  end.

(** ** The protocol *)

Definition dispatch_relay_disconnect_to (message : bytes) (len : Z) (w : world)
  : outcome world :=
  r ← read_app message len 8;
  match r with
  | None => Ret w
  | Some (app, str_len) =>
      session_id ← read_oid_at message str_len;
      '(_, w) ← gzochid_sessionclient_relay_disconnect_to app session_id w;
      Ret w
  end.

Definition dispatch_relay_message_to (message : bytes) (len : Z) (w : world) : outcome world :=
  r ← read_app message len 8;
  match r with
  | None => Ret w
  | Some (app, str_len) =>
      session_id ← read_oid_at message str_len;
      msg ← gzochid_protocol_read_bytes (drop (Z.to_nat (str_len + 8)) message)
              (u64 (len - str_len - 8));
      match msg with
      | None => Ret w
      | Some msg =>
          '(_, w) ← gzochid_sessionclient_relay_message_to app session_id msg w;
          Ret w
      end
  end.

Definition dispatch_payload (opcode : Z) (payload : bytes) (len : Z) (w : world)
  : outcome world :=
  if opcode =? GZOCHID_SESSION_PROTOCOL_RELAY_DISCONNECT_TO
  then dispatch_relay_disconnect_to payload len w
  else if opcode =? GZOCHID_SESSION_PROTOCOL_RELAY_MESSAGE_TO
  then dispatch_relay_message_to payload len w
  else Ret w.

Definition dispatch_message : bytes -> Z -> world -> outcome world :=
  dispatch_opcode dispatch_payload.

Definition client_can_dispatch (buffer : bytes) (w : world) : outcome bool :=
  frame_ready buffer.

Definition client_dispatch (buffer : bytes) (w : world) : outcome (Z * world) :=
  dispatch_frames (fun buffer offset => dispatch_message (drop (Z.to_nat offset) buffer))
    buffer w.

Definition gzochid_sessionclient_client_protocol : gzochid_client_protocol world :=
  ClientProtocol client_can_dispatch client_dispatch Ret Ret.

(** ** The protocol keeps to its messages *)

(** Node operations read the tables, which sockets do not change. *)
Lemma blind_lookup {A} (app : bytes) (f : gzochid_application_context -> world -> outcome (A * world))
    (g : world -> outcome (A * world)) :
  (forall x, blind_with (f x)) -> blind_with g ->
  blind_with (fun w => match lookup_application app w with Some x => f x w | None => g w end).
Proof.
  intros Hf Hg. split.
  - intros p b w. change (lookup_application app (set_recv p b w)) with (lookup_application app w).
    destruct (lookup_application app w) as [x|]; [apply (Hf x) | apply Hg].
  - intros p b w a w'. destruct (lookup_application app w) as [x|]; [apply (Hf x) | apply Hg].
Qed.

Lemma relay_disconnect_to_blind (app : bytes) (id : Z) :
  blind_with (gzochid_sessionclient_relay_disconnect_to app id).
Proof.
  apply (blind_lookup app (fun x w => match oids_to_clients x !! id with
    | Some client => w ← gzochid_game_client_disconnect client w; Ret (None, w)
    | None => Ret (Some NOT_MAPPED, w) end)); [|auto with blind].
  intros x. destruct (oids_to_clients x !! id); [|auto with blind].
  apply blind_with_after; [apply write_client_blind | auto with blind].
Qed.

Lemma game_client_send_blind (client : positive) (msg : bytes) (len : Z) :
  blind (gzochid_game_client_send (I := I) (L := L) client msg len).
Proof. repeat (apply blind_bind; intros ?). apply write_client_blind. Qed.

Lemma sessionclient_relay_message_to_blind (app : bytes) (id : Z) (msg : bytes) :
  blind_with (gzochid_sessionclient_relay_message_to app id msg).
Proof.
  apply (blind_lookup app (fun x w => match oids_to_clients x !! id with
    | Some client => w ← gzochid_game_client_send client msg (Z.of_nat (length msg)) w; Ret (None, w)
    | None => Ret (Some NOT_MAPPED, w) end)); [|auto with blind].
  intros x. destruct (oids_to_clients x !! id); [|auto with blind].
  apply blind_with_after; [apply game_client_send_blind | auto with blind].
Qed.

Lemma sessionclient_dispatch_blind (opcode : Z) (payload : bytes) (len : Z) :
  blind (dispatch_payload opcode payload len).
Proof.
  unfold dispatch_payload.
  destruct (opcode =? _); [|destruct (opcode =? _); [|apply blind_ret]];
    (apply blind_bind; intros [[app str_len]|]; [|apply blind_ret]);
    apply blind_bind; intros id.
  - apply (blind_drop (gzochid_sessionclient_relay_disconnect_to app id)).
    apply relay_disconnect_to_blind.
  - apply blind_bind. intros [msg|]; [|apply blind_ret].
    apply (blind_drop (gzochid_sessionclient_relay_message_to app id msg)).
    apply sessionclient_relay_message_to_blind.
Qed.

Lemma sessionclient_dispatch_local : local_payload dispatch_payload (fun _ => True).
Proof.
  intros opcode payload post w _ Hlen. unfold dispatch_payload,
    dispatch_relay_disconnect_to, dispatch_relay_message_to.
  rewrite read_app_local by lia.
  destruct (read_app payload (Z.of_nat (length payload)) 8) as [[[app k]|]| | |] eqn:Hr;
    [|done..].
  apply read_app_bound in Hr as [Hk1 Hk2]; [|lia].
  cbn [mbind outcome_bind]. rewrite read_oid_at_local by lia.
  rewrite drop_app_le by lia. rewrite read_bytes_local; [done|].
  rewrite length_drop, u64_small by lia. lia.
Qed.

#[export] Instance sessionclient_framed :
  FramedProtocol gzochid_sessionclient_client_protocol
    (fun buffer offset => dispatch_message (drop (Z.to_nat offset) buffer))
    (fun m => dispatch_message m (Z.of_nat (length m))) (fun _ => True).
Proof. apply framed_by_opcode; [done|done|apply sessionclient_dispatch_local|apply sessionclient_dispatch_blind]. Qed.

End sessionclient.
