(* ===== verification/GameProtocol.v ===== *)
(** * The game protocol of an application node (game-protocol.c)

    Accepting clients, logging in and out and the messages of sessions, over the state
    of a node of [GameClient]; the tasks of a login are executed as in [AppTask].  An
    authenticator is a parameter, and so are what it means to run a function in a
    transaction of the application, the call of its callback, and the transactions
    that store a session and remove it. *)

From S2P Require Import Prelude.
From S2P Require Import Io.
From S2P Require Import Util.
From S2P Require Import DataProtocol.
From S2P Require Import Tx.
From S2P Require Import AppTask.
From S2P Require Import Auth.
From S2P Require Import Socket.
From S2P Require Import Framing.
From S2P Require Import MetaProtocol.
From S2P Require Import GameClient.
From S2P Require Import SessionClient.

Local Open Scope Z_scope.

Section game_protocol.

Context {I L : Type}.
Abbreviation world := (node I L).

(** The authenticator of an application gets the credentials and their length. *)
Context (authenticator : bytes -> bytes -> Z -> outcome (option I)).

(** ** Clients *)

Definition put_client (client : positive) (c : gzochid_game_client I) (w : world) : world :=
  set_clients (<[client := c]> (game_clients w)) w.

(** The new client is in memory filled with zeros; [client] and [sock] are new. *)
Definition server_accept (client sock : positive) (desc : bytes) (w : world) : world :=
  set_sockets (<[sock := gzochid_client_socket_new desc]> (node_sockets w))
    (put_client client (GameClient None None false sock) w).

Definition gzochid_game_client_get_identity (client : positive) (w : world) : outcome (option I) :=
  c ← deref (game_clients w !! client); Ret (identity c).

Definition gzochid_game_client_disconnected (client : positive) (w : world) : outcome bool :=
  c ← deref (game_clients w !! client); Ret (GameClient.disconnected c).

(** ** Logging in *)

Definition logged_in (app : bytes) (client : positive) (w : world) : outcome world :=
  who ← gzochid_game_client_get_identity client w;
  Ret (submit_task (LoggedIn app who client) w).

Definition dispatch_login_request (client : positive) (endpoint cred : bytes) (cred_len : Z)
    (w : world) : outcome world :=
  c ← deref (game_clients w !! client);
  match identity c with
  | Some _ => Ret w
  | None =>
      match lookup_application endpoint w with
      | None =>
          Ret (put_client client (GameClient None None (GameClient.disconnected c) (client_sock c)) w)
      | Some _ =>
          who ← authenticator endpoint cred cred_len;
          let w := put_client client
            (GameClient (Some endpoint) who (GameClient.disconnected c) (client_sock c)) w in
          match who with
          | None => Ret w
          | Some _ => logged_in endpoint client w
          end
      end
  end.

(** ** Leaving *)

Definition unmap (oid : Z) (client : option positive) (x : gzochid_application_context)
  : gzochid_application_context :=
  set_mapping (base.delete oid (oids_to_clients x))
    (match client with Some p => base.delete p (clients_to_oids x) | None => clients_to_oids x end) x.

Definition disconnected (app : bytes) (client : positive) (w : world) : outcome world :=
  x ← deref (lookup_application app w);
  match clients_to_oids x !! client with
  | None => Ret w
  | Some session_oid =>
      who ← gzochid_game_client_get_identity client w;
      w ← (match oids_to_clients x !! session_oid with
           | Some _ =>
               w ← (if metaclient x : bool
                    then gzochid_sessionclient_session_disconnected app session_oid w
                    else Ret w);
               Ret (update_application app (unmap session_oid (Some client)) w)
           | None => Ret w
           end);
      Ret (submit_task (Disconnected app who session_oid) w)
  end.

Definition mark_disconnected (client : positive) (w : world) : world :=
  set_clients (alter (fun c => GameClient (client_app c) (identity c) true (client_sock c)) client
                 (game_clients w)) w.

(** The application of a client with an identity is not null. *)
Definition dispatch_logout_request (client : positive) (w : world) : outcome world :=
  c ← deref (game_clients w !! client);
  w ← (match identity c with
       | None => Ret w
       | Some _ => app ← deref (client_app c); disconnected app client w
       end);
  Ret (mark_disconnected client w).

Definition client_error (client : positive) (w : world) : outcome world :=
  c ← deref (game_clients w !! client);
  if GameClient.disconnected c then Ret w
  else
    w ← (match identity c with
         | None => Ret w
         | Some _ => app ← deref (client_app c); disconnected app client w
         end);
    Ret (mark_disconnected client w).

Definition client_free (client : positive) (w : world) : world :=
  set_clients (base.delete client (game_clients w)) w.

(** ** Messages *)

(** The length is a [short], which [g_bytes_new] takes as a [gsize]. *)
Definition received_message (app : bytes) (client : positive) (msg : bytes) (len : Z) (w : world)
  : outcome world :=
  x ← deref (lookup_application app w);
  match clients_to_oids x !! client with
  | None => Ret w
  | Some session_oid =>
      data ← memcpy_from msg (u64 len);
      who ← gzochid_game_client_get_identity client w;
      Ret (submit_task (ReceivedMessage app who session_oid data) w)
  end.

Definition dispatch_session_message (client : positive) (msg : bytes) (len : Z) (w : world)
  : outcome world :=
  c ← deref (game_clients w !! client);
  match identity c with
  | None => Ret w
  | Some _ =>
      app ← deref (client_app c);
      let w := update_application app (app_event_dispatch MESSAGE_RECEIVED) w in
      received_message app client msg len w
  end.

(** [strndup] of the payload, and where what follows the string begins.  A pointer
    to before the payload is not followed. *)
Definition login_endpoint (payload : bytes) (len : Z) : outcome (bytes * Z) :=
  r ← memchr0 payload (Z.to_nat len);
  Ret (match r with
       | Some e => (take (S e) payload, s16 (Z.of_nat e + 1))
       | None => (take (Z.to_nat len) payload ++ [0], s16 (len + 1))
       end).

(** [len] is an [unsigned short] here and becomes a [short] when it is passed on. *)
Definition dispatch_payload (client : positive) (opcode : Z) (payload : bytes) (len : Z) (w : world)
  : outcome world :=
  if opcode =? GZOCHI_COMMON_PROTOCOL_LOGIN_REQUEST then
    '(pfx, pfx_len) ← login_endpoint payload len;
    sfx ← (if pfx_len <? 0 then Undef else Ret (drop (Z.to_nat pfx_len) payload));
    dispatch_login_request client pfx sfx (s16 (len - pfx_len)) w
  else if opcode =? GZOCHI_COMMON_PROTOCOL_LOGOUT_REQUEST then dispatch_logout_request client w
  else if opcode =? GZOCHI_COMMON_PROTOCOL_SESSION_MESSAGE then
    dispatch_session_message client payload (s16 len) w
  else Ret w.

Definition dispatch_message (client : positive) : bytes -> Z -> world -> outcome world :=
  dispatch_opcode (dispatch_payload client).

Definition client_can_dispatch (buffer : bytes) (w : world) : outcome bool :=
  frame_ready buffer.

Definition client_dispatch (client : positive) (buffer : bytes) (w : world)
  : outcome (Z * world) :=
  dispatch_frames (fun buffer offset => dispatch_message client (drop (Z.to_nat offset) buffer))
    buffer w.

Definition gzochid_game_client_protocol (client : positive) : gzochid_client_protocol world :=
  ClientProtocol client_can_dispatch (client_dispatch client) (client_error client)
    (fun w => Ret (client_free client w)).

(** ** The tasks of a login

    [session_persist] and [session_disconnected_worker] run the transactions of [Session]
    that store a session and remove it. *)
Context (session_persist : bytes -> option I -> world -> outcome (option Z * world)).
Context (session_disconnected_worker : bytes -> Z -> world -> outcome world).
Context (scheme_logged_in_worker : bytes -> Z -> world -> outcome world).
Context (in_transaction : option timeval -> (world -> outcome world) -> world ->
  outcome (gzochid_transaction_result * world)).

Inductive login_task := LoginTask | LoginCatchTask | LoginCleanupTask.

Definition login_catch_worker (app : bytes) (session_oid : Z) (w : world) : outcome world :=
  x ← deref (lookup_application app w);
  let client := oids_to_clients x !! session_oid in
  let w := update_application app (unmap session_oid client) w in
  client ← deref client;
  w ← gzochid_game_client_disconnect client w;
  session_disconnected_worker app session_oid w.

(** The id is freed, which has no counterpart. *)
Definition login_cleanup_worker (w : world) : outcome world := Ret w.

Definition login_worker (app : bytes) (session_oid : Z) (t : login_task) (w : world) : outcome world :=
  match t with
  | LoginTask => scheme_logged_in_worker app session_oid w
  | LoginCatchTask => login_catch_worker app session_oid w
  | LoginCleanupTask => login_cleanup_worker w
  end.

Definition login_execution (tx_timeout : timeval) : gzochid_transactional_application_task_execution :=
  gzochid_transactional_application_task_timed_execution_new LoginTask (Some LoginCatchTask)
    (Some LoginCleanupTask) tx_timeout.

(** The parts of [logged_in_task] between which others may run: the session is stored
    and mapped, the transactions are executed, the meta server is told. *)
Definition login_begin (app : bytes) (who : option I) (client : positive) (w : world)
  : outcome (option Z * world) :=
  '(session_oid, w) ← session_persist app who w;
  match session_oid with
  | None => w ← gzochid_game_client_disconnect client w; Ret (None, w)
  | Some oid =>
      _ ← deref (game_clients w !! client);
      Ret (Some oid, update_application app (fun x =>
        set_mapping (<[oid := client]> (oids_to_clients x)) (<[client := oid]> (clients_to_oids x)) x) w)
  end.

Definition login_execute (tx_timeout : timeval) (app : bytes) (oid : Z) (client : positive) (w : world)
  : outcome world :=
  _ ← gzochid_game_client_get_identity client w;
  gzochid_application_reexecuting_transactional_task_worker
    (fun limit t => in_transaction limit (login_worker app oid t))
    (login_worker app oid) 2 3 (login_execution tx_timeout) w.

Definition login_announce (app : bytes) (oid : Z) (w : world) : outcome world :=
  x ← deref (lookup_application app w);
  match oids_to_clients x !! oid with
  | Some _ =>
      if metaclient x : bool then gzochid_sessionclient_session_connected app oid w else Ret w
  | None => Ret w
  end.

Definition logged_in_task (tx_timeout : timeval) (app : bytes) (who : option I) (client : positive)
    (w : world) : outcome world :=
  '(oid, w) ← login_begin app who client w;
  match oid with
  | None => Ret w
  | Some oid =>
      w ← login_execute tx_timeout app oid client w;
      login_announce app oid w
  end.


(** ** The tables of sessions and clients

    What the protocol keeps up in every application: [oids_to_clients] and
    [clients_to_oids] are inverses of each other, their clients exist and are
    authenticated for the application, and a client whose login has not begun is in
    neither and has one task of it. *)

Definition session_tables (w : world) : gmap bytes (gmap Z positive * gmap positive Z) :=
  (fun x => (oids_to_clients x, clients_to_oids x)) <$> applications w.

Definition login_of (t : game_task I) : option (bytes * option I * positive) :=
  match t with LoggedIn app who client => Some (app, who, client) | _ => None end.

Definition pending_logins (w : world) : list (bytes * option I * positive) :=
  omap login_of (task_queue w).

Record tables_ok (T : gmap bytes (gmap Z positive * gmap positive Z))
    (C : gmap positive (gzochid_game_client I)) (Q : list (bytes * option I * positive)) : Prop := {
  ok_inverse : forall app o2c c2o p o, T !! app = Some (o2c, c2o) ->
    c2o !! p = Some o <-> o2c !! o = Some p;
  ok_mapped : forall app o2c c2o p o, T !! app = Some (o2c, c2o) -> c2o !! p = Some o ->
    exists c who, C !! p = Some c /\ client_app c = Some app /\ identity c = Some who;
  ok_pending : forall app who p, (app, who, p) ∈ Q ->
    (exists c, C !! p = Some c /\ client_app c = Some app /\ identity c = who /\ is_Some who)
    /\ forall o2c c2o, T !! app = Some (o2c, c2o) -> c2o !! p = None;
  ok_once : NoDup (snd <$> Q)
}.

Definition node_ok (w : world) : Prop :=
  tables_ok (session_tables w) (game_clients w) (pending_logins w).

(** Operations that change none of this. *)
Definition quiet (w w' : world) : Prop :=
  session_tables w' = session_tables w /\ game_clients w' = game_clients w
  /\ pending_logins w' = pending_logins w.

Lemma quiet_refl (w : world) : quiet w w.
Proof. done. Qed.

Lemma quiet_trans (w1 w2 w3 : world) : quiet w1 w2 -> quiet w2 w3 -> quiet w1 w3.
Proof. intros (?&?&?) (?&?&?). split_and!; congruence. Qed.

Lemma quiet_ok (w w' : world) : quiet w w' -> node_ok w -> node_ok w'.
Proof. unfold quiet, node_ok. by intros (-> & -> & ->). Qed.

Lemma write_client_quiet client buf len (w w' : world) :
  write_client client buf len w = Ret w' -> quiet w w'.
Proof. unfold write_client. intros H. inv_ret. done. Qed.

Lemma write_uplink_quiet buf (w w' : world) : write_uplink buf w = Ret w' -> quiet w w'.
Proof. unfold write_uplink. intros ([r t] & _ & H)%bind_Ret. inv_ret. done. Qed.

Lemma update_quiet app f (w : world) :
  (forall x, oids_to_clients (f x) = oids_to_clients x /\ clients_to_oids (f x) = clients_to_oids x) ->
  quiet w (update_application app f w).
Proof.
  intros Hf. split; [|done]. unfold session_tables. simpl. apply map_eq. intros a.
  rewrite !lookup_fmap. destruct (decide (a = app)) as [->|Hne].
  - rewrite lookup_alter_eq. destruct (applications w !! app) as [x|]; [|done]. simpl.
    by destruct (Hf x) as [-> ->].
  - by rewrite lookup_alter_ne.
Qed.

Lemma update_tables app f (w : world) x :
  applications w !! app = Some x ->
  session_tables (update_application app f w)
  = <[app := (oids_to_clients (f x), clients_to_oids (f x))]> (session_tables w).
Proof.
  intros Hx. unfold session_tables. simpl. apply map_eq. intros a.
  destruct (decide (a = app)) as [->|Hne].
  - by rewrite lookup_fmap, lookup_alter_eq, lookup_insert_eq, Hx.
  - by rewrite lookup_fmap, lookup_alter_ne, lookup_insert_ne, lookup_fmap.
Qed.

Lemma tables_lookup app (w : world) x :
  applications w !! app = Some x ->
  session_tables w !! app = Some (oids_to_clients x, clients_to_oids x).
Proof. intros Hx. unfold session_tables. by rewrite lookup_fmap, Hx. Qed.

Section tables.

Context (T : gmap bytes (gmap Z positive * gmap positive Z))
  (C : gmap positive (gzochid_game_client I)) (Q : list (bytes * option I * positive)).
Context (Hok : tables_ok T C Q).

Lemma client_change p c' :
  (forall c, C !! p = Some c -> client_app c' = client_app c /\ identity c' = identity c
     \/ identity c = None) ->
  tables_ok T (<[p := c']> C) Q.
Proof.
  intros Hc. destruct Hok as [H1 H2 H3 H4]. split; [done| | |done].
  - intros app o2c c2o q o HT Hq. destruct (H2 app o2c c2o q o HT Hq) as (c & who & Hq' & Happ & Hwho).
    destruct (decide (q = p)) as [->|Hne]; [|rewrite lookup_insert_ne by done; eauto].
    rewrite lookup_insert_eq. exists c', who. destruct (Hc c Hq') as [[-> ->]|]; [done|congruence].
  - intros app who q Hq. destruct (H3 app who q Hq) as [(c & Hq' & Happ & Hwho & Hsome) Hno].
    split; [|done]. destruct (decide (q = p)) as [->|Hne].
    + rewrite lookup_insert_eq. exists c'.
      destruct (Hc c Hq') as [[-> ->]|Hnone]; [done|]. destruct Hsome. congruence.
    + rewrite lookup_insert_ne by done. eauto.
Qed.

Lemma client_login p c c' app who :
  C !! p = Some c -> identity c = None -> client_app c' = Some app -> identity c' = Some who ->
  tables_ok T (<[p := c']> C) (Q ++ [(app, Some who, p)]).
Proof.
  intros Hp Hnone Happ Hwho.
  assert (Hch : tables_ok T (<[p := c']> C) Q).
  { apply client_change. intros c0 Hc0. right. congruence. }
  destruct Hch as [H1 H2 H3 H4]. split; [done|done| |].
  - intros a i q [Hq|[= -> -> ->]%list_elem_of_singleton]%elem_of_app; [eauto|]. split.
    + exists c'. rewrite lookup_insert_eq. eauto.
    + intros o2c c2o HT. destruct (c2o !! p) as [o|] eqn:Ho; [|done].
      destruct (ok_mapped _ _ _ Hok app o2c c2o p o HT Ho) as (? & ? & ? & ? & ?). congruence.
  - rewrite fmap_app. apply NoDup_app. split_and!; [done| |apply NoDup_singleton].
    intros q Hq [= ->]%list_elem_of_singleton.
    apply list_elem_of_fmap in Hq as ([[a i] q'] & Hq & Hin). simpl in Hq. subst q'.
    destruct (ok_pending _ _ _ Hok a i p Hin) as [(? & ? & ? & ? & [? ?]) _]. congruence.
Qed.

Lemma tables_unmap app o2c c2o p o :
  T !! app = Some (o2c, c2o) -> o2c !! o = Some p ->
  tables_ok (<[app := (base.delete o o2c, base.delete p c2o)]> T) C Q.
Proof.
  intros HT Ho. destruct Hok as [H1 H2 H3 H4].
  assert (Hsub : forall a o1 c1 q o', (<[app := (base.delete o o2c, base.delete p c2o)]> T) !! a = Some (o1, c1) ->
    c1 !! q = Some o' -> exists o1' c1', T !! a = Some (o1', c1') /\ c1' !! q = Some o').
  { intros a o1 c1 q o' Ha Hq. destruct (decide (a = app)) as [->|Hne].
    - rewrite lookup_insert_eq in Ha. injection Ha as <- <-.
      apply lookup_delete_Some in Hq as [_ Hq]. eauto.
    - rewrite lookup_insert_ne in Ha by done. eauto. }
  split; [|naive_solver| |done].
  - intros a o1 c1 q o' Ha. destruct (decide (a = app)) as [->|Hne];
      [|rewrite lookup_insert_ne in Ha by done; eauto].
    rewrite lookup_insert_eq in Ha. injection Ha as <- <-. rewrite !lookup_delete_Some.
    specialize (H1 app o2c c2o). rewrite (H1 q o' HT). split; intros [Hne Hq]; (split; [|done]).
    + intros ->. congruence.
    + intros ->. apply (H1 q o' HT) in Hq. apply (H1 q o HT) in Ho. congruence.
  - intros a i q Hq. destruct (H3 a i q Hq) as [Hc Hno]. split; [done|].
    intros o1 c1 Ha. destruct (c1 !! q) as [o'|] eqn:Hq'; [|done].
    destruct (Hsub a o1 c1 q o' Ha Hq') as (? & ? & ? & ?). naive_solver congruence.
Qed.

Lemma tables_map app who p o o2c c2o Q' :
  (app, who, p) ∈ Q -> T !! app = Some (o2c, c2o) -> o2c !! o = None ->
  (forall y, y ∈ Q' -> y ∈ Q) -> NoDup (snd <$> Q') -> p ∉ (snd <$> Q') ->
  tables_ok (<[app := (<[o := p]> o2c, <[p := o]> c2o)]> T) C Q'.
Proof.
  intros Hp HT Hfresh Hsub Hnodup Hnot. destruct Hok as [H1 H2 H3 H4].
  destruct (H3 app who p Hp) as [(c & Hc & Happ & Hwho & [i ->]) Hno].
  specialize (Hno _ _ HT). split; [| | |done].
  - intros a o1 c1 q o' Ha. destruct (decide (a = app)) as [->|Hne];
      [|rewrite lookup_insert_ne in Ha by done; eauto].
    rewrite lookup_insert_eq in Ha. injection Ha as <- <-.
    rewrite !lookup_insert_Some. specialize (H1 app o2c c2o q o' HT).
    split; intros [[<- <-]|[Hne Hq]]; [by left| |by left|]; right; (split; [|by apply H1]).
    + intros ->. apply H1 in Hq. congruence.
    + intros ->. apply H1 in Hq. congruence.
  - intros a o1 c1 q o' Ha Hq. destruct (decide (a = app)) as [->|Hne];
      [|rewrite lookup_insert_ne in Ha by done; eauto].
    rewrite lookup_insert_eq in Ha. injection Ha as <- <-.
    apply lookup_insert_Some in Hq as [[<- <-]|[Hne Hq]]; eauto.
  - intros a j q Hq. destruct (H3 a j q (Hsub _ Hq)) as [Hcl Hno']. split; [done|].
    intros o1 c1 Ha. destruct (decide (a = app)) as [->|Hne];
      [|rewrite lookup_insert_ne in Ha by done; eauto].
    rewrite lookup_insert_eq in Ha. injection Ha as <- <-.
    rewrite lookup_insert_ne; [eauto|]. intros ->. apply Hnot, list_elem_of_fmap.
    by exists (app, j, q).
Qed.

Lemma tables_less Q' : sublist Q' Q -> tables_ok T C Q'.
Proof.
  intros Hsub. destruct Hok as [H1 H2 H3 H4]. split; [done|done| |].
  - intros app who p Hp. apply H3. by eapply elem_of_sublist.
  - eapply sublist_NoDup; [exact H4|]. clear -Hsub. induction Hsub; simpl; by constructor.
Qed.

Lemma client_delete p :
  (forall app o2c c2o, T !! app = Some (o2c, c2o) -> c2o !! p = None) -> p ∉ (snd <$> Q) ->
  tables_ok T (base.delete p C) Q.
Proof.
  intros Hun Hnot. destruct Hok as [H1 H2 H3 H4]. split; [done| | |done].
  - intros app o2c c2o q o HT Hq. rewrite lookup_delete_ne; [eauto|]. intros ->.
    by rewrite (Hun _ _ _ HT) in Hq.
  - intros app who q Hq. destruct (H3 app who q Hq) as [(c & Hc & Hrest) Hno]. split; [|done].
    exists c. rewrite lookup_delete_ne; [done|]. intros ->. apply Hnot, list_elem_of_fmap.
    by exists (app, who, q).
Qed.

End tables.

Lemma tables_lookup_inv app (w : world) o2c c2o :
  session_tables w !! app = Some (o2c, c2o) ->
  exists x, applications w !! app = Some x /\ oids_to_clients x = o2c /\ clients_to_oids x = c2o.
Proof.
  unfold session_tables. rewrite lookup_fmap. destruct (applications w !! app) as [x|]; [|done].
  intros [= <- <-]. by exists x.
Qed.

Lemma submit_pending (t : game_task I) (w : world) :
  pending_logins (submit_task t w) = pending_logins w ++ omap login_of [t].
Proof. unfold pending_logins. apply omap_app. Qed.

Lemma submit_quiet (t : game_task I) (w : world) : login_of t = None -> quiet w (submit_task t w).
Proof.
  intros Ht. split_and!; [done|done|]. rewrite submit_pending. simpl. by rewrite Ht, app_nil_r.
Qed.

Lemma unmap_ok app x o p (w : world) :
  node_ok w -> applications w !! app = Some x -> oids_to_clients x !! o = Some p ->
  node_ok (update_application app (unmap o (Some p)) w).
Proof.
  intros Hok Hx Ho. unfold node_ok. rewrite (update_tables _ _ _ x) by done.
  eapply tables_unmap; [done|by apply tables_lookup|done].
Qed.

Definition unmapped (client : positive) (w : world) : Prop :=
  forall app o2c c2o, session_tables w !! app = Some (o2c, c2o) -> c2o !! client = None.

(** A client is mapped in the application it is authenticated for, if at all. *)
Lemma unmapped_in (w : world) client c app :
  node_ok w -> game_clients w !! client = Some c -> client_app c = Some app ->
  (forall o2c c2o, session_tables w !! app = Some (o2c, c2o) -> c2o !! client = None) ->
  unmapped client w.
Proof.
  intros Hok Hc Happ Hno a o2c c2o Ha. destruct (c2o !! client) as [o|] eqn:Ho; [|done].
  destruct (ok_mapped _ _ _ Hok a o2c c2o client o Ha Ho) as (c' & who & Hc' & Happ' & _).
  assert (a = app) as -> by congruence. by rewrite (Hno _ _ Ha) in Ho.
Qed.

Lemma disconnected_ok app client (w w' : world) :
  node_ok w -> disconnected app client w = Ret w' ->
  node_ok w' /\ game_clients w' = game_clients w /\ pending_logins w' = pending_logins w
  /\ forall o2c c2o, session_tables w' !! app = Some (o2c, c2o) -> c2o !! client = None.
Proof.
  intros Hok Hrun. unfold disconnected in Hrun. inv_ret.
  match goal with H : lookup_application app w = Some ?y |- _ => rename y into x; rename H into Hx end.
  destruct (clients_to_oids x !! client) as [oid|] eqn:Hoid.
  2:{ injection Hrun as <-. split_and!; [done..|]. intros o2c c2o HT.
      rewrite (tables_lookup app w x Hx) in HT. by injection HT as <- <-. }
  assert (Hback : oids_to_clients x !! oid = Some client).
  { apply (ok_inverse _ _ _ Hok app _ _ client oid (tables_lookup app w x Hx)). done. }
  rewrite Hback in Hrun. apply bind_Ret in Hrun as (who & _ & Hrun).
  apply bind_Ret in Hrun as (w2 & (w1 & Hw1 & Hw2)%bind_Ret & Hend).
  assert (Hq : quiet w w1).
  { destruct (metaclient x); [|injection Hw1 as <-; done].
    unfold gzochid_sessionclient_session_disconnected in Hw1. inv_ret. by eapply write_uplink_quiet. }
  injection Hw2 as <-. injection Hend as <-.
  pose proof (quiet_ok _ _ Hq Hok) as Hok1. destruct Hq as (HT & HC & HQ).
  destruct (tables_lookup_inv app w1 (oids_to_clients x) (clients_to_oids x)) as (x1 & Hx1 & Ho1 & Hc1).
  { rewrite HT. by apply tables_lookup. }
  split_and!; [|done| |].
  - eapply quiet_ok; [by apply submit_quiet|]. apply (unmap_ok app x1); [done|done|congruence].
  - rewrite submit_pending. simpl. by rewrite app_nil_r.
  - intros o2c c2o. change (session_tables (submit_task ?t ?w)) with (session_tables w).
    rewrite (update_tables _ _ _ x1) by done. rewrite lookup_insert_eq. intros [= <- <-].
    simpl. apply lookup_delete_eq.
Qed.

Lemma mark_ok client (w : world) : node_ok w -> node_ok (mark_disconnected client w).
Proof.
  intros Hok. unfold node_ok, mark_disconnected. cbn [set_clients game_clients].
  change (pending_logins (set_clients _ w)) with (pending_logins w).
  change (session_tables (set_clients _ w)) with (session_tables w).
  destruct (game_clients w !! client) as [c|] eqn:Hc.
  - rewrite <- (insert_id (game_clients w) client c Hc) at 1. rewrite alter_insert_eq.
    apply client_change; [done|]. intros c0 Hc0. left. by simplify_eq.
  - rewrite alter_id; [done|]. intros; congruence.
Qed.

Lemma logout_ok client (w w' : world) :
  node_ok w -> dispatch_logout_request client w = Ret w' -> node_ok w'.
Proof.
  intros Hok Hrun. unfold dispatch_logout_request in Hrun. inv_ret. apply mark_ok.
  match goal with H : match identity ?c with _ => _ end = _ |- _ => destruct (identity c); inv_ret; [|done] end.
  by eapply disconnected_ok.
Qed.

Lemma error_ok client (w w' : world) :
  node_ok w -> client_error client w = Ret w' -> node_ok w'.
Proof.
  intros Hok Hrun. unfold client_error in Hrun. inv_ret. case_match; inv_ret; [done|]. apply mark_ok.
  match goal with H : match identity ?c with _ => _ end = _ |- _ => destruct (identity c); inv_ret; [|done] end.
  by eapply disconnected_ok.
Qed.

Lemma session_message_ok client msg len (w w' : world) :
  node_ok w -> dispatch_session_message client msg len w = Ret w' -> node_ok w'.
Proof.
  intros Hok Hrun. unfold dispatch_session_message in Hrun. inv_ret. case_match; inv_ret; [|done].
  match goal with H : received_message ?a _ _ _ _ = _ |- _ =>
    assert (Hq : quiet w (update_application a (app_event_dispatch MESSAGE_RECEIVED) w))
      by (by apply update_quiet); rename H into Hr end.
  unfold received_message in Hr. inv_ret. case_match; inv_ret; [|by eapply quiet_ok].
  eapply quiet_ok; [|exact Hok]. eapply quiet_trans; [exact Hq|]. by apply submit_quiet.
Qed.

Lemma login_ok client endpoint cred len (w w' : world) :
  node_ok w -> dispatch_login_request client endpoint cred len w = Ret w' -> node_ok w'.
Proof.
  intros Hok Hrun. unfold dispatch_login_request in Hrun. inv_ret.
  match goal with H : game_clients w !! client = Some ?y |- _ => rename y into c; rename H into Hc end.
  destruct (identity c) eqn:Hid; [by injection Hrun as <-|].
  assert (Hother : forall a, tables_ok (session_tables w) (<[client := GameClient a None
    (GameClient.disconnected c) (client_sock c)]> (game_clients w)) (pending_logins w)).
  { intros a. apply client_change; [done|]. intros c0 Hc0. right. congruence. }
  destruct (lookup_application endpoint w); [|injection Hrun as <-; apply Hother].
  apply bind_Ret in Hrun as ([who|] & _ & Hrun); [|injection Hrun as <-; apply Hother].
  unfold logged_in, gzochid_game_client_get_identity in Hrun. simpl in Hrun.
  rewrite lookup_insert_eq in Hrun. simpl in Hrun. injection Hrun as <-.
  unfold node_ok. rewrite submit_pending. simpl.
  by eapply client_login.
Qed.

Lemma payload_ok client opcode payload len (w w' : world) :
  node_ok w -> dispatch_payload client opcode payload len w = Ret w' -> node_ok w'.
Proof.
  intros Hok Hrun. unfold dispatch_payload in Hrun. repeat case_match.
  - apply bind_Ret in Hrun as ([pfx n] & _ & Hrun). inv_ret. by eapply login_ok.
  - by eapply logout_ok.
  - by eapply session_message_ok.
  - by injection Hrun as <-.
Qed.

(** ** Runs of a node

    Any interleaving of what clients send, of connections that come and go and of the
    parts of the login tasks.  What the transactions do to the node beside their
    functions is to deliver messages; an id that a session is stored under is new. *)

Section runs.

Context (tx_timeout : timeval).
Context (Hpersist : forall app who w oid w', session_persist app who w = Ret (oid, w') ->
  quiet w w' /\ forall o x, oid = Some o -> applications w' !! app = Some x -> oids_to_clients x !! o = None).
Context (Hremove : forall app oid w w', session_disconnected_worker app oid w = Ret w' -> quiet w w').
Context (Hscheme : forall app oid w w', scheme_logged_in_worker app oid w = Ret w' -> quiet w w').
Context (Htx : forall limit f w r w', in_transaction limit f w = Ret (r, w') ->
  exists w1, f w = Ret w1 /\ quiet w1 w').

Inductive game_op :=
| Accept (client sock : positive) (desc : bytes)
| Message (client : positive) (opcode : Z) (payload : bytes) (len : Z)
| Hangup (client : positive)
| BeginLogin (n : nat)
| ExecuteLogin (app : bytes) (oid : Z) (client : positive)
| AnnounceLogin (app : bytes) (oid : Z).

Definition take_task (n : nat) (w : world) : world :=
  Node (applications w) (game_clients w) (base.delete n (task_queue w)) (uplink w) (node_sockets w).

Definition game_step (op : game_op) (w : world) : outcome world :=
  match op with
  | Accept client sock desc => Ret (server_accept client sock desc w)
  | Message client opcode payload len => dispatch_payload client opcode payload len w
  | Hangup client => w ← client_error client w; Ret (client_free client w)
  | BeginLogin n =>
      match task_queue w !! n with
      | Some (LoggedIn app who client) =>
          '(_, w) ← login_begin app who client (take_task n w); Ret w
      | _ => Ret w
      end
  | ExecuteLogin app oid client => login_execute tx_timeout app oid client w
  | AnnounceLogin app oid => login_announce app oid w
  end.

(** A client is new when it is accepted; a connection that ends has no login pending,
    and its client did not ask to leave before it was logged in.  *)
Definition game_legal (op : game_op) (w : world) : Prop :=
  match op with
  | Accept client _ _ => game_clients w !! client = None
  | Hangup client =>
      (client ∉ (snd <$> pending_logins w))
      /\ (gzochid_game_client_disconnected client w = Ret true -> unmapped client w)
  | _ => True
  end.

Fixpoint game_run (ops : list game_op) (w : world) : outcome world :=
  match ops with
  | [] => Ret w
  | op :: ops => w ← game_step op w; game_run ops w
  end.

Fixpoint game_run_legal (ops : list game_op) (w : world) : Prop :=
  match ops with
  | [] => True
  | op :: ops => game_legal op w /\ forall w', game_step op w = Ret w' -> game_run_legal ops w'
  end.

Lemma accept_ok client sock desc (w : world) :
  node_ok w -> game_clients w !! client = None -> node_ok (server_accept client sock desc w).
Proof. intros Hok Hnew. apply (client_change _ _ _ Hok). intros c Hc. congruence. Qed.

Lemma hangup_ok client (w w' : world) :
  node_ok w -> game_legal (Hangup client) w -> game_step (Hangup client) w = Ret w' -> node_ok w'.
Proof.
  intros Hok [Hpend Hgone] Hrun. simpl in *. apply bind_Ret in Hrun as (w1 & Hrun & [= <-]).
  pose proof (error_ok _ _ _ Hok Hrun) as Hok1.
  assert (unmapped client w1 /\ pending_logins w1 = pending_logins w) as [Hun HQ].
  { unfold client_error in Hrun. apply bind_Ret in Hrun as (c & Hc%deref_Ret & Hrun).
    unfold gzochid_game_client_disconnected in Hgone. rewrite Hc in Hgone. simpl in Hgone.
    destruct (GameClient.disconnected c); [injection Hrun as <-; auto|].
    destruct (identity c) as [who|] eqn:Hid.
    - apply bind_Ret in Hrun as (w2 & (app & Happ%deref_Ret & Hrun)%bind_Ret & [= <-]).
      destruct (disconnected_ok _ _ _ _ Hok Hrun) as (Hok2 & HC & HQ & Hno).
      split; [|done]. apply (unmapped_in w2 client c app); [done|by rewrite HC|done|done].
    - cbn [mbind outcome_bind] in Hrun. injection Hrun as <-. split; [|done]. intros a o2c c2o Ha.
      destruct (c2o !! client) as [o|] eqn:Ho; [|done].
      destruct (ok_mapped _ _ _ Hok a o2c c2o client o Ha Ho) as (? & ? & ? & ? & ?). congruence. }
  apply client_delete; [done|done|].
  change (client ∉ (snd <$> pending_logins w1)). by rewrite HQ.
Qed.

Lemma persist_step app who (w : world) oid w' :
  session_persist app who w = Ret (oid, w') -> quiet w w'.
Proof. intros H. by destruct (Hpersist _ _ _ _ _ H). Qed.

Lemma take_pending n (w : world) app who client :
  task_queue w !! n = Some (LoggedIn app who client) ->
  exists Q1 Q2, pending_logins w = Q1 ++ (app, who, client) :: Q2
    /\ pending_logins (take_task n w) = Q1 ++ Q2.
Proof.
  intros Hn. unfold pending_logins, take_task. cbn [task_queue].
  exists (omap login_of (take n (task_queue w))), (omap login_of (drop (S n) (task_queue w))).
  rewrite delete_take_drop, omap_app. split; [|done].
  transitivity (omap login_of (take n (task_queue w) ++ LoggedIn app who client :: drop (S n) (task_queue w)));
    [by rewrite (take_drop_middle _ _ _ Hn)|]. by rewrite omap_app.
Qed.

Lemma begin_ok n (w w' : world) :
  node_ok w -> game_step (BeginLogin n) w = Ret w' -> node_ok w'.
Proof.
  intros Hok Hrun. simpl in Hrun. destruct (task_queue w !! n) as [[app who client| |]|] eqn:Hn;
    try (by injection Hrun as <-).
  apply bind_Ret in Hrun as ([oid w1] & Hrun & [= <-]).
  destruct (take_pending n w app who client Hn) as (Q1 & Q2 & HQ & HQ').
  unfold login_begin in Hrun. apply bind_Ret in Hrun as ([oid' w2] & Hp & Hrun).
  destruct (Hpersist _ _ _ _ _ Hp) as [Hq Hnew].
  assert (Hok2 : tables_ok (session_tables w2) (game_clients w2) (pending_logins w)).
  { destruct Hq as (-> & -> & _). exact Hok. }
  assert (HQ2 : pending_logins w2 = Q1 ++ Q2) by (destruct Hq as (_ & _ & ->); exact HQ').
  assert (Hsub : sublist (Q1 ++ Q2) (pending_logins w)).
  { rewrite HQ. by apply sublist_app, sublist_cons. }
  destruct oid' as [o|].
  - apply bind_Ret in Hrun as (c & _ & [= <- <-]).
    destruct (applications w2 !! app) as [x|] eqn:Hx.
    + unfold node_ok. rewrite (update_tables _ _ _ x) by done.
      change (pending_logins (update_application _ _ w2)) with (pending_logins w2). rewrite HQ2.
      apply (tables_map _ _ _ Hok2 app who).
      * rewrite HQ. set_solver.
      * by apply tables_lookup.
      * by apply (Hnew o x).
      * intros y Hy. by eapply elem_of_sublist.
      * eapply sublist_NoDup; [exact (ok_once _ _ _ Hok2)|]. clear -Hsub.
        induction Hsub; simpl; by constructor.
      * pose proof (ok_once _ _ _ Hok2) as Hnodup. rewrite HQ, fmap_app, fmap_cons in Hnodup.
        rewrite fmap_app. simpl in Hnodup. apply NoDup_app in Hnodup as (_ & Hdis & [Hno _]%NoDup_cons).
        intros [Hin|Hin]%elem_of_app; [|done]. apply (Hdis client Hin). set_solver.
    + assert (update_application app (fun x => set_mapping (<[o:=client]> (oids_to_clients x))
        (<[client:=o]> (clients_to_oids x)) x) w2 = w2) as ->.
      { unfold update_application, set_applications. rewrite alter_id by (intros; congruence).
        by destruct w2. }
      unfold node_ok. rewrite HQ2. by apply (tables_less _ _ _ Hok2).
  - apply bind_Ret in Hrun as (w3 & Hd & [= <- <-]).
    apply write_client_quiet in Hd. eapply quiet_ok; [exact Hd|].
    unfold node_ok. rewrite HQ2. by apply (tables_less _ _ _ Hok2).
Qed.

Lemma catch_ok app oid (w w' : world) :
  node_ok w -> login_catch_worker app oid w = Ret w' -> node_ok w'.
Proof.
  intros Hok Hrun. unfold login_catch_worker in Hrun.
  apply bind_Ret in Hrun as (x & Hx%deref_Ret & Hrun).
  apply bind_Ret in Hrun as (client & Hc%deref_Ret & Hrun). rewrite Hc in Hrun.
  apply bind_Ret in Hrun as (w1 & Hd & Hrm).
  eapply quiet_ok; [by eapply Hremove|].
  eapply quiet_ok; [by eapply write_client_quiet|]. by eapply unmap_ok.
Qed.

Lemma worker_ok app oid t (w w' : world) :
  node_ok w -> login_worker app oid t w = Ret w' -> node_ok w'.
Proof.
  intros Hok Hrun. destruct t; simpl in Hrun.
  - eapply quiet_ok; [by eapply Hscheme|done].
  - by eapply catch_ok.
  - by injection Hrun as <-.
Qed.

Lemma transaction_ok app oid limit t (w w' : world) r :
  node_ok w -> in_transaction limit (login_worker app oid t) w = Ret (r, w') -> node_ok w'.
Proof.
  intros Hok Hrun. destruct (Htx _ _ _ _ _ Hrun) as (w1 & Hf & Hq).
  eapply quiet_ok; [exact Hq|]. by eapply worker_ok.
Qed.

Lemma execute_ok app oid client (w w' : world) :
  node_ok w -> login_execute tx_timeout app oid client w = Ret w' -> node_ok w'.
Proof.
  intros Hok Hrun. unfold login_execute in Hrun. apply bind_Ret in Hrun as (who & _ & Hrun).
  revert Hok. eapply reexecuting_keeps; [..|exact Hrun].
  - intros limit t s r s' Ht Hs. eapply transaction_ok; [exact Hs|exact Ht].
  - intros t s s' Ht Hs. by eapply worker_ok.
Qed.

Lemma announce_ok app oid (w w' : world) :
  node_ok w -> login_announce app oid w = Ret w' -> node_ok w'.
Proof.
  intros Hok Hrun. unfold login_announce in Hrun. inv_ret. repeat case_match; inv_ret; try done.
  eapply quiet_ok; [|exact Hok]. unfold gzochid_sessionclient_session_connected in *.
  inv_ret. by eapply write_uplink_quiet.
Qed.

(** C27. In every run of a node in which no connection ends while a login of its client is
    pending, and none whose client asked to leave before it was logged in and was mapped
    then, the tables of sessions and clients of each application stay inverses of each other
    (the runs with such ends of connections break this: [login_after_hangup],
    [logout_before_login]): a session has one client and a client one session, in
    one application, the one it has authenticated for; a login that has not begun is
    of a client that has no session, and there is one for each client. *)
Theorem session_tables_inverse (ops : list game_op) (w w' : world)
    (Hok : node_ok w) (Hlegal : game_run_legal ops w) (Hrun : game_run ops w = Ret w') :
  (forall app x p o, applications w' !! app = Some x ->
     (clients_to_oids x !! p = Some o <-> oids_to_clients x !! o = Some p)
     /\ (clients_to_oids x !! p = Some o -> exists c who,
          game_clients w' !! p = Some c /\ client_app c = Some app /\ identity c = Some who))
  /\ (forall app who p x, LoggedIn app who p ∈ task_queue w' -> applications w' !! app = Some x ->
       clients_to_oids x !! p = None)
  /\ NoDup (snd <$> pending_logins w').
Proof.
  assert (node_ok w') as [H1 H2 H3 H4].
  { clear - Hpersist Hremove Hscheme Htx Hok Hlegal Hrun. revert w Hok Hlegal Hrun.
    induction ops as [|op ops IH]; intros w Hok Hlegal Hrun; [by injection Hrun as <-|].
    destruct Hlegal as [Hop Hlegal]. apply bind_Ret in Hrun as (w1 & Hstep & Hrun).
    apply (IH w1); [|by apply Hlegal|done]. destruct op; simpl in Hstep.
    - injection Hstep as <-. by apply accept_ok.
    - by eapply payload_ok.
    - by eapply hangup_ok.
    - by eapply begin_ok.
    - by eapply execute_ok.
    - by eapply announce_ok. }
  split_and!; [| |done].
  - intros app x p o Hx. pose proof (tables_lookup app w' x Hx) as HT. split; eauto.
  - intros app who p x Hin Hx. destruct (H3 app who p) as [_ Hno].
    + apply list_elem_of_omap. by exists (LoggedIn app who p).
    + eapply Hno. by apply tables_lookup.
Qed.

End runs.

End game_protocol.

(** ** Examples *)

Definition sample_app : bytes := [97; 0].

Definition sample_persist (app : bytes) (who : option bytes) (w : node bytes unit)
  : outcome (option Z * node bytes unit) :=
  Ret (Some (match applications w !! app with
             | Some x => fresh (dom (oids_to_clients x))
             | None => 0
             end), w).

Definition sample_scheme (app : bytes) (oid : Z) (w : node bytes unit) : outcome (node bytes unit) := Ret w.

Definition sample_transaction (limit : option timeval)
    (f : node bytes unit -> outcome (node bytes unit)) (w : node bytes unit)
  : outcome (gzochid_transaction_result * node bytes unit) :=
  w ← f w; Ret (TX_SUCCESS, w).

Definition sample_game : node bytes unit :=
  Node {[ sample_app := ApplicationContext ∅ ∅ ∅ false [] ]} ∅ []
    (ReconnectableSocket None [] []) ∅.

Definition sample_run : list game_op -> node bytes unit -> outcome (node bytes unit) :=
  game_run (fun _ => Auth.gzochid_auth_function_pass_thru) sample_persist sample_scheme sample_scheme
    sample_transaction (Timeval 5 0).

(** A client logs in as [b], sends a message and hangs up. *)
Definition sample_session : list game_op :=
  [Accept 1 2 []; Message 1 16 (sample_app ++ [98]) 3; BeginLogin 0; ExecuteLogin sample_app 0 1;
   AnnounceLogin sample_app 0; Message 1 49 [7; 8] 2; Hangup 1].

Example sample_session_tasks :
  task_queue <$> sample_run sample_session sample_game
  = Ret [ReceivedMessage sample_app (Some [98; 0]) 0 [7; 8]; Disconnected sample_app (Some [98; 0]) 0].
Proof. vm_compute. reflexivity. Qed.

(** A client that hangs up before its login begins is freed, but the task of the login
    still has its address. *)
Example login_after_hangup :
  sample_run [Accept 1 2 []; Message 1 16 (sample_app ++ [98]) 3; Hangup 1; BeginLogin 0] sample_game = Undef.
Proof. vm_compute. reflexivity. Qed.

(** A client that asks to leave before it logs in stays mapped after it is freed. *)
Example logout_before_login :
  (fun w => (clients_to_oids <$> applications w !! sample_app, game_clients w))
    <$> sample_run [Accept 1 2 []; Message 1 32 [] 0; Message 1 16 (sample_app ++ [98]) 3; BeginLogin 0; Hangup 1]
          sample_game
  = Ret (Some {[ 1%positive := 0 ]}, ∅).
Proof. vm_compute. reflexivity. Qed.

(** A message of 32768 bytes has a negative length. *)
Example long_session_message :
  sample_run [Accept 1 2 []; Message 1 16 (sample_app ++ [98]) 3; BeginLogin 0;
              Message 1 49 (replicate (Z.to_nat 32768) 0) 32768] sample_game = Undef.
Proof. vm_compute. reflexivity. Qed.

(** A login that fails after the client has left ends in a null pointer. *)
Example login_fails_after_hangup :
  game_run (fun _ => Auth.gzochid_auth_function_pass_thru) sample_persist sample_scheme sample_scheme
    (fun limit f w => w ← f w; Ret (TX_FAILURE, w)) (Timeval 5 0)
    [Accept 1 2 []; Message 1 16 (sample_app ++ [98]) 3; BeginLogin 0; Message 1 32 [] 0;
     ExecuteLogin sample_app 0 1] sample_game = Undef.
Proof. vm_compute. reflexivity. Qed.

Lemma sample_game_ok : node_ok sample_game.
Proof.
  split.
  - intros app o2c c2o p o. unfold session_tables, sample_game. cbn [applications].
    rewrite map_fmap_singleton. intros [_ [= <- <-]]%lookup_singleton_Some. by rewrite !lookup_empty.
  - intros app o2c c2o p o. unfold session_tables, sample_game. cbn [applications].
    rewrite map_fmap_singleton. intros [_ [= <- <-]]%lookup_singleton_Some. by rewrite !lookup_empty.
  - intros app who p Hin. inversion Hin.
  - constructor.
Qed.

Lemma sample_persist_ok app who (w w' : node bytes unit) oid :
  sample_persist app who w = Ret (oid, w') ->
  quiet w w' /\ forall o x, oid = Some o -> applications w' !! app = Some x -> oids_to_clients x !! o = None.
Proof.
  intros [= <- <-]. split; [done|]. intros o x [= <-] Hx. rewrite Hx.
  apply not_elem_of_dom, is_fresh.
Qed.

Lemma sample_scheme_ok app oid (w w' : node bytes unit) : sample_scheme app oid w = Ret w' -> quiet w w'.
Proof. by intros [= <-]. Qed.

Lemma sample_transaction_ok limit f (w w' : node bytes unit) r :
  sample_transaction limit f w = Ret (r, w') -> exists w1, f w = Ret w1 /\ quiet w1 w'.
Proof. intros (w1 & Hw1 & [= <- <-])%bind_Ret. by exists w1. Qed.

Lemma session_tables_inverse_witness :
  exists w', sample_run (take 6 sample_session) sample_game = Ret w'
    /\ forall app x p o, applications w' !! app = Some x ->
         clients_to_oids x !! p = Some o <-> oids_to_clients x !! o = Some p.
Proof.
  destruct (sample_run (take 6 sample_session) sample_game) as [w'| | |] eqn:Hrun.
  - exists w'. split; [done|]. intros app x p o Hx.
    refine (proj1 (proj1 (session_tables_inverse (fun _ => Auth.gzochid_auth_function_pass_thru) sample_persist
      sample_scheme sample_scheme sample_transaction (Timeval 5 0)
      (fun a who w oid w' => sample_persist_ok a who w w' oid)
      sample_scheme_ok sample_scheme_ok (fun l f w r w' => sample_transaction_ok l f w w' r)
      (take 6 sample_session) sample_game w' sample_game_ok _ Hrun) app x p o Hx)).
    do 6 (split; [done|intros ? ?]). done.
  - vm_compute in Hrun. discriminate.
  - vm_compute in Hrun. discriminate.
  - vm_compute in Hrun. discriminate.
Defined.
