(* ===== verification/GameLogin.v ===== *)
(** * The life of a session of a game client

    What a client of [GameProtocol] meets with: the login, from the stored session to
    the notice to the meta server or to the rejection, and the stream of what it sends
    while it plays, up to its leaving. *)

From S2P Require Import Prelude.
From S2P Require Import Io.
From S2P Require Import Util.
From S2P Require Import DataProtocol.
From S2P Require Import Tx.
From S2P Require Import AppTask.
From S2P Require Import Auth.
From S2P Require Import Socket.
From S2P Require Import Framing.
From S2P Require Import MetaProtocol.
From S2P Require Import GameClient.
From S2P Require Import SessionClient.
From S2P Require Import GameProtocol.

Local Open Scope Z_scope.

(** ** What transactions do to a node

    They deliver messages: tables, clients and open connections stay. *)

Section delivers.

Context {I L : Type}.
Abbreviation world := (node I L).

Definition open_socket (p : positive) (w : world) : Prop :=
  exists sk, node_sockets w !! p = Some sk /\ sock_server sk = true.

Record delivers (w w' : world) : Prop := {
  del_quiet : quiet w w';
  del_meta : forall app, metaclient <$> applications w' !! app = metaclient <$> applications w !! app;
  del_uplink : socket (uplink w') = socket (uplink w);
  del_open : forall p, open_socket p w -> open_socket p w'
}.

Lemma delivers_refl (w : world) : delivers w w.
Proof. by split. Qed.

Lemma delivers_trans (w1 w2 w3 : world) : delivers w1 w2 -> delivers w2 w3 -> delivers w1 w3.
Proof.
  intros [Q1 M1 U1 O1] [Q2 M2 U2 O2]. split; [by eapply quiet_trans|congruence|congruence|auto].
Qed.

#[export] Instance delivers_preorder : PreOrder delivers.
Proof. split; [exact delivers_refl|exact delivers_trans]. Qed.

(** The connection to the meta server is open, if there is one. *)
Definition uplink_open (w : world) : Prop :=
  match socket (uplink w) with Some p => open_socket p w | None => True end.

Lemma delivers_uplink (w w' : world) : delivers w w' -> uplink_open w -> uplink_open w'.
Proof.
  intros [_ _ U O]. unfold uplink_open. rewrite U. destruct (socket (uplink w)); [apply O|done].
Qed.

Lemma write_open (p : positive) (buf : bytes) (w : world) :
  open_socket p w -> exists t, gzochid_client_socket_write p buf (Z.of_nat (length buf)) (node_sockets w) = Ret t
    /\ forall q sk, node_sockets w !! q = Some sk -> sock_server sk = true ->
         exists sk', t !! q = Some sk' /\ sock_server sk' = true.
Proof.
  intros (sk & Hsk & Hserver). rewrite (write_ok _ _ _ sk Hsk Hserver). eexists. split; [done|].
  intros q sk' Hq Hserver'. destruct (decide (p = q)) as [->|Hne].
  - rewrite lookup_insert_eq. eauto.
  - rewrite lookup_insert_ne by done. eauto.
Qed.

Lemma write_client_delivers (client : positive) (buf : bytes) (w : world) c :
  game_clients w !! client = Some c -> open_socket (client_sock c) w ->
  exists w', write_client client buf (Z.of_nat (length buf)) w = Ret w' /\ delivers w w'.
Proof.
  intros Hc Hopen. destruct (write_open _ buf w Hopen) as (t & Ht & Hkeep).
  unfold write_client. rewrite Hc. run. rewrite Ht. run. eexists. split; [done|].
  split; [done|done|done|]. intros p (sk & Hsk & Hserver). by eapply Hkeep.
Qed.

Lemma write_uplink_delivers (buf : bytes) (w : world) :
  uplink_open w -> exists w', write_uplink buf w = Ret w' /\ delivers w w'.
Proof.
  unfold uplink_open, write_uplink, gzochid_reconnectable_socket_write.
  destruct (socket (uplink w)) as [p|] eqn:Hp; intros Hopen.
  - destruct (write_open _ buf w Hopen) as (t & Ht & Hkeep). rewrite Ht. run.
    eexists. split; [done|]. split; [done|done|done|]. intros q (sk & Hsk & Hserver). by eapply Hkeep.
  - rewrite byte_array_append_all. run. eexists. split; [done|].
    split; [done|done|by simpl|]. intros q (sk & Hsk & Hserver). by exists sk.
Qed.

(** Changing the tables of an application changes nothing else. *)
Lemma update_open app f (w : world) p : open_socket p (update_application app f w) <-> open_socket p w.
Proof. done. Qed.

End delivers.

(** ** Logging in *)

Section login.

Context {I L : Type}.
Abbreviation world := (node I L).
Context (session_persist : bytes -> option I -> world -> outcome (option Z * world)).
Context (session_disconnected_worker : bytes -> Z -> world -> outcome world).
Context (scheme_logged_in_worker : bytes -> Z -> world -> outcome world).
Context (in_transaction : option timeval -> (world -> outcome world) -> world ->
  outcome (gzochid_transaction_result * world)).
Context (Hremove : forall app oid w, exists w', session_disconnected_worker app oid w = Ret w' /\ delivers w w').
Context (Hscheme : forall app oid w, exists w', scheme_logged_in_worker app oid w = Ret w' /\ delivers w w').
Context (Htx : forall limit f w w1, f w = Ret w1 ->
  exists r w2, in_transaction limit f w = Ret (r, w2) /\ delivers w1 w2).

Abbreviation login_worker := (login_worker session_disconnected_worker scheme_logged_in_worker).
Abbreviation logged_in_task := (logged_in_task session_persist session_disconnected_worker
  scheme_logged_in_worker in_transaction).

Definition execute_login (app : bytes) (oid : Z) (limit : option timeval) (t : login_task) (w : world)
  : outcome (gzochid_transaction_result * world) :=
  in_transaction limit (login_worker app oid t) w.

Definition session_mapped (app : bytes) (oid : Z) (client : positive) (w : world) : Prop :=
  exists o2c c2o, session_tables w !! app = Some (o2c, c2o)
    /\ o2c !! oid = Some client /\ c2o !! client = Some oid.

Definition session_unmapped (app : bytes) (oid : Z) (client : positive) (w : world) : Prop :=
  exists o2c c2o, session_tables w !! app = Some (o2c, c2o)
    /\ o2c !! oid = None /\ c2o !! client = None.

Lemma delivers_mapped app oid client (w w' : world) :
  delivers w w' -> session_mapped app oid client w -> session_mapped app oid client w'.
Proof. intros [(HT & _) _ _ _]. unfold session_mapped. by rewrite HT. Qed.

Lemma delivers_unmapped app oid client (w w' : world) :
  delivers w w' -> session_unmapped app oid client w -> session_unmapped app oid client w'.
Proof. intros [(HT & _) _ _ _]. unfold session_unmapped. by rewrite HT. Qed.

Lemma mapped_application app oid client (w : world) :
  session_mapped app oid client w ->
  exists x, applications w !! app = Some x /\ oids_to_clients x !! oid = Some client
    /\ clients_to_oids x !! client = Some oid.
Proof.
  intros (o2c & c2o & HT & Ho & Hc).
  destruct (tables_lookup_inv _ _ _ _ HT) as (x & Hx & <- & <-). eauto.
Qed.

Lemma unmap_unmapped app oid client (w : world) :
  session_mapped app oid client w ->
  session_unmapped app oid client (update_application app (unmap oid (Some client)) w).
Proof.
  intros (x & Hx & Ho & Hc)%mapped_application. unfold session_unmapped.
  rewrite (update_tables _ _ _ x) by done. rewrite lookup_insert_eq. eexists _, _. split; [done|].
  simpl. by rewrite !lookup_delete_eq.
Qed.

(** The catch task ends a session that is mapped. *)
Lemma catch_session app oid client c (w : world) :
  session_mapped app oid client w -> game_clients w !! client = Some c -> open_socket (client_sock c) w ->
  exists w3 w', write_client client [0; 0; GZOCHI_COMMON_PROTOCOL_SESSION_DISCONNECTED] 3
      (update_application app (unmap oid (Some client)) w) = Ret w3
    /\ delivers (update_application app (unmap oid (Some client)) w) w3 /\ delivers w3 w'
    /\ login_catch_worker session_disconnected_worker app oid w = Ret w'.
Proof.
  intros (x & Hx & Ho & Hc)%mapped_application Hcl Hopen.
  destruct (write_client_delivers client [0; 0; GZOCHI_COMMON_PROTOCOL_SESSION_DISCONNECTED]
    (update_application app (unmap oid (Some client)) w) c) as (w3 & Hw3 & Hd); [done|done|].
  destruct (Hremove app oid w3) as (w' & Hw' & Hd'). exists w3, w'.
  split_and!; [done|done|done|]. unfold login_catch_worker, lookup_application.
  rewrite Hx. run. rewrite Ho. run. unfold gzochid_game_client_disconnect.
  change (Z.of_nat (length _)) with 3 in Hw3. rewrite Hw3. done.
Qed.

(** The attempts of the login task. *)
Lemma login_attempts tx_timeout app oid (w : world) :
  exists r a w2, attempt_loop (execute_login app oid) 3 (login_execution tx_timeout) w
      = Ret (Execution LoginTask (Some LoginCatchTask) (Some LoginCleanupTask) (Some tx_timeout) a 3 r, w2)
    /\ delivers w w2 /\ attempted (execute_login app oid) (Some tx_timeout) LoginTask 3 w r w2.
Proof.
  destruct (attempt_loop_in (execute_login app oid) (delivers w) 3 (login_execution tx_timeout) w)
    as (r & a & w2 & Hl & Hd & Hatt); [|reflexivity|done..|].
  - intros s Hs. destruct (Hscheme app oid s) as (s1 & Hs1 & Hd1).
    destruct (Htx (Some tx_timeout) (login_worker app oid LoginTask) s s1 Hs1) as (r & s2 & Hr & Hd2).
    exists r, s2. split; [done|]. by do 2 (etransitivity; [eassumption|]).
  - exists r, a, w2. split_and!; [done|done|exact Hatt].
Qed.

Definition map_session (app : bytes) (oid : Z) (client : positive) (w : world) : world :=
  update_application app (fun x =>
    set_mapping (<[oid := client]> (oids_to_clients x)) (<[client := oid]> (clients_to_oids x)) x) w.

Lemma map_session_mapped app oid client (w : world) x :
  applications w !! app = Some x -> session_mapped app oid client (map_session app oid client w).
Proof.
  intros Hx. unfold session_mapped, map_session. rewrite (update_tables _ _ _ x) by done.
  rewrite lookup_insert_eq. eexists _, _. split; [done|]. simpl. by rewrite !lookup_insert_eq.
Qed.

(** The execution of a login that is mapped: the session stays, or it is ended. *)
Lemma login_executes tx_timeout app oid client c (w : world) :
  session_mapped app oid client w -> game_clients w !! client = Some c -> open_socket (client_sock c) w ->
  exists r w2 w', attempted (execute_login app oid) (Some tx_timeout) LoginTask 3 w r w2
    /\ delivers w w2
    /\ login_execute session_disconnected_worker scheme_logged_in_worker in_transaction
         tx_timeout app oid client w = Ret w'
    /\ if decide (r = TX_SUCCESS) then w' = w2
       else exists w3, write_client client [0; 0; 48] 3
           (update_application app (unmap oid (Some client)) w2) = Ret w3
         /\ delivers (update_application app (unmap oid (Some client)) w2) w3 /\ delivers w3 w'.
Proof.
  intros Hmap Hc Hopen. destruct (login_attempts tx_timeout app oid w) as (r & a & w2 & Hl & Hd & Hatt).
  unfold login_execute, gzochid_game_client_get_identity. rewrite Hc. run.
  cbn [gzochid_application_reexecuting_transactional_task_worker].
  change (fun limit t => in_transaction limit (login_worker app oid t)) with (execute_login app oid).
  rewrite Hl. run. cbn [catch_task timeout failed result]. unfold failed. cbn [result].
  destruct (decide (r = TX_SUCCESS)) as [Hr|Hr].
  - rewrite bool_decide_true by done. exists r, w2, w2. by rewrite decide_True.
  - rewrite bool_decide_false by done. cbn [negb attempt_loop].
    destruct (catch_session app oid client c w2) as (w3 & w4 & Hw3 & Hd3 & Hd4 & Hcatch).
    { by eapply delivers_mapped. }
    { destruct Hd as [(_ & -> & _) _ _ _]. done. }
    { by apply Hd. }
    destruct (Htx (Some tx_timeout) (login_worker app oid LoginCatchTask) w2 w4 Hcatch)
      as (r' & w5 & Hr5 & Hd5).
    set (e := set_max_attempts 1 _).
    destruct (attempt_once_in (execute_login app oid) (fun s => s = w5) e w2)
      as (r2 & w6 & Hr6 & -> & Hrun); [by exists r', w5|done|done|].
    rewrite Hrun. run. unfold gzochid_application_should_retry. cbn. rewrite andb_false_r. cbn.
    exists r, w2, w5. rewrite decide_False by done. split_and!; [done|done|done|].
    exists w3. split_and!; [done|done|]. by etransitivity.
Qed.

(** C28. The login of a client whose session is stored ends in one of two ways, after at
    most three attempts of the callback.  If the last succeeds, the session and the
    client are mapped to each other, and then the meta server, if there is one, is told
    of the session once.  If not, the session is unmapped, the client is sent that it is
    disconnected, and the meta server is told nothing. *)
Theorem login_completes (tx_timeout : timeval) (s : bytes) (who : option I) (client : positive) (oid : Z)
    (x : gzochid_application_context) (c : gzochid_game_client I) (w w1 : world)
    (Hs : nonzero s)
    (Hpersist : session_persist (s ++ [0]) who w = Ret (Some oid, w1))
    (Hx : applications w1 !! (s ++ [0]) = Some x)
    (Hc : game_clients w1 !! client = Some c)
    (Hopen : open_socket (client_sock c) w1) (Hup : uplink_open w1) :
  exists r w2 w', attempted (execute_login (s ++ [0]) oid) (Some tx_timeout) LoginTask 3
      (map_session (s ++ [0]) oid client w1) r w2
    /\ logged_in_task tx_timeout (s ++ [0]) who client w = Ret w'
    /\ if decide (r = TX_SUCCESS) then
         session_mapped (s ++ [0]) oid client w2
         /\ if metaclient x then write_uplink (frame (96 :: (s ++ [0]) ++ be_encode 8 oid)) w2 = Ret w'
            else w' = w2
       else session_unmapped (s ++ [0]) oid client w'
         /\ exists w3, write_client client [0; 0; 48] 3
              (update_application (s ++ [0]) (unmap oid (Some client)) w2) = Ret w3
            /\ delivers w3 w'.
Proof.
  set (app := s ++ [0]) in *.
  pose proof (map_session_mapped app oid client w1 x Hx) as Hmap.
  destruct (login_executes tx_timeout app oid client c (map_session app oid client w1))
    as (r & w2 & w3 & Hatt & Hd & Hexec & Hend); [done..|].
  unfold GameProtocol.logged_in_task, login_begin. rewrite Hpersist. run. rewrite Hc. run.
  change (update_application app _ w1) with (map_session app oid client w1). rewrite Hexec. run.
  unfold login_announce, lookup_application.
  pose proof (delivers_mapped _ _ _ _ _ Hd Hmap) as Hmap2.
  destruct (mapped_application _ _ _ _ Hmap2) as (x2 & Hx2 & Ho2 & Hc2).
  assert (Hmeta : metaclient x2 = metaclient x).
  { pose proof (del_meta _ _ Hd app) as Hm. rewrite Hx2 in Hm. unfold map_session in Hm.
    simpl in Hm. rewrite lookup_alter_eq, Hx in Hm. by injection Hm as ->. }
  destruct (decide (r = TX_SUCCESS)) as [Hr|Hr].
  - subst w3. rewrite Hx2. run. rewrite Ho2, Hmeta.
    destruct (metaclient x).
    + unfold gzochid_sessionclient_session_connected. subst app. rewrite oid_message_ok by done. run.
      destruct (write_uplink_delivers (frame (96 :: (s ++ [0]) ++ be_encode 8 oid)) w2) as (w' & Hw' & _).
      { eapply delivers_uplink; [exact Hd|done]. }
      exists r, w2, w'. rewrite decide_True by done.
      split_and!; [done| |done|exact Hw']. rewrite <- app_assoc in Hw'. exact Hw'.
    + exists r, w2, w2. by rewrite decide_True.
  - destruct Hend as (w4 & Hw4 & Hd4 & Hd5).
    assert (Hun : session_unmapped app oid client w3).
    { eapply delivers_unmapped; [exact Hd5|]. eapply delivers_unmapped; [exact Hd4|].
      by apply unmap_unmapped. }
    destruct Hun as (o2c & c2o & HT & Ho & Hcn).
    destruct (tables_lookup_inv _ _ _ _ HT) as (x3 & Hx3 & <- & <-).
    rewrite Hx3. run. rewrite Ho. exists r, w2, w3. rewrite decide_False by done.
    split_and!; [done|done| |by exists w4]. eexists _, _. split_and!; done.
Qed.

End login.

(** ** Playing *)

Section stream.

Context {I L : Type}.
Abbreviation world := (node I L).
Context (authenticator : bytes -> bytes -> Z -> outcome (option I)).
(** An authenticator looks at the credentials only. *)
Context (Hauth : forall app c1 c2 n, take (Z.to_nat n) c1 = take (Z.to_nat n) c2 ->
  authenticator app c1 n = authenticator app c2 n).

Abbreviation dispatch_payload := (dispatch_payload authenticator).
Abbreviation dispatch_message := (dispatch_message authenticator).
Abbreviation game_protocol := (gzochid_game_client_protocol (L := L) authenticator).

(** Lengths that a [short] can hold. *)
Definition short_message (m : bytes) : Prop := (Z.of_nat (length m) < 2 ^ 15).

Lemma login_endpoint_ok (payload : bytes) :
  Z.of_nat (length payload) < 2 ^ 15 - 1 ->
  exists pfx n, login_endpoint payload (Z.of_nat (length payload)) = Ret (pfx, n)
    /\ 0 <= n <= Z.of_nat (length payload) + 1.
Proof.
  intros Hlen. unfold login_endpoint. rewrite Nat2Z.id.
  destruct (memchr0_total payload (length payload) (le_n _)) as ([e|] & -> & He); run.
  - specialize (He e eq_refl). eexists _, _. split; [done|].
    rewrite signed_small; unfold in_signed; lia.
  - eexists _, _. split; [done|]. rewrite signed_small; unfold in_signed; lia.
Qed.

Lemma login_endpoint_local (payload post : bytes) :
  login_endpoint (payload ++ post) (Z.of_nat (length payload))
  = login_endpoint payload (Z.of_nat (length payload)).
Proof.
  unfold login_endpoint. rewrite Nat2Z.id, memchr0_local by done.
  destruct (memchr0_total payload (length payload) (le_n _)) as ([e|] & -> & He); run.
  - specialize (He e eq_refl). by rewrite take_app_le by lia.
  - by rewrite take_app_length, take_ge by done.
Qed.

Lemma game_dispatch_local (client : positive) :
  local_payload (W := world) (dispatch_payload client) short_message.
Proof.
  intros opcode payload post w Hshort _. unfold short_message in Hshort. cbn [length] in Hshort.
  unfold GameProtocol.dispatch_payload. rewrite login_endpoint_local.
  destruct (login_endpoint_ok payload) as (pfx & n & -> & Hn); [lia|]. run.
  destruct (Z.ltb_spec n 0); [lia|]. run.
  rewrite !(signed_small 16) by (unfold in_signed; lia).
  destruct (opcode =? GZOCHI_COMMON_PROTOCOL_LOGIN_REQUEST).
  - unfold dispatch_login_request. destruct (game_clients w !! client) as [c|]; [|done]. run.
    destruct (identity c); [done|]. destruct (lookup_application pfx w); [|done].
    erewrite Hauth; [done|].
    destruct (decide (n <= Z.of_nat (length payload))).
    + rewrite drop_app_le by lia. rewrite take_app_le; [done|]. rewrite length_drop. lia.
    + by replace (Z.to_nat (Z.of_nat (length payload) - n)) with 0%nat by lia.
  - destruct (opcode =? GZOCHI_COMMON_PROTOCOL_LOGOUT_REQUEST); [done|].
    destruct (opcode =? GZOCHI_COMMON_PROTOCOL_SESSION_MESSAGE); [|done].
    unfold dispatch_session_message, received_message.
    destruct (game_clients w !! client) as [c|]; [|done]. run. destruct (identity c); [|done].
    rewrite memcpy_from_local; [done|]. rewrite u64_small by lia. lia.
Qed.

(** Operations that do not look at sockets. *)
Lemma blind_read {A} (get : world -> outcome A) (f : A -> world -> outcome world) :
  (forall p b w, get (set_recv p b w) = get w) -> (forall a, blind (f a)) ->
  blind (fun w => a ← get w; f a w).
Proof.
  intros Hget Hf. split.
  - intros p b w. rewrite Hget. destruct (get w) as [a| | |]; [apply (Hf a)|done..].
  - intros p b w w'. destruct (get w) as [a| | |]; [apply (Hf a)|done..].
Qed.

Lemma blind_pure (f : world -> world) (g : world -> outcome world) :
  (forall p b w, f (set_recv p b w) = set_recv p b (f w)) ->
  (forall w, node_sockets (f w) = node_sockets w) -> blind g ->
  blind (fun w => g (f w)).
Proof.
  intros Hcomm Hkeep [Hg1 Hg2]. split.
  - intros p b w. rewrite Hcomm. apply Hg1.
  - intros p b w w' Hw Hrecv. eapply Hg2; [exact Hw|]. unfold received in *. cbn in *. by rewrite Hkeep.
Qed.

Lemma blind_then (f : world -> outcome world) (h : world -> world) :
  blind f -> (forall p b w, h (set_recv p b w) = set_recv p b (h w)) ->
  (forall w, node_sockets (h w) = node_sockets w) -> blind (fun w => w ← f w; Ret (h w)).
Proof.
  intros Hf Hcomm Hkeep. apply blind_seq; [done|].
  apply (blind_pure h (fun w => Ret w)); [done|done|apply blind_ret].
Qed.

Ltac blind_step :=
  cbv beta; lazymatch goal with
  | |- blind (fun w => Ret w) => apply blind_ret
  | |- blind (fun w => Ret (@?h w)) => apply (blind_pure h (fun w => Ret w)); [done|done|]
  | |- blind (fun w => mbind (@?F w) (@?G w)) =>
      apply (blind_read G (fun a w => F w a)); [done|intros ?]
  | |- blind (fun w => match ?x with _ => _ end) => destruct x
  end.

Lemma disconnected_blind app (client : positive) : blind (disconnected (I := I) (L := L) app client).
Proof.
  unfold disconnected. blind_step. blind_step; [|blind_step]. blind_step.
  apply (blind_then (fun w => match oids_to_clients a !! z with Some _ => _ | None => Ret w end)); [|done|done].
  blind_step; [|blind_step].
  apply (blind_then (fun w => if metaclient a : bool
    then gzochid_sessionclient_session_disconnected app z w else Ret w)); [|done|done].
  blind_step; [|blind_step]. apply blind_bind. intros msg. apply write_uplink_blind.
Qed.

Lemma login_request_blind (client : positive) (pfx sfx : bytes) (n : Z) :
  blind (W := world) (dispatch_login_request authenticator client pfx sfx n).
Proof.
  unfold dispatch_login_request. blind_step. blind_step; [blind_step|].
  change (blind (fun w : world => x ← Ret (lookup_application pfx w);
    match x with
    | Some _ => who ← authenticator pfx sfx n;
        (fun w => match who with None => Ret w | Some _ => logged_in pfx client w end)
          (put_client client (GameClient (Some pfx) who (GameClient.disconnected a) (client_sock a)) w)
    | None => Ret (put_client client (GameClient None None (GameClient.disconnected a) (client_sock a)) w)
    end)).
  blind_step. blind_step; [|repeat blind_step]. apply blind_bind. intros [who|]; cbv beta;
    [|repeat blind_step]. apply (blind_pure (put_client client _) (logged_in pfx client)); [done|done|].
  unfold logged_in. repeat blind_step.
Qed.

Lemma logout_blind (client : positive) : blind (W := world) (dispatch_logout_request client).
Proof.
  unfold dispatch_logout_request. blind_step.
  apply (blind_then (fun w => match identity a with None => Ret w | Some _ => _ end)); [|done|done].
  blind_step; [|blind_step]. apply blind_bind. intros app. apply disconnected_blind.
Qed.

Lemma session_message_blind (client : positive) (payload : bytes) (len : Z) :
  blind (W := world) (dispatch_session_message client payload len).
Proof.
  unfold dispatch_session_message. blind_step. blind_step; [|blind_step]. apply blind_bind. intros app.
  apply (blind_pure (update_application app (app_event_dispatch MESSAGE_RECEIVED))
    (fun w => received_message app client payload len w)); [done|done|].
  unfold received_message. repeat blind_step.
Qed.

Lemma game_dispatch_blind (client : positive) opcode payload len :
  blind (W := world) (dispatch_payload client opcode payload len).
Proof.
  unfold GameProtocol.dispatch_payload. repeat case_match.
  - apply blind_bind. intros [pfx n]. apply blind_bind. intros sfx. apply login_request_blind.
  - apply logout_blind.
  - apply session_message_blind.
  - apply blind_ret.
Qed.

#[export] Instance game_framed (client : positive) :
  FramedProtocol (game_protocol client)
    (fun buffer offset => dispatch_message client (drop (Z.to_nat offset) buffer))
    (fun m => dispatch_message client m (Z.of_nat (length m))) short_message.
Proof.
  apply framed_by_opcode; [done|done|apply game_dispatch_local|apply game_dispatch_blind].
Qed.

(** *** What a playing client brings about *)

Fixpoint session_tasks (app : bytes) (who : option I) (oid : Z) (ms : list bytes) : list (game_task I) :=
  match ms with
  | (opcode :: payload) :: ms =>
      if opcode =? 49 then ReceivedMessage app who oid payload :: session_tasks app who oid ms
      else if opcode =? 32 then [Disconnected app who oid]
      else session_tasks app who oid ms
  | _ => []
  end.

Fixpoint leaves (ms : list bytes) : bool :=
  match ms with
  | (opcode :: _) :: ms => (opcode =? 32) || leaves ms
  | _ => false
  end.

Record playing (app : bytes) (who : I) (oid : Z) (client : positive) (w : world) : Prop := {
  playing_client : exists c, game_clients w !! client = Some c
    /\ client_app c = Some app /\ identity c = Some who;
  playing_mapped : session_mapped app oid client w
}.

Record gone (app : bytes) (who : I) (oid : Z) (client : positive) (w : world) : Prop := {
  gone_client : exists c, game_clients w !! client = Some c
    /\ client_app c = Some app /\ identity c = Some who;
  gone_unmapped : session_unmapped app oid client w
}.

(** The same connections and the same meta server. *)
Definition same_net (w w' : world) : Prop :=
  uplink w' = uplink w /\ node_sockets w' = node_sockets w
  /\ forall app, metaclient <$> applications w' !! app = metaclient <$> applications w !! app.

Lemma event_same_net app e (w : world) : same_net w (update_application app (app_event_dispatch e) w).
Proof.
  split_and!; [done|done|]. intros a. simpl. destruct (decide (a = app)) as [->|Hne].
  - rewrite lookup_alter_eq. by destruct (applications w !! app).
  - by rewrite lookup_alter_ne.
Qed.

Lemma login_again client who opcode payload (w : world) c :
  (opcode =? 32) = false -> (opcode =? 49) = false ->
  Z.of_nat (length payload) < 2 ^ 15 - 1 ->
  game_clients w !! client = Some c -> identity c = Some who ->
  dispatch_payload client opcode payload (Z.of_nat (length payload)) w = Ret w.
Proof.
  intros H32 H49 Hlen Hc Hwho. unfold GameProtocol.dispatch_payload,
    GZOCHI_COMMON_PROTOCOL_LOGOUT_REQUEST, GZOCHI_COMMON_PROTOCOL_SESSION_MESSAGE.
  rewrite H32, H49. destruct (opcode =? GZOCHI_COMMON_PROTOCOL_LOGIN_REQUEST); [|done].
  destruct (login_endpoint_ok payload) as (pfx & n & -> & Hn); [lia|]. run.
  destruct (Z.ltb_spec n 0); [lia|]. run. unfold dispatch_login_request. rewrite Hc. run. by rewrite Hwho.
Qed.

Lemma play_message app who oid client opcode payload (w : world) :
  (opcode =? 32) = false -> Z.of_nat (length payload) < 2 ^ 15 - 1 -> playing app who oid client w ->
  exists w', dispatch_payload client opcode payload (Z.of_nat (length payload)) w = Ret w'
    /\ playing app who oid client w' /\ same_net w w'
    /\ task_queue w' = task_queue w ++ (if opcode =? 49 then [ReceivedMessage app (Some who) oid payload] else []).
Proof.
  intros H32 Hlen [(c & Hc & Happ & Hwho) Hmap]. destruct (opcode =? 49) eqn:H49.
  - apply Z.eqb_eq in H49 as ->. unfold GameProtocol.dispatch_payload. choose_branch.
    rewrite signed_small by (unfold in_signed; lia).
    unfold dispatch_session_message. rewrite Hc. run. rewrite Hwho, Happ. run.
    set (w1 := update_application app (app_event_dispatch MESSAGE_RECEIVED) w).
    assert (Hq : quiet w w1) by (by apply update_quiet).
    assert (Hmap1 : session_mapped app oid client w1).
    { destruct Hq as (HT & _). unfold session_mapped. by rewrite HT. }
    destruct (mapped_application _ _ _ _ Hmap1) as (x & Hx & Ho & Hcl).
    unfold received_message, lookup_application. rewrite Hx. run. rewrite Hcl.
    rewrite u64_small by lia. unfold memcpy_from. rewrite Z.leb_refl, andb_true_r, (proj2 (Z.leb_le _ _)) by lia.
    rewrite Nat2Z.id, take_ge by done. run.
    unfold gzochid_game_client_get_identity. change (game_clients w1) with (game_clients w). rewrite Hc. run.
    eexists. split; [done|]. rewrite Hwho. split_and!; [|apply event_same_net|done].
    split; [by exists c|done].
  - exists w. rewrite (login_again client who opcode payload w c) by done. rewrite app_nil_r.
    split_and!; [done| |done|done]. split; [by exists c|done].
Qed.

Lemma gone_message app who oid client opcode payload (w : world) :
  Z.of_nat (length payload) < 2 ^ 15 - 1 -> gone app who oid client w ->
  exists w', dispatch_payload client opcode payload (Z.of_nat (length payload)) w = Ret w'
    /\ gone app who oid client w' /\ same_net w w' /\ task_queue w' = task_queue w.
Proof.
  intros Hlen [(c & Hc & Happ & Hwho) Hun].
  destruct (Hun) as (o2c & c2o & HT & Ho & Hcl).
  destruct (tables_lookup_inv _ _ _ _ HT) as (x & Hx & <- & <-).
  destruct (opcode =? 32) eqn:H32; [|destruct (opcode =? 49) eqn:H49].
  - apply Z.eqb_eq in H32 as ->. unfold GameProtocol.dispatch_payload. choose_branch.
    unfold dispatch_logout_request. rewrite Hc. run. rewrite Hwho, Happ. run.
    unfold disconnected, lookup_application. rewrite Hx. run. rewrite Hcl. run.
    eexists. split; [done|]. split_and!; [|done|done]. split; [|done].
    eexists. cbn. rewrite lookup_alter_eq, Hc. done.
  - apply Z.eqb_eq in H49 as ->. unfold GameProtocol.dispatch_payload. choose_branch.
    unfold dispatch_session_message. rewrite Hc. run. rewrite Hwho, Happ. run.
    unfold received_message, lookup_application. cbn [update_application set_applications applications].
    rewrite lookup_alter_eq, Hx. cbn. rewrite Hcl.
    eexists. split; [done|]. split_and!; [|apply event_same_net|done].
    split; [by exists c|]. unfold session_unmapped.
    rewrite (proj1 (update_quiet app (app_event_dispatch MESSAGE_RECEIVED) w (fun _ => conj eq_refl eq_refl))).
    done.
  - exists w. rewrite (login_again client who opcode payload w c) by done.
    split_and!; [done| |done|done]. split; [by exists c|done].
Qed.

Lemma play_logout s who oid client payload x (w : world) :
  nonzero s -> playing (s ++ [0]) who oid client w -> uplink_open w -> applications w !! (s ++ [0]) = Some x ->
  exists w1 w', dispatch_payload client 32 payload (Z.of_nat (length payload)) w = Ret w'
    /\ gone (s ++ [0]) who oid client w'
    /\ (if metaclient x then write_uplink (frame (97 :: (s ++ [0]) ++ be_encode 8 oid)) w else Ret w) = Ret w1
    /\ same_net w1 w' /\ task_queue w' = task_queue w ++ [Disconnected (s ++ [0]) (Some who) oid].
Proof.
  intros Hs [(c & Hc & Happ & Hwho) Hmap] Hup Hx. set (app := s ++ [0]) in *.
  destruct (mapped_application _ _ _ _ Hmap) as (x' & Hx' & Ho & Hcl). simplify_eq.
  unfold GameProtocol.dispatch_payload. choose_branch.
  unfold dispatch_logout_request. rewrite Hc. run. rewrite Hwho, Happ. run.
  unfold disconnected, lookup_application. rewrite Hx. run. rewrite Hcl.
  unfold gzochid_game_client_get_identity at 1. rewrite Hc. run. rewrite Ho.
  assert (exists w1, (if metaclient x : bool then gzochid_sessionclient_session_disconnected app oid w else Ret w) = Ret w1
    /\ (if metaclient x then write_uplink (frame (97 :: (s ++ [0]) ++ be_encode 8 oid)) w else Ret w) = Ret w1
    /\ delivers w w1 /\ task_queue w1 = task_queue w) as (w1 & Hw1 & Hmeta & Hd & Hqueue).
  { destruct (metaclient x); [|exists w; done].
    unfold gzochid_sessionclient_session_disconnected. subst app. rewrite oid_message_ok by done. run.
    destruct (write_uplink_delivers (frame (97 :: (s ++ [0]) ++ be_encode 8 oid)) w Hup) as (w1 & Hw1 & Hd).
    exists w1. split_and!; [|done|done|].
    - rewrite <- app_assoc in Hw1. exact Hw1.
    - unfold write_uplink in Hw1. apply bind_Ret in Hw1 as ([r t] & _ & [= <-]). done. }
  rewrite Hw1. run. destruct Hd as [(HT & HC & _) Hm _ _]. eexists w1, _. split; [done|].
  assert (Hmap1 : session_mapped app oid client w1) by (unfold session_mapped; by rewrite HT).
  split_and!; [|done| |].
  - split.
    + exists (GameClient (client_app c) (identity c) true (client_sock c)).
      cbn. by rewrite lookup_alter_eq, HC, Hc.
    + by apply unmap_unmapped.
  - split_and!; [done|done|]. intros a. cbn. destruct (decide (a = app)) as [->|Hne].
    + rewrite lookup_alter_eq. by destruct (applications w1 !! app).
    + by rewrite lookup_alter_ne.
  - cbn. by rewrite Hqueue, Hwho.
Qed.

Lemma same_net_trans (w1 w2 w3 : world) : same_net w1 w2 -> same_net w2 w3 -> same_net w1 w3.
Proof. intros (?&?&H1) (?&?&H2). split_and!; [congruence..|]. intros app. by rewrite H2. Qed.

Lemma same_net_uplink (w w' : world) : same_net w w' -> uplink_open w -> uplink_open w'.
Proof. intros (Hu & Hn & _). unfold uplink_open, open_socket. by rewrite Hu, Hn. Qed.

(** The worlds differ in what the connection to the meta server does not see. *)
Lemma write_uplink_net (buf : bytes) (w w1 w' : world) :
  same_net w w' -> write_uplink buf w = Ret w1 ->
  exists w1', write_uplink buf w' = Ret w1' /\ uplink w1' = uplink w1 /\ node_sockets w1' = node_sockets w1.
Proof.
  intros (Hu & Hn & _). unfold write_uplink. rewrite Hu, Hn.
  intros ([r t] & -> & [= <-])%bind_Ret. run. by eexists.
Qed.

Abbreviation treat client ms w :=
  (messages (fun m => dispatch_message client m (Z.of_nat (length m))) ms w).

Lemma treat_cons client opcode payload ms (w : world) :
  Z.of_nat (length (opcode :: payload)) < 2 ^ 15 ->
  treat client ((opcode :: payload) :: ms) w
  = (w ← dispatch_payload client opcode payload (Z.of_nat (length payload)) w; treat client ms w).
Proof.
  intros Hlen. cbn [messages]. unfold GameProtocol.dispatch_message.
  rewrite dispatch_opcode_cons; [done|]. cbn [length] in Hlen. lia.
Qed.

Lemma gone_stream app who oid client (ms : list bytes) : forall w : world,
  Forall (fun m => m <> [] /\ short_message m) ms -> gone app who oid client w ->
  exists w', treat client ms w = Ret w' /\ gone app who oid client w' /\ same_net w w'
    /\ task_queue w' = task_queue w.
Proof.
  induction ms as [|m ms IH]; intros w Hms Hgone; [by exists w|].
  apply Forall_cons in Hms as [[Hne Hshort] Hms]. destruct m as [|opcode payload]; [done|].
  unfold short_message in Hshort. rewrite treat_cons by done. cbn [length] in Hshort.
  destruct (gone_message app who oid client opcode payload w) as (w1 & -> & Hg1 & Hn1 & Hq1); [lia|done|].
  run. destruct (IH w1 Hms Hg1) as (w2 & -> & Hg2 & Hn2 & Hq2).
  exists w2. split_and!; [done|done|by eapply same_net_trans|congruence].
Qed.

Lemma play_stream s who oid client b (ms : list bytes) : forall w : world,
  nonzero s -> Forall (fun m => m <> [] /\ short_message m) ms ->
  playing (s ++ [0]) who oid client w -> uplink_open w ->
  metaclient <$> applications w !! (s ++ [0]) = Some b ->
  exists w' w1, treat client ms w = Ret w'
    /\ task_queue w' = task_queue w ++ session_tasks (s ++ [0]) (Some who) oid ms
    /\ (if leaves ms then gone (s ++ [0]) who oid client w' else playing (s ++ [0]) who oid client w')
    /\ (if leaves ms && b then write_uplink (frame (97 :: (s ++ [0]) ++ be_encode 8 oid)) w else Ret w) = Ret w1
    /\ uplink w' = uplink w1 /\ node_sockets w' = node_sockets w1.
Proof.
  induction ms as [|m ms IH]; intros w Hs Hms Hplay Hup Hb.
  { exists w, w. cbn. by rewrite app_nil_r. }
  apply Forall_cons in Hms as [[Hne Hshort] Hms]. destruct m as [|opcode payload]; [done|].
  unfold short_message in Hshort. rewrite treat_cons by done. cbn [length] in Hshort.
  cbn [session_tasks leaves].
  destruct (opcode =? 32) eqn:H32; cbn [orb].
  - apply Z.eqb_eq in H32 as ->. choose_branch.
    destruct (applications w !! (s ++ [0])) as [x|] eqn:Hx; [|done]. injection Hb as Hb.
    destruct (play_logout s who oid client payload x w) as (w1 & w2 & -> & Hg & Hmeta & Hn & Hq); [done..|].
    run. destruct (gone_stream (s ++ [0]) who oid client ms w2 Hms Hg) as (w3 & -> & Hg3 & Hn3 & Hq3).
    exists w3, w1. split_and!; [done|congruence|done|by rewrite <- Hb| |];
      destruct Hn as (? & ? & _), Hn3 as (? & ? & _); congruence.
  - destruct (play_message (s ++ [0]) who oid client opcode payload w) as (w1 & -> & Hp & Hn & Hq); [done|lia|done|].
    run. destruct (IH w1) as (w2 & w3 & -> & Hq2 & Hend & Hmeta & Hu & Hsk); [done|done|done| | |].
    { by eapply same_net_uplink. }
    { destruct Hn as (_ & _ & ->). done. }
    assert (Hback : exists w4, (if leaves ms && b then write_uplink (frame (97 :: (s ++ [0]) ++ be_encode 8 oid)) w
        else Ret w) = Ret w4 /\ uplink w4 = uplink w3 /\ node_sockets w4 = node_sockets w3).
    { destruct (leaves ms && b).
      - eapply write_uplink_net; [|exact Hmeta]. destruct Hn as (? & ? & Hm). split_and!; [done|done|].
        intros a. by rewrite Hm.
      - exists w. injection Hmeta as <-. destruct Hn as (? & ? & _). done. }
    destruct Hback as (w4 & Hw4 & Hu4 & Hsk4). exists w2, w4.
    split_and!; [done| |done|done|congruence|congruence].
    rewrite Hq2, Hq. destruct (opcode =? 49); by rewrite <- app_assoc.
Qed.

(** What a client that plays sends, in whatever pieces it arrives, leads to one task
    for each of its messages, in order and with what was sent, up to its first request
    to leave.  That leads to one task for the end of the session, unmaps the session and
    tells the meta server, if there is one, once; what follows it is without effect. *)
Theorem session_stream_tasks (p client : positive) (s : bytes) (who : I) (oid : Z) (b : bool)
    (fills : list (list bytes)) (ms : list bytes) (rest : bytes) (w : world)
    (Hs : nonzero s) (Hplay : playing (s ++ [0]) who oid client w) (Hup : uplink_open w)
    (Hmeta : metaclient <$> applications w !! (s ++ [0]) = Some b)
    (Hempty : received p [] w)
    (Hbytes : concat (concat fills) = stream ms ++ rest)
    (Hms : Forall (fun m => message_ok m /\ short_message m) ms) (Hrest : partial rest)
    (Hlen : Z.of_nat (length (stream ms ++ rest)) < 2 ^ 31) :
  exists w' w1, feed (P := game_protocol client) p fills w = Ret (set_recv p rest w')
    /\ task_queue w' = task_queue w ++ session_tasks (s ++ [0]) (Some who) oid ms
    /\ (if leaves ms then session_unmapped (s ++ [0]) oid client w' else session_mapped (s ++ [0]) oid client w')
    /\ (if leaves ms && b then write_uplink (frame (97 :: (s ++ [0]) ++ be_encode 8 oid)) w else Ret w) = Ret w1
    /\ uplink w' = uplink w1 /\ node_sockets w' = node_sockets w1.
Proof.
  destruct (play_stream s who oid client b ms w) as (w' & w1 & Hrun & Hq & Hend & Hrest'); [done| |done..|].
  { eapply Forall_impl; [exact Hms|]. intros m [(_ & Hne & _) Hm]. split; [|done]. by destruct m; [simpl in Hne; lia|]. }
  exists w', w1. split_and!; [|done| |apply Hrest'..].
  - rewrite (feed_stream p fills [] ms rest); [by rewrite Hrun|done|apply partial_nil|done..].
  - destruct (leaves ms); apply Hend.
Qed.

End stream.

(** ** Examples *)

Lemma pass_thru_local (app c1 c2 : bytes) (n : Z) :
  take (Z.to_nat n) c1 = take (Z.to_nat n) c2 ->
  gzochid_auth_function_pass_thru c1 n = gzochid_auth_function_pass_thru c2 n.
Proof.
  assert (Hlong : forall c, (Z.to_nat n <= length c)%nat ->
    gzochid_auth_function_pass_thru c n = gzochid_auth_function_pass_thru (take (Z.to_nat n) c) n).
  { intros c Hc. rewrite <- (take_drop (Z.to_nat n) c) at 1. unfold gzochid_auth_function_pass_thru.
    destruct (Z.leb_spec n 0); [done|]. rewrite memchr0_local by (rewrite length_take; lia).
    destruct (memchr0_total (take (Z.to_nat n) c) (Z.to_nat n)) as (r & -> & Hr); [rewrite length_take; lia|].
    run. destruct r as [e|]; [specialize (Hr e eq_refl)|];
      by rewrite take_app_le by (rewrite length_take; lia). }
  intros Heq. destruct (decide (Z.to_nat n <= length c1)%nat) as [H1|H1].
  - assert (Z.to_nat n <= length c2)%nat.
    { apply (f_equal length) in Heq. rewrite !length_take in Heq. lia. }
    rewrite (Hlong c1), (Hlong c2) by done. by rewrite Heq.
  - assert (length c2 < Z.to_nat n)%nat.
    { apply (f_equal length) in Heq. rewrite !length_take in Heq. lia. }
    rewrite !take_ge in Heq by lia. by subst.
Qed.

(** The node of [GameProtocol] with a connected client that is mapped. *)
Definition sample_player : node bytes unit :=
  Node {[ sample_app := ApplicationContext {[5 := 1%positive]} {[1%positive := 5]} ∅ true [] ]}
    {[ 1%positive := GameClient (Some sample_app) (Some [98; 0]) false 2%positive ]} []
    (ReconnectableSocket None [] []) {[ 2%positive := sample_socket ]}.

(** Messages [1, 2], then leaving, then another message that is ignored. *)
Lemma session_stream_tasks_witness :
  exists w' w1, feed (P := gzochid_game_client_protocol (fun _ => gzochid_auth_function_pass_thru) 1) 2
      [[[0; 2; 49]; [1; 2; 0]]; [[0; 32; 0; 1; 49; 9]]] sample_player = Ret (set_recv 2 [] w')
    /\ task_queue w' = [ReceivedMessage sample_app (Some [98; 0]) 5 [1; 2];
                        Disconnected sample_app (Some [98; 0]) 5]
    /\ session_unmapped sample_app 5 1 w'
    /\ write_uplink (frame (97 :: sample_app ++ be_encode 8 5)) sample_player = Ret w1
    /\ uplink w' = uplink w1 /\ node_sockets w' = node_sockets w1.
Proof.
  apply (session_stream_tasks (fun _ => gzochid_auth_function_pass_thru) pass_thru_local 2 1 [97] [98; 0] 5 true
    [[[0; 2; 49]; [1; 2; 0]]; [[0; 32; 0; 1; 49; 9]]] [[49; 1; 2]; [32]; [49; 9]] [] sample_player).
  - repeat constructor; done.
  - split; [by eexists|]. eexists _, _. split_and!; reflexivity.
  - done.
  - reflexivity.
  - by exists sample_socket.
  - reflexivity.
  - repeat constructor; (done || (simpl; lia)).
  - apply partial_nil.
  - vm_compute. reflexivity.
Defined.

Definition sample_result (r : gzochid_transaction_result) (limit : option timeval)
    (f : node bytes unit -> outcome (node bytes unit)) (w : node bytes unit)
  : outcome (gzochid_transaction_result * node bytes unit) :=
  w ← f w; Ret (r, w).

Lemma sample_delivers app oid (w : node bytes unit) :
  exists w', sample_scheme app oid w = Ret w' /\ delivers w w'.
Proof. exists w. split; [done|apply delivers_refl]. Qed.

Lemma sample_result_delivers r limit f (w w1 : node bytes unit) :
  f w = Ret w1 -> exists r' w2, sample_result r limit f w = Ret (r', w2) /\ delivers w1 w2.
Proof. intros Hf. exists r, w1. unfold sample_result. rewrite Hf. split; [done|apply delivers_refl]. Qed.

(** The same, before the login begins. *)
Definition sample_waiting : node bytes unit :=
  set_applications {[ sample_app := ApplicationContext ∅ ∅ ∅ true [] ]} sample_player.

(** A login whose callback fails. *)
Lemma login_completes_witness :
  exists r w2 w', attempted (execute_login sample_scheme sample_scheme (sample_result TX_FAILURE) sample_app 0)
      (Some (Timeval 5 0)) LoginTask 3 (map_session sample_app 0 1 sample_waiting) r w2
    /\ logged_in_task sample_persist sample_scheme sample_scheme (sample_result TX_FAILURE) (Timeval 5 0)
         sample_app (Some [98; 0]) 1 sample_waiting = Ret w'
    /\ if decide (r = TX_SUCCESS) then
         session_mapped sample_app 0 1 w2
         /\ write_uplink (frame (96 :: sample_app ++ be_encode 8 0)) w2 = Ret w'
       else session_unmapped sample_app 0 1 w'
         /\ exists w3, write_client 1 [0; 0; 48] 3
              (update_application sample_app (unmap 0 (Some 1%positive)) w2) = Ret w3
            /\ delivers w3 w'.
Proof.
  eapply (login_completes sample_persist sample_scheme sample_scheme (sample_result TX_FAILURE)
    sample_delivers sample_delivers (sample_result_delivers TX_FAILURE) (Timeval 5 0) [97] (Some [98; 0]) 1 0
    (ApplicationContext ∅ ∅ ∅ true [])
    (GameClient (Some sample_app) (Some [98; 0]) false 2%positive) sample_waiting sample_waiting).
  - repeat constructor; done.
  - vm_compute; reflexivity.
  - reflexivity.
  - reflexivity.
  - by exists sample_socket.
  - done.
Defined.
