(* ===== verification/Channel.v ===== *)
(** * Channels on a node (channel.c, the direct operations)

    A node knows which of its sessions are members of a channel: a sorted sequence of
    session ids for each channel that has any.  The operations take effect at once;
    the side effects of transactions ([ChannelEffects]) and the notices of other nodes
    ([ChannelClient]) end in them.  Sending finds that sessions are gone, and removes
    them. *)

From S2P Require Import Prelude.
From S2P Require Import Util.
From S2P Require Import Glib.
From S2P Require Import Socket.
From S2P Require Import Framing.
From S2P Require Import GameClient.
From S2P Require Import SessionClient.

Local Open Scope Z_scope.

Inductive channel_error := NOT_MAPPED | ALREADY_MEMBER | NOT_MEMBER.

#[export] Instance channel_error_eq_dec : EqDecision channel_error.
Proof. solve_decision. Defined.

Abbreviation session_lookup := (sequence_lookup gzochid_util_guint64_data_compare).

(** ** Membership *)

Definition gzochid_channel_join_direct (channel_oid session_oid : Z)
    (x : gzochid_application_context) : option channel_error * gzochid_application_context :=
  let channels := channel_oids_to_local_session_oids x in
  match oids_to_clients x !! session_oid with
  | None => (Some NOT_MAPPED, x)
  | Some _ =>
      match channels !! channel_oid with
      | None => (None, set_channels (<[channel_oid := [session_oid]]> channels) x)
      | Some sessions =>
          match session_lookup session_oid sessions with
          | None => (None, set_channels (<[channel_oid :=
                       sequence_insert_sorted gzochid_util_guint64_data_compare session_oid
                         sessions]> channels) x)
          | Some _ => (Some ALREADY_MEMBER, x)
          end
      end
  end.

(** A sequence without its element at a position; an empty one leaves the table. *)
Definition remove_member (channel_oid : Z) (iter : nat) (sessions : list Z)
    (x : gzochid_application_context) : gzochid_application_context :=
  let channels := channel_oids_to_local_session_oids x in
  match sequence_remove iter sessions with
  | [] => set_channels (base.delete channel_oid channels) x
  | sessions => set_channels (<[channel_oid := sessions]> channels) x
  end.

Definition gzochid_channel_leave_direct (channel_oid session_oid : Z)
    (x : gzochid_application_context) : option channel_error * gzochid_application_context :=
  match oids_to_clients x !! session_oid with
  | None => (Some NOT_MAPPED, x)
  | Some _ =>
      match channel_oids_to_local_session_oids x !! channel_oid with
      | None => (Some NOT_MEMBER, x)
      | Some sessions =>
          match session_lookup session_oid sessions with
          | None => (Some NOT_MEMBER, x)
          | Some iter => (None, remove_member channel_oid iter sessions x)
          end
      end
  end.

Definition gzochid_channel_close_direct (channel_oid : Z) (x : gzochid_application_context)
  : gzochid_application_context :=
  set_channels (base.delete channel_oid (channel_oids_to_local_session_oids x)) x.

(** ** Sending

    The pointer to the sequence that is fetched before the loop: null, the
    sequence of the table, or dangling once that has been removed. *)
Inductive sequence_pointer := Null | Live | Dangling.

Section sending.

Context {I L : Type}.
Abbreviation world := (node I L).
Variable app : bytes.

Definition get_context (w : world) : outcome gzochid_application_context :=
  deref (lookup_application app w).

(** The loop of [send_channel_message_direct]. *)
Fixpoint send_loop (channel_oid : Z) (sessions : sequence_pointer) (session_oids : list Z)
    (msg : bytes) (len : Z) (w : world) : outcome world :=
  match session_oids with
  | [] => Ret w
  | session_oid :: session_oids =>
      x ← get_context w;
      match oids_to_clients x !! session_oid with
      | Some client =>
          let w := update_application app (app_event_dispatch MESSAGE_SENT) w in
          w ← gzochid_game_client_send client msg len w;
          send_loop channel_oid sessions session_oids msg len w
      | None =>
          match sessions with
          | Null => send_loop channel_oid sessions session_oids msg len w
          | Dangling => Undef
          | Live =>
              members ← deref (channel_oids_to_local_session_oids x !! channel_oid);
              match session_lookup session_oid members with
              | None => send_loop channel_oid sessions session_oids msg len w
              | Some iter =>
                  let sessions := match sequence_remove iter members with
                                  | [] => Dangling
                                  | _ => Live
                                  end in
                  let w := update_application app (remove_member channel_oid iter members) w in
                  send_loop channel_oid sessions session_oids msg len w
              end
          end
      end
  end.

Definition send_channel_message_direct (channel_oid : Z) (session_oids : list Z) (msg : bytes)
    (len : Z) (w : world) : outcome world :=
  x ← get_context w;
  let sessions := match channel_oids_to_local_session_oids x !! channel_oid with
                  | Some _ => Live
                  | None => Null
                  end in
  send_loop channel_oid sessions session_oids msg len w.

(** The members are those at the time of the call. *)
Definition gzochid_channel_message_direct (channel_oid : Z) (msg : bytes) (w : world)
  : outcome world :=
  x ← get_context w;
  match channel_oids_to_local_session_oids x !! channel_oid with
  | Some (s :: sessions) =>
      send_channel_message_direct channel_oid (s :: sessions) msg (Z.of_nat (length msg)) w
  | _ => Ret w
  end.

End sending.

(** ** The members of a channel are a set *)

Instance guint64_comparator : Comparator gzochid_util_guint64_data_compare.
Proof.
  split.
  - intros a b. unfold gzochid_util_guint64_data_compare.
    destruct (Z.ltb_spec a b), (Z.ltb_spec b a); lia.
  - intros a b c. unfold gzochid_util_guint64_data_compare.
    destruct (Z.ltb_spec a b), (Z.ltb_spec b a), (Z.ltb_spec b c), (Z.ltb_spec c b),
      (Z.ltb_spec a c), (Z.ltb_spec c a); lia.
Qed.

Lemma guint64_compare_eq (a b : Z) : gzochid_util_guint64_data_compare a b = 0 <-> a = b.
Proof.
  unfold gzochid_util_guint64_data_compare.
  destruct (Z.ltb_spec a b), (Z.ltb_spec b a); lia.
Qed.

(** The table's representation: sorted sequences without repetitions, none empty. *)
Definition channels_ok (m : gmap Z (list Z)) : Prop :=
  forall c l, m !! c = Some l ->
    l <> [] /\ NoDup l /\ sorted_by gzochid_util_guint64_data_compare l.

Definition members (x : gzochid_application_context) (c : Z) : gset Z :=
  list_to_set (default [] (channel_oids_to_local_session_oids x !! c)).

Lemma session_lookup_not (s : Z) (l : list Z) :
  s ∉ l -> session_lookup s l = None.
Proof.
  intros Hs. apply sequence_lookup_none. apply Forall_forall. intros y Hy Heq.
  apply Hs. by rewrite (proj1 (guint64_compare_eq _ _) Heq).
Qed.

Lemma session_lookup_in (s : Z) (l : list Z) :
  s ∈ l -> NoDup l -> exists l1 l2, l = l1 ++ s :: l2 /\ session_lookup s l = Some (length l1).
Proof.
  intros (l1 & l2 & ->)%list_elem_of_split Hd. exists l1, l2. split; [done|].
  apply sequence_lookup_middle; [|by apply guint64_compare_eq].
  apply Forall_forall. intros y Hy Heq. apply (proj1 (guint64_compare_eq _ _)) in Heq. subst y.
  apply NoDup_app in Hd as (_ & Hn & _). apply (Hn s Hy). left.
Qed.

Definition set_members (c : Z) (l : list Z) (m : gmap Z (list Z)) : gmap Z (list Z) :=
  match l with [] => base.delete c m | _ => <[c := l]> m end.

Ltac map_lookup :=
  repeat first [rewrite lookup_insert_eq | rewrite lookup_delete_eq
    | rewrite lookup_insert_ne by done | rewrite lookup_delete_ne by done].

Lemma set_members_set (c : Z) (l l' : list Z) (m : gmap Z (list Z)) :
  set_members c l' (set_members c l m) = set_members c l' m.
Proof.
  unfold set_members. apply map_eq. intros d.
  destruct l, l', (decide (c = d)) as [->|Hne]; map_lookup; done.
Qed.

Lemma set_members_lookup (c d : Z) (l : list Z) (m : gmap Z (list Z)) :
  default [] (set_members c l m !! d) = if decide (c = d) then l else default [] (m !! d).
Proof.
  unfold set_members. destruct l; case_decide; subst; by map_lookup.
Qed.

Lemma set_members_ok (c : Z) (l : list Z) (m : gmap Z (list Z)) :
  channels_ok m -> NoDup l -> sorted_by gzochid_util_guint64_data_compare l ->
  channels_ok (set_members c l m).
Proof.
  intros Hm Hd Hs d k. unfold set_members. destruct l as [|s l].
  - intros [_ Hk]%lookup_delete_Some. by eapply Hm.
  - rewrite lookup_insert_Some. intros [[_ <-]|[_ Hk]]; [done|]. by eapply Hm.
Qed.

Lemma remove_member_set (c : Z) (i : nat) (l : list Z) (x : gzochid_application_context) :
  remove_member c i l x
  = set_channels (set_members c (sequence_remove i l) (channel_oids_to_local_session_oids x)) x.
Proof. unfold remove_member, set_members. by destruct (sequence_remove i l). Qed.

(** The specification of what the operations do to the members. *)
Definition changed (x x' : gzochid_application_context) (c : Z) (f : gset Z -> gset Z) : Prop :=
  members x' c = f (members x c) /\ (forall d, d <> c -> members x' d = members x d)
  /\ oids_to_clients x' = oids_to_clients x /\ clients_to_oids x' = clients_to_oids x
  /\ channels_ok (channel_oids_to_local_session_oids x').

Lemma changed_set (x : gzochid_application_context) (c : Z) (l : list Z) (f : gset Z -> gset Z) :
  channels_ok (channel_oids_to_local_session_oids x) -> NoDup l ->
  sorted_by gzochid_util_guint64_data_compare l -> list_to_set l = f (members x c) ->
  changed x (set_channels (set_members c l (channel_oids_to_local_session_oids x)) x) c f.
Proof.
  intros Hok Hd Hs Hf. unfold changed, members. simpl. split_and!; try done.
  - rewrite set_members_lookup, decide_True by done. exact Hf.
  - intros d Hne. by rewrite set_members_lookup, decide_False by congruence.
  - by apply set_members_ok.
Qed.

Lemma members_lookup (x : gzochid_application_context) (c : Z) (o : option (list Z)) :
  channel_oids_to_local_session_oids x !! c = o -> members x c = list_to_set (default [] o).
Proof. by intros <-. Qed.

Lemma close_direct_changed (x : gzochid_application_context) (c : Z) :
  channels_ok (channel_oids_to_local_session_oids x) ->
  changed x (gzochid_channel_close_direct c x) c (fun _ => ∅).
Proof. intros. apply (changed_set x c [] (fun _ => ∅)); try done; constructor. Qed.

(** The members of a node's channels are sets of its sessions.  Joining fails for
    a session that is not connected to the node, and for a member, changing nothing,
    and otherwise adds the session to the channel; leaving fails for a session that
    is not connected, and for one that is not a member, and otherwise removes it;
    closing empties the channel.  No other channel changes, and the sequences stay
    sorted and free of repetitions, with none left empty in the table. *)
Theorem channel_membership_refines (x : gzochid_application_context) (c s : Z)
    (Hok : channels_ok (channel_oids_to_local_session_oids x)) :
  (let '(e, x') := gzochid_channel_join_direct c s x in
   match oids_to_clients x !! s with
   | None => e = Some NOT_MAPPED /\ x' = x
   | Some _ => if decide (s ∈ members x c) then e = Some ALREADY_MEMBER /\ x' = x
               else e = None /\ changed x x' c (fun m => {[s]} ∪ m)
   end)
  /\ (let '(e, x') := gzochid_channel_leave_direct c s x in
      match oids_to_clients x !! s with
      | None => e = Some NOT_MAPPED /\ x' = x
      | Some _ => if decide (s ∈ members x c) then e = None /\ changed x x' c (fun m => m ∖ {[s]})
                  else e = Some NOT_MEMBER /\ x' = x
      end)
  /\ changed x (gzochid_channel_close_direct c x) c (fun _ => ∅).
Proof.
  split_and!.
  - unfold gzochid_channel_join_direct. destruct (oids_to_clients x !! s) as [cl|]; [|done].
    destruct (channel_oids_to_local_session_oids x !! c) as [l|] eqn:Hc;
      rewrite (members_lookup _ _ _ Hc); simpl.
    + destruct (Hok c l Hc) as (Hne & Hd & Hs). case_decide as Hin.
      * rewrite elem_of_list_to_set in Hin.
        destruct (session_lookup_in s l Hin Hd) as (l1 & l2 & _ & ->). done.
      * rewrite elem_of_list_to_set in Hin. rewrite session_lookup_not by done. split; [done|].
        pose proof (sequence_insert_perm gzochid_util_guint64_data_compare s l) as Hperm.
        replace (<[c := _]> _) with (set_members c
          (sequence_insert_sorted gzochid_util_guint64_data_compare s l)
          (channel_oids_to_local_session_oids x)).
        2: { unfold set_members. destruct (sequence_insert_sorted _ s l) eqn:He; [|done].
             by apply Permutation_nil_cons in Hperm. }
        apply changed_set; [done| | |].
        -- rewrite Hperm. by constructor.
        -- by apply sequence_insert_sorted_by; [apply _|].
        -- rewrite Hperm, (members_lookup _ _ _ Hc). set_solver.
    + case_decide; [set_solver|]. split; [done|].
      apply (changed_set x c [s]); [done|apply NoDup_singleton|by repeat constructor|].
      rewrite (members_lookup _ _ _ Hc). set_solver.
  - unfold gzochid_channel_leave_direct. destruct (oids_to_clients x !! s) as [cl|]; [|done].
    destruct (channel_oids_to_local_session_oids x !! c) as [l|] eqn:Hc;
      rewrite (members_lookup _ _ _ Hc); simpl; [|case_decide; [set_solver|done]].
    destruct (Hok c l Hc) as (Hne & Hd & Hs).
    case_decide as Hin; rewrite elem_of_list_to_set in Hin.
    2: { by rewrite session_lookup_not by done. }
    destruct (session_lookup_in s l Hin Hd) as (l1 & l2 & Hl & ->). split; [done|].
    rewrite remove_member_set, Hl, sequence_remove_middle.
    assert (Hsub : l1 ++ l2 `sublist_of` l).
    { rewrite Hl. apply sublist_app; [done|by apply sublist_cons]. }
    apply changed_set; [done|by eapply sublist_NoDup|by eapply StronglySorted_sublist|].
    rewrite (members_lookup _ _ _ Hc), Hl. simpl. rewrite Hl in Hd.
    apply NoDup_app in Hd as (Hd1 & Hn & [Hs2 Hd2]%NoDup_cons).
    rewrite !list_to_set_app_L. simpl.
    assert (s ∉ l1) by (intros Hx; apply (Hn s Hx); left).
    apply set_eq. intros y. rewrite elem_of_difference, !elem_of_union, !elem_of_list_to_set.
    set_unfold. split; [|naive_solver]. intros Hy. split; [naive_solver|].
    intros ->. naive_solver.
  - by apply close_direct_changed.
Qed.

Definition sample_channels : gzochid_application_context :=
  ApplicationContext {[5 := 1%positive; 7 := 2%positive]} {[1%positive := 5; 2%positive := 7]}
    {[100 := [5]]} false [].

Lemma channel_membership_refines_witness :
  (let '(e, x') := gzochid_channel_join_direct 100 7 sample_channels in
   match oids_to_clients sample_channels !! 7 with
   | None => e = Some NOT_MAPPED /\ x' = sample_channels
   | Some _ => if decide (7 ∈ members sample_channels 100)
               then e = Some ALREADY_MEMBER /\ x' = sample_channels
               else e = None /\ changed sample_channels x' 100 (fun m => {[7]} ∪ m)
   end).
Proof.
  apply (channel_membership_refines sample_channels 100 7).
  intros c l Hl. change (({[100 := [5]]} : gmap Z (list Z)) !! c = Some l) in Hl.
  apply lookup_singleton_Some in Hl as [_ <-]. split_and!; [done|apply NoDup_singleton|].
  by repeat constructor.
Defined.

(** ** A message reaches the members *)

Section delivery.

Context {I L : Type}.
Abbreviation world := (node I L).

Abbreviation present x := (filter (fun s => is_Some (oids_to_clients x !! s))).

(** The socket of the client of a session. *)
Definition session_socket (x : gzochid_application_context) (w : world) (s : Z)
  : option positive :=
  client ← oids_to_clients x !! s; c ← game_clients w !! client; Some (client_sock c).

Definition session_frame (msg : bytes) : bytes :=
  frame (GZOCHI_COMMON_PROTOCOL_SESSION_MESSAGE :: msg).

(** What the sockets hold after some of them were sent a message. *)
Definition sent_to (ps : list positive) (msg : bytes) (t t' : sockets) : Prop :=
  forall p, t' !! p = (fun sk => if bool_decide (p ∈ ps)
                         then with_send (send_buffer sk ++ session_frame msg) true sk
                         else sk) <$> t !! p.

(** The sessions have clients whose sockets are attached, each with its own. *)
Definition reachable_sessions (x : gzochid_application_context) (w : world) (l : list Z) : Prop :=
  NoDup (omap (session_socket x w) l)
  /\ forall s client, s ∈ l -> oids_to_clients x !! s = Some client ->
       exists c sk, game_clients w !! client = Some c
         /\ node_sockets w !! client_sock c = Some sk /\ sock_server sk = true.

Lemma session_socket_same x w x' w' (l : list Z) :
  oids_to_clients x' = oids_to_clients x -> game_clients w' = game_clients w ->
  omap (session_socket x' w') l = omap (session_socket x w) l.
Proof. intros Hx Hw. unfold session_socket. by rewrite Hx, Hw. Qed.

Lemma reachable_rest x w s l :
  reachable_sessions x w (s :: l) -> reachable_sessions x w l.
Proof.
  intros [Hd Hc]. split.
  - simpl in Hd. destruct (session_socket x w s); [by apply NoDup_cons in Hd as [_ ?]|done].
  - intros s' client Hs. apply Hc. by right.
Qed.

Lemma sent_to_skip ps msg t : ps = [] -> sent_to ps msg t t.
Proof. intros -> p. rewrite bool_decide_false by apply not_elem_of_nil. by destruct (t !! p). Qed.

Lemma lookup_update (app : bytes) f x (w : world) :
  lookup_application app w = Some x ->
  lookup_application app (update_application app f w) = Some (f x).
Proof.
  intros Hx. unfold lookup_application, update_application in *. simpl.
  by rewrite lookup_alter_eq, Hx.
Qed.

Lemma sent_to_cons (p : positive) ps msg t t' sk :
  t !! p = Some sk -> p ∉ ps ->
  sent_to ps msg (<[p := with_send (send_buffer sk ++ session_frame msg) true sk]> t) t' ->
  sent_to (p :: ps) msg t t'.
Proof.
  intros Hsk Hp Hsent q. rewrite (Hsent q). destruct (decide (q = p)) as [->|Hne].
  - rewrite lookup_insert_eq, Hsk, (bool_decide_false (p ∈ ps)), bool_decide_true
      by (done || left). done.
  - rewrite lookup_insert_ne by done. apply option_fmap_ext. intros sk'.
    erewrite (bool_decide_ext (q ∈ ps)); [done|]. set_solver.
Qed.

(** The loop: [gone] were treated before, and their members without a client are out
    of the sequence. *)
Lemma send_loop_ok (app : bytes) (c : Z) (msg : bytes) (m0 : gmap Z (list Z)) (todo : list Z) :
  forall x (w : world) gone ptr,
  Z.of_nat (length msg) < 2 ^ 16 ->
  lookup_application app w = Some x ->
  channel_oids_to_local_session_oids x = set_members c (present x gone ++ todo) m0 ->
  NoDup (gone ++ todo) -> (todo <> [] -> ptr = Live) -> reachable_sessions x w todo ->
  exists x' w', send_loop app c ptr todo msg (Z.of_nat (length msg)) w = Ret w'
    /\ lookup_application app w' = Some x'
    /\ oids_to_clients x' = oids_to_clients x
    /\ channel_oids_to_local_session_oids x' = set_members c (present x (gone ++ todo)) m0
    /\ sent_to (omap (session_socket x w) todo) msg (node_sockets w) (node_sockets w').
Proof.
  induction todo as [|s todo IH]; intros x w gone ptr Hlen Hx Hm Hd Hptr Hreach.
  { exists x, w. rewrite !app_nil_r in *. split_and!; try done. by apply sent_to_skip. }
  rewrite (Hptr ltac:(done)). cbn [send_loop]. unfold get_context. rewrite Hx.
  cbn [mbind outcome_bind deref].
  assert (Hassoc : gone ++ s :: todo = (gone ++ [s]) ++ todo) by (by rewrite <- app_assoc).
  rewrite Hassoc in Hd |- *. pose proof (reachable_rest _ _ _ _ Hreach) as Hrest.
  destruct Hreach as [Hdis Hcl]. cbn [omap list_omap] in Hdis |- *.
  destruct (oids_to_clients x !! s) as [client|] eqn:Hs.
  - destruct (Hcl s client) as (cl & sk & Hclient & Hsk & Hserver); [left|done|].
    assert (Hsock : session_socket x w s = Some (client_sock cl)).
    { unfold session_socket. rewrite Hs. simpl. by rewrite Hclient. }
    rewrite Hsock in Hdis |- *. apply NoDup_cons in Hdis as [Hnot Hdis].
    set (w1 := update_application app (app_event_dispatch MESSAGE_SENT) w).
    rewrite (game_client_send_ok client msg w1 cl sk Hlen Hclient Hsk Hserver).
    cbn [mbind outcome_bind].
    match goal with |- context [set_sockets ?t w1] => set (w2 := set_sockets t w1) end.
    destruct (IH (app_event_dispatch MESSAGE_SENT x) w2 (gone ++ [s]) Live)
      as (x' & w' & Hrun & Hx' & Ho & Hch & Hsent); try done.
    + by apply (lookup_update app).
    + simpl. rewrite filter_app. rewrite (filter_cons_True _ s []) by (by rewrite Hs).
      rewrite filter_nil, <- app_assoc. exact Hm.
    + split; [exact Hdis|]. intros s' client' Hin Hs'.
      destruct Hrest as [_ Hrest]. destruct (Hrest s' client' Hin Hs') as (c' & sk' & Hc' & Hsk' & Hserv').
      exists c'. change (node_sockets w2) with
        (<[client_sock cl := with_send (send_buffer sk ++ session_frame msg) true sk]> (node_sockets w)).
      destruct (decide (client_sock c' = client_sock cl)) as [->|Hne].
      * eexists. by rewrite lookup_insert_eq.
      * exists sk'. by rewrite lookup_insert_ne.
    + exists x', w'. split_and!; try done. by eapply sent_to_cons.
  - assert (Hsock : session_socket x w s = None) by (unfold session_socket; by rewrite Hs).
    rewrite Hsock. rewrite Hm.
    assert (Hlook : set_members c (present x gone ++ s :: todo) m0 !! c
                    = Some (present x gone ++ s :: todo)).
    { unfold set_members. destruct (present x gone); simpl; by rewrite lookup_insert_eq. }
    rewrite Hlook. cbn [mbind outcome_bind deref].
    rewrite sequence_lookup_middle; [|apply Forall_forall|by apply guint64_compare_eq].
    2: { intros y [_ Hy]%list_elem_of_filter Heq. apply (proj1 (guint64_compare_eq _ _)) in Heq.
         subst y. rewrite <- app_assoc in Hd. apply NoDup_app in Hd as (_ & Hn & _).
         apply (Hn s Hy). left. }
    rewrite sequence_remove_middle.
    set (w1 := update_application app (remove_member c _ _) w).
    destruct (IH (remove_member c (length (present x gone)) (present x gone ++ s :: todo) x) w1
      (gone ++ [s]) (match present x gone ++ todo with [] => Dangling | _ => Live end))
      as (x' & w' & Hrun & Hx' & Ho & Hch & Hsent); try done.
    + by apply (lookup_update app).
    + rewrite remove_member_set, sequence_remove_middle. simpl.
      rewrite Hm, set_members_set, filter_app.
      rewrite (filter_cons_False _ s []) by (rewrite Hs; by intros []).
      by rewrite filter_nil, app_nil_r.
    + intros Hne. destruct (present x gone); [|done]. by destruct todo.
    + by rewrite remove_member_set in *.
    + exists x', w'. rewrite remove_member_set in *. split_and!; try done.
Qed.

Lemma send_direct_ok (app : bytes) (x : gzochid_application_context) (w : world) (c : Z) (msg : bytes) :
  lookup_application app w = Some x ->
  channels_ok (channel_oids_to_local_session_oids x) ->
  reachable_sessions x w (default [] (channel_oids_to_local_session_oids x !! c)) ->
  Z.of_nat (length msg) < 2 ^ 16 ->
  exists x' w',
    send_channel_message_direct app c (default [] (channel_oids_to_local_session_oids x !! c)) msg
      (Z.of_nat (length msg)) w = Ret w'
    /\ lookup_application app w' = Some x'
    /\ oids_to_clients x' = oids_to_clients x
    /\ members x' c = filter (fun s => is_Some (oids_to_clients x !! s)) (members x c)
    /\ sent_to (omap (session_socket x w) (default [] (channel_oids_to_local_session_oids x !! c)))
         msg (node_sockets w) (node_sockets w').
Proof.
  intros Hx Hok Hreach Hlen. unfold send_channel_message_direct, get_context. rewrite Hx.
  cbn [mbind outcome_bind deref].
  destruct (channel_oids_to_local_session_oids x !! c) as [l|] eqn:Hc; simpl default in *.
  2: { exists x, w. rewrite (members_lookup _ _ _ Hc). simpl. split_and!; try done.
       by apply sent_to_skip. }
  destruct (Hok c l Hc) as (Hne & Hd & _). destruct l as [|s l]; [done|].
  destruct (send_loop_ok app c msg (channel_oids_to_local_session_oids x) (s :: l) x w [] Live)
    as (x' & w' & Hrun & Hx' & Ho & Hch & Hsent); try done.
  { simpl. by rewrite insert_id. }
  exists x', w'. split_and!; try done. unfold members at 1.
  rewrite Hch, set_members_lookup, decide_True by done.
  rewrite (members_lookup _ _ _ Hc). apply set_eq. intros y. simpl default.
  change ([] ++ s :: l) with (s :: l).
  rewrite elem_of_list_to_set, list_elem_of_filter, elem_of_filter, elem_of_list_to_set. done.
Qed.

(** A message to a channel is delivered to its members.  Every session of the
    channel whose client is connected is sent the message once, framed, and no other
    socket is written to; the sessions that are gone leave the channel, and the rest
    stays.  Nothing dangling is used, even when the last member is removed. *)
Theorem channel_message_delivered (app : bytes) (x : gzochid_application_context) (w : world)
    (c : Z) (msg : bytes)
    (Hx : lookup_application app w = Some x)
    (Hok : channels_ok (channel_oids_to_local_session_oids x))
    (Hreach : reachable_sessions x w (default [] (channel_oids_to_local_session_oids x !! c)))
    (Hlen : Z.of_nat (length msg) < 2 ^ 16) :
  exists x' w', gzochid_channel_message_direct app c msg w = Ret w'
    /\ lookup_application app w' = Some x'
    /\ oids_to_clients x' = oids_to_clients x
    /\ members x' c = filter (fun s => is_Some (oids_to_clients x !! s)) (members x c)
    /\ sent_to (omap (session_socket x w) (default [] (channel_oids_to_local_session_oids x !! c)))
         msg (node_sockets w) (node_sockets w').
Proof.
  destruct (send_direct_ok app x w c msg Hx Hok Hreach Hlen) as (x' & w' & Hrun & Hrest).
  unfold gzochid_channel_message_direct, get_context in *. rewrite Hx. cbn [mbind outcome_bind deref].
  destruct (channel_oids_to_local_session_oids x !! c) as [[|s l]|]; [| by exists x', w' |];
    unfold send_channel_message_direct, get_context in Hrun; rewrite Hx in Hrun;
    injection Hrun as <-; by exists x', w.
Qed.

End delivery.

(** A node with a channel of two sessions, one of which is gone. *)
Definition sample_node : node unit unit :=
  Node {[ [97; 0] := ApplicationContext {[5 := 1%positive]} {[1%positive := 5]}
                       {[100 := [5; 7]]} false [] ]}
    {[1%positive := GameClient None None false 3%positive]} []
    gzochid_reconnectable_socket_new {[3%positive := sample_socket]}.

Definition sample_context : gzochid_application_context :=
  default sample_channels (lookup_application [97; 0] sample_node).

Lemma channel_message_delivered_witness :
  exists x' w', gzochid_channel_message_direct [97; 0] 100 [1; 2] sample_node = Ret w'
    /\ lookup_application [97; 0] w' = Some x'
    /\ oids_to_clients x' = oids_to_clients sample_context
    /\ members x' 100 = filter (fun s => is_Some (oids_to_clients sample_context !! s))
                         (members sample_context 100)
    /\ sent_to (omap (session_socket sample_context sample_node)
                  (default [] (channel_oids_to_local_session_oids sample_context !! 100)))
         [1; 2] (node_sockets sample_node) (node_sockets w').
Proof.
  apply channel_message_delivered.
  - reflexivity.
  - intros c l Hl. change (({[100 := [5; 7]]} : gmap Z (list Z)) !! c = Some l) in Hl.
    apply lookup_singleton_Some in Hl as [_ <-]. split_and!; [done| |].
    + apply NoDup_cons. split; [|apply NoDup_singleton]. intros Hin%list_elem_of_singleton. done.
    + repeat constructor; done.
  - change (default [] (channel_oids_to_local_session_oids sample_context !! 100)) with [5; 7].
    split.
    + change (omap (session_socket sample_context sample_node) [5; 7]) with [3%positive].
      apply NoDup_singleton.
    + intros s client _ Hs.
      change (({[5 := 1%positive]} : gmap Z positive) !! s = Some client) in Hs.
      apply lookup_singleton_Some in Hs as [_ <-]. do 2 eexists. repeat split; reflexivity.
  - reflexivity.
Defined.
