(* ===== verification/ChannelClient.v ===== *)
(** * The channel client of an application node (channelclient.c, channelclient-protocol.c)

    The node's side of the channel relay: it tells the meta server what happened to a
    channel here, and does here what the meta server says happened elsewhere, through
    the direct operations of [Channel].  Errors are only logged. *)

From S2P Require Import Prelude.
From S2P Require Import Io.
From S2P Require Import Util.
From S2P Require Import Glib.
From S2P Require Import DataProtocol.
From S2P Require Import Socket.
From S2P Require Import Framing.
From S2P Require Import MetaProtocol.
From S2P Require Import GameClient.
From S2P Require Import SessionClient.
From S2P Require Import Channel.

Local Open Scope Z_scope.

Inductive channelclient_error := NOT_MAPPED.

Section channelclient.

Context {I L : Type}.
Abbreviation world := (node I L).

(** ** To the meta server *)

Definition gzochid_channelclient_relay_join_from (app : bytes) (channel_oid session_oid : Z)
    (w : world) : outcome world :=
  relay_msg ← oids_message GZOCHID_CHANNEL_PROTOCOL_RELAY_JOIN_FROM app channel_oid session_oid;
  write_uplink relay_msg w.

Definition gzochid_channelclient_relay_leave_from (app : bytes) (channel_oid session_oid : Z)
    (w : world) : outcome world :=
  relay_msg ← oids_message GZOCHID_CHANNEL_PROTOCOL_RELAY_LEAVE_FROM app channel_oid session_oid;
  write_uplink relay_msg w.

Definition gzochid_channelclient_relay_close_from (app : bytes) (channel_oid : Z) (w : world)
  : outcome world :=
  relay_msg ← oid_message GZOCHID_CHANNEL_PROTOCOL_RELAY_CLOSE_FROM app channel_oid;
  write_uplink relay_msg w.

Definition gzochid_channelclient_relay_message_from (app : bytes) (channel_oid : Z)
    (msg : bytes) (w : world) : outcome world :=
  relay_msg ← payload_message GZOCHID_CHANNEL_PROTOCOL_RELAY_MESSAGE_FROM app channel_oid msg;
  write_uplink relay_msg w.

(** ** From the meta server

    A failure of the direct operation is ignored. *)

Definition gzochid_channelclient_relay_join_to (app : bytes) (channel_oid session_oid : Z)
    (w : world) : outcome (option channelclient_error * world) :=
  match lookup_application app w with
  | Some app_context =>
      let '(_, app_context) := gzochid_channel_join_direct channel_oid session_oid app_context in
      Ret (None, set_application app app_context w)
  | None => Ret (Some NOT_MAPPED, w)
  end.

Definition gzochid_channelclient_relay_leave_to (app : bytes) (channel_oid session_oid : Z)
    (w : world) : outcome (option channelclient_error * world) :=
  match lookup_application app w with
  | Some app_context =>
      let '(_, app_context) := gzochid_channel_leave_direct channel_oid session_oid app_context in
      Ret (None, set_application app app_context w)
  | None => Ret (Some NOT_MAPPED, w)
  end.

Definition gzochid_channelclient_relay_close_to (app : bytes) (channel_oid : Z) (w : world)
  : outcome (option channelclient_error * world) :=
  match lookup_application app w with
  | Some app_context =>
      Ret (None, set_application app (gzochid_channel_close_direct channel_oid app_context) w)
  | None => Ret (Some NOT_MAPPED, w)
  end.

Definition gzochid_channelclient_relay_message_to (app : bytes) (channel_oid : Z)
    (msg : bytes) (w : world) : outcome (option channelclient_error * world) :=
  match lookup_application app w with
  | Some _ => w ← gzochid_channel_message_direct app channel_oid msg w; Ret (None, w)
  | None => Ret (Some NOT_MAPPED, w)
  end.

(** ** The protocol *)

Definition dispatch_relay_join_to (message : bytes) (len : Z) (w : world) : outcome world :=
  r ← read_app message len 16;
  match r with
  | None => Ret w
  | Some (app, str_len) =>
      channel_oid ← read_oid_at message str_len;
      session_oid ← read_oid_at message (str_len + 8);
      '(_, w) ← gzochid_channelclient_relay_join_to app channel_oid session_oid w;
      Ret w
  end.

Definition dispatch_relay_leave_to (message : bytes) (len : Z) (w : world) : outcome world :=
  r ← read_app message len 16;
  match r with
  | None => Ret w
  | Some (app, str_len) =>
      channel_oid ← read_oid_at message str_len;
      session_oid ← read_oid_at message (str_len + 8);
      '(_, w) ← gzochid_channelclient_relay_leave_to app channel_oid session_oid w;
      Ret w
  end.

Definition dispatch_relay_close_to (message : bytes) (len : Z) (w : world) : outcome world :=
  r ← read_app message len 8;
  match r with
  | None => Ret w
  | Some (app, str_len) =>
      channel_oid ← read_oid_at message str_len;
      '(_, w) ← gzochid_channelclient_relay_close_to app channel_oid w;
      Ret w
  end.

Definition dispatch_relay_message_to (message : bytes) (len : Z) (w : world) : outcome world :=
  r ← read_app message len 8;
  match r with
  | None => Ret w
  | Some (app, str_len) =>
      channel_oid ← read_oid_at message str_len;
      msg ← gzochid_protocol_read_bytes (drop (Z.to_nat (str_len + 8)) message)
              (u64 (len - str_len - 8));
      match msg with
      | None => Ret w
      | Some msg =>
          '(_, w) ← gzochid_channelclient_relay_message_to app channel_oid msg w;
          Ret w
      end
  end.

Definition dispatch_payload (opcode : Z) (payload : bytes) (len : Z) (w : world)
  : outcome world :=
  if opcode =? GZOCHID_CHANNEL_PROTOCOL_RELAY_JOIN_TO
  then dispatch_relay_join_to payload len w
  else if opcode =? GZOCHID_CHANNEL_PROTOCOL_RELAY_LEAVE_TO
  then dispatch_relay_leave_to payload len w
  else if opcode =? GZOCHID_CHANNEL_PROTOCOL_RELAY_CLOSE_TO
  then dispatch_relay_close_to payload len w
  else if opcode =? GZOCHID_CHANNEL_PROTOCOL_RELAY_MESSAGE_TO
  then dispatch_relay_message_to payload len w
  else Ret w.

Definition dispatch_message : bytes -> Z -> world -> outcome world :=
  dispatch_opcode dispatch_payload.

Definition client_can_dispatch (buffer : bytes) (w : world) : outcome bool :=
  frame_ready buffer.

Definition client_dispatch (buffer : bytes) (w : world) : outcome (Z * world) :=
  dispatch_frames (fun buffer offset => dispatch_message (drop (Z.to_nat offset) buffer))
    buffer w.

Definition gzochid_channelclient_client_protocol : gzochid_client_protocol world :=
  ClientProtocol client_can_dispatch client_dispatch Ret Ret.

(** ** The protocol keeps to its messages *)

Lemma blind_set {A} (a : A) (app : bytes) (x : gzochid_application_context) :
  blind_with (fun w : world => Ret (a, set_application app x w)).
Proof. split; [done|]. by intros p b w a' w' [= _ <-]. Qed.

Lemma blind_application (f : gzochid_application_context -> gzochid_application_context) (app : bytes) :
  blind_with (fun w : world => match lookup_application app w with
    | Some x => Ret (None, set_application app (f x) w)
    | None => Ret (Some NOT_MAPPED, w) end).
Proof.
  apply (blind_lookup app (fun x w => Ret (None, set_application app (f x) w)));
    [|auto with blind]. intros x. apply blind_set.
Qed.

Lemma relay_join_to_blind (app : bytes) (c s : Z) :
  blind_with (gzochid_channelclient_relay_join_to app c s).
Proof.
  apply (blind_lookup app (fun x w =>
    let '(_, x) := gzochid_channel_join_direct c s x in Ret (None, set_application app x w)));
    [|auto with blind].
  intros x. destruct (gzochid_channel_join_direct c s x). apply blind_set.
Qed.

Lemma relay_leave_to_blind (app : bytes) (c s : Z) :
  blind_with (gzochid_channelclient_relay_leave_to app c s).
Proof.
  apply (blind_lookup app (fun x w =>
    let '(_, x) := gzochid_channel_leave_direct c s x in Ret (None, set_application app x w)));
    [|auto with blind].
  intros x. destruct (gzochid_channel_leave_direct c s x). apply blind_set.
Qed.

Lemma send_loop_blind (app : bytes) c ptr l msg len :
  blind (W := world) (send_loop app c ptr l msg len).
Proof.
  revert ptr. induction l as [|s l IH]; intros ptr; [apply blind_ret|].
  assert (Hget : forall p b (w : world), get_context app (set_recv p b w) = get_context app w) by done.
  split.
  - intros p b w. cbn [send_loop]. rewrite Hget.
    destruct (get_context app w) as [x| | |]; [|done..]. cbn [mbind outcome_bind].
    destruct (oids_to_clients x !! s) as [client|].
    + destruct (game_client_send_blind (I := I) (L := L) client msg len) as [Hs _].
      change (update_application app (app_event_dispatch MESSAGE_SENT) (set_recv p b w))
        with (set_recv p b (update_application app (app_event_dispatch MESSAGE_SENT) w)).
      rewrite Hs. destruct (gzochid_game_client_send client msg len _) as [w'| | |]; [|done..].
      apply (IH ptr).
    + destruct ptr; [apply (IH Null)| |done].
      destruct (channel_oids_to_local_session_oids x !! c) as [ms|]; [|done].
      cbn [mbind outcome_bind deref]. destruct (session_lookup s ms); [|apply (IH Live)].
      match goal with |- context [update_application app ?f (set_recv p b w)] =>
        change (update_application app f (set_recv p b w))
          with (set_recv p b (update_application app f w)) end. apply (IH _).
  - intros p b w w'. cbn [send_loop].
    destruct (get_context app w) as [x| | |]; [|done..]. cbn [mbind outcome_bind].
    destruct (oids_to_clients x !! s) as [client|].
    + destruct (game_client_send_blind (I := I) (L := L) client msg len) as [_ Hs].
      intros (w1 & H1 & H2)%bind_Ret Hrecv. destruct (IH ptr) as [_ Hk].
      eapply Hk; [exact H2|]. eapply Hs; [exact H1|]. exact Hrecv.
    + destruct ptr; [apply (IH Null)| |done].
      destruct (channel_oids_to_local_session_oids x !! c) as [ms|]; [|done].
      cbn [mbind outcome_bind deref]. destruct (session_lookup s ms); [|apply (IH Live)].
      intros Hw Hrecv. destruct (IH (match sequence_remove n ms with [] => Dangling | _ => Live end))
        as [_ Hk]. eapply Hk; [exact Hw|]. exact Hrecv.
Qed.

Lemma channelclient_relay_message_to_blind (app : bytes) (c : Z) (msg : bytes) :
  blind_with (gzochid_channelclient_relay_message_to app c msg).
Proof.
  apply (blind_lookup app (fun _ w =>
    w ← gzochid_channel_message_direct app c msg w; Ret (None, w))); [|auto with blind].
  intros _. apply blind_with_after; [|auto with blind].
  unfold gzochid_channel_message_direct, send_channel_message_direct.
  pose proof (fun ptr l => send_loop_blind app c ptr l msg (Z.of_nat (length msg))) as Hl.
  split.
  - intros p b w. change (get_context app (set_recv p b w)) with (get_context app w).
    destruct (get_context app w) as [x| | |]; [|done..]. cbn [mbind outcome_bind].
    destruct (channel_oids_to_local_session_oids x !! c) as [[|s l]|]; [done| |done].
    apply (Hl Live (s :: l)).
  - intros p b w w'. destruct (get_context app w) as [x| | |]; [|done..].
    cbn [mbind outcome_bind].
    destruct (channel_oids_to_local_session_oids x !! c) as [[|s l]|];
      [by intros [= <-] | |by intros [= <-]]. apply (Hl Live (s :: l)).
Qed.

Lemma channelclient_dispatch_blind (opcode : Z) (payload : bytes) (len : Z) :
  blind (dispatch_payload opcode payload len).
Proof.
  unfold dispatch_payload.
  destruct (opcode =? _); [|destruct (opcode =? _); [|destruct (opcode =? _);
    [|destruct (opcode =? _); [|apply blind_ret]]]];
    (apply blind_bind; intros [[app str_len]|]; [|apply blind_ret]);
    apply blind_bind; intros c.
  - apply blind_bind. intros s. apply (blind_drop (gzochid_channelclient_relay_join_to app c s)).
    apply relay_join_to_blind.
  - apply blind_bind. intros s. apply (blind_drop (gzochid_channelclient_relay_leave_to app c s)).
    apply relay_leave_to_blind.
  - apply (blind_drop (gzochid_channelclient_relay_close_to app c)).
    apply (blind_application (gzochid_channel_close_direct c)).
  - apply blind_bind. intros [msg|]; [|apply blind_ret].
    apply (blind_drop (gzochid_channelclient_relay_message_to app c msg)).
    apply channelclient_relay_message_to_blind.
Qed.

Lemma channelclient_dispatch_local : local_payload dispatch_payload (fun _ => True).
Proof.
  intros opcode payload post w _ Hlen. unfold dispatch_payload,
    dispatch_relay_join_to, dispatch_relay_leave_to, dispatch_relay_close_to,
    dispatch_relay_message_to.
  rewrite !read_app_local by lia.
  destruct (opcode =? _); [|destruct (opcode =? _); [|destruct (opcode =? _);
    [|destruct (opcode =? _); [|done]]]];
    match goal with |- context [read_app payload ?n ?k] =>
      destruct (read_app payload n k) as [[[app l]|]| | |] eqn:Hr; [|done..] end;
    (apply read_app_bound in Hr as [Hk1 Hk2]; [|lia]);
    cbn [mbind outcome_bind]; rewrite !read_oid_at_local by lia; try done.
  rewrite drop_app_le by lia. rewrite read_bytes_local; [done|].
  rewrite length_drop, u64_small by lia. lia.
Qed.

#[export] Instance channelclient_framed :
  FramedProtocol gzochid_channelclient_client_protocol
    (fun buffer offset => dispatch_message (drop (Z.to_nat offset) buffer))
    (fun m => dispatch_message m (Z.of_nat (length m))) (fun _ => True).
Proof. apply framed_by_opcode; [done|done|apply channelclient_dispatch_local|apply channelclient_dispatch_blind]. Qed.

End channelclient.
