(* ===== verification/Relay.v ===== *)
(** * Relaying from node to node

    The parts of a relay together: what a session or channel client writes on one
    application node, the meta server reads in whatever pieces it arrives, and writes
    to the node or nodes concerned, which read it in whatever pieces it arrives there
    and act on it.  The theorems follow a message through the protocols by way of the
    interface of [Framing], so that they hold of the sockets' loops and not only of the
    treatment of one message. *)

From S2P Require Import Prelude.
From S2P Require Import Io.
From S2P Require Import Util.
From S2P Require Import DataProtocol.
From S2P Require Import NodeMap.
From S2P Require Import Socket.
From S2P Require Import Framing.
From S2P Require Import MetaProtocol.
From S2P Require SessionServer.
From S2P Require ChannelServer.
From S2P Require Import GameClient.
From S2P Require SessionClient.
From S2P Require Import Channel.
From S2P Require ChannelClient.

Local Open Scope Z_scope.

#[local] Existing Instances SessionServer.sessionserver_framed SessionClient.sessionclient_framed
  ChannelServer.channelserver_framed ChannelClient.channelclient_framed.

(** What a node writes to the meta server goes to the socket it is connected by. *)
Definition uplinked {I L} (w : node I L) (u : positive) (sk : gzochid_client_socket) : Prop :=
  socket (uplink w) = Some u /\ node_sockets w !! u = Some sk /\ sock_server sk = true.

Definition sent_up {I L} (u : positive) (sk : gzochid_client_socket) (m : bytes) (w : node I L)
  : node I L :=
  set_sockets (<[u := with_send (send_buffer sk ++ frame m) true sk]> (node_sockets w)) w.

Lemma write_uplink_ok {I L} (w : node I L) (u : positive) (sk : gzochid_client_socket) (m : bytes) :
  uplinked w u sk -> write_uplink (frame m) w = Ret (sent_up u sk m w).
Proof.
  intros (Hu & Hsk & Hserver). unfold write_uplink, gzochid_reconnectable_socket_write.
  rewrite Hu, (write_ok u _ _ sk) by done. cbn [mbind outcome_bind]. unfold sent_up. done.
Qed.

(** Names and ids that a relay carries. *)
Record relayable (a : bytes) : Prop := {
  relayable_name : nonzero a;
  relayable_bytes : bytes_ok a;
  relayable_nonempty : a <> [];
  relayable_length : Z.of_nat (length a) < 2 ^ 14
}.

Lemma opcode_message (opcode : Z) (a payload : bytes) :
  0 <= opcode < 256 -> sendable a payload -> message_ok (opcode :: payload).
Proof. intros. eapply sendable_message; [unfold byte_ok; lia|done]. Qed.

(** ** Treating what was built

    What a payload of each shape is read as; [n] is the length that the reader asks
    for after the name. *)

Section shapes.

Context (a : bytes) (Ha : relayable a).

Lemma name_ok : nonzero a /\ bytes_ok a /\ a <> [].
Proof. by destruct Ha. Qed.

Lemma oid_sendable (id : Z) : sendable a (oid_payload a id).
Proof. destruct Ha. apply oid_payload_ok; auto; lia. Qed.

Lemma oids_sendable (id1 id2 : Z) : sendable a (oids_payload a id1 id2).
Proof. destruct Ha. apply oids_payload_ok; auto; lia. Qed.

Lemma bytes_sendable (id : Z) (msg : bytes) :
  bytes_ok msg -> Z.of_nat (length msg) < 2 ^ 14 -> sendable a (bytes_payload a id msg).
Proof. destruct Ha. intros. apply bytes_payload_ok; auto; lia. Qed.

Lemma read_app_oid (id : Z) :
  read_app (oid_payload a id) (Z.of_nat (length (oid_payload a id))) 8
  = Ret (Some (a ++ [0], Z.of_nat (length a) + 1)).
Proof.
  apply read_name; [apply name_ok|done|by rewrite be_encode_length|].
  by eapply sendable_length, oid_sendable.
Qed.

Lemma read_app_oids (id1 id2 : Z) :
  read_app (oids_payload a id1 id2) (Z.of_nat (length (oids_payload a id1 id2))) 16
  = Ret (Some (a ++ [0], Z.of_nat (length a) + 1)).
Proof.
  apply read_name; [apply name_ok|done|by rewrite length_app, !be_encode_length|].
  by eapply sendable_length, oids_sendable.
Qed.

Lemma read_app_bytes (id : Z) (msg : bytes) :
  bytes_ok msg -> Z.of_nat (length msg) < 2 ^ 14 ->
  read_app (bytes_payload a id msg) (Z.of_nat (length (bytes_payload a id msg))) 8
  = Ret (Some (a ++ [0], Z.of_nat (length a) + 1)).
Proof.
  intros Hb Hm. apply read_name; [apply name_ok|done|rewrite length_app, !be_encode_length; lia|].
  by eapply sendable_length, bytes_sendable.
Qed.

Lemma read_bytes_msg (id : Z) (msg : bytes) :
  bytes_ok msg -> Z.of_nat (length msg) < 2 ^ 14 ->
  gzochid_protocol_read_bytes
    (drop (Z.to_nat (Z.of_nat (length a) + 1 + 8)) (bytes_payload a id msg))
    (u64 (Z.of_nat (length (bytes_payload a id msg)) - (Z.of_nat (length a) + 1) - 8))
  = Ret (Some msg).
Proof.
  intros Hb Hm. apply read_msg; [lia|]. by eapply sendable_length, bytes_sendable.
Qed.

End shapes.

Ltac read_fields Ha :=
  first [rewrite (read_app_oid _ Ha) | rewrite (read_app_oids _ Ha) | rewrite (read_app_bytes _ Ha) by done];
  cbn [mbind outcome_bind];
  first [rewrite read_only_oid by done
        | rewrite read_oids_oid by done; cbn [mbind outcome_bind];
          rewrite read_second_oid by done
        | rewrite read_bytes_oid by done; cbn [mbind outcome_bind];
          rewrite (read_bytes_msg _ Ha) by done];
  cbn [mbind outcome_bind].

Section session.

Context (a : bytes) (Ha : relayable a) (id : Z) (Hid : in_unsigned 64 id).

Lemma server_treats_message (client : Z) (msg : bytes) (w : SessionServer.world) :
  bytes_ok msg -> Z.of_nat (length msg) < 2 ^ 14 ->
  SessionServer.dispatch_payload client GZOCHID_SESSION_PROTOCOL_RELAY_MESSAGE_FROM
    (bytes_payload a id msg) (Z.of_nat (length (bytes_payload a id msg))) w
  = ('(_, t) ← SessionServer.gzochi_metad_sessionserver_relay_message (a ++ [0]) id msg w.1 w.2;
     Ret (w.1, t)).
Proof.
  intros Hb Hmsg. unfold SessionServer.dispatch_payload. choose_branch.
  unfold SessionServer.dispatch_relay_message. by read_fields Ha.
Qed.

Lemma server_treats_disconnect (client : Z) (w : SessionServer.world) :
  SessionServer.dispatch_payload client GZOCHID_SESSION_PROTOCOL_RELAY_DISCONNECT_FROM
    (oid_payload a id) (Z.of_nat (length (oid_payload a id))) w
  = ('(_, t) ← SessionServer.gzochi_metad_sessionserver_relay_disconnect (a ++ [0]) id w.1 w.2;
     Ret (w.1, t)).
Proof.
  unfold SessionServer.dispatch_payload. choose_branch.
  unfold SessionServer.dispatch_relay_disconnect. by read_fields Ha.
Qed.

Lemma client_treats_message {I L} (msg : bytes) (w : node I L) :
  bytes_ok msg -> Z.of_nat (length msg) < 2 ^ 14 ->
  SessionClient.dispatch_payload GZOCHID_SESSION_PROTOCOL_RELAY_MESSAGE_TO
    (bytes_payload a id msg) (Z.of_nat (length (bytes_payload a id msg))) w
  = ('(_, w) ← SessionClient.gzochid_sessionclient_relay_message_to (a ++ [0]) id msg w; Ret w).
Proof.
  intros Hb Hmsg. unfold SessionClient.dispatch_payload. choose_branch.
  unfold SessionClient.dispatch_relay_message_to. by read_fields Ha.
Qed.

Lemma client_treats_disconnect {I L} (w : node I L) :
  SessionClient.dispatch_payload GZOCHID_SESSION_PROTOCOL_RELAY_DISCONNECT_TO
    (oid_payload a id) (Z.of_nat (length (oid_payload a id))) w
  = ('(_, w) ← SessionClient.gzochid_sessionclient_relay_disconnect_to (a ++ [0]) id w; Ret w).
Proof.
  unfold SessionClient.dispatch_payload. choose_branch.
  unfold SessionClient.dispatch_relay_disconnect_to. by read_fields Ha.
Qed.

End session.

(** ** Sessions *)

(** What a node asks the meta server to relay to a session. *)
Inductive session_order := Deliver (msg : bytes) | Disconnect.

Definition order_ok (x : session_order) : Prop :=
  match x with
  | Deliver msg => bytes_ok msg /\ Z.of_nat (length msg) < 2 ^ 14
  | Disconnect => True
  end.

(** The message to the meta server, the message from it, and the message to the game
    client. *)
Definition order_up (a : bytes) (id : Z) (x : session_order) : bytes :=
  match x with
  | Deliver msg => GZOCHID_SESSION_PROTOCOL_RELAY_MESSAGE_FROM :: bytes_payload a id msg
  | Disconnect => GZOCHID_SESSION_PROTOCOL_RELAY_DISCONNECT_FROM :: oid_payload a id
  end.

Definition order_down (a : bytes) (id : Z) (x : session_order) : bytes :=
  match x with
  | Deliver msg => GZOCHID_SESSION_PROTOCOL_RELAY_MESSAGE_TO :: bytes_payload a id msg
  | Disconnect => GZOCHID_SESSION_PROTOCOL_RELAY_DISCONNECT_TO :: oid_payload a id
  end.

Definition order_message (x : session_order) : bytes :=
  match x with
  | Deliver msg => GameClient.GZOCHI_COMMON_PROTOCOL_SESSION_MESSAGE :: msg
  | Disconnect => [GameClient.GZOCHI_COMMON_PROTOCOL_SESSION_DISCONNECTED]
  end.

Definition relay_order {I L} (app : bytes) (id : Z) (x : session_order) (w : node I L)
  : outcome (node I L) :=
  match x with
  | Deliver msg => SessionClient.gzochid_sessionclient_relay_message_from app id msg w
  | Disconnect => SessionClient.gzochid_sessionclient_relay_disconnect_from app id w
  end.

Definition send_to (p : positive) (sk : gzochid_client_socket) (m : bytes) (t : sockets) : sockets :=
  <[p := with_send (send_buffer sk ++ frame m) true sk]> t.

(** A session whose game client is connected to the node. *)
Record session_at {I L} (app : bytes) (id : Z) (w : node I L) (p : positive)
    (sk : gzochid_client_socket) : Prop := {
  at_session : exists x client c, lookup_application app w = Some x
    /\ oids_to_clients x !! id = Some client /\ game_clients w !! client = Some c
    /\ client_sock c = p;
  at_socket : node_sockets w !! p = Some sk /\ sock_server sk = true
}.

Section session_orders.

Context {I L : Type} (a : bytes) (Ha : relayable a) (id : Z) (Hid : in_unsigned 64 id).
Context (x : session_order) (Hx : order_ok x).

Lemma order_up_ok : message_ok (order_up a id x).
Proof.
  destruct x as [msg|]; cbn [order_up] in *; apply (opcode_message _ a); try done.
  - destruct Hx. by apply bytes_sendable.
  - by apply oid_sendable.
Qed.

Lemma order_down_ok : message_ok (order_down a id x).
Proof.
  destruct x as [msg|]; cbn [order_down] in *; apply (opcode_message _ a); try done.
  - destruct Hx. by apply bytes_sendable.
  - by apply oid_sendable.
Qed.

Lemma order_sent_up (w : node I L) (u : positive) (sk : gzochid_client_socket) :
  uplinked w u sk -> relay_order (a ++ [0]) id x w = Ret (sent_up u sk (order_up a id x) w).
Proof.
  intros Hup. pose proof (name_ok a Ha) as (Hnz & _ & _). destruct x as [msg|]; cbn [relay_order order_up].
  - unfold SessionClient.gzochid_sessionclient_relay_message_from.
    rewrite payload_message_ok by done. cbn [mbind outcome_bind]. by apply write_uplink_ok.
  - unfold SessionClient.gzochid_sessionclient_relay_disconnect_from.
    rewrite oid_message_ok by done. cbn [mbind outcome_bind]. by apply write_uplink_ok.
Qed.

Lemma order_through_server (client : Z) (s : SessionServer.GzochiMetadSessionServer)
    (t : sockets) (n : Z) (q : positive) (sk : gzochid_client_socket) :
  session_to_node (SessionServer.nodemap s) !! QualifiedKey a id = Some n ->
  SessionServer.connected_servers s !! n = Some q -> t !! q = Some sk -> sock_server sk = true ->
  SessionServer.dispatch_message client (order_up a id x) (Z.of_nat (length (order_up a id x))) (s, t)
  = Ret (s, send_to q sk (order_down a id x) t).
Proof.
  intros Hn Hq Hsk Hserver. pose proof (name_ok a Ha) as (Hnz & _ & _).
  unfold SessionServer.dispatch_message. destruct x as [msg|]; cbn [order_up order_down].
  - destruct Hx. rewrite dispatch_opcode_cons by (by apply (bytes_sendable a Ha)).
    rewrite (server_treats_message a Ha id Hid) by done. cbn [fst snd].
    by rewrite (SessionServer.relay_message_ok a id msg s t n q sk).
  - rewrite dispatch_opcode_cons by (by apply (oid_sendable a Ha)).
    rewrite (server_treats_disconnect a Ha id Hid). cbn [fst snd].
    by rewrite (SessionServer.relay_disconnect_ok a id s t n q sk).
Qed.

Lemma order_to_client (w : node I L) (p : positive) (sk : gzochid_client_socket) :
  session_at (a ++ [0]) id w p sk ->
  SessionClient.dispatch_message (order_down a id x) (Z.of_nat (length (order_down a id x))) w
  = Ret (set_sockets (send_to p sk (order_message x) (node_sockets w)) w).
Proof.
  intros [(y & client & c & Hy & Hcl & Hc & <-) [Hsk Hserver]].
  unfold SessionClient.dispatch_message. destruct x as [msg|]; cbn [order_message order_down].
  - destruct Hx. rewrite dispatch_opcode_cons by (by apply (bytes_sendable a Ha)).
    rewrite (client_treats_message a Ha id Hid) by done.
    unfold SessionClient.gzochid_sessionclient_relay_message_to. rewrite Hy, Hcl.
    rewrite (GameClient.game_client_send_ok client msg w c sk) by (done || lia). done.
  - rewrite dispatch_opcode_cons by (by apply (oid_sendable a Ha)).
    rewrite (client_treats_disconnect a Ha id Hid).
    unfold SessionClient.gzochid_sessionclient_relay_disconnect_to. rewrite Hy, Hcl.
    unfold GameClient.gzochid_game_client_disconnect, write_client. rewrite Hc.
    cbn [mbind outcome_bind deref]. change 3 with (Z.of_nat (length [0; 0; 48])).
    by rewrite (write_ok (client_sock c) _ _ sk).
Qed.

End session_orders.


(** ** Channels *)

Import ChannelServer (notice, Join, Leave, Close, Message, notice_to, relay_notice).

Definition notice_ok (x : notice) : Prop :=
  match x with
  | Join c s | Leave c s => in_unsigned 64 c /\ in_unsigned 64 s
  | Close c => in_unsigned 64 c
  | Message c msg => in_unsigned 64 c /\ bytes_ok msg /\ Z.of_nat (length msg) < 2 ^ 14
  end.

Definition notice_up (a : bytes) (x : notice) : bytes :=
  match x with
  | Join c s => GZOCHID_CHANNEL_PROTOCOL_RELAY_JOIN_FROM :: oids_payload a c s
  | Leave c s => GZOCHID_CHANNEL_PROTOCOL_RELAY_LEAVE_FROM :: oids_payload a c s
  | Close c => GZOCHID_CHANNEL_PROTOCOL_RELAY_CLOSE_FROM :: oid_payload a c
  | Message c msg => GZOCHID_CHANNEL_PROTOCOL_RELAY_MESSAGE_FROM :: bytes_payload a c msg
  end.

(** What a node tells the meta server, and what it does when it is told. *)
Definition notify {I L} (app : bytes) (x : notice) (w : node I L) : outcome (node I L) :=
  match x with
  | Join c s => ChannelClient.gzochid_channelclient_relay_join_from app c s w
  | Leave c s => ChannelClient.gzochid_channelclient_relay_leave_from app c s w
  | Close c => ChannelClient.gzochid_channelclient_relay_close_from app c w
  | Message c msg => ChannelClient.gzochid_channelclient_relay_message_from app c msg w
  end.

Definition notified {I L} (app : bytes) (x : notice) (w : node I L) : outcome (node I L) :=
  match x with
  | Join c s => snd <$> ChannelClient.gzochid_channelclient_relay_join_to app c s w
  | Leave c s => snd <$> ChannelClient.gzochid_channelclient_relay_leave_to app c s w
  | Close c => snd <$> ChannelClient.gzochid_channelclient_relay_close_to app c w
  | Message c msg => snd <$> ChannelClient.gzochid_channelclient_relay_message_to app c msg w
  end.

Lemma snd_bind {A W} (m : outcome (A * W)) : ('(_, w) ← m; Ret w) = snd <$> m.
Proof. by destruct m as [[]| | |]. Qed.

Section channel_notices.

Context {I L : Type} (a : bytes) (Ha : relayable a) (x : notice) (Hx : notice_ok x).

Lemma notice_messages_ok : message_ok (notice_up a x) /\ message_ok (notice_to a x).
Proof.
  destruct x as [c i|c i|c|c msg]; cbn [notice_up notice_to notice_ok] in *.
  - split; (apply (opcode_message _ a); [done|]); apply (oids_sendable a Ha).
  - split; (apply (opcode_message _ a); [done|]); apply (oids_sendable a Ha).
  - split; (apply (opcode_message _ a); [done|]); apply (oid_sendable a Ha).
  - destruct Hx as (_ & ? & ?).
    split; (apply (opcode_message _ a); [done|]); by apply (bytes_sendable a Ha).
Qed.

Lemma notice_sent_up (w : node I L) (u : positive) (sk : gzochid_client_socket) :
  uplinked w u sk -> notify (a ++ [0]) x w = Ret (sent_up u sk (notice_up a x) w).
Proof.
  intros Hup. pose proof (name_ok a Ha) as (Hnz & _ & _). destruct x; cbn [notify notice_up].
  - unfold ChannelClient.gzochid_channelclient_relay_join_from.
    rewrite oids_message_ok by done. cbn [mbind outcome_bind]. by apply write_uplink_ok.
  - unfold ChannelClient.gzochid_channelclient_relay_leave_from.
    rewrite oids_message_ok by done. cbn [mbind outcome_bind]. by apply write_uplink_ok.
  - unfold ChannelClient.gzochid_channelclient_relay_close_from.
    rewrite oid_message_ok by done. cbn [mbind outcome_bind]. by apply write_uplink_ok.
  - unfold ChannelClient.gzochid_channelclient_relay_message_from.
    rewrite payload_message_ok by done. cbn [mbind outcome_bind]. by apply write_uplink_ok.
Qed.

Lemma notice_to_server be enumerate (client : Z) (s : ChannelServer.GzochiMetadChannelServer)
    (t : sockets) :
  ChannelServer.dispatch_message be enumerate client (notice_up a x)
    (Z.of_nat (length (notice_up a x))) (s, t)
  = (t ← relay_notice be enumerate (s32 client) (a ++ [0]) x s t; Ret (s, t)).
Proof.
  unfold ChannelServer.dispatch_message. destruct x as [c i|c i|c|c msg]; cbn [notice_up relay_notice];
    cbn [notice_ok] in Hx.
  - destruct Hx. rewrite dispatch_opcode_cons by (by apply (oids_sendable a Ha)).
    unfold ChannelServer.dispatch_payload. choose_branch.
    unfold ChannelServer.dispatch_relay_join. by read_fields Ha.
  - destruct Hx. rewrite dispatch_opcode_cons by (by apply (oids_sendable a Ha)).
    unfold ChannelServer.dispatch_payload. choose_branch.
    unfold ChannelServer.dispatch_relay_leave. by read_fields Ha.
  - rewrite dispatch_opcode_cons by (by apply (oid_sendable a Ha)).
    unfold ChannelServer.dispatch_payload. choose_branch.
    unfold ChannelServer.dispatch_relay_close. by read_fields Ha.
  - destruct Hx as (? & ? & ?). rewrite dispatch_opcode_cons by (by apply (bytes_sendable a Ha)).
    unfold ChannelServer.dispatch_payload. choose_branch.
    unfold ChannelServer.dispatch_relay_message. by read_fields Ha.
Qed.

Lemma notice_to_node (w : node I L) :
  ChannelClient.dispatch_message (notice_to a x) (Z.of_nat (length (notice_to a x))) w
  = notified (a ++ [0]) x w.
Proof.
  unfold ChannelClient.dispatch_message. destruct x as [c i|c i|c|c msg]; cbn [notice_to notified];
    cbn [notice_ok] in Hx.
  - destruct Hx. change (a ++ [0] ++ _) with (oids_payload a c i).
    rewrite dispatch_opcode_cons by (by apply (oids_sendable a Ha)).
    unfold ChannelClient.dispatch_payload. choose_branch.
    unfold ChannelClient.dispatch_relay_join_to. read_fields Ha. apply snd_bind.
  - destruct Hx. change (a ++ [0] ++ _) with (oids_payload a c i).
    rewrite dispatch_opcode_cons by (by apply (oids_sendable a Ha)).
    unfold ChannelClient.dispatch_payload. choose_branch.
    unfold ChannelClient.dispatch_relay_leave_to. read_fields Ha. apply snd_bind.
  - change (a ++ [0] ++ _) with (oid_payload a c).
    rewrite dispatch_opcode_cons by (by apply (oid_sendable a Ha)).
    unfold ChannelClient.dispatch_payload. choose_branch.
    unfold ChannelClient.dispatch_relay_close_to. read_fields Ha. apply snd_bind.
  - destruct Hx as (? & ? & ?). change (a ++ [0] ++ _) with (bytes_payload a c msg).
    rewrite dispatch_opcode_cons by (by apply (bytes_sendable a Ha)).
    unfold ChannelClient.dispatch_payload. choose_branch.
    unfold ChannelClient.dispatch_relay_message_to. read_fields Ha. apply snd_bind.
Qed.

End channel_notices.

(** Two nodes: sockets to the meta server at 1, and a game client's at 2. *)
Definition sample_node : node unit unit :=
  GameClient.Node
    {[ [97; 0] := GameClient.ApplicationContext {[5 := 1%positive]} {[1%positive := 5]} {[9 := [5]]}
                    true [] ]}
    {[ 1%positive := GameClient.GameClient (Some [97; 0]) (Some tt) false 2%positive ]} []
    (ReconnectableSocket (Some 1%positive) [] [])
    {[ 1%positive := sample_socket; 2%positive := sample_socket ]}.

Lemma sample_relayable : relayable [97].
Proof. split; [by repeat constructor|repeat constructor; done|done|done]. Qed.

