(* ===== verification/ChannelEffects.v ===== *)
(** * Channel operations and their side effects (channel.c)

    The second stage of the channel service.  An operation on a channel, which was
    scheduled as a task, runs in a transaction of its own; it only notes a side effect
    in the context of the "channel-side-effect" participant, which is carried out on
    the node when the transaction commits: on the members of the channel that are
    here, by the direct operations of [Channel], and on the other nodes, by the
    channel client.  Contexts live in a store indexed by their addresses.  The
    managed reference to the operation that the worker removes at the end belongs to
    the data manager and is not part of the state here; [created] says whether it
    could be created. *)

From S2P Require Import Prelude.
From S2P Require Import Io.
From S2P Require Import Util.
From S2P Require Import Glib.
From S2P Require Import Tx.
From S2P Require Import DataProtocol.
From S2P Require Import Socket.
From S2P Require Import Framing.
From S2P Require Import MetaProtocol.
From S2P Require Import GameClient.
From S2P Require Import Channel.
From S2P Require Import ChannelClient.
From S2P Require ChannelServer.
From S2P Require Import Relay.

Local Open Scope Z_scope.

(** ** Operations and side effects *)

Definition GZOCHID_CHANNEL_OP_JOIN : Z := 0.
Definition GZOCHID_CHANNEL_OP_LEAVE : Z := 1.
Definition GZOCHID_CHANNEL_OP_SEND : Z := 2.
Definition GZOCHID_CHANNEL_OP_CLOSE : Z := 3.

(** The types that extend the base type; another type than the four is a base
    operation too.  The timestamp of an operation is neither set nor read. *)
Inductive gzochid_channel_pending_operation :=
| OpJoin (target_channel target_session : Z)
| OpLeave (target_channel target_session : Z)
| OpSend (target_channel : Z) (message : bytes) (len : Z)
| OpBase (type target_channel : Z).

Inductive gzochid_channel_side_effect :=
| EffectJoin (channel_oid session_oid : Z)
| EffectLeave (channel_oid session_oid : Z)
| EffectSend (channel_oid : Z) (session_oids : list Z) (msg : bytes) (len : Z)
| EffectClose (channel_oid : Z).

(** ** Serialization *)

Definition operation_type (op : gzochid_channel_pending_operation) : Z :=
  match op with
  | OpJoin _ _ => GZOCHID_CHANNEL_OP_JOIN
  | OpLeave _ _ => GZOCHID_CHANNEL_OP_LEAVE
  | OpSend _ _ _ => GZOCHID_CHANNEL_OP_SEND
  | OpBase type _ => type
  end.

Definition target_channel (op : gzochid_channel_pending_operation) : Z :=
  match op with
  | OpJoin c _ | OpLeave c _ | OpSend c _ _ | OpBase _ c => c
  end.

Definition serialize_channel_operation (op : gzochid_channel_pending_operation) (out : bytes)
  : outcome bytes :=
  out ← gzochid_util_serialize_int (operation_type op) out;
  out ← gzochid_util_serialize_oid (target_channel op) out;
  match op with
  | OpJoin _ target_session | OpLeave _ target_session =>
      gzochid_util_serialize_oid target_session out
  | OpSend _ message len => gzochid_util_serialize_bytes message len out
  | OpBase _ _ => Ret out
  end.

(** An [int] that is written where a [short] is: the [short] is its first half. *)
Definition short_of_int (big_endian : bool) (n : Z) : Z :=
  s16 (if big_endian then Z.shiftr n 16 else n).

Definition deserialize_channel_operation (big_endian : bool) (ins : bytes)
  : outcome (gzochid_channel_pending_operation * bytes) :=
  '(type, ins) ← gzochid_util_deserialize_int ins;
  '(target_channel, ins) ← gzochid_util_deserialize_oid ins;
  if (type =? GZOCHID_CHANNEL_OP_JOIN) || (type =? GZOCHID_CHANNEL_OP_LEAVE) then
    '(target_session, ins) ← gzochid_util_deserialize_oid ins;
    Ret ((if type =? GZOCHID_CHANNEL_OP_JOIN then OpJoin else OpLeave) target_channel target_session,
         ins)
  else if type =? GZOCHID_CHANNEL_OP_SEND then
    '(message, len, ins) ← gzochid_util_deserialize_bytes ins;
    Ret (OpSend target_channel message (short_of_int big_endian len), ins)
  else Ret (OpBase type target_channel, ins).

Record gzochid_channel := GzochidChannel { channel_name : bytes; channel_oid : Z; channel_scm_oid : Z }.

Definition serialize_channel (channel : gzochid_channel) (out : bytes) : outcome bytes :=
  out ← gzochid_util_serialize_string (channel_name channel) out;
  out ← gzochid_util_serialize_oid (channel_oid channel) out;
  gzochid_util_serialize_oid (channel_scm_oid channel) out.

Definition deserialize_channel (ins : bytes) : outcome (gzochid_channel * bytes) :=
  '(name, ins) ← gzochid_util_deserialize_string ins;
  '(oid, ins) ← gzochid_util_deserialize_oid ins;
  '(scm_oid, ins) ← gzochid_util_deserialize_oid ins;
  Ret (GzochidChannel name oid scm_oid, ins).

(** ** Creating side effects *)

Definition gzochid_channel_side_effect_new (op channel_oid : Z) : outcome gzochid_channel_side_effect :=
  _ ← c_assert (op =? GZOCHID_CHANNEL_OP_CLOSE);
  Ret (EffectClose channel_oid).

Definition gzochid_channel_membership_side_effect_new (op channel_oid session_oid : Z)
  : outcome gzochid_channel_side_effect :=
  _ ← c_assert ((op =? GZOCHID_CHANNEL_OP_JOIN) || (op =? GZOCHID_CHANNEL_OP_LEAVE));
  Ret (if op =? GZOCHID_CHANNEL_OP_JOIN then EffectJoin channel_oid session_oid
       else EffectLeave channel_oid session_oid).

Definition gzochid_channel_message_side_effect_new (op channel_oid : Z) (session_oids : list Z)
    (msg : bytes) (len : Z) : outcome gzochid_channel_side_effect :=
  _ ← c_assert (op =? GZOCHID_CHANNEL_OP_SEND);
  msg ← memcpy_from msg len;
  Ret (EffectSend channel_oid session_oids msg len).

(** ** The participant *)

Inductive effect_fn := EffectPrepare | EffectCommit | EffectRollback | OtherFn (n : nat).

Section effects.

Context {I L : Type}.

Record gzochid_channel_side_effect_transaction_context := EffectContext {
  app_context : bytes;
  side_effect : option gzochid_channel_side_effect
}.

Record effects_world := EffectsWorld {
  effect_contexts : gmap positive gzochid_channel_side_effect_transaction_context;
  next_context : positive;
  effects_node : node I L
}.

Abbreviation st := (tx_thread effect_fn positive effects_world).

Definition put_node (w : node I L) (s : st) : st :=
  set_world (EffectsWorld (effect_contexts (world s)) (next_context (world s)) w) s.

Definition put_effect_context (d : positive) (c : gzochid_channel_side_effect_transaction_context)
    (s : st) : st :=
  set_world (EffectsWorld (<[d := c]> (effect_contexts (world s))) (next_context (world s))
               (effects_node (world s))) s.

Definition cleanup_side_effect_transaction (d : positive) (s : st) : outcome st :=
  _ ← deref (effect_contexts (world s) !! d);
  Ret (set_world (EffectsWorld (base.delete d (effect_contexts (world s))) (next_context (world s))
                    (effects_node (world s))) s).

Definition channel_side_effect_prepare (s : st) : outcome (bool * st) := Ret (true, s).

(** What is done on the node; the channel client is there if the node has a meta
    client.  The branch of joins and leaves declares a channel client of its own,
    which stays null, so that nothing is forwarded; the error of a leave is not
    asked for. *)
Definition carry_out (app : bytes) (e : gzochid_channel_side_effect) (w : node I L)
  : outcome (node I L) :=
  x ← get_context app w;
  match e with
  | EffectSend channel_oid session_oids msg len =>
      w ← send_channel_message_direct app channel_oid session_oids msg len w;
      if metaclient x then gzochid_channelclient_relay_message_from app channel_oid msg w
      else Ret w
  | EffectClose channel_oid =>
      let w := update_application app (gzochid_channel_close_direct channel_oid) w in
      if metaclient x then gzochid_channelclient_relay_close_from app channel_oid w else Ret w
  | EffectJoin channel_oid session_oid =>
      let channelclient := false in
      let '(err, x) := gzochid_channel_join_direct channel_oid session_oid x in
      let w := set_application app x w in
      match err with
      | Some err =>
          if negb (bool_decide (err = Channel.NOT_MAPPED)) && channelclient
          then gzochid_channelclient_relay_join_from app channel_oid session_oid w
          else Ret w
      | None => Ret w
      end
  | EffectLeave channel_oid session_oid =>
      let '(_, x) := gzochid_channel_leave_direct channel_oid session_oid x in
      Ret (set_application app x w)
  end.

Definition channel_side_effect_commit (d : positive) (s : st) : outcome st :=
  c ← deref (effect_contexts (world s) !! d);
  s ← match side_effect c with
      | Some e => w ← carry_out (app_context c) e (effects_node (world s)); Ret (put_node w s)
      | None => Ret s
      end;
  cleanup_side_effect_transaction d s.

Definition channel_side_effect_rollback (d : positive) (s : st) : outcome st :=
  cleanup_side_effect_transaction d s.

Definition channel_side_effect_participant : gzochid_transaction_participant effect_fn :=
  TxParticipant "channel-side-effect" (Some EffectPrepare) (Some EffectCommit) (Some EffectRollback).

Definition join_side_effect_transaction (app : bytes) (s : st) : outcome (positive * st) :=
  joined ← (if gzochid_transaction_active s
            then gzochid_transaction_context channel_side_effect_participant s
            else Ret None);
  match joined with
  | Some d => Ret (d, s)
  | None =>
      let d := next_context (world s) in
      let s := set_world (EffectsWorld (<[d := EffectContext app None]> (effect_contexts (world s)))
                            (Pos.succ d) (effects_node (world s))) s in
      s ← gzochid_transaction_join channel_side_effect_participant d s;
      Ret (d, s)
  end.

(** The effect replaces one that is there. *)
Definition note_effect (app : bytes) (e : gzochid_channel_side_effect) (s : st) : outcome st :=
  '(d, s) ← join_side_effect_transaction app s;
  c ← deref (effect_contexts (world s) !! d);
  Ret (put_effect_context d (EffectContext (app_context c) (Some e)) s).

Definition close_channel (app : bytes) (target_channel : Z) (s : st) : outcome st :=
  x ← get_context app (effects_node (world s));
  match channel_oids_to_local_session_oids x !! target_channel with
  | Some _ =>
      e ← gzochid_channel_side_effect_new GZOCHID_CHANNEL_OP_CLOSE target_channel;
      note_effect app e s
  | None => Ret s
  end.

Definition send_channel_message (app : bytes) (target_channel : Z) (message : bytes) (len : Z) (s : st)
  : outcome st :=
  x ← get_context app (effects_node (world s));
  let sessions := channel_oids_to_local_session_oids x !! target_channel in
  if bool_decide (is_Some sessions) || metaclient x then
    e ← gzochid_channel_message_side_effect_new GZOCHID_CHANNEL_OP_SEND target_channel
          (default [] sessions) message len;
    note_effect app e s
  else Ret s.

Definition join_channel (app : bytes) (target_channel target_session : Z) (s : st) : outcome st :=
  x ← get_context app (effects_node (world s));
  let do_join :=
    match channel_oids_to_local_session_oids x !! target_channel with
    | Some sessions => bool_decide (session_lookup target_session sessions = None)
    | None => true
    end in
  if (do_join : bool) then
    e ← gzochid_channel_membership_side_effect_new GZOCHID_CHANNEL_OP_JOIN target_channel
          target_session;
    note_effect app e s
  else Ret s.

Definition leave_channel (app : bytes) (target_channel target_session : Z) (s : st) : outcome st :=
  x ← get_context app (effects_node (world s));
  let do_leave :=
    match channel_oids_to_local_session_oids x !! target_channel with
    | Some sessions => negb (bool_decide (session_lookup target_session sessions = None))
    | None => false
    end in
  if (do_leave : bool) then
    e ← gzochid_channel_membership_side_effect_new GZOCHID_CHANNEL_OP_LEAVE target_channel
          target_session;
    note_effect app e s
  else Ret s.

Definition channel_operation_worker (created : bool) (app : bytes)
    (op : gzochid_channel_pending_operation) (s : st) : outcome st :=
  if negb created then Ret s
  else match op with
  | OpJoin c session => join_channel app c session s
  | OpLeave c session => leave_channel app c session s
  | OpSend c message len => send_channel_message app c message len s
  | OpBase type c => if type =? GZOCHID_CHANNEL_OP_CLOSE then close_channel app c s else Abort
  end.

(** The meaning of the callbacks; the other participants vote and do nothing here. *)
Context (vote : nat -> bool).

Definition effect_call_prepare (f : effect_fn) (d : positive) (s : st) : outcome (bool * st) :=
  match f with OtherFn n => Ret (vote n, s) | _ => channel_side_effect_prepare s end.

Definition effect_call_commit (f : effect_fn) (d : positive) (s : st) : outcome st :=
  match f with OtherFn _ => Ret s | _ => channel_side_effect_commit d s end.

Definition effect_call_rollback (f : effect_fn) (d : positive) (s : st) : outcome st :=
  match f with OtherFn _ => Ret s | _ => channel_side_effect_rollback d s end.

End effects.

(** ** Round trips *)

Definition operation_ok (op : gzochid_channel_pending_operation) : Prop :=
  in_unsigned 64 (target_channel op)
  /\ match op with
     | OpJoin _ session | OpLeave _ session => in_unsigned 64 session
     | OpSend _ message len => len = Z.of_nat (length message) /\ len < 2 ^ 15
     | OpBase type _ => type = GZOCHID_CHANNEL_OP_CLOSE
     end.

#[export] Instance channel_operation_serial :
  Serial operation_ok serialize_channel_operation (deserialize_channel_operation false).
Proof.
  intros op [Hc Hop].
  assert (Ht : in_signed 32 (operation_type op))
    by (destruct op; simpl in *; subst; split; done).
  destruct (serial_ok (ser := gzochid_util_serialize_int) _ Ht) as (et & St & Dt).
  destruct (serial_ok (ser := gzochid_util_serialize_oid) _ Hc) as (ec & Sc & Dc).
  assert (Hrest : exists er,
    (forall out, match op with
       | OpJoin _ i | OpLeave _ i => gzochid_util_serialize_oid i out
       | OpSend _ m len => gzochid_util_serialize_bytes m len out
       | OpBase _ _ => Ret out end = Ret (out ++ er))
    /\ forall rest, deserialize_channel_operation false (et ++ ec ++ er ++ rest) = Ret (op, rest)).
  { unfold deserialize_channel_operation. setoid_rewrite Dt. cbn [mbind outcome_bind].
    setoid_rewrite Dc. cbn [mbind outcome_bind].
    destruct op as [c i|c i|c m len|type c]; simpl in Hop |- *.
    - destruct (serial_ok (ser := gzochid_util_serialize_oid) i Hop) as (er & Sr & Dr).
      exists er. split; [done|]. intros rest. by rewrite Dr.
    - destruct (serial_ok (ser := gzochid_util_serialize_oid) i Hop) as (er & Sr & Dr).
      exists er. split; [done|]. intros rest. by rewrite Dr.
    - destruct Hop as [Hlen Hmax].
      destruct (serial_ok (ser := fun p => gzochid_util_serialize_bytes p.1 p.2) (m, len))
        as (er & Sr & Dr); [simpl; lia|].
      exists er. split; [done|]. intros rest. rewrite Dr. cbn [mbind outcome_bind].
      unfold short_of_int. by rewrite signed_small by (unfold in_signed; lia).
    - subst type. exists []. split; [intros out; by rewrite app_nil_r|done]. }
  destruct Hrest as (er & Sr & Dr). exists (et ++ ec ++ er). split.
  - intros out. unfold serialize_channel_operation. rewrite St. cbn [mbind outcome_bind].
    rewrite Sc. cbn [mbind outcome_bind]. by rewrite Sr, <- !app_assoc.
  - intros rest. by rewrite <- !app_assoc, Dr.
Qed.

Definition channel_ok (channel : gzochid_channel) : Prop :=
  (cstring (channel_name channel) /\ Z.of_nat (length (channel_name channel)) < 2 ^ 31)
  /\ in_unsigned 64 (channel_oid channel) /\ in_unsigned 64 (channel_scm_oid channel).

#[export] Instance channel_serial : Serial channel_ok serialize_channel deserialize_channel.
Proof.
  intros [name oid scm] (Hn & Ho & Hs). cbn [channel_name channel_oid channel_scm_oid] in *.
  destruct (serial_ok (ser := gzochid_util_serialize_string) name Hn) as (en & Sn & Dn).
  destruct (serial_ok (ser := gzochid_util_serialize_oid) oid Ho) as (eo & So & Do).
  destruct (serial_ok (ser := gzochid_util_serialize_oid) scm Hs) as (es & Ss & Ds).
  exists (en ++ eo ++ es). split.
  - intros out. unfold serialize_channel. cbn [channel_name channel_oid channel_scm_oid].
    rewrite Sn. cbn [mbind outcome_bind]. rewrite So. cbn [mbind outcome_bind].
    by rewrite Ss, <- !app_assoc.
  - intros rest. unfold deserialize_channel. rewrite <- !app_assoc, Dn. cbn [mbind outcome_bind].
    rewrite Do. cbn [mbind outcome_bind]. by rewrite Ds.
Qed.

(** Operations and channels survive their storage.  The four kinds of operation,
    with a message of less than 32 KB, and a channel, written after anything, are read
    back as they were, whatever follows; the length of a message goes through an
    [int] that is stored to a [short], which is right on little-endian machines. *)
Theorem channel_data_roundtrip (op : gzochid_channel_pending_operation) (channel : gzochid_channel)
    (Hop : operation_ok op) (Hc : channel_ok channel) :
  (exists e, (forall out, serialize_channel_operation op out = Ret (out ++ e))
     /\ forall rest, deserialize_channel_operation false (e ++ rest) = Ret (op, rest))
  /\ exists e, (forall out, serialize_channel channel out = Ret (out ++ e))
     /\ forall rest, deserialize_channel (e ++ rest) = Ret (channel, rest).
Proof.
  split; [by apply (serial_ok (ser := serialize_channel_operation))|
          by apply (serial_ok (ser := serialize_channel))].
Qed.

Lemma channel_data_roundtrip_witness :
  exists e, (forall out, serialize_channel_operation (OpSend 9 [1; 2] 2) out = Ret (out ++ e))
     /\ forall rest, deserialize_channel_operation false (e ++ rest) = Ret (OpSend 9 [1; 2] 2, rest).
Proof.
  apply (channel_data_roundtrip (OpSend 9 [1; 2] 2) (GzochidChannel [97; 0] 9 10)); repeat split; try done.
  by exists [97]; repeat constructor.
Defined.

(** ** Operations in transactions *)

Definition other_participant (n : nat) : gzochid_transaction_participant effect_fn :=
  TxParticipant "other" (Some (OtherFn n)) (Some (OtherFn n)) (Some (OtherFn n)).

Section transactions.

Context {I L : Type}.
Abbreviation st := (tx_thread effect_fn positive (@effects_world I L)).

(** The body of a transaction that runs an operation and that another participant
    joins. *)
Definition operate_and_join (app : bytes) (op : gzochid_channel_pending_operation) (n : nat) (s : st)
  : outcome st :=
  s ← channel_operation_worker true app op s;
  gzochid_transaction_join (other_participant n) 1%positive s.

(** The side effect that an operation asks for in an application. *)
Definition effect_of (op : gzochid_channel_pending_operation) (x : gzochid_application_context)
  : option gzochid_channel_side_effect :=
  let sessions := channel_oids_to_local_session_oids x !! target_channel op in
  match op with
  | OpJoin c i =>
      if bool_decide (i ∈ default [] sessions) then None else Some (EffectJoin c i)
  | OpLeave c i =>
      if bool_decide (i ∈ default [] sessions) then Some (EffectLeave c i) else None
  | OpSend c m len =>
      if bool_decide (is_Some sessions) || metaclient x
      then Some (EffectSend c (default [] sessions) m len) else None
  | OpBase _ c => if bool_decide (is_Some sessions) then Some (EffectClose c) else None
  end.

Lemma lookup_member (i : Z) (l : list Z) :
  NoDup l -> bool_decide (session_lookup i l = None) = negb (bool_decide (i ∈ l)).
Proof.
  intros Hd. apply eq_bool_prop_intro. rewrite negb_True, !bool_decide_spec. split.
  - intros Hnone Hin. destruct (session_lookup_in i l Hin Hd) as (? & ? & ? & ?). congruence.
  - apply session_lookup_not.
Qed.

Lemma worker_notes (app : bytes) (op : gzochid_channel_pending_operation)
    (x : gzochid_application_context) (s : st) :
  operation_ok op -> lookup_application app (effects_node (world s)) = Some x ->
  channels_ok (channel_oids_to_local_session_oids x) ->
  channel_operation_worker true app op s
  = match effect_of op x with Some e => note_effect app e s | None => Ret s end.
Proof.
  intros [_ Hop] Hx Hok. unfold channel_operation_worker. cbn [negb].
  destruct op as [c i|c i|c m len|type c]; cbn [effect_of target_channel];
    [unfold join_channel|unfold leave_channel|unfold send_channel_message
    |subst type; change (_ =? _) with true; cbv iota; unfold close_channel];
    unfold get_context; rewrite Hx; cbn [mbind outcome_bind deref];
    destruct (channel_oids_to_local_session_oids x !! c) as [l|] eqn:Hl; cbn [default from_option id]; try done.
  - destruct (Hok _ _ Hl) as (_ & Hd & _). rewrite lookup_member by done.
    by destruct (bool_decide (i ∈ l)).
  - destruct (Hok _ _ Hl) as (_ & Hd & _). rewrite lookup_member by done.
    by destruct (bool_decide (i ∈ l)).
  - destruct Hop as [-> _]. rewrite bool_decide_true by done. cbn [orb].
    unfold gzochid_channel_message_side_effect_new. cbn [c_assert Z.eqb Pos.eqb mbind outcome_bind].
    change (c_assert _) with (Ret tt). cbn [mbind outcome_bind]. by rewrite memcpy_from_all.
  - destruct Hop as [-> _]. rewrite bool_decide_false by (by intros []). cbn [orb].
    destruct (metaclient x); [|done].
    unfold gzochid_channel_message_side_effect_new.
    change (c_assert _) with (Ret tt). cbn [mbind outcome_bind]. by rewrite memcpy_from_all.
Qed.

(** What noting an effect does to a thread without a transaction. *)
Definition with_effect (app : bytes) (e : gzochid_channel_side_effect) (s : st) : st :=
  let d := next_context (world s) in
  TxThread
    (Some (Transaction (transaction_counter s)
             {["channel-side-effect" := TxRegistration channel_side_effect_participant d false false]}
             ACTIVE (thread_transaction_timing s)))
    (thread_transaction_timing s) (u64 (transaction_counter s + 1))
    (EffectsWorld (<[d := EffectContext app (Some e)]> (effect_contexts (world s))) (Pos.succ d)
       (effects_node (world s))).

Lemma note_effect_fresh (app : bytes) (e : gzochid_channel_side_effect) (s : st) :
  thread_transaction s = None -> note_effect app e s = Ret (with_effect app e s).
Proof.
  intros Ht. destruct s as [ot tm c [ctx d nd]]. simpl in Ht. subst ot.
  unfold note_effect, join_side_effect_transaction, gzochid_transaction_join. simpl.
  simplify_map_eq. unfold with_effect, put_effect_context, set_world, set_transaction, set_participants.
  simpl. by rewrite insert_insert_eq, insert_empty.
Qed.

(** What an operation is to do to the node. *)
Definition performed (app : bytes) (op : gzochid_channel_pending_operation)
    (x : gzochid_application_context) (w : node I L) : outcome (node I L) :=
  match effect_of op x with Some e => carry_out app e w | None => Ret w end.

(** The thread after the transaction. *)
Definition performed_thread (app : bytes) (op : gzochid_channel_pending_operation)
    (x : gzochid_application_context) (s : st) (w : node I L) : st :=
  TxThread None None (u64 (transaction_counter s + 1))
    (EffectsWorld (effect_contexts (world s))
       (match effect_of op x with Some _ => Pos.succ (next_context (world s))
        | None => next_context (world s) end) w).

(** C31. An operation on a channel takes effect when its transaction commits.  In a
    transaction that runs the operation and that another participant joins, whose
    vote decides: if it votes for the commit, the side effect that the operation asks
    for, which depends on the members at the time, is carried out on the node, and
    nothing if it asks for none; if not, the node stays as it is and the transaction
    should be tried again.  The context of the participant is freed either way. *)
Theorem channel_operation_atomic
    (values : gmap string (gzochid_transaction_participant_registration effect_fn positive)
              -> list (gzochid_transaction_participant_registration effect_fn positive))
    (vote : nat -> bool) (n : nat) (app : bytes) (op : gzochid_channel_pending_operation)
    (x : gzochid_application_context) (t0 t1 : timeval) (s : st)
    (Hperm : forall m, values m ≡ₚ (map_to_list m).*2)
    (Ht : thread_transaction s = None)
    (Hfresh : effect_contexts (world s) !! next_context (world s) = None)
    (Hop : operation_ok op)
    (Hx : lookup_application app (effects_node (world s)) = Some x)
    (Hok : channels_ok (channel_oids_to_local_session_oids x)) :
  gzochid_transaction_execute (effect_call_prepare vote) effect_call_commit effect_call_rollback
    values (operate_and_join app op n) t0 t1 s
  = if vote n
    then w ← performed app op x (effects_node (world s));
         Ret (TX_SUCCESS, performed_thread app op x s w)
    else Ret (TX_SHOULD_RETRY, performed_thread app op x s (effects_node (world s))).
Proof.
  destruct s as [ot tm c [ctx d nd]]. simpl in Ht, Hfresh, Hx |- *. subst ot.
  unfold gzochid_transaction_execute, operate_and_join.
  rewrite (worker_notes app op x) by done. unfold performed, performed_thread. simpl world.
  destruct (effect_of op x) as [e|].
  - rewrite note_effect_fresh by done. run.
    unfold gzochid_transaction_join, with_effect. cbn [thread_transaction]. simpl c_assert. run.
    simpl. rewrite lookup_singleton_ne by done. run.
    unfold gzochid_transaction_end. cbn [set_transaction set_timing thread_transaction
      set_participants]. unfold rollback_only. cbn [participants].
    assert (Hdel : base.delete d (<[d := EffectContext app (Some e)]> ctx) = ctx)
      by (by apply delete_insert_id).
    set (rl := TxRegistration channel_side_effect_participant d false false).
    set (ro := TxRegistration (other_participant n) 1%positive false false).
    unfold prepare, rollback, commit, retryable, set_state.
    cbn [thread_transaction set_transaction deref participants set_tx_state]. simpl.
    destruct (values_two values Hperm "channel-side-effect" "other" rl ro ltac:(done)) as [Hv|Hv];
      rewrite !Hv; simpl;
      destruct (vote n); simpl; rewrite ?Hv; simpl;
      unfold channel_side_effect_commit, channel_side_effect_rollback, cleanup_side_effect_transaction; simpl;
      rewrite lookup_insert_eq; simpl;
      try (destruct (carry_out app e nd) as [w| | |]; simpl; [|done..]);
      rewrite ?lookup_insert_eq; simpl; rewrite ?Hv; simpl; by rewrite Hdel.
  - run. unfold gzochid_transaction_join, gzochid_transaction_begin. simpl. rewrite lookup_empty. run.
    unfold gzochid_transaction_end. cbn [set_transaction set_timing thread_transaction
      set_participants]. unfold rollback_only. cbn [participants].
    set (ro := TxRegistration (other_participant n) 1%positive false false).
    unfold prepare, rollback, commit, retryable, set_state.
    cbn [thread_transaction set_transaction deref participants set_tx_state]. simpl.
    pose proof (values_one values Hperm "other" ro) as Hv.
    rewrite insert_empty, !Hv. simpl.
    by destruct (vote n); simpl; rewrite ?Hv; simpl; rewrite ?Hv.
Qed.

End transactions.


(** ** What is carried out *)

Section carrying.

Context {I L : Type}.
Abbreviation world := (node I L).

Lemma client_send_uplink (client : positive) (msg : bytes) (len : Z) (w w' : world) :
  gzochid_game_client_send client msg len w = Ret w' -> uplink w' = uplink w.
Proof.
  unfold gzochid_game_client_send, write_client.
  intros (b1 & _ & (b2 & _ & (b3 & _ & (cl & _ & (t & _ & Hw)%bind_Ret)%bind_Ret)%bind_Ret)%bind_Ret)%bind_Ret.
  by injection Hw as <-.
Qed.

Lemma send_loop_uplink (app : bytes) (c : Z) (msg : bytes) (len : Z) (l : list Z) :
  forall ptr (w w' : world), send_loop app c ptr l msg len w = Ret w' -> uplink w' = uplink w.
Proof.
  induction l as [|s l IH]; intros ptr w w'; cbn [send_loop]; [by intros [= ->]|].
  intros (x & _ & Hw)%bind_Ret. destruct (oids_to_clients x !! s) as [client|].
  - apply bind_Ret in Hw as (w1 & Hs & Hw). apply IH in Hw as ->.
    by apply client_send_uplink in Hs as ->.
  - destruct ptr; [by eapply IH| |done]. apply bind_Ret in Hw as (ms & _ & Hw).
    destruct (session_lookup s ms); [|by eapply IH]. by apply IH in Hw as ->.
Qed.

Lemma send_direct_uplink (app : bytes) (c : Z) (l : list Z) (msg : bytes) (len : Z) (w w' : world) :
  send_channel_message_direct app c l msg len w = Ret w' -> uplink w' = uplink w.
Proof. intros (x & _ & Hw)%bind_Ret. by eapply send_loop_uplink. Qed.

(** The socket to the meta server after a notice, if there is a meta client. *)
Definition forwarded (x : gzochid_application_context) (u : positive) (sk : gzochid_client_socket)
    (m : bytes) (t : sockets) : sockets :=
  if metaclient x then <[u := with_send (send_buffer sk ++ frame m) true sk]> t else t.

(** Messages and closings reach the members and the other nodes.  When the side
    effect of a message is carried out, each member of the channel whose client is
    connected here is sent the message, framed, once; the members without a client
    leave the channel; and if the node has a meta client, the message is written to
    the meta server, once, whole.  When that of a closing is, the channel is empty, no
    other changes, and the meta server is told if there is one.  No other socket is
    written to. *)
Theorem channel_effect_broadcast (a : bytes) (x : gzochid_application_context) (w : world)
    (c : Z) (msg : bytes) (u : positive) (sk : gzochid_client_socket)
    (Ha : relayable a)
    (Hx : lookup_application (a ++ [0]) w = Some x)
    (Hok : channels_ok (channel_oids_to_local_session_oids x))
    (Hreach : reachable_sessions x w (default [] (channel_oids_to_local_session_oids x !! c)))
    (Hmsg : notice_ok (ChannelServer.Message c msg))
    (Hup : uplinked w u sk)
    (Hu : u ∉ omap (session_socket x w) (default [] (channel_oids_to_local_session_oids x !! c))) :
  (exists x' w' t,
      carry_out (a ++ [0]) (EffectSend c (default [] (channel_oids_to_local_session_oids x !! c))
                              msg (Z.of_nat (length msg))) w = Ret w'
      /\ lookup_application (a ++ [0]) w' = Some x'
      /\ members x' c = filter (fun s => is_Some (oids_to_clients x !! s)) (members x c)
      /\ sent_to (omap (session_socket x w) (default [] (channel_oids_to_local_session_oids x !! c)))
           msg (node_sockets w) t
      /\ node_sockets w' = forwarded x u sk (notice_up a (ChannelServer.Message c msg)) t)
  /\ (exists x' w', carry_out (a ++ [0]) (EffectClose c) w = Ret w'
      /\ lookup_application (a ++ [0]) w' = Some x'
      /\ changed x x' c (fun _ => ∅)
      /\ node_sockets w' = forwarded x u sk (notice_up a (ChannelServer.Close c)) (node_sockets w)).
Proof.
  pose proof Hmsg as (Hc & _ & Hlen). split.
  - unfold carry_out, get_context. rewrite Hx. cbn [mbind outcome_bind deref].
    destruct (send_direct_ok (a ++ [0]) x w c msg Hx Hok Hreach) as
      (x' & w1 & Hrun & Hx' & _ & Hm & Hsent); [lia|].
    pose proof (send_direct_uplink _ _ _ _ _ _ _ Hrun) as Hlink.
    rewrite Hrun. cbn [mbind outcome_bind]. unfold forwarded.
    destruct (metaclient x); [|by exists x', w1, (node_sockets w1)].
    change (gzochid_channelclient_relay_message_from (a ++ [0]) c msg w1)
      with (notify (a ++ [0]) (ChannelServer.Message c msg) w1).
    rewrite (notice_sent_up a Ha _ Hmsg w1 u sk).
    { by eexists x', _, (node_sockets w1). }
    destruct Hup as (Hs & Hsk & Hserver). split_and!; [by rewrite Hlink| |done].
    by rewrite (Hsent u), Hsk, bool_decide_false.
  - exists (gzochid_channel_close_direct c x). unfold carry_out, get_context, forwarded. rewrite Hx.
    cbn [mbind outcome_bind deref].
    set (w1 := update_application (a ++ [0]) (gzochid_channel_close_direct c) w).
    assert (Hx1 : lookup_application (a ++ [0]) w1 = Some (gzochid_channel_close_direct c x))
      by (by apply lookup_update).
    pose proof (close_direct_changed x c Hok) as Hch.
    destruct (metaclient x); [|by exists w1].
    change (gzochid_channelclient_relay_close_from (a ++ [0]) c w1)
      with (notify (a ++ [0]) (ChannelServer.Close c) w1).
    rewrite (notice_sent_up a Ha (ChannelServer.Close c) Hc w1 u sk) by done. by eexists.
Qed.

(** The joins and leaves of sessions of other nodes are lost.  The side effect of a
    join or of a leave is the direct operation on this node and nothing else: no socket
    is written to, whether or not there is a meta client, so that for a session that
    is not connected here, the channel stays as it is here and no other node is told. *)
Theorem channel_membership_not_forwarded (app : bytes) (x : gzochid_application_context) (w : world)
    (c s : Z) (Hx : lookup_application app w = Some x) :
  carry_out app (EffectJoin c s) w
    = Ret (set_application app (gzochid_channel_join_direct c s x).2 w)
  /\ carry_out app (EffectLeave c s) w
    = Ret (set_application app (gzochid_channel_leave_direct c s x).2 w)
  /\ (oids_to_clients x !! s = None ->
      carry_out app (EffectJoin c s) w = Ret w /\ carry_out app (EffectLeave c s) w = Ret w).
Proof.
  unfold carry_out, get_context. rewrite Hx. cbn [mbind outcome_bind deref].
  assert (Hsame : set_application app x w = w).
  { unfold set_application, set_applications. destruct w. simpl. f_equal. by apply insert_id. }
  split_and!.
  - destruct (gzochid_channel_join_direct c s x) as [[err|] x']; [|done].
    by rewrite andb_false_r.
  - by destruct (gzochid_channel_leave_direct c s x).
  - intros Hs. unfold gzochid_channel_join_direct, gzochid_channel_leave_direct. rewrite Hs.
    by rewrite Hsame.
Qed.

End carrying.

(** ** Examples *)

Definition sample_thread : tx_thread effect_fn positive (@effects_world unit unit) :=
  TxThread None None 7 (EffectsWorld ∅ 1 Relay.sample_node).

Definition sample_app : gzochid_application_context :=
  default sample_channels (lookup_application [97; 0] Relay.sample_node).

Lemma sample_app_ok : channels_ok (channel_oids_to_local_session_oids sample_app).
Proof.
  intros c l Hl. change (({[9 := [5]]} : gmap Z (list Z)) !! c = Some l) in Hl.
  apply lookup_singleton_Some in Hl as [_ <-]. split_and!; [done|apply NoDup_singleton|].
  by repeat constructor.
Qed.

(** The transaction of a message that is voted for. *)
Lemma channel_operation_atomic_witness :
  gzochid_transaction_execute (effect_call_prepare (fun _ => true)) effect_call_commit
    effect_call_rollback (fun m => (map_to_list m).*2) (operate_and_join [97; 0] (OpSend 9 [1; 2] 2) 4)
    (Timeval 0 0) (Timeval 0 5) sample_thread
  = (w ← carry_out [97; 0] (EffectSend 9 [5] [1; 2] 2) Relay.sample_node;
     Ret (TX_SUCCESS, performed_thread [97; 0] (OpSend 9 [1; 2] 2) sample_app sample_thread w)).
Proof.
  apply (channel_operation_atomic (fun m => (map_to_list m).*2) (fun _ => true) 4 [97; 0]
    (OpSend 9 [1; 2] 2) sample_app); try done. apply sample_app_ok.
Defined.

Lemma channel_effect_broadcast_witness :
  exists x' w', carry_out ([97] ++ [0]) (EffectClose 9) Relay.sample_node = Ret w'
    /\ lookup_application ([97] ++ [0]) w' = Some x'
    /\ changed sample_app x' 9 (fun _ => ∅)
    /\ node_sockets w' = forwarded sample_app 1 sample_socket (notice_up [97] (ChannelServer.Close 9))
                           (node_sockets Relay.sample_node).
Proof.
  apply (channel_effect_broadcast [97] sample_app Relay.sample_node 9 [1; 2]).
  - apply sample_relayable.
  - reflexivity.
  - apply sample_app_ok.
  - change (default [] (channel_oids_to_local_session_oids sample_app !! 9)) with [5]. split.
    + change (omap (session_socket sample_app Relay.sample_node) [5]) with [2%positive].
      apply NoDup_singleton.
    + intros s client _ Hs.
      change (({[5 := 1%positive]} : gmap Z positive) !! s = Some client) in Hs.
      apply lookup_singleton_Some in Hs as [_ <-]. do 2 eexists. repeat split; reflexivity.
  - repeat split; try done. by repeat constructor.
  - split_and!; reflexivity.
  - change (default [] (channel_oids_to_local_session_oids sample_app !! 9)) with [5].
    change (omap (session_socket sample_app Relay.sample_node) [5]) with [2%positive].
    by intros Hin%list_elem_of_singleton.
Defined.

Lemma channel_membership_not_forwarded_witness :
  carry_out [97; 0] (EffectJoin 9 6) Relay.sample_node = Ret Relay.sample_node.
Proof. by apply (channel_membership_not_forwarded [97; 0] sample_app Relay.sample_node 9 6). Defined.
