(* ===== verification/Session.v ===== *)
(** * Client sessions (session.c)

    The persistent session object, and the operations on it.  What a transaction asks
    to be sent to sessions is queued in the context of its participant "session" and
    leaves the node when the transaction commits: to the game client, if the session
    is connected here, and through the meta server otherwise.  Objects live in the
    memory of [Data]; the contexts and the node, which the data manager does not know,
    are the state of the other components there.  An identity stands for its name. *)

From stdpp Require Import pretty.
From S2P Require Import Prelude.
From S2P Require Import Io.
From S2P Require Import Util.
From S2P Require Import Tx.
From S2P Require Import DataProtocol.
From S2P Require Import Callback.
From S2P Require Import Storage.
From S2P Require Import Oids.
From S2P Require Import Data.
From S2P Require Import DataFrame.
From S2P Require Import Socket.
From S2P Require Import Framing.
From S2P Require Import MetaProtocol.
From S2P Require Import GameClient.
From S2P Require Import SessionClient.
From S2P Require Import Relay.

Local Open Scope Z_scope.

(** ** Data *)

Record gzochid_client_session_handler := SessionHandler {
  received_message : gzochid_application_callback;
  disconnected : gzochid_application_callback
}.

Record gzochid_client_session := ClientSession {
  identity : bytes;
  handler : option gzochid_client_session_handler;
  connected : bool;
  scm_oid : Z;
  handler_scm_oid : Z
}.

Inductive gzochid_client_session_pending_operation :=
| OpDisconnect (target_session : Z)
| OpLoginSuccess (target_session : Z)
| OpLoginFailure (target_session : Z)
| OpMessage (target_session : Z) (message : bytes) (len : Z).

Definition target_session (op : gzochid_client_session_pending_operation) : Z :=
  match op with
  | OpDisconnect t | OpLoginSuccess t | OpLoginFailure t | OpMessage t _ _ => t
  end.

(** [context] is the name of the application. *)
Record gzochid_client_session_transaction_context := SessionContext {
  context : bytes;
  login_failed : bool;
  login_operation : option gzochid_client_session_pending_operation;
  operations : list gzochid_client_session_pending_operation
}.

Definition create_transaction_context (context : bytes) : gzochid_client_session_transaction_context :=
  SessionContext context false None [].

Definition gzochid_client_session_new (identity : bytes) : gzochid_client_session :=
  ClientSession identity None false 0 0.

Definition gzochid_client_session_set_scm_oid (session : gzochid_client_session) (scm_oid : Z)
  : gzochid_client_session :=
  ClientSession (identity session) (handler session) (connected session) scm_oid
    (handler_scm_oid session).

Definition gzochid_client_session_set_handler_scm_oid (session : gzochid_client_session)
    (handler_scm_oid : Z) : gzochid_client_session :=
  ClientSession (identity session) (handler session) (connected session) (scm_oid session)
    handler_scm_oid.

Definition gzochid_client_session_set_handler (session : gzochid_client_session)
    (handler : gzochid_client_session_handler) : gzochid_client_session :=
  ClientSession (identity session) (Some handler) (connected session) (scm_oid session)
    (handler_scm_oid session).

(** ** Serialization *)

Definition serialize_handler (handler : gzochid_client_session_handler) (out : bytes) : outcome bytes :=
  out ← serialize_callback (received_message handler) out;
  serialize_callback (disconnected handler) out.

Definition deserialize_handler (ins : bytes) : outcome (gzochid_client_session_handler * bytes) :=
  '(received_message, ins) ← deserialize_callback ins;
  '(disconnected, ins) ← deserialize_callback ins;
  Ret (SessionHandler received_message disconnected, ins).

Definition serialize_client_session (session : gzochid_client_session) (out : bytes) : outcome bytes :=
  out ← gzochid_auth_identity_serializer (identity session) out;
  out ← gzochid_util_serialize_oid (scm_oid session) out;
  match handler session with
  | Some handler =>
      out ← gzochid_util_serialize_boolean true out;
      out ← serialize_handler handler out;
      gzochid_util_serialize_oid (handler_scm_oid session) out
  | None => gzochid_util_serialize_boolean false out
  end.

Definition deserialize_client_session (ins : bytes) : outcome (gzochid_client_session * bytes) :=
  '(identity, ins) ← gzochid_auth_identity_deserializer ins;
  let session := gzochid_client_session_new identity in
  '(scm_oid, ins) ← gzochid_util_deserialize_oid ins;
  let session := gzochid_client_session_set_scm_oid session scm_oid in
  '(has_handler, ins) ← gzochid_util_deserialize_boolean ins;
  if has_handler : bool then
    '(handler, ins) ← deserialize_handler ins;
    '(oid, ins) ← gzochid_util_deserialize_oid ins;
    Ret (gzochid_client_session_set_handler_scm_oid
           (gzochid_client_session_set_handler session handler) oid, ins)
  else Ret (session, ins).

(** ** Delivery at the commit *)

Section delivery.

Context {I L : Type}.

(** The meta client is that of the application context. *)
Definition forward_disconnect (app : bytes) (target_session_oid : Z) (w : node I L)
  : outcome (node I L) :=
  gzochid_sessionclient_relay_disconnect_from app target_session_oid w.

Definition forward_message (app : bytes) (target_session_oid : Z) (msg : bytes) (len : Z)
    (w : node I L) : outcome (node I L) :=
  msg_bytes ← memcpy_from msg len;
  gzochid_sessionclient_relay_message_from app target_session_oid msg_bytes w.

Definition session_commit_operation (tx_context : gzochid_client_session_transaction_context)
    (op : gzochid_client_session_pending_operation) (w : node I L) : outcome (node I L) :=
  let app := context tx_context in
  x ← deref (lookup_application app w);
  let client := oids_to_clients x !! target_session op in
  if bool_decide (client = None) && negb (metaclient x) then Ret w
  else
    match op with
    | OpDisconnect target =>
        match client with
        | Some client => gzochid_game_client_disconnect client w
        | None => if metaclient x then forward_disconnect app target w else Ret w
        end
    | OpLoginSuccess _ => client ← deref client; gzochid_game_client_login_success client w
    | OpLoginFailure _ => client ← deref client; gzochid_game_client_login_failure client w
    | OpMessage target message len =>
        silent ← (if login_failed tx_context
                  then login ← deref (login_operation tx_context);
                       Ret (bool_decide (target = target_session login))
                  else Ret false);
        if silent : bool then Ret w
        else
          let w := update_application app (app_event_dispatch MESSAGE_SENT) w in
          match client with
          | Some client => gzochid_game_client_send client message len w
          | None => if metaclient x then forward_message app target message len w else Ret w
          end
    end.

Fixpoint commit_operations (tx_context : gzochid_client_session_transaction_context)
    (l : list gzochid_client_session_pending_operation) (w : node I L) : outcome (node I L) :=
  match l with
  | [] => Ret w
  | op :: l => w ← session_commit_operation tx_context op w; commit_operations tx_context l w
  end.

End delivery.

(** ** Operations in transactions *)

(** The objects and serializations that the data manager meets, those of the
    application's own left open. *)
Inductive object (O : Type) := SessionObject (s : gzochid_client_session) | OtherObject (o : O).
Arguments SessionObject {O}.
Arguments OtherObject {O}.

Inductive serialization (Z' : Type) :=
| gzochid_client_session_serialization
| gzochid_scm_location_aware_serialization
| OtherSerialization (z : Z').
Arguments gzochid_client_session_serialization {Z'}.
Arguments gzochid_scm_location_aware_serialization {Z'}.
Arguments OtherSerialization {Z'}.

Record session_components (I L : Type) := SessionComponents {
  session_contexts : gmap positive gzochid_client_session_transaction_context;
  session_node : node I L
}.
Arguments SessionComponents {I L}.
Arguments session_contexts {I L}.
Arguments session_node {I L}.

(** The callbacks of the participant "session" among the functions that are not the
    data manager's. *)
Definition session_participant : gzochid_transaction_participant data_fn :=
  TxParticipant "session" (Some (OtherFn 0)) (Some (OtherFn 1)) (Some (OtherFn 2)).

Definition SESSION_PREFIX : string := "s.session.".

(** The prefix and the decimal digits of the id. *)
Definition session_binding (oid : Z) : bytes :=
  bytes_of_string (SESSION_PREFIX +:+ pretty (Z.to_N oid)).

Section session.

Context {E T U O Z' I L : Type}.
Context (engine : gzochid_storage_engine_interface E T).
Context (oid_strategy : gzochid_oid_allocation_strategy E U).
Context (ser : serializations E T (object O) (serialization Z') (session_components I L)).
Context (big_endian : bool) (now : timeval).

Abbreviation st := (data_st E T (object O) (serialization Z') (session_components I L)).

Definition put_session_context (d : positive) (c : gzochid_client_session_transaction_context) : st -> st :=
  with_world (fun w => set_components (SessionComponents (<[d := c]> (session_contexts (components w)))
                                         (session_node (components w))) w).

Definition put_session_node (n : node I L) : st -> st :=
  with_world (fun w => set_components (SessionComponents (session_contexts (components w)) n) w).

Definition get_session_context (d : positive) (s : st)
  : outcome gzochid_client_session_transaction_context :=
  deref (session_contexts (components (world s)) !! d).

Definition get_session (p : positive) (s : st) : outcome gzochid_client_session :=
  match objects (world s) !! p with Some (SessionObject x) => Ret x | _ => Undef end.

Definition cleanup_transaction (d : positive) (s : st) : outcome st :=
  _ ← get_session_context d s;
  Ret (with_world (fun w => set_components
         (SessionComponents (base.delete d (session_contexts (components w)))
            (session_node (components w))) w) s).

Definition session_prepare (data : option positive) (s : st) : outcome (bool * st) := Ret (true, s).

(** The login operation first, then the others in the order of the calls. *)
Definition session_commit (data : option positive) (s : st) : outcome st :=
  d ← deref data;
  c ← get_session_context d s;
  let w := session_node (components (world s)) in
  w ← (match login_operation c with
       | Some op => session_commit_operation c op w
       | None => Ret w
       end);
  w ← commit_operations c (operations c) w;
  cleanup_transaction d (put_session_node w s).

Definition session_rollback (data : option positive) (s : st) : outcome st :=
  d ← deref data; cleanup_transaction d s.

Definition join_transaction (app : bytes) (s : st) : outcome (positive * st) :=
  joined ← (if gzochid_transaction_active s
            then o ← gzochid_transaction_context session_participant s; Ret (or_null o)
            else Ret None);
  match joined with
  | Some d => Ret (d, s)
  | None =>
      let d := fresh (dom (session_contexts (components (world s)))) in
      let s := put_session_context d (create_transaction_context app) s in
      s ← gzochid_transaction_join session_participant (Some d) s;
      Ret (d, s)
  end.

(** An error that is not the failure of the transaction is dropped. *)
Definition clear_error (err : option data_error) : option data_error :=
  match err with Some ERROR_TRANSACTION => err | _ => None end.

(** Removes the session's binding, its representation in Scheme and its handler's, and
    the session. *)
Definition remove_session (session_oid : Z) (s : st) : outcome (option data_error * st) :=
  '(err, s) ← gzochid_data_remove_binding engine now (session_binding session_oid) s;
  match err with
  | Some err => Ret (Some err, s)
  | None =>
      '(reference, s) ← gzochid_data_create_reference_to_oid engine now
                          gzochid_client_session_serialization session_oid s;
      '(obj, err, s) ← gzochid_data_dereference engine oid_strategy ser big_endian now reference s;
      match err with
      | Some err => Ret (Some err, s)
      | None =>
          p ← deref obj;
          session ← get_session p s;
          '(scm_reference, s) ← gzochid_data_create_reference_to_oid engine now
                                  gzochid_scm_location_aware_serialization (scm_oid session) s;
          '(handler_reference, s) ← gzochid_data_create_reference_to_oid engine now
                                  gzochid_scm_location_aware_serialization
                                  (handler_scm_oid session) s;
          '(err, s) ← gzochid_data_remove_object engine big_endian now scm_reference s;
          '(err, s) ← (match clear_error err with
                       | None => gzochid_data_remove_object engine big_endian now handler_reference s
                       | Some err => Ret (Some err, s)
                       end);
          match clear_error err with
          | None => gzochid_data_remove_object engine big_endian now reference s
          | Some err => Ret (Some err, s)
          end
      end
  end.

Definition gzochid_client_session_disconnected_worker (oid : Z) (s : st) : outcome st :=
  '(_, s) ← remove_session oid s; Ret s.

(** The reference to a session, which the transaction has already. *)
Definition session_reference (session : positive) (s : st)
  : outcome (gzochid_data_managed_reference (serialization Z') * st) :=
  '(res, s) ← gzochid_data_create_reference engine oid_strategy big_endian now
                gzochid_client_session_serialization (Some session) s;
  match res with
  | inr _ => Abort
  | inl r =>
      reference ← get_ref r s;
      _ ← c_assert (negb (bool_decide (ref_state reference = STATE_NEW)));
      Ret (reference, s)
  end.

Definition append_operation (op : gzochid_client_session_pending_operation)
    (c : gzochid_client_session_transaction_context) : gzochid_client_session_transaction_context :=
  SessionContext (context c) (login_failed c) (login_operation c) (operations c ++ [op]).

Definition set_login (op : gzochid_client_session_pending_operation) (failed : bool)
    (c : gzochid_client_session_transaction_context) : gzochid_client_session_transaction_context :=
  SessionContext (context c) (failed || login_failed c) (Some op) (operations c).

Definition gzochid_client_session_disconnect (app : bytes) (session : positive) (s : st) : outcome st :=
  '(d, s) ← join_transaction app s;
  '(reference, s) ← session_reference session s;
  '(err, s) ← remove_session (ref_oid reference) s;
  match err with
  | None =>
      c ← get_session_context d s;
      Ret (put_session_context d (append_operation (OpDisconnect (ref_oid reference)) c) s)
  | Some _ => Ret s
  end.

Definition gzochid_client_session_send_login_success (app : bytes) (session : positive) (s : st)
  : outcome st :=
  '(d, s) ← join_transaction app s;
  '(reference, s) ← session_reference session s;
  c ← get_session_context d s;
  _ ← c_assert (bool_decide (login_operation c = None));
  Ret (put_session_context d (set_login (OpLoginSuccess (ref_oid reference)) false c) s).

Definition gzochid_client_session_send_login_failure (app : bytes) (session : positive) (s : st)
  : outcome st :=
  '(d, s) ← join_transaction app s;
  '(reference, s) ← session_reference session s;
  c ← get_session_context d s;
  _ ← c_assert (bool_decide (login_operation c = None));
  Ret (put_session_context d (set_login (OpLoginFailure (ref_oid reference)) true c) s).

Definition gzochid_client_session_send_message (app : bytes) (session : positive) (msg : bytes)
    (len : Z) (s : st) : outcome st :=
  '(d, s) ← join_transaction app s;
  '(reference, s) ← session_reference session s;
  c ← get_session_context d s;
  Ret (put_session_context d (append_operation (OpMessage (ref_oid reference) msg len) c) s).

(** ** Persisting and sweeping *)

(** The body of the task that stores a new object under its id. *)
Definition persistence_task_worker (prefix : string) (z : serialization Z') (data : positive) (s : st)
  : outcome ((Z + data_error) * st) :=
  '(res, s) ← gzochid_data_create_reference engine oid_strategy big_endian now z (Some data) s;
  match res with
  | inr err => Ret (inr err, s)
  | inl r =>
      reference ← get_ref r s;
      let oid := ref_oid reference in
      '(err, s) ← gzochid_data_set_binding_to_oid engine big_endian now
                    (bytes_of_string (prefix +:+ pretty (Z.to_N oid))) oid s;
      Ret (match err with Some err => inr err | None => inl oid end, s)
  end.

(** What the data manager calls for a session; the other serializations are given. *)
Definition session_serializations
    (others : serializations E T (object O) (serialization Z') (session_components I L))
  : serializations E T (object O) (serialization Z') (session_components I L) := {|
  serializer z := match z with
    | gzochid_client_session_serialization => fun data s =>
        p ← deref data; x ← get_session p s; out ← serialize_client_session x []; Ret (Some out, s)
    | _ => serializer others z
    end;
  deserializer z := match z with
    | gzochid_client_session_serialization => fun ins s =>
        '(x, _) ← deserialize_client_session ins;
        let '(p, s) := alloc_object (SessionObject x) s in Ret (Some p, false, s)
    | _ => deserializer others z
    end;
  finalizer z := match z with
    | gzochid_client_session_serialization => free_object
    | _ => finalizer others z
    end
|}.

End session.

(** ** Sessions survive their storage *)

Definition handler_ok (h : gzochid_client_session_handler) : Prop :=
  callback_ok (received_message h) /\ callback_ok (disconnected h).

(** The flag [connected] is not stored, nor is the id of a handler without one. *)
Definition session_ok (x : gzochid_client_session) : Prop :=
  cstring (identity x) /\ connected x = false /\ in_unsigned 64 (scm_oid x)
  /\ match handler x with
     | Some h => handler_ok h /\ in_unsigned 64 (handler_scm_oid x)
     | None => handler_scm_oid x = 0
     end.

#[export] Instance handler_serial : Serial handler_ok serialize_handler deserialize_handler.
Proof.
  intros [r d] [Hr Hd]. cbn [received_message disconnected] in *.
  destruct (serial_ok (ser := serialize_callback) r Hr) as (er & Sr & Dr).
  destruct (serial_ok (ser := serialize_callback) d Hd) as (ed & Sd & Dd).
  exists (er ++ ed). split.
  - intros out. unfold serialize_handler. cbn [received_message disconnected]. rewrite Sr. run.
    by rewrite Sd, <- app_assoc.
  - intros rest. unfold deserialize_handler. rewrite <- app_assoc, Dr. run. by rewrite Dd.
Qed.

(** A session survives its storage: its identity, the ids of its representation and
    its handler, and the callbacks of the handler, if it has one, are read back as they
    were written, whatever is around them. *)
Theorem session_roundtrip (x : gzochid_client_session) (Hx : session_ok x) :
  exists e, (forall out, serialize_client_session x out = Ret (out ++ e))
    /\ forall rest, deserialize_client_session (e ++ rest) = Ret (x, rest).
Proof.
  destruct x as [name h c scm hscm]. destruct Hx as (Hn & Hc & Hs & Hh).
  cbn [identity connected scm_oid handler handler_scm_oid] in *. subst c.
  destruct (serial_ok (ser := gzochid_auth_identity_serializer) name Hn) as (en & Sn & Dn).
  destruct (serial_ok (ser := gzochid_util_serialize_oid) scm Hs) as (es & Ss & Ds).
  unfold serialize_client_session, deserialize_client_session.
  cbn [identity scm_oid handler handler_scm_oid]. destruct h as [h|].
  - destruct Hh as [Hh Ho].
    destruct (serial_ok (ser := gzochid_util_serialize_boolean) true Logic.I) as (eb & Sb & Db).
    destruct (serial_ok (ser := serialize_handler) h Hh) as (eh & Sh & Dh).
    destruct (serial_ok (ser := gzochid_util_serialize_oid) hscm Ho) as (eo & So & Do).
    exists (en ++ es ++ eb ++ eh ++ eo). split.
    + intros out. rewrite Sn. run. rewrite Ss. run. rewrite Sb. run. rewrite Sh. run.
      by rewrite So, <- !app_assoc.
    + intros rest. rewrite <- !app_assoc, Dn. run. rewrite Ds. run. rewrite Db. run.
      rewrite Dh. run. by rewrite Do.
  - destruct (serial_ok (ser := gzochid_util_serialize_boolean) false Logic.I) as (eb & Sb & Db).
    exists (en ++ es ++ eb). subst hscm. split.
    + intros out. rewrite Sn. run. rewrite Ss. run. by rewrite Sb, <- !app_assoc.
    + intros rest. rewrite <- !app_assoc, Dn. run. rewrite Ds. run. by rewrite Db.
Qed.

(** ** What the commit delivers *)

Section delivered.

Context {I L : Type} (a : bytes) (u : positive).
Abbreviation world := (node I L).

(** The message to a game client, without its frame, and the message to the meta
    server, for the operations that can be relayed. *)
Definition client_message (op : gzochid_client_session_pending_operation) : bytes :=
  match op with
  | OpDisconnect _ => [GZOCHI_COMMON_PROTOCOL_SESSION_DISCONNECTED]
  | OpLoginSuccess _ => [GZOCHI_COMMON_PROTOCOL_LOGIN_SUCCESS]
  | OpLoginFailure _ => [GZOCHI_COMMON_PROTOCOL_LOGIN_FAILURE]
  | OpMessage _ message _ => GZOCHI_COMMON_PROTOCOL_SESSION_MESSAGE :: message
  end.

Definition relayed_order (op : gzochid_client_session_pending_operation) : option session_order :=
  match op with
  | OpDisconnect _ => Some Disconnect
  | OpMessage _ message _ => Some (Deliver message)
  | _ => None
  end.

(** A message to the session whose login failed in the transaction is not sent. *)
Definition silent (c : gzochid_client_session_transaction_context)
    (op : gzochid_client_session_pending_operation) : bool :=
  match op with
  | OpMessage target _ _ =>
      login_failed c && bool_decide (Some target = target_session <$> login_operation c)
  | _ => false
  end.

(** The socket that an operation writes to, and what it writes. *)
Definition destination (c : gzochid_client_session_transaction_context)
    (x : gzochid_application_context) (w : world) (op : gzochid_client_session_pending_operation)
  : option (positive * bytes) :=
  if silent c op then None
  else match oids_to_clients x !! target_session op with
  | Some client =>
      cl ← game_clients w !! client; Some (client_sock cl, frame (client_message op))
  | None =>
      if metaclient x
      then o ← relayed_order op; Some (u, frame (order_up a (target_session op) o))
      else None
  end.

Definition written_to (p : positive) (d : option (positive * bytes)) : option bytes :=
  '(q, m) ← d; if decide (q = p) then Some m else None.

(** Each socket was written the pieces, in order. *)
Definition sent (l : list (option (positive * bytes))) (t t' : sockets) : Prop :=
  forall p, send_buffer <$> t' !! p
    = (fun sk => send_buffer sk ++ concat (omap (written_to p) l)) <$> t !! p.

(** How the node is connected. *)
Record wired (x : gzochid_application_context) (w : world) : Prop := {
  wired_app : lookup_application (a ++ [0]) w = Some x;
  wired_clients : forall id client, oids_to_clients x !! id = Some client ->
    exists c sk, game_clients w !! client = Some c /\ node_sockets w !! client_sock c = Some sk
      /\ sock_server sk = true;
  wired_up : metaclient x = true -> exists sk, uplinked w u sk
}.

(** The same but for the sockets' buffers and the events. *)
Record rewired (x x' : gzochid_application_context) (w w' : world) : Prop := {
  rewired_wired : wired x' w';
  rewired_clients : oids_to_clients x' = oids_to_clients x;
  rewired_meta : metaclient x' = metaclient x;
  rewired_games : game_clients w' = game_clients w
}.

(** What a session operation must satisfy to be delivered: lengths that the messages
    can carry, and, for the answer to a login, a session that is connected here or a
    node without a meta client. *)
Definition deliverable (x : gzochid_application_context)
    (op : gzochid_client_session_pending_operation) : Prop :=
  in_unsigned 64 (target_session op)
  /\ match op with
     | OpMessage _ message len =>
         len = Z.of_nat (length message) /\ bytes_ok message /\ len < 2 ^ 14
     | OpDisconnect _ => True
     | _ => is_Some (oids_to_clients x !! target_session op) \/ metaclient x = false
     end.

Lemma wired_write (x : gzochid_application_context) (w : world) (p : positive)
    (sk : gzochid_client_socket) (b : bytes) :
  wired x w -> node_sockets w !! p = Some sk ->
  wired x (set_sockets (<[p := with_send b true sk]> (node_sockets w)) w).
Proof.
  intros [Ha Hc Hu] Hp.
  assert (Hsk : forall q sq, node_sockets w !! q = Some sq -> sock_server sq = true -> exists sq',
    <[p := with_send b true sk]> (node_sockets w) !! q = Some sq' /\ sock_server sq' = true).
  { intros q sq Hq Hs. destruct (decide (q = p)) as [->|Hne].
    - rewrite lookup_insert_eq. eexists. split; [done|]. by simplify_eq.
    - rewrite lookup_insert_ne by done. by exists sq. }
  split; [done|..].
  - intros id client Hid. destruct (Hc id client Hid) as (c & sq & Hcl & Hq & Hs).
    destruct (Hsk _ _ Hq Hs) as (sq' & ? & ?). by exists c, sq'.
  - intros Hm. destruct (Hu Hm) as (sq & Hl & Hq & Hs). destruct (Hsk _ _ Hq Hs) as (sq' & ? & ?).
    exists sq'. by split_and!.
Qed.

Lemma sent_write (p : positive) (m : bytes) (t : sockets) (sk : gzochid_client_socket) :
  t !! p = Some sk -> sent [Some (p, m)] t (<[p := with_send (send_buffer sk ++ m) true sk]> t).
Proof.
  intros Hp q. destruct (decide (p = q)) as [<-|Hne].
  - rewrite lookup_insert_eq, Hp. simpl. rewrite decide_True by done. simpl. by rewrite app_nil_r.
  - rewrite lookup_insert_ne by done. simpl. rewrite decide_False by done. simpl.
    destruct (t !! q); simpl; by rewrite ?app_nil_r.
Qed.

Lemma sent_none (t : sockets) : sent [None] t t.
Proof. intros q. simpl. destruct (t !! q); simpl; by rewrite ?app_nil_r. Qed.

Lemma sent_app l l' (t1 t2 t3 : sockets) : sent l t1 t2 -> sent l' t2 t3 -> sent (l ++ l') t1 t3.
Proof.
  intros H1 H2 p. rewrite (H2 p), omap_app, concat_app.
  specialize (H1 p). destruct (t2 !! p), (t1 !! p); simplify_eq/=; [|done].
  by rewrite H1, <- app_assoc.
Qed.

Lemma client_write_ok (x : gzochid_application_context) (w : world) id client (m : bytes) :
  wired x w -> oids_to_clients x !! id = Some client ->
  exists c sk, game_clients w !! client = Some c /\ node_sockets w !! client_sock c = Some sk
    /\ sock_server sk = true
    /\ write_client client (frame m) (Z.of_nat (length (frame m))) w
       = Ret (set_sockets (<[client_sock c := with_send (send_buffer sk ++ frame m) true sk]>
                             (node_sockets w)) w).
Proof.
  intros Hw Hid. destruct (wired_clients _ _ Hw id client Hid) as (c & sk & Hc & Hsk & Hs).
  exists c, sk. split_and!; [done..|]. unfold write_client. rewrite Hc. run.
  by rewrite (write_ok (client_sock c) _ _ sk).
Qed.

Lemma rewired_set (x : gzochid_application_context) (w : world) (p : positive)
    (sk : gzochid_client_socket) (b : bytes) :
  wired x w -> node_sockets w !! p = Some sk ->
  rewired x x w (set_sockets (<[p := with_send b true sk]> (node_sockets w)) w).
Proof. intros Hw Hp. split; [|done..]. by apply wired_write. Qed.

Lemma wired_event (e : app_event) (x : gzochid_application_context) (w : world) :
  wired x w -> rewired x (app_event_dispatch e x) w
                 (update_application (a ++ [0]) (app_event_dispatch e) w).
Proof.
  intros [Ha Hc Hu]. split; [|done..]. split; [|done|done].
  unfold lookup_application, update_application in *. cbn. by rewrite lookup_alter_eq, Ha.
Qed.

Lemma rewired_refl x w : wired x w -> rewired x x w w.
Proof. done. Qed.

Lemma rewired_trans x1 x2 x3 w1 w2 w3 :
  rewired x1 x2 w1 w2 -> rewired x2 x3 w2 w3 -> rewired x1 x3 w1 w3.
Proof. intros [] []. split; [done|congruence..]. Qed.

Lemma destination_rewired c x x' w w' op :
  rewired x x' w w' -> destination c x' w' op = destination c x w op.
Proof. intros [_ Hc Hm Hg]. unfold destination. by rewrite Hc, Hm, Hg. Qed.

Lemma silent_run (c : gzochid_client_session_transaction_context) t msg len :
  (login_failed c = true -> is_Some (login_operation c)) ->
  (if login_failed c
   then login ← deref (login_operation c); Ret (bool_decide (t = target_session login))
   else Ret false) = Ret (silent c (OpMessage t msg len)).
Proof.
  unfold silent. destruct (login_failed c); [|done]. intros [op ->]; [done|]. simpl.
  f_equal. apply bool_decide_ext. naive_solver.
Qed.

Lemma commit_operation_ok (c : gzochid_client_session_transaction_context)
    (x : gzochid_application_context) (w : world) (op : gzochid_client_session_pending_operation) :
  relayable a -> context c = a ++ [0] -> (login_failed c = true -> is_Some (login_operation c)) ->
  wired x w -> deliverable x op ->
  exists x' w', session_commit_operation c op w = Ret w' /\ rewired x x' w w'
    /\ sent [destination c x w op] (node_sockets w) (node_sockets w').
Proof.
  intros Hrel Hctx Hlogin Hw [Hid Hop]. unfold session_commit_operation. rewrite Hctx, (wired_app _ _ Hw).
  run. set (id := target_session op) in *.
  assert (Hskip : destination c x w op = None -> exists x' w', Ret w = Ret w' /\ rewired x x' w w'
    /\ sent [destination c x w op] (node_sockets w) (node_sockets w')).
  { intros ->. exists x, w. split_and!; [done|by apply rewired_refl|apply sent_none]. }
  assert (Hclient : forall client w1 x1, oids_to_clients x !! id = Some client -> rewired x x1 w w1 ->
    node_sockets w1 = node_sockets w -> silent c op = false ->
    exists x' w', write_client client (frame (client_message op))
        (Z.of_nat (length (frame (client_message op)))) w1 = Ret w'
      /\ rewired x x' w w' /\ sent [destination c x w op] (node_sockets w) (node_sockets w')).
  { intros client w1 x1 Hc Hr Hsame Hsil. pose proof Hr as [Hw1 Hoc _ Hg].
    destruct (client_write_ok x1 w1 id client (client_message op)) as (cl & sk & Hcl & Hsk & Hs & ->);
      [done|by rewrite Hoc|].
    eexists x1, _. split_and!; [done| |].
    - eapply rewired_trans; [done|]. by apply rewired_set.
    - unfold destination. fold id. rewrite Hsil, Hc, <- Hg, Hcl. cbn [mbind option_bind node_sockets set_sockets].
      rewrite Hsame in Hsk |- *. by apply sent_write. }
  assert (Hup : forall o w1 x1, relayed_order op = Some o -> oids_to_clients x !! id = None ->
    metaclient x = true -> rewired x x1 w w1 -> node_sockets w1 = node_sockets w ->
    silent c op = false -> order_ok o ->
    exists x' w', relay_order (a ++ [0]) id o w1 = Ret w' /\ rewired x x' w w'
      /\ sent [destination c x w op] (node_sockets w) (node_sockets w')).
  { intros o w1 x1 Ho Hnone Hmeta Hr Hsame Hsil Hook. pose proof Hr as [Hw1 _ Hm _].
    destruct (wired_up _ _ Hw1) as [sk Hsk]; [congruence|].
    rewrite (order_sent_up a Hrel id o Hook w1 u sk Hsk).
    pose proof Hsk as (_ & Hlk & _).
    eexists x1, _. split_and!; [done| |].
    - eapply rewired_trans; [done|]. by apply rewired_set.
    - unfold destination, sent_up. fold id. rewrite Hsil, Hnone, Hmeta, Ho.
      cbn [mbind option_bind node_sockets set_sockets].
      rewrite Hsame in Hlk |- *. by apply sent_write. }
  destruct (oids_to_clients x !! id) as [client|] eqn:Hc; cbn [negb andb].
  - rewrite bool_decide_false by done. cbn [andb].
    destruct op as [t|t|t|t msg len]; cbn [target_session] in id; subst id.
    + by apply (Hclient client w x); [done|apply rewired_refl|..].
    + by apply (Hclient client w x); [done|apply rewired_refl|..].
    + by apply (Hclient client w x); [done|apply rewired_refl|..].
    + destruct Hop as (-> & Hb & Hlen). rewrite (silent_run c t msg (Z.of_nat (length msg))) by done. run.
      destruct (silent c _) eqn:Hsil; [by apply Hskip; unfold destination; rewrite Hsil|].
      rewrite game_client_send_frame by lia.
      by apply (Hclient client _ _ eq_refl (wired_event MESSAGE_SENT x w Hw)).
  - rewrite bool_decide_true by done. cbn [andb]. destruct (metaclient x) eqn:Hm; cbn [negb].
    2: { apply Hskip. unfold destination. fold id. rewrite Hc, Hm. by destruct (silent c op). }
    destruct op as [t|t|t|t msg len]; cbn [target_session] in id; subst id.
    + by apply (Hup Disconnect w x).
    + by destruct Hop as [[? ?]|?].
    + by destruct Hop as [[? ?]|?].
    + destruct Hop as (-> & Hb & Hlen). rewrite (silent_run c t msg (Z.of_nat (length msg))) by done. run.
      destruct (silent c _) eqn:Hsil; [by apply Hskip; unfold destination; rewrite Hsil|].
      unfold forward_message. rewrite memcpy_from_all. run.
      by apply (Hup (Deliver msg) _ _ ltac:(done) ltac:(done) ltac:(done) (wired_event MESSAGE_SENT x w Hw)).
Qed.

Lemma commit_operations_ok (c : gzochid_client_session_transaction_context)
    (l : list gzochid_client_session_pending_operation) :
  relayable a -> context c = a ++ [0] -> (login_failed c = true -> is_Some (login_operation c)) ->
  forall x w, wired x w -> Forall (deliverable x) l ->
  exists x' w', commit_operations c l w = Ret w' /\ rewired x x' w w'
    /\ sent (destination c x w <$> l) (node_sockets w) (node_sockets w').
Proof.
  intros Hrel Hctx Hlogin. induction l as [|op l IH]; intros x w Hw Hl.
  { exists x, w. split_and!; [done|by apply rewired_refl|]. intros p. simpl.
    destruct (node_sockets w !! p); simpl; by rewrite ?app_nil_r. }
  apply Forall_cons in Hl as [Hop Hl].
  destruct (commit_operation_ok c x w op Hrel Hctx Hlogin Hw Hop) as (x1 & w1 & Hr1 & Hre1 & Hs1).
  destruct (IH x1 w1) as (x2 & w2 & Hr2 & Hre2 & Hs2).
  { by destruct Hre1. }
  { eapply Forall_impl; [exact Hl|]. intros o. unfold deliverable.
    destruct Hre1 as [_ -> -> _]. done. }
  exists x2, w2. split_and!.
  - cbn [commit_operations]. rewrite Hr1. run. exact Hr2.
  - by eapply rewired_trans.
  - cbn [fmap list_fmap]. apply (sent_app [destination c x w op] _ _ (node_sockets w1)); [done|].
    replace (destination c x w <$> l) with (destination c x1 w1 <$> l); [done|].
    apply list_fmap_ext. intros ? o _. by apply destination_rewired.
Qed.

End delivered.

(** The operations of a context in the order of their delivery. *)
Definition queued (c : gzochid_client_session_transaction_context)
  : list gzochid_client_session_pending_operation :=
  option_list (login_operation c) ++ operations c.

(** C32. What a transaction sends to sessions leaves the node at the commit, in order.
    The answer to a login comes first, then the disconnections and messages in the
    order of the calls; each goes, framed, to the game client of the session if it is
    connected to the node, and else as a request to the meta server if there is one;
    messages to the session whose login is refused are not sent.  Nothing else is
    written to any socket, and the context is freed.  A rollback only frees it.
    The messages are shorter than 16 KB, and an answer to a login is for a session that is
    connected to the node, or the node has no meta client: an answer for another session
    would be sent to a null client. *)
Theorem session_commit_delivers {E T O Z' I L : Type} (a : bytes) (u d : positive)
    (c : gzochid_client_session_transaction_context) (x : gzochid_application_context)
    (s : data_st E T (object O) (serialization Z') (session_components I L))
    (Hrel : relayable a)
    (Hc : session_contexts (components (world s)) !! d = Some c)
    (Hctx : context c = a ++ [0])
    (Hlogin : login_failed c = true -> is_Some (login_operation c))
    (Hw : wired a u x (session_node (components (world s))))
    (Hops : Forall (deliverable x) (queued c)) :
  (exists s' x', session_commit (Some d) s = Ret s'
    /\ session_contexts (components (world s')) = base.delete d (session_contexts (components (world s)))
    /\ rewired a u x x' (session_node (components (world s))) (session_node (components (world s')))
    /\ sent (destination a u c x (session_node (components (world s))) <$> queued c)
         (node_sockets (session_node (components (world s))))
         (node_sockets (session_node (components (world s')))))
  /\ exists s', session_rollback (Some d) s = Ret s'
    /\ session_contexts (components (world s')) = base.delete d (session_contexts (components (world s)))
    /\ session_node (components (world s')) = session_node (components (world s)).
Proof.
  split.
  2: { unfold session_rollback, cleanup_transaction, get_session_context. run. rewrite Hc. run.
       by eexists. }
  unfold session_commit, cleanup_transaction, get_session_context. run. rewrite Hc. run.
  set (w := session_node (components (world s))) in *.
  assert (Heq : forall B (k : node I L -> outcome B),
    (w1 ← (match login_operation c with Some op => session_commit_operation c op w | None => Ret w end);
     w2 ← commit_operations c (operations c) w1; k w2)
    = (w2 ← commit_operations c (queued c) w; k w2)).
  { intros B k. unfold queued. destruct (login_operation c) as [op|]; [|done]. simpl.
    by destruct (session_commit_operation c op w). }
  rewrite Heq.
  destruct (commit_operations_ok a u c (queued c) Hrel Hctx Hlogin x w Hw Hops)
    as (x' & w' & -> & Hre & Hs). run.
  cbn [world components put_session_node with_world set_world set_components session_contexts].
  rewrite Hc. run. by eexists _, x'.
Qed.

(** ** What the calls queue *)

Section calls.

Context {E T U O Z' I L : Type} {eng : gzochid_storage_engine_interface E T}.
Context (oid_strategy : gzochid_oid_allocation_strategy E U).
Context (ser : serializations E T (object O) (serialization Z') (session_components I L)).
Context (be : bool) (now : timeval).

Abbreviation st := (data_st E T (object O) (serialization Z') (session_components I L)).

Context (Hdes : forall z bs s0 s, untouched s0 s ->
  if_ret (deserializer ser z bs s) (fun r => untouched s0 r.2)).

(** The context of the transaction, a new one if it has none yet. *)
Definition session_context (app : bytes) (s : st) : gzochid_client_session_transaction_context :=
  default (create_transaction_context app)
    (r ← registration "session" s; d ← data r; session_contexts (components (world s)) !! d).

(** The registration of the participant has a context. *)
Definition session_registered (s : st) : Prop :=
  forall r, registration "session" s = Some r ->
    exists d c, data r = Some d /\ session_contexts (components (world s)) !! d = Some c.

(** The transaction goes on, the data manager has joined it, and the object at [p] is
    a persistent one with the id [oid], not created in the transaction. *)
Record loaded (p : positive) (oid : Z) (s : st) : Prop := {
  loaded_session : session_registered s;
  loaded_object : exists dd t c r x, attached dd t s /\ data_contexts (world s) !! dd = Some c
    /\ ptrs_to_references c !! Some p = Some r /\ references (world s) !! r = Some x
    /\ ref_oid x = oid /\ ref_state x <> STATE_NEW
}.

Lemma reference_loaded (p : positive) (oid : Z) (s : st) :
  loaded p oid s -> exists x,
    session_reference eng oid_strategy be now p s = Ret (x, s) /\ ref_oid x = oid.
Proof.
  intros [_ (dd & t & c & r & x & Ha & Hc & Hp & Hr & Ho & Hn)]. exists x. split; [|done].
  unfold session_reference, gzochid_data_create_reference, get_reference_by_ptr, get_ctx, get_ref.
  rewrite (join_attached now dd t s Ha). run. rewrite (current_attached dd t s Ha). run.
  rewrite Hc. run. rewrite Hp. run. rewrite Hr. run. by rewrite bool_decide_false.
Qed.

Record queued_as (app : bytes) (c : gzochid_client_session_transaction_context) (s s' : st) : Prop := {
  qa_context : session_context app s' = c;
  qa_node : session_node (components (world s')) = session_node (components (world s));
  qa_registered : session_registered s'
}.

Lemma put_context_queued (app : bytes) (d : positive) r c (s : st) :
  registration "session" s = Some r -> data r = Some d ->
  queued_as app c s (put_session_context d c s).
Proof.
  intros Hr Hd.
  assert (Hr' : registration "session" (put_session_context d c s) = Some r) by done.
  split; [|done|].
  - unfold session_context. rewrite Hr'. cbn. rewrite Hd. cbn. by rewrite lookup_insert_eq.
  - intros r2 Hr2. rewrite Hr' in Hr2. simplify_eq. exists d, c. split; [done|]. cbn.
    by rewrite lookup_insert_eq.
Qed.

(** Joining gives the context that the calls go on with. *)
Lemma join_loaded (app : bytes) (p : positive) (oid : Z) (s : st) :
  loaded p oid s -> exists d r s', join_transaction app s = Ret (d, s')
    /\ registration "session" s' = Some r /\ data r = Some d
    /\ get_session_context d s' = Ret (session_context app s)
    /\ queued_as app (session_context app s) s s' /\ loaded p oid s'.
Proof.
  intros Hl. pose proof Hl as [Hreg (dd & t & c & r & x & Ha & Hobj)].
  pose proof Ha as [(tx & rd & Htx & Hact & Hrd & Hdd) Hctx].
  unfold join_transaction, gzochid_transaction_active, gzochid_transaction_context.
  rewrite Htx, Hact, bool_decide_true by done. cbn [p_name session_participant]. run.
  destruct (participants tx !! "session"%string) as [rs|] eqn:Hrs.
  - assert (Hrs' : registration "session" s = Some rs) by (unfold registration; by rewrite Htx).
    destruct (Hreg rs Hrs') as (d & c0 & Hd & Hc0). cbn [fmap option_fmap option_map or_null].
    rewrite Hd. cbn. exists d, rs, s.
    assert (Hsc : session_context app s = c0).
    { unfold session_context. rewrite Hrs'. cbn. rewrite Hd. cbn. by rewrite Hc0. }
    split_and!; try done. unfold get_session_context. by rewrite Hc0, Hsc.
  - cbn [fmap option_fmap option_map or_null default from_option].
    unfold gzochid_transaction_join. cbn [thread_transaction put_session_context with_world set_world].
    rewrite Htx, Hact, bool_decide_true by done. cbn [c_assert p_name session_participant]. run.
    rewrite Hrs. run.
    set (d := fresh (dom (session_contexts (components (world s))))).
    set (rs := TxRegistration session_participant (Some d) false false).
    assert (Hsc : session_context app s = create_transaction_context app).
    { unfold session_context, registration. rewrite Htx. cbn. by rewrite Hrs. }
    set (s1 := put_session_context d (create_transaction_context app) s).
    set (tx1 := set_participants _ tx).
    assert (Hrs1 : registration "session" (set_transaction (Some tx1) s1) = Some rs)
      by (unfold registration; cbn; apply lookup_insert_eq).
    assert (Hc1 : session_contexts (components (world s1)) !! d = Some (create_transaction_context app))
      by (cbn; apply lookup_insert_eq).
    exists d, rs, (set_transaction (Some tx1) s1). rewrite Hsc.
    assert (Hq : queued_as app (create_transaction_context app) s (set_transaction (Some tx1) s1)).
    { split; [|done|].
      - unfold session_context. rewrite Hrs1. cbn. by rewrite lookup_insert_eq.
      - intros r2 Hr2. rewrite Hrs1 in Hr2. simplify_eq. eexists d, _. split; [done|]. exact Hc1. }
    split_and!; try done.
    + unfold get_session_context. cbn [world set_transaction]. by rewrite Hc1.
    + split; [by destruct Hq|]. exists dd, t, c, r, x. split; [|exact Hobj]. split; [|exact Hctx].
      exists tx1, rd. split_and!; try done. cbn. by rewrite lookup_insert_ne.
Qed.

(** Reading sessions puts objects in memory and leaves the rest alone. *)
Lemma session_deserializer_untouched
    (others : serializations E T (object O) (serialization Z') (session_components I L)) :
  (forall z bs s0 s, untouched s0 s ->
     if_ret (deserializer others z bs s) (fun r => untouched s0 r.2)) ->
  forall z bs s0 s, untouched s0 s ->
    if_ret (deserializer (session_serializations others) z bs s) (fun r => untouched s0 r.2).
Proof.
  intros Ho z bs s0 s Hs. destruct z; [|by apply Ho..]. cbn [deserializer session_serializations].
  unfold alloc_object. frame_calls. destruct Hs as [C R A O']. split; [done|done|done|]. intros q o Hq. cbn.
  rewrite lookup_insert_ne; [by apply O'|]. intros <-. apply O' in Hq.
  eapply (is_fresh (dom (objects (world s)))), elem_of_dom_2, Hq.
Qed.

Lemma remove_session_untouched (oid : Z) (s0 s : st) :
  untouched s0 s ->
  if_ret (remove_session eng oid_strategy ser be now oid s) (fun r => untouched s0 r.2).
Proof. unfold remove_session, gzochid_data_dereference. frame_calls. Qed.

Lemma untouched_queued (app : bytes) c (s0 s s' : st) :
  queued_as app c s0 s -> untouched s s' -> queued_as app c s0 s'.
Proof.
  intros [Hc Hn Hr] [Uc Ur _ _].
  assert (Hreg : registration "session" s' = registration "session" s) by (by apply Ur).
  split.
  - unfold session_context in *. by rewrite Hreg, Uc.
  - by rewrite Uc.
  - intros r Hr'. rewrite Hreg in Hr'. rewrite Uc. by apply Hr.
Qed.

Lemma queued_trans (app : bytes) c1 c2 (s1 s2 s3 : st) :
  queued_as app c1 s1 s2 -> queued_as app c2 s2 s3 -> queued_as app c2 s1 s3.
Proof. intros [_ H1 _] [? H2 ?]. split; [done|congruence|done]. Qed.

(** What is sent to sessions in a transaction is queued, and nothing leaves the node.
    For a persistent session that the transaction has loaded: sending a message appends
    it; answering a login notes the answer, once, a second answer failing an
    assertion; disconnecting appends a disconnection if the session could be
    removed, and nothing otherwise.  The operations keep the id of the session. *)
Theorem session_calls_queue (app : bytes) (p : positive) (oid : Z) (msg : bytes) (len : Z) (s : st)
    (Hl : loaded p oid s) :
  (exists s', gzochid_client_session_send_message eng oid_strategy be now app p msg len s = Ret s'
    /\ let c := session_context app s in queued_as app (SessionContext (context c) (login_failed c)
         (login_operation c) (operations c ++ [OpMessage oid msg len])) s s')
  /\ (match login_operation (session_context app s) with
      | None =>
          (exists s', gzochid_client_session_send_login_success eng oid_strategy be now app p s = Ret s'
            /\ let c := session_context app s in queued_as app (SessionContext (context c) (login_failed c)
                 (Some (OpLoginSuccess oid)) (operations c)) s s')
          /\ (exists s', gzochid_client_session_send_login_failure eng oid_strategy be now app p s = Ret s'
            /\ let c := session_context app s in queued_as app (SessionContext (context c) true
                 (Some (OpLoginFailure oid)) (operations c)) s s')
      | Some _ =>
          gzochid_client_session_send_login_success eng oid_strategy be now app p s = Abort
          /\ gzochid_client_session_send_login_failure eng oid_strategy be now app p s = Abort
      end)
  /\ if_ret (gzochid_client_session_disconnect eng oid_strategy ser be now app p s) (fun s' =>
       queued_as app (session_context app s) s s'
       \/ let c := session_context app s in queued_as app (SessionContext (context c) (login_failed c)
            (login_operation c) (operations c ++ [OpDisconnect oid])) s s').
Proof.
  destruct (join_loaded app p oid s Hl) as (d & r & s1 & Hj & Hr & Hd & Hctx & Hq & Hl1).
  destruct (reference_loaded p oid s1 Hl1) as (x & Hx & Hoid). split_and!.
  - unfold gzochid_client_session_send_message. rewrite Hj. run. rewrite Hx. run. rewrite Hctx. run.
    rewrite Hoid. eexists. split; [done|]. eapply queued_trans; [done|]. by eapply put_context_queued.
  - unfold gzochid_client_session_send_login_success, gzochid_client_session_send_login_failure.
    rewrite Hj. run. rewrite Hx. run. rewrite Hctx. run. rewrite Hoid.
    destruct (login_operation (session_context app s)); [done|]. simpl c_assert. run.
    split; (eexists; split; [done|]; eapply queued_trans; [done|]; by eapply put_context_queued).
  - unfold gzochid_client_session_disconnect. rewrite Hj. run. rewrite Hx. run.
    apply if_ret_bind. eapply if_ret_mono; [apply remove_session_untouched, untouched_refl|].
    intros [err s2] Hu. cbn [snd] in Hu. pose proof (untouched_queued _ _ _ _ _ Hq Hu) as Hq2.
    destruct err as [err|]; [apply if_ret_ret; by left|].
    assert (Hr2 : registration "session" s2 = Some r) by (rewrite (un_registration _ _ Hu) by done; done).
    assert (Hctx2 : get_session_context d s2 = Ret (session_context app s)).
    { unfold get_session_context in *. by rewrite (un_components _ _ Hu). }
    rewrite Hctx2, Hoid. run. apply if_ret_ret. right.
    eapply queued_trans; [done|]. by eapply put_context_queued.
Qed.

End calls.

(** ** Examples *)

(** A transaction that has loaded the session with the id 5, on a node to which its
    client is connected. *)
Definition sample_session : gzochid_client_session := ClientSession [97; 0] None false 0 0.

Abbreviation sample_sst := (data_st map_engine_state positive (object unit) (serialization unit)
                              (session_components unit unit)).

Definition sample_session_state : sample_sst :=
  TxThread (Some sample_transaction) (Some (TxTiming (Timeval 0 0) None)) 2
    (DataWorld
       {[1%positive := DataContext None [] (Some 1%positive) {[5 := 1%positive]}
                         {[Some 1%positive := 1%positive]}]}
       {[1%positive := Reference STATE_NOT_MODIFIED gzochid_client_session_serialization 5
                         (Some 1%positive)]}
       {[1%positive := SessionObject sample_session]} []
       (MapEngine ∅ {[1%positive := {[(Names, name_key (session_binding 5)) := oid_bytes false 5;
                                      (Oids, oid_bytes false 5) := [97; 0]]}]}) []
       (SessionComponents ∅ Relay.sample_node)).

Definition sample_others : serializations map_engine_state positive (object unit)
    (serialization unit) (session_components unit unit) :=
  {| serializer _ _ s := Ret (None, s); deserializer _ _ s := Ret (None, true, s);
     finalizer _ _ s := Ret s |}.

Lemma sample_loaded : loaded 1 5 sample_session_state.
Proof.
  split; [by intros r Hr|]. eexists 1%positive, 1%positive, _, 1%positive, _.
  split; [|by repeat split]. split; [by eexists _, _|by eexists].
Qed.

Lemma session_calls_queue_witness :
  exists s', gzochid_client_session_send_message map_engine sample_strategy false (Timeval 0 1)
               [97; 0] 1 [1; 2] 2 sample_session_state = Ret s'
    /\ queued_as [97; 0] (SessionContext [97; 0] false None [OpMessage 5 [1; 2] 2])
         sample_session_state s'.
Proof.
  apply (session_calls_queue (eng := map_engine) sample_strategy
    (session_serializations sample_others) false (Timeval 0 1)
    (session_deserializer_untouched sample_others
       (fun z bs s0 s Hs => if_ret_ret (None, true, s) (fun r => untouched s0 r.2) Hs))
    [97; 0] 1 5 [1; 2] 2 sample_session_state sample_loaded).
Defined.

(** Disconnecting queues once: the second time, the session is gone. *)
Example disconnect_once :
  (s ← gzochid_client_session_disconnect map_engine sample_strategy
         (session_serializations sample_others) false (Timeval 0 1) [97; 0] 1 sample_session_state;
   s ← gzochid_client_session_disconnect map_engine sample_strategy
         (session_serializations sample_others) false (Timeval 0 1) [97; 0] 1 s;
   Ret (operations (session_context [97; 0] s))) = Ret [OpDisconnect 5].
Proof. vm_compute. reflexivity. Qed.

(** A refused login, a message to that session, and one to a session elsewhere. *)
Definition sample_context : gzochid_client_session_transaction_context :=
  SessionContext [97; 0] true (Some (OpLoginFailure 5)) [OpMessage 5 [1] 1; OpMessage 6 [2] 1].

Definition sample_committing : sample_sst :=
  TxThread None None 2 (DataWorld ∅ ∅ ∅ [] (MapEngine ∅ ∅) []
    (SessionComponents {[1%positive := sample_context]} Relay.sample_node)).

Definition sample_node_app : gzochid_application_context :=
  default (ApplicationContext ∅ ∅ ∅ false []) (lookup_application [97; 0] Relay.sample_node).

Lemma sample_wired : wired [97] 1 sample_node_app Relay.sample_node.
Proof.
  split; [reflexivity| |].
  - intros id client Hid.
    change (({[5 := 1%positive]} : gmap Z positive) !! id = Some client) in Hid.
    apply lookup_singleton_Some in Hid as [_ <-]. do 2 eexists. repeat split; reflexivity.
  - intros _. exists sample_socket. by split_and!.
Qed.

Lemma session_commit_delivers_witness :
  exists s' x', session_commit (Some 1%positive) sample_committing = Ret s'
    /\ session_contexts (components (world s')) = base.delete 1%positive {[1%positive := sample_context]}
    /\ rewired [97] 1 sample_node_app x' Relay.sample_node (session_node (components (world s')))
    /\ sent [Some (2%positive, frame [GZOCHI_COMMON_PROTOCOL_LOGIN_FAILURE]); None;
             Some (1%positive, frame (order_up [97] 6 (Deliver [2])))]
         (node_sockets Relay.sample_node) (node_sockets (session_node (components (world s')))).
Proof.
  apply (session_commit_delivers [97] 1 1 sample_context sample_node_app sample_committing).
  - apply sample_relayable.
  - reflexivity.
  - reflexivity.
  - by eexists.
  - apply sample_wired.
  - repeat constructor; try done; by left.
Defined.

Lemma session_roundtrip_witness :
  exists e, (forall out, serialize_client_session sample_session out = Ret (out ++ e))
    /\ forall rest, deserialize_client_session (e ++ rest) = Ret (sample_session, rest).
Proof. apply session_roundtrip. split_and!; try done. exists [97]. by repeat constructor. Defined.
