(* ===== verification/DurableTask.v ===== *)
(** * Durable tasks (durable-task.c, task.c)

    Tasks that outlive the server.  A task's handle is a persistent object with the id of
    the task's data, and a name in the store of names leads to the handle while the task
    is to be run; when the server starts, what these names lead to is scheduled again.
    What a transaction schedules is kept in the context of the participant "task" and put
    in the application's task queue when it commits.  The tasks of a chain, a durable
    queue of handles, run one after the other, each in a transaction of its own.

    Objects and serializations are those of [Queue], extended by handles and the contexts
    of chains.  A scheduled task is a closure over the id of its handle; the copies of ids
    that their closures share and free are not modelled, and neither are the log messages.
    A member that a structure does not set is [None]. *)

From stdpp Require Import pretty.
From S2P Require Import Prelude.
From S2P Require Import Util.
From S2P Require Import Tx.
From S2P Require Import Callback.
From S2P Require Import AppTask.
From S2P Require Import Storage.
From S2P Require Import Oids.
From S2P Require Import Data.
From S2P Require Import DataSession.
From S2P Require Import Queue.

Local Open Scope Z_scope.

(** ** Data *)

(** Workers of this file that are kept in storage, and those of the application. *)
Inductive gzochid_application_worker (W : Type) :=
| BootstrapWorker
| AppWorker (w : W).
Arguments BootstrapWorker {W}.
Arguments AppWorker {W}.

(** A pointer to a serialization. *)
Inductive task_data (Z' : Type) :=
| gzochid_durable_application_task_handle_serialization
| task_chain_context_serialization
| TaskData (z : Z').
Arguments gzochid_durable_application_task_handle_serialization {Z'}.
Arguments task_chain_context_serialization {Z'}.
Arguments TaskData {Z'}.

Abbreviation handle_serialization := (AppSerialization gzochid_durable_application_task_handle_serialization).
Abbreviation chain_serialization := (AppSerialization task_chain_context_serialization).

(** The worker given to the serializer may not have been set. *)
Record gzochid_application_task_serialization (W Z' : Type) := TaskSerialization {
  serialization_name : bytes;
  worker_serializer : option (gzochid_application_worker W) -> bytes -> outcome bytes;
  worker_deserializer : bytes -> outcome (gzochid_application_worker W * bytes);
  data_serialization : serialization (task_data Z')
}.
Arguments TaskSerialization {W Z'}.
Arguments serialization_name {W Z'}.
Arguments worker_serializer {W Z'}.
Arguments worker_deserializer {W Z'}.
Arguments data_serialization {W Z'}.

Record gzochid_durable_application_task_handle (W Z' : Type) := TaskHandle {
  task_serialization : gzochid_application_task_serialization W Z';
  binding : option bytes;
  task_worker : option (gzochid_application_worker W);
  task_data_reference : positive;
  identity : bytes;
  repeats : bool;
  period : option timeval;
  target_execution_time : timeval
}.
Arguments TaskHandle {W Z'}.
Arguments task_serialization {W Z'}.
Arguments binding {W Z'}.
Arguments task_worker {W Z'}.
Arguments task_data_reference {W Z'}.
Arguments identity {W Z'}.
Arguments repeats {W Z'}.
Arguments period {W Z'}.
Arguments target_execution_time {W Z'}.

Record task_chain_context := ChainContext {
  bootstrap_ref : option positive;
  chain_ref : option positive
}.

(** What an address of the application's objects holds. *)
Inductive task_object (W Z' A : Type) :=
| HandleObject (h : gzochid_durable_application_task_handle W Z')
| ChainObject (c : task_chain_context)
| OtherObject (a : A).
Arguments HandleObject {W Z' A}.
Arguments ChainObject {W Z' A}.
Arguments OtherObject {W Z' A}.

(** A [gzochid_durable_application_task], or another closure over an id, with its worker. *)
Inductive task_function :=
| DurableWorker | DurableCatch | DurableCleanup
| CoordinatorWorker | CoordinatorCatch | CoordinatorCleanup.

Record gzochid_durable_application_task := DurableTask {
  task_identity : bytes;
  task_fn : task_function;
  handle_oid : Z
}.

(** A task of the queue: the thread worker of an application task that runs an execution
    and resubmits it. *)
Record gzochid_task := Task {
  task_owner : bytes;
  task_execution : gzochid_transactional_application_task_execution (Tk := gzochid_durable_application_task);
  task_time : timeval
}.

Record gzochid_task_transaction_context := TaskContext { scheduled_tasks : list gzochid_task }.

(** What the participants beside the data manager keep: the contexts of "task", the queue
    of the application, in the order of submission, and the registry. *)
Record task_components (W Z' Y : Type) := TaskComponents {
  task_contexts : gmap positive gzochid_task_transaction_context;
  task_queue : list gzochid_task;
  serialization_registry : gmap bytes (gzochid_application_task_serialization W Z');
  other_components : Y
}.
Arguments TaskComponents {W Z' Y}.
Arguments task_contexts {W Z' Y}.
Arguments task_queue {W Z' Y}.
Arguments serialization_registry {W Z' Y}.
Arguments other_components {W Z' Y}.

Definition gzochid_task_new (owner : bytes)
    (execution : gzochid_transactional_application_task_execution (Tk := gzochid_durable_application_task))
    (target_execution_time : timeval) : gzochid_task := Task owner execution target_execution_time.

Definition task_participant : gzochid_transaction_participant data_fn :=
  TxParticipant "task" (Some (OtherFn 0)) (Some (OtherFn 1)) (Some (OtherFn 2)).

Definition PENDING_TASK_PREFIX : string := "s.pendingTask.".

(** The prefix and the decimal digits of the id. *)
Definition create_pending_task_binding (oid : Z) : bytes :=
  bytes_of_string (PENDING_TASK_PREFIX +:+ pretty (Z.to_N oid)).

(** [timeradd]. *)
Definition timeradd (a b : timeval) : timeval :=
  let sec := tv_sec a + tv_sec b in
  let usec := tv_usec a + tv_usec b in
  if 1000000 <=? usec then Timeval (sec + 1) (usec - 1000000) else Timeval sec usec.

Section tasks.

Context {E T U W Z' A Y : Type}.
Context (engine : gzochid_storage_engine_interface E T).
Context (oid_strategy : gzochid_oid_allocation_strategy E U).
Context (big_endian : bool).
Context (tx_values : gmap string
  (gzochid_transaction_participant_registration data_fn (option positive)) ->
  list (gzochid_transaction_participant_registration data_fn (option positive))).
(** The limit on the time of a transaction of the application. *)
Context (tx_timeout : timeval).

Abbreviation handle := (gzochid_durable_application_task_handle W Z').
Abbreviation task_serialization_t := (gzochid_application_task_serialization W Z').
Abbreviation st := (data_st E T (object (task_object W Z' A)) (serialization (task_data Z'))
                      (task_components W Z' Y)).

(** The application's serializations of the data of tasks, and what its workers do. *)
Context (app_serializer : Z' -> option positive -> st -> outcome (option bytes * st)).
Context (app_deserializer : Z' -> bytes -> st -> outcome (option positive * bool * st)).
Context (app_finalizer : Z' -> positive -> st -> outcome st).
Context (run_app_worker : W -> bytes -> option positive -> st -> outcome st).

(** ** Access to the state *)

Definition on_components (f : task_components W Z' Y -> task_components W Z' Y) : st -> st :=
  with_world (fun w => set_components (f (components w)) w).

Definition set_task_contexts x (c : task_components W Z' Y) : task_components W Z' Y :=
  TaskComponents x (task_queue c) (serialization_registry c) (other_components c).
Definition set_task_queue x (c : task_components W Z' Y) : task_components W Z' Y :=
  TaskComponents (task_contexts c) x (serialization_registry c) (other_components c).
Definition set_registry x (c : task_components W Z' Y) : task_components W Z' Y :=
  TaskComponents (task_contexts c) (task_queue c) x (other_components c).

Definition get_task_context (d : positive) (s : st) : outcome gzochid_task_transaction_context :=
  deref (task_contexts (components (world s)) !! d).
Definition put_task_context (d : positive) (c : gzochid_task_transaction_context) : st -> st :=
  on_components (fun x => set_task_contexts (<[d := c]> (task_contexts x)) x).

Definition get_handle (p : positive) (s : st) : outcome handle :=
  match objects (world s) !! p with Some (AppObject (HandleObject h)) => Ret h | _ => Undef end.
Definition put_handle (p : positive) (h : handle) : st -> st := put_object p (AppObject (HandleObject h)).

Definition get_chain (p : positive) (s : st) : outcome task_chain_context :=
  match objects (world s) !! p with Some (AppObject (ChainObject c)) => Ret c | _ => Undef end.
Definition put_chain (p : positive) (c : task_chain_context) : st -> st :=
  put_object p (AppObject (ChainObject c)).

(** ** The participant *)

Definition create_transaction_context (s : st) : positive * st :=
  let d := fresh (dom (task_contexts (components (world s)))) in
  (d, put_task_context d (TaskContext []) s).

Definition cleanup_transaction (d : positive) (s : st) : outcome st :=
  _ ← get_task_context d s;
  Ret (on_components (fun x => set_task_contexts (base.delete d (task_contexts x)) x) s).

(** [gzochid_schedule_submit_task] takes a copy of the task. *)
Definition commit_scheduled_task (task : gzochid_task) : st -> st :=
  on_components (fun x => set_task_queue (task_queue x ++ [task]) x).

Definition task_prepare (data : option positive) (s : st) : outcome (bool * st) := Ret (true, s).

Definition task_commit (data : option positive) (s : st) : outcome st :=
  d ← deref data;
  c ← get_task_context d s;
  cleanup_transaction d (foldl (fun s task => commit_scheduled_task task s) s (scheduled_tasks c)).

Definition task_rollback (data : option positive) (s : st) : outcome st :=
  d ← deref data; cleanup_transaction d s.

Definition join_transaction (s : st) : outcome (positive * st) :=
  joined ← (if gzochid_transaction_active s
            then o ← gzochid_transaction_context task_participant s; Ret (or_null o)
            else Ret None);
  match joined with
  | Some d => Ret (d, s)
  | None =>
      let '(d, s) := create_transaction_context s in
      s ← gzochid_transaction_join task_participant (Some d) s;
      Ret (d, s)
  end.

Definition schedule_task (d : positive) (task : gzochid_task) (s : st) : outcome st :=
  c ← get_task_context d s;
  Ret (put_task_context d (TaskContext (scheduled_tasks c ++ [task])) s).

(** ** The registry *)

Definition gzochid_lookup_task_serialization (name : bytes) (s : st) : option task_serialization_t :=
  serialization_registry (components (world s)) !! name.

Definition gzochid_task_register_serialization (serialization : task_serialization_t) : st -> st :=
  on_components (fun x =>
    set_registry (<[serialization_name serialization := serialization]> (serialization_registry x)) x).

Definition gzochid_task_initialize_serialization_registry : st -> st :=
  on_components (set_registry ∅).

(** ** Handles and their serialization *)

Definition create_durable_task_handle (task_data_reference : positive)
    (serialization : task_serialization_t) (identity : bytes) (target_execution_time : timeval)
    (s : st) : positive * st :=
  alloc_object (AppObject (HandleObject (TaskHandle serialization None None task_data_reference
    identity false (Some (Timeval 0 0)) target_execution_time))) s.

Definition create_durable_periodic_task_handle (task_data_reference : positive)
    (serialization : task_serialization_t) (identity : bytes) (target_execution_time period : timeval)
    (s : st) : positive * st :=
  alloc_object (AppObject (HandleObject (TaskHandle serialization None None task_data_reference
    identity true (Some period) target_execution_time))) s.

Definition serialize_durable_task_handle (data : option positive) (s : st)
  : outcome (option bytes * st) :=
  p ← deref data;
  h ← get_handle p s;
  x ← get_ref (task_data_reference h) s;
  out ← gzochid_util_serialize_oid (ref_oid x) [];
  out ← gzochid_util_serialize_string (serialization_name (task_serialization h)) out;
  out ← (match binding h with
         | Some b => out ← gzochid_util_serialize_boolean true out; gzochid_util_serialize_string b out
         | None => gzochid_util_serialize_boolean false out
         end);
  out ← worker_serializer (task_serialization h) (task_worker h) out;
  out ← gzochid_auth_identity_serializer (identity h) out;
  out ← gzochid_util_serialize_boolean (repeats h) out;
  out ← (if repeats h then p ← deref (period h); gzochid_util_serialize_timeval p out else Ret out);
  out ← gzochid_util_serialize_timeval (target_execution_time h) out;
  Ret (Some out, s).

Definition deserialize_durable_task_handle (now : timeval) (ins : bytes) (s : st)
  : outcome (option positive * bool * st) :=
  '(oid, ins) ← gzochid_util_deserialize_oid ins;
  '(name, ins) ← gzochid_util_deserialize_string ins;
  let found := gzochid_lookup_task_serialization name s in
  _ ← c_assert (bool_decide (is_Some found));
  serialization ← deref found;
  '(bound, ins) ← gzochid_util_deserialize_boolean ins;
  '(binding, ins) ← (if bound : bool
                     then '(b, ins) ← gzochid_util_deserialize_string ins; Ret (Some b, ins)
                     else Ret (None, ins));
  '(worker, ins) ← worker_deserializer serialization ins;
  '(data_reference, s) ← gzochid_data_create_reference_to_oid engine now
                           (data_serialization serialization) oid s;
  '(identity, ins) ← gzochid_auth_identity_deserializer ins;
  '(repeats, ins) ← gzochid_util_deserialize_boolean ins;
  '(period, ins) ← (if repeats : bool
                    then '(p, ins) ← gzochid_util_deserialize_timeval ins; Ret (Some p, ins)
                    else Ret (None, ins));
  '(target, _) ← gzochid_util_deserialize_timeval ins;
  let '(p, s) := alloc_object (AppObject (HandleObject (TaskHandle serialization binding (Some worker)
                   data_reference identity repeats period target))) s in
  Ret (Some p, false, s).

Definition finalize_durable_task_handle : positive -> st -> outcome st := free_object.

Definition serialize_task_chain_context (data : option positive) (s : st) : outcome (option bytes * st) :=
  p ← deref data;
  c ← get_chain p s;
  b ← deref (bootstrap_ref c); x ← get_ref b s;
  out ← gzochid_util_serialize_oid (ref_oid x) [];
  q ← deref (chain_ref c); y ← get_ref q s;
  out ← gzochid_util_serialize_oid (ref_oid y) out;
  Ret (Some out, s).

Definition deserialize_task_chain_context (now : timeval) (ins : bytes) (s : st)
  : outcome (option positive * bool * st) :=
  '(oid, ins) ← gzochid_util_deserialize_oid ins;
  '(b, s) ← gzochid_data_create_reference_to_oid engine now handle_serialization oid s;
  '(oid, _) ← gzochid_util_deserialize_oid ins;
  '(q, s) ← gzochid_data_create_reference_to_oid engine now gzochid_durable_queue_serialization oid s;
  let '(p, s) := alloc_object (AppObject (ChainObject (ChainContext (Some b) (Some q)))) s in
  Ret (Some p, false, s).

Definition finalize_task_chain_context : positive -> st -> outcome st := free_object.

Definition task_serializer (z : task_data Z') : option positive -> st -> outcome (option bytes * st) :=
  match z with
  | gzochid_durable_application_task_handle_serialization => serialize_durable_task_handle
  | task_chain_context_serialization => serialize_task_chain_context
  | TaskData z => app_serializer z
  end.
Definition task_deserializer (now : timeval) (z : task_data Z')
  : bytes -> st -> outcome (option positive * bool * st) :=
  match z with
  | gzochid_durable_application_task_handle_serialization => deserialize_durable_task_handle now
  | task_chain_context_serialization => deserialize_task_chain_context now
  | TaskData z => app_deserializer z
  end.
Definition task_finalizer (z : task_data Z') : positive -> st -> outcome st :=
  match z with
  | gzochid_durable_application_task_handle_serialization => finalize_durable_task_handle
  | task_chain_context_serialization => finalize_task_chain_context
  | TaskData z => app_finalizer z
  end.

(** All that the data manager meets. *)
Definition durable_serializations (now : timeval)
  : serializations E T (object (task_object W Z' A)) (serialization (task_data Z')) (task_components W Z' Y) :=
  queue_serializations engine task_serializer (task_deserializer now) task_finalizer now.

(** ** Calls of the data manager; the error of a call that was not asked for is dropped *)

Abbreviation new_reference now z p s := (gzochid_data_create_reference engine oid_strategy big_endian now z p s).
Abbreviation reference_to now z oid s := (gzochid_data_create_reference_to_oid engine now z oid s).
Abbreviation dereference now r s :=
  (gzochid_data_dereference engine oid_strategy (durable_serializations now) big_endian now r s).
Abbreviation dereference_for_update now r s :=
  (gzochid_data_dereference_for_update engine oid_strategy (durable_serializations now) big_endian now r s).
Abbreviation remove_object now r s := (gzochid_data_remove_object engine big_endian now r s).
Abbreviation mark now z p s := (gzochid_data_mark engine oid_strategy big_endian now z p s).
Abbreviation set_binding now name oid s := (gzochid_data_set_binding_to_oid engine big_endian now name oid s).
Abbreviation remove_binding now name s := (gzochid_data_remove_binding engine now name s).
Abbreviation rollback_only s := (gzochid_transaction_rollback_only tx_values s).

(** What an operation does next, unless there was an error. *)
Definition unless_error (err : option data_error) (k : st -> outcome (option data_error * st)) (s : st)
  : outcome (option data_error * st) :=
  match err with Some e => Ret (Some e, s) | None => k s end.

(** ** Removing a handle *)

Definition remove_durable_task (now : timeval) (oid : Z) (s : st) : outcome (option data_error * st) :=
  '(reference, s) ← reference_to now handle_serialization oid s;
  '(task_handle, err, s) ← dereference now reference s;
  match task_handle with
  | None => Ret (err, s)
  | Some p =>
      h ← get_handle p s;
      '(err, s) ← (match binding h with
                   | Some b => name ← c_string b; remove_binding now name s
                   | None => Ret (err, s)
                   end);
      unless_error err (fun s => remove_object now reference s) s
  end.

(** ** Scheduling a handle *)

(** The name is set in the handle, which is flushed later if it is new. *)
Definition gzochid_schedule_durable_task_handle (now : timeval) (task_handle : positive) (s : st)
  : outcome (option data_error * st) :=
  '(res, s) ← new_reference now handle_serialization (Some task_handle) s;
  match res with
  | inr _ => Abort
  | inl r =>
      x ← get_ref r s;
      let oid := ref_oid x in
      h ← get_handle task_handle s;
      let name := create_pending_task_binding oid in
      let s := put_handle task_handle (TaskHandle (task_serialization h) (Some (name_key name))
                 (task_worker h) (task_data_reference h) (identity h) (repeats h) (period h)
                 (target_execution_time h)) s in
      '(err, s) ← set_binding now name oid s;
      unless_error err (fun s =>
        '(d, s) ← join_transaction s;
        let task fn := DurableTask (identity h) fn oid in
        let execution := gzochid_transactional_application_task_timed_execution_new
                           (task DurableWorker) (Some (task DurableCatch)) (Some (task DurableCleanup))
                           tx_timeout in
        s ← schedule_task d (gzochid_task_new (identity h) execution (target_execution_time h)) s;
        Ret (None, s)) s
  end.

(** An application task is given by its owner and the address of its data. *)
Definition gzochid_create_durable_application_task_handle (now : timeval) (owner : bytes)
    (data : option positive) (serialization : task_serialization_t) (delay : timeval)
    (period : option timeval) (s : st) : outcome (option positive * option data_error * st) :=
  let target := Timeval (tv_sec now + tv_sec delay) (tv_usec now + tv_usec delay) in
  '(res, s) ← new_reference now (data_serialization serialization) data s;
  match res with
  | inr err => Ret (None, Some err, s)
  | inl r =>
      let '(p, s) :=
        (match period with
         | Some period => create_durable_periodic_task_handle r serialization owner target period s
         | None => create_durable_task_handle r serialization owner target s
         end) in
      Ret (Some p, None, s)
  end.

Definition gzochid_schedule_delayed_durable_task (now : timeval) (owner : bytes)
    (data : option positive) (serialization : task_serialization_t) (delay : timeval) (s : st)
  : outcome (option data_error * st) :=
  '(h, err, s) ← gzochid_create_durable_application_task_handle now owner data serialization delay None s;
  match h with
  | Some h => gzochid_schedule_durable_task_handle now h s
  | None => Ret (err, s)
  end.

Definition gzochid_schedule_durable_task (now : timeval) (owner : bytes) (data : option positive)
    (serialization : task_serialization_t) (s : st) : outcome (option data_error * st) :=
  gzochid_schedule_delayed_durable_task now owner data serialization (Timeval 0 0) s.

Definition gzochid_schedule_periodic_durable_task (now : timeval) (owner : bytes)
    (data : option positive) (serialization : task_serialization_t) (delay period : timeval) (s : st)
  : outcome (option positive * option data_error * st) :=
  '(h, err, s) ← gzochid_create_durable_application_task_handle now owner data serialization delay
                   (Some period) s;
  match h with
  | Some h =>
      '(err, s) ← gzochid_schedule_durable_task_handle now h s;
      match err with
      | None => Ret (Some h, None, s)
      | Some err => Ret (None, Some err, s)
      end
  | None => Ret (None, err, s)
  end.

Definition gzochid_cancel_periodic_task (now : timeval) (p : positive) (s : st) : outcome st :=
  h ← get_handle p s;
  let s := put_handle p (TaskHandle (task_serialization h) (binding h) (task_worker h)
             (task_data_reference h) (identity h) false (period h) (target_execution_time h)) s in
  '(_, s) ← mark now handle_serialization (Some p) s;
  Ret s.

(** ** Restarting *)

(** [strncmp (PENDING_TASK_PREFIX, name, 14) == 0]. *)
Definition is_pending_binding (name : bytes) : bool :=
  bool_decide (take 14 name = bytes_of_string PENDING_TASK_PREFIX).

Abbreviation next_binding_oid now key s := (gzochid_data_next_binding_oid engine big_endian now key s).

(** The name and id of the next binding; an error fails the assertion. *)
Definition next_pending (now : timeval) (key : bytes) (s : st) : outcome (option (bytes * Z) * st) :=
  '(next, err, s) ← next_binding_oid now key s;
  _ ← c_assert (bool_decide (err = None));
  Ret (next, s).

Definition restart_task (now : timeval) (name : bytes) (oid : Z) (s : st) : outcome st :=
  '(r, s) ← reference_to now handle_serialization oid s;
  '(_, err, s) ← dereference now r s;
  match err with
  | Some e =>
      _ ← c_assert (bool_decide (e = ERROR_NOT_FOUND));
      '(err, s) ← remove_binding now name s;
      _ ← c_assert (bool_decide (err = None));
      Ret s
  | None =>
      x ← get_ref r s;
      p ← deref (ref_obj x);
      '(err, s) ← gzochid_schedule_durable_task_handle now p s;
      _ ← c_assert (bool_decide (err = None));
      Ret s
  end.

Fixpoint restart_loop (fuel : nat) (now : timeval) (next : option (bytes * Z)) (s : st) : outcome st :=
  match next with
  | Some (name, oid) =>
      if is_pending_binding name then
        match fuel with
        | O => Fuel
        | S fuel =>
            s ← restart_task now name oid s;
            '(next, s) ← next_pending now name s;
            restart_loop fuel now next s
        end
      else Ret s
  | None => Ret s
  end.

Definition gzochid_restart_tasks (fuel : nat) (now : timeval) (s : st) : outcome st :=
  '(next, s) ← next_pending now (bytes_of_string PENDING_TASK_PREFIX) s;
  restart_loop fuel now next s.

(** ** The tasks of a chain *)

Definition gzochid_auth_system_identity : bytes := name_key (bytes_of_string "[SYSTEM]").

Definition schedule_coordinator_task (now : timeval) (owner : bytes) (chain_context : option positive)
    (s : st) : outcome st :=
  '(d, s) ← join_transaction s;
  '(res, s) ← new_reference now chain_serialization chain_context s;
  match res with
  | inr _ => Ret s
  | inl r =>
      x ← get_ref r s;
      let task fn := DurableTask owner fn (ref_oid x) in
      let execution := gzochid_transactional_application_task_timed_execution_new
                         (task CoordinatorWorker) (Some (task CoordinatorCatch))
                         (Some (task CoordinatorCleanup)) tx_timeout in
      schedule_task d (gzochid_task_new gzochid_auth_system_identity execution (Timeval 0 0)) s
  end.

Definition task_chain_bootstrap_worker := schedule_coordinator_task.

Definition run_worker (now : timeval) (worker : gzochid_application_worker W) (owner : bytes)
    (data : option positive) (s : st) : outcome st :=
  match worker with
  | BootstrapWorker => task_chain_bootstrap_worker now owner data s
  | AppWorker w => run_app_worker w owner data s
  end.

Definition serialize_task_chain_bootstrap_worker (worker : option (gzochid_application_worker W))
    (out : bytes) : outcome bytes := Ret out.
Definition deserialize_task_chain_bootstrap_worker (ins : bytes)
  : outcome (gzochid_application_worker W * bytes) := Ret (BootstrapWorker, ins).

Definition gzochid_task_chain_bootstrap_task_serialization : task_serialization_t :=
  TaskSerialization (name_key (bytes_of_string "task-chain")) serialize_task_chain_bootstrap_worker
    deserialize_task_chain_bootstrap_worker chain_serialization.

(** ** The worker of a durable task *)

(** After the task itself: it is removed, or scheduled for the next time. *)
Definition finish_durable_task (now : timeval) (oid : Z) (p : positive) (s : st) : outcome st :=
  h ← get_handle p s;
  if negb (repeats h) then '(_, s) ← remove_durable_task now oid s; Ret s
  else
    period ← deref (period h);
    let s := put_handle p (TaskHandle (task_serialization h) (binding h) (task_worker h)
               (task_data_reference h) (identity h) (repeats h) (Some period)
               (timeradd period (target_execution_time h))) s in
    '(err, s) ← mark now handle_serialization (Some p) s;
    '(_, s) ← unless_error err (fun s => gzochid_schedule_durable_task_handle now p s) s;
    Ret s.

Definition durable_task_application_worker (now : timeval) (owner : bytes) (oid : Z) (s : st) : outcome st :=
  '(handle_reference, s) ← reference_to now handle_serialization oid s;
  '(p, err, s) ← dereference now handle_reference s;
  match err with
  | Some _ => Ret s
  | None =>
      p ← deref p;
      h ← get_handle p s;
      '(data, err, s) ← dereference now (task_data_reference h) s;
      match err with
      | Some _ => Ret s
      | None =>
          worker ← deref (task_worker h);
          s ← run_worker now worker owner data s;
          only ← rollback_only s;
          if (only : bool) then Ret s else finish_durable_task now oid p s
      end
  end.

Definition durable_task_catch_worker (now : timeval) (oid : Z) (s : st) : outcome st :=
  '(_, s) ← remove_durable_task now oid s; Ret s.

(** ** The coordinator *)

Abbreviation pop_handle now queue s :=
  (gzochid_durable_queue_pop engine oid_strategy big_endian task_serializer (task_deserializer now)
     task_finalizer now queue handle_serialization s).
Abbreviation peek_handle now queue s :=
  (gzochid_durable_queue_peek engine oid_strategy big_endian task_serializer (task_deserializer now)
     task_finalizer now queue handle_serialization s).

(** The handles that are left in the queue are removed; after an error, one more is popped.
    [fuel] bounds their number. *)
Fixpoint drain_queue (fuel : nat) (now : timeval) (queue : positive) (s : st)
  : outcome (option data_error * st) :=
  '(task_handle, err, s) ← pop_handle now queue s;
  match task_handle, err with
  | Some p, None =>
      match fuel with
      | O => Fuel
      | S fuel =>
          '(res, s) ← new_reference now handle_serialization (Some p) s;
          '(err, s) ← (match res with
                       | inr err => Ret (Some err, s)
                       | inl r => remove_object now r s
                       end);
          match err with
          | Some err => '(_, _, s) ← pop_handle now queue s; Ret (Some err, s)
          | None => drain_queue fuel now queue s
          end
      end
  | _, _ => Ret (err, s)
  end.

Definition cleanup_coordinator_task (fuel : nat) (now : timeval) (chain : positive) (s : st) : outcome st :=
  c ← get_chain chain s;
  b ← deref (bootstrap_ref c);
  '(err, s) ← remove_object now b s;
  '(err, s) ← unless_error err (fun s =>
    x ← get_ref b s; remove_binding now (create_pending_task_binding (ref_oid x)) s) s;
  '(err, s) ← unless_error err (fun s =>
    q ← deref (chain_ref c);
    '(queue, err, s) ← dereference_for_update now q s;
    '(err, s) ← unless_error err (fun s => queue ← deref queue; drain_queue fuel now queue s) s;
    unless_error err (fun s => remove_object now q s) s) s;
  '(_, s) ← unless_error err (fun s =>
    '(res, s) ← new_reference now chain_serialization (Some chain) s;
    match res with
    | inl r => remove_object now r s
    | inr _ => Undef
    end) s;
  Ret s.

(** The coordinator is scheduled again if there are more tasks. *)
Definition continue_chain (fuel : nat) (now : timeval) (owner : bytes) (chain queue task_ref : positive)
    (s : st) : outcome st :=
  '(err, s) ← remove_object now task_ref s;
  match err with
  | Some _ => Ret s
  | None =>
      '(next, err, s) ← peek_handle now queue s;
      match err with
      | Some _ => Ret s
      | None =>
          match next with
          | Some _ => schedule_coordinator_task now owner (Some chain) s
          | None => cleanup_coordinator_task fuel now chain s
          end
      end
  end.

(** The popped task is run by its own worker. *)
Definition run_chain_task (fuel : nat) (now : timeval) (owner : bytes) (chain queue task_handle : positive)
    (s : st) : outcome st :=
  '(res, s) ← new_reference now handle_serialization (Some task_handle) s;
  h ← get_handle task_handle s;
  _ ← c_assert (negb (repeats h));
  match res with
  | inr _ => Abort
  | inl r =>
      x ← get_ref r s;
      '(err, s) ← mark now handle_serialization (ref_obj x) s;
      match err with
      | Some _ => Ret s
      | None =>
          s ← durable_task_application_worker now (identity h) (ref_oid x) s;
          only ← rollback_only s;
          if (only : bool) then Ret s else continue_chain fuel now owner chain queue r s
      end
  end.

Definition coordinator_worker (fuel : nat) (now : timeval) (owner : bytes) (oid : Z) (s : st) : outcome st :=
  '(r, s) ← reference_to now chain_serialization oid s;
  '(chain, err, s) ← dereference now r s;
  match err with
  | Some _ => Ret s
  | None =>
      chain ← deref chain;
      c ← get_chain chain s;
      q ← deref (chain_ref c);
      '(queue, err, s) ← dereference_for_update now q s;
      match err with
      | Some _ => Ret s
      | None =>
          queue ← deref queue;
          '(task_handle, err, s) ← pop_handle now queue s;
          match err, task_handle with
          | None, Some task_handle => run_chain_task fuel now owner chain queue task_handle s
          | _, _ => Ret s
          end
      end
  end.

Definition coordinator_catch_worker (fuel : nat) (now : timeval) (oid : Z) (s : st) : outcome st :=
  '(r, s) ← reference_to now chain_serialization oid s;
  '(chain, err, s) ← dereference now r s;
  match err with
  | Some _ => Ret s
  | None => chain ← deref chain; cleanup_coordinator_task fuel now chain s
  end.

(** What the closures of this file do; those that clean up only free their data. *)
Definition run_durable_task (fuel : nat) (now : timeval) (t : gzochid_durable_application_task) (s : st)
  : outcome st :=
  match task_fn t with
  | DurableWorker => durable_task_application_worker now (task_identity t) (handle_oid t) s
  | DurableCatch => durable_task_catch_worker now (handle_oid t) s
  | CoordinatorWorker => coordinator_worker fuel now (task_identity t) (handle_oid t) s
  | CoordinatorCatch => coordinator_catch_worker fuel now (handle_oid t) s
  | DurableCleanup | CoordinatorCleanup => Ret s
  end.

(** The handle of the bootstrap task is named by hand: it is not scheduled. *)
Definition gzochid_schedule_durable_task_chain (now : timeval) (owner : bytes) (task_chain : positive)
    (s : st) : outcome (option data_error * st) :=
  let '(chain, s) := alloc_object (AppObject (ChainObject (ChainContext None None))) s in
  '(bootstrap_handle, err, s) ← gzochid_create_durable_application_task_handle now owner (Some chain)
      gzochid_task_chain_bootstrap_task_serialization (Timeval 0 0) None s;
  '(err, s) ← unless_error err (fun s =>
    '(res, s) ← new_reference now handle_serialization bootstrap_handle s;
    match res with
    | inr err => Ret (Some err, s)
    | inl b =>
        c ← get_chain chain s;
        let s := put_chain chain (ChainContext (Some b) (chain_ref c)) s in
        x ← get_ref b s;
        set_binding now (create_pending_task_binding (ref_oid x)) (ref_oid x) s
    end) s;
  '(err, s) ← unless_error err (fun s =>
    '(res, s) ← new_reference now gzochid_durable_queue_serialization (Some task_chain) s;
    match res with
    | inr err => Ret (Some err, s)
    | inl q =>
        c ← get_chain chain s;
        Ret (None, put_chain chain (ChainContext (bootstrap_ref c) (Some q)) s)
    end) s;
  unless_error err (fun s => s ← schedule_coordinator_task now owner (Some chain) s; Ret (None, s)) s.

End tasks.
