(* ===== verification/DurableSchedule.v ===== *)
(** * Durable tasks: scheduling

    What scheduling a handle does on every branch: the name that leads to the handle, the
    task that the transaction will submit, and that nothing is submitted before it
    commits.  The serialization of handles. *)

From S2P Require Import Prelude.
From S2P Require Import Util.
From S2P Require Import Tx.
From S2P Require Import Callback.
From S2P Require Import AppTask.
From S2P Require Import Storage.
From S2P Require Import Oids.
From S2P Require Import Data.
From S2P Require Import DataSession.
From S2P Require Import DataFrame.
From S2P Require Import Queue.
From S2P Require Import DurableTask.

Local Open Scope Z_scope.

Section schedule.

Context {E T W Z' A Y : Type} {eng : gzochid_storage_engine_interface E T}.
Context {view : T -> E -> contents} {durable : E -> contents}.
Context `{HL : !EngineLaws eng view durable} (be : bool) (now tx_timeout : timeval).

Abbreviation st := (data_st E T (object (task_object W Z' A)) (serialization (task_data Z'))
                      (task_components W Z' Y)).
Abbreviation strategy := (gzochid_storage_oid_strategy_new eng be Meta).
Abbreviation handle := (gzochid_durable_application_task_handle W Z').
Implicit Types (s : st) (h : handle).

(** ** What a transaction has scheduled *)

Definition queue_of s : list gzochid_task := task_queue (components (world s)).

Definition scheduled s : list gzochid_task :=
  match registration "task" s with
  | Some r => match data r with
              | Some d => default [] (scheduled_tasks <$> task_contexts (components (world s)) !! d)
              | None => []
              end
  | None => []
  end.

(** If the participant has joined, it did so with a context. *)
Definition task_joined s : Prop :=
  forall r, registration "task" s = Some r -> exists d c,
    data r = Some d /\ task_contexts (components (world s)) !! d = Some c.

Lemma scheduled_untouched s s' :
  untouched s s' -> scheduled s' = scheduled s /\ queue_of s' = queue_of s /\ (task_joined s -> task_joined s').
Proof.
  intros [Hc Hr _ _]. specialize (Hr "task"%string ltac:(done)). unfold scheduled, queue_of, task_joined.
  by rewrite Hc, Hr.
Qed.

Lemma put_object_same p o s :
  scheduled (put_object p o s) = scheduled s /\ queue_of (put_object p o s) = queue_of s
  /\ (task_joined s -> task_joined (put_object p o s)).
Proof. done. Qed.

(** Adding a task to those of the transaction. *)
Lemma join_and_schedule task s :
  gzochid_transaction_active s = true -> task_joined s ->
  exists d s', ('(d, s) ← join_transaction s; schedule_task d task s) = Ret s'
    /\ scheduled s' = scheduled s ++ [task] /\ queue_of s' = queue_of s /\ task_joined s'
    /\ references (world s') = references (world s) /\ objects (world s') = objects (world s)
    /\ data_contexts (world s') = data_contexts (world s) /\ storage (world s') = storage (world s)
    /\ (exists r, registration "task" s' = Some r /\ data r = Some d).
Proof.
  intros Ha Hj. unfold join_transaction. rewrite Ha.
  unfold gzochid_transaction_active in Ha. destruct (thread_transaction s) as [tx|] eqn:Ht; [|done].
  apply bool_decide_eq_true in Ha. unfold gzochid_transaction_context. rewrite Ht. run.
  assert (Hreg : registration "task" s = participants tx !! "task"%string)
    by (unfold registration; by rewrite Ht).
  unfold task_joined in Hj. unfold scheduled. rewrite Hreg in Hj |- *. change (p_name task_participant) with "task"%string.
  destruct (participants tx !! "task"%string) as [r|] eqn:Hp.
  - destruct (Hj r eq_refl) as (d & c & Hd & Hc). cbn [fmap option_fmap option_map or_null default from_option id].
    rewrite Hd. run. unfold schedule_task, get_task_context. rewrite Hc. run. exists d. eexists.
    split; [done|]. unfold task_joined, registration. cbn. rewrite Ht. cbn. rewrite Hp, Hd. cbn. rewrite lookup_insert_eq. cbn.
    split_and!; try done; [|by exists r]. intros r' [= <-]. exists d. eexists. split; [done|]. apply lookup_insert_eq.
  - cbn [fmap option_fmap option_map or_null default from_option id].
    unfold create_transaction_context. set (d := fresh _). unfold gzochid_transaction_join. cbn [thread_transaction].
    change (thread_transaction (put_task_context d (TaskContext []) s)) with (thread_transaction s). rewrite Ht.
    rewrite (bool_decide_eq_true_2 _ Ha). cbn [c_assert]. run. change (p_name task_participant) with "task"%string.
    rewrite Hp. run. unfold schedule_task, get_task_context. cbn. rewrite lookup_insert_eq. run.
    exists d. eexists. split; [done|]. unfold task_joined, registration. cbn. rewrite !lookup_insert_eq. cbn.
    rewrite lookup_insert_eq. split_and!; try done; [|by eexists].
    intros r' [= <-]. exists d. eexists. split; [done|]. apply lookup_insert_eq.
Qed.

(** ** The commit and the rollback *)

Lemma submit_all (l : list gzochid_task) : forall s,
  let s' := foldl (fun s task => commit_scheduled_task task s) s l in
  queue_of s' = queue_of s ++ l /\ task_contexts (components (world s')) = task_contexts (components (world s))
  /\ storage (world s') = storage (world s).
Proof.
  induction l as [|x l IH]; intros s; cbn [foldl]; [by rewrite app_nil_r|].
  destruct (IH (commit_scheduled_task x s)) as (Hq & Hc & Hs). cbv zeta. rewrite Hq, Hc, Hs.
  split_and!; [|done|done]. unfold queue_of. cbn. by rewrite <- app_assoc.
Qed.

(** What was scheduled is submitted in order by the commit, and dropped by a rollback. *)
Lemma task_end_spec d c s :
  task_contexts (components (world s)) !! d = Some c ->
  (exists s', task_commit (Some d) s = Ret s' /\ queue_of s' = queue_of s ++ scheduled_tasks c
     /\ task_contexts (components (world s')) = delete d (task_contexts (components (world s))))
  /\ (exists s', task_rollback (Some d) s = Ret s' /\ queue_of s' = queue_of s
     /\ task_contexts (components (world s')) = delete d (task_contexts (components (world s)))).
Proof.
  intros Hc. unfold task_commit, task_rollback, cleanup_transaction, get_task_context. run. rewrite Hc. run.
  destruct (submit_all (scheduled_tasks c) s) as (Hq & Hcs & _). cbv zeta in *. split.
  - rewrite Hcs, Hc. run. eexists. split; [done|]. split; [exact Hq|]. cbn. by rewrite Hcs.
  - eexists. by split_and!.
Qed.

(** ** Scheduling a handle *)

Abbreviation session := (session (durable := durable) be).
Abbreviation name_of oid := (name_key (create_pending_task_binding oid)).

(** The task for the handle: its worker, the task that removes it when it fails for good,
    and the one that cleans up. *)
Definition task_of h (oid : Z) : gzochid_task :=
  Task (identity h)
    (gzochid_transactional_application_task_timed_execution_new (DurableTask (identity h) DurableWorker oid)
       (Some (DurableTask (identity h) DurableCatch oid)) (Some (DurableTask (identity h) DurableCleanup oid))
       tx_timeout) (target_execution_time h).

Definition with_binding (b : bytes) h : handle :=
  TaskHandle (task_serialization h) (Some b) (task_worker h) (task_data_reference h) (identity h)
    (repeats h) (period h) (target_execution_time h).

Lemma set_binding_session d t lo k name oid s :
  session d t lo k s ->
  exists err s', gzochid_data_set_binding_to_oid eng be now name oid s = Ret (err, s')
    /\ framed d s s'
    /\ match err with
       | Some e => e = ERROR_TRANSACTION
       | None => view t (storage (world s')) !! (Names, name_key name) = Some (oid_bytes be oid)
       end.
Proof.
  intros Hs. unfold gzochid_data_set_binding_to_oid. destruct (session_joined (eng := eng) be now d t lo k s Hs) as (-> & _ & Ht & _).
  run. unfold set_binding. rewrite Ht. run. set (e := transaction_put _ _ _ _ _ _).
  assert (Hse : session d t lo k (put_storage e s)) by (apply storage_session; [done|apply put_durable]).
  unfold txn_rollback. cbn [world put_storage with_world set_world storage set_storage].
  destruct (tx_rollback eng t e) eqn:Hr.
  - unfold mark_rollback.
    destruct (mark_session be d t lo k (tx_should_retry eng t (storage (world (put_storage e s)))) (put_storage e s) Hse)
      as (s2 & -> & Hf & _). run. eexists _, s2. split_and!; [done| |done].
    eapply framed_trans; [apply framed_storage|done].
  - eexists _, _. split_and!; [done|apply framed_storage|]. cbn. unfold e.
    rewrite put_view by done. apply lookup_insert_eq.
Qed.

(** C33. Scheduling a handle names it and queues one task.  In a transaction of the data
    manager: if no reference to the handle can be made, the server stops; if the name cannot
    be written, the operation fails and what the transaction has scheduled is as before; else
    the name of the handle's id leads to the id, the handle has the name, a handle without a
    reference before is a new object that the commit will store, and one task for the handle
    is added to what the transaction has scheduled.  In no case is a task in the queue of the
    application before the commit, which submits what was scheduled in order; a rollback
    drops it. *)
Theorem scheduling_names_and_queues d t lo k p h s :
  session d t lo k s -> k < 2 ^ 64 - 2 * ALLOCATION_BLOCK_SIZE -> task_joined s ->
  objects (world s) !! p = Some (AppObject (HandleObject h)) ->
  exists res s1, gzochid_data_create_reference eng strategy be now handle_serialization (Some p) s = Ret (res, s1)
    /\ match res with
       | inr _ => gzochid_schedule_durable_task_handle eng strategy be tx_timeout now p s = Abort
       | inl r => exists x err s', references (world s1) !! r = Some x
           /\ gzochid_schedule_durable_task_handle eng strategy be tx_timeout now p s = Ret (err, s')
           /\ queue_of s' = queue_of s /\ task_joined s'
           /\ match err with
              | Some e => e = ERROR_TRANSACTION /\ scheduled s' = scheduled s
              | None =>
                  view t (storage (world s')) !! (Names, name_of (ref_oid x)) = Some (oid_bytes be (ref_oid x))
                  /\ objects (world s') !! p
                     = Some (AppObject (HandleObject (with_binding (name_of (ref_oid x)) h)))
                  /\ ptr_ref d s' p = Some r
                  /\ (ptr_ref d s p = None -> exists x', references (world s') !! r = Some x' /\ ref_state x' = STATE_NEW)
                  /\ scheduled s' = scheduled s ++ [task_of h (ref_oid x)]
                  /\ (forall reg c, registration "task" s' = Some reg -> data reg = Some c ->
                        (exists s2, task_commit (Some c) s' = Ret s2 /\ queue_of s2 = queue_of s ++ scheduled s')
                        /\ (exists s2, task_rollback (Some c) s' = Ret s2 /\ queue_of s2 = queue_of s))
              end
       end.
Proof.
  intros Hs Hk Hj Hp.
  destruct (create_reference_session (eng := eng) be now d t lo k p handle_serialization s Hs Hk ltac:(by eexists))
    as (res & s1 & Hcr & (Hses & _ & Ho & _) & Hres).
  exists res, s1. split; [done|]. unfold gzochid_schedule_durable_task_handle. rewrite Hcr. run.
  destruct res as [r|]; [|done]. destruct Hres as [Hptr Hnew]. destruct Hses as (lo1 & k1 & Hs1 & _).
  destruct (ses_ptrs _ _ _ _ _ _ Hs1 p r Hptr) as (x & Hx & _).
  destruct (scheduled_untouched s s1) as (Hsch1 & Hqu1 & Hj1).
  { by apply (data_create_reference_untouched eng _ _ _ _ _ _ _ (untouched_refl s) _ Hcr). }
  exists x. unfold get_ref, get_handle. rewrite Hx. run. rewrite Ho, Hp. run.
  set (h' := TaskHandle _ (Some _) _ _ _ _ _ _). set (s2 := put_handle p h' s1).
  assert (Hs2 : session d t lo1 k1 s2).
  { destruct Hs1 as [Ha Hi Hl Hoi Hpt]. split; [by destruct Ha|by destruct Hi|done|done|]. intros q r' Hq.
    destruct (Hpt q r' Hq) as (y & ? & ? & ? & Hin). exists y. split_and!; [done..|].
    unfold s2. cbn. destruct (decide (q = p)) as [->|]; [rewrite lookup_insert_eq; by eexists|].
    by rewrite lookup_insert_ne. }
  destruct (set_binding_session d t lo1 k1 (create_pending_task_binding (ref_oid x)) (ref_oid x) s2 Hs2)
    as (err & s3 & Hb & Hf & Herr). rewrite Hb. run.
  destruct (scheduled_untouched s2 s3) as (Hsch3 & Hqu3 & Hj3).
  { by apply (data_set_binding_to_oid_untouched eng _ _ _ _ _ _ (untouched_refl s2) _ Hb). }
  change (scheduled s2) with (scheduled s1) in Hsch3. change (queue_of s2) with (queue_of s1) in Hqu3.
  assert (Hj3' : task_joined s3) by (apply Hj3; apply (Hj1 Hj)).
  destruct err as [e|]; cbn [unless_error].
  { eexists (Some e), s3. split_and!; [done|done|congruence|done|done|congruence]. }
  assert (Ha3 : gzochid_transaction_active s3 = true).
  { destruct (fr_attached _ _ _ Hf t (ses_attached _ _ _ _ _ _ Hs2)) as [(tx & rg & Htx & Hact & _) _].
    unfold gzochid_transaction_active. rewrite Htx. by apply bool_decide_eq_true. }
  destruct (join_and_schedule (task_of h (ref_oid x)) s3 Ha3 Hj3')
    as (c & s4 & Hjs & Hsch4 & Hqu4 & Hj4 & Hr4 & Ho4 & Hd4 & Hst4 & (rg & Hrg & Hrgd)).
  exists None, s4. split; [done|]. split.
  { apply bind_Ret in Hjs as ([c' s5] & Hj5 & Hsc5). rewrite Hj5. run.
    change (gzochid_task_new _ _ _) with (task_of h (ref_oid x)). by rewrite Hsc5. }
  assert (Hq : queue_of s4 = queue_of s) by congruence.
  split_and!; [done|done|by rewrite Hst4| | | |by rewrite Hsch4, Hsch3, Hsch1|].
  - rewrite Ho4, (fr_objects _ _ _ Hf). apply lookup_insert_eq.
  - unfold ptr_ref. rewrite Hd4. exact (eq_trans (fr_ptrs _ _ _ Hf p) Hptr).
  - intros Hn. destruct (Hnew Hn) as (oid & Hx'). rewrite Hr4, (fr_refs _ _ _ Hf). by eexists.
  - intros rg' c' Hrg' Hc'. destruct (Hj4 rg' Hrg') as (c2 & tc & Hc2 & Htc).
    assert (c2 = c') as -> by congruence. assert (rg' = rg) as -> by congruence.
    destruct (task_end_spec c' tc s4 Htc) as ((s5 & H5 & Hq5 & _) & (s6 & H6 & Hq6 & _)).
    assert (Hsc : scheduled s4 = scheduled_tasks tc) by (unfold scheduled; by rewrite Hrg, Hc', Htc).
    split; [exists s5|exists s6]; (split; [done|congruence]).
Qed.

(** ** Handles in storage *)

Definition timeval_ok (tv : timeval) : Prop := in_signed 32 (tv_sec tv) /\ in_signed 32 (tv_usec tv).

(** The worker's serializer and deserializer agree on the worker of the handle. *)
Definition worker_stored h (w : gzochid_application_worker W) : Prop :=
  exists enc, (forall out, worker_serializer (task_serialization h) (task_worker h) out = Ret (out ++ enc))
    /\ forall rest, worker_deserializer (task_serialization h) (enc ++ rest) = Ret (w, rest).

Record handle_ok h : Prop := {
  ok_name : stored_string (serialization_name (task_serialization h));
  ok_binding : forall b, binding h = Some b -> stored_string b;
  ok_identity : cstring (identity h);
  ok_period : repeats h = true -> exists tv, period h = Some tv /\ timeval_ok tv;
  ok_target : timeval_ok (target_execution_time h)
}.

Definition serialize_binding (b : option bytes) (out : bytes) : outcome bytes :=
  match b with
  | Some b => out ← gzochid_util_serialize_boolean true out; gzochid_util_serialize_string b out
  | None => gzochid_util_serialize_boolean false out
  end.

(** An optional part with a flag in front. *)
Lemma binding_stored (b : option bytes) :
  (forall x, b = Some x -> stored_string x) ->
  exists enc, (forall out, serialize_binding b out = Ret (out ++ enc))
    /\ forall rest, ('(bound, ins) ← gzochid_util_deserialize_boolean (enc ++ rest);
                     if bound : bool then '(b, ins) ← gzochid_util_deserialize_string ins; Ret (Some b, ins)
                     else Ret (None, ins)) = Ret (b, rest).
Proof.
  intros Hb. destruct b as [b|].
  - destruct (serial_ok (ser := gzochid_util_serialize_boolean) true I) as (e1 & W1 & R1).
    destruct (serial_ok (ser := gzochid_util_serialize_string) b (Hb b eq_refl)) as (e2 & W2 & R2).
    exists (e1 ++ e2). split.
    + intros out. unfold serialize_binding. rewrite W1. run. by rewrite W2, <- app_assoc.
    + intros rest. rewrite <- app_assoc, R1. run. by rewrite R2.
  - destruct (serial_ok (ser := gzochid_util_serialize_boolean) false I) as (e1 & W1 & R1).
    exists e1. split; [exact W1|]. intros rest. by rewrite R1.
Qed.

(** The time between runs is there for the tasks that repeat. *)
Lemma period_stored (b : bool) (tv : option timeval) :
  (b = true -> exists x, tv = Some x /\ timeval_ok x) ->
  exists enc, (forall out, (out ← gzochid_util_serialize_boolean b out;
                            if b then p ← deref tv; gzochid_util_serialize_timeval p out else Ret out)
                           = Ret (out ++ enc))
    /\ forall rest, ('(b, ins) ← gzochid_util_deserialize_boolean (enc ++ rest);
                     '(tv, ins) ← (if b : bool
                                   then '(p, ins) ← gzochid_util_deserialize_timeval ins; Ret (Some p, ins)
                                   else Ret (None, ins)); Ret (b, tv, ins))
                    = Ret (b, if b then tv else None, rest).
Proof.
  intros Hb. destruct (serial_ok (ser := gzochid_util_serialize_boolean) b I) as (e1 & W1 & R1). destruct b.
  - destruct (Hb eq_refl) as (x & -> & Hx).
    destruct (serial_ok (ser := gzochid_util_serialize_timeval) x Hx) as (e2 & W2 & R2).
    exists (e1 ++ e2). split.
    + intros out. rewrite W1. run. by rewrite W2, <- app_assoc.
    + intros rest. rewrite <- app_assoc, R1. run. by rewrite R2.
  - exists e1. split; [intros out; by rewrite W1|]. intros rest. by rewrite R1.
Qed.

(** A handle that was stored and is loaded in another transaction is the same, but that its
    worker is the one that the serialization finds, and its reference, to the same id, is the
    transaction's. *)
Theorem handle_storage_roundtrip d t p h x w s s2 :
  objects (world s) !! p = Some (AppObject (HandleObject h)) -> handle_ok h -> worker_stored h w ->
  references (world s) !! task_data_reference h = Some x -> in_unsigned 64 (ref_oid x) ->
  loading d t s2 ->
  gzochid_lookup_task_serialization (serialization_name (task_serialization h)) s2 = Some (task_serialization h) ->
  exists bs, serialize_durable_task_handle (Some p) s = Ret (Some bs, s)
    /\ exists p' r s3, deserialize_durable_task_handle eng now bs s2 = Ret (Some p', false, s3)
         /\ objects (world s3) !! p' = Some (AppObject (HandleObject
              (TaskHandle (task_serialization h) (binding h) (Some w) r (identity h) (repeats h)
                 (if repeats h then period h else None) (target_execution_time h))))
         /\ ref_id s3 r = Some (ref_oid x) /\ loading d t s3.
Proof.
  intros Hp [Hn Hb Hi Hper Htgt] (e4 & W4 & R4) Hx Hoid Hload Hreg.
  destruct (serial_ok (ser := gzochid_util_serialize_oid) (ref_oid x) Hoid) as (e1 & W1 & R1).
  destruct (serial_ok (ser := gzochid_util_serialize_string) _ Hn) as (e2 & W2 & R2).
  destruct (binding_stored (binding h) Hb) as (e3 & W3 & R3).
  destruct (serial_ok (ser := gzochid_auth_identity_serializer) _ Hi) as (e5 & W5 & R5).
  destruct (period_stored (repeats h) (period h) Hper) as (e6 & W6 & R6).
  destruct (serial_ok (ser := gzochid_util_serialize_timeval) _ Htgt) as (e7 & W7 & R7).
  exists (e1 ++ e2 ++ e3 ++ e4 ++ e5 ++ e6 ++ e7). split.
  - unfold serialize_durable_task_handle, get_handle, get_ref. run. rewrite Hp. run. rewrite Hx. run.
    rewrite W1. run. rewrite W2. run.
    change (match binding h with Some _ => _ | None => _ end) with (serialize_binding (binding h) (([] ++ e1) ++ e2)).
    rewrite W3. run. rewrite W4. run. rewrite W5. run.
    specialize (W6 (((((([] ++ e1) ++ e2) ++ e3) ++ e4) ++ e5))).
    apply bind_Ret in W6 as (o6 & H6 & W6). rewrite H6. run. rewrite W6. run. rewrite W7. run.
    by rewrite app_nil_l, <- !app_assoc.
  - unfold deserialize_durable_task_handle. rewrite R1. run. rewrite R2. run. rewrite Hreg.
    rewrite bool_decide_eq_true_2 by by eexists. cbn [c_assert]. run.
    specialize (R3 (e4 ++ e5 ++ e6 ++ e7)). apply bind_Ret in R3 as ([b3 i3] & H3 & R3). rewrite H3. run. rewrite R3. run.
    rewrite R4. run.
    destruct (reference_to_oid_loading (eng := eng) now d t (data_serialization (task_serialization h)) (ref_oid x) s2 Hload)
      as (r & s3 & -> & Hl3 & Hid & _ & _). run. rewrite R5. run.
    specialize (R6 e7). apply bind_Ret in R6 as ([b6 i6] & H6 & R6). rewrite H6. run.
    apply bind_Ret in R6 as ([tv i7] & H7 & R6). rewrite H7. run. injection R6 as -> -> ->.
    rewrite <- (app_nil_r e7), R7. run. unfold alloc_object. cbn [fst snd].
    eexists _, r, _. split; [done|]. split; [cbn; apply lookup_insert_eq|]. split; [done|].
    by apply loading_put_object.
Qed.

End schedule.

(** *** A handle in a transaction *)

Definition sample_handle : gzochid_durable_application_task_handle unit unit :=
  TaskHandle (TaskSerialization (name_key (bytes_of_string "t")) (fun _ out => Ret out)
                (fun ins => Ret (AppWorker tt, ins)) (AppSerialization (TaskData tt)))
    None (Some (AppWorker tt)) 1 (name_key (bytes_of_string "u")) false None (Timeval 10 0).

Definition sample_durable_state : data_st map_engine_state positive (object (task_object unit unit unit))
    (serialization (task_data unit)) (task_components unit unit unit) :=
  TxThread (Some sample_transaction) (Some (TxTiming (Timeval 0 0) None)) 2
    (DataWorld {[1%positive := DataContext None [] (Some 1%positive) ∅ ∅]}
       {[1%positive := Reference STATE_NEW (AppSerialization (TaskData tt)) 9 None]}
       {[1%positive := AppObject (HandleObject sample_handle)]} []
       (MapEngine ∅ {[1%positive := ∅]}) []
       (TaskComponents ∅ [] {[name_key (bytes_of_string "t") := task_serialization sample_handle]} tt)).

Lemma sample_durable_session :
  session (durable := committed) false 1 1%positive 0 0 sample_durable_state.
Proof.
  split; [| |lia| |].
  - split; [by eexists _, _|by eexists].
  - split; [by eexists _, _|done|done|]. eexists. split; [reflexivity|]. cbn. lia.
  - intros oid r Hr. discriminate Hr.
  - intros p r Hr. discriminate Hr.
Qed.

Lemma scheduling_names_and_queues_witness :
  exists s', gzochid_schedule_durable_task_handle map_engine (gzochid_storage_oid_strategy_new map_engine false Meta)
      false (Timeval 5 0) (Timeval 1 0) 1%positive sample_durable_state = Ret (None, s')
    /\ queue_of s' = [] /\ scheduled s' = [task_of (Timeval 5 0) sample_handle 0]
    /\ map_view 1 (storage (world s')) !! (Names, name_key (create_pending_task_binding 0))
       = Some (oid_bytes false 0).
Proof.
  destruct (scheduling_names_and_queues (view := map_view) (durable := committed) false (Timeval 1 0) (Timeval 5 0)
    1%positive 1%positive 0 0 1%positive sample_handle sample_durable_state sample_durable_session)
    as (res & s1 & Hcr & H).
  - unfold ALLOCATION_BLOCK_SIZE. lia.
  - intros r Hr. discriminate Hr.
  - reflexivity.
  - vm_compute in Hcr. injection Hcr as <- <-. destruct H as (x & err & s' & Hx & Hs & Hq & _ & H).
    vm_compute in Hx. injection Hx as <-. destruct err as [e|]; [exfalso; vm_compute in Hs; discriminate Hs|].
    exists s'. split; [exact Hs|]. split; [exact Hq|]. destruct H as (Hv & _ & _ & _ & Hsch & _).
    split; [exact Hsch|exact Hv].
Defined.

Lemma handle_storage_roundtrip_witness :
  exists bs, serialize_durable_task_handle (Some 1%positive) sample_durable_state = Ret (Some bs, sample_durable_state)
    /\ exists p' r s3, deserialize_durable_task_handle map_engine (Timeval 1 0) bs sample_durable_state
                        = Ret (Some p', false, s3)
         /\ objects (world s3) !! p' = Some (AppObject (HandleObject
              (TaskHandle (task_serialization sample_handle) None (Some (AppWorker tt)) r (identity sample_handle)
                 false None (Timeval 10 0)))).
Proof.
  destruct (handle_storage_roundtrip (eng := map_engine) (Timeval 1 0) 1%positive 1%positive 1%positive sample_handle
    (Reference STATE_NEW (AppSerialization (TaskData tt)) 9 None) (AppWorker tt) sample_durable_state
    sample_durable_state) as (bs & Hbs & p' & r & s3 & Hd & Hp' & _).
  - reflexivity.
  - split; try done.
    + split; [exists (bytes_of_string "t"); by repeat constructor|cbn; lia].
    + exists (bytes_of_string "u"). by repeat constructor.
  - exists []. split; [intros out; by rewrite app_nil_r|done].
  - reflexivity.
  - done.
  - split; [split; [by eexists _, _|by eexists]|]. intros oid r Hr. discriminate Hr.
  - reflexivity.
  - exists bs. split; [exact Hbs|]. by exists p', r, s3.
Defined.
