(* ===== verification/DurableDefects.v ===== *)
(** * Durable tasks: runs

    Runs of the tasks of [DurableTask] over a storage engine, from one transaction to the
    next: what is meant to happen, and what goes wrong. *)

From stdpp Require Import pretty.
From S2P Require Import Prelude.
From S2P Require Import Util.
From S2P Require Import Tx.
From S2P Require Import AppTask.
From S2P Require Import Storage.
From S2P Require Import Oids.
From S2P Require Import Data.
From S2P Require Import Queue.
From S2P Require Import DurableTask.

Local Open Scope Z_scope.

(** ** An engine whose keys can be scanned *)

Fixpoint bytes_before (a b : bytes) : bool :=
  match a, b with
  | [], [] => false
  | [], _ :: _ => true
  | _ :: _, [] => false
  | x :: a, y :: b => if x =? y then bytes_before a b else x <? y
  end.

(** The least key of the store after [from]. *)
Definition least_key (st : store) (from : bytes) (c : contents) : option bytes :=
  foldl (fun best k =>
    if bool_decide (k.1 = st) && bytes_before from k.2
    then match best with
         | Some b => if bytes_before k.2 b then Some k.2 else best
         | None => Some k.2
         end
    else best) None (map_to_list c).*1.

Definition scan_engine : gzochid_storage_engine_interface map_engine_state positive :=
  Engine (transaction_begin map_engine) (transaction_begin_timed map_engine)
    (transaction_commit map_engine) (transaction_rollback map_engine) (transaction_prepare map_engine)
    (transaction_get map_engine) (transaction_get_for_update map_engine) (transaction_put map_engine)
    (transaction_delete map_engine) (transaction_first_key map_engine)
    (fun t st k e => (least_key st k (map_view t e), e))
    (tx_rollback map_engine) (tx_should_retry map_engine).

(** ** An application

    The data of its tasks are numbers below 256; its worker notes the number. *)

Abbreviation durable_st := (data_st map_engine_state positive (object (task_object unit unit Z))
  (serialization (task_data unit)) (task_components unit unit (list Z))).
Implicit Types s : durable_st.

Definition number_serializer (z : unit) (data : option positive) s : outcome (option bytes * durable_st) :=
  p ← deref data;
  match objects (world s) !! p with
  | Some (AppObject (OtherObject n)) => Ret (Some [n], s)
  | _ => Undef
  end.
Definition number_deserializer (z : unit) (ins : bytes) s : outcome (option positive * bool * durable_st) :=
  n ← read_at ins 0;
  let '(p, s) := alloc_object (AppObject (OtherObject n)) s in Ret (Some p, false, s).
Definition number_finalizer (z : unit) : positive -> durable_st -> outcome durable_st := free_object.

Definition note_number (w : unit) (owner : bytes) (data : option positive) s : outcome durable_st :=
  p ← deref data;
  match objects (world s) !! p with
  | Some (AppObject (OtherObject n)) =>
      Ret (on_components (fun c => TaskComponents (task_contexts c) (task_queue c)
             (serialization_registry c) (other_components c ++ [n])) s)
  | _ => Undef
  end.

Definition number_task : gzochid_application_task_serialization unit unit :=
  TaskSerialization (name_key (bytes_of_string "number")) (fun _ out => Ret out)
    (fun ins => Ret (AppWorker tt, ins)) (AppSerialization (TaskData tt)).

(** ** Transactions *)

Definition values (m : gmap string (gzochid_transaction_participant_registration data_fn (option positive)))
  := (map_to_list m).*2.
Definition clock : timeval := Timeval 10 0.
Definition owner : bytes := name_key (bytes_of_string "user").
Abbreviation strategy := (gzochid_storage_oid_strategy_new scan_engine false Meta).
Abbreviation sers := (durable_serializations scan_engine number_serializer number_deserializer
  number_finalizer clock).

Definition durable_prepare (f : data_fn) : option positive -> durable_st -> outcome (bool * durable_st) :=
  match f with
  | DataPrepare => data_prepare scan_engine sers false values (fun m => (map_to_list m).*2)
  | _ => task_prepare
  end.
Definition durable_commit (f : data_fn) : option positive -> durable_st -> outcome durable_st :=
  match f with
  | DataCommit => data_commit scan_engine sers (fun m => (map_to_list m).*2)
  | _ => task_commit
  end.
Definition durable_rollback (f : data_fn) : option positive -> durable_st -> outcome durable_st :=
  match f with
  | DataRollback => data_rollback scan_engine sers (fun m => (map_to_list m).*2)
  | _ => task_rollback
  end.

(** What is done in a transaction of its own. *)
Definition in_transaction (body : durable_st -> outcome durable_st) s
  : outcome (gzochid_transaction_result * durable_st) :=
  gzochid_transaction_execute durable_prepare durable_commit durable_rollback values body clock clock s.

Definition start : durable_st :=
  gzochid_task_register_serialization gzochid_task_chain_bootstrap_task_serialization
    (gzochid_task_register_serialization number_task
       (TxThread None None 1 (DataWorld ∅ ∅ ∅ [] (MapEngine ∅ ∅) [] (TaskComponents ∅ [] ∅ [])))).

Definition put_number (n : Z) s : positive * durable_st := alloc_object (AppObject (OtherObject n)) s.

Abbreviation run_task := (run_durable_task scan_engine strategy false values (Timeval 1 0)
  number_serializer number_deserializer number_finalizer note_number 10 clock).

(** The first task in the queue of the application is run in a transaction. *)
Definition run_next s : outcome durable_st :=
  match task_queue (components (world s)) with
  | [] => Ret s
  | t :: q =>
      '(r, s) ← in_transaction (run_task (task (task_execution t)))
                  (on_components (set_task_queue q) s);
      Ret s
  end.

Definition stored s (oid : Z) : option bytes := committed (storage (world s)) !! (Oids, oid_bytes false oid).
Definition named s (oid : Z) : bool :=
  bool_decide (is_Some (committed (storage (world s)) !! (Names, name_key (create_pending_task_binding oid)))).
Definition noted s : list Z := other_components (components (world s)).

(** ** What is meant to happen *)

Definition schedule_number (n : Z) s : outcome durable_st :=
  let '(p, s) := put_number n s in
  '(_, s) ← gzochid_schedule_durable_task scan_engine strategy false (Timeval 1 0) clock owner (Some p)
              number_task s;
  Ret s.

(** A task is named, stored and queued; it runs once and leaves no name. *)
Example durable_task_runs :
  match ('(_, s1) ← in_transaction (schedule_number 7) start; s2 ← run_next s1; Ret (s1, s2)) with
  | Ret (s1, s2) => named s1 1 = true /\ is_Some (stored s1 1) /\ length (task_queue (components (world s1))) = 1%nat
                    /\ noted s2 = [7] /\ named s2 1 = false /\ stored s2 1 = None
                    /\ task_queue (components (world s2)) = []
  | _ => False
  end.
Proof. vm_compute. split_and!; first [done|by eexists]. Qed.

(** ** A chain *)

(** A handle for a number at the end of a queue. *)
Definition offer_number (queue : positive) (n : Z) s : outcome durable_st :=
  let '(p, s) := put_number n s in
  '(h, _, s) ← gzochid_create_durable_application_task_handle scan_engine strategy false clock owner
                 (Some p) number_task (Timeval 0 0) None s;
  '(_, s) ← gzochid_durable_queue_offer scan_engine strategy false
              (task_serializer number_serializer) (task_deserializer scan_engine number_deserializer clock)
              (task_finalizer number_finalizer) clock queue handle_serialization h s;
  Ret s.

Definition schedule_chain (numbers : list Z) s : outcome durable_st :=
  let '(queue, s) := gzochid_durable_queue_new s in
  s ← foldl (fun o n => s ← o; offer_number queue n s) (Ret s) numbers;
  '(_, s) ← gzochid_schedule_durable_task_chain scan_engine strategy false (Timeval 1 0) clock owner queue s;
  Ret s.

(** The tasks in the queue of a server that stops are lost. *)
Definition restart s : outcome durable_st :=
  '(_, s) ← in_transaction (gzochid_restart_tasks scan_engine strategy false (Timeval 1 0)
    number_serializer number_deserializer number_finalizer 10 clock) (on_components (set_task_queue []) s);
  Ret s.

Definition queued s : list (task_function * Z) :=
  (fun t => let x := task (task_execution t) in (task_fn x, handle_oid x)) <$> task_queue (components (world s)).

(** A durable task that had not run is queued again. *)
Example durable_task_restarted :
  match ('(_, s) ← in_transaction (schedule_number 7) start; s1 ← restart s; s2 ← run_next s1; Ret (s1, s2)) with
  | Ret (s1, s2) => queued s1 = [(DurableWorker, 1)] /\ noted s2 = [7] /\ named s2 1 = false
  | _ => False
  end.
Proof. vm_compute. by repeat split. Qed.

(** The tasks of a chain run in order; then all of it is gone: the context 7, the queue 3
    and the handle 8 of the bootstrap task with its name. *)
Example chain_runs :
  match ('(_, s1) ← in_transaction (schedule_chain [7; 8]) start; s2 ← run_next s1; s3 ← run_next s2;
         Ret (s1, s2, s3)) with
  | Ret (s1, s2, s3) =>
      queued s1 = [(CoordinatorWorker, 7)] /\ named s1 8 = true
      /\ noted s2 = [7] /\ queued s2 = [(CoordinatorWorker, 7)]
      /\ noted s3 = [7; 8] /\ queued s3 = [] /\ named s3 8 = false
      /\ stored s3 7 = None /\ stored s3 3 = None /\ stored s3 8 = None
  | _ => False
  end.
Proof. vm_compute. by repeat split. Qed.

(** ** What goes wrong *)

(** After a restart the bootstrap task removes its own handle when it has scheduled the
    coordinator, while there still are tasks in the queue: they are lost at the next
    restart, which finds no handle under the name. *)
Example chain_lost_at_second_restart :
  match ('(_, s) ← in_transaction (schedule_chain [7; 8]) start;
         s1 ← restart s; s2 ← run_next s1; s3 ← restart s2; Ret (s1, s2, s3)) with
  | Ret (s1, s2, s3) =>
      queued s1 = [(DurableWorker, 8)]
      /\ queued s2 = [(CoordinatorWorker, 7)] /\ stored s2 8 = None
      /\ queued s3 = [] /\ named s3 8 = false /\ noted s3 = []
  | _ => False
  end.
Proof. vm_compute. by repeat split. Qed.

(** For the same reason a chain that was restarted is not cleaned up when its tasks have
    run: its context, its queue and the name of the bootstrap task stay. *)
Example restarted_chain_stays :
  match ('(_, s) ← in_transaction (schedule_chain [7; 8]) start;
         s ← restart s; s ← run_next s; s ← run_next s; run_next s) with
  | Ret s => noted s = [7; 8] /\ queued s = [] /\ named s 8 = true
             /\ is_Some (stored s 7) /\ is_Some (stored s 3) /\ stored s 8 = None
  | _ => False
  end.
Proof. vm_compute. split_and!; first [done|by eexists]. Qed.

(** The handle is not referenced before it is scheduled; when its id cannot be got, which
    is an ordinary failure of the storage, the server stops. *)
Definition no_blocks : gzochid_oid_allocation_strategy map_engine_state unit :=
  OidStrategy (fun _ e => Ret (inr OIDS_ERROR_TRANSACTION, e)) tt.

Example scheduling_stops_server :
  let s := with_world (set_free_blocks [BlockState 1 1 2]) start in
  let '(p, s) := put_number 7 s in
  gzochid_schedule_durable_task scan_engine no_blocks false (Timeval 1 0) clock owner (Some p) number_task s
  = Abort.
Proof. vm_compute. reflexivity. Qed.

(** The digits of the name are decimal. *)
Example pending_binding_decimal :
  create_pending_task_binding 26 = bytes_of_string "s.pendingTask.26".
Proof. reflexivity. Qed.
