(* ===== verification/DataServer.v ===== *)
(** * The data server of the meta server (dataserver.c, dataserver-protocol.c)

    The data server keeps the stores of every application and lends their keys to the
    application nodes: for each application the state of its storage engine and two
    tables of locks, on the objects ([Oids]) and on the names ([Names]).  It answers
    the requests of [DataProtocol] and commits the changes of nodes that hold the
    locks.  The engine, the opening of an application's stores, the byte order, the
    time of a call and the content of memory that is not initialised are parameters.
    Names are C strings with their terminator.  A [GBytes] gets an address when it
    is created. *)

From S2P Require Import Prelude.
From S2P Require Import Io.
From S2P Require Import Util.
From S2P Require Import DataProtocol.
From S2P Require Import LockMem.
From S2P Require Import Storage.
From S2P Require Import Oids.
From S2P Require Import Socket.
From S2P Require Import Framing.
From S2P Require Import MetaProtocol.

Local Open Scope Z_scope.

Inductive dataserver_error := STORE_NAME | LOCK_CONFLICT | FAILED.

Section dataserver.

Context {E T : Type}.
Variable engine : gzochid_storage_engine_interface E T.
(** [iface->initialize] and [iface->open]. *)
Variable initialize : bytes -> E.
Variable big_endian : bool.
Variable unset : Z.

(** ** State *)

Record gzochi_metad_dataserver_application_store := ApplicationStore {
  storage_context : E;
  oids_locks : gzochid_lock_table;
  names_locks : gzochid_lock_table
}.

Record GzochiMetadDataServer := DataServer {
  application_stores : gmap bytes gzochi_metad_dataserver_application_store;
  next_gbytes : positive
}.

Definition gzochi_metad_data_server_init : GzochiMetadDataServer := DataServer ∅ 1.

Abbreviation server := GzochiMetadDataServer.
Abbreviation app_store := gzochi_metad_dataserver_application_store.

Definition put_store (app : bytes) (x : app_store) (s : server) : server :=
  DataServer (<[app := x]> (application_stores s)) (next_gbytes s).

Definition set_context (e : E) (x : app_store) : app_store :=
  ApplicationStore e (oids_locks x) (names_locks x).

(** The lock table of a lockable store. *)
Definition table_of (st : store) (x : app_store) : gzochid_lock_table :=
  match st with Names => names_locks x | _ => oids_locks x end.

Definition set_table (st : store) (t : gzochid_lock_table) (x : app_store) : app_store :=
  match st with
  | Names => ApplicationStore (storage_context x) (oids_locks x) t
  | _ => ApplicationStore (storage_context x) t (names_locks x)
  end.

(** [g_bytes_new] *)
Definition new_gbytes (b : bytes) (s : server) : gbytes * server :=
  (GBytes (next_gbytes s) b, DataServer (application_stores s) (Pos.succ (next_gbytes s))).

(** ** Operations *)

Definition oids_name : bytes := [111; 105; 100; 115; 0].
Definition names_name : bytes := [110; 97; 109; 101; 115; 0].

Definition get_lockable_store (name : bytes) : store + dataserver_error :=
  if bool_decide (name = oids_name) then inl Oids
  else if bool_decide (name = names_name) then inl Names
  else inr STORE_NAME.

Definition ensure_open_application_store (app : bytes) (s : server) : app_store * server :=
  match application_stores s !! app with
  | Some x => (x, s)
  | None =>
      let x := ApplicationStore (initialize app) gzochid_lock_table_new gzochid_lock_table_new in
      (x, put_store app x s)
  end.

Definition gzochi_metad_dataserver_reserve_oids (app : bytes) (s : server)
  : outcome (gzochid_data_reserve_oids_response * server) :=
  let '(x, s) := ensure_open_application_store app s in
  '(r, e) ← gzochid_oids_reserve_block (gzochid_storage_oid_strategy_new engine big_endian Meta)
              (storage_context x);
  match r with
  | inl b => Ret (ReserveOidsResponse app (block_start b) (block_size b),
                  put_store app (set_context e x) s)
  | inr _ => Abort
  end.

Definition gzochi_metad_dataserver_request_value (now : timeval) (node_id : Z)
    (app store_name : bytes) (key : gbytes) (for_write : bool) (s : server)
  : outcome ((gzochid_data_response + dataserver_error) * server) :=
  let '(x, s) := ensure_open_application_store app s in
  match get_lockable_store store_name with
  | inr err => Ret (inr err, s)
  | inl st =>
      '(res, t) ← gzochid_lock_check_and_set now (table_of st x) node_id key for_write;
      let x := set_table st t x in
      if (fst res : bool) then
        let '(transaction, e) := transaction_begin engine (storage_context x) in
        transaction ← deref transaction;
        let '(data, e) := transaction_get engine transaction st (gb_data key) e in
        response ← gzochid_data_response_new unset app store_name true data;
        let e := transaction_rollback engine transaction e in
        Ret (inl response, put_store app (set_context e x) s)
      else
        response ← gzochid_data_response_new unset app store_name false None;
        Ret (inl response, put_store app x s)
  end.

Definition gzochi_metad_dataserver_request_next_key (now : timeval) (node_id : Z)
    (app store_name : bytes) (key : option gbytes) (s : server)
  : outcome ((gzochid_data_response + dataserver_error) * server) :=
  let '(x, s) := ensure_open_application_store app s in
  match get_lockable_store store_name with
  | inr err => Ret (inr err, s)
  | inl st =>
      let '(transaction, e) := transaction_begin engine (storage_context x) in
      transaction ← deref transaction;
      let '(data, e) :=
        match key with
        | None => transaction_first_key engine transaction st e
        | Some k => transaction_next_key engine transaction st (gb_data k) e
        end in
      _ ← c_assert (negb (tx_rollback engine transaction e));
      let '(to_key, s) :=
        match data with
        | Some d => let '(b, s) := new_gbytes d s in (Some b, s)
        | None => (None, s)
        end in
      let x := set_context (transaction_rollback engine transaction e) x in
      '(res, t) ← gzochid_lock_range_check_and_set now (table_of st x) node_id key to_key;
      response ← (if (fst res : bool)
                  then gzochid_data_response_new unset app store_name true (gb_data <$> to_key)
                  else gzochid_data_response_new unset app store_name false None);
      Ret (inl response, put_store app (set_table st t x) s)
  end.

(** A key that an error message shows is read up to a zero byte. *)
Definition show_key (key : bytes) : outcome unit := _ ← strlen key; Ret tt.

(** The loop over the changes; the [GBytes] of a message live as long as it, and
    a check only looks at their bytes. *)
Fixpoint process_changes (node_id : Z) (x : app_store) (transaction : T)
    (cs : list gzochid_data_change) (e : E) : outcome (option dataserver_error * E) :=
  match cs with
  | [] => Ret (None, e)
  | change :: cs =>
      store_name ← deref (change_store change);
      match get_lockable_store store_name with
      | inr err => Ret (Some err, e)
      | inl st =>
          key ← deref (change_key change);
          locked ← gzochid_lock_check (table_of st x) node_id (GBytes 1 key) true;
          if negb (locked : bool) then _ ← show_key key; Ret (Some LOCK_CONFLICT, e)
          else
            e ← (if delete change then Ret (snd (transaction_delete engine transaction st key e))
                 else data ← deref (change_data change);
                      Ret (transaction_put engine transaction st key data e));
            if tx_rollback engine transaction e
            then _ ← show_key key; Ret (Some LOCK_CONFLICT, e)
            else process_changes node_id x transaction cs e
      end
  end.

Definition gzochi_metad_dataserver_process_changeset (node_id : Z)
    (changeset : gzochid_data_changeset) (s : server)
  : outcome (option dataserver_error * server) :=
  let app := changeset_app changeset in
  let '(x, s) := ensure_open_application_store app s in
  let '(transaction, e) := transaction_begin engine (storage_context x) in
  transaction ← deref transaction;
  '(err, e) ← process_changes node_id x transaction (changes changeset) e;
  match err with
  | Some err =>
      Ret (Some err, put_store app (set_context (transaction_rollback engine transaction e) x) s)
  | None =>
      let e := transaction_prepare engine transaction e in
      if tx_rollback engine transaction e
      then Ret (Some FAILED,
                put_store app (set_context (transaction_rollback engine transaction e) x) s)
      else Ret (None, put_store app (set_context (transaction_commit engine transaction e) x) s)
  end.

Definition gzochi_metad_dataserver_release_key (node_id : Z) (app store_name : bytes)
    (key : gbytes) (s : server) : outcome server :=
  let '(x, s) := ensure_open_application_store app s in
  match get_lockable_store store_name with
  | inr _ => Ret s
  | inl st =>
      t ← gzochid_lock_release (table_of st x) node_id key;
      Ret (put_store app (set_table st t x) s)
  end.

Definition gzochi_metad_dataserver_release_range (node_id : Z) (app store_name : bytes)
    (first_key last_key : option gbytes) (s : server) : outcome server :=
  let '(x, s) := ensure_open_application_store app s in
  match get_lockable_store store_name with
  | inr _ => Ret s
  | inl st =>
      t ← gzochid_lock_release_range (table_of st x) node_id first_key last_key;
      Ret (put_store app (set_table st t x) s)
  end.

(** The loop over the applications. *)
Fixpoint release_stores (node_id : Z) (l : list (bytes * app_store))
  : outcome (list (bytes * app_store)) :=
  match l with
  | [] => Ret []
  | (app, x) :: l =>
      o ← gzochid_lock_release_all (oids_locks x) node_id;
      n ← gzochid_lock_release_all (names_locks x) node_id;
      l ← release_stores node_id l;
      Ret ((app, ApplicationStore (storage_context x) o n) :: l)
  end.

Definition gzochi_metad_dataserver_release_all (node_id : Z) (s : server) : outcome server :=
  l ← release_stores node_id (map_to_list (application_stores s));
  Ret (DataServer (list_to_map l) (next_gbytes s)).

End dataserver.

Arguments gzochi_metad_dataserver_application_store : clear implicits.
Arguments GzochiMetadDataServer : clear implicits.

(** ** What the locks protect *)

Definition lockable (st : store) : Prop := st = Oids \/ st = Names.

Lemma get_lockable (name : bytes) (st : store) : get_lockable_store name = inl st -> lockable st.
Proof.
  unfold get_lockable_store. repeat case_bool_decide; intros [= <-]; [by left | by right].
Qed.

(** A lock for writing keeps every other node out. *)
Lemma write_excludes (t : gzochid_lock_table) (n n' : Z) (k : bytes) (w : bool) :
  lock_inv t -> holds t n k true -> holds t n' k w -> n' = n.
Proof.
  intros [_ He _ _] (p & l & Hp & <- & Hk & Hw) (q & x & Hq & <- & Hxk & _).
  assert (p = q) as <- by (eapply He; [done|done|congruence|by left]). by simplify_eq.
Qed.

(** Changes of a table that leave the other nodes' locks. *)
Definition table_keeps (m : Z) (t t' : gzochid_lock_table) : Prop :=
  lock_inv t -> lock_inv t' /\ forall n k w, n <> m -> holds t n k w -> holds t' n k w.

Lemma same_heap_keeps (m : Z) (t t' : gzochid_lock_table) :
  (lock_inv t -> lock_inv t' /\ lock_heap t' = lock_heap t) -> table_keeps m t t'.
Proof.
  intros H Ht. destruct (H Ht) as [Ht' Hh]. split; [done|]. intros n k w _. unfold holds. by rewrite Hh.
Qed.

Lemma check_and_set_keeps now t m key w res t' :
  gzochid_lock_check_and_set now t m key w = Ret (res, t') -> table_keeps m t t'.
Proof.
  intros Hr Ht. split; [by eapply check_and_set_inv|]. intros n k w' Hn Hk.
  destruct (check_and_set_cases now t m key w Ht)
    as [[H _]|[(ts & _ & H)|(_ & t1 & Hl & H)]]; rewrite H in Hr; [by inv_ret..|].
  assert (Hk1 : holds t1 n k w').
  { apply (locked_holds _ _ _ _ _ _ Hl). rewrite decide_False; [done|]. congruence. }
  destruct w; [|by inv_ret]. apply bind_Ret in Hr as ([rl|] & _ & Hr); by inv_ret.
Qed.

Lemma release_keeps t m key t' : gzochid_lock_release t m key = Ret t' -> table_keeps m t t'.
Proof.
  intros Hr Ht.
  destruct (release_cases t m key Ht) as [(p & l & t1 & Hp & Hl & _ & H & Hinv & Hh & _)|[H _]];
    rewrite H in Hr; injection Hr as <-; [|by split].
  split; [done|]. intros n k w Hn (q & x & Hq & Hxn & Hx). exists q, x. split; [|done].
  rewrite Hh, lookup_delete_ne; [done|]. intros ->. congruence.
Qed.

Lemma release_all_keeps t m t' : gzochid_lock_release_all t m = Ret t' -> table_keeps m t t'.
Proof.
  intros Hr Ht. destruct (release_all_inv t m t' Ht Hr) as [Hinv Hh]. split; [done|].
  intros n k w Hn (q & x & Hq & Hxn & Hx). exists q, x. split; [|done].
  rewrite Hh. apply map_lookup_filter_Some. split; [done|]. simpl. congruence.
Qed.

Lemma release_range_keeps t m from to t' :
  gzochid_lock_release_range t m from to = Ret t' -> table_keeps m t t'.
Proof.
  intros Hr. apply same_heap_keeps. intros Ht. unfold gzochid_lock_release_range in Hr.
  apply bind_Ret in Hr as (r & _ & Hr). apply bind_Ret in Hr as ([p|] & _ & Hr); [|by inv_ret].
  by eapply remove_range_lock_inv.
Qed.

Lemma range_check_and_set_keeps now t m from to res t' :
  gzochid_lock_range_check_and_set now t m from to = Ret (res, t') -> table_keeps m t t'.
Proof. intros Hr. apply same_heap_keeps. intros Ht. by eapply range_check_and_set_inv. Qed.

Section coherence.

Context {E T : Type} {engine : gzochid_storage_engine_interface E T}.
Context {view : T -> E -> contents} {durable : E -> contents}.
Context {HE : EngineLaws engine view durable} {HK : ScanLaws engine durable}.
Context {initialize : bytes -> E} {big_endian : bool} {unset : Z}.

Abbreviation server := (GzochiMetadDataServer E).
Abbreviation app_store := (gzochi_metad_dataserver_application_store E).

Definition store_inv (x : app_store) : Prop := lock_inv (oids_locks x) /\ lock_inv (names_locks x).

Definition server_inv (s : server) : Prop :=
  forall app x, application_stores s !! app = Some x -> store_inv x.

Definition node_holds (s : server) (n : Z) (app : bytes) (st : store) (k : bytes) (w : bool) : Prop :=
  exists x, application_stores s !! app = Some x /\ holds (table_of st x) n k w.

(** What is committed under a key. *)
Definition committed_value (s : server) (app : bytes) (st : store) (k : bytes) : option bytes :=
  x ← application_stores s !! app; durable (storage_context x) !! (st, k).

(** Changes that leave the locks of nodes other than [m] and what they protect. *)
Definition store_keeps (m : Z) (x x' : app_store) : Prop :=
  store_inv x -> store_inv x' /\ forall n st k w, n <> m -> lockable st ->
    holds (table_of st x) n k w -> holds (table_of st x') n k w
    /\ durable (storage_context x') !! (st, k) = durable (storage_context x) !! (st, k).

Definition server_keeps (m : Z) (s s' : server) : Prop :=
  server_inv s -> server_inv s' /\ forall n app st k w, n <> m -> lockable st ->
    node_holds s n app st k w -> node_holds s' n app st k w
    /\ committed_value s' app st k = committed_value s app st k.

#[local] Instance server_keeps_preorder (m : Z) : PreOrder (server_keeps m).
Proof.
  split; [by intros s Hs; split|]. intros s1 s2 s3 H12 H23 H1.
  destruct (H12 H1) as [H2 K12], (H23 H2) as [H3 K23]. split; [done|].
  intros n app st k w Hn Hst Hk. destruct (K12 n app st k w Hn Hst Hk) as [Hk2 E12].
  destruct (K23 n app st k w Hn Hst Hk2) as [Hk3 E23]. split; [done|]. congruence.
Qed.

Lemma same_stores_keep (m : Z) (s s' : server) :
  application_stores s' = application_stores s -> server_keeps m s s'.
Proof.
  intros Heq Hs. split; [intros app x; rewrite Heq; apply Hs|].
  intros n app st k w _ _. unfold node_holds, committed_value. by rewrite Heq.
Qed.

Lemma table_of_inv (st : store) (x : app_store) : store_inv x -> lock_inv (table_of st x).
Proof. by intros [Ho Hn]; destruct st. Qed.

Lemma ensure_keeps (m : Z) (app : bytes) (s : server) (x : app_store) (s1 : server) :
  ensure_open_application_store initialize app s = (x, s1) ->
  server_keeps m s s1 /\ application_stores s1 !! app = Some x.
Proof.
  unfold ensure_open_application_store. destruct (application_stores s !! app) as [y|] eqn:Hy.
  { intros [= <- <-]. split; [by apply same_stores_keep|done]. }
  intros [= <- <-]. split; [|simpl; by rewrite lookup_insert_eq]. intros Hs. split.
  - intros app' y. simpl. rewrite lookup_insert_Some. intros [[_ <-]|[_ Hy']]; [|by eapply Hs].
    split; apply new_table_inv.
  - intros n app' st k w _ _ (y & Hy' & Hk). simpl.
    assert (app <> app') by congruence. unfold node_holds, committed_value. simpl.
    rewrite lookup_insert_ne by done. split; [by exists y|done].
Qed.

Lemma put_keeps (m : Z) (app : bytes) (s : server) (x x' : app_store) :
  application_stores s !! app = Some x -> store_keeps m x x' ->
  server_keeps m s (put_store app x' s).
Proof.
  intros Hx Hkeep Hs. destruct (Hkeep (Hs _ _ Hx)) as [Hx' Hk]. split.
  - intros app' y. simpl. rewrite lookup_insert_Some. intros [[_ <-]|[_ Hy]]; [done|by eapply Hs].
  - intros n app' st k w Hn Hst (y & Hy & Hh). unfold node_holds, committed_value. simpl.
    destruct (decide (app = app')) as [<-|Hne].
    + rewrite Hx in *. injection Hy as <-. rewrite lookup_insert_eq.
      destruct (Hk n st k w Hn Hst Hh) as [Hh' Hd]. split; [by exists x'|]. simpl. by rewrite Hd.
    + rewrite lookup_insert_ne by done. split; [by exists y|done].
Qed.

Lemma store_keeps_trans (m : Z) (x1 x2 x3 : app_store) :
  store_keeps m x1 x2 -> store_keeps m x2 x3 -> store_keeps m x1 x3.
Proof.
  intros H12 H23 H1. destruct (H12 H1) as [H2 K12], (H23 H2) as [H3 K23]. split; [done|].
  intros n st k w Hn Hst Hk. destruct (K12 n st k w Hn Hst Hk) as [Hk2 E12].
  destruct (K23 n st k w Hn Hst Hk2) as [Hk3 E23]. split; [done|]. congruence.
Qed.

Lemma context_keeps (m : Z) (e : E) (x : app_store) :
  durable e = durable (storage_context x) -> store_keeps m x (set_context e x).
Proof.
  intros Hd Hx. split; [by destruct Hx|]. intros n st k w _ _ Hk.
  split; [by destruct st|]. simpl. by rewrite Hd.
Qed.

Lemma table_keeps_store (m : Z) (st : store) (t : gzochid_lock_table) (x : app_store) :
  lockable st -> table_keeps m (table_of st x) t -> store_keeps m x (set_table st t x).
Proof.
  intros Hst Hkeep [Ho Hn]. destruct Hst as [-> | ->]; simpl in *;
    [destruct (Hkeep Ho) as [Hinv Hk] | destruct (Hkeep Hn) as [Hinv Hk]];
    (split; [done|]); intros n st k w Hne [-> | ->] Hh; simpl in *; split; auto.
Qed.

(** Allocating ids changes the counter only. *)
Lemma allocate_keeps (e e' : E) r (st : store) (k : bytes) :
  allocate engine big_endian Meta e = Ret (r, e') -> lockable st ->
  durable e' !! (st, k) = durable e !! (st, k).
Proof.
  unfold allocate. intros Hr Hst.
  destruct (transaction_begin engine e) as [[t|] e1] eqn:Hbegin.
  2: { injection Hr as <- <-. by rewrite (begin_durable _ _ _ Hbegin). }
  destruct (transaction_get_for_update engine t Meta [NEXT_OID_KEY] e1) as [v e2] eqn:Hget.
  pose proof (begin_durable _ _ _ Hbegin) as Hd1. pose proof (update_durable _ _ _ _ _ _ Hget) as Hd2.
  destruct (tx_rollback engine t e2) eqn:Hr2.
  { injection Hr as <- <-. rewrite rollback_durable. congruence. }
  assert (Hr1 : tx_rollback engine t e1 = false).
  { destruct (tx_rollback engine t e1) eqn:Hr1; [|done].
    by rewrite (update_sticky _ _ _ _ _ _ Hget Hr1) in Hr2. }
  pose proof (begin_view _ _ _ Hbegin Hr1) as Hv1.
  destruct (update_value _ _ _ _ _ _ Hget Hr2) as [_ Hv2].
  apply bind_Ret in Hr as (start & _ & Hr). cbv zeta in Hr.
  set (e3 := transaction_put engine t Meta _ _ e2) in Hr.
  assert (Hd3 : durable e3 = durable e) by (subst e3; rewrite put_durable; congruence).
  destruct (tx_rollback engine t e3) eqn:Hr3; cbn [negb] in Hr.
  { rewrite Hr3 in Hr. injection Hr as <- <-. by rewrite rollback_durable, Hd3. }
  destruct (tx_rollback engine t (transaction_prepare engine t e3)) eqn:Hr4; injection Hr as <- <-.
  { by rewrite rollback_durable, prepare_durable, Hd3. }
  rewrite commit_durable, (prepare_view _ _ Hr4) by done. subst e3.
  rewrite (put_view _ _ _ _ _ Hr3), Hv2, Hv1. rewrite lookup_insert_ne; [done|].
  destruct Hst as [-> | ->]; congruence.
Qed.

(** ** Change sets *)

(** What a change does to the contents of the stores. *)
Definition apply_change (c : contents) (change : gzochid_data_change) : contents :=
  match get_lockable_store (default [] (change_store change)), change_key change with
  | inl st, Some k =>
      if delete change then base.delete (st, k) c
      else <[(st, k) := default [] (change_data change)]> c
  | _, _ => c
  end.

(** The node holds the key of the change for writing. *)
Definition change_locked (n : Z) (x : app_store) (change : gzochid_data_change) : Prop :=
  exists st k, get_lockable_store (default [] (change_store change)) = inl st
    /\ change_key change = Some k /\ holds (table_of st x) n k true.

(** Changes as they are read from a message, with a key that can be shown. *)
Definition change_ok (change : gzochid_data_change) : Prop :=
  is_Some (change_store change)
  /\ (exists k, change_key change = Some k /\ exists n, strlen k = Ret n)
  /\ (delete change = false -> is_Some (change_data change)).

Lemma check_write (x : app_store) (st : store) (n : Z) (key : gbytes) :
  store_inv x ->
  exists b, gzochid_lock_check (table_of st x) n key true = Ret b
    /\ (b = true <-> holds (table_of st x) n (gb_data key) true).
Proof.
  intros Hx. destruct (lock_check_spec (table_of st x) n key true (table_of_inv st x Hx))
    as (b & Hb & Hiff). exists b. split; [done|]. rewrite Hiff. split.
  - intros (w & Hw & [-> | [=]]). done.
  - intros Hw. exists true. auto.
Qed.

Lemma process_changes_spec (n : Z) (x : app_store) (t : T) : store_inv x -> forall cs e err e',
  process_changes engine n x t cs e = Ret (err, e') ->
  durable e' = durable e
  /\ (err = None -> tx_rollback engine t e' = false ->
      tx_rollback engine t e = false
      /\ view t e' = foldl apply_change (view t e) cs /\ Forall (change_locked n x) cs).
Proof.
  intros Hx. induction cs as [|change cs IH]; intros e err e' Hr; cbn [process_changes] in Hr.
  { by injection Hr as <- <-. }
  apply bind_Ret in Hr as (name & Hname%deref_Ret & Hr).
  destruct (get_lockable_store name) as [st|er] eqn:Hst; [|by injection Hr as <- <-].
  apply bind_Ret in Hr as (key & Hkey%deref_Ret & Hr).
  destruct (check_write x st n (GBytes 1 key) Hx) as (b & Hb & Hlocked).
  rewrite Hb in Hr. cbn [mbind outcome_bind] in Hr.
  destruct b; cbn [negb] in Hr; [|apply bind_Ret in Hr as (_ & _ & Hr); by injection Hr as <- <-].
  apply bind_Ret in Hr as (e1 & Hput & Hr).
  assert (H1 : durable e1 = durable e
    /\ (tx_rollback engine t e = true -> tx_rollback engine t e1 = true)
    /\ (tx_rollback engine t e1 = false -> view t e1 = apply_change (view t e) change)).
  { unfold apply_change. rewrite Hname, Hkey. simpl. rewrite Hst. destruct (delete change).
    - injection Hput as <-.
      destruct (transaction_delete engine t st key e) as [r e1] eqn:Hd. simpl.
      split_and!; [by eapply delete_durable|by eapply delete_sticky|].
      intros Hno. by destruct (delete_view _ _ _ _ _ _ Hd Hno) as [-> _].
    - apply bind_Ret in Hput as (data & Hdata%deref_Ret & [= <-]). rewrite Hdata.
      split_and!; [apply put_durable|apply put_sticky|apply put_view]. }
  destruct H1 as (Hd1 & Hs1 & Hv1).
  destruct (tx_rollback engine t e1) eqn:Hr1.
  { apply bind_Ret in Hr as (_ & _ & Hr). by injection Hr as <- <-. }
  destruct (IH _ _ _ Hr) as (Hd & Hrest). split; [congruence|]. intros Herr Hno.
  destruct (Hrest Herr Hno) as (_ & Hview & Hall). split_and!.
  - destruct (tx_rollback engine t e); [|done]. specialize (Hs1 eq_refl). congruence.
  - by rewrite Hview, Hv1.
  - constructor; [|done]. exists st, key. rewrite Hname. split_and!; [done|done|by apply Hlocked].
Qed.

Lemma process_changes_returns (n : Z) (x : app_store) (t : T) : store_inv x -> forall cs e,
  Forall change_ok cs -> exists err e', process_changes engine n x t cs e = Ret (err, e').
Proof.
  intros Hx. induction cs as [|change cs IH]; intros e Hok; cbn [process_changes]; [eauto|].
  apply Forall_cons in Hok as [([name Hname] & (key & Hkey & len & Hlen) & Hdata) Hok].
  rewrite Hname, Hkey. cbn [mbind outcome_bind deref].
  destruct (get_lockable_store name) as [st|er]; [|eauto].
  destruct (check_write x st n (GBytes 1 key) Hx) as (b & -> & _). cbn [mbind outcome_bind].
  assert (Hshow : show_key key = Ret tt) by (unfold show_key; by rewrite Hlen).
  destruct b; cbn [negb]; [|rewrite Hshow; cbn [mbind outcome_bind]; eauto].
  assert (He : exists e1, (if delete change then Ret (transaction_delete engine t st key e).2
    else data ← deref (change_data change); Ret (transaction_put engine t st key data e)) = Ret e1).
  { destruct (delete change); [eauto|]. destruct (Hdata eq_refl) as [d ->]. simpl. eauto. }
  destruct He as [e1 ->]. cbn [mbind outcome_bind].
  destruct (tx_rollback engine t e1); [rewrite Hshow; cbn [mbind outcome_bind]; eauto|]. by apply IH.
Qed.

(** The effect of a change set on the application's store. *)
Lemma process_changeset_spec (n : Z) (cs : gzochid_data_changeset) (s s1 s' : server) (x : app_store)
    (err : option dataserver_error) :
  server_inv s -> ensure_open_application_store initialize (changeset_app cs) s = (x, s1) ->
  gzochi_metad_dataserver_process_changeset engine initialize n cs s = Ret (err, s') ->
  exists e, s' = put_store (changeset_app cs) (set_context e x) s1
    /\ match err with
       | Some _ => durable e = durable (storage_context x)
       | None => Forall (change_locked n x) (changes cs)
           /\ durable e = foldl apply_change (durable (storage_context x)) (changes cs)
       end.
Proof.
  intros Hs Hx Hr. unfold gzochi_metad_dataserver_process_changeset in Hr. rewrite Hx in Hr.
  destruct (ensure_keeps n _ _ _ _ Hx) as [Hkeep Hlook]. destruct (Hkeep Hs) as [Hs1 _].
  pose proof (Hs1 _ _ Hlook) as Hinv.
  destruct (transaction_begin engine (storage_context x)) as [tr e0] eqn:Hbegin.
  apply bind_Ret in Hr as (t & ->%deref_Ret & Hr). pose proof (begin_durable _ _ _ Hbegin) as Hd0.
  apply bind_Ret in Hr as ([er e1] & Hproc & Hr).
  destruct (process_changes_spec n x t Hinv _ _ _ _ Hproc) as [Hd1 Hspec].
  destruct er as [er|].
  { injection Hr as <- <-. eexists. split; [done|]. rewrite rollback_durable. congruence. }
  destruct (tx_rollback engine t (transaction_prepare engine t e1)) eqn:Hr1;
    injection Hr as <- <-; eexists; (split; [done|]).
  { rewrite rollback_durable, prepare_durable. congruence. }
  assert (Hr2 : tx_rollback engine t e1 = false).
  { destruct (tx_rollback engine t e1) eqn:Hr2; [|done].
    by rewrite (prepare_sticky t e1 Hr2) in Hr1. }
  destruct (Hspec eq_refl Hr2) as (Hr0 & Hview & Hall). split; [done|].
  rewrite commit_durable, (prepare_view _ _ Hr1), Hview by done.
  by rewrite (begin_view _ _ _ Hbegin Hr0).
Qed.

(** Changes of keys that are locked leave the rest. *)
Lemma apply_changes_other (n : Z) (x : app_store) (st : store) (k : bytes) (cs : list gzochid_data_change) :
  Forall (change_locked n x) cs -> ~ holds (table_of st x) n k true ->
  forall c, foldl apply_change c cs !! (st, k) = c !! (st, k).
Proof.
  intros Hall Hno. induction Hall as [|change cs (st' & k' & Hst & Hk & Hh) _ IH]; intros c; [done|].
  simpl. rewrite IH. unfold apply_change. rewrite Hst, Hk.
  assert ((st', k') <> (st, k)) by congruence.
  destruct (delete change); [by rewrite lookup_delete_ne | by rewrite lookup_insert_ne].
Qed.

Lemma process_changeset_keeps (n : Z) (cs : gzochid_data_changeset) (s s' : server) err :
  gzochi_metad_dataserver_process_changeset engine initialize n cs s = Ret (err, s') ->
  server_keeps n s s'.
Proof.
  intros Hr Hs. revert Hs. change (server_keeps n s s').
  destruct (ensure_open_application_store initialize (changeset_app cs) s) as [x s1] eqn:Hx.
  destruct (ensure_keeps n _ _ _ _ Hx) as [Hkeep Hlook]. intros Hs.
  destruct (process_changeset_spec n cs s s1 s' x err Hs Hx Hr) as (e & -> & He).
  revert Hs. change (server_keeps n s (put_store (changeset_app cs) (set_context e x) s1)).
  etrans; [exact Hkeep|]. apply (put_keeps n _ _ x); [done|]. destruct err as [er|].
  { by apply context_keeps. }
  destruct He as [Hall Hd]. intros Hinv. split; [by destruct Hinv|]. intros m st k w Hm Hst Hk.
  split; [by destruct st|]. simpl. rewrite Hd. apply (apply_changes_other n x); [done|].
  intros Hw. by apply Hm, (write_excludes (table_of st x) n m k w (table_of_inv st x Hinv)).
Qed.

Lemma release_stores_lookup (n : Z) (l l' : list (bytes * app_store)) :
  release_stores n l = Ret l' ->
  Forall2 (fun p q => q.1 = p.1 /\ store_keeps n p.2 q.2) l l'.
Proof.
  revert l'. induction l as [|[app x] l IH]; intros l' Hr; cbn [release_stores] in Hr.
  { by injection Hr as <-. }
  apply bind_Ret in Hr as (o & Ho & Hr). apply bind_Ret in Hr as (nm & Hn & Hr).
  apply bind_Ret in Hr as (l1 & Hl & [= <-]). constructor; [|by apply IH]. split; [done|]. simpl.
  pose proof (table_keeps_store n Oids o x (or_introl eq_refl) (release_all_keeps _ _ _ Ho)) as H1.
  pose proof (table_keeps_store n Names nm (set_table Oids o x) (or_intror eq_refl)
    (release_all_keeps _ _ _ Hn)) as H2.
  exact (store_keeps_trans _ _ _ _ H1 H2).
Qed.

Lemma release_all_server_keeps (n : Z) (s s' : server) :
  gzochi_metad_dataserver_release_all n s = Ret s' -> server_keeps n s s'.
Proof.
  intros (l & Hl & [= <-])%bind_Ret. apply release_stores_lookup in Hl.
  assert (Hfst : l.*1 = (map_to_list (application_stores s)).*1).
  { clear -Hl. induction Hl as [|[a x] [b y] l1 l2 [Hab _] _ IH]; [done|]. rewrite !fmap_cons. cbn [fst] in *. by f_equal. }
  assert (Hnd : NoDup l.*1) by (rewrite Hfst; apply NoDup_fst_map_to_list).
  assert (Hto : forall app x, application_stores s !! app = Some x ->
    exists x', list_to_map (M := gmap bytes app_store) l !! app = Some x' /\ store_keeps n x x').
  { intros app x Hx%elem_of_map_to_list. apply list_elem_of_lookup in Hx as [i Hi].
    destruct (Forall2_lookup_l _ _ _ _ _ Hl Hi) as ([b x'] & Hi' & Hb & Hk). simpl in *. subst b.
    exists x'. split; [|done]. apply elem_of_list_to_map; [done|]. by eapply list_elem_of_lookup_2. }
  assert (Hfrom : forall app x', list_to_map (M := gmap bytes app_store) l !! app = Some x' ->
    exists x, application_stores s !! app = Some x).
  { intros app x' Hx'%elem_of_list_to_map; [|done]. apply list_elem_of_lookup in Hx' as [i Hi].
    destruct (Forall2_lookup_r _ _ _ _ _ Hl Hi) as ([b x] & Hi' & Hb & _). simpl in *. subst b.
    exists x. apply elem_of_map_to_list. by eapply list_elem_of_lookup_2. }
  intros Hs. split.
  - intros app x' Hx'. simpl in Hx'. destruct (Hfrom _ _ Hx') as [x Hx].
    destruct (Hto _ _ Hx) as (x2 & Hx2 & Hk). simplify_eq. by destruct (Hk (Hs _ _ Hx)).
  - intros m app st k w Hm Hst (x & Hx & Hh). destruct (Hto _ _ Hx) as (x' & Hx' & Hk).
    destruct (Hk (Hs _ _ Hx)) as [_ Hk']. destruct (Hk' m st k w Hm Hst Hh) as [Hh' Hd].
    unfold node_holds, committed_value. simpl. rewrite Hx', Hx. split; [by exists x'|]. simpl. by rewrite Hd.
Qed.

(** A call of one of the operations on behalf of a node. *)
Inductive server_step (n : Z) (s s' : server) : Prop :=
| StepReserve app r :
    gzochi_metad_dataserver_reserve_oids engine initialize big_endian app s = Ret (r, s') ->
    server_step n s s'
| StepValue now app name key w r :
    gzochi_metad_dataserver_request_value engine initialize unset now n app name key w s = Ret (r, s') ->
    server_step n s s'
| StepNextKey now app name key r :
    gzochi_metad_dataserver_request_next_key engine initialize unset now n app name key s
      = Ret (r, s') ->
    server_step n s s'
| StepChangeset cs r :
    gzochi_metad_dataserver_process_changeset engine initialize n cs s = Ret (r, s') ->
    server_step n s s'
| StepRelease app name key :
    gzochi_metad_dataserver_release_key initialize n app name key s = Ret s' -> server_step n s s'
| StepReleaseRange app name from to :
    gzochi_metad_dataserver_release_range initialize n app name from to s = Ret s' ->
    server_step n s s'
| StepReleaseAll :
    gzochi_metad_dataserver_release_all n s = Ret s' -> server_step n s s'.

Lemma request_value_keeps now n app name key w s r s' :
  gzochi_metad_dataserver_request_value engine initialize unset now n app name key w s = Ret (r, s') ->
  server_keeps n s s'.
Proof.
  unfold gzochi_metad_dataserver_request_value.
  destruct (ensure_open_application_store initialize app s) as [x s1] eqn:Hx.
  destruct (ensure_keeps n _ _ _ _ Hx) as [Hkeep Hlook]. intros Hr.
  destruct (get_lockable_store name) as [st|er] eqn:Hst; [|by injection Hr as <- <-].
  apply get_lockable in Hst. apply bind_Ret in Hr as ([res t] & Hl & Hr).
  pose proof (table_keeps_store n st t x Hst (check_and_set_keeps _ _ _ _ _ _ _ Hl)) as H1.
  etrans; [exact Hkeep|]. destruct res as [ok ts]. cbn [fst] in Hr. destruct ok.
  - destruct (transaction_begin engine _) as [tr e0] eqn:Hbegin.
    apply bind_Ret in Hr as (tx & ->%deref_Ret & Hr).
    destruct (transaction_get engine tx st (gb_data key) e0) as [data e1] eqn:Hget.
    apply bind_Ret in Hr as (resp & _ & [= _ <-]). apply (put_keeps n _ _ x); [done|].
    apply (store_keeps_trans n _ (set_table st t x)); [done|]. apply context_keeps.
    rewrite rollback_durable, (get_durable _ _ _ _ _ _ Hget). by rewrite (begin_durable _ _ _ Hbegin).
  - apply bind_Ret in Hr as (resp & _ & [= _ <-]). by apply (put_keeps n _ _ x).
Qed.

Lemma request_next_key_keeps now n app name key s r s' :
  gzochi_metad_dataserver_request_next_key engine initialize unset now n app name key s = Ret (r, s') ->
  server_keeps n s s'.
Proof.
  unfold gzochi_metad_dataserver_request_next_key.
  destruct (ensure_open_application_store initialize app s) as [x s1] eqn:Hx.
  destruct (ensure_keeps n _ _ _ _ Hx) as [Hkeep Hlook]. intros Hr.
  destruct (get_lockable_store name) as [st|er] eqn:Hst; [|by injection Hr as <- <-].
  apply get_lockable in Hst.
  destruct (transaction_begin engine (storage_context x)) as [tr e0] eqn:Hbegin.
  apply bind_Ret in Hr as (tx & ->%deref_Ret & Hr). set (scan := match key with None => _ | _ => _ end) in Hr.
  destruct scan as [data e1] eqn:Hscan. subst scan.
  assert (Hd1 : durable e1 = durable (storage_context x)).
  { rewrite <- (begin_durable _ _ _ Hbegin).
    destruct key; [by eapply next_durable | by eapply first_durable]. }
  apply bind_Ret in Hr as (_ & _ & Hr). set (alloc := match data with Some _ => _ | _ => _ end) in Hr.
  destruct alloc as [to s2] eqn:Halloc.
  assert (Hs2 : application_stores s2 = application_stores s1)
    by (subst alloc; destruct data; by injection Halloc as <- <-).
  apply bind_Ret in Hr as ([res t] & Hl & Hr). apply bind_Ret in Hr as (resp & _ & [= _ <-]).
  etrans; [exact Hkeep|]. etrans; [by apply same_stores_keep, Hs2|].
  apply (put_keeps n _ _ x); [by rewrite Hs2|].
  set (e := transaction_rollback engine tx e1) in *.
  apply (store_keeps_trans n _ (set_context e x)).
  - apply context_keeps. subst e. by rewrite rollback_durable.
  - apply table_keeps_store; [done|]. by eapply range_check_and_set_keeps.
Qed.

Lemma server_step_keeps (n : Z) (s s' : server) : server_step n s s' -> server_keeps n s s'.
Proof.
  intros [app r Hr|now app name key w r Hr|now app name key r Hr|cs r Hr|app name key Hr
    |app name from to Hr|Hr].
  - unfold gzochi_metad_dataserver_reserve_oids in Hr.
    destruct (ensure_open_application_store initialize app s) as [x s1] eqn:Hx.
    destruct (ensure_keeps n _ _ _ _ Hx) as [Hkeep Hlook].
    apply bind_Ret in Hr as ([[b|er] e] & He & Hr); [|done]. injection Hr as _ <-.
    etrans; [exact Hkeep|]. apply (put_keeps n _ _ x); [done|]. intros Hinv.
    split; [by destruct Hinv|]. intros m st k w' _ Hst Hk. split; [by destruct st|].
    by eapply allocate_keeps.
  - by eapply request_value_keeps.
  - by eapply request_next_key_keeps.
  - by eapply process_changeset_keeps.
  - unfold gzochi_metad_dataserver_release_key in Hr.
    destruct (ensure_open_application_store initialize app s) as [x s1] eqn:Hx.
    destruct (ensure_keeps n _ _ _ _ Hx) as [Hkeep Hlook].
    destruct (get_lockable_store name) as [st|er] eqn:Hst; [|by injection Hr as <-].
    apply bind_Ret in Hr as (t & Ht & [= <-]). etrans; [exact Hkeep|].
    apply (put_keeps n _ _ x); [done|]. apply table_keeps_store; [by eapply get_lockable|].
    by eapply release_keeps.
  - unfold gzochi_metad_dataserver_release_range in Hr.
    destruct (ensure_open_application_store initialize app s) as [x s1] eqn:Hx.
    destruct (ensure_keeps n _ _ _ _ Hx) as [Hkeep Hlook].
    destruct (get_lockable_store name) as [st|er] eqn:Hst; [|by injection Hr as <-].
    apply bind_Ret in Hr as (t & Ht & [= <-]). etrans; [exact Hkeep|].
    apply (put_keeps n _ _ x); [done|]. apply table_keeps_store; [by eapply get_lockable|].
    by eapply release_range_keeps.
  - by apply release_all_server_keeps.
Qed.

Definition reachable (s : server) : Prop :=
  rtc (fun s s' => exists n, server_step n s s') gzochi_metad_data_server_init s.

(** Any number of calls on behalf of other nodes. *)
Definition others_run (n : Z) : relation server :=
  rtc (fun s s' => exists m, m <> n /\ server_step m s s').

Lemma reachable_inv (s : server) : reachable s -> server_inv s.
Proof.
  revert s. apply rtc_ind_r; [intros app x; simpl; by rewrite lookup_empty|].
  intros s s' _ [n Hstep] Hs. by destruct (server_step_keeps n s s' Hstep Hs).
Qed.

Lemma others_keep (n : Z) (s s' : server) (app : bytes) (st : store) (k : bytes) (w : bool) :
  others_run n s s' -> server_inv s -> lockable st -> node_holds s n app st k w ->
  server_inv s' /\ node_holds s' n app st k w /\ committed_value s' app st k = committed_value s app st k.
Proof.
  intros Hrun Hs Hst Hk. induction Hrun as [s|s s1 s2 (m & Hm & Hstep) _ IH]; [done|].
  destruct (server_step_keeps m s s1 Hstep Hs) as [Hs1 Hkeep].
  destruct (Hkeep n app st k w (not_eq_sym Hm) Hst Hk) as [Hk1 E1].
  destruct (IH Hs1 Hk1) as (Hs2 & Hk2 & E2). split_and!; [done|done|congruence].
Qed.

(** A lock that is granted is held. *)
Lemma granted_holds now t n key w ts t' :
  lock_inv t -> gzochid_lock_check_and_set now t n key w = Ret ((true, ts), t') ->
  exists w', holds t' n (gb_data key) w' /\ (w' = true \/ w = false).
Proof.
  intros Ht Hr.
  destruct (check_and_set_cases now t n key w Ht)
    as [[H Hh]|[(ts' & _ & H)|(_ & t1 & Hl & H)]]; rewrite H in Hr.
  - by injection Hr as _ <-.
  - by injection Hr as [=].
  - assert (Hk1 : holds t1 n (gb_data key) w) by (apply (locked_holds _ _ _ _ _ _ Hl); by rewrite decide_True).
    destruct w; [|injection Hr as _ <-; eauto].
    apply bind_Ret in Hr as ([rl|] & _ & Hr); [by injection Hr as [=]|injection Hr as _ <-; eauto].
Qed.

Lemma set_table_of (st : store) (t : gzochid_lock_table) (x : app_store) :
  lockable st -> table_of st (set_table st t x) = t.
Proof. by intros [-> | ->]. Qed.

Lemma request_value_success now n app name st key w s resp s1 data :
  server_inv s -> get_lockable_store name = inl st ->
  gzochi_metad_dataserver_request_value engine initialize unset now n app name key w s
    = Ret (inl resp, s1) ->
  body resp = Success data ->
  (exists w', node_holds s1 n app st (gb_data key) w' /\ (w' = true \/ w = false))
  /\ forall d, data = Some d -> committed_value s1 app st (gb_data key) = Some d.
Proof.
  intros Hs Hst Hr Hbody. unfold gzochi_metad_dataserver_request_value in Hr. rewrite Hst in Hr.
  apply get_lockable in Hst.
  destruct (ensure_open_application_store initialize app s) as [x s0] eqn:Hx.
  destruct (ensure_keeps n _ _ _ _ Hx) as [Hkeep Hlook]. destruct (Hkeep Hs) as [Hs0 _].
  pose proof (Hs0 _ _ Hlook) as Hinv.
  apply bind_Ret in Hr as ([[ok ts] t] & Hl & Hr). cbn [fst] in Hr.
  destruct ok; [|apply bind_Ret in Hr as (r & [= <-] & [= <- <-]); done].
  destruct (granted_holds _ _ _ _ _ _ _ (table_of_inv st x Hinv) Hl) as (w' & Hw & Hmode).
  destruct (transaction_begin engine _) as [tr e0] eqn:Hbegin.
  apply bind_Ret in Hr as (tx & ->%deref_Ret & Hr).
  destruct (transaction_get engine tx st (gb_data key) e0) as [v e1] eqn:Hget.
  apply bind_Ret in Hr as (r & Hresp & [= <- <-]).
  assert (Hv : data = v).
  { destruct v; simpl in Hresp; injection Hresp as <-; cbn [body] in Hbody; congruence. }
  subst data. split.
  - exists w'. split; [|done]. eexists. split; [simpl; by rewrite lookup_insert_eq|].
    replace (table_of st _) with t; [done|]. by destruct Hst as [-> | ->].
  - intros d ->. unfold committed_value. simpl. rewrite lookup_insert_eq. simpl.
    rewrite rollback_durable, (get_durable _ _ _ _ _ _ Hget).
    destruct (tx_rollback engine tx e1) eqn:Hr1; [by pose proof (get_failed _ _ _ _ _ _ Hget Hr1)|].
    destruct (get_value _ _ _ _ _ _ Hget Hr1) as [Hval _].
    assert (Hr0 : tx_rollback engine tx e0 = false).
    { destruct (tx_rollback engine tx e0) eqn:Hr0; [|done].
      by rewrite (get_sticky _ _ _ _ _ _ Hget Hr0) in Hr1. }
    rewrite (begin_view _ _ _ Hbegin Hr0) in Hval. by rewrite (begin_durable _ _ _ Hbegin).
Qed.

(** C5. A value that is lent stays current.  When the data server, in any state it can
    reach, answers a node's request for a key with a value, then the node holds the
    lock it asked for; and whatever the server does for other nodes afterwards, the
    node still holds it, the value is still what is committed under the key and, if
    the lock is for writing, no other node holds a lock on the key. *)
Theorem lent_value_current (now : timeval) (n : Z) (app name : bytes) (st : store) (key : gbytes)
    (w : bool) (s s1 s2 : server) (resp : gzochid_data_response) (d : bytes)
    (Hs : reachable s)
    (Hst : get_lockable_store name = inl st)
    (Hreq : gzochi_metad_dataserver_request_value engine initialize unset now n app name key w s
            = Ret (inl resp, s1))
    (Hbody : body resp = Success (Some d))
    (Hrun : others_run n s1 s2) :
  (exists w', node_holds s2 n app st (gb_data key) w' /\ (w' = true \/ w = false))
  /\ committed_value s2 app st (gb_data key) = Some d
  /\ (w = true -> forall m w', node_holds s2 m app st (gb_data key) w' -> m = n).
Proof.
  pose proof (reachable_inv s Hs) as Hinv.
  destruct (request_value_success _ _ _ _ _ _ _ _ _ _ _ Hinv Hst Hreq Hbody) as [(w' & Hw & Hmode) Hd].
  destruct (request_value_keeps _ _ _ _ _ _ _ _ _ Hreq Hinv) as [Hs1 _].
  destruct (others_keep n s1 s2 app st (gb_data key) w' Hrun Hs1 (get_lockable _ _ Hst) Hw)
    as (Hs2 & Hw2 & Hval). split_and!; [by exists w'|rewrite Hval; by apply Hd|].
  intros -> m wm (x & Hx & Hm). destruct Hmode as [-> | [=]]. destruct Hw2 as (x' & Hx' & Hn).
  simplify_eq. eapply write_excludes; [by apply table_of_inv; by eapply Hs2|exact Hn|exact Hm].
Qed.

(** C6. A change set is committed whole or not at all, and only under locks.  The
    server always has an answer to a change set as the protocol delivers it, if the
    engine opens a transaction.  Without an error, the node holds every changed key
    for writing and what is committed for the application is the result of the
    changes, in order; with an error, nothing that is committed changes.  Locks and
    other applications stay. *)
Theorem changeset_atomic (n : Z) (cs : gzochid_data_changeset) (s : server)
    (Hs : reachable s)
    (Hbegin : forall e, is_Some (transaction_begin engine e).1)
    (Hok : Forall change_ok (changes cs)) :
  exists err s' x e,
    gzochi_metad_dataserver_process_changeset engine initialize n cs s = Ret (err, s')
    /\ (ensure_open_application_store initialize (changeset_app cs) s).1 = x
    /\ application_stores s' !! changeset_app cs = Some (set_context e x)
    /\ (forall app, app <> changeset_app cs -> application_stores s' !! app = application_stores s !! app)
    /\ match err with
       | Some _ => durable e = durable (storage_context x)
       | None => Forall (change_locked n x) (changes cs)
           /\ durable e = foldl apply_change (durable (storage_context x)) (changes cs)
       end.
Proof.
  pose proof (reachable_inv s Hs) as Hinv.
  destruct (ensure_open_application_store initialize (changeset_app cs) s) as [x s1] eqn:Hx.
  destruct (ensure_keeps n _ _ _ _ Hx) as [Hkeep Hlook]. destruct (Hkeep Hinv) as [Hs1 _].
  assert (Hret : exists err s', gzochi_metad_dataserver_process_changeset engine initialize n cs s
    = Ret (err, s')).
  { unfold gzochi_metad_dataserver_process_changeset. rewrite Hx.
    destruct (Hbegin (storage_context x)) as [t Ht].
    destruct (transaction_begin engine (storage_context x)) as [tr e0]. simpl in Ht. subst tr.
    cbn [mbind outcome_bind deref].
    destruct (process_changes_returns n x t (Hs1 _ _ Hlook) _ e0 Hok) as (err & e1 & ->).
    cbn [mbind outcome_bind]. destruct err; [eauto|].
    destruct (tx_rollback engine t _); eauto. }
  destruct Hret as (err & s' & Hr).
  destruct (process_changeset_spec n cs s s1 s' x err Hinv Hx Hr) as (e & -> & He).
  eexists err, _, x, e. split_and!; [done|done|simpl; by rewrite lookup_insert_eq| |done].
  intros app Happ. simpl. rewrite lookup_insert_ne by done.
  unfold ensure_open_application_store in Hx. destruct (application_stores s !! changeset_app cs).
  - by injection Hx as _ <-.
  - injection Hx as _ <-. simpl. by rewrite lookup_insert_ne.
Qed.

End coherence.

(** An application with one name; node 1 asks for it, then node 2 does. *)
Definition sample_init (app : bytes) : map_engine_state := MapEngine {[ (Names, [107; 0]) := [9] ]} ∅.

Abbreviation sample_request := (gzochi_metad_dataserver_request_value map_engine sample_init 0
  (Timeval 5 0)).

Definition sample_after (n : Z) (s : GzochiMetadDataServer map_engine_state)
  : GzochiMetadDataServer map_engine_state :=
  match sample_request n [97; 0] names_name (GBytes 1 [107; 0]) true s with
  | Ret (_, s) => s
  | _ => s
  end.

Abbreviation sample_start := (gzochi_metad_data_server_init (E := map_engine_state)).

Lemma lent_value_current_witness :
  committed_value (durable := committed) (sample_after 2 (sample_after 1 sample_start))
    [97; 0] Names [107; 0] = Some [9]
  /\ forall m w, node_holds (sample_after 2 (sample_after 1 sample_start)) m [97; 0] Names [107; 0] w ->
     m = 1.
Proof.
  destruct (lent_value_current (engine := map_engine) (view := map_view) (durable := committed)
    (initialize := sample_init) (big_endian := false) (unset := 0) (Timeval 5 0) 1 [97; 0] names_name
    Names (GBytes 1 [107; 0]) true sample_start (sample_after 1 sample_start)
    (sample_after 2 (sample_after 1 sample_start)) (DataResponse [97; 0] names_name (Success (Some [9]))) [9])
    as (_ & H1 & H2).
  - apply rtc_refl.
  - reflexivity.
  - vm_compute. reflexivity.
  - reflexivity.
  - apply rtc_once. exists 2. split; [done|].
    eapply (StepValue 2 _ _ (Timeval 5 0) [97; 0] names_name (GBytes 1 [107; 0]) true).
    vm_compute. reflexivity.
  - split; [exact H1|]. intros m w. apply (H2 eq_refl).
Defined.

(** Node 1 removes the name and writes an object it does not have the lock of. *)
Definition sample_changes : gzochid_data_changeset :=
  DataChangeset [97; 0] [DataChange (Some names_name) true (Some [107; 0]) None;
                         DataChange (Some oids_name) false (Some [1; 0]) (Some [4])].

Lemma changeset_atomic_witness :
  exists err s' x e,
    gzochi_metad_dataserver_process_changeset map_engine sample_init 1 sample_changes
      (sample_after 1 sample_start) = Ret (err, s')
    /\ (ensure_open_application_store sample_init [97; 0] (sample_after 1 sample_start)).1 = x
    /\ application_stores s' !! [97; 0] = Some (set_context e x)
    /\ (forall app, app <> [97; 0] ->
          application_stores s' !! app = application_stores (sample_after 1 sample_start) !! app)
    /\ match err with
       | Some _ => committed e = committed (storage_context x)
       | None => Forall (change_locked 1 x) (changes sample_changes)
           /\ committed e = foldl apply_change (committed (storage_context x)) (changes sample_changes)
       end.
Proof.
  apply (changeset_atomic (engine := map_engine) (view := map_view) (durable := committed)
    (initialize := sample_init) (big_endian := false) (unset := 0) 1 sample_changes
    (sample_after 1 sample_start)).
  - apply rtc_once. exists 1.
    eapply (StepValue 1 _ _ (Timeval 5 0) [97; 0] names_name (GBytes 1 [107; 0]) true).
    vm_compute. reflexivity.
  - intros e. by eexists.
  - repeat constructor; cbn; try done; try (by eexists); eexists; (split; [done|]); by eexists.
Defined.
