(* ===== verification/DataServerProtocol.v ===== *)
(** * The protocol of the data server (dataserver-protocol.c)

    How the requests of an application node on its connection become calls of the
    data server, and how the answers are sent.  The protocol's client is the node's id
    and its socket.  The time of a request is given by the number of [GBytes] that
    were created before it, of which each request that asks for the time creates
    one.  The result of a handler, which its caller ignores, says whether the message
    was well-formed and the request was served. *)

From S2P Require Import Prelude.
From S2P Require Import Io.
From S2P Require Import Util.
From S2P Require Import DataProtocol.
From S2P Require Import LockMem.
From S2P Require Import Storage.
From S2P Require Import Oids.
From S2P Require Import Socket.
From S2P Require Import Framing.
From S2P Require Import MetaProtocol.
From S2P Require Import DataServer.

Local Open Scope Z_scope.

(** The name of an application and that of a store at the front of a message: where
    the rest of the message starts and how long it is. *)
Definition read_app_and_store (data : bytes) (len : Z)
  : outcome (option (bytes * bytes * Z * Z)) :=
  r ← gzochid_protocol_read_str data len;
  match r with
  | None => Ret None
  | Some (app, str_len) =>
      if str_len <=? 1 then Ret None
      else
        let len := u16 (len - str_len) in
        let offset := str_len in
        r ← gzochid_protocol_read_str (drop (Z.to_nat offset) data) len;
        match r with
        | None => Ret None
        | Some (store, str_len) =>
            if str_len <=? 1 then Ret None
            else Ret (Some (app, store, offset + str_len, u16 (len - str_len)))
        end
  end.

(** The response with room for its length, and its opcode, in front. *)
Definition respond (sock : positive) (opcode : Z) (response : bytes) (t : sockets)
  : outcome sockets :=
  let arr := [0; 0; opcode] ++ response in
  arr ← gzochi_common_io_write_short (s16 (Z.of_nat (length arr) - 3)) arr 0;
  gzochid_client_socket_write sock arr (Z.of_nat (length arr)) t.

Section protocol.

Context {E T : Type}.
Variable engine : gzochid_storage_engine_interface E T.
Variable initialize : bytes -> E.
Variable big_endian : bool.
Variable unset : Z.
Variable clock : positive -> timeval.

Record gzochi_metad_dataserver_client := DataServerClient { node_id : Z; sock : positive }.

Abbreviation world := (GzochiMetadDataServer E * sockets)%type.

Definition dispatch_request_oids (client : gzochi_metad_dataserver_client) (data : bytes) (len : Z)
    (w : world) : outcome (bool * world) :=
  r ← gzochid_protocol_read_str data len;
  match r with
  | None => Ret (false, w)
  | Some (app, str_len) =>
      if str_len <=? 1 then Ret (false, w)
      else
        '(response, s) ← gzochi_metad_dataserver_reserve_oids engine initialize big_endian app w.1;
        b ← gzochid_data_protocol_reserve_oids_response_write response [];
        t ← respond (sock client) GZOCHID_DATA_PROTOCOL_OIDS_RESPONSE b w.2;
        Ret (true, (s, t))
  end.

(** The call for a value, at the time of the clock. *)
Definition request_value (client : gzochi_metad_dataserver_client) (app store : bytes)
    (for_write : bool) (key : bytes) (s : GzochiMetadDataServer E)
  : outcome ((gzochid_data_response + dataserver_error) * GzochiMetadDataServer E) :=
  let now := clock (next_gbytes s) in
  let '(key, s) := new_gbytes key s in
  gzochi_metad_dataserver_request_value engine initialize unset now (node_id client) app store key
    for_write s.

Definition dispatch_request_value (client : gzochi_metad_dataserver_client) (data : bytes) (len : Z)
    (w : world) : outcome (bool * world) :=
  r ← read_app_and_store data len;
  match r with
  | None => Ret (false, w)
  | Some (app, store, offset, len) =>
      if len <=? 0 then Ret (false, w)
      else
        flag ← read_at data offset;
        let for_write := flag =? 1 in
        let len := len - 1 in
        let offset := offset + 1 in
        k ← gzochid_protocol_read_bytes (drop (Z.to_nat offset) data) len;
        match k with
        | None => Ret (false, w)
        | Some k =>
            '(response, s) ← request_value client app store for_write k w.1;
            match response with
            | inr _ => Ret (false, (s, w.2))
            | inl response =>
                b ← gzochid_data_protocol_response_write big_endian response [];
                t ← respond (sock client) GZOCHID_DATA_PROTOCOL_VALUE_RESPONSE b w.2;
                Ret (true, (s, t))
            end
        end
  end.

(** An empty key stands for the start of the key space. *)
Definition key_bound (key : gbytes) : option gbytes :=
  if Z.of_nat (length (gb_data key)) =? 0 then None else Some key.

Definition request_next_key (client : gzochi_metad_dataserver_client) (app store : bytes)
    (key : bytes) (s : GzochiMetadDataServer E)
  : outcome ((gzochid_data_response + dataserver_error) * GzochiMetadDataServer E) :=
  let now := clock (next_gbytes s) in
  let '(key, s) := new_gbytes key s in
  gzochi_metad_dataserver_request_next_key engine initialize unset now (node_id client) app store
    (key_bound key) s.

Definition dispatch_request_next_key (client : gzochi_metad_dataserver_client) (data : bytes)
    (len : Z) (w : world) : outcome (bool * world) :=
  r ← read_app_and_store data len;
  match r with
  | None => Ret (false, w)
  | Some (app, store, offset, len) =>
      k ← gzochid_protocol_read_bytes (drop (Z.to_nat offset) data) len;
      match k with
      | None => Ret (false, w)
      | Some k =>
          '(response, s) ← request_next_key client app store k w.1;
          match response with
          | inr _ => Ret (false, (s, w.2))
          | inl response =>
              b ← gzochid_data_protocol_response_write big_endian response [];
              t ← respond (sock client) GZOCHID_DATA_PROTOCOL_NEXT_KEY_RESPONSE b w.2;
              Ret (true, (s, t))
          end
      end
  end.

Definition dispatch_submit_changeset (client : gzochi_metad_dataserver_client) (data : bytes)
    (len : Z) (w : world) : outcome (bool * world) :=
  bytes ← memcpy_from data len;
  changeset ← gzochid_data_protocol_changeset_read bytes;
  match changeset with
  | None => Ret (false, w)
  | Some changeset =>
      '(err, s) ← gzochi_metad_dataserver_process_changeset engine initialize (node_id client)
                    changeset w.1;
      Ret (bool_decide (err = None), (s, w.2))
  end.

Definition dispatch_release_key (client : gzochi_metad_dataserver_client) (data : bytes) (len : Z)
    (w : world) : outcome (bool * world) :=
  r ← read_app_and_store data len;
  match r with
  | None => Ret (false, w)
  | Some (app, store, offset, len) =>
      k ← gzochid_protocol_read_bytes (drop (Z.to_nat offset) data) len;
      match k with
      | None => Ret (false, w)
      | Some k =>
          let '(key, s) := new_gbytes k w.1 in
          s ← gzochi_metad_dataserver_release_key initialize (node_id client) app store key s;
          Ret (true, (s, w.2))
      end
  end.

Definition dispatch_release_key_range (client : gzochi_metad_dataserver_client) (data : bytes)
    (len : Z) (w : world) : outcome (bool * world) :=
  r ← read_app_and_store data len;
  match r with
  | None => Ret (false, w)
  | Some (app, store, offset, len) =>
      from ← gzochid_protocol_read_bytes (drop (Z.to_nat offset) data) len;
      match from with
      | None => Ret (false, w)
      | Some from =>
          let len := u16 (len - (2 + Z.of_nat (length from))) in
          let offset := offset + (2 + Z.of_nat (length from)) in
          to ← gzochid_protocol_read_bytes (drop (Z.to_nat offset) data) len;
          match to with
          | None => Ret (false, w)
          | Some to =>
              let '(from, s) := new_gbytes from w.1 in
              let '(to, s) := new_gbytes to s in
              s ← gzochi_metad_dataserver_release_range initialize (node_id client) app store
                    (key_bound from) (key_bound to) s;
              Ret (true, (s, w.2))
          end
      end
  end.

Definition dispatch_payload (client : gzochi_metad_dataserver_client) (opcode : Z) (payload : bytes)
    (len : Z) (w : world) : outcome world :=
  if opcode =? GZOCHID_DATA_PROTOCOL_REQUEST_OIDS
  then '(_, w) ← dispatch_request_oids client payload len w; Ret w
  else if opcode =? GZOCHID_DATA_PROTOCOL_REQUEST_VALUE
  then '(_, w) ← dispatch_request_value client payload len w; Ret w
  else if opcode =? GZOCHID_DATA_PROTOCOL_REQUEST_NEXT_KEY
  then '(_, w) ← dispatch_request_next_key client payload len w; Ret w
  else if opcode =? GZOCHID_DATA_PROTOCOL_SUBMIT_CHANGESET
  then '(_, w) ← dispatch_submit_changeset client payload len w; Ret w
  else if opcode =? GZOCHID_DATA_PROTOCOL_RELEASE_KEY
  then '(_, w) ← dispatch_release_key client payload len w; Ret w
  else if opcode =? GZOCHID_DATA_PROTOCOL_RELEASE_KEY_RANGE
  then '(_, w) ← dispatch_release_key_range client payload len w; Ret w
  else Ret w.

Definition dispatch_message (client : gzochi_metad_dataserver_client)
  : bytes -> Z -> world -> outcome world :=
  dispatch_opcode (dispatch_payload client).

Definition can_dispatch (buffer : bytes) (w : world) : outcome bool := frame_ready buffer.

Definition client_dispatch (client : gzochi_metad_dataserver_client) (buffer : bytes) (w : world)
  : outcome (Z * world) :=
  dispatch_frames (fun buffer offset => dispatch_message client (drop (Z.to_nat offset) buffer))
    buffer w.

(** The locks of a node whose connection fails are released. *)
Definition client_error (client : gzochi_metad_dataserver_client) (w : world) : outcome world :=
  s ← gzochi_metad_dataserver_release_all (node_id client) w.1;
  Ret (s, w.2).

Definition gzochi_metad_dataserver_client_protocol (client : gzochi_metad_dataserver_client)
  : gzochid_client_protocol world :=
  ClientProtocol can_dispatch (client_dispatch client) (client_error client) Ret.

End protocol.

(** ** The protocol keeps to its messages *)

Lemma read_app_and_store_bound (m : bytes) (len : Z) app store off l :
  len < 2 ^ 16 -> read_app_and_store m len = Ret (Some (app, store, off, l)) ->
  0 <= off /\ off + l = len /\ 0 <= l.
Proof.
  intros Hlen (r & Hr & H)%bind_Ret. destruct r as [[app' n1]|]; [|done].
  apply read_str_bound in Hr as Hb1. destruct (Z.leb_spec n1 1); [done|].
  rewrite (unsigned_small 16) in H by (unfold in_unsigned; lia).
  apply bind_Ret in H as (r2 & Hr2 & H). destruct r2 as [[store' n2]|]; [|done].
  apply read_str_bound in Hr2 as Hb2. destruct (Z.leb_spec n2 1); [done|].
  rewrite (unsigned_small 16) in H by (unfold in_unsigned; lia).
  injection H as <- <- <- <-. lia.
Qed.

Lemma read_app_and_store_local (m post : bytes) (len : Z) :
  len <= Z.of_nat (length m) -> len < 2 ^ 16 ->
  read_app_and_store (m ++ post) len = read_app_and_store m len.
Proof.
  intros Hlen Hmax. unfold read_app_and_store. rewrite read_str_local by done.
  destruct (gzochid_protocol_read_str m len) as [[[app n1]|]| | |] eqn:Hr; [|done..].
  apply read_str_bound in Hr. cbn [mbind outcome_bind].
  destruct (Z.leb_spec n1 1); [done|].
  rewrite (unsigned_small 16) by (unfold in_unsigned; lia).
  rewrite drop_app_le by lia. rewrite read_str_local; [done|]. rewrite length_drop. lia.
Qed.

Lemma read_bytes_bound (m : bytes) (len : Z) (b : bytes) :
  gzochid_protocol_read_bytes m len = Ret (Some b) -> 2 + Z.of_nat (length b) <= len.
Proof.
  unfold gzochid_protocol_read_bytes. destruct (Z.ltb_spec len 2); [done|].
  intros (prefix & _ & Hr)%bind_Ret.
  destruct (Z.ltb_spec (len - 2) (u64 prefix)); [done|].
  apply bind_Ret in Hr as (b' & Hb & [= <-]). unfold memcpy_from in Hb.
  destruct ((0 <=? u64 prefix) && _) eqn:Hc; [|done]. injection Hb as <-.
  apply andb_true_iff in Hc as [Hc1%Z.leb_le Hc2%Z.leb_le].
  rewrite length_take, length_drop in *. lia.
Qed.

Section framed.

Context {E T : Type} {engine : gzochid_storage_engine_interface E T}.
Context {initialize : bytes -> E} {big_endian : bool} {unset : Z} {clock : positive -> timeval}.

Abbreviation world := (GzochiMetadDataServer E * sockets)%type.

Lemma dataserver_dispatch_local (client : gzochi_metad_dataserver_client) :
  local_payload (dispatch_payload engine initialize big_endian unset clock client) (fun _ => True).
Proof.
  intros opcode payload post w _ Hlen. unfold dispatch_payload, dispatch_request_oids,
    dispatch_request_value, dispatch_request_next_key, dispatch_submit_changeset,
    dispatch_release_key, dispatch_release_key_range.
  rewrite read_str_local by lia. rewrite read_app_and_store_local by lia.
  rewrite memcpy_from_local by lia.
  destruct (opcode =? _); [done|].
  destruct (read_app_and_store payload (Z.of_nat (length payload)))
    as [[[[[app store] off] l]|]| | |] eqn:Hr; [|done..].
  apply read_app_and_store_bound in Hr as (H0 & Hsum & Hl); [|lia]. cbn [mbind outcome_bind].
  assert (Hbytes : forall k n, k = off \/ k = off + 1 -> n <= Z.of_nat (length payload) - k ->
    gzochid_protocol_read_bytes (drop (Z.to_nat k) (payload ++ post)) n
    = gzochid_protocol_read_bytes (drop (Z.to_nat k) payload) n).
  { intros k n Hk Hn. destruct (decide (k <= Z.of_nat (length payload))).
    - rewrite drop_app_le by lia. apply read_bytes_local. rewrite length_drop. lia.
    - unfold gzochid_protocol_read_bytes. destruct (Z.ltb_spec n 2); [done|lia]. }
  destruct (opcode =? _).
  { destruct (Z.leb_spec l 0); [done|]. rewrite read_at_local by lia.
    destruct (read_at payload off) as [flag| | |]; [|done..]. cbn [mbind outcome_bind].
    rewrite Hbytes by lia. done. }
  rewrite (Hbytes off l) by lia.
  destruct (opcode =? _); [done|]. destruct (opcode =? _); [done|].
  destruct (opcode =? _); [done|]. destruct (opcode =? _); [|done].
  destruct (gzochid_protocol_read_bytes (drop (Z.to_nat off) payload) l)
    as [[from|]| | |] eqn:Hfrom; [|done..].
  apply read_bytes_bound in Hfrom. cbn [mbind outcome_bind].
  rewrite drop_app_le by lia. rewrite read_bytes_local; [done|].
  rewrite length_drop, unsigned_small by (unfold in_unsigned; lia). lia.
Qed.

(** A call of the server, then something with its result. *)
Lemma blind_server {X A B} (op : X -> outcome (A * X)) (k : A -> X * sockets -> outcome (B * (X * sockets))) :
  (forall a, blind_with (k a)) -> blind_with (fun w => '(a, x) ← op w.1; k a (x, w.2)).
Proof.
  intros Hk. split.
  - intros p b [x t]. simpl. destruct (op x) as [[a x']| | |]; [|done..].
    destruct (Hk a) as [Hk1 _]. apply (Hk1 p b (x', t)).
  - intros p b [x t] a' w' ([a x'] & _ & Hw)%bind_Ret Hrecv. destruct (Hk a) as [_ Hk2].
    eapply (Hk2 p b (x', t)); [exact Hw|exact Hrecv].
Qed.

Lemma blind_respond {X B} (r : B) (sock : positive) (opcode : Z) (m : outcome bytes) :
  blind_with (W := X * sockets) (fun w => b ← m; t ← respond sock opcode b w.2; Ret (r, (w.1, t))).
Proof.
  apply blind_with_bind. intros response. unfold respond.
  set (arr0 := [0; 0; opcode] ++ response).
  destruct (gzochi_common_io_write_short _ arr0 0) as [arr| | |].
  2-4: by split.
  cbn [mbind outcome_bind].
  assert (Hb : blind (W := X * sockets) (fun w => t ← gzochid_client_socket_write sock arr
    (Z.of_nat (length arr)) w.2; Ret (w.1, t))).
  { apply (blind_part (fun _ => gzochid_client_socket_write sock arr (Z.of_nat (length arr)))).
    intros _. apply blind_write. }
  assert (Heq : forall w : X * sockets, (t ← gzochid_client_socket_write sock arr
      (Z.of_nat (length arr)) w.2; Ret (r, (w.1, t)))
    = (w ← (t ← gzochid_client_socket_write sock arr (Z.of_nat (length arr)) w.2; Ret (w.1, t)); Ret (r, w))).
  { intros w. by destruct (gzochid_client_socket_write sock arr _ w.2). }
  destruct (blind_with_after _ _ Hb (blind_with_ret r)) as [H1 H2].
  split; [intros p b w; rewrite !Heq; apply H1|intros p b w a w'; rewrite Heq; apply H2].
Qed.

(** A call without a result. *)
Lemma blind_silent {X B} (op : X -> outcome X) (r : B) :
  blind_with (W := X * sockets) (fun w => x ← op w.1; Ret (r, (x, w.2))).
Proof.
  split.
  - intros p b [x t]. simpl. by destruct (op x).
  - intros p b [x t] a w' (x' & _ & [= _ <-])%bind_Ret Hrecv. exact Hrecv.
Qed.

Lemma dataserver_dispatch_blind (client : gzochi_metad_dataserver_client) (opcode : Z)
    (payload : bytes) (len : Z) :
  blind (dispatch_payload engine initialize big_endian unset clock client opcode payload len).
Proof.
  unfold dispatch_payload.
  destruct (opcode =? _); [|destruct (opcode =? _); [|destruct (opcode =? _);
    [|destruct (opcode =? _); [|destruct (opcode =? _); [|destruct (opcode =? _); [|apply blind_ret]]]]]];
    apply blind_drop.
  - apply blind_with_bind. intros [[app n]|]; [|apply blind_with_ret].
    destruct (n <=? 1); [apply blind_with_ret|].
    apply (blind_server (gzochi_metad_dataserver_reserve_oids engine initialize big_endian app)
      (fun response w => b ← gzochid_data_protocol_reserve_oids_response_write response [];
         t ← respond (sock client) GZOCHID_DATA_PROTOCOL_OIDS_RESPONSE b w.2; Ret (true, (w.1, t)))).
    intros response. apply blind_respond.
  - apply blind_with_bind. intros [[[[app store] off] l]|]; [|apply blind_with_ret].
    destruct (l <=? 0); [apply blind_with_ret|]. apply blind_with_bind. intros flag.
    apply blind_with_bind. intros [k|]; [|apply blind_with_ret].
    apply (blind_server (request_value engine initialize unset clock client app store (flag =? 1) k)
      (fun response w => match response with
        | inr _ => Ret (false, (w.1, w.2))
        | inl response => b ← gzochid_data_protocol_response_write big_endian response [];
            t ← respond (sock client) GZOCHID_DATA_PROTOCOL_VALUE_RESPONSE b w.2; Ret (true, (w.1, t))
        end)).
    intros [response|]; [apply blind_respond|]. split; [done|]. by intros p b [s t] a w' [= _ <-].
  - apply blind_with_bind. intros [[[[app store] off] l]|]; [|apply blind_with_ret].
    apply blind_with_bind. intros [k|]; [|apply blind_with_ret].
    apply (blind_server (request_next_key engine initialize unset clock client app store k)
      (fun response w => match response with
        | inr _ => Ret (false, (w.1, w.2))
        | inl response => b ← gzochid_data_protocol_response_write big_endian response [];
            t ← respond (sock client) GZOCHID_DATA_PROTOCOL_NEXT_KEY_RESPONSE b w.2; Ret (true, (w.1, t))
        end)).
    intros [response|]; [apply blind_respond|]. split; [done|]. by intros p b [s t] a w' [= _ <-].
  - apply blind_with_bind. intros data. apply blind_with_bind. intros [cs|]; [|apply blind_with_ret].
    apply (blind_server (gzochi_metad_dataserver_process_changeset engine initialize (node_id client) cs)
      (fun err w => Ret (bool_decide (err = None), (w.1, w.2)))).
    intros err. split; [done|]. by intros p b [s t] a w' [= _ <-].
  - apply blind_with_bind. intros [[[[app store] off] l]|]; [|apply blind_with_ret].
    apply blind_with_bind. intros [k|]; [|apply blind_with_ret].
    apply (blind_silent (fun s => let '(key, s) := new_gbytes k s in
      gzochi_metad_dataserver_release_key initialize (node_id client) app store key s) true).
  - apply blind_with_bind. intros [[[[app store] off] l]|]; [|apply blind_with_ret].
    apply blind_with_bind. intros [from|]; [|apply blind_with_ret].
    apply blind_with_bind. intros [to|]; [|apply blind_with_ret].
    apply (blind_silent (fun s => let '(from, s) := new_gbytes from s in
      let '(to, s) := new_gbytes to s in
      gzochi_metad_dataserver_release_range initialize (node_id client) app store
        (key_bound from) (key_bound to) s) true).
Qed.

#[export] Instance dataserver_framed (client : gzochi_metad_dataserver_client) :
  FramedProtocol
    (gzochi_metad_dataserver_client_protocol engine initialize big_endian unset clock client)
    (fun buffer offset =>
       dispatch_message engine initialize big_endian unset clock client (drop (Z.to_nat offset) buffer))
    (fun m => dispatch_message engine initialize big_endian unset clock client m (Z.of_nat (length m)))
    (fun _ => True).
Proof.
  apply framed_by_opcode; [done|done|apply dataserver_dispatch_local|apply dataserver_dispatch_blind].
Qed.

End framed.

(** ** Requests for values *)

Lemma read_app_and_store_ok (a st rest : bytes) :
  nonzero a -> a <> [] -> nonzero st -> st <> [] ->
  Z.of_nat (length (a ++ [0] ++ st ++ [0] ++ rest)) < 2 ^ 16 ->
  read_app_and_store (a ++ [0] ++ st ++ [0] ++ rest) (Z.of_nat (length (a ++ [0] ++ st ++ [0] ++ rest)))
  = Ret (Some (a ++ [0], st ++ [0], Z.of_nat (length a) + 1 + (Z.of_nat (length st) + 1),
               Z.of_nat (length rest))).
Proof.
  intros Ha Ha0 Hs Hs0 Hlen.
  assert (0 < length a)%nat by (destruct a; simpl; [done|lia]).
  assert (0 < length st)%nat by (destruct st; simpl; [done|lia]).
  unfold read_app_and_store. cbn [app]. rewrite !length_app in *. cbn [length app] in *.
  rewrite !length_app in *. cbn [length] in *.
  rewrite read_str_ok by (done || lia). cbn [mbind outcome_bind].
  destruct (Z.leb_spec (Z.of_nat (length a) + 1) 1); [lia|].
  rewrite (unsigned_small 16) by (unfold in_unsigned; lia).
  rewrite drop_str by done. rewrite read_str_ok by (done || lia). cbn [mbind outcome_bind].
  destruct (Z.leb_spec (Z.of_nat (length st) + 1) 1); [lia|].
  rewrite (unsigned_small 16) by (unfold in_unsigned; lia). do 4 f_equal. lia.
Qed.

Lemma respond_ok (sock : positive) (opcode : Z) (m : bytes) (t : sockets) (sk : gzochid_client_socket) :
  t !! sock = Some sk -> sock_server sk = true ->
  respond sock opcode m t
  = Ret (<[sock := with_send (send_buffer sk ++ frame (opcode :: m)) true sk]> t).
Proof.
  intros Hsk Hserver. unfold respond.
  rewrite (be_write (BigEndian := short_codec)), (be_encode_signed 2) by lia.
  change ([0; 0; opcode] ++ m) with ([] ++ [0; 0] ++ (opcode :: m)).
  change 0 with (Z.of_nat (length (@nil Z))).
  rewrite write_at_app by (by rewrite be_encode_length). cbn [mbind outcome_bind app].
  set (buf := be_encode 2 _ ++ opcode :: m).
  assert (Hbuf : buf = frame (opcode :: m)) by (apply frame_prefix; cbn [length app]; lia).
  rewrite (write_ok sock buf t sk) by done. by rewrite Hbuf.
Qed.

Definition value_request (a st key : bytes) (for_write : bool) : bytes :=
  GZOCHID_DATA_PROTOCOL_REQUEST_VALUE :: a ++ [0] ++ st ++ [0]
    ++ (if for_write then 1 else 0) :: be_encode 2 (Z.of_nat (length key)) ++ key.

Section values.

Context {E T : Type} {engine : gzochid_storage_engine_interface E T}.
Context {initialize : bytes -> E} {unset : Z} {clock : positive -> timeval}.
Context (a st key : bytes) (for_write : bool).
Hypothesis Ha : nonzero a /\ bytes_ok a /\ a <> [].
Hypothesis Hst : nonzero st /\ bytes_ok st /\ st <> [].
Hypothesis Hkey : bytes_ok key.
Hypothesis Hlen : Z.of_nat (length a) + Z.of_nat (length st) + Z.of_nat (length key) < 2 ^ 15.

Lemma value_request_ok : message_ok (value_request a st key for_write).
Proof.
  destruct Ha as (_ & Hab & _), Hst as (_ & Hsb & _). unfold value_request. split; [|split].
  - constructor; [done|]. unfold bytes_ok in *.
    rewrite !Forall_app. split_and!; try done; try (repeat constructor; done).
    constructor; [by destruct for_write|]. apply Forall_app. split; [apply be_encode_ok|done].
  - cbn [length]. lia.
  - cbn [length]. rewrite !length_app. cbn [length]. rewrite !length_app, be_encode_length. cbn [length]. lia.
Qed.

Lemma dispatch_value_request be (client : gzochi_metad_dataserver_client) (s : GzochiMetadDataServer E)
    (t : sockets) :
  dispatch_message engine initialize be unset clock client (value_request a st key for_write)
    (Z.of_nat (length (value_request a st key for_write))) (s, t)
  = ('(response, s) ← request_value engine initialize unset clock client (a ++ [0]) (st ++ [0])
       for_write key s;
     match response with
     | inr _ => Ret (s, t)
     | inl response =>
         b ← gzochid_data_protocol_response_write be response [];
         t ← respond (sock client) GZOCHID_DATA_PROTOCOL_VALUE_RESPONSE b t; Ret (s, t)
     end).
Proof.
  pose proof value_request_ok as (_ & _ & Hmax). unfold value_request in Hmax. cbn [length] in Hmax.
  destruct Ha as (Hnz & _ & Hne), Hst as (Hsz & _ & Hse).
  unfold dispatch_message, value_request. rewrite dispatch_opcode_cons by lia.
  unfold dispatch_payload. choose_branch. unfold dispatch_request_value.
  rewrite read_app_and_store_ok by (done || lia). cbn [mbind outcome_bind].
  set (flag := if for_write then 1 else 0). set (rest := be_encode 2 (Z.of_nat (length key)) ++ key).
  set (pre := a ++ [0] ++ st ++ [0]).
  replace (a ++ [0] ++ st ++ [0] ++ flag :: rest) with (pre ++ flag :: rest)
    by (unfold pre; by rewrite <- !app_assoc).
  replace (Z.of_nat (length a) + 1 + (Z.of_nat (length st) + 1)) with (Z.of_nat (length pre))
    by (unfold pre; len).
  destruct (Z.leb_spec (Z.of_nat (length (flag :: rest))) 0); [cbn [length] in *; lia|].
  rewrite read_at_app. cbn [mbind outcome_bind].
  change (flag :: rest) with ([flag] ++ rest). rewrite app_assoc, drop_app_length' by len.
  assert (Hread : gzochid_protocol_read_bytes rest (Z.of_nat (length ([flag] ++ rest)) - 1)
    = Ret (Some key)).
  { pose proof (read_bytes_ok key [] (Z.of_nat (length ([flag] ++ rest)) - 1)) as H1.
    rewrite app_nil_r, (be_encode_signed 2) in H1 by lia. apply H1; unfold rest; [lia|len]. }
  rewrite Hread. cbn [mbind outcome_bind fst snd].
  replace (flag =? 1) with for_write by (by unfold flag; destruct for_write).
  destruct (request_value engine initialize unset clock client (a ++ [0]) (st ++ [0]) for_write key s)
    as [[[response|err] s1]| | |]; [|done..].
  cbn [mbind outcome_bind]. destruct (gzochid_data_protocol_response_write be response []) as [b| | |];
    [|done..].
  cbn [mbind outcome_bind]. by destruct (respond (sock client) _ b t).
Qed.

(** The response names what was asked for. *)
Lemma request_value_names (client : gzochi_metad_dataserver_client) (app name : bytes)
    (s s1 : GzochiMetadDataServer E) resp :
  request_value engine initialize unset clock client app name for_write key s = Ret (inl resp, s1) ->
  exists b, resp = DataResponse app name b.
Proof.
  unfold request_value, gzochi_metad_dataserver_request_value. cbn [new_gbytes].
  destruct (ensure_open_application_store initialize app _) as [x s0].
  destruct (get_lockable_store name) as [sto|]; [|done].
  intros ([[ok ts] tb] & _ & Hr)%bind_Ret. destruct ok; cbn [fst] in Hr.
  - destruct (transaction_begin engine _) as [tr e0]. apply bind_Ret in Hr as (tx & _ & Hr).
    destruct (transaction_get engine tx sto _ e0) as [v e1].
    apply bind_Ret in Hr as (r & Hresp & [= <- _]). destruct v; injection Hresp as <-; by eexists.
  - apply bind_Ret in Hr as (r & [= <-] & [= <- _]). by eexists.
Qed.

(** For a node's request the data server is asked once, for that application, store, key
    and mode; and if it has a response, then exactly one message, with that response, is
    written to the node's socket. *)
Lemma value_request_responds (client : gzochi_metad_dataserver_client)
    (s s1 : GzochiMetadDataServer E) (t : sockets) (sk : gzochid_client_socket)
    (resp : gzochid_data_response) (msg : bytes) :
  t !! sock client = Some sk -> sock_server sk = true ->
  request_value engine initialize unset clock client (a ++ [0]) (st ++ [0]) for_write key s
    = Ret (inl resp, s1) ->
  gzochid_data_protocol_response_write false resp [] = Ret msg ->
  dispatch_message engine initialize false unset clock client (value_request a st key for_write)
    (Z.of_nat (length (value_request a st key for_write))) (s, t)
  = Ret (s1, <[sock client := with_send (send_buffer sk
                 ++ frame (GZOCHID_DATA_PROTOCOL_VALUE_RESPONSE :: msg)) true sk]> t).
Proof.
  intros Hsk Hserver Hreq Hwrite. rewrite dispatch_value_request, Hreq. cbn [mbind outcome_bind].
  rewrite Hwrite. cbn [mbind outcome_bind]. by rewrite (respond_ok _ _ _ _ sk).
Qed.

End values.
