(* ===== verification/MetaServer.v ===== *)
(** * The meta server's connections (metaserver-protocol.c)

    The meta server accepts connections from application nodes and numbers them.  A node
    logs in with the version of its protocol and the address of its administrative console;
    then the servers of channels and of sessions know it.  Everything else a node sends is
    routed to the component that it is for.  Events are appended to a list. *)

From S2P Require Import Prelude.
From S2P Require Import Io.
From S2P Require Import Util.
From S2P Require Import DataProtocol.
From S2P Require Import NodeMap.
From S2P Require Import LockMem.
From S2P Require Import Storage.
From S2P Require Import Socket.
From S2P Require Import Framing.
From S2P Require Import MetaProtocol.
From S2P Require Import Routing.
From S2P Require SessionServer.
From S2P Require ChannelServer.
From S2P Require Import DataServer.
From S2P Require Import DataServerProtocol.

Local Open Scope Z_scope.

(** ** State *)

Inductive client_event :=
| CLIENT_CONNECTED (node_id : Z) (connection_description : bytes) (admin_server_base_url : option bytes)
| CLIENT_DISCONNECTED (node_id : Z).

Record meta_world (E : Type) := MetaWorld {
  channelserver : ChannelServer.GzochiMetadChannelServer;
  sessionserver : SessionServer.GzochiMetadSessionServer;
  dataserver : GzochiMetadDataServer E;
  admin_server_base_url : bytes;
  event_source : list client_event;
  next_node_id : Z;
  meta_sockets : sockets
}.
Arguments MetaWorld {E}.
Arguments channelserver {E}.
Arguments sessionserver {E}.
Arguments dataserver {E}.
Arguments admin_server_base_url {E}.
Arguments event_source {E}.
Arguments next_node_id {E}.
Arguments meta_sockets {E}.

Section world.

Context {E : Type}.
Abbreviation world := (meta_world E).

#[export] Program Instance meta_world_sockets : HasSockets world :=
  {| sockets_of := meta_sockets;
     set_sockets t w := MetaWorld (channelserver w) (sessionserver w) (dataserver w)
       (admin_server_base_url w) (event_source w) (next_node_id w) t |}.
Solve All Obligations with (by intros; try done; by destruct w).

Definition set_channelserver x t (w : world) : world :=
  MetaWorld x (sessionserver w) (dataserver w) (admin_server_base_url w) (event_source w)
    (next_node_id w) t.
Definition set_sessionserver x t (w : world) : world :=
  MetaWorld (channelserver w) x (dataserver w) (admin_server_base_url w) (event_source w)
    (next_node_id w) t.
Definition set_dataserver x t (w : world) : world :=
  MetaWorld (channelserver w) (sessionserver w) x (admin_server_base_url w) (event_source w)
    (next_node_id w) t.
Definition gzochid_event_dispatch (e : client_event) (w : world) : world :=
  MetaWorld (channelserver w) (sessionserver w) (dataserver w) (admin_server_base_url w)
    (event_source w ++ [e]) (next_node_id w) (meta_sockets w).

#[export] Program Instance channelserver_part :
  Component world (ChannelServer.GzochiMetadChannelServer * sockets) :=
  {| part w := (channelserver w, meta_sockets w); set_part v w := set_channelserver v.1 v.2 w |}.
Solve All Obligations with (by intros; try done; by destruct v).

#[export] Program Instance sessionserver_part :
  Component world (SessionServer.GzochiMetadSessionServer * sockets) :=
  {| part w := (sessionserver w, meta_sockets w); set_part v w := set_sessionserver v.1 v.2 w |}.
Solve All Obligations with (by intros; try done; by destruct v).

#[export] Program Instance dataserver_part : Component world (GzochiMetadDataServer E * sockets) :=
  {| part w := (dataserver w, meta_sockets w); set_part v w := set_dataserver v.1 v.2 w |}.
Solve All Obligations with (by intros; try done; by destruct v).

End world.

(** ** Connections *)

Definition METASERVER_PROTOCOL_VERSION := 2.

(** The clients of the components are the node's id, for the data server with its socket. *)
Record gzochi_metad_metaserver_client := MetaServerClient { node_id : Z; sock : positive }.

Definition dataserver_client (client : gzochi_metad_metaserver_client) : gzochi_metad_dataserver_client :=
  DataServerClient (node_id client) (sock client).

Section metaserver.

Context {E T : Type}.
Variable engine : gzochid_storage_engine_interface E T.
Variable initialize : bytes -> E.
Variable big_endian : bool.
Variable unset : Z.
Variable clock : positive -> timeval.
Variable enumerate : gmap Z positive -> list (Z * positive).

Abbreviation world := (meta_world E).
Abbreviation client_t := gzochi_metad_metaserver_client.

(** The counter of node ids is an [int] that wraps; the id is an [unsigned int]. *)
Definition server_accept (desc : bytes) (w : world) : client_t * world :=
  let p := fresh (dom (meta_sockets w)) in
  (MetaServerClient (u32 (next_node_id w)) p,
   MetaWorld (channelserver w) (sessionserver w) (dataserver w) (admin_server_base_url w)
     (event_source w) (u32 (next_node_id w + 1)) (<[p := gzochid_client_socket_new desc]> (meta_sockets w))).

Definition can_dispatch (buffer : bytes) (w : world) : outcome bool := frame_ready buffer.

(** The response: two bytes for the length, the opcode, the version and the address. *)
Definition login_response (url : bytes) : outcome bytes :=
  n ← strlen url;
  arr ← byte_array_append [] [0; 0; GZOCHID_META_PROTOCOL_LOGIN_RESPONSE; METASERVER_PROTOCOL_VERSION] 4;
  arr ← byte_array_append arr url (n + 1);
  gzochi_common_io_write_short (s16 (Z.of_nat (length arr) - 3)) arr 0.

(** A well-formed log in.  Errors of the two servers are not looked at. *)
Definition login_node (client : client_t) (client_url : bytes) (str_len : Z) (conn_desc : bytes) (w : world)
  : outcome world :=
  let '(_, cs) := ChannelServer.gzochi_metad_channelserver_server_connected
                    (s32 (node_id client)) (sock client) (channelserver w) in
  let '(_, ss) := SessionServer.gzochi_metad_sessionserver_server_connected
                    (s32 (node_id client)) (sock client) (sessionserver w) in
  let w := set_sessionserver ss (meta_sockets w) (set_channelserver cs (meta_sockets w) w) in
  let w := gzochid_event_dispatch
             (CLIENT_CONNECTED (node_id client) conn_desc
                (if 1 <? str_len then Some client_url else None)) w in
  response ← login_response (admin_server_base_url w);
  t ← gzochid_client_socket_write (sock client) response (Z.of_nat (length response)) (meta_sockets w);
  Ret (set_sockets t w).

Definition dispatch_login (client : client_t) (data : bytes) (len : Z) (w : world)
  : outcome (bool * world) :=
  version ← read_at data 0;
  if negb (version =? METASERVER_PROTOCOL_VERSION) then Ret (false, w)
  else
    r ← gzochid_protocol_read_str (drop 1 data) (u64 (len - 1));
    match r with
    | None => Ret (false, w)
    | Some (client_admin_server_base_url, str_len) =>
        s ← deref (meta_sockets w !! sock client);
        w ← login_node client client_admin_server_base_url str_len (connection_description s) w;
        Ret (true, w)
    end.

Definition channel_opcode (opcode : Z) : bool :=
  (opcode =? GZOCHID_CHANNEL_PROTOCOL_RELAY_JOIN_FROM)
  || (opcode =? GZOCHID_CHANNEL_PROTOCOL_RELAY_LEAVE_FROM)
  || (opcode =? GZOCHID_CHANNEL_PROTOCOL_RELAY_CLOSE_FROM)
  || (opcode =? GZOCHID_CHANNEL_PROTOCOL_RELAY_MESSAGE_FROM).

Definition data_opcode (opcode : Z) : bool :=
  (opcode =? GZOCHID_DATA_PROTOCOL_REQUEST_OIDS)
  || (opcode =? GZOCHID_DATA_PROTOCOL_REQUEST_VALUE)
  || (opcode =? GZOCHID_DATA_PROTOCOL_REQUEST_NEXT_KEY)
  || (opcode =? GZOCHID_DATA_PROTOCOL_SUBMIT_CHANGESET)
  || (opcode =? GZOCHID_DATA_PROTOCOL_RELEASE_KEY)
  || (opcode =? GZOCHID_DATA_PROTOCOL_RELEASE_KEY_RANGE).

Definition session_opcode (opcode : Z) : bool :=
  (opcode =? GZOCHID_SESSION_PROTOCOL_SESSION_CONNECTED)
  || (opcode =? GZOCHID_SESSION_PROTOCOL_SESSION_DISCONNECTED)
  || (opcode =? GZOCHID_SESSION_PROTOCOL_RELAY_DISCONNECT_FROM)
  || (opcode =? GZOCHID_SESSION_PROTOCOL_RELAY_MESSAGE_FROM).

Abbreviation channel_protocol client :=
  (ChannelServer.gzochi_metad_channelserver_client_protocol big_endian enumerate (node_id client)).
Abbreviation data_protocol client :=
  (gzochi_metad_dataserver_client_protocol engine initialize big_endian unset clock (dataserver_client client)).
Abbreviation session_protocol client :=
  (SessionServer.gzochi_metad_sessionserver_client_protocol (node_id client)).

(** The body of the loop over the messages in the buffer. *)
Definition dispatch_message (client : client_t) (buffer : bytes) (offset len : Z) (w : world)
  : outcome world :=
  opcode ← read_at buffer offset;
  if opcode =? GZOCHID_META_PROTOCOL_LOGIN
  then '(_, w) ← dispatch_login client (drop (Z.to_nat (offset + 1)) buffer) (u16 (len - 1)) w; Ret w
  else if channel_opcode opcode
  then delegate (protocol_dispatch (channel_protocol client)) buffer offset len w
  else if data_opcode opcode
  then delegate (protocol_dispatch (data_protocol client)) buffer offset len w
  else if session_opcode opcode
  then delegate (protocol_dispatch (session_protocol client)) buffer offset len w
  else Ret w.

Definition client_dispatch (client : client_t) (buffer : bytes) (w : world) : outcome (Z * world) :=
  dispatch_frames (dispatch_message client) buffer w.

Definition client_error (client : client_t) (w : world) : outcome world :=
  let w := gzochid_event_dispatch (CLIENT_DISCONNECTED (node_id client)) w in
  w ← on_part (protocol_error (channel_protocol client)) w;
  w ← on_part (protocol_error (data_protocol client)) w;
  on_part (protocol_error (session_protocol client)) w.

Definition client_free (client : client_t) (w : world) : outcome world :=
  w ← on_part (protocol_free (channel_protocol client)) w;
  w ← on_part (protocol_free (data_protocol client)) w;
  on_part (protocol_free (session_protocol client)) w.

Definition gzochi_metad_metaserver_client_protocol (client : client_t) : gzochid_client_protocol world :=
  ClientProtocol can_dispatch (client_dispatch client) (client_error client) (client_free client).

(** ** What the router does with a message *)

(** Reading the version of an empty log in goes past the message. *)
Definition metaserver_readable (m : bytes) : Prop := m <> [GZOCHID_META_PROTOCOL_LOGIN].

(** The treatment of a message alone: each component's own. *)
Definition route (client : client_t) (m : bytes) (w : world) : outcome world :=
  let len := Z.of_nat (length m) in
  match m with
  | [] => Undef
  | opcode :: payload =>
      if opcode =? GZOCHID_META_PROTOCOL_LOGIN
      then '(_, w) ← dispatch_login client payload (Z.of_nat (length payload)) w; Ret w
      else if channel_opcode opcode
      then on_part (ChannelServer.dispatch_message big_endian enumerate (node_id client) m len) w
      else if data_opcode opcode
      then on_part (DataServerProtocol.dispatch_message engine initialize big_endian unset clock
                      (dataserver_client client) m len) w
      else if session_opcode opcode
      then on_part (SessionServer.dispatch_message (node_id client) m len) w
      else Ret w
  end.

End metaserver.

Arguments login_response : simpl never.

(** ** The protocol keeps to its messages *)

Section framed.

Context {E T : Type} {engine : gzochid_storage_engine_interface E T} {initialize : bytes -> E}.
Context {big_endian : bool} {unset : Z} {clock : positive -> timeval}.
Context {enumerate : gmap Z positive -> list (Z * positive)}.

Abbreviation world := (meta_world E).
Abbreviation protocol :=
  (gzochi_metad_metaserver_client_protocol engine initialize big_endian unset clock enumerate).
Abbreviation handle := (dispatch_message engine initialize big_endian unset clock enumerate).
Abbreviation routed := (route engine initialize big_endian unset clock enumerate).

(** Reading the description of a socket does not depend on what it received. *)
Lemma blind_description {A} (p : positive) (f : bytes -> world -> outcome (A * world)) :
  (forall d, blind_with (f d)) ->
  blind_with (fun w => s ← deref (meta_sockets w !! p); f (connection_description s) w).
Proof.
  intros Hf. split.
  - intros q b w. assert (Hd : connection_description <$> meta_sockets (set_recv q b w) !! p
                               = connection_description <$> meta_sockets w !! p).
    { cbn. destruct (decide (p = q)) as [->|Hne]; [rewrite lookup_alter_eq|by rewrite lookup_alter_ne].
      by destruct (meta_sockets w !! q). }
    destruct (meta_sockets w !! p) as [s|], (meta_sockets (set_recv q b w) !! p) as [s'|]; try done.
    injection Hd as Hd. cbn [deref mbind outcome_bind]. rewrite Hd. apply (Hf _).
  - intros q b w a w' (s & _ & H)%bind_Ret Hw.
    destruct (Hf (connection_description s)) as [_ Hk]. by eapply Hk.
Qed.

Lemma login_node_blind (client : gzochi_metad_metaserver_client) (url : bytes) (n : Z) (d : bytes) :
  blind (W := world) (login_node client url n d).
Proof.
  split.
  - intros p b w. unfold login_node. cbn.
    destruct (ChannelServer.gzochi_metad_channelserver_server_connected _ _ _) as [? cs].
    destruct (SessionServer.gzochi_metad_sessionserver_server_connected _ _ _) as [? ss]. cbn.
    destruct (login_response _) as [r| | |]; [|done..]. cbn [mbind outcome_bind].
    destruct (blind_write (sock client) r (Z.of_nat (length r))) as [Hw _].
    specialize (Hw p b (meta_sockets w)). unfold set_recv in Hw. cbn in Hw. rewrite Hw.
    by destruct (gzochid_client_socket_write _ _ _ (meta_sockets w)).
  - intros p b w w' Hr Hrecv. unfold login_node in Hr.
    destruct (ChannelServer.gzochi_metad_channelserver_server_connected _ _ _) as [? cs].
    destruct (SessionServer.gzochi_metad_sessionserver_server_connected _ _ _) as [? ss].
    apply bind_Ret in Hr as (r & _ & Hr). apply bind_Ret in Hr as (t & Ht & [= <-]).
    destruct (blind_write (sock client) r (Z.of_nat (length r))) as [_ Hw].
    exact (Hw p b _ _ Ht Hrecv).
Qed.

Lemma dispatch_login_blind (client : gzochi_metad_metaserver_client) (data : bytes) (len : Z) :
  blind (fun w : world => '(_, w) ← dispatch_login client data len w; Ret w).
Proof.
  apply (blind_drop (dispatch_login client data len)). unfold dispatch_login.
  apply (blind_with_bind (read_at data 0) (fun version w => if negb _ then Ret (false, w) else _)). intros v.
  destruct (negb _); [apply blind_with_ret|].
  apply (blind_with_bind (gzochid_protocol_read_str (drop 1 data) (u64 (len - 1)))
    (fun r w => match r with None => Ret (false, w) | Some (url, n) => _ end)).
  intros [[url n]|]; [|apply blind_with_ret].
  apply (blind_description (sock client) (fun d w => w ← login_node client url n d w; Ret (true, w))).
  intros d. apply blind_with_after; [apply login_node_blind|apply blind_with_ret].
Qed.

Lemma dispatch_login_local (client : gzochi_metad_metaserver_client) (payload post : bytes) (w : world) :
  payload <> [] -> Z.of_nat (length payload) < 2 ^ 16 ->
  dispatch_login client (payload ++ post) (Z.of_nat (length payload)) w
  = dispatch_login client payload (Z.of_nat (length payload)) w.
Proof.
  intros Hne Hlen. assert (0 < length payload)%nat by (destruct payload; simpl; [done|lia]).
  unfold dispatch_login. rewrite read_at_local by lia. rewrite drop_app_le by lia.
  rewrite read_str_local by (rewrite length_drop, u64_small by lia; lia). done.
Qed.

Lemma metaserver_route_in_buffer (client : gzochi_metad_metaserver_client) (pre m post : bytes) (w : world) :
  message_ok m -> metaserver_readable m ->
  handle client (pre ++ frame m ++ post) (Z.of_nat (length pre) + 2) (Z.of_nat (length m)) w
  = routed client m w.
Proof.
  intros Hm Hr. pose proof Hm as (_ & H1 & H2). destruct m as [|opcode payload]; [simpl in H1; lia|].
  unfold dispatch_message, route.
  rewrite read_opcode. cbn [mbind outcome_bind].
  destruct (Z.eqb_spec opcode GZOCHID_META_PROTOCOL_LOGIN) as [->|Hn].
  - rewrite drop_opcode. cbn [length] in H2 |- *.
    replace (u16 (Z.of_nat (S (length payload)) - 1)) with (Z.of_nat (length payload))
      by (rewrite unsigned_small; [lia|unfold in_unsigned; lia]).
    rewrite dispatch_login_local; [done| |lia]. intros ->. by apply Hr.
  - destruct (channel_opcode opcode).
    { by rewrite (delegate_message (FP := ChannelServer.channelserver_framed (node_id client))). }
    destruct (data_opcode opcode).
    { by rewrite (delegate_message (FP := dataserver_framed (dataserver_client client))). }
    destruct (session_opcode opcode); [|done].
    by rewrite (delegate_message (FP := SessionServer.sessionserver_framed (node_id client))).
Qed.

Lemma metaserver_route_blind (client : gzochi_metad_metaserver_client) (m : bytes) : blind (routed client m).
Proof.
  unfold route. destruct m as [|opcode payload]; [by split|].
  destruct (opcode =? _); [apply dispatch_login_blind|].
  destruct (channel_opcode opcode).
  { exact (blind_delegated (FP := ChannelServer.channelserver_framed (node_id client)) (opcode :: payload)). }
  destruct (data_opcode opcode).
  { exact (blind_delegated (FP := dataserver_framed (dataserver_client client)) (opcode :: payload)). }
  destruct (session_opcode opcode); [|apply blind_ret].
  exact (blind_delegated (FP := SessionServer.sessionserver_framed (node_id client))
    (opcode :: payload)).
Qed.

#[export] Instance metaserver_framed (client : gzochi_metad_metaserver_client) :
  FramedProtocol (protocol client) (handle client) (routed client) metaserver_readable.
Proof.
  split; [intros; apply frame_ready_decides|intros; by apply stream_ready|done| | |].
  - intros pre m post w. apply metaserver_route_in_buffer.
  - intros p b m w. apply metaserver_route_blind.
  - intros p b m w w'. apply metaserver_route_blind.
Qed.

End framed.
