(* ===== verification/DataClient.v ===== *)
(** * The data client of a node (dataclient.c, dataclient-protocol.c)

    How a node asks the data server for values, keys and blocks of object ids, gives
    back locks and submits change sets, and what it does with the answers.  There is a
    queue of callbacks for each application; a response is given to the callback at the
    front of the queue of its application.

    A callback is a function with its closure data: [C] are the callbacks of requests,
    [O] those of requests for object ids, and three parameters say what calling them
    does to the state [X] of those who asked.  Callbacks run while the mutex of their
    queue is held, so they do not enter the client; the release callbacks run from the
    main context without it and may do anything.  A timeout source that is attached to
    the main context is its interval in milliseconds and the registration it frees after
    it has run. *)

From S2P Require Import Prelude.
From S2P Require Import Io.
From S2P Require Import Util.
From S2P Require Import DataProtocol.
From S2P Require Import Oids.
From S2P Require Import Socket.
From S2P Require Import Framing.
From S2P Require Import MetaProtocol.

Local Open Scope Z_scope.

Definition MAX_MESSAGE_LENGTH : Z := 65535 - 3.
Definition G_MAXINT64 : Z := 2 ^ 63 - 1.

(** ** State *)

Section dataclient.

Context {C O X L : Type}.

Record dataclient_callback_registration := CallbackRegistration {
  expected_opcode : Z;
  success_callback : C;
  failure_callback : C;
  timeout : Z;
  release_callback : C
}.

Record dataclient_callback_queue := CallbackQueue {
  oids_callback : option O;
  callback_registrations : list dataclient_callback_registration
}.

Record timeout_source := TimeoutSource {
  interval : Z;
  source_data : dataclient_callback_registration
}.

Record GzochidDataClient := DataClient {
  lock_release_ms : Z;
  range_lock_release_ms : Z;
  application_callback_queues : gmap bytes dataclient_callback_queue;
  main_context : list timeout_source
}.

(** The client, those who asked, the socket to the meta server and all sockets. *)
Record client_world := ClientWorld {
  dataclient : GzochidDataClient;
  caller : X;
  metaserver : gzochid_reconnectable_socket L;
  client_sockets : sockets
}.

#[export] Program Instance client_world_sockets : HasSockets client_world :=
  {| sockets_of := client_sockets;
     set_sockets t w := ClientWorld (dataclient w) (caller w) (metaserver w) t |}.
Solve All Obligations with (by intros; try done; by destruct w).

Definition set_caller (x : X) (w : client_world) : client_world :=
  ClientWorld (dataclient w) x (metaserver w) (client_sockets w).
Definition set_client (c : GzochidDataClient) (w : client_world) : client_world :=
  ClientWorld c (caller w) (metaserver w) (client_sockets w).
Definition set_queues (q : gmap bytes dataclient_callback_queue) (c : GzochidDataClient)
  : GzochidDataClient :=
  DataClient (lock_release_ms c) (range_lock_release_ms c) q (main_context c).
Definition attach_source (s : timeout_source) (c : GzochidDataClient) : GzochidDataClient :=
  DataClient (lock_release_ms c) (range_lock_release_ms c) (application_callback_queues c)
    (main_context c ++ [s]).

Variable call_success : C -> option bytes -> X -> outcome X.
Variable call_failure : C -> timeval -> X -> outcome X.
Variable call_release : C -> client_world -> outcome client_world.
Variable call_oids : O -> gzochid_data_oids_block -> X -> outcome X.

(** The two settings, or the defaults where there are none; a number of milliseconds is
    an [unsigned int]. *)
Definition gzochid_data_client_constructed (lock_release range_lock_release : option Z)
  : GzochidDataClient :=
  DataClient (u32 (default 1000 lock_release)) (u32 (default 500 range_lock_release)) ∅ [].

Definition create_callback (expected_opcode : Z) (success failure release : C)
  : dataclient_callback_registration :=
  CallbackRegistration expected_opcode success failure G_MAXINT64 release.

(** A queue is made when an application is first named. *)
Definition acquire_callback_queue (app : bytes) (w : client_world)
  : dataclient_callback_queue * client_world :=
  match application_callback_queues (dataclient w) !! app with
  | Some queue => (queue, w)
  | None =>
      let queue := CallbackQueue None [] in
      (queue, set_client (set_queues (<[app := queue]>
                (application_callback_queues (dataclient w))) (dataclient w)) w)
  end.

(** What was changed in the queue before it is released. *)
Definition put_queue (app : bytes) (queue : dataclient_callback_queue) (w : client_world)
  : client_world :=
  set_client (set_queues (<[app := queue]> (application_callback_queues (dataclient w)))
    (dataclient w)) w.

(** ** Writing to the meta server *)

Definition format_message (opcode : Z) (payload : bytes) : outcome (bytes * Z) :=
  let len := Z.of_nat (length payload) in
  buf ← gzochi_common_io_write_short (s16 len) (malloc (len + 3)) 0;
  buf ← write_at buf 2 [opcode];
  buf ← memcpy_to buf 3 payload len;
  Ret (buf, len + 3).

Definition write_message (opcode : Z) (payload : bytes) (w : client_world)
  : outcome client_world :=
  '(buf, len) ← format_message opcode payload;
  '(r, t) ← gzochid_reconnectable_socket_write buf len (metaserver w) (client_sockets w);
  Ret (ClientWorld (dataclient w) (caller w) r t).

(** ** Blocks of object ids *)

Definition gzochid_dataclient_received_oids (response : gzochid_data_reserve_oids_response)
    (w : client_world) : outcome client_world :=
  let '(queue, w) := acquire_callback_queue (oids_app response) w in
  match oids_callback queue with
  | Some callback =>
      x ← call_oids callback
            (OidsBlock (DataProtocol.block_start response) (DataProtocol.block_size response))
            (caller w);
      Ret (put_queue (oids_app response) (CallbackQueue None (callback_registrations queue))
             (set_caller x w))
  | None => Ret w
  end.

Definition gzochid_dataclient_reserve_oids (app : bytes) (callback : O) (w : client_world)
  : outcome client_world :=
  n ← strlen app;
  message_bytes ← memcpy_from app (n + 1);
  let '(queue, w) := acquire_callback_queue app w in
  w ← write_message GZOCHID_DATA_PROTOCOL_REQUEST_OIDS message_bytes w;
  _ ← c_assert (negb (bool_decide (is_Some (oids_callback queue))));
  Ret (put_queue app (CallbackQueue (Some callback) (callback_registrations queue)) w).

(** ** Responses to requests for values and keys *)

(** The source is gone afterwards: it returns [FALSE]. *)
Definition invoke_release_callback (registration : dataclient_callback_registration)
    (w : client_world) : outcome client_world :=
  call_release (release_callback registration) w.

(** The registration is taken from the queue first.  A response of the wrong kind is
    only logged. *)
Definition process_queued_callback (app : bytes) (queue : dataclient_callback_queue)
    (opcode : Z) (response : gzochid_data_response) (w : client_world) : outcome client_world :=
  match callback_registrations queue with
  | [] => Undef
  | callbacks :: registrations =>
      let w := put_queue app (CallbackQueue (oids_callback queue) registrations) w in
      if negb (opcode =? expected_opcode callbacks) then Ret w
      else
        match body response with
        | Success data =>
            x ← call_success (success_callback callbacks) data (caller w);
            _ ← c_assert (timeout callbacks =? G_MAXINT64);
            let w := set_caller x w in
            let c := dataclient w in
            if opcode =? GZOCHID_DATA_PROTOCOL_VALUE_RESPONSE
            then Ret (set_client (attach_source (TimeoutSource (lock_release_ms c) callbacks) c) w)
            else if opcode =? GZOCHID_DATA_PROTOCOL_NEXT_KEY_RESPONSE
            then Ret (set_client
                        (attach_source (TimeoutSource (range_lock_release_ms c) callbacks) c) w)
            else Ret w
        | Failure tv =>
            x ← call_failure (failure_callback callbacks) tv (caller w);
            Ret (set_caller x w)
        end
  end.

Definition gzochid_dataclient_received_value (response : gzochid_data_response)
    (w : client_world) : outcome client_world :=
  let app := response_app response in
  let '(queue, w) := acquire_callback_queue app w in
  match callback_registrations queue with
  | [] => Ret w
  | _ :: _ => process_queued_callback app queue GZOCHID_DATA_PROTOCOL_VALUE_RESPONSE response w
  end.

Definition gzochid_dataclient_received_next_key (response : gzochid_data_response)
    (w : client_world) : outcome client_world :=
  let app := response_app response in
  let '(queue, w) := acquire_callback_queue app w in
  match callback_registrations queue with
  | [] => Ret w
  | _ :: _ => process_queued_callback app queue GZOCHID_DATA_PROTOCOL_NEXT_KEY_RESPONSE response w
  end.

(** ** Requests *)

(** A key with its length in front, or an empty one for [NULL]. *)
Definition write_nullable_bytes (payload : bytes) (key : option bytes) : outcome bytes :=
  match key with
  | Some key => write_bytes key payload
  | None => byte_array_append payload [0; 0] 2
  end.

Definition gzochid_dataclient_request_value (app store key : bytes) (for_write : bool)
    (success failure release : C) (w : client_world) : outcome client_world :=
  let '(queue, w) := acquire_callback_queue app w in
  payload ← append_str [] app;
  payload ← append_str payload store;
  payload ← byte_array_append payload [if for_write then 1 else 0] 1;
  payload ← write_bytes key payload;
  w ← write_message GZOCHID_DATA_PROTOCOL_REQUEST_VALUE payload w;
  Ret (put_queue app (CallbackQueue (oids_callback queue) (callback_registrations queue
         ++ [create_callback GZOCHID_DATA_PROTOCOL_VALUE_RESPONSE success failure release])) w).

Definition gzochid_dataclient_request_next_key (app store : bytes) (key : option bytes)
    (success failure release : C) (w : client_world) : outcome client_world :=
  let '(queue, w) := acquire_callback_queue app w in
  payload ← append_str [] app;
  payload ← append_str payload store;
  payload ← write_nullable_bytes payload key;
  w ← write_message GZOCHID_DATA_PROTOCOL_REQUEST_NEXT_KEY payload w;
  Ret (put_queue app (CallbackQueue (oids_callback queue) (callback_registrations queue
         ++ [create_callback GZOCHID_DATA_PROTOCOL_NEXT_KEY_RESPONSE success failure release])) w).

(** A change set that is too long is not sent; this is only logged. *)
Definition gzochid_dataclient_submit_changeset (app : bytes) (changes : list gzochid_data_change)
    (w : client_world) : outcome client_world :=
  payload ← gzochid_data_protocol_changeset_write (DataChangeset app changes) [];
  if Z.of_nat (length payload) <=? MAX_MESSAGE_LENGTH
  then write_message GZOCHID_DATA_PROTOCOL_SUBMIT_CHANGESET payload w
  else Ret w.

Definition gzochid_dataclient_release_key (app store key : bytes) (w : client_world)
  : outcome client_world :=
  payload ← append_str [] app;
  payload ← append_str payload store;
  payload ← write_bytes key payload;
  '(buf, len) ← format_message GZOCHID_DATA_PROTOCOL_RELEASE_KEY payload;
  '(r, t) ← gzochid_reconnectable_socket_write buf len (metaserver w) (client_sockets w);
  Ret (ClientWorld (dataclient w) (caller w) r t).

Definition gzochid_dataclient_release_key_range (app store : bytes) (from to : option bytes)
    (w : client_world) : outcome client_world :=
  payload ← append_str [] app;
  payload ← append_str payload store;
  payload ← write_nullable_bytes payload from;
  payload ← write_nullable_bytes payload to;
  '(buf, len) ← format_message GZOCHID_DATA_PROTOCOL_RELEASE_KEY_RANGE payload;
  '(r, t) ← gzochid_reconnectable_socket_write buf len (metaserver w) (client_sockets w);
  Ret (ClientWorld (dataclient w) (caller w) r t).

(** ** The protocol

    The results of the handlers, which their caller ignores, say whether the message was
    decoded. *)

Definition dispatch_oids_response (data : bytes) (len : Z) (w : client_world)
  : outcome (bool * client_world) :=
  response ← reserve_oids_response_read data len;
  match response with
  | None => Ret (false, w)
  | Some response => w ← gzochid_dataclient_received_oids response w; Ret (true, w)
  end.

Definition dispatch_value_response (data : bytes) (len : Z) (w : client_world)
  : outcome (bool * client_world) :=
  response_bytes ← memcpy_from data len;
  response ← gzochid_data_protocol_response_read response_bytes;
  match response with
  | None => Ret (false, w)
  | Some response => w ← gzochid_dataclient_received_value response w; Ret (true, w)
  end.

Definition dispatch_next_key_response (data : bytes) (len : Z) (w : client_world)
  : outcome (bool * client_world) :=
  response_bytes ← memcpy_from data len;
  response ← gzochid_data_protocol_response_read response_bytes;
  match response with
  | None => Ret (false, w)
  | Some response => w ← gzochid_dataclient_received_next_key response w; Ret (true, w)
  end.

Definition dispatch_payload (opcode : Z) (payload : bytes) (len : Z) (w : client_world)
  : outcome client_world :=
  if opcode =? GZOCHID_DATA_PROTOCOL_OIDS_RESPONSE
  then '(_, w) ← dispatch_oids_response payload len w; Ret w
  else if opcode =? GZOCHID_DATA_PROTOCOL_VALUE_RESPONSE
  then '(_, w) ← dispatch_value_response payload len w; Ret w
  else if opcode =? GZOCHID_DATA_PROTOCOL_NEXT_KEY_RESPONSE
  then '(_, w) ← dispatch_next_key_response payload len w; Ret w
  else Ret w.

Definition dispatch_message : bytes -> Z -> client_world -> outcome client_world :=
  dispatch_opcode dispatch_payload.

Definition client_can_dispatch (buffer : bytes) (w : client_world) : outcome bool :=
  frame_ready buffer.

Definition client_dispatch (buffer : bytes) (w : client_world) : outcome (Z * client_world) :=
  dispatch_frames (fun buffer offset => dispatch_message (drop (Z.to_nat offset) buffer))
    buffer w.

Definition gzochid_dataclient_client_protocol : gzochid_client_protocol client_world :=
  ClientProtocol client_can_dispatch client_dispatch Ret Ret.

End dataclient.

Arguments dataclient_callback_registration C : clear implicits.
Arguments dataclient_callback_queue C O : clear implicits.
Arguments GzochidDataClient C O : clear implicits.
Arguments client_world C O X L : clear implicits.

(** ** The protocol keeps to its messages *)

(** The messages whose reading stays inside of them: the reader of blocks of object ids
    may go past the end of the others. *)
Definition dataclient_readable (m : bytes) : Prop :=
  match m with
  | [] => True
  | opcode :: payload =>
      opcode = GZOCHID_DATA_PROTOCOL_OIDS_RESPONSE ->
      gzochid_data_protocol_reserve_oids_response_read payload <> Undef
  end.

Lemma read_short_app (m post : bytes) (v : Z) :
  gzochi_common_io_read_short m 0 = Ret v -> gzochi_common_io_read_short (m ++ post) 0 = Ret v.
Proof.
  intros Hv. destruct m as [|b0 [|b1 m]]; [done|done|]. exact Hv.
Qed.

Lemma read_short_cases (m : bytes) :
  gzochi_common_io_read_short m 0 = Undef \/ exists v, gzochi_common_io_read_short m 0 = Ret v.
Proof. destruct m as [|b0 [|b1 m]]; [by left|by left|right; by eexists]. Qed.

Lemma oids_response_read_local (m post : bytes) :
  Z.of_nat (length m) < 2 ^ 64 ->
  gzochid_data_protocol_reserve_oids_response_read m <> Undef ->
  reserve_oids_response_read (m ++ post) (Z.of_nat (length m))
  = reserve_oids_response_read m (Z.of_nat (length m)).
Proof.
  unfold gzochid_data_protocol_reserve_oids_response_read, reserve_oids_response_read.
  intros Hmax. rewrite read_str_local by done.
  destruct (gzochid_protocol_read_str m (Z.of_nat (length m))) as [[[app n]|]| | |] eqn:Hr; [|done..].
  apply read_str_bound in Hr. run. destruct (n =? 0); [done|].
  rewrite (u64_small (Z.of_nat (length m) - n)) by lia. unfold read_oid.
  destruct (Z.ltb_spec (Z.of_nat (length m) - n) 8); [done|].
  rewrite drop_app_le by lia.
  rewrite read_long_local by (rewrite length_drop; lia).
  destruct (gzochi_common_io_read_long (drop (Z.to_nat n) m) 0) as [oid| | |]; [|done..]. run.
  destruct (8 =? 0); [done|]. destruct (_ && _); [|done].
  rewrite drop_app_le by lia.
  destruct (read_short_cases (drop (Z.to_nat (n + 8)) m)) as [Hu|[v Hv]].
  - by rewrite Hu.
  - by rewrite (read_short_app _ post v Hv), Hv.
Qed.

Section framed.

Context {C O X L : Type}.
Context {call_success : C -> option bytes -> X -> outcome X}.
Context {call_failure : C -> timeval -> X -> outcome X}.
Context {call_oids : O -> gzochid_data_oids_block -> X -> outcome X}.

Abbreviation world := (client_world C O X L).

Lemma dataclient_dispatch_local :
  local_payload (dispatch_payload (L := L) call_success call_failure call_oids) dataclient_readable.
Proof.
  intros opcode payload post w Hr Hlen. unfold dispatch_payload.
  destruct (Z.eqb_spec opcode GZOCHID_DATA_PROTOCOL_OIDS_RESPONSE) as [->|Hop].
  - unfold dispatch_oids_response. rewrite oids_response_read_local; [done|lia|by apply Hr].
  - unfold dispatch_value_response, dispatch_next_key_response. by rewrite memcpy_from_local by lia.
Qed.

(** Responses change the queues, the main context and the caller only. *)
Lemma blind_sockets {W} `{HasSockets W} (f : W -> outcome W) :
  (forall p b w, f (set_recv p b w) = set_recv p b <$> f w) ->
  (forall w w', f w = Ret w' -> sockets_of w' = sockets_of w) -> blind f.
Proof.
  intros Hf Hsock. split; [done|]. intros p b w w' Hw (s & Hs & Hb).
  exists s. by rewrite (Hsock w w' Hw).
Qed.

Lemma process_callback_sockets app queue opcode response (w w' : world) :
  process_queued_callback call_success call_failure app queue opcode response w = Ret w' ->
  client_sockets w' = client_sockets w.
Proof.
  unfold process_queued_callback. destruct (callback_registrations queue); [done|].
  destruct (negb _); [by intros [= <-]|]. destruct (body response).
  - intros (x & _ & (u & _ & Hw)%bind_Ret)%bind_Ret.
    destruct (_ =? _); [|destruct (_ =? _)]; by injection Hw as <-.
  - by intros (x & _ & [= <-])%bind_Ret.
Qed.

Lemma acquire_queue_sockets app (w : world) :
  client_sockets (acquire_callback_queue app w).2 = client_sockets w.
Proof. unfold acquire_callback_queue. by destruct (_ !! app). Qed.

Lemma acquire_queue_recv app p b (w : world) :
  acquire_callback_queue app (set_recv p b w)
  = ((acquire_callback_queue app w).1, set_recv p b (acquire_callback_queue app w).2).
Proof. unfold acquire_callback_queue. simpl. by destruct (_ !! app). Qed.

Lemma process_callback_recv app queue opcode response p b (w : world) :
  process_queued_callback call_success call_failure app queue opcode response (set_recv p b w)
  = set_recv p b <$> process_queued_callback call_success call_failure app queue opcode response w.
Proof.
  unfold process_queued_callback. destruct (callback_registrations queue) as [|cb regs]; [done|].
  destruct (negb _); [done|]. destruct (body response); cbn [caller put_queue set_client set_recv].
  - simpl. destruct (call_success (success_callback cb) data (caller w)); [|done..]. simpl.
    destruct (c_assert _); [|done..]. simpl. by repeat destruct (_ =? _).
  - simpl. by destruct (call_failure (failure_callback cb) timeout0 (caller w)).
Qed.

Lemma received_oids_blind response :
  blind (W := world) (gzochid_dataclient_received_oids call_oids response).
Proof.
  apply blind_sockets; unfold gzochid_dataclient_received_oids.
  - intros p b w. rewrite acquire_queue_recv.
    destruct (acquire_callback_queue _ w) as [queue w1]. simpl.
    destruct (oids_callback queue); [|done]. by destruct (call_oids _ _ (caller w1)).
  - intros w w'. pose proof (acquire_queue_sockets (oids_app response) w) as Hsock.
    destruct (acquire_callback_queue _ w) as [queue w1]. simpl in *.
    destruct (oids_callback queue); [|by intros [= <-]]. by intros (x & _ & [= <-])%bind_Ret.
Qed.

Lemma received_blind opcode response :
  blind (W := world) (fun w =>
    let '(queue, w) := acquire_callback_queue (response_app response) w in
    match callback_registrations queue with
    | [] => Ret w
    | _ :: _ => process_queued_callback call_success call_failure (response_app response) queue
                  opcode response w
    end).
Proof.
  apply blind_sockets.
  - intros p b w. rewrite acquire_queue_recv.
    destruct (acquire_callback_queue _ w) as [queue w1]. cbn [fst snd].
    destruct (callback_registrations queue); [done|]. apply process_callback_recv.
  - intros w w'. pose proof (acquire_queue_sockets (response_app response) w) as Hsock.
    destruct (acquire_callback_queue _ w) as [queue w1]. simpl in *.
    destruct (callback_registrations queue); [by intros [= <-]|].
    intros ->%process_callback_sockets. done.
Qed.

Lemma dataclient_dispatch_blind opcode payload len :
  blind (W := world) (dispatch_payload call_success call_failure call_oids opcode payload len).
Proof.
  unfold dispatch_payload, dispatch_oids_response, dispatch_value_response,
    dispatch_next_key_response.
  destruct (_ =? _); [|destruct (_ =? _); [|destruct (_ =? _); [|apply blind_ret]]]; apply blind_drop.
  - apply blind_with_bind. intros [r|]; [|apply blind_with_ret].
    apply blind_with_after; [apply received_oids_blind|apply blind_with_ret].
  - apply blind_with_bind. intros m. apply blind_with_bind. intros [r|]; [|apply blind_with_ret].
    apply blind_with_after; [apply received_blind|apply blind_with_ret].
  - apply blind_with_bind. intros m. apply blind_with_bind. intros [r|]; [|apply blind_with_ret].
    apply blind_with_after; [apply received_blind|apply blind_with_ret].
Qed.

#[export] Instance dataclient_framed :
  FramedProtocol (gzochid_dataclient_client_protocol (L := L) call_success call_failure call_oids)
    (fun buffer offset => dispatch_message call_success call_failure call_oids
                            (drop (Z.to_nat offset) buffer))
    (fun m => dispatch_message call_success call_failure call_oids m (Z.of_nat (length m)))
    dataclient_readable.
Proof.
  apply framed_by_opcode; [done|done|apply dataclient_dispatch_local|apply dataclient_dispatch_blind].
Qed.

End framed.

(** ** Requests and their answers

    What happens at a client: requests, answers from the data server, and the messages
    that have none. *)

Section in_order.

Context {C O X L : Type}.
Variable call_success : C -> option bytes -> X -> outcome X.
Variable call_failure : C -> timeval -> X -> outcome X.

Abbreviation world := (client_world C O X L).
Abbreviation registration := (dataclient_callback_registration C).

Inductive client_event :=
| AskValue (app store key : bytes) (for_write : bool) (success failure release : C)
| AskNextKey (app store : bytes) (key : option bytes) (success failure release : C)
| AnswerValue (response : gzochid_data_response)
| AnswerNextKey (response : gzochid_data_response)
| Submit (app : bytes) (changes : list gzochid_data_change)
| GiveBack (app store key : bytes)
| GiveBackRange (app store : bytes) (from to : option bytes).

Definition client_step (e : client_event) (w : world) : outcome world :=
  match e with
  | AskValue app store key for_write success failure release =>
      gzochid_dataclient_request_value app store key for_write success failure release w
  | AskNextKey app store key success failure release =>
      gzochid_dataclient_request_next_key app store key success failure release w
  | AnswerValue response =>
      gzochid_dataclient_received_value call_success call_failure response w
  | AnswerNextKey response =>
      gzochid_dataclient_received_next_key call_success call_failure response w
  | Submit app changes => gzochid_dataclient_submit_changeset app changes w
  | GiveBack app store key => gzochid_dataclient_release_key app store key w
  | GiveBackRange app store from to => gzochid_dataclient_release_key_range app store from to w
  end.

Fixpoint client_run (evs : list client_event) (w : world) : outcome world :=
  match evs with
  | [] => Ret w
  | e :: evs => w ← client_step e w; client_run evs w
  end.

(** *** The history of an application

    Its requests, and how many answers it had. *)

Definition asks (app : bytes) (e : client_event) : option registration :=
  match e with
  | AskValue a _ _ _ success failure release =>
      if decide (a = app)
      then Some (create_callback GZOCHID_DATA_PROTOCOL_VALUE_RESPONSE success failure release)
      else None
  | AskNextKey a _ _ success failure release =>
      if decide (a = app)
      then Some (create_callback GZOCHID_DATA_PROTOCOL_NEXT_KEY_RESPONSE success failure release)
      else None
  | _ => None
  end.

Definition answer_of (e : client_event) : option (Z * gzochid_data_response) :=
  match e with
  | AnswerValue response => Some (GZOCHID_DATA_PROTOCOL_VALUE_RESPONSE, response)
  | AnswerNextKey response => Some (GZOCHID_DATA_PROTOCOL_NEXT_KEY_RESPONSE, response)
  | _ => None
  end.

Definition answers (app : bytes) (e : client_event) : option gzochid_data_response :=
  match answer_of e with
  | Some (_, response) => if decide (response_app response = app) then Some response else None
  | None => None
  end.

Definition asked (app : bytes) (evs : list client_event) : list registration :=
  omap (asks app) evs.
Definition answered (app : bytes) (evs : list client_event) : nat := length (omap (answers app) evs).

(** Nothing is answered that was not asked. *)
Definition in_step (evs : list client_event) : Prop :=
  forall k app, (answered app (take k evs) <= length (asked app (take k evs)))%nat.

(** The request that an answer is for, given what happened before it: the one with the
    same number. *)
Definition answered_request (before : list client_event) (e : client_event)
  : option (registration * Z * gzochid_data_response) :=
  match answer_of e with
  | Some (opcode, response) =>
      reg ← asked (response_app response) before !! answered (response_app response) before;
      if opcode =? expected_opcode reg then Some (reg, opcode, response) else None
  | None => None
  end.

(** The callback that an answer calls, and the source that will release its lock. *)
Definition called (before : list client_event) (e : client_event) (x : X) : outcome X :=
  match answered_request before e with
  | Some (reg, _, response) =>
      match body response with
      | Success data => call_success (success_callback reg) data x
      | Failure tv => call_failure (failure_callback reg) tv x
      end
  | None => Ret x
  end.

Definition source_of (value_ms range_ms : Z) (before : list client_event) (e : client_event)
  : list (timeout_source (C := C)) :=
  match answered_request before e with
  | Some (reg, opcode, DataResponse _ _ (Success _)) =>
      [TimeoutSource (if opcode =? GZOCHID_DATA_PROTOCOL_VALUE_RESPONSE
                      then value_ms else range_ms) reg]
  | _ => []
  end.

Fixpoint calls (before evs : list client_event) (x : X) : outcome X :=
  match evs with
  | [] => Ret x
  | e :: evs => x ← called before e x; calls (before ++ [e]) evs x
  end.

Fixpoint sources (value_ms range_ms : Z) (before evs : list client_event)
  : list (timeout_source (C := C)) :=
  match evs with
  | [] => []
  | e :: evs => source_of value_ms range_ms before e
                  ++ sources value_ms range_ms (before ++ [e]) evs
  end.

(** *** What is sent *)

Definition sized (b : bytes) : bytes := be_encode 2 (Z.of_nat (length b)) ++ b.
Definition sized_or_empty (b : option bytes) : bytes :=
  match b with Some b => sized b | None => [0; 0] end.

Definition event_message (e : client_event) : list bytes :=
  match e with
  | AskValue app store key for_write _ _ _ =>
      [GZOCHID_DATA_PROTOCOL_REQUEST_VALUE
         :: app ++ store ++ [if for_write then 1 else 0] ++ sized key]
  | AskNextKey app store key _ _ _ =>
      [GZOCHID_DATA_PROTOCOL_REQUEST_NEXT_KEY :: app ++ store ++ sized_or_empty key]
  | AnswerValue _ | AnswerNextKey _ => []
  | Submit app changes =>
      match gzochid_data_protocol_changeset_write (DataChangeset app changes) [] with
      | Ret payload =>
          if Z.of_nat (length payload) <=? MAX_MESSAGE_LENGTH
          then [GZOCHID_DATA_PROTOCOL_SUBMIT_CHANGESET :: payload] else []
      | _ => []
      end
  | GiveBack app store key =>
      [GZOCHID_DATA_PROTOCOL_RELEASE_KEY :: app ++ store ++ sized key]
  | GiveBackRange app store from to =>
      [GZOCHID_DATA_PROTOCOL_RELEASE_KEY_RANGE
         :: app ++ store ++ sized_or_empty from ++ sized_or_empty to]
  end.

Definition event_ok (e : client_event) : Prop :=
  match e with
  | AskValue app store _ _ _ _ _ | AskNextKey app store _ _ _ _
  | GiveBack app store _ | GiveBackRange app store _ _ => cstring app /\ cstring store
  | AnswerValue _ | AnswerNextKey _ => True
  | Submit app changes =>
      exists payload, gzochid_data_protocol_changeset_write (DataChangeset app changes) [] = Ret payload
  end.

(** What was written for the meta server and not yet sent, and the socket it is for. *)
Definition unsent (w : world) : bytes :=
  match socket (metaserver w) with
  | Some p => match client_sockets w !! p with Some sk => send_buffer sk | None => [] end
  | None => outbound_messages (metaserver w)
  end.

Definition uplink_ok (w : world) : Prop :=
  match socket (metaserver w) with
  | Some p => exists sk, client_sockets w !! p = Some sk /\ sock_server sk = true
  | None => True
  end.

Definition pending (app : bytes) (w : world) : list registration :=
  match application_callback_queues (dataclient w) !! app with
  | Some queue => callback_registrations queue
  | None => []
  end.

(** What a number of events did. *)
Record stepped (w w' : world) (pend : bytes -> list registration) (x : X)
    (srcs : list (timeout_source (C := C))) (ms : list bytes) : Prop := {
  stepped_pending : forall app, pending app w' = pend app;
  stepped_caller : caller w' = x;
  stepped_sources : main_context (dataclient w') = main_context (dataclient w) ++ srcs;
  stepped_times : lock_release_ms (dataclient w') = lock_release_ms (dataclient w)
    /\ range_lock_release_ms (dataclient w') = range_lock_release_ms (dataclient w);
  stepped_unsent : unsent w' = unsent w ++ stream ms;
  stepped_uplink : uplink_ok w'
}.

(** *** One event *)

Lemma append_cstring (arr str : bytes) : cstring str -> append_str arr str = Ret (arr ++ str).
Proof. intros (s & -> & Hs). by apply append_str_ok. Qed.

Lemma write_bytes_sized (data arr : bytes) : write_bytes data arr = Ret (arr ++ sized data).
Proof. rewrite write_bytes_ok. by rewrite (be_encode_signed 2) by lia. Qed.

Lemma write_nullable_ok (arr : bytes) (key : option bytes) :
  write_nullable_bytes arr key = Ret (arr ++ sized_or_empty key).
Proof. destruct key; [apply write_bytes_sized|apply append_00]. Qed.

Lemma format_message_ok (opcode : Z) (payload : bytes) :
  format_message opcode payload
  = Ret (frame (opcode :: payload), Z.of_nat (length (frame (opcode :: payload)))).
Proof.
  unfold format_message.
  rewrite (be_write (BigEndian := short_codec)), (be_encode_signed 2) by lia.
  unfold malloc. rewrite <- (app_nil_l (replicate _ _)).
  rewrite (fill_next []) by len. run. rewrite (fill_next _ [_]) by len. run. build_rest. run.
  rewrite <- (frame_prefix (Z.of_nat (length payload))) by len.
  rewrite app_nil_l, <- app_assoc. do 2 f_equal. len.
Qed.

(** Writing a message changes nothing but what is unsent. *)
Lemma client_uplink_ok (w : world) (m : bytes) :
  uplink_ok w ->
  exists r t,
    gzochid_reconnectable_socket_write (frame m) (Z.of_nat (length (frame m))) (metaserver w)
      (client_sockets w) = Ret (r, t)
    /\ (forall c, unsent (ClientWorld c (caller w) r t) = unsent w ++ stream [m])
    /\ (forall c, uplink_ok (ClientWorld c (caller w) r t)).
Proof.
  intros Hup. assert (Hone : stream [m] = frame m) by (unfold stream; cbn; by rewrite app_nil_r).
  unfold uplink_ok, unsent, gzochid_reconnectable_socket_write in *.
  destruct (socket (metaserver w)) as [p|] eqn:Hp.
  - destruct Hup as (sk & Hsk & Hserver). rewrite (write_ok _ _ _ sk Hsk Hserver). run.
    eexists _, _. split; [done|]. split; intros c; simpl; rewrite Hp, lookup_insert_eq.
    + by rewrite Hsk, Hone.
    + by eexists.
  - rewrite byte_array_append_all. run. eexists _, _. split; [done|].
    split; intros c; simpl; [by rewrite Hone|done].
Qed.

Lemma write_message_ok (opcode : Z) (payload : bytes) (w : world) :
  uplink_ok w ->
  exists w', write_message opcode payload w = Ret w'
    /\ stepped w w' (fun app => pending app w) (caller w) [] [opcode :: payload]
    /\ dataclient w' = dataclient w.
Proof.
  intros Hup. unfold write_message. rewrite format_message_ok. run.
  destruct (client_uplink_ok w (opcode :: payload) Hup) as (r & t & Hw & Hsent & Hup').
  rewrite Hw. run. eexists. split; [done|]. split; [|done].
  split; try done. cbn [dataclient]. by rewrite app_nil_r.
Qed.

(** Acquiring a queue only makes it. *)
Lemma acquire_queue_ok (app : bytes) (w : world) :
  exists queue w1, acquire_callback_queue app w = (queue, w1)
    /\ callback_registrations queue = pending app w
    /\ (forall pend, (forall a, pending a w = pend a) -> uplink_ok w ->
          stepped w w1 pend (caller w) [] [])
    /\ (forall a, pending a w1 = pending a w) /\ (uplink_ok w -> uplink_ok w1)
    /\ caller w1 = caller w.
Proof.
  unfold acquire_callback_queue, pending.
  destruct (application_callback_queues (dataclient w) !! app) as [queue|] eqn:Hq.
  - eexists _, _. split; [done|]. split_and!; try done.
    intros pend Hp Hup. split; try done; by rewrite app_nil_r.
  - assert (Hpend : forall a, pending a (set_client (set_queues (<[app:=CallbackQueue None []]>
        (application_callback_queues (dataclient w))) (dataclient w)) w) = pending a w).
    { intros a. unfold pending. simpl. destruct (decide (app = a)) as [->|Hne].
      - by rewrite lookup_insert_eq, Hq.
      - by rewrite lookup_insert_ne. }
    eexists _, _. split; [done|]. split_and!; try done.
    intros pend Hp Hup. split; try done; [|simpl; by rewrite app_nil_r..].
    intros a. rewrite Hpend. apply Hp.
Qed.

Lemma pending_put (a app : bytes) (queue : dataclient_callback_queue C O) (w : world) :
  pending a (put_queue app queue w)
  = if decide (a = app) then callback_registrations queue else pending a w.
Proof.
  unfold pending, put_queue. simpl. case_decide as Ha.
  - subst. by rewrite lookup_insert_eq.
  - by rewrite lookup_insert_ne.
Qed.

Lemma stepped_trans (w w1 w2 : world) pend1 x1 srcs1 ms1 pend2 x2 srcs2 ms2 :
  stepped w w1 pend1 x1 srcs1 ms1 -> stepped w1 w2 pend2 x2 srcs2 ms2 ->
  stepped w w2 pend2 x2 (srcs1 ++ srcs2) (ms1 ++ ms2).
Proof.
  intros [] []. split; try done.
  - rewrite stepped_sources1, stepped_sources0. by rewrite <- app_assoc.
  - destruct stepped_times0, stepped_times1. split; congruence.
  - rewrite stepped_unsent1, stepped_unsent0. unfold stream.
    by rewrite fmap_app, concat_app, <- app_assoc.
Qed.

(** The queue of an application is replaced. *)
Lemma stepped_put (w w1 : world) pend x srcs ms app (queue : dataclient_callback_queue C O) :
  stepped w w1 pend x srcs ms ->
  stepped w (put_queue app queue w1)
    (fun a => if decide (a = app) then callback_registrations queue else pend a) x srcs ms.
Proof.
  intros []. split; try done. intros a. rewrite pending_put. case_decide; [done|].
  by rewrite stepped_pending0.
Qed.

(** *** Histories *)

Lemma asked_snoc (a : bytes) (evs : list client_event) (e : client_event) :
  asked a (evs ++ [e]) = asked a evs ++ option_list (asks a e).
Proof. unfold asked. rewrite omap_app. simpl. by destruct (asks a e). Qed.

Lemma answered_snoc (a : bytes) (evs : list client_event) (e : client_event) :
  answered a (evs ++ [e])
  = (answered a evs + match answers a e with Some _ => 1 | None => 0 end)%nat.
Proof.
  unfold answered. rewrite omap_app, length_app. simpl. by destruct (answers a e).
Qed.

Definition left_over (evs : list client_event) (a : bytes) : list registration :=
  drop (answered a evs) (asked a evs).

Lemma left_over_plain (evs : list client_event) (e : client_event) (a : bytes) :
  asks a e = None -> answers a e = None -> left_over (evs ++ [e]) a = left_over evs a.
Proof.
  intros Hask Hanswer. unfold left_over. rewrite asked_snoc, answered_snoc, Hask, Hanswer.
  simpl. by rewrite app_nil_r, Nat.add_0_r.
Qed.

Lemma stepped_ext (w w' : world) pend pend' x srcs ms :
  stepped w w' pend x srcs ms -> (forall a, pend a = pend' a) -> stepped w w' pend' x srcs ms.
Proof. intros [] Heq. split; try done. intros a. by rewrite <- Heq. Qed.

Section one.

Variables (before : list client_event) (w : world).
Hypothesis Hup : uplink_ok w.
Hypothesis Hpend : forall a, pending a w = left_over before a.
Hypothesis Hstep : forall a, (answered a before <= length (asked a before))%nat.

(** A message is written and, at the end of the queue, a registration noted. *)
Lemma ask_ok (e : client_event) (app : bytes) (opcode : Z) (payload : bytes) (reg : registration) :
  (forall a, asks a e = if decide (app = a) then Some reg else None) -> answer_of e = None ->
  exists w',
    (let '(queue, w) := acquire_callback_queue app w in
     w ← write_message opcode payload w;
     Ret (put_queue app (CallbackQueue (oids_callback queue)
            (callback_registrations queue ++ [reg])) w)) = Ret w'
    /\ stepped w w' (left_over (before ++ [e])) (caller w) [] [opcode :: payload].
Proof.
  intros Hask Hanswer.
  destruct (acquire_queue_ok app w) as (queue & w1 & -> & Hq & Hs & Hp1 & Hup1 & Hc1).
  specialize (Hs _ Hpend Hup).
  destruct (write_message_ok opcode payload w1 (Hup1 Hup)) as (w2 & -> & Hs2 & Hd). run.
  eexists. split; [done|].
  rewrite <- (app_nil_l [opcode :: payload]), <- (app_nil_l (@nil timeout_source)).
  rewrite <- Hc1. eapply stepped_ext.
  { apply stepped_put. eapply stepped_trans; [exact Hs|exact Hs2]. }
  intros a. cbn [callback_registrations]. unfold left_over.
  rewrite asked_snoc, answered_snoc. unfold answers. rewrite Hanswer, Nat.add_0_r, Hask.
  destruct (decide (a = app)) as [->|Hne].
  - rewrite decide_True by done. simpl. rewrite Hq, Hpend, drop_app_le by apply Hstep. done.
  - rewrite decide_False by congruence. simpl. by rewrite app_nil_r, Hp1, Hpend.
Qed.

(** A message without an answer. *)
Lemma tell_ok (e : client_event) (opcode : Z) (payload : bytes) :
  (forall a, asks a e = None) -> answer_of e = None ->
  exists w', write_message opcode payload w = Ret w'
    /\ stepped w w' (left_over (before ++ [e])) (caller w) [] [opcode :: payload].
Proof.
  intros Hask Hanswer. destruct (write_message_ok opcode payload w Hup) as (w' & -> & Hs & _).
  eexists. split; [done|]. eapply stepped_ext; [exact Hs|]. intros a. cbn beta.
  rewrite Hpend, left_over_plain; [done|apply Hask|]. unfold answers. by rewrite Hanswer.
Qed.

Lemma asked_timeout (a : bytes) (evs : list client_event) (reg : registration) :
  reg ∈ asked a evs -> timeout reg = G_MAXINT64.
Proof.
  unfold asked. intros (e & _ & He)%list_elem_of_omap.
  destruct e; simpl in He; try done; case_decide; try done; by injection He as <-.
Qed.

(** The number of an answer is that of a request that waits. *)
Lemma waiting_request (e : client_event) (opcode : Z) (response : gzochid_data_response) :
  answer_of e = Some (opcode, response) ->
  (forall a, (answered a (before ++ [e]) <= length (asked a (before ++ [e])))%nat) ->
  exists reg,
    asked (response_app response) before !! answered (response_app response) before = Some reg
    /\ timeout reg = G_MAXINT64
    /\ pending (response_app response) w = reg :: left_over (before ++ [e]) (response_app response)
    /\ (forall a, a <> response_app response -> pending a w = left_over (before ++ [e]) a).
Proof.
  intros Hanswer Hnext. set (app := response_app response).
  assert (Hask : forall a, asks a e = None) by (destruct e; done).
  assert (Ha : forall a, answers a e = if decide (app = a) then Some response else None)
    by (intros a; unfold answers; rewrite Hanswer; done).
  specialize (Hnext app) as Hn. rewrite asked_snoc, answered_snoc, Hask, Ha, decide_True in Hn by done.
  simpl in Hn. rewrite app_nil_r in Hn.
  destruct (lookup_lt_is_Some_2 (asked app before) (answered app before)) as [reg Hreg]; [lia|].
  exists reg. split; [done|]. split; [|split].
  - eapply asked_timeout, list_elem_of_lookup_2, Hreg.
  - rewrite Hpend. unfold left_over.
    rewrite (drop_S _ reg) by done. rewrite asked_snoc, answered_snoc, Hask, Ha, decide_True by done.
    simpl. by rewrite app_nil_r, Nat.add_1_r.
  - intros a Hne. rewrite Hpend, left_over_plain; [done|done|]. rewrite Ha, decide_False; done.
Qed.

Lemma answer_ok (e : client_event) (opcode : Z) (response : gzochid_data_response) (x : X) :
  answer_of e = Some (opcode, response) ->
  (forall a, (answered a (before ++ [e]) <= length (asked a (before ++ [e])))%nat) ->
  called before e (caller w) = Ret x ->
  exists w',
    (let '(queue, w) := acquire_callback_queue (response_app response) w in
     match callback_registrations queue with
     | [] => Ret w
     | _ :: _ => process_queued_callback call_success call_failure (response_app response) queue
                   opcode response w
     end) = Ret w'
    /\ stepped w w' (left_over (before ++ [e])) x
         (source_of (lock_release_ms (dataclient w)) (range_lock_release_ms (dataclient w)) before e) [].
Proof.
  intros Hanswer Hnext Hcalled.
  destruct (waiting_request e opcode response Hanswer Hnext) as (reg & Hreg & Htime & Happ & Hother).
  unfold called, source_of, answered_request in *. rewrite Hanswer, Hreg in *.
  cbn [mbind option_bind] in *.
  destruct (acquire_queue_ok (response_app response) w) as (queue & w1 & -> & Hq & Hs & _ & _ & Hc1).
  specialize (Hs _ Hpend Hup). rewrite Hq, Happ. unfold process_queued_callback.
  rewrite Hq, Happ.
  set (w2 := put_queue _ _ w1).
  assert (Hs2 : stepped w w2 (left_over (before ++ [e])) (caller w) [] []).
  { eapply stepped_ext; [by apply stepped_put|]. intros a. cbn [callback_registrations].
    case_decide as Ha; [by subst|]. rewrite <- Hpend. by apply Hother. }
  destruct (opcode =? expected_opcode reg); cbn [negb].
  2: { injection Hcalled as <-. by eexists. }
  assert (Hc2 : caller w2 = caller w) by done. rewrite Hc2. clearbody w2.
  assert (Hcase : opcode = GZOCHID_DATA_PROTOCOL_VALUE_RESPONSE
    \/ opcode = GZOCHID_DATA_PROTOCOL_NEXT_KEY_RESPONSE)
    by (destruct e; try done; injection Hanswer as <- _; auto).
  destruct response as [app store [data|tv]]; cbn [body] in *; rewrite Hcalled; run.
  - rewrite Htime. change (c_assert (G_MAXINT64 =? G_MAXINT64)) with (Ret tt). run.
    destruct Hs2 as [? ? Hsrc [Ht1 Ht2] ? ?]. cbn [set_caller dataclient]. rewrite app_nil_r in Hsrc.
    destruct Hcase as [->| ->]; choose_branch; eexists; (split; [done|]);
      split; try done; cbn [set_client attach_source dataclient main_context]; congruence.
  - destruct Hs2. eexists. split; [done|]. by split.
Qed.

End one.

Lemma client_step_ok (before : list client_event) (e : client_event) (w : world) (x : X) :
  uplink_ok w -> (forall a, pending a w = left_over before a) ->
  (forall a, (answered a before <= length (asked a before))%nat) ->
  (forall a, (answered a (before ++ [e]) <= length (asked a (before ++ [e])))%nat) ->
  event_ok e -> called before e (caller w) = Ret x ->
  exists w', client_step e w = Ret w'
    /\ stepped w w' (left_over (before ++ [e])) x
         (source_of (lock_release_ms (dataclient w)) (range_lock_release_ms (dataclient w)) before e)
         (event_message e).
Proof.
  intros Hup Hpend Hstep Hnext Hok Hcalled.
  destruct e as [app store key for_write su fa re|app store key su fa re|response|response
    |app cs|app store key|app store from to].
  3,4: cbn [event_message client_step]; eapply answer_ok; eauto; done.
  all: unfold source_of, called, answered_request in *; cbn [answer_of] in *; injection Hcalled as <-;
    cbn [client_step event_message event_ok] in *.
  - destruct Hok as [Happ Hstore]. unfold gzochid_dataclient_request_value.
    rewrite (append_cstring [] app Happ). run. rewrite (append_cstring _ store Hstore). run.
    rewrite append_1. run. rewrite write_bytes_sized. run. rewrite app_nil_l, <- !app_assoc.
    by apply ask_ok.
  - destruct Hok as [Happ Hstore]. unfold gzochid_dataclient_request_next_key.
    rewrite (append_cstring [] app Happ). run. rewrite (append_cstring _ store Hstore). run.
    rewrite write_nullable_ok. run. rewrite app_nil_l, <- !app_assoc. by apply ask_ok.
  - destruct Hok as [payload Hwrite]. unfold gzochid_dataclient_submit_changeset.
    rewrite Hwrite. run. destruct (_ <=? _).
    + by apply tell_ok.
    + eexists. split; [done|]. split; try done; [|by rewrite app_nil_r..].
      intros a. by rewrite Hpend, left_over_plain.
  - destruct Hok as [Happ Hstore]. unfold gzochid_dataclient_release_key.
    rewrite (append_cstring [] app Happ). run. rewrite (append_cstring _ store Hstore). run.
    rewrite write_bytes_sized. run. rewrite app_nil_l, <- !app_assoc. by apply tell_ok.
  - destruct Hok as [Happ Hstore]. unfold gzochid_dataclient_release_key_range.
    rewrite (append_cstring [] app Happ). run. rewrite (append_cstring _ store Hstore). run.
    rewrite write_nullable_ok. run. rewrite write_nullable_ok. run.
    rewrite app_nil_l, <- !app_assoc. by apply tell_ok.
Qed.

(** *** Any number of events *)

Lemma in_step_at (before evs : list client_event) (a : bytes) :
  in_step (before ++ evs) -> (answered a before <= length (asked a before))%nat.
Proof.
  intros Hin. specialize (Hin (length before) a). by rewrite take_app_length in Hin.
Qed.

Lemma client_run_ok (evs : list client_event) : forall before (w : world) (x : X),
  uplink_ok w -> (forall a, pending a w = left_over before a) -> in_step (before ++ evs) ->
  Forall event_ok evs -> calls before evs (caller w) = Ret x ->
  exists w', client_run evs w = Ret w'
    /\ stepped w w' (left_over (before ++ evs)) x
         (sources (lock_release_ms (dataclient w)) (range_lock_release_ms (dataclient w)) before evs)
         (concat (event_message <$> evs)).
Proof.
  induction evs as [|e evs IH]; intros before w x Hup Hpend Hin Hok Hcalls.
  { injection Hcalls as <-. eexists. split; [done|]. rewrite app_nil_r.
    split; try done; by rewrite app_nil_r. }
  cbn [calls] in Hcalls. apply bind_Ret in Hcalls as (x1 & Hcalled & Hcalls).
  inversion_clear Hok as [|? ? He Hok'].
  replace (before ++ e :: evs) with ((before ++ [e]) ++ evs) in * by (by rewrite <- app_assoc).
  assert (Hin1 : in_step (before ++ ([e] ++ evs))) by (by rewrite app_assoc).
  destruct (client_step_ok before e w x1 Hup Hpend (fun a => in_step_at _ _ a Hin1)
    (fun a => in_step_at _ _ a Hin) He Hcalled) as (w1 & Hw1 & Hs1).
  pose proof Hs1 as [Hp1 Hc1 _ [Ht1 Ht2] _ Hup1].
  destruct (IH (before ++ [e]) w1 x Hup1 Hp1 Hin Hok') as (w' & Hw' & Hs'); [by rewrite Hc1|].
  exists w'. cbn [client_run]. rewrite Hw1. split; [exact Hw'|].
  cbn [sources fmap list_fmap concat]. rewrite Ht1, Ht2 in Hs'. by eapply stepped_trans.
Qed.

(** C8. Answers are given to the requests they are for.  Whatever requests, change sets
    and releases of several applications a node sends, and whatever answers arrive in
    between, as long as nothing is answered that was not asked: the [n]-th answer about
    an application is given to the callbacks of its [n]-th request, the success or the
    failure callback as it says, unless its kind is not that of the request; each lock
    that was granted has one source to release it after the time that was set; what is
    unsent is extended by one message for each request, in order; and the requests that
    were not answered still wait. *)
Theorem dataclient_answers_in_order (evs : list client_event) (w : world) (x : X)
    (Hup : uplink_ok w)
    (Hnew : application_callback_queues (dataclient w) = ∅)
    (Hin : in_step evs) (Hok : Forall event_ok evs)
    (Hcalls : calls [] evs (caller w) = Ret x) :
  exists w', client_run evs w = Ret w'
    /\ caller w' = x
    /\ (forall app, pending app w' = drop (answered app evs) (asked app evs))
    /\ main_context (dataclient w') = main_context (dataclient w)
         ++ sources (lock_release_ms (dataclient w)) (range_lock_release_ms (dataclient w)) [] evs
    /\ unsent w' = unsent w ++ stream (concat (event_message <$> evs)).
Proof.
  destruct (client_run_ok evs [] w x Hup) as (w' & Hrun & []); try done.
  { intros a. unfold pending. by rewrite Hnew. }
  by exists w'.
Qed.

End in_order.

(** Two applications: the answers about the second come first. *)
Definition note_success (c : Z) (data : option bytes) (x : list (Z * option bytes))
  : outcome (list (Z * option bytes)) := Ret (x ++ [(c, data)]).
Definition note_failure (c : Z) (tv : timeval) (x : list (Z * option bytes))
  : outcome (list (Z * option bytes)) := Ret (x ++ [(c, None)]).

Definition sample_events : list (client_event (C := Z)) :=
  [AskValue [97; 0] [111; 0] [1] true 10 11 12; AskValue [98; 0] [111; 0] [2] false 20 21 22;
   AskNextKey [97; 0] [111; 0] None 30 31 32;
   AnswerValue (DataResponse [98; 0] [111; 0] (Failure (Timeval 1 0)));
   AnswerValue (DataResponse [97; 0] [111; 0] (Success (Some [7])));
   Submit [97; 0] [DataChange (Some [111; 0]) true (Some [1]) None];
   GiveBack [97; 0] [111; 0] [1]].

Definition sample_client : client_world Z Z (list (Z * option bytes)) unit :=
  ClientWorld (gzochid_data_client_constructed (Some 2000) None) [] (gzochid_reconnectable_socket_new)
    ∅.

Lemma in_step_small (evs : list (client_event (C := Z))) (apps : list bytes) :
  (forall e, e ∈ evs -> match answer_of e with Some (_, r) => response_app r ∈ apps | None => True end) ->
  Forall (fun k => Forall (fun app =>
    (answered app (take k evs) <= length (asked app (take k evs)))%nat) apps) (seq 0 (S (length evs))) ->
  in_step evs.
Proof.
  intros Happs Hall k app.
  assert (Hk : take k evs = take (k `min` length evs) evs).
  { destruct (decide (k <= length evs)%nat); [by rewrite Nat.min_l|].
    rewrite Nat.min_r by lia. rewrite !take_ge by lia. done. }
  destruct (decide (app ∈ apps)) as [Hin|Hnin].
  - rewrite Hk. rewrite Forall_forall in Hall.
    specialize (Hall (k `min` length evs)%nat). rewrite Forall_forall in Hall.
    apply Hall; [|done]. apply list_elem_of_In, in_seq. lia.
  - assert (answered app (take k evs) = 0%nat) as ->; [|lia].
    unfold answered. destruct (omap (answers app) (take k evs)) as [|r l] eqn:Hl; [done|].
    exfalso. assert (Hr : r ∈ omap (answers app) (take k evs)) by (rewrite Hl; left).
    apply list_elem_of_omap in Hr as (e & He & Hr). apply Hnin.
    specialize (Happs e). unfold answers in Hr. destruct (answer_of e) as [[o r']|]; [|done].
    case_decide as Ha; [|done]. rewrite <- Ha. apply Happs.
    rewrite <- (take_drop k evs). apply elem_of_app. by left.
Qed.

Lemma dataclient_answers_in_order_witness :
  exists w', client_run note_success note_failure sample_events sample_client = Ret w'
    /\ caller w' = [(21, None); (10, Some [7])]
    /\ (forall app, pending app w' = drop (answered app sample_events) (asked app sample_events))
    /\ main_context (dataclient w') = main_context (dataclient sample_client)
         ++ sources 2000 500 [] sample_events
    /\ unsent w' = unsent sample_client ++ stream (concat (event_message <$> sample_events)).
Proof.
  apply (dataclient_answers_in_order note_success note_failure sample_events sample_client).
  - done.
  - done.
  - apply (in_step_small _ [[97; 0]; [98; 0]]).
    + apply Forall_forall. repeat constructor.
    + vm_compute. repeat constructor.
  - assert (H0 : forall b, cstring [b; 0] \/ b = 0).
    { intros b. destruct (decide (b = 0)); [by right|left]. exists [b]. by repeat constructor. }
    repeat constructor; try (by destruct (H0 97)); try (by destruct (H0 98));
      try (by destruct (H0 111)). by eexists.
  - reflexivity.
Defined.
