(* ===== verification/MetaClient.v ===== *)
(** * A node's connection to the meta server (metaclient.c, metaclient-protocol.c)

    A thread of the node keeps it connected: it tries to connect until it succeeds, gives
    the connection to the socket that the clients of channels, data and sessions write to,
    and waits until the connection fails.  When a connection is made the node logs in, before
    what the clients have written meanwhile is sent.  What arrives is routed to the client
    that it is for.

    The thread is a state machine, whose steps are what it does between two points where
    others may act on the connection.  Results of the network are given to its steps; the
    regular expression for the address of the meta server is a parameter. *)

From stdpp Require Import pretty.
From S2P Require Import Prelude.
From S2P Require Import Io.
From S2P Require Import Util.
From S2P Require Import DataProtocol.
From S2P Require Import Oids.
From S2P Require Import Socket.
From S2P Require Import Framing.
From S2P Require Import MetaProtocol.
From S2P Require Import Routing.
From S2P Require Import GameClient.
From S2P Require SessionClient.
From S2P Require ChannelClient.
From S2P Require DataClient.
#[local] Existing Instance DataClient.client_world_sockets.

Local Open Scope Z_scope.

(** ** State *)

Definition GZOCHID_METACLIENT_PROTOCOL_VERSION := 2.

Inductive meta_server_event :=
| META_SERVER_CONNECTED (connection_description : option bytes) (admin_server_base_url : option bytes)
| META_SERVER_DISCONNECTED.

Inductive meta_client_error :=
| GZOCHID_META_CLIENT_ERROR_ADDRESS
| GZOCHID_META_CLIENT_ERROR_SOCKET
| GZOCHID_META_CLIENT_ERROR_NETWORK.

(** Where the thread is: about to try to connect, with a new connection that the others do
    not know of, in the main loop, or at its end. *)
Inductive thread_position := Connecting | Attempted (client_socket : positive) | InLoop | Exited.

Record GzochidMetaClient := MetaClient {
  hostname : option bytes;
  port : Z;
  admin_server_base_url : option bytes;
  connection_description : option bytes;
  connect_attempt_interval_seconds : Z;
  running : bool;
  thread : option thread_position;
  loop_runs : bool;
  event_source : list meta_server_event
}.

Definition set_server (h : option bytes) (p : Z) (url : option bytes) (c : GzochidMetaClient) :=
  MetaClient h p url (connection_description c) (connect_attempt_interval_seconds c) (running c)
    (thread c) (loop_runs c) (event_source c).
Definition set_description (d : option bytes) (c : GzochidMetaClient) :=
  MetaClient (hostname c) (port c) (admin_server_base_url c) d (connect_attempt_interval_seconds c)
    (running c) (thread c) (loop_runs c) (event_source c).
Definition set_running (r : bool) (c : GzochidMetaClient) :=
  MetaClient (hostname c) (port c) (admin_server_base_url c) (connection_description c)
    (connect_attempt_interval_seconds c) r (thread c) (loop_runs c) (event_source c).
Definition set_thread (p : thread_position) (c : GzochidMetaClient) :=
  MetaClient (hostname c) (port c) (admin_server_base_url c) (connection_description c)
    (connect_attempt_interval_seconds c) (running c) (Some p) (loop_runs c) (event_source c).
Definition set_loop (b : bool) (c : GzochidMetaClient) :=
  MetaClient (hostname c) (port c) (admin_server_base_url c) (connection_description c)
    (connect_attempt_interval_seconds c) (running c) (thread c) b (event_source c).
Definition gzochid_event_dispatch (e : meta_server_event) (c : GzochidMetaClient) :=
  MetaClient (hostname c) (port c) (admin_server_base_url c) (connection_description c)
    (connect_attempt_interval_seconds c) (running c) (thread c) (loop_runs c) (event_source c ++ [e]).

Definition gzochid_meta_client_init : GzochidMetaClient :=
  MetaClient None 0 None None 0 false None false [].

(** The listener of the socket to the meta server. *)
Inductive listener := OnMetaClient.

(** A node: the meta client, the clients of channels and sessions with the game server and
    all sockets, the data client and those who ask it. *)
Record app_node (C O X I : Type) := AppNode {
  metaclient : GzochidMetaClient;
  game : node I listener;
  dataclient : DataClient.GzochidDataClient C O;
  caller : X
}.
Arguments AppNode {C O X I}.
Arguments metaclient {C O X I}.
Arguments game {C O X I}.
Arguments dataclient {C O X I}.
Arguments caller {C O X I}.

Section world.

Context {C O X I : Type}.
Abbreviation world := (app_node C O X I).

#[export] Program Instance app_node_sockets : HasSockets world :=
  {| sockets_of w := node_sockets (game w);
     set_sockets t w := AppNode (metaclient w) (set_sockets t (game w)) (dataclient w) (caller w) |}.
Solve All Obligations with (by intros; try done; repeat match goal with w : app_node _ _ _ _ |- _ => destruct w
  | w : node _ _ |- _ => destruct w end).

Definition set_metaclient (c : GzochidMetaClient) (w : world) : world :=
  AppNode c (game w) (dataclient w) (caller w).
Definition set_uplink (r : gzochid_reconnectable_socket listener) (t : sockets) (w : world) : world :=
  AppNode (metaclient w) (Node (applications (game w)) (game_clients (game w)) (task_queue (game w)) r t)
    (dataclient w) (caller w).

#[export] Program Instance game_part : Component world (node I listener) :=
  {| part := game; set_part v w := AppNode (metaclient w) v (dataclient w) (caller w) |}.
Solve All Obligations with (by intros).

#[export] Program Instance dataclient_part : Component world (DataClient.client_world C O X listener) :=
  {| part w := DataClient.ClientWorld (dataclient w) (caller w) (uplink (game w)) (node_sockets (game w));
     set_part v w :=
       AppNode (metaclient w) (game (set_uplink (DataClient.metaserver v) (DataClient.client_sockets v) w))
         (DataClient.dataclient v) (DataClient.caller v) |}.
Solve All Obligations with (by intros; try done; destruct v).

End world.

(** ** Connecting *)

Section metaclient.

Context {C O X I : Type}.
Abbreviation world := (app_node C O X I).
(** The socket to the meta server works on itself, the rest of the node and the sockets. *)
Abbreviation socket_world := (gzochid_reconnectable_socket listener * (world * sockets))%type.

Variable regex_match : bytes -> option (bytes * bytes).
Variable call_success : C -> option bytes -> X -> outcome X.
Variable call_failure : C -> timeval -> X -> outcome X.
Variable call_oids : O -> gzochid_data_oids_block -> X -> outcome X.

Definition to_socket (w : world) : socket_world := (uplink (game w), (w, node_sockets (game w))).
Definition from_socket (s : socket_world) : world := let '(r, (w, t)) := s in set_uplink r t w.

Definition format_message (opcode : Z) (payload : bytes) : outcome (bytes * Z) :=
  let len := Z.of_nat (length payload) in
  buf ← gzochi_common_io_write_short (s16 len) (malloc (len + 3)) 0;
  buf ← write_at buf 2 [opcode];
  buf ← memcpy_to buf 3 payload len;
  Ret (buf, len + 3).

Definition on_connect (l : listener) (s : socket_world) : outcome socket_world :=
  let '(r, (w, t)) := s in
  url ← deref (admin_server_base_url (metaclient w));
  n ← strlen url;
  payload ← byte_array_append [] [GZOCHID_METACLIENT_PROTOCOL_VERSION] 1;
  payload ← byte_array_append payload url (n + 1);
  '(buf, len) ← format_message GZOCHID_META_PROTOCOL_LOGIN payload;
  '(r, t) ← gzochid_reconnectable_socket_write buf len r t;
  Ret (r, (w, t)).

Definition on_disconnect (l : listener) (s : socket_world) : outcome socket_world := Ret s.

Definition client_free {W} (w : W) : outcome W := Ret w.

(** Of the protocol of a socket that is let go, only [client_free] is called. *)
Definition free_protocol : gzochid_client_protocol (world * sockets) :=
  ClientProtocol (fun _ _ => Ret false) (fun _ w => Ret (0, w)) Ret client_free.

Definition gzochid_metaclient_nullify_connection (w : world) : outcome world :=
  let w := set_metaclient (set_description None (metaclient w)) w in
  s ← gzochid_reconnectable_socket_disconnect on_disconnect free_protocol (to_socket w);
  let w := from_socket s in
  Ret (set_metaclient (set_loop false (gzochid_event_dispatch META_SERVER_DISCONNECTED (metaclient w))) w).

(** What [socket], [gethostbyname] and [connect] say. *)
Inductive network_result := Network (error : option meta_client_error).

(** The host and the port, with a colon between them. *)
Definition describe (h : bytes) (p : Z) : bytes :=
  h ++ [58] ++ bytes_of_string (pretty (Z.to_N p)) ++ [0].

Definition attempt_connect (r : network_result) (w : world)
  : outcome ((positive + meta_client_error) * world) :=
  match r with
  | Network (Some e) => Ret (inr e, w)
  | Network None =>
      let c := metaclient w in
      h ← deref (hostname c);
      let desc := describe h (port c) in
      let w := set_metaclient (set_description (Some desc) c) w in
      let t := node_sockets (game w) in
      let p := fresh (dom t) in
      t ← gzochid_client_socket_listen p (<[p := gzochid_client_socket_new desc]> t);
      Ret (inl p, set_sockets t w)
  end.

Definition move (p : thread_position) (w : world) : world :=
  set_metaclient (set_thread p (metaclient w)) w.

(** A step of the thread: one attempt to connect, giving the connection to the others,
    or leaving the main loop. *)
Definition handle_events (r : network_result) (w : world) : outcome world :=
  match thread (metaclient w) with
  | Some Connecting =>
      '(res, w) ← attempt_connect r w;
      Ret (match res with inl p => move (Attempted p) w | inr _ => w end)
  | Some (Attempted p) =>
      '(r, (w, t)) ← gzochid_reconnectable_socket_connect on_connect p (to_socket w);
      '(w, t) ← gzochid_client_socket_unref free_protocol p (w, t);
      let w := set_uplink r t w in
      Ret (if running (metaclient w) then
             let w := move InLoop w in set_metaclient (set_loop true (metaclient w)) w
           else move Exited w)
  | Some InLoop =>
      Ret (if loop_runs (metaclient w) then w
           else if running (metaclient w) then move Connecting w else move Exited w)
  | _ => Ret w
  end.

(** [atoi] of at most five digits. *)
Definition atoi (s : bytes) : Z := foldl (fun n d => 10 * n + (d - 48)) 0 s.

(** "localhost" *)
Definition default_hostname : bytes := bytes_of_string "localhost".

(** The address in the configuration, if it has one. *)
Definition extract_hostname_port (address : option bytes) (c : GzochidMetaClient)
  : option meta_client_error * GzochidMetaClient :=
  match address with
  | None => (None, set_server (Some default_hostname) 9001 (admin_server_base_url c) c)
  | Some hostname_port =>
      match regex_match hostname_port with
      | Some (h, port_str) => (None, set_server (Some h) (atoi port_str) (admin_server_base_url c) c)
      | None => (Some GZOCHID_META_CLIENT_ERROR_ADDRESS, c)
      end
  end.

(** The address of the administrative console, if that is enabled. *)
Definition init_admin_server_base_url (httpd_base_url : option bytes) (c : GzochidMetaClient)
  : GzochidMetaClient :=
  set_server (hostname c) (port c) (Some (default [0] httpd_base_url)) c.

Definition gzochid_metaclient_start (address httpd_base_url : option bytes) (interval : option Z) (w : world)
  : option meta_client_error * world :=
  let '(err, c) := extract_hostname_port address (metaclient w) in
  match err with
  | Some e => (Some e, set_metaclient c w)
  | None =>
      let c := init_admin_server_base_url httpd_base_url c in
      (None, set_metaclient (MetaClient (hostname c) (port c) (admin_server_base_url c)
               (connection_description c) (u32 (default 5 interval)) true (Some Connecting)
               (loop_runs c) (event_source c)) w)
  end.

(** Stopping, up to the wait for the thread, and after it; waiting for a thread that has not
    ended is [Fuel]. *)
Definition metaclient_stop_thread (w : world) : world :=
  match thread (metaclient w) with
  | Some _ => set_metaclient (set_loop false (set_running false (metaclient w))) w
  | None => w
  end.

Definition gzochid_metaclient_stop (w : world) : outcome world :=
  match thread (metaclient w) with
  | Some Exited =>
      w ← (match connection_description (metaclient w) with
           | Some _ => gzochid_metaclient_nullify_connection w
           | None => Ret w
           end);
      Ret (set_metaclient (set_server None 0 None (metaclient w)) w)
  | Some _ => Fuel
  | None => Ret w
  end.

(** ** The protocol *)

(** The length is a [short], which is extended with its sign; with three more bytes it is
    compared as an unsigned number.  A message of more than 2^15 bytes at the beginning
    of the buffer is therefore not found. *)
Definition client_can_dispatch (buffer : bytes) (w : world) : outcome bool :=
  let len := Z.of_nat (length buffer) in
  if 3 <=? len then
    payload_len ← gzochi_common_io_read_short buffer 0;
    Ret (u32 (payload_len + 3) <=? len)
  else Ret false.

Definition dispatch_login_response (data : bytes) (len : Z) (w : world) : outcome (bool * world) :=
  version ← read_at data 0;
  if negb (version =? GZOCHID_METACLIENT_PROTOCOL_VERSION) then Ret (false, w)
  else
    r ← gzochid_protocol_read_str (drop 1 data) (u64 (len - 1));
    match r with
    | None => Ret (false, w)
    | Some (url, url_len) =>
        let c := metaclient w in
        Ret (true, set_metaclient (gzochid_event_dispatch
               (META_SERVER_CONNECTED (connection_description c) (if 0 <? url_len then Some url else None)) c) w)
    end.

Definition channel_opcode (opcode : Z) : bool :=
  (opcode =? GZOCHID_CHANNEL_PROTOCOL_RELAY_JOIN_TO)
  || (opcode =? GZOCHID_CHANNEL_PROTOCOL_RELAY_LEAVE_TO)
  || (opcode =? GZOCHID_CHANNEL_PROTOCOL_RELAY_CLOSE_TO)
  || (opcode =? GZOCHID_CHANNEL_PROTOCOL_RELAY_MESSAGE_TO).

Definition data_opcode (opcode : Z) : bool :=
  (opcode =? GZOCHID_DATA_PROTOCOL_OIDS_RESPONSE)
  || (opcode =? GZOCHID_DATA_PROTOCOL_VALUE_RESPONSE)
  || (opcode =? GZOCHID_DATA_PROTOCOL_NEXT_KEY_RESPONSE).

Definition session_opcode (opcode : Z) : bool :=
  (opcode =? GZOCHID_SESSION_PROTOCOL_RELAY_DISCONNECT_TO)
  || (opcode =? GZOCHID_SESSION_PROTOCOL_RELAY_MESSAGE_TO).

Abbreviation data_protocol :=
  (DataClient.gzochid_dataclient_client_protocol (L := listener) call_success call_failure call_oids).

(** The body of the loop over the messages in the buffer. *)
Definition dispatch_message (buffer : bytes) (offset len : Z) (w : world) : outcome world :=
  opcode ← read_at buffer offset;
  if opcode =? GZOCHID_META_PROTOCOL_LOGIN_RESPONSE
  then '(_, w) ← dispatch_login_response (drop (Z.to_nat (offset + 1)) buffer) (u16 (len - 1)) w; Ret w
  else if channel_opcode opcode
  then delegate (protocol_dispatch ChannelClient.gzochid_channelclient_client_protocol) buffer offset len w
  else if data_opcode opcode
  then delegate (protocol_dispatch data_protocol) buffer offset len w
  else if session_opcode opcode
  then delegate (protocol_dispatch SessionClient.gzochid_sessionclient_client_protocol) buffer offset len w
  else Ret w.

Definition client_dispatch (buffer : bytes) (w : world) : outcome (Z * world) :=
  dispatch_frames dispatch_message buffer w.

Definition client_error : world -> outcome world := gzochid_metaclient_nullify_connection.

Definition gzochid_metaclient_client_protocol : gzochid_client_protocol world :=
  ClientProtocol client_can_dispatch client_dispatch client_error client_free.

(** The treatment of a message alone. *)
Definition route (m : bytes) (w : world) : outcome world :=
  let len := Z.of_nat (length m) in
  match m with
  | [] => Undef
  | opcode :: payload =>
      if opcode =? GZOCHID_META_PROTOCOL_LOGIN_RESPONSE
      then '(_, w) ← dispatch_login_response payload (Z.of_nat (length payload)) w; Ret w
      else if channel_opcode opcode
      then on_part (ChannelClient.dispatch_message m len) w
      else if data_opcode opcode
      then on_part (DataClient.dispatch_message call_success call_failure call_oids m len) w
      else if session_opcode opcode
      then on_part (SessionClient.dispatch_message m len) w
      else Ret w
  end.

(** Reading the version of an empty response goes past the message, and a message of more
    than 2^15 bytes is not found when it has arrived. *)
Definition metaclient_readable (m : bytes) : Prop :=
  m <> [GZOCHID_META_PROTOCOL_LOGIN_RESPONSE] /\ DataClient.dataclient_readable m
  /\ Z.of_nat (length m) <= 2 ^ 15.

End metaclient.

(** ** The protocol keeps to its messages *)

Section framed.

Context {C O X I : Type}.
Context {call_success : C -> option bytes -> X -> outcome X}.
Context {call_failure : C -> timeval -> X -> outcome X}.
Context {call_oids : O -> gzochid_data_oids_block -> X -> outcome X}.

Abbreviation world := (app_node C O X I).
Abbreviation handle := (dispatch_message (C := C) (O := O) (X := X) (I := I) call_success call_failure call_oids).
Abbreviation routed := (route (C := C) (O := O) (X := X) (I := I) call_success call_failure call_oids).

Lemma dispatch_login_response_blind (data : bytes) (len : Z) :
  blind (fun w : world => '(_, w) ← dispatch_login_response data len w; Ret w).
Proof.
  apply (blind_drop (dispatch_login_response data len)). unfold dispatch_login_response.
  apply (blind_with_bind (read_at data 0) (fun version w => if negb _ then Ret (false, w) else _)). intros v.
  destruct (negb _); [apply blind_with_ret|].
  apply (blind_with_bind (gzochid_protocol_read_str (drop 1 data) (u64 (len - 1)))
    (fun r w => match r with None => Ret (false, w) | Some (url, n) => _ end)).
  intros [[url n]|]; [|apply blind_with_ret]. split; [done|]. by intros p b w a w' [= <- <-].
Qed.

Lemma dispatch_login_response_local (payload post : bytes) (w : world) :
  payload <> [] -> Z.of_nat (length payload) < 2 ^ 16 ->
  dispatch_login_response (payload ++ post) (Z.of_nat (length payload)) w
  = dispatch_login_response payload (Z.of_nat (length payload)) w.
Proof.
  intros Hne Hlen. assert (0 < length payload)%nat by (destruct payload; simpl; [done|lia]).
  unfold dispatch_login_response. rewrite read_at_local by lia. rewrite drop_app_le by lia.
  rewrite read_str_local by (rewrite length_drop, u64_small by lia; lia). done.
Qed.

Lemma metaclient_route_in_buffer (pre m post : bytes) (w : world) :
  message_ok m -> metaclient_readable m ->
  handle (pre ++ frame m ++ post) (Z.of_nat (length pre) + 2) (Z.of_nat (length m)) w = routed m w.
Proof.
  intros Hm (Hr & Hd & _). pose proof Hm as (_ & H1 & H2). destruct m as [|opcode payload]; [simpl in H1; lia|].
  unfold dispatch_message, route. rewrite read_opcode. cbn [mbind outcome_bind].
  destruct (Z.eqb_spec opcode GZOCHID_META_PROTOCOL_LOGIN_RESPONSE) as [->|Hn].
  - rewrite drop_opcode. cbn [length] in H2 |- *.
    replace (u16 (Z.of_nat (S (length payload)) - 1)) with (Z.of_nat (length payload))
      by (rewrite unsigned_small; [lia|unfold in_unsigned; lia]).
    rewrite dispatch_login_response_local; [done| |lia]. intros ->. by apply Hr.
  - destruct (channel_opcode opcode).
    { by rewrite (delegate_message (FP := ChannelClient.channelclient_framed)). }
    destruct (data_opcode opcode).
    { by rewrite (delegate_message (FP := DataClient.dataclient_framed)). }
    destruct (session_opcode opcode); [|done].
    by rewrite (delegate_message (FP := SessionClient.sessionclient_framed)).
Qed.

Lemma metaclient_route_blind (m : bytes) : blind (routed m).
Proof.
  unfold route. destruct m as [|opcode payload]; [by split|].
  destruct (opcode =? _); [apply dispatch_login_response_blind|].
  destruct (channel_opcode opcode).
  { exact (blind_delegated (FP := ChannelClient.channelclient_framed) (opcode :: payload)). }
  destruct (data_opcode opcode).
  { exact (blind_delegated (FP := DataClient.dataclient_framed) (opcode :: payload)). }
  destruct (session_opcode opcode); [|apply blind_ret].
  exact (blind_delegated (FP := SessionClient.sessionclient_framed) (opcode :: payload)).
Qed.

Lemma metaclient_decides (b : bytes) (w : world) : exists ready, client_can_dispatch b w = Ret ready.
Proof.
  unfold client_can_dispatch. destruct (Z.leb_spec 3 (Z.of_nat (length b))) as [H|H]; [|by eexists].
  destruct b as [|x [|y b]]; cbn [length] in H; [lia..|]. by eexists.
Qed.

(** With the length in the range of a [short], the sign makes no difference. *)
Lemma metaclient_ready (m : bytes) (ms : list bytes) (rest : bytes) (w : world) :
  message_ok m -> Z.of_nat (length m) <= 2 ^ 15 ->
  client_can_dispatch (stream (m :: ms) ++ rest) w = Ret true.
Proof.
  intros Hm Hs. pose proof Hm as (_ & H1 & _). unfold client_can_dispatch.
  rewrite stream_cons, <- app_assoc, length_app, frame_length.
  destruct (Z.leb_spec 3 (Z.of_nat (2 + length m + length (stream ms ++ rest)))); [|lia].
  unfold frame at 1. rewrite <- app_assoc, (read_encoded_0 (Hbe := short_codec)). run. f_equal.
  change (8 * Z.of_nat 2) with 16. rewrite ?signed_mod, signed_small, unsigned_small
    by (unfold in_signed, in_unsigned; lia).
  apply Z.leb_le. lia.
Qed.

#[export] Instance metaclient_framed :
  FramedProtocol (gzochid_metaclient_client_protocol (I := I) call_success call_failure call_oids)
    handle routed metaclient_readable.
Proof.
  split; [intros; apply metaclient_decides|intros m ms rest w Hm (_ & _ & Hs); by apply metaclient_ready|done| | |].
  - intros pre m post w. apply metaclient_route_in_buffer.
  - intros p b m w. apply metaclient_route_blind.
  - intros p b m w w'. apply metaclient_route_blind.
Qed.

End framed.
