(* ===== verification/CacheEnv.v ===== *)
(** * The caching storage engine: state and point locks (storage-dataclient.c)

    An application node keeps what it borrowed from the meta server: the values and the
    locks on their keys, in an environment.  Locks are shared by the transactions of the
    node, which count their references; a lock that the data client wants released goes
    when its last reference does, and until then its key is noted as evicted.  The values
    that came with locks are in a cache, those that transactions wrote in a delegate
    engine, both with the time in front.

    Locks, requests for locks, range locks and transactions are in heaps, since tables,
    lists and threads share pointers to them.  A key of a table is the store and the
    contents of the key; bounds of ranges are [gbytes], whose identity the interval trees
    compare.  The callbacks given to the data client are the code's functions with their
    closure data, which is freed with the last of them that is called. *)

From S2P Require Import Prelude.
From S2P Require Import Io.
From S2P Require Import Util.
From S2P Require Import DataProtocol.
From S2P Require Import Itree.
From S2P Require Import LockMem.
From S2P Require Import Storage.
From S2P Require Import Socket.
From S2P Require Import DataServer.
From S2P Require Import DataClient.

Local Open Scope Z_scope.

(** ** Structures *)

Record dataclient_qualified_key := QualifiedKey { qk_store : store; qk_key : bytes }.

#[export] Instance qualified_key_eq_dec : EqDecision dataclient_qualified_key.
Proof. solve_decision. Defined.

#[export] Instance qualified_key_countable : Countable dataclient_qualified_key.
Proof.
  refine (inj_countable' (fun k => (qk_store k, qk_key k)) (fun k => QualifiedKey k.1 k.2) _).
  by intros [].
Defined.

Record dataclient_qualified_key_range := QualifiedKeyRange {
  kr_store : store;
  kr_from : option gbytes;
  kr_to : option gbytes
}.

Record dataclient_purgeable_key := PurgeableKey {
  purge_key_of : dataclient_qualified_key;
  release_timestamp : Z
}.

Record dataclient_lock := DataclientLock {
  lk_key : dataclient_qualified_key;
  lk_for_write : bool;
  lk_ref_count : Z
}.

Record dataclient_range_lock := DataclientRangeLock {
  rl_range : dataclient_qualified_key_range;
  rl_ref_count : Z
}.

Record dataclient_lock_request := LockRequest {
  rq_key : dataclient_qualified_key;
  rq_for_write : bool;
  rq_requested : bool;
  rq_next_request_time : Z;
  rq_ref_count : Z
}.

Record dataclient_range_lock_request := RangeLockRequest {
  rr_range : dataclient_qualified_key_range;
  rr_requested : bool;
  rr_next_request_time : Z;
  rr_ref_count : Z
}.

Record dataclient_evicted_key := EvictedKey {
  ek_key : dataclient_qualified_key;
  ek_lock_request : option positive
}.

Record dataclient_evicted_key_range := EvictedKeyRange {
  ekr_range : dataclient_qualified_key_range;
  ekr_range_lock_request : option positive
}.

Abbreviation range_tree := (gzochid_itree (option gbytes) positive).

(** The store's delegate is the same store of the delegate engine. *)
Record dataclient_database := Database {
  range_locks : range_tree;
  range_lock_requests : range_tree
}.

(** A transaction with the flags of its handle. *)
Record dataclient_transaction (T : Type) := DataclientTx {
  end_time : Z;
  tx_locks : gmap dataclient_qualified_key positive;
  tx_range_locks : range_tree;
  changeset : list gzochid_data_change;
  deleted_keys : list dataclient_qualified_key;
  delegate_tx : option T;
  rollback : bool;
  should_retry : bool
}.
Arguments DataclientTx {T}.
Arguments end_time {T}.
Arguments tx_locks {T}.
Arguments tx_range_locks {T}.
Arguments changeset {T}.
Arguments deleted_keys {T}.
Arguments delegate_tx {T}.
Arguments rollback {T}.
Arguments should_retry {T}.

Record callback_data := CallbackData {
  cb_store : store;
  cb_key : option gbytes;
  cb_for_write : bool
}.

(** The functions given to the data client. *)
Inductive cache_callback :=
| lock_success (d : callback_data)
| lock_failure (d : callback_data)
| lock_release (d : callback_data)
| range_lock_success (d : callback_data)
| range_lock_failure (d : callback_data)
| range_lock_release (d : callback_data).

(** What [lock_table_mutex] protects, with the heaps of locks and requests. *)
Record lock_tables := LockTables {
  locks : gmap dataclient_qualified_key positive;
  read_lock_requests : gmap dataclient_qualified_key positive;
  write_lock_requests : gmap dataclient_qualified_key positive;
  value_cache : gmap dataclient_qualified_key bytes;
  lock_heap : gmap positive dataclient_lock;
  request_heap : gmap positive dataclient_lock_request
}.

(** The range locks of the stores, with their heaps. *)
Record range_tables := RangeTables {
  databases : gmap store dataclient_database;
  range_heap : gmap positive dataclient_range_lock;
  range_request_heap : gmap positive dataclient_range_lock_request;
  evicted_key_ranges : list dataclient_evicted_key_range
}.

(** What [purge_mutex] protects, with the heap of transactions. *)
Record tx_tables (T : Type) := TxTables {
  transactions : list positive;
  purgeable_keys : list dataclient_purgeable_key;
  purge_threshold : Z;
  purging_keys : bool;
  tx_heap : gmap positive (dataclient_transaction T)
}.
Arguments TxTables {T}.
Arguments transactions {T}.
Arguments purgeable_keys {T}.
Arguments purge_threshold {T}.
Arguments purging_keys {T}.
Arguments tx_heap {T}.

Record dataclient_environment (E T : Type) := Environment {
  app_name : bytes;
  delegate_context : E;
  evicted_keys : list dataclient_evicted_key;
  lock_part : lock_tables;
  range_part : range_tables;
  tx_part : tx_tables T;
  next_address : positive
}.
Arguments Environment {E T}.
Arguments app_name {E T}.
Arguments delegate_context {E T}.
Arguments evicted_keys {E T}.
Arguments lock_part {E T}.
Arguments range_part {E T}.
Arguments tx_part {E T}.
Arguments next_address {E T}.

(** ** Changing one field *)

Definition set_locks x (t : lock_tables) : lock_tables :=
  LockTables x (read_lock_requests t) (write_lock_requests t) (value_cache t) (lock_heap t)
    (request_heap t).
Definition set_read_requests x (t : lock_tables) : lock_tables :=
  LockTables (locks t) x (write_lock_requests t) (value_cache t) (lock_heap t) (request_heap t).
Definition set_write_requests x (t : lock_tables) : lock_tables :=
  LockTables (locks t) (read_lock_requests t) x (value_cache t) (lock_heap t) (request_heap t).
Definition set_value_cache x (t : lock_tables) : lock_tables :=
  LockTables (locks t) (read_lock_requests t) (write_lock_requests t) x (lock_heap t) (request_heap t).
Definition set_lock_heap x (t : lock_tables) : lock_tables :=
  LockTables (locks t) (read_lock_requests t) (write_lock_requests t) (value_cache t) x (request_heap t).
Definition set_request_heap x (t : lock_tables) : lock_tables :=
  LockTables (locks t) (read_lock_requests t) (write_lock_requests t) (value_cache t) (lock_heap t) x.

Section environment.

Context {E T O L : Type}.
Abbreviation env := (dataclient_environment E T).
Abbreviation world := (client_world cache_callback O env L).

Definition set_delegate x (e : env) : env :=
  Environment (app_name e) x (evicted_keys e) (lock_part e) (range_part e) (tx_part e) (next_address e).
Definition set_evicted x (e : env) : env :=
  Environment (app_name e) (delegate_context e) x (lock_part e) (range_part e) (tx_part e) (next_address e).
Definition set_lock_part x (e : env) : env :=
  Environment (app_name e) (delegate_context e) (evicted_keys e) x (range_part e) (tx_part e) (next_address e).
Definition set_range_part x (e : env) : env :=
  Environment (app_name e) (delegate_context e) (evicted_keys e) (lock_part e) x (tx_part e) (next_address e).
Definition set_tx_part x (e : env) : env :=
  Environment (app_name e) (delegate_context e) (evicted_keys e) (lock_part e) (range_part e) x (next_address e).

Definition on_locks (f : lock_tables -> lock_tables) (e : env) : env := set_lock_part (f (lock_part e)) e.

(** A fresh address, for a heap or for the identity of a [GBytes]. *)
Definition new_address (e : env) : positive * env :=
  (next_address e,
   Environment (app_name e) (delegate_context e) (evicted_keys e) (lock_part e) (range_part e)
     (tx_part e) (Pos.succ (next_address e))).

(** Operations of the environment in the world of the data client. *)
Definition on_env (f : env -> env) (w : world) : world := set_caller (f (caller w)) w.

(** ** Names of stores *)

Definition store_name (s : store) : bytes :=
  match s with
  | Oids => oids_name
  | Names => names_name
  | Meta => [109; 101; 116; 97; 0]
  end.

(** ** Point locks *)

Definition lock_new (qualified_key : dataclient_qualified_key) (for_write : bool) (e : env)
  : positive * env :=
  let '(p, e) := new_address e in
  (p, on_locks (fun t => set_lock_heap (<[p := DataclientLock qualified_key for_write 1]> (lock_heap t)) t) e).

Definition put_lock (p : positive) (l : dataclient_lock) : env -> env :=
  on_locks (fun t => set_lock_heap (<[p := l]> (lock_heap t)) t).

Definition get_lock (p : positive) (e : env) : outcome dataclient_lock :=
  deref (lock_heap (lock_part e) !! p).

Definition lock_ref (p : positive) (e : env) : outcome env :=
  l ← get_lock p e;
  Ret (put_lock p (DataclientLock (lk_key l) (lk_for_write l) (lk_ref_count l + 1)) e).

Definition free_lock (p : positive) : env -> env :=
  on_locks (fun t => set_lock_heap (base.delete p (lock_heap t)) t).

Definition find_evicted_key (e : env) (qualified_key : dataclient_qualified_key)
  : option dataclient_evicted_key :=
  snd <$> list_find (fun k => ek_key k = qualified_key) (evicted_keys e).

(** The first record of the key is removed from the list. *)
Fixpoint remove_evicted (qualified_key : dataclient_qualified_key) (l : list dataclient_evicted_key)
  : list dataclient_evicted_key :=
  match l with
  | [] => []
  | k :: l => if decide (ek_key k = qualified_key) then l else k :: remove_evicted qualified_key l
  end.

(** The request of the first record of the key is set. *)
Fixpoint set_evicted_request (qualified_key : dataclient_qualified_key) (r : option positive)
    (l : list dataclient_evicted_key) : list dataclient_evicted_key :=
  match l with
  | [] => []
  | k :: l =>
      if decide (ek_key k = qualified_key) then EvictedKey (ek_key k) r :: l
      else k :: set_evicted_request qualified_key r l
  end.

Definition get_request (r : positive) (e : env) : outcome dataclient_lock_request :=
  deref (request_heap (lock_part e) !! r).

Definition put_request (r : positive) (q : dataclient_lock_request) : env -> env :=
  on_locks (fun t => set_request_heap (<[r := q]> (request_heap t)) t).

(** A waiter may ask from [time] on. *)
Definition set_next_request_time (time : Z) (r : positive) (e : env) : outcome env :=
  q ← get_request r e;
  Ret (put_request r (LockRequest (rq_key q) (rq_for_write q) (rq_requested q) time (rq_ref_count q)) e).

(** What is done about the evicted key whose lock was released. *)
Definition finish_eviction (now : Z) (qualified_key : dataclient_qualified_key)
    (evicted_key : option dataclient_evicted_key) (e : env) : outcome env :=
  match evicted_key with
  | Some k =>
      e ← (match ek_lock_request k with
           | Some lock_request => set_next_request_time now lock_request e
           | None => Ret e
           end);
      Ret (set_evicted (remove_evicted qualified_key (evicted_keys e)) e)
  | None => Ret e
  end.

Definition lock_unref (now : Z) (p : positive) (w : world) : outcome (bool * world) :=
  l ← get_lock p (caller w);
  let count := lk_ref_count l - 1 in
  if count <=? 0 then
    let evicted_key := find_evicted_key (caller w) (lk_key l) in
    w ← gzochid_dataclient_release_key (app_name (caller w)) (store_name (qk_store (lk_key l)))
          (qk_key (lk_key l)) w;
    let w := on_env (free_lock p) w in
    e ← finish_eviction now (lk_key l) evicted_key (caller w);
    Ret (true, set_caller e w)
  else Ret (false, on_env (put_lock p (DataclientLock (lk_key l) (lk_for_write l) count)) w).

(** ** Values with the time in front *)

Definition prefix_with_timestamp (now : Z) (src : bytes) : outcome bytes :=
  dst ← gzochi_common_io_write_long (s64 now) (MetaProtocol.malloc (Z.of_nat (length src) + 8)) 0;
  MetaProtocol.memcpy_to dst 8 src (Z.of_nat (length src)).

Definition prefix_bytes_with_timestamp := prefix_with_timestamp.

Definition create_empty_timestamped_value (now : Z) : outcome bytes :=
  gzochi_common_io_write_long (s64 now) (MetaProtocol.malloc 8) 0.

Definition create_empty_timestamped_bytes := create_empty_timestamped_value.

(** ** The answers to requests for point locks *)

(** The broadcast reaches the waiters when they are next scheduled. *)
Definition notify_waiters (lock_table : gmap dataclient_qualified_key positive)
    (qualified_key : dataclient_qualified_key) (e : env) : outcome unit :=
  match lock_table !! qualified_key with
  | Some lock_request => _ ← get_request lock_request e; Ret tt
  | None => Ret tt
  end.

(** The key of a point request is never null. *)
Definition callback_key (d : callback_data) : outcome dataclient_qualified_key :=
  k ← deref (cb_key d); Ret (QualifiedKey (cb_store d) (gb_data k)).

Definition lock_success_callback (now : Z) (data : option bytes) (d : callback_data) (e : env)
  : outcome env :=
  qualified_key ← callback_key d;
  e ← (match locks (lock_part e) !! qualified_key with
       | Some p =>
           if cb_for_write d then
             e ← lock_ref p e;
             l ← get_lock p e;
             Ret (put_lock p (DataclientLock (lk_key l) true (lk_ref_count l)) e)
           else Ret e
       | None =>
           let '(p, e) := lock_new qualified_key (cb_for_write d) e in
           Ret (on_locks (fun t => set_locks (<[qualified_key := p]> (locks t)) t) e)
       end);
  prefixed_data ← (match data with
                   | Some data => prefix_bytes_with_timestamp now data
                   | None => create_empty_timestamped_bytes now
                   end);
  let e := on_locks (fun t => set_value_cache (<[qualified_key := prefixed_data]> (value_cache t)) t) e in
  e ← (if cb_for_write d then
         _ ← notify_waiters (write_lock_requests (lock_part e)) qualified_key e;
         Ret (on_locks (fun t => set_write_requests
                (base.delete qualified_key (write_lock_requests t)) t) e)
       else Ret e);
  _ ← notify_waiters (read_lock_requests (lock_part e)) qualified_key e;
  Ret (on_locks (fun t => set_read_requests
         (base.delete qualified_key (read_lock_requests t)) t) e).

(** The time to ask again: milliseconds are added to a time in microseconds. *)
Definition retry_time (now : Z) (wait_time : timeval) : Z :=
  u64 (now + tv_sec wait_time * 1000 + tv_usec wait_time ÷ 1000).

Definition reset_request (now : Z) (wait_time : timeval) (lock_table : gmap dataclient_qualified_key positive)
    (qualified_key : dataclient_qualified_key) (e : env) : outcome env :=
  match lock_table !! qualified_key with
  | Some r =>
      q ← get_request r e;
      let e := put_request r (LockRequest (rq_key q) (rq_for_write q) false
                 (retry_time now wait_time) (rq_ref_count q)) e in
      _ ← notify_waiters lock_table qualified_key e;
      Ret e
  | None => Ret e
  end.

Definition lock_failure_callback (now : Z) (wait_time : timeval) (d : callback_data) (e : env)
  : outcome env :=
  qualified_key ← callback_key d;
  e ← (if cb_for_write d
       then reset_request now wait_time (write_lock_requests (lock_part e)) qualified_key e
       else Ret e);
  reset_request now wait_time (read_lock_requests (lock_part e)) qualified_key e.

Definition add_purgeable_key (now : Z) (qualified_key : dataclient_qualified_key) (e : env) : env :=
  let t := tx_part e in
  set_tx_part (TxTables (transactions t) (purgeable_keys t ++ [PurgeableKey qualified_key now])
    (purge_threshold t) (purging_keys t) (tx_heap t)) e.

Definition lock_release_callback (now : Z) (d : callback_data) (w : world) : outcome world :=
  qualified_key ← callback_key d;
  match locks (lock_part (caller w)) !! qualified_key with
  | None => Ret w
  | Some p =>
      '(released, w) ← lock_unref now p w;
      if negb (released : bool) then
        match find_evicted_key (caller w) qualified_key with
        | None => Ret (on_env (fun e => set_evicted (EvictedKey qualified_key None :: evicted_keys e) e) w)
        | Some _ => Ret w
        end
      else
        let w := on_env (on_locks (fun t => set_locks (base.delete qualified_key (locks t)) t)) w in
        let w := on_env (on_locks (fun t =>
                   set_value_cache (base.delete qualified_key (value_cache t)) t)) w in
        Ret (on_env (add_purgeable_key now qualified_key) w)
  end.

End environment.
