(* ===== verification/CacheLock.v ===== *)
(** * The caching storage engine: obtaining a point lock (storage-dataclient.c)

    [ensure_lock] gives a transaction a lock on a key: one it has, one the node has, or
    one that it asks the meta server for, with other transactions that wait for the same.
    What happens while it waits is a list of [wake]s: what other threads do to the world,
    the data client's callbacks among them, and the time when the wait ends, whether it
    was signalled or not; a list that is too short is [Fuel]. *)

From S2P Require Import Prelude.
From S2P Require Import DataProtocol.
From S2P Require Import Itree.
From S2P Require Import LockMem.
From S2P Require Import Storage.
From S2P Require Import Socket.
From S2P Require Import DataClient.
From S2P Require Import CacheEnv.

Local Open Scope Z_scope.

Section ensure.

Context {E T O L : Type}.
Abbreviation env := (dataclient_environment E T).
Abbreviation world := (client_world cache_callback O env L).

Record wake := Wake { others : world -> outcome world; wake_time : Z }.

(** ** The heap of transactions *)

Definition get_tx (x : positive) (w : world) : outcome (dataclient_transaction T) :=
  deref (tx_heap (tx_part (caller w)) !! x).

Definition put_tx (x : positive) (t : dataclient_transaction T) : world -> world :=
  on_env (fun e => let p := tx_part e in
    set_tx_part (TxTables (transactions p) (purgeable_keys p) (purge_threshold p) (purging_keys p)
      (<[x := t]> (tx_heap p))) e).

Definition set_tx_locks l (t : dataclient_transaction T) : dataclient_transaction T :=
  DataclientTx (end_time t) l (tx_range_locks t) (changeset t) (deleted_keys t) (delegate_tx t)
    (rollback t) (should_retry t).
Definition set_tx_range_locks l (t : dataclient_transaction T) : dataclient_transaction T :=
  DataclientTx (end_time t) (tx_locks t) l (changeset t) (deleted_keys t) (delegate_tx t)
    (rollback t) (should_retry t).
Definition set_changes c d (t : dataclient_transaction T) : dataclient_transaction T :=
  DataclientTx (end_time t) (tx_locks t) (tx_range_locks t) c d (delegate_tx t)
    (rollback t) (should_retry t).
Definition set_flags r s (t : dataclient_transaction T) : dataclient_transaction T :=
  DataclientTx (end_time t) (tx_locks t) (tx_range_locks t) (changeset t) (deleted_keys t)
    (delegate_tx t) r s.

(** ** Requests for locks *)

Definition lock_request_new (qualified_key : dataclient_qualified_key) (for_write : bool) (e : env)
  : positive * env :=
  let '(r, e) := new_address e in
  (r, put_request r (LockRequest qualified_key for_write false 0 1) e).

Definition lock_request_ref (r : positive) (e : env) : outcome env :=
  q ← get_request r e;
  Ret (put_request r (LockRequest (rq_key q) (rq_for_write q) (rq_requested q)
         (rq_next_request_time q) (rq_ref_count q + 1)) e).

Definition lock_request_unref (r : positive) (e : env) : outcome (bool * env) :=
  q ← get_request r e;
  let count := rq_ref_count q - 1 in
  if count <=? 0
  then Ret (true, on_locks (fun t => set_request_heap (base.delete r (request_heap t)) t) e)
  else Ret (false, put_request r (LockRequest (rq_key q) (rq_for_write q) (rq_requested q)
              (rq_next_request_time q) count) e).

(** The table of requests with an intention. *)
Definition insert_request (for_write : bool) (qualified_key : dataclient_qualified_key) (r : positive)
  : env -> env :=
  on_locks (fun t =>
    if for_write then set_write_requests (<[qualified_key := r]> (write_lock_requests t)) t
    else set_read_requests (<[qualified_key := r]> (read_lock_requests t)) t).

Definition remove_request (for_write : bool) (qualified_key : dataclient_qualified_key) : env -> env :=
  on_locks (fun t =>
    if for_write then set_write_requests (base.delete qualified_key (write_lock_requests t)) t
    else set_read_requests (base.delete qualified_key (read_lock_requests t)) t).

Definition find_request (for_write : bool) (qualified_key : dataclient_qualified_key) (e : env)
  : option positive :=
  (if for_write then write_lock_requests (lock_part e) else read_lock_requests (lock_part e))
    !! qualified_key.

(** ** Taking a reference to a lock of the node *)

Definition check_and_set_lock (x : positive) (qualified_key : dataclient_qualified_key)
    (for_write : bool) (w : world) : outcome (bool * world) :=
  match locks (lock_part (caller w)) !! qualified_key with
  | Some p =>
      enough ← (if for_write then l ← get_lock p (caller w); Ret (lk_for_write l) else Ret true);
      if (enough : bool) then
        t ← get_tx x w;
        match tx_locks t !! qualified_key with
        | Some _ => Ret (true, w)
        | None =>
            e ← lock_ref p (caller w);
            Ret (true, put_tx x (set_tx_locks (<[qualified_key := p]> (tx_locks t)) t) (set_caller e w))
        end
      else Ret (false, w)
  | None => Ret (false, w)
  end.

(** ** The wait *)

(** A thread that has its lock, or no time, gives up its reference to the request. *)
Definition leave_request (qualified_key : dataclient_qualified_key) (r : positive) (e : env)
  : outcome env :=
  q ← get_request r e;
  let for_write := rq_for_write q in
  '(last, e) ← lock_request_unref r e;
  if (last : bool) then
    let e := remove_request for_write qualified_key e in
    Ret (set_evicted (set_evicted_request qualified_key None (evicted_keys e)) e)
  else Ret e.

Definition finish (qualified_key : dataclient_qualified_key) (r : positive) (acquired : bool)
    (w : world) : outcome (bool * world) :=
  e ← leave_request qualified_key r (caller w);
  Ret (acquired, set_caller e w).

Definition time_out (x : positive) (w : world) : outcome world :=
  t ← get_tx x w; Ret (put_tx x (set_flags true true t) w).

Definition mark_requested (r : positive) (e : env) : outcome env :=
  q ← get_request r e;
  Ret (put_request r (LockRequest (rq_key q) (rq_for_write q) true (rq_next_request_time q)
         (rq_ref_count q)) e).

(** The key of the request, as a [GBytes] of the closure data. *)
Definition send_request (r : positive) (w : world) : outcome world :=
  q ← get_request r (caller w);
  let k := rq_key q in
  let '(i, e) := new_address (caller w) in
  let callback_data := CallbackData (qk_store k) (Some (GBytes i (qk_key k))) (rq_for_write q) in
  w ← gzochid_dataclient_request_value (app_name e) (store_name (qk_store k)) (qk_key k)
        (rq_for_write q) (lock_success callback_data) (lock_failure callback_data)
        (lock_release callback_data) (set_caller e w);
  e ← mark_requested r (caller w);
  Ret (set_caller e w).

Fixpoint lock_loop (wakes : list wake) (now : Z) (x : positive)
    (qualified_key : dataclient_qualified_key) (r : positive) (w : world)
  : outcome (bool * world) :=
  t ← get_tx x w;
  if end_time t <=? now then w ← time_out x w; finish qualified_key r false w
  else
    q ← get_request r (caller w);
    if negb (rq_requested q) && negb (rq_next_request_time q <=? now) then
      match wakes with
      | [] => Fuel
      | k :: wakes => w ← others k w; lock_loop wakes (wake_time k) x qualified_key r w
      end
    else
      w ← (if rq_requested q then Ret w else send_request r w);
      match wakes with
      | [] => Fuel
      | k :: wakes =>
          w ← others k w;
          q ← get_request r (caller w);
          '(acquired, w) ← check_and_set_lock x qualified_key (rq_for_write q) w;
          if (acquired : bool) then finish qualified_key r true w
          else lock_loop wakes (wake_time k) x qualified_key r w
      end.

(** ** The whole function *)

(** The request that the thread will wait for, with a reference of its own. *)
Definition join_request (x : positive) (qualified_key : dataclient_qualified_key) (for_write : bool)
    (w : world) : outcome (positive * world) :=
  match find_evicted_key (caller w) qualified_key with
  | Some evicted_key =>
      match ek_lock_request evicted_key with
      | None =>
          t ← get_tx x w;
          let '(r, e) := lock_request_new qualified_key for_write (caller w) in
          e ← set_next_request_time (if end_time t =? G_MAXINT64 then 0 else G_MAXINT64) r e;
          let e := set_evicted (set_evicted_request qualified_key (Some r) (evicted_keys e)) e in
          Ret (r, set_caller (insert_request for_write qualified_key r e) w)
      | Some r => e ← lock_request_ref r (caller w); Ret (r, set_caller e w)
      end
  | None =>
      match find_request for_write qualified_key (caller w) with
      | Some r => e ← lock_request_ref r (caller w); Ret (r, set_caller e w)
      | None =>
          let '(r, e) := lock_request_new qualified_key for_write (caller w) in
          Ret (r, set_caller (insert_request for_write qualified_key r e) w)
      end
  end.

Definition ensure_lock (wakes : list wake) (now : Z) (x : positive) (st : store) (key : bytes)
    (for_write : bool) (w : world) : outcome (bool * world) :=
  let qualified_key := QualifiedKey st key in
  t ← get_tx x w;
  held ← (match tx_locks t !! qualified_key with
          | Some p => if for_write then l ← get_lock p (caller w); Ret (lk_for_write l) else Ret true
          | None => Ret false
          end);
  if (held : bool) then Ret (true, w)
  else
    '(shared, w) ← check_and_set_lock x qualified_key for_write w;
    if (shared : bool) then Ret (true, w)
    else
      '(r, w) ← join_request x qualified_key for_write w;
      lock_loop wakes now x qualified_key r w.

End ensure.

Arguments wake E T O L : clear implicits.
