(* ===== verification/CacheRange.v ===== *)
(** * The caching storage engine: range locks (storage-dataclient.c)

    A range lock is on the keys from one that was asked for to the one that the meta
    server answered with; null bounds are the ends of the key space.  The range locks and
    the requests for them are in interval trees of their store; a request is for the range
    up to the end.  The functions are those of point locks with trees in the place of
    tables. *)

From S2P Require Import Prelude.
From S2P Require Import Util.
From S2P Require Import DataProtocol.
From S2P Require Import Itree.
From S2P Require Import LockMem.
From S2P Require Import Storage.
From S2P Require Import Socket.
From S2P Require Import DataClient.
From S2P Require Import CacheEnv.
From S2P Require Import CacheLock.

Local Open Scope Z_scope.

Section ranges.

Context {E T O L : Type}.
Abbreviation env := (dataclient_environment E T).
Abbreviation world := (client_world cache_callback O env L).

(** ** Heaps and trees *)

Definition on_ranges (f : range_tables -> range_tables) (e : env) : env :=
  set_range_part (f (range_part e)) e.

Definition get_range_lock (p : positive) (e : env) : outcome dataclient_range_lock :=
  deref (range_heap (range_part e) !! p).
Definition put_range_lock (p : positive) (l : dataclient_range_lock) : env -> env :=
  on_ranges (fun t => RangeTables (databases t) (<[p := l]> (range_heap t)) (range_request_heap t)
    (evicted_key_ranges t)).
Definition free_range_lock (p : positive) : env -> env :=
  on_ranges (fun t => RangeTables (databases t) (base.delete p (range_heap t)) (range_request_heap t)
    (evicted_key_ranges t)).

Definition get_range_request (r : positive) (e : env) : outcome dataclient_range_lock_request :=
  deref (range_request_heap (range_part e) !! r).
Definition put_range_request (r : positive) (q : dataclient_range_lock_request) : env -> env :=
  on_ranges (fun t => RangeTables (databases t) (range_heap t) (<[r := q]> (range_request_heap t))
    (evicted_key_ranges t)).
Definition free_range_request (r : positive) : env -> env :=
  on_ranges (fun t => RangeTables (databases t) (range_heap t) (base.delete r (range_request_heap t))
    (evicted_key_ranges t)).

Definition set_evicted_ranges (l : list dataclient_evicted_key_range) : env -> env :=
  on_ranges (fun t => RangeTables (databases t) (range_heap t) (range_request_heap t) l).

Definition get_database (st : store) (e : env) : outcome dataclient_database :=
  deref (databases (range_part e) !! st).
Definition put_database (st : store) (d : dataclient_database) : env -> env :=
  on_ranges (fun t => RangeTables (<[st := d]> (databases t)) (range_heap t) (range_request_heap t)
    (evicted_key_ranges t)).
Definition set_range_locks (t : range_tree) (d : dataclient_database) : dataclient_database :=
  Database t (range_lock_requests d).
Definition set_range_requests (t : range_tree) (d : dataclient_database) : dataclient_database :=
  Database (range_locks d) t.

Abbreviation tree_insert := (gzochid_itree_insert range_lower_comparator range_upper_comparator).
Abbreviation tree_remove := (gzochid_itree_remove range_lower_comparator range_upper_comparator).
Abbreviation tree_search_interval :=
  (gzochid_itree_search_interval range_lower_comparator range_upper_comparator).
Abbreviation tree_search := (gzochid_itree_search range_lower_comparator range_upper_comparator).

(** ** Range locks *)

Definition range_lock_new (key_range : dataclient_qualified_key_range) (e : env) : positive * env :=
  let '(p, e) := new_address e in (p, put_range_lock p (DataclientRangeLock key_range 1) e).

Definition range_lock_ref (p : positive) (e : env) : outcome env :=
  l ← get_range_lock p e;
  Ret (put_range_lock p (DataclientRangeLock (rl_range l) (rl_ref_count l + 1)) e).

Definition dataclient_qualified_key_range_compare (a b : dataclient_qualified_key_range) : bool :=
  bool_decide (kr_store a = kr_store b)
  && (range_lower_comparator (kr_from a) (kr_from b) =? 0)
  && (range_upper_comparator (kr_to a) (kr_to b) =? 0).

Definition find_evicted_key_range (e : env) (key_range : dataclient_qualified_key_range)
  : option dataclient_evicted_key_range :=
  snd <$> list_find (fun k => Is_true (dataclient_qualified_key_range_compare (ekr_range k) key_range))
            (evicted_key_ranges (range_part e)).

Fixpoint remove_evicted_range (key_range : dataclient_qualified_key_range)
    (l : list dataclient_evicted_key_range) : list dataclient_evicted_key_range :=
  match l with
  | [] => []
  | k :: l =>
      if dataclient_qualified_key_range_compare (ekr_range k) key_range then l
      else k :: remove_evicted_range key_range l
  end.

Fixpoint set_evicted_range_request (key_range : dataclient_qualified_key_range) (r : option positive)
    (l : list dataclient_evicted_key_range) : list dataclient_evicted_key_range :=
  match l with
  | [] => []
  | k :: l =>
      if dataclient_qualified_key_range_compare (ekr_range k) key_range
      then EvictedKeyRange (ekr_range k) r :: l
      else k :: set_evicted_range_request key_range r l
  end.

Definition set_range_request_time (time : Z) (r : positive) (e : env) : outcome env :=
  q ← get_range_request r e;
  Ret (put_range_request r (RangeLockRequest (rr_range q) (rr_requested q) time (rr_ref_count q)) e).

Definition finish_range_eviction (now : Z) (key_range : dataclient_qualified_key_range)
    (evicted : option dataclient_evicted_key_range) (e : env) : outcome env :=
  match evicted with
  | Some k =>
      e ← (match ekr_range_lock_request k with
           | Some r => set_range_request_time now r e
           | None => Ret e
           end);
      Ret (set_evicted_ranges (remove_evicted_range key_range (evicted_key_ranges (range_part e))) e)
  | None => Ret e
  end.

(** The eviction is noted for the range that was requested, which has no upper bound. *)
Definition range_lock_unref (now : Z) (p : positive) (w : world) : outcome (bool * world) :=
  l ← get_range_lock p (caller w);
  let count := rl_ref_count l - 1 in
  let kr := rl_range l in
  if count <=? 0 then
    let requested := QualifiedKeyRange (kr_store kr) (kr_from kr) None in
    let evicted := find_evicted_key_range (caller w) requested in
    w ← gzochid_dataclient_release_key_range (app_name (caller w)) (store_name (kr_store kr))
          (gb_data <$> kr_from kr) (gb_data <$> kr_to kr) w;
    let w := on_env (free_range_lock p) w in
    e ← finish_range_eviction now requested evicted (caller w);
    Ret (true, set_caller e w)
  else Ret (false, on_env (put_range_lock p (DataclientRangeLock kr count)) w).

(** ** Visitors of the trees

    The data of a node is read as a request or a lock, of which both start with the range. *)

Definition range_of_lock (e : env) (data : positive) : outcome dataclient_qualified_key_range :=
  l ← get_range_lock data e; Ret (rl_range l).
Definition range_of_request (e : env) (data : positive) : outcome dataclient_qualified_key_range :=
  q ← get_range_request data e; Ret (rr_range q).

(** A visitor stops at the first node that it accepts; what it reads may be undefined. *)
Definition visitor (range_of : positive -> outcome dataclient_qualified_key_range) (st : store)
    (accepts : option gbytes -> option gbytes -> outcome bool)
    (from to : option gbytes) (data : positive) (found : outcome (option positive))
  : bool * outcome (option positive) :=
  match (kr ← range_of data;
         if bool_decide (kr_store kr = st) then accepts from to else Ret false) with
  | Ret true => (true, Ret (Some data))
  | Ret false => (false, found)
  | Abort => (true, Abort)
  | Undef => (true, Undef)
  | Fuel => (true, Fuel)
  end.

Definition find_exact_range_lock_request (e : env) (st : store) (search_from search_to : option gbytes) :=
  visitor (range_of_request e) st (fun from to =>
    Ret ((range_lower_comparator from search_from =? 0) && (range_upper_comparator to search_to =? 0))).

(** [g_bytes_equal] does not take null. *)
Definition g_bytes_equal (a b : option gbytes) : outcome bool :=
  a ← deref a; b ← deref b; Ret (bool_decide (gb_data a = gb_data b)).

Definition find_exact_range_lock (e : env) (st : store) (search_from search_to : option gbytes) :=
  visitor (range_of_lock e) st (fun from to =>
    same ← g_bytes_equal from search_from;
    if (same : bool) then g_bytes_equal to search_to else Ret false).

Definition find_covering_range_lock_request (e : env) (st : store) (search_from search_to : option gbytes) :=
  visitor (range_of_request e) st (fun from to =>
    Ret ((range_lower_comparator from search_from <=? 0) && (0 <=? range_upper_comparator to search_to))).

Definition covers_point (search_from from to : option gbytes) : bool :=
  match search_from with
  | None => bool_decide (from = None)
  | Some _ => (0 <=? range_lower_comparator search_from from)
              && (range_upper_comparator search_from to <? 0)
  end.

Definition find_range_lock_covering_point (e : env) (st : store) (search_from : option gbytes) :=
  visitor (range_of_lock e) st (fun from to => Ret (covers_point search_from from to)).

(** This one does not look at the store. *)
Definition find_range_lock_from (search_from : option gbytes)
    (from to : option gbytes) (data : positive) (found : outcome (option positive))
  : bool * outcome (option positive) :=
  match (if bool_decide (from = None) && bool_decide (search_from = None) then Ret true
         else g_bytes_equal from search_from) with
  | Ret true => (true, Ret (Some data))
  | Ret false => (false, found)
  | Abort => (true, Abort)
  | Undef => (true, Undef)
  | Fuel => (true, Fuel)
  end.

(** ** The answers to requests for range locks *)

Definition range_lock_success_callback (key : option gbytes) (d : callback_data) (e : env)
  : outcome env :=
  let st := cb_store d in
  db ← get_database st e;
  r ← tree_search_interval (range_locks db) (cb_key d) key
        (find_exact_range_lock e st (cb_key d) key) (Ret None);
  existing ← r;
  '(db, e) ← (match existing with
              | Some _ => Ret (db, e)
              | None =>
                  let '(p, e) := range_lock_new (QualifiedKeyRange st (cb_key d) key) e in
                  t ← tree_insert (range_locks db) (cb_key d) key p;
                  Ret (set_range_locks t db, e)
              end);
  r ← tree_search_interval (range_lock_requests db) (cb_key d) None
        (find_exact_range_lock_request e st (cb_key d) None) (Ret None);
  request ← r;
  _ ← (match request with Some r => _ ← get_range_request r e; Ret tt | None => Ret tt end);
  t ← tree_remove (range_lock_requests db) (cb_key d) None;
  Ret (put_database st (set_range_requests t db) e).

Definition range_lock_failure_callback (now : Z) (wait_time : timeval) (d : callback_data) (e : env)
  : outcome env :=
  let st := cb_store d in
  db ← get_database st e;
  r ← tree_search_interval (range_lock_requests db) (cb_key d) None
        (find_exact_range_lock_request e st (cb_key d) None) (Ret None);
  request ← r;
  match request with
  | Some r =>
      q ← get_range_request r e;
      Ret (put_range_request r (RangeLockRequest (rr_range q) false (retry_time now wait_time)
             (rr_ref_count q)) e)
  | None => Ret e
  end.

Definition range_lock_release_callback (now : Z) (d : callback_data) (w : world) : outcome world :=
  let st := cb_store d in
  db ← get_database st (caller w);
  r ← tree_search_interval (range_locks db) (cb_key d) None (find_range_lock_from (cb_key d)) (Ret None);
  found ← r;
  match found with
  | None => Ret w
  | Some p =>
      l ← get_range_lock p (caller w);
      let from := kr_from (rl_range l) in
      t ← tree_remove (range_locks db) from (kr_to (rl_range l));
      let w := on_env (put_database st (set_range_locks t db)) w in
      '(released, w) ← range_lock_unref now p w;
      if (released : bool) then Ret w
      else Ret (on_env (fun e => set_evicted_ranges
                  (EvictedKeyRange (QualifiedKeyRange st from None) None
                     :: evicted_key_ranges (range_part e)) e) w)
  end.

(** ** Requests for range locks *)

Definition range_lock_request_new (key_range : dataclient_qualified_key_range) (e : env)
  : positive * env :=
  let '(r, e) := new_address e in (r, put_range_request r (RangeLockRequest key_range false 0 1) e).

Definition range_lock_request_ref (r : positive) (e : env) : outcome env :=
  q ← get_range_request r e;
  Ret (put_range_request r (RangeLockRequest (rr_range q) (rr_requested q) (rr_next_request_time q)
         (rr_ref_count q + 1)) e).

Definition range_lock_request_unref (r : positive) (e : env) : outcome (bool * env) :=
  q ← get_range_request r e;
  let count := rr_ref_count q - 1 in
  if count <=? 0 then Ret (true, free_range_request r e)
  else Ret (false, put_range_request r (RangeLockRequest (rr_range q) (rr_requested q)
              (rr_next_request_time q) count) e).

Definition check_and_set_range_lock (x : positive) (st : store) (from : option gbytes) (w : world)
  : outcome (bool * world) :=
  db ← get_database st (caller w);
  r ← tree_search_interval (range_locks db) from None
        (find_range_lock_covering_point (caller w) st from) (Ret None);
  found ← r;
  match found with
  | Some p =>
      l ← get_range_lock p (caller w);
      e ← range_lock_ref p (caller w);
      t ← get_tx x w;
      tree ← tree_insert (tx_range_locks t) (kr_from (rl_range l)) (kr_to (rl_range l)) p;
      Ret (true, put_tx x (set_tx_range_locks tree t) (set_caller e w))
  | None => Ret (false, w)
  end.

(** ** The wait for a range lock *)

Definition leave_range_request (st : store) (key_bytes : option gbytes) (r : positive) (e : env)
  : outcome env :=
  q ← get_range_request r e;
  let kr := rr_range q in
  '(last, e) ← range_lock_request_unref r e;
  if (last : bool) then
    db ← get_database st e;
    t ← tree_remove (range_lock_requests db) (kr_from kr) (kr_to kr);
    let e := put_database st (set_range_requests t db) e in
    Ret (set_evicted_ranges (set_evicted_range_request (QualifiedKeyRange st key_bytes None) None
           (evicted_key_ranges (range_part e))) e)
  else Ret e.

Definition send_range_request (st : store) (r : positive) (w : world) : outcome world :=
  q ← get_range_request r (caller w);
  let from := kr_from (rr_range q) in
  let callback_data := CallbackData st from false in
  w ← gzochid_dataclient_request_next_key (app_name (caller w)) (store_name st) (gb_data <$> from)
        (range_lock_success callback_data) (range_lock_failure callback_data)
        (range_lock_release callback_data) w;
  q ← get_range_request r (caller w);
  Ret (on_env (put_range_request r (RangeLockRequest (rr_range q) true (rr_next_request_time q)
         (rr_ref_count q))) w).

Fixpoint range_lock_loop (wakes : list (wake E T O L)) (now : Z) (x : positive) (st : store)
    (key_bytes : option gbytes) (r : positive) (w : world) : outcome (bool * world) :=
  t ← get_tx x w;
  if end_time t <=? now then
    w ← time_out x w;
    e ← leave_range_request st key_bytes r (caller w);
    Ret (false, set_caller e w)
  else
    q ← get_range_request r (caller w);
    if negb (rr_requested q) && negb (rr_next_request_time q <=? now) then
      match wakes with
      | [] => Fuel
      | k :: wakes => w ← others k w; range_lock_loop wakes (wake_time k) x st key_bytes r w
      end
    else
      w ← (if rr_requested q then Ret w else send_range_request st r w);
      match wakes with
      | [] => Fuel
      | k :: wakes =>
          w ← others k w;
          q ← get_range_request r (caller w);
          '(acquired, w) ← check_and_set_range_lock x st (kr_from (rr_range q)) w;
          if (acquired : bool) then
            e ← leave_range_request st key_bytes r (caller w);
            Ret (true, set_caller e w)
          else range_lock_loop wakes (wake_time k) x st key_bytes r w
      end.

(** The request that the thread will wait for, if it is assigned to the variable that the
    loop uses: one that is found in the tree of the store is not.  That search is given the
    pointer to the characters of the key in the place of its [GBytes], which a comparison
    with the bounds of a node reads as one; it is null for the first key. *)
Definition join_range_request (st : store) (key_bytes : option gbytes) (w : world)
  : outcome (option positive * world) :=
  db ← get_database st (caller w);
  let requested := QualifiedKeyRange st key_bytes None in
  match find_evicted_key_range (caller w) requested with
  | Some evicted =>
      match ekr_range_lock_request evicted with
      | None =>
          let '(r, e) := range_lock_request_new requested (caller w) in
          e ← set_range_request_time G_MAXINT64 r e;
          let e := set_evicted_ranges (set_evicted_range_request requested (Some r)
                     (evicted_key_ranges (range_part e))) e in
          t ← tree_insert (range_lock_requests db) key_bytes None r;
          Ret (Some r, set_caller (put_database st (set_range_requests t db) e) w)
      | Some r => e ← range_lock_request_ref r (caller w); Ret (Some r, set_caller e w)
      end
  | None =>
      found ← (match key_bytes, root (range_lock_requests db) with
               | Some _, Some _ => Undef
               | _, _ =>
                   r ← tree_search (range_lock_requests db) None
                         (find_covering_range_lock_request (caller w) st key_bytes None) (Ret None);
                   r
               end);
      match found with
      | Some r => e ← range_lock_request_ref r (caller w); Ret (None, set_caller e w)
      | None =>
          let '(r, e) := range_lock_request_new requested (caller w) in
          t ← tree_insert (range_lock_requests db) key_bytes None r;
          Ret (Some r, set_caller (put_database st (set_range_requests t db) e) w)
      end
  end.

(** The locks of the transaction are searched first, then those of the node. *)
Definition ensure_range_lock (wakes : list (wake E T O L)) (now : Z) (x : positive) (st : store)
    (key : option bytes) (w : world) : outcome (bool * world) :=
  let '(key_bytes, w) := match key with
    | None => (None, w)
    | Some k => let '(i, e) := new_address (caller w) in (Some (GBytes i k), set_caller e w)
    end in
  t ← get_tx x w;
  r ← tree_search_interval (tx_range_locks t) key_bytes None
        (find_range_lock_covering_point (caller w) st key_bytes) (Ret None);
  held ← r;
  match held with
  | Some _ => Ret (true, w)
  | None =>
      '(shared, w) ← check_and_set_range_lock x st key_bytes w;
      if (shared : bool) then Ret (true, w)
      else
        '(r, w) ← join_range_request st key_bytes w;
        (* the loop reads the fields of the request *)
        match r with
        | None => Undef
        | Some r => range_lock_loop wakes now x st key_bytes r w
        end
  end.

End ranges.
