(* ===== verification/CacheTx.v ===== *)
(** * The caching storage engine: transactions (storage-dataclient.c)

    The operations of the storage interface over the node's locks, the cache and the
    delegate engine.  A value in the delegate has the time of its writing in front, one in
    the cache the time when it was borrowed; the later one counts.  Keys whose locks were
    released are removed from the delegate when there are many and no transaction runs.
    The order in which a table of locks is walked is the parameter [enumerate]. *)

From S2P Require Import Prelude.
From S2P Require Import Io.
From S2P Require Import Util.
From S2P Require Import DataProtocol.
From S2P Require Import Itree.
From S2P Require Import LockMem.
From S2P Require Import Storage.
From S2P Require Import Socket.
From S2P Require Import DataClient.
From S2P Require Import CacheEnv.
From S2P Require Import CacheLock.
From S2P Require Import CacheRange.

Local Open Scope Z_scope.

Definition DEFAULT_PURGE_THRESHOLD : Z := 1024.

Section transactions.

Context {E T O L : Type}.
Variable engine : gzochid_storage_engine_interface E T.
Variable enumerate : gmap dataclient_qualified_key positive -> list (dataclient_qualified_key * positive).

Abbreviation env := (dataclient_environment E T).
Abbreviation world := (client_world cache_callback O env L).

(** ** Environments and stores *)

(** [e] is the new context of the delegate engine. *)
Definition initialize (app : bytes) (e : E) : env :=
  Environment app e [] (LockTables ∅ ∅ ∅ ∅ ∅ ∅) (RangeTables ∅ ∅ ∅ [])
    (TxTables [] [] DEFAULT_PURGE_THRESHOLD false ∅) 1.

Definition open (st : store) : env -> env :=
  put_database st (Database gzochid_itree_new gzochid_itree_new).

(** ** The callbacks of the data client *)

Definition call_success (now : Z) (c : cache_callback) (data : option bytes) (e : env) : outcome env :=
  match c with
  | lock_success d => lock_success_callback now data d e
  | range_lock_success d =>
      match data with
      | None => range_lock_success_callback None d e
      | Some k => let '(i, e) := new_address e in range_lock_success_callback (Some (GBytes i k)) d e
      end
  | _ => Undef
  end.

Definition call_failure (now : Z) (c : cache_callback) (wait_time : timeval) (e : env) : outcome env :=
  match c with
  | lock_failure d => lock_failure_callback now wait_time d e
  | range_lock_failure d => range_lock_failure_callback now wait_time d e
  | _ => Undef
  end.

Definition call_release (now : Z) (c : cache_callback) (w : world) : outcome world :=
  match c with
  | lock_release d => lock_release_callback now d w
  | range_lock_release d => range_lock_release_callback now d w
  | _ => Undef
  end.

(** ** Beginning *)

Definition set_purge (l : list positive) (k : list dataclient_purgeable_key) (b : bool) (e : env) : env :=
  set_tx_part (TxTables l k (purge_threshold (tx_part e)) b (tx_heap (tx_part e))) e.

(** No transaction starts while keys are purged. *)
Fixpoint await_purge (wakes : list (wake E T O L)) (w : world) : outcome world :=
  if purging_keys (tx_part (caller w)) then
    match wakes with
    | [] => Fuel
    | k :: wakes => w ← others k w; await_purge wakes w
    end
  else Ret w.

Definition create_transaction (wakes : list (wake E T O L)) (delegate : option T) (end_time : Z)
    (w : world) : outcome (positive * world) :=
  let '(x, e) := new_address (caller w) in
  let w := put_tx x (DataclientTx end_time ∅ gzochid_itree_new [] [] delegate false false)
             (set_caller e w) in
  w ← await_purge wakes w;
  let t := tx_part (caller w) in
  Ret (x, on_env (set_purge (x :: transactions t) (purgeable_keys t) (purging_keys t)) w).

Definition transaction_begin (wakes : list (wake E T O L)) (w : world) : outcome (positive * world) :=
  let '(delegate, c) := Storage.transaction_begin engine (delegate_context (caller w)) in
  create_transaction wakes delegate G_MAXINT64 (on_env (set_delegate c) w).

Definition transaction_begin_timed (wakes : list (wake E T O L)) (now : Z) (timeout : timeval)
    (w : world) : outcome (positive * world) :=
  let '(delegate, c) := Storage.transaction_begin_timed engine timeout (delegate_context (caller w)) in
  let duration_usec := tv_sec timeout * 1000000 + tv_usec timeout in
  create_transaction wakes delegate (s64 (now + duration_usec)) (on_env (set_delegate c) w).

(** ** The cache *)

Definition get_prefixed_cache_value (e : env) (qualified_key : dataclient_qualified_key) : option bytes :=
  value_cache (lock_part e) !! qualified_key.

Definition get_value_from_cache (e : env) (qualified_key : dataclient_qualified_key) : option bytes :=
  match get_prefixed_cache_value e qualified_key with
  | None => None
  | Some prefixed_value =>
      if Z.of_nat (length prefixed_value) <=? 8 then None else Some (drop 8 prefixed_value)
  end.

Definition get_timestamp_from_cache (e : env) (qualified_key : dataclient_qualified_key) : outcome Z :=
  match get_prefixed_cache_value e qualified_key with
  | None => Ret 0
  | Some prefixed_value =>
      _ ← c_assert (8 <=? Z.of_nat (length prefixed_value));
      gzochi_common_io_read_long prefixed_value 0
  end.

(** ** Purging *)

Definition purge_key (delegate : T) (purgeable_key : dataclient_purgeable_key) (e : env) : outcome env :=
  let qk := purge_key_of purgeable_key in
  _ ← get_database (qk_store qk) e;
  let '(value, c) := Storage.transaction_get engine delegate (qk_store qk) (qk_key qk) (delegate_context e) in
  let e := set_delegate c e in
  e ← (match value with
       | Some value =>
           timestamp ← gzochi_common_io_read_long value 0;
           if timestamp <=? release_timestamp purgeable_key then
             let '(ret, c) := Storage.transaction_delete engine delegate (qk_store qk) (qk_key qk)
                                (delegate_context e) in
             _ ← c_assert (negb (ret =? GZOCHID_STORAGE_ETXFAILURE));
             Ret (set_delegate c e)
           else Ret e
       | None => Ret e
       end);
  cache_timestamp ← get_timestamp_from_cache e qk;
  if cache_timestamp <=? release_timestamp purgeable_key
  then Ret (on_locks (fun t => set_value_cache (base.delete qk (value_cache t)) t) e)
  else Ret e.

Fixpoint purge_loop (delegate : T) (l : list dataclient_purgeable_key) (e : env) : outcome env :=
  match l with
  | [] => Ret e
  | k :: l => e ← purge_key delegate k e; purge_loop delegate l e
  end.

Definition purge_keys (e : env) : outcome env :=
  let '(o, c) := Storage.transaction_begin engine (delegate_context e) in
  delegate ← deref o;
  let e := set_delegate c e in
  e ← purge_loop delegate (purgeable_keys (tx_part e)) e;
  let c := Storage.transaction_prepare engine delegate (delegate_context e) in
  _ ← c_assert (negb (Storage.tx_rollback engine delegate c));
  let c := Storage.transaction_commit engine delegate c in
  let e := set_delegate c e in
  Ret (set_purge (transactions (tx_part e)) [] (purging_keys (tx_part e)) e).

(** ** The end of a transaction *)

(** The locks of the transaction are given up; those that nobody has are gone. *)
Fixpoint unref_locks (now : Z) (l : list (dataclient_qualified_key * positive))
    (released_keys : list dataclient_qualified_key) (w : world)
  : outcome (list dataclient_qualified_key * world) :=
  match l with
  | [] => Ret (released_keys, w)
  | (k, p) :: l =>
      '(released, w) ← lock_unref now p w;
      unref_locks now l (if (released : bool) then released_keys ++ [k] else released_keys) w
  end.

Definition remove_locks (keys : list dataclient_qualified_key) : env -> env :=
  on_locks (fun t => set_locks (foldl (fun m k => base.delete k m) (locks t) keys) t).

Definition unref_range_visitor (now : Z) (from to : option gbytes) (data : positive) (r : outcome world)
  : bool * outcome world :=
  match r with
  | Ret w =>
      match range_lock_unref now data w with
      | Ret (_, w) => (false, Ret w)
      | Abort => (true, Abort)
      | Undef => (true, Undef)
      | Fuel => (true, Fuel)
      end
  | _ => (true, r)
  end.

Fixpoint await_transactions (wakes : list (wake E T O L)) (w : world) : outcome world :=
  match transactions (tx_part (caller w)) with
  | [] => Ret w
  | _ :: _ =>
      match wakes with
      | [] => Fuel
      | k :: wakes => w ← others k w; await_transactions wakes w
      end
  end.

Definition free_tx (x : positive) : env -> env := fun e =>
  let t := tx_part e in
  set_tx_part (TxTables (transactions t) (purgeable_keys t) (purge_threshold t) (purging_keys t)
    (base.delete x (tx_heap t))) e.

Definition cleanup_transaction (wakes : list (wake E T O L)) (now : Z) (x : positive) (w : world)
  : outcome world :=
  t ← get_tx x w;
  '(released_keys, w) ← unref_locks now (enumerate (tx_locks t)) [] w;
  let w := on_env (remove_locks released_keys) w in
  r ← gzochid_itree_search_interval range_lower_comparator range_upper_comparator (tx_range_locks t)
        None None (unref_range_visitor now) (Ret w);
  w ← r;
  (* its tables, its change set and its list of keys are freed *)
  let w := put_tx x (DataclientTx (end_time t) ∅ gzochid_itree_new [] [] (delegate_tx t) (rollback t)
             (should_retry t)) w in
  let p := tx_part (caller w) in
  let w := on_env (set_purge (delete_link x (transactions p)) (purgeable_keys p) (purging_keys p)) w in
  let p := tx_part (caller w) in
  w ← (if (purge_threshold p <? Z.of_nat (length (purgeable_keys p))) && negb (purging_keys p) then
         let w := on_env (set_purge (transactions p) (purgeable_keys p) true) w in
         w ← await_transactions wakes w;
         e ← purge_keys (caller w);
         Ret (set_caller (set_purge (transactions (tx_part e)) (purgeable_keys (tx_part e)) false e) w)
       else Ret w);
  Ret (on_env (free_tx x) w).

Definition forget_values (keys : list dataclient_qualified_key) : env -> env :=
  on_locks (fun t => set_value_cache (foldl (fun m k => base.delete k m) (value_cache t) keys) t).

Definition transaction_commit (wakes : list (wake E T O L)) (now : Z) (x : positive) (w : world)
  : outcome world :=
  t ← get_tx x w;
  delegate ← deref (delegate_tx t);
  let w := on_env (fun e => set_delegate (Storage.transaction_commit engine delegate (delegate_context e)) e) w in
  w ← (if 0 <? Z.of_nat (length (changeset t))
       then gzochid_dataclient_submit_changeset (app_name (caller w)) (changeset t) w
       else Ret w);
  cleanup_transaction wakes now x (on_env (forget_values (deleted_keys t)) w).

Definition transaction_rollback (wakes : list (wake E T O L)) (now : Z) (x : positive) (w : world)
  : outcome world :=
  t ← get_tx x w;
  delegate ← deref (delegate_tx t);
  cleanup_transaction wakes now x
    (on_env (fun e => set_delegate (Storage.transaction_rollback engine delegate (delegate_context e)) e) w).

Definition transaction_prepare (x : positive) (w : world) : outcome world :=
  t ← get_tx x w;
  delegate ← deref (delegate_tx t);
  Ret (on_env (fun e => set_delegate (Storage.transaction_prepare engine delegate (delegate_context e)) e) w).

(** ** Reading and writing *)

Definition propagate_transaction_status (x : positive) (w : world) : outcome world :=
  t ← get_tx x w;
  if rollback t then Ret w
  else
    delegate ← deref (delegate_tx t);
    let c := delegate_context (caller w) in
    Ret (put_tx x (set_flags (Storage.tx_rollback engine delegate c)
           (Storage.tx_should_retry engine delegate c) t) w).

Definition is_deleted (t : dataclient_transaction T) (qualified_key : dataclient_qualified_key) : bool :=
  bool_decide (qualified_key ∈ deleted_keys t).

Definition get_internal (wakes : list (wake E T O L)) (now : Z) (x : positive) (st : store) (key : bytes)
    (for_write : bool) (w : world) : outcome (option bytes * world) :=
  let qualified_key := QualifiedKey st key in
  '(ok, w) ← ensure_lock wakes now x st key for_write w;
  if negb (ok : bool) then Ret (None, w)
  else
    t ← get_tx x w;
    if is_deleted t qualified_key then Ret (None, w)
    else
      delegate ← deref (delegate_tx t);
      let '(store_value, c) :=
        (if for_write then Storage.transaction_get_for_update else Storage.transaction_get)
          engine delegate st key (delegate_context (caller w)) in
      w ← propagate_transaction_status x (on_env (set_delegate c) w);
      t ← get_tx x w;
      if rollback t then Ret (None, w)
      else
        cache_timestamp ← get_timestamp_from_cache (caller w) qualified_key;
        store_timestamp ← (match store_value with
                           | Some v =>
                               _ ← c_assert (8 <? Z.of_nat (length v));
                               gzochi_common_io_read_long v 0
                           | None => Ret 0
                           end);
        if store_timestamp <? cache_timestamp
        then Ret (get_value_from_cache (caller w) qualified_key, w)
        else Ret (drop 8 <$> store_value, w).

Definition transaction_get (wakes : list (wake E T O L)) (now : Z) (x : positive) (st : store)
    (key : bytes) (w : world) : outcome (option bytes * world) :=
  get_internal wakes now x st key false w.

Definition transaction_get_for_update (wakes : list (wake E T O L)) (now : Z) (x : positive) (st : store)
    (key : bytes) (w : world) : outcome (option bytes * world) :=
  get_internal wakes now x st key true w.

(** [now'] is the time when the value is written. *)
Definition transaction_put (wakes : list (wake E T O L)) (now now' : Z) (x : positive) (st : store)
    (key value : bytes) (w : world) : outcome world :=
  '(ok, w) ← ensure_lock wakes now x st key true w;
  if negb (ok : bool) then Ret w
  else
    t ← get_tx x w;
    delegate ← deref (delegate_tx t);
    prefixed_value ← prefix_with_timestamp now' value;
    let w := on_env (fun e => set_delegate (Storage.transaction_put engine delegate st key prefixed_value
                                              (delegate_context e)) e) w in
    w ← propagate_transaction_status x w;
    t ← get_tx x w;
    if rollback t then Ret w
    else
      let change := DataChange (Some (store_name st)) false (Some key) (Some value) in
      Ret (put_tx x (set_changes (changeset t ++ [change]) (deleted_keys t) t) w).

Definition transaction_delete (wakes : list (wake E T O L)) (now : Z) (x : positive) (st : store)
    (key : bytes) (w : world) : outcome (Z * world) :=
  let qualified_key := QualifiedKey st key in
  '(ok, w) ← ensure_lock wakes now x st key true w;
  if negb (ok : bool) then Ret (GZOCHID_STORAGE_ETXFAILURE, w)
  else
    t ← get_tx x w;
    delegate ← deref (delegate_tx t);
    let '(ret, c) := Storage.transaction_delete engine delegate st key (delegate_context (caller w)) in
    let w := on_env (set_delegate c) w in
    let ret :=
      if (ret =? GZOCHID_STORAGE_ENOTFOUND)
         && bool_decide (is_Some (value_cache (lock_part (caller w)) !! qualified_key))
         && negb (is_deleted t qualified_key)
      then 0 else ret in
    let w :=
      if ret =? 0 then
        let change := DataChange (Some (store_name st)) true (Some key) None in
        put_tx x (set_changes (changeset t ++ [change]) (deleted_keys t ++ [qualified_key]) t) w
      else w in
    w ← propagate_transaction_status x w;
    Ret (ret, w).

(** ** Keys in order *)

(** The key comes from the lock, not from the delegate. *)
Definition covering_range_lock (x : positive) (st : store) (key_bytes : option gbytes) (w : world)
  : outcome (option dataclient_range_lock) :=
  t ← get_tx x w;
  r ← gzochid_itree_search_interval range_lower_comparator range_upper_comparator (tx_range_locks t)
        key_bytes None (find_range_lock_covering_point (caller w) st key_bytes) (Ret None);
  found ← r;
  match found with
  | Some p => l ← get_range_lock p (caller w); Ret (Some l)
  | None => Ret None
  end.

(** The data of a null [GBytes] is read when the store is empty. *)
Definition transaction_first_key (wakes : list (wake E T O L)) (now : Z) (x : positive) (st : store)
    (w : world) : outcome (option bytes * world) :=
  '(ok, w) ← ensure_range_lock wakes now x st None w;
  if negb (ok : bool) then Ret (None, w)
  else
    l ← covering_range_lock x st None w;
    match l with
    | Some l => to ← deref (kr_to (rl_range l)); Ret (Some (gb_data to), w)
    | None => Ret (None, w)
    end.

Definition transaction_next_key (wakes : list (wake E T O L)) (now : Z) (x : positive) (st : store)
    (key : bytes) (w : world) : outcome (option bytes * world) :=
  '(ok, w) ← ensure_range_lock wakes now x st (Some key) w;
  if negb (ok : bool) then Ret (None, w)
  else
    let '(i, e) := new_address (caller w) in
    let w := set_caller e w in
    l ← covering_range_lock x st (Some (GBytes i key)) w;
    match l with
    | Some l => Ret (gb_data <$> kr_to (rl_range l), w)
    | None => Ret (None, w)
    end.

End transactions.
