(* ===== verification/CacheCount.v ===== *)
(** * The caching storage engine: counting the references of locks

    What the counts of locks should be, on the tables alone: the locks of the node by key
    with their heap, the locks that each transaction has, and the sources of the main
    context, of which some will release a lock.  A lock is used by the sources for its key
    and the transactions that have it. *)

From S2P Require Import Prelude.
From S2P Require Import Storage.
From S2P Require Import LockMem.
From S2P Require Import DataClient.
From S2P Require Import CacheEnv.

Local Open Scope nat_scope.

Abbreviation key_locks := (gmap dataclient_qualified_key positive).
Abbreviation source := (@timeout_source cache_callback).

(** The key of the lock that a callback will release. *)
Definition release_key (c : cache_callback) : option dataclient_qualified_key :=
  match c with
  | lock_release d => k ← cb_key d; Some (QualifiedKey (cb_store d) (gb_data k))
  | _ => None
  end.

Definition releases (k : dataclient_qualified_key) (s : source) : bool :=
  bool_decide (release_key (release_callback (source_data s)) = Some k).

Definition pending (k : dataclient_qualified_key) (S : list source) : nat :=
  sum_list_with (fun s => Nat.b2n (releases k s)) S.

Definition has (k : dataclient_qualified_key) (m : key_locks) : nat :=
  Nat.b2n (bool_decide (is_Some (m !! k))).

Definition holders (k : dataclient_qualified_key) (X : gmap positive key_locks) : nat :=
  size (filter (fun xm => is_Some (xm.2 !! k)) X).

Definition uses (k : dataclient_qualified_key) (X : gmap positive key_locks) (S : list source) : nat :=
  pending k S + holders k X.

Arguments pending : simpl never.
Arguments holders : simpl never.
Arguments has : simpl never.

(** ** Counting *)

Lemma holders_insert k X x m :
  holders k (<[x := m]> X) = holders k (base.delete x X) + has k m.
Proof.
  unfold holders, has. rewrite <- (insert_delete_eq X). rewrite map_filter_insert. cbn.
  case_decide as Hk.
  - rewrite map_size_insert_None.
    + rewrite bool_decide_true by done. cbn. lia.
    + apply map_lookup_filter_None. left. apply lookup_delete_eq.
  - rewrite bool_decide_false by done. cbn. rewrite delete_delete_eq. lia.
Qed.

Lemma holders_lookup k X x m :
  X !! x = Some m -> holders k X = holders k (base.delete x X) + has k m.
Proof. intros Hx. by rewrite <- holders_insert, insert_id. Qed.

Lemma holders_change k X x m m' : X !! x = Some m ->
  holders k (<[x := m']> X) + has k m = holders k X + has k m'.
Proof. intros Hx. rewrite holders_insert, (holders_lookup k X x m Hx). lia. Qed.

Lemma holders_none k X x m : holders k X = 0 -> X !! x = Some m -> m !! k = None.
Proof.
  intros Hz Hx. pose proof (holders_lookup k X x m Hx) as He. unfold has in He.
  case_bool_decide as Hk; [cbn in He; lia|]. by apply eq_None_not_Some.
Qed.

Lemma holders_some k X : holders k X <> 0 -> exists x m, X !! x = Some m /\ is_Some (m !! k).
Proof.
  intros Hs. unfold holders in Hs. destruct (map_choose (filter (fun xm => is_Some (xm.2 !! k)) X))
    as (x & m & Hx).
  - intros He. rewrite He in Hs. by rewrite map_size_empty in Hs.
  - apply map_lookup_filter_Some in Hx as [? ?]. eauto.
Qed.

Lemma pending_snoc k S s : pending k (S ++ [s]) = pending k S + Nat.b2n (releases k s).
Proof. unfold pending. rewrite sum_list_with_app. cbn. lia. Qed.

Lemma pending_delete k S i s : S !! i = Some s ->
  pending k (base.delete i S) + Nat.b2n (releases k s) = pending k S.
Proof.
  intros Hi. unfold pending. rewrite delete_take_drop.
  rewrite <- (take_drop_middle S i s Hi) at 3. rewrite !sum_list_with_app. cbn. lia.
Qed.

Lemma has_insert k j p (m : key_locks) : m !! j = None ->
  has k (<[j := p]> m) = has k m + Nat.b2n (bool_decide (k = j)).
Proof.
  intros Hj. unfold has. destruct (decide (k = j)) as [->|Hn].
  - rewrite lookup_insert_eq, Hj, (bool_decide_true (is_Some (Some p))) by done.
    by rewrite (bool_decide_true (j = j)), bool_decide_false by (done || by intros []).
  - rewrite lookup_insert_ne by done. rewrite (bool_decide_false (k = j)) by done. cbn. lia.
Qed.

Lemma has_delete k j p (m : key_locks) : m !! j = Some p ->
  has k (base.delete j m) + Nat.b2n (bool_decide (k = j)) = has k m.
Proof.
  intros Hj. rewrite <- (insert_delete_id m j p Hj) at 2.
  by rewrite has_insert by apply lookup_delete_eq.
Qed.

Lemma has_empty k : has k ∅ = 0.
Proof. unfold has. rewrite lookup_empty, bool_decide_false; [done|]. by intros []. Qed.

(** ** The counts are right *)

Record Counted (K : key_locks) (H : gmap positive dataclient_lock) (X : gmap positive key_locks)
    (S : list source) : Prop := {
  counted_lock k p : K !! k = Some p ->
    exists l, H !! p = Some l /\ lk_key l = k /\ lk_ref_count l = Z.of_nat (uses k X S)
              /\ 0 < uses k X S;
  counted_heap p l : H !! p = Some l -> K !! lk_key l = Some p;
  counted_held x m k p : X !! x = Some m -> m !! k = Some p -> K !! k = Some p;
  counted_idle k : K !! k = None -> pending k S = 0
}.

Section counted.

Context {K : key_locks} {H : gmap positive dataclient_lock} {X : gmap positive key_locks}
        {S : list source}.
Hypothesis HC : Counted K H X S.

Lemma counted_unused k : K !! k = None -> uses k X S = 0.
Proof.
  intros Hk. unfold uses. rewrite (counted_idle _ _ _ _ HC k Hk).
  destruct (decide (holders k X = 0)) as [->|Hs]; [done|].
  destruct (holders_some k X Hs) as (x & m & Hx & [p Hp]).
  by rewrite (counted_held _ _ _ _ HC x m k p Hx Hp) in Hk.
Qed.

Lemma counted_found k p l : K !! k = Some p -> H !! p = Some l ->
  lk_key l = k /\ lk_ref_count l = Z.of_nat (uses k X S) /\ 0 < uses k X S.
Proof.
  intros Hk Hp. destruct (counted_lock _ _ _ _ HC k p Hk) as (l' & ? & ? & ? & ?). by simplify_eq.
Qed.

(** Another pointer to the heap is the lock of another key. *)
Lemma counted_other k j p q : K !! k = Some p -> K !! j = Some q -> j <> k -> p <> q.
Proof.
  intros Hk Hj Hn ->. destruct (counted_lock _ _ _ _ HC k q Hk) as (l & Hl & <- & _).
  destruct (counted_lock _ _ _ _ HC j q Hj) as (l' & Hl' & <- & _). by simplify_eq.
Qed.

(** A new lock for a key that had none. *)
Lemma counted_new k p b S' :
  K !! k = None -> H !! p = None ->
  (forall j, pending j S' = pending j S + Nat.b2n (bool_decide (j = k))) ->
  Counted (<[k := p]> K) (<[p := DataclientLock k b 1]> H) X S'.
Proof.
  intros Hk Hp HS. pose proof (counted_unused k Hk) as Hu. split.
  - intros j q. destruct (decide (j = k)) as [->|Hn].
    + rewrite lookup_insert_eq. intros [= <-]. rewrite lookup_insert_eq.
      eexists. split_and!; [done|done| |]; cbn; unfold uses in *; rewrite HS;
        rewrite bool_decide_true by done; cbn; lia.
    + rewrite lookup_insert_ne by done. intros Hj.
      destruct (counted_lock _ _ _ _ HC j q Hj) as (l & Hl & Hlk & Hc & Hpos).
      assert (p <> q) by (intros ->; congruence).
      exists l. rewrite lookup_insert_ne by done. unfold uses in *. rewrite HS.
      rewrite (bool_decide_false (j = k)) by done. cbn. rewrite Nat.add_0_r. done.
  - intros q l. destruct (decide (q = p)) as [->|Hn].
    + rewrite lookup_insert_eq. intros [= <-]. cbn. apply lookup_insert_eq.
    + rewrite lookup_insert_ne by done. intros Hq.
      pose proof (counted_heap _ _ _ _ HC q l Hq) as Hl.
      rewrite lookup_insert_ne; [done|]. intros He. congruence.
  - intros x m j q Hx Hj. pose proof (counted_held _ _ _ _ HC x m j q Hx Hj).
    rewrite lookup_insert_ne; [done|]. intros ->. congruence.
  - intros j. destruct (decide (j = k)) as [->|Hn]; [by rewrite lookup_insert_eq|].
    rewrite lookup_insert_ne by done. intros Hj. rewrite HS, (counted_idle _ _ _ _ HC j Hj).
    by rewrite bool_decide_false.
Qed.

(** The count of the lock changes with its uses, which stay. *)
Lemma counted_recount k p b (c : Z) X' S' :
  K !! k = Some p ->
  c = Z.of_nat (uses k X' S') -> 0 < uses k X' S' ->
  (forall j, j <> k -> uses j X' S' = uses j X S) ->
  (forall j, j <> k -> pending j S' = pending j S) ->
  (forall x m j q, X' !! x = Some m -> m !! j = Some q -> K !! j = Some q) ->
  Counted K (<[p := DataclientLock k b c]> H) X' S'.
Proof.
  intros Hk -> Hpos Hu Hpend Hheld. split; [| |done|].
  - intros j q Hj. destruct (decide (j = k)) as [->|Hn].
    + simplify_eq. rewrite lookup_insert_eq. by eexists.
    + rewrite lookup_insert_ne by (by apply (counted_other k j)). rewrite Hu by done.
      by apply (counted_lock _ _ _ _ HC).
  - intros q l. destruct (decide (q = p)) as [->|Hn].
    + rewrite lookup_insert_eq. by intros [= <-].
    + rewrite lookup_insert_ne by done. apply (counted_heap _ _ _ _ HC).
  - intros j Hj. rewrite Hpend by congruence. by apply (counted_idle _ _ _ _ HC).
Qed.

(** The lock goes with its last use. *)
Lemma counted_gone k p X' S' :
  K !! k = Some p ->
  uses k X' S' = 0 ->
  (forall j, j <> k -> uses j X' S' = uses j X S) ->
  (forall j, j <> k -> pending j S' = pending j S) ->
  (forall x m j q, X' !! x = Some m -> m !! j = Some q -> K !! j = Some q) ->
  Counted (base.delete k K) (base.delete p H) X' S'.
Proof.
  intros Hk Hz Hu Hpend Hheld. split.
  - intros j q. rewrite lookup_delete_Some. intros [Hn Hj].
    rewrite lookup_delete_ne by (by apply (counted_other k j)). rewrite Hu by done.
    by apply (counted_lock _ _ _ _ HC).
  - intros q l. rewrite lookup_delete_Some. intros [Hn Hq].
    pose proof (counted_heap _ _ _ _ HC q l Hq) as Hl.
    rewrite lookup_delete_ne; [done|]. intros He. congruence.
  - intros x m j q Hx Hj. rewrite lookup_delete_ne; [by eapply Hheld|].
    intros <-. rewrite (holders_none k X' x m) in Hj; [done| |done]. unfold uses in Hz. lia.
  - intros j. destruct (decide (j = k)) as [->|Hn].
    + intros _. unfold uses in Hz. lia.
    + rewrite lookup_delete_ne by done. rewrite Hpend by done. apply (counted_idle _ _ _ _ HC).
Qed.

(** A source that releases no lock. *)
Lemma counted_sources S' : (forall j, pending j S' = pending j S) -> Counted K H X S'.
Proof.
  intros HS. destruct HC as [Hl Hh Hd Hi]. split; [|done|done|].
  - intros k p Hk. unfold uses. rewrite HS. by apply Hl.
  - intros k Hk. rewrite HS. by apply Hi.
Qed.

(** Transactions that have the same locks, or none where there was no transaction. *)
Lemma counted_transactions X' :
  (forall k, holders k X' = holders k X) ->
  (forall x m j q, X' !! x = Some m -> m !! j = Some q -> K !! j = Some q) ->
  Counted K H X' S.
Proof.
  intros HX Hheld. destruct HC as [Hl Hh Hd Hi]. split; [|done|done|done].
  intros k p Hk. unfold uses. rewrite HX. by apply Hl.
Qed.

End counted.

Lemma counted_start : Counted ∅ ∅ ∅ [].
Proof. by split; intros; simplify_map_eq. Qed.
