(* ===== verification/CacheFrame.v ===== *)
(** * The caching storage engine: what most of its steps leave alone

    Requests, evictions, range locks and the messages to the meta server are changed in
    many places, but the point locks, the values, the keys to purge and what transactions
    read and wrote in few: [quiet] says that a step left the latter alone. *)

From S2P Require Import Prelude.
From S2P Require Import DataProtocol.
From S2P Require Import Itree.
From S2P Require Import LockMem.
From S2P Require Import Storage.
From S2P Require Import Socket.
From S2P Require Import MetaProtocol.
From S2P Require Import DataClient.
From S2P Require Import CacheEnv.
From S2P Require Import CacheLock.
From S2P Require Import CacheRange.

Local Open Scope Z_scope.

Create HintDb quiet.

Section frame.

Context {E T O L : Type}.
Abbreviation env := (dataclient_environment E T).
Abbreviation world := (client_world cache_callback O env L).

(** ** Quiet steps *)

Definition core (t : dataclient_transaction T) :=
  (end_time t, tx_locks t, changeset t, deleted_keys t, delegate_tx t).

Definition essence (e : env) :=
  (locks (lock_part e), lock_heap (lock_part e), value_cache (lock_part e), delegate_context e,
   purgeable_keys (tx_part e), core <$> tx_heap (tx_part e), app_name e, transactions (tx_part e),
   purging_keys (tx_part e)).

(** A transaction that has to be rolled back stays so. *)
Definition flags_stay (e e' : env) : Prop :=
  forall x t t', tx_heap (tx_part e) !! x = Some t -> tx_heap (tx_part e') !! x = Some t' ->
    rollback t = true -> rollback t' = true.

Definition env_quiet (e e' : env) : Prop :=
  essence e' = essence e /\ (next_address e <= next_address e')%positive /\ flags_stay e e'.

(** The callbacks of a request are those of one lock or of one range lock. *)
Definition registration_ok (r : dataclient_callback_registration cache_callback) : Prop :=
  match success_callback r with
  | lock_success d =>
      expected_opcode r = GZOCHID_DATA_PROTOCOL_VALUE_RESPONSE
      /\ failure_callback r = lock_failure d /\ release_callback r = lock_release d
      /\ is_Some (cb_key d)
  | range_lock_success d =>
      expected_opcode r = GZOCHID_DATA_PROTOCOL_NEXT_KEY_RESPONSE
      /\ failure_callback r = range_lock_failure d /\ release_callback r = range_lock_release d
  | _ => False
  end.

Definition registrations_ok (w : world) : Prop :=
  forall app q, application_callback_queues (dataclient w) !! app = Some q ->
    Forall registration_ok (callback_registrations q).

Definition quiet (w w' : world) : Prop :=
  env_quiet (caller w) (caller w') /\ main_context (dataclient w') = main_context (dataclient w)
  /\ (registrations_ok w -> registrations_ok w').

Lemma env_quiet_refl e : env_quiet e e.
Proof. split_and!; [done|lia|]. intros x t t'. congruence. Qed.

Lemma essence_tx e e' x t : essence e' = essence e -> tx_heap (tx_part e) !! x = Some t ->
  exists t', tx_heap (tx_part e') !! x = Some t' /\ core t' = core t.
Proof.
  unfold essence. intros He0 Hx.
  assert (He : core <$> tx_heap (tx_part e') = core <$> tx_heap (tx_part e)) by congruence.
  assert (Hc : (core <$> tx_heap (tx_part e')) !! x = Some (core t)) by by rewrite He, lookup_fmap, Hx.
  rewrite lookup_fmap in Hc. destruct (tx_heap (tx_part e') !! x) as [t'|]; [|done].
  exists t'. split; [done|]. cbn [fmap option_fmap option_map] in Hc. congruence.
Qed.

Lemma env_quiet_trans e0 e1 e2 : env_quiet e0 e1 -> env_quiet e1 e2 -> env_quiet e0 e2.
Proof.
  intros (He & Hn & Hf) (He' & Hn' & Hf'). split_and!; [congruence|lia|].
  intros x t t2 Ht Ht2 Hr. destruct (essence_tx e0 e1 x t He Ht) as (t1 & Ht1 & _). eauto.
Qed.

Lemma quiet_reflexive w : quiet w w.
Proof. split_and!; [apply env_quiet_refl|done|done]. Qed.

Lemma quiet_transitive w0 w1 w2 : quiet w0 w1 -> quiet w1 w2 -> quiet w0 w2.
Proof.
  intros (He & Hs & Hr) (He' & Hs' & Hr'). split_and!; [by eapply env_quiet_trans|congruence|auto].
Qed.

(** Steps that change nothing that matters in the environment. *)
Lemma env_quiet_same e0 e e' :
  env_quiet e0 e -> essence e' = essence e -> next_address e' = next_address e ->
  tx_heap (tx_part e') = tx_heap (tx_part e) -> env_quiet e0 e'.
Proof.
  intros He Hs Hn Hx. eapply env_quiet_trans; [done|]. split_and!; [done|lia|].
  unfold flags_stay. rewrite Hx. intros x t t'. congruence.
Qed.

Lemma quiet_caller w0 w e : quiet w0 w -> env_quiet (caller w0) e -> quiet w0 (set_caller e w).
Proof. by intros (_ & Hs & Hr) He. Qed.

Lemma quiet_env w0 w : quiet w0 w -> env_quiet (caller w0) (caller w).
Proof. by intros []. Qed.

Lemma env_quiet_next e0 e : env_quiet e0 e -> env_quiet e0 (new_address e).2.
Proof. intros (He & Hn & Hf). split_and!; [done| |done]. cbn. lia. Qed.

(** A step on the transactions that changes none of what matters of them. *)
Lemma quiet_put_tx w0 w x t t' :
  quiet w0 w -> tx_heap (tx_part (caller w)) !! x = Some t -> core t' = core t ->
  (rollback t = true -> rollback t' = true) -> quiet w0 (put_tx x t' w).
Proof.
  intros Hq Hx Hc Hr. eapply quiet_transitive; [done|]. split_and!; [|done|done]. split_and!.
  - unfold essence. cbn. rewrite fmap_insert, Hc, insert_id; [done|]. by rewrite lookup_fmap, Hx.
  - cbn. lia.
  - intros y u u' Hu. cbn. destruct (decide (y = x)) as [->|Hn].
    + rewrite lookup_insert_eq. intros [= <-]. by simplify_eq.
    + rewrite lookup_insert_ne by done. congruence.
Qed.

(** ** Setters *)

Lemma env_quiet_ranges f e0 e : env_quiet e0 e -> env_quiet e0 (on_ranges f e).
Proof. intros He. by eapply env_quiet_same. Qed.

Lemma env_quiet_evicted l e0 e : env_quiet e0 e -> env_quiet e0 (set_evicted l e).
Proof. intros He. by eapply env_quiet_same. Qed.

Lemma env_quiet_request r q e0 e : env_quiet e0 e -> env_quiet e0 (put_request r q e).
Proof. intros He. by eapply env_quiet_same. Qed.

Lemma env_quiet_request_heap m e0 e :
  env_quiet e0 e -> env_quiet e0 (on_locks (fun t => set_request_heap (m t) t) e).
Proof. intros He. by eapply env_quiet_same. Qed.

Lemma env_quiet_reads m e0 e :
  env_quiet e0 e -> env_quiet e0 (on_locks (fun t => set_read_requests (m t) t) e).
Proof. intros He. by eapply env_quiet_same. Qed.

Lemma env_quiet_writes m e0 e :
  env_quiet e0 e -> env_quiet e0 (on_locks (fun t => set_write_requests (m t) t) e).
Proof. intros He. by eapply env_quiet_same. Qed.

Lemma env_quiet_insert_request b k r e0 e : env_quiet e0 e -> env_quiet e0 (insert_request b k r e).
Proof. intros He. destruct b; by eapply env_quiet_same. Qed.

Lemma env_quiet_remove_request b k e0 e : env_quiet e0 e -> env_quiet e0 (remove_request b k e).
Proof. intros He. destruct b; by eapply env_quiet_same. Qed.

End frame.

#[export] Hint Resolve quiet_caller quiet_env env_quiet_next
  env_quiet_evicted env_quiet_request env_quiet_request_heap env_quiet_reads env_quiet_writes
  env_quiet_insert_request env_quiet_remove_request env_quiet_ranges : quiet.
#[export] Hint Extern 2 (env_quiet _ (_ _ _)) => apply env_quiet_ranges : quiet.
#[export] Hint Extern 2 (env_quiet _ (_ _ _ _)) => apply env_quiet_ranges : quiet.

Ltac quietly := intros; cbv beta iota zeta; repeat (walk with (eauto 8 with quiet)); eauto 8 with quiet.

(** ** Point locks *)

Section locks.

Context {E T O L : Type}.
Abbreviation env := (dataclient_environment E T).
Abbreviation world := (client_world cache_callback O env L).
Implicit Types (e : env) (w : world).

Lemma set_next_request_time_quiet time r e0 e :
  env_quiet e0 e -> if_ret (set_next_request_time time r e) (env_quiet e0).
Proof. unfold set_next_request_time. quietly. Qed.
Hint Resolve set_next_request_time_quiet : quiet.

Lemma finish_eviction_quiet now k o e0 e :
  env_quiet e0 e -> if_ret (finish_eviction now k o e) (env_quiet e0).
Proof. unfold finish_eviction. quietly. Qed.

Lemma reset_request_quiet now tv m k e0 e :
  env_quiet e0 e -> if_ret (reset_request now tv m k e) (env_quiet e0).
Proof. unfold reset_request. quietly. Qed.
Hint Resolve reset_request_quiet : quiet.

Lemma lock_failure_callback_quiet now tv d e0 e :
  env_quiet e0 e -> if_ret (lock_failure_callback now tv d e) (env_quiet e0).
Proof. unfold lock_failure_callback. quietly. Qed.

Lemma lock_request_new_quiet k b e0 e : env_quiet e0 e -> env_quiet e0 (lock_request_new k b e).2.
Proof. unfold lock_request_new. intros. cbn. apply env_quiet_request. by apply env_quiet_next. Qed.

Lemma lock_request_ref_quiet r e0 e : env_quiet e0 e -> if_ret (lock_request_ref r e) (env_quiet e0).
Proof. unfold lock_request_ref. quietly. Qed.
Hint Resolve lock_request_ref_quiet : quiet.

Lemma lock_request_unref_quiet r e0 e :
  env_quiet e0 e -> if_ret (lock_request_unref r e) (fun be => env_quiet e0 be.2).
Proof. unfold lock_request_unref. quietly. Qed.

Hint Resolve lock_request_unref_quiet : quiet.

Lemma leave_request_quiet k r e0 e :
  env_quiet e0 e -> if_ret (leave_request k r e) (env_quiet e0).
Proof. unfold leave_request. quietly. Qed.
Hint Resolve leave_request_quiet : quiet.

Lemma finish_quiet k r b w0 w :
  quiet w0 w -> if_ret (finish k r b w) (fun bw => quiet w0 bw.2 /\ bw.1 = b).
Proof. unfold finish. quietly. Qed.

Lemma time_out_quiet x w0 w : quiet w0 w -> if_ret (time_out x w) (quiet w0).
Proof.
  unfold time_out, get_tx. intros Hq w' H. inv_ret. by eapply quiet_put_tx.
Qed.

Lemma mark_requested_quiet r e0 e : env_quiet e0 e -> if_ret (mark_requested r e) (env_quiet e0).
Proof. unfold mark_requested. quietly. Qed.
Hint Resolve mark_requested_quiet : quiet.

(** *** Messages to the meta server *)

(** What the messages leave alone. *)
Definition same_client w w' : Prop := dataclient w' = dataclient w /\ caller w' = caller w.

Ltac sent := unfold same_client; repeat (walk with fail); done.

Lemma write_message_same opcode payload w : if_ret (write_message opcode payload w) (same_client w).
Proof. unfold write_message. sent. Qed.

Lemma release_key_same app st k w :
  if_ret (gzochid_dataclient_release_key app st k w) (same_client w).
Proof. unfold gzochid_dataclient_release_key. sent. Qed.

Lemma release_key_range_same app st from to w :
  if_ret (gzochid_dataclient_release_key_range app st from to w) (same_client w).
Proof. unfold gzochid_dataclient_release_key_range. sent. Qed.

Lemma submit_changeset_same app l w :
  if_ret (gzochid_dataclient_submit_changeset app l w) (same_client w).
Proof.
  unfold gzochid_dataclient_submit_changeset. apply if_ret_bind. intros payload _. destruct (_ <=? _).
  - apply write_message_same.
  - by apply if_ret_ret.
Qed.

Lemma quiet_same w0 w w' : quiet w0 w -> same_client w w' -> quiet w0 w'.
Proof.
  intros (He & Hs & Hr) [Hd Hc]. unfold quiet, registrations_ok. by rewrite Hd, Hc.
Qed.

(** A queue with one more request. *)
Lemma acquire_queue_registrations app w :
  caller (acquire_callback_queue app w).2 = caller w
  /\ main_context (dataclient (acquire_callback_queue app w).2) = main_context (dataclient w)
  /\ (registrations_ok w ->
      registrations_ok (acquire_callback_queue app w).2
      /\ Forall registration_ok (callback_registrations (acquire_callback_queue app w).1)).
Proof.
  unfold acquire_callback_queue. destruct (_ !! app) as [q|] eqn:Hq.
  - split_and!; [done|done|]. intros Hr. split; [done|]. by eapply Hr.
  - split_and!; [done|done|]. intros Hr. split; [|done]. intros a q.
    cbn. destruct (decide (a = app)) as [->|Hn].
    + rewrite lookup_insert_eq. by intros [= <-].
    + rewrite lookup_insert_ne by done. apply Hr.
Qed.

Lemma put_queue_registrations app q w :
  registrations_ok w -> Forall registration_ok (callback_registrations q) ->
  registrations_ok (put_queue app q w).
Proof.
  intros Hr Hq a q'. cbn. destruct (decide (a = app)) as [->|Hn].
  - rewrite lookup_insert_eq. by intros [= <-].
  - rewrite lookup_insert_ne by done. apply Hr.
Qed.

Lemma queue_request_quiet app q o success failure release opcode w0 w w1 :
  acquire_callback_queue app w = (q, w1) ->
  registration_ok (create_callback opcode success failure release) ->
  forall w2, quiet w0 w -> same_client w1 w2 ->
  quiet w0 (put_queue app (CallbackQueue o (callback_registrations q
    ++ [create_callback opcode success failure release])) w2).
Proof.
  intros Ha Hok w2 Hq [Hd Hc]. pose proof (acquire_queue_registrations app w) as (Hc1 & Hm1 & Hr1).
  rewrite Ha in Hc1, Hm1, Hr1. cbn [fst snd] in *. eapply quiet_transitive; [done|]. split_and!.
  - cbn. rewrite Hc, Hc1. apply env_quiet_refl.
  - cbn. by rewrite Hd, Hm1.
  - intros Hr. destruct (Hr1 Hr) as [Hw1 Hf]. apply put_queue_registrations.
    + unfold registrations_ok. by rewrite Hd.
    + cbn. apply Forall_app. split; [done|]. by apply Forall_singleton.
Qed.

Lemma request_value_quiet app st k b d w0 w : is_Some (cb_key d) ->
  quiet w0 w ->
  if_ret (gzochid_dataclient_request_value app st k b (lock_success d) (lock_failure d)
            (lock_release d) w) (quiet w0).
Proof.
  intros Hd Hq. unfold gzochid_dataclient_request_value.
  destruct (acquire_callback_queue app w) as [q w1] eqn:Ha.
  repeat (walk with (apply write_message_same)). by eapply queue_request_quiet.
Qed.

Lemma request_next_key_quiet app st k d w0 w :
  quiet w0 w ->
  if_ret (gzochid_dataclient_request_next_key app st k (range_lock_success d) (range_lock_failure d)
            (range_lock_release d) w) (quiet w0).
Proof.
  intros Hq. unfold gzochid_dataclient_request_next_key.
  destruct (acquire_callback_queue app w) as [q w1] eqn:Ha.
  repeat (walk with (apply write_message_same)). by eapply queue_request_quiet.
Qed.

Lemma send_request_quiet r w0 w : quiet w0 w -> if_ret (send_request r w) (quiet w0).
Proof.
  intros Hq. unfold send_request. apply if_ret_bind. intros q _. cbn [new_address].
  apply if_ret_bind. eapply if_ret_mono.
  { apply request_value_quiet; [by eexists|]. apply quiet_caller; [done|].
    apply (env_quiet_next (caller w0) (caller w)). by apply quiet_env. }
  intros w1 Hq1. quietly.
Qed.

Lemma join_request_quiet x k b w0 w :
  quiet w0 w -> if_ret (join_request x k b w) (fun rw => quiet w0 rw.2).
Proof.
  intros Hq. pose proof (lock_request_new_quiet k b (caller w0) (caller w) (quiet_env _ _ Hq)) as Hn.
  unfold join_request. destruct (lock_request_new k b (caller w)) as [r e]. cbn [snd] in Hn. quietly.
Qed.

(** ** Range locks *)

Lemma set_range_request_time_quiet time r e0 e :
  env_quiet e0 e -> if_ret (set_range_request_time time r e) (env_quiet e0).
Proof. unfold set_range_request_time. quietly. Qed.
Hint Resolve set_range_request_time_quiet : quiet.

Lemma finish_range_eviction_quiet now kr o e0 e :
  env_quiet e0 e -> if_ret (finish_range_eviction now kr o e) (env_quiet e0).
Proof. unfold finish_range_eviction. quietly. Qed.
Hint Resolve finish_range_eviction_quiet : quiet.

Lemma range_lock_ref_quiet p e0 e : env_quiet e0 e -> if_ret (range_lock_ref p e) (env_quiet e0).
Proof. unfold range_lock_ref. quietly. Qed.
Hint Resolve range_lock_ref_quiet : quiet.

Lemma range_lock_unref_quiet now p w0 w :
  quiet w0 w -> if_ret (range_lock_unref now p w) (fun bw => quiet w0 bw.2).
Proof.
  intros Hq. unfold range_lock_unref. apply if_ret_bind. intros l _. cbv zeta. destruct (_ <=? 0).
  - apply if_ret_bind. eapply if_ret_mono; [apply release_key_range_same|]. intros w1 Hs.
    pose proof (quiet_same _ _ _ Hq Hs) as Hq1. unfold on_env. quietly.
  - unfold on_env. quietly.
Qed.

Lemma range_lock_new_quiet kr e0 e p e' :
  range_lock_new kr e = (p, e') -> env_quiet e0 e -> env_quiet e0 e'.
Proof.
  intros [= _ <-] He. apply env_quiet_ranges. by apply (env_quiet_next e0 e).
Qed.

Lemma range_lock_request_new_quiet kr e0 e r e' :
  range_lock_request_new kr e = (r, e') -> env_quiet e0 e -> env_quiet e0 e'.
Proof.
  intros [= _ <-] He. apply env_quiet_ranges. by apply (env_quiet_next e0 e).
Qed.
Hint Resolve range_lock_new_quiet range_lock_request_new_quiet : quiet.

Lemma range_lock_success_callback_quiet key d e0 e :
  env_quiet e0 e -> if_ret (range_lock_success_callback key d e) (env_quiet e0).
Proof. unfold range_lock_success_callback. quietly. Qed.

Lemma range_lock_failure_callback_quiet now tv d e0 e :
  env_quiet e0 e -> if_ret (range_lock_failure_callback now tv d e) (env_quiet e0).
Proof. unfold range_lock_failure_callback. quietly. Qed.

Lemma on_env_ranges_quiet f w0 w : quiet w0 w -> quiet w0 (on_env (on_ranges f) w).
Proof. unfold on_env. eauto with quiet. Qed.

Lemma range_lock_release_callback_quiet now d w0 w :
  quiet w0 w -> if_ret (range_lock_release_callback now d w) (quiet w0).
Proof.
  intros Hq. unfold range_lock_release_callback. repeat (walk with (apply range_lock_unref_quiet;
    apply on_env_ranges_quiet; eassumption)); try done.
Qed.

Lemma range_lock_request_ref_quiet r e0 e :
  env_quiet e0 e -> if_ret (range_lock_request_ref r e) (env_quiet e0).
Proof. unfold range_lock_request_ref. quietly. Qed.

Lemma range_lock_request_unref_quiet r e0 e :
  env_quiet e0 e -> if_ret (range_lock_request_unref r e) (fun be => env_quiet e0 be.2).
Proof. unfold range_lock_request_unref. quietly. Qed.
Hint Resolve range_lock_request_ref_quiet range_lock_request_unref_quiet : quiet.

Lemma leave_range_request_quiet st k r e0 e :
  env_quiet e0 e -> if_ret (leave_range_request st k r e) (env_quiet e0).
Proof. unfold leave_range_request. quietly. Qed.
Hint Resolve leave_range_request_quiet : quiet.

Lemma send_range_request_quiet st r w0 w :
  quiet w0 w -> if_ret (send_range_request st r w) (quiet w0).
Proof.
  intros Hq. unfold send_range_request. apply if_ret_bind. intros q _. cbv zeta.
  apply if_ret_bind. eapply if_ret_mono; [by apply request_next_key_quiet|]. intros w1 Hq1.
  unfold on_env. quietly.
Qed.

Lemma join_range_request_quiet st k w0 w :
  quiet w0 w -> if_ret (join_range_request st k w) (fun rw => quiet w0 rw.2).
Proof. intros Hq. unfold join_range_request. quietly. Qed.

Lemma get_tx_found x w :
  if_ret (get_tx x w) (fun t => tx_heap (tx_part (caller w)) !! x = Some t).
Proof. intros t Ht. by apply deref_Ret. Qed.

Lemma check_and_set_range_lock_quiet x st from w0 w :
  quiet w0 w -> if_ret (check_and_set_range_lock x st from w) (fun bw => quiet w0 bw.2).
Proof.
  intros Hq. unfold check_and_set_range_lock, range_lock_ref.
  repeat (walk with apply get_tx_found); [|done].
  cbn [snd]. eapply quiet_put_tx; [|done|done|done]. unfold put_range_lock. eauto with quiet.
Qed.

End locks.

#[export] Hint Resolve reset_request_quiet finish_eviction_quiet leave_request_quiet : quiet.

(** ** Waiting

    What holds at all times and is kept by quiet steps, by taking a lock that the node has,
    and by what happens during a wait, holds after it. *)

Section waits.

Context {E T O L : Type}.
Abbreviation world := (client_world cache_callback O (dataclient_environment E T) L).

(** What holds at a time. *)
Variable P : Z -> world -> Prop.
Hypothesis P_quiet : forall now w w', P now w -> quiet w w' -> P now w'.
Hypothesis P_take : forall now x k b w,
  P now w -> if_ret (check_and_set_lock x k b w) (fun bw => P now bw.2).

Fixpoint wakes_keep (now : Z) (wakes : list (wake E T O L)) : Prop :=
  match wakes with
  | [] => True
  | k :: wakes =>
      (forall w, P now w -> if_ret (others k w) (P (wake_time k))) /\ wakes_keep (wake_time k) wakes
  end.

(** The times at which a wait may end. *)
Definition ends (now : Z) (wakes : list (wake E T O L)) (w : world) : Prop :=
  exists t, t ∈ now :: (wake_time <$> wakes) /\ P t w.

Lemma ends_now now wakes w : P now w -> ends now wakes w.
Proof. exists now. split; [by left|done]. Qed.

Lemma ends_later now k wakes w : ends (wake_time k) wakes w -> ends now (k :: wakes) w.
Proof. intros (t & Ht & HP). exists t. split; [by right|done]. Qed.

Lemma quiet_ends now wakes w w' : P now w -> quiet w w' -> ends now wakes w'.
Proof. intros HP Hq. apply ends_now. by eapply P_quiet. Qed.

Lemma finish_keeps now wakes k r b w :
  P now w -> if_ret (finish k r b w) (fun bw => ends now wakes bw.2).
Proof.
  intros HP. eapply if_ret_mono; [apply finish_quiet, quiet_reflexive|].
  intros bw [Hq _]. by eapply quiet_ends.
Qed.

Lemma point_loop_keeps wakes : forall now x k r w,
  wakes_keep now wakes -> P now w ->
  if_ret (lock_loop wakes now x k r w) (fun bw => ends now wakes bw.2).
Proof.
  induction wakes as [|wk wakes IH]; intros now x k r w Hw HP; cbn [lock_loop];
    apply if_ret_bind; intros t _; destruct (end_time t <=? now).
  1, 3: apply if_ret_bind; eapply if_ret_mono; [apply time_out_quiet, quiet_reflexive|];
    intros w1 Hq; apply finish_keeps; by eapply P_quiet.
  all: apply if_ret_bind; intros q _; destruct (_ && _).
  - intros ? [=].
  - apply if_ret_bind. intros w1 _ ? [=].
  - destruct Hw as [Hk Hw]. apply if_ret_bind. eapply if_ret_mono; [by apply Hk|]. intros w1 HP1.
    eapply if_ret_mono; [by apply IH|]. intros bw. apply ends_later.
  - destruct Hw as [Hk Hw]. apply if_ret_bind. apply (if_ret_mono _ (quiet w)).
    { destruct (rq_requested q); [apply if_ret_ret, quiet_reflexive|apply send_request_quiet, quiet_reflexive]. }
    intros w1 Hq. apply if_ret_bind. eapply if_ret_mono; [apply Hk; by eapply P_quiet|]. intros w2 HP2.
    apply if_ret_bind. intros q' _. apply if_ret_bind. eapply if_ret_mono; [by apply P_take|].
    intros [b w3] HP3. cbn [snd] in HP3. destruct b.
    + eapply if_ret_mono; [by apply (finish_keeps (wake_time wk) wakes)|]. intros bw. apply ends_later.
    + eapply if_ret_mono; [by apply IH|]. intros bw. apply ends_later.
Qed.

Lemma ensure_lock_keeps wakes now x st key b w :
  wakes_keep now wakes -> P now w ->
  if_ret (ensure_lock wakes now x st key b w) (fun bw => ends now wakes bw.2).
Proof.
  intros Hw HP. unfold ensure_lock. apply if_ret_bind. intros t _. apply if_ret_bind. intros held _.
  destruct held; [by apply if_ret_ret, ends_now|].
  apply if_ret_bind. eapply if_ret_mono; [by apply P_take|]. intros [shared w1] HP1. cbn [snd] in HP1.
  destruct shared; [by apply if_ret_ret, ends_now|].
  apply if_ret_bind. eapply if_ret_mono; [apply join_request_quiet, quiet_reflexive|].
  intros [r w2] Hq. apply point_loop_keeps; [done|]. by eapply P_quiet.
Qed.

Lemma leave_range_keeps now wakes st k r b w :
  P now w ->
  if_ret (e ← leave_range_request st k r (caller w); Ret (b, set_caller e w))
    (fun bw : bool * world => ends now wakes bw.2).
Proof.
  intros HP. apply if_ret_bind. eapply if_ret_mono; [apply leave_range_request_quiet, env_quiet_refl|].
  intros e He. apply if_ret_ret. eapply quiet_ends; [done|].
  apply quiet_caller; [apply quiet_reflexive|done].
Qed.

Lemma range_lock_loop_keeps wakes : forall now x st k r w,
  wakes_keep now wakes -> P now w ->
  if_ret (range_lock_loop wakes now x st k r w) (fun bw => ends now wakes bw.2).
Proof.
  induction wakes as [|wk wakes IH]; intros now x st k r w Hw HP; cbn [range_lock_loop];
    apply if_ret_bind; intros t _; destruct (end_time t <=? now).
  1, 3: apply if_ret_bind; eapply if_ret_mono; [apply time_out_quiet, quiet_reflexive|];
    intros w1 Hq; apply leave_range_keeps; by eapply P_quiet.
  all: apply if_ret_bind; intros q _; destruct (_ && _).
  - intros ? [=].
  - apply if_ret_bind. intros w1 _ ? [=].
  - destruct Hw as [Hk Hw]. apply if_ret_bind. eapply if_ret_mono; [by apply Hk|]. intros w1 HP1.
    eapply if_ret_mono; [by apply IH|]. intros bw. apply ends_later.
  - destruct Hw as [Hk Hw]. apply if_ret_bind. apply (if_ret_mono _ (quiet w)).
    { destruct (rr_requested q);
        [apply if_ret_ret, quiet_reflexive|apply send_range_request_quiet, quiet_reflexive]. }
    intros w1 Hq. apply if_ret_bind. eapply if_ret_mono; [apply Hk; by eapply P_quiet|]. intros w2 HP2.
    apply if_ret_bind. intros q' _. apply if_ret_bind.
    eapply if_ret_mono; [apply check_and_set_range_lock_quiet, quiet_reflexive|].
    intros [b w3] Hq3. cbn [snd] in Hq3. pose proof (P_quiet _ _ _ HP2 Hq3) as HP3. destruct b.
    + eapply if_ret_mono; [by apply (leave_range_keeps (wake_time wk) wakes)|].
      intros bw. apply ends_later.
    + eapply if_ret_mono; [by apply IH|]. intros bw. apply ends_later.
Qed.

Lemma ensure_range_lock_keeps wakes now x st key w :
  wakes_keep now wakes -> P now w ->
  if_ret (ensure_range_lock wakes now x st key w) (fun bw => ends now wakes bw.2).
Proof.
  intros Hw HP. unfold ensure_range_lock.
  destruct (match key with None => _ | Some _ => _ end) as [kb w0] eqn:Hkb.
  assert (HP0 : P now w0).
  { destruct key; injection Hkb as <- <-; [|done]. eapply P_quiet; [done|].
    apply quiet_caller; [apply quiet_reflexive|]. apply env_quiet_next, env_quiet_refl. }
  apply if_ret_bind. intros t _. apply if_ret_bind. intros r _. apply if_ret_bind. intros held _.
  destruct held; [by apply if_ret_ret, ends_now|].
  apply if_ret_bind. eapply if_ret_mono; [apply check_and_set_range_lock_quiet, quiet_reflexive|].
  intros [shared w1] Hq. cbn [snd] in Hq. pose proof (P_quiet _ _ _ HP0 Hq) as HP1.
  destruct shared; [by apply if_ret_ret, ends_now|].
  apply if_ret_bind. eapply if_ret_mono; [apply join_range_request_quiet, quiet_reflexive|].
  intros [[rq|] w2] Hq2; [|intros ? [=]]. apply range_lock_loop_keeps; [done|]. by eapply P_quiet.
Qed.

End waits.
