(* ===== verification/CacheLocks.v ===== *)
(** * The caching storage engine: the counts of its locks

    What each step that changes locks does to them, and that it keeps the counts right:
    the answers of the data client and its release callbacks, taking a lock of the node,
    and the end of a transaction. *)

From S2P Require Import Prelude.
From S2P Require Import DataProtocol.
From S2P Require Import Itree.
From S2P Require Import LockMem.
From S2P Require Import Storage.
From S2P Require Import Socket.
From S2P Require Import MetaProtocol.
From S2P Require Import DataClient.
From S2P Require Import CacheEnv.
From S2P Require Import CacheLock.
From S2P Require Import CacheRange.
From S2P Require Import CacheTx.
From S2P Require Import CacheCount.
From S2P Require Import CacheFrame.

Local Open Scope Z_scope.

Section locks.

Context {E T O L : Type}.
Abbreviation env := (dataclient_environment E T).
Abbreviation world := (client_world cache_callback O env L).
Implicit Types (e : env) (w : world).

(** ** The counts of a node *)

Definition held (e : env) : gmap positive key_locks := tx_locks <$> tx_heap (tx_part e).

(** Addresses that were not given yet are not in use. *)
Definition addresses_ok (e : env) : Prop :=
  forall p, (next_address e <= p)%positive ->
    lock_heap (lock_part e) !! p = None /\ tx_heap (tx_part e) !! p = None.

Record counted (w : world) : Prop := {
  counted_tables : Counted (locks (lock_part (caller w))) (lock_heap (lock_part (caller w)))
                     (held (caller w)) (main_context (dataclient w));
  counted_addresses : addresses_ok (caller w);
  counted_registrations : registrations_ok w
}.

(** A step that left the locks alone. *)
Definition same_locks (w w' : world) : Prop :=
  locks (lock_part (caller w')) = locks (lock_part (caller w))
  /\ lock_heap (lock_part (caller w')) = lock_heap (lock_part (caller w))
  /\ held (caller w') = held (caller w)
  /\ main_context (dataclient w') = main_context (dataclient w)
  /\ (next_address (caller w) <= next_address (caller w'))%positive
  /\ (registrations_ok w -> registrations_ok w').

Lemma held_None e x : held e !! x = None <-> tx_heap (tx_part e) !! x = None.
Proof. unfold held. by rewrite lookup_fmap, fmap_None. Qed.

Lemma same_locks_counted w w' : counted w -> same_locks w w' -> counted w'.
Proof.
  intros [HC Ha Hr] (Hk & Hh & Hx & Hs & Hn & Hr'). split; [by rewrite Hk, Hh, Hx, Hs| |by apply Hr'].
  intros p Hp. rewrite Hh. destruct (Ha p ltac:(lia)) as [Hl Ht]. split; [done|].
  apply held_None. rewrite Hx. by apply held_None.
Qed.

Lemma same_locks_refl w : same_locks w w.
Proof. by split_and!. Qed.

Lemma same_locks_trans w0 w1 w2 : same_locks w0 w1 -> same_locks w1 w2 -> same_locks w0 w2.
Proof.
  intros (? & ? & ? & ? & ? & ?) (? & ? & ? & ? & ? & ?). split_and!; try congruence; [lia|auto].
Qed.

Lemma core_held (e e' : env) :
  core <$> tx_heap (tx_part e') = core <$> tx_heap (tx_part e) -> held e' = held e.
Proof.
  intros He. unfold held.
  assert (Hc : forall m : gmap positive (dataclient_transaction T),
    tx_locks <$> m = (fun c : _ * key_locks * _ * _ * _ => c.1.1.1.2) <$> (core <$> m)).
  { intros m. rewrite <- map_fmap_compose. by apply map_fmap_ext. }
  by rewrite !Hc, He.
Qed.

Lemma quiet_same_locks w w' : quiet w w' -> same_locks w w'.
Proof.
  intros ((He & Hn & _) & Hs & Hr). unfold essence in He. split_and!; try done; try congruence.
  apply core_held. congruence.
Qed.

Lemma quiet_counted w w' : counted w -> quiet w w' -> counted w'.
Proof. intros Hc Hq. by eapply same_locks_counted, quiet_same_locks. Qed.

(** The locks of one transaction. *)
Lemma held_put_tx x t w :
  held (caller (put_tx x t w)) = <[x := tx_locks t]> (held (caller w)).
Proof. unfold held. cbn. by rewrite fmap_insert. Qed.

Lemma put_tx_same x t t' w :
  tx_heap (tx_part (caller w)) !! x = Some t -> tx_locks t' = tx_locks t ->
  same_locks w (put_tx x t' w).
Proof.
  intros Hx Hl. split_and!; try done. rewrite held_put_tx, Hl.
  apply insert_id. unfold held. by rewrite lookup_fmap, Hx.
Qed.

(** ** Taking a lock of the node *)

Lemma take_counted x k b w :
  counted w -> if_ret (check_and_set_lock x k b w) (fun bw => counted bw.2).
Proof.
  intros Hc. unfold check_and_set_lock.
  destruct (locks (lock_part (caller w)) !! k) as [p|] eqn:Hk; [|by apply if_ret_ret].
  apply if_ret_bind. intros enough _. destruct enough; [|by apply if_ret_ret].
  apply if_ret_bind. eapply if_ret_mono; [apply get_tx_found|]. intros t Hx. cbv beta in Hx.
  destruct (tx_locks t !! k) eqn:Hhas; [by apply if_ret_ret|].
  apply if_ret_bind. unfold lock_ref. apply if_ret_bind. intros l Hl%deref_Ret. apply if_ret_ret.
  apply if_ret_ret. cbn [snd]. destruct Hc as [HC Ha Hr].
  assert (HX : held (caller w) !! x = Some (tx_locks t)).
  { unfold held. by rewrite lookup_fmap, Hx. }
  destruct (counted_found HC k p l Hk Hl) as (Hlk & Hcount & Hpos).
  assert (Huse : forall j, uses j (<[x := <[k := p]> (tx_locks t)]> (held (caller w))) (main_context (dataclient w))
    = (uses j (held (caller w)) (main_context (dataclient w)) + Nat.b2n (bool_decide (j = k)))%nat).
  { intros j. pose proof (holders_change j _ x _ (<[k := p]> (tx_locks t)) HX) as Hh.
    rewrite has_insert in Hh by done. unfold uses. lia. }
  split; [| |done].
  - rewrite held_put_tx. rewrite Hlk. apply (counted_recount HC k p); [done| | | |done|].
    + rewrite Huse, bool_decide_true by done. cbn. lia.
    + rewrite Huse. lia.
    + intros j Hj. rewrite Huse, bool_decide_false by done. cbn. lia.
    + intros y m j q. destruct (decide (y = x)) as [->|Hn].
      * change (held (caller (set_caller _ w))) with (held (caller w)).
        rewrite lookup_insert_eq. intros [= <-]. cbn. destruct (decide (j = k)) as [->|Hj].
        -- rewrite lookup_insert_eq. congruence.
        -- rewrite lookup_insert_ne by done. by apply (counted_held _ _ _ _ HC x).
      * rewrite lookup_insert_ne by done. by apply (counted_held _ _ _ _ HC y).
  - intros q Hq. cbn. destruct (Ha q Hq) as [Hl' Ht']. split.
    + rewrite lookup_insert_ne; [done|]. intros ->. congruence.
    + rewrite lookup_insert_ne; [done|]. intros ->. congruence.
Qed.

(** ** Giving up a reference *)

(** The heap of locks when one reference to a lock is gone. *)
Definition unref_heap (p : positive) (l : dataclient_lock) (h : gmap positive dataclient_lock)
  : gmap positive dataclient_lock :=
  if lk_ref_count l - 1 <=? 0 then base.delete p h
  else <[p := DataclientLock (lk_key l) (lk_for_write l) (lk_ref_count l - 1)]> h.

Definition with_heap (f : gmap positive dataclient_lock -> gmap positive dataclient_lock) (w : world)
  : world :=
  on_env (on_locks (fun t => set_lock_heap (f (lock_heap t)) t)) w.

Lemma lock_unref_spec now p w :
  if_ret (lock_unref now p w) (fun bw =>
    exists l, lock_heap (lock_part (caller w)) !! p = Some l
              /\ bw.1 = (lk_ref_count l - 1 <=? 0)
              /\ quiet (with_heap (unref_heap p l) w) bw.2).
Proof.
  unfold lock_unref. apply if_ret_bind. intros l Hl%deref_Ret. cbv zeta.
  unfold with_heap, unref_heap. destruct (_ <=? 0) eqn:Hz.
  - apply if_ret_bind. eapply if_ret_mono; [apply release_key_same|]. intros w1 Hs.
    assert (Hq : quiet (on_env (free_lock p) w) (on_env (free_lock p) w1)).
    { destruct Hs as [Hd Hc]. unfold on_env. rewrite Hc.
      split_and!; [apply env_quiet_refl|cbn; by rewrite Hd|]. unfold registrations_ok. cbn. by rewrite Hd. }
    apply if_ret_bind. eapply if_ret_mono; [apply finish_eviction_quiet; by apply quiet_env|].
    intros e He. apply if_ret_ret. exists l. rewrite Hz. split_and!; [done|done|]. cbn [snd].
    by apply quiet_caller.
  - apply if_ret_ret. exists l. rewrite Hz. split_and!; [done|done|]. apply quiet_reflexive.
Qed.

(** A reference is given up by what used the lock. *)
Lemma counted_unref K H X S X' S' k p l :
  Counted K H X S -> K !! k = Some p -> H !! p = Some l ->
  (forall j, uses j X S = (uses j X' S' + Nat.b2n (bool_decide (j = k)))%nat) ->
  (forall j, j <> k -> pending j S' = pending j S) ->
  (forall x m j q, X' !! x = Some m -> m !! j = Some q -> K !! j = Some q) ->
  Counted (if lk_ref_count l - 1 <=? 0 then base.delete k K else K) (unref_heap p l H) X' S'.
Proof.
  intros HC Hk Hp Hu Hpend Hheld.
  destruct (counted_found HC k p l Hk Hp) as (Hlk & Hc & Hpos).
  pose proof (Hu k) as Hkk. rewrite bool_decide_true in Hkk by done. cbn in Hkk.
  assert (Ho : forall j, j <> k -> uses j X' S' = uses j X S).
  { intros j Hj. rewrite Hu, bool_decide_false by done. cbn. lia. }
  unfold unref_heap. destruct (Z.leb_spec (lk_ref_count l - 1) 0).
  - apply (counted_gone HC k p); try done. lia.
  - rewrite Hlk. apply (counted_recount HC k p); try done; lia.
Qed.

(** *** A source for the lock has run *)

Definition set_sources S (c : GzochidDataClient cache_callback O) : GzochidDataClient cache_callback O :=
  DataClient (lock_release_ms c) (range_lock_release_ms c) (application_callback_queues c) S.

Lemma set_sources_registrations S w :
  registrations_ok w -> registrations_ok (set_client (set_sources S (dataclient w)) w).
Proof. done. Qed.

Lemma release_key_callback d : release_key (lock_release d) = match callback_key d with Ret k => Some k | _ => None end.
Proof. unfold release_key, callback_key. by destruct (cb_key d). Qed.

(** What a release callback does to the tables. *)
Lemma lock_released_spec now d w :
  if_ret (lock_release_callback now d w) (fun w' =>
    exists k, callback_key d = Ret k /\
    match locks (lock_part (caller w)) !! k with
    | None => w' = w
    | Some p => exists l w1,
        lock_heap (lock_part (caller w)) !! p = Some l
        /\ quiet (with_heap (unref_heap p l) w) w1
        /\ if lk_ref_count l - 1 <=? 0
           then w' = on_env (fun e => add_purgeable_key now k
                  (on_locks (fun t => set_value_cache (base.delete k (value_cache t)) t)
                     (on_locks (fun t => set_locks (base.delete k (locks t)) t) e))) w1
           else quiet w1 w'
    end).
Proof.
  unfold lock_release_callback. apply if_ret_bind. intros k Hk.
  destruct (locks _ !! k) as [p|] eqn:Hp.
  - apply if_ret_bind. eapply if_ret_mono; [apply lock_unref_spec|].
    intros [b w1] (l & Hl & Hb & Hq). cbn [fst snd] in *. subst b.
    destruct (_ <=? 0) eqn:Hz; cbn [negb].
    + apply if_ret_ret. exists k. split; [done|]. rewrite Hp. exists l, w1. by rewrite Hz.
    + destruct (find_evicted_key _ _); apply if_ret_ret; exists k; (split; [done|]); rewrite Hp;
        exists l, w1; rewrite Hz; (split_and!; [done|done|]); [apply quiet_reflexive|].
      unfold on_env. apply quiet_caller; [apply quiet_reflexive|]. apply env_quiet_evicted, env_quiet_refl.
  - apply if_ret_ret. exists k. split; [done|]. by rewrite Hp.
Qed.

(** ** The answers of the data client *)

(** The value that an answer leaves in the cache. *)
Definition stamped (now : Z) (data : option bytes) : outcome bytes :=
  match data with
  | Some data => prefix_bytes_with_timestamp now data
  | None => create_empty_timestamped_bytes now
  end.

(** The tables after a lock was granted. *)
Definition lock_granted (k : dataclient_qualified_key) (b : bool) (v : bytes) (e e' : env) : Prop :=
  value_cache (lock_part e') = <[k := v]> (value_cache (lock_part e))
  /\ delegate_context e' = delegate_context e /\ tx_part e' = tx_part e /\ app_name e' = app_name e
  /\ match locks (lock_part e) !! k with
     | None =>
         locks (lock_part e') = <[k := next_address e]> (locks (lock_part e))
         /\ lock_heap (lock_part e')
            = <[next_address e := DataclientLock k b 1]> (lock_heap (lock_part e))
         /\ next_address e' = Pos.succ (next_address e)
     | Some p =>
         locks (lock_part e') = locks (lock_part e) /\ next_address e' = next_address e
         /\ if b then exists l, lock_heap (lock_part e) !! p = Some l
                /\ lock_heap (lock_part e')
                   = <[p := DataclientLock (lk_key l) true (lk_ref_count l + 1)]> (lock_heap (lock_part e))
           else lock_heap (lock_part e') = lock_heap (lock_part e)
     end.

(** The requests that an answer completes are not part of it. *)
Lemma lock_granted_requests k b v e e' f :
  lock_granted k b v e e' ->
  (forall t, locks (f t) = locks t /\ lock_heap (f t) = lock_heap t /\ value_cache (f t) = value_cache t) ->
  lock_granted k b v e (on_locks f e').
Proof.
  intros Hg Hf. destruct (Hf (lock_part e')) as (Hk & Hh & Hv).
  unfold lock_granted in *. cbn [on_locks set_lock_part lock_part delegate_context tx_part app_name next_address].
  by rewrite Hk, Hh, Hv.
Qed.

Lemma lock_success_spec now data d e :
  if_ret (lock_success_callback now data d e) (fun e' =>
    exists k v, callback_key d = Ret k /\ stamped now data = Ret v /\ lock_granted k (cb_for_write d) v e e').
Proof.
  unfold lock_success_callback. apply if_ret_bind. intros k Hk. apply if_ret_bind.
  intros e1 He1. apply if_ret_bind. intros v Hv. cbv zeta.
  assert (Hg : lock_granted k (cb_for_write d) v e
    (on_locks (fun t => set_value_cache (<[k := v]> (value_cache t)) t) e1)).
  { unfold lock_granted. destruct (locks (lock_part e) !! k) as [p|].
    - destruct (cb_for_write d).
      + unfold lock_ref, get_lock in He1. inv_ret. cbn in *. rewrite lookup_insert_eq in *. simplify_eq.
        split_and!; try done. eexists. split; [done|]. cbn. by rewrite insert_insert_eq.
      + inv_ret. by split_and!.
    - unfold lock_new, new_address in He1. injection He1 as <-. by split_and!. }
  apply if_ret_bind. apply (if_ret_mono _ (lock_granted k (cb_for_write d) v e)).
  { destruct (cb_for_write d); [|by apply if_ret_ret]. apply if_ret_bind. intros _ _. apply if_ret_ret.
    by apply lock_granted_requests. }
  intros e2 Hg2. apply if_ret_bind. intros _ _. apply if_ret_ret. exists k, v.
  split_and!; [done|done|]. by apply lock_granted_requests.
Qed.

(** An answer is counted when it gives a new lock or lets a transaction write. *)
Definition counts (e : env) (d : callback_data) : Prop :=
  forall k, callback_key d = Ret k -> is_Some (locks (lock_part e) !! k) -> cb_for_write d = true.

Lemma granted_counted k b v (e e' : env) S S' :
  Counted (locks (lock_part e)) (lock_heap (lock_part e)) (held e) S -> addresses_ok e ->
  lock_granted k b v e e' -> (is_Some (locks (lock_part e) !! k) -> b = true) ->
  (forall j, pending j S' = (pending j S + Nat.b2n (bool_decide (j = k)))%nat) ->
  Counted (locks (lock_part e')) (lock_heap (lock_part e')) (held e') S' /\ addresses_ok e'.
Proof.
  intros HC Ha (_ & _ & Ht & _ & Hg) Hb HS. unfold held in *. rewrite Ht.
  destruct (locks (lock_part e) !! k) as [p|] eqn:Hk.
  - rewrite (Hb ltac:(eauto)) in Hg. destruct Hg as (Hl & Hn & l & Hp & Hh). rewrite Hl, Hh.
    destruct (counted_found HC k p l Hk Hp) as (Hlk & Hc & Hpos). split.
    + rewrite Hlk. apply (counted_recount HC k p); try done; unfold uses in *.
      * rewrite HS, bool_decide_true by done. cbn. lia.
      * rewrite HS. lia.
      * intros j Hj. rewrite HS, bool_decide_false by done. cbn. lia.
      * intros j Hj. rewrite HS, bool_decide_false by done. cbn. lia.
      * intros x m j q. apply (counted_held _ _ _ _ HC).
    + intros q Hq. rewrite Hh, Ht. rewrite Hn in Hq. destruct (Ha q Hq) as [Hq' ?]. split; [|done].
      rewrite lookup_insert_ne; [done|]. intros ->. congruence.
  - destruct Hg as (Hl & Hh & Hn). rewrite Hl, Hh.
    destruct (Ha (next_address e) ltac:(lia)) as [Hfree _]. split.
    + by apply (counted_new HC).
    + intros q Hq. rewrite Hh, Ht. rewrite Hn in Hq. destruct (Ha q ltac:(lia)) as [Hq' ?].
      split; [|done]. rewrite lookup_insert_ne by lia. done.
Qed.

(** The request that an answer about an application is for. *)
Definition front (app : bytes) (w : world) : option (dataclient_callback_registration cache_callback) :=
  q ← application_callback_queues (dataclient w) !! app; head (callback_registrations q).

(** What an answer does: it grants a lock and leaves a source that will release it, or
    changes nothing of the locks and values. *)
Definition grants (now : Z) (response : gzochid_data_response) (w w' : world) : Prop :=
  exists r d data k v s,
    front (response_app response) w = Some r /\ success_callback r = lock_success d
    /\ body response = Success data /\ callback_key d = Ret k /\ stamped now data = Ret v
    /\ lock_granted k (cb_for_write d) v (caller w) (caller w')
    /\ main_context (dataclient w') = main_context (dataclient w) ++ [s]
    /\ (forall j, releases j s = bool_decide (j = k)).

(** The same for a range lock. *)
Definition range_granted (w w' : world) : Prop :=
  env_quiet (caller w) (caller w')
  /\ exists s, main_context (dataclient w') = main_context (dataclient w) ++ [s]
     /\ (forall j, releases j s = false).

Lemma set_queue_quiet app o r rs w :
  registrations_ok w -> Forall registration_ok (r :: rs) ->
  quiet w (put_queue app (CallbackQueue o rs) w).
Proof.
  intros Hr Hf. inversion Hf. split_and!; [apply env_quiet_refl|done|]. intros _.
  by apply put_queue_registrations.
Qed.

Lemma releases_granted d k s :
  release_callback (source_data s) = lock_release d -> callback_key d = Ret k ->
  forall j, releases j s = bool_decide (j = k).
Proof.
  intros Hs Hk j. unfold releases. rewrite Hs, release_key_callback, Hk.
  apply bool_decide_ext. split; [by intros [= ->]|by intros ->].
Qed.

Lemma process_queued_spec now app q w response opcode :
  opcode = GZOCHID_DATA_PROTOCOL_VALUE_RESPONSE \/ opcode = GZOCHID_DATA_PROTOCOL_NEXT_KEY_RESPONSE ->
  response_app response = app -> application_callback_queues (dataclient w) !! app = Some q ->
  registrations_ok w ->
  if_ret (process_queued_callback (call_success now) (call_failure now) app q opcode response w)
    (fun w' => registrations_ok w' /\ (quiet w w'
      \/ opcode = GZOCHID_DATA_PROTOCOL_VALUE_RESPONSE /\ grants now response w w' \/ range_granted w w')).
Proof.
  intros Hop Happ Hq Hr. unfold process_queued_callback.
  destruct (callback_registrations q) as [|r rs] eqn:Hrs; [intros ? [=]|].
  pose proof (Hr app q Hq) as Hf. rewrite Hrs in Hf.
  assert (Hput : quiet w (put_queue app (CallbackQueue (oids_callback q) rs) w)).
  { by eapply set_queue_quiet. }
  assert (Hr1 : registrations_ok (put_queue app (CallbackQueue (oids_callback q) rs) w)).
  { apply Hput, Hr. }
  inversion Hf as [|? ? Hok _]; subst. cbv zeta.
  destruct (opcode =? expected_opcode r) eqn:Hex; cbn [negb];
    [apply Z.eqb_eq in Hex; subst opcode|by apply if_ret_ret; split; [|left]].
  set (w1 := put_queue _ _ w) in *.
  change (caller w1) with (caller w). destruct (body response) as [data|tv] eqn:Hb.
  - unfold registration_ok in Hok. destruct (success_callback r) as [d|d|d|d|d|d] eqn:Hsc; try done.
    + destruct Hok as (He & _ & Hrel & _). apply if_ret_bind. cbn [call_success].
      eapply if_ret_mono; [apply lock_success_spec|]. intros e' (k & v & Hk & Hv & Hg).
      apply if_ret_bind. intros _ _. rewrite He, Z.eqb_refl. apply if_ret_ret. split; [done|]. right. left. split; [done|].
      exists r, d, data, k, v. eexists. unfold front. rewrite Hq. cbn. rewrite Hrs.
      split_and!; [done|done|done|done|done|done|done|]. by eapply releases_granted.
    + destruct Hok as (He & _ & Hrel). apply if_ret_bind.
      apply (if_ret_mono _ (env_quiet (caller w))).
      { cbn [call_success]. destruct data as [kd|]; cbn [new_address];
          apply range_lock_success_callback_quiet; [|apply env_quiet_refl].
        apply (env_quiet_next (caller w) (caller w)), env_quiet_refl. }
      intros e' He'. apply if_ret_bind. intros _ _. rewrite He. cbn. apply if_ret_ret.
      split; [done|]. right. right. split; [done|]. eexists. split; [done|].
      intros j. unfold releases. cbn. by rewrite Hrel.
  - apply if_ret_bind. apply (if_ret_mono _ (env_quiet (caller w))).
    { unfold registration_ok in Hok. destruct (success_callback r) eqn:Hsc; try done;
        destruct Hok as (_ & -> & _); cbn [call_failure];
        [apply lock_failure_callback_quiet|apply range_lock_failure_callback_quiet]; apply env_quiet_refl. }
    intros e' He'. apply if_ret_ret. split; [done|]. left. split_and!; [done|done|done].
Qed.

Lemma received_spec now w response (opcode : Z) :
  opcode = GZOCHID_DATA_PROTOCOL_VALUE_RESPONSE \/ opcode = GZOCHID_DATA_PROTOCOL_NEXT_KEY_RESPONSE ->
  registrations_ok w ->
  if_ret (let '(q, w1) := acquire_callback_queue (response_app response) w in
          match callback_registrations q with
          | [] => Ret w1
          | _ :: _ => process_queued_callback (call_success now) (call_failure now)
                        (response_app response) q opcode response w1
          end)
    (fun w' => registrations_ok w' /\ (quiet w w'
      \/ opcode = GZOCHID_DATA_PROTOCOL_VALUE_RESPONSE /\ grants now response w w' \/ range_granted w w')).
Proof.
  intros Hop Hr. unfold acquire_callback_queue.
  destruct (_ !! response_app response) as [q|] eqn:Hq.
  - destruct (callback_registrations q) eqn:Hrs.
    + apply if_ret_ret. split; [done|]. left. apply quiet_reflexive.
    + by apply process_queued_spec.
  - apply if_ret_ret.
    assert (Hr' : registrations_ok (put_queue (response_app response) (CallbackQueue None []) w)).
    { by apply put_queue_registrations. }
    split; [done|]. left. by split_and!; [apply env_quiet_refl|done|].
Qed.

(** *** The counts after an answer *)

(** The request that an answer is for asks for a lock that the node has not, or for writing. *)
Definition answer_counts (response : gzochid_data_response) (w : world) : Prop :=
  forall r d, front (response_app response) w = Some r -> success_callback r = lock_success d ->
    counts (caller w) d.

Lemma grants_counted now response w w' :
  counted w -> answer_counts response w -> registrations_ok w' -> grants now response w w' -> counted w'.
Proof.
  intros Hc Hn Hr (r & d & data & k & v & s & Hf & Hsc & _ & Hk & _ & Hg & Hs & Hrel).
  destruct Hc as [HC Ha _].
  destruct (granted_counted k (cb_for_write d) v (caller w) (caller w') (main_context (dataclient w))
    (main_context (dataclient w')) HC Ha Hg) as [HC' Ha'].
  - by apply (Hn r d Hf Hsc).
  - intros j. by rewrite Hs, pending_snoc, Hrel.
  - done.
Qed.

Lemma range_granted_counted w w' :
  counted w -> registrations_ok w' -> range_granted w w' -> counted w'.
Proof.
  intros Hc Hr (He & s & Hs & Hrel).
  assert (Hq : quiet w (set_client (set_sources (main_context (dataclient w)) (dataclient w')) w')).
  { by split_and!. }
  destruct (quiet_counted _ _ Hc Hq) as [HC Ha _]. split; [|done|done].
  apply (counted_sources HC). intros j. rewrite Hs, pending_snoc, Hrel. cbn. lia.
Qed.

(** *** A source runs *)

Lemma with_heap_held f w : held (caller (with_heap f w)) = held (caller w).
Proof. done. Qed.

Lemma source_run_counted now i s w :
  counted w -> main_context (dataclient w) !! i = Some s ->
  if_ret (call_release now (release_callback (source_data s))
            (set_client (set_sources (base.delete i (main_context (dataclient w))) (dataclient w)) w))
    counted.
Proof.
  intros [HC Ha Hr] Hs. set (w1 := set_client _ w).
  pose proof (fun k => pending_delete k _ i s Hs) as Hp.
  destruct (release_callback (source_data s)) as [d|d|d|d|d|d] eqn:Hrel; cbn [call_release];
    try (intros ? [=]; fail).
  - eapply if_ret_mono; [apply lock_released_spec|]. intros w' (k & Hk & Hw').
    pose proof (releases_granted d k s Hrel Hk) as Hrs.
    change (locks (lock_part (caller w1))) with (locks (lock_part (caller w))) in Hw'.
    destruct (locks (lock_part (caller w)) !! k) as [p|] eqn:Hlk.
    + destruct Hw' as (l & w2 & Hl & Hq & Hw').
      assert (HC' : Counted
        (if lk_ref_count l - 1 <=? 0 then base.delete k (locks (lock_part (caller w)))
         else locks (lock_part (caller w)))
        (unref_heap p l (lock_heap (lock_part (caller w)))) (held (caller w))
        (main_context (dataclient w1))).
      { apply (counted_unref _ _ _ _ _ _ k p l HC); try done.
        - intros j. unfold uses. rewrite <- (Hp j), Hrs. cbn. lia.
        - intros j Hj. specialize (Hp j). rewrite Hrs, bool_decide_false in Hp by done. cbn in *. lia.
        - intros x m j q. apply (counted_held _ _ _ _ HC). }
      destruct (quiet_same_locks _ _ Hq) as (Hk2 & Hh2 & Hx2 & Hm2 & Hn2 & Hr2).
      assert (Ha2 : addresses_ok (caller w2)).
      { intros q Hq2. rewrite Hh2. cbn in Hn2 |- *. destruct (Ha q ltac:(lia)) as [Hq' ?]. split.
        - unfold unref_heap. destruct (_ <=? 0); [by rewrite lookup_delete_None; right|].
          rewrite lookup_insert_ne; [done|]. intros ->. cbn in Hl. congruence.
        - apply held_None. rewrite Hx2. by apply held_None. }
      specialize (Hr2 Hr). destruct (lk_ref_count l - 1 <=? 0) eqn:Hz.
      * assert (Hx3 : held (caller w') = held (caller w2)) by by subst w'.
        subst w'. split; [|done|done]. rewrite Hx3, Hx2. cbn. by rewrite Hk2, Hh2, Hm2.
      * eapply quiet_counted; [|done]. split; [|done|done]. by rewrite Hk2, Hh2, Hx2, Hm2.
    + pose proof (counted_idle _ _ _ _ HC k Hlk) as Hz. specialize (Hp k).
      rewrite Hrs, bool_decide_true in Hp by done. cbn in Hp. lia.
  - eapply if_ret_mono; [apply range_lock_release_callback_quiet, quiet_reflexive|]. intros w' Hq.
    eapply quiet_counted; [|done]. split; [|done|done]. apply (counted_sources HC).
    assert (Hrs : forall j, releases j s = false) by (intros j; unfold releases; by rewrite Hrel).
    intros j. specialize (Hp j). rewrite Hrs in Hp. cbn in *. lia.
Qed.

(** ** The end of a transaction *)

Lemma with_heap_quiet h w w' : quiet w w' -> quiet (with_heap (fun _ => h) w) (with_heap (fun _ => h) w').
Proof.
  intros ((He & Hn & Hf) & Hs & Hr). split_and!; [|done|done]. split_and!; [|done|done].
  unfold essence in *. cbn. congruence.
Qed.

(** Steps that changed nothing but the heap of locks. *)
Definition heap_only (w w' : world) : Prop := exists h, quiet (with_heap (fun _ => h) w) w'.

Lemma heap_only_refl w : heap_only w w.
Proof.
  exists (lock_heap (lock_part (caller w))). split_and!; [|done|done].
  split_and!; [done|cbn; lia|]. intros x t t'. cbn. congruence.
Qed.

Lemma heap_only_step f w w1 w2 :
  quiet (with_heap f w) w1 -> heap_only w1 w2 -> heap_only w w2.
Proof.
  intros Hq [h Hh]. exists h. eapply quiet_transitive; [|done].
  exact (with_heap_quiet h _ _ Hq).
Qed.

Lemma heap_only_same w w' : heap_only w w' ->
  locks (lock_part (caller w')) = locks (lock_part (caller w)) /\ held (caller w') = held (caller w)
  /\ main_context (dataclient w') = main_context (dataclient w)
  /\ (next_address (caller w) <= next_address (caller w'))%positive
  /\ (registrations_ok w -> registrations_ok w').
Proof. intros [h Hq]. destruct (quiet_same_locks _ _ Hq) as (? & _ & ? & ? & ? & ?). done. Qed.

Definition heap_fresh w : Prop :=
  forall p, (next_address (caller w) <= p)%positive -> lock_heap (lock_part (caller w)) !! p = None.

Lemma unref_heap_fresh p l h q : h !! p = Some l -> h !! q = None -> unref_heap p l h !! q = None.
Proof.
  intros Hp Hq. unfold unref_heap. destruct (_ <=? 0); [by rewrite lookup_delete_None; right|].
  rewrite lookup_insert_ne; [done|]. intros ->. congruence.
Qed.

Lemma unref_locks_counted now l : forall acc w X x,
  NoDup l.*1 -> heap_fresh w ->
  Counted (foldl (fun m k => base.delete k m) (locks (lock_part (caller w))) acc)
    (lock_heap (lock_part (caller w))) (<[x := list_to_map l]> X) (main_context (dataclient w)) ->
  if_ret (unref_locks now l acc w) (fun aw =>
    Counted (foldl (fun m k => base.delete k m) (locks (lock_part (caller w))) aw.1)
      (lock_heap (lock_part (caller aw.2))) (<[x := ∅]> X) (main_context (dataclient w))
    /\ heap_only w aw.2 /\ heap_fresh aw.2).
Proof.
  induction l as [|[k p] l IH]; intros acc w X x Hnd Hfr HC; cbn [unref_locks].
  { apply if_ret_ret. split_and!; [done|apply heap_only_refl|done]. }
  inversion Hnd as [|? ? Hk Hnd']; subst. cbn [list_to_map foldr fst snd] in *.
  set (K := foldl _ _ acc) in HC. set (m := list_to_map l : key_locks) in *.
  assert (Hm : m !! k = None) by by apply not_elem_of_list_to_map.
  change (foldr (fun p0 => <[p0.1 := p0.2]>) ∅ l) with m in HC. cbn [curry uncurry] in HC.
  assert (Hkp : K !! k = Some p).
  { apply (counted_held _ _ _ _ HC x (<[k := p]> m)); apply lookup_insert_eq. }
  apply if_ret_bind. eapply if_ret_mono; [apply lock_unref_spec|].
  intros [b w1] (l0 & Hl0 & Hb & Hq). cbn [fst snd] in *.
  assert (HC1 : Counted (if b then base.delete k K else K)
    (unref_heap p l0 (lock_heap (lock_part (caller w)))) (<[x := m]> X) (main_context (dataclient w))).
  { rewrite Hb. apply (counted_unref _ _ _ _ _ _ k p l0 HC); [done|done| |done|].
    - intros j. pose proof (holders_insert j X x m) as H1.
      pose proof (holders_insert j X x (<[k := p]> m)) as H2.
      rewrite has_insert in H2 by done. unfold uses. lia.
    - intros y m' j q. destruct (decide (y = x)) as [->|Hy].
      + rewrite lookup_insert_eq. intros [= <-] Hj.
        apply (counted_held _ _ _ _ HC x (<[k := p]> m)); [apply lookup_insert_eq|].
        rewrite lookup_insert_ne; [done|]. intros ->. congruence.
      + intros Hy' Hj. apply (counted_held _ _ _ _ HC y m'); [|done].
        by rewrite lookup_insert_ne in Hy' |- *. }
  destruct (quiet_same_locks _ _ Hq) as (Hk1 & Hh1 & Hx1 & Hm1 & Hn1 & _).
  cbn in Hk1, Hh1, Hm1, Hn1.
  eapply if_ret_mono.
  { apply (IH _ w1 X x); [done| |].
    - intros q Hq'. rewrite Hh1. apply unref_heap_fresh; [done|]. apply Hfr. lia.
    - rewrite Hk1, Hh1, Hm1. destruct b; [rewrite foldl_app|]; exact HC1. }
  intros [a w2] (HC2 & Ho & Hf2). cbn [fst snd] in *. rewrite Hk1, Hm1 in HC2.
  split_and!; [done| |done]. by eapply heap_only_step.
Qed.

Lemma on_env_same f w :
  locks (lock_part (f (caller w))) = locks (lock_part (caller w)) ->
  lock_heap (lock_part (f (caller w))) = lock_heap (lock_part (caller w)) ->
  tx_heap (tx_part (f (caller w))) = tx_heap (tx_part (caller w)) ->
  next_address (f (caller w)) = next_address (caller w) ->
  same_locks w (on_env f w).
Proof.
  intros Hk Hh Hx Hn. unfold same_locks, held. cbn. by rewrite Hk, Hh, Hx, Hn.
Qed.

(** *** Range locks that a transaction gives up *)

Lemma search_loop_keeps {P D A} (Q : A -> Prop) (matches prunes : itree_node P D -> bool) f t fuel :
  (forall lo up d a, Q a -> Q (f lo up d a).2) ->
  forall stack a, Q a -> if_ret (search_loop matches prunes f t fuel stack a) Q.
Proof.
  intros Hf. induction fuel as [|fuel IH]; intros [|p stack] a Ha; cbn [search_loop];
    try (by apply if_ret_ret); [intros ? [=]|].
  apply if_ret_bind. intros n _.
  pose proof (Hf (node_lower n) (node_upper n) (node_data n) a Ha) as Hfa.
  destruct (matches n).
  - destruct (f _ _ _ a) as [[] a']; [by apply if_ret_ret|]. destruct (prunes n); by apply IH.
  - destruct (prunes n); by apply IH.
Qed.

Lemma unref_ranges_quiet now w0 w (t : range_tree) :
  quiet w0 w ->
  if_ret (gzochid_itree_search_interval range_lower_comparator range_upper_comparator t None None
            (unref_range_visitor now) (Ret w)) (fun r => if_ret r (quiet w0)).
Proof.
  intros Hq. apply search_loop_keeps; [|by apply if_ret_ret].
  intros lo up d [w1| | |] Hw1; cbn [unref_range_visitor snd]; try done.
  pose proof (range_lock_unref_quiet now d w0 w1 (Hw1 w1 eq_refl)) as Hu.
  destruct (range_lock_unref now d w1) as [[b w2]| | |]; cbn [snd]; [|by intros ? [=]..].
  apply if_ret_ret. exact (Hu _ eq_refl).
Qed.

(** *** The purge of released keys *)

Variable engine : gzochid_storage_engine_interface E T.
Variable enumerate : key_locks -> list (dataclient_qualified_key * positive).

(** What the purge leaves alone. *)
Definition env_same e e' : Prop :=
  locks (lock_part e') = locks (lock_part e)
  /\ lock_heap (lock_part e') = lock_heap (lock_part e)
  /\ tx_heap (tx_part e') = tx_heap (tx_part e) /\ next_address e' = next_address e.

Lemma purge_key_same t pk e : if_ret (purge_key engine t pk e) (env_same e).
Proof.
  unfold purge_key, env_same. repeat (walk with fail); done.
Qed.

Lemma purge_loop_same t l : forall e0 e, env_same e0 e ->
  if_ret (purge_loop engine t l e) (env_same e0).
Proof.
  induction l as [|pk l IH]; intros e0 e He; cbn [purge_loop]; [by apply if_ret_ret|].
  apply if_ret_bind. eapply if_ret_mono; [apply purge_key_same|]. intros e1 He1. apply IH.
  unfold env_same in *. intuition congruence.
Qed.

Lemma purge_keys_same e : if_ret (purge_keys engine e) (env_same e).
Proof.
  unfold purge_keys. destruct (Storage.transaction_begin _ _) as [o c].
  apply if_ret_bind. intros t _. cbv zeta. apply if_ret_bind.
  eapply if_ret_mono; [by apply purge_loop_same|]. intros e1 He1.
  repeat (walk with fail). done.
Qed.

(** *** The whole of it *)

Section keeps.

Variable P : world -> Prop.

Lemma await_keeps wakes : forall w,
  Forall (fun k => forall w, P w -> if_ret (others k w) P) wakes -> P w ->
  if_ret (await_transactions wakes w) P.
Proof.
  induction wakes as [|k wakes IH]; intros w Hk Hw; cbn [await_transactions];
    destruct (transactions _); try (by apply if_ret_ret); [intros ? [=]|].
  inversion Hk; subst. apply if_ret_bind. eapply if_ret_mono; [eauto|]. intros w1 Hw1. by apply IH.
Qed.

Lemma await_purge_keeps wakes : forall w,
  Forall (fun k => forall w, P w -> if_ret (others k w) P) wakes -> P w ->
  if_ret (await_purge wakes w) P.
Proof.
  induction wakes as [|k wakes IH]; intros w Hk Hw; cbn [await_purge];
    destruct (purging_keys _); try (by apply if_ret_ret); [intros ? [=]|].
  inversion Hk; subst. apply if_ret_bind. eapply if_ret_mono; [eauto|]. intros w1 Hw1. by apply IH.
Qed.

End keeps.

Hypothesis enumerate_all : forall m, enumerate m ≡ₚ map_to_list m.

Lemma enumerate_keys m : NoDup (enumerate m).*1 /\ list_to_map (enumerate m) = m.
Proof.
  assert (Hn : NoDup (enumerate m).*1) by (rewrite enumerate_all; apply NoDup_fst_map_to_list).
  split; [done|].
  rewrite (list_to_map_proper _ (map_to_list m) Hn (enumerate_all m)). apply list_to_map_to_list.
Qed.

(** A transaction without locks goes. *)
Lemma free_tx_counted x w :
  counted w -> held (caller w) !! x = Some ∅ -> counted (on_env (free_tx x) w).
Proof.
  intros [HC Ha Hr] Hx.
  assert (Hd : held (caller (on_env (free_tx x) w)) = base.delete x (held (caller w))).
  { unfold held. cbn. by rewrite fmap_delete. }
  split; [|intros p Hp|done].
  - rewrite Hd. apply (counted_transactions HC).
    + intros k. rewrite (holders_lookup k _ x ∅ Hx), has_empty. lia.
    + intros y m j q. rewrite lookup_delete_Some. intros [_ Hy]. by apply (counted_held _ _ _ _ HC y).
  - destruct (Ha p Hp). split; [done|]. apply held_None. rewrite Hd, lookup_delete_None. right.
    by apply held_None.
Qed.

(** All locks of the transaction are given up. *)
Lemma drop_locks_counted now x t w :
  counted w -> tx_heap (tx_part (caller w)) !! x = Some t ->
  if_ret (unref_locks now (enumerate (tx_locks t)) [] w) (fun aw =>
    forall w3, quiet (on_env (remove_locks aw.1) aw.2) w3 ->
    forall t', tx_locks t' = ∅ ->
    counted (put_tx x t' w3) /\ held (caller (put_tx x t' w3)) !! x = Some ∅).
Proof.
  intros [HC Ha Hr] Hx. destruct (enumerate_keys (tx_locks t)) as [Hnd Hm].
  assert (HX : held (caller w) !! x = Some (tx_locks t)) by (unfold held; by rewrite lookup_fmap, Hx).
  eapply if_ret_mono.
  { apply (unref_locks_counted now _ [] w (held (caller w)) x Hnd); [intros p Hp; by apply Ha|].
    rewrite Hm, insert_id by done. exact HC. }
  intros [acc w1] (HC1 & Ho & Hf1) w3 Hq t' Ht'. cbn [fst snd] in *.
  destruct (heap_only_same _ _ Ho) as (Hk1 & Hx1 & Hm1 & Hn1 & Hr1).
  destruct (quiet_same_locks _ _ Hq) as (Hk3 & Hh3 & Hx3 & Hm3 & Hn3 & Hr3).
  assert (Hheld : held (caller (put_tx x t' w3)) = <[x := ∅]> (held (caller w))).
  { rewrite held_put_tx, Ht', Hx3. change (held (caller (on_env _ w1))) with (held (caller w1)).
    by rewrite Hx1. }
  split; [|rewrite Hheld; apply lookup_insert_eq]. split.
  - rewrite Hheld. cbn in *. by rewrite Hk3, Hh3, Hm3, Hk1, Hm1.
  - intros p Hp. cbn in Hp, Hn3. split.
    + cbn. rewrite Hh3. apply Hf1. lia.
    + apply held_None. rewrite Hheld. rewrite lookup_insert_ne.
      * apply held_None. apply Ha. lia.
      * intros <-. destruct (Ha x ltac:(lia)). congruence.
  - apply Hr3. unfold registrations_ok. cbn. by apply Hr1.
Qed.

(** What happens during a wait keeps the counts right and leaves the transaction alone. *)
Definition wakes_count (x : positive) (wakes : list (wake E T O L)) : Prop :=
  Forall (fun k => forall w, counted w -> if_ret (others k w) (fun w' =>
    counted w' /\ tx_heap (tx_part (caller w')) !! x = tx_heap (tx_part (caller w)) !! x)) wakes.

Lemma cleanup_counted wakes now x w :
  wakes_count x wakes -> counted w ->
  if_ret (cleanup_transaction engine enumerate wakes now x w) counted.
Proof.
  intros Hw Hc. unfold cleanup_transaction. apply if_ret_bind.
  eapply if_ret_mono; [apply get_tx_found|]. intros t Hx. cbv beta in Hx. apply if_ret_bind.
  eapply if_ret_mono; [by apply drop_locks_counted|]. intros [acc w1] Hd. cbn [fst snd] in Hd.
  apply if_ret_bind. eapply if_ret_mono; [apply unref_ranges_quiet, quiet_reflexive|]. intros r Hr.
  apply if_ret_bind. eapply if_ret_mono; [exact Hr|]. intros w3 Hq. cbv zeta.
  set (t' := DataclientTx _ _ _ _ _ _ _ _). destruct (Hd w3 Hq t' eq_refl) as [Hc4 Hx4].
  set (w4 := put_tx x t' w3) in *. set (P w := counted w /\ held (caller w) !! x = Some ∅).
  assert (Hsame : forall f w, P w ->
    locks (lock_part (f (caller w))) = locks (lock_part (caller w)) ->
    lock_heap (lock_part (f (caller w))) = lock_heap (lock_part (caller w)) ->
    tx_heap (tx_part (f (caller w))) = tx_heap (tx_part (caller w)) ->
    next_address (f (caller w)) = next_address (caller w) -> P (on_env f w)).
  { intros f w' [Hc' Hx'] H1 H2 H3 H4. split; [eapply same_locks_counted; [done|by apply on_env_same]|].
    unfold held in *. cbn. by rewrite H3. }
  set (w5 := on_env (set_purge (delete_link x _) _ _) w4).
  assert (H5 : P w5) by (by apply Hsame). apply if_ret_bind. apply (if_ret_mono _ P).
  { destruct (_ && _); [|by apply if_ret_ret]. apply if_ret_bind.
    apply (if_ret_mono _ P).
    - apply await_keeps; [|by apply Hsame].
      eapply Forall_impl; [exact Hw|]. intros k Hk w6 [Hc6 Hx6].
      eapply if_ret_mono; [by apply Hk|]. intros w7 [Hc7 Hx7]. split; [done|].
      unfold held in *. rewrite lookup_fmap in *. by rewrite Hx7.
    - intros w6 H6. apply if_ret_bind. eapply if_ret_mono; [apply purge_keys_same|].
      intros e (He1 & He2 & He3 & He4). apply if_ret_ret.
      by apply (Hsame (fun _ => set_purge (transactions (tx_part e)) (purgeable_keys (tx_part e)) false e) w6). }
  intros w6 [Hc6 Hx6]. apply if_ret_ret. by apply free_tx_counted.
Qed.

End locks.
