(* ===== verification/CacheNode.v ===== *)
(** * A node with the caching storage engine

    What can happen to a node, as a step relation: answers of the meta server, sources of
    the main context whose time has come, and the operations of transactions, with steps
    of the node during their waits.  In every run the locks of the node and of its
    transactions are alive and counted. *)

From S2P Require Import Prelude.
From S2P Require Import DataProtocol.
From S2P Require Import Itree.
From S2P Require Import LockMem.
From S2P Require Import Storage.
From S2P Require Import Socket.
From S2P Require Import MetaProtocol.
From S2P Require Import DataServer.
From S2P Require Import DataClient.
From S2P Require Import CacheEnv.
From S2P Require Import CacheLock.
From S2P Require Import CacheRange.
From S2P Require Import CacheTx.
From S2P Require Import CacheCount.
From S2P Require Import CacheFrame.
From S2P Require Import CacheLocks.

Local Open Scope Z_scope.

Section node.

Context {E T O L : Type}.
Abbreviation env := (dataclient_environment E T).
Abbreviation world := (client_world cache_callback O env L).
Implicit Types (e : env) (w : world).

(** ** Events *)

(** An answer about a value or a key arrives. *)
Definition answer_value (now : Z) (response : gzochid_data_response) : world -> outcome world :=
  gzochid_dataclient_received_value (call_success now) (call_failure now) response.
Definition answer_key (now : Z) (response : gzochid_data_response) : world -> outcome world :=
  gzochid_dataclient_received_next_key (call_success now) (call_failure now) response.

(** The time of a source has come; it is gone afterwards. *)
Definition run_source (now : Z) (i : nat) (w : world) : outcome world :=
  s ← deref (main_context (dataclient w) !! i);
  invoke_release_callback (call_release now) (source_data s)
    (set_client (set_sources (base.delete i (main_context (dataclient w))) (dataclient w)) w).

Variable engine : gzochid_storage_engine_interface E T.
Variable enumerate : key_locks -> list (dataclient_qualified_key * positive).

(** ** Steps

    While an operation waits, the node makes steps; while a transaction ends, none of them
    changes it.  An answer to a request for a lock comes when the node has not the lock, or
    when it asked to write. *)

Definition leave_alone (x : positive) (wakes : list (wake E T O L)) : Prop :=
  Forall (fun k => forall w w', others k w = Ret w' ->
    tx_heap (tx_part (caller w')) !! x = tx_heap (tx_part (caller w)) !! x) wakes.

Inductive node_step : world -> world -> Prop :=
| step_answer_value now response w w' :
    answer_counts response w -> answer_value now response w = Ret w' -> node_step w w'
| step_answer_key now response w w' : answer_key now response w = Ret w' -> node_step w w'
| step_source now i w w' : run_source now i w = Ret w' -> node_step w w'
| step_begin wakes w x w' :
    waits wakes -> transaction_begin engine wakes w = Ret (x, w') -> node_step w w'
| step_begin_timed wakes now timeout w x w' :
    waits wakes -> transaction_begin_timed engine wakes now timeout w = Ret (x, w') -> node_step w w'
| step_get wakes now x st key w v w' :
    waits wakes -> transaction_get engine wakes now x st key w = Ret (v, w') -> node_step w w'
| step_get_for_update wakes now x st key w v w' :
    waits wakes -> transaction_get_for_update engine wakes now x st key w = Ret (v, w') -> node_step w w'
| step_put wakes now now' x st key value w w' :
    waits wakes -> transaction_put engine wakes now now' x st key value w = Ret w' -> node_step w w'
| step_delete wakes now x st key w r w' :
    waits wakes -> transaction_delete engine wakes now x st key w = Ret (r, w') -> node_step w w'
| step_first_key wakes now x st w v w' :
    waits wakes -> transaction_first_key wakes now x st w = Ret (v, w') -> node_step w w'
| step_next_key wakes now x st key w v w' :
    waits wakes -> transaction_next_key wakes now x st key w = Ret (v, w') -> node_step w w'
| step_prepare x w w' : transaction_prepare engine x w = Ret w' -> node_step w w'
| step_commit wakes now x w w' :
    waits wakes -> leave_alone x wakes ->
    transaction_commit engine enumerate wakes now x w = Ret w' -> node_step w w'
| step_rollback wakes now x w w' :
    waits wakes -> leave_alone x wakes ->
    transaction_rollback engine enumerate wakes now x w = Ret w' -> node_step w w'
with waits : list (wake E T O L) -> Prop :=
| waits_nil : waits []
| waits_cons k wakes :
    (forall w w', others k w = Ret w' -> node_steps w w') -> waits wakes -> waits (k :: wakes)
with node_steps : world -> world -> Prop :=
| steps_done w : node_steps w w
| steps_more w w1 w' : node_step w w1 -> node_steps w1 w' -> node_steps w w'.

Scheme node_step_mut := Induction for node_step Sort Prop
  with waits_mut := Induction for waits Sort Prop
  with node_steps_mut := Induction for node_steps Sort Prop.

(** ** The counts are right in every run *)

Definition waits_count (wakes : list (wake E T O L)) : Prop :=
  Forall (fun k => forall w, counted w -> if_ret (others k w) counted) wakes.

Lemma waits_count_keep wakes now : waits_count wakes -> wakes_keep (fun _ => counted) now wakes.
Proof.
  intros Hw. revert now. induction Hw as [|k wakes Hk Hw IH]; intros now; cbn [wakes_keep]; [done|].
  by split.
Qed.

Lemma ends_counted now (wakes : list (wake E T O L)) w : ends (fun _ => counted) now wakes w -> counted w.
Proof. by intros (_ & _ & H). Qed.

Lemma ensure_lock_counted wakes now x st key b w :
  waits_count wakes -> counted w ->
  if_ret (ensure_lock wakes now x st key b w) (fun bw => counted bw.2).
Proof.
  intros Hw Hc. eapply if_ret_mono.
  - apply (ensure_lock_keeps (fun _ => counted)); [by intros; eapply quiet_counted| |by apply waits_count_keep|done].
    intros. by apply take_counted.
  - intros bw. apply ends_counted.
Qed.

Lemma ensure_range_lock_counted wakes now x st key w :
  waits_count wakes -> counted w ->
  if_ret (ensure_range_lock wakes now x st key w) (fun bw => counted bw.2).
Proof.
  intros Hw Hc. eapply if_ret_mono.
  - apply (ensure_range_lock_keeps (fun _ => counted)); [by intros; eapply quiet_counted|by apply waits_count_keep|done].
  - intros bw. apply ends_counted.
Qed.

(** *** Reading and writing *)

Lemma set_delegate_counted f w : counted w -> counted (on_env (fun e => set_delegate (f e) e) w).
Proof. intros Hc. eapply same_locks_counted; [done|by apply on_env_same]. Qed.

Lemma put_tx_counted x t t' w :
  counted w -> tx_heap (tx_part (caller w)) !! x = Some t -> tx_locks t' = tx_locks t ->
  counted (put_tx x t' w).
Proof. intros Hc Hx Ht. eapply same_locks_counted; [done|by eapply put_tx_same]. Qed.

Lemma propagate_counted x w :
  counted w -> if_ret (propagate_transaction_status engine x w) counted.
Proof.
  intros Hc. unfold propagate_transaction_status. apply if_ret_bind.
  eapply if_ret_mono; [apply get_tx_found|]. intros t Hx. cbv beta in Hx.
  destruct (rollback t); [by apply if_ret_ret|]. apply if_ret_bind. intros d _. apply if_ret_ret.
  by eapply put_tx_counted.
Qed.

Lemma get_counted wakes now x st key b w :
  waits_count wakes -> counted w ->
  if_ret (get_internal engine wakes now x st key b w) (fun vw => counted vw.2).
Proof.
  intros Hw Hc. unfold get_internal. apply if_ret_bind.
  eapply if_ret_mono; [by apply ensure_lock_counted|]. intros [ok w1] Hc1. cbn [snd] in Hc1.
  destruct ok; cbn [negb]; [|by apply if_ret_ret]. apply if_ret_bind. intros t _.
  destruct (is_deleted _ _); [by apply if_ret_ret|]. apply if_ret_bind. intros d _.
  destruct ((if b then _ else _) engine d st key _) as [v c]. apply if_ret_bind.
  eapply if_ret_mono; [by apply propagate_counted, set_delegate_counted|]. intros w2 Hc2.
  repeat (walk with fail); done.
Qed.

Lemma put_counted wakes now now' x st key value w :
  waits_count wakes -> counted w ->
  if_ret (transaction_put engine wakes now now' x st key value w) counted.
Proof.
  intros Hw Hc. unfold transaction_put. apply if_ret_bind.
  eapply if_ret_mono; [by apply ensure_lock_counted|]. intros [ok w1] Hc1. cbn [snd] in Hc1.
  destruct ok; cbn [negb]; [|by apply if_ret_ret]. apply if_ret_bind. intros t _.
  apply if_ret_bind. intros d _. apply if_ret_bind. intros v _. cbv zeta. apply if_ret_bind.
  eapply if_ret_mono; [by apply propagate_counted, set_delegate_counted|]. intros w2 Hc2.
  apply if_ret_bind. eapply if_ret_mono; [apply get_tx_found|]. intros t2 Hx. cbv beta in Hx.
  destruct (rollback t2); apply if_ret_ret; [done|]. by eapply put_tx_counted.
Qed.

Lemma delete_counted wakes now x st key w :
  waits_count wakes -> counted w ->
  if_ret (transaction_delete engine wakes now x st key w) (fun rw => counted rw.2).
Proof.
  intros Hw Hc. unfold transaction_delete. apply if_ret_bind.
  eapply if_ret_mono; [by apply ensure_lock_counted|]. intros [ok w1] Hc1. cbn [snd] in Hc1.
  destruct ok; cbn [negb]; [|by apply if_ret_ret]. apply if_ret_bind.
  eapply if_ret_mono; [apply get_tx_found|]. intros t Hx. cbv beta in Hx.
  apply if_ret_bind. intros d _. destruct (Storage.transaction_delete _ _ _ _ _) as [ret c]. cbv zeta.
  pose proof (set_delegate_counted (fun _ => c) w1 Hc1) as Hc2. apply if_ret_bind.
  eapply if_ret_mono; [apply propagate_counted|intros w3 Hc3; by apply if_ret_ret].
  destruct (_ =? 0); [|done]. by eapply put_tx_counted.
Qed.

(** *** Beginnings and ends *)

Lemma create_transaction_counted wakes d end_time w :
  waits_count wakes -> counted w ->
  if_ret (create_transaction wakes d end_time w) (fun xw => counted xw.2).
Proof.
  intros Hw Hc. unfold create_transaction. cbn [new_address]. cbv zeta. apply if_ret_bind.
  eapply if_ret_mono.
  { apply (await_purge_keeps counted wakes); [done|].
    destruct Hc as [HC Ha Hr]. destruct (Ha (next_address (caller w)) ltac:(lia)) as [_ Hx].
    assert (Hheld : held (caller w) !! next_address (caller w) = None) by by apply held_None.
    split; [|intros p Hp|done].
    - rewrite held_put_tx. cbn. change (held _) with (held (caller w)).
      apply (counted_transactions HC).
      + intros k. rewrite holders_insert, has_empty, delete_id by done. lia.
      + intros x m j q. destruct (decide (x = next_address (caller w))) as [->|Hn].
        * rewrite lookup_insert_eq. intros [= <-]. by rewrite lookup_empty.
        * rewrite lookup_insert_ne by done. by apply (counted_held _ _ _ _ HC x).
    - cbn in Hp |- *. destruct (Ha p ltac:(lia)). split; [done|].
      rewrite lookup_insert_ne by lia. done. }
  intros w1 Hc1. apply if_ret_ret. eapply same_locks_counted; [done|by apply on_env_same].
Qed.

Hypothesis enumerate_all : forall m, enumerate m ≡ₚ map_to_list m.

Lemma waits_alone x wakes :
  waits_count wakes -> leave_alone x wakes -> wakes_count x wakes.
Proof.
  intros Hw Ha. unfold wakes_count, waits_count, leave_alone in *. rewrite Forall_forall in *.
  intros k Hk w Hc w' Hw'. split; [by apply (Hw k Hk w Hc)|by apply (Ha k Hk w)].
Qed.

Lemma commit_counted wakes now x w :
  wakes_count x wakes -> counted w ->
  if_ret (transaction_commit engine enumerate wakes now x w) counted.
Proof.
  intros Hw Hc. unfold transaction_commit. apply if_ret_bind. intros t _. apply if_ret_bind. intros d _.
  cbv zeta. set (w1 := on_env _ w).
  assert (Hc1 : counted w1).
  { apply (set_delegate_counted (fun e => Storage.transaction_commit engine d (delegate_context e)) w Hc). }
  apply if_ret_bind. apply (if_ret_mono _ (same_client w1)).
  { destruct (0 <? _); [apply submit_changeset_same|by apply if_ret_ret]. }
  intros w2 Hs. apply cleanup_counted; [done|done|].
  eapply same_locks_counted; [|by apply on_env_same].
  eapply quiet_counted; [done|]. eapply quiet_same; [apply quiet_reflexive|done].
Qed.

Lemma rollback_counted wakes now x w :
  wakes_count x wakes -> counted w ->
  if_ret (transaction_rollback engine enumerate wakes now x w) counted.
Proof.
  intros Hw Hc. unfold transaction_rollback. apply if_ret_bind. intros t _. apply if_ret_bind. intros d _.
  apply cleanup_counted; [done|done|].
  apply (set_delegate_counted (fun e => Storage.transaction_rollback engine d (delegate_context e)) w Hc).
Qed.

(** *** Every step *)

Lemma first_key_counted wakes now x st w :
  waits_count wakes -> counted w ->
  if_ret (transaction_first_key wakes now x st w) (fun vw => counted vw.2).
Proof.
  intros Hw Hc. unfold transaction_first_key. apply if_ret_bind.
  eapply if_ret_mono; [by apply ensure_range_lock_counted|]. intros [ok w1] Hc1. cbn [snd] in Hc1.
  repeat (walk with fail); done.
Qed.

Lemma next_key_counted wakes now x st key w :
  waits_count wakes -> counted w ->
  if_ret (transaction_next_key wakes now x st key w) (fun vw => counted vw.2).
Proof.
  intros Hw Hc. unfold transaction_next_key. apply if_ret_bind.
  eapply if_ret_mono; [by apply ensure_range_lock_counted|]. intros [ok w1] Hc1. cbn [snd] in Hc1.
  destruct ok; cbn [negb]; [|by apply if_ret_ret]. cbn [new_address]. cbv zeta.
  set (w2 := set_caller _ w1).
  assert (Hc2 : counted w2).
  { eapply quiet_counted; [done|]. apply quiet_caller; [apply quiet_reflexive|].
    apply (env_quiet_next (caller w1) (caller w1)), env_quiet_refl. }
  repeat (walk with fail); done.
Qed.

Lemma answer_value_counted now response w :
  counted w -> answer_counts response w -> if_ret (answer_value now response w) counted.
Proof.
  intros Hc Hn w' Hw'.
  destruct (received_spec now w response GZOCHID_DATA_PROTOCOL_VALUE_RESPONSE ltac:(by left)
    (counted_registrations _ Hc) w' Hw') as (Hr & [Hq|[[_ Hg]|Hg]]).
  - by eapply quiet_counted.
  - by eapply grants_counted.
  - by eapply range_granted_counted.
Qed.

Lemma answer_key_counted now response w :
  counted w -> if_ret (answer_key now response w) counted.
Proof.
  intros Hc w' Hw'.
  destruct (received_spec now w response GZOCHID_DATA_PROTOCOL_NEXT_KEY_RESPONSE ltac:(by right)
    (counted_registrations _ Hc) w' Hw') as (Hr & [Hq|[[? _]|Hg]]).
  - by eapply quiet_counted.
  - done.
  - by eapply range_granted_counted.
Qed.

Lemma run_source_counted now i w : counted w -> if_ret (run_source now i w) counted.
Proof.
  intros Hc. unfold run_source. apply if_ret_bind. intros s Hs%deref_Ret. by apply source_run_counted.
Qed.

Lemma node_step_counted w w' : node_step w w' -> counted w -> counted w'.
Proof.
  apply (node_step_mut (fun w w' _ => counted w -> counted w') (fun wakes _ => waits_count wakes)
    (fun w w' _ => counted w -> counted w')); clear w w'; try (by intros; eauto).
  - intros now r w w' Hn Hw' Hc. by eapply answer_value_counted.
  - intros now r w w' Hw' Hc. by eapply answer_key_counted.
  - intros now i w w' Hw' Hc. by eapply run_source_counted.
  - intros wakes w x w' _ IH Hw' Hc. unfold transaction_begin in Hw'.
    destruct (Storage.transaction_begin _ _) as [d c].
    exact (create_transaction_counted _ _ _ _ IH (set_delegate_counted (fun _ => c) w Hc) _ Hw').
  - intros wakes now tv w x w' _ IH Hw' Hc. unfold transaction_begin_timed in Hw'.
    destruct (Storage.transaction_begin_timed _ _ _) as [d c].
    exact (create_transaction_counted _ _ _ _ IH (set_delegate_counted (fun _ => c) w Hc) _ Hw').
  - intros wakes now x st key w v w' _ IH Hw' Hc. exact (get_counted _ _ _ _ _ _ _ IH Hc _ Hw').
  - intros wakes now x st key w v w' _ IH Hw' Hc. exact (get_counted _ _ _ _ _ _ _ IH Hc _ Hw').
  - intros wakes now now' x st key value w w' _ IH Hw' Hc. exact (put_counted _ _ _ _ _ _ _ _ IH Hc _ Hw').
  - intros wakes now x st key w r w' _ IH Hw' Hc. exact (delete_counted _ _ _ _ _ _ IH Hc _ Hw').
  - intros wakes now x st w v w' _ IH Hw' Hc. exact (first_key_counted _ _ _ _ _ IH Hc _ Hw').
  - intros wakes now x st key w v w' _ IH Hw' Hc. exact (next_key_counted _ _ _ _ _ _ IH Hc _ Hw').
  - intros x w w' Hw' Hc. unfold transaction_prepare in Hw'. inv_ret.
    by apply (set_delegate_counted (fun e => Storage.transaction_prepare engine _ (delegate_context e))).
  - intros wakes now x w w' _ IH Ha Hw' Hc. exact (commit_counted _ _ _ _ (waits_alone _ _ IH Ha) Hc _ Hw').
  - intros wakes now x w w' _ IH Ha Hw' Hc. exact (rollback_counted _ _ _ _ (waits_alone _ _ IH Ha) Hc _ Hw').
  - by apply Forall_nil.
  - intros k wakes _ IHk _ IH. apply Forall_cons. split; [|done]. intros w Hc w' Hw'. by apply (IHk w w').
Qed.


Lemma node_steps_counted w w' : node_steps w w' -> counted w -> counted w'.
Proof. induction 1; [done|]. intros. eauto using node_step_counted. Qed.

(** A node that has just started. *)
Definition started (w : world) : Prop :=
  exists lock_ms range_ms app c stores m s,
    w = ClientWorld (gzochid_data_client_constructed lock_ms range_ms)
          (foldr open (initialize app c) stores) m s.

Lemma started_counted w : started w -> counted w.
Proof.
  intros (lock_ms & range_ms & app & c & stores & m & s & ->).
  assert (He : essence (foldr open (initialize (T := T) app c) stores) = essence (initialize app c)
    /\ next_address (foldr open (initialize (T := T) app c) stores) = 1%positive
    /\ tx_heap (tx_part (foldr open (initialize (T := T) app c) stores)) = ∅).
  { induction stores as [|st stores (He & Hn & Hx)]; [done|]. by split_and!. }
  destruct He as (He & Hn & Hx). unfold essence in He. cbn in He. injection He as Hk Hh Hv Hd Hp _ Ha _ _.
  split; cbn.
  - unfold held. rewrite Hk, Hh, Hx, fmap_empty. apply counted_start.
  - intros q _. by rewrite Hh, Hx.
  - intros a q. cbn. by rewrite lookup_empty.
Qed.

(** C11. In every run of a node in which no request to read is answered for a key whose lock
    the node already has, whatever operations of its transactions interleave with the
    answers and releases of its data client: every lock in its table is alive, is the lock
    of its key and counts the sources that will release it and the transactions that have
    it; every lock that a transaction has is in the table; and a reference that is given up
    releases the lock to the meta server only if it was the last of these.  The other runs
    are excluded by [answer_counts]: such an answer is not counted, and in them a lock in
    use can be freed ([CacheDefects.lock_freed_in_use]). *)
Theorem locks_counted w w' :
  started w -> node_steps w w' ->
  let e := caller w' in
  let users k := (pending k (main_context (dataclient w')) + holders k (tx_locks <$> tx_heap (tx_part e)))%nat in
  (forall k p, locks (lock_part e) !! k = Some p ->
     exists l, lock_heap (lock_part e) !! p = Some l /\ lk_key l = k
               /\ lk_ref_count l = Z.of_nat (users k) /\ (0 < users k)%nat)
  /\ (forall x t k p, tx_heap (tx_part e) !! x = Some t -> tx_locks t !! k = Some p ->
        locks (lock_part e) !! k = Some p)
  /\ (forall now k p w2, locks (lock_part e) !! k = Some p ->
        lock_unref now p w' = Ret (true, w2) -> users k = 1%nat).
Proof.
  intros Hs Hw e users. destruct (node_steps_counted _ _ Hw (started_counted _ Hs)) as [HC _ _].
  split_and!.
  - apply (counted_lock _ _ _ _ HC).
  - intros x t k p Hx Hk. apply (counted_held _ _ _ _ HC x (tx_locks t)); [|done].
    unfold held, e in *. by rewrite lookup_fmap, Hx.
  - intros now k p w2 Hk Hu. destruct (lock_unref_spec now p w' _ Hu) as (l & Hl & Hz & _).
    destruct (counted_found HC k p l Hk Hl) as (_ & Hc & Hpos). cbn in Hz.
    symmetry in Hz. apply Z.leb_le in Hz. unfold uses, held in *. unfold users, e in *. lia.
Qed.

(** Whether an answer is counted, as a test. *)
Definition answer_countsb (response : gzochid_data_response) (w : world) : bool :=
  match front (response_app response) w with
  | Some r =>
      match success_callback r with
      | lock_success d =>
          cb_for_write d || match callback_key d with
                            | Ret k => bool_decide (locks (lock_part (caller w)) !! k = None)
                            | _ => true
                            end
      | _ => true
      end
  | None => true
  end.

Lemma answer_countsb_true response w : answer_countsb response w = true -> answer_counts response w.
Proof.
  unfold answer_countsb, answer_counts, counts. intros Hb r d Hr Hd k Hk [p Hp].
  rewrite Hr, Hd, Hk, Hp in Hb. by destruct (cb_for_write d).
Qed.

End node.

(** *** A run of two transactions *)

Abbreviation sample_world :=
  (client_world cache_callback unit (dataclient_environment map_engine_state positive) unit).

Definition sample_node : sample_world :=
  ClientWorld (gzochid_data_client_constructed None None)
    (foldr open (initialize [97; 0] (MapEngine ∅ ∅)) [Oids]) gzochid_reconnectable_socket_new ∅.

(** An answer that is counted; nothing else happens. *)
Definition sample_answer (now : Z) (response : gzochid_data_response)
  : wake map_engine_state positive unit unit :=
  Wake (fun w => if answer_countsb response w then answer_value now response w else Fuel) now.

Definition sample_key : dataclient_qualified_key := QualifiedKey Oids [5].

Definition sample_run : outcome sample_world :=
  '(x, w) ← transaction_begin map_engine [] sample_node;
  '(v, w) ← transaction_get map_engine
              [sample_answer 2 (DataResponse [97; 0] oids_name (Success (Some [7])))] 1 x Oids [5] w;
  '(y, w) ← transaction_begin map_engine [] w;
  '(v', w) ← transaction_get map_engine [] 3 y Oids [5] w;
  run_source 1000 0 w.

Lemma sample_waits now response :
  waits map_engine map_to_list [sample_answer now response].
Proof.
  apply waits_cons; [|apply waits_nil]. intros w w'. cbn [others sample_answer].
  destruct (answer_countsb response w) eqn:Hb; [|done]. intros Hw.
  eapply steps_more; [|apply steps_done]. eapply step_answer_value; [|done].
  by apply answer_countsb_true.
Qed.

Lemma sample_steps : forall w', sample_run = Ret w' -> node_steps map_engine map_to_list sample_node w'.
Proof.
  intros w' Hw. unfold sample_run in Hw. apply bind_Ret in Hw as ([x w1] & H1 & Hw).
  apply bind_Ret in Hw as ([v w2] & H2 & Hw). apply bind_Ret in Hw as ([y w3] & H3 & Hw).
  apply bind_Ret in Hw as ([v' w4] & H4 & Hw).
  eapply steps_more; [eapply step_begin; [apply waits_nil|exact H1]|].
  eapply steps_more; [eapply step_get; [apply sample_waits|exact H2]|].
  eapply steps_more; [eapply step_begin; [apply waits_nil|exact H3]|].
  eapply steps_more; [eapply step_get; [apply waits_nil|exact H4]|].
  eapply steps_more; [eapply step_source; exact Hw|apply steps_done].
Qed.

(** Two transactions have the lock when its source has run. *)
Lemma locks_counted_witness :
  match sample_run with
  | Ret w' =>
      started sample_node /\ node_steps map_engine map_to_list sample_node w'
      /\ match locks (lock_part (caller w')) !! sample_key with
         | Some p => exists l, lock_heap (lock_part (caller w')) !! p = Some l /\ lk_ref_count l = 2
         | None => False
         end
  | _ => False
  end.
Proof.
  pose proof sample_steps as Hs.
  assert (Hret : exists w', sample_run = Ret w'
    /\ (pending sample_key (main_context (dataclient w'))
        + holders sample_key (tx_locks <$> tx_heap (tx_part (caller w'))))%nat = 2%nat
    /\ is_Some (locks (lock_part (caller w')) !! sample_key)).
  { destruct sample_run as [w'| | |] eqn:Hr; vm_compute in Hr; try discriminate Hr.
    exists w'. injection Hr as <-. split; [done|]. vm_compute. split; [done|by eexists]. }
  destruct Hret as (w' & Hr & Hu & [p Hp]). specialize (Hs w' Hr). rewrite Hr.
  assert (Hstart : started sample_node) by by repeat eexists.
  split_and!; [done|done|]. rewrite Hp.
  destruct (locks_counted map_engine map_to_list (fun m => reflexivity _) sample_node w' Hstart Hs)
    as (Hl & _). destruct (Hl _ _ Hp) as (l & Hl' & _ & Hc & _). exists l. split; [done|].
  rewrite Hc, Hu. reflexivity.
Defined.
