(* ===== verification/CacheShow.v ===== *)
(** * The caching storage engine: what a transaction is shown

    A transaction of a node reads a key from the delegate engine or from the cache,
    whichever has the later time.  [shows] says that for every key whose lock the node has
    this is the value that it should be, and that it will stay so when released keys are
    purged, as the times of borrowing, writing and releasing follow each other. *)

From S2P Require Import Prelude.
From S2P Require Import Io.
From S2P Require Import Util.
From S2P Require Import MetaProtocol.
From S2P Require Import LockMem.
From S2P Require Import Storage.
From S2P Require Import CacheEnv.
From S2P Require Import CacheTx.

Local Open Scope Z_scope.

(** ** Values with the time in front *)

Definition stamp (v : bytes) : Z :=
  match gzochi_common_io_read_long v 0 with Ret z => z | _ => 0 end.

Definition stamp_of (v : option bytes) : Z := match v with Some v => stamp v | None => 0 end.

(** Times of the clock. *)
Definition clock_ok (now : Z) : Prop := 0 < now < 2 ^ 63.

Lemma prefix_form now src v :
  prefix_with_timestamp now src = Ret v -> v = be_encode 8 (s64 now) ++ src.
Proof.
  unfold prefix_with_timestamp.
  assert (Hm : malloc (Z.of_nat (length src) + 8) = [] ++ replicate 8 0 ++ replicate (length src) 0).
  { unfold malloc. cbn [app]. rewrite <- replicate_add. f_equal. lia. }
  rewrite Hm, (be_write (BigEndian := long_codec)).
  rewrite write_at_mid by (rewrite ?be_encode_length; done). run. unfold memcpy_to.
  rewrite memcpy_from_all. run. cbn [app].
  rewrite <- (app_nil_r (be_encode 8 (s64 now) ++ replicate (length src) 0)), <- app_assoc.
  rewrite write_at_mid by (rewrite ?be_encode_length, ?length_replicate; done).
  rewrite app_nil_r. by intros [= <-].
Qed.

Lemma empty_form now v :
  create_empty_timestamped_value now = Ret v -> v = be_encode 8 (s64 now) ++ [].
Proof.
  unfold create_empty_timestamped_value. rewrite write_long_8 by done. rewrite app_nil_r. by intros [= <-].
Qed.

Lemma stamp_encoded now src : clock_ok now -> stamp (be_encode 8 (s64 now) ++ src) = now.
Proof.
  intros Hnow. unfold stamp. rewrite (read_encoded_0 (Hbe := long_codec)).
  change (8 * Z.of_nat 8) with 64. unfold clock_ok in Hnow.
  rewrite !signed_small; [done|lia|unfold in_signed; lia|lia|unfold in_signed; rewrite ?signed_small by (unfold in_signed; lia); lia].
Qed.

(** ** What is read of a key *)

(** The part of a cached value after its time; one that is empty is none. *)
Definition cached (v : bytes) : option bytes :=
  if Z.of_nat (length v) <=? 8 then None else Some (drop 8 v).

Definition shown (stored cache : option bytes) : option bytes :=
  if stamp_of stored <? stamp_of cache then cache ≫= cached else drop 8 <$> stored.

(** What an answer leaves in the cache. *)
Definition lent (now : Z) (data : option bytes) (v : bytes) : Prop :=
  v = be_encode 8 (s64 now) ++ default [] data.

Lemma lent_length now data v : lent now data v -> length v = (8 + length (default [] data))%nat.
Proof. intros ->. by rewrite length_app, be_encode_length. Qed.

Lemma lent_cached now data v :
  lent now data v -> data <> Some [] -> cached v = data.
Proof.
  intros Hv Hd. pose proof (lent_length _ _ _ Hv) as Hl. unfold cached. destruct data as [d|]; cbn in Hl.
  - destruct d as [|b d]; [done|]. rewrite (proj2 (Z.leb_gt _ _)) by (cbn in *; lia).
    rewrite Hv. cbn [default from_option id]. by rewrite drop_app_length' by by rewrite be_encode_length.
  - by rewrite (proj2 (Z.leb_le _ _)) by lia.
Qed.

(** ** Keys that the node has a lock for *)

Abbreviation keys_locked := (gmap dataclient_qualified_key positive).
Abbreviation cache := (gmap dataclient_qualified_key bytes).

Definition at_key (k : dataclient_qualified_key) : store * bytes := (qk_store k, qk_key k).

Lemma at_key_inj k j : at_key k = at_key j -> k = j.
Proof. destruct k, j. by intros [= -> ->]. Qed.

(** Since a time [g] the node has had the lock: released values are older, the cached one
    and those that were written are not, and an older one in the engine is hidden. *)
Definition located (t : Z) (P : list dataclient_purgeable_key) (k : dataclient_qualified_key)
    (value stored cache : option bytes) : Prop :=
  exists g,
    g <= t + 1
    /\ (forall pk, pk ∈ P -> purge_key_of pk = k -> release_timestamp pk < g)
    /\ (forall c, cache = Some c -> g <= stamp c)
    /\ (forall s, stored = Some s -> stamp s < g -> is_Some cache)
    /\ shown stored cache = value.

Definition cache_ok (t : Z) (C : cache) : Prop :=
  forall k c, C !! k = Some c -> (8 <= length c)%nat /\ 0 < stamp c <= t.

Definition stored_ok (t : Z) (c : contents) : Prop :=
  forall k s, c !! k = Some s -> (8 < length s)%nat /\ stamp s <= t.

Definition purge_ok (t : Z) (P : list dataclient_purgeable_key) : Prop :=
  forall pk, pk ∈ P -> release_timestamp pk <= t.

(** What is stored in [c] and cached shows the values [o], but for deleted keys, of which
    nothing is stored. *)
Definition shows (t : Z) (K : keys_locked) (C : cache) (P : list dataclient_purgeable_key)
    (D : list dataclient_qualified_key) (c o : contents) : Prop :=
  forall k p, K !! k = Some p ->
    if decide (k ∈ D) then c !! at_key k = None /\ o !! at_key k = None
    else located t P k (o !! at_key k) (c !! at_key k) (C !! k).

Section shows.

Context {t : Z} {K : keys_locked} {C : cache} {P : list dataclient_purgeable_key}
        {D : list dataclient_qualified_key} {c o : contents}.

Lemma located_later t' k v s m : t <= t' -> located t P k v s m -> located t' P k v s m.
Proof. intros Ht (g & Hg & H). exists g. split; [lia|done]. Qed.

Lemma shows_later t' : t <= t' -> shows t K C P D c o -> shows t' K C P D c o.
Proof.
  intros Ht Hs k p Hk. specialize (Hs k p Hk). destruct (decide (k ∈ D)); [done|].
  by eapply located_later.
Qed.

Lemma cache_later t' : t <= t' -> cache_ok t C -> cache_ok t' C.
Proof. intros Ht Hc k v Hk. destruct (Hc k v Hk). split; [done|lia]. Qed.

Lemma stored_later t' : t <= t' -> stored_ok t c -> stored_ok t' c.
Proof. intros Ht Hc k v Hk. destruct (Hc k v Hk). split; [done|lia]. Qed.

Lemma purge_later t' : t <= t' -> purge_ok t P -> purge_ok t' P.
Proof. intros Ht Hp pk Hpk. specialize (Hp pk Hpk). lia. Qed.

(** Fewer locks. *)
Lemma shows_fewer K' :
  (forall k p, K' !! k = Some p -> is_Some (K !! k)) -> shows t K C P D c o -> shows t K' C P D c o.
Proof. intros HK Hs k p Hk. destruct (HK k p Hk) as [q Hq]. by apply (Hs k q). Qed.

(** A value is lent: the lock is new, or now lets write. *)
Lemma shows_lent now data v k K' :
  clock_ok now -> t < now -> stored_ok t c -> purge_ok t P ->
  lent now data v -> data <> Some [] -> o !! at_key k = data -> k ∉ D ->
  (forall j p, K' !! j = Some p -> j <> k -> is_Some (K !! j)) ->
  shows t K C P D c o -> shows now K' (<[k := v]> C) P D c o.
Proof.
  intros Hnow Ht Hst Hp Hv Hd Ho HD HK Hs j p Hj. destruct (decide (j = k)) as [->|Hn].
  - rewrite decide_False by done. rewrite lookup_insert_eq.
    assert (Hstamp : stamp v = now) by (rewrite Hv; by apply stamp_encoded).
    exists now. split_and!; [lia| | |by intros; eexists|].
    + intros pk Hpk _. specialize (Hp pk Hpk). lia.
    + intros ? [= <-]. lia.
    + unfold shown. cbn [stamp_of]. rewrite Hstamp.
      assert (Hlt : stamp_of (c !! at_key k) < now).
      { destruct (c !! at_key k) as [s|] eqn:Hs'; cbn; [|unfold clock_ok in Hnow; lia].
        destruct (Hst _ _ Hs'). lia. }
      rewrite (proj2 (Z.ltb_lt _ _) Hlt). cbn. rewrite Ho. by eapply lent_cached.
  - rewrite lookup_insert_ne by done. destruct (HK j p Hj Hn) as [q Hq].
    specialize (Hs j q Hq). destruct (decide (j ∈ D)); [done|]. eapply located_later; [|done]. lia.
Qed.

(** A lock is given back. *)
Lemma shows_released now k :
  t <= now -> shows t K C P D c o ->
  shows now (base.delete k K) (base.delete k C) (P ++ [PurgeableKey k now]) D c o.
Proof.
  intros Ht Hs j p. rewrite lookup_delete_Some. intros [Hn Hj].
  specialize (Hs j p Hj). destruct (decide (j ∈ D)); [done|]. rewrite lookup_delete_ne by done.
  destruct Hs as (g & Hg & Hp & Hrest). exists g. split_and!; [lia| |apply Hrest..].
  intros pk [Hpk| ->%list_elem_of_singleton]%elem_of_app; [by apply Hp|]. intros Hk. by destruct Hn.
Qed.

End shows.

(** *** Writing *)

Section write.

Context {t : Z} {K : keys_locked} {C : cache} {P : list dataclient_purgeable_key}
        {D : list dataclient_qualified_key} {c o : contents}.

Lemma shows_put now v value k :
  clock_ok now -> t < now -> cache_ok t C -> k ∉ D ->
  v = be_encode 8 (s64 now) ++ value ->
  shows t K C P D c o ->
  shows now K C P D (<[at_key k := v]> c) (<[at_key k := value]> o).
Proof.
  intros Hnow Ht HC HD Hv Hs j p Hj. specialize (Hs j p Hj). destruct (decide (j = k)) as [->|Hn].
  - rewrite decide_False in Hs |- * by done. rewrite !lookup_insert_eq.
    assert (Hstamp : stamp v = now) by (rewrite Hv; by apply stamp_encoded).
    destruct Hs as (g & Hg & Hp & Hc & _ & _). exists g. split_and!; [lia|done|done| |].
    + intros s [= <-] Hlt. lia.
    + unfold shown. cbn [stamp_of]. rewrite Hstamp.
      assert (Hle : stamp_of (C !! k) <= now).
      { destruct (C !! k) as [m|] eqn:Hm; cbn; [|unfold clock_ok in Hnow; lia].
        destruct (HC _ _ Hm). lia. }
      rewrite (proj2 (Z.ltb_ge _ _) Hle). cbn. f_equal. rewrite Hv.
      by rewrite drop_app_length' by by rewrite be_encode_length.
  - assert (Ha : at_key k <> at_key j) by (intros ?%at_key_inj; congruence).
    rewrite !lookup_insert_ne by done. destruct (decide (j ∈ D)); [done|].
    eapply located_later; [|done]. lia.
Qed.

Lemma shows_delete k :
  shows t K C P D c o ->
  shows t K C P (D ++ [k]) (base.delete (at_key k) c) (base.delete (at_key k) o).
Proof.
  intros Hs j p Hj. specialize (Hs j p Hj). destruct (decide (j = k)) as [->|Hn].
  - rewrite decide_True by set_solver. by rewrite !lookup_delete_eq.
  - assert (Ha : at_key k <> at_key j) by (intros ?%at_key_inj; congruence).
    rewrite !lookup_delete_ne by done. destruct (decide (j ∈ D)).
    + by rewrite decide_True by set_solver.
    + by rewrite decide_False by set_solver.
Qed.

(** A key that is stored nowhere is deleted without a note. *)
Lemma shows_delete_absent k p :
  K !! k = Some p -> c !! at_key k = None -> C !! k = None \/ k ∈ D ->
  shows t K C P D c o ->
  o !! at_key k = None
  /\ shows t K C P D (base.delete (at_key k) c) (base.delete (at_key k) o).
Proof.
  intros Hk Hc HCD Hs.
  assert (Ho : o !! at_key k = None).
  { specialize (Hs k p Hk). destruct (decide (k ∈ D)) as [|HD]; [by destruct Hs|].
    destruct HCD as [HC|]; [|done]. destruct Hs as (g & _ & _ & _ & _ & Hsh). by rewrite Hc, HC in Hsh. }
  split; [done|]. by rewrite !delete_id.
Qed.

(** *** The end of a transaction *)

Definition forgotten (C : cache) (D : list dataclient_qualified_key) : cache :=
  foldl (fun m k => base.delete k m) C D.

Lemma forgotten_lookup (D' : list dataclient_qualified_key) : forall (C' : cache) j,
  foldl (fun m k => base.delete k m) C' D' !! j = if decide (j ∈ D') then None else C' !! j.
Proof.
  induction D' as [|k D' IH]; intros C' j; cbn [foldl]; [done|]. rewrite IH.
  destruct (decide (j ∈ D')); [by rewrite decide_True by set_solver|].
  destruct (decide (j = k)) as [->|Hn].
  - rewrite decide_True by set_solver. apply lookup_delete_eq.
  - rewrite decide_False by set_solver. by apply lookup_delete_ne.
Qed.

Lemma shows_commit :
  purge_ok t P -> shows t K C P D c o -> shows t K (forgotten C D) P [] c o.
Proof.
  intros Hp Hs k p Hk. specialize (Hs k p Hk). rewrite decide_False by apply not_elem_of_nil.
  unfold forgotten. rewrite forgotten_lookup. destruct (decide (k ∈ D)); [|done].
  destruct Hs as [-> ->]. exists (t + 1). split_and!; [lia| |done|done|done].
  intros pk Hpk _. specialize (Hp pk Hpk). lia.
Qed.

Lemma cache_forgotten D' : cache_ok t C -> cache_ok t (forgotten C D').
Proof.
  intros HC k v. unfold forgotten. rewrite forgotten_lookup. destruct (decide (k ∈ D')); [done|]. apply HC.
Qed.

(** *** The purge of a key *)

Definition purged_store (pk : dataclient_purgeable_key) (c : contents) : contents :=
  match c !! at_key (purge_key_of pk) with
  | Some s => if stamp s <=? release_timestamp pk then base.delete (at_key (purge_key_of pk)) c else c
  | None => c
  end.

Definition purged_cache (pk : dataclient_purgeable_key) (C : cache) : cache :=
  if stamp_of (C !! purge_key_of pk) <=? release_timestamp pk then base.delete (purge_key_of pk) C else C.

Lemma shows_purged pk :
  pk ∈ P -> cache_ok t C -> shows t K C P [] c o ->
  shows t K (purged_cache pk C) P [] (purged_store pk c) o.
Proof.
  intros Hpk HC Hs k p Hk. specialize (Hs k p Hk). rewrite decide_False in Hs |- * by apply not_elem_of_nil.
  destruct (decide (k = purge_key_of pk)) as [->|Hn].
  - set (k := purge_key_of pk) in *. destruct Hs as (g & Hg & Hp & Hc & Hst & Hsh).
    assert (Hrel : release_timestamp pk < g) by by apply Hp.
    assert (HCk : purged_cache pk C !! k = C !! k).
    { unfold purged_cache. fold k. destruct (C !! k) as [m|] eqn:Hm; cbn [stamp_of].
      - rewrite (proj2 (Z.leb_gt _ _)); [done|]. specialize (Hc m eq_refl). lia.
      - destruct (_ <=? _); [apply lookup_delete_eq|done]. }
    rewrite HCk. unfold purged_store. fold k. destruct (c !! at_key k) as [s|] eqn:Hs'; [|].
    + destruct (Z.leb_spec (stamp s) (release_timestamp pk)).
      * rewrite lookup_delete_eq. exists g. split_and!; [done|done|done|done|].
        destruct (Hst s eq_refl ltac:(lia)) as [m Hm]. rewrite Hm in *.
        unfold shown in *. cbn [stamp_of] in *. specialize (Hc m eq_refl).
        destruct (HC k m Hm) as [_ [Hpos _]]. rewrite (proj2 (Z.ltb_lt 0 _)) by done.
        by rewrite (proj2 (Z.ltb_lt _ _)) in Hsh by lia.
      * rewrite Hs'. by exists g.
    + rewrite Hs'. by exists g.
  - assert (Ha : at_key (purge_key_of pk) <> at_key k) by (intros ?%at_key_inj; congruence).
    assert (Hck : purged_store pk c !! at_key k = c !! at_key k).
    { unfold purged_store. destruct (c !! at_key (purge_key_of pk)); [|done].
      destruct (_ <=? _); [by apply lookup_delete_ne|done]. }
    assert (HCk : purged_cache pk C !! k = C !! k).
    { unfold purged_cache. destruct (_ <=? _); [by apply lookup_delete_ne|done]. }
    by rewrite Hck, HCk.
Qed.

Lemma stored_purged pk : stored_ok t c -> stored_ok t (purged_store pk c).
Proof.
  intros Hc. unfold purged_store. destruct (c !! _); [|done]. destruct (_ <=? _); [|done].
  intros k s [_ Hk]%lookup_delete_Some. by apply (Hc k).
Qed.

Lemma cache_purged pk : cache_ok t C -> cache_ok t (purged_cache pk C).
Proof.
  intros HC. unfold purged_cache. destruct (_ <=? _); [|done].
  intros k s [_ Hk]%lookup_delete_Some. by apply (HC k).
Qed.

Lemma stored_put now k v value :
  clock_ok now -> t <= now -> v = be_encode 8 (s64 now) ++ value -> value <> [] ->
  stored_ok t c -> stored_ok now (<[at_key k := v]> c).
Proof.
  intros Hnow Ht Hv Hne Hc j s. rewrite lookup_insert_Some. intros [[_ <-]|[_ Hj]].
  - rewrite Hv at 2. rewrite stamp_encoded by done. rewrite Hv, length_app, be_encode_length.
    destruct value; [done|]. cbn. lia.
  - destruct (Hc j s Hj). split; [done|lia].
Qed.

Lemma stored_delete k : stored_ok t c -> stored_ok t (base.delete k c).
Proof. intros Hc j s [_ Hj]%lookup_delete_Some. by apply (Hc j). Qed.

Lemma cache_lent now data k v :
  clock_ok now -> t <= now -> lent now data v -> cache_ok t C -> cache_ok now (<[k := v]> C).
Proof.
  intros Hnow Ht Hv HC j m. rewrite lookup_insert_Some. intros [[_ <-]|[_ Hj]].
  - rewrite (lent_length now data v Hv). split; [lia|].
    rewrite Hv, stamp_encoded by done. unfold clock_ok in Hnow. lia.
  - destruct (HC j m Hj). split; [done|lia].
Qed.

End write.
