(* ===== verification/CacheSent.v ===== *)
(** * The caching storage engine: what the end of a transaction sends

    A commit sends the change set, unless it is empty or does not fit in a message; then,
    as a rollback, it gives back the locks that nobody has any more. *)

From S2P Require Import Prelude.
From S2P Require Import Io.
From S2P Require Import Util.
From S2P Require Import DataProtocol.
From S2P Require Import Itree.
From S2P Require Import LockMem.
From S2P Require Import Storage.
From S2P Require Import Socket.
From S2P Require Import Framing.
From S2P Require Import MetaProtocol.
From S2P Require Import DataServer.
From S2P Require Import DataClient.
From S2P Require Import CacheEnv.
From S2P Require Import CacheLock.
From S2P Require Import CacheRange.
From S2P Require Import CacheTx.
From S2P Require Import CacheCount.
From S2P Require Import CacheFrame.
From S2P Require Import CacheLocks.

Local Open Scope Z_scope.

Section sent.

Context {E T O L : Type}.
Abbreviation env := (dataclient_environment E T).
Abbreviation world := (client_world cache_callback O env L).
Implicit Types (e : env) (w : world).

(** The message gives back a lock or a range lock. *)
Definition gives_back (m : bytes) : Prop :=
  exists payload, m = GZOCHID_DATA_PROTOCOL_RELEASE_KEY :: payload
    \/ m = GZOCHID_DATA_PROTOCOL_RELEASE_KEY_RANGE :: payload.

(** The messages that tell the meta server of the change set. *)
Definition submission (app : bytes) (cs : list gzochid_data_change) (ms : list bytes) : Prop :=
  match cs with
  | [] => ms = []
  | _ :: _ => exists payload,
      gzochid_data_protocol_changeset_write (DataChangeset app cs) [] = Ret payload
      /\ ms = if Z.of_nat (length payload) <=? MAX_MESSAGE_LENGTH
              then [GZOCHID_DATA_PROTOCOL_SUBMIT_CHANGESET :: payload] else []
  end.

(** A step that sends messages of a kind, and no others. *)
Definition sends (P : list bytes -> Prop) w w' : Prop :=
  uplink_ok w -> uplink_ok w' /\ exists ms, P ms /\ unsent w' = unsent w ++ stream ms.

Lemma sends_none w w' :
  metaserver w' = metaserver w -> client_sockets w' = client_sockets w -> sends (Forall gives_back) w w'.
Proof.
  intros Hm Hs Hup. unfold uplink_ok, unsent in *. rewrite Hm, Hs. split; [done|].
  exists []. split; [done|]. by rewrite app_nil_r.
Qed.

Lemma sends_more P w0 w1 w2 :
  sends P w0 w1 -> sends (Forall gives_back) w1 w2 ->
  sends (fun ms => exists sent released, ms = sent ++ released /\ P sent /\ Forall gives_back released) w0 w2.
Proof.
  intros H1 H2 Hup. destruct (H1 Hup) as (Hup1 & ms & Hms & Hu1).
  destruct (H2 Hup1) as (Hup2 & rs & Hrs & Hu2). split; [done|]. exists (ms ++ rs). split; [by exists ms, rs|].
  rewrite Hu2, Hu1, <- app_assoc. f_equal. unfold stream. by rewrite fmap_app, concat_app.
Qed.

Lemma gives_more w0 w1 w2 :
  sends (Forall gives_back) w0 w1 -> sends (Forall gives_back) w1 w2 -> sends (Forall gives_back) w0 w2.
Proof.
  intros H1 H2 Hup. destruct (sends_more _ _ _ _ H1 H2 Hup) as (? & ms & (s & r & -> & Hs & Hr) & Hu).
  split; [done|]. exists (s ++ r). split; [by apply Forall_app|done].
Qed.

Lemma gives_after w0 w1 w2 :
  sends (Forall gives_back) w0 w1 -> metaserver w2 = metaserver w1 -> client_sockets w2 = client_sockets w1 ->
  sends (Forall gives_back) w0 w2.
Proof. intros H Hm Hs. eapply gives_more; [exact H|by apply sends_none]. Qed.

(** ** One message *)

Lemma written_sent opcode payload w w' :
  ('(buf, len) ← format_message opcode payload;
   '(r, t) ← gzochid_reconnectable_socket_write buf len (metaserver w) (client_sockets w);
   Ret (ClientWorld (dataclient w) (caller w) r t)) = Ret w' ->
  sends (fun ms => ms = [opcode :: payload]) w w'.
Proof.
  rewrite format_message_ok. run. intros Hw Hup.
  destruct (client_uplink_ok w (opcode :: payload) Hup) as (r & t & Hr & Hsent & Hup').
  rewrite Hr in Hw. revert Hw. run. intros [= <-]. split; [apply Hup'|].
  eexists. split; [done|apply Hsent].
Qed.

Lemma given_back opcode payload w w' :
  opcode = GZOCHID_DATA_PROTOCOL_RELEASE_KEY \/ opcode = GZOCHID_DATA_PROTOCOL_RELEASE_KEY_RANGE ->
  sends (fun ms => ms = [opcode :: payload]) w w' -> sends (Forall gives_back) w w'.
Proof.
  intros Ho H Hup. destruct (H Hup) as (? & ms & -> & Hu). split; [done|]. eexists. split; [|exact Hu].
  apply Forall_singleton. exists payload. destruct Ho as [-> | ->]; auto.
Qed.

Lemma release_key_sends app st key w :
  if_ret (gzochid_dataclient_release_key app st key w) (sends (Forall gives_back) w).
Proof.
  unfold gzochid_dataclient_release_key. do 3 (apply if_ret_bind; intros ? _).
  intros w' Hw'. eapply given_back; [by left|by eapply written_sent].
Qed.

Lemma release_key_range_sends app st from to w :
  if_ret (gzochid_dataclient_release_key_range app st from to w) (sends (Forall gives_back) w).
Proof.
  unfold gzochid_dataclient_release_key_range. do 4 (apply if_ret_bind; intros ? _).
  intros w' Hw'. eapply given_back; [by right|by eapply written_sent].
Qed.

Lemma changeset_sends app cs w :
  if_ret (if 0 <? Z.of_nat (length cs) then gzochid_dataclient_submit_changeset app cs w else Ret w)
    (sends (submission app cs) w).
Proof.
  destruct cs as [|ch cs]; cbn [length].
  { apply if_ret_ret. intros Hup. split; [done|]. exists []. by rewrite app_nil_r. }
  rewrite (proj2 (Z.ltb_lt 0 _)) by lia. unfold gzochid_dataclient_submit_changeset.
  apply if_ret_bind. intros payload Hp. destruct (_ <=? _) eqn:Hl.
  - intros w' Hw' Hup. unfold write_message in Hw'. destruct (written_sent _ _ _ _ Hw' Hup) as (Hup' & ms & -> & Hu).
    split; [done|]. eexists. split; [|exact Hu]. exists payload. by rewrite Hl.
  - apply if_ret_ret. intros Hup. split; [done|]. exists []. split; [|by rewrite app_nil_r].
    exists payload. by rewrite Hl.
Qed.

(** ** The locks *)

Lemma lock_unref_sends now p w :
  if_ret (lock_unref now p w) (fun bw => sends (Forall gives_back) w bw.2).
Proof.
  unfold lock_unref. apply if_ret_bind. intros l _. cbv zeta. destruct (_ <=? 0).
  - apply if_ret_bind. eapply if_ret_mono; [apply release_key_sends|]. intros w1 H1.
    apply if_ret_bind. intros e _. apply if_ret_ret. by eapply gives_after.
  - by apply if_ret_ret, sends_none.
Qed.

Lemma range_lock_unref_sends now p w :
  if_ret (range_lock_unref now p w) (fun bw => sends (Forall gives_back) w bw.2).
Proof.
  unfold range_lock_unref. apply if_ret_bind. intros l _. cbv zeta. destruct (_ <=? 0).
  - apply if_ret_bind. eapply if_ret_mono; [apply release_key_range_sends|]. intros w1 H1.
    apply if_ret_bind. intros e _. apply if_ret_ret. by eapply gives_after.
  - by apply if_ret_ret, sends_none.
Qed.

Lemma unref_locks_sends now l : forall acc w,
  if_ret (unref_locks now l acc w) (fun aw => sends (Forall gives_back) w aw.2).
Proof.
  induction l as [|[k p] l IH]; intros acc w; cbn [unref_locks]; [by apply if_ret_ret, sends_none|].
  apply if_ret_bind. eapply if_ret_mono; [apply lock_unref_sends|]. intros [b w1] H1.
  eapply if_ret_mono; [apply IH|]. intros aw H2. by eapply gives_more.
Qed.

Lemma unref_ranges_sends now w (t : range_tree) :
  if_ret (gzochid_itree_search_interval range_lower_comparator range_upper_comparator t None None
            (unref_range_visitor now) (Ret w)) (fun r => if_ret r (sends (Forall gives_back) w)).
Proof.
  apply search_loop_keeps; [|by apply if_ret_ret, sends_none].
  intros lo up d [w1| | |] Hw1; cbn [unref_range_visitor snd]; try done.
  pose proof (range_lock_unref_sends now d w1) as Hu.
  destruct (range_lock_unref now d w1) as [[b w2]| | |]; cbn [snd]; [|by intros ? [=]..].
  apply if_ret_ret. eapply gives_more; [exact (Hw1 w1 eq_refl)|exact (Hu _ eq_refl)].
Qed.

(** ** The end *)

Variable engine : gzochid_storage_engine_interface E T.
Variable enumerate : key_locks -> list (dataclient_qualified_key * positive).

Lemma cleanup_sends now x w :
  if_ret (cleanup_transaction engine enumerate [] now x w) (sends (Forall gives_back) w).
Proof.
  unfold cleanup_transaction. apply if_ret_bind. intros tx _. apply if_ret_bind.
  eapply if_ret_mono; [apply unref_locks_sends|]. intros [acc w1] H1. cbn [snd] in H1.
  apply if_ret_bind. eapply if_ret_mono; [apply unref_ranges_sends|]. intros r Hr.
  apply if_ret_bind. eapply if_ret_mono; [exact Hr|]. intros w2 H2. cbv zeta.
  assert (H : sends (Forall gives_back) w w2).
  { eapply gives_more; [by eapply gives_after|exact H2]. }
  apply if_ret_bind. apply (if_ret_mono _ (sends (Forall gives_back) w)).
  - destruct (_ && _); [|by apply if_ret_ret; eapply gives_after].
    apply if_ret_bind. cbn [await_transactions]. destruct (transactions _); [|by intros ? [=]].
    apply if_ret_ret. apply if_ret_bind. intros e _. apply if_ret_ret. by eapply gives_after.
  - intros w3 H3. apply if_ret_ret. by eapply gives_after.
Qed.

(** The commit of a transaction sends its change set first. *)
Lemma commit_sends now x tx w :
  tx_heap (tx_part (caller w)) !! x = Some tx ->
  if_ret (transaction_commit engine enumerate [] now x w)
    (sends (fun ms => exists sent released, ms = sent ++ released
       /\ submission (app_name (caller w)) (changeset tx) sent /\ Forall gives_back released) w).
Proof.
  intros Hx. unfold transaction_commit, get_tx at 1. rewrite Hx. run. apply if_ret_bind. intros d _. cbv zeta.
  apply if_ret_bind. eapply if_ret_mono; [apply changeset_sends|]. intros w1 H1.
  eapply if_ret_mono; [apply cleanup_sends|]. intros w2 H2. eapply sends_more; [|exact H2]. exact H1.
Qed.

End sent.
