(* ===== verification/CacheCoherent.v ===== *)
(** * The caching storage engine: reads are current

    One transaction at a time runs on the node, while answers arrive and sources run.  The
    contents [truth] are what the meta server has committed, with what this node sent it.
    The transaction reads [truth] with its own changes; when it commits, the change set
    that it sends turns [truth] into what it read, and the node is coherent with that. *)

From S2P Require Import Prelude.
From S2P Require Import Io.
From S2P Require Import DataProtocol.
From S2P Require Import Itree.
From S2P Require Import LockMem.
From S2P Require Import Storage.
From S2P Require Import Socket.
From S2P Require Import Framing.
From S2P Require Import MetaProtocol.
From S2P Require Import DataServer.
From S2P Require Import DataClient.
From S2P Require Import CacheEnv.
From S2P Require Import CacheLock.
From S2P Require Import CacheRange.
From S2P Require Import CacheTx.
From S2P Require Import CacheCount.
From S2P Require Import CacheFrame.
From S2P Require Import CacheLocks.
From S2P Require Import CacheNode.
From S2P Require Import CacheShow.
From S2P Require Import CacheSent.

Local Open Scope Z_scope.

Section coherent.

Context {E T O L : Type}.
Abbreviation env := (dataclient_environment E T).
Abbreviation world := (client_world cache_callback O env L).
Implicit Types (e : env) (w : world).

Context (engine : gzochid_storage_engine_interface E T) {view : T -> E -> contents}
  {durable : E -> contents} {laws : EngineLaws engine view durable}.

(** ** Changes *)

(** The change set writes the key. *)
Definition written (cs : list gzochid_data_change) (k : dataclient_qualified_key) : Prop :=
  exists ch, ch ∈ cs /\ get_lockable_store (default [] (change_store ch)) = inl (qk_store k)
             /\ change_key ch = Some (qk_key k).

Lemma unwritten cs k : forall m : contents,
  ~ written cs k -> foldl apply_change m cs !! at_key k = m !! at_key k.
Proof.
  induction cs as [|ch cs IH]; intros m Hw; cbn [foldl]; [done|]. rewrite IH.
  - unfold apply_change. destruct (get_lockable_store _) as [st|] eqn:Hst; [|done].
    destruct (change_key ch) as [key|] eqn:Hk; [|done].
    assert (Hn : (st, key) <> at_key k).
    { intros [= -> ->]. apply Hw. exists ch. split; [by left|done]. }
    destruct (DataProtocol.delete ch); [by apply lookup_delete_ne|by apply lookup_insert_ne].
  - intros (c & Hc & H). apply Hw. exists c. split; [by right|done].
Qed.

(** ** Coherence *)

(** The value of every key that the node has a lock for can be read. *)
Record coherent (truth : contents) (t : Z) (w : world) : Prop := {
  coherent_counted : counted w;
  coherent_cache : cache_ok t (value_cache (lock_part (caller w)));
  coherent_purge : purge_ok t (purgeable_keys (tx_part (caller w)));
  coherent_stored : stored_ok t (durable (delegate_context (caller w)));
  coherent_shows : shows t (locks (lock_part (caller w))) (value_cache (lock_part (caller w)))
    (purgeable_keys (tx_part (caller w))) [] (durable (delegate_context (caller w))) truth
}.

(** What the transaction is shown. *)
Definition sees (t : Z) (e : env) (d : T) (D : list dataclient_qualified_key) (o : contents) : Prop :=
  stored_ok t (view d (delegate_context e))
  /\ shows t (locks (lock_part e)) (value_cache (lock_part e)) (purgeable_keys (tx_part e)) D
       (view d (delegate_context e)) o.

(** The transaction [x], which made the changes [cs] and deleted the keys [D], runs; unless
    it has failed, it sees [truth] with its changes, and [ok] holds of what it did. *)
Record reading (ok : Prop) (truth : contents) (x : positive) (d : T) (cs : list gzochid_data_change)
    (D : list dataclient_qualified_key) (t : Z) (w : world) : Prop := {
  reading_coherent : coherent truth t w;
  reading_alone : transactions (tx_part (caller w)) = [x];
  reading_no_purge : purging_keys (tx_part (caller w)) = false;
  reading_deleted : forall k, k ∈ D -> written cs k;
  reading_tx : exists tx,
    tx_heap (tx_part (caller w)) !! x = Some tx /\ changeset tx = cs /\ deleted_keys tx = D
    /\ delegate_tx tx = Some d
    /\ (rollback tx = false -> tx_rollback engine d (delegate_context (caller w)) = false ->
        ok /\ sees t (caller w) d D (foldl apply_change truth cs))
}.

(** ** Steps that leave transactions alone *)

Definition tx_kept (e e' : env) : Prop :=
  delegate_context e' = delegate_context e
  /\ transactions (tx_part e') = transactions (tx_part e)
  /\ purging_keys (tx_part e') = purging_keys (tx_part e)
  /\ forall x tx, tx_heap (tx_part e) !! x = Some tx ->
       exists tx', tx_heap (tx_part e') !! x = Some tx' /\ changeset tx' = changeset tx
         /\ deleted_keys tx' = deleted_keys tx /\ delegate_tx tx' = delegate_tx tx
         /\ (rollback tx = true -> rollback tx' = true).

Lemma tx_kept_refl e : tx_kept e e.
Proof. split_and!; try done. intros x tx Hx. by exists tx. Qed.

Lemma tx_kept_trans e0 e1 e2 : tx_kept e0 e1 -> tx_kept e1 e2 -> tx_kept e0 e2.
Proof.
  intros (Hd & Ht & Hp & Hx) (Hd' & Ht' & Hp' & Hx'). split_and!; try congruence.
  intros x tx Htx. destruct (Hx x tx Htx) as (t1 & Ht1 & ? & ? & ? & Hr).
  destruct (Hx' x t1 Ht1) as (t2 & Ht2 & ? & ? & ? & Hr'). exists t2. split_and!; try congruence. auto.
Qed.

Lemma env_quiet_tx_kept e e' : env_quiet e e' -> tx_kept e e'.
Proof.
  intros (He & _ & Hf). split_and!; try (unfold essence in He; congruence).
  intros x tx Hx. destruct (essence_tx e e' x tx He Hx) as (tx' & Hx' & Hc).
  exists tx'. unfold core in Hc. split_and!; try congruence. by apply (Hf x).
Qed.

(** What a transaction is shown does not change either. *)
Definition shown_same (e e' : env) : Prop :=
  locks (lock_part e') = locks (lock_part e)
  /\ value_cache (lock_part e') = value_cache (lock_part e)
  /\ purgeable_keys (tx_part e') = purgeable_keys (tx_part e).

Lemma reading_same ok truth x d cs D t w w' :
  reading ok truth x d cs D t w -> counted w' -> tx_kept (caller w) (caller w') ->
  shown_same (caller w) (caller w') -> reading ok truth x d cs D t w'.
Proof.
  intros [[_ Hca Hpu Hst Hsh] Ha Hnp HD (tx & Hx & Hcs & Hdk & Hd & Hv)] Hc (Hk1 & Hk2 & Hk3 & Hk4) (Hs1 & Hs2 & Hs3).
  split; [|congruence|congruence|done|].
  - split; rewrite ?Hk1, ?Hs1, ?Hs2, ?Hs3; done.
  - destruct (Hk4 x tx Hx) as (tx' & Hx' & Hcs' & Hdk' & Hd' & Hr').
    exists tx'. split_and!; try congruence. unfold sees. rewrite Hk1, Hs1, Hs2, Hs3. intros Hr. apply Hv.
    destruct (rollback tx); [|done]. rewrite Hr' in Hr by done. done.
Qed.

Lemma env_quiet_shown_same e e' : env_quiet e e' -> shown_same e e'.
Proof. intros (He & _). unfold essence in He. split_and!; congruence. Qed.

Lemma reading_quiet ok truth x d cs D t w w' :
  reading ok truth x d cs D t w -> quiet w w' -> reading ok truth x d cs D t w'.
Proof.
  intros Hr Hq. eapply reading_same; [done| | |].
  - eapply quiet_counted; [apply Hr|done].
  - apply env_quiet_tx_kept, Hq.
  - apply env_quiet_shown_same, Hq.
Qed.

(** ** What happens meanwhile *)

(** An answer that is current: it says what the meta server has, it comes when the node has
    not the lock or when it asked to write, and not for a key that the transaction wrote, of which [W] holds. *)
Definition current_answer (truth : contents) (W : dataclient_qualified_key -> Prop)
    (response : gzochid_data_response) (w : world) : Prop :=
  answer_counts response w
  /\ forall r d k data, front (response_app response) w = Some r -> success_callback r = lock_success d ->
       callback_key d = Ret k -> body response = Success data ->
       data = truth !! at_key k /\ data <> Some [] /\ ~ W k.

Inductive meanwhile (truth : contents) (W : dataclient_qualified_key -> Prop) (now : Z) : world -> world -> Prop :=
| meanwhile_answer_value response w w' :
    current_answer truth W response w -> answer_value now response w = Ret w' ->
    meanwhile truth W now w w'
| meanwhile_answer_key response w w' :
    answer_key now response w = Ret w' -> meanwhile truth W now w w'
| meanwhile_source i w w' : run_source now i w = Ret w' -> meanwhile truth W now w w'.

(** Several of these, each at a later time. *)
Inductive meanwhiles (truth : contents) (W : dataclient_qualified_key -> Prop) : Z -> Z -> world -> world -> Prop :=
| meanwhiles_none t w : meanwhiles truth W t t w w
| meanwhiles_more t now t' w w1 w' :
    t < now -> clock_ok now -> meanwhile truth W now w w1 -> meanwhiles truth W now t' w1 w' ->
    meanwhiles truth W t t' w w'.

Lemma stamped_lent now data v : stamped now data = Ret v -> lent now data v.
Proof.
  unfold stamped, lent. destruct data as [data|]; [apply prefix_form|apply empty_form].
Qed.

(** What a transaction, or nobody, is shown. *)
Definition shows_in (t : Z) (e : env) (D : list dataclient_qualified_key) (c o : contents) : Prop :=
  shows t (locks (lock_part e)) (value_cache (lock_part e)) (purgeable_keys (tx_part e)) D c o.

(** A step that keeps what is shown, whatever is stored. *)
Definition shows_kept (truth : contents) (W : dataclient_qualified_key -> Prop) (t now : Z) (e e' : env) : Prop :=
  forall D c o, stored_ok t c -> (forall k, k ∈ D -> W k) ->
    (forall k, ~ W k -> o !! at_key k = truth !! at_key k) ->
    shows_in t e D c o -> shows_in now e' D c o.

Definition tables_ok (t : Z) (e : env) : Prop :=
  cache_ok t (value_cache (lock_part e)) /\ purge_ok t (purgeable_keys (tx_part e)).

Lemma same_shows_kept truth W t now e e' :
  t <= now -> shown_same e e' -> shows_kept truth W t now e e'.
Proof.
  intros Ht (H1 & H2 & H3) D c o _ _ _. unfold shows_in. rewrite H1, H2, H3. by apply shows_later.
Qed.

Lemma same_tables t now e e' : t <= now -> shown_same e e' -> tables_ok t e -> tables_ok now e'.
Proof.
  intros Ht (H1 & H2 & H3) [Hc Hp]. unfold tables_ok. rewrite H2, H3.
  split; [by eapply cache_later|by eapply purge_later].
Qed.

(** A lock was granted. *)
Lemma granted_shows truth W t now k b data v e e' :
  clock_ok now -> t < now -> tables_ok t e ->
  lock_granted k b v e e' -> lent now data v ->
  data = truth !! at_key k -> data <> Some [] -> ~ W k ->
  tx_kept e e' /\ tables_ok now e' /\ shows_kept truth W t now e e'.
Proof.
  intros Hnow Ht [Hca Hpu] (Hv & Hd & Htx & _ & Hg) Hl Hdata Hne Hw. split_and!.
  - unfold tx_kept. rewrite Hd, Htx. apply tx_kept_refl.
  - unfold tables_ok. rewrite Hv, Htx. split.
    + by apply (cache_lent (t := t) now data); [|lia|..].
    + by apply (purge_later (t := t)); [lia|].
  - intros D c o Hst HD Ho Hs. unfold shows_in in *. rewrite Hv, Htx.
    apply (shows_lent (t := t) (K := locks (lock_part e)) now data); try done.
    + by rewrite Ho.
    + intros Hk. by apply Hw, HD.
    + intros j p Hj Hn. destruct (locks (lock_part e) !! k) as [q|].
      * destruct Hg as (Hg & _). rewrite Hg in Hj. by eexists.
      * destruct Hg as (Hg & _). rewrite Hg, lookup_insert_ne in Hj by done. by eexists.
Qed.

(** A source ran. *)
Lemma source_shows truth W t now i w :
  t < now -> tables_ok t (caller w) -> counted w ->
  if_ret (run_source now i w) (fun w' =>
    tx_kept (caller w) (caller w') /\ tables_ok now (caller w')
    /\ shows_kept truth W t now (caller w) (caller w')).
Proof.
  intros Ht Htab Hc. unfold run_source. apply if_ret_bind. intros s _. unfold invoke_release_callback.
  set (w0 := set_client _ w). destruct (release_callback (source_data s)) as [d|d|d|d|d|d];
    cbn [call_release]; try (intros ? [=]; fail).
  - eapply if_ret_mono; [apply lock_released_spec|]. intros w' (k & _ & Hw').
    destruct (locks (lock_part (caller w0)) !! k) as [p|] eqn:Hk.
    + destruct Hw' as (l & w1 & _ & Hq & Hw').
      assert (Hkept : tx_kept (caller w) (caller w1)) by apply (env_quiet_tx_kept (caller (with_heap (unref_heap p l) w0))), Hq.
      assert (Hsame : shown_same (caller w) (caller w1)) by apply (env_quiet_shown_same (caller (with_heap (unref_heap p l) w0))), Hq.
      destruct (_ <=? 0).
      * subst w'. split_and!; [exact Hkept| |].
        -- destruct (same_tables t now _ _ ltac:(lia) Hsame Htab) as [Hca Hpu]. split; cbn.
           ++ intros j v [_ Hj]%lookup_delete_Some. by apply (Hca j).
           ++ intros pk [Hpk|Hpk]%elem_of_app; [by apply Hpu|].
              apply list_elem_of_singleton in Hpk as ->. cbn. lia.
        -- intros D c o Hst HD Ho Hs. apply (shows_released (t := t) (K := locks (lock_part (caller w1)))
             (C := value_cache (lock_part (caller w1))) (P := purgeable_keys (tx_part (caller w1)))); [lia|].
           destruct Hsame as (H1 & H2 & H3). unfold shows_in in Hs. by rewrite H1, H2, H3.
      * assert (Hsame' : shown_same (caller w) (caller w')).
        { destruct Hsame as (? & ? & ?), (env_quiet_shown_same _ _ (quiet_env _ _ Hw')) as (? & ? & ?).
          split_and!; congruence. }
        split_and!; [|by apply (same_tables t now (caller w)); [lia|..]|by apply same_shows_kept; [lia|]].
        eapply tx_kept_trans; [done|]. by apply env_quiet_tx_kept, quiet_env.
    + subst w'. split_and!; [apply tx_kept_refl|by apply (same_tables t now (caller w)); [lia|by split_and!|]|].
      apply same_shows_kept; [lia|by split_and!].
  - eapply if_ret_mono; [apply range_lock_release_callback_quiet, quiet_reflexive|]. intros w' Hq.
    pose proof (env_quiet_shown_same _ _ (quiet_env _ _ Hq)) as Hsame.
    split_and!; [apply (env_quiet_tx_kept (caller w0)), Hq|by apply (same_tables t now (caller w)); [lia|..]|].
    by apply same_shows_kept; [lia|].
Qed.

Lemma meanwhile_kept truth W t now w w' :
  meanwhile truth W now w w' -> clock_ok now -> t < now -> tables_ok t (caller w) -> counted w ->
  tx_kept (caller w) (caller w') /\ tables_ok now (caller w')
  /\ shows_kept truth W t now (caller w) (caller w') /\ counted w'.
Proof.
  intros Hm Hnow Ht Htab Hc.
  assert (Hsame : forall w', env_quiet (caller w) (caller w') ->
    tx_kept (caller w) (caller w') /\ tables_ok now (caller w')
    /\ shows_kept truth W t now (caller w) (caller w')).
  { intros w1 Hq. pose proof (env_quiet_shown_same _ _ Hq) as Hs.
    split_and!; [by apply env_quiet_tx_kept|by apply (same_tables t now (caller w)); [lia|..]|].
    by apply same_shows_kept; [lia|]. }
  destruct Hm as [r w w' [Hn Hcur] Hw'|r w w' Hw'|i w w' Hw'].
  - pose proof (answer_value_counted now r w Hc Hn w' Hw') as Hc'.
    destruct (received_spec now w r GZOCHID_DATA_PROTOCOL_VALUE_RESPONSE ltac:(by left)
      (counted_registrations _ Hc) w' Hw') as (_ & [Hq|[[_ Hg]|Hg]]).
    + destruct (Hsame w' (quiet_env _ _ Hq)) as (? & ? & ?). done.
    + destruct Hg as (reg & d & data & k & v & s & Hf & Hsc & Hb & Hk & Hv & Hg & _ & _).
      destruct (Hcur reg d k data Hf Hsc Hk Hb) as (Hdata & Hne & Hw).
      destruct (granted_shows truth W t now k _ data v _ _ Hnow Ht Htab Hg (stamped_lent _ _ _ Hv) Hdata Hne Hw)
        as (? & ? & ?). done.
    + destruct (Hsame w' (proj1 Hg)) as (? & ? & ?). done.
  - pose proof (answer_key_counted now r w Hc w' Hw') as Hc'.
    destruct (received_spec now w r GZOCHID_DATA_PROTOCOL_NEXT_KEY_RESPONSE ltac:(by right)
      (counted_registrations _ Hc) w' Hw') as (_ & [Hq|[[? _]|Hg]]); [|done|].
    + destruct (Hsame w' (quiet_env _ _ Hq)) as (? & ? & ?). done.
    + destruct (Hsame w' (proj1 Hg)) as (? & ? & ?). done.
  - destruct (source_shows truth W t now i w Ht Htab Hc w' Hw') as (? & ? & ?).
    split_and!; [done..|]. by apply (run_source_counted now i w Hc).
Qed.

(** *** Between transactions *)

Definition idle (truth : contents) (t : Z) (w : world) : Prop :=
  coherent truth t w /\ transactions (tx_part (caller w)) = [] /\ purging_keys (tx_part (caller w)) = false.

Lemma coherent_meanwhile truth W t now w w' :
  coherent truth t w -> clock_ok now -> t < now -> meanwhile truth W now w w' ->
  coherent truth now w' /\ tx_kept (caller w) (caller w')
  /\ shows_kept truth W t now (caller w) (caller w').
Proof.
  intros [Hc Hca Hpu Hst Hsh] Hnow Ht Hm.
  destruct (meanwhile_kept truth W t now w w' Hm Hnow Ht (conj Hca Hpu) Hc)
    as (Hk & [Hca' Hpu'] & Hs & Hc'). split_and!; [|done|done].
  destruct Hk as (Hd & _). split; [done..| |].
  - rewrite Hd. apply (stored_later (t := t)); [lia|done].
  - rewrite Hd. apply Hs; [done|by intros k ?%not_elem_of_nil|done|done].
Qed.

Lemma idle_meanwhiles truth W t t' w w' :
  meanwhiles truth W t t' w w' -> idle truth t w -> idle truth t' w'.
Proof.
  induction 1 as [|t now t' w w1 w' Ht Hnow Hm _ IH]; [done|]. intros (Hc & Ha & Hp). apply IH.
  destruct (coherent_meanwhile _ _ _ _ _ _ Hc Hnow Ht Hm) as (Hc1 & (_ & Ha1 & Hp1 & _) & _).
  split_and!; [done|congruence|congruence].
Qed.

(** *** During a transaction *)

Lemma reading_meanwhile ok truth W x d cs D t now w w' :
  (forall k, written cs k -> W k) ->
  reading ok truth x d cs D t w -> clock_ok now -> t < now -> meanwhile truth W now w w' ->
  reading ok truth x d cs D now w'.
Proof.
  intros HW [Hc Ha Hp HD (tx & Hx & Hcs & Hdk & Hd & Hv)] Hnow Ht Hm.
  destruct (coherent_meanwhile _ _ _ _ _ _ Hc Hnow Ht Hm) as (Hc1 & (Hk1 & Ha1 & Hp1 & Hx1) & Hs).
  split; [done|congruence|congruence|done|].
  destruct (Hx1 x tx Hx) as (tx' & Hx' & Hcs' & Hdk' & Hd' & Hr').
  exists tx'. split_and!; try congruence. unfold sees. rewrite Hk1. intros Hr Hrd.
  assert (Hr0 : rollback tx = false) by (destruct (rollback tx); [by rewrite Hr' in Hr|done]).
  destruct (Hv Hr0 Hrd) as (Hok & Hst & Hsh). split_and!; [done|apply (stored_later (t := t)); [lia|done]|].
  apply Hs; [done|auto| |done]. intros k Hk. apply unwritten. auto.
Qed.

Lemma reading_meanwhiles ok truth W x d cs D t t' w w' :
  (forall k, written cs k -> W k) ->
  meanwhiles truth W t t' w w' -> reading ok truth x d cs D t w -> reading ok truth x d cs D t' w'.
Proof. intros HW. induction 1; [done|]. eauto using reading_meanwhile. Qed.

Lemma coherent_later truth t t' w : t <= t' -> coherent truth t w -> coherent truth t' w.
Proof.
  intros Ht [Hc Hca Hpu Hst Hsh].
  split; [done|by apply (cache_later (t := t))|by apply (purge_later (t := t))
         |by apply (stored_later (t := t))|by apply (shows_later (t := t))].
Qed.

Lemma reading_later ok truth x d cs D t t' w :
  t <= t' -> reading ok truth x d cs D t w -> reading ok truth x d cs D t' w.
Proof.
  intros Ht [Hc Ha Hp HD (tx & Hx & Hcs & Hdk & Hd & Hv)].
  split; [by eapply coherent_later|done..|]. exists tx. split_and!; try done.
  intros Hr Hrd. destruct (Hv Hr Hrd) as (Hok & Hst & Hsh).
  split; [done|]. split; [by apply (stored_later (t := t))|by apply (shows_later (t := t))].
Qed.

(** ** Waits *)

(** During each wait things happen one after the other, until the time when it ends. *)
Fixpoint current_wakes (truth : contents) (W : dataclient_qualified_key -> Prop) (t : Z)
    (wakes : list (wake E T O L)) : Prop :=
  match wakes with
  | [] => True
  | k :: wakes =>
      (forall w w', others k w = Ret w' -> meanwhiles truth W t (wake_time k) w w')
      /\ t <= wake_time k /\ current_wakes truth W (wake_time k) wakes
  end.

Definition last_time (now : Z) (wakes : list (wake E T O L)) : Z :=
  foldl (fun _ k => wake_time k) now wakes.

Lemma current_wakes_keep ok truth W x d cs D wakes :
  (forall k, written cs k -> W k) -> forall t,
  current_wakes truth W t wakes -> wakes_keep (reading ok truth x d cs D) t wakes.
Proof.
  intros HW. induction wakes as [|k wakes IH]; intros t; cbn [current_wakes wakes_keep]; [done|].
  intros (Hk & _ & Hw). split; [|by apply IH]. intros w Hr w' Hw'.
  by eapply reading_meanwhiles; [done|apply Hk|].
Qed.

Lemma last_time_later truth W wakes : forall t t',
  current_wakes truth W t wakes -> t' ∈ t :: (wake_time <$> wakes) -> t' <= last_time t wakes.
Proof.
  induction wakes as [|k wakes IH]; intros t t'; cbn [current_wakes fmap list_fmap last_time foldl].
  - intros _ ->%list_elem_of_singleton. lia.
  - intros (_ & Hle & Hw) [->|Hin]%elem_of_cons; [|by apply IH].
    etransitivity; [exact Hle|]. by apply IH; [|left].
Qed.

Lemma ends_reading ok truth W x d cs D t wakes w :
  current_wakes truth W t wakes -> ends (reading ok truth x d cs D) t wakes w ->
  reading ok truth x d cs D (last_time t wakes) w.
Proof.
  intros Hw (t' & Ht' & Hr). eapply reading_later; [|done]. by eapply last_time_later.
Qed.

Lemma reading_take ok truth x d cs D t y k b w :
  reading ok truth x d cs D t w ->
  if_ret (check_and_set_lock y k b w) (fun bw => reading ok truth x d cs D t bw.2).
Proof.
  intros Hr w2 Hw2. pose proof (take_counted y k b w (coherent_counted _ _ _ (reading_coherent _ _ _ _ _ _ _ _ Hr)) w2 Hw2)
    as Hc. eapply reading_same; [done|done|..]; revert Hw2; unfold check_and_set_lock;
    destruct (locks (lock_part (caller w)) !! k) as [p|];
    [|intros [= <-]; apply tx_kept_refl| |intros [= <-]; by split_and!].
  - intros H. apply bind_Ret in H as (enough & _ & H). destruct enough; [|injection H as <-; apply tx_kept_refl].
    apply bind_Ret in H as (ty & Hy%get_tx_found & H).
    destruct (tx_locks ty !! k); [injection H as <-; apply tx_kept_refl|].
    unfold lock_ref in H. inv_ret. split_and!; try done. intros z tz Hz. cbn.
    destruct (decide (z = y)) as [->|Hn].
    + rewrite lookup_insert_eq. eexists. split; [done|]. by simplify_eq.
    + rewrite lookup_insert_ne by done. by eexists.
  - intros H. apply bind_Ret in H as (enough & _ & H). destruct enough; [|by injection H as <-].
    apply bind_Ret in H as (ty & Hy%get_tx_found & H).
    destruct (tx_locks ty !! k); [by injection H as <-|].
    unfold lock_ref in H. inv_ret. by split_and!.
Qed.

Lemma ensure_lock_reading ok truth W x d cs D t wakes y st key b w :
  (forall k, written cs k -> W k) ->
  current_wakes truth W t wakes -> reading ok truth x d cs D t w ->
  if_ret (ensure_lock wakes t y st key b w)
    (fun bw => reading ok truth x d cs D (last_time t wakes) bw.2).
Proof.
  intros HW Hw Hr. eapply if_ret_mono.
  - apply (ensure_lock_keeps (reading ok truth x d cs D)); [by intros; eapply reading_quiet|
      intros; by apply reading_take|by eapply current_wakes_keep|done].
  - intros bw. by eapply ends_reading.
Qed.

(** A lock that was obtained is one of the transaction's. *)
Definition has_lock (x : positive) (k : dataclient_qualified_key) (w : world) : Prop :=
  exists tx p, tx_heap (tx_part (caller w)) !! x = Some tx /\ tx_locks tx !! k = Some p.

Lemma has_lock_quiet x k w w' : has_lock x k w -> quiet w w' -> has_lock x k w'.
Proof.
  intros (tx & p & Hx & Hk) ((He & _) & _).
  destruct (essence_tx (caller w) (caller w') x tx He Hx) as (tx' & Hx' & Hc).
  exists tx', p. split; [done|]. unfold core in Hc. congruence.
Qed.

Lemma take_holds x k b w :
  if_ret (check_and_set_lock x k b w) (fun bw => bw.1 = true -> has_lock x k bw.2).
Proof.
  unfold check_and_set_lock. destruct (locks _ !! k) as [p|]; [|by apply if_ret_ret].
  apply if_ret_bind. intros enough _. destruct enough; [|by apply if_ret_ret].
  apply if_ret_bind. eapply if_ret_mono; [apply get_tx_found|]. intros tx Hx. cbv beta in Hx.
  destruct (tx_locks tx !! k) as [q|] eqn:Hk.
  - apply if_ret_ret. intros _. by exists tx, q.
  - apply if_ret_bind. intros e _. apply if_ret_ret. intros _.
    exists (set_tx_locks (<[k := p]> (tx_locks tx)) tx), p. cbn. by rewrite !lookup_insert_eq.
Qed.

(** The transaction must be rolled back. *)
Definition rolled_back (x : positive) (w : world) : Prop :=
  exists tx, tx_heap (tx_part (caller w)) !! x = Some tx /\ rollback tx = true.

Lemma rolled_back_quiet x w w' : rolled_back x w -> quiet w w' -> rolled_back x w'.
Proof.
  intros (tx & Hx & Hr) ((He & _ & Hf) & _).
  destruct (essence_tx (caller w) (caller w') x tx He Hx) as (tx' & Hx' & Hc).
  exists tx'. split; [done|]. by eapply Hf.
Qed.

Lemma time_out_rolled_back x w : if_ret (time_out x w) (rolled_back x).
Proof.
  unfold time_out. apply if_ret_bind. intros tx _. apply if_ret_ret.
  exists (set_flags true true tx). cbn. by rewrite lookup_insert_eq.
Qed.

(** The transaction has the lock, or must be rolled back. *)
Definition lock_result (x : positive) (k : dataclient_qualified_key) (bw : bool * world) : Prop :=
  if bw.1 then has_lock x k bw.2 else rolled_back x bw.2.

Lemma finish_holds x k r b w :
  lock_result x k (b, w) -> if_ret (finish k r b w) (lock_result x k).
Proof.
  intros Hb. eapply if_ret_mono; [apply finish_quiet, quiet_reflexive|].
  intros [b' w'] [Hq Hb']. cbn [fst snd] in *. subst b'. unfold lock_result in *. cbn [fst snd] in *.
  destruct b; [by eapply has_lock_quiet|by eapply rolled_back_quiet].
Qed.

Lemma lock_loop_holds wakes : forall now x k r w,
  if_ret (lock_loop wakes now x k r w) (lock_result x k).
Proof.
  induction wakes as [|wk wakes IH]; intros now x k r w; cbn [lock_loop];
    apply if_ret_bind; intros t _; destruct (end_time t <=? now).
  1, 3: apply if_ret_bind; eapply if_ret_mono; [apply time_out_rolled_back|]; intros w1 H1;
    by apply finish_holds.
  all: apply if_ret_bind; intros q _; destruct (_ && _).
  - intros ? [=].
  - apply if_ret_bind. intros w1 _ ? [=].
  - apply if_ret_bind. intros w1 _. apply IH.
  - apply if_ret_bind. intros w1 _. apply if_ret_bind. intros w2 _. apply if_ret_bind. intros q' _.
    apply if_ret_bind. eapply if_ret_mono; [apply take_holds|]. intros [b w3] Hb. cbn [fst snd] in Hb.
    destruct b; [by apply finish_holds, Hb|apply IH].
Qed.

Lemma ensure_lock_holds wakes now x st key b w :
  if_ret (ensure_lock wakes now x st key b w) (lock_result x (QualifiedKey st key)).
Proof.
  unfold ensure_lock. apply if_ret_bind. eapply if_ret_mono; [apply get_tx_found|]. intros tx Hx.
  cbv beta in Hx. apply if_ret_bind. apply (if_ret_mono _ (fun held => held = true ->
    has_lock x (QualifiedKey st key) w)).
  { destruct (tx_locks tx !! QualifiedKey st key) as [p|] eqn:Hk; [|by apply if_ret_ret].
    intros held _ _. by exists tx, p. }
  intros held Hheld. destruct held; [apply if_ret_ret; by apply Hheld|].
  apply if_ret_bind. eapply if_ret_mono; [apply take_holds|]. intros [b' w1] Hb. cbn [fst snd] in Hb.
  destruct b'; [by apply if_ret_ret, Hb|]. apply if_ret_bind. intros [r w2] _. apply lock_loop_holds.
Qed.

(** The node has the locks of its transactions. *)
Lemma has_lock_locked x k w :
  counted w -> has_lock x k w -> is_Some (locks (lock_part (caller w)) !! k).
Proof.
  intros [HC _ _] (tx & p & Hx & Hk). exists p.
  apply (counted_held _ _ _ _ HC x (tx_locks tx)); [|done]. unfold held. by rewrite lookup_fmap, Hx.
Qed.

(** ** Reading *)

(** Nothing has failed. *)
Definition alive (x : positive) (d : T) (w : world) : Prop :=
  exists tx, tx_heap (tx_part (caller w)) !! x = Some tx /\ rollback tx = false
             /\ tx_rollback engine d (delegate_context (caller w)) = false.

(** The contents that the transaction reads: what was committed, with its changes. *)
Definition own (truth : contents) (cs : list gzochid_data_change) : contents :=
  foldl apply_change truth cs.

Lemma cache_timestamp t e k :
  cache_ok t (value_cache (lock_part e)) ->
  if_ret (get_timestamp_from_cache e k) (fun z => z = stamp_of (value_cache (lock_part e) !! k)).
Proof.
  intros Hc. unfold get_timestamp_from_cache, get_prefixed_cache_value.
  destruct (value_cache _ !! k) as [v|]; [|by apply if_ret_ret].
  apply if_ret_bind. intros _ _ z Hz. cbn. unfold stamp. by rewrite Hz.
Qed.

(** A key that is read: its lock is held, it was not deleted, and nothing failed. *)
Lemma read_shown ok truth x d cs D t w k tx :
  reading ok truth x d cs D t w -> tx_heap (tx_part (caller w)) !! x = Some tx ->
  rollback tx = false -> tx_rollback engine d (delegate_context (caller w)) = false ->
  has_lock x k w ->
  if decide (k ∈ D) then own truth cs !! at_key k = None
  else shown (view d (delegate_context (caller w)) !! at_key k) (value_cache (lock_part (caller w)) !! k)
       = own truth cs !! at_key k.
Proof.
  intros [Hc _ _ _ (tx' & Hx' & _ & _ & _ & Hv)] Hx Hr Hrd Hl.
  destruct (has_lock_locked x k w (coherent_counted _ _ _ Hc) Hl) as [p Hp].
  simplify_eq. destruct (Hv Hr Hrd) as (_ & _ & Hs). specialize (Hs k p Hp).
  destruct (decide (k ∈ D)); [by destruct Hs|]. by destruct Hs as (g & _ & _ & _ & _ & Hs).
Qed.

(** A step of the transaction that commits nothing. *)
Lemma reading_update ok ok' truth x d cs D t w cs' D' t' w' :
  reading ok truth x d cs D t w -> t <= t' -> counted w' -> shown_same (caller w) (caller w') ->
  durable (delegate_context (caller w')) = durable (delegate_context (caller w)) ->
  transactions (tx_part (caller w')) = transactions (tx_part (caller w)) ->
  purging_keys (tx_part (caller w')) = purging_keys (tx_part (caller w)) ->
  (forall k, k ∈ D' -> written cs' k) ->
  (exists tx', tx_heap (tx_part (caller w')) !! x = Some tx' /\ changeset tx' = cs'
     /\ deleted_keys tx' = D' /\ delegate_tx tx' = Some d
     /\ (rollback tx' = false -> tx_rollback engine d (delegate_context (caller w')) = false ->
         ok' /\ sees t' (caller w') d D' (own truth cs'))) ->
  reading ok' truth x d cs' D' t' w'.
Proof.
  intros [Hc Ha Hp HD _] Ht Hc' (Hs1 & Hs2 & Hs3) Hd Ha' Hp' HD' Htx.
  split; [|congruence|congruence|done|done].
  destruct (coherent_later truth t t' w Ht Hc) as [_ Hca Hpu Hst Hsh].
  split; rewrite ?Hs1, ?Hs2, ?Hs3, ?Hd; done.
Qed.

(** What the flags of the delegate's transaction say is passed on. *)
Lemma propagate_spec x d w :
  if_ret (propagate_transaction_status engine x w) (fun w' =>
    exists tx tx',
      tx_heap (tx_part (caller w)) !! x = Some tx /\ tx_heap (tx_part (caller w')) !! x = Some tx'
      /\ core tx' = core tx /\ shown_same (caller w) (caller w')
      /\ delegate_context (caller w') = delegate_context (caller w)
      /\ transactions (tx_part (caller w')) = transactions (tx_part (caller w))
      /\ purging_keys (tx_part (caller w')) = purging_keys (tx_part (caller w))
      /\ (rollback tx' = false -> rollback tx = false
          /\ (delegate_tx tx = Some d -> tx_rollback engine d (delegate_context (caller w)) = false))).
Proof.
  unfold propagate_transaction_status. apply if_ret_bind. eapply if_ret_mono; [apply get_tx_found|].
  intros tx Hx. cbv beta in Hx. destruct (rollback tx) eqn:Hr.
  - apply if_ret_ret. exists tx, tx. split_and!; try done. by rewrite Hr.
  - apply if_ret_bind. intros d' Hd%deref_Ret. apply if_ret_ret. eexists tx, _.
    split_and!; [done|cbn; apply lookup_insert_eq|done|done|done|done|done|].
    cbn. intros Hrd. split; [done|]. intros Hd'. by simplify_eq.
Qed.

(** A read of the delegate changes nothing that can be seen. *)
Definition reads_only (d : T) (c c' : E) (v : option bytes) (k : store * bytes) : Prop :=
  durable c' = durable c
  /\ (tx_rollback engine d c' = false ->
      tx_rollback engine d c = false /\ v = view d c !! k /\ view d c' = view d c).

Lemma delegate_reads (b : bool) d st key c v c' :
  (if b then Storage.transaction_get_for_update else Storage.transaction_get) engine d st key c = (v, c') ->
  reads_only d c c' v (st, key).
Proof.
  intros Hg. destruct b.
  - split; [by eapply update_durable|]. intros Hr. destruct (tx_rollback engine d c) eqn:Hr0.
    { by rewrite (update_sticky _ _ _ _ _ _ Hg Hr0) in Hr. }
    by destruct (update_value _ _ _ _ _ _ Hg Hr).
  - split; [by eapply get_durable|]. intros Hr. destruct (tx_rollback engine d c) eqn:Hr0.
    { by rewrite (get_sticky _ _ _ _ _ _ Hg Hr0) in Hr. }
    by destruct (get_value _ _ _ _ _ _ Hg Hr).
Qed.

(** A read once the lock is there. *)
Lemma get_locked ok truth x d cs D t' wakes t st key b w got w1 :
  ensure_lock wakes t x st key b w = Ret (got, w1) -> reading ok truth x d cs D t' w1 ->
  if_ret (get_internal engine wakes t x st key b w) (fun vw =>
    reading ok truth x d cs D t' vw.2
    /\ (alive x d vw.2 -> vw.1 = own truth cs !! (st, key))).
Proof.
  intros Hok Hr1. pose proof (ensure_lock_holds wakes t x st key b w _ Hok) as Hl.
  unfold get_internal. rewrite Hok. run. set (k := QualifiedKey st key) in *. clear Hok.
  destruct got; cbn [negb].
  2: { apply if_ret_ret. split; [done|]. intros (tx & Hx & Hf & _).
       destruct Hl as (tx' & Hx' & Ht). cbn [snd] in *. congruence. }
  unfold lock_result in Hl. cbn [fst snd] in Hl.
  apply if_ret_bind. eapply if_ret_mono; [apply get_tx_found|]. intros tx Hx. cbv beta in Hx.
  assert (HD : deleted_keys tx = D /\ delegate_tx tx = Some d).
  { destruct (reading_tx _ _ _ _ _ _ _ _ Hr1) as (tx0 & Hx0 & _ & ? & ? & _). by simplify_eq. }
  destruct HD as [HD Hd]. unfold is_deleted. rewrite HD. case_bool_decide as Hdel.
  { apply if_ret_ret. split; [done|]. intros (tx0 & Hx0 & Hf & Hfd). simpl in Hx0. simplify_eq.
    pose proof (read_shown ok truth x d cs _ t' w1 k tx Hr1 Hx Hf Hfd Hl) as Hs.
    rewrite decide_True in Hs by done. symmetry. exact Hs. }
  rewrite Hd. cbn [deref]. apply if_ret_bind. apply if_ret_ret.
  destruct ((if b then _ else _) engine d st key _) as [sv c] eqn:Hget.
  destruct (delegate_reads b d st key _ sv c Hget) as [Hdur Hview].
  set (w2 := on_env (set_delegate c) w1). apply if_ret_bind.
  pose proof (propagate_counted engine x w2 (set_delegate_counted (fun _ => c) w1
    (coherent_counted _ _ _ (reading_coherent _ _ _ _ _ _ _ _ Hr1)))) as Hcount.
  intros w3 Hw3. specialize (Hcount w3 Hw3).
  destruct (propagate_spec x d w2 w3 Hw3) as (tx2 & tx3 & Hx2 & Hx3 & Hcore & Hsame & Hdc & Hta & Hpk & Hflag).
  change (tx_heap (tx_part (caller w1)) !! x = Some tx2) in Hx2.
  assert (tx2 = tx) as -> by congruence.
  change (delegate_context (caller w2)) with c in *.
  assert (Hr3 : reading ok truth x d cs D t' w3).
  { eapply (reading_update ok _ _ _ _ _ _ t' w1); [done|lia|done|done|by rewrite Hdc|done|done|apply Hr1|].
    exists tx3. unfold core in Hcore. destruct (reading_tx _ _ _ _ _ _ _ _ Hr1) as (tx0 & Hx0 & Hcs0 & _ & _ & Hv).
    assert (tx0 = tx) as -> by congruence. split_and!; try congruence. rewrite Hdc. intros Hf3 Hfc.
    destruct (Hview Hfc) as (Hfd & _ & Hve). destruct (Hflag Hf3) as [Hf2 _].
    destruct (Hv Hf2 Hfd) as (Hok & Hst & Hsh). destruct Hsame as (Hs1 & Hs2 & Hs3).
    split; [exact Hok|]. unfold sees. rewrite Hdc, Hve, Hs1, Hs2, Hs3. done. }
  apply if_ret_bind. eapply if_ret_mono; [apply get_tx_found|]. intros tx4 Hx4. cbv beta in Hx4.
  assert (tx4 = tx3) as -> by congruence. destruct (rollback tx3) eqn:Hf.
  { apply if_ret_ret. split; [done|]. intros (tx0 & Hx0 & Hf0 & _). simpl in Hx0. congruence. }
  destruct (Hflag eq_refl) as [Hf2 Hfc]. specialize (Hfc Hd). destruct (Hview Hfc) as (Hfd & Hsv & Hve).
  pose proof (read_shown ok truth x d cs _ t' w1 k tx Hr1 Hx Hf2 Hfd Hl) as Hs.
  rewrite decide_False in Hs by done. change (at_key k) with (st, key) in Hs. rewrite <- Hsv in Hs.
  destruct Hsame as (_ & Hs2 & _). change (value_cache (lock_part (caller w2))) with
    (value_cache (lock_part (caller w1))) in Hs2. rewrite <- Hs2 in Hs.
  apply if_ret_bind. eapply if_ret_mono.
  { apply (cache_timestamp t'). apply Hr3. }
  intros ct ->. fold k. apply if_ret_bind. apply (if_ret_mono _ (fun z => z = stamp_of sv)).
  { destruct sv as [v|]; [|by apply if_ret_ret]. apply if_ret_bind. intros _ _ z Hz.
    cbn. unfold stamp. by rewrite Hz. }
  intros stt ->. unfold shown in Hs.
  destruct (_ <? _); apply if_ret_ret; (split; [done|]); intros _; [|exact Hs].
  cbn [fst]. rewrite <- Hs. unfold get_value_from_cache, get_prefixed_cache_value, cached.
  by destruct (value_cache (lock_part (caller w3)) !! k).
Qed.

Lemma get_reading ok truth W x d cs D t wakes st key b w :
  (forall k, written cs k -> W k) ->
  reading ok truth x d cs D t w -> current_wakes truth W t wakes ->
  if_ret (get_internal engine wakes t x st key b w) (fun vw =>
    reading ok truth x d cs D (last_time t wakes) vw.2
    /\ (alive x d vw.2 -> vw.1 = own truth cs !! (st, key))).
Proof.
  intros HW Hr Hw vw Hvw. destruct (ensure_lock wakes t x st key b w) as [[got w1]| | |] eqn:Hok;
    [|unfold get_internal in Hvw; rewrite Hok in Hvw; discriminate Hvw..].
  pose proof (ensure_lock_reading ok truth W x d cs D t wakes x st key b w HW Hw Hr _ Hok) as Hr1.
  by eapply get_locked.
Qed.

(** ** Writing *)

(** The stores that a node borrows from. *)
Definition borrowed (st : store) : Prop := st = Oids \/ st = Names.

Lemma lockable_name st : borrowed st -> get_lockable_store (store_name st) = inl st.
Proof. by intros [-> | ->]. Qed.

Lemma own_snoc truth cs ch : own truth (cs ++ [ch]) = apply_change (own truth cs) ch.
Proof. unfold own. by rewrite foldl_app. Qed.

Lemma written_snoc cs ch k :
  written cs k \/ (get_lockable_store (default [] (change_store ch)) = inl (qk_store k)
                   /\ change_key ch = Some (qk_key k)) -> written (cs ++ [ch]) k.
Proof.
  intros [(c & Hc & H)|H].
  - exists c. split; [|done]. apply elem_of_app. by left.
  - exists ch. split; [|done]. apply elem_of_app. right. by apply list_elem_of_singleton.
Qed.

Lemma written_only cs b st key data j :
  borrowed st -> written (cs ++ [DataChange (Some (store_name st)) b (Some key) data]) j ->
  written cs j \/ j = QualifiedKey st key.
Proof.
  intros Hst (c & [Hc|Hc]%elem_of_app & Hs & Hk); [left; by exists c|right].
  apply list_elem_of_singleton in Hc as ->. cbn in Hs, Hk. rewrite lockable_name in Hs by done.
  destruct j. cbn in *. congruence.
Qed.

(** The first part of every operation: the lock, or an end. *)
Lemma reading_entry ok truth x d cs D t w tx :
  reading ok truth x d cs D t w -> tx_heap (tx_part (caller w)) !! x = Some tx ->
  changeset tx = cs /\ deleted_keys tx = D /\ delegate_tx tx = Some d
  /\ (rollback tx = false -> tx_rollback engine d (delegate_context (caller w)) = false ->
      ok /\ sees t (caller w) d D (own truth cs)).
Proof.
  intros Hr Hx. destruct (reading_tx _ _ _ _ _ _ _ _ Hr) as (tx0 & Hx0 & ? & ? & ? & ?).
  by assert (tx0 = tx) as -> by congruence.
Qed.

Lemma not_alive x d w : rolled_back x w -> ~ alive x d w.
Proof. intros (tx & Hx & Hr) (tx' & Hx' & Hr' & _). congruence. Qed.

Lemma put_reading ok truth W x d cs D t wakes now st key value w :
  (forall k, written cs k -> W k) ->
  reading ok truth x d cs D t w -> current_wakes truth W t wakes ->
  clock_ok now -> last_time t wakes < now -> value <> [] -> borrowed st -> QualifiedKey st key ∉ D ->
  if_ret (transaction_put engine wakes t now x st key value w) (fun w' =>
    exists cs', reading ok truth x d cs' D now w'
      /\ (forall j, written cs' j -> written cs j \/ j = QualifiedKey st key)
      /\ (alive x d w' -> own truth cs' = <[(st, key) := value]> (own truth cs))).
Proof.
  intros HW Hr Hw Hnow Ht Hne Hst HkD. unfold transaction_put. set (k := QualifiedKey st key) in *.
  set (t' := last_time t wakes) in *. apply if_ret_bind. intros [got w1] Hok.
  pose proof (ensure_lock_reading ok truth W x d cs D t wakes x st key true w HW Hw Hr _ Hok) as Hr1.
  pose proof (ensure_lock_holds wakes t x st key true w _ Hok) as Hl. cbn [snd] in Hr1. fold t' k in Hr1, Hl.
  clear Hok Hr Hw. destruct got; cbn [negb].
  2: { apply if_ret_ret. exists cs. split_and!; [eapply reading_later; [|done]; lia|auto|].
       intros Ha. by destruct (not_alive x d w1 Hl). }
  apply if_ret_bind. eapply if_ret_mono; [apply get_tx_found|]. intros tx Hx. cbv beta in Hx.
  destruct (reading_entry _ _ _ _ _ _ _ _ _ Hr1 Hx) as (Hcs & HD & Hd & Hv). rewrite Hd. cbn [deref].
  apply if_ret_bind. apply if_ret_ret. apply if_ret_bind. intros v Hv8%prefix_form. cbv zeta.
  set (c := Storage.transaction_put engine d st key v (delegate_context (caller w1))).
  set (w2 := on_env _ w1). apply if_ret_bind.
  pose proof (propagate_counted engine x w2 (set_delegate_counted
    (fun e => Storage.transaction_put engine d st key v (delegate_context e)) w1
    (coherent_counted _ _ _ (reading_coherent _ _ _ _ _ _ _ _ Hr1)))) as Hcount.
  intros w3 Hw3. specialize (Hcount w3 Hw3).
  destruct (propagate_spec x d w2 w3 Hw3) as (tx2 & tx3 & Hx2 & Hx3 & Hcore & Hsame & Hdc & Hta & Hpk & Hflag).
  change (tx_heap (tx_part (caller w1)) !! x = Some tx2) in Hx2. assert (tx2 = tx) as -> by congruence.
  change (delegate_context (caller w2)) with c in *.
  assert (Hdur : durable c = durable (delegate_context (caller w1))) by apply put_durable.
  unfold core in Hcore.
  apply if_ret_bind. eapply if_ret_mono; [apply get_tx_found|]. intros tx4 Hx4. cbv beta in Hx4.
  assert (tx4 = tx3) as -> by congruence. destruct (rollback tx3) eqn:Hf; apply if_ret_ret.
  - exists cs. split_and!; [|auto|by intros (tx0 & Hx0 & Hf0 & _); congruence].
    eapply (reading_update ok _ _ _ _ _ _ t' w1); [done|lia|done|done|by rewrite Hdc|done|done|apply Hr1|].
    exists tx3. split_and!; congruence.
  - destruct (Hflag eq_refl) as [Hf2 Hfc]. specialize (Hfc Hd).
    assert (Hfd : tx_rollback engine d (delegate_context (caller w1)) = false).
    { destruct (tx_rollback engine d (delegate_context (caller w1))) eqn:Hfd; [|done].
      pose proof (put_sticky d st key v _ Hfd) as Hs. fold c in Hs. congruence. }
    set (ch := DataChange (Some (store_name st)) false (Some key) (Some value)).
    assert (Hown : own truth (cs ++ [ch]) = <[(st, key) := value]> (own truth cs)).
    { rewrite own_snoc. unfold apply_change. cbn. by rewrite lockable_name. }
    assert (Hcs3 : changeset tx3 = cs) by congruence. assert (HD3 : deleted_keys tx3 = D) by congruence.
    rewrite Hcs3, HD3. exists (cs ++ [ch]). split_and!; [|intros j; by apply written_only|done].
    destruct Hsame as (Hs1 & Hs2 & Hs3).
    eapply (reading_update ok _ _ _ _ _ _ t' w1); [done|lia|by eapply put_tx_counted| |by rewrite <- Hdur, <- Hdc|done|done| |].
    + by split_and!.
    + intros j Hj. apply written_snoc. left. by apply Hr1.
    + eexists. split; [cbn; apply lookup_insert_eq|]. split_and!; [done|done|cbn; congruence|].
      intros _ _. destruct (Hv Hf2 Hfd) as (Hok & Hsto & Hsh). split; [exact Hok|]. unfold sees. cbn in Hs1, Hs2, Hs3 |- *.
      rewrite Hdc, Hs1, Hs2, Hs3, Hown.
      assert (Hview : view d c = <[(st, key) := v]> (view d (delegate_context (caller w1)))).
      { apply put_view. exact Hfc. }
      rewrite Hview. split.
      * apply (stored_put (t := t') now k v value); [done|lia|done..].
      * apply (shows_put (t := t') now v value k); [done|done| |done|done|done]. apply Hr1.
Qed.

(** A key is deleted, or was not there. *)
Hypothesis delete_returns : forall t st k c r c',
  Storage.transaction_delete engine t st k c = (r, c') -> tx_rollback engine t c' = false ->
  r = 0 \/ r = GZOCHID_STORAGE_ENOTFOUND.

Lemma delete_reading ok truth W x d cs D t wakes st key w :
  (forall k, written cs k -> W k) ->
  reading ok truth x d cs D t w -> current_wakes truth W t wakes -> borrowed st ->
  if_ret (transaction_delete engine wakes t x st key w) (fun rw =>
    exists cs' D', reading ok truth x d cs' D' (last_time t wakes) rw.2
      /\ (forall j, j ∈ D' -> j ∈ D \/ j = QualifiedKey st key)
      /\ (forall j, written cs' j -> written cs j \/ j = QualifiedKey st key)
      /\ (alive x d rw.2 -> own truth cs' = base.delete (st, key) (own truth cs))).
Proof.
  intros HW Hr Hw Hst. unfold transaction_delete. set (k := QualifiedKey st key) in *.
  set (t' := last_time t wakes) in *. apply if_ret_bind. intros [got w1] Hok.
  pose proof (ensure_lock_reading ok truth W x d cs D t wakes x st key true w HW Hw Hr _ Hok) as Hr1.
  pose proof (ensure_lock_holds wakes t x st key true w _ Hok) as Hl. cbn [snd] in Hr1. fold t' k in Hr1, Hl.
  clear Hok Hr Hw. destruct got; cbn [negb].
  2: { apply if_ret_ret. exists cs, D. split_and!; [done|auto|auto|].
       intros Ha. by destruct (not_alive x d w1 Hl). }
  unfold lock_result in Hl. cbn [fst snd] in Hl.
  pose proof (coherent_counted _ _ _ (reading_coherent _ _ _ _ _ _ _ _ Hr1)) as Hc1.
  apply if_ret_bind. eapply if_ret_mono; [apply get_tx_found|]. intros tx Hx. cbv beta in Hx.
  destruct (reading_entry _ _ _ _ _ _ _ _ _ Hr1 Hx) as (Hcs & HD & Hd & Hv). rewrite Hd. cbn [deref].
  apply if_ret_bind. apply if_ret_ret.
  destruct (Storage.transaction_delete engine d st key _) as [ret c] eqn:Hdel. cbv zeta.
  pose proof (delete_durable _ _ _ _ _ _ Hdel) as Hdur.
  set (w2 := on_env (set_delegate c) w1).
  unfold is_deleted. rewrite HD. set (noted := _ && _ && _).
  set (ret' := if noted then 0 else ret). set (ch := DataChange _ true _ _).
  set (cs' := if ret' =? 0 then cs ++ [ch] else cs). set (D' := if ret' =? 0 then D ++ [k] else D).
  set (txc := if ret' =? 0 then set_changes (changeset tx ++ [ch]) (D ++ [k]) tx else tx).
  set (w3 := if ret' =? 0 then _ else w2).
  assert (Hw3 : counted w3 /\ shown_same (caller w1) (caller w3) /\ delegate_context (caller w3) = c
    /\ transactions (tx_part (caller w3)) = transactions (tx_part (caller w1))
    /\ purging_keys (tx_part (caller w3)) = purging_keys (tx_part (caller w1))
    /\ tx_heap (tx_part (caller w3)) !! x = Some txc).
  { pose proof (set_delegate_counted (fun _ => c) w1 Hc1) as Hc2. unfold w3, txc.
    destruct (ret' =? 0); [|by split_and!].
    split_and!; [by eapply put_tx_counted|by split_and!|done|done|done|]. cbn. apply lookup_insert_eq. }
  destruct Hw3 as (Hc3 & Hsame3 & Hdc3 & Hta3 & Hpk3 & Hx3).
  apply if_ret_bind. intros w4 Hw4.
  pose proof (propagate_counted engine x w3 Hc3 w4 Hw4) as Hc4.
  destruct (propagate_spec x d w3 w4 Hw4) as (tx3 & tx4 & Hx3' & Hx4 & Hcore & Hsame4 & Hdc4 & Hta4 & Hpk4 & Hflag).
  assert (tx3 = txc) as -> by congruence. apply if_ret_ret. exists cs', D'. cbn [snd].
  assert (Htxc : changeset txc = cs' /\ deleted_keys txc = D' /\ delegate_tx txc = Some d
    /\ rollback txc = rollback tx).
  { unfold txc, cs', D'. destruct (ret' =? 0); cbn; by split_and!; rewrite ?Hcs. }
  destruct Htxc as (Hcsc & HDc & Hdtc & Hrbc). unfold core in Hcore.
  assert (Hkey : forall j, j ∈ D' -> written cs' j /\ (j ∈ D \/ j = k)).
  { intros j. unfold D', cs'. destruct (ret' =? 0).
    - intros [Hj|Hj]%elem_of_app; [split; [|by left]; apply written_snoc; left; by apply Hr1|].
      apply list_elem_of_singleton in Hj as ->. split; [|by right]. apply written_snoc. right.
      split; [|done]. cbn. by apply lockable_name.
    - intros Hj. split; [by apply Hr1|by left]. }
  assert (Hgoal : alive x d w4 -> own truth cs' = base.delete (st, key) (own truth cs)
    /\ ok /\ sees t' (caller w4) d D' (own truth cs')).
  { intros (tx0 & Hx0 & Hf & Hfc). assert (tx0 = tx4) as -> by congruence.
    rewrite Hdc4, Hdc3 in Hfc. destruct (Hflag Hf) as [Hf3 _]. rewrite Hrbc in Hf3.
    assert (Hfd : tx_rollback engine d (delegate_context (caller w1)) = false).
    { destruct (tx_rollback engine d (delegate_context (caller w1))) eqn:Hfd; [|done].
      by rewrite (delete_sticky _ _ _ _ _ _ Hdel Hfd) in Hfc. }
    destruct (delete_view _ _ _ _ _ _ Hdel Hfc) as (Hview & Hfound & _).
    destruct (Hv Hf3 Hfd) as (Hok & Hsto & Hsh). destruct Hsame3 as (Ha1 & Ha2 & Ha3), Hsame4 as (Hb1 & Hb2 & Hb3).
    unfold sees. rewrite Hdc4, Hdc3, Hb1, Hb2, Hb3, Ha1, Ha2, Ha3, Hview.
    assert (Hown : own truth (cs ++ [ch]) = base.delete (st, key) (own truth cs)).
    { rewrite own_snoc. unfold apply_change. cbn. by rewrite lockable_name. }
    unfold cs', D'. destruct (ret' =? 0) eqn:Hz.
    - rewrite Hown. split_and!; [done|done|by apply stored_delete|by apply (shows_delete k)].
    - destruct (has_lock_locked x k w1 Hc1 Hl) as [p Hp].
      assert (Hret : ret = GZOCHID_STORAGE_ENOTFOUND /\ noted = false).
      { unfold ret' in Hz. destruct noted; [done|].
        destruct (delete_returns _ _ _ _ _ _ Hdel Hfc) as [->|]; done. }
      destruct Hret as [Hret Hno].
      assert (HCD : value_cache (lock_part (caller w1)) !! k = None \/ k ∈ D).
      { unfold noted in Hno. rewrite Hret in Hno. cbn in Hno.
        destruct (value_cache (lock_part (caller w1)) !! k) eqn:Hck; [|by left]. right.
        destruct (decide (k ∈ D)) as [|HkD]; [done|].
        rewrite (bool_decide_true (is_Some _)) in Hno by (by eexists).
        by rewrite (bool_decide_false (k ∈ D)) in Hno by done. }
      pose proof (proj1 Hfound Hret) as Hnone.
      destruct (shows_delete_absent k p Hp Hnone HCD Hsh) as [Ho _].
      change (at_key k) with (st, key) in Ho. by rewrite !delete_id. }
  assert (Honly : forall j, written cs' j -> written cs j \/ j = k).
  { intros j. unfold cs'. destruct (ret' =? 0); [by apply written_only|by left]. }
  split_and!; [|by intros j Hj; apply Hkey|exact Honly|by intros Ha; apply Hgoal].
  eapply (reading_update ok _ _ _ _ _ _ t' w1); [done|lia|done| |by rewrite Hdc4, Hdc3|by rewrite Hta4|by rewrite Hpk4| |].
  - destruct Hsame3 as (? & ? & ?), Hsame4 as (? & ? & ?). split_and!; congruence.
  - intros j Hj. by apply Hkey.
  - exists tx4. split_and!; try congruence. intros Hf Hfc. apply Hgoal. by exists tx4.
Qed.

(** ** The purge *)

(** What is shown while the transaction [d] of the delegate purges keys. *)
Definition purging (truth : contents) (t : Z) (P : list dataclient_purgeable_key) (d : T) (e0 e : env) : Prop :=
  locks (lock_part e) = locks (lock_part e0)
  /\ durable (delegate_context e) = durable (delegate_context e0)
  /\ tx_part e = tx_part e0
  /\ cache_ok t (value_cache (lock_part e))
  /\ (tx_rollback engine d (delegate_context e) = false ->
      stored_ok t (view d (delegate_context e))
      /\ shows t (locks (lock_part e)) (value_cache (lock_part e)) P [] (view d (delegate_context e)) truth).

Lemma purge_key_purging truth t P d e0 e pk :
  pk ∈ P -> purging truth t P d e0 e -> if_ret (purge_key engine d pk e) (purging truth t P d e0).
Proof.
  intros Hpk (Hk & Hdur & Htx & Hca & Hv). unfold purge_key. apply if_ret_bind. intros db _.
  set (k := purge_key_of pk). destruct (Storage.transaction_get _ _ _ _ _) as [value c] eqn:Hget.
  cbv zeta. destruct (delegate_reads false d _ _ _ _ _ Hget) as [Hd1 Hv1]. apply if_ret_bind.
  apply (if_ret_mono _ (fun e2 => exists c2, e2 = set_delegate c2 e /\ durable c2 = durable (delegate_context e)
    /\ (tx_rollback engine d c2 = false -> tx_rollback engine d (delegate_context e) = false
        /\ view d c2 = purged_store pk (view d (delegate_context e))))).
  { unfold purged_store. fold k. destruct value as [v|].
    - apply if_ret_bind. intros ts Hts.
      assert (Hstamp : stamp v = ts) by (unfold stamp; by rewrite Hts). destruct (Z.leb_spec ts (release_timestamp pk)).
      + destruct (Storage.transaction_delete _ _ _ _ _) as [r c2] eqn:Hdel. cbn [delegate_context set_delegate] in Hdel.
        apply if_ret_bind. intros _ _. apply if_ret_ret. exists c2.
        pose proof (delete_durable _ _ _ _ _ _ Hdel) as Hd2. split_and!; [done|congruence|]. intros Hf.
        destruct (tx_rollback engine d c) eqn:Hfc; [by rewrite (delete_sticky _ _ _ _ _ _ Hdel Hfc) in Hf|].
        destruct (Hv1 eq_refl) as (Hf0 & Hval & Hve). split; [done|].
        destruct (delete_view _ _ _ _ _ _ Hdel Hf) as (-> & _). rewrite Hve.
        change (qk_store k, qk_key k) with (at_key k) in Hval |- *. rewrite <- Hval, Hstamp.
        by rewrite (proj2 (Z.leb_le _ _)).
      + apply if_ret_ret. exists c. split_and!; [done|done|]. intros Hf.
        destruct (Hv1 Hf) as (Hf0 & Hval & Hve). split; [done|]. rewrite Hve.
        change (qk_store k, qk_key k) with (at_key k) in Hval. rewrite <- Hval, Hstamp.
        by rewrite (proj2 (Z.leb_gt _ _)).
    - apply if_ret_ret. exists c. split_and!; [done|done|]. intros Hf.
      destruct (Hv1 Hf) as (Hf0 & Hval & Hve). split; [done|]. rewrite Hve.
      change (qk_store k, qk_key k) with (at_key k) in Hval. by rewrite <- Hval. }
  intros e2 (c2 & -> & Hd2 & Hv2). apply if_ret_bind.
  eapply if_ret_mono; [by apply (cache_timestamp t)|]. intros ts ->.
  assert (Hcache : forall e3, (if stamp_of (value_cache (lock_part e) !! k) <=? release_timestamp pk
      then Ret (on_locks (fun t => set_value_cache (base.delete k (value_cache t)) t) (set_delegate c2 e))
      else Ret (set_delegate c2 e)) = Ret e3 ->
    locks (lock_part e3) = locks (lock_part e) /\ tx_part e3 = tx_part e /\ delegate_context e3 = c2
    /\ value_cache (lock_part e3) = purged_cache pk (value_cache (lock_part e))).
  { intros e3. unfold purged_cache. fold k. by destruct (_ <=? _); intros [= <-]. }
  intros e3 He3. destruct (Hcache e3 He3) as (H1 & H2 & H3 & H4).
  unfold purging. rewrite H1, H2, H3, H4. split_and!; [done|congruence|done|by apply cache_purged|].
  intros Hf. destruct (Hv2 Hf) as [Hf0 ->]. destruct (Hv Hf0) as [Hst Hsh].
  split; [by apply stored_purged|by apply shows_purged].
Qed.

Lemma purge_loop_purging truth t P d e0 l : forall e,
  (forall pk, pk ∈ l -> pk ∈ P) -> purging truth t P d e0 e ->
  if_ret (purge_loop engine d l e) (purging truth t P d e0).
Proof.
  induction l as [|pk l IH]; intros e Hl He; cbn [purge_loop]; [by apply if_ret_ret|].
  apply if_ret_bind. eapply if_ret_mono; [apply purge_key_purging; [|exact He]; apply Hl; by left|].
  intros e1 He1. apply IH; [|done]. intros pk' Hpk'. apply Hl. by right.
Qed.

(** What holds of the tables and the delegate when nothing runs. *)
Definition settled (truth : contents) (t : Z) (e : env) : Prop :=
  tables_ok t e /\ stored_ok t (durable (delegate_context e))
  /\ shows_in t e [] (durable (delegate_context e)) truth.

Lemma purge_keys_settled truth t e :
  settled truth t e ->
  if_ret (purge_keys engine e) (fun e' => settled truth t e'
    /\ transactions (tx_part e') = transactions (tx_part e)
    /\ purgeable_keys (tx_part e') = []).
Proof.
  intros ([Hca Hpu] & Hst & Hsh). unfold purge_keys.
  destruct (Storage.transaction_begin engine _) as [o c] eqn:Hbegin.
  pose proof (begin_durable _ _ _ Hbegin) as Hdur. apply if_ret_bind. intros d ->%deref_Ret. cbv zeta.
  set (P := purgeable_keys (tx_part e)). apply if_ret_bind.
  eapply if_ret_mono.
  { apply (purge_loop_purging truth t P d (set_delegate c e)); [done|].
    unfold purging. split_and!; [done|done|done|done|]. intros Hf. cbn in Hf |- *.
    rewrite (begin_view _ _ _ Hbegin Hf). done. }
  intros e1 (Hk & Hd1 & Htx & Hca1 & Hv). apply if_ret_bind. intros [] Hassert%c_assert_Ret.
  apply if_ret_ret.
  assert (Hfp : tx_rollback engine d (Storage.transaction_prepare engine d (delegate_context e1)) = false).
  { by apply negb_true_iff in Hassert. }
  destruct (tx_rollback engine d (delegate_context e1)) eqn:Hf.
  { by rewrite (prepare_sticky _ _ Hf) in Hfp. }
  destruct (Hv eq_refl) as [Hst1 Hsh1]. cbn. rewrite Htx. cbn. split_and!; [|done|done].
  unfold settled, tables_ok, shows_in. cbn. rewrite (commit_durable _ _ Hfp), (prepare_view _ _ Hfp).
  split_and!; [done|by intros pk ?%not_elem_of_nil|done|].
  intros k p Hp. specialize (Hsh1 k p Hp). rewrite decide_False in Hsh1 |- * by apply not_elem_of_nil.
  destruct Hsh1 as (g & Hg & _ & Hrest). exists g. split_and!; [done| |apply Hrest..].
  by intros pk ?%not_elem_of_nil.
Qed.

(** ** The end of a transaction *)

Variable enumerate : key_locks -> list (dataclient_qualified_key * positive).
Hypothesis enumerate_all : forall m, enumerate m ≡ₚ map_to_list m.

Lemma unref_locks_heap_only now l : forall acc w,
  if_ret (unref_locks now l acc w) (fun aw => heap_only w aw.2).
Proof.
  induction l as [|[k p] l IH]; intros acc w; cbn [unref_locks]; [apply if_ret_ret, heap_only_refl|].
  apply if_ret_bind. eapply if_ret_mono; [apply lock_unref_spec|]. intros [b w1] (l0 & _ & _ & Hq).
  cbn [snd] in Hq. eapply if_ret_mono; [apply IH|]. intros aw Ho. by eapply heap_only_step.
Qed.

(** The tables and the delegate are settled; the transactions of the node. *)
Definition settles (truth : contents) (t : Z) (xs : list positive) (e : env) : Prop :=
  settled truth t e /\ transactions (tx_part e) = xs /\ purging_keys (tx_part e) = false.

Lemma settles_same truth t xs e e' :
  shown_same e e' -> delegate_context e' = delegate_context e ->
  transactions (tx_part e') = transactions (tx_part e) ->
  purging_keys (tx_part e') = purging_keys (tx_part e) ->
  settles truth t xs e -> settles truth t xs e'.
Proof.
  intros (H1 & H2 & H3) H4 H5 H6. unfold settles, settled, tables_ok, shows_in.
  by rewrite H1, H2, H3, H4, H5, H6.
Qed.

Lemma settles_quiet truth t xs w w' :
  quiet w w' -> settles truth t xs (caller w) -> settles truth t xs (caller w').
Proof.
  intros Hq. destruct (env_quiet_tx_kept _ _ (quiet_env _ _ Hq)) as (? & ? & ? & _).
  apply settles_same; try done. apply env_quiet_shown_same, Hq.
Qed.

Lemma removed_locks (ks : list dataclient_qualified_key) : forall (K : key_locks) k p,
  foldl (fun m k => base.delete k m) K ks !! k = Some p -> K !! k = Some p.
Proof.
  induction ks as [|j ks IH]; intros K k p; cbn [foldl]; [done|].
  intros H. apply IH in H. by apply lookup_delete_Some in H as [_ ?].
Qed.

Lemma settles_fewer truth t xs ks e :
  settles truth t xs e -> settles truth t xs (remove_locks ks e).
Proof.
  intros ((Htab & Hst & Hsh) & Hrest). split; [|done]. split_and!; [done|done|].
  eapply (shows_fewer (K := locks (lock_part e))); [|exact Hsh].
  intros k p Hk. exists p. cbn in Hk. by eapply removed_locks.
Qed.

Lemma settles_idle truth t w :
  counted w -> settles truth t [] (caller w) -> idle truth t w.
Proof. intros Hc (([Hca Hpu] & Hst & Hsh) & Ha & Hp). by split_and!; [split|..]. Qed.

Lemma cleanup_idle truth t now x w :
  counted w -> settles truth t [x] (caller w) ->
  if_ret (cleanup_transaction engine enumerate [] now x w) (idle truth t).
Proof.
  intros Hc Hs w' Hw'. apply settles_idle.
  { apply (cleanup_counted engine enumerate enumerate_all [] now x w); [by apply Forall_nil|done|done]. }
  revert w' Hw'. apply (if_ret_mono _ (fun w' => settles truth t [] (caller w'))); [|done].
  unfold cleanup_transaction. apply if_ret_bind. intros tx _. apply if_ret_bind.
  eapply if_ret_mono; [apply unref_locks_heap_only|]. intros [acc w1] [h Hq]. cbn [snd] in Hq.
  assert (H1 : settles truth t [x] (caller (on_env (remove_locks acc) w1))).
  { apply settles_fewer. apply (settles_quiet _ _ _ _ _ Hq). exact Hs. }
  apply if_ret_bind. eapply if_ret_mono; [apply unref_ranges_quiet, quiet_reflexive|]. intros r Hr.
  apply if_ret_bind. eapply if_ret_mono; [exact Hr|]. intros w3 Hq3. cbv zeta.
  pose proof (settles_quiet _ _ _ _ _ Hq3 H1) as H3. clear Hs Hq Hr Hq3 H1.
  set (tx' := DataclientTx _ _ _ _ _ _ _ _). set (w4 := put_tx x tx' w3).
  assert (H4 : settles truth t [x] (caller w4)) by (by apply (settles_same _ _ _ (caller w3))).
  set (w5 := on_env (set_purge (delete_link x (transactions (tx_part (caller w4)))) _ _) w4).
  assert (H5 : settles truth t [] (caller w5)).
  { destruct H4 as (Hset & Ha & Hp). split_and!; [exact Hset| |exact Hp]. cbn in Ha |- *. rewrite Ha.
    cbn. by rewrite decide_True. }
  clearbody w5. apply if_ret_bind. apply (if_ret_mono _ (fun w => settles truth t [] (caller w))).
  - destruct (_ && _); [|by apply if_ret_ret]. apply if_ret_bind.
    apply (if_ret_mono _ (fun w => exists b, w = on_env (set_purge [] (purgeable_keys (tx_part (caller w5))) b) w5)).
    { destruct H5 as (_ & Ha & _). cbn [await_transactions on_env caller set_caller set_purge set_tx_part tx_part transactions].
      rewrite Ha. apply if_ret_ret. by exists true. }
    intros w6 [b ->]. apply if_ret_bind.
    eapply if_ret_mono; [apply (purge_keys_settled truth t); by destruct H5|].
    intros e (Hset & Ha & Hp). apply if_ret_ret. split_and!; [exact Hset|exact Ha|done].
  - intros w6 H6. apply if_ret_ret. exact H6.
Qed.

Lemma commit_idle ok truth x d cs D t now w :
  reading ok truth x d cs D t w -> alive x d w ->
  if_ret (transaction_commit engine enumerate [] now x w) (fun w' => ok /\ idle (own truth cs) t w').
Proof.
  intros Hr (tx & Hx & Hf & Hfd). unfold transaction_commit.
  destruct (reading_entry _ _ _ _ _ _ _ _ _ Hr Hx) as (Hcs & HD & Hd & Hv).
  apply if_ret_bind. eapply if_ret_mono; [apply get_tx_found|]. intros tx' Hx'. cbv beta in Hx'.
  assert (tx' = tx) as -> by congruence. rewrite Hd. cbn [deref]. apply if_ret_bind, if_ret_ret. cbv zeta.
  destruct (Hv Hf Hfd) as (Hok & Hst & Hsh).
  set (c := Storage.transaction_commit engine d (delegate_context (caller w))).
  set (w1 := on_env _ w).
  assert (Hc1 : counted w1).
  { apply (set_delegate_counted (fun e => Storage.transaction_commit engine d (delegate_context e))).
    apply (reading_coherent _ _ _ _ _ _ _ _ Hr). }
  apply if_ret_bind. apply (if_ret_mono _ (same_client w1)).
  { destruct (0 <? _); [apply submit_changeset_same|by apply if_ret_ret]. }
  intros w2 [Hdc Hcall]. rewrite HD. eapply if_ret_mono; [apply (cleanup_idle (own truth cs) t)|by split].
  - eapply same_locks_counted; [|by apply on_env_same].
    eapply quiet_counted; [exact Hc1|]. eapply quiet_same; [apply quiet_reflexive|done].
  - unfold on_env. cbn [caller set_caller]. rewrite Hcall.
    destruct (reading_coherent _ _ _ _ _ _ _ _ Hr) as [_ Hca Hpu _ _].
    assert (Hdur : durable c = view d (delegate_context (caller w))) by by apply commit_durable.
    split; [|split; [exact (reading_alone _ _ _ _ _ _ _ _ Hr)|exact (reading_no_purge _ _ _ _ _ _ _ _ Hr)]].
    split_and!.
    + split; [|exact Hpu]. by apply (cache_forgotten (t := t) D).
    + cbn. fold c. by rewrite Hdur.
    + unfold shows_in. cbn. fold c. rewrite Hdur. by apply (shows_commit (t := t)).
Qed.

Lemma rollback_idle ok truth x d cs D t now w :
  reading ok truth x d cs D t w ->
  if_ret (transaction_rollback engine enumerate [] now x w) (idle truth t).
Proof.
  intros Hr. unfold transaction_rollback. apply if_ret_bind. intros tx _. apply if_ret_bind. intros d' _.
  destruct (reading_coherent _ _ _ _ _ _ _ _ Hr) as [Hc Hca Hpu Hst Hsh]. apply cleanup_idle.
  - by apply (set_delegate_counted (fun e => Storage.transaction_rollback engine d' (delegate_context e))).
  - pose proof (rollback_durable d' (delegate_context (caller w))) as Hdur.
    split; [|split; [exact (reading_alone _ _ _ _ _ _ _ _ Hr)|exact (reading_no_purge _ _ _ _ _ _ _ _ Hr)]].
    split_and!; [done|cbn; by rewrite Hdur|]. unfold shows_in. cbn. by rewrite Hdur.
Qed.

(** ** A beginning *)

Lemma begin_reading truth t w :
  idle truth t w ->
  if_ret (transaction_begin engine [] w) (fun xw => forall tx d,
    tx_heap (tx_part (caller xw.2)) !! xw.1 = Some tx -> delegate_tx tx = Some d ->
    reading True truth xw.1 d [] [] t xw.2).
Proof.
  intros ([Hc Hca Hpu Hst Hsh] & Ha & Hp). unfold transaction_begin.
  destruct (Storage.transaction_begin engine _) as [o c] eqn:Hbegin.
  pose proof (begin_durable _ _ _ Hbegin) as Hdur.
  pose proof (create_transaction_counted [] o G_MAXINT64 _ (Forall_nil_2 _)
    (set_delegate_counted (fun _ => c) w Hc)) as Hcount.
  unfold create_transaction in *. cbn [new_address] in *. cbv zeta in *.
  cbn [await_purge] in *. set (w1 := put_tx _ _ _) in *.
  change (purging_keys (tx_part (caller w1))) with (purging_keys (tx_part (caller w))) in *.
  rewrite Hp in *. cbn [mbind outcome_bind] in *.
  apply if_ret_ret. specialize (Hcount _ eq_refl). cbn [fst snd] in *. intros tx d Hx Hd.
  assert (Htx : tx = DataclientTx G_MAXINT64 ∅ gzochid_itree_new [] [] o false false).
  { cbn in Hx. rewrite lookup_insert_eq in Hx. by injection Hx. }
  subst tx. cbn in Hd. subst o. split.
  - rewrite <- Hdur in Hst, Hsh. by split.
  - change (next_address (caller w) :: transactions (tx_part (caller w)) = [next_address (caller w)]).
    by rewrite Ha.
  - exact Hp.
  - by intros k ?%not_elem_of_nil.
  - eexists. split; [exact Hx|]. split_and!; [done|done|done|]. intros _ Hf. cbn in Hf |- *.
    split; [done|]. unfold sees. cbn. rewrite (begin_view _ _ _ Hbegin Hf). done.
Qed.

(** ** A whole transaction *)

Inductive tx_op :=
| Get (wakes : list (wake E T O L)) (now : Z) (st : store) (key : bytes)
| GetForUpdate (wakes : list (wake E T O L)) (now : Z) (st : store) (key : bytes)
| Put (wakes : list (wake E T O L)) (now now' : Z) (st : store) (key value : bytes)
| Delete (wakes : list (wake E T O L)) (now : Z) (st : store) (key : bytes).

(** The operation on the node; what it reads. *)
Definition run_op (x : positive) (op : tx_op) (w : world) : outcome (option bytes * world) :=
  match op with
  | Get wakes now st key => transaction_get engine wakes now x st key w
  | GetForUpdate wakes now st key => transaction_get_for_update engine wakes now x st key w
  | Put wakes now now' st key value =>
      w ← transaction_put engine wakes now now' x st key value w; Ret (None, w)
  | Delete wakes now st key => '(_, w) ← transaction_delete engine wakes now x st key w; Ret (None, w)
  end.

Fixpoint run_ops (x : positive) (ops : list tx_op) (w : world) : outcome (list (option bytes) * world) :=
  match ops with
  | [] => Ret ([], w)
  | op :: ops => '(v, w) ← run_op x op w; '(vs, w) ← run_ops x ops w; Ret (v :: vs, w)
  end.

(** The operation on a map. *)
Definition map_op (op : tx_op) (m : contents) : option bytes * contents :=
  match op with
  | Get _ _ st key | GetForUpdate _ _ st key => (m !! (st, key), m)
  | Put _ _ _ st key value => (None, <[(st, key) := value]> m)
  | Delete _ _ st key => (None, base.delete (st, key) m)
  end.

Fixpoint map_ops (ops : list tx_op) (m : contents) : list (option bytes) * contents :=
  match ops with
  | [] => ([], m)
  | op :: ops => let '(v, m) := map_op op m in let '(vs, m) := map_ops ops m in (v :: vs, m)
  end.

(** When the operation is over, and the keys that it writes and deletes. *)
Definition op_end (op : tx_op) : Z :=
  match op with
  | Get wakes now _ _ | GetForUpdate wakes now _ _ | Delete wakes now _ _ => last_time now wakes
  | Put _ _ now' _ _ _ => now'
  end.

Definition op_writes (op : tx_op) : list dataclient_qualified_key :=
  match op with
  | Put _ _ _ st key _ | Delete _ _ st key => [QualifiedKey st key]
  | _ => []
  end.

Definition op_deletes (op : tx_op) : list dataclient_qualified_key :=
  match op with Delete _ _ st key => [QualifiedKey st key] | _ => [] end.

(** What is asked of the next operation at the time [t], when the keys [W] were written and
    [D] of these deleted: times go on; what happens meanwhile is current; it writes to a
    store that is borrowed, no empty value, and not to a key that was deleted. *)
Definition op_ok (truth : contents) (W D : list dataclient_qualified_key) (t : Z) (op : tx_op) : Prop :=
  match op with
  | Get wakes now _ _ | GetForUpdate wakes now _ _ =>
      t <= now /\ current_wakes truth (fun k => k ∈ W) now wakes
  | Put wakes now now' st key value =>
      t <= now /\ current_wakes truth (fun k => k ∈ W) now wakes
      /\ clock_ok now' /\ last_time now wakes < now' /\ value <> [] /\ borrowed st
      /\ QualifiedKey st key ∉ D
  | Delete wakes now st _ =>
      t <= now /\ current_wakes truth (fun k => k ∈ W) now wakes /\ borrowed st
  end.

Fixpoint ops_ok (truth : contents) (W D : list dataclient_qualified_key) (t : Z) (ops : list tx_op) : Prop :=
  match ops with
  | [] => True
  | op :: ops =>
      op_ok truth W D t op
      /\ ops_ok truth (op_writes op ++ W) (op_deletes op ++ D) (op_end op) ops
  end.

Definition ops_end (t : Z) (ops : list tx_op) : Z := foldl (fun _ op => op_end op) t ops.

Lemma reading_note ok ok' truth x d cs D t w :
  reading ok truth x d cs D t w -> (alive x d w -> ok -> ok') -> reading ok' truth x d cs D t w.
Proof.
  intros Hr Hok. eapply (reading_update ok); [exact Hr|lia|apply Hr|by split_and!|done|done|done|apply Hr|].
  destruct (reading_tx _ _ _ _ _ _ _ _ Hr) as (tx & Hx & Hcs & HD & Hd & Hv).
  exists tx. split_and!; try done. intros Hf Hfd. destruct (Hv Hf Hfd) as [Ho Hs].
  split; [|exact Hs]. apply Hok; [by exists tx|done].
Qed.

Lemma op_reading ok truth x d cs D t w (W DD : list dataclient_qualified_key) op :
  (forall k, written cs k -> k ∈ W) -> (forall k, k ∈ D -> k ∈ DD) ->
  reading ok truth x d cs D t w -> op_ok truth W DD t op ->
  if_ret (run_op x op w) (fun vw => exists cs' D',
    (forall k, written cs' k -> k ∈ op_writes op ++ W) /\ (forall k, k ∈ D' -> k ∈ op_deletes op ++ DD)
    /\ reading (ok /\ vw.1 = (map_op op (own truth cs)).1 /\ own truth cs' = (map_op op (own truth cs)).2)
         truth x d cs' D' (op_end op) vw.2).
Proof.
  intros HW HD Hr Hop.
  destruct op as [wakes now st key|wakes now st key|wakes now now' st key value|wakes now st key];
    cbn [run_op op_ok op_writes op_deletes op_end map_op fst snd app] in *.
  - destruct Hop as (Ht & Hw). eapply if_ret_mono.
    { apply (get_reading ok truth (fun k => k ∈ W) x d cs D now); [done|by eapply reading_later|done]. }
    intros [v w1] [Hr1 Hv]. cbn [fst snd] in *. exists cs, D. split_and!; [done|done|].
    eapply reading_note; [done|]. auto.
  - destruct Hop as (Ht & Hw). eapply if_ret_mono.
    { apply (get_reading ok truth (fun k => k ∈ W) x d cs D now); [done|by eapply reading_later|done]. }
    intros [v w1] [Hr1 Hv]. cbn [fst snd] in *. exists cs, D. split_and!; [done|done|].
    eapply reading_note; [done|]. auto.
  - destruct Hop as (Ht & Hw & Hnow & Hlt & Hne & Hst & HkD). apply if_ret_bind. eapply if_ret_mono.
    { apply (put_reading ok truth (fun k => k ∈ W) x d cs D now);
        [done|by eapply reading_later|done..|]. auto. }
    intros w1 (cs' & Hr1 & Honly & Hown). apply if_ret_ret. exists cs', D. split_and!; [|done|].
    + intros k [Hk| ->]%Honly; [right; auto|left].
    + eapply reading_note; [done|]. auto.
  - destruct Hop as (Ht & Hw & Hst). apply if_ret_bind. eapply if_ret_mono.
    { apply (delete_reading ok truth (fun k => k ∈ W) x d cs D now); [done|by eapply reading_later|done..]. }
    intros [r w1] (cs' & D' & Hr1 & HD' & Honly & Hown). apply if_ret_ret. exists cs', D'. split_and!.
    + intros k [Hk| ->]%Honly; [right; auto|left].
    + intros k [Hk| ->]%HD'; [right; auto|left].
    + eapply reading_note; [done|]. auto.
Qed.

Lemma ops_reading ops : forall ok truth x d cs D t w (W DD : list dataclient_qualified_key),
  (forall k, written cs k -> k ∈ W) -> (forall k, k ∈ D -> k ∈ DD) ->
  reading ok truth x d cs D t w -> ops_ok truth W DD t ops ->
  if_ret (run_ops x ops w) (fun vw => exists cs' D',
    reading (ok /\ vw.1 = (map_ops ops (own truth cs)).1 /\ own truth cs' = (map_ops ops (own truth cs)).2)
      truth x d cs' D' (ops_end t ops) vw.2).
Proof.
  induction ops as [|op ops IH]; intros ok truth x d cs D t w W DD HW HD Hr Hops;
    cbn [run_ops ops_ok map_ops] in *.
  - apply if_ret_ret. exists cs, D. eapply reading_note; [done|]. auto.
  - destruct Hops as [Hop Hops]. apply if_ret_bind. eapply if_ret_mono; [by eapply op_reading|].
    intros [v w1] (cs1 & D1 & HW1 & HD1 & Hr1). cbn [fst snd] in Hr1. apply if_ret_bind.
    eapply if_ret_mono; [by eapply (IH _ truth x d cs1 D1)|].
    intros [vs w2] (cs2 & D2 & Hr2). apply if_ret_ret. exists cs2, D2. cbn [fst snd] in *.
    eapply reading_note; [exact Hr2|]. intros _ ((Hok & Hv & Hm) & Hvs & Hown).
    rewrite Hm in Hvs, Hown. destruct (map_op op (own truth cs)) as [v' m]. cbn [fst snd] in *.
    destruct (map_ops ops m) as [vs' m']. cbn [fst snd] in *. by subst.
Qed.

(** C9. A transaction on a node is one on a map.  Let the node be coherent with the contents
    [truth] of the meta server and let no transaction run.  The operations are such that
    times go on, that what is written is not empty, goes to a store that is borrowed, and
    not to a key that the transaction has deleted; answers and releases of locks may come
    during the waits, as long as the answers are current.  Then, unless the transaction has
    to be rolled back, it reads what it would read in [truth] with its own changes, and its
    change set turns [truth] into the contents that it leaves.  When it commits, the node
    is coherent with these, and the change set is the first message that the commit writes
    to the meta server, before the locks that it gives back; it writes none when the change
    set is empty, or too long for a message, in which case it is lost.  When it is rolled
    back, the node is coherent with [truth]. *)
Theorem transaction_on_node truth t w ops x w1 vs w2 now w3 d tx :
  idle truth t w -> transaction_begin engine [] w = Ret (x, w1) ->
  tx_heap (tx_part (caller w1)) !! x = Some tx -> delegate_tx tx = Some d ->
  ops_ok truth [] [] t ops -> run_ops x ops w1 = Ret (vs, w2) ->
  (alive x d w2 ->
     vs = (map_ops ops truth).1
     /\ exists tx', tx_heap (tx_part (caller w2)) !! x = Some tx'
          /\ foldl apply_change truth (changeset tx') = (map_ops ops truth).2
          /\ (transaction_commit engine enumerate [] now x w2 = Ret w3 ->
              idle (map_ops ops truth).2 (ops_end t ops) w3
              /\ (uplink_ok w2 ->
                  exists sent released,
                    submission (app_name (caller w2)) (changeset tx') sent
                    /\ Forall gives_back released
                    /\ unsent w3 = unsent w2 ++ stream (sent ++ released))))
  /\ (transaction_rollback engine enumerate [] now x w2 = Ret w3 -> idle truth (ops_end t ops) w3).
Proof.
  intros Hi Hb Hx Hd Hops Hrun.
  pose proof (begin_reading truth t w Hi _ Hb tx d Hx Hd) as Hr. cbn [fst snd] in Hr.
  destruct (ops_reading ops _ truth x d [] [] t w1 [] [] ltac:(intros k (c & Hc & _); by apply not_elem_of_nil in Hc)
    ltac:(done) Hr Hops _ Hrun) as (cs & D & Hr2). cbn [fst snd] in Hr2. change (own truth []) with truth in Hr2.
  split; [|intros H3; by apply (rollback_idle _ _ _ _ _ _ _ now _ Hr2 _ H3)].
  intros Ha. destruct (Ha) as (tx' & Hx' & Hf & Hfd).
  destruct (reading_entry _ _ _ _ _ _ _ _ _ Hr2 Hx') as (Hcs & _ & _ & Hv).
  destruct (Hv Hf Hfd) as ((_ & Hvs & Hown) & _). split; [done|].
  exists tx'. split; [done|]. split; [by rewrite Hcs|]. intros H3. split.
  - destruct (commit_idle _ _ _ _ _ _ _ now _ Hr2 Ha _ H3) as [_ Hidle]. by rewrite Hown in Hidle.
  - intros Hup. destruct (commit_sends engine enumerate now x tx' w2 Hx' w3 H3 Hup)
      as (_ & ms & (sent & released & -> & Hs) & Hu).
    exists sent, released. by destruct Hs.
Qed.

End coherent.

(** *** A node that has just started *)

Lemma started_idle {E T O L : Type} (engine : gzochid_storage_engine_interface E T) (durable : E -> contents)
    (truth : contents) (t : Z) (w : client_world cache_callback O (dataclient_environment E T) L) :
  started w -> durable (delegate_context (caller w)) = ∅ -> idle (durable := durable) truth t w.
Proof.
  intros Hs Hd. pose proof (started_counted w Hs) as Hc.
  destruct Hs as (lock_ms & range_ms & app & c & stores & m & s & ->). cbn [caller] in *.
  assert (He : essence (foldr open (initialize (T := T) app c) stores) = essence (initialize app c)).
  { clear Hc Hd. induction stores as [|st stores He]; done. }
  unfold essence in He. cbn in He. injection He as Hk _ Hv _ Hp _ _ Ha Hpk.
  split_and!; [split|done|done]; cbn [caller]; rewrite ?Hk, ?Hv, ?Hp, ?Hd; [done|..].
  - by intros k v ?%lookup_empty_Some.
  - by intros pk ?%not_elem_of_nil.
  - by intros k v ?%lookup_empty_Some.
  - by intros k v ?%lookup_empty_Some.
Qed.

(** *** A transaction that reads and writes *)

(** Whether an answer is current, as a test. *)
Definition current_answerb {O E T L : Type} (truth : contents) (W : list dataclient_qualified_key)
    (response : gzochid_data_response) (w : client_world cache_callback O (dataclient_environment E T) L)
  : bool :=
  answer_countsb response w &&
  match front (response_app response) w with
  | Some r =>
      match success_callback r, body response with
      | lock_success d, Success data =>
          match callback_key d with
          | Ret k => bool_decide (data = truth !! at_key k) && bool_decide (data <> Some [])
                     && bool_decide (k ∉ W)
          | _ => true
          end
      | _, _ => true
      end
  | None => true
  end.

Lemma current_answerb_true {O E T L : Type} truth W response
    (w : client_world cache_callback O (dataclient_environment E T) L) :
  current_answerb truth W response w = true -> current_answer truth (fun k => k ∈ W) response w.
Proof.
  unfold current_answerb. intros [Hn Hb]%andb_true_iff. split; [by apply answer_countsb_true|].
  intros r d k data Hf Hd Hk Hdata. rewrite Hf, Hd, Hdata, Hk in Hb.
  apply andb_true_iff in Hb as [[H1 H2]%andb_true_iff H3].
  by split_and!; [eapply bool_decide_eq_true_1|eapply bool_decide_eq_true_1|eapply bool_decide_eq_true_1].
Qed.

Definition sample_truth : contents := {[ (Oids, [5]) := [7] ]}.

Definition lend (now : Z) (W : list dataclient_qualified_key) : wake map_engine_state positive unit unit :=
  let response := DataResponse [97; 0] oids_name (Success (Some [7])) in
  Wake (fun w => if current_answerb sample_truth W response w then answer_value now response w else Fuel) now.

(** The value is borrowed, then the lock for writing; the new value is read back. *)
Definition sample_ops : list (@tx_op map_engine_state positive unit unit) :=
  [Get [lend 2 []] 1 Oids [5]; Put [lend 4 []] 3 5 Oids [5] [8]; Get [] 6 Oids [5]].

Lemma lend_current t now W :
  t < now -> clock_ok now -> current_wakes sample_truth (fun k => k ∈ W) t [lend now W].
Proof.
  intros Ht Hnow. split_and!; [|cbn; lia|done]. intros w w' Hw. cbn [others lend] in Hw.
  destruct (current_answerb _ _ _ w) eqn:Hb; [|done].
  eapply meanwhiles_more; [done|done| |apply meanwhiles_none].
  eapply meanwhile_answer_value; [by apply current_answerb_true|done].
Qed.

Lemma sample_ops_ok : ops_ok sample_truth [] [] 0 sample_ops.
Proof.
  cbn [ops_ok sample_ops op_ok op_writes op_deletes op_end app last_time foldl wake_time lend].
  split_and!; try lia; try done; try (by apply lend_current; [lia|unfold clock_ok; lia]).
  - by left.
  - apply not_elem_of_nil.
Qed.

Lemma map_engine_deletes t st k c r c' :
  Storage.transaction_delete map_engine t st k c = (r, c') -> tx_rollback map_engine t c' = false ->
  r = 0 \/ r = GZOCHID_STORAGE_ENOTFOUND.
Proof. intros [= <- _] _. destruct (map_view t c !! (st, k)); auto. Qed.

Lemma transaction_on_node_witness :
  match ('(x, w1) ← transaction_begin map_engine [] sample_node;
         '(vs, w2) ← run_ops map_engine x sample_ops w1;
         w3 ← transaction_commit map_engine map_to_list [] 7 x w2; Ret (vs, w3)) with
  | Ret (vs, w3) =>
      vs = [Some [7]; None; Some [8]]
      /\ idle (durable := committed) {[ (Oids, [5]) := [8] ]} 6 w3
      /\ exists before released, Forall gives_back released
           /\ unsent w3 = before ++ stream ((GZOCHID_DATA_PROTOCOL_SUBMIT_CHANGESET
                :: [97; 0; 0; 1] ++ oids_name ++ [0; 1; 5; 0; 1; 8]) :: released)
  | _ => False
  end.
Proof.
  assert (Hi : idle (durable := committed) sample_truth 0 sample_node).
  { apply (started_idle map_engine); [by repeat eexists|done]. }
  destruct (transaction_begin map_engine [] sample_node) as [[x w1]| | |] eqn:Hb; [|vm_compute in Hb; discriminate Hb..].
  assert (Hx : exists tx d, tx_heap (tx_part (caller w1)) !! x = Some tx /\ delegate_tx tx = Some d).
  { vm_compute in Hb. injection Hb as <- <-. vm_compute. by repeat eexists. }
  destruct Hx as (tx & d & Hx & Hd). cbn [mbind outcome_bind].
  destruct (run_ops map_engine x sample_ops w1) as [[vs w2]| | |] eqn:Hr.
  2-4: exfalso; vm_compute in Hb; injection Hb as <- <-; vm_compute in Hr; discriminate Hr.
  cbn [mbind outcome_bind].
  destruct (transaction_commit map_engine map_to_list [] 7 x w2) as [w3| | |] eqn:Hc.
  2-4: exfalso; vm_compute in Hb; injection Hb as <- <-; vm_compute in Hr; injection Hr as <- <-;
    vm_compute in Hc; discriminate Hc.
  assert (Ha : alive map_engine x d w2).
  { vm_compute in Hb. injection Hb as <- <-. vm_compute in Hr. injection Hr as <- <-.
    vm_compute in Hx. injection Hx as <-. vm_compute in Hd. injection Hd as <-.
    vm_compute. by repeat eexists. }
  destruct (transaction_on_node map_engine (durable := committed) (view := map_view) map_engine_deletes
    map_to_list (fun m => reflexivity _) sample_truth 0 sample_node sample_ops x w1 vs w2 7 w3 d tx
    Hi Hb Hx Hd sample_ops_ok Hr) as [H _].
  destruct (H Ha) as (Hvs & tx' & Hx' & _ & Hend). destruct (Hend Hc) as [Hidle Hsend].
  split; [exact Hvs|]. split; [exact Hidle|].
  destruct Hsend as (sent & released & Hs & Hrel & Hu).
  { vm_compute in Hb. injection Hb as <- <-. vm_compute in Hr. injection Hr as <- <-. done. }
  exists (unsent w2), released. split; [exact Hrel|]. rewrite Hu.
  vm_compute in Hb. injection Hb as <- <-. vm_compute in Hr. injection Hr as <- <-.
  vm_compute in Hx'. injection Hx' as <-. destruct Hs as (payload & Hp & ->).
  vm_compute in Hp. injection Hp as <-. reflexivity.
Defined.
