(* ===== verification/CacheServed.v ===== *)
(** * The caching storage engine: a request is served

    [CacheCoherent] says what a transaction reads when its operations return.  Here they
    do: a transaction that needs the lock of a key asks the meta server for it once, and
    when the answer has come it has read the value. *)

From S2P Require Import Prelude.
From S2P Require Import Io.
From S2P Require Import Util.
From S2P Require Import DataProtocol.
From S2P Require Import Itree.
From S2P Require Import LockMem.
From S2P Require Import Storage.
From S2P Require Import Socket.
From S2P Require Import Framing.
From S2P Require Import MetaProtocol.
From S2P Require Import DataServer.
From S2P Require Import DataClient.
From S2P Require Import CacheEnv.
From S2P Require Import CacheLock.
From S2P Require Import CacheTx.
From S2P Require Import CacheCount.
From S2P Require Import CacheFrame.
From S2P Require Import CacheLocks.
From S2P Require Import CacheNode.
From S2P Require Import CacheShow.
From S2P Require Import CacheCoherent.

Local Open Scope Z_scope.

(** ** Reading the time of a value *)

Lemma read_long_returns v : 8 <= Z.of_nat (length v) -> exists z, gzochi_common_io_read_long v 0 = Ret z.
Proof.
  intros Hl. do 8 (destruct v as [|? v]; [cbn in Hl; lia|]). by eexists.
Qed.

(** ** Asking *)

Section asking.

Context {C O X L : Type}.
Implicit Types w : client_world C O X L.

(** A request for a value is written once and its callbacks are the last of the queue. *)
Lemma request_value_sent app st key b (s f r : C) w :
  cstring app -> cstring st -> uplink_ok w ->
  exists w', gzochid_dataclient_request_value app st key b s f r w = Ret w'
    /\ caller w' = caller w
    /\ DataClient.pending app w' = DataClient.pending app w ++ [create_callback GZOCHID_DATA_PROTOCOL_VALUE_RESPONSE s f r]
    /\ unsent w' = unsent w ++ stream [GZOCHID_DATA_PROTOCOL_REQUEST_VALUE
                                         :: app ++ st ++ (if b then 1 else 0) :: sized key].
Proof.
  intros Happ Hst Hup. unfold gzochid_dataclient_request_value.
  destruct (acquire_queue_ok app w) as (queue & w1 & -> & Hq & Hs & Hp & Hup1 & Hc).
  rewrite (append_cstring [] app Happ). run. rewrite (append_cstring _ st Hst). run.
  rewrite append_1. run. rewrite write_bytes_sized. run.
  match goal with |- context [write_message ?o ?p w1] =>
    destruct (write_message_ok o p w1 (Hup1 Hup)) as (w2 & -> & Hs2 & Hd) end.
  run. eexists. split; [done|]. specialize (Hs (fun a => DataClient.pending a w) (fun _ => eq_refl) Hup).
  destruct Hs as [_ _ _ _ Hu _]. destruct Hs2 as [_ Hc2 _ _ Hu2 _]. split_and!.
  - cbn. by rewrite Hc2.
  - unfold DataClient.pending at 1. cbn. by rewrite lookup_insert_eq, Hq.
  - change (unsent w2 = unsent w ++ stream [GZOCHID_DATA_PROTOCOL_REQUEST_VALUE
      :: app ++ st ++ (if b then 1 else 0) :: sized key]).
    rewrite Hu2, Hu, <- app_assoc. f_equal. unfold stream. cbn. by rewrite <- !app_assoc.
Qed.

End asking.

(** ** The answer *)

Section served.

Context {E T O L : Type}.
Abbreviation env := (dataclient_environment E T).
Abbreviation world := (client_world cache_callback O env L).
Implicit Types (e : env) (w : world).

Lemma front_pending app w r : DataClient.pending app w = [r] -> front app w = Some r.
Proof.
  unfold DataClient.pending, front. destruct (_ !! app) as [q|]; [|done]. cbn. intros Hq. by rewrite Hq.
Qed.

(** The node has no lock for the key, and nobody has asked for one. *)
Definition unasked (k : dataclient_qualified_key) e : Prop :=
  locks (lock_part e) !! k = None /\ find_evicted_key e k = None
  /\ (forall b, find_request b k e = None).

(** What the waiting thread needs after the answer. *)
Definition answered_lock (k : dataclient_qualified_key) (b : bool) e e' : Prop :=
  (exists p l, locks (lock_part e') !! k = Some p /\ lock_heap (lock_part e') !! p = Some l /\ lk_for_write l = b)
  /\ request_heap (lock_part e') = request_heap (lock_part e)
  /\ tx_heap (tx_part e') = tx_heap (tx_part e)
  /\ delegate_context e' = delegate_context e.

Lemma notify_returns (m : gmap dataclient_qualified_key positive) k e :
  (forall r, m !! k = Some r -> is_Some (request_heap (lock_part e) !! r)) ->
  notify_waiters m k e = Ret tt.
Proof.
  intros Hm. unfold notify_waiters. destruct (m !! k) as [r|] eqn:Hk; [|done].
  destruct (Hm r eq_refl) as [q Hq]. unfold get_request. by rewrite Hq.
Qed.

Lemma stamped_returns now data : exists v,
  match data with
  | Some data => prefix_bytes_with_timestamp now data
  | None => create_empty_timestamped_bytes now
  end = Ret v.
Proof.
  destruct data as [src|]; [|eexists; by apply write_long_8].
  unfold prefix_bytes_with_timestamp, prefix_with_timestamp.
  assert (Hm : malloc (Z.of_nat (length src) + 8) = [] ++ replicate 8 0 ++ replicate (length src) 0).
  { unfold malloc. cbn [app]. rewrite <- replicate_add. f_equal. lia. }
  rewrite Hm, (be_write (BigEndian := long_codec)).
  rewrite write_at_mid by (rewrite ?be_encode_length; done). run. unfold memcpy_to.
  rewrite memcpy_from_all. run. cbn [app].
  rewrite <- (app_nil_r (be_encode 8 (s64 now) ++ replicate (length src) 0)), <- app_assoc.
  rewrite write_at_mid by (rewrite ?be_encode_length, ?length_replicate; done). by eexists.
Qed.

Lemma success_returns now data d k e :
  callback_key d = Ret k -> locks (lock_part e) !! k = None ->
  (forall b r, find_request b k e = Some r -> is_Some (request_heap (lock_part e) !! r)) ->
  exists e', lock_success_callback now data d e = Ret e' /\ answered_lock k (cb_for_write d) e e'.
Proof.
  intros Hk Hl Hr. unfold lock_success_callback. rewrite Hk. run. rewrite Hl.
  cbn [lock_new new_address]. run.
  destruct (stamped_returns now data) as [v Hv]. rewrite Hv. run.
  destruct (cb_for_write d) eqn:Hw.
  - rewrite notify_returns by apply (Hr true). run. rewrite notify_returns by apply (Hr false). run.
    eexists. split; [done|]. split_and!; [|done..]. eexists _, _. cbn.
    by rewrite !lookup_insert_eq.
  - run. rewrite notify_returns by apply (Hr false). run.
    eexists. split; [done|]. split_and!; [|done..]. eexists _, _. cbn.
    by rewrite !lookup_insert_eq.
Qed.

Lemma answer_returns now app name data d k w :
  DataClient.pending app w
    = [create_callback GZOCHID_DATA_PROTOCOL_VALUE_RESPONSE (lock_success d) (lock_failure d) (lock_release d)] ->
  callback_key d = Ret k -> locks (lock_part (caller w)) !! k = None ->
  (forall b r, find_request b k (caller w) = Some r -> is_Some (request_heap (lock_part (caller w)) !! r)) ->
  exists w', answer_value now (DataResponse app name (Success data)) w = Ret w'
    /\ answered_lock k (cb_for_write d) (caller w) (caller w') /\ unsent w' = unsent w.
Proof.
  intros Hp Hk Hl Hr. unfold answer_value, gzochid_dataclient_received_value. cbn [response_app].
  unfold acquire_callback_queue. unfold DataClient.pending in Hp.
  destruct (application_callback_queues (dataclient w) !! app) as [q|]; [|done].
  rewrite Hp. unfold process_queued_callback. rewrite Hp.
  cbn [expected_opcode create_callback Z.eqb Pos.eqb negb body success_callback timeout call_success].
  rewrite Z.eqb_refl. cbn [negb].
  destruct (success_returns now data d k (caller w) Hk Hl Hr) as (e' & He & Ha).
  cbn [put_queue set_client caller]. rewrite He. run. rewrite Z.eqb_refl. run.
  by eexists.
Qed.

(** The first request for a key. *)
Lemma join_first x k b w :
  unasked k (caller w) ->
  exists r e, join_request x k b w = Ret (r, set_caller e w)
    /\ request_heap (lock_part e) !! r = Some (LockRequest k b false 0 1)
    /\ (forall b' r', find_request b' k e = Some r' -> r' = r)
    /\ locks (lock_part e) = locks (lock_part (caller w)) /\ tx_heap (tx_part e) = tx_heap (tx_part (caller w))
    /\ app_name e = app_name (caller w) /\ delegate_context e = delegate_context (caller w).
Proof.
  intros (Hl & Hev & Hr). unfold join_request. rewrite Hev, Hr. eexists _, _. split; [done|].
  specialize (Hr (negb b)) as Hn.
  split_and!; [destruct b; cbn; apply lookup_insert_eq| |by destruct b..].
  unfold find_request in *. intros b' r'. destruct b, b'; cbn in *; rewrite ?lookup_insert_eq; congruence.
Qed.

Lemma store_name_cstring st : cstring (store_name st).
Proof. exists (removelast (store_name st)). by destruct st; repeat constructor. Qed.

(** The request is sent once. *)
Lemma send_first r q w :
  request_heap (lock_part (caller w)) !! r = Some q ->
  cstring (app_name (caller w)) -> uplink_ok w -> DataClient.pending (app_name (caller w)) w = [] ->
  exists w' d, send_request r w = Ret w'
    /\ callback_key d = Ret (rq_key q) /\ cb_for_write d = rq_for_write q
    /\ DataClient.pending (app_name (caller w)) w'
       = [create_callback GZOCHID_DATA_PROTOCOL_VALUE_RESPONSE (lock_success d) (lock_failure d) (lock_release d)]
    /\ request_heap (lock_part (caller w')) !! r
       = Some (LockRequest (rq_key q) (rq_for_write q) true (rq_next_request_time q) (rq_ref_count q))
    /\ (forall b k, find_request b k (caller w') = find_request b k (caller w))
    /\ locks (lock_part (caller w')) = locks (lock_part (caller w))
    /\ tx_heap (tx_part (caller w')) = tx_heap (tx_part (caller w))
    /\ delegate_context (caller w') = delegate_context (caller w)
    /\ unsent w' = unsent w ++ stream [GZOCHID_DATA_PROTOCOL_REQUEST_VALUE :: app_name (caller w)
         ++ store_name (qk_store (rq_key q)) ++ (if rq_for_write q then 1 else 0) :: sized (qk_key (rq_key q))].
Proof.
  intros Hq Happ Hup Hp. unfold send_request, get_request. rewrite Hq. run. cbn [new_address app_name].
  match goal with |- context [gzochid_dataclient_request_value ?a ?s ?k ?b ?f1 (lock_failure ?d) ?f3 ?w1] =>
    destruct (request_value_sent a s k b f1 (lock_failure d) f3 w1) as (w2 & -> & Hc & Hp2 & Hu);
      [done|apply store_name_cstring|done|];
    exists (set_caller (put_request r (LockRequest (rq_key q) (rq_for_write q) true (rq_next_request_time q)
      (rq_ref_count q)) (caller w2)) w2), d
  end.
  assert (Hq2 : request_heap (lock_part (caller w2)) !! r = Some q) by (by rewrite Hc).
  run. unfold mark_requested, get_request. rewrite Hq2. run.
  split_and!; [done|by destruct (rq_key q)|done| |cbn; apply lookup_insert_eq|by rewrite Hc..|done].
  refine (eq_trans Hp2 _). change (DataClient.pending (app_name (caller w)) (set_caller _ w))
    with (DataClient.pending (app_name (caller w)) w). by rewrite Hp.
Qed.

(** Nothing has failed in the transaction between two worlds. *)
Definition flags_kept (x : positive) w w' : Prop :=
  (forall tx, tx_heap (tx_part (caller w)) !! x = Some tx ->
     exists tx', tx_heap (tx_part (caller w')) !! x = Some tx' /\ rollback tx' = rollback tx)
  /\ delegate_context (caller w') = delegate_context (caller w).

(** The lock that came is taken, and the request left. *)
Lemma take_returns x k b r e w tx :
  answered_lock k b e (caller w) -> tx_heap (tx_part e) !! x = Some tx ->
  exists w', check_and_set_lock x k b w = Ret (true, w')
    /\ request_heap (lock_part (caller w')) !! r = request_heap (lock_part e) !! r /\ flags_kept x w w'
    /\ unsent w' = unsent w.
Proof.
  intros ((p & l & Hk & Hp & Hb) & Hr & Ht & _) Hx. rewrite <- Ht in Hx. rewrite <- Hr. unfold check_and_set_lock.
  rewrite Hk. unfold get_lock, get_tx. rewrite Hp, Hx.
  assert (He : (if b then l0 ← deref (Some l); Ret (lk_for_write l0) else Ret true) = Ret true)
    by (destruct b; cbn; congruence).
  rewrite He. run. destruct (tx_locks tx !! k).
  - eexists. split_and!; try done. split; [by eauto|done].
  - unfold lock_ref, get_lock. rewrite Hp. run. eexists. split_and!; try done. split; [|done].
    intros tx' Hx'. simplify_eq. cbn. rewrite lookup_insert_eq. by eexists.
Qed.

Lemma finish_returns k r q b w :
  request_heap (lock_part (caller w)) !! r = Some q ->
  exists w', finish k r b w = Ret (b, w') /\ (forall x, flags_kept x w w') /\ unsent w' = unsent w.
Proof.
  intros Hq. unfold finish, leave_request, lock_request_unref, get_request. rewrite Hq. run.
  destruct (_ <=? 0); run; eexists; (split_and!; [done| |done]); intros x; split; try done;
    intros tx Hx; exists tx; by destruct (rq_for_write q).
Qed.

(** The whole wait: the request is sent, the answer treated, and the lock taken. *)
Lemma ensure_lock_served now now' x st key b data w tx :
  let k := QualifiedKey st key in
  let app := app_name (caller w) in
  let k_answer := Wake (answer_value now' (DataResponse app (store_name st) (Success data))) now' in
  unasked k (caller w) -> tx_heap (tx_part (caller w)) !! x = Some tx -> tx_locks tx !! k = None ->
  0 <= now < end_time tx -> cstring app -> uplink_ok w -> DataClient.pending app w = [] ->
  exists w1 d w2 w3 w',
    quiet w w1 /\ front app w1 = Some (create_callback GZOCHID_DATA_PROTOCOL_VALUE_RESPONSE (lock_success d)
                                         (lock_failure d) (lock_release d))
    /\ callback_key d = Ret k /\ locks (lock_part (caller w1)) !! k = None
    /\ others k_answer w1 = Ret w2
    /\ check_and_set_lock x k b w2 = Ret (true, w3) /\ quiet w3 w'
    /\ ensure_lock [k_answer] now x st key b w = Ret (true, w') /\ flags_kept x w w'
    /\ unsent w' = unsent w ++ stream [GZOCHID_DATA_PROTOCOL_REQUEST_VALUE
         :: app ++ store_name st ++ (if b then 1 else 0) :: sized key].
Proof.
  intros k app k_answer Hun Hx Hk Hnow Happ Hup Hp.
  destruct (join_first x k b w Hun) as (r & e & Hj & Hq & Hreq & Hl & Ht & Ha & Hd).
  pose proof (join_request_quiet x k b w w (quiet_reflexive w) _ Hj) as Hq1. cbn [snd] in Hq1.
  destruct (send_first r (LockRequest k b false 0 1) (set_caller e w)) as
    (w1 & d & Hs & Hkd & Hbd & Hp1 & Hr1 & Hreq1 & Hl1 & Ht1 & Hd1 & Hu1);
    [done|by cbn; rewrite Ha|done|cbn; rewrite Ha; exact Hp|].
  cbn [caller set_caller rq_key rq_for_write rq_next_request_time rq_ref_count] in *.
  rewrite Ha in Hp1, Hu1. fold app in Hp1, Hu1.
  pose proof (send_request_quiet r w (set_caller e w) Hq1 _ Hs) as Hquiet.
  assert (Hl1k : locks (lock_part (caller w1)) !! k = None) by (rewrite Hl1, Hl; apply Hun).
  destruct (answer_returns now' app (store_name st) data d k w1 Hp1 Hkd Hl1k) as (w2 & Hw2 & Hans & Hu2).
  { intros b' r'. rewrite Hreq1. intros ->%Hreq. by rewrite Hr1. }
  rewrite Hbd in Hans.
  destruct (take_returns x k b r (caller w1) w2 tx Hans ltac:(by rewrite Ht1, Ht)) as (w3 & Hw3 & Hr3 & Hf3 & Hu3).
  rewrite Hr1 in Hr3. destruct (finish_returns k r _ true w3 Hr3) as (w' & Hw' & Hf' & Hu').
  exists w1, d, w2, w3, w'. split_and!; try done.
  - by apply front_pending.
  - by apply (finish_quiet k r true w3 w3 (quiet_reflexive w3) _ Hw').
  - unfold ensure_lock, get_tx. fold k. rewrite Hx. run. rewrite Hk. run.
    unfold check_and_set_lock at 1. rewrite (proj1 Hun). run. rewrite Hj. run. cbn [lock_loop].
    unfold get_tx. change (tx_heap (tx_part (caller (set_caller e w)))) with (tx_heap (tx_part e)).
    rewrite Ht, Hx. run. rewrite (proj2 (Z.leb_gt _ _)) by lia.
    assert (Hg : get_request r (caller (set_caller e w)) = Ret (LockRequest k b false 0 1))
      by (unfold get_request; cbn [caller set_caller]; by rewrite Hq).
    rewrite Hg. run.
    cbn [rq_requested rq_next_request_time negb andb]. rewrite (proj2 (Z.leb_le 0 now)) by lia. cbn [negb].
    rewrite Hs. run. change (others k_answer w1 = Ret w2) in Hw2. rewrite Hw2. run.
    unfold get_request. rewrite (proj1 (proj2 Hans)), Hr1. run. cbn [rq_for_write].
    rewrite Hw3. run. exact Hw'.
  - destruct Hans as (_ & _ & Ht2 & Hd2), Hf3 as [Hf3 Hd3], (Hf' x) as [Hf4 Hd4]. split; [|congruence].
    intros tx0 Hx0. destruct (Hf3 tx0) as (tx3 & Hx3 & Hr3'); [by rewrite Ht2, Ht1, Ht|].
    destruct (Hf4 tx3 Hx3) as (tx4 & Hx4 & Hr4). exists tx4. split; congruence.
  - rewrite Hu', Hu3, Hu2, Hu1. done.
Qed.

(** ** Reading once the lock is there *)

Context (engine : gzochid_storage_engine_interface E T) {view : T -> E -> contents}
  {durable : E -> contents} {laws : EngineLaws engine view durable}.

Abbreviation reading := (CacheCoherent.reading (view := view) (durable := durable) engine).
Abbreviation alive := (CacheCoherent.alive engine).

(** The delegate does not fail when it is asked for a key. *)
Definition reads_safely (b : bool) (d : T) (st : store) (key : bytes) (c : E) : Prop :=
  tx_rollback engine d ((if b then Storage.transaction_get_for_update else Storage.transaction_get)
                          engine d st key c).2 = false.

Lemma timestamp_returns t w k :
  cache_ok t (value_cache (lock_part (caller w))) -> exists z, get_timestamp_from_cache (caller w) k = Ret z.
Proof.
  intros Hc. unfold get_timestamp_from_cache, get_prefixed_cache_value.
  destruct (value_cache _ !! k) as [v|] eqn:Hv; [|by eexists]. destruct (Hc k v Hv) as [Hl _].
  rewrite (proj2 (Z.leb_le _ _)) by lia. cbn [c_assert]. run. apply read_long_returns. lia.
Qed.

Lemma get_tx_at x tx w : tx_heap (tx_part (caller w)) !! x = Some tx -> get_tx x w = Ret tx.
Proof. intros Hx. unfold get_tx. by rewrite Hx. Qed.

Lemma get_returns ok truth x d cs D t wakes now st key b w w1 :
  ensure_lock wakes now x st key b w = Ret (true, w1) -> reading ok truth x d cs D t w1 -> alive x d w1 ->
  reads_safely b d st key (delegate_context (caller w1)) ->
  exists v w', get_internal engine wakes now x st key b w = Ret (v, w') /\ alive x d w'
    /\ unsent w' = unsent w1.
Proof.
  intros Hok Hr (tx & Hx & Hf & Hfd) Hsafe. unfold get_internal. rewrite Hok. run. rewrite (get_tx_at x tx w1 Hx). run.
  destruct (reading_tx _ _ _ _ _ _ _ _ _ Hr) as (tx0 & Hx0 & _ & HD & Hd & Hv). simplify_eq.
  destruct (is_deleted tx _).
  { eexists _, _. split; [done|]. split; [|done]. by exists tx. }
  rewrite Hd. run. unfold reads_safely in Hsafe.
  destruct ((if b then _ else _) engine d st key _) as [sv c] eqn:Hget. cbn [snd] in Hsafe.
  destruct (delegate_reads engine b d st key _ sv c Hget) as [Hdur Hview].
  destruct (Hview Hsafe) as (_ & Hsv & _).
  unfold propagate_transaction_status. rewrite (get_tx_at x tx (on_env (set_delegate c) w1) Hx). run. rewrite Hf, Hd. run. cbn [delegate_context set_delegate on_env set_caller caller]. rewrite Hsafe.
  set (tx' := set_flags false _ tx). set (w2 := put_tx x tx' _).
  assert (Hx2 : tx_heap (tx_part (caller w2)) !! x = Some tx') by apply lookup_insert_eq.
  rewrite (get_tx_at x tx' w2 Hx2). run. cbn [rollback set_flags tx'].
  destruct (timestamp_returns t w2 (QualifiedKey st key)) as [z Hz]; [apply Hr|]. rewrite Hz. run.
  assert (Ha : alive x d w2) by (by exists tx').
  assert (Hs : exists s, match sv with
      | Some v => _ ← c_assert (8 <? Z.of_nat (length v)); gzochi_common_io_read_long v 0
      | None => Ret 0 end = Ret s).
  { destruct sv as [v|]; [|by eexists]. destruct (Hv Hf Hfd) as (_ & Hst & _).
    symmetry in Hsv. destruct (Hst _ _ Hsv) as [Hlen _]. rewrite (proj2 (Z.ltb_lt _ _)) by lia. cbn [c_assert]. run.
    apply read_long_returns. lia. }
  destruct Hs as [s Hs]. rewrite Hs. run. destruct (_ <? _); by eexists _, _.
Qed.

(** ** A read is served *)

(** C10. A node's reads are served.  Let a transaction run on a coherent node, where nobody
    has the lock of a key or has asked for it and no other request of the application waits.
    When the transaction gets the key, for reading or for updating, one request is sent, and
    if the meta server's answer has the value that it has, the operation returns this value,
    in a state where the transaction goes on. *)
Theorem get_served truth x d cs D now now' w st key b tx :
  reading True truth x d cs D now w -> alive x d w ->
  tx_heap (tx_part (caller w)) !! x = Some tx -> tx_locks tx !! QualifiedKey st key = None ->
  unasked (QualifiedKey st key) (caller w) -> DataClient.pending (app_name (caller w)) w = [] ->
  cstring (app_name (caller w)) -> uplink_ok w ->
  0 <= now < end_time tx -> now < now' -> clock_ok now' ->
  truth !! (st, key) <> Some [] -> ~ written cs (QualifiedKey st key) ->
  reads_safely b d st key (delegate_context (caller w)) ->
  let answer := DataResponse (app_name (caller w)) (store_name st) (Success (truth !! (st, key))) in
  exists w',
    get_internal engine [Wake (answer_value now' answer) now'] now x st key b w = Ret (truth !! (st, key), w')
    /\ reading True truth x d cs D now' w' /\ alive x d w'
    /\ unsent w' = unsent w ++ stream [GZOCHID_DATA_PROTOCOL_REQUEST_VALUE
         :: app_name (caller w) ++ store_name st ++ (if b then 1 else 0) :: sized key].
Proof.
  intros Hr Ha Hx Hk Hun Hp Happ Hup Hend Hnow Hclock Hne Hnw Hsafe answer.
  destruct (ensure_lock_served now now' x st key b (truth !! (st, key)) w tx Hun Hx Hk Hend Happ Hup Hp)
    as (w1 & dd & w2 & w3 & w4 & Hq1 & Hfront & Hkd & Hl1 & Hw2 & Hw3 & Hq4 & Hlock & (Hflag & Hdc) & Hu).
  assert (Hr4 : reading True truth x d cs D now' w4).
  { eapply reading_quiet; [|exact Hq4]. refine (reading_take _ _ _ _ _ _ _ _ _ _ _ _ _ _ Hw3).
    eapply (reading_meanwhile engine True truth (written cs) x d cs D now now' w1); [done| |done|done|].
    - by eapply reading_quiet.
    - eapply meanwhile_answer_value; [|exact Hw2]. split.
      + intros r d' Hf Hd'. cbn [response_app answer] in Hf. rewrite Hfront in Hf. injection Hf as <-.
        injection Hd' as <-. intros k' Hk'. rewrite Hkd in Hk'. injection Hk' as <-. rewrite Hl1. by intros [? ?].
      + intros r d' k' data Hf Hd' Hk' Hdata. cbn [response_app answer] in Hf. rewrite Hfront in Hf.
        injection Hf as <-. injection Hd' as <-. rewrite Hkd in Hk'. injection Hk' as <-. by injection Hdata as <-. }
  assert (Ha4 : alive x d w4).
  { destruct Ha as (tx0 & Hx0 & Hf0 & Hfd). destruct (Hflag tx0 Hx0) as (tx4 & Hx4 & Hf4).
    exists tx4. rewrite Hdc. split_and!; [done|congruence|done]. }
  destruct (get_returns _ _ _ _ _ _ _ _ _ _ _ b w w4 Hlock Hr4 Ha4) as (v & w' & Hget & Ha' & Hu'); [by rewrite Hdc|].
  destruct (get_locked engine _ _ _ _ _ _ _ _ _ _ _ b w _ w4 Hlock Hr4 _ Hget) as [Hr' Hv]. cbn [fst snd] in *.
  assert (Hown : v = truth !! (st, key)).
  { rewrite (Hv Ha'). exact (unwritten cs (QualifiedKey st key) truth Hnw). }
  exists w'. split_and!; [exact (eq_trans Hget (f_equal (fun v => Ret (v, w')) Hown))|done|done|congruence].
Qed.

End served.

(** *** The first read of a transaction *)

Lemma get_served_witness :
  exists x w1 w', transaction_begin map_engine [] sample_node = Ret (x, w1)
    /\ get_internal map_engine
         [Wake (answer_value 2 (DataResponse [97; 0] oids_name (Success (Some [7])))) 2] 1 x Oids [5] false w1
       = Ret (Some [7], w')
    /\ unsent w' = stream [GZOCHID_DATA_PROTOCOL_REQUEST_VALUE
         :: [97; 0; 111; 105; 100; 115; 0; 0; 0; 1; 5]].
Proof.
  assert (Hi : idle (durable := committed) sample_truth 0 sample_node).
  { apply (started_idle map_engine); [by repeat eexists|done]. }
  pose proof (begin_reading map_engine (view := map_view) sample_truth 0 sample_node Hi) as Hr.
  destruct (transaction_begin map_engine [] sample_node) as [[x w1]| | |] eqn:Hb; [|vm_compute in Hb; discriminate Hb..].
  specialize (Hr _ eq_refl). cbn [fst snd] in Hr.
  pose proof (fun tx d H1 H2 => get_served map_engine (view := map_view) (durable := committed) sample_truth x d
    [] [] 1 2 w1 Oids [5] false tx
    (reading_later map_engine True sample_truth x d [] [] 0 1 w1 ltac:(lia) (Hr tx d H1 H2))) as Hs.
  clear Hr Hi. vm_compute in Hb. injection Hb as <- <-.
  edestruct Hs as (w' & Hget & _ & _ & Hu).
  - vm_compute. reflexivity.
  - vm_compute. reflexivity.
  - vm_compute. by repeat eexists.
  - vm_compute. reflexivity.
  - done.
  - split_and!; [done|done|by intros []].
  - done.
  - by exists [97]; repeat constructor.
  - done.
  - cbn. unfold G_MAXINT64. lia.
  - lia.
  - unfold clock_ok. lia.
  - done.
  - by intros (? & ?%not_elem_of_nil & _).
  - done.
  - eexists _, _, w'. split; [reflexivity|]. split; [exact Hget|exact Hu].
Defined.
