(* ===== verification/CacheDefects.v ===== *)
(** * The caching storage engine: runs that go wrong

    Concrete runs of a node over the reference engine [map_engine].  The answers of the
    meta server go through the data client, which finds the callback they are for, and
    the sources that it attached run when their time has come. *)

From S2P Require Import Prelude.
From S2P Require Import DataProtocol.
From S2P Require Import Itree.
From S2P Require Import LockMem.
From S2P Require Import Storage.
From S2P Require Import Socket.
From S2P Require Import Framing.
From S2P Require Import DataServer.
From S2P Require Import DataClient.
From S2P Require Import CacheEnv.
From S2P Require Import CacheLock.
From S2P Require Import CacheRange.
From S2P Require Import CacheTx.
From S2P Require Import CacheNode.

Local Open Scope Z_scope.

(** ** The node of the runs *)

Abbreviation node := (client_world cache_callback unit (dataclient_environment map_engine_state positive) unit).

Definition app : bytes := [97; 0].
Definition start : node :=
  ClientWorld (gzochid_data_client_constructed None None)
    (open Oids (initialize app (MapEngine ∅ ∅)))
    gzochid_reconnectable_socket_new ∅.

Definition granted (now : Z) (v : option bytes) : wake map_engine_state positive unit unit :=
  Wake (answer_value now (DataResponse app oids_name (Success v))) now.

Definition all_locks (m : gmap dataclient_qualified_key positive) := map_to_list m.

Abbreviation begin := (transaction_begin map_engine []).
Abbreviation get := (transaction_get map_engine).
Abbreviation put := (transaction_put map_engine).
Abbreviation del := (transaction_delete map_engine).
Abbreviation commit := (transaction_commit map_engine all_locks []).

(** A value that the node has not yet is borrowed, and read again from the cache. *)
Example value_is_borrowed :
  ('(x, w) ← begin start;
   '(v, w) ← get [granted 2 (Some [7])] 1 x Oids [5] w;
   '(v', w) ← get [] 3 x Oids [5] w;
   Ret (v, v', unsent w)) = Ret (Some [7], Some [7], frame (33 :: app ++ oids_name ++ [0; 0; 1; 5])).
Proof. vm_compute. reflexivity. Qed.

(** ** Deleting *)

(** A key that does not exist is deleted all the same. *)
Example delete_absent_key :
  ('(x, w) ← begin start;
   '(r, w) ← del [granted 2 None] 1 x Oids [5] w; Ret r) = Ret 0.
Proof. vm_compute. reflexivity. Qed.

(** A value that is put after the key was deleted is not read in the transaction. *)
Example put_after_delete_unread :
  ('(x, w) ← begin start;
   '(_, w) ← del [granted 2 (Some [7])] 1 x Oids [5] w;
   w ← put [] 3 3 x Oids [5] [8] w;
   '(v, w) ← get [] 4 x Oids [5] w; Ret v) = Ret None.
Proof. vm_compute. reflexivity. Qed.

(** An empty value that was put fails an assertion when it is read. *)
Example empty_value_aborts :
  ('(x, w) ← begin start;
   w ← put [granted 2 (Some [7])] 1 3 x Oids [5] [] w;
   get [] 4 x Oids [5] w) = Abort.
Proof. vm_compute. reflexivity. Qed.

(** ** Two requests for one key *)

Definition then_ (f g : node -> outcome node) (w : node) : outcome node := w ← f w; g w.

(** While one transaction waits for a write lock, another asks to read the key.  The answer
    to the first request serves both.  The first one writes and commits; then the second
    answer, which the meta server gave before, puts the old value in the cache. *)
Example late_answer_hides_commit :
  ('(x, w) ← begin start;
   '(y, w) ← begin w;
   let read_too : node -> outcome node := fun w =>
     '(_, w) ← get [granted 2 (Some [7])] 1 y Oids [5] w; Ret w in
   w ← put [Wake read_too 2] 1 3 x Oids [5] [8] w;
   w ← commit 4 x w;
   w ← answer_value 5 (DataResponse app oids_name (Success (Some [7]))) w;
   '(z, w) ← begin w;
   '(v, w) ← get [] 6 z Oids [5] w; Ret v) = Ret (Some [7]).
Proof. vm_compute. reflexivity. Qed.

(** Each of the answers has a source that gives up a reference, but only the first one
    counted: the lock is released and freed while a transaction holds it, and when that
    ends it reads the freed lock. *)
Example lock_freed_in_use :
  ('(x, w) ← begin start;
   '(y, w) ← begin w;
   let read_too : node -> outcome node := fun w =>
     '(_, w) ← get [granted 2 (Some [7])] 1 y Oids [5] w; Ret w in
   w ← put [Wake read_too 2] 1 3 x Oids [5] [8] w;
   w ← commit 4 x w;
   w ← answer_value 5 (DataResponse app oids_name (Success (Some [7]))) w;
   w ← run_source 1000 0 w;
   w ← run_source 1000 0 w;
   commit 1001 y w) = Undef.
Proof. vm_compute. reflexivity. Qed.

(** A key that is being evicted is still given to transactions that did not have it. *)
Example evicted_key_given :
  ('(x, w) ← begin start;
   '(_, w) ← get [granted 2 (Some [7])] 1 x Oids [5] w;
   w ← run_source 1000 0 w;
   '(y, w) ← begin w;
   '(v, w) ← get [] 1001 y Oids [5] w;
   Ret (v, ek_key <$> evicted_keys (caller w))) = Ret (Some [7], [QualifiedKey Oids [5]]).
Proof. vm_compute. reflexivity. Qed.

(** A refusal for ten seconds lets the node ask again after ten milliseconds. *)
Example refusal_waits_too_little : retry_time 5000 (Timeval 10 0) = 5000 + 10000.
Proof. reflexivity. Qed.

(** ** Keys in order *)

(** The first key of an empty store. *)
Example first_key_of_empty_store :
  ('(x, w) ← begin start;
   transaction_first_key [Wake (answer_key 2 (DataResponse app oids_name (Success None))) 2] 1 x Oids w) = Undef.
Proof. vm_compute. reflexivity. Qed.

(** A second transaction that asks for a range that was requested uses a variable that was
    not set. *)
Example second_range_request_unset :
  ('(x, w) ← begin start;
   '(y, w) ← begin w;
   let ask_too : node -> outcome node := fun w =>
     '(_, w) ← ensure_range_lock [] 1 y Oids None w; Ret w in
   ensure_range_lock [Wake ask_too 2] 1 x Oids None w) = Undef.
Proof. vm_compute. reflexivity. Qed.

(** Two range locks from the start of the store are compared by a function that does not
    take null. *)
Example null_bounds_compared :
  ('(x, w) ← begin start;
   '(_, w) ← transaction_first_key [Wake (answer_key 2 (DataResponse app oids_name (Success (Some [5])))) 2] 1 x Oids w;
   range_lock_success_callback (Some (GBytes 99 [5])) (CallbackData Oids None false) (caller w)) = Undef.
Proof. vm_compute. reflexivity. Qed.
