(* ===== verification/OidsDataClient.v ===== *)
(** * Blocks of object ids from the meta server (oids-dataclient.c)

    The allocation strategy of a node that is connected to a meta server: it asks the
    data client for a block and waits for the answer, which another thread of the node
    receives.  The structure that both hold is in a heap of [pending_responses]; the
    closure data of the callback is its address.  What happens while the strategy waits
    is a list of [wake]s: the answers that have arrived since the last one, whether the
    wait ended before its time, and the clock after it; a list that is too short is
    [Fuel]. *)

From S2P Require Import Prelude.
From S2P Require Import Util.
From S2P Require Import DataProtocol.
From S2P Require Import Tx.
From S2P Require Import Oids.
From S2P Require Import Socket.
From S2P Require Import Framing.
From S2P Require Import MetaProtocol.
From S2P Require Import DataClient.

Local Open Scope Z_scope.

Record oids_pending_response := PendingResponse {
  block : gzochid_data_oids_block;
  complete : bool;
  ref_count : Z
}.

Record pending_heap := PendingHeap {
  pending_responses : gmap positive oids_pending_response;
  next_response : positive
}.

Definition put_response (p : positive) (r : oids_pending_response) (h : pending_heap)
  : pending_heap := PendingHeap (<[p := r]> (pending_responses h)) (next_response h).

Definition create_oids_pending_response (h : pending_heap) : positive * pending_heap :=
  (next_response h,
   PendingHeap (<[next_response h := PendingResponse (OidsBlock 0 0) false 1]> (pending_responses h))
     (Pos.succ (next_response h))).

Definition oids_pending_response_ref (p : positive) (h : pending_heap) : outcome pending_heap :=
  r ← deref (pending_responses h !! p);
  Ret (put_response p (PendingResponse (block r) (complete r) (ref_count r + 1)) h).

Definition oids_pending_response_unref (p : positive) (h : pending_heap) : outcome pending_heap :=
  r ← deref (pending_responses h !! p);
  let count := ref_count r - 1 in
  if count =? 0
  then Ret (PendingHeap (base.delete p (pending_responses h)) (next_response h))
  else Ret (put_response p (PendingResponse (block r) (complete r) count) h).

Definition oids_callback (response : positive) (b : gzochid_data_oids_block) (h : pending_heap)
  : outcome pending_heap :=
  r ← deref (pending_responses h !! response);
  oids_pending_response_unref response
    (put_response response (PendingResponse b true (ref_count r)) h).

Record wake := Wake {
  arrived : list gzochid_data_reserve_oids_response;
  in_time : bool;
  wake_clock : timeval
}.

Section allocation.

Context {Fn D C L : Type}.
(** The enumeration of the participants of a transaction. *)
Context (values : gmap string (gzochid_transaction_participant_registration Fn D)
  -> list (gzochid_transaction_participant_registration Fn D)).

Abbreviation world := (client_world C positive pending_heap L).
Abbreviation st := (tx_thread Fn D world).

(** A heap operation in the world of a transaction. *)
Definition on_heap (f : pending_heap -> outcome pending_heap) (s : st) : outcome st :=
  h ← f (caller (Tx.world s));
  Ret (Tx.set_world (set_caller h (Tx.world s)) s).

Fixpoint receive_all (responses : list gzochid_data_reserve_oids_response) (w : world)
  : outcome world :=
  match responses with
  | [] => Ret w
  | r :: responses =>
      w ← gzochid_dataclient_received_oids oids_callback r w; receive_all responses w
  end.

Definition is_complete (p : positive) (s : st) : outcome bool :=
  r ← deref (pending_responses (caller (Tx.world s)) !! p); Ret (complete r).

(** [g_set_error] keeps an error that is already set. *)
Definition set_error (e : oids_error) (err : option oids_error) : option oids_error :=
  match err with Some e' => Some e' | None => Some e end.

Fixpoint timed_wait (wakes : list wake) (now : timeval) (p : positive) (err : option oids_error)
    (s : st) : outcome (option oids_error * st) :=
  done ← is_complete p s;
  if (done : bool) then Ret (err, s)
  else
    over ← gzochid_transaction_timed_out now s;
    if (over : bool) then Ret (err, s)
    else
      match wakes with
      | [] => Fuel
      | k :: wakes =>
          w ← receive_all (arrived k) (Tx.world s);
          let err := if in_time k then err else set_error OIDS_ERROR_TRANSACTION err in
          timed_wait wakes (wake_clock k) p err (Tx.set_world w s)
      end.

Fixpoint untimed_wait (wakes : list wake) (p : positive) (s : st) : outcome st :=
  done ← is_complete p s;
  if (done : bool) then Ret s
  else
    match wakes with
    | [] => Fuel
    | k :: wakes =>
        w ← receive_all (arrived k) (Tx.world s); untimed_wait wakes p (Tx.set_world w s)
    end.

(** The block, if the function returns [TRUE], and the error that was set. *)
Definition allocate (wakes : list wake) (now : timeval) (app : bytes) (s : st)
  : outcome (option gzochid_data_oids_block * option oids_error * st) :=
  refused ← (if gzochid_transaction_active s then gzochid_transaction_rollback_only values s
             else Ret false);
  if (refused : bool) then Ret (None, Some OIDS_ERROR_TRANSACTION, s)
  else
    let '(p, h) := create_oids_pending_response (caller (Tx.world s)) in
    let s := Tx.set_world (set_caller h (Tx.world s)) s in
    s ← on_heap (oids_pending_response_ref p) s;
    w ← gzochid_dataclient_reserve_oids app p (Tx.world s);
    let s := Tx.set_world w s in
    timed ← (if gzochid_transaction_active s then gzochid_transaction_timed s else Ret false);
    '(err, s) ← (if (timed : bool) then timed_wait wakes now p None s
                 else s ← untimed_wait wakes p s; Ret (None, s));
    r ← deref (pending_responses (caller (Tx.world s)) !! p);
    let result := if complete r
      then Some (OidsBlock (Oids.block_start (block r)) (Oids.block_size (block r))) else None in
    s ← on_heap (oids_pending_response_unref p) s;
    Ret (result, err, s).

(** The strategy as its users see it. *)
Definition gzochid_dataclient_oid_strategy_new (wakes : list wake) (now : timeval) (app : bytes)
    : gzochid_oid_allocation_strategy st bytes :=
  OidStrategy (fun app s =>
    '(result, err, s) ← allocate wakes now app s;
    match result, err with
    | Some b, _ => Ret (inl b, s)
    | None, Some e => Ret (inr e, s)
    | None, None => Undef  (* the user reads the error that was not set *)
    end) app.

End allocation.

(** ** An allocation that is answered *)

Section answered.

Context {Fn D C L : Type}.
Context {values : gmap string (gzochid_transaction_participant_registration Fn D)
  -> list (gzochid_transaction_participant_registration Fn D)}.

Abbreviation world := (client_world C positive pending_heap L).
Abbreviation st := (tx_thread Fn D world).

(** The callback for object ids that an application has. *)
Definition waiter (a : bytes) (w : world) : option positive :=
  application_callback_queues (dataclient w) !! a ≫= DataClient.oids_callback.

Definition block_of (r : gzochid_data_reserve_oids_response) : gzochid_data_oids_block :=
  OidsBlock (DataProtocol.block_start r) (DataProtocol.block_size r).

(** What an answer does: the callback, if there is one, is called and forgotten. *)
Lemma received_oids_spec (r : gzochid_data_reserve_oids_response) (w : world) :
  exists w1, unsent w1 = unsent w /\ caller w1 = caller w
    /\ (forall a, waiter a w1 = if decide (a = oids_app r) then None else waiter a w)
    /\ gzochid_dataclient_received_oids oids_callback r w
       = match waiter (oids_app r) w with
         | Some p => h ← oids_callback p (block_of r) (caller w); Ret (set_caller h w1)
         | None => Ret w1
         end.
Proof.
  unfold gzochid_dataclient_received_oids, acquire_callback_queue, waiter.
  destruct (application_callback_queues (dataclient w) !! oids_app r) as [[[p|] regs]|] eqn:Hq;
    cbn [mbind option_bind DataClient.oids_callback].
  - exists (put_queue (oids_app r) (CallbackQueue None regs) w). split_and!; [done|done| |].
    + intros a. simpl. case_decide as Ha; [subst; by rewrite lookup_insert_eq|by rewrite lookup_insert_ne].
    + cbn [callback_registrations]. by destruct (oids_callback p _ (caller w)).
  - exists w. split_and!; try done. intros a. case_decide as Ha; [subst; by rewrite Hq|done].
  - eexists. split_and!; [| | |done]; try done.
    intros a. simpl. case_decide as Ha; [subst; by rewrite lookup_insert_eq|by rewrite lookup_insert_ne].
Qed.

(** Nobody waits for the answers. *)
Lemma receive_all_idle (l : list gzochid_data_reserve_oids_response) : forall w : world,
  Forall (fun r => waiter (oids_app r) w = None) l ->
  exists w', receive_all l w = Ret w' /\ caller w' = caller w /\ unsent w' = unsent w
    /\ (forall a, waiter a w' = waiter a w).
Proof.
  induction l as [|r l IH]; intros w Hl; [by exists w|].
  inversion_clear Hl as [|? ? Hr Hl'].
  destruct (received_oids_spec r w) as (w1 & Hu & Hc & Hw & Hrun). rewrite Hr in Hrun.
  assert (Hsame : forall a, waiter a w1 = waiter a w)
    by (intros a; rewrite Hw; case_decide as Ha; [by subst|done]).
  destruct (IH w1) as (w' & Hrun' & Hc' & Hu' & Hw').
  { eapply Forall_impl; [exact Hl'|]. intros r' Hr'. by rewrite Hsame. }
  exists w'. simpl. rewrite Hrun. simpl. split_and!; [done|congruence|congruence|].
  intros a. by rewrite Hw', Hsame.
Qed.

Variables (app : bytes) (p : positive).

(** The request at [p] is the only one that waits. *)
Definition only_waiter (w : world) : Prop :=
  forall a, waiter a w = if decide (a = app) then Some p else None.

Lemma receive_others (l : list gzochid_data_reserve_oids_response) (w : world) :
  only_waiter w -> Forall (fun r => oids_app r <> app) l ->
  exists w', receive_all l w = Ret w' /\ caller w' = caller w /\ unsent w' = unsent w
    /\ only_waiter w'.
Proof.
  intros Hw Hl. destruct (receive_all_idle l w) as (w' & Hrun & Hc & Hu & Hsame).
  { eapply Forall_impl; [exact Hl|]. intros r Hr. by rewrite Hw, decide_False. }
  exists w'. split_and!; try done. intros a. by rewrite Hsame, Hw.
Qed.

Lemma receive_all_app (l1 l2 : list gzochid_data_reserve_oids_response) (w : world) :
  receive_all (l1 ++ l2) w = (w ← receive_all l1 w; receive_all l2 w).
Proof.
  revert w. induction l1 as [|r l1 IH]; intros w; [done|]. simpl.
  destruct (gzochid_dataclient_received_oids _ r w); [apply IH|done..].
Qed.

(** The first answer about the application completes the request. *)
Lemma receive_answer (l1 l2 : list gzochid_data_reserve_oids_response)
    (r : gzochid_data_reserve_oids_response) (w : world) (x : oids_pending_response) :
  only_waiter w -> Forall (fun r => oids_app r <> app) l1 -> oids_app r = app ->
  pending_responses (caller w) !! p = Some x -> ref_count x = 2 ->
  exists w', receive_all (l1 ++ r :: l2) w = Ret w' /\ unsent w' = unsent w
    /\ (forall a, waiter a w' = None)
    /\ caller w' = put_response p (PendingResponse (block_of r) true 1) (caller w).
Proof.
  intros Hw Hl1 Hr Hp Hcount. rewrite receive_all_app.
  destruct (receive_others l1 w Hw Hl1) as (w1 & -> & Hc1 & Hu1 & Hw1). run. cbn [receive_all].
  destruct (received_oids_spec r w1) as (w2 & Hu2 & Hc2 & Hw2 & ->).
  rewrite Hw1, decide_True by done. unfold oids_callback. rewrite Hc1, Hp. run.
  unfold oids_pending_response_unref. cbn [put_response pending_responses].
  rewrite lookup_insert_eq. run. cbn [ref_count block complete]. rewrite Hcount.
  change (2 - 1 =? 0) with false. run.
  assert (Hnone : forall h a, waiter a (set_caller h w2) = None).
  { intros h a. change (waiter a (set_caller h w2)) with (waiter a w2). rewrite Hw2, Hr.
    case_decide; [done|]. rewrite Hw1. by rewrite decide_False. }
  destruct (receive_all_idle l2 (set_caller (put_response p (PendingResponse (block_of r) true 1)
    (PendingHeap (<[p:=PendingResponse (block_of r) true 2]> (pending_responses (caller w)))
       (next_response (caller w)))) w2)) as (w' & Hrun & Hc & Hu & Hw').
  { apply Forall_forall. intros r' _. apply Hnone. }
  exists w'. split_and!.
  - rewrite <- Hrun. done.
  - rewrite Hu. change (unsent (set_caller _ w2)) with (unsent w2). congruence.
  - intros a. by rewrite Hw'.
  - rewrite Hc. unfold put_response. simpl. f_equal. apply insert_insert_eq.
Qed.

(** *** The wait *)

Definition waiting (s : st) (h : pending_heap) : Prop :=
  only_waiter (Tx.world s) /\ caller (Tx.world s) = h
  /\ exists b, pending_responses h !! p = Some (PendingResponse b false 2).

(** The request was completed with the answer [r]. *)
Definition fulfilled (r : gzochid_data_reserve_oids_response) (s : st) (h : pending_heap)
    (w' : world) : Prop :=
  (forall a, waiter a w' = None) /\ unsent w' = unsent (Tx.world s)
  /\ caller w' = put_response p (PendingResponse (block_of r) true 1) h.

(** The wakes: the first answer about the application comes with [k]. *)
Variables (before : list wake) (k : wake) (rest : list wake).
Variables (l1 l2 : list gzochid_data_reserve_oids_response).
Variable (r : gzochid_data_reserve_oids_response).
Hypothesis Hbefore : Forall (fun k => Forall (fun r => oids_app r <> app) (arrived k)) before.
Hypothesis Hk : arrived k = l1 ++ r :: l2.
Hypothesis Hl1 : Forall (fun r => oids_app r <> app) l1.
Hypothesis Hr : oids_app r = app.

Lemma waiting_incomplete (s : st) (h : pending_heap) : waiting s h -> is_complete p s = Ret false.
Proof. intros (_ & Hc & b & Hb). unfold is_complete. by rewrite Hc, Hb. Qed.

Lemma waiting_others (s : st) (h : pending_heap) (l : list gzochid_data_reserve_oids_response) :
  waiting s h -> Forall (fun r => oids_app r <> app) l ->
  exists w', receive_all l (Tx.world s) = Ret w' /\ waiting (Tx.set_world w' s) h
    /\ unsent w' = unsent (Tx.world s).
Proof.
  intros (Hw & Hc & Hb) Hl.
  destruct (receive_others l _ Hw Hl) as (w' & Hrun & Hc' & Hu & Hw').
  exists w'. split_and!; [done| |done]. split_and!; [done|simpl; congruence|done].
Qed.

Lemma waiting_answered (s : st) (h : pending_heap) :
  waiting s h ->
  exists w', receive_all (arrived k) (Tx.world s) = Ret w' /\ fulfilled r s h w'
    /\ is_complete p (Tx.set_world w' s) = Ret true.
Proof.
  intros (Hw & Hc & b & Hb). rewrite Hk. rewrite <- Hc in Hb.
  destruct (receive_answer l1 l2 r _ _ Hw Hl1 Hr Hb eq_refl) as (w' & Hrun & Hu & Hnone & Hc').
  exists w'. split_and!; [done|split_and!; [done..|by rewrite Hc', Hc]|].
  unfold is_complete. cbn [Tx.set_world Tx.world]. rewrite Hc'. simpl. by rewrite lookup_insert_eq.
Qed.

Lemma untimed_wait_ok (h : pending_heap) : forall s : st, waiting s h ->
  exists w', untimed_wait (before ++ k :: rest) p s = Ret (Tx.set_world w' s) /\ fulfilled r s h w'.
Proof.
  induction Hbefore as [|k0 ks Hk0 Hks IH]; intros s Hs; cbn [Datatypes.app untimed_wait].
  all: rewrite (waiting_incomplete s h Hs); run.
  - destruct (waiting_answered s h Hs) as (w' & -> & Hf & Hdone). run.
    exists w'. split; [|done]. destruct rest; cbn [untimed_wait]; by rewrite Hdone.
  - destruct (waiting_others s h (arrived k0) Hs Hk0) as (w1 & -> & Hs1 & Hu1). run.
    destruct (IH Hks _ Hs1) as (w' & Hrun & Hn & Hu & Hc). exists w'. rewrite Hrun.
    split; [done|]. split_and!; [done| |done]. rewrite Hu. exact Hu1.
Qed.

Lemma timed_wait_ok (h : pending_heap) : forall now err (s : st), waiting s h ->
  Forall (fun c => gzochid_transaction_timed_out c s = Ret false) (now :: (wake_clock <$> before)) ->
  exists err' w', timed_wait (before ++ k :: rest) now p err s = Ret (err', Tx.set_world w' s)
    /\ fulfilled r s h w'.
Proof.
  induction Hbefore as [|k0 ks Hk0 Hks IH]; intros now err s Hs Htime; cbn [Datatypes.app timed_wait].
  all: rewrite (waiting_incomplete s h Hs); run; rewrite (Forall_inv Htime); run.
  - destruct (waiting_answered s h Hs) as (w' & -> & Hf & Hdone). run.
    eexists _, w'. split; [|done]. destruct rest; cbn [timed_wait]; by rewrite Hdone.
  - destruct (waiting_others s h (arrived k0) Hs Hk0) as (w1 & -> & Hs1 & Hu1). run.
    destruct (IH Hks (wake_clock k0) (if in_time k0 then err else set_error OIDS_ERROR_TRANSACTION err)
      _ Hs1) as (err' & w' & Hrun & Hn & Hu & Hc); [by apply Forall_inv_tail in Htime|].
    exists err', w'. rewrite Hrun.
    split; [done|]. split_and!; [done| |done]. rewrite Hu. exact Hu1.
Qed.

End answered.

Section allocated.

Context {Fn D C L : Type}.
Context {values : gmap string (gzochid_transaction_participant_registration Fn D)
  -> list (gzochid_transaction_participant_registration Fn D)}.

Abbreviation world := (client_world C positive pending_heap L).
Abbreviation st := (tx_thread Fn D world).

Lemma reserve_oids_ok (app : bytes) (p : positive) (w : world) :
  cstring app -> uplink_ok w -> (forall a, waiter a w = None) ->
  exists w', gzochid_dataclient_reserve_oids app p w = Ret w'
    /\ only_waiter app p w' /\ caller w' = caller w
    /\ unsent w' = unsent w ++ stream [GZOCHID_DATA_PROTOCOL_REQUEST_OIDS :: app].
Proof.
  intros (a & Happ & Hnz) Hup Hidle. unfold gzochid_dataclient_reserve_oids.
  assert (Hlen : strlen app = Ret (Z.of_nat (length app) - 1)).
  { rewrite Happ, strlen_cstring by done. f_equal. rewrite length_app. simpl. lia. }
  rewrite Hlen. run. rewrite Z.sub_add.
  rewrite memcpy_from_all. run.
  destruct (acquire_queue_ok app w) as (queue & w1 & Hacq & _ & Hs & _ & Hup1 & _).
  specialize (Hs _ (fun _ => eq_refl) Hup).
  assert (Hq : DataClient.oids_callback queue = None /\ forall a, waiter a w1 = None).
  { unfold acquire_callback_queue in Hacq. specialize (Hidle app) as Hi. unfold waiter in Hi.
    destruct (application_callback_queues (dataclient w) !! app) as [q|] eqn:Hq;
      injection Hacq as <- <-; (split; [done|]); [done|].
    intros b. unfold waiter. simpl. destruct (decide (app = b)) as [->|Hne].
    - by rewrite lookup_insert_eq.
    - rewrite lookup_insert_ne by done. apply Hidle. }
  destruct Hq as [Hq Hw1]. rewrite Hacq.
  destruct (write_message_ok GZOCHID_DATA_PROTOCOL_REQUEST_OIDS app w1 (Hup1 Hup))
    as (w2 & Hwrite & Hs2 & Hd). rewrite Hwrite. run. rewrite Hq. simpl c_assert. run.
  eexists. split; [done|]. destruct Hs, Hs2. split_and!.
  - intros b. unfold waiter. simpl. rewrite Hd. case_decide as Hb.
    + subst b. by rewrite lookup_insert_eq.
    + rewrite lookup_insert_ne by done. apply Hw1.
  - simpl. congruence.
  - change (unsent (put_queue _ _ w2)) with (unsent w2).
    rewrite stepped_unsent0, stepped_unsent. by rewrite app_nil_r.
Qed.

Lemma on_heap_ref (p : positive) (w : world) (s : st) (x : oids_pending_response) :
  pending_responses (caller w) !! p = Some x ->
  on_heap (oids_pending_response_ref p) (Tx.set_world w s)
  = Ret (Tx.set_world (set_caller (put_response p (PendingResponse (block x) (complete x)
           (ref_count x + 1)) (caller w)) w) s).
Proof. intros Hx. unfold on_heap, oids_pending_response_ref. simpl. by rewrite Hx. Qed.

(** An allocation gets the block that the meta server reserved.  Asking for a block
    sends one request for the application, and when the first answer about it arrives
    while the transaction has time, whatever answers about others come before and however
    often the wait is interrupted, the result is the block of that answer; afterwards
    nothing waits for ids and the structure of the request is freed. *)
Theorem allocation_gets_block (app : bytes) (before rest : list wake) (k : wake)
    (l1 l2 : list gzochid_data_reserve_oids_response) (r : gzochid_data_reserve_oids_response)
    (now : timeval) (s : st)
    (Happ : cstring app) (Hup : uplink_ok (Tx.world s))
    (Hidle : forall a, waiter a (Tx.world s) = None)
    (Hfresh : pending_responses (caller (Tx.world s)) !! next_response (caller (Tx.world s)) = None)
    (Hallowed : gzochid_transaction_active s = true ->
       gzochid_transaction_rollback_only values s = Ret false
       /\ (gzochid_transaction_timed s = Ret false
           \/ gzochid_transaction_timed s = Ret true
              /\ Forall (fun c => gzochid_transaction_timed_out c s = Ret false)
                   (now :: (wake_clock <$> before))))
    (Hbefore : Forall (fun k => Forall (fun r => oids_app r <> app) (arrived k)) before)
    (Hk : arrived k = l1 ++ r :: l2) (Hl1 : Forall (fun r => oids_app r <> app) l1)
    (Hr : oids_app r = app) :
  exists err s',
    allocate values (before ++ k :: rest) now app s = Ret (Some (block_of r), err, s')
    /\ (forall a, waiter a (Tx.world s') = None)
    /\ pending_responses (caller (Tx.world s')) = pending_responses (caller (Tx.world s))
    /\ unsent (Tx.world s')
       = unsent (Tx.world s) ++ stream [GZOCHID_DATA_PROTOCOL_REQUEST_OIDS :: app].
Proof.
  unfold allocate. set (h0 := caller (Tx.world s)) in *. set (p := next_response h0) in *.
  assert ((if gzochid_transaction_active s then gzochid_transaction_rollback_only values s
           else Ret false) = Ret false) as ->.
  { destruct (gzochid_transaction_active s); [by apply Hallowed|done]. }
  run. unfold create_oids_pending_response at 1. fold p.
  rewrite (on_heap_ref p _ _ (PendingResponse (OidsBlock 0 0) false 1))
    by (simpl; apply lookup_insert_eq).
  run.
  match goal with |- context [gzochid_dataclient_reserve_oids app p ?w] => set (w1 := w) end.
  destruct (reserve_oids_ok app p w1 Happ Hup Hidle) as (w2 & -> & Hw2 & Hc2 & Hu2). run.
  match goal with |- context [Tx.set_world w2 ?x] => set (s2 := Tx.set_world w2 x) end.
  set (h2 := caller w1) in *.
  assert (Hwait : waiting app p s2 h2).
  { split_and!; [done|done|]. exists (OidsBlock 0 0). subst h2 w1. simpl. by rewrite lookup_insert_eq. }
  assert (Hrun : exists err w3,
    (timed ← (if gzochid_transaction_active s2 then gzochid_transaction_timed s2 else Ret false);
     (if (timed : bool) then timed_wait (before ++ k :: rest) now p None s2
      else s ← untimed_wait (before ++ k :: rest) p s2; Ret (None, s)))
    = Ret (err, Tx.set_world w3 s2) /\ fulfilled p r s2 h2 w3).
  { destruct (untimed_wait_ok app p before k rest l1 l2 r Hbefore Hk Hl1 Hr h2 s2 Hwait)
      as (w3 & Hw3 & Hf3).
    change (gzochid_transaction_active s2) with (gzochid_transaction_active s).
    change (gzochid_transaction_timed s2) with (gzochid_transaction_timed s).
    destruct (gzochid_transaction_active s).
    2: { exists None, w3. run. by rewrite Hw3. }
    destruct Hallowed as [_ [-> | [-> Htime]]]; [done| |].
    { exists None, w3. run. by rewrite Hw3. }
    run. by apply (timed_wait_ok app p before k rest l1 l2 r Hbefore Hk Hl1 Hr h2 now None s2). }
  destruct Hrun as (err & w3 & Hrun & Hnone & Hu3 & Hc3).
  apply bind_Ret in Hrun as (timed & -> & Hrun). run. rewrite Hrun. run.
  unfold on_heap, oids_pending_response_unref. cbn [Tx.set_world Tx.world]. rewrite Hc3.
  cbn [put_response pending_responses]. rewrite lookup_insert_eq. run.
  cbn [complete block ref_count]. change (1 - 1 =? 0) with true. run.
  eexists err, _. split; [done|]. split_and!.
  - exact Hnone.
  - simpl. subst h2 w1. simpl. rewrite !insert_insert_eq. by rewrite delete_insert_id.
  - etrans; [exact Hu3|exact Hu2].
Qed.

End allocated.

(** ** Concrete runs *)

Abbreviation sample_state := (tx_thread unit unit (client_world unit positive pending_heap unit)).

Definition sample_world : client_world unit positive pending_heap unit :=
  ClientWorld (gzochid_data_client_constructed None None) (PendingHeap ∅ 1)
    gzochid_reconnectable_socket_new ∅.

(** In a transaction that began at time 0 and may take five seconds. *)
Definition sample_timing : gzochid_transaction_timing := TxTiming (Timeval 0 0) (Some (Timeval 5 0)).
Definition sample_thread : sample_state :=
  TxThread (Some (Transaction 1 ∅ ACTIVE (Some sample_timing))) (Some sample_timing) 2 sample_world.

Definition sample_values (m : gmap string (gzochid_transaction_participant_registration unit unit))
  : list (gzochid_transaction_participant_registration unit unit) := (map_to_list m).*2.

Definition sample_answer (app : Z) (start : Z) : gzochid_data_reserve_oids_response :=
  ReserveOidsResponse [app; 0] start 100.

Lemma allocation_gets_block_witness :
  exists err s',
    allocate sample_values
      ([Wake [sample_answer 98 900] true (Timeval 1 0)]
       ++ Wake ([] ++ sample_answer 97 500 :: [sample_answer 97 600]) false (Timeval 2 0) :: [])
      (Timeval 0 5) [97; 0] sample_thread
    = Ret (Some (block_of (sample_answer 97 500)), err, s')
    /\ (forall a, waiter a (Tx.world s') = None)
    /\ pending_responses (caller (Tx.world s')) = pending_responses (caller sample_world)
    /\ unsent (Tx.world s')
       = unsent sample_world ++ stream [GZOCHID_DATA_PROTOCOL_REQUEST_OIDS :: [97; 0]].
Proof.
  apply (allocation_gets_block [97; 0]) with (l1 := []) (l2 := [sample_answer 97 600]) (s := sample_thread).
  - exists [97]. by repeat constructor.
  - done.
  - done.
  - done.
  - intros _. split; [done|]. right. split; [done|]. repeat constructor.
  - by repeat constructor.
  - done.
  - done.
  - done.
Defined.

(** A wait that ends before its time leaves an error beside the block. *)
Example early_wake_leaves_error :
  (r ← allocate sample_values
         [Wake [] false (Timeval 1 0); Wake [sample_answer 97 500] true (Timeval 2 0)]
         (Timeval 0 5) [97; 0] sample_thread; Ret r.1)
  = Ret (Some (OidsBlock 500 100), Some OIDS_ERROR_TRANSACTION).
Proof. reflexivity. Qed.

(** A transaction whose time is over when the wait begins gets neither a block nor an
    error; the caller then reads the error. *)
Example late_allocation_has_no_error :
  (r ← allocate sample_values [] (Timeval 6 0) [97; 0] sample_thread; Ret r.1)
  = Ret (None, None).
Proof. reflexivity. Qed.

Example late_allocation_reads_no_error :
  gzochid_oids_reserve_block (gzochid_dataclient_oid_strategy_new sample_values [] (Timeval 6 0) [97; 0])
    sample_thread = Undef.
Proof. reflexivity. Qed.

(** An allocation that was given up leaves its callback, which the next one does not
    allow. *)
Example abandoned_request_aborts_next :
  ('(_, _, s) ← allocate sample_values [Wake [] false (Timeval 6 0)] (Timeval 0 5) [97; 0] sample_thread;
   allocate sample_values [] (Timeval 0 5) [97; 0] (Tx.set_timing (Some sample_timing) s))
  = Abort.
Proof. reflexivity. Qed.
