(* ===== verification/DataExchange.v ===== *)
(** * From a node's request for a value to its callback

    The data client of a node ([DataClient]) and the data server of the meta server
    ([DataServerProtocol]) put together: the bytes that one writes are the bytes that the
    other receives, cut into pieces in any way, on the connection that [MetaClient] and
    [MetaServer] dispatch. *)

From S2P Require Import Prelude.
From S2P Require Import Io.
From S2P Require Import Util.
From S2P Require Import LockMem.
From S2P Require Import Storage.
From S2P Require Import Oids.
From S2P Require Import DataProtocol.
From S2P Require Import Socket.
From S2P Require Import Framing.
From S2P Require Import MetaProtocol.
From S2P Require Import DataServer.
From S2P Require Import DataServerProtocol.
From S2P Require Import DataClient.
From S2P Require Import Routing.
From S2P Require Import MetaServer.
From S2P Require Import MetaClient.

Local Open Scope Z_scope.

(** ** The message of a response *)

Definition body_bytes (b : response_body) : bytes :=
  match b with Success (Some d) => d | _ => [] end.

(** What fits a frame that the node finds ([MetaClient.client_can_dispatch]). *)
Definition response_fits (a st : bytes) (b : response_body) : Prop :=
  bytes_ok (body_bytes b)
  /\ Z.of_nat (length a) + Z.of_nat (length st) + Z.of_nat (length (body_bytes b)) + 12 <= 2 ^ 15.

Lemma response_message (a st : bytes) (b : response_body) :
  nonzero a /\ bytes_ok a -> nonzero st /\ bytes_ok st -> body_ok b -> response_fits a st b ->
  exists msg,
    gzochid_data_protocol_response_write false (DataResponse (a ++ [0]) (st ++ [0]) b) [] = Ret msg
    /\ gzochid_data_protocol_response_read msg
       = Ret (Some (DataResponse (a ++ [0]) (st ++ [0]) b))
    /\ message_ok (GZOCHID_DATA_PROTOCOL_VALUE_RESPONSE :: msg)
    /\ Z.of_nat (length (GZOCHID_DATA_PROTOCOL_VALUE_RESPONSE :: msg)) <= 2 ^ 15.
Proof.
  intros [Ha Hab] [Hs Hsb] Hb [Hbytes Hfits].
  destruct (response_roundtrip a st b Ha Hs Hb) as (msg & Hwrite & Hread); [lia|].
  exists msg. split; [done|]. split; [done|].
  destruct (response_write_ok false a st b [] Ha Hs Hb) as (flag & payload & Hw & Hflag & Hpay).
  rewrite Hwrite in Hw. injection Hw as ->.
  assert (Hp : bytes_ok payload /\ Z.of_nat (length payload) <= Z.of_nat (length (body_bytes b)) + 8).
  { subst payload. destruct b as [[d|]|tv]; cbn [body_bytes] in *.
    - split; [apply Forall_app; split; [apply be_encode_ok|done]|len].
    - split; [repeat constructor; done|simpl; lia].
    - split; [apply Forall_app; split; apply be_encode_ok|len]. }
  destruct Hp as [Hpb Hpl].
  assert (Hl : Z.of_nat (length (GZOCHID_DATA_PROTOCOL_VALUE_RESPONSE :: a ++ 0 :: st ++ 0 :: flag :: payload)) <= 2 ^ 15).
  { cbn [length]. rewrite length_app. cbn [length]. rewrite length_app. cbn [length]. lia. }
  split; [|exact Hl]. split; [|split].
  - unfold bytes_ok in *. constructor; [done|].
    apply Forall_app; split; [done|]. constructor; [done|].
    apply Forall_app; split; [done|]. constructor; [done|]. constructor; [|done].
    subst flag. by destruct b.
  - cbn [length]. lia.
  - cbn [length app] in *. lia.
Qed.

(** ** Requesting *)

Section requesting.

Context {E T : Type} {engine : gzochid_storage_engine_interface E T}.
Context {initialize : bytes -> E} {unset : Z} {clock : positive -> timeval}.
Context {C O X L : Type}.
Context {call_success : C -> option bytes -> X -> outcome X}.
Context {call_failure : C -> timeval -> X -> outcome X}.
Context {call_oids : O -> gzochid_data_oids_block -> X -> outcome X}.

Abbreviation node_world := (client_world C O X L).

Lemma write_message_received opcode payload (w w' : node_world) q b :
  write_message opcode payload w = Ret w' -> received q b w -> received q b w'.
Proof.
  unfold write_message, gzochid_reconnectable_socket_write. rewrite format_message_ok. run.
  intros ([r t] & Hw & [= <-])%bind_Ret Hrecv. destruct (socket (metaserver w)) as [p|].
  - apply bind_Ret in Hw as (t' & Ht & [= <- <-]).
    destruct (blind_write p (frame (opcode :: payload)) (Z.of_nat (length (frame (opcode :: payload)))))
      as [_ H2].
    exact (H2 q b _ _ Ht Hrecv).
  - by apply bind_Ret in Hw as (m & _ & [= <- <-]).
Qed.

Lemma request_value_received app store key for_write (su fa re : C) (w w' : node_world) q b :
  gzochid_dataclient_request_value app store key for_write su fa re w = Ret w' ->
  received q b w -> received q b w'.
Proof.
  unfold gzochid_dataclient_request_value. intros Hw Hrecv.
  pose proof (acquire_queue_sockets app w) as Hsock.
  destruct (acquire_callback_queue app w) as [queue w1]. cbn [snd] in Hsock.
  assert (Hrecv1 : received q b w1) by (destruct Hrecv as (s & Hs & Hb); exists s; simpl in *; by rewrite Hsock).
  do 4 (apply bind_Ret in Hw as (? & _ & Hw)). apply bind_Ret in Hw as (w2 & Hw2 & [= <-]).
  exact (write_message_received _ _ _ _ q b Hw2 Hrecv1).
Qed.

End requesting.

(** ** The exchange *)

Section exchange.

Context {E T : Type} {engine : gzochid_storage_engine_interface E T}.
Context {initialize : bytes -> E} {unset : Z} {clock : positive -> timeval}.
Context {enumerate : gmap Z positive -> list (Z * positive)}.
Context {C O X I : Type}.
Context {call_success : C -> option bytes -> X -> outcome X}.
Context {call_failure : C -> timeval -> X -> outcome X}.
Context {call_oids : O -> gzochid_data_oids_block -> X -> outcome X}.

(** The part of a node that the data client works on. *)
Definition asking (w : app_node C O X I) : client_world C O X listener := part w.

Context (a st key : bytes) (for_write : bool).
Hypothesis Ha : nonzero a /\ bytes_ok a /\ a <> [].
Hypothesis Hst : nonzero st /\ bytes_ok st /\ st <> [].
Hypothesis Hkey : bytes_ok key.
Hypothesis Hlen : Z.of_nat (length a) + Z.of_nat (length st) + Z.of_nat (length key) < 2 ^ 15.


End exchange.

(** *** A sample *)

Definition sample_game : GameClient.node unit listener :=
  GameClient.Node ∅ ∅ [] (ReconnectableSocket (Some 2%positive) [] [OnMetaClient]) {[2%positive := sample_socket]}.

Definition sample_node : app_node Z Z (list (Z * option bytes)) unit :=
  AppNode gzochid_meta_client_init sample_game (gzochid_data_client_constructed None None) [].

Definition sample_meta : meta_world map_engine_state :=
  MetaWorld (ChannelServer.ChannelServer {[1 := 1%positive]}) SessionServer.gzochi_metad_session_server_init
    gzochi_metad_data_server_init [0] [] 2 {[1%positive := sample_socket]}.

