(* ===== verification/MetaLogin.v ===== *)
(** * A node at the meta server (metaclient.c, metaserver-protocol.c)

    Both ends of the connection of a node together: how it comes to be known to the meta
    server, and what is left there when its connection fails. *)

From S2P Require Import Prelude.
From S2P Require Import Io.
From S2P Require Import Util.
From S2P Require Import DataProtocol.
From S2P Require Import NodeMap.
From S2P Require Import LockMem.
From S2P Require Import Storage.
From S2P Require Import Oids.
From S2P Require Import Socket.
From S2P Require Import Framing.
From S2P Require Import MetaProtocol.
From S2P Require Import Routing.
From S2P Require Import GameClient.
From S2P Require SessionServer.
From S2P Require ChannelServer.
From S2P Require SessionClient.
From S2P Require ChannelClient.
From S2P Require Import DataServer.
From S2P Require Import DataServerProtocol.
From S2P Require DataClient.
From S2P Require Import MetaServer.
From S2P Require Import MetaClient.

Local Open Scope Z_scope.

(** ** The messages of a log in *)

Definition login_message (url : bytes) : bytes :=
  GZOCHID_META_PROTOCOL_LOGIN :: GZOCHID_METACLIENT_PROTOCOL_VERSION :: url ++ [0].

Definition login_answer (url : bytes) : bytes :=
  GZOCHID_META_PROTOCOL_LOGIN_RESPONSE :: METASERVER_PROTOCOL_VERSION :: url ++ [0].

(** An address that fits a message. *)
Definition url_ok (url : bytes) : Prop :=
  nonzero url /\ bytes_ok url /\ Z.of_nat (length url) < 2 ^ 15.

(** One whose answer is a message that the node finds ([MetaClient.client_can_dispatch]). *)
Definition answer_ok (url : bytes) : Prop := url_ok url /\ Z.of_nat (length url) + 3 <= 2 ^ 15.

Lemma append_cstr (arr url : bytes) :
  byte_array_append arr (url ++ [0]) (Z.of_nat (length url) + 1) = Ret (arr ++ url ++ [0]).
Proof.
  replace (Z.of_nat (length url) + 1) with (Z.of_nat (length (url ++ [0]))) by (rewrite length_app; simpl; lia).
  by rewrite byte_array_append_all.
Qed.

Lemma login_response_ok (url : bytes) : nonzero url -> login_response (url ++ [0]) = Ret (frame (login_answer url)).
Proof.
  intros Hn. unfold login_response. rewrite strlen_cstring by done. run.
  change 4 with (Z.of_nat (length [0; 0; GZOCHID_META_PROTOCOL_LOGIN_RESPONSE; METASERVER_PROTOCOL_VERSION])).
  rewrite byte_array_append_all. run. rewrite append_cstr. run.
  rewrite (be_write (BigEndian := short_codec)), (be_encode_signed 2) by lia.
  change (([] ++ [0; 0; GZOCHID_META_PROTOCOL_LOGIN_RESPONSE; METASERVER_PROTOCOL_VERSION]) ++ url ++ [0])
    with ([] ++ [0; 0] ++ login_answer url).
  rewrite (write_at_mid [] [0; 0]) by (done || by rewrite be_encode_length).
  cbn [app]. f_equal. apply frame_prefix. unfold login_answer. len.
Qed.

Lemma metaclient_format_message_ok (opcode : Z) (payload : bytes) :
  format_message opcode payload
  = Ret (frame (opcode :: payload), Z.of_nat (length (frame (opcode :: payload)))).
Proof. exact (DataClient.format_message_ok opcode payload). Qed.

Lemma login_message_ok (opcode : Z) (url : bytes) :
  byte_ok opcode -> url_ok url -> message_ok (opcode :: 2 :: url ++ [0]).
Proof.
  intros Hop (_ & Hb & Hlen). split.
  - constructor; [done|]. constructor; [done|]. apply Forall_app. split; [done|]. by constructor.
  - cbn [length]. rewrite length_app. cbn [length]. lia.
Qed.

(** Reading the address behind the version. *)
Lemma read_url (v : Z) (url : bytes) :
  url_ok url ->
  gzochid_protocol_read_str (url ++ [0]) (u64 (Z.of_nat (length (v :: url ++ [0])) - 1))
  = Ret (Some (url ++ [0], Z.of_nat (length url) + 1)).
Proof.
  intros (Hn & _ & Hlen). apply read_str_ok; [done|]. cbn [length]. rewrite length_app. cbn [length].
  rewrite u64_small by lia. lia.
Qed.

(** ** Connecting *)

Section node.

Context {C O X I : Type}.
Abbreviation world := (app_node C O X I).

(** The state of a node with a new connection. *)
Record about_to_connect (q : positive) (url out : bytes) (sk : gzochid_client_socket) (w : world) : Prop := {
  at_thread : thread (metaclient w) = Some (Attempted q);
  at_running : running (metaclient w) = true;
  at_url : admin_server_base_url (metaclient w) = Some (url ++ [0]);
  at_uplink : uplink (game w) = ReconnectableSocket None out [OnMetaClient];
  at_socket : node_sockets (game w) !! q = Some sk;
  at_listening : sock_server sk = true /\ send_buffer sk = [] /\ 1 <= Socket.ref_count sk
}.

(** What it is like then. *)
Definition connected_node (q : positive) (url out : bytes) (sk : gzochid_client_socket) (w : world) : world :=
  let w := set_uplink (ReconnectableSocket (Some q) [] [OnMetaClient])
             (<[q := with_send (frame (login_message url) ++ out) true sk]> (node_sockets (game w))) w in
  set_metaclient (set_loop true (set_thread InLoop (metaclient w))) w.

Lemma handle_events_connects (r : network_result) q url out sk (w : world) :
  about_to_connect q url out sk w -> url_ok url ->
  handle_events r w = Ret (connected_node q url out sk w).
Proof.
  intros [Ht Hr Hurl Hup Hsk (Hs & Hb & Hc)] (Hn & _ & _). unfold handle_events. rewrite Ht.
  unfold to_socket. rewrite Hup. unfold gzochid_reconnectable_socket_connect. cbn [socket].
  rewrite bool_decide_true by done. cbn [c_assert mbind outcome_bind].
  unfold gzochid_client_socket_ref. rewrite Hsk. run. cbn [listeners call_listeners on_connect].
  rewrite Hurl. run. rewrite strlen_cstring by done. run.
  change (byte_array_append [] [GZOCHID_METACLIENT_PROTOCOL_VERSION] 1)
    with (Ret [GZOCHID_METACLIENT_PROTOCOL_VERSION] : outcome bytes). run. rewrite append_cstr. run.
  rewrite metaclient_format_message_ok. run. unfold gzochid_reconnectable_socket_write. cbn [socket].
  rewrite (write_ok q _ _ (with_count (Socket.ref_count sk + 1) sk)) by (done || by rewrite lookup_insert_eq).
  run. cbn [outbound_messages listeners socket deref].
  set (t1 := <[q := _]> (<[q := _]> (node_sockets (game w)))). cbn [mbind outcome_bind].
  assert (Hflush : forall b, t1 !! q = Some (with_send b true (with_count (Socket.ref_count sk + 1) sk)) ->
    (if 0 <? Z.of_nat (length out)
     then t ← gzochid_client_socket_write q out (Z.of_nat (length out)) t1;
          Ret (ReconnectableSocket (Some q) [] [OnMetaClient], (w, t))
     else Ret (ReconnectableSocket (Some q) out [OnMetaClient], (w, t1)))
    = Ret (ReconnectableSocket (Some q) [] [OnMetaClient],
           (w, <[q := with_send (b ++ out) true (with_count (Socket.ref_count sk + 1) sk)]> t1))).
  { intros b Hq. destruct out as [|x out].
    - rewrite app_nil_r. cbn. by rewrite (insert_id t1).
    - destruct (Z.ltb_spec 0 (Z.of_nat (length (x :: out)))); [|simpl in *; lia].
      by rewrite (write_ok q _ t1 _ Hq). }
  rewrite (Hflush (frame (login_message url))) by (unfold t1; rewrite lookup_insert_eq; cbn; by rewrite Hb).
  cbn [mbind outcome_bind]. unfold gzochid_client_socket_unref. cbn [sockets_of sockets_snd sockets_self snd].
  rewrite lookup_insert_eq. cbn [deref mbind outcome_bind Socket.ref_count with_send with_count].
  destruct (Z.eqb_spec (Socket.ref_count sk + 1 - 1) 0); [lia|].
  cbn [mbind outcome_bind set_sockets sockets_snd sockets_self fst]. unfold t1. rewrite !insert_insert_eq.
  assert (Hk : with_count (Socket.ref_count sk + 1 - 1)
                 (with_send (frame (login_message url) ++ out) true (with_count (Socket.ref_count sk + 1) sk))
               = with_send (frame (login_message url) ++ out) true sk).
  { unfold with_count, with_send. cbn. f_equal. lia. }
  rewrite Hk. cbn. by rewrite Hr.
Qed.

(** The answer to the log in. *)
Lemma login_answered (call_success : C -> option bytes -> X -> outcome X) call_failure
    (call_oids : O -> gzochid_data_oids_block -> X -> outcome X) (url : bytes) (w : world) :
  url_ok url ->
  MetaClient.route call_success call_failure call_oids (login_answer url) w
  = Ret (set_metaclient (MetaClient.gzochid_event_dispatch
           (META_SERVER_CONNECTED (MetaClient.connection_description (metaclient w)) (Some (url ++ [0])))
           (metaclient w)) w).
Proof.
  intros Hurl. unfold MetaClient.route, login_answer. rewrite Z.eqb_refl.
  unfold dispatch_login_response. change (read_at (METASERVER_PROTOCOL_VERSION :: url ++ [0]) 0)
    with (Ret METASERVER_PROTOCOL_VERSION). run.
  change (METASERVER_PROTOCOL_VERSION =? GZOCHID_METACLIENT_PROTOCOL_VERSION) with true. cbn [negb drop].
  rewrite (read_url _ url Hurl). cbn [mbind outcome_bind].
  destruct (Z.ltb_spec 0 (Z.of_nat (length url) + 1)); [done|lia].
Qed.

End node.

(** ** Logging in *)

Section login.

Context {E T : Type} {engine : gzochid_storage_engine_interface E T} {initialize : bytes -> E}.
Context {big_endian : bool} {unset : Z} {clock : positive -> timeval}.
Context {enumerate : gmap Z positive -> list (Z * positive)}.

Abbreviation world := (meta_world E).
Abbreviation server_route := (MetaServer.route engine initialize big_endian unset clock enumerate).

(** The meta server with a node that has logged in. *)
Definition logged_in (n : Z) (p : positive) (url answer : bytes) (sk : gzochid_client_socket) (w : world) : world :=
  MetaWorld
    (ChannelServer.ChannelServer (<[n := p]> (ChannelServer.connected_servers (channelserver w))))
    (SessionServer.with_servers (<[n := p]> (SessionServer.connected_servers (sessionserver w))) (sessionserver w))
    (dataserver w) (MetaServer.admin_server_base_url w)
    (MetaServer.event_source w ++ [CLIENT_CONNECTED n (Socket.connection_description sk)
                          (if bool_decide (url = []) then None else Some (url ++ [0]))])
    (next_node_id w)
    (<[p := with_send (send_buffer sk ++ frame (login_answer answer)) true sk]> (meta_sockets w)).

Lemma login_routed (n : Z) (p : positive) (url answer : bytes) (sk : gzochid_client_socket) (w : world) :
  0 <= n < 2 ^ 31 -> url_ok url -> url_ok answer ->
  MetaServer.admin_server_base_url w = answer ++ [0] ->
  meta_sockets w !! p = Some sk -> sock_server sk = true ->
  ChannelServer.connected_servers (channelserver w) !! n = None ->
  SessionServer.connected_servers (sessionserver w) !! n = None ->
  server_route (MetaServerClient n p) (login_message url) w = Ret (logged_in n p url answer sk w).
Proof.
  intros Hn Hurl (Ha & _) Hanswer Hsk Hs Hc Hss. unfold MetaServer.route, login_message. rewrite Z.eqb_refl.
  unfold dispatch_login. change (read_at (GZOCHID_METACLIENT_PROTOCOL_VERSION :: url ++ [0]) 0)
    with (Ret GZOCHID_METACLIENT_PROTOCOL_VERSION). run.
  change (GZOCHID_METACLIENT_PROTOCOL_VERSION =? METASERVER_PROTOCOL_VERSION) with true. cbn [negb drop].
  rewrite (read_url _ url Hurl). cbn [mbind outcome_bind MetaServer.sock]. rewrite Hsk. run.
  unfold login_node. cbn [MetaServer.node_id MetaServer.sock].
  rewrite (signed_small 32) by (unfold in_signed; lia || done).
  unfold ChannelServer.gzochi_metad_channelserver_server_connected,
    SessionServer.gzochi_metad_sessionserver_server_connected. rewrite Hc, Hss. cbn. rewrite Hanswer.
  rewrite login_response_ok by done. run. rewrite (write_ok p _ _ sk) by done. run.
  assert (Hu : (1 <? Z.of_nat (length url) + 1) = negb (bool_decide (url = []))).
  { destruct url as [|b url]; [done|]. rewrite bool_decide_false by done. apply Z.ltb_lt. cbn [length]. lia. }
  unfold logged_in. cbn. rewrite Hu, Hanswer. by destruct (bool_decide (url = [])).
Qed.

Context {C O X I : Type}.
Context {call_success : C -> option bytes -> X -> outcome X}.
Context {call_failure : C -> timeval -> X -> outcome X}.
Context {call_oids : O -> gzochid_data_oids_block -> X -> outcome X}.

(** C34. A node that has connected logs in before anything else.  Giving the connection to the
    others sends the log in, and after it what the node had written while it was not
    connected.  The meta server, in whatever pieces this arrives, enters the node in the
    tables of the channel and session servers, announces it, answers with its address, and
    only then treats the other messages, each by the component it is for.  The answer, in
    whatever pieces, makes the node announce the meta server, if it is not longer than 2^15
    bytes ([long_message_unseen]). *)
Theorem node_logs_in (r : network_result) (q p : positive) (n : Z) (url answer : bytes) (ms : list bytes)
    (sk sk' : gzochid_client_socket) (w : app_node C O X I) (W : world)
    (Hw : about_to_connect q url (stream ms) sk w) (Hrecv : recv_buffer sk = [])
    (Hurl : url_ok url) (Hanswer : answer_ok answer) (Hn : 0 <= n < 2 ^ 31)
    (HW : MetaServer.admin_server_base_url W = answer ++ [0])
    (Hsk : meta_sockets W !! p = Some sk') (Hserver : sock_server sk' = true) (Hrecv' : recv_buffer sk' = [])
    (Hc : ChannelServer.connected_servers (channelserver W) !! n = None)
    (Hs : SessionServer.connected_servers (sessionserver W) !! n = None)
    (Hms : Forall (fun m => message_ok m /\ metaserver_readable m) ms)
    (Hlen : Z.of_nat (length (stream ms)) < 2 ^ 30) :
  let client := MetaServerClient n p in
  exists w1 sk1, handle_events r w = Ret w1
    /\ thread (metaclient w1) = Some InLoop /\ socket (uplink (game w1)) = Some q
    /\ node_sockets (game w1) !! q = Some sk1 /\ send_buffer sk1 = stream (login_message url :: ms)
    /\ (forall fills, concat (concat fills) = send_buffer sk1 ->
         feed (P := gzochi_metad_metaserver_client_protocol engine initialize big_endian unset clock
                      enumerate client) p fills W
         = messages (server_route client) ms (logged_in n p url answer sk' W))
    /\ (forall fills, concat (concat fills) = frame (login_answer answer) ->
         feed (P := gzochid_metaclient_client_protocol call_success call_failure call_oids) q fills w1
         = Ret (set_metaclient (MetaClient.gzochid_event_dispatch
             (META_SERVER_CONNECTED (MetaClient.connection_description (metaclient w)) (Some (answer ++ [0])))
             (metaclient w1)) w1)).
Proof.
  destruct Hanswer as [Hanswer Hshort]. cbv zeta. exists (connected_node q url (stream ms) sk w).
  eexists. split; [by apply handle_events_connects|]. split; [done|]. split; [done|].
  split; [cbn; apply lookup_insert_eq|]. split; [done|]. split.
  - intros fills Hfills. cbn [send_buffer with_send] in Hfills.
    assert (Hlogin : message_ok (login_message url)) by (by apply login_message_ok).
    rewrite (feed_messages p fills (login_message url :: ms)); [|by exists sk'| |done|].
    + cbn [messages]. by rewrite (login_routed n p url answer sk').
    + constructor; [|done]. split; [done|]. by intros ?.
    + rewrite stream_cons, length_app, frame_length. destruct Hlogin as (_ & _ & ?). lia.
  - intros fills Hfills. rewrite (feed_one q fills (login_answer answer)); [|eexists| |  |done].
    + by rewrite login_answered.
    + split; [cbn; apply lookup_insert_eq|done].
    + by apply login_message_ok.
    + split; [by intros ?|]. split; [by intros ?|]. unfold login_answer. len.
Qed.

(** A message of more than 2^15 bytes at the beginning of what a node has received is never
    found: its length is negative as a [short], and large as an unsigned number. *)
Lemma long_message_unseen (m rest : bytes) (w : app_node C O X I) :
  2 ^ 15 < Z.of_nat (length m) < 2 ^ 16 - 2 -> Z.of_nat (length (frame m ++ rest)) < 2 ^ 31 ->
  MetaClient.client_can_dispatch (frame m ++ rest) w = Ret false.
Proof.
  intros Hm Hlen. unfold MetaClient.client_can_dispatch.
  destruct (3 <=? Z.of_nat (length (frame m ++ rest))); [|done].
  assert (Hf : frame m ++ rest = be_encode 2 (Z.of_nat (length m) - 1) ++ m ++ rest)
    by (unfold frame; by rewrite <- app_assoc).
  rewrite Hf in Hlen |- *. rewrite (read_encoded_0 (Hbe := short_codec)). run. f_equal.
  change (8 * Z.of_nat 2) with 16. rewrite ?signed_mod. apply Z.leb_gt.
  assert (Hs : signed 16 (Z.of_nat (length m) - 1) = Z.of_nat (length m) - 1 - 2 ^ 16).
  { unfold signed. replace (Z.of_nat (length m) - 1 + 2 ^ (16 - 1))
      with (Z.of_nat (length m) - 1 - 2 ^ 15 + 1 * 2 ^ 16) by lia.
    rewrite Z_mod_plus_full, Z.mod_small by lia. lia. }
  rewrite Hs. unfold unsigned.
  replace (Z.of_nat (length m) - 1 - 2 ^ 16 + 3)
    with (Z.of_nat (length m) + 2 - 2 ^ 16 + 2 ^ 32 + (-1) * 2 ^ 32) by lia.
  rewrite Z_mod_plus_full, Z.mod_small by lia. lia.
Qed.

End login.

(** ** Leaving *)

Section leaving.

Context {E T : Type} {engine : gzochid_storage_engine_interface E T}.
Context {view : T -> E -> contents} {durable : E -> contents}.
Context {initialize : bytes -> E} {big_endian : bool} {unset : Z} {clock : positive -> timeval}.
Context {enumerate : gmap Z positive -> list (Z * positive)}.

(** A node without range locks in an application. *)
Definition no_ranges (n : Z) (x : gzochi_metad_dataserver_application_store E) : Prop :=
  ranges_of (nodes_to_locks (oids_locks x)) n = [] /\ ranges_of (nodes_to_locks (names_locks x)) n = [].

Lemma release_table_ends (t : gzochid_lock_table) (n : Z) :
  lock_inv t -> ranges_of (nodes_to_locks t) n = [] -> exists t', gzochid_lock_release_all t n = Ret t'.
Proof.
  intros Hinv Hr. destruct (release_all_cases t n Hinv) as (t1 & _ & _ & _ & _ & Hr1 & ->).
  rewrite Hr in Hr1. unfold ranges_of in Hr1.
  destruct (nodes_to_locks t1 !! n) as [nl|]; [|by eexists]. cbn in Hr1. rewrite Hr1. by eexists.
Qed.

Lemma release_table_frees (t t' : gzochid_lock_table) (n : Z) :
  lock_inv t -> gzochid_lock_release_all t n = Ret t' -> forall k w, ~ holds t' n k w.
Proof.
  intros Hinv Hrun k w (q & l & Hl & Hn & _). destruct (release_all_inv t n t' Hinv Hrun) as [_ Hh].
  rewrite Hh in Hl. apply map_lookup_filter_Some in Hl as [_ Hne]. by cbn in Hne.
Qed.

Lemma release_stores_end (n : Z) (l : list (bytes * gzochi_metad_dataserver_application_store E)) :
  Forall (fun p => store_inv p.2 /\ no_ranges n p.2) l -> exists l', release_stores n l = Ret l'.
Proof.
  induction l as [|[app x] l IH]; intros Hl; [by exists []|].
  apply Forall_cons in Hl as [[[Ho Hm] [Hro Hrm]] Hl]. destruct (IH Hl) as (l' & Hrun).
  destruct (release_table_ends _ n Ho Hro) as (o & Hro'), (release_table_ends _ n Hm Hrm) as (m & Hrm').
  cbn [release_stores]. cbn [snd] in *. rewrite Hro', Hrm', Hrun. by eexists.
Qed.

Lemma release_stores_free (n : Z) (l : list (bytes * gzochi_metad_dataserver_application_store E)) : forall l',
  Forall (fun p => store_inv p.2) l -> release_stores n l = Ret l' ->
  Forall (fun p => forall st k w, lockable st -> ~ holds (table_of st p.2) n k w) l'.
Proof.
  induction l as [|[app x] l IH]; intros l' Hl Hrun; cbn [release_stores] in Hrun; [by simplify_eq|].
  apply Forall_cons in Hl as [[Ho Hm] Hl].
  apply bind_Ret in Hrun as (o & Hro & Hrun). apply bind_Ret in Hrun as (m & Hrm & Hrun).
  apply bind_Ret in Hrun as (l1 & Hrl & [= <-]). constructor; [|by apply IH].
  intros st k w [-> | ->]; [by apply (release_table_frees (oids_locks x))|by apply (release_table_frees (names_locks x))].
Qed.

Lemma release_server_ends (n : Z) (s : GzochiMetadDataServer E) :
  server_inv s -> (forall app x, application_stores s !! app = Some x -> no_ranges n x) ->
  exists s', gzochi_metad_dataserver_release_all n s = Ret s'.
Proof.
  intros Hs Hr. destruct (release_stores_end n (map_to_list (application_stores s))) as (l & Hrun).
  { apply Forall_forall. intros [app x] Hx. apply elem_of_map_to_list in Hx. split; [by eapply Hs|by eapply Hr]. }
  unfold gzochi_metad_dataserver_release_all. rewrite Hrun. by eexists.
Qed.

Lemma release_server_frees (n : Z) (s s' : GzochiMetadDataServer E) :
  server_inv s -> gzochi_metad_dataserver_release_all n s = Ret s' ->
  forall app st k w, lockable st -> ~ node_holds s' n app st k w.
Proof.
  intros Hs (l & Hrun & [= <-])%bind_Ret app st k w Hst (x & Hx & Hh). cbn in Hx.
  assert (Hall : Forall (fun p => store_inv p.2) (map_to_list (application_stores s))).
  { apply Forall_forall. intros [a y] Hy. apply elem_of_map_to_list in Hy. by eapply Hs. }
  pose proof (release_stores_free n _ _ Hall Hrun) as Hfree. rewrite Forall_forall in Hfree.
  apply elem_of_list_to_map_2 in Hx. by apply (Hfree (app, x) Hx st k w Hst).
Qed.

(** C35. What is left at the meta server of a node whose connection fails.  For a node without
    range locks the treatment of the error ends; the removal of range locks may not.  Whenever
    it ends, the channel and session servers do not know the node any more, its sessions and
    only its are unmapped, it holds no lock on a key, the locks on keys of the others and what
    is committed under them are as before, and its leaving is announced. *)
Theorem node_forgotten (n : Z) (p : positive) (W : meta_world E) (Hn : 0 <= n < 2 ^ 31)
    (Hs : SessionServer.session_reachable (sessionserver W)) (Hd : server_inv (dataserver W)) :
  let error := MetaServer.client_error engine initialize big_endian unset clock enumerate (MetaServerClient n p) W in
  ((forall app x, application_stores (dataserver W) !! app = Some x -> no_ranges n x) -> exists W', error = Ret W')
  /\ forall W', error = Ret W' ->
    ChannelServer.connected_servers (channelserver W')
       = base.delete n (ChannelServer.connected_servers (channelserver W))
    /\ SessionServer.connected_servers (sessionserver W')
       = base.delete n (SessionServer.connected_servers (sessionserver W))
    /\ (forall k, session_to_node (SessionServer.nodemap (sessionserver W')) !! k
         = if decide (session_to_node (SessionServer.nodemap (sessionserver W)) !! k = Some n) then None
           else session_to_node (SessionServer.nodemap (sessionserver W)) !! k)
    /\ (forall app st k w, lockable st -> ~ node_holds (dataserver W') n app st k w)
    /\ (forall m app st k w, m <> n -> lockable st -> node_holds (dataserver W) m app st k w ->
         node_holds (dataserver W') m app st k w
         /\ committed_value (durable := durable) (dataserver W') app st k
            = committed_value (durable := durable) (dataserver W) app st k)
    /\ MetaServer.event_source W' = MetaServer.event_source W ++ [CLIENT_DISCONNECTED n]
    /\ meta_sockets W' = meta_sockets W.
Proof.
  pose proof (SessionServer.session_reachable_inv _ Hs) as [Hm Hc]. cbv zeta.
  unfold MetaServer.client_error, on_part. cbn. unfold ChannelServer.client_error.
  unfold DataServerProtocol.client_error, SessionServer.client_error. cbn.
  rewrite (signed_small 32) by (done || (unfold in_signed; change (32 - 1) with 31; lia)).
  unfold ChannelServer.gzochi_metad_channelserver_server_disconnected,
    SessionServer.gzochi_metad_sessionserver_server_disconnected.
  split.
  { intros Hr. destruct (release_server_ends n (dataserver W) Hd Hr) as (d & Hrun).
    destruct (ChannelServer.connected_servers (channelserver W) !! n); cbn; rewrite Hrun; cbn;
    destruct (SessionServer.connected_servers (sessionserver W) !! n); by eexists. }
  intros W' HW. destruct (gzochi_metad_dataserver_release_all n (dataserver W)) as [d| | |] eqn:Hrun;
    [|destruct (ChannelServer.connected_servers (channelserver W) !! n); cbn in HW; by rewrite Hrun in HW..].
  pose proof (release_server_frees n _ _ Hd Hrun) as Hfree.
  pose proof (release_all_server_keeps (durable := durable) n _ _ Hrun Hd) as [_ Hkeep].
  destruct (ChannelServer.connected_servers (channelserver W) !! n) as [pc|] eqn:Hcn; cbn in HW; rewrite Hrun in HW;
    cbn in HW; destruct (SessionServer.connected_servers (sessionserver W) !! n) as [ps|] eqn:Hsn; cbn in HW.
  all: injection HW as <-; cbn.
  all: split_and!; try done; try (by rewrite delete_id); try (intros; by apply unmap_all_lookup).
  all: intros k; case_decide as Hk; [|done]; destruct (Hc _ _ Hk); congruence.
Qed.

End leaving.

(** ** A run of both *)

Definition sample_connection : gzochid_client_socket := ClientSocket true [] [] [108; 0] (Some false) false 2.

(** A node that has just connected and had one message to send. *)
Definition sample_app_node : app_node Z Z (list Z) unit :=
  AppNode (MetaClient.MetaClient (Some [108]) 9001 (Some [104; 0]) (Some [108; 58; 57; 0]) 5 true
             (Some (Attempted 1)) false [])
    (GameClient.Node ∅ ∅ [] (ReconnectableSocket None (stream [[1]]) [OnMetaClient])
       {[1%positive := sample_connection]})
    (DataClient.gzochid_data_client_constructed None None) [].

Definition sample_meta : meta_world map_engine_state :=
  MetaWorld ChannelServer.gzochi_metad_channel_server_init SessionServer.gzochi_metad_session_server_init
    sample_start [0] [] 8 {[2%positive := sample_connection]}.

Lemma sample_url (l : list Z) : Forall (fun b => 0 < b < 256) l -> (length l < 10)%nat -> url_ok l.
Proof.
  intros Hl Hlen. split; [|split; [|lia]]; eapply Forall_impl; try exact Hl; unfold byte_ok, in_unsigned; cbn; lia.
Qed.

Lemma node_logs_in_witness :
  exists w1 sk1, handle_events (Network None) sample_app_node = Ret w1
    /\ node_sockets (game w1) !! 1%positive = Some sk1
    /\ send_buffer sk1 = [0; 3; 16; 2; 104; 0; 0; 0; 1]
    /\ feed (P := gzochi_metad_metaserver_client_protocol map_engine sample_init false 0 (fun _ => Timeval 5 0)
                    map_to_list (MetaServerClient 7 2)) 2 [[[0; 3; 16]]; [[2; 104]; [0; 0; 0; 1]]] sample_meta
       = Ret (logged_in 7 2 [104] [] sample_connection sample_meta)
    /\ feed (P := gzochid_metaclient_client_protocol (fun _ _ x => Ret x) (fun _ _ x => Ret x)
                    (fun _ _ x => Ret x)) 1 [[[0; 2; 17; 2]]; [[0]]] w1
       = Ret (set_metaclient (MetaClient.gzochid_event_dispatch
             (META_SERVER_CONNECTED (Some [108; 58; 57; 0]) (Some [0])) (metaclient w1)) w1).
Proof.
  destruct (node_logs_in (engine := map_engine) (initialize := sample_init) (big_endian := false) (unset := 0)
    (clock := fun _ => Timeval 5 0) (enumerate := map_to_list) (call_success := fun (_ : Z) _ x => Ret x)
    (call_failure := fun _ _ x => Ret x) (call_oids := fun (_ : Z) _ x => Ret x)
    (Network None) 1 2 7 [104] [] [[1]] sample_connection sample_connection sample_app_node sample_meta)
    as (w1 & sk1 & H1 & _ & _ & H2 & H3 & H4 & H5).
  - by split.
  - reflexivity.
  - apply sample_url; [by repeat constructor|simpl; lia].
  - split; [apply sample_url; [by repeat constructor|simpl; lia]|simpl; lia].
  - lia.
  - reflexivity.
  - reflexivity.
  - reflexivity.
  - reflexivity.
  - reflexivity.
  - reflexivity.
  - repeat constructor; try done; simpl; lia.
  - reflexivity.
  - exists w1, sk1. split_and!; [exact H1|exact H2|by rewrite H3| |].
    + rewrite (H4 [[[0; 3; 16]]; [[2; 104]; [0; 0; 0; 1]]]); [reflexivity|by rewrite H3].
    + by apply H5.
Defined.

(** Node 1 has a session and a lock when its connection fails. *)
Definition sample_left : meta_world map_engine_state :=
  MetaWorld (ChannelServer.ChannelServer {[1 := 2%positive]})
    (SessionServer.dispatch_event (SessionServer.SESSION_CONNECTED 1 [97; 0])
       (SessionServer.with_nodemap
          (map_session gzochi_metad_nodemap_mem_new (QualifiedKey [97] 5) 1).2
          (SessionServer.with_servers {[1 := 2%positive]} SessionServer.gzochi_metad_session_server_init)))
    (sample_after 1 sample_start) [0] [] 8 {[2%positive := sample_connection]}.

Lemma node_forgotten_witness :
  node_holds (dataserver sample_left) 1 [97; 0] Names [107; 0] true
  /\ exists W', MetaServer.client_error map_engine sample_init false 0 (fun _ => Timeval 5 0) map_to_list
                  (MetaServerClient 1 2) sample_left = Ret W'
    /\ session_to_node (SessionServer.nodemap (sessionserver W')) !! QualifiedKey [97] 5 = None
    /\ ~ node_holds (dataserver W') 1 [97; 0] Names [107; 0] true.
Proof.
  destruct (node_forgotten (engine := map_engine) (initialize := sample_init) (big_endian := false)
    (unset := 0) (clock := fun _ => Timeval 5 0) (enumerate := map_to_list) (durable := committed)
    1 2 sample_left) as [Hend Hall].
  - lia.
  - eapply rtc_l; [by eapply (SessionServer.StepServerConnected _ 1 2%positive)|].
    eapply rtc_l; [|apply rtc_refl].
    by eapply (SessionServer.StepSessionConnected _ 1 [97; 0] 5 None).
  - apply (server_step_keeps (engine := map_engine) (view := map_view) (durable := committed)
      (initialize := sample_init) (big_endian := false) (unset := 0) 1 sample_start).
    + eapply (StepValue 1 _ _ (Timeval 5 0) [97; 0] names_name (GBytes 1 [107; 0]) true).
      vm_compute. reflexivity.
    + intros app x Hx. discriminate Hx.
  - assert (Hr : map_Forall (fun _ x => no_ranges 1 x) (application_stores (dataserver sample_left))).
    { unfold no_ranges. apply (bool_decide_unpack _). vm_compute. exact Logic.I. }
    destruct (Hend Hr) as (W' & H1). destruct (Hall W' H1) as (_ & _ & H2 & H3 & _).
    split.
    { eexists. split; [vm_compute; reflexivity|]. exists 1%positive. eexists. split; [vm_compute; reflexivity|].
      done. }
    exists W'. split; [exact H1|]. split; [by rewrite H2|]. apply H3. by right.
Defined.

(** ** What goes wrong *)

(** A meta server without a console answers with an empty address; the node announces that
    as an address, because the length it looks at counts the terminator. *)
Example empty_url_announced :
  match MetaClient.route (fun _ _ x => Ret x) (fun _ _ x => Ret x) (fun _ _ x => Ret x) (login_answer [])
          sample_app_node with
  | Ret w => MetaClient.event_source (metaclient w) = [META_SERVER_CONNECTED (Some [108; 58; 57; 0]) (Some [0])]
  | _ => False
  end.
Proof. reflexivity. Qed.

(** A connection that fails before the thread has given it to the others. *)
Example error_before_use : MetaClient.client_error sample_app_node = Abort.
Proof. reflexivity. Qed.

(** Who stops a node that cannot connect waits: the thread goes on with its attempts. *)
Example stop_waits_for_connection :
  let w := metaclient_stop_thread (move Connecting sample_app_node) in
  running (metaclient w) = false
  /\ handle_events (Network (Some GZOCHID_META_CLIENT_ERROR_NETWORK)) w = Ret w
  /\ gzochid_metaclient_stop w = Fuel.
Proof. by split_and!. Qed.

(** A log in with nothing in it is read past its end. *)
Example empty_login_read :
  feed (P := gzochi_metad_metaserver_client_protocol map_engine sample_init false 0 (fun _ => Timeval 5 0)
               map_to_list (MetaServerClient 7 2)) 2 [[[0; 0; 16]]] sample_meta = Undef.
Proof. vm_compute. reflexivity. Qed.
