(* ===== verification/MetaRelay.v ===== *)
(** * Notices about channels, between nodes that are logged in

    [Relay] over the connections that nodes really have: the meta server treats what it
    receives by the protocol of [MetaServer], and nodes by that of [MetaClient], which route
    a notice about a channel to the channel server and the channel client. *)

From S2P Require Import Prelude.
From S2P Require Import Io.
From S2P Require Import Util.
From S2P Require Import DataProtocol.
From S2P Require Import Storage.
From S2P Require Import Oids.
From S2P Require Import Socket.
From S2P Require Import Framing.
From S2P Require Import MetaProtocol.
From S2P Require Import Routing.
From S2P Require Import GameClient.
From S2P Require SessionServer.
From S2P Require ChannelServer.
From S2P Require ChannelClient.
From S2P Require Import Channel.
From S2P Require Import Relay.
From S2P Require Import DataServer.
From S2P Require Import MetaServer.
From S2P Require Import MetaClient.

Import ChannelServer (notice, Join, Leave, Close, Message, notice_to, relay_notice).

Local Open Scope Z_scope.

(** ** What a notice says

    About the node's part of a channel: a session that is connected to the node becomes a
    member or ceases to be one, the channel loses its members, or each of them is sent a
    message once and those without a client leave.  Without the application nothing happens. *)
Definition heard {I L} (app : bytes) (x : notice) (w w' : node I L) : Prop :=
  match lookup_application app w with
  | None => w' = w
  | Some y =>
      match x with
      | Join c s => exists y', w' = set_application app y' w
          /\ match oids_to_clients y !! s with
             | Some _ => changed y y' c (fun m => {[s]} ∪ m)
             | None => y' = y
             end
      | Leave c s => exists y', w' = set_application app y' w
          /\ match oids_to_clients y !! s with
             | Some _ => changed y y' c (fun m => m ∖ {[s]})
             | None => y' = y
             end
      | Close c => exists y', w' = set_application app y' w /\ changed y y' c (fun _ => ∅)
      | Message c msg => exists y', lookup_application app w' = Some y'
          /\ oids_to_clients y' = oids_to_clients y
          /\ members y' c = filter (fun s => is_Some (oids_to_clients y !! s)) (members y c)
          /\ sent_to (omap (session_socket y w) (default [] (channel_oids_to_local_session_oids y !! c)))
               msg (node_sockets w) (node_sockets w')
      end
  end.

(** A node that can hear it: its channels are well-formed, and the members that a message
    would go to can be reached. *)
Definition listening {I L} (app : bytes) (x : notice) (w : node I L) : Prop :=
  forall y, lookup_application app w = Some y -> channels_ok (channel_oids_to_local_session_oids y)
    /\ match x with
       | Message c _ => reachable_sessions y w (default [] (channel_oids_to_local_session_oids y !! c))
       | _ => True
       end.

Lemma notified_heard {I L} (app : bytes) (x : notice) (w : node I L) :
  notice_ok x -> listening app x w -> exists w', notified app x w = Ret w' /\ heard app x w w'.
Proof.
  intros Hx Hl. unfold listening in Hl. unfold heard.
  destruct x as [c s|c s|c|c msg]; cbn [notified];
    unfold ChannelClient.gzochid_channelclient_relay_join_to, ChannelClient.gzochid_channelclient_relay_leave_to,
      ChannelClient.gzochid_channelclient_relay_close_to, ChannelClient.gzochid_channelclient_relay_message_to;
    destruct (lookup_application app w) as [y|] eqn:Hy; try (by eexists);
    destruct (Hl y eq_refl) as [Hok Hr].
  - destruct (channel_membership_refines y c s Hok) as (Hj & _).
    destruct (gzochid_channel_join_direct c s y) as [e y']. eexists. split; [done|]. exists y'. split; [done|].
    destruct (oids_to_clients y !! s); [|by destruct Hj]. case_decide as Hin; destruct Hj as [_ Hj]; [|done].
    subst y'. split_and!; try done. set_solver.
  - destruct (channel_membership_refines y c s Hok) as (_ & Hj & _).
    destruct (gzochid_channel_leave_direct c s y) as [e y']. eexists. split; [done|]. exists y'. split; [done|].
    destruct (oids_to_clients y !! s); [|by destruct Hj]. case_decide as Hin; destruct Hj as [_ Hj]; [done|].
    subst y'. split_and!; try done. set_solver.
  - eexists. split; [done|]. eexists. split; [done|]. by apply close_direct_changed.
  - destruct Hx as (_ & _ & Hlen).
    destruct (channel_message_delivered app y w c msg Hy Hok Hr) as (y' & w' & -> & H); [lia|].
    exists w'. split; [done|]. by exists y'.
Qed.

(** ** Routing *)

Section relay.

Context {E T : Type} {engine : gzochid_storage_engine_interface E T} {initialize : bytes -> E}.
Context {be : bool} {unset : Z} {clock : positive -> timeval}.
Context {enumerate : gmap Z positive -> list (Z * positive)}.
Context {C O X I : Type}.
Context {call_success : C -> option bytes -> X -> outcome X}.
Context {call_failure : C -> timeval -> X -> outcome X}.
Context {call_oids : O -> gzochid_data_oids_block -> X -> outcome X}.

Lemma notice_up_routed (client : gzochi_metad_metaserver_client) (a : bytes) (x : notice) (W : meta_world E) :
  MetaServer.route engine initialize be unset clock enumerate client (notice_up a x) W
  = on_part (ChannelServer.dispatch_message be enumerate (node_id client) (notice_up a x)
               (Z.of_nat (length (notice_up a x)))) W
  /\ metaserver_readable (notice_up a x).
Proof. split; [by destruct x|]. destruct x; intros [=]. Qed.

Lemma notice_to_routed (a : bytes) (x : notice) (w : app_node C O X I) :
  MetaClient.route call_success call_failure call_oids (notice_to a x) w
  = on_part (ChannelClient.dispatch_message (notice_to a x) (Z.of_nat (length (notice_to a x)))) w
  /\ (Z.of_nat (length (notice_to a x)) <= 2 ^ 15 -> metaclient_readable (notice_to a x)).
Proof. split; [by destruct x|]. intros Hl. split; [|split; [|done]]; destruct x; intros [=]. Qed.


End relay.

(** *** Two nodes

    Sockets to the meta server at 1, and a game client's at 2; the session of the client is a
    member of a channel. *)

Definition sample_member : node unit listener :=
  GameClient.Node
    {[ [97; 0] := GameClient.ApplicationContext {[5 := 1%positive]} {[1%positive := 5]} {[9 := [5]]}
                    true [] ]}
    {[ 1%positive := GameClient.GameClient (Some [97; 0]) (Some tt) false 2%positive ]} []
    (ReconnectableSocket (Some 1%positive) [] [OnMetaClient])
    {[ 1%positive := sample_socket; 2%positive := sample_socket ]}.

Definition sample_app : app_node unit unit unit unit :=
  AppNode gzochid_meta_client_init sample_member (DataClient.gzochid_data_client_constructed None None) tt.

Definition sample_channel_meta : meta_world map_engine_state :=
  MetaWorld (ChannelServer.ChannelServer {[ 3 := 1%positive; 7 := 2%positive ]})
    SessionServer.gzochi_metad_session_server_init gzochi_metad_data_server_init [0] [] 8
    {[ 1%positive := sample_socket; 2%positive := sample_socket ]}.

Lemma sample_listening : listening ([97] ++ [0]) (Message 9 [1; 2]) (game sample_app).
Proof.
  intros y Hy. assert (y = GameClient.ApplicationContext {[5 := 1%positive]} {[1%positive := 5]} {[9 := [5]]} true [])
    as -> by (vm_compute in Hy; by injection Hy as <-). split.
  - intros c l Hl. cbn [channel_oids_to_local_session_oids] in Hl. apply lookup_singleton_Some in Hl as [_ <-].
    split_and!; [done|apply NoDup_singleton|by repeat constructor].
  - change (reachable_sessions (GameClient.ApplicationContext {[5 := 1%positive]} {[1%positive := 5]} {[9 := [5]]} true [])
      sample_member [5]). split; [apply NoDup_singleton|]. intros s cl _ Hs. cbn [oids_to_clients] in Hs.
    apply lookup_singleton_Some in Hs as [_ <-]. do 2 eexists. split_and!; reflexivity.
Qed.

